(* ===== verification/_CoqProject ===== *)
-Q . S2P
Prelude.v
Libc.v
Mst.v
Runlist.v
RunlistMerge.v
MappingPairs.v
Device.v
Fields.v
Cond.v
Boot.v
UefiIo.v
RunlistIO.v
Bitmap.v
Unistr.v
Utf.v
Collate.v
Lcnalloc.v
LcnallocProofs.v
LcnallocFree.v
Compress.v
CompressCodec.v
CompressSet.v
CompressSafe.v
Cache.v
CacheLists.v
CacheRep.v
CacheProofs.v
CacheKinds.v
CacheLru.v
AttrRec.v
AttrRecProofs.v
AttrRecOps.v
AttrRecResize.v
Index.v
IndexAdd.v
IndexNode.v
IndexTree.v
IndexOps.v
IndexSplit.v
IndexInv.v
IndexRoot.v
IndexGrow.v
IndexSearch.v
IndexInsert.v
IndexRoom.v
IndexEntry.v
IndexAdded.v
IndexWalk.v
IndexRm.v
IndexRemoved.v
Sid.v
SidProofs.v
MapFile.v
Acl.v
AclBuild.v
AclValid.v
AclRead.v
AclInherit.v
Logfile.v
LogfileProofs.v
LogfileMount.v
