(* ===== verification/Prelude.v ===== *)
(** * Verification of the NTFS driver (NtfsPkg): overview, and the shared prelude

    NtfsPkg is an NTFS file system driver for UEFI firmware.  [src/NtfsDxe/ntfs]
    holds the file system proper (a port of ntfs-3g), [src/NtfsDxe/libc] the C
    functions it is linked with, [src/NtfsDxe] itself the UEFI protocols on top.
    A request goes from a protocol through a path lookup in the directory indexes
    to an inode, whose MFT record holds attributes; the data of an attribute is in
    its record or in the clusters of its run list; clusters come from the
    allocator, which works on the volume's bitmap; bytes reach the disk through
    the device layer and the UEFI device.

    ** The files

    - this file: outcomes of C functions, fixed-width integers, access to arrays,
      little-endian fields, tactics;
    - [Libc.v] ([libc.c], [memmove.c]): memory, string and bit functions;
    - [Mst.v] ([mst.c]): records protected against torn writes;
    - [Runlist.v], [RunlistMerge.v] ([runlist.c]): run lists in their memory blocks:
      merging, lookup, truncation;
    - [MappingPairs.v] ([runlist.c]): run lists as they are on disk;
    - [Device.v] ([device.c]), [UefiIo.v] ([uefi_io.c]): the device layer over an
      interface of device operations with laws, and the UEFI implementation, which
      is shown to obey them;
    - [RunlistIO.v] ([runlist.c]): reading and writing through a run list, over the
      same interface;
    - [Fields.v]: little-endian fields of records in memory, moves of parts of them;
    - [Cond.v]: conditions that are evaluated from left to right, checks that end;
    - [Boot.v] ([bootsect.c]): the boot sector and the geometry of the volume;
    - [Bitmap.v] ([bitmap.c]): bits, and runs of bits in a bitmap attribute;
    - [Lcnalloc.v], [LcnallocProofs.v], [LcnallocFree.v] ([lcnalloc.c]): the cluster
      allocator, on top of the bitmap;
    - [Unistr.v], [Utf.v] ([unistr.c]): comparison and conversion of names;
    - [Collate.v] ([collate.c]): the orders of index keys;
    - [Compress.v], [CompressCodec.v], [CompressSet.v], [CompressSafe.v]
      ([compress.c]): the LZNT1 codec, its round trip, its safety on any input;
    - [Cache.v], [CacheLists.v], [CacheRep.v], [CacheProofs.v], [CacheKinds.v],
      [CacheLru.v] ([cache.c] and the callbacks in [dir.c] and [inode.c]): the LRU
      caches as pointer structures, their invariant, the refinement of an abstract
      least recently used cache;
    - [AttrRec.v], [AttrRecProofs.v], [AttrRecOps.v], [AttrRecResize.v] ([attrib.c]):
      the attribute records of an MFT record, as bytes and as a sorted list;
    - [Index.v], [IndexAdd.v] ([index.c]): index nodes, the search, and the adding of
      entries with the splitting of blocks and the growth of the root;
    - [IndexNode.v], [IndexOps.v], [IndexSplit.v], [IndexRoot.v]: nodes as lists of
      entries, and what the operations on one or two nodes do to these lists;
    - [IndexTree.v], [IndexSearch.v]: index trees as sorted lists of keys, the lookup;
    - [IndexInv.v], [IndexInsert.v], [IndexGrow.v], [IndexRoom.v], [IndexEntry.v]: the
      laws of the attributes of an index, the invariant of an index with its bitmap,
      trees with a node replaced or split, splitting up to the root, adding;
    - [IndexAdded.v]: what adding promises, and an index in memory that obeys the laws;
    - [IndexWalk.v] ([index.c], and its callers in [security.c]): reading an index in order;
    - [IndexRm.v], [IndexRemoved.v] ([index.c]): removing entries, and what the removal from
      a leaf promises;
    - [Sid.v], [SidProofs.v] ([acls.c]): SIDs and their association with uids and gids,
      explicit or by a pattern; [MapFile.v] ([acls.c]): the mapping file they are read from;
    - [Acl.v], [AclBuild.v], [AclValid.v], [AclRead.v] ([acls.c]): security descriptors:
      checks, permissions from a descriptor, a descriptor from permissions; which ACEs
      a mode stands for, which descriptors are accepted, and how they are read back;
    - [AclInherit.v] ([acls.c], and the descriptor of a new file in [security.c]): the
      inheritance of ACLs, and the memory it needs;
    - [Logfile.v], [LogfileProofs.v], [LogfileMount.v] ([logfile.c], and the check at
      mount in [volume.c]): the restart pages of the journal, their checks and search.

    ** How the code is modelled

    A C function is a Gallina function to [outcome]: [Ret] is a normal return, [Fail
    e] the return of the error value with [errno = e], [Fault] an access outside of
    the object a pointer points into.  A theorem that a function gives [Ret] or
    [Fail] thus says that it does not read or write out of bounds.  State that the
    code changes in place (a record, the bitmap of the volume, a cache) is passed
    and returned; where a failing call leaves changes behind, the result is a pair of
    the state and the outcome.  An object in memory is the list of its bytes (or of
    its 16-bit units, or of its elements), a pointer an offset into it; [rd], [wr],
    [rdn], [wrn] access it.  Integers are [Z]; [u8] .. [u64] and [s8] .. [s64] are written
    where the code stores or computes in a type in which the value may wrap.  The
    arithmetic of 64-bit file positions and cluster numbers is kept in [Z] where the
    code works on signed values whose overflow would be undefined; the theorems
    bound the inputs.  Comments before a definition give the file and lines it
    translates.

    What a component uses of others is either the other's definitions (names from
    [Unistr.v] in [AttrRec.v], the bitmap from [Bitmap.v] in [Lcnalloc.v]) or an
    interface: the device ([Device.device_operations] with [device_laws]), the bitmap
    attribute ([Bitmap.attr_io]), the firmware's disk protocol ([UefiIo]), the kinds of
    caches ([CacheProofs]), the entry in the attribute list ([AttrRec]), the attributes
    of an index ([Index.index_attrs], [IndexAdd.index_space], with the laws
    [IndexInv.index_laws]), the attribute of the journal ([Logfile.log_attr]), the
    reader of the mapping file ([MapFile]).

    Memory allocation succeeds or fails as a parameter says. The driver's own [realloc]
    (libc.c:122-133) copies the size of the new block from the old one, and so reads
    behind the old block whenever it grows. A [Libc.heap] therefore says, besides the sizes
    that can be allocated, what can be read behind a block; [Libc.realloc_block] is a
    [Fault] when that is too short. The theorems about code that grows a block (run lists,
    mapping pairs, the allocator, the caches, the entries of an index) have the
    hypothesis that it can be read ([Libc.readable]; for an index, eight bytes in
    [IndexAdded.sizes_ok]), and each of these files has an example of the access outside of
    the block. The sizes of this C library are [int]: run lists, holes and
    transfers are bounded where one is computed ([RunlistMerge.few], [Device.max_io],
    [UefiIo.transferable]).

    Loops are structural where the code counts; a loop that follows data gets fuel: the
    length of the record for a search in it, since every round goes forward by at least
    one byte; the number of bits or clusters for the windows of the allocator; the
    number of entries for a chain of a cache, whose invariant makes it acyclic; the
    bytes of the input for the codec; the levels of the path for the splitting of index
    blocks; the bits of the bitmap, which every round but one uses up one of, for the
    adding of an entry to an index; the 32 levels of a path for walking down an index,
    and for the removal of a block the levels of its path; the powers of two below the
    size for the search in the journal; twice the bytes of the mapping file for its
    lines. Running out of fuel is [Fault], so that the theorems that give a [Ret]
    include termination.

    ** What the theorems show

    Round trips (mapping pairs, the codec, UTF-8 and UTF-16, fixups, reads after
    writes); refinements (merging against the map from virtual to logical clusters, the
    caches against the abstract cache); invariants (allocation takes all or nothing, an
    MFT record stays well-formed and sorted, an index keeps its keys while blocks are
    split and when an entry of a leaf is removed, a volume is mounted only with a journal
    that says it is clean); termination of the adding to an
    index; a walk that returns every key of an index in order; safety of parsers on any
    input (mapping pairs, compressed data, names, security descriptors, the journal's
    restart pages); functional behaviour on every branch, the errors included; bounds of
    the geometry.

    ** Not modelled

    The glue to the firmware ([src/NtfsDxe/*.c]) and to the library's callers
    ([ntfsdir.c], [ntfsfile.c], [ntfsinternal.c], [ntfsvol.c]), mounting ([volume.c]),
    log messages and formatted output are sequences of calls or output. Inodes, the MFT,
    directories and attribute lists ([inode.c], [mft.c], [dir.c], [attrlist.c]) work on
    inodes that share MFT records, extents and open attributes through pointers, and
    call each other; a model of one of them without the others would have to invent what
    it calls. The same holds for the file $Secure ([security.c]), whose indexes are
    looked up, read and added to as in [Index.v], and for the data of attributes and the
    conversions between resident and non-resident ones in [attrib.c]. The reading of a
    compressed attribute through its run list is not modelled either. The components
    modelled here meet these at the interfaces above. Of the removal of index entries
    all is modelled; the replacing of an entry of an inner node by its successor and the
    removal of a whole leaf are run on an index of two leaves, in every order of up to
    four removals, and not proved in general.
    *)
From Stdlib Require Export ZArith ZifyBool Lia Bool.
From stdpp Require Export base numbers option list.

Global Open Scope Z_scope.
Global Set Default Goal Selector "!".

(** ** Outcomes of a C function

    [Ret]: the function returned; [Fail e]: it returned its error value
    (-1 or NULL) with [errno = e]; [Fault]: it accessed memory outside of the
    object it was given (undefined behaviour in C). *)
Inductive errno_t :=
| EIO | ENOMEM | EACCES | EEXIST | EINVAL | ENOSPC | ERANGE | ENAMETOOLONG
| EILSEQ | EOVERFLOW | EOPNOTSUPP | ENOENT | EROFS
| EINTR | EPERM
| EUNSET (** the error value is returned and [errno] is left as it was *).

#[global] Instance errno_t_eq_dec : EqDecision errno_t.
Proof. solve_decision. Defined.

Inductive outcome (A : Type) :=
| Ret (a : A)
| Fail (e : errno_t)
| Fault.
Arguments Ret {A} a.
Arguments Fail {A} e.
Arguments Fault {A}.

Definition obind {A B} (m : outcome A) (k : A -> outcome B) : outcome B :=
  match m with Ret a => k a | Fail e => Fail e | Fault => Fault end.

Declare Scope outcome_scope.
Delimit Scope outcome_scope with outcome.
Notation "'let!' x := m 'in' k" := (obind m (fun x => k))
  (at level 10, x pattern, m at level 100, k at level 200)
  : outcome_scope.
Global Open Scope outcome_scope.

(** A return code of 0 ([None]) or -1 with an [errno] ([Some e]), for the
    functions that also change their buffer when they fail. *)
Abbreviation status := (option errno_t).

Lemma obind_ret {A B} (m : outcome A) (k : A -> outcome B) (r : B) :
  obind m k = Ret r <-> exists a, m = Ret a /\ k a = Ret r.
Proof.
  split.
  - destruct m; simpl; naive_solver.
  - intros (a & -> & H). exact H.
Qed.

(** [inv_ret H] turns a hypothesis [let! x := m in k = Ret r] into the values
    of its steps. *)
Ltac inv_ret H :=
  repeat match type of H with
  | obind ?m _ = Ret _ =>
      let a := fresh "v" in let Ha := fresh "Hv" in
      apply obind_ret in H as (a & Ha & H)
  end.

(** [ostep] rewrites the next step of a goal [obind m k = _] with a
    hypothesis or lemma proving [m = Ret a]. *)
Tactic Notation "ostep" uconstr(E) := rewrite E; cbn [obind].

(** [safe Q o]: [o] accesses no memory outside of its objects, and its result,
    if it returns one, satisfies [Q]. *)
Definition safe {A} (Q : A -> Prop) (o : outcome A) : Prop :=
  match o with Ret a => Q a | Fail _ => True | Fault => False end.

Lemma safe_bind {A B} (P : A -> Prop) (Q : B -> Prop) m (k : A -> outcome B) :
  safe P m -> (forall a, P a -> safe Q (k a)) -> safe Q (obind m k).
Proof. destruct m; cbn; auto. Qed.

Lemma safe_weaken {A} (P Q : A -> Prop) m : safe P m -> (forall a, P a -> Q a) -> safe Q m.
Proof. destruct m; cbn; auto. Qed.

(** [guard H E] passes one check of the code: [H : (if c then error else k) = r]
    becomes [H : k = r] with [E : c = false]. *)
Tactic Notation "guard" hyp(H) ident(E) :=
  match type of H with
  | (if ?c then _ else _) = _ => destruct c eqn:E; [discriminate H|]
  end.

(** ** Machine integers *)
Definition wrapu (w z : Z) : Z := z mod 2 ^ w.
Definition wraps (w z : Z) : Z := (z + 2 ^ (w - 1)) mod 2 ^ w - 2 ^ (w - 1).
Abbreviation u8 := (wrapu 8).
Abbreviation u16 := (wrapu 16).
Abbreviation u32 := (wrapu 32).
Abbreviation u64 := (wrapu 64).
Abbreviation s8 := (wraps 8).
Abbreviation s16 := (wraps 16).
Abbreviation s32 := (wraps 32).
Abbreviation s64 := (wraps 64).

Definition in_u (w z : Z) : Prop := 0 <= z < 2 ^ w.
Definition in_s (w z : Z) : Prop := - 2 ^ (w - 1) <= z < 2 ^ (w - 1).

Lemma wrapu_small w z : in_u w z -> wrapu w z = z.
Proof. apply Z.mod_small. Qed.

Lemma wraps_small w z : 0 < w -> in_s w z -> wraps w z = z.
Proof.
  unfold in_s, wraps. intros Hw H.
  assert (2 ^ w = 2 * 2 ^ (w - 1)) as E.
  { rewrite <- Z.pow_succ_r by lia. f_equal; lia. }
  rewrite Z.mod_small; lia.
Qed.

Lemma wrapu_range w z : 0 <= w -> in_u w (wrapu w z).
Proof. intros. apply Z.mod_pos_bound. lia. Qed.

Lemma wraps_range w z : 0 < w -> in_s w (wraps w z).
Proof.
  unfold in_s, wraps. intros Hw.
  assert (2 ^ w = 2 * 2 ^ (w - 1)) as E.
  { rewrite <- Z.pow_succ_r by lia. f_equal; lia. }
  pose proof (Z.mod_pos_bound (z + 2 ^ (w - 1)) (2 ^ w)). lia.
Qed.

(** Bits above and below [n] are put together by [Z.lor] as by addition. *)
Lemma lor_add k y n : 0 <= n -> 0 <= y < 2 ^ n -> Z.lor (k * 2 ^ n) y = k * 2 ^ n + y.
Proof.
  intros Hn Hy. rewrite <- Z.lxor_lor, Z.add_nocarry_lxor; try done.
  all: apply Z.bits_inj'; intros i Hi; rewrite Z.land_spec, Z.bits_0;
    destruct (Z.ltb_spec i n); [rewrite Z.mul_pow2_bits_low by lia; done|].
  all: rewrite <- (Z.mod_small y (2 ^ n)) by done; rewrite Z.mod_pow2_bits_high by lia; by rewrite andb_false_r.
Qed.

(** [wsimp] removes the wrap-arounds of values that are in range. *)
Ltac wsimp :=
  repeat match goal with
  | |- context [wrapu ?w ?z] => rewrite (wrapu_small w z) by (unfold in_u; lia)
  | |- context [wraps ?w ?z] => rewrite (wraps_small w z) by (unfold in_s; lia)
  end.

(** [dlia]: linear arithmetic with divisions by constants. *)
Ltac dlia := Z.div_mod_to_equations; lia.

(** ** Arrays

    A C object is a list of cells; [rd] and [wr] are a load and a store at an
    index, [Fault] outside of the object. *)
Abbreviation bytes := (list Z).
Definition zlen {A} (l : list A) : Z := Z.of_nat (length l).
Definition byte_ok (b : Z) : Prop := 0 <= b < 256.

Definition rd {A} (l : list A) (i : Z) : outcome A :=
  if i <? 0 then Fault
  else match l !! Z.to_nat i with Some a => Ret a | None => Fault end.

Definition wr {A} (l : list A) (i : Z) (a : A) : outcome (list A) :=
  if (0 <=? i) && (i <? zlen l) then Ret (<[Z.to_nat i := a]> l) else Fault.

(** [sub l i n]: the cells [i .. i+n) of [l] ([memcpy] source). *)
Definition sub {A} (l : list A) (i n : Z) : list A :=
  take (Z.to_nat n) (drop (Z.to_nat i) l).
Definition rdn {A} (l : list A) (i n : Z) : outcome (list A) :=
  if n <=? 0 then Ret []
  else if (0 <=? i) && (i + n <=? zlen l) then Ret (sub l i n) else Fault.

(** [splice l i xs]: [l] with the cells from [i] on overwritten by [xs]
    ([memcpy] destination). *)
Definition splice {A} (l : list A) (i : Z) (xs : list A) : list A :=
  take (Z.to_nat i) l ++ xs ++ drop (Z.to_nat i + length xs) l.
Definition wrn {A} (l : list A) (i : Z) (xs : list A) : outcome (list A) :=
  match xs with
  | [] => Ret l
  | _ => if (0 <=? i) && (i + zlen xs <=? zlen l) then Ret (splice l i xs) else Fault
  end.

Arguments rd : simpl never.
Arguments wr : simpl never.
Arguments rdn : simpl never.
Arguments wrn : simpl never.

Lemma zlen_nonneg {A} (l : list A) : 0 <= zlen l.
Proof. unfold zlen; lia. Qed.
Lemma zlen_nil {A} : zlen (@nil A) = 0.
Proof. reflexivity. Qed.
Lemma zlen_cons {A} (a : A) l : zlen (a :: l) = 1 + zlen l.
Proof. unfold zlen; cbn [length]; lia. Qed.
Lemma zlen_app {A} (l k : list A) : zlen (l ++ k) = zlen l + zlen k.
Proof. unfold zlen; rewrite length_app; lia. Qed.
Lemma zlen_insert {A} (l : list A) n a : zlen (<[n := a]> l) = zlen l.
Proof. unfold zlen; rewrite length_insert; lia. Qed.
Lemma zlen_replicate {A} n (a : A) : zlen (replicate n a) = Z.of_nat n.
Proof. unfold zlen; rewrite length_replicate; lia. Qed.

Create Rewrite HintDb arr.
Create HintDb arr_db.
#[export] Hint Rewrite @zlen_nil @zlen_cons @zlen_app @zlen_insert @zlen_replicate : arr.
#[export] Hint Resolve zlen_nonneg : arr_db.

(** [zlia]: linear arithmetic with the lengths of lists normalised. *)
Ltac zlia :=
  autorewrite with arr in *;
  repeat match goal with
  | |- context [zlen ?l] =>
      lazymatch goal with _ : 0 <= zlen l |- _ => fail | _ => pose proof (zlen_nonneg l) end
  | _ : context [zlen ?l] |- _ =>
      lazymatch goal with _ : 0 <= zlen l |- _ => fail | _ => pose proof (zlen_nonneg l) end
  end; unfold zlen in *; lia.

Lemma rd_lookup {A} (l : list A) i a :
  rd l i = Ret a <-> 0 <= i /\ l !! Z.to_nat i = Some a.
Proof.
  unfold rd. destruct (Z.ltb_spec i 0); [naive_solver lia|].
  destruct (l !! Z.to_nat i) eqn:E; naive_solver.
Qed.

Lemma rd_some {A} (l : list A) i : 0 <= i < zlen l -> exists a, rd l i = Ret a.
Proof.
  intros H. destruct (lookup_lt_is_Some_2 l (Z.to_nat i)) as [a Ha]; [zlia|].
  exists a. apply rd_lookup. split; [lia|done].
Qed.

Lemma rd_bound {A} (l : list A) i a : rd l i = Ret a -> 0 <= i < zlen l.
Proof. rewrite rd_lookup. intros [H1 H2]. apply lookup_lt_Some in H2. zlia. Qed.

Lemma rd_fault {A} (l : list A) i : ~ (0 <= i < zlen l) -> rd l i = Fault.
Proof.
  intros H. unfold rd. destruct (Z.ltb_spec i 0); [done|].
  rewrite (lookup_ge_None_2 l); [done|zlia].
Qed.

Lemma rd_app_l {A} (l k : list A) i : i < zlen l -> rd (l ++ k) i = rd l i.
Proof.
  intros H. unfold rd. destruct (Z.ltb_spec i 0); [done|].
  rewrite lookup_app_l by zlia. done.
Qed.

Lemma rd_app_r {A} (l k : list A) i : zlen l <= i -> rd (l ++ k) i = rd k (i - zlen l).
Proof.
  intros H. pose proof (zlen_nonneg l). unfold rd.
  destruct (Z.ltb_spec i 0); [lia|]. destruct (Z.ltb_spec (i - zlen l) 0); [lia|].
  rewrite lookup_app_r by zlia.
  replace (Z.to_nat i - length l)%nat with (Z.to_nat (i - zlen l)) by zlia. done.
Qed.

Lemma rd_app_here {A} (l k : list A) a i : i = zlen l -> rd (l ++ a :: k) i = Ret a.
Proof. intros ->. rewrite rd_app_r by lia. rewrite Z.sub_diag. done. Qed.

Lemma rd_cons_0 {A} (a : A) l : rd (a :: l) 0 = Ret a.
Proof. done. Qed.

Lemma rd_cons_pos {A} (a : A) l i : 0 < i -> rd (a :: l) i = rd l (i - 1).
Proof. intros. apply (rd_app_r [a]). rewrite zlen_cons, zlen_nil. lia. Qed.

Lemma wr_ok {A} (l : list A) i a :
  0 <= i < zlen l -> wr l i a = Ret (<[Z.to_nat i := a]> l).
Proof.
  intros H. unfold wr.
  destruct (Z.leb_spec 0 i), (Z.ltb_spec i (zlen l)); simpl; done || lia.
Qed.

Lemma wr_inv {A} (l : list A) i a l' :
  wr l i a = Ret l' -> 0 <= i < zlen l /\ l' = <[Z.to_nat i := a]> l.
Proof.
  unfold wr. destruct (Z.leb_spec 0 i), (Z.ltb_spec i (zlen l)); simpl; try done.
  intros [= <-]. done.
Qed.

Lemma wr_app_here {A} (l k : list A) a b i :
  i = zlen l -> wr (l ++ a :: k) i b = Ret (l ++ b :: k).
Proof.
  intros ->. rewrite wr_ok by zlia. f_equal.
  replace (Z.to_nat (zlen l)) with (length l + 0)%nat by zlia.
  rewrite insert_app_r. done.
Qed.

Lemma wr_fault {A} (l : list A) i a : ~ (0 <= i < zlen l) -> wr l i a = Fault.
Proof.
  intros H. unfold wr.
  destruct (Z.leb_spec 0 i), (Z.ltb_spec i (zlen l)); simpl; done || lia.
Qed.

Lemma rd_insert {A} (l : list A) i j a :
  0 <= i < zlen l -> 0 <= j ->
  rd (<[Z.to_nat i := a]> l) j = if Z.eqb i j then Ret a else rd l j.
Proof.
  intros Hi Hj. unfold rd. destruct (Z.ltb_spec j 0); [lia|].
  destruct (Z.eqb_spec i j) as [->|Hn].
  - rewrite list_lookup_insert_eq; [done|zlia].
  - rewrite list_lookup_insert_ne; [done|lia].
Qed.

(** Loops that run a known number of times and may fault. *)
Fixpoint iter_out {S} (n : nat) (f : S -> outcome S) (s : S) : outcome S :=
  match n with
  | O => Ret s
  | S n' => let! s' := f s in iter_out n' f s'
  end.

Lemma iter_out_inv {S} (P : nat -> S -> Prop) n f s :
  P n s ->
  (forall k x, P (Datatypes.S k) x -> exists y, f x = Ret y /\ P k y) ->
  exists r, iter_out n f s = Ret r /\ P O r.
Proof.
  intros H0 Hstep. revert s H0. induction n as [|n IH]; intros s H0; cbn.
  - eauto.
  - destruct (Hstep _ _ H0) as (y & -> & Hy). cbn. auto.
Qed.

(** *** Ranges of arrays *)
Lemma rdn_ok {A} (l : list A) i n :
  0 <= i -> 0 <= n -> i + n <= zlen l -> rdn l i n = Ret (sub l i n).
Proof.
  intros. unfold rdn. destruct (Z.leb_spec n 0).
  - replace n with 0 by lia. done.
  - destruct (Z.leb_spec 0 i), (Z.leb_spec (i + n) (zlen l)); simpl; done || lia.
Qed.

Lemma wrn_ok {A} (l : list A) i xs :
  0 <= i -> i + zlen xs <= zlen l -> wrn l i xs = Ret (splice l i xs).
Proof.
  intros. unfold wrn. destruct xs as [|x xs].
  - unfold splice. cbn. by rewrite Nat.add_0_r, take_drop.
  - destruct (Z.leb_spec 0 i), (Z.leb_spec (i + zlen (x :: xs)) (zlen l)); simpl; done || lia.
Qed.

Lemma zlen_sub {A} (l : list A) i n :
  0 <= i -> 0 <= n -> i + n <= zlen l -> zlen (sub l i n) = n.
Proof. intros. unfold sub, zlen. rewrite length_take, length_drop. zlia. Qed.

Lemma sub_app_here {A} (l m k : list A) i n :
  i = zlen l -> n = zlen m -> sub (l ++ m ++ k) i n = m.
Proof.
  intros -> ->. unfold sub.
  rewrite drop_app_length' by zlia. rewrite take_app_length' by zlia. done.
Qed.

Lemma splice_app_here {A} (l m k xs : list A) i :
  i = zlen l -> zlen m = zlen xs -> splice (l ++ m ++ k) i xs = l ++ xs ++ k.
Proof.
  intros -> Hm. unfold splice. rewrite take_app_length' by zlia. f_equal. f_equal.
  rewrite (assoc_L (++)). rewrite drop_app_length'; [done|]. rewrite length_app. zlia.
Qed.

Lemma wrn_app_here {A} (l m k xs : list A) i :
  i = zlen l -> zlen m = zlen xs -> wrn (l ++ m ++ k) i xs = Ret (l ++ xs ++ k).
Proof.
  intros -> Hm. unfold wrn. destruct xs as [|x xs].
  - destruct m; [done|zlia].
  - destruct (Z.leb_spec 0 (zlen l)), (Z.leb_spec (zlen l + zlen (x :: xs)) (zlen (l ++ m ++ k)));
      simpl; try zlia.
    by rewrite splice_app_here.
Qed.

Lemma rdn_app_here {A} (l m k : list A) i n :
  i = zlen l -> n = zlen m -> rdn (l ++ m ++ k) i n = Ret m.
Proof.
  intros -> ->. rewrite rdn_ok by zlia. by rewrite sub_app_here.
Qed.

Lemma zlen_splice {A} (l : list A) i xs :
  0 <= i -> i + zlen xs <= zlen l -> zlen (splice l i xs) = zlen l.
Proof.
  intros. unfold splice, zlen. rewrite !length_app, length_take, length_drop. zlia.
Qed.

Lemma list_eq_rd {A} (l k : list A) :
  zlen l = zlen k -> (forall i, 0 <= i < zlen l -> rd l i = rd k i) -> l = k.
Proof.
  intros Hl H. apply list_eq. intros i.
  destruct (decide (i < length l)%nat) as [Hi|Hi].
  - specialize (H (Z.of_nat i) ltac:(zlia)). unfold rd in H.
    destruct (Z.ltb_spec (Z.of_nat i) 0); [lia|]. rewrite !Nat2Z.id in H.
    destruct (l !! i), (k !! i); congruence.
  - rewrite !lookup_ge_None_2; [done|zlia|lia].
Qed.

Lemma rd_Some {A} (l : list A) j :
  0 <= j -> rd l j = match l !! Z.to_nat j with Some a => Ret a | None => Fault end.
Proof. intros. unfold rd. destruct (Z.ltb_spec j 0); [lia|done]. Qed.

Lemma rd_splice {A} (l : list A) i xs j :
  0 <= i -> i + zlen xs <= zlen l -> 0 <= j ->
  rd (splice l i xs) j = if (i <=? j) && (j <? i + zlen xs) then rd xs (j - i) else rd l j.
Proof.
  intros Hi Hl Hj. unfold splice.
  assert (zlen (take (Z.to_nat i) l) = i) as Ht by (unfold zlen; rewrite length_take; zlia).
  destruct (Z.leb_spec i j); cbn [andb].
  - rewrite rd_app_r by lia. destruct (Z.ltb_spec j (i + zlen xs)).
    + rewrite Ht. apply rd_app_l. lia.
    + rewrite rd_app_r by lia. rewrite !rd_Some by lia. rewrite lookup_drop.
      replace (Z.to_nat i + length xs + Z.to_nat (j - zlen (take (Z.to_nat i) l) - zlen xs))%nat
        with (Z.to_nat j) by (rewrite Ht; zlia). done.
  - rewrite rd_app_l by lia. rewrite !rd_Some by lia. rewrite lookup_take.
    by rewrite decide_True by lia.
Qed.

Lemma rd_sub {A} (l : list A) i n j :
  0 <= i -> 0 <= j -> rd (sub l i n) j = if j <? n then rd l (i + j) else Fault.
Proof.
  intros Hi Hj. unfold sub. rewrite !rd_Some by lia. rewrite lookup_take.
  destruct (Z.ltb_spec j n).
  - rewrite decide_True by lia. rewrite lookup_drop.
    by replace (Z.to_nat i + Z.to_nat j)%nat with (Z.to_nat (i + j)) by lia.
  - by rewrite decide_False by lia.
Qed.

Lemma sub_sub {A} (l : list A) i n j m :
  0 <= i -> 0 <= j -> j + m <= n -> sub (sub l i n) j m = sub l (i + j) m.
Proof.
  intros. unfold sub. rewrite skipn_firstn_comm, take_take, drop_drop. f_equal; [lia|f_equal; lia].
Qed.

Lemma sub_app {A} (l : list A) i n m :
  0 <= i -> 0 <= n -> 0 <= m -> sub l i n ++ sub l (i + n) m = sub l i (n + m).
Proof.
  intros. unfold sub. rewrite !Z2Nat.inj_add by lia. rewrite <- drop_drop.
  by rewrite take_take_drop.
Qed.

Lemma sub_all {A} (l : list A) : sub l 0 (zlen l) = l.
Proof. unfold sub, zlen. rewrite Nat2Z.id. apply firstn_all. Qed.

Lemma sub_0 {A} (l : list A) i : sub l i 0 = [].
Proof. done. Qed.

Lemma splice_nil {A} (l : list A) i : splice l i [] = l.
Proof. unfold splice. cbn. rewrite Nat.add_0_r. apply take_drop. Qed.

(** Overwriting two adjacent ranges. *)
Lemma splice_splice {A} (l : list A) i xs ys :
  0 <= i -> i + zlen xs + zlen ys <= zlen l ->
  splice (splice l i xs) (i + zlen xs) ys = splice l i (xs ++ ys).
Proof.
  intros Hi Hl. pose proof (zlen_nonneg xs). pose proof (zlen_nonneg ys).
  assert (zlen (splice l i xs) = zlen l) as E1 by (apply zlen_splice; lia).
  apply list_eq_rd.
  - rewrite !zlen_splice; rewrite ?zlen_app, ?E1; lia.
  - intros j Hj. rewrite zlen_splice in Hj by lia.
    rewrite !rd_splice by (rewrite ?zlen_app, ?E1; lia). rewrite zlen_app.
    destruct (Z.leb_spec i j), (Z.leb_spec (i + zlen xs) j); cbn [andb]; try lia; try done.
    + destruct (Z.ltb_spec j (i + zlen xs + zlen ys)), (Z.ltb_spec j (i + (zlen xs + zlen ys)));
        try lia.
      * rewrite rd_app_r by lia. f_equal. lia.
      * destruct (Z.ltb_spec j (i + zlen xs)); [lia|done].
    + destruct (Z.ltb_spec j (i + zlen xs)), (Z.ltb_spec j (i + (zlen xs + zlen ys))); try lia.
      by rewrite rd_app_l by lia.
Qed.

(** Reading back an overwritten range, and the rest. *)
Lemma sub_splice_same {A} (l : list A) i xs :
  0 <= i -> i + zlen xs <= zlen l -> sub (splice l i xs) i (zlen xs) = xs.
Proof.
  intros. unfold splice. apply sub_app_here; [|done]. unfold zlen. rewrite length_take. zlia.
Qed.

(** A range of a list in which a part of the range is overwritten. *)
Lemma sub_splice_inside {A} (l : list A) i n p xs :
  0 <= i -> 0 <= p -> p + zlen xs <= n -> i + n <= zlen l ->
  sub (splice l (i + p) xs) i n = splice (sub l i n) p xs.
Proof.
  intros Hi Hp Hx Hl. pose proof (zlen_nonneg xs).
  assert (zlen (sub l i n) = n) as Hz by (apply zlen_sub; lia).
  apply list_eq_rd.
  - rewrite zlen_splice by lia. rewrite Hz. apply zlen_sub; [lia..|]. rewrite zlen_splice; lia.
  - intros j Hj. rewrite zlen_sub in Hj by (rewrite ?zlen_splice; lia).
    rewrite rd_sub, !rd_splice, rd_sub by lia.
    destruct (Z.ltb_spec j n); [|lia].
    destruct (Z.leb_spec (i + p) (i + j)), (Z.ltb_spec (i + j) (i + p + zlen xs)),
      (Z.leb_spec p j), (Z.ltb_spec j (p + zlen xs)); cbn [andb]; try lia; try done.
    f_equal. lia.
Qed.

(** ** Little-endian fields of a byte buffer *)

(** [n] bytes at [i] as an unsigned number. *)
Fixpoint rd_le (n : nat) (b : bytes) (i : Z) : outcome Z :=
  match n with
  | O => Ret 0
  | S n' => let! x := rd b i in let! r := rd_le n' b (i + 1) in Ret (x + 256 * r)
  end.

Fixpoint le_bytes (n : nat) (v : Z) : bytes :=
  match n with
  | O => []
  | S n' => v mod 256 :: le_bytes n' (v / 256)
  end.

Lemma zlen_le_bytes n v : zlen (le_bytes n v) = Z.of_nat n.
Proof. revert v. induction n as [|n IH]; intros v; cbn [le_bytes]; [done|]. rewrite zlen_cons, IH. lia. Qed.
#[export] Hint Rewrite zlen_le_bytes : arr.

(** What is stored as [n] bytes reads back modulo [2^(8n)]. *)
Lemma rd_le_bytes n l v k i :
  i = zlen l -> rd_le n (l ++ le_bytes n v ++ k) i = Ret (v mod 256 ^ Z.of_nat n).
Proof.
  revert l v i. induction n as [|n IH]; intros l v i ->; cbn [rd_le le_bytes].
  - by rewrite Z.mod_1_r.
  - cbn [app]. rewrite rd_app_here by done. cbn [obind].
    rewrite (cons_middle _ l), (assoc_L (++)), IH by zlia. cbn [obind]. f_equal.
    rewrite Nat2Z.inj_succ, Z.pow_succ_r by lia.
    rewrite (Z.mul_comm 256), Z.rem_mul_r by lia. lia.
Qed.
