(* ===== verification/Libc.v ===== *)
(** * The C library of the driver (libc/libc.c, libc/memmove.c)

    The driver brings its own versions of the C string and memory functions.
    Objects are lists of bytes (0..255) or, for [wchar_t], of 16-bit units;
    [char] is signed, so that a byte [b] is compared as [s8 b].  A pointer into
    a source object is the rest of the list from there on; reading past the
    object is a [Fault]. *)
From S2P Require Import Prelude.

(** libc.c:24-24 ffs. One of the five lines, [if (!(x & mask)) { x >>= w; r += w; }],
    with [mask] the [w] low bits. *)
Definition ffs_round (w : Z) (xr : Z * Z) : Z * Z :=
  let '(x, r) := xr in
  if Z.land x (Z.ones w) =? 0 then (Z.shiftr x w, r + w) else (x, r).

(** libc.c:20-31 ffs *)
Definition ffs (x : Z) : Z :=
  if x =? 0 then 0
  else snd (ffs_round 1 (ffs_round 2 (ffs_round 4 (ffs_round 8 (ffs_round 16 (x, 1)))))).

(** ** Memory *)

(** libc.c:40-49 memcmp. The loop, [n] bytes to go. *)
Fixpoint memcmp_loop (n : nat) (dst src : bytes) : outcome Z :=
  match n with
  | O => Ret 0
  | S n' =>
    match dst, src with
    | a :: dst', b :: src' => if s8 a =? s8 b then memcmp_loop n' dst' src' else Ret (-1)
    | _, _ => Fault
    end
  end.

(** libc.c:34-52 memcmp *)
Definition memcmp (dst src : bytes) (size : Z) : outcome Z := memcmp_loop (Z.to_nat size) dst src.

(** libc.c:59-62 memcpy. The loop, for a source in another object. *)
Fixpoint memcpy_loop (n : nat) (dst : bytes) (d : Z) (src : bytes) (s : Z) : outcome bytes :=
  match n with
  | O => Ret dst
  | S n' =>
    let! c := rd src s in
    let! dst := wr dst d c in
    memcpy_loop n' dst (d + 1) src (s + 1)
  end.

(** libc.c:54-65 memcpy *)
Definition memcpy (dst : bytes) (d : Z) (src : bytes) (s size : Z) : outcome bytes :=
  memcpy_loop (Z.to_nat size) dst d src s.

(** libc.c:71-74 memset. The loop. *)
Fixpoint memset_loop (n : nat) (dst : bytes) (d pattern : Z) : outcome bytes :=
  match n with
  | O => Ret dst
  | S n' => let! dst := wr dst d (u8 pattern) in memset_loop n' dst (d + 1) pattern
  end.

(** libc.c:67-77 memset *)
Definition memset (dst : bytes) (d pattern size : Z) : outcome bytes :=
  memset_loop (Z.to_nat size) dst d pattern.

(** libc.c:79-87 memchr. There is no size argument: the index of the first
    byte that compares equal. *)
Fixpoint memchr_from (src : bytes) (c i : Z) : outcome Z :=
  match src with
  | [] => Fault
  | b :: src' => if s8 b =? c then Ret i else memchr_from src' c (i + 1)
  end.
Definition memchr (src : bytes) (c : Z) : outcome Z := memchr_from src c 0.

(** libc.c:112-115 malloc. [pool] says which allocations succeed; the block
    is zeroed. *)
Definition malloc (pool : Z -> bool) (size : Z) : option bytes :=
  if pool size then Some (replicate (Z.to_nat size) 0) else None.

(** libc.c:117-120 calloc *)
Definition calloc (pool : Z -> bool) (nmemb lsize : Z) : option bytes :=
  malloc pool (s32 (nmemb * lsize)).

(** libc.c:122-133 realloc. It copies [size] bytes, the size of the new block, from the old
    one; [behind] are the bytes that follow the old block in memory and can be read. *)
Definition realloc (pool : Z -> bool) (behind : bytes) (ptr : option bytes) (size : Z) : outcome (option bytes) :=
  match ptr, malloc pool size with
  | Some old, Some nb => let! nb := memcpy nb 0 (old ++ behind) 0 size in Ret (Some nb)
  | _, nb => Ret nb
  end.

(** The memory that a function takes its blocks from, for blocks of elements of the type
    [A]: which sizes can be allocated, and which elements can be read behind the block [old]
    when [k] of them are read. *)
Record heap (A : Type) := Heap { pool :> Z -> bool; behind : list A -> Z -> list A }.
Arguments Heap {_} _ _.
Arguments pool {_} _ _.
Arguments behind {_} _ _ _.

(** libc.c:122-133 realloc. A block [old] of elements is moved to one of [size] bytes, with
    [n] elements; None: there is no memory, and the old block stays. *)
Definition realloc_block {A} (h : heap A) (old : list A) (size n : Z) : outcome (option (list A)) :=
  if h size then let! nb := rdn (old ++ behind h old (n - zlen old)) 0 n in Ret (Some nb) else Ret None.

(** What [realloc] reads behind the old block can be read. *)
Definition readable {A} (h : heap A) : Prop := forall old k, k <= zlen (behind h old k).

(** A heap without limits, whose memory goes on with [x]; for examples. *)
Definition full_heap {A} (x : A) : heap A := Heap (fun _ => true) (fun _ k => replicate (Z.to_nat k) x).

(** ** Strings *)

(** libc.c:141-150 strchr. The index of the first occurrence, [None] for
    NULL. *)
Fixpoint strchr_from (src : bytes) (character i : Z) : outcome (option Z) :=
  match src with
  | [] => Fault
  | b :: src' =>
    if b =? 0 then Ret None
    else if s8 b =? character then Ret (Some i) else strchr_from src' character (i + 1)
  end.
Definition strchr (src : bytes) (character : Z) : outcome (option Z) := strchr_from src character 0.

(** libc.c:157-165 strcpy *)
Fixpoint strcpy_from (destination : bytes) (d : Z) (source : bytes) : outcome bytes :=
  match source with
  | [] => Fault
  | b :: source' =>
    if b =? 0 then Ret destination
    else let! destination := wr destination d b in strcpy_from destination (d + 1) source'
  end.
Definition strcpy (destination source : bytes) : outcome bytes := strcpy_from destination 0 source.

(** libc.c:172-180 strlen *)
Fixpoint strlen_from (str : bytes) (size : Z) : outcome Z :=
  match str with
  | [] => Fault
  | b :: str' => if b =? 0 then Ret size else strlen_from str' (size + 1)
  end.
Definition strlen (str : bytes) : outcome Z := strlen_from str 0.

(** libc.c:182-190 wstrlen. The same on 16-bit units. *)
Definition wstrlen (str : list Z) : outcome Z := strlen_from str 0.

(** libc.c:198-199 strcat. The loop has an empty body: only [p] moves, and the
    store happens once, after it. *)
Fixpoint strcat_skip (source : bytes) (p : Z) : outcome Z :=
  match source with
  | [] => Fault
  | b :: source' => if b =? 0 then Ret p else strcat_skip source' (p + 1)
  end.

(** libc.c:192-202 strcat *)
Definition strcat (destination source : bytes) : outcome bytes :=
  let! n := strlen destination in
  let! p := strcat_skip source (n + 1) in
  wr destination p 0.

(** libc.c:215-219 strcmp. The loop. *)
Fixpoint strcmp_loop (str1 str2 : bytes) : outcome Z :=
  match str1 with
  | [] => Fault
  | a :: str1' =>
    if a =? 0 then Ret 0
    else match str2 with
    | [] => Fault
    | b :: str2' => if negb (a =? b) then Ret (-1) else strcmp_loop str1' str2'
    end
  end.

(** libc.c:204-220 strcmp *)
Definition strcmp (str1 str2 : bytes) : outcome Z :=
  let! l1 := strlen str1 in
  let! l2 := strlen str2 in
  if l1 <? l2 then Ret (-1)
  else if l1 <? l2 then Ret 1
  else strcmp_loop str1 str2.

(** libc.c:230-233 strncpy. The loop and the terminator after it. *)
Fixpoint strncpy_loop (destination : bytes) (d : Z) (source : bytes) (num : nat) : outcome bytes :=
  match source with
  | [] => Fault
  | b :: source' =>
    match num with
    | S num' =>
      if b =? 0 then wr destination d 0
      else let! destination := wr destination d b in
           strncpy_loop destination (d + 1) source' num'
    | O => wr destination d 0
    end
  end.

(** libc.c:226-236 strncpy *)
Definition strncpy (destination source : bytes) (num : Z) : outcome bytes :=
  strncpy_loop destination 0 source (Z.to_nat num).

(** libc.c:244-254 strncmp. The loop and the result: how far [destination] was
    followed, [None] for NULL. *)
Fixpoint strncmp_loop (destination source : bytes) (num : nat) (i : Z) : outcome (option Z) :=
  match destination, source with
  | a :: destination', b :: source' =>
    match num with
    | S num' => if a =? b then strncmp_loop destination' source' num' (i + 1) else Ret None
    | O => Ret (Some i)
    end
  | _, _ => Fault
  end.

(** libc.c:242-255 strncmp *)
Definition strncmp (destination source : bytes) (num : Z) : outcome (option Z) :=
  strncmp_loop destination source (Z.to_nat num) 0.

(** libc.c:263-265 strrchr. The loop, downwards from [l]. *)
Fixpoint strrchr_loop (str : bytes) (character : Z) (l : nat) : outcome (option Z) :=
  match l with
  | O => Ret None
  | S l' =>
    let! b := rd str (Z.of_nat l') in
    if s8 b =? character then Ret (Some (Z.of_nat l')) else strrchr_loop str character l'
  end.

(** libc.c:257-269 strrchr *)
Definition strrchr (str : bytes) (character : Z) : outcome (option Z) :=
  let! l := strlen str in strrchr_loop str character (Z.to_nat l).

(** libc.c:281-286 toupper. On the signed value of a [char]. *)
Definition toupper (c : Z) : Z := if (97 <=? c) && (c <=? 122) then s8 (c + (65 - 97)) else c.

(** libc.c:288-295 tolower *)
Definition tolower (c : Z) : Z := if (65 <=? c) && (c <=? 90) then s8 (c - (65 - 97)) else c.

(** libc.c:298-309 stricmp *)
Fixpoint stricmp (s1 s2 : bytes) : outcome Z :=
  match s1, s2 with
  | a :: s1', b :: s2' =>
    let c1 := tolower (s8 a) in
    let c2 := tolower (s8 b) in
    if (c1 =? c2) && negb (c1 =? 0) then stricmp s1' s2' else Ret (c1 - c2)
  | _, _ => Fault
  end.

(** libc.c:328-341 wstricmp_s. Only the low byte of a unit is compared. *)
Fixpoint wstricmp_s (w1 : list Z) (l1 : Z) (w2 : list Z) (l2 : Z) : outcome Z :=
  match w1, w2 with
  | a :: w1', b :: w2' =>
    let c1 := tolower (s8 a) in
    let c2 := tolower (s8 b) in
    let l1 := l1 - 1 in
    let l2 := l2 - 1 in
    if (c1 =? c2) && negb (c1 =? 0) && (0 <? l1) && (0 <? l2)
    then wstricmp_s w1' l1 w2' l2 else Ret (c1 - c2)
  | _, _ => Fault
  end.

(** libc.c:311-326 wstricmp. The same loop on the lengths of the strings. *)
Definition wstricmp (w1 w2 : list Z) : outcome Z :=
  let! len1 := wstrlen w1 in
  let! len2 := wstrlen w2 in
  wstricmp_s w1 len1 w2 len2.

(** libc.c:344-357 wstrcpy_s *)
Definition wstrcpy_s (destination : list Z) (size : Z) (source : list Z) : outcome (list Z) :=
  strncpy_loop destination 0 source (Z.to_nat size).

(** libc.c:359-365 strdup. A failed allocation is written to. *)
Definition strdup (pool : Z -> bool) (str : bytes) : outcome bytes :=
  let! l := strlen str in
  match malloc pool (l + 1) with
  | Some d => strcpy d str
  | None => if l =? 0 then Ret [] else Fault
  end.

(** memmove.c:41-45 memmove. The copy from lower to higher addresses, [dst]
    and [src] in the same object. *)
Fixpoint memmove_up (n : nat) (b : bytes) (dst src : Z) : outcome bytes :=
  match n with
  | O => Ret b
  | S n' =>
    let! c := rd b src in
    let! b := wr b dst c in
    memmove_up n' b (dst + 1) (src + 1)
  end.

(** memmove.c:52-59 memmove. The copy from higher to lower addresses; the last
    of the [n] bytes first. *)
Fixpoint memmove_down (n : nat) (b : bytes) (dst src : Z) : outcome bytes :=
  match n with
  | O => Ret b
  | S n' =>
    let! c := rd b (src + Z.of_nat n') in
    let! b := wr b (dst + Z.of_nat n') c in
    memmove_down n' b dst src
  end.

(** memmove.c:32-63 memmove *)
Definition memmove (b : bytes) (dst src count : Z) : outcome bytes :=
  if (dst <=? src) || (src + count <=? dst) then memmove_up (Z.to_nat count) b dst src
  else memmove_down (Z.to_nat count) b dst src.

(** ** What they compute *)

(** *** ffs *)
(** [lowest x k]: bit [k] is the lowest bit set in [x]. *)
Definition lowest (x k : Z) : Prop := x mod 2 ^ k = 0 /\ x mod 2 ^ (k + 1) <> 0.

Lemma mod_shifted x j k :
  0 <= j -> 0 <= k -> x mod 2 ^ j = 0 -> x mod 2 ^ (j + k) = 2 ^ j * (Z.shiftr x j mod 2 ^ k).
Proof.
  intros Hj Hk H. rewrite Z.shiftr_div_pow2, Z.pow_add_r by lia.
  rewrite <- Zmult_mod_distr_l. f_equal. pose proof (Z.div_mod x (2 ^ j)). lia.
Qed.

(** What the rounds keep: [x0] is shifted down to [x], and [x] still has a
    bit among its [w] low ones. *)
Definition ffs_inv (x0 w : Z) (xr : Z * Z) : Prop :=
  1 <= snd xr /\ fst xr mod 2 ^ w <> 0 /\
  forall k, 0 <= k -> lowest (fst xr) k -> lowest x0 (snd xr - 1 + k).

Lemma ffs_round_inv x0 w xr :
  0 < w -> ffs_inv x0 (2 * w) xr -> ffs_inv x0 w (ffs_round w xr).
Proof.
  destruct xr as [x r]. intros Hw (H1 & H2 & H3). unfold ffs_round, ffs_inv in *. cbn [fst snd] in *.
  rewrite Z.land_ones by lia. destruct (Z.eqb_spec (x mod 2 ^ w) 0) as [E|E]; [|done]. cbn [fst snd].
  split_and!; [lia| |].
  - replace (2 * w) with (w + w) in H2 by lia. rewrite mod_shifted in H2 by lia. intros H. apply H2.
    rewrite H. lia.
  - intros k Hk [L1 L2]. replace (r + w - 1 + k) with (r - 1 + (w + k)) by lia. apply H3; [lia|].
    unfold lowest. rewrite <- Z.add_assoc, (mod_shifted x w k), (mod_shifted x w (k + 1)) by lia.
    split; [by rewrite L1, Z.mul_0_r|].
    apply Z.neq_mul_0. split; [apply Z.pow_nonzero; lia|done].
Qed.

(** [ffs] on a nonzero 32-bit integer is one more than the number of its
    lowest bit that is set. *)
Theorem ffs_spec x : in_s 32 x -> x <> 0 -> 1 <= ffs x /\ lowest x (ffs x - 1).
Proof.
  intros Hx Hne. unfold ffs. destruct (Z.eqb_spec x 0); [done|].
  set (xr := ffs_round 1 _).
  assert (ffs_inv x 1 xr) as (H1 & H2 & H3).
  { unfold xr. do 5 (apply ffs_round_inv; [lia|]). split_and!; cbn [fst snd]; [lia| |].
    - unfold in_s in Hx. cbn in Hx. change (2 ^ (2 * 16)) with 4294967296. dlia.
    - intros k Hk. by replace (1 - 1 + k) with k by lia. }
  split; [done|]. rewrite <- (Z.add_0_r (snd xr - 1)). apply H3; [lia|].
  split; [apply Z.mod_1_r|done].
Qed.

Lemma ffs_spec_witness : ffs 40 = 4 /\ lowest 40 (ffs 40 - 1).
Proof.
  split; [reflexivity|]. apply (ffs_spec 40); [split; cbn; lia|lia].
Defined.

(** The bit that [ffs] finds in a power of two. *)
Lemma ffs_pow2 k : 0 <= k < 31 -> ffs (2 ^ k) = k + 1.
Proof.
  intros Hk. assert (k = 0 \/ 1 <= k) as Hk0 by lia.
  assert (forall n, (n < 31)%nat -> ffs (2 ^ Z.of_nat n) = Z.of_nat n + 1) as H.
  { intros n Hn. do 31 (destruct n as [|n]; [reflexivity|]). lia. }
  specialize (H (Z.to_nat k) ltac:(lia)). by rewrite Z2Nat.id in H by lia.
Qed.

(** *** Memory *)

Lemma s8_inj a b : byte_ok a -> byte_ok b -> s8 a = s8 b -> a = b.
Proof. unfold byte_ok, wraps. change (2 ^ (8 - 1)) with 128. change (2 ^ 8) with 256. intros. dlia. Qed.

(** Two objects are compared up to the size, whatever is behind that. *)
Lemma memcmp_loop_ok a b k k' : Forall byte_ok a -> Forall byte_ok b -> length a = length b ->
  memcmp_loop (length a) (a ++ k) (b ++ k') = Ret (if decide (a = b) then 0 else -1).
Proof.
  revert b. induction a as [|x a IH]; intros [|y b] Ha Hb Hl; cbn [length memcmp_loop app]; try done.
  apply Forall_cons in Ha as [Hx Ha], Hb as [Hy Hb]. destruct (Z.eqb_spec (s8 x) (s8 y)) as [E|E].
  - apply s8_inj in E as ->; [|done|done]. rewrite IH by (done || (cbn in Hl; lia)). f_equal.
    destruct (decide (a = b)) as [->|Hne]; [by rewrite decide_True|]. by rewrite decide_False by (by intros [= ->]).
  - by rewrite decide_False by (by intros [= -> ->]).
Qed.

(** A byte is stored, and then those behind it. *)
Lemma insert_then_splice (dst : bytes) d c xs :
  0 <= d -> d + 1 + zlen xs <= zlen dst -> splice (<[Z.to_nat d:=c]> dst) (d + 1) xs = splice dst d (c :: xs).
Proof.
  intros Hd Hl. pose proof (zlen_nonneg xs). assert (<[Z.to_nat d:=c]> dst = splice dst d [c]) as ->.
  { apply list_eq_rd; [rewrite zlen_insert, zlen_splice; cbn; zlia|]. intros i Hi.
    rewrite zlen_insert in Hi. rewrite rd_insert, rd_splice by (rewrite ?zlen_cons, ?zlen_nil; lia).
    rewrite zlen_cons, zlen_nil. destruct (Z.eqb_spec d i) as [->|].
    - rewrite Z.leb_refl. destruct (Z.ltb_spec i (i + (1 + 0))); [|lia]. cbn [andb].
      by rewrite Z.sub_diag.
    - destruct (Z.leb_spec d i), (Z.ltb_spec i (d + (1 + 0))); cbn [andb]; done || lia. }
  apply (splice_splice dst d [c]); [lia|]. rewrite zlen_cons, zlen_nil. lia.
Qed.

(** [memcpy] between two objects copies the range. *)
Lemma memcpy_spec dst d src s size :
  0 <= d -> 0 <= s -> 0 <= size -> d + size <= zlen dst -> s + size <= zlen src ->
  memcpy dst d src s size = Ret (splice dst d (sub src s size)).
Proof.
  unfold memcpy. intros Hd Hs Hz. rewrite <- (Z2Nat.id size) by lia.
  generalize (Z.to_nat size). clear size Hz. intros n. rewrite Nat2Z.id. revert dst d s Hd Hs.
  induction n as [|n IH]; intros dst d s Hd Hs H1 H2; cbn [memcpy_loop].
  - by rewrite sub_0, splice_nil.
  - destruct (rd_some src s) as [c Hc]; [lia|]. ostep Hc. rewrite wr_ok by lia. cbn [obind].
    rewrite IH by (rewrite ?zlen_insert; lia). f_equal.
    assert (sub src s (Z.of_nat (S n)) = [c] ++ sub src (s + 1) (Z.of_nat n)) as ->.
    { apply rd_lookup in Hc as [_ Hc]. rewrite Nat2Z.inj_succ, <- Z.add_1_l, <- sub_app by lia. f_equal.
      unfold sub. cbn. by rewrite (drop_S _ _ _ Hc). }
    apply insert_then_splice; rewrite ?zlen_sub by lia; lia.
Qed.

Lemma memmove_up_spec n b dst src :
  0 <= dst -> 0 <= src -> dst <= src \/ src + Z.of_nat n <= dst ->
  dst + Z.of_nat n <= zlen b -> src + Z.of_nat n <= zlen b ->
  exists b', memmove_up n b dst src = Ret b' /\ zlen b' = zlen b /\
    forall i, 0 <= i -> rd b' i =
      if (dst <=? i) && (i <? dst + Z.of_nat n) then rd b (i - dst + src) else rd b i.
Proof.
  revert b dst src. induction n as [|n IH]; intros b dst src Hd Hs Ho H1 H2; cbn [memmove_up].
  - exists b. split_and!; [done|done|]. intros i Hi.
    destruct (Z.leb_spec dst i), (Z.ltb_spec i (dst + Z.of_nat 0)); cbn [andb]; done || lia.
  - destruct (rd_some b src) as [c Hc]; [lia|]. ostep Hc. rewrite wr_ok by lia. cbn [obind].
    destruct (IH (<[Z.to_nat dst:=c]> b) (dst + 1) (src + 1)) as (b' & E & Hz & Hb');
      [lia|lia|lia|rewrite zlen_insert; lia..|].
    exists b'. rewrite zlen_insert in Hz. split_and!; [done|done|]. intros i Hi.
    rewrite Hb' by done.
    destruct (Z.leb_spec (dst + 1) i), (Z.ltb_spec i (dst + 1 + Z.of_nat n)),
      (Z.leb_spec dst i), (Z.ltb_spec i (dst + Z.of_nat (S n))); cbn [andb]; try lia;
      rewrite rd_insert by lia; repeat case_match; try lia; try done.
    + f_equal. lia.
    + rewrite <- Hc. f_equal. lia.
Qed.

Lemma memmove_down_spec n b dst src :
  0 <= src <= dst -> dst + Z.of_nat n <= zlen b ->
  exists b', memmove_down n b dst src = Ret b' /\ zlen b' = zlen b /\
    forall i, 0 <= i -> rd b' i =
      if (dst <=? i) && (i <? dst + Z.of_nat n) then rd b (i - dst + src) else rd b i.
Proof.
  revert b. induction n as [|n IH]; intros b Hd H1; cbn [memmove_down].
  - exists b. split_and!; [done|done|]. intros i Hi.
    destruct (Z.leb_spec dst i), (Z.ltb_spec i (dst + Z.of_nat 0)); cbn [andb]; done || lia.
  - destruct (rd_some b (src + Z.of_nat n)) as [c Hc]; [lia|]. ostep Hc. rewrite wr_ok by lia.
    cbn [obind].
    destruct (IH (<[Z.to_nat (dst + Z.of_nat n):=c]> b)) as (b' & E & Hz & Hb');
      [lia|rewrite zlen_insert; lia|].
    exists b'. rewrite zlen_insert in Hz. split_and!; [done|done|]. intros i Hi.
    rewrite Hb' by done.
    destruct (Z.leb_spec dst i), (Z.ltb_spec i (dst + Z.of_nat n)),
      (Z.ltb_spec i (dst + Z.of_nat (S n))); cbn [andb]; try lia;
      rewrite rd_insert by lia; repeat case_match; try lia; try done.
    rewrite <- Hc. f_equal. lia.
Qed.

(** [memmove] moves the range as if it went through a temporary copy,
    however source and destination overlap, and touches nothing else. *)
Theorem memmove_spec b dst src count :
  0 <= dst -> 0 <= src -> 0 <= count -> dst + count <= zlen b -> src + count <= zlen b ->
  memmove b dst src count = Ret (splice b dst (sub b src count)).
Proof.
  intros Hd Hs Hc H1 H2. unfold memmove.
  assert (zlen (sub b src count) = count) as Hz by (apply zlen_sub; lia).
  assert (exists b', memmove b dst src count = Ret b' /\ zlen b' = zlen b /\
    forall i, 0 <= i -> rd b' i =
      if (dst <=? i) && (i <? dst + Z.of_nat (Z.to_nat count)) then rd b (i - dst + src) else rd b i)
    as (b' & E & Hzb & Hb').
  { unfold memmove. destruct (Z.leb_spec dst src), (Z.leb_spec (src + count) dst); cbn [orb];
      (apply memmove_up_spec; lia) || (apply memmove_down_spec; lia). }
  unfold memmove in E. rewrite E. f_equal. apply list_eq_rd; [rewrite zlen_splice; lia|].
  intros i Hi. rewrite Hb', rd_splice by lia. rewrite Hz, Z2Nat.id by lia.
  destruct (Z.leb_spec dst i), (Z.ltb_spec i (dst + count)); cbn [andb]; try done.
  rewrite rd_sub by lia. destruct (Z.ltb_spec (i - dst) count); [f_equal; lia|lia].
Qed.

Lemma memmove_spec_witness :
  memmove [1; 2; 3; 4; 5] 1 0 4 = Ret [1; 1; 2; 3; 4].
Proof. refine (eq_trans (memmove_spec [1; 2; 3; 4; 5] 1 0 4 _ _ _ _ _) _);
  (reflexivity || (vm_compute; discriminate)). Defined.

(** *** Strings

    [cstr s k]: the object holds the string [s] and its terminator, and then
    [k]. *)
Definition nonzero (s : list Z) : Prop := Forall (fun c => c <> 0) s.

Lemma strlen_from_ok s k n : nonzero s -> strlen_from (s ++ 0 :: k) n = Ret (n + zlen s).
Proof.
  intros H. revert n. induction H as [|c s Hc Hs IH]; intros n; cbn [strlen_from app].
  - cbn. f_equal. zlia.
  - destruct (Z.eqb_spec c 0); [done|]. rewrite IH. f_equal. zlia.
Qed.

Lemma strlen_ok s k : nonzero s -> strlen (s ++ 0 :: k) = Ret (zlen s).
Proof. intros. unfold strlen. by rewrite strlen_from_ok. Qed.

Lemma strcmp_loop_ok s1 s2 k1 k2 :
  nonzero s1 -> nonzero s2 ->
  strcmp_loop (s1 ++ 0 :: k1) (s2 ++ 0 :: k2) =
  if decide (s1 = s2) then Ret 0
  else if decide (s1 `prefix_of` s2) then Ret 0 else Ret (-1).
Proof.
  intros H1. revert s2. induction H1 as [|a s1 Ha H1 IH]; intros s2 H2; cbn [strcmp_loop app].
  - cbn. destruct (decide ([] = s2)); [done|]. by rewrite decide_True by apply prefix_nil.
  - destruct (Z.eqb_spec a 0); [done|]. destruct H2 as [|b s2 Hb H2]; cbn [app].
    + destruct (Z.eqb_spec a 0); [done|]. cbn [negb]. rewrite !decide_False; [done| |done].
      by intros ?%prefix_nil_inv.
    + destruct (Z.eqb_spec a b) as [->|]; cbn [negb].
      * rewrite IH by done. destruct (decide (s1 = s2)) as [->|].
        -- by rewrite !decide_True.
        -- rewrite (decide_False (P := b :: s1 = b :: s2)) by congruence.
           destruct (decide (s1 `prefix_of` s2)) as [Hp|Hp].
           ++ by rewrite decide_True by (by apply prefix_cons).
           ++ rewrite decide_False; [done|]. intros Hc. by apply prefix_cons_inv_2 in Hc.
      * rewrite !decide_False; [done| |congruence]. intros Hc. by apply prefix_cons_inv_1 in Hc.
Qed.

(** What [strcmp] really is: a test for equality.  On two strings it returns 0
    if they are equal and -1 in every other case, so it is not an ordering:
    for different strings both [strcmp(a, b)] and [strcmp(b, a)] are -1. *)
Theorem strcmp_spec s1 s2 k1 k2 :
  nonzero s1 -> nonzero s2 ->
  strcmp (s1 ++ 0 :: k1) (s2 ++ 0 :: k2) = Ret (if decide (s1 = s2) then 0 else -1).
Proof.
  intros H1 H2. unfold strcmp. rewrite !strlen_ok by done. cbn [obind].
  destruct (Z.ltb_spec (zlen s1) (zlen s2)).
  - rewrite decide_False; [done|]. intros ->. lia.
  - rewrite strcmp_loop_ok by done. destruct (decide (s1 = s2)); [done|].
    rewrite decide_False; [done|]. intros Hp. pose proof (prefix_length _ _ Hp).
    destruct Hp as [x ->]. destruct x; [by rewrite app_nil_r in *|].
    rewrite length_app in *. cbn in *. zlia.
Qed.

Lemma strcmp_spec_witness :
  strcmp [98; 0] [97; 0] = Ret (-1) /\ strcmp [97; 0] [98; 0] = Ret (-1).
Proof.
  split; (refine (eq_trans (strcmp_spec [_] [_] [] [] _ _) _); [repeat constructor; done..|reflexivity]).
Defined.

(** [strncmp] does not follow the C convention either: on strings that agree
    in their first [num] characters it returns a pointer (nonzero), on
    strings that differ there NULL (zero). *)
Lemma strncmp_spec p1 p2 k1 k2 a b :
  zlen p1 = zlen p2 ->
  strncmp (p1 ++ a :: k1) (p2 ++ b :: k2) (zlen p1) =
  Ret (if decide (p1 = p2) then Some (zlen p1) else None).
Proof.
  unfold strncmp, zlen. rewrite Nat2Z.id. intros Hl. apply Nat2Z.inj in Hl.
  rewrite <- (Z.add_0_l (Z.of_nat (length p1))). generalize 0.
  revert p2 Hl. induction p1 as [|x p1 IH]; intros [|y p2] Hl i; try done; cbn [strncmp_loop app length].
  - by rewrite Z.add_0_r.
  - destruct (Z.eqb_spec x y) as [->|].
    + rewrite IH by (cbn in Hl; lia). destruct (decide (p1 = p2)) as [->|].
      * rewrite decide_True by done. do 2 f_equal. lia.
      * by rewrite decide_False by congruence.
    + by rewrite decide_False by congruence.
Qed.

(** [strcat] leaves the string in [destination] as it is. *)
Lemma strcat_skip_ok s k p : nonzero s -> strcat_skip (s ++ 0 :: k) p = Ret (p + zlen s).
Proof.
  intros H. revert p. induction H as [|c s Hc Hs IH]; intros p; cbn [strcat_skip app].
  - cbn. f_equal. zlia.
  - destruct (Z.eqb_spec c 0); [done|]. rewrite IH. f_equal. zlia.
Qed.

Lemma strcat_noop d s k1 k2 :
  nonzero d -> nonzero s -> zlen s < zlen k1 ->
  exists k', strcat (d ++ 0 :: k1) (s ++ 0 :: k2) = Ret (d ++ 0 :: k').
Proof.
  intros Hd Hs Hl. unfold strcat. rewrite strlen_ok by done. cbn [obind].
  rewrite strcat_skip_ok by done. cbn [obind]. rewrite wr_ok by zlia. eexists. f_equal.
  replace (Z.to_nat (zlen d + 1 + zlen s)) with (length d + S (length s))%nat by zlia.
  by rewrite insert_app_r.
Qed.

(** [wstricmp] takes a proper prefix for equal to the longer string. *)
Lemma wstricmp_s_prefix w x k1 k2 n m :
  nonzero w -> w <> [] -> Forall (fun c => tolower (s8 c) <> 0) w -> n = zlen w -> n < m ->
  wstricmp_s (w ++ 0 :: k1) n (w ++ x :: k2) m = Ret 0.
Proof.
  intros Hw Hne H8 -> Hm. revert m Hne Hm H8. induction Hw as [|c w Hc Hw IH]; intros m Hne Hm H8; [done|].
  cbn [wstricmp_s app]. inversion_clear H8 as [|? ? Hc8 H8']. rewrite Z.eqb_refl.
  destruct (Z.eqb_spec (tolower (s8 c)) 0); [done|]. cbn [negb andb]. rewrite zlen_cons in *.
  replace (1 + zlen w - 1) with (zlen w) by lia.
  destruct w as [|c' w].
  - cbn. f_equal. lia.
  - destruct (Z.ltb_spec 0 (zlen (c' :: w))); [|zlia]. destruct (Z.ltb_spec 0 (m - 1)); [|zlia].
    cbn [andb]. apply IH; [done|lia|done].
Qed.

(** The prefix problem of [wstricmp]: for every nonempty ASCII string [w]
    and every longer string that starts with [w], it returns 0, as for equal
    strings. *)
Theorem wstricmp_prefix w x k k1 k2 :
  w <> [] -> Forall (fun c => 0 < c < 128) w -> nonzero (x :: k) ->
  wstricmp (w ++ 0 :: k1) (w ++ x :: k ++ 0 :: k2) = Ret 0.
Proof.
  intros Hne Hw Hk.
  assert (nonzero w) as Hw0 by (eapply Forall_impl; [exact Hw|cbn; lia]).
  unfold wstricmp, wstrlen. rewrite strlen_from_ok by done. cbn [obind].
  rewrite app_comm_cons, (assoc_L (++)), strlen_from_ok by (by apply Forall_app). cbn [obind].
  rewrite <- (assoc_L (++)), <- app_comm_cons. apply wstricmp_s_prefix; [done|done| |lia|zlia].
  eapply Forall_impl; [exact Hw|]. cbn. intros c Hc. rewrite wraps_small by (unfold in_s; cbn; lia || lia).
  unfold tolower. destruct ((65 <=? c) && (c <=? 90)) eqn:E; [|lia].
  rewrite wraps_small by (unfold in_s; cbn; lia || lia). lia.
Qed.

Lemma wstricmp_prefix_witness :
  wstricmp [97; 98; 0] [97; 98; 99; 0] = Ret 0.
Proof.
  apply (wstricmp_prefix [97; 98] 99 [] [] []); [done| |].
  - repeat constructor; lia.
  - repeat constructor; done.
Defined.

(** [memset] fills the range. *)
Lemma memset_spec dst d pattern size :
  0 <= d -> 0 <= size -> d + size <= zlen dst ->
  memset dst d pattern size = Ret (splice dst d (replicate (Z.to_nat size) (u8 pattern))).
Proof.
  unfold memset. intros Hd Hz. rewrite <- (Z2Nat.id size) by lia. generalize (Z.to_nat size). clear size Hz. intros n. rewrite Nat2Z.id.
  revert dst d Hd. induction n as [|n IH]; intros dst d Hd H1; cbn [memset_loop replicate]; [by rewrite splice_nil|].
  rewrite wr_ok by lia. cbn [obind]. rewrite IH by (rewrite ?zlen_insert; lia). f_equal. apply insert_then_splice; rewrite ?zlen_replicate; lia.
Qed.

(** [realloc] to a larger size reads past the old block. *)
Lemma memcpy_loop_fault n dst d src s :
  0 <= d -> d + Z.of_nat n <= zlen dst -> 0 <= s <= zlen src -> zlen src < s + Z.of_nat n ->
  memcpy_loop n dst d src s = Fault.
Proof.
  revert dst d s. induction n as [|n IH]; intros dst d s Hd1 Hd2 Hs1 Hs2; [lia|]. cbn [memcpy_loop].
  destruct (decide (s = zlen src)) as [->|].
  - by rewrite rd_fault by lia.
  - destruct (rd_some src s) as [c Hc]; [lia|]. ostep Hc. rewrite wr_ok by lia. cbn [obind].
    apply IH; rewrite ?zlen_insert; lia.
Qed.

(** Growing a block.  Whenever [realloc] grows a block and the pool has the
    memory, it reads beyond the end of the old block. *)
Theorem realloc_grow_overread pool old size :
  pool size = true -> zlen old < size -> realloc pool [] (Some old) size = Fault.
Proof.
  intros Hp Hl. unfold realloc, malloc. rewrite Hp. unfold memcpy. rewrite app_nil_r.
  pose proof (zlen_nonneg old). rewrite memcpy_loop_fault; [done|lia| |lia|lia].
  rewrite zlen_replicate. lia.
Qed.

Lemma realloc_grow_overread_witness : realloc (fun _ => true) [] (Some [1; 2]) 3 = Fault.
Proof. apply realloc_grow_overread; [reflexivity|vm_compute; reflexivity]. Defined.

(** On bytes the two descriptions of [realloc] agree. *)
Lemma realloc_block_bytes pool bh old size : 0 <= size ->
  realloc_block (Heap pool (fun _ _ => bh)) old size size = realloc pool bh (Some old) size.
Proof.
  intros Hs. unfold realloc_block, realloc, malloc. cbn [Libc.pool behind]. destruct (pool size); [|done].
  unfold rdn. destruct (Z.leb_spec size 0); [by replace size with 0 by lia|]. cbn [Z.leb andb].
  pose proof (zlen_nonneg (old ++ bh)). destruct (Z.leb_spec (0 + size) (zlen (old ++ bh))).
  - rewrite memcpy_spec by (rewrite ?zlen_replicate; lia). unfold splice. cbn [obind andb Z.leb Z.compare].
    rewrite take_0, drop_ge; [by rewrite app_nil_r|]. rewrite length_replicate. pose proof (zlen_sub (old ++ bh) 0 size). zlia.
  - unfold memcpy. rewrite memcpy_loop_fault; [done|lia|rewrite zlen_replicate; lia|lia|lia].
Qed.

(** A new block holds the old elements, as many as fit, and what the memory held there. *)
Lemma realloc_block_take {A} (h : heap A) old size n :
  readable h -> h size = true -> 0 <= n ->
  exists junk, realloc_block h old size n = Ret (Some (take (Z.to_nat n) (old ++ junk))) /\ n <= zlen old + zlen junk.
Proof.
  intros Hr Hs Hn. unfold realloc_block. rewrite Hs. pose proof (Hr old (n - zlen old)) as Hb. pose proof (zlen_nonneg old).
  exists (behind h old (n - zlen old)). rewrite rdn_ok by zlia. by split; [|lia].
Qed.

(** Growing keeps the elements; behind them is what the memory held there. *)
Lemma realloc_block_ok {A} (h : heap A) old size n :
  readable h -> h size = true -> zlen old <= n ->
  exists junk, realloc_block h old size n = Ret (Some (old ++ junk)) /\ zlen junk = n - zlen old.
Proof.
  intros Hr Hs Hn. unfold realloc_block. rewrite Hs. pose proof (Hr old (n - zlen old)) as Hb. pose proof (zlen_nonneg old).
  exists (take (Z.to_nat (n - zlen old)) (behind h old (n - zlen old))). rewrite rdn_ok by zlia. cbn [obind]. unfold sub.
  rewrite drop_0, take_app_ge by zlia. split; [by replace (Z.to_nat n - length old)%nat with (Z.to_nat (n - zlen old)) by zlia|].
  unfold zlen at 1. rewrite length_take. zlia.
Qed.

Lemma readable_full {A} (x : A) : readable (full_heap x).
Proof. intros old k. cbn. rewrite zlen_replicate. lia. Qed.
