(* ===== verification/Mst.v ===== *)
(** * Multi sector transfer protection (ntfs/mst.c)

    An NTFS record is protected against torn writes: the last 16-bit word of
    every 512-byte sector is replaced by the update sequence number before
    the record is written, the original words being kept in the update
    sequence array.  The code accesses a record as an array of [u16]; so does
    the model: a record is the list of its 16-bit words, word [i] being the
    bytes [2i] and [2i+1]. *)
From S2P Require Import Prelude.

Abbreviation words := (list Z).

Definition NTFS_BLOCK_SIZE : Z := 512.
Definition NTFS_BLOCK_SIZE_BITS : Z := 9.
Definition magic_BAAD : Z := 0x44414142.
Definition magic_HOLE : Z := 0x454c4f48.

(** [b->magic], an le32 at byte 0; [b->usa_ofs] and [b->usa_count], le16 at
    bytes 4 and 6. *)
Definition rd_magic (b : words) : outcome Z :=
  let! lo := rd b 0 in let! hi := rd b 1 in Ret (lo + 65536 * hi).
Definition wr_magic (b : words) (m : Z) : outcome words :=
  let! b := wr b 0 (m mod 65536) in wr b 1 (m / 65536 mod 65536).
Definition rd_usa_ofs (b : words) : outcome Z := rd b 2.
Definition rd_usa_count (b : words) : outcome Z := rd b 3.

(** mst.c:175-182 ntfs_mst_pre_write_fixup. The size and alignment checks both fixup routines make; [usa_count] is
    already decremented. *)
Definition usa_invalid (size usa_ofs usa_count : Z) : bool :=
  negb (Z.land size (NTFS_BLOCK_SIZE - 1) =? 0) || negb (Z.land usa_ofs 1 =? 0)
  || (size <? u32 (usa_ofs + usa_count * 2))
  || negb (Z.shiftr size NTFS_BLOCK_SIZE_BITS =? usa_count).

(** mst.c:91-110 ntfs_mst_post_read_fixup_warn. [while (usa_count--) if ( *data_pos != usn) ... else data_pos += 256]:
    true when every protected word holds the update sequence number. *)
Fixpoint usn_matches (n : nat) (b : words) (usn data_pos : Z) : outcome bool :=
  match n with
  | O => Ret true
  | S n' => let! w := rd b data_pos in
            if negb (w =? usn) then Ret false
            else usn_matches n' b usn (data_pos + NTFS_BLOCK_SIZE / 2)
  end.

(** mst.c:235-245 ntfs_mst_post_write_fixup. [while (usa_count--) { *data_pos = *(++usa_pos); data_pos += 256; }] *)
Fixpoint restore_loop (n : nat) (b : words) (usa_pos data_pos : Z) : outcome words :=
  match n with
  | O => Ret b
  | S n' => let! w := rd b (usa_pos + 1) in
            let! b' := wr b data_pos w in
            restore_loop n' b' (usa_pos + 1) (data_pos + NTFS_BLOCK_SIZE / 2)
  end.

(** mst.c:196-207 ntfs_mst_pre_write_fixup. [while (usa_count--) { *(++usa_pos) = *data_pos; *data_pos = usn; ... }] *)
Fixpoint protect_loop (n : nat) (b : words) (usn usa_pos data_pos : Z) : outcome words :=
  match n with
  | O => Ret b
  | S n' => let! w := rd b data_pos in
            let! b1 := wr b (usa_pos + 1) w in
            let! b2 := wr b1 data_pos usn in
            protect_loop n' b2 usn (usa_pos + 1) (data_pos + NTFS_BLOCK_SIZE / 2)
  end.

(** mst.c:50-125 ntfs_mst_post_read_fixup_warn; [warn] only selects a log
    message. *)
Definition ntfs_mst_post_read_fixup_warn (b : words) (size : Z) (warn : bool)
  : outcome (status * words) :=
  let! usa_ofs := rd_usa_ofs b in
  let! uc := rd_usa_count b in
  let usa_count := u16 (uc - 1) in
  if usa_invalid size usa_ofs usa_count then Ret (Some EINVAL, b)
  else
    let usa_pos := usa_ofs / 2 in
    let! usn := rd b usa_pos in
    let data_pos := NTFS_BLOCK_SIZE / 2 - 1 in
    let! ok := usn_matches (Z.to_nat usa_count) b usn data_pos in
    if ok then
      let! b' := restore_loop (Z.to_nat usa_count) b usa_pos data_pos in
      Ret (None, b')
    else
      let! b' := wr_magic b magic_BAAD in Ret (Some EIO, b').

(** mst.c:132-135 ntfs_mst_post_read_fixup *)
Definition ntfs_mst_post_read_fixup (b : words) (size : Z) : outcome (status * words) :=
  ntfs_mst_post_read_fixup_warn b size true.

(** mst.c:189-191 ntfs_mst_pre_write_fixup. [usn = le16_to_cpup(usa_pos) + 1; if (usn == 0xffff || !usn) usn = 1;] *)
Definition next_usn (w : Z) : Z :=
  let usn := u16 (w + 1) in if (usn =? 0xffff) || (usn =? 0) then 1 else usn.

(** mst.c:157-209 ntfs_mst_pre_write_fixup; [None] is the NULL pointer. *)
Definition ntfs_mst_pre_write_fixup (b : option words) (size : Z)
  : outcome (status * option words) :=
  match b with
  | None => Ret (Some EINVAL, None)
  | Some b =>
    let! magic := rd_magic b in
    if (magic =? magic_BAAD) || (magic =? magic_HOLE) then Ret (Some EINVAL, Some b)
    else
      let! usa_ofs := rd_usa_ofs b in
      let! uc := rd_usa_count b in
      let usa_count := u16 (uc - 1) in
      if usa_invalid size usa_ofs usa_count then Ret (Some EINVAL, Some b)
      else
        let usa_pos := usa_ofs / 2 in
        let! w := rd b usa_pos in
        let usn := next_usn w in
        let! b1 := wr b usa_pos usn in
        let! b2 := protect_loop (Z.to_nat usa_count) b1 usn usa_pos
                     (NTFS_BLOCK_SIZE / 2 - 1) in
        Ret (None, Some b2)
  end.

(** mst.c:220-246 ntfs_mst_post_write_fixup *)
Definition ntfs_mst_post_write_fixup (b : words) : outcome words :=
  let! usa_ofs := rd_usa_ofs b in
  let! uc := rd_usa_count b in
  restore_loop (Z.to_nat (u16 (uc - 1))) b (usa_ofs / 2) (NTFS_BLOCK_SIZE / 2 - 1).

(** ** Record invariant

    [mst_record b n uo]: a record of [n] sectors whose update sequence array
    (the number and [n] saved words) starts at byte [uo], lies behind the
    8-byte record header and in front of the first protected word. *)
Record mst_record (b : words) (n uo : Z) : Prop := {
  mr_len : zlen b = 256 * n;
  mr_n : 0 < n < 65535;
  mr_ofs : rd_usa_ofs b = Ret uo;
  mr_count : rd_usa_count b = Ret (n + 1);
  mr_even : Z.land uo 1 = 0;
  mr_fit : 8 <= uo /\ uo + 2 * (n + 1) <= 510;
}.

Lemma even_half uo : Z.land uo 1 = 0 -> uo = 2 * (uo / 2).
Proof. intros H. change 1 with (Z.ones 1) in H. rewrite Z.land_ones in H by lia.
  change (2 ^ 1) with 2 in H. dlia.
Qed.

Lemma mst_checks_pass b n uo :
  mst_record b n uo -> usa_invalid (512 * n) uo (u16 (n + 1 - 1)) = false.
Proof.
  intros []. unfold usa_invalid. rewrite mr_even0.
  replace (n + 1 - 1) with n by lia. wsimp.
  replace (Z.land (512 * n) (NTFS_BLOCK_SIZE - 1)) with 0.
  2:{ change (NTFS_BLOCK_SIZE - 1) with (Z.ones 9). rewrite Z.land_ones by lia.
      change (2 ^ 9) with 512. rewrite Z.mul_comm, Z.mod_mul by lia. done. }
  unfold NTFS_BLOCK_SIZE_BITS. rewrite Z.shiftr_div_pow2 by lia.
  change (2 ^ 9) with 512. rewrite (Z.mul_comm 512 n), Z.div_mul by lia.
  rewrite !Z.eqb_refl. simpl. destruct (Z.ltb_spec (n * 512) (uo + n * 2)); [lia|done].
Qed.


(** ** Specification of the loops, word by word

    [data_word d n j]: word [j] is one of the [n] protected words from
    position [d] on. *)
Definition data_word (d n j : Z) : bool :=
  (d <=? j) && (j <? d + 256 * n) && ((j - d) mod 256 =? 0).

Lemma data_word_0 d j : data_word d 0 j = false.
Proof. unfold data_word. lia. Qed.

Lemma data_word_succ d n j :
  0 <= n -> data_word d (1 + n) j = (j =? d) || data_word (d + 256) n j.
Proof.
  intros Hn. unfold data_word.
  replace ((j - (d + 256)) mod 256) with ((j - d) mod 256).
  2:{ replace (j - (d + 256)) with (j - d + (-1) * 256) by lia.
      by rewrite Z_mod_plus_full. }
  pose proof (Z.mod_pos_bound (j - d) 256).
  destruct (Z.eqb_spec j d) as [->|Hne].
  - rewrite Z.sub_diag. change (0 mod 256) with 0. lia.
  - destruct (Z.eqb_spec ((j - d) mod 256) 0); [|lia]. dlia.
Qed.

Lemma usn_matches_spec n b usn d :
  0 <= d -> d + 256 * Z.of_nat n <= zlen b + 255 ->
  exists r, usn_matches n b usn d = Ret r /\
    (r = true <-> forall k, 0 <= k < Z.of_nat n -> rd b (d + 256 * k) = Ret usn).
Proof.
  revert d. induction n as [|n IH]; intros d Hd Hl; cbn [usn_matches].
  - eexists. split; [done|]. split; [lia|done].
  - destruct (rd_some b d) as [w Hw]; [lia|]. ostep Hw.
    change (NTFS_BLOCK_SIZE / 2) with 256.
    destruct (Z.eqb_spec w usn) as [->|Hne]; cbn [negb].
    + destruct (IH (d + 256)) as (r & -> & Hr); [lia|lia|].
      eexists. split; [done|]. rewrite Hr. split; intros H k Hk.
      * destruct (decide (k = 0)) as [->|]; [by rewrite Z.mul_0_r, Z.add_0_r|].
        specialize (H (k - 1) ltac:(lia)).
        by replace (d + 256 * k) with (d + 256 + 256 * (k - 1)) by lia.
      * specialize (H (k + 1) ltac:(lia)).
        by replace (d + 256 + 256 * k) with (d + 256 * (k + 1)) by lia.
    + eexists. split; [done|]. split; [done|]. intros H.
      specialize (H 0 ltac:(lia)). rewrite Z.mul_0_r, Z.add_0_r, Hw in H.
      congruence.
Qed.

(** The restore loop writes the saved words back and changes nothing else. *)
Lemma restore_loop_spec n b p d :
  0 <= p -> p + Z.of_nat n < d -> d + 256 * Z.of_nat n <= zlen b + 255 ->
  exists b', restore_loop n b p d = Ret b' /\ zlen b' = zlen b /\
    forall j, 0 <= j -> rd b' j =
      if data_word d (Z.of_nat n) j then rd b (p + 1 + (j - d) / 256) else rd b j.
Proof.
  revert b p d. induction n as [|n IH]; intros b p d Hp Hpd Hl; cbn [restore_loop].
  - eexists. split; [done|]. split; [done|]. intros j _.
    change (Z.of_nat 0) with 0. by rewrite data_word_0.
  - destruct (rd_some b (p + 1)) as [w Hw]; [lia|]. ostep Hw.
    ostep (wr_ok b d w ltac:(lia)). change (NTFS_BLOCK_SIZE / 2) with 256.
    destruct (IH (<[Z.to_nat d:=w]> b) (p + 1) (d + 256)) as (b' & -> & Hlen & Hb');
      [lia|lia|rewrite zlen_insert; lia|].
    exists b'. split; [done|]. rewrite Hlen, zlen_insert. split; [done|].
    intros j Hj. rewrite Hb' by done.
    rewrite Nat2Z.inj_succ, <- Z.add_1_l, data_word_succ by lia.
    destruct (data_word (d + 256) (Z.of_nat n) j) eqn:E.
    + rewrite orb_true_r. unfold data_word in E.
      rewrite rd_insert; [|lia|dlia].
      replace (p + 1 + 1 + (j - (d + 256)) / 256) with (p + 1 + (j - d) / 256) by dlia.
      destruct (Z.eqb_spec d (p + 1 + (j - d) / 256)); [dlia|done].
    + rewrite orb_false_r, rd_insert by lia.
      rewrite (Z.eqb_sym j d). destruct (Z.eqb_spec d j) as [->|]; [|done].
      rewrite Z.sub_diag. change (0 / 256) with 0. by rewrite Z.add_0_r.
Qed.

(** The protect loop saves the protected words and overwrites them with the
    update sequence number. *)
Lemma protect_loop_spec n b usn p d :
  0 <= p -> p + Z.of_nat n < d -> d + 256 * Z.of_nat n <= zlen b + 255 ->
  exists b', protect_loop n b usn p d = Ret b' /\ zlen b' = zlen b /\
    forall j, 0 <= j -> rd b' j =
      if data_word d (Z.of_nat n) j then Ret usn
      else if (p <? j) && (j <=? p + Z.of_nat n) then rd b (d + 256 * (j - p - 1))
      else rd b j.
Proof.
  revert b p d. induction n as [|n IH]; intros b p d Hp Hpd Hl; cbn [protect_loop].
  - eexists. split; [done|]. split; [done|]. intros j _.
    change (Z.of_nat 0) with 0. rewrite data_word_0.
    destruct (Z.ltb_spec p j), (Z.leb_spec j (p + 0)); simpl; done || lia.
  - destruct (rd_some b d) as [w Hw]; [lia|]. ostep Hw.
    ostep (wr_ok b (p + 1) w ltac:(lia)).
    ostep (wr_ok (<[Z.to_nat (p + 1):=w]> b) d usn ltac:(rewrite zlen_insert; lia)).
    change (NTFS_BLOCK_SIZE / 2) with 256.
    destruct (IH (<[Z.to_nat d:=usn]> (<[Z.to_nat (p + 1):=w]> b)) (p + 1) (d + 256))
      as (b' & -> & Hlen & Hb'); [lia|lia|rewrite !zlen_insert; lia|].
    exists b'. split; [done|]. rewrite Hlen, !zlen_insert. split; [done|].
    intros j Hj. rewrite Hb' by done.
    rewrite Nat2Z.inj_succ, <- Z.add_1_l, data_word_succ by lia.
    destruct (data_word (d + 256) (Z.of_nat n) j) eqn:E; [by rewrite orb_true_r|].
    rewrite orb_false_r.
    destruct (Z.ltb_spec (p + 1) j), (Z.leb_spec j (p + 1 + Z.of_nat n)); simpl.
    + rewrite !rd_insert by (rewrite ?zlen_insert; lia).
      destruct (Z.eqb_spec j d); [lia|].
      destruct (Z.eqb_spec d (d + 256 + 256 * (j - (p + 1) - 1))); [lia|].
      destruct (Z.eqb_spec (p + 1) (d + 256 + 256 * (j - (p + 1) - 1))); [lia|].
      destruct (Z.ltb_spec p j), (Z.leb_spec j (p + (1 + Z.of_nat n))); simpl; try lia.
      f_equal. lia.
    + rewrite !rd_insert by (rewrite ?zlen_insert; lia).
      destruct (Z.eqb_spec d j), (Z.eqb_spec j d); try lia; [done|].
      destruct (Z.eqb_spec (p + 1) j); [lia|].
      destruct (Z.ltb_spec p j), (Z.leb_spec j (p + (1 + Z.of_nat n))); simpl; done || lia.
    + rewrite !rd_insert by (rewrite ?zlen_insert; lia).
      destruct (Z.eqb_spec d j), (Z.eqb_spec j d); try lia.
      destruct (Z.eqb_spec (p + 1) j) as [<-|].
      * destruct (Z.ltb_spec p (p + 1)), (Z.leb_spec (p + 1) (p + (1 + Z.of_nat n))); simpl; try lia.
        rewrite <- Hw. f_equal. lia.
      * destruct (Z.ltb_spec p j), (Z.leb_spec j (p + (1 + Z.of_nat n))); simpl; done || lia.
    + lia.
Qed.

(** ** What the fixup routines compute *)

Lemma mst_pre_write_value b n uo w m :
  mst_record b n uo -> rd b (uo / 2) = Ret w ->
  rd_magic b = Ret m -> m <> magic_BAAD -> m <> magic_HOLE ->
  exists b1, ntfs_mst_pre_write_fixup (Some b) (512 * n) = Ret (None, Some b1) /\
    zlen b1 = zlen b /\
    forall j, 0 <= j -> rd b1 j =
      if data_word 255 n j then Ret (next_usn w)
      else if j =? uo / 2 then Ret (next_usn w)
      else if (uo / 2 <? j) && (j <=? uo / 2 + n) then rd b (255 + 256 * (j - uo / 2 - 1))
      else rd b j.
Proof.
  intros Hr Hw Hm Hb Hh. pose proof Hr as [].
  pose proof (even_half _ mr_even0). unfold ntfs_mst_pre_write_fixup.
  ostep Hm. rewrite (proj2 (Z.eqb_neq _ _) Hb), (proj2 (Z.eqb_neq _ _) Hh). simpl orb. cbv iota.
  ostep mr_ofs0. ostep mr_count0. rewrite (mst_checks_pass _ _ _ Hr).
  ostep Hw. ostep (wr_ok b (uo / 2) (next_usn w) ltac:(lia)).
  replace (n + 1 - 1) with n by lia. wsimp. change (NTFS_BLOCK_SIZE / 2 - 1) with 255.
  destruct (protect_loop_spec (Z.to_nat n) (<[Z.to_nat (uo / 2):=next_usn w]> b)
              (next_usn w) (uo / 2) 255) as (b1 & -> & Hl & Hb1);
    [lia|lia|rewrite zlen_insert; lia|]. cbn [obind].
  eexists. split; [done|]. rewrite Hl, zlen_insert. split; [done|].
  intros j Hj. rewrite Hb1, Z2Nat.id by lia.
  destruct (data_word 255 n j) eqn:E; [done|].
  rewrite (Z.eqb_sym j).
  destruct (Z.ltb_spec (uo / 2) j), (Z.leb_spec j (uo / 2 + n)); simpl;
    rewrite !rd_insert by lia; try done.
  destruct (Z.eqb_spec (uo / 2) j), (Z.eqb_spec (uo / 2) (255 + 256 * (j - uo / 2 - 1)));
    done || lia.
Qed.

Lemma mst_post_read_value b n uo usn :
  mst_record b n uo -> rd b (uo / 2) = Ret usn ->
  (forall k, 0 <= k < n -> rd b (255 + 256 * k) = Ret usn) ->
  exists b2, ntfs_mst_post_read_fixup b (512 * n) = Ret (None, b2) /\
    ntfs_mst_post_write_fixup b = Ret b2 /\ zlen b2 = zlen b /\
    forall j, 0 <= j -> rd b2 j =
      if data_word 255 n j then rd b (uo / 2 + 1 + (j - 255) / 256) else rd b j.
Proof.
  intros Hr Hu Hall. pose proof Hr as [].
  pose proof (even_half _ mr_even0).
  unfold ntfs_mst_post_read_fixup, ntfs_mst_post_read_fixup_warn, ntfs_mst_post_write_fixup.
  ostep mr_ofs0. ostep mr_count0. rewrite (mst_checks_pass _ _ _ Hr). ostep Hu.
  replace (n + 1 - 1) with n by lia. wsimp. change (NTFS_BLOCK_SIZE / 2 - 1) with 255.
  destruct (usn_matches_spec (Z.to_nat n) b usn 255) as (r & -> & Hok); [lia|lia|].
  assert (r = true) as -> by (apply Hok; intros; apply Hall; lia). cbn [obind].
  destruct (restore_loop_spec (Z.to_nat n) b (uo / 2) 255) as (b2 & -> & Hl & Hb2); [lia..|].
  cbn [obind]. exists b2. split; [done|]. split; [done|]. split; [done|].
  intros j Hj. by rewrite Hb2, Z2Nat.id by lia.
Qed.

Lemma mst_post_read_torn b n uo usn k :
  mst_record b n uo -> rd b (uo / 2) = Ret usn ->
  0 <= k < n -> rd b (255 + 256 * k) <> Ret usn ->
  exists b', ntfs_mst_post_read_fixup b (512 * n) = Ret (Some EIO, b') /\
    rd_magic b' = Ret magic_BAAD /\ forall j, 2 <= j -> rd b' j = rd b j.
Proof.
  intros Hr Hu Hk Hne. pose proof Hr as [].
  unfold ntfs_mst_post_read_fixup, ntfs_mst_post_read_fixup_warn.
  ostep mr_ofs0. ostep mr_count0. rewrite (mst_checks_pass _ _ _ Hr). ostep Hu.
  replace (n + 1 - 1) with n by lia. wsimp. change (NTFS_BLOCK_SIZE / 2 - 1) with 255.
  destruct (usn_matches_spec (Z.to_nat n) b usn 255) as (r & -> & Hok); [lia|lia|].
  destruct r.
  { destruct Hne. apply (proj1 Hok eq_refl). lia. }
  cbn [obind]. unfold wr_magic, rd_magic.
  ostep (wr_ok b 0 (magic_BAAD mod 65536) ltac:(lia)).
  ostep (wr_ok (<[Z.to_nat 0:=magic_BAAD mod 65536]> b) 1 (magic_BAAD / 65536 mod 65536)
           ltac:(rewrite zlen_insert; lia)).
  eexists. split; [done|]. split.
  - rewrite !rd_insert by (rewrite ?zlen_insert; lia). done.
  - intros j Hj. rewrite !rd_insert by (rewrite ?zlen_insert; lia).
    destruct (Z.eqb_spec 1 j), (Z.eqb_spec 0 j); done || lia.
Qed.

Lemma next_usn_fresh w : in_u 16 w -> next_usn w <> w /\ next_usn w <> 0 /\ next_usn w <> 0xffff.
Proof.
  unfold in_u, next_usn, wrapu. intros H. change (2 ^ 16) with 65536 in *.
  destruct (Z.eqb_spec ((w + 1) mod 65536) 65535), (Z.eqb_spec ((w + 1) mod 65536) 0);
    simpl; dlia.
Qed.

Lemma data_word_at k n : 0 <= k < n -> data_word 255 n (255 + 256 * k) = true.
Proof.
  intros. unfold data_word.
  replace (255 + 256 * k - 255) with (k * 256) by lia. rewrite Z.mod_mul by lia. lia.
Qed.

Lemma data_word_lt n j : j < 255 -> data_word 255 n j = false.
Proof. intros. unfold data_word. lia. Qed.

(** A record that the write fixup has protected is again a record, with the
    same layout. *)
Lemma mst_pre_write_record b n uo w m b1 :
  mst_record b n uo -> rd b (uo / 2) = Ret w ->
  rd_magic b = Ret m -> m <> magic_BAAD -> m <> magic_HOLE ->
  ntfs_mst_pre_write_fixup (Some b) (512 * n) = Ret (None, Some b1) ->
  mst_record b1 n uo /\ rd b1 (uo / 2) = Ret (next_usn w) /\
  (forall k, 0 <= k < n -> rd b1 (255 + 256 * k) = Ret (next_usn w)).
Proof.
  intros Hr Hw Hm Hb Hh Hpre. pose proof Hr as [].
  pose proof (even_half _ mr_even0).
  destruct (mst_pre_write_value b n uo w m) as (b1' & E & Hl & H1); [done..|].
  rewrite Hpre in E. injection E as <-.
  unfold rd_usa_ofs, rd_usa_count in *.
  assert (forall j, 0 <= j < 4 -> rd b1 j = rd b j) as Hhead.
  { intros j Hj. rewrite H1, data_word_lt by lia.
    destruct (Z.eqb_spec j (uo / 2)), (Z.ltb_spec (uo / 2) j); simpl; done || lia. }
  split.
  - constructor; unfold rd_usa_ofs, rd_usa_count; rewrite ?Hhead by lia; done || lia.
  - split.
    + rewrite H1, data_word_lt, Z.eqb_refl by lia. done.
    + intros k Hk. rewrite H1, data_word_at by lia. done.
Qed.

(** ** Properties *)

(** C39. Protecting a record for writing and reading it back (or undoing the
    protection after the write) restores every word of the record outside of
    the update sequence array; the update sequence number is fresh and is
    never 0 or 0xffff. *)
Theorem mst_write_read_roundtrip b n uo w m :
  mst_record b n uo -> rd b (uo / 2) = Ret w -> in_u 16 w ->
  rd_magic b = Ret m -> m <> magic_BAAD -> m <> magic_HOLE ->
  exists b1 b2,
    ntfs_mst_pre_write_fixup (Some b) (512 * n) = Ret (None, Some b1) /\
    ntfs_mst_post_read_fixup b1 (512 * n) = Ret (None, b2) /\
    ntfs_mst_post_write_fixup b1 = Ret b2 /\
    (exists usn, rd b1 (uo / 2) = Ret usn /\ usn <> w /\ usn <> 0 /\ usn <> 0xffff) /\
    zlen b2 = zlen b /\
    forall j, 0 <= j -> ~ (uo / 2 <= j <= uo / 2 + n) -> rd b2 j = rd b j.
Proof.
  intros Hr Hw Hwr Hm Hb Hh. pose proof Hr as [].
  pose proof (even_half _ mr_even0).
  destruct (mst_pre_write_value b n uo w m) as (b1 & Hpre & Hl & H1); [done..|].
  destruct (mst_pre_write_record b n uo w m b1) as (Hr1 & Hu & Hk); [done..|].
  destruct (mst_post_read_value b1 n uo (next_usn w)) as (b2 & Hrd & Hpw & Hl2 & H2); [done..|].
  exists b1, b2. split_and!; try done.
  - exists (next_usn w). split; [done|]. by apply next_usn_fresh.
  - congruence.
  - intros j Hj Hout. rewrite H2 by done. destruct (data_word 255 n j) eqn:E.
    + rewrite H1 by (unfold data_word in E; dlia).
      unfold data_word in E. rewrite data_word_lt by dlia.
      destruct (Z.eqb_spec (uo / 2 + 1 + (j - 255) / 256) (uo / 2)); [dlia|].
      destruct (Z.ltb_spec (uo / 2) (uo / 2 + 1 + (j - 255) / 256)); [|dlia].
      destruct (Z.leb_spec (uo / 2 + 1 + (j - 255) / 256) (uo / 2 + n)); [|dlia].
      simpl. f_equal. dlia.
    + rewrite H1, E by done.
      destruct (Z.eqb_spec j (uo / 2)), (Z.ltb_spec (uo / 2) j), (Z.leb_spec j (uo / 2 + n));
        simpl; done || lia.
Qed.

(** C40. A torn write is detected: if some sectors of a record on disk come
    from the new protected image [b1] and some still from the previous
    protected image [b0], reading it fails with EIO and marks the record
    BAAD, leaving the rest of the buffer as it was read. *)
Theorem mst_torn_write_detected b0 b b1 t n uo w m (new : Z -> bool) k0 k1 :
  mst_record b0 n uo -> rd b0 (uo / 2) = Ret w -> in_u 16 w ->
  (forall k, 0 <= k < n -> rd b0 (255 + 256 * k) = Ret w) ->
  mst_record b n uo -> rd b (uo / 2) = Ret w ->
  rd_magic b = Ret m -> m <> magic_BAAD -> m <> magic_HOLE ->
  ntfs_mst_pre_write_fixup (Some b) (512 * n) = Ret (None, Some b1) ->
  zlen t = 256 * n ->
  (forall j, 0 <= j -> rd t j = if new (j / 256) then rd b1 j else rd b0 j) ->
  0 <= k0 < n -> new k0 = false -> 0 <= k1 < n -> new k1 = true ->
  exists t', ntfs_mst_post_read_fixup t (512 * n) = Ret (Some EIO, t') /\
    rd_magic t' = Ret magic_BAAD /\ forall j, 2 <= j -> rd t' j = rd t j.
Proof.
  intros Hr0 Hu0 Hw Hk0 Hr Hu Hm Hb Hh Hpre Hlt Ht Hn0 Hs0 Hn1 Hs1.
  destruct (mst_pre_write_record b n uo w m b1) as (Hr1 & Hu1 & Hk1); [done..|].
  pose proof (next_usn_fresh w Hw) as (Hfresh & _).
  pose proof (even_half _ (mr_even _ _ _ Hr0)).
  assert (forall k, 0 <= k -> (255 + 256 * k) / 256 = k) as Hdiv by (intros; dlia).
  assert (mst_record t n uo) as Hrt.
  { destruct Hr0, Hr1. unfold rd_usa_ofs, rd_usa_count in *.
    constructor; unfold rd_usa_ofs, rd_usa_count;
      rewrite ?Ht by lia; change (2 / 256) with 0; change (3 / 256) with 0;
      try destruct (new 0); done. }
  destruct Hr0 as [_ _ _ _ _ [Hf1 Hf2]].
  destruct (new 0) eqn:E0.
  - apply (mst_post_read_torn t n uo (next_usn w) k0); [done| |done|].
    + rewrite Ht by lia. rewrite Z.div_small by lia. by rewrite E0.
    + rewrite Ht, Hdiv, Hs0, Hk0 by lia. congruence.
  - apply (mst_post_read_torn t n uo w k1); [done| |done|].
    + rewrite Ht by lia. rewrite Z.div_small by lia. by rewrite E0.
    + rewrite Ht, Hdiv, Hs1, Hk1 by lia. congruence.
Qed.

(** The bounds check admits a record whose update sequence array ends one
    word past the end of the buffer: [usa_count] is decremented before the
    comparison, which then ignores the update sequence number itself.  The
    fixup accesses memory outside of the record. *)
Theorem mst_usa_check_overrun :
  exists b, zlen b * 2 = 512 /\ usa_invalid 512 510 (u16 (2 - 1)) = false /\
    rd_usa_ofs b = Ret 510 /\ rd_usa_count b = Ret 2 /\
    ntfs_mst_pre_write_fixup (Some b) 512 = Fault.
Proof.
  exists ([0x4946; 0x454c; 510; 2] ++ replicate 252 0). by vm_compute.
Qed.

(** ** Witnesses: two-sector records *)
Definition sample_record (usn fill tail : Z) : words :=
  [0x4946; 0x454c; 48; 3] ++ replicate 20 fill ++ [usn; 0; 0]
  ++ replicate 228 fill ++ [tail] ++ replicate 255 fill ++ [tail].

Lemma sample_record_ok usn fill tail : mst_record (sample_record usn fill tail) 2 48.
Proof. split; try done; lia. Qed.

Definition sample_old : words := sample_record 7 17 7.
Definition sample_new : words := sample_record 7 42 43.
Definition sample_image : words :=
  match ntfs_mst_pre_write_fixup (Some sample_new) 1024 with
  | Ret (_, Some b) => b | _ => [] end.

Lemma mixed_sectors (b1 b0 : words) j :
  zlen b1 = 512 -> zlen b0 = 512 -> 0 <= j ->
  rd (take 256 b1 ++ drop 256 b0) j =
    if (fun s => s =? 0) (j / 256) then rd b1 j else rd b0 j.
Proof.
  intros H1 H0 Hj.
  assert (length b1 = 512%nat) as L1 by zlia.
  destruct (decide (j < 256)).
  - rewrite Z.div_small by lia. rewrite rd_app_l.
    2:{ unfold zlen. rewrite length_take. lia. }
    unfold rd. destruct (Z.ltb_spec j 0); [lia|]. cbv beta. simpl.
    rewrite lookup_take_lt by lia. done.
  - rewrite rd_app_r.
    2:{ unfold zlen. rewrite length_take. lia. }
    destruct (Z.eqb_spec (j / 256) 0); [dlia|].
    unfold zlen. rewrite length_take, L1. unfold rd.
    destruct (Z.ltb_spec j 0), (Z.ltb_spec (j - Z.of_nat (256 `min` 512)) 0); try lia.
    rewrite lookup_drop. by replace (256 + Z.to_nat (j - Z.of_nat (256 `min` 512)))%nat with (Z.to_nat j) by lia.
Qed.

Lemma mst_write_read_roundtrip_witness :
  exists b1 b2,
    ntfs_mst_pre_write_fixup (Some sample_new) (512 * 2) = Ret (None, Some b1) /\
    ntfs_mst_post_read_fixup b1 (512 * 2) = Ret (None, b2) /\
    ntfs_mst_post_write_fixup b1 = Ret b2 /\
    (exists usn, rd b1 (48 / 2) = Ret usn /\ usn <> 7 /\ usn <> 0 /\ usn <> 0xffff) /\
    zlen b2 = zlen sample_new /\
    forall j, 0 <= j -> ~ (48 / 2 <= j <= 48 / 2 + 2) -> rd b2 j = rd sample_new j.
Proof.
  apply (mst_write_read_roundtrip sample_new 2 48 7 0x454c4946).
  - apply sample_record_ok.
  - reflexivity.
  - unfold in_u; lia.
  - reflexivity.
  - discriminate.
  - discriminate.
Defined.

Lemma mst_torn_write_detected_witness :
  exists t', ntfs_mst_post_read_fixup (take 256 sample_image ++ drop 256 sample_old) (512 * 2)
      = Ret (Some EIO, t') /\
    rd_magic t' = Ret magic_BAAD /\
    forall j, 2 <= j -> rd t' j = rd (take 256 sample_image ++ drop 256 sample_old) j.
Proof.
  refine (mst_torn_write_detected sample_old sample_new sample_image _ 2 48 7 0x454c4946
           (fun s => s =? 0) 1 0 _ _ _ _ _ _ _ _ _ _ _ _ _ _ _ _).
  - apply sample_record_ok.
  - vm_compute; reflexivity.
  - unfold in_u; lia.
  - intros k Hk. assert (k = 0 \/ k = 1) as [-> | ->] by lia; vm_compute; reflexivity.
  - apply sample_record_ok.
  - vm_compute; reflexivity.
  - vm_compute; reflexivity.
  - discriminate.
  - discriminate.
  - vm_compute; reflexivity.
  - vm_compute; reflexivity.
  - intros j Hj. apply mixed_sectors; [vm_compute; reflexivity|vm_compute; reflexivity|done].
  - lia.
  - reflexivity.
  - lia.
  - reflexivity.
Defined.
