(* ===== verification/Runlist.v ===== *)
(** * Run lists (ntfs/runlist.c)

    A run list maps the virtual clusters of an attribute to the clusters of
    the volume.  In memory it is an array of elements ended by an element of
    length 0, in a block whose size is a multiple of 4 KiB; the model of a
    block is the list of all the elements that fit in it, so that an access
    past the block is a [Fault].  This file models the merging of run lists,
    the lookup, truncation and the size queries. *)
From S2P Require Import Prelude Libc.

(** runlist.h:46-50 _runlist_element *)
Record run := mkrun { vcn : Z; lcn : Z; rlen : Z }.

#[global] Instance run_eq_dec : EqDecision run.
Proof. solve_decision. Defined.

Abbreviation runlist := (list run).

(** attrib.h:52-59 LCN_EINVAL. The special values of an LCN. *)
Definition LCN_HOLE : Z := -1.
Definition LCN_RL_NOT_MAPPED : Z := -2.
Definition LCN_ENOENT : Z := -3.
Definition LCN_EINVAL : Z := -4.

Definition set_vcn (r : run) (v : Z) : run := mkrun v (lcn r) (rlen r).
Definition set_lcn (r : run) (l : Z) : run := mkrun (vcn r) l (rlen r).
Definition set_len (r : run) (n : Z) : run := mkrun (vcn r) (lcn r) n.

(** [rl[i] = f(rl[i])]: an update of one element in place. *)
Definition upd (rl : runlist) (i : Z) (f : run -> run) : outcome runlist :=
  let! r := rd rl i in wr rl i (f r).

(** runlist.c:63-67 ntfs_rl_mm *)
Definition ntfs_rl_mm (base : runlist) (dst src size : Z) : outcome runlist :=
  if negb (dst =? src) && (0 <? size) then
    let! xs := rdn base src size in wrn base dst xs
  else Ret base.

(** runlist.c:81-86 ntfs_rl_mc *)
Definition ntfs_rl_mc (dstbase : runlist) (dst : Z) (srcbase : runlist) (src size : Z)
  : outcome runlist :=
  if 0 <? size then
    let! xs := rdn srcbase src size in wrn dstbase dst xs
  else Ret dstbase.

Definition sizeof_run : Z := 24.

(** [(size * sizeof(runlist_element) + 0xfff) & ~0xfff] *)
Definition rl_bytes (size : Z) : Z := Z.land (size * sizeof_run + 0xfff) (Z.lnot 0xfff).

Section Alloc.
(** The memory the blocks are taken from. *)
Context (alloc : heap run).

(** runlist.c:104-112 ntfs_rl_realloc. The sizes are computed as [int]; a failed
    allocation returns NULL and leaves [errno] alone. *)
Definition ntfs_rl_realloc (rl : runlist) (old_size new_size : Z) : outcome runlist :=
  let old_b := s32 (rl_bytes old_size) in
  let new_b := s32 (rl_bytes new_size) in
  if old_b =? new_b then Ret rl
  else
    let! p := realloc_block alloc rl new_b (new_b / sizeof_run) in
    match p with Some rl => Ret rl | None => Fail EUNSET end.

(** runlist.c:162-185 ntfs_rl_are_mergeable; [None] is a NULL pointer. *)
Definition ntfs_rl_are_mergeable (dst src : option run) : bool :=
  match dst, src with
  | Some dst, Some src =>
    if (lcn dst =? LCN_RL_NOT_MAPPED) && (lcn src =? LCN_RL_NOT_MAPPED) then true
    else if negb (vcn dst + rlen dst =? vcn src) then false
    else if (0 <=? lcn dst) && (0 <=? lcn src) && (lcn dst + rlen dst =? lcn src) then true
    else if (lcn dst =? LCN_HOLE) && (lcn src =? LCN_HOLE) then true
    else false
  | _, _ => false
  end.

(** [ntfs_rl_are_mergeable(dst + i, src + j)] *)
Definition mergeable_at (dst : runlist) (i : Z) (src : runlist) (j : Z) : outcome bool :=
  let! d := rd dst i in let! s := rd src j in
  Ret (ntfs_rl_are_mergeable (Some d) (Some s)).

(** runlist.c:196-199 __ntfs_rl_merge *)
Definition __ntfs_rl_merge (dst src : run) : run := set_len dst (rlen dst + rlen src).

(** [__ntfs_rl_merge(dst + i, src + j)] *)
Definition merge_at (dst : runlist) (i : Z) (src : runlist) (j : Z) : outcome runlist :=
  let! s := rd src j in upd dst i (fun d => __ntfs_rl_merge d s).

(** [rl[i].vcn + rl[i].length] *)
Definition end_at (rl : runlist) (i : Z) : outcome Z :=
  let! r := rd rl i in Ret (vcn r + rlen r).

(** runlist.c:221-266 ntfs_rl_append *)
Definition ntfs_rl_append (dst : option runlist) (dsize : Z) (src : option runlist)
    (ssize loc : Z) : outcome runlist :=
  match dst, src with
  | Some dst, Some src =>
    let! rightm := if loc + 1 <? dsize then mergeable_at src (ssize - 1) dst (loc + 1)
                  else Ret false in
    let! dst := ntfs_rl_realloc dst dsize (dsize + ssize - Z.b2z rightm) in
    let! src := if rightm then merge_at src (ssize - 1) dst (loc + 1) else Ret src in
    let marker := loc + ssize + 1 in
    let! dst := ntfs_rl_mm dst marker (loc + 1 + Z.b2z rightm) (dsize - loc - 1 - Z.b2z rightm) in
    let! dst := ntfs_rl_mc dst (loc + 1) src 0 ssize in
    let! next := rd dst (loc + 1) in
    let! dst := upd dst loc (fun r => set_len r (vcn next - vcn r)) in
    let! m := rd dst marker in
    if lcn m =? LCN_ENOENT then
      let! e := end_at dst (marker - 1) in upd dst marker (fun r => set_vcn r e)
    else Ret dst
  | _, _ => Fail EINVAL
  end.

(** runlist.c:288-363 ntfs_rl_insert *)
Definition ntfs_rl_insert (dst : option runlist) (dsize : Z) (src : option runlist)
    (ssize loc : Z) : outcome runlist :=
  match dst, src with
  | Some dst, Some src =>
    let! s0 := rd src 0 in
    let! ld := (if loc =? 0 then Ret (false, 0 <? vcn s0)
      else
        let! leftm := mergeable_at dst (loc - 1) src 0 in
        let! p := rd dst (loc - 1) in
        let merged_length := if leftm then rlen p + rlen s0 else rlen p in
        Ret (leftm, vcn p + merged_length <? vcn s0)) in
    let '(leftm, disc) := ld in
    let! dst := ntfs_rl_realloc dst dsize (dsize + ssize - Z.b2z leftm + Z.b2z disc) in
    let! dst := if leftm then merge_at dst (loc - 1) src 0 else Ret dst in
    let marker := loc + ssize - Z.b2z leftm + Z.b2z disc in
    let! dst := ntfs_rl_mm dst marker loc (dsize - loc) in
    let! dst := ntfs_rl_mc dst (loc + Z.b2z disc) src (Z.b2z leftm) (ssize - Z.b2z leftm) in
    let! e := end_at dst (marker - 1) in
    let! dst := upd dst marker (fun r => set_vcn r e) in
    let! m := rd dst marker in
    let! dst := (if (lcn m =? LCN_HOLE) || (lcn m =? LCN_RL_NOT_MAPPED) then
        let! n := rd dst (marker + 1) in
        upd dst marker (fun r => set_len r (vcn n - vcn r))
      else Ret dst) in
    if disc then
      let! dst := (if 0 <? loc then
          let! e := end_at dst (loc - 1) in
          let! dst := upd dst loc (fun r => set_vcn r e) in
          let! n := rd dst (loc + 1) in
          upd dst loc (fun r => set_len r (vcn n - vcn r))
        else
          let! dst := upd dst loc (fun r => set_vcn r 0) in
          let! n := rd dst (loc + 1) in
          upd dst loc (fun r => set_len r (vcn n))) in
      upd dst loc (fun r => set_lcn r LCN_RL_NOT_MAPPED)
    else Ret dst
  | _, _ => Fail EINVAL
  end.

(** runlist.c:384-450 ntfs_rl_replace *)
Definition ntfs_rl_replace (dst : option runlist) (dsize : Z) (src : option runlist)
    (ssize loc : Z) : outcome runlist :=
  match dst, src with
  | Some dst, Some src =>
    let! rightm := if loc + 1 <? dsize then mergeable_at src (ssize - 1) dst (loc + 1)
                  else Ret false in
    let! leftm := if 0 <? loc then mergeable_at dst (loc - 1) src 0 else Ret false in
    let delta := ssize - 1 - Z.b2z leftm - Z.b2z rightm in
    let! dst := if 0 <? delta then ntfs_rl_realloc dst dsize (dsize + delta) else Ret dst in
    let! src := if rightm then merge_at src (ssize - 1) dst (loc + 1) else Ret src in
    let! dst := if leftm then merge_at dst (loc - 1) src 0 else Ret dst in
    let tail := loc + Z.b2z rightm + 1 in
    let marker := loc + ssize - Z.b2z leftm in
    let! dst := ntfs_rl_mm dst marker tail (dsize - tail) in
    let! dst := ntfs_rl_mc dst loc src (Z.b2z leftm) (ssize - Z.b2z leftm) in
    if 0 <? dsize - tail then
      let! m := rd dst marker in
      if lcn m =? LCN_ENOENT then
        let! e := end_at dst (marker - 1) in upd dst marker (fun r => set_vcn r e)
      else Ret dst
    else Ret dst
  | _, _ => Fail EINVAL
  end.

(** runlist.c:472-500 ntfs_rl_split *)
Definition ntfs_rl_split (dst : option runlist) (dsize : Z) (src : option runlist)
    (ssize loc : Z) : outcome runlist :=
  match dst, src with
  | Some dst, Some src =>
    let! dst := ntfs_rl_realloc dst dsize (dsize + ssize + 1) in
    let! dst := ntfs_rl_mm dst (loc + 1 + ssize) loc (dsize - loc) in
    let! dst := ntfs_rl_mc dst (loc + 1) src 0 ssize in
    let! n := rd dst (loc + 1) in
    let! dst := upd dst loc (fun r => set_len r (vcn n - vcn r)) in
    let! e := end_at dst (loc + ssize) in
    let! dst := upd dst (loc + ssize + 1) (fun r => set_vcn r e) in
    let! n2 := rd dst (loc + ssize + 2) in
    upd dst (loc + ssize + 1) (fun r => set_len r (vcn n2 - vcn r))
  | _, _ => Fail EINVAL
  end.

(** [for (i = start; !stop(rl[i]); i++);]: the index at which a forward scan
    stops; running past the block is a [Fault]. *)
Fixpoint scan_from (stop : run -> bool) (l : runlist) (i : Z) : outcome Z :=
  match l with
  | [] => Fault
  | r :: l' => if stop r then Ret i else scan_from stop l' (i + 1)
  end.
Definition scan (stop : run -> bool) (rl : runlist) (i : Z) : outcome Z :=
  scan_from stop (drop (Z.to_nat i) rl) i.

(** [for (i = start; i >= 0 && rl[i].lcn < LCN_HOLE; i--);] *)
Fixpoint scan_back (n : nat) (rl : runlist) : outcome Z :=
  match n with
  | O => Ret (-1)
  | S n' => let! r := rd rl (Z.of_nat n') in
            if lcn r <? LCN_HOLE then scan_back n' rl else Ret (Z.of_nat n')
  end.

Definition is_end (r : run) : bool := rlen r =? 0.

(** runlist.c:123-149 ntfs_rl_extend. [na_rl] is na->rl and [irl] the index in
    it of the argument [rl]; the result is the new na->rl, in which the
    returned pointer has the same index. *)
Definition ntfs_rl_extend (na_rl : option runlist) (irl : option Z) (more_entries : Z)
  : outcome runlist :=
  match na_rl, irl with
  | Some rl, Some irl =>
    let! last := scan is_end rl irl in
    match ntfs_rl_realloc rl (last + 1) (last + more_entries + 1) with
    | Fail _ => Fail ENOMEM
    | o => o
    end
  | _, _ => Fail EIO
  end.

(** runlist.c:527-545 ntfs_runlists_merge_i. The first mapping: [srl] becomes
    the run list, with an unmapped run in front if it does not start at
    vcn 0. *)
Definition merge_first (srl : runlist) : outcome runlist :=
  let! s0 := rd srl 0 in
  if negb (vcn s0 =? 0) then
    let! dend := scan is_end srl 0 in
    let dend := dend + 1 in
    let! drl := ntfs_rl_realloc srl dend (dend + 1) in
    let! drl := ntfs_rl_mm drl 1 0 dend in
    let! n := rd drl 1 in
    upd drl 0 (fun _ => mkrun 0 LCN_RL_NOT_MAPPED (vcn n))
  else Ret srl.

(** runlist.c:640-695 ntfs_runlists_merge_i. The end marker of [srl] (LCN_ENOENT
    at [marker_vcn]) is carried over to the merged list when [srl] ended
    after [drl]; a failed allocation here is the deliberate crash at
    [critical_error]. *)
Definition merge_marker (drl : runlist) (dend marker_vcn : Z) : outcome runlist :=
  let! ds := scan is_end drl dend in
  let! t := rd drl ds in
  if marker_vcn <? vcn t then Ret drl
  else if vcn t =? marker_vcn then upd drl ds (fun r => set_lcn r LCN_ENOENT)
  else
    let '(ds, slots) := if lcn t =? LCN_ENOENT then (ds - 1, 1) else (ds, 0) in
    let! r := rd drl ds in
    let! st := (if negb (lcn r =? LCN_RL_NOT_MAPPED) then
        let! st := (if slots =? 0 then
            match ntfs_rl_realloc drl ds (ds + 2) with
            | Ret drl => Ret (drl, 2)
            | _ => Fault
            end
          else Ret (drl, slots)) in
        let '(drl, slots) := st in
        let ds := ds + 1 in
        let! drl := (if negb (slots =? 1) then
            let! e := end_at drl (ds - 1) in upd drl ds (fun r => set_vcn r e)
          else Ret drl) in
        let! drl := upd drl ds (fun r => set_lcn r LCN_RL_NOT_MAPPED) in
        Ret (drl, ds, slots - 1)
      else Ret (drl, ds, slots)) in
    let '(drl, ds, slots) := st in
    let! drl := upd drl ds (fun r => set_len r (marker_vcn - vcn r)) in
    let ds := ds + 1 in
    let! drl := (if slots =? 0 then
        match ntfs_rl_realloc drl ds (ds + 1) with Ret drl => Ret drl | _ => Fault end
      else Ret drl) in
    wr drl ds (mkrun marker_vcn LCN_ENOENT 0).

(** runlist.c:506-711 ntfs_runlists_merge_i *)
Definition ntfs_runlists_merge_i (drl srl : option runlist) : outcome (option runlist) :=
  match drl, srl with
  | _, None => Ret drl
  | None, Some srl => let! rl := merge_first srl in Ret (Some rl)
  | Some drl, Some srl =>
    let! si := scan (fun r => is_end r || negb (lcn r <? LCN_HOLE)) srl 0 in
    let! s := rd srl si in
    if is_end s then Fail EINVAL
    else
      let sstart := si in
      let! di := scan (fun r => is_end r || (vcn s <? vcn r + rlen r)) drl 0 in
      let dins := di in
      let! d := rd drl dins in
      if (vcn d =? vcn s) && (0 <=? lcn d) && (0 <=? lcn s) then Fail ERANGE
      else
        let! send := scan is_end srl si in
        let! dend := scan is_end drl di in
        let! st := rd srl send in
        let '(marker, marker_vcn) :=
          if lcn st =? LCN_ENOENT then (send, vcn st) else (0, 0) in
        let! sfinal := scan_back (Z.to_nat (send + 1)) srl in
        let ds := dend + 1 in
        let ss := sfinal - sstart + 1 in
        let! s_end := end_at srl (send - 1) in
        let! s_last := rd srl (send - 1) in
        let start := (lcn d <? LCN_RL_NOT_MAPPED) || (vcn d =? vcn s) in
        let finish := (LCN_RL_NOT_MAPPED <=? lcn d) && (vcn d + rlen d <=? s_end) in
        let ss := if finish && is_end d then ss + 1 else ss in
        let finish := if negb (marker =? 0) && (vcn s_last <? vcn d + rlen d)
                      then false else finish in
        let src := Some (drop (Z.to_nat sstart) srl) in
        let! drl := (if start then
            if finish then ntfs_rl_replace (Some drl) ds src ss dins
            else ntfs_rl_insert (Some drl) ds src ss dins
          else
            if finish then ntfs_rl_append (Some drl) ds src ss dins
            else ntfs_rl_split (Some drl) ds src ss dins) in
        if negb (marker =? 0) then
          let! drl := merge_marker drl dend marker_vcn in Ret (Some drl)
        else Ret (Some drl)
  end.

(** runlist.c:745-754 ntfs_runlists_merge *)
Definition ntfs_runlists_merge (drl srl : option runlist) : outcome (option runlist) :=
  ntfs_runlists_merge_i drl srl.
End Alloc.

(** ** Lookup, truncation and sizes *)

(** runlist.c:1060-1062 ntfs_rl_vcn_to_lcn. The loop over the elements. *)
Fixpoint vcn_to_lcn_from (rl : runlist) (v : Z) : outcome Z :=
  match rl with
  | [] => Fault
  | r :: rl' =>
    if rlen r =? 0 then
      Ret (if lcn r <? 0 then lcn r else LCN_ENOENT)
    else
      let! n := rd rl' 0 in
      if v <? vcn n then
        Ret (if 0 <=? lcn r then lcn r + (v - vcn r) else lcn r)
      else vcn_to_lcn_from rl' v
  end.

(** runlist.c:1037-1070 ntfs_rl_vcn_to_lcn *)
Definition ntfs_rl_vcn_to_lcn (rl : option runlist) (v : Z) : outcome Z :=
  if v <? 0 then Ret LCN_EINVAL
  else match rl with
  | None => Ret LCN_RL_NOT_MAPPED
  | Some rl =>
    let! r0 := rd rl 0 in
    if v <? vcn r0 then Ret LCN_ENOENT else vcn_to_lcn_from rl v
  end.

(** runlist.c:1645-1650 ntfs_rl_truncate. The search of the run that holds
    [start_vcn]: its index, or the index of the terminator. *)
Fixpoint truncate_find (rl : runlist) (start_vcn i : Z) : outcome Z :=
  match rl with
  | [] => Fault
  | r :: rl' =>
    if rlen r =? 0 then Ret i
    else
      let! n := rd rl' 0 in
      if start_vcn <? vcn n then Ret i else truncate_find rl' start_vcn (i + 1)
  end.

(** runlist.c:1624-1692 ntfs_rl_truncate *)
Definition ntfs_rl_truncate (arl : option runlist) (start_vcn : Z) : outcome runlist :=
  match arl with
  | None => Fail EINVAL
  | Some rl =>
    let! r0 := rd rl 0 in
    if start_vcn <? vcn r0 then Fail EINVAL
    else
      let! i := truncate_find rl start_vcn 0 in
      let! r := rd rl i in
      if rlen r =? 0 then Fail EIO
      else
        let! rl := upd rl i (fun r => set_len r (start_vcn - vcn r)) in
        let! r := rd rl i in
        if negb (rlen r =? 0) then
          let! rl := upd rl (i + 1) (fun r => mkrun start_vcn (lcn r) 0) in
          upd rl (i + 1) (fun r => set_lcn r LCN_ENOENT)
        else upd rl i (fun r => set_lcn r LCN_ENOENT)
  end.

(** runlist.c:1710-1718 ntfs_rl_sparse. The loop. *)
Fixpoint sparse_from (rl : runlist) : outcome bool :=
  match rl with
  | [] => Fault
  | r :: rl' =>
    if rlen r =? 0 then Ret false
    else if lcn r <? 0 then
      if negb (lcn r =? LCN_HOLE) then Fail EINVAL else Ret true
    else sparse_from rl'
  end.

(** runlist.c:1700-1720 ntfs_rl_sparse *)
Definition ntfs_rl_sparse (rl : option runlist) : outcome bool :=
  match rl with None => Fail EINVAL | Some rl => sparse_from rl end.

(** runlist.c:1740-1749 ntfs_rl_get_compressed_size. The loop. *)
Fixpoint compressed_size_from (rl : runlist) (ret : Z) : outcome Z :=
  match rl with
  | [] => Fault
  | r :: rl' =>
    if rlen r =? 0 then Ret ret
    else if lcn r <? 0 then
      if negb (lcn r =? LCN_HOLE) then Fail EINVAL else compressed_size_from rl' ret
    else compressed_size_from rl' (s64 (ret + rlen r))
  end.

(** runlist.c:1729-1751 ntfs_rl_get_compressed_size *)
Definition ntfs_rl_get_compressed_size (cluster_size_bits : Z) (rl : option runlist)
  : outcome Z :=
  match rl with
  | None => Fail EINVAL
  | Some rl =>
    let! ret := compressed_size_from rl 0 in
    Ret (s64 (Z.shiftl ret cluster_size_bits))
  end.

(** ** What a run list means

    [contig v l e]: the runs [l] cover the clusters [v .. e) in order and
    without gaps.  [rl_ok rl l t]: the block [rl] holds the runs [l] followed
    by the terminator [t].  [lcn_of l t v] is the abstract map: where cluster
    [v] of the attribute is. *)
Fixpoint contig (v : Z) (l : runlist) (e : Z) : Prop :=
  match l with
  | [] => v = e
  | r :: l' => vcn r = v /\ 0 < rlen r /\ contig (v + rlen r) l' e
  end.

Record rl_ok (rl : runlist) (l : runlist) (t : run) (v0 : Z) : Prop := {
  ok_block : exists pad, rl = l ++ t :: pad;
  ok_contig : contig v0 l (vcn t);
  ok_tlen : rlen t = 0;
  ok_tlcn : lcn t < 0;
}.

Definition run_lcn (r : run) (v : Z) : Z :=
  if 0 <=? lcn r then lcn r + (v - vcn r) else lcn r.

Definition in_run (r : run) (v : Z) : bool := (vcn r <=? v) && (v <? vcn r + rlen r).

Fixpoint find_lcn (l : runlist) (v : Z) : option Z :=
  match l with
  | [] => None
  | r :: l' => if in_run r v then Some (run_lcn r v) else find_lcn l' v
  end.

Definition lcn_of (l : runlist) (t : run) (v : Z) : Z :=
  match find_lcn l v with
  | Some x => x
  | None => if vcn t <=? v then lcn t else LCN_ENOENT
  end.

Lemma contig_app v l k e : contig v (l ++ k) e <-> exists m, contig v l m /\ contig m k e.
Proof.
  revert v. induction l as [|r l IH]; intros v; cbn.
  - naive_solver.
  - rewrite IH. naive_solver.
Qed.

Lemma contig_le v l e : contig v l e -> v <= e.
Proof.
  revert v. induction l as [|r l IH]; intros v; cbn; [lia|].
  intros (? & ? & H). apply IH in H. lia.
Qed.

Lemma find_lcn_app l k v :
  find_lcn (l ++ k) v = match find_lcn l v with Some x => Some x | None => find_lcn k v end.
Proof. induction l as [|r l IH]; cbn; [done|]. by destruct (in_run r v). Qed.

Lemma in_run_true r v : in_run r v = true <-> vcn r <= v < vcn r + rlen r.
Proof. unfold in_run. lia. Qed.
Lemma in_run_false r v : in_run r v = false <-> ~ (vcn r <= v < vcn r + rlen r).
Proof. unfold in_run. lia. Qed.

(** A cluster is found in exactly the runs whose range holds it. *)
Lemma find_lcn_out v0 l e v : contig v0 l e -> ~ (v0 <= v < e) -> find_lcn l v = None.
Proof.
  revert v0. induction l as [|r l IH]; intros v0; cbn; [done|].
  intros (<- & Hr & H) Hv. pose proof (contig_le _ _ _ H).
  destruct (in_run r v) eqn:E.
  - apply in_run_true in E. lia.
  - apply (IH _ H). lia.
Qed.

Lemma find_lcn_in v0 l e v : contig v0 l e -> v0 <= v < e -> exists x, find_lcn l v = Some x.
Proof.
  revert v0. induction l as [|r l IH]; intros v0; cbn; [lia|].
  intros (<- & Hr & H) Hv. destruct (in_run r v) eqn:E; [eauto|].
  apply in_run_false in E. apply (IH _ H). lia.
Qed.

(** The loop of the lookup, from a run on. *)
Lemma vcn_to_lcn_from_ok v0 l t pad v :
  contig v0 l (vcn t) -> rlen t = 0 -> lcn t < 0 -> v0 <= v ->
  vcn_to_lcn_from (l ++ t :: pad) v = Ret (lcn_of l t v).
Proof.
  intros Hc Ht Hl Hv. unfold lcn_of. revert v0 Hc Hv. induction l as [|r l IH]; intros v0 Hc Hv; cbn.
  - cbn in Hc. subst v0. rewrite Ht. cbn. f_equal.
    destruct (Z.ltb_spec (lcn t) 0), (Z.leb_spec (vcn t) v); done || lia.
  - destruct Hc as (<- & Hr & Hc). destruct (Z.eqb_spec (rlen r) 0); [lia|].
    assert (exists n, rd (l ++ t :: pad) 0 = Ret n /\ vcn n = vcn r + rlen r) as (n' & Hn & En).
    { destruct l as [|r2 l]; cbn in *; eexists; (split; [reflexivity|]); naive_solver. }
    rewrite Hn. cbn. rewrite En. destruct (in_run r v) eqn:E.
    + apply in_run_true in E. destruct (Z.ltb_spec v (vcn r + rlen r)); [|lia]. done.
    + apply in_run_false in E. destruct (Z.ltb_spec v (vcn r + rlen r)); [lia|].
      apply (IH _ Hc). lia.
Qed.

Lemma rl_ok_first rl l t v0 : rl_ok rl l t v0 -> exists r, rd rl 0 = Ret r /\ vcn r = v0.
Proof.
  intros [[pad ->] Hc _ _]. destruct l as [|r l]; cbn in *; eexists; (split; [reflexivity|]);
    naive_solver.
Qed.

(** [ntfs_rl_vcn_to_lcn] computes the map that a well-formed run list
    stands for: the cluster of the run that holds the vcn, the special value
    of a hole or unmapped run, LCN_ENOENT before the first run, the
    terminator's value past the last one, LCN_EINVAL for a negative vcn. *)
Theorem vcn_to_lcn_spec rl l t v0 v :
  rl_ok rl l t v0 ->
  ntfs_rl_vcn_to_lcn (Some rl) v = Ret (if v <? 0 then LCN_EINVAL else lcn_of l t v).
Proof.
  intros Hok. destruct (rl_ok_first _ _ _ _ Hok) as (r0 & E0 & Ev).
  destruct Hok as [[pad ->] Hc Ht Hl]. unfold ntfs_rl_vcn_to_lcn.
  destruct (Z.ltb_spec v 0); [done|]. ostep E0. rewrite Ev.
  destruct (Z.ltb_spec v v0).
  - unfold lcn_of. rewrite (find_lcn_out _ _ _ _ Hc) by lia.
    pose proof (contig_le _ _ _ Hc). destruct (Z.leb_spec (vcn t) v); [lia|done].
  - by apply (vcn_to_lcn_from_ok v0).
Qed.

(** A run list used by the witnesses: clusters 0-3 at 100, a hole 4-9, and
    clusters 10-11 at 50. *)
Definition ex_runs : runlist := [mkrun 0 100 4; mkrun 4 LCN_HOLE 6; mkrun 10 50 2].
Definition ex_end : run := mkrun 12 LCN_ENOENT 0.
Definition ex_rl : runlist := ex_runs ++ ex_end :: replicate 166 (mkrun 0 0 0).

Lemma ex_rl_ok : rl_ok ex_rl ex_runs ex_end 0.
Proof. split; cbn; [by eexists|lia|done|done]. Defined.

Lemma vcn_to_lcn_spec_witness : ntfs_rl_vcn_to_lcn (Some ex_rl) 11 = Ret 51.
Proof. refine (eq_trans (vcn_to_lcn_spec _ _ _ _ 11 ex_rl_ok) _). vm_compute. reflexivity. Defined.

(** *** Truncation *)
Lemma truncate_find_ok v0 l t pad s i :
  contig v0 l (vcn t) -> rlen t = 0 -> v0 <= s ->
  (vcn t <= s /\ truncate_find (l ++ t :: pad) s i = Ret (i + zlen l)) \/
  (exists l1 r l2, l = l1 ++ r :: l2 /\ in_run r s = true /\
     truncate_find (l ++ t :: pad) s i = Ret (i + zlen l1)).
Proof.
  intros Hc Ht Hs. revert v0 i Hc Hs. induction l as [|r l IH]; intros v0 i Hc Hs; cbn.
  - left. cbn in Hc. rewrite Ht. cbn. split; [lia|f_equal; zlia].
  - destruct Hc as (<- & Hr & Hc). destruct (Z.eqb_spec (rlen r) 0); [lia|].
    assert (exists n, rd (l ++ t :: pad) 0 = Ret n /\ vcn n = vcn r + rlen r) as (n' & Hn & En).
    { destruct l as [|r2 l]; cbn in *; eexists; (split; [reflexivity|]); naive_solver. }
    rewrite Hn. cbn. rewrite En. destruct (Z.ltb_spec s (vcn r + rlen r)).
    + right. exists [], r, l. split_and!; [done|apply in_run_true; lia|f_equal; zlia].
    + destruct (IH _ (i + 1) Hc ltac:(lia)) as [[? E]|(l1 & r' & l2 & -> & ? & E)].
      * left. split; [done|]. rewrite E. f_equal. zlia.
      * right. exists (r :: l1), r', l2. split_and!; [done|done|]. rewrite E. f_equal. zlia.
Qed.

(** The runs of [l] below cluster [s], the last one cut at [s]. *)
Fixpoint cut_runs (l : runlist) (s : Z) : runlist :=
  match l with
  | [] => []
  | r :: l' =>
    if s <=? vcn r then []
    else if s <? vcn r + rlen r then [set_len r (s - vcn r)]
    else r :: cut_runs l' s
  end.

Lemma cut_runs_split v0 l1 r l2 e s :
  contig v0 (l1 ++ r :: l2) e -> in_run r s = true ->
  cut_runs (l1 ++ r :: l2) s = l1 ++ (if s =? vcn r then [] else [set_len r (s - vcn r)]).
Proof.
  rewrite in_run_true. intros Hc Hin. revert v0 Hc. induction l1 as [|q l1 IH]; intros v0; cbn.
  - intros _. destruct (Z.leb_spec s (vcn r)), (Z.eqb_spec s (vcn r)); try lia; [done|].
    destruct (Z.ltb_spec s (vcn r + rlen r)); [done|lia].
  - intros (<- & Hq & Hc). pose proof Hc as Hc'. apply contig_app in Hc' as (m & H1 & H2).
    apply contig_le in H1. destruct H2 as (<- & _).
    destruct (Z.leb_spec s (vcn q)); [lia|]. destruct (Z.ltb_spec s (vcn q + rlen q)); [lia|].
    f_equal. by eapply IH.
Qed.

Lemma contig_cut v0 l e s : contig v0 l e -> v0 <= s <= e -> contig v0 (cut_runs l s) s.
Proof.
  revert v0. induction l as [|r l IH]; intros v0; cbn; [lia|].
  intros (<- & Hr & H) Hs. destruct (Z.leb_spec s (vcn r)); [cbn; lia|].
  destruct (Z.ltb_spec s (vcn r + rlen r)); cbn.
  - lia.
  - split_and!; [done|lia|]. apply IH; [done|lia].
Qed.

Lemma find_lcn_cut v0 l e s v :
  contig v0 l e -> v0 <= s <= e ->
  find_lcn (cut_runs l s) v = if v <? s then find_lcn l v else None.
Proof.
  intros Hc Hs. destruct (Z.ltb_spec v s).
  - revert v0 Hc Hs. induction l as [|r l IH]; intros v0; cbn; [done|].
    intros (<- & Hr & Hc) Hs. destruct (Z.leb_spec s (vcn r)).
    + destruct (in_run r v) eqn:E; [apply in_run_true in E; lia|].
      symmetry. apply (find_lcn_out _ _ _ _ Hc). lia.
    + destruct (Z.ltb_spec s (vcn r + rlen r)).
      * cbn. unfold in_run, run_lcn. cbn.
        destruct (Z.leb_spec (vcn r) v), (Z.ltb_spec v (vcn r + (s - vcn r))),
          (Z.ltb_spec v (vcn r + rlen r)); cbn; try lia; try done;
          symmetry; apply (find_lcn_out _ _ _ _ Hc); lia.
      * cbn. destruct (in_run r v); [done|]. apply (IH _ Hc). lia.
  - apply (find_lcn_out v0 _ s); [by eapply contig_cut|lia].
Qed.

(** Truncating a run list at a vcn inside it succeeds; the result is a
    well-formed run list that ends at this vcn: it maps every cluster below
    as before and answers LCN_ENOENT from there on. *)
Theorem truncate_spec rl l t v0 s :
  rl_ok rl l t v0 -> v0 <= s < vcn t ->
  exists rl', ntfs_rl_truncate (Some rl) s = Ret rl' /\
    rl_ok rl' (cut_runs l s) (mkrun s LCN_ENOENT 0) v0 /\ zlen rl' = zlen rl /\
    (forall v, lcn_of (cut_runs l s) (mkrun s LCN_ENOENT 0) v =
               if v <? s then lcn_of l t v else LCN_ENOENT).
Proof.
  intros Hok Hs. destruct (rl_ok_first _ _ _ _ Hok) as (r0 & E0 & Ev).
  destruct Hok as [[pad ->] Hc Ht Hl]. unfold ntfs_rl_truncate. ostep E0. rewrite Ev.
  destruct (Z.ltb_spec s v0); [lia|].
  destruct (truncate_find_ok v0 l t pad s 0 Hc Ht ltac:(lia))
    as [[? _]|(l1 & r & l2 & -> & Hin & ->)]; [lia|].
  assert (Hcut := contig_cut _ _ _ s Hc ltac:(lia)).
  assert (Hf := fun v => find_lcn_cut _ _ _ s v Hc ltac:(lia)).
  pose proof (cut_runs_split _ _ _ _ _ _ Hc Hin) as Ecut.
  apply in_run_true in Hin. cbn [obind]. rewrite <-(assoc_L (++)), <-app_comm_cons.
  rewrite rd_app_here by lia. cbn [obind].
  destruct (Z.eqb_spec (rlen r) 0); [lia|]. unfold upd at 1.
  rewrite rd_app_here by lia. cbn [obind]. rewrite wr_app_here by lia. cbn [obind].
  rewrite rd_app_here by lia. cbn [obind].
  change (rlen (set_len r (s - vcn r))) with (s - vcn r).
  assert (forall rl', (exists pad', rl' = cut_runs (l1 ++ r :: l2) s ++ mkrun s LCN_ENOENT 0 :: pad') ->
    rl_ok rl' (cut_runs (l1 ++ r :: l2) s) (mkrun s LCN_ENOENT 0) v0 /\
    forall v, lcn_of (cut_runs (l1 ++ r :: l2) s) (mkrun s LCN_ENOENT 0) v =
              if v <? s then lcn_of (l1 ++ r :: l2) t v else LCN_ENOENT) as Hfin.
  { intros rl' Hp. split.
    - by split.
    - intros v. unfold lcn_of. rewrite Hf. cbn. destruct (Z.ltb_spec v s).
      + destruct (find_lcn _ v); [done|].
        destruct (Z.leb_spec s v), (Z.leb_spec (vcn t) v); done || lia.
      + destruct (Z.leb_spec s v); done. }
  destruct (Z.eqb_spec (s - vcn r) 0); cbn [negb].
  - unfold upd. rewrite rd_app_here by lia. cbn [obind]. rewrite wr_app_here by lia.
    eexists. split; [reflexivity|]. edestruct Hfin as [H1 H2].
    2: { split; [exact H1|]. split; [zlia|exact H2]. }
    rewrite Ecut. destruct (Z.eqb_spec s (vcn r)); [|lia]. rewrite app_nil_r.
    eexists. f_equal. f_equal. unfold set_lcn, set_len. cbn. f_equal; lia.
  - assert (exists n k, l2 ++ t :: pad = n :: k) as (n' & k & El) by (destruct l2; cbn; eauto).
    rewrite El. rewrite (cons_middle (set_len r (s - vcn r))), (assoc_L (++)). unfold upd.
    rewrite rd_app_here by zlia. cbn [obind]. rewrite wr_app_here by zlia. cbn [obind].
    rewrite rd_app_here by zlia. cbn [obind]. rewrite wr_app_here by zlia.
    eexists. split; [reflexivity|]. edestruct Hfin as [H1 H2].
    2: { split; [exact H1|]. split; [|exact H2]. apply (f_equal zlen) in El. zlia. }
    rewrite Ecut. destruct (Z.eqb_spec s (vcn r)); [lia|]. by eexists.
Qed.

Lemma truncate_spec_witness :
  exists rl', ntfs_rl_truncate (Some ex_rl) 7 = Ret rl' /\
    rl_ok rl' [mkrun 0 100 4; mkrun 4 LCN_HOLE 3] (mkrun 7 LCN_ENOENT 0) 0.
Proof.
  refine (match truncate_spec _ _ _ _ 7 ex_rl_ok _ with
          | ex_intro _ rl' (conj E (conj H _)) => ex_intro _ rl' (conj E H) end).
  cbn. lia.
Defined.

(** *** Sizes *)
Definition mapped_clusters (l : runlist) (t : run) (v0 : Z) : Z :=
  zlen (filter (fun v => 0 <= lcn_of l t v) (seqZ v0 (vcn t - v0))).

(** No run is unmapped or beyond the end. *)
Definition fully_mapped (l : runlist) : Prop := Forall (fun r => LCN_HOLE <= lcn r) l.

Definition alloc_len (l : runlist) : Z :=
  foldr (fun r n => (if lcn r <? 0 then 0 else rlen r) + n) 0 l.

Lemma filter_all_none {A} (P : A -> Prop) {dec : forall x, Decision (P x)} l :
  (Forall P l -> filter P l = l) /\ (Forall (fun x => ~ P x) l -> filter P l = []).
Proof.
  induction l as [|x l [IH1 IH2]]; [done|]. rewrite filter_cons. split.
  - intros H. inversion_clear H. rewrite decide_True by done. f_equal. auto.
  - intros H. inversion_clear H. rewrite decide_False by done. auto.
Qed.

Lemma filter_ext_Forall {A} (P Q : A -> Prop) {dp : forall x, Decision (P x)}
    {dq : forall x, Decision (Q x)} l :
  Forall (fun x => P x <-> Q x) l -> filter P l = filter Q l.
Proof.
  induction 1 as [|x l Hx _ IH]; [done|]. rewrite !filter_cons, IH.
  destruct (decide (P x)), (decide (Q x)); naive_solver.
Qed.

Lemma lcn_of_cons_here r l t v : in_run r v = true -> lcn_of (r :: l) t v = run_lcn r v.
Proof. unfold lcn_of. cbn. by intros ->. Qed.

Lemma lcn_of_cons_there r l t v : in_run r v = false -> lcn_of (r :: l) t v = lcn_of l t v.
Proof. unfold lcn_of. cbn. by intros ->. Qed.

Lemma mapped_clusters_alloc v0 l t :
  contig v0 l (vcn t) -> mapped_clusters l t v0 = alloc_len l.
Proof.
  unfold mapped_clusters. revert v0. induction l as [|r l IH]; intros v0.
  - cbn [contig alloc_len foldr]. intros ->. by rewrite Z.sub_diag.
  - cbn [contig alloc_len foldr]. intros (<- & Hr & Hc). pose proof (contig_le _ _ _ Hc).
    fold (alloc_len l). rewrite <- (IH _ Hc).
    replace (vcn t - vcn r) with (rlen r + (vcn t - (vcn r + rlen r))) by lia.
    rewrite seqZ_app by lia. rewrite filter_app, zlen_app. f_equal.
    + destruct (Z.ltb_spec (lcn r) 0) as [Hl|Hl].
      * rewrite (proj2 (filter_all_none _ _)); [done|]. apply Forall_forall. intros v Hv.
        apply elem_of_seqZ in Hv. rewrite lcn_of_cons_here by (apply in_run_true; lia).
        unfold run_lcn. destruct (Z.leb_spec 0 (lcn r)); lia.
      * rewrite (proj1 (filter_all_none _ _)).
        -- unfold zlen. rewrite length_seqZ. lia.
        -- apply Forall_forall. intros v Hv.
           apply elem_of_seqZ in Hv. rewrite lcn_of_cons_here by (apply in_run_true; lia).
           unfold run_lcn. destruct (Z.leb_spec 0 (lcn r)); lia.
    + f_equal. apply filter_ext_Forall. apply Forall_forall. intros v Hv.
      apply elem_of_seqZ in Hv. rewrite lcn_of_cons_there by (apply in_run_false; lia). done.
Qed.

Lemma alloc_len_bounds v0 l e : contig v0 l e -> 0 <= alloc_len l <= e - v0.
Proof.
  revert v0. induction l as [|r l IH]; intros v0; cbn; [lia|].
  intros (<- & Hr & H). apply IH in H. fold (alloc_len l). destruct (lcn r <? 0); lia.
Qed.

Lemma compressed_size_from_ok v0 l t pad ret :
  contig v0 l (vcn t) -> rlen t = 0 -> fully_mapped l ->
  0 <= ret -> ret + (vcn t - v0) < 2 ^ 63 ->
  compressed_size_from (l ++ t :: pad) ret = Ret (ret + alloc_len l).
Proof.
  intros Hc Ht Hf H0 Hmax. revert v0 ret Hc Hf H0 Hmax.
  induction l as [|r l IH]; intros v0 ret; cbn.
  - intros. rewrite Ht. cbn. f_equal. lia.
  - intros (<- & Hr & Hc) Hf H0 Hmax. inv Hf. pose proof (contig_le _ _ _ Hc).
    destruct (Z.eqb_spec (rlen r) 0); [lia|]. destruct (Z.ltb_spec (lcn r) 0).
    + destruct (Z.eqb_spec (lcn r) LCN_HOLE); cbn; [|unfold LCN_HOLE in *; lia].
      by erewrite IH by (eauto; lia).
    + wsimp. erewrite IH by (eauto; lia). f_equal. fold (alloc_len l). lia.
Qed.

(** The compressed size of a fully mapped run list is the number of its
    clusters that are allocated on disk, in bytes. *)
Theorem compressed_size_spec rl l t v0 bits :
  rl_ok rl l t v0 -> fully_mapped l -> 0 <= bits -> 0 <= v0 ->
  vcn t * 2 ^ bits < 2 ^ 63 ->
  ntfs_rl_get_compressed_size bits (Some rl) = Ret (mapped_clusters l t v0 * 2 ^ bits).
Proof.
  intros [[pad ->] Hc Ht Hl] Hf Hb Hv Hmax. unfold ntfs_rl_get_compressed_size.
  assert (0 < 2 ^ bits) by lia. pose proof (contig_le _ _ _ Hc).
  pose proof (alloc_len_bounds _ _ _ Hc).
  erewrite compressed_size_from_ok; [|done..|nia]. cbn.
  rewrite (mapped_clusters_alloc _ _ _ Hc), Z.shiftl_mul_pow2 by lia.
  rewrite wraps_small; [done|lia|]. unfold in_s. change (2 ^ (64 - 1)) with (2 ^ 63). nia.
Qed.

(** Where nothing can be read behind the block, growing it leaves it. *)
Example ex_realloc_overread :
  ntfs_rl_realloc (Heap (fun _ => true) (fun _ _ => [])) (replicate 170 (mkrun 0 0 0)) 170 171 = Fault.
Proof. reflexivity. Qed.

Lemma compressed_size_spec_witness :
  ntfs_rl_get_compressed_size 12 (Some ex_rl) = Ret (6 * 4096).
Proof.
  refine (eq_trans (compressed_size_spec _ _ _ _ 12 ex_rl_ok _ _ _ _) _).
  - repeat constructor; done.
  - done.
  - done.
  - done.
  - vm_compute. reflexivity.
Defined.
