(* ===== verification/RunlistMerge.v ===== *)
(** * Merging of run lists: correctness (ntfs/runlist.c)

    [ntfs_runlists_merge] inserts newly mapped or allocated runs into the run
    list of an attribute by replacing, extending or splitting one element of
    the block in place.  This file proves that each of the four surgeries
    keeps the block a well-formed run list and changes the map from vcn to lcn
    exactly on the range of the new runs. *)
From S2P Require Import Prelude Libc Runlist.

(** The block is large enough for [n] elements as [ntfs_rl_realloc] counts:
    a list of [n] elements is given whole 4 KiB pages. *)
Definition cap (rl : runlist) (n : Z) : Prop := rl_bytes n / sizeof_run <= zlen rl.

Lemma rl_bytes_eq n : rl_bytes n = (n * 24 + 4095) / 4096 * 4096.
Proof.
  unfold rl_bytes. change 0xfff with (Z.ones 12) at 2.
  rewrite <- Z.ldiff_land, Z.ldiff_ones_r, Z.shiftl_mul_pow2, Z.shiftr_div_pow2 by lia. done.
Qed.

Lemma rl_bytes_mono n m : n <= m -> rl_bytes n <= rl_bytes m.
Proof. rewrite !rl_bytes_eq. intros. dlia. Qed.

Lemma rl_bytes_ge n : 0 <= n -> n <= rl_bytes n / sizeof_run.
Proof. rewrite rl_bytes_eq. unfold sizeof_run. intros. dlia. Qed.

(** So few elements that the size of their block is an [int]. *)
Definition few (n : Z) : Prop := n * 24 + 4095 < 2 ^ 31.

Lemma few_s32 n : 0 <= n -> few n -> s32 (rl_bytes n) = rl_bytes n.
Proof. unfold few. intros. apply wraps_small; [lia|]. unfold in_s. rewrite rl_bytes_eq. dlia. Qed.

Lemma cap_ge rl n : 0 <= n -> cap rl n -> n <= zlen rl.
Proof. unfold cap. intros Hn H. apply rl_bytes_ge in Hn. lia. Qed.

Lemma cap_le rl n m : m <= n -> cap rl n -> cap rl m.
Proof.
  unfold cap, sizeof_run. intros H Hc. apply rl_bytes_mono in H.
  apply (Z.div_le_mono _ _ 24) in H; lia.
Qed.

Lemma cap_same rl rl' n : zlen rl' = zlen rl -> cap rl n -> cap rl' n.
Proof. unfold cap. by intros ->. Qed.

(** ** Equivalent run lists

    Two lists that cover the same clusters and map each one to the same place;
    the driver merges neighbouring runs where it can, so results are stated up
    to this equivalence. *)
Record rl_eqv (v e : Z) (m n : runlist) : Prop := {
  eqv_l : contig v m e;
  eqv_r : contig v n e;
  eqv_find : forall x, find_lcn m x = find_lcn n x;
}.

Lemma rl_eqv_refl v e m : contig v m e -> rl_eqv v e m m.
Proof. by split. Qed.

#[global] Instance rl_eqv_sym v e : Symmetric (rl_eqv v e).
Proof. intros m n []. split; auto. Qed.
#[global] Instance rl_eqv_trans v e : Transitive (rl_eqv v e).
Proof. intros m n o [] []. split; congruence. Qed.

(** The lookup of a block only depends on its runs up to equivalence. *)
#[global] Instance lcn_of_proper v e : Proper (rl_eqv v e ==> eq ==> eq ==> eq) lcn_of.
Proof. intros m n [_ _ H] t ? <- x ? <-. unfold lcn_of. by rewrite H. Qed.

Lemma rl_eqv_app v c e m n k :
  rl_eqv v c m n -> contig c k e -> rl_eqv v e (m ++ k) (n ++ k).
Proof.
  intros [H1 H2 Hf] Hk. split.
  - apply contig_app. eauto.
  - apply contig_app. eauto.
  - intros x. by rewrite !find_lcn_app, Hf.
Qed.

Lemma rl_eqv_app_l v c e k m n :
  contig v k c -> rl_eqv c e m n -> rl_eqv v e (k ++ m) (k ++ n).
Proof.
  intros Hk [H1 H2 Hf]. split.
  - apply contig_app. eauto.
  - apply contig_app. eauto.
  - intros x. by rewrite !find_lcn_app, Hf.
Qed.

Lemma mergeable_inv x y :
  ntfs_rl_are_mergeable (Some x) (Some y) = true ->
  (lcn x = LCN_RL_NOT_MAPPED /\ lcn y = LCN_RL_NOT_MAPPED) \/
  (vcn x + rlen x = vcn y /\
    ((0 <= lcn x /\ 0 <= lcn y /\ lcn x + rlen x = lcn y) \/
     (lcn x = LCN_HOLE /\ lcn y = LCN_HOLE))).
Proof.
  unfold ntfs_rl_are_mergeable, LCN_HOLE, LCN_RL_NOT_MAPPED.
  destruct (Z.eqb_spec (lcn x) (-2)), (Z.eqb_spec (lcn y) (-2)); cbn; try lia;
  destruct (Z.eqb_spec (vcn x + rlen x) (vcn y)); cbn; try done;
  destruct (Z.leb_spec 0 (lcn x)), (Z.leb_spec 0 (lcn y)); cbn;
  destruct (Z.eqb_spec (lcn x + rlen x) (lcn y)); cbn; try lia;
  destruct (Z.eqb_spec (lcn x) (-1)), (Z.eqb_spec (lcn y) (-1)); cbn; try done; lia.
Qed.

(** Merging two neighbouring runs does not change the map. *)
Lemma eqv_glue v e l x y k :
  contig v (l ++ x :: y :: k) e ->
  ntfs_rl_are_mergeable (Some x) (Some y) = true ->
  LCN_HOLE <= lcn x \/ LCN_HOLE <= lcn y ->
  rl_eqv v e (l ++ __ntfs_rl_merge x y :: k) (l ++ x :: y :: k).
Proof.
  intros Hc Hm%mergeable_inv Hl.
  assert (contig v (l ++ __ntfs_rl_merge x y :: k) e) as Hc'.
  { apply contig_app in Hc as (m & H1 & (<- & ? & E & ? & H2)).
    apply contig_app. exists (vcn x). split; [done|]. cbn. split_and!; [done|lia|].
    by rewrite Z.add_assoc. }
  split; [done|done|]. intros z. rewrite !find_lcn_app. destruct (find_lcn l z); [done|]. cbn.
  apply contig_app in Hc as (m & _ & (<- & ? & E & ? & _)).
  unfold in_run, run_lcn. cbn.
  destruct (Z.leb_spec (vcn x) z), (Z.ltb_spec z (vcn x + (rlen x + rlen y))),
    (Z.ltb_spec z (vcn x + rlen x)), (Z.leb_spec (vcn y) z), (Z.ltb_spec z (vcn y + rlen y));
    cbn; try lia; try done;
  destruct (Z.leb_spec 0 (lcn x)), (Z.leb_spec 0 (lcn y)); f_equal;
    unfold LCN_HOLE, LCN_RL_NOT_MAPPED in *; lia.
Qed.

(** ** Steps on a block *)
Lemma upd_here P x Q i f : i = zlen P -> upd (P ++ x :: Q) i f = Ret (P ++ f x :: Q).
Proof. intros ->. unfold upd. rewrite rd_app_here by done. cbn. by rewrite wr_app_here. Qed.

Lemma end_here P x Q i : i = zlen P -> end_at (P ++ x :: Q) i = Ret (vcn x + rlen x).
Proof. intros ->. unfold end_at. by rewrite rd_app_here. Qed.

Lemma contig_last v A x c : contig v (A ++ [x]) c -> vcn x + rlen x = c.
Proof. intros (m & _ & <- & _ & H)%contig_app. done. Qed.

Lemma end_last v A Q c : A <> [] -> contig v A c -> end_at (A ++ Q) (zlen A - 1) = Ret c.
Proof.
  intros HA Hc. destruct A as [|x A _] using rev_ind; [done|].
  rewrite <- (assoc_L (++)). cbn [app]. rewrite end_here by zlia.
  by rewrite (contig_last _ _ _ _ Hc).
Qed.

(** The element that follows [x]: its vcn. *)
Lemma next_vcn A x post t Q c :
  contig c post (vcn t) ->
  exists n, rd (A ++ x :: post ++ t :: Q) (zlen A + 1) = Ret n /\ vcn n = c.
Proof.
  intros Hc. rewrite cons_middle, (assoc_L (++)).
  destruct post as [|n post]; cbn [app].
  - exists t. rewrite rd_app_here by zlia. done.
  - exists n. rewrite rd_app_here by zlia. split; [done|apply Hc].
Qed.

(** Setting the vcn of an element to the end of the previous one changes
    nothing in a contiguous list. *)
Lemma fix_marker v A y Q i :
  A <> [] -> contig v A (vcn y) -> i = zlen A ->
  (let! e := end_at (A ++ y :: Q) (i - 1) in
   upd (A ++ y :: Q) i (fun r => set_vcn r e)) = Ret (A ++ y :: Q).
Proof.
  intros HA Hc ->. rewrite (end_last v _ _ (vcn y)) by done. cbn [obind].
  rewrite upd_here by done. by destruct y.
Qed.

Lemma mergeable_at_here P x Q P' y Q' i j :
  i = zlen P -> j = zlen P' ->
  mergeable_at (P ++ x :: Q) i (P' ++ y :: Q') j = Ret (ntfs_rl_are_mergeable (Some x) (Some y)).
Proof. intros -> ->. unfold mergeable_at. by rewrite !rd_app_here. Qed.

Lemma merge_at_here P x Q P' y Q' i j :
  i = zlen P -> j = zlen P' ->
  merge_at (P ++ x :: Q) i (P' ++ y :: Q') j = Ret (P ++ __ntfs_rl_merge x y :: Q).
Proof. intros -> ->. unfold merge_at. rewrite rd_app_here by done.
  by apply (upd_here P x Q _ (fun d => __ntfs_rl_merge d y)). Qed.

(** A successful reallocation keeps the elements in use; what follows them is
    unspecified. *)
Lemma realloc_ok (alloc : heap run) l pad old new :
  cap (l ++ pad) old -> zlen l <= old -> old <= new -> few new ->
  (forall n, alloc n = true) -> readable alloc ->
  exists pad', ntfs_rl_realloc alloc (l ++ pad) old new = Ret (l ++ pad') /\ cap (l ++ pad') new.
Proof.
  intros Hc Hl Hn Hf Ha Hr. assert (0 <= zlen l) by apply zlen_nonneg. unfold ntfs_rl_realloc. rewrite !few_s32 by (done || (unfold few in *; lia)).
  destruct (Z.eqb_spec (rl_bytes old) (rl_bytes new)) as [E|E].
  - exists pad. split; [done|]. unfold cap in *. by rewrite <- E.
  - pose proof (rl_bytes_ge new ltac:(lia)).
    destruct (realloc_block_take alloc (l ++ pad) (rl_bytes new) (rl_bytes new / sizeof_run) Hr (Ha _)) as (junk & -> & Hj); [unfold sizeof_run in *; lia|]. cbn [obind].
    rewrite <- (assoc_L (++)), take_app_ge by zlia. eexists. split; [done|]. unfold cap. rewrite zlen_app in Hj |- *. unfold zlen at 2. rewrite length_take, length_app. revert Hj H0. generalize (rl_bytes new / sizeof_run). intros n. zlia.
Qed.

(** [ntfs_rl_mm] that makes room: the tail of the list moves [x - zlen R]
    elements to the right (or left). *)
Lemma mm_ok P R tail pad x :
  0 <= x -> x - zlen R <= zlen pad ->
  ntfs_rl_mm (P ++ R ++ tail ++ pad) (zlen P + x) (zlen P + zlen R) (zlen tail) =
  Ret (P ++ take (Z.to_nat x) (R ++ tail ++ pad) ++ tail ++
       drop (Z.to_nat (x + zlen tail)) (R ++ tail ++ pad)).
Proof.
  intros Hx Hp. unfold ntfs_rl_mm.
  destruct (Z.eqb_spec (zlen P + x) (zlen P + zlen R)) as [E|E]; cbn.
  - f_equal. f_equal. replace x with (zlen R) by lia.
    rewrite take_app_length' by zlia. f_equal. f_equal.
    rewrite (assoc_L (++)), drop_app_length'; [done|]. rewrite length_app. zlia.
  - destruct (Z.ltb_spec 0 (zlen tail)) as [Ht|Ht]; cbn.
    + rewrite (assoc_L (++) P). rewrite rdn_app_here by zlia. cbn [obind].
      unfold wrn. destruct tail as [|r tail]; [zlia|].
      destruct (Z.leb_spec 0 (zlen P + x)); [|zlia].
      destruct (Z.leb_spec (zlen P + x + zlen (r :: tail)) (zlen ((P ++ R) ++ (r :: tail) ++ pad)));
        cbn [andb]; [|zlia].
      f_equal. unfold splice. rewrite <- (assoc_L (++) P R).
      rewrite take_app_ge by zlia. rewrite <- !(assoc_L (++)). f_equal. f_equal.
      { f_equal. zlia. }
      f_equal. rewrite drop_app_ge by zlia. f_equal. cbn [length]. zlia.
    + destruct tail; [|zlia]. rewrite zlen_nil, Z.add_0_r. cbn [app]. by rewrite take_drop.
Qed.

(** [ntfs_rl_mc] of a piece of a list. *)
Lemma mc_ok P G Q X S Y :
  zlen G = zlen S ->
  ntfs_rl_mc (P ++ G ++ Q) (zlen P) (X ++ S ++ Y) (zlen X) (zlen S) = Ret (P ++ S ++ Q).
Proof.
  intros HG. unfold ntfs_rl_mc. destruct (Z.ltb_spec 0 (zlen S)) as [Hs|Hs].
  - rewrite rdn_app_here by done. cbn [obind]. by apply wrn_app_here.
  - destruct S; [|zlia]. destruct G; [|zlia]. done.
Qed.

(** Both together: [R] is replaced by [S] in the list [P ++ R ++ T], [t]. *)
Lemma move_in P R T t pad X S Y e f n x y :
  zlen S - zlen R <= zlen pad ->
  e = zlen P + zlen S -> f = zlen P + zlen R -> n = zlen T + 1 ->
  x = zlen X -> y = zlen S ->
  exists pad',
    (forall {A} (k : runlist -> outcome A),
      (let! b := ntfs_rl_mm (P ++ R ++ T ++ t :: pad) e f n in
       let! b := ntfs_rl_mc b (zlen P) (X ++ S ++ Y) x y in k b) =
      k (P ++ S ++ T ++ t :: pad')) /\
    zlen (P ++ S ++ T ++ t :: pad') = zlen (P ++ R ++ T ++ t :: pad).
Proof.
  intros H -> -> -> -> ->.
  assert (forall p, T ++ t :: p = (T ++ [t]) ++ p) as ET.
  { intros p. by rewrite <- (assoc_L (++)). }
  set (pad' := drop (Z.to_nat (zlen S + zlen (T ++ [t]))) (R ++ (T ++ [t]) ++ pad)).
  exists pad'. rewrite (ET pad), (ET pad'). subst pad'. split.
  - intros A k. replace (zlen T + 1) with (zlen (T ++ [t])) by zlia.
    rewrite mm_ok by zlia. cbn [obind].
    rewrite mc_ok; [done|].
    unfold zlen. rewrite length_take, !length_app. zlia.
  - rewrite !zlen_app. unfold zlen. rewrite length_drop, !length_app. zlia.
Qed.

(** ** The four surgeries

    [pre], [d], [post] and [t] are the run list of the attribute, [d] the hole
    or unmapped run that is filled; [S] are the new runs, mapped or holes,
    from vcn [a] to [b]. *)
Definition mapped (S : runlist) : Prop := Forall (fun r => LCN_HOLE <= lcn r) S.

Definition marker_lcn (t : run) : Prop := lcn t = LCN_RL_NOT_MAPPED \/ lcn t = LCN_ENOENT.

Lemma not_mergeable_end x t :
  marker_lcn t -> LCN_HOLE <= lcn x -> ntfs_rl_are_mergeable (Some x) (Some t) = false.
Proof.
  intros Ht Hx. destruct (ntfs_rl_are_mergeable _ _) eqn:E; [|done].
  apply mergeable_inv in E.
  unfold marker_lcn, LCN_HOLE, LCN_RL_NOT_MAPPED, LCN_ENOENT in *. lia.
Qed.

(** The element after the filled one is merged into the last new run when it
    continues it. *)
Lemma right_step pre post S srest t a b :
  S <> [] -> mapped S -> marker_lcn t -> contig a S b -> contig b post (vcn t) ->
  exists rightm S' R T,
    (forall d' pad', mergeable_at (S ++ srest) (zlen S - 1) (pre ++ d' :: post ++ t :: pad') (zlen pre + 1) = Ret rightm) /\
    (forall d' pad', (if rightm then merge_at (S ++ srest) (zlen S - 1) (pre ++ d' :: post ++ t :: pad') (zlen pre + 1) else Ret (S ++ srest)) = Ret (S' ++ srest)) /\
    post = R ++ T /\ zlen R = Z.b2z rightm /\ zlen S' = zlen S /\
    (forall x Q, ntfs_rl_are_mergeable x (head (S' ++ Q)) = ntfs_rl_are_mergeable x (head (S ++ Q))) /\
    mapped S' /\ rl_eqv a (vcn t) (S' ++ T) (S ++ post).
Proof.
  intros HSne HSm Ht HS Hpost. destruct S as [|sl S2 _] using rev_ind; [done|].
  apply Forall_app in HSm as [HS2 [Hsl _]%Forall_cons]. rewrite <- !(assoc_L (++)). cbn [app].
  assert (zlen (S2 ++ [sl]) - 1 = zlen S2) as -> by zlia.
  assert (exists q qs, post ++ [t] = q :: qs) as (q & qs & Eq) by (destruct post; cbn; eauto).
  assert (forall (d' : run) (pad' : runlist),
    pre ++ d' :: post ++ t :: pad' = (pre ++ [d']) ++ q :: (qs ++ pad')) as Ed.
  { intros. rewrite <- (assoc_L (++) pre). cbn [app]. rewrite (cons_middle t post pad'), (assoc_L (++) post), Eq. done. }
  assert (forall (d' : run), zlen pre + 1 = zlen (pre ++ [d'])) as El by (intros; zlia).
  exists (ntfs_rl_are_mergeable (Some sl) (Some q)).
  destruct (ntfs_rl_are_mergeable (Some sl) (Some q)) eqn:Em.
  - destruct post as [|q' post0].
    { injection Eq as <- <-. rewrite not_mergeable_end in Em; done. }
    injection Eq as <- <-. exists (S2 ++ [__ntfs_rl_merge sl q']), [q'], post0. split_and!.
    + intros. rewrite Ed. rewrite mergeable_at_here by auto. by rewrite Em.
    + intros. rewrite Ed. rewrite merge_at_here by auto. by rewrite <- (assoc_L (++)).
    + done.
    + done.
    + zlia.
    + intros x Q. by destruct S2.
    + apply Forall_app. repeat constructor; done.
    + rewrite <- !(assoc_L (++)). cbn [app]. apply eqv_glue; [|done|by left].
      rewrite cons_middle, (assoc_L (++)). apply contig_app. eauto.
  - exists (S2 ++ [sl]), [], post. split_and!; try done.
    + intros. rewrite Ed. rewrite mergeable_at_here by auto. by rewrite Em.
    + intros. by rewrite <- (assoc_L (++)).
    + apply Forall_app. repeat constructor; done.
    + rewrite <- !(assoc_L (++)). cbn [app]. apply rl_eqv_refl.
      rewrite cons_middle, (assoc_L (++)). apply contig_app. eauto.
Qed.


Lemma mergeable_at_head pre K S S' srest i :
  S <> [] -> S' <> [] ->
  (forall x Q, ntfs_rl_are_mergeable x (head (S' ++ Q)) = ntfs_rl_are_mergeable x (head (S ++ Q))) ->
  mergeable_at (pre ++ K) i (S' ++ srest) 0 = mergeable_at (pre ++ K) i (S ++ srest) 0.
Proof.
  intros H1 H2 H. destruct S as [|s S]; [done|]. destruct S' as [|s' S']; [done|].
  unfold mergeable_at. destruct (rd (pre ++ K) i); [|done..]. cbn [obind app].
  rewrite !rd_cons_0. cbn [obind]. f_equal. apply (H (Some a) []).
Qed.

(** The first new run is merged into the element before the filled one when it
    continues it. *)
Lemma left_step pre S srest a c :
  S <> [] -> mapped S -> contig 0 pre a -> contig a S c ->
  exists leftm P X S',
    (forall K, (if 0 <? zlen pre then mergeable_at (pre ++ K) (zlen pre - 1) (S ++ srest) 0
               else Ret false) = Ret leftm) /\
    (forall K, (if leftm then merge_at (pre ++ K) (zlen pre - 1) (S ++ srest) 0
               else Ret (pre ++ K)) = Ret (P ++ K)) /\
    S = X ++ S' /\ zlen X = Z.b2z leftm /\ zlen P = zlen pre /\ P ++ S' <> [] /\
    rl_eqv 0 c (P ++ S') (pre ++ S).
Proof.
  intros HSne HSm Hpre HS.
  assert (contig 0 (pre ++ S) c) as Hc by (apply contig_app; eauto).
  destruct pre as [|p pre0 _] using rev_ind.
  { exists false, [], [], S. split_and!; try done. }
  destruct S as [|s S]; [done|].
  assert (zlen (pre0 ++ [p]) - 1 = zlen pre0) as Ez by zlia.
  destruct (Z.ltb_spec 0 (zlen (pre0 ++ [p]))); [|zlia].
  exists (ntfs_rl_are_mergeable (Some p) (Some s)). rewrite Ez.
  destruct (ntfs_rl_are_mergeable (Some p) (Some s)) eqn:Em.
  - exists (pre0 ++ [__ntfs_rl_merge p s]), [s], S. split_and!; try done.
    + intros K. rewrite <- (assoc_L (++)). cbn [app]. change (s :: S ++ srest) with ([] ++ s :: S ++ srest).
      rewrite mergeable_at_here by done. by rewrite Em.
    + intros K. rewrite <- !(assoc_L (++)). cbn [app]. change (s :: S ++ srest) with ([] ++ s :: S ++ srest).
      by rewrite merge_at_here.
    + zlia.
    + by destruct pre0.
    + rewrite <- !(assoc_L (++)) in *. cbn [app] in *. apply eqv_glue; [done|done|].
      inv HSm. by right.
  - exists (pre0 ++ [p]), [], (s :: S). split_and!; try done.
    + intros K. rewrite <- (assoc_L (++)). cbn [app]. change (s :: S ++ srest) with ([] ++ s :: S ++ srest).
      rewrite mergeable_at_here by done. by rewrite Em.
    + by destruct pre0.
Qed.

(** What a surgery returns: a block that holds a list equivalent to [m],
    followed by [t], large enough for the next operation. *)
Definition yields (o : outcome runlist) (m : runlist) (t : run) : Prop :=
  exists m' pad', o = Ret (m' ++ t :: pad') /\ rl_eqv 0 (vcn t) m' m /\
    cap (m' ++ t :: pad') (zlen m' + 1).

(** The move of the tail and the copy of the new runs, and the fix of the
    first element after them. *)
Lemma move_in_block P R T t pad X S srest e :
  P ++ S <> [] -> contig 0 (P ++ S ++ T) (vcn t) -> zlen S - zlen R <= zlen pad ->
  e = zlen P + zlen S ->
  exists pad',
    (let! b := ntfs_rl_mm (P ++ R ++ T ++ t :: pad) e (zlen P + zlen R) (zlen T + 1) in
     let! b := ntfs_rl_mc b (zlen P) (X ++ S ++ srest) (zlen X) (zlen S) in
     let! m := rd b e in
     if lcn m =? LCN_ENOENT then
       let! v := end_at b (e - 1) in upd b e (fun r => set_vcn r v)
     else Ret b) = Ret ((P ++ S ++ T) ++ t :: pad') /\
    zlen ((P ++ S ++ T) ++ t :: pad') = zlen (P ++ R ++ T ++ t :: pad).
Proof.
  intros Hne Hc Hp ->.
  destruct (move_in P R T t pad X S srest (zlen P + zlen S) (zlen P + zlen R) (zlen T + 1)
    (zlen X) (zlen S)) as (pad' & E & El); [done..|].
  exists pad'. rewrite <- !(assoc_L (++)). split; [|done]. rewrite E.
  rewrite !(assoc_L (++) P S) in *.
  assert (exists m Q, T ++ t :: pad' = m :: Q /\ contig 0 (P ++ S) (vcn m)) as (m & Q & -> & Hm).
  { apply contig_app in Hc as (c & H1 & H2). destruct T as [|m T].
    - cbn in H2. subst. eexists _, _. done.
    - destruct H2 as [<- _]. eexists _, _. done. }
  rewrite rd_app_here by zlia. cbn [obind].
  destruct (lcn m =? LCN_ENOENT); [|done].
  apply (fix_marker 0); [done|done|zlia].
Qed.

Section Surgery.
Context (alloc : heap run) (alloc_ok : forall n, alloc n = true) (alloc_read : readable alloc).
Context (pre post S : runlist) (d t : run) (pad srest : runlist) (a b : Z).
Context (Hpre : contig 0 pre (vcn d)) (Hpost : contig (vcn d + rlen d) post (vcn t)).
Context (HS : contig a S b) (HSne : S <> []) (HSm : mapped S) (Ht : marker_lcn t).
Context (Hcap : cap (pre ++ d :: post ++ t :: pad) (zlen pre + 1 + zlen post + 1)).
Context (Hfew : few (zlen pre + 1 + zlen post + 1 + zlen S + 1)).

(** Growing the block by [k] elements. *)
Lemma grow_ok k :
  0 <= k <= zlen S + 1 -> exists pad',
  ntfs_rl_realloc alloc (pre ++ d :: post ++ t :: pad) (zlen pre + 1 + zlen post + 1)
    (zlen pre + 1 + zlen post + 1 + k) = Ret (pre ++ d :: post ++ t :: pad') /\
  cap (pre ++ d :: post ++ t :: pad') (zlen pre + 1 + zlen post + 1 + k) /\
  k <= zlen pad'.
Proof using alloc_ok alloc_read Hcap Hfew.
  intros Hk.
  assert (forall p, pre ++ d :: post ++ t :: p = (pre ++ d :: post ++ [t]) ++ p) as E.
  { intros p. rewrite <- (assoc_L (++) pre). cbn. by rewrite <- (assoc_L (++) post). }
  rewrite (E pad) in Hcap |- *.
  destruct (realloc_ok alloc (pre ++ d :: post ++ [t]) pad (zlen pre + 1 + zlen post + 1)
    (zlen pre + 1 + zlen post + 1 + k)) as (pad' & Ep & Hc'); [done|zlia|lia|unfold few in *; lia|done|done|].
  exists pad'. rewrite (E pad'). split_and!; [done|done|]. apply cap_ge in Hc'; zlia.
Qed.

(** [d] is replaced by the new runs. *)
Lemma replace_ok :
  a = vcn d -> b = vcn d + rlen d ->
  yields (ntfs_rl_replace alloc (Some (pre ++ d :: post ++ t :: pad)) (zlen pre + 1 + zlen post + 1)
            (Some (S ++ srest)) (zlen S) (zlen pre))
         (pre ++ S ++ post) t.
Proof using All.
  intros -> ->.
  destruct (right_step pre post S srest t _ _ HSne HSm Ht HS Hpost)
    as (rightm & S1 & R & T & Er1 & Er2 & EP & HR & HS1 & Hhead & HS1m & Eqr).
  assert (S1 <> []) as HS1ne by (destruct S1; [destruct S; [done|zlia]|done]).
  unfold ntfs_rl_replace.
  destruct (Z.ltb_spec (zlen pre + 1) (zlen pre + 1 + zlen post + 1)); [|zlia].
  ostep (Er1 d pad).
  assert (exists c, contig (vcn d) S1 c /\ contig c T (vcn t)) as (c & Hc1 & Hc2).
  { destruct Eqr as [Hl _ _]. by apply contig_app in Hl. }
  destruct (left_step pre S1 srest (vcn d) c HS1ne HS1m Hpre Hc1)
    as (leftm & P & X & S2 & El1 & El2 & ES1 & HX & HP & HPne & Eql).
  assert (forall K, (if 0 <? zlen pre then mergeable_at (pre ++ K) (zlen pre - 1) (S ++ srest) 0
    else Ret false) = Ret leftm) as El1'.
  { intros K. rewrite <- (El1 K). destruct (0 <? zlen pre); [|done].
    symmetry. by apply mergeable_at_head. }
  rewrite El1'. cbn [obind].
  set (delta := zlen S - 1 - Z.b2z leftm - Z.b2z rightm).
  assert (exists pad', (if 0 <? delta then ntfs_rl_realloc alloc (pre ++ d :: post ++ t :: pad)
      (zlen pre + 1 + zlen post + 1) (zlen pre + 1 + zlen post + 1 + delta)
      else Ret (pre ++ d :: post ++ t :: pad)) = Ret (pre ++ d :: post ++ t :: pad') /\
    cap (pre ++ d :: post ++ t :: pad') (zlen pre + 1 + zlen post + 1 + delta) /\
    delta <= zlen pad') as (pad' & Eg & Hcap' & Hpad').
  { destruct (Z.ltb_spec 0 delta); [apply grow_ok; zlia|].
    exists pad. split_and!; [done|by eapply cap_le; [|done]; lia|zlia]. }
  rewrite Eg. cbn [obind]. rewrite Er2. cbn [obind].
  subst post. rewrite (El2 (d :: (R ++ T) ++ t :: pad')). cbn [obind].
  subst S1. rewrite <- !(assoc_L (++)) in *.
  destruct (move_in_block P (d :: R) T t pad' X S2 srest (zlen pre + zlen S - Z.b2z leftm))
    as (pad2 & Em & Elen); [done|..].
  - rewrite (assoc_L (++)). apply contig_app. exists c. by destruct Eql.
  - zlia.
  - zlia.
  - exists (P ++ S2 ++ T), pad2.
    replace (zlen pre + Z.b2z rightm + 1) with (zlen P + zlen (d :: R)) by zlia.
    replace (zlen pre + 1 + zlen (R ++ T) + 1 - (zlen P + zlen (d :: R)))
      with (zlen T + 1) by zlia.
    replace (zlen S - Z.b2z leftm) with (zlen S2) by zlia.
    rewrite <- HX, <- HP. destruct (Z.ltb_spec 0 (zlen T + 1)); [|zlia].
    rewrite <- HP, <- HX in Em. split_and!.
    + exact Em.
    + etrans; [rewrite (assoc_L (++)); by eapply rl_eqv_app|].
      rewrite <- (assoc_L (++)). etrans; [|by eapply rl_eqv_app_l]. 
      rewrite <- !(assoc_L (++)). apply rl_eqv_refl.
      apply contig_app. exists (vcn d). split; [done|]. by destruct Eqr.
    + eapply cap_same; [|eapply cap_le; [|exact Hcap']]; zlia.
Qed.

(** The new runs go in front of [d], which keeps its upper part. *)
Lemma insert_ok :
  a = vcn d -> b < vcn d + rlen d -> lcn d = LCN_HOLE \/ lcn d = LCN_RL_NOT_MAPPED ->
  yields (ntfs_rl_insert alloc (Some (pre ++ d :: post ++ t :: pad)) (zlen pre + 1 + zlen post + 1)
            (Some (S ++ srest)) (zlen S) (zlen pre))
         (pre ++ S ++ mkrun b (lcn d) (vcn d + rlen d - b) :: post) t.
Proof using All.
  intros -> Hb Hd. unfold ntfs_rl_insert.
  destruct (left_step pre S srest (vcn d) b HSne HSm Hpre HS)
    as (leftm & P & X & S2 & El1 & El2 & ES & HX & HP & HPne & Eql).
  assert (exists s0, rd (S ++ srest) 0 = Ret s0 /\ vcn s0 = vcn d) as (s0 & Es & Ev).
  { destruct S as [|s S']; [done|]. exists s. split; [done|]. by destruct HS. }
  ostep Es.
  assert ((if zlen pre =? 0 then Ret (false, 0 <? vcn s0)
    else
      let! leftm := mergeable_at (pre ++ d :: post ++ t :: pad) (zlen pre - 1) (S ++ srest) 0 in
      let! p := rd (pre ++ d :: post ++ t :: pad) (zlen pre - 1) in
      Ret (leftm, vcn p + (if leftm then rlen p + rlen s0 else rlen p) <? vcn s0))
    = Ret (leftm, false)) as E0.
  { specialize (El1 (d :: post ++ t :: pad)).
    destruct pre as [|p pre0 _] using rev_ind.
    - cbn in El1 |- *. injection El1 as <-. cbn in Hpre. f_equal. f_equal. lia.
    - destruct (Z.ltb_spec 0 (zlen (pre0 ++ [p]))); [|zlia].
      destruct (Z.eqb_spec (zlen (pre0 ++ [p])) 0); [zlia|]. rewrite El1. cbn [obind].
      rewrite <- (assoc_L (++)). cbn [app]. rewrite rd_app_here by zlia. cbn [obind].
      f_equal. f_equal. pose proof (contig_last _ _ _ _ Hpre).
      assert (0 < rlen s0). { destruct S as [|s S']; [done|]. injection Es as ->. apply HS. }
      destruct leftm; lia. }
  rewrite E0. cbn [obind Z.b2z]. rewrite !Z.add_0_r.
  assert (zlen S = zlen X + zlen S2) as ElS by (rewrite ES; zlia).
  destruct (grow_ok (zlen S - Z.b2z leftm)) as (pad' & Eg & Hcap' & Hpad'); [zlia|].
  rewrite <- Z.add_sub_assoc, Eg. cbn [obind]. rewrite El2. cbn [obind].
  rewrite ES, <- !(assoc_L (++) X), <- HP.
  destruct (move_in P [] (d :: post) t pad' X S2 srest (zlen P + zlen S - Z.b2z leftm)
    (zlen P) (zlen P + 1 + zlen post + 1 - zlen P) (Z.b2z leftm) (zlen S - Z.b2z leftm))
    as (pad2 & Em & Elen); [zlia..|].
  cbn [app] in Em, Elen. rewrite ES in Em. rewrite Em.
  assert (zlen P + zlen (X ++ S2) - Z.b2z leftm = zlen (P ++ S2)) as -> by zlia.
  assert (contig 0 (P ++ S2) b) as Hc by (by destruct Eql).
  rewrite !(assoc_L (++) P S2) in *.
  rewrite (end_last 0 _ _ b) by done. cbn [obind].
  rewrite upd_here by done. cbn [obind]. rewrite rd_app_here by done. cbn [obind].
  assert ((lcn (set_vcn d b) =? LCN_HOLE) || (lcn (set_vcn d b) =? LCN_RL_NOT_MAPPED) = true)
    as -> by (cbn; unfold LCN_HOLE, LCN_RL_NOT_MAPPED in *; lia).
  destruct (next_vcn (P ++ S2) (set_vcn d b) post t pad2 _ Hpost) as (n & En & Evn).
  rewrite En. cbn [obind]. rewrite upd_here by done. cbn [obind].
  rewrite Evn. cbn [vcn set_vcn set_len rlen lcn].
  exists ((P ++ S2) ++ mkrun b (lcn d) (vcn d + rlen d - b) :: post), pad2. split_and!.
  - rewrite <- !(assoc_L (++)). done.
  - rewrite (assoc_L (++) X), <- ES, (assoc_L (++) pre). eapply rl_eqv_app; [done|].
    cbn. split_and!; [done|lia|]. by replace (b + (vcn d + rlen d - b)) with (vcn d + rlen d) by lia.
  - eapply cap_same; [|eapply cap_le; [|exact Hcap']]; zlia.
Qed.

(** The new runs go behind [d], which keeps its lower part. *)
Lemma append_ok :
  vcn d < a -> b = vcn d + rlen d ->
  yields (ntfs_rl_append alloc (Some (pre ++ d :: post ++ t :: pad)) (zlen pre + 1 + zlen post + 1)
            (Some (S ++ srest)) (zlen S) (zlen pre))
         (pre ++ set_len d (a - vcn d) :: S ++ post) t.
Proof using All.
  intros Ha ->. unfold ntfs_rl_append.
  destruct (right_step pre post S srest t _ _ HSne HSm Ht HS Hpost)
    as (rightm & S1 & R & T & Er1 & Er2 & EP & HR & HS1 & Hhead & HS1m & Eqr).
  destruct (Z.ltb_spec (zlen pre + 1) (zlen pre + 1 + zlen post + 1)); [|zlia].
  ostep (Er1 d pad).
  destruct (grow_ok (zlen S - Z.b2z rightm)) as (pad' & Eg & Hcap' & Hpad').
  { destruct S; [done|]. destruct rightm; zlia. }
  rewrite <- Z.add_sub_assoc, Eg. cbn [obind]. rewrite Er2. cbn [obind].
  rewrite EP, <- (assoc_L (++) R).
  assert (zlen post = zlen R + zlen T) as Elp by (rewrite EP; zlia).
  destruct (move_in (pre ++ [d]) R T t pad' [] S1 srest (zlen pre + zlen S + 1)
    (zlen pre + 1 + Z.b2z rightm)
    (zlen pre + 1 + zlen (R ++ T) + 1 - zlen pre - 1 - Z.b2z rightm) 0 (zlen S))
    as (pad2 & Em & Elen); [zlia..|].
  rewrite <- !(assoc_L (++) pre) in Em, Elen. cbn [app] in Em, Elen.
  replace (zlen (pre ++ [d])) with (zlen pre + 1) in Em by zlia. rewrite Em.
  assert (exists s S1', S1 = s :: S1' /\ vcn s = a) as (s & S1' & ES1 & Evs).
  { destruct S1 as [|s S1']; [destruct S; [done|zlia]|]. exists s, S1'. split; [done|].
    destruct Eqr as [Hl _ _]. apply Hl. }
  assert (rd (pre ++ d :: S1 ++ T ++ t :: pad2) (zlen pre + 1) = Ret s) as ->.
  { rewrite cons_middle, (assoc_L (++)), ES1. cbn [app]. apply rd_app_here. zlia. }
  cbn [obind]. rewrite upd_here by done. cbn [obind]. rewrite Evs.
  set (d1 := set_len d (a - vcn d)).
  assert (contig 0 (pre ++ [d1]) a) as Hpre1.
  { apply contig_app. exists (vcn d). cbn. split_and!; [done|done|lia|lia]. }
  assert (exists c, contig a S1 c /\ contig c T (vcn t)) as (c & Hc1 & Hc2).
  { destruct Eqr as [Hl _ _]. by apply contig_app in Hl. }
  assert (exists m Q, T ++ t :: pad2 = m :: Q /\ contig 0 ((pre ++ [d1]) ++ S1) (vcn m)) as (m & Q & EQ & Hm).
  { destruct T as [|m T]; cbn in Hc2 |- *.
    - subst c. eexists _, _. split; [done|]. apply contig_app. eauto.
    - eexists _, _. split; [done|]. apply contig_app. exists a. split; [done|].
      by destruct Hc2 as (-> & _). }
  assert (pre ++ d1 :: S1 ++ T ++ t :: pad2 = ((pre ++ [d1]) ++ S1) ++ m :: Q) as Eb.
  { by rewrite EQ, <- !(assoc_L (++)). }
  rewrite Eb, rd_app_here by zlia. cbn [obind].
  rewrite (fix_marker 0) by (done || zlia || (by destruct pre)).
  exists (pre ++ d1 :: S1 ++ T), pad2. split_and!.
  - assert ((pre ++ d1 :: S1 ++ T) ++ t :: pad2 = pre ++ d1 :: S1 ++ T ++ t :: pad2) as ->
      by (by rewrite <- (assoc_L (++) pre), <- app_comm_cons, <- (assoc_L (++) S1)).
    rewrite Eb. by destruct (lcn m =? LCN_ENOENT).
  - rewrite <- EP, !(cons_middle d1), !(assoc_L (++) pre). by eapply rl_eqv_app_l.
  - eapply cap_same; [|eapply cap_le; [|exact Hcap']]; zlia.
Qed.

(** The new runs go into the middle of [d], which is split. *)
Lemma split_ok :
  vcn d < a -> b < vcn d + rlen d ->
  yields (ntfs_rl_split alloc (Some (pre ++ d :: post ++ t :: pad)) (zlen pre + 1 + zlen post + 1)
            (Some (S ++ srest)) (zlen S) (zlen pre))
         (pre ++ set_len d (a - vcn d) :: S ++ mkrun b (lcn d) (vcn d + rlen d - b) :: post) t.
Proof using All.
  intros Ha Hb. unfold ntfs_rl_split.
  destruct (grow_ok (zlen S + 1)) as (pad' & Eg & Hcap' & Hpad'); [zlia|].
  replace (zlen pre + 1 + zlen post + 1 + zlen S + 1)
    with (zlen pre + 1 + zlen post + 1 + (zlen S + 1)) by lia.
  rewrite Eg. cbn [obind].
  pose proof (mm_ok pre [] (d :: post ++ [t]) pad' (1 + zlen S) ltac:(zlia) ltac:(zlia)) as Em.
  replace (Z.to_nat (1 + zlen S)) with (Datatypes.S (Z.to_nat (zlen S))) in Em by zlia.
  cbn [app take] in Em. rewrite <- (assoc_L (++) post) in Em. cbn [app] in Em.
  set (G := take (Z.to_nat (zlen S)) (post ++ t :: pad')) in Em.
  set (pad2 := drop _ _) in Em.
  replace (zlen pre + 1 + zlen S) with (zlen pre + (1 + zlen S)) by lia.
  replace (zlen pre + 1 + zlen post + 1 - zlen pre) with (zlen (d :: post ++ [t])) by zlia.
  rewrite zlen_nil, Z.add_0_r in Em. rewrite Em. cbn [obind].
  assert (zlen G = zlen S) as HG by (unfold G, zlen; rewrite length_take, length_app; cbn [length]; zlia).
  pose proof (mc_ok (pre ++ [d]) G (d :: post ++ [t] ++ pad2) [] S srest HG) as Ec.
  rewrite <- !(assoc_L (++) pre) in Ec. cbn [app] in Ec.
  replace (zlen (pre ++ [d])) with (zlen pre + 1) in Ec by zlia. rewrite zlen_nil in Ec.
  rewrite <- (assoc_L (++) post). cbn [app]. rewrite Ec. cbn [obind].
  assert (exists s S1, S = s :: S1 /\ vcn s = a) as (s & S1 & ES1 & Evs).
  { destruct S as [|s S1]; [done|]. exists s, S1. split; [done|]. apply HS. }
  assert (rd (pre ++ d :: S ++ d :: post ++ t :: pad2) (zlen pre + 1) = Ret s) as ->.
  { rewrite cons_middle, (assoc_L (++)), ES1. cbn [app]. apply rd_app_here. zlia. }
  cbn [obind]. rewrite upd_here by done. cbn [obind]. rewrite Evs.
  set (d1 := set_len d (a - vcn d)).
  assert (contig 0 ((pre ++ [d1]) ++ S) b) as Hc.
  { apply contig_app. exists a. split; [|done]. apply contig_app. exists (vcn d). cbn.
    split_and!; [done|done|lia|lia]. }
  rewrite (cons_middle d1), !(assoc_L (++)).
  replace (zlen pre + zlen S) with (zlen ((pre ++ [d1]) ++ S) - 1) by zlia.
  rewrite (end_last 0 _ _ b) by (done || by destruct pre). cbn [obind].
  rewrite upd_here by zlia. cbn [obind].
  destruct (next_vcn ((pre ++ [d1]) ++ S) (set_vcn d b) post t pad2 _ Hpost) as (n & En & Evn).
  replace (zlen ((pre ++ [d1]) ++ S) - 1 + 2) with (zlen ((pre ++ [d1]) ++ S) + 1) by lia.
  rewrite En. cbn [obind]. rewrite upd_here by zlia. rewrite Evn. cbn [vcn set_vcn set_len rlen lcn].
  exists (((pre ++ [d1]) ++ S) ++ mkrun b (lcn d) (vcn d + rlen d - b) :: post), pad2. split_and!.
  - rewrite <- !(assoc_L (++)). done.
  - assert (forall k, pre ++ d1 :: S ++ k = ((pre ++ [d1]) ++ S) ++ k) as ->
      by (intros; by rewrite <- !(assoc_L (++))).
    apply rl_eqv_refl. apply contig_app. exists b. split; [done|]. cbn. split_and!; [done|lia|].
    by replace (b + (vcn d + rlen d - b)) with (vcn d + rlen d) by lia.
  - eapply cap_same; [|eapply cap_le; [|exact Hcap']]; [|zlia].
    unfold pad2, zlen. rewrite !length_app. cbn [length]. rewrite !length_app, length_drop.
    cbn [length]. rewrite !length_app. cbn [length]. zlia.
Qed.
End Surgery.

(** ** The whole merge *)
Lemma scan_ok stop B A x Q i :
  i = zlen B -> Forall (fun r => stop r = false) A -> stop x = true ->
  scan stop (B ++ A ++ x :: Q) i = Ret (zlen B + zlen A).
Proof.
  intros -> HA Hx. unfold scan. rewrite drop_app_length' by zlia.
  revert B. induction A as [|y A IH]; intros B; cbn.
  - rewrite Hx. f_equal. zlia.
  - inv HA. replace (stop y) with false. rewrite <- (Z.add_comm 1).
    replace (1 + zlen B) with (zlen (B ++ [y])) by zlia. rewrite IH by done. f_equal. zlia.
Qed.

Lemma scan_back_ok A x t Q n :
  LCN_HOLE <= lcn x -> lcn t < LCN_HOLE -> n = zlen A + 2 ->
  scan_back (Z.to_nat n) (A ++ x :: t :: Q) = Ret (zlen A).
Proof.
  intros Hx Ht ->. replace (Z.to_nat (zlen A + 2)) with (S (S (length A))) by zlia.
  cbn [scan_back]. rewrite cons_middle, (assoc_L (++)), rd_app_here by zlia. cbn [obind].
  destruct (Z.ltb_spec (lcn t) LCN_HOLE); [|lia].
  rewrite <- (assoc_L (++)). cbn [app]. rewrite rd_app_here by zlia. cbn [obind].
  destruct (Z.ltb_spec (lcn x) LCN_HOLE); [lia|]. done.
Qed.

Lemma contig_pos v l e : contig v l e -> Forall (fun r => is_end r = false) l.
Proof.
  revert v. induction l as [|r l IH]; intros v; cbn; [done|]. intros (? & ? & H).
  constructor; [unfold is_end; lia|by eapply IH].
Qed.

Lemma contig_below v l e s :
  contig v l e -> e <= s -> Forall (fun r => vcn r + rlen r <= s) l.
Proof.
  revert v. induction l as [|r l IH]; intros v; cbn; [done|]. intros (? & ? & H) He.
  pose proof (contig_le _ _ _ H). constructor; [lia|by eapply IH].
Qed.

(** A run list read from an extent of the attribute: unmapped runs [spre] in
    front of it, the mapped runs and holes [S] of the vcns [a .. b), and the
    terminator [t]. *)
Record extent (srl spre S : runlist) (t : run) (a b : Z) : Prop := {
  ext_block : exists spad, srl = spre ++ S ++ t :: spad;
  ext_front : contig 0 spre a;
  ext_unmapped : Forall (fun r => lcn r = LCN_RL_NOT_MAPPED) spre;
  ext_runs : contig a S b;
  ext_mapped : mapped S;
  ext_nonempty : S <> [];
  ext_end : vcn t = b /\ rlen t = 0 /\ marker_lcn t;
}.

(** What [ntfs_runlists_merge_i] finds out about the source. *)
Lemma extent_scan srl spre S t a b :
  extent srl spre S t a b ->
  exists s sl srest spad,
    srl = spre ++ S ++ t :: spad /\
    scan (fun r => is_end r || negb (lcn r <? LCN_HOLE)) srl 0 = Ret (zlen spre) /\
    rd srl (zlen spre) = Ret s /\ is_end s = false /\ vcn s = a /\
    scan is_end srl (zlen spre) = Ret (zlen spre + zlen S) /\
    rd srl (zlen spre + zlen S) = Ret t /\
    scan_back (Z.to_nat (zlen spre + zlen S + 1)) srl = Ret (zlen spre + zlen S - 1) /\
    end_at srl (zlen spre + zlen S - 1) = Ret b /\
    rd srl (zlen spre + zlen S - 1) = Ret sl /\ a <= vcn sl /\
    drop (Z.to_nat (zlen spre)) srl = S ++ srest /\ srest = t :: spad.
Proof.
  intros [[spad ->] Hf Hu Hs Hm Hne (Ht1 & Ht2 & Ht3)].
  pose proof (contig_pos _ _ _ Hf) as Hfp. pose proof (contig_pos _ _ _ Hs) as Hsp.
  assert (is_end t = true) as Het by (unfold is_end; lia).
  destruct S as [|s S]; [done|]. set (S0 := s :: S) in *.
  destruct (exists_last Hne) as (S1 & sl & ES1).
  exists s, sl, (t :: spad), spad. split_and!; try done.
  - apply (scan_ok _ [] spre s (S ++ t :: spad)); [done| |].
    + apply Forall_forall. intros r Hr. rewrite Forall_forall in Hu, Hfp.
      rewrite (Hu r Hr), (Hfp r Hr). done.
    + inv Hm. unfold is_end. lia.
  - unfold S0. by rewrite <- app_comm_cons, rd_app_here.
  - by inv Hsp.
  - by destruct Hs.
  - by apply scan_ok.
  - rewrite (assoc_L (++)). apply rd_app_here. zlia.
  - rewrite ES1, <- (assoc_L (++) S1), (assoc_L (++) spre). cbn [app].
    rewrite scan_back_ok; [f_equal; zlia| | |zlia].
    + rewrite ES1 in Hm. apply Forall_app in Hm as [_ Hm]. by inv Hm.
    + unfold marker_lcn, LCN_HOLE, LCN_RL_NOT_MAPPED, LCN_ENOENT in *. lia.
  - rewrite (assoc_L (++)). replace (zlen spre + zlen S0) with (zlen (spre ++ S0)) by zlia.
    apply (end_last 0); [by destruct spre|apply contig_app; eauto].
  - rewrite ES1, <- (assoc_L (++) S1), (assoc_L (++) spre). cbn [app]. apply rd_app_here. zlia.
  - rewrite ES1 in Hs. apply contig_app in Hs as (m & H1 & <- & _). by apply contig_le in H1.
  - rewrite drop_app_length' by zlia. done.
Qed.

(** The runs after filling a part of [d]. *)
Definition filled (pre : runlist) (d : run) (post S : runlist) (a b : Z) : runlist :=
  pre ++ (if vcn d <? a then [set_len d (a - vcn d)] else []) ++ S ++
  (if b <? vcn d + rlen d then [mkrun b (lcn d) (vcn d + rlen d - b)] else []) ++ post.

Lemma find_lcn_filled pre d post S a b e v :
  contig 0 (pre ++ d :: post) e -> contig a S b -> lcn d < 0 ->
  vcn d <= a -> b <= vcn d + rlen d ->
  find_lcn (filled pre d post S a b) v =
  if (a <=? v) && (v <? b) then find_lcn S v else find_lcn (pre ++ d :: post) v.
Proof.
  intros Hc HS Hd Ha Hb. unfold filled. rewrite !find_lcn_app. cbn [find_lcn].
  apply contig_app in Hc as (m & Hp & <- & Hl & Hq). pose proof (contig_le _ _ _ HS).
  destruct ((a <=? v) && (v <? b)) eqn:E.
  - rewrite (find_lcn_out _ _ _ v Hp) by lia.
    assert (find_lcn (if vcn d <? a then [set_len d (a - vcn d)] else []) v = None) as ->.
    { destruct (Z.ltb_spec (vcn d) a); [|done]. cbn [find_lcn].
      rewrite (proj2 (in_run_false _ _)); [done|]. cbn. lia. }
    destruct (find_lcn_in _ _ _ v HS) as [x ->]; [lia|done].
  - destruct (find_lcn pre v) eqn:Ep; [done|].
    assert (~ (a <= v < b)) by lia. rewrite (find_lcn_out _ _ _ v HS) by lia.
    destruct (in_run d v) eqn:Ed; [apply in_run_true in Ed|apply in_run_false in Ed].
    + assert (run_lcn d v = lcn d) as -> by (unfold run_lcn; destruct (Z.leb_spec 0 (lcn d)); lia).
      destruct (Z.ltb_spec v a) as [Hv|Hv].
      * destruct (Z.ltb_spec (vcn d) a); [|lia]. cbn [find_lcn].
        rewrite (proj2 (in_run_true _ _)) by (cbn; lia). unfold run_lcn. cbn.
        destruct (Z.leb_spec 0 (lcn d)); [lia|done].
      * assert (find_lcn (if vcn d <? a then [set_len d (a - vcn d)] else []) v = None) as ->.
        { destruct (Z.ltb_spec (vcn d) a); [|done]. cbn [find_lcn].
          rewrite (proj2 (in_run_false _ _)); [done|]. cbn. lia. }
        destruct (Z.ltb_spec b (vcn d + rlen d)); [|lia]. cbn [find_lcn].
        rewrite (proj2 (in_run_true _ _)) by (cbn; lia). unfold run_lcn. cbn.
        destruct (Z.leb_spec 0 (lcn d)); [lia|done].
    + assert (find_lcn (if vcn d <? a then [set_len d (a - vcn d)] else []) v = None) as ->.
      { destruct (Z.ltb_spec (vcn d) a); [|done]. cbn [find_lcn].
        rewrite (proj2 (in_run_false _ _)); [done|]. cbn. lia. }
      destruct (Z.ltb_spec b (vcn d + rlen d)); [|done]. cbn [find_lcn].
      rewrite (proj2 (in_run_false _ _)); [done|]. cbn. lia.
Qed.

Section MergeI.
Context (alloc : heap run) (alloc_ok : forall n, alloc n = true) (alloc_read : readable alloc).

(** One of the four surgeries is chosen and gives [filled]. *)
Lemma merge_i_filled pre d post t pad srl spre S t' a b :
  contig 0 (pre ++ d :: post) (vcn t) -> rlen t = 0 -> marker_lcn t ->
  cap (pre ++ d :: post ++ t :: pad) (zlen pre + 1 + zlen post + 1) ->
  lcn d = LCN_HOLE \/ lcn d = LCN_RL_NOT_MAPPED ->
  extent srl spre S t' a b -> lcn t' = LCN_RL_NOT_MAPPED ->
  vcn d <= a -> b <= vcn d + rlen d -> few (zlen pre + zlen post + zlen S + 3) ->
  exists o, ntfs_runlists_merge alloc (Some (pre ++ d :: post ++ t :: pad)) (Some srl) =
    (let! rl := o in Ret (Some rl)) /\
    yields o (filled pre d post S a b) t.
Proof using All.
  intros Hc Htl Ht Hcap Hd Hext Ht' Ha Hb Hfew.
  destruct (extent_scan _ _ _ _ _ _ Hext) as (s & sl & srest & spad & Esrl & E1 & E2 & E3 & E4 & E5
    & E6 & E7 & E8 & E9 & E10 & E11 & E12).
  assert (a < b) as Hab.
  { destruct Hext as [_ _ _ Hs _ Hne _]. destruct S as [|x S]; [done|].
    destruct Hs as (<- & ? & Hs). apply contig_le in Hs. lia. }
  pose proof (contig_pos _ _ _ Hc) as Hpos. apply Forall_app in Hpos as [Hppre Hppost].
  apply Forall_cons in Hppost as [Hpd Hppost].
  apply contig_app in Hc as (m & Hpre & <- & Hdl & Hpost).
  unfold ntfs_runlists_merge, ntfs_runlists_merge_i.
  ostep E1. ostep E2. rewrite E3.
  rewrite (scan_ok _ [] pre d (post ++ t :: pad) 0); [|done| |].
  2: { pose proof (contig_below _ _ _ (vcn s) Hpre ltac:(lia)) as Hbel.
       apply Forall_forall. intros r Hr. rewrite Forall_forall in Hbel, Hppre.
       rewrite (Hppre r Hr). specialize (Hbel r Hr). cbn in Hbel. lia. }
  2: { rewrite E4. destruct (Z.ltb_spec a (vcn d + rlen d)); [by rewrite orb_true_r|lia]. }
  cbn [obind]. rewrite zlen_nil, Z.add_0_l, rd_app_here by done. cbn [obind].
  assert (0 <=? lcn d = false) as Ed by (unfold LCN_HOLE, LCN_RL_NOT_MAPPED in *; lia).
  rewrite Ed, andb_false_r. cbn [andb]. ostep E5.
  rewrite (scan_ok is_end pre (d :: post) t pad) by (auto; unfold is_end; lia).
  cbn [obind]. ostep E6.
  assert (lcn t' =? LCN_ENOENT = false) as Em by (rewrite Ht'; done). rewrite Em. ostep E7.
  rewrite E8. cbn [obind]. ostep E9. rewrite Z.eqb_refl. cbn [negb andb]. rewrite E4, E11, Hpd, andb_false_r.
  destruct Hext as [_ _ _ Hs Hm Hne _].
  replace (zlen pre + zlen (d :: post) + 1) with (zlen pre + 1 + zlen post + 1) by zlia.
  replace (zlen spre + zlen S - 1 - zlen spre + 1) with (zlen S) by lia.
  eexists. split; [reflexivity|]. unfold filled.
  assert (LCN_RL_NOT_MAPPED <=? lcn d = true) as -> by (unfold LCN_HOLE, LCN_RL_NOT_MAPPED in *; lia).
  assert (lcn d <? LCN_RL_NOT_MAPPED = false) as -> by (unfold LCN_HOLE, LCN_RL_NOT_MAPPED in *; lia).
  cbn [orb andb].
  destruct (Z.eqb_spec (vcn d) a), (Z.leb_spec (vcn d + rlen d) b),
    (Z.ltb_spec (vcn d) a), (Z.ltb_spec b (vcn d + rlen d)); try lia; cbn [app].
  - apply replace_ok with (a := a) (b := b); done || (unfold few in *; lia).
  - apply insert_ok with (a := a) (b := b); done || (unfold few in *; lia).
  - apply append_ok with (a := a) (b := b); done || (unfold few in *; lia).
  - apply split_ok with (a := a) (b := b); done || (unfold few in *; lia).
Qed.

(** C10. A merge that fills.  [rl] is a well-formed run list in a block of the size the
    driver allocates, [d] one of its holes or unmapped runs; [srl] holds the
    runs of an extent that lies inside [d] and is not the last one, so that its
    terminator has LCN_RL_NOT_MAPPED.  Whichever of replace, insert,
    append and split is needed, [ntfs_runlists_merge] returns a well-formed
    run list that ends where the old one did, whose block is again large
    enough; the clusters of the extent are mapped as the extent says and all
    others as before.  There is memory for the new block ([alloc_ok]), what
    [realloc] reads behind the old one (libc.c:122-133) can be read
    ([readable]), and the size of the block in bytes is an int ([few]). *)
Theorem merge_fills rl pre d post t srl spre S t' a b :
  rl_ok rl (pre ++ d :: post) t 0 -> marker_lcn t ->
  cap rl (zlen (pre ++ d :: post) + 1) ->
  lcn d = LCN_HOLE \/ lcn d = LCN_RL_NOT_MAPPED ->
  extent srl spre S t' a b -> lcn t' = LCN_RL_NOT_MAPPED ->
  vcn d <= a -> b <= vcn d + rlen d -> few (zlen pre + zlen post + zlen S + 3) ->
  exists rl' l', ntfs_runlists_merge alloc (Some rl) (Some srl) = Ret (Some rl') /\
    rl_ok rl' l' t 0 /\ cap rl' (zlen l' + 1) /\
    forall v, lcn_of l' t v =
      if (a <=? v) && (v <? b) then lcn_of S t' v else lcn_of (pre ++ d :: post) t v.
Proof using All.
  intros [[pad ->] Hc Htl Htlcn] Ht Hcap Hd Hext Ht' Ha Hb Hfew.
  rewrite <- (assoc_L (++)), <- app_comm_cons in Hcap |- *.
  replace (zlen (pre ++ d :: post) + 1) with (zlen pre + 1 + zlen post + 1) in Hcap by zlia.
  destruct (merge_i_filled pre d post t pad srl spre S t' a b) as (o & Eo & l' & pad' & -> & Eq & Hcap');
    [done..|].
  exists (l' ++ t :: pad'), l'. split_and!; [done| |done|].
  - split; [eauto|by destruct Eq|done|done].
  - intros v. rewrite Eq. unfold lcn_of.
    assert (contig a S b /\ vcn t' = b) as [HS Ev] by (destruct Hext as [? ? ? ? ? ? []]; done).
    rewrite (find_lcn_filled _ _ _ _ _ _ (vcn t)) by (done || (unfold LCN_HOLE, LCN_RL_NOT_MAPPED in *; lia)).
    destruct ((a <=? v) && (v <? b)) eqn:E; [|done].
    destruct (find_lcn_in _ _ _ v HS) as [x ->]; [lia|done].
Qed.
End MergeI.

Lemma merge_fills_witness :
  exists rl' l', ntfs_runlists_merge (full_heap (mkrun 0 0 0)) (Some ex_rl)
      (Some [mkrun 0 LCN_RL_NOT_MAPPED 5; mkrun 5 70 2; mkrun 7 LCN_RL_NOT_MAPPED 0]) = Ret (Some rl') /\
    rl_ok rl' l' ex_end 0 /\ lcn_of l' ex_end 6 = 71 /\ lcn_of l' ex_end 8 = LCN_HOLE.
Proof.
  destruct (merge_fills (full_heap (mkrun 0 0 0)) (fun _ => eq_refl) (readable_full _) ex_rl [mkrun 0 100 4] (mkrun 4 LCN_HOLE 6)
    [mkrun 10 50 2] ex_end
    [mkrun 0 LCN_RL_NOT_MAPPED 5; mkrun 5 70 2; mkrun 7 LCN_RL_NOT_MAPPED 0]
    [mkrun 0 LCN_RL_NOT_MAPPED 5] [mkrun 5 70 2] (mkrun 7 LCN_RL_NOT_MAPPED 0) 5 7)
    as (rl' & l' & E & Hok & _ & Hv).
  - exact ex_rl_ok.
  - by right.
  - vm_compute. discriminate.
  - by left.
  - split; cbn; [by eexists|lia|by repeat constructor|lia| |done|].
    + constructor; [done|constructor].
    + split_and!; [done|done|by left].
  - done.
  - cbn. lia.
  - cbn. lia.
  - vm_compute. reflexivity.
  - exists rl', l'. split_and!; [exact E|exact Hok|exact (Hv 6)|exact (Hv 8)].
Defined.

(** ** Growing at the end: the next extent of an attribute *)
Section Extend.
Context (alloc : heap run) (alloc_ok : forall n, alloc n = true) (alloc_read : readable alloc).

(** [ntfs_rl_replace] of the terminator by the new runs and theirs. *)
Lemma replace_end_ok l t pad S t' spad b :
  contig 0 l (vcn t) -> contig (vcn t) S b -> S <> [] -> mapped S ->
  cap (l ++ t :: pad) (zlen l + 1) -> few (zlen l + zlen S + 1) ->
  exists l' pad',
    ntfs_rl_replace alloc (Some (l ++ t :: pad)) (zlen l + 1) (Some (S ++ t' :: spad)) (zlen S + 1)
      (zlen l) = Ret (l' ++ t' :: pad') /\
    rl_eqv 0 b l' (l ++ S) /\ zlen l <= zlen l' /\
    cap (l' ++ t' :: pad') (zlen l' + 1) /\
    exists P S2, l' = P ++ S2 /\ zlen P = zlen l /\ Forall (fun r => is_end r = false) S2.
Proof using All.
  intros Hl HS Hne Hm Hcap Hfew. unfold ntfs_rl_replace.
  destruct (Z.ltb_spec (zlen l + 1) (zlen l + 1)); [lia|]. cbn [obind].
  destruct (left_step l S (t' :: spad) _ _ Hne Hm Hl HS)
    as (leftm & P & X & S2 & El1 & El2 & ES & HX & HP & HPne & Eql).
  rewrite El1. cbn [obind Z.b2z].
  assert (zlen S = zlen X + zlen S2) as ElS by (rewrite ES; zlia).
  set (delta := zlen S + 1 - 1 - Z.b2z leftm - 0).
  assert (exists pad', (if 0 <? delta then ntfs_rl_realloc alloc (l ++ t :: pad) (zlen l + 1)
      (zlen l + 1 + delta) else Ret (l ++ t :: pad)) = Ret (l ++ t :: pad') /\
    cap (l ++ t :: pad') (zlen l + 1 + delta) /\ delta <= zlen pad') as (pad' & Eg & Hcap' & Hpad').
  { destruct (Z.ltb_spec 0 delta).
    - rewrite (cons_middle t l), (assoc_L (++)) in Hcap |- *.
      destruct (realloc_ok alloc (l ++ [t]) pad (zlen l + 1) (zlen l + 1 + delta)) as (pad' & E & Hc);
        [done|zlia|lia|unfold few in *; subst delta; zlia|done|done|].
      exists pad'. rewrite (cons_middle t l pad'), (assoc_L (++)). split_and!; [done|done|].
      apply cap_ge in Hc; zlia.
    - exists pad. split_and!; [done|by eapply cap_le; [|done]; lia|zlia]. }
  rewrite Eg. cbn [obind]. rewrite El2. cbn [obind].
  replace (zlen l + 1 - (zlen l + 0 + 1)) with 0 by lia.
  unfold ntfs_rl_mm at 1. rewrite andb_false_r. cbn [obind].
  destruct (Z.ltb_spec 0 0); [lia|].
  pose proof (mc_ok P (take (Z.to_nat (zlen S2 + 1)) (t :: pad'))
    (drop (Z.to_nat (zlen S2 + 1)) (t :: pad')) X (S2 ++ [t']) spad) as Ec.
  rewrite take_drop in Ec.
  assert ((X ++ (S2 ++ [t']) ++ spad) = S ++ t' :: spad) as E' by (rewrite ES, <- !(assoc_L (++)); done).
  rewrite E' in Ec.
  replace (zlen (S2 ++ [t'])) with (zlen S + 1 - Z.b2z leftm) in Ec by zlia.
  rewrite HP, HX in Ec. rewrite Ec.
  2: { unfold zlen at 1. rewrite length_take. cbn [length]. zlia. }
  cbn [obind]. exists (P ++ S2), (drop (Z.to_nat (zlen S2 + 1)) (t :: pad')). split_and!.
  - by rewrite <- !(assoc_L (++)).
  - done.
  - zlia.
  - eapply cap_same; [|eapply cap_le; [|exact Hcap']]; [|zlia].
    rewrite <- (assoc_L (++)). unfold zlen. rewrite !length_app. cbn [length].
    rewrite length_drop. cbn [length]. zlia.
  - exists P, S2. split_and!; [done|done|]. apply contig_pos in HS. rewrite ES in HS.
    by apply Forall_app in HS as [_ HS].
Qed.

(** Reading on.  When the run list [rl] covers the attribute up to the
    vcn [a] only (its terminator is LCN_RL_NOT_MAPPED) and [srl] holds the
    next extent, [a .. b), the merged list covers [0 .. b): both lists'
    clusters keep their place, and the terminator of [srl] (the end of the
    attribute or the next unmapped part) is carried over. *)
Theorem merge_extends rl l t srl spre S t' a b :
  rl_ok rl l t 0 -> lcn t = LCN_RL_NOT_MAPPED -> cap rl (zlen l + 1) ->
  extent srl spre S t' a b -> a = vcn t -> few (zlen l + zlen S + 1) ->
  exists rl' l', ntfs_runlists_merge alloc (Some rl) (Some srl) = Ret (Some rl') /\
    rl_ok rl' l' t' 0 /\ cap rl' (zlen l' + 1) /\
    forall v, lcn_of l' t' v = if v <? a then lcn_of l t v else lcn_of S t' v.
Proof using All.
  intros [[pad ->] Hl Htl Htlcn] Ht Hcap Hext Ea Hfew.
  destruct (extent_scan _ _ _ _ _ _ Hext) as (s & sl & srest & spad & Esrl & E1 & E2 & E3 & E4 & E5
    & E6 & E7 & E8 & E9 & E10 & E11 & E12).
  pose proof (contig_pos _ _ _ Hl) as Hlpos.
  assert (is_end t = true) as Het by (unfold is_end; lia).
  destruct Hext as [_ _ _ Hs Hm Hne (Ht1 & Ht2 & Ht3)].
  pose proof (contig_le _ _ _ Hs) as Hab. subst a.
  unfold ntfs_runlists_merge, ntfs_runlists_merge_i. ostep E1. ostep E2. rewrite E3.
  rewrite (scan_ok _ [] l t pad 0); [|done| |by rewrite Het].
  2: { pose proof (contig_below _ _ _ (vcn s) Hl ltac:(lia)) as Hbel.
       apply Forall_forall. intros r Hr. rewrite Forall_forall in Hbel, Hlpos.
       rewrite (Hlpos r Hr). specialize (Hbel r Hr). cbn in Hbel. lia. }
  cbn [obind]. rewrite zlen_nil, Z.add_0_l, rd_app_here by done. cbn [obind].
  assert (0 <=? lcn t = false) as -> by lia. rewrite andb_false_r. cbn [andb]. ostep E5.
  assert (scan is_end (l ++ t :: pad) (zlen l) = Ret (zlen l)) as ->.
  { transitivity (Ret (zlen l + zlen (@nil run))); [by apply (scan_ok is_end l [] t pad)|].
    f_equal. zlia. }
  cbn [obind]. ostep E6. ostep E7. rewrite E8. cbn [obind].
  destruct (replace_end_ok l t pad S t' spad b Hl Hs Hne Hm Hcap Hfew)
    as (l' & pad' & Er & Eq & Hll & Hcap' & P & S2 & El' & HP & HS2).
  assert (rl_ok (l' ++ t' :: pad') l' t' 0) as Hok.
  { split; [eauto| |done|].
    - rewrite Ht1. by destruct Eq.
    - unfold marker_lcn, LCN_RL_NOT_MAPPED, LCN_ENOENT in Ht3. lia. }
  assert (forall v, lcn_of l' t' v = if v <? vcn t then lcn_of l t v else lcn_of S t' v) as Hv.
  { intros v. rewrite Eq. unfold lcn_of. rewrite find_lcn_app.
    destruct (Z.ltb_spec v (vcn t)).
    - rewrite (find_lcn_out _ _ _ v Hs) by lia. destruct (find_lcn l v); [done|].
      destruct (Z.leb_spec (vcn t') v), (Z.leb_spec (vcn t) v); done || lia.
    - by rewrite (find_lcn_out _ _ _ v Hl) by lia. }
  exists (l' ++ t' :: pad'), l'. split_and!; [|done|done|done].
  assert ((lcn t <? LCN_RL_NOT_MAPPED) || (vcn t =? vcn s) = true) as -> by lia.
  assert ((LCN_RL_NOT_MAPPED <=? lcn t) && (vcn t + rlen t <=? b) = true) as -> by lia.
  cbn [andb]. rewrite Het, E11, E12, Htl, Z.add_0_r.
  replace (zlen spre + zlen S - 1 - zlen spre + 1 + 1) with (zlen S + 1) by lia.
  assert (0 < zlen S) by (destruct S; [done|zlia]).
  destruct (lcn t' =? LCN_ENOENT) eqn:Em.
  - destruct (Z.eqb_spec (zlen spre + zlen S) 0); [zlia|]. cbn [negb andb].
    rewrite E9. cbn [obind].
    destruct (Z.ltb_spec (vcn sl) (vcn t)); [lia|]. rewrite Er. cbn [obind].
    unfold merge_marker.
    assert (scan is_end (l' ++ t' :: pad') (zlen l) = Ret (zlen l')) as ->.
    { rewrite El', <- (assoc_L (++)). rewrite (scan_ok is_end P S2 t' pad') by (done || (unfold is_end; lia)).
      f_equal. zlia. }
    cbn [obind]. rewrite rd_app_here by done. cbn [obind].
    rewrite Z.ltb_irrefl, Z.eqb_refl, upd_here by done. cbn [obind].
    repeat f_equal. apply Z.eqb_eq in Em. destruct t'. cbn in *. by subst.
  - rewrite Z.eqb_refl. cbn [negb andb]. rewrite E9. cbn [obind]. by rewrite Er.
Qed.
End Extend.

Lemma merge_extends_witness :
  exists rl' l', ntfs_runlists_merge (full_heap (mkrun 0 0 0))
      (Some (mkrun 0 100 4 :: mkrun 4 LCN_RL_NOT_MAPPED 0 :: replicate 168 (mkrun 0 0 0)))
      (Some [mkrun 0 LCN_RL_NOT_MAPPED 4; mkrun 4 104 2; mkrun 6 LCN_ENOENT 0]) = Ret (Some rl') /\
    lcn_of l' (mkrun 6 LCN_ENOENT 0) 5 = 105 /\ lcn_of l' (mkrun 6 LCN_ENOENT 0) 6 = LCN_ENOENT.
Proof.
  destruct (merge_extends (full_heap (mkrun 0 0 0)) (fun _ => eq_refl) (readable_full _)
    (mkrun 0 100 4 :: mkrun 4 LCN_RL_NOT_MAPPED 0 :: replicate 168 (mkrun 0 0 0))
    [mkrun 0 100 4] (mkrun 4 LCN_RL_NOT_MAPPED 0)
    [mkrun 0 LCN_RL_NOT_MAPPED 4; mkrun 4 104 2; mkrun 6 LCN_ENOENT 0]
    [mkrun 0 LCN_RL_NOT_MAPPED 4] [mkrun 4 104 2] (mkrun 6 LCN_ENOENT 0) 4 6)
    as (rl' & l' & E & Hok & _ & Hv).
  - split; cbn; [by eexists|lia|done|done].
  - done.
  - vm_compute. discriminate.
  - split; cbn; [by eexists|lia|by repeat constructor|lia| |done|].
    + constructor; [done|constructor].
    + split_and!; [done|done|by right].
  - done.
  - vm_compute. reflexivity.
  - exists rl', l'. split_and!; [exact E|exact (Hv 5)|exact (Hv 6)].
Defined.
