(* ===== verification/MappingPairs.v ===== *)
(** * Mapping pairs arrays (ntfs/runlist.c)

    On disk a run list is a sequence of mapping pairs: a header byte with two
    nibbles, the length of the run and the change of the lcn as signed
    little-endian numbers of the fewest bytes, and a zero byte at the end.
    This file models the encoder [ntfs_mapping_pairs_build], the size function
    and the decoder [ntfs_mapping_pairs_decompress]. *)
From S2P Require Import Prelude Libc Runlist RunlistMerge.

(** ** Significant bytes *)

(** runlist.c:1281-1284 ntfs_get_nr_significant_bytes. The do-while loop; a
    64-bit number leaves it after at most 8 rounds. *)
Fixpoint nr_loop (fuel : nat) (l i : Z) : Z :=
  match fuel with
  | O => i
  | S fuel' => let l' := Z.shiftr l 8 in
               if l' =? 0 then i + 1 else nr_loop fuel' l' (i + 1)
  end.

(** runlist.c:1272-1287 ntfs_get_nr_significant_bytes *)
Definition ntfs_get_nr_significant_bytes (n : Z) : Z :=
  let l := u64 (if n <? 0 then Z.lnot n else n) in
  if 128 <=? l then nr_loop 9 (Z.shiftr l 7) 1 else 1.

(** runlist.c:1428-1434 ntfs_write_significant_bytes. The loop: the buffer,
    and the number of bytes written or [None] for ENOSPC. *)
Fixpoint wsb_loop (fuel : nat) (buf : bytes) (dst dst_max l i : Z)
  : outcome (bytes * option Z) :=
  if (0x7f <? l) || (l <? -0x80) then
    match fuel with
    | O => Fault
    | S fuel' =>
      if dst_max <? dst then Ret (buf, None)
      else
        let l := Z.shiftr l 8 in
        let! buf := wr buf dst (u8 l) in
        wsb_loop fuel' buf (dst + 1) dst_max l (i + 1)
    end
  else Ret (buf, Some i).

(** runlist.c:1418-1439 ntfs_write_significant_bytes. Positions are indices
    of the destination buffer [buf]. *)
Definition ntfs_write_significant_bytes (buf : bytes) (dst dst_max n : Z)
  : outcome (bytes * option Z) :=
  if dst_max <? dst then Ret (buf, None)
  else
    let! buf := wr buf dst (u8 n) in
    wsb_loop 8 buf (dst + 1) dst_max n 1.

(** ** Size of the array *)

(** runlist.c:1331-1333 ntfs_get_size_for_mapping_pairs. Also 1492-1493 of
    ntfs_mapping_pairs_build: the index of the element that holds
    [start_vcn]. *)
Fixpoint skip_to (rl : runlist) (start_vcn i : Z) : outcome Z :=
  match rl with
  | [] => Fault
  | r :: rl' =>
    if rlen r =? 0 then Ret i
    else
      let! n := rd rl' 0 in
      if vcn n <=? start_vcn then skip_to rl' start_vcn (i + 1) else Ret i
  end.

(** runlist.c:1390-1394 ntfs_get_size_for_mapping_pairs. Also 1601-1605 of
    ntfs_mapping_pairs_build: the error of a run that cannot be encoded. *)
Definition bad_run (r : run) : option errno_t :=
  if (rlen r <? 0) || (lcn r <? LCN_HOLE) then
    Some (if lcn r =? LCN_RL_NOT_MAPPED then EINVAL else EIO)
  else None.

(** runlist.c:1368-1387 ntfs_get_size_for_mapping_pairs. The full runs. *)
Fixpoint size_full (major_ver max_size : Z) (l : runlist) (prev_lcn rls : Z) : outcome Z :=
  match l with
  | [] => Fault
  | r :: l' =>
    if negb (rlen r =? 0) && (rls <=? max_size) then
      match bad_run r with
      | Some e => Fail e
      | None =>
        let rls := rls + (1 + ntfs_get_nr_significant_bytes (rlen r)) in
        if (0 <=? lcn r) || (major_ver <? 3) then
          size_full major_ver max_size l' (lcn r)
            (rls + ntfs_get_nr_significant_bytes (s64 (lcn r - prev_lcn)))
        else size_full major_ver max_size l' prev_lcn rls
      end
    else Ret rls
  end.

(** runlist.c:1309-1398 ntfs_get_size_for_mapping_pairs *)
Definition ntfs_get_size_for_mapping_pairs (major_ver : Z) (rl : option runlist)
    (start_vcn max_size : Z) : outcome Z :=
  if start_vcn <? 0 then Fail EINVAL
  else match rl with
  | None => if negb (start_vcn =? 0) then Fail EINVAL else Ret 1
  | Some rl =>
    let! i := skip_to rl start_vcn 0 in
    let! r := rd rl i in
    if ((rlen r =? 0) && (vcn r <? start_vcn)) || (start_vcn <? vcn r) then Fail EINVAL
    else
      if vcn r <? start_vcn then
        match bad_run r with
        | Some e => Fail e
        | None =>
          let delta := start_vcn - vcn r in
          let rls := 1 + (1 + ntfs_get_nr_significant_bytes (rlen r - delta)) in
          if (0 <=? lcn r) || (major_ver <? 3) then
            let prev_lcn := if 0 <=? lcn r then s64 (lcn r + delta) else lcn r in
            size_full major_ver max_size (drop (Z.to_nat (i + 1)) rl) prev_lcn
              (rls + ntfs_get_nr_significant_bytes prev_lcn)
          else size_full major_ver max_size (drop (Z.to_nat (i + 1)) rl) 0 rls
        end
      else size_full major_ver max_size (drop (Z.to_nat i) rl) 0 1
  end.

(** ** The encoder *)

(** runlist.c:1550-1579 ntfs_mapping_pairs_build. Also 1511-1542: one mapping
    pair at [dst]: the length, the change of the lcn if there is one, and
    the header byte if at least one more byte is left.  The result is the
    position of the next pair, [None] when there is no space. *)
Definition write_pair (buf : bytes) (dst dst_max len : Z) (dlcn : option Z)
  : outcome (bytes * option Z) :=
  let! (buf, len_len) := ntfs_write_significant_bytes buf (dst + 1) dst_max len in
  match len_len with
  | None => Ret (buf, None)
  | Some len_len =>
    let! (buf, lcn_len) :=
      match dlcn with
      | Some d => ntfs_write_significant_bytes buf (dst + 1 + len_len) dst_max d
      | None => Ret (buf, Some 0)
      end in
    match lcn_len with
    | None => Ret (buf, None)
    | Some lcn_len =>
      let dst_next := dst + len_len + lcn_len + 1 in
      if dst_max <? dst_next then Ret (buf, None)
      else
        let! buf := wr buf dst (u8 (Z.lor (Z.shiftl lcn_len 4) len_len)) in
        Ret (buf, Some dst_next)
    end
  end.

(** What [ntfs_mapping_pairs_build] leaves: the buffer, 0 or the errno, and
    the index it stores in [*stop_rl], if it does. *)
Definition build_result : Type := bytes * status * option Z.

(** runlist.c:1581-1588 ntfs_mapping_pairs_build. Success. *)
Definition build_ok (buf : bytes) (dst i : Z) : outcome build_result :=
  let! buf := wr buf dst 0 in Ret (buf, None, Some i).

(** runlist.c:1589-1597 ntfs_mapping_pairs_build. [size_err] *)
Definition build_size_err (buf : bytes) (dst i : Z) : outcome build_result :=
  let! buf := wr buf dst 0 in Ret (buf, Some ENOSPC, Some i).

(** runlist.c:1546-1580 ntfs_mapping_pairs_build. The full runs, [i] the index
    of the run list element. *)
Fixpoint build_full (major_ver : Z) (l : runlist) (i : Z) (buf : bytes)
    (dst dst_max prev_lcn : Z) : outcome build_result :=
  match l with
  | [] => Fault
  | r :: l' =>
    if rlen r =? 0 then build_ok buf dst i
    else match bad_run r with
    | Some e => Ret (buf, Some e, None)
    | None =>
      let has_lcn := (0 <=? lcn r) || (major_ver <? 3) in
      let! (buf, next) := write_pair buf dst dst_max (rlen r)
        (if has_lcn then Some (s64 (lcn r - prev_lcn)) else None) in
      match next with
      | None => build_size_err buf dst i
      | Some dst =>
        build_full major_ver l' (i + 1) buf dst dst_max (if has_lcn then lcn r else prev_lcn)
      end
    end
  end.

(** runlist.c:1472-1609 ntfs_mapping_pairs_build. [dst] is the destination
    buffer, [dst_len] the size the caller gives; the result says what is in
    the buffer afterwards.  [stop_rl] is not NULL. *)
Definition ntfs_mapping_pairs_build (major_ver : Z) (dst : bytes) (dst_len : Z)
    (rl : option runlist) (start_vcn : Z) : outcome build_result :=
  if start_vcn <? 0 then Ret (dst, Some EINVAL, None)
  else match rl with
  | None =>
    if negb (start_vcn =? 0) then Ret (dst, Some EINVAL, None)
    else if dst_len <? 1 then Ret (dst, Some ENOSPC, None)
    else let! dst := wr dst 0 0 in Ret (dst, None, None)
  | Some rl =>
    let! i := skip_to rl start_vcn 0 in
    let! r := rd rl i in
    if ((rlen r =? 0) && (vcn r <? start_vcn)) || (start_vcn <? vcn r)
    then Ret (dst, Some EINVAL, None)
    else
      let dst_max := dst_len - 1 in
      if vcn r <? start_vcn then
        match bad_run r with
        | Some e => Ret (dst, Some e, None)
        | None =>
          let delta := start_vcn - vcn r in
          let has_lcn := (0 <=? lcn r) || (major_ver <? 3) in
          let prev_lcn :=
            if has_lcn then (if 0 <=? lcn r then s64 (lcn r + delta) else lcn r) else 0 in
          let! (buf, next) := write_pair dst 0 dst_max (rlen r - delta)
            (if has_lcn then Some prev_lcn else None) in
          match next with
          | None => build_size_err buf 0 i
          | Some next =>
            build_full major_ver (drop (Z.to_nat (i + 1)) rl) (i + 1) buf next dst_max prev_lcn
          end
        end
      else build_full major_ver (drop (Z.to_nat i) rl) i dst 0 dst_max 0
  end.

(** ** The decoder *)

(** layout.h ATTR_RECORD, the fields of a non-resident attribute the decoder
    uses, and the memory [a_mem] that starts at the record; it holds at least
    [a_length] bytes, the mapping pairs array among them. *)
Record attr_record := mkattr {
  a_mem : bytes;
  a_length : Z;
  a_non_resident : bool;
  a_lowest_vcn : Z;
  a_highest_vcn : Z;
  a_allocated_size : Z;
  a_mapping_pairs_offset : Z;
}.

(** runlist.c:861-862 ntfs_mapping_pairs_decompress_i. Also 896-897: [n] more
    bytes of a number, downwards from [pos]. *)
Fixpoint read_down (n : nat) (mem : bytes) (pos deltaxcn : Z) : outcome Z :=
  match n with
  | O => Ret deltaxcn
  | S n' =>
    let! x := rd mem pos in
    read_down n' mem (pos - 1) (s64 (Z.shiftl deltaxcn 8 + x))
  end.

(** runlist.c:860-862 ntfs_mapping_pairs_decompress_i. Also 895-897: the signed
    number in the bytes [lo + 1 .. hi] of the pair, from the top byte down. *)
Definition read_number (mem : bytes) (buf lo hi : Z) : outcome Z :=
  let! top := rd mem (buf + hi) in
  read_down (Z.to_nat (hi - 1 - lo)) mem (buf + hi - 1) (s8 top).

(** runlist.c:831-847 ntfs_mapping_pairs_decompress_i. The growth of the
    output block. *)
Definition grow_output (alloc : heap run) (rl : runlist) (rlpos rlsize : Z)
  : outcome (runlist * Z) :=
  if rlsize <? (rlpos + 3) * sizeof_run then
    let rlsize := rlsize + 0x1000 in
    let! p := realloc_block alloc rl rlsize (rlsize / sizeof_run) in
    match p with Some rl => Ret (rl, rlsize) | None => Fail EUNSET end
  else Ret (rl, rlsize).

(** runlist.c:857-871 ntfs_mapping_pairs_decompress_i. The run length of the
    pair at [buf]. *)
Definition decode_length (mem : bytes) (attr_end buf : Z) : outcome Z :=
  let! h := rd mem buf in
  let b := Z.land h 0xf in
  if negb (b =? 0) then
    if attr_end <? buf + b then Fail EIO else read_number mem buf 0 b
  else Ret (-1).

(** runlist.c:888-923 ntfs_mapping_pairs_decompress_i. The lcn of the pair at
    [buf]: what goes into the element, and the new current lcn. *)
Definition decode_lcn (mem : bytes) (attr_end buf lcn : Z) : outcome (Z * Z) :=
  let! h := rd mem buf in
  if Z.land h 0xf0 =? 0 then Ret (LCN_HOLE, lcn)
  else
    let b2 := Z.land h 0xf in
    let b := b2 + Z.land (Z.shiftr h 4) 0xf in
    if attr_end <? buf + b then Fail EIO
    else
      let! deltaxcn := read_number mem buf b2 b in
      let lcn := s64 (lcn + deltaxcn) in
      if lcn <? -1 then Fail EIO else Ret (lcn, lcn).

(** The variables of the decoding loop. *)
Record dstate := mkd { d_rl : runlist; d_rlsize : Z; d_rlpos : Z; d_vcn : Z; d_lcn : Z; d_buf : Z }.

(** runlist.c:831-927 ntfs_mapping_pairs_decompress_i. One round of the loop. *)
Definition decode_pair (alloc : heap run) (mem : bytes) (attr_end : Z) (s : dstate)
  : outcome dstate :=
  let! (rl, rlsize) := grow_output alloc (d_rl s) (d_rlpos s) (d_rlsize s) in
  let! rl := upd rl (d_rlpos s) (fun r => set_vcn r (d_vcn s)) in
  let! deltaxcn := decode_length mem attr_end (d_buf s) in
  if deltaxcn <? 0 then Fail EIO
  else
    let! rl := upd rl (d_rlpos s) (fun r => set_len r deltaxcn) in
    let vcn := s64 (d_vcn s + deltaxcn) in
    let! (l, lcn) := decode_lcn mem attr_end (d_buf s) (d_lcn s) in
    let! rl := upd rl (d_rlpos s) (fun r => set_lcn r l) in
    let! h := rd mem (d_buf s) in
    Ret (mkd rl rlsize (u16 (d_rlpos s + 1)) vcn lcn
           (d_buf s + (Z.land h 0xf + Z.land (Z.shiftr h 4) 0xf + 1))).

(** runlist.c:830-928 ntfs_mapping_pairs_decompress_i. The loop; each round
    moves [buf] forward, so [attr_end] rounds are enough. *)
Fixpoint decode_loop (alloc : heap run) (fuel : nat) (mem : bytes) (attr_end : Z) (s : dstate)
  : outcome dstate :=
  if d_buf s <? attr_end then
    let! h := rd mem (d_buf s) in
    if h =? 0 then Ret s
    else match fuel with
    | O => Fault
    | S fuel' =>
      let! s := decode_pair alloc mem attr_end s in decode_loop alloc fuel' mem attr_end s
    end
  else Ret s.

(** runlist.c:929-983 ntfs_mapping_pairs_decompress_i. The checks after the
    loop, the unmapped element for extents to follow and the terminator. *)
Definition decode_finish (cluster_size cluster_size_bits : Z) (attr : attr_record) (s : dstate)
  : outcome runlist :=
  if a_length attr <=? d_buf s then Fail EIO
  else
    let deltaxcn := a_highest_vcn attr in
    if negb (deltaxcn =? 0) && negb (s64 (d_vcn s - 1) =? deltaxcn) then Fail EIO
    else
      let! (rl, rlpos, vcn) := (if a_lowest_vcn attr =? 0 then
          let max_cluster :=
            s64 (Z.shiftr (s64 (a_allocated_size attr + cluster_size - 1)) cluster_size_bits - 1) in
          let! (rl, rlpos, vcn) := (if negb (deltaxcn =? 0) then
              if deltaxcn <? max_cluster then
                let n := s64 (max_cluster - deltaxcn) in
                let! rl := upd (d_rl s) (d_rlpos s) (fun r => mkrun (d_vcn s) (lcn r) n) in
                let! rl := upd rl (d_rlpos s) (fun r => set_lcn r LCN_RL_NOT_MAPPED) in
                Ret (rl, u16 (d_rlpos s + 1), s64 (d_vcn s + n))
              else if max_cluster <? deltaxcn then Fail EIO
              else Ret (d_rl s, d_rlpos s, d_vcn s)
            else Ret (d_rl s, d_rlpos s, d_vcn s)) in
          let! rl := upd rl rlpos (fun r => set_lcn r LCN_ENOENT) in
          Ret (rl, rlpos, vcn)
        else
          let! rl := upd (d_rl s) (d_rlpos s) (fun r => set_lcn r LCN_RL_NOT_MAPPED) in
          Ret (rl, d_rlpos s, d_vcn s)) in
      upd rl rlpos (fun r => mkrun vcn (lcn r) 0).

(** runlist.c:800-829 ntfs_mapping_pairs_decompress_i. The checks and the
    first element. *)
Definition decode_start (alloc : heap run) (attr : attr_record) : outcome dstate :=
  if negb (a_non_resident attr) || (a_lowest_vcn attr <? 0) then Fail EINVAL
  else
    let vcn := a_lowest_vcn attr in
    let buf := a_mapping_pairs_offset attr in
    if a_length attr <? buf then Fail EIO
    else if negb (alloc 0x1000) then Fail EUNSET
    else
      let rl := replicate (Z.to_nat (0x1000 / sizeof_run)) (mkrun 0 0 0) in
      if negb (vcn =? 0) then
        let! rl := wr rl 0 (mkrun 0 LCN_RL_NOT_MAPPED vcn) in
        Ret (mkd rl 0x1000 1 vcn 0 buf)
      else Ret (mkd rl 0x1000 0 vcn 0 buf).

(** runlist.c:783-1005 ntfs_mapping_pairs_decompress_i *)
Definition ntfs_mapping_pairs_decompress_i (alloc : heap run)
    (cluster_size cluster_size_bits : Z) (attr : attr_record) (old_rl : option runlist)
  : outcome runlist :=
  let! s := decode_start alloc attr in
  let! s := decode_loop alloc (Z.to_nat (a_length attr)) (a_mem attr) (a_length attr) s in
  let! rl := decode_finish cluster_size cluster_size_bits attr s in
  match old_rl with
  | None => Ret rl
  | Some old =>
    let! m := ntfs_runlists_merge alloc (Some old) (Some rl) in
    match m with Some m => Ret m | None => Fail EUNSET end
  end.

(** runlist.c:1007-1016 ntfs_mapping_pairs_decompress *)
Definition ntfs_mapping_pairs_decompress (alloc : heap run)
    (cluster_size cluster_size_bits : Z) (attr : attr_record) (old_rl : option runlist)
  : outcome runlist :=
  ntfs_mapping_pairs_decompress_i alloc cluster_size cluster_size_bits attr old_rl.

(** ** Signed little-endian numbers of the fewest bytes *)
Fixpoint sig (k : nat) (n : Z) : bytes :=
  u8 n :: (if (0x7f <? n) || (n <? -0x80) then
             match k with O => [] | S k' => sig k' (Z.shiftr n 8) end
           else []).

(** The significant bytes of a 64-bit number. *)
Definition sbytes (n : Z) : bytes := sig 8 n.
Arguments sbytes : simpl never.

(** The value of a byte string as a signed little-endian number. *)
Fixpoint sval (bs : bytes) : Z :=
  match bs with
  | [] => 0
  | b :: r => match r with [] => s8 b | _ => sval r * 256 + b end
  end.

Lemma sval_cons b r : r <> [] -> sval (b :: r) = sval r * 256 + b.
Proof. by destruct r. Qed.

Lemma s8_u8 n : -0x80 <= n <= 0x7f -> s8 (u8 n) = n.
Proof. unfold wraps, wrapu. cbn. intros. dlia. Qed.

Lemma shiftr8 n : Z.shiftr n 8 = n / 256.
Proof. by rewrite Z.shiftr_div_pow2. Qed.

Lemma sig_nonempty k n : sig k n <> [].
Proof. by destruct k. Qed.

Lemma sbytes_nonempty n : 0 < zlen (sbytes n).
Proof. unfold sbytes. cbn [sig]. zlia. Qed.

Lemma sval_sig k n :
  - 2 ^ (8 * Z.of_nat k + 7) <= n < 2 ^ (8 * Z.of_nat k + 7) -> sval (sig k n) = n.
Proof.
  revert n. induction k as [|k IH]; intros n; cbn [sig].
  - change (2 ^ _) with 128. intros.
    destruct (Z.ltb_spec 0x7f n), (Z.ltb_spec n (-0x80)); try lia. cbn. apply s8_u8. lia.
  - replace (8 * Z.of_nat (S k) + 7) with (8 + (8 * Z.of_nat k + 7)) by lia.
    rewrite Z.pow_add_r by lia. change (2 ^ 8) with 256. intros H.
    destruct ((0x7f <? n) || (n <? -0x80)) eqn:E.
    + rewrite sval_cons by apply sig_nonempty. rewrite shiftr8, IH.
      * unfold wrapu. change (2 ^ 8) with 256. dlia.
      * set (p := 2 ^ (8 * Z.of_nat k + 7)) in *. clearbody p. dlia.
    + cbn. apply s8_u8. lia.
Qed.

Lemma sval_sbytes n : in_s 64 n -> sval (sbytes n) = n.
Proof. intros [H1 H2]. apply sval_sig. cbn in *. lia. Qed.

(** A byte string of length [m] only stands for numbers below [2^(8m-1)]. *)
Lemma sval_bound bs :
  bs <> [] -> Forall byte_ok bs -> - 2 ^ (8 * zlen bs - 1) <= sval bs < 2 ^ (8 * zlen bs - 1).
Proof.
  intros Hne Hb. induction Hb as [|b bs Hb Hbs IH]; [done|].
  destruct bs as [|b' bs].
  - cbn. rewrite zlen_cons, zlen_nil. change (2 ^ _) with 128. unfold wraps. cbn. dlia.
  - rewrite sval_cons, zlen_cons by done. specialize (IH ltac:(done)).
    replace (8 * (1 + zlen (b' :: bs)) - 1) with (8 + (8 * zlen (b' :: bs) - 1)) by lia.
    rewrite Z.pow_add_r by zlia. change (2 ^ 8) with 256. unfold byte_ok in Hb. lia.
Qed.

Lemma sig_length_bound k m n :
  0 < m -> - 2 ^ (8 * m - 1) <= n < 2 ^ (8 * m - 1) -> zlen (sig k n) <= m.
Proof.
  revert m n. induction k as [|k IH]; intros m n Hm Hn; cbn [sig].
  - destruct (_ || _); zlia.
  - destruct ((0x7f <? n) || (n <? -0x80)) eqn:E; [|zlia].
    destruct (Z.eq_dec m 1) as [->|Hm1]; [change (2 ^ _) with 128 in Hn; lia|].
    rewrite zlen_cons. enough (zlen (sig k (Z.shiftr n 8)) <= m - 1) by lia.
    apply IH; [lia|]. rewrite shiftr8.
    replace (8 * m - 1) with (8 + (8 * (m - 1) - 1)) in Hn by lia.
    rewrite Z.pow_add_r in Hn by lia. change (2 ^ 8) with 256 in Hn.
    set (p := 2 ^ (8 * (m - 1) - 1)) in *. clearbody p. dlia.
Qed.

Lemma sbytes_length n : in_s 64 n -> 1 <= zlen (sbytes n) <= 8.
Proof.
  intros H. pose proof (sbytes_nonempty n). split; [lia|].
  apply sig_length_bound; [lia|exact H].
Qed.

(** The magnitude of [n] decides how many bytes it takes. *)
Definition magn (n : Z) : Z := if n <? 0 then Z.lnot n else n.

Lemma magn_shiftr n : magn (Z.shiftr n 8) = Z.shiftr (magn n) 8.
Proof.
  unfold magn, Z.lnot. rewrite !shiftr8.
  destruct (Z.ltb_spec n 0), (Z.ltb_spec (n / 256) 0); dlia.
Qed.

Lemma magn_big n : (0x7f <? n) || (n <? -0x80) = (128 <=? magn n).
Proof. unfold magn, Z.lnot. destruct (Z.ltb_spec n 0); lia. Qed.

Lemma nr_loop_sig k fuel n i :
  128 <= magn n -> magn n < 2 ^ (8 * Z.of_nat k + 15) -> (k < fuel)%nat ->
  nr_loop fuel (Z.shiftr (magn n) 7) i = i + zlen (sig k (Z.shiftr n 8)).
Proof.
  revert fuel n i. induction k as [|k IH]; intros fuel n i H1 H2 Hf;
    (destruct fuel as [|fuel]; [lia|]); cbn [nr_loop sig].
  all: assert (Z.shiftr (Z.shiftr (magn n) 7) 8 = Z.shiftr (magn (Z.shiftr n 8)) 7) as ->
    by (rewrite magn_shiftr, !Z.shiftr_shiftr by lia; f_equal; lia).
  all: rewrite magn_big, zlen_cons; set (m := Z.shiftr n 8) in *.
  all: assert (0 <= magn m) by (unfold magn, Z.lnot; destruct (Z.ltb_spec m 0); lia).
  all: assert (magn m = magn n / 256) as Hm by (unfold m; by rewrite magn_shiftr, shiftr8).
  - change (2 ^ _) with (128 * 256) in H2.
    destruct (Z.leb_spec 128 (magn m)); [dlia|].
    rewrite Z.shiftr_div_pow2, Z.div_small by lia. cbn. zlia.
  - replace (8 * Z.of_nat (S k) + 15) with (8 + (8 * Z.of_nat k + 15)) in H2 by lia.
    rewrite Z.pow_add_r in H2 by lia. change (2 ^ 8) with 256 in H2.
    destruct (Z.leb_spec 128 (magn m)).
    + rewrite IH; [|done| |lia].
      * destruct (Z.eqb_spec (Z.shiftr (magn m) 7) 0) as [E|E]; [|lia].
        rewrite Z.shiftr_div_pow2 in E by lia. cbn in E. dlia.
      * set (p := 2 ^ (8 * Z.of_nat k + 15)) in *. clearbody p. dlia.
    + rewrite Z.shiftr_div_pow2, Z.div_small by lia. cbn. zlia.
Qed.

Lemma nr_significant_spec n :
  in_s 64 n -> ntfs_get_nr_significant_bytes n = zlen (sbytes n).
Proof.
  intros H. unfold ntfs_get_nr_significant_bytes. fold (magn n).
  assert (0 <= magn n < 2 ^ 63) as Hm.
  { unfold in_s in H. cbn in H. unfold magn, Z.lnot. destruct (Z.ltb_spec n 0); lia. }
  wsimp. unfold sbytes. cbn [sig]. rewrite magn_big, zlen_cons.
  destruct (Z.leb_spec 128 (magn n)); [|zlia].
  rewrite (nr_loop_sig 7) by (cbn; lia). done.
Qed.

(** Significant bytes.  [ntfs_get_nr_significant_bytes] returns the
    smallest number of bytes in which a 64-bit number can be stored so that it
    reads back as a signed little-endian number. *)
Theorem nr_significant_minimal n :
  in_s 64 n ->
  exists bs, zlen bs = ntfs_get_nr_significant_bytes n /\ Forall byte_ok bs /\ sval bs = n /\
    forall bs', bs' <> [] -> Forall byte_ok bs' -> sval bs' = n -> zlen bs <= zlen bs'.
Proof.
  intros H. exists (sbytes n). split_and!.
  - by rewrite nr_significant_spec.
  - unfold sbytes. generalize 8%nat n. clear. induction n as [|k IH]; intros n; cbn [sig];
      constructor; try (apply (wrapu_range 8); lia); destruct (_ || _); auto.
  - by apply sval_sbytes.
  - intros bs' Hne Hb <-. apply sig_length_bound; [destruct bs'; [done|zlia]|].
    by apply sval_bound.
Qed.

Lemma nr_significant_minimal_witness :
  exists bs, zlen bs = ntfs_get_nr_significant_bytes (-129) /\ sval bs = -129.
Proof.
  assert (in_s 64 (-129)) as H by (split; cbn; lia).
  exact (match nr_significant_minimal _ H with
         | ex_intro _ bs (conj A (conj _ (conj B _))) => ex_intro _ bs (conj A B) end).
Defined.

(** ** What the encoder writes *)
Lemma wsb_loop_ok k m A G B dst dst_max n i :
  (k <= m)%nat -> - 2 ^ (8 * Z.of_nat k + 7) <= n < 2 ^ (8 * Z.of_nat k + 7) ->
  dst = zlen A -> 1 + zlen G = zlen (sig k n) -> dst + zlen G - 1 <= dst_max ->
  exists bs, sig k n = u8 n :: bs /\
    wsb_loop m (A ++ G ++ B) dst dst_max n i = Ret (A ++ bs ++ B, Some (i + zlen bs)).
Proof.
  revert m A G dst n i. induction k as [|k IH]; intros m A G dst n i Hkm Hn -> HG Hd; cbn [sig] in *.
  - eexists. split; [done|]. change (2 ^ _) with 128 in Hn.
    assert ((0x7f <? n) || (n <? -0x80) = false) as E by lia. rewrite E in HG.
    destruct G; [|zlia]. destruct m; cbn [wsb_loop]; rewrite E; cbn; by rewrite Z.add_0_r.
  - eexists. split; [done|]. destruct m as [|m]; [lia|]. cbn [wsb_loop].
    destruct ((0x7f <? n) || (n <? -0x80)) eqn:E.
    + destruct G as [|g G]; [destruct k; cbn [sig] in HG; zlia|].
      destruct (Z.ltb_spec dst_max (zlen A)); [zlia|].
      cbn [app]. rewrite wr_app_here by done. cbn [obind].
      replace (8 * Z.of_nat (S k) + 7) with (8 + (8 * Z.of_nat k + 7)) in Hn by lia.
      rewrite Z.pow_add_r in Hn by lia. change (2 ^ 8) with 256 in Hn.
      rewrite (cons_middle (u8 _)), (assoc_L (++)).
      destruct (IH m (A ++ [u8 (Z.shiftr n 8)]) G (zlen A + 1) (Z.shiftr n 8) (i + 1))
        as (bs & Ebs & Ew); [lia| |zlia|zlia|zlia|].
      { rewrite shiftr8. set (p := 2 ^ (8 * Z.of_nat k + 7)) in *. clearbody p. dlia. }
      rewrite Ew, Ebs. rewrite <- (assoc_L (++)). cbn [app]. by rewrite zlen_cons, Z.add_assoc.
    + destruct G; [|zlia]. cbn. by rewrite Z.add_0_r.
Qed.

(** A number that fits is stored by its significant bytes. *)
Lemma wsb_ok A G B dst dst_max n :
  in_s 64 n -> dst = zlen A -> zlen G = zlen (sbytes n) -> dst + zlen G - 1 <= dst_max ->
  ntfs_write_significant_bytes (A ++ G ++ B) dst dst_max n =
  Ret (A ++ sbytes n ++ B, Some (zlen (sbytes n))).
Proof.
  intros [Hn1 Hn2] -> HG Hd. unfold ntfs_write_significant_bytes.
  pose proof (sbytes_nonempty n). destruct G as [|g G]; [zlia|].
  destruct (Z.ltb_spec dst_max (zlen A)); [zlia|].
  cbn [app]. rewrite wr_app_here by done. cbn [obind]. rewrite (cons_middle (u8 n)), (assoc_L (++)).
  destruct (wsb_loop_ok 8 8 (A ++ [u8 n]) G B (zlen A + 1) dst_max n 1) as (bs & Ebs & ->);
    [lia|cbn in *; lia|zlia|fold (sbytes n); zlia|zlia|].
  fold (sbytes n) in Ebs. rewrite Ebs, <- (assoc_L (++)). cbn [app]. by rewrite zlen_cons.
Qed.

Lemma insert_take {A} (l : list A) (x : A) (d k : nat) :
  (d <= k)%nat -> take d (<[k := x]> l) = take d l.
Proof. apply take_insert_ge. Qed.

Lemma wsb_loop_nospace k m buf dst dst_max n i :
  (k <= m)%nat -> - 2 ^ (8 * Z.of_nat k + 7) <= n < 2 ^ (8 * Z.of_nat k + 7) ->
  0 <= dst -> dst_max < zlen buf -> dst_max < dst + (zlen (sig k n) - 1) - 1 ->
  zlen (sig k n) <> 1 ->
  exists buf', wsb_loop m buf dst dst_max n i = Ret (buf', None) /\ zlen buf' = zlen buf /\
    forall p, (p <= Z.to_nat dst)%nat -> take p buf' = take p buf.
Proof.
  revert m buf dst n i. induction k as [|k IH]; intros m buf dst n i Hkm Hn H0 Hb Hd Hl;
    cbn [sig] in *.
  - exfalso. destruct (_ || _); zlia.
  - destruct m as [|m]; [lia|]. cbn [wsb_loop].
    destruct ((0x7f <? n) || (n <? -0x80)) eqn:E; [|zlia].
    destruct (Z.ltb_spec dst_max dst); [by exists buf|].
    rewrite wr_ok by lia. cbn [obind]. set (buf1 := <[_ := _]> buf).
    assert (zlen buf1 = zlen buf) as Hb1 by apply zlen_insert.
    replace (8 * Z.of_nat (S k) + 7) with (8 + (8 * Z.of_nat k + 7)) in Hn by lia.
    rewrite Z.pow_add_r in Hn by lia. change (2 ^ 8) with 256 in Hn.
    destruct (IH m buf1 (dst + 1) (Z.shiftr n 8) (i + 1)) as (buf' & Ew & Hz & Ht);
      [lia| |lia|lia|zlia|zlia|].
    { rewrite shiftr8. set (p := 2 ^ (8 * Z.of_nat k + 7)) in *. clearbody p. dlia. }
    exists buf'. split_and!; [done|lia|]. intros p Hp. rewrite Ht by lia.
    apply take_insert_ge. lia.
Qed.

(** A number that does not fit leaves the bytes before it alone. *)
Lemma wsb_nospace buf dst dst_max n :
  in_s 64 n -> 0 <= dst -> dst_max < zlen buf -> dst_max < dst + zlen (sbytes n) - 1 ->
  exists buf', ntfs_write_significant_bytes buf dst dst_max n = Ret (buf', None) /\
    zlen buf' = zlen buf /\ take (Z.to_nat dst) buf' = take (Z.to_nat dst) buf.
Proof.
  intros [Hn1 Hn2] H0 Hb Hd. unfold ntfs_write_significant_bytes.
  destruct (Z.ltb_spec dst_max dst); [by exists buf|].
  rewrite wr_ok by lia. cbn [obind]. set (buf1 := <[_ := _]> buf).
  assert (zlen buf1 = zlen buf) as Hb1 by apply zlen_insert.
  destruct (wsb_loop_nospace 8 8 buf1 (dst + 1) dst_max n 1) as (buf' & Ew & Hz & Ht);
    [lia|cbn in *; lia|lia|lia|fold (sbytes n); lia|fold (sbytes n); lia|].
  exists buf'. split_and!; [done|lia|]. rewrite Ht by lia. apply take_insert_ge. lia.
Qed.

(** One mapping pair, and the pairs of a list of runs. *)
Definition pair (len : Z) (dlcn : option Z) : bytes :=
  let lb := sbytes len in
  let cb := match dlcn with Some d => sbytes d | None => [] end in
  (zlen cb * 16 + zlen lb) :: lb ++ cb.

Definition has_lcn (major_ver : Z) (r : run) : bool := (0 <=? lcn r) || (major_ver <? 3).

Definition run_pair (major_ver prev : Z) (r : run) : bytes :=
  pair (rlen r) (if has_lcn major_ver r then Some (lcn r - prev) else None).

Definition next_prev (major_ver prev : Z) (r : run) : Z :=
  if has_lcn major_ver r then lcn r else prev.

Fixpoint pairs (major_ver prev : Z) (l : runlist) : bytes :=
  match l with
  | [] => []
  | r :: l' => run_pair major_ver prev r ++ pairs major_ver (next_prev major_ver prev r) l'
  end.

Definition in_s_opt (d : option Z) : Prop := match d with Some d => in_s 64 d | None => True end.

Lemma header_byte c l :
  0 <= c <= 8 -> 0 <= l <= 8 -> u8 (Z.lor (Z.shiftl c 4) l) = c * 16 + l.
Proof.
  intros Hc Hl.
  assert (forall x, 0 <= x <= 8 -> x = 0 \/ x = 1 \/ x = 2 \/ x = 3 \/ x = 4 \/ x = 5 \/ x = 6
    \/ x = 7 \/ x = 8) as H by lia.
  destruct (H c Hc) as [->|[->|[->|[->|[->|[->|[->|[->| ->]]]]]]]],
    (H l Hl) as [->|[->|[->|[->|[->|[->|[->|[->| ->]]]]]]]]; reflexivity.
Qed.

Definition dlcn_bytes (d : option Z) : bytes := match d with Some d => sbytes d | None => [] end.

Lemma dlcn_bytes_length d : in_s_opt d -> 0 <= zlen (dlcn_bytes d) <= 8.
Proof. destruct d as [d|]; cbn; [|zlia]. intros H%sbytes_length. lia. Qed.

Lemma zlen_pair len d : zlen (pair len d) = 1 + zlen (sbytes len) + zlen (dlcn_bytes d).
Proof. unfold pair, dlcn_bytes. destruct d; zlia. Qed.

Lemma split_at {A} (l : list A) n : 0 <= n <= zlen l -> exists a b, l = a ++ b /\ zlen a = n.
Proof.
  intros H. exists (take (Z.to_nat n) l), (drop (Z.to_nat n) l).
  rewrite take_drop. split; [done|]. unfold zlen. rewrite length_take. zlia.
Qed.

(** The lcn part of a pair. *)
Lemma wsb_opt_ok A G B dst dst_max d :
  in_s_opt d -> dst = zlen A -> zlen G = zlen (dlcn_bytes d) -> dst + zlen G - 1 <= dst_max ->
  match d with
  | Some d => ntfs_write_significant_bytes (A ++ G ++ B) dst dst_max d
  | None => Ret (A ++ G ++ B, Some 0)
  end = Ret (A ++ dlcn_bytes d ++ B, Some (zlen (dlcn_bytes d))).
Proof.
  destruct d as [d|]; cbn; intros.
  - by apply wsb_ok.
  - destruct G; [done|zlia].
Qed.

Lemma write_pair_ok A G B dst dst_max len d :
  in_s 64 len -> in_s_opt d -> dst = zlen A -> zlen G = zlen (pair len d) ->
  dst + zlen G <= dst_max ->
  write_pair (A ++ G ++ B) dst dst_max len d =
  Ret (A ++ pair len d ++ B, Some (dst + zlen (pair len d))).
Proof.
  intros Hlen Hd -> HG Hm. unfold write_pair. pose proof (zlen_pair len d) as Hzp.
  pose proof (sbytes_length _ Hlen). pose proof (dlcn_bytes_length _ Hd).
  destruct G as [|g G]; [zlia|].
  destruct (split_at G (zlen (sbytes len)) ltac:(zlia)) as (G1 & G2 & -> & HG1).
  assert (A ++ (g :: G1 ++ G2) ++ B = (A ++ [g]) ++ G1 ++ G2 ++ B) as ->
    by (by rewrite <- !(assoc_L (++)); cbn; rewrite <- (assoc_L (++))).
  rewrite (wsb_ok (A ++ [g]) G1 (G2 ++ B)) by (done || zlia). cbn [obind].
  rewrite (assoc_L (++) (A ++ [g])).
  rewrite (wsb_opt_ok ((A ++ [g]) ++ sbytes len) G2 B) by (done || zlia). cbn [obind].
  destruct (Z.ltb_spec dst_max (zlen A + zlen (sbytes len) + zlen (dlcn_bytes d) + 1)); [zlia|].
  rewrite <- !(assoc_L (++)). cbn [app]. rewrite wr_app_here by done. cbn [obind].
  rewrite header_byte by lia. unfold pair. fold (dlcn_bytes d).
  f_equal. f_equal.
  - f_equal. by rewrite <- app_comm_cons, <- (assoc_L (++)).
  - f_equal. rewrite zlen_cons, zlen_app. lia.
Qed.

Lemma write_pair_nospace buf dst dst_max len d :
  in_s 64 len -> in_s_opt d -> 0 <= dst <= dst_max -> dst_max < zlen buf ->
  dst_max < dst + zlen (pair len d) ->
  exists buf', write_pair buf dst dst_max len d = Ret (buf', None) /\
    zlen buf' = zlen buf /\ take (Z.to_nat dst) buf' = take (Z.to_nat dst) buf.
Proof.
  intros Hlen Hd H0 Hb Hm. unfold write_pair. rewrite zlen_pair in Hm.
  pose proof (sbytes_length _ Hlen). pose proof (dlcn_bytes_length _ Hd).
  assert (forall p (x y : bytes), (p <= Z.to_nat (dst + 1))%nat -> take (Z.to_nat (dst + 1)) x =
    take (Z.to_nat (dst + 1)) y -> take p x = take p y) as Htk.
  { intros p x y Hp E. apply (f_equal (take p)) in E. by rewrite !take_take, !Nat.min_l in E by lia. }
  destruct (Z.ltb_spec dst_max (dst + 1 + zlen (sbytes len) - 1)).
  { destruct (wsb_nospace buf (dst + 1) dst_max len) as (buf' & -> & Hz & Ht); [done|lia..|].
    cbn [obind]. exists buf'. split_and!; [done|done|]. eapply Htk; [lia|done]. }
  destruct (split_at buf (dst + 1) ltac:(lia)) as (A & R & -> & HA).
  destruct (split_at R (zlen (sbytes len)) ltac:(zlia)) as (G & B & -> & HG).
  rewrite (wsb_ok A G B) by (done || zlia). cbn [obind].
  set (buf1 := A ++ sbytes len ++ B).
  assert (zlen buf1 = zlen (A ++ G ++ B)) as Hz1 by (unfold buf1; zlia).
  assert (take (Z.to_nat (dst + 1)) buf1 = take (Z.to_nat (dst + 1)) (A ++ G ++ B)) as Ht1.
  { unfold buf1. by rewrite !take_app_length' by zlia. }
  destruct (Z.ltb_spec dst_max (dst + 1 + zlen (sbytes len) + zlen (dlcn_bytes d) - 1)).
  - destruct d as [d|]; cbn [dlcn_bytes] in *; [|zlia].
    destruct (wsb_nospace buf1 (dst + 1 + zlen (sbytes len)) dst_max d) as (buf' & -> & Hz & Ht);
      [done|lia..|].
    cbn [obind]. exists buf'. split_and!; [done|lia|].
    eapply Htk; [lia|]. rewrite <- Ht1. apply (f_equal (take (Z.to_nat (dst + 1)))) in Ht.
    by rewrite !take_take, !Nat.min_l in Ht by lia.
  - assert (exists buf2, match d with
      | Some d => ntfs_write_significant_bytes buf1 (dst + 1 + zlen (sbytes len)) dst_max d
      | None => Ret (buf1, Some 0)
      end = Ret (buf2, Some (zlen (dlcn_bytes d))) /\ zlen buf2 = zlen buf1 /\
      take (Z.to_nat (dst + 1)) buf2 = take (Z.to_nat (dst + 1)) buf1) as (buf2 & -> & Hz2 & Ht2).
    { destruct (split_at B (zlen (dlcn_bytes d)) ltac:(zlia)) as (G2 & B2 & EB & HG2).
      unfold buf1. rewrite EB, (assoc_L (++) A).
      rewrite (wsb_opt_ok (A ++ sbytes len) G2 B2) by (done || zlia).
      eexists. split_and!; [reflexivity|zlia|]. rewrite <- !(assoc_L (++)).
      by rewrite !take_app_length' by zlia. }
    cbn [obind].
    destruct (Z.ltb_spec dst_max (dst + zlen (sbytes len) + zlen (dlcn_bytes d) + 1)); [|lia].
    exists buf2. split_and!; [done|lia|]. eapply Htk; [lia|]. congruence.
Qed.

(** ** Correctness of the encoder *)
Definition encodable (r : run) : Prop :=
  0 < rlen r < 2 ^ 62 /\ LCN_HOLE <= lcn r < 2 ^ 62.

Definition prev_ok (p : Z) : Prop := LCN_HOLE <= p < 2 ^ 62.

Lemma encodable_bad_run r : encodable r -> bad_run r = None.
Proof.
  intros [H1 H2]. unfold bad_run.
  destruct (Z.ltb_spec (rlen r) 0), (Z.ltb_spec (lcn r) LCN_HOLE); done || lia.
Qed.

Lemma next_prev_ok v p r : encodable r -> prev_ok p -> prev_ok (next_prev v p r).
Proof. intros [? ?] ?. unfold next_prev. by destruct (has_lcn v r). Qed.

Lemma dlcn_in_range v p r :
  encodable r -> prev_ok p ->
  in_s_opt (if has_lcn v r then Some (lcn r - p) else None) /\ s64 (lcn r - p) = lcn r - p /\
  in_s 64 (rlen r).
Proof.
  intros [H1 H2] H3. unfold prev_ok, LCN_HOLE, in_s_opt, in_s in *. split_and!.
  - destruct (has_lcn v r); [|done]. cbn in *. lia.
  - apply wraps_small; [lia|]. unfold in_s. cbn in *. lia.
  - cbn in *. lia.
  - cbn in *. lia.
Qed.

(** What is in the buffer after encoding the runs [l] into [buf] from position
    [dst = zlen A] on: the first [k] of them, and then a zero byte. *)
Definition encoded (ver prev : Z) (l : runlist) (A buf buf' : bytes) (dst_max k : Z) : Prop :=
  0 <= k <= zlen l /\ zlen buf' = zlen buf /\
  zlen A + zlen (pairs ver prev (take (Z.to_nat k) l)) <= dst_max /\
  (exists rest, buf' = A ++ pairs ver prev (take (Z.to_nat k) l) ++ 0 :: rest) /\
  (k < zlen l -> dst_max < zlen A + zlen (pairs ver prev (take (Z.to_nat (k + 1)) l))).

Definition build_status (k n : Z) : status := if k =? n then None else Some ENOSPC.

Lemma write_zero A B :
  0 < zlen B -> exists rest, wr (A ++ B) (zlen A) 0 = Ret (A ++ 0 :: rest) /\
    zlen (A ++ 0 :: rest) = zlen (A ++ B).
Proof.
  intros H. destruct B as [|b B]; [zlia|]. exists B. rewrite wr_app_here by done. split; [done|zlia].
Qed.

Lemma build_full_ok ver l t pad i A B dst_max prev :
  Forall encodable l -> rlen t = 0 -> prev_ok prev ->
  zlen A <= dst_max -> dst_max < zlen (A ++ B) ->
  exists k buf', build_full ver (l ++ t :: pad) i (A ++ B) (zlen A) dst_max prev =
      Ret (buf', build_status k (zlen l), Some (i + k)) /\
    encoded ver prev l A (A ++ B) buf' dst_max k.
Proof.
  intros Hl Ht Hp HA HB. revert i A B prev Hp HA HB.
  induction Hl as [|r l Hr Hl IH]; intros i A B prev Hp HA HB; cbn [build_full app].
  - rewrite Ht. cbn [Z.eqb]. unfold build_ok.
    destruct (write_zero A B ltac:(zlia)) as (rest & -> & Hz). cbn [obind].
    exists 0, (A ++ 0 :: rest). split; [by rewrite Z.add_0_r|].
    split_and!; [zlia|zlia|done|cbn; zlia|by exists rest|zlia].
  - destruct (Z.eqb_spec (rlen r) 0); [destruct Hr; lia|].
    rewrite (encodable_bad_run _ Hr). fold (has_lcn ver r).
    destruct (dlcn_in_range ver prev r Hr Hp) as (Hd & Es & Hlen). rewrite Es.
    destruct (Z.leb_spec (zlen A + zlen (run_pair ver prev r)) dst_max) as [Hfit|Hfit].
    + destruct (split_at B (zlen (run_pair ver prev r)) ltac:(zlia)) as (G & B' & -> & HG).
      rewrite (write_pair_ok A G B') by (done || zlia). cbn [obind].
      fold (run_pair ver prev r). fold (next_prev ver prev r). rewrite (assoc_L (++) A).
      rewrite <- zlen_app.
      destruct (IH (i + 1) (A ++ run_pair ver prev r) B' (next_prev ver prev r))
        as (k & buf' & -> & Hk & Hz & Hfit' & (rest & Er) & Hmax); [by apply next_prev_ok|zlia|zlia|].
      exists (1 + k), buf'. split.
      { rewrite zlen_cons. unfold build_status.
        destruct (Z.eqb_spec k (zlen l)), (Z.eqb_spec (1 + k) (1 + zlen l)); try lia;
          by rewrite Z.add_assoc. }
      assert (forall j, 0 <= j -> pairs ver prev (take (Z.to_nat (1 + j)) (r :: l)) =
        run_pair ver prev r ++ pairs ver (next_prev ver prev r) (take (Z.to_nat j) l)) as Et.
      { intros j Hj. replace (Z.to_nat (1 + j)) with (S (Z.to_nat j)) by lia. done. }
      split_and!; [lia|zlia|zlia|rewrite Et by lia; zlia| |].
      * exists rest. rewrite Er, Et, <- !(assoc_L (++)) by lia. done.
      * intros Hlt. rewrite <- Z.add_assoc, Et by lia. specialize (Hmax ltac:(zlia)). zlia.
    + destruct (write_pair_nospace (A ++ B) (zlen A) dst_max (rlen r)
        (if has_lcn ver r then Some (lcn r - prev) else None)) as (buf' & -> & Hz & Htk);
        [done|done|zlia|lia|done|]. cbn [obind]. unfold build_size_err.
      rewrite take_app_length' in Htk by zlia.
      assert (buf' = A ++ drop (Z.to_nat (zlen A)) buf') as Eb.
      { rewrite <- Htk at 1. by rewrite take_drop. }
      rewrite Eb in Hz |- *.
      destruct (write_zero A (drop (Z.to_nat (zlen A)) buf')) as (rest & -> & Hz'); [zlia|].
      cbn [obind]. exists 0, (A ++ 0 :: rest). split.
      { rewrite Z.add_0_r. unfold build_status. destruct (Z.eqb_spec 0 (zlen (r :: l))); [zlia|done]. }
      split_and!; [zlia|zlia|zlia|cbn; zlia|by exists rest|]. intros _. change (Z.to_nat (0 + 1)) with 1%nat.
      cbn [take pairs]. rewrite take_0. cbn [pairs]. rewrite app_nil_r. lia.
Qed.

(** The part of run [r] from cluster [s] on, and the runs from [s] on. *)
Definition cut_head (r : run) (s : Z) : run :=
  mkrun s (if 0 <=? lcn r then lcn r + (s - vcn r) else lcn r) (rlen r - (s - vcn r)).

Fixpoint from_runs (l : runlist) (s : Z) : runlist :=
  match l with
  | [] => []
  | r :: l' => if vcn r + rlen r <=? s then from_runs l' s else cut_head r s :: l'
  end.

Lemma cut_head_same r : cut_head r (vcn r) = r.
Proof.
  destruct r as [v l n]. unfold cut_head. cbn. f_equal; [|lia].
  destruct (0 <=? l); lia.
Qed.

Lemma skip_to_ok v0 l t pad s i :
  contig v0 l (vcn t) -> rlen t = 0 -> v0 <= s <= vcn t ->
  exists l1 l2, l = l1 ++ l2 /\ skip_to (l ++ t :: pad) s i = Ret (i + zlen l1) /\
    ((l2 = [] /\ s = vcn t /\ from_runs l s = []) \/
     (exists r l3, l2 = r :: l3 /\ vcn r <= s < vcn r + rlen r /\ from_runs l s = cut_head r s :: l3)).
Proof.
  intros Hc Ht Hs. revert v0 i Hc Hs. induction l as [|r l IH]; intros v0 i Hc Hs;
    cbn [skip_to app from_runs].
  - cbn in Hc. exists [], []. rewrite Ht. cbn. rewrite Z.add_0_r. split_and!; [done|done|].
    left. split_and!; [done|lia|done].
  - destruct Hc as (<- & Hr & Hc). destruct (Z.eqb_spec (rlen r) 0); [lia|].
    assert (exists n, rd (l ++ t :: pad) 0 = Ret n /\ vcn n = vcn r + rlen r) as (n' & Hn & En).
    { destruct l as [|r2 l]; cbn in *; eexists; (split; [reflexivity|]); naive_solver. }
    rewrite Hn. cbn [obind]. rewrite En. destruct (Z.leb_spec (vcn r + rlen r) s).
    + destruct (IH _ (i + 1) Hc) as (l1 & l2 & -> & -> & H'); [lia|].
      exists (r :: l1), l2. split_and!; [done|f_equal; zlia|done].
    + exists [], (r :: l). split_and!; [done|by rewrite Z.add_0_r|]. right. exists r, l.
      split_and!; [done|lia|lia|done].
Qed.

Lemma from_runs_contig v0 l e s : contig v0 l e -> v0 <= s <= e -> contig s (from_runs l s) e.
Proof.
  revert v0. induction l as [|r l IH]; intros v0; cbn [contig from_runs]; [lia|].
  intros (<- & Hr & Hc) Hs. destruct (Z.leb_spec (vcn r + rlen r) s).
  - eapply IH; [done|lia].
  - cbn. split_and!; [done|lia|]. by replace (s + (rlen r - (s - vcn r))) with (vcn r + rlen r) by lia.
Qed.

Lemma cut_head_encodable r s :
  encodable r -> vcn r <= s < vcn r + rlen r -> lcn r + rlen r < 2 ^ 62 ->
  encodable (cut_head r s).
Proof.
  unfold encodable, cut_head, LCN_HOLE. cbn. destruct (Z.leb_spec 0 (lcn r)); lia.
Qed.

Lemma from_runs_length l s : zlen (from_runs l s) <= zlen l.
Proof.
  induction l as [|r l IH]; cbn [from_runs]; [lia|].
  destruct (_ <=? _); rewrite !zlen_cons; lia.
Qed.

(** The mapping at the clusters from [s] on is kept. *)
Lemma find_lcn_from v0 l e s v :
  contig v0 l e -> v0 <= s <= v -> find_lcn (from_runs l s) v = find_lcn l v.
Proof.
  revert v0. induction l as [|r l IH]; intros v0; [done|]. cbn [contig from_runs find_lcn].
  intros (<- & Hr & Hc) Hv. destruct (Z.leb_spec (vcn r + rlen r) s).
  - rewrite (proj2 (in_run_false r v)) by lia. eapply IH; [done|lia].
  - cbn [find_lcn].
    assert (in_run (cut_head r s) v = in_run r v) as -> by (unfold in_run, cut_head; cbn; lia).
    destruct (in_run r v) eqn:E; [|done]. unfold run_lcn, cut_head. cbn.
    destruct (Z.leb_spec 0 (lcn r)).
    + destruct (Z.leb_spec 0 (lcn r + (s - vcn r))); [f_equal|]; lia.
    + destruct (Z.leb_spec 0 (lcn r)); done || lia.
Qed.

(** The clusters of the volume are numbered below [2^61], and runs do not
    leave it. *)
Definition on_volume (r : run) : Prop :=
  LCN_HOLE <= lcn r /\ lcn r < 2 ^ 61 /\ rlen r < 2 ^ 61.

Lemma on_volume_encodable v0 l e :
  contig v0 l e -> Forall on_volume l -> Forall encodable l.
Proof.
  revert v0. induction l as [|r l IH]; intros v0; [done|].
  intros (<- & Hr & Hc) [(H1 & H2 & H3) Hl]%Forall_cons. constructor; [|by eapply IH].
  unfold encodable. lia.
Qed.

Lemma from_runs_encodable v0 l e s :
  contig v0 l e -> v0 <= s -> Forall on_volume l -> Forall encodable (from_runs l s).
Proof.
  revert v0. induction l as [|r l IH]; intros v0; [done|]. cbn [contig from_runs].
  intros (<- & Hr & Hc) Hs [(H1 & H2 & H3) Hl]%Forall_cons.
  destruct (Z.leb_spec (vcn r + rlen r) s); [eapply IH; [done|lia|done]|].
  constructor; [|by eapply on_volume_encodable].
  apply cut_head_encodable; [unfold encodable; lia|lia|lia].
Qed.

Lemma has_lcn_cut ver r s : vcn r <= s -> has_lcn ver (cut_head r s) = has_lcn ver r.
Proof.
  intros. unfold has_lcn, cut_head. cbn. destruct (Z.leb_spec 0 (lcn r)); [|lia].
  destruct (Z.leb_spec 0 (lcn r + (s - vcn r))); [done|lia].
Qed.

(** Wherever the start vcn lies, the encoder does what it would do for the
    run list that starts there. *)
Lemma build_as_full ver l t pad v0 s dst dst_len :
  contig v0 l (vcn t) -> rlen t = 0 -> Forall on_volume l -> 0 <= v0 <= s -> s <= vcn t ->
  ntfs_mapping_pairs_build ver dst dst_len (Some (l ++ t :: pad)) s =
  build_full ver (from_runs l s ++ t :: pad) (zlen l - zlen (from_runs l s)) dst 0 (dst_len - 1) 0.
Proof.
  intros Hc Ht Hv Hs1 Hs2. unfold ntfs_mapping_pairs_build.
  destruct (Z.ltb_spec s 0); [lia|].
  pose proof (from_runs_encodable v0 l (vcn t) s Hc ltac:(lia) Hv) as Henc.
  destruct (skip_to_ok v0 l t pad s 0 Hc Ht ltac:(lia))
    as (l1 & l2 & -> & -> & [(-> & -> & E)|(r & l3 & -> & Hr & E)]); cbn [obind]; rewrite Z.add_0_l, E in *.
  - rewrite <- (assoc_L (++)). cbn [app]. rewrite rd_app_here by done. cbn [obind].
    rewrite Ht, Z.ltb_irrefl. cbn [Z.eqb andb orb]. rewrite drop_app_length' by zlia.
    f_equal. zlia.
  - rewrite <- (assoc_L (++)), <- app_comm_cons. rewrite rd_app_here by done. cbn [obind].
    apply Forall_app in Hv as [_ Hv]. apply Forall_cons in Hv as [(Hr1 & Hr2 & Hr3) Hv].
    destruct (Z.eqb_spec (rlen r) 0); [lia|]. destruct (Z.ltb_spec s (vcn r)); [lia|]. cbn [andb orb].
    destruct (Z.ltb_spec (vcn r) s).
    + rewrite encodable_bad_run by (unfold encodable; lia).
      apply Forall_cons in Henc as [Hcut _].
      cbn [build_full app]. rewrite (encodable_bad_run _ Hcut).
      fold (has_lcn ver r). fold (has_lcn ver (cut_head r s)). rewrite has_lcn_cut by lia.
      change (rlen (cut_head r s)) with (rlen r - (s - vcn r)).
      destruct (Z.eqb_spec (rlen r - (s - vcn r)) 0); [lia|]. rewrite Z.sub_0_r.
      assert (s64 (lcn (cut_head r s)) = (if 0 <=? lcn r then s64 (lcn r + (s - vcn r)) else lcn r))
        as Elcn.
      { cbn. destruct (Z.leb_spec 0 (lcn r)); [done|]. apply wraps_small; [lia|].
        unfold in_s, LCN_HOLE in *. cbn. lia. }
      assert (s64 (lcn (cut_head r s)) = lcn (cut_head r s)) as Elcn2.
      { destruct Hcut as [_ Hcut]. apply wraps_small; [lia|]. unfold in_s, LCN_HOLE in *. cbn -[lcn] in *. lia. }
      rewrite Elcn2 in *. rewrite <- Elcn.
      assert (drop (Z.to_nat (zlen l1 + 1)) (l1 ++ r :: l3 ++ t :: pad) = l3 ++ t :: pad) as ->.
      { rewrite (cons_middle r), (assoc_L (++)), drop_app_length'; [done|].
        rewrite length_app. cbn. zlia. }
      replace (zlen (l1 ++ r :: l3) - zlen (cut_head r s :: l3)) with (zlen l1) by zlia.
      by destruct (has_lcn ver r).
    + assert (s = vcn r) as -> by lia. rewrite cut_head_same in *.
      rewrite drop_app_length' by zlia. cbn [app]. f_equal. zlia.
Qed.

(** The encoder.  On a well-formed run list and a start vcn inside it,
    [ntfs_mapping_pairs_build] writes the mapping pairs of the first [k] runs
    from the start vcn on and a terminating zero byte, and nothing outside of
    the buffer.  It returns 0 exactly when that is all of them; otherwise it
    fails with ENOSPC, [*stop_rl] names the first run that is missing, and one
    more pair and the terminator would not have fit. *)
Theorem build_spec ver rl l t v0 s dst dst_len :
  rl_ok rl l t v0 -> Forall on_volume l -> 0 <= v0 <= s -> s <= vcn t ->
  1 <= dst_len <= zlen dst ->
  exists k stop buf', let todo := from_runs l s in
    ntfs_mapping_pairs_build ver dst dst_len (Some rl) s =
      Ret (buf', build_status k (zlen todo), Some stop) /\
    stop = zlen l - zlen todo + k /\ 0 <= k <= zlen todo /\ zlen buf' = zlen dst /\
    zlen (pairs ver 0 (take (Z.to_nat k) todo)) + 1 <= dst_len /\
    (exists rest, buf' = pairs ver 0 (take (Z.to_nat k) todo) ++ 0 :: rest) /\
    (k < zlen todo -> dst_len < zlen (pairs ver 0 (take (Z.to_nat (k + 1)) todo)) + 1).
Proof.
  intros [[pad ->] Hc Ht Htl] Hv Hs1 Hs2 Hd.
  rewrite (build_as_full ver l t pad v0) by done.
  destruct (build_full_ok ver (from_runs l s) t pad (zlen l - zlen (from_runs l s)) [] dst
    (dst_len - 1) 0) as (k & buf' & Eb & Hk & Hz & Hfit & Hb & Hm);
    [by apply (from_runs_encodable v0 l (vcn t)); [|lia|]|done|by split|zlia|zlia|].
  cbn [app] in Eb, Hz, Hb. rewrite zlen_nil in Eb. rewrite Eb.
  eexists k, _, buf'. split_and!; [reflexivity|done|lia|lia|done|rewrite zlen_nil in Hfit; lia|done|].
  intros Hlt. specialize (Hm Hlt). rewrite zlen_nil in Hm. lia.
Qed.

Lemma build_spec_witness :
  exists k stop buf', ntfs_mapping_pairs_build 3 (replicate 32 0xff) 32 (Some ex_rl) 2 =
      Ret (buf', build_status k 3, Some stop).
Proof.
  destruct (build_spec 3 ex_rl ex_runs ex_end 0 2 (replicate 32 0xff) 32 ex_rl_ok)
    as (k & stop & buf' & E & _).
  - repeat constructor; unfold LCN_HOLE; cbn; lia.
  - done.
  - done.
  - done.
  - exists k, stop, buf'. exact E.
Defined.

(** The size function walks the runs the encoder encodes. *)
Lemma size_full_ok ver max l t pad prev rls :
  Forall encodable l -> rlen t = 0 -> prev_ok prev ->
  let size := rls + zlen (pairs ver prev l) in
  exists r, size_full ver max (l ++ t :: pad) prev rls = Ret r /\
    (size <= max -> r = size) /\ r <= size /\ (max < size -> max < r).
Proof.
  intros Hl Ht Hp. revert prev rls Hp. induction Hl as [|r l Hr Hl IH]; intros prev rls Hp;
    cbn [size_full app pairs].
  - rewrite Ht. cbn. rewrite zlen_nil. exists rls. split_and!; [done|lia|lia|lia].
  - destruct (dlcn_in_range ver prev r Hr Hp) as (Hd & Es & Hlen).
    pose proof (zlen_nonneg (pairs ver (next_prev ver prev r) l)).
    pose proof (zlen_pair (rlen r) (if has_lcn ver r then Some (lcn r - prev) else None)) as Hzp.
    fold (run_pair ver prev r) in Hzp. pose proof (zlen_nonneg (run_pair ver prev r)).
    rewrite zlen_app. destruct (Z.eqb_spec (rlen r) 0); [destruct Hr; lia|].
    destruct (Z.leb_spec rls max); cbn [negb andb].
    + rewrite (encodable_bad_run _ Hr). fold (has_lcn ver r). rewrite Es.
      rewrite nr_significant_spec by done. unfold next_prev in *.
      destruct (has_lcn ver r); cbn [dlcn_bytes in_s_opt] in *.
      * rewrite nr_significant_spec by done.
        destruct (IH (lcn r) (rls + (1 + zlen (sbytes (rlen r))) + zlen (sbytes (lcn r - prev))))
          as (x & -> & Hx1 & Hx2 & Hx3); [by destruct Hr|].
        exists x. split_and!; [done|lia..].
      * rewrite zlen_nil in Hzp.
        destruct (IH prev (rls + (1 + zlen (sbytes (rlen r)))) Hp) as (x & -> & Hx1 & Hx2 & Hx3).
        exists x. split_and!; [done|lia..].
    + exists rls. split_and!; [done|lia|lia|lia].
Qed.

Lemma size_as_full ver max l t pad v0 s :
  contig v0 l (vcn t) -> rlen t = 0 -> Forall on_volume l -> 0 <= v0 <= s -> s <= vcn t ->
  1 <= max ->
  ntfs_get_size_for_mapping_pairs ver (Some (l ++ t :: pad)) s max =
  size_full ver max (from_runs l s ++ t :: pad) 0 1.
Proof.
  intros Hc Ht Hv Hs1 Hs2 Hmax. unfold ntfs_get_size_for_mapping_pairs.
  destruct (Z.ltb_spec s 0); [lia|].
  pose proof (from_runs_encodable v0 l (vcn t) s Hc ltac:(lia) Hv) as Henc.
  destruct (skip_to_ok v0 l t pad s 0 Hc Ht ltac:(lia))
    as (l1 & l2 & -> & -> & [(-> & -> & E)|(r & l3 & -> & Hr & E)]); cbn [obind]; rewrite Z.add_0_l, E in *.
  - rewrite <- (assoc_L (++)). cbn [app]. rewrite rd_app_here by done. cbn [obind].
    rewrite Ht, Z.ltb_irrefl. cbn [Z.eqb andb orb]. by rewrite drop_app_length' by zlia.
  - rewrite <- (assoc_L (++)), <- app_comm_cons. rewrite rd_app_here by done. cbn [obind].
    apply Forall_app in Hv as [_ Hv]. apply Forall_cons in Hv as [(Hr1 & Hr2 & Hr3) Hv].
    destruct (Z.eqb_spec (rlen r) 0); [lia|]. destruct (Z.ltb_spec s (vcn r)); [lia|]. cbn [andb orb].
    destruct (Z.ltb_spec (vcn r) s).
    + rewrite encodable_bad_run by (unfold encodable; lia).
      apply Forall_cons in Henc as [Hcut _].
      cbn [size_full app]. rewrite (encodable_bad_run _ Hcut).
      fold (has_lcn ver r). fold (has_lcn ver (cut_head r s)). rewrite has_lcn_cut by lia.
      change (rlen (cut_head r s)) with (rlen r - (s - vcn r)).
      destruct (Z.eqb_spec (rlen r - (s - vcn r)) 0); [lia|]. rewrite Z.sub_0_r.
      destruct (Z.leb_spec 1 max); [|lia]. cbn [negb andb].
      assert (s64 (lcn (cut_head r s)) = (if 0 <=? lcn r then s64 (lcn r + (s - vcn r)) else lcn r))
        as Elcn.
      { cbn. destruct (Z.leb_spec 0 (lcn r)); [done|]. apply wraps_small; [lia|].
        unfold in_s, LCN_HOLE in *. cbn. lia. }
      assert (s64 (lcn (cut_head r s)) = lcn (cut_head r s)) as Elcn2.
      { destruct Hcut as [_ Hcut]. apply wraps_small; [lia|]. unfold in_s, LCN_HOLE in *. cbn -[lcn] in *. lia. }
      rewrite Elcn2 in *. rewrite <- Elcn.
      assert (drop (Z.to_nat (zlen l1 + 1)) (l1 ++ r :: l3 ++ t :: pad) = l3 ++ t :: pad) as ->.
      { rewrite (cons_middle r), (assoc_L (++)), drop_app_length'; [done|].
        rewrite length_app. cbn. zlia. }
      by destruct (has_lcn ver r).
    + assert (s = vcn r) as -> by lia. rewrite cut_head_same in *.
      by rewrite drop_app_length' by zlia.
Qed.

Lemma pairs_take_le ver prev l n : zlen (pairs ver prev (take n l)) <= zlen (pairs ver prev l).
Proof.
  revert prev n. induction l as [|r l IH]; intros prev [|n]; cbn [take pairs]; [zlia..|].
  rewrite !zlen_app. specialize (IH (next_prev ver prev r) n). lia.
Qed.

(** Size and encoder agree.  The size that [ntfs_get_size_for_mapping_pairs]
    returns is exactly what [ntfs_mapping_pairs_build] needs: if it is at most
    the size of the buffer the build succeeds, otherwise it fails with
    ENOSPC. *)
Theorem size_build_agree ver rl l t v0 s dst dst_len :
  rl_ok rl l t v0 -> Forall on_volume l -> 0 <= v0 <= s -> s <= vcn t ->
  1 <= dst_len <= zlen dst ->
  exists size buf' stop,
    ntfs_get_size_for_mapping_pairs ver (Some rl) s dst_len = Ret size /\
    ntfs_mapping_pairs_build ver dst dst_len (Some rl) s =
      Ret (buf', if size <=? dst_len then None else Some ENOSPC, Some stop) /\
    (size <= dst_len -> exists rest, buf' = pairs ver 0 (from_runs l s) ++ 0 :: rest /\
       zlen (pairs ver 0 (from_runs l s)) + 1 = size).
Proof.
  intros [[pad ->] Hc Ht Htl] Hv Hs1 Hs2 Hd.
  pose proof (from_runs_encodable v0 l (vcn t) s Hc ltac:(lia) Hv) as Henc.
  rewrite (build_as_full ver l t pad v0) by done.
  rewrite (size_as_full ver dst_len l t pad v0) by (done || lia).
  destruct (size_full_ok ver dst_len (from_runs l s) t pad 0 1) as (size & -> & H1 & H2 & H3);
    [done|done|by split|].
  destruct (build_full_ok ver (from_runs l s) t pad (zlen l - zlen (from_runs l s)) [] dst
    (dst_len - 1) 0) as (k & buf' & Eb & Hk & Hz & Hfit & (rest & Hb) & Hm);
    [done|done|by split|zlia|zlia|].
  cbn [app] in Eb, Hz, Hb. rewrite zlen_nil in Eb, Hm, Hfit. rewrite Eb.
  set (todo := from_runs l s) in *. set (full := zlen (pairs ver 0 todo)) in *.
  assert ((k = zlen todo /\ full + 1 <= dst_len) \/ (k <> zlen todo /\ dst_len < full + 1)) as Hcase.
  { destruct (Z.eq_dec k (zlen todo)) as [->|Hne].
    - left. rewrite take_ge in Hfit by zlia. unfold full. split; lia.
    - right. specialize (Hm ltac:(lia)).
      pose proof (pairs_take_le ver 0 todo (Z.to_nat (k + 1))). unfold full. split; lia. }
  exists size, buf'. eexists. split_and!; [done| |].
  - f_equal. f_equal. f_equal. unfold build_status. destruct (Z.eqb_spec k (zlen todo)), (Z.leb_spec size dst_len);
      done || lia.
  - intros. destruct Hcase as [[-> Hc1]|]; [|lia]. exists rest. rewrite take_ge in Hb by zlia.
    split; [done|lia].
Qed.

Lemma size_build_agree_witness :
  exists size buf' stop,
    ntfs_get_size_for_mapping_pairs 3 (Some ex_rl) 2 8 = Ret size /\
    ntfs_mapping_pairs_build 3 (replicate 8 0xff) 8 (Some ex_rl) 2 =
      Ret (buf', if size <=? 8 then None else Some ENOSPC, Some stop).
Proof.
  destruct (size_build_agree 3 ex_rl ex_runs ex_end 0 2 (replicate 8 0xff) 8 ex_rl_ok)
    as (size & buf' & stop & E1 & E2 & _).
  - repeat constructor; unfold LCN_HOLE; cbn; lia.
  - done.
  - done.
  - done.
  - exists size, buf', stop. exact (conj E1 E2).
Defined.

(** ** Correctness of the decoder *)
Lemma read_down_app n m mem pos d :
  read_down (n + m) mem pos d =
  let! d' := read_down n mem pos d in read_down m mem (pos - Z.of_nat n) d'.
Proof.
  revert pos d. induction n as [|n IH]; intros pos d; cbn [Nat.add read_down obind].
  - by rewrite Z.sub_0_r.
  - destruct (rd mem pos); [|done..]. cbn [obind]. rewrite IH.
    by replace (pos - Z.of_nat (S n)) with (pos - 1 - Z.of_nat n) by lia.
Qed.

Lemma read_sig k n F B :
  in_s 64 n -> - 2 ^ (8 * Z.of_nat k + 7) <= n < 2 ^ (8 * Z.of_nat k + 7) ->
  (let! top := rd (F ++ sig k n ++ B) (zlen F + zlen (sig k n) - 1) in
   read_down (length (sig k n) - 1) (F ++ sig k n ++ B) (zlen F + zlen (sig k n) - 2) (s8 top))
  = Ret n.
Proof.
  revert n F. induction k as [|k IH]; intros n F H64 Hn.
  - change (2 ^ _) with 128 in Hn. cbn [sig].
    assert ((0x7f <? n) || (n <? -0x80) = false) as -> by lia.
    cbn [app]. rewrite rd_app_here by zlia. cbn [obind length Nat.sub read_down]. f_equal. apply s8_u8. lia.
  - replace (8 * Z.of_nat (S k) + 7) with (8 + (8 * Z.of_nat k + 7)) in Hn by lia.
    rewrite Z.pow_add_r in Hn by lia. change (2 ^ 8) with 256 in Hn. cbn [sig].
    destruct ((0x7f <? n) || (n <? -0x80)) eqn:E.
    + specialize (IH (Z.shiftr n 8) (F ++ [u8 n])). rewrite shiftr8 in *.
      set (bs := sig k (n / 256)) in *.
      assert (F ++ (u8 n :: bs) ++ B = (F ++ [u8 n]) ++ bs ++ B) as -> by (by rewrite <- (assoc_L (++) F)).
      replace (zlen F + zlen (u8 n :: bs) - 1) with (zlen (F ++ [u8 n]) + zlen bs - 1) by zlia.
      replace (zlen F + zlen (u8 n :: bs) - 2) with (zlen (F ++ [u8 n]) + zlen bs - 2) by zlia.
      assert (0 < length bs)%nat by (unfold bs; destruct k; cbn; lia).
      replace (length (u8 n :: bs) - 1)%nat with (length bs - 1 + 1)%nat by (cbn; lia).
      specialize (IH ltac:(unfold in_s in *; cbn in *; dlia)).
      destruct (rd _ _) as [top| |]; cbn [obind] in *;
        [|set (p := 2 ^ (8 * Z.of_nat k + 7)) in *; clearbody p; discriminate IH; dlia..].
      rewrite read_down_app, IH by (set (p := 2 ^ (8 * Z.of_nat k + 7)) in *; clearbody p; dlia).
      cbn [obind read_down]. rewrite <- (assoc_L (++)). cbn [app].
      rewrite rd_app_here by (cbn; zlia). cbn [obind]. f_equal.
      rewrite Z.shiftl_mul_pow2 by lia. change (2 ^ 8) with 256.
      replace (n / 256 * 256 + u8 n) with n by (unfold wrapu; change (2 ^ 8) with 256; dlia).
      by apply wraps_small.
    + cbn [app]. rewrite rd_app_here by zlia. cbn [obind length Nat.sub read_down]. f_equal. apply s8_u8. lia.
Qed.

(** A number between [lo] and [hi] reads back. *)
Lemma read_number_ok F n B buf lo hi :
  in_s 64 n -> buf + lo + 1 = zlen F -> hi = lo + zlen (sbytes n) ->
  read_number (F ++ sbytes n ++ B) buf lo hi = Ret n.
Proof.
  intros H H1 ->. pose proof (sbytes_length _ H). unfold read_number.
  replace (buf + (lo + zlen (sbytes n))) with (zlen F + zlen (sbytes n) - 1) by lia.
  replace (zlen F + zlen (sbytes n) - 1 - 1) with (zlen F + zlen (sbytes n) - 2) by lia.
  replace (Z.to_nat (lo + zlen (sbytes n) - 1 - lo)) with (length (sbytes n) - 1)%nat by zlia.
  apply (read_sig 8); [done|]. unfold in_s in H. cbn in *. lia.
Qed.

Lemma header_nibbles c l :
  0 <= c <= 8 -> 0 <= l <= 8 ->
  Z.land (c * 16 + l) 0xf = l /\ Z.land (Z.shiftr (c * 16 + l) 4) 0xf = c /\
  (Z.land (c * 16 + l) 0xf0 =? 0) = (c =? 0).
Proof.
  intros Hc Hl.
  assert (forall x, 0 <= x <= 8 -> x = 0 \/ x = 1 \/ x = 2 \/ x = 3 \/ x = 4 \/ x = 5 \/ x = 6
    \/ x = 7 \/ x = 8) as H by lia.
  destruct (H c Hc) as [->|[->|[->|[->|[->|[->|[->|[->| ->]]]]]]]],
    (H l Hl) as [->|[->|[->|[->|[->|[->|[->|[->| ->]]]]]]]]; repeat split; reflexivity.
Qed.

(** The decoder's view of one pair. *)
Lemma decode_pair_fields F B len d attr_end :
  in_s 64 len -> in_s_opt d -> zlen F + zlen (pair len d) <= attr_end ->
  let mem := F ++ pair len d ++ B in
  exists h, rd mem (zlen F) = Ret h /\ h <> 0 /\
    zlen F + (Z.land h 0xf + Z.land (Z.shiftr h 4) 0xf + 1) = zlen F + zlen (pair len d) /\
    decode_length mem attr_end (zlen F) = Ret len /\
    forall lcn, in_s 64 lcn ->
      match d with
      | None => decode_lcn mem attr_end (zlen F) lcn = Ret (LCN_HOLE, lcn)
      | Some d => in_s 64 (lcn + d) -> -1 <= lcn + d ->
          decode_lcn mem attr_end (zlen F) lcn = Ret (lcn + d, lcn + d)
      end.
Proof.
  intros Hlen Hd Hend mem. pose proof (sbytes_length _ Hlen) as Hl.
  pose proof (dlcn_bytes_length _ Hd) as Hc. rewrite zlen_pair in Hend |- *.
  destruct (header_nibbles (zlen (dlcn_bytes d)) (zlen (sbytes len)) ltac:(lia) ltac:(lia))
    as (E1 & E2 & E3).
  set (h := zlen (dlcn_bytes d) * 16 + zlen (sbytes len)) in *.
  assert (mem = F ++ h :: sbytes len ++ dlcn_bytes d ++ B) as Emem.
  { unfold mem, pair. fold (dlcn_bytes d). fold h. by rewrite <- app_comm_cons, <- (assoc_L (++)). }
  assert (rd mem (zlen F) = Ret h) as Eh by (rewrite Emem; by apply rd_app_here).
  exists h. split_and!; [done|unfold h; lia|lia| |].
  - unfold decode_length. rewrite Eh. cbn [obind]. rewrite E1.
    destruct (Z.eqb_spec (zlen (sbytes len)) 0); [lia|]. cbn [negb].
    destruct (Z.ltb_spec attr_end (zlen F + zlen (sbytes len))); [lia|].
    rewrite Emem, (cons_middle h), (assoc_L (++) F). apply read_number_ok; [done|zlia|lia].
  - intros lcn Hlcn. unfold decode_lcn. rewrite Eh. cbn [obind]. rewrite E3, E2, E1.
    destruct d as [d|]; cbn [dlcn_bytes in_s_opt] in *.
    + intros Hr Hge. pose proof (sbytes_length _ Hd). destruct (Z.eqb_spec (zlen (sbytes d)) 0); [lia|].
      destruct (Z.ltb_spec attr_end (zlen F + (zlen (sbytes len) + zlen (sbytes d)))); [lia|].
      rewrite Emem, (cons_middle h), (assoc_L (++) F), (assoc_L (++) _ (sbytes len)).
      rewrite (read_number_ok _ d) by (done || zlia). cbn [obind].
      rewrite wraps_small by (done || lia).
      destruct (Z.ltb_spec (lcn + d) (-1)); [lia|done].
    + rewrite zlen_nil. done.
Qed.

(** The output block: whole pages, with room for two more elements. *)
Definition out_ok (rl : runlist) (rlpos rlsize : Z) : Prop :=
  zlen rl = rlsize / sizeof_run /\ 0x1000 <= rlsize /\ 0 <= rlpos /\ rlpos + 2 <= zlen rl.

(** Growing keeps the elements and leaves room for three more. *)
Lemma grow_output_ok (alloc : heap run) rl rlpos rlsize :
  (forall n, alloc n = true) -> readable alloc -> out_ok rl rlpos rlsize ->
  exists rl' rlsize', grow_output alloc rl rlpos rlsize = Ret (rl', rlsize') /\
    zlen rl' = rlsize' / sizeof_run /\ 0x1000 <= rlsize' /\ rlpos + 3 <= zlen rl' /\
    zlen rl <= zlen rl' /\ take (length rl) rl' = rl.
Proof.
  unfold out_ok, sizeof_run. intros Ha Hrd (Hz & Hs & H0 & Hp). unfold grow_output, sizeof_run.
  destruct (Z.ltb_spec rlsize ((rlpos + 3) * 24)).
  - destruct (realloc_block_ok alloc rl (rlsize + 0x1000) ((rlsize + 0x1000) / 24) Hrd (Ha _)) as (junk & -> & Hj); [dlia|].
    cbn [obind]. eexists _, _. split; [reflexivity|]. rewrite zlen_app. pose proof (zlen_nonneg junk).
    split_and!; [lia|lia|dlia|lia|by rewrite take_app_length].
  - exists rl, rlsize. split_and!; [done|done|lia|dlia|lia|by rewrite firstn_all].
Qed.

Lemma out_ok_next (rl rl' : runlist) rlpos rlsize :
  zlen rl = rlsize / sizeof_run -> 0x1000 <= rlsize -> 0 <= rlpos -> rlpos + 3 <= zlen rl ->
  zlen rl' = zlen rl -> out_ok rl' (rlpos + 1) rlsize.
Proof. unfold out_ok. lia. Qed.

(** One round of the loop decodes one run behind those already there. *)
Lemma decode_pair_ok (alloc : heap run) ver prev r F B attr_end O g rlsize :
  (forall n, alloc n = true) -> readable alloc -> encodable r -> prev_ok prev ->
  0 <= vcn r -> vcn r + rlen r < 2 ^ 62 -> zlen O + 1 < 65536 ->
  out_ok (O ++ g) (zlen O) rlsize ->
  zlen F + zlen (run_pair ver prev r) <= attr_end ->
  exists g' rlsize',
    decode_pair alloc (F ++ run_pair ver prev r ++ B) attr_end
      (mkd (O ++ g) rlsize (zlen O) (vcn r) prev (zlen F)) =
    Ret (mkd ((O ++ [r]) ++ g') rlsize' (zlen (O ++ [r])) (vcn r + rlen r)
           (next_prev ver prev r) (zlen (F ++ run_pair ver prev r))) /\
    out_ok ((O ++ [r]) ++ g') (zlen (O ++ [r])) rlsize'.
Proof.
  intros Ha Hrd Hr Hp Hv Hv2 HO Hout Hend.
  destruct (dlcn_in_range ver prev r Hr Hp) as (Hd & Es & Hlen).
  destruct (decode_pair_fields F B _ _ attr_end Hlen Hd Hend) as (h & Eh & Hh & Ebuf & Elen & Elcn).
  fold (run_pair ver prev r) in *.
  unfold decode_pair. cbn [d_rl d_rlpos d_rlsize d_vcn d_lcn d_buf].
  destruct (grow_output_ok alloc _ _ _ Ha Hrd Hout) as (rl' & rlsize' & -> & Hz & Hs & Hroom & Hle & Etk).
  cbn [obind].
  assert (exists x g', rl' = O ++ x :: g') as (x & g' & ->).
  { assert (rl' = O ++ drop (length O) rl') as E.
    { rewrite <- (take_drop (length O) rl') at 1. f_equal.
      apply (f_equal (take (length O))) in Etk.
      rewrite take_take, take_app_length, Nat.min_l in Etk; [done|]. rewrite length_app. lia. }
    destruct (drop (length O) rl') as [|x g'] eqn:Ed; [|eauto].
    apply (f_equal length) in Ed. rewrite length_drop in Ed. cbn in Ed. zlia. }
  rewrite upd_here by done. cbn [obind]. rewrite Elen. cbn [obind].
  destruct Hr as [Hr1 Hr2]. destruct (Z.ltb_spec (rlen r) 0); [lia|].
  rewrite upd_here by done. cbn [obind].
  assert (decode_lcn (F ++ run_pair ver prev r ++ B) attr_end (zlen F) prev =
    Ret (lcn r, next_prev ver prev r)) as ->.
  { unfold prev_ok, LCN_HOLE in *. specialize (Elcn prev ltac:(unfold in_s; cbn; lia)).
    unfold next_prev. destruct (has_lcn ver r) eqn:Eh2.
    - rewrite Elcn by (unfold in_s; cbn; lia). by replace (prev + (lcn r - prev)) with (lcn r) by lia.
    - rewrite Elcn. unfold has_lcn in Eh2. f_equal. f_equal. unfold LCN_HOLE. lia. }
  cbn [obind]. rewrite upd_here by done. cbn [obind]. rewrite Eh. cbn [obind].
  rewrite Ebuf. rewrite wraps_small by (unfold in_s; cbn; lia || lia).
  rewrite wrapu_small by (unfold in_u; zlia).
  exists g', rlsize'. split.
  - rewrite !zlen_app, <- (assoc_L (++)). cbn [app]. repeat f_equal. by destruct r.
  - rewrite zlen_app. eapply (out_ok_next (O ++ x :: g')); [done|done|zlia|zlia|]. zlia.
Qed.

(** The whole loop decodes the pairs of a list. *)
Lemma decode_loop_ok (alloc : heap run) ver l prev v e F B attr_end O g rlsize fuel :
  (forall n, alloc n = true) -> readable alloc -> Forall encodable l -> prev_ok prev ->
  contig v l e -> 0 <= v -> e < 2 ^ 62 -> zlen O + zlen l < 65536 ->
  out_ok (O ++ g) (zlen O) rlsize -> zlen F + zlen (pairs ver prev l) < attr_end ->
  (length l <= fuel)%nat ->
  exists g' rlsize' lcn',
    decode_loop alloc fuel (F ++ pairs ver prev l ++ 0 :: B) attr_end
      (mkd (O ++ g) rlsize (zlen O) v prev (zlen F)) =
    Ret (mkd ((O ++ l) ++ g') rlsize' (zlen (O ++ l)) e lcn' (zlen F + zlen (pairs ver prev l))) /\
    out_ok ((O ++ l) ++ g') (zlen (O ++ l)) rlsize'.
Proof.
  intros Ha Hrd Hl Hp Hc Hv He HO Hout Hend Hf. revert prev v F O g rlsize fuel Hp Hc Hv HO Hout Hend Hf.
  induction Hl as [|r l Hr Hl IH]; intros prev v F O g rlsize fuel Hp Hc Hv HO Hout Hend Hf;
    cbn [pairs] in *.
  - cbn in Hc. subst v. exists g, rlsize, prev. rewrite app_nil_r. cbn [app].
    destruct fuel; cbn [decode_loop d_buf]; (destruct (Z.ltb_spec (zlen F) attr_end); [|zlia]);
      rewrite rd_app_here by done; cbn [obind Z.eqb]; by rewrite zlen_nil, Z.add_0_r.
  - destruct Hc as (<- & Hrl & Hc). pose proof (contig_le _ _ _ Hc).
    destruct fuel as [|fuel]; [cbn in Hf; lia|]. cbn [decode_loop d_buf].
    rewrite <- (assoc_L (++) (run_pair ver prev r)).
    set (B' := pairs ver (next_prev ver prev r) l ++ 0 :: B).
    destruct (dlcn_in_range ver prev r Hr Hp) as (Hd & Es & Hlen).
    destruct (decode_pair_fields F B' _ _ attr_end Hlen Hd) as (h & Eh & Hh & _).
    { fold (run_pair ver prev r). zlia. }
    fold (run_pair ver prev r) in Eh.
    destruct (Z.ltb_spec (zlen F) attr_end); [|zlia]. rewrite Eh. cbn [obind].
    destruct (Z.eqb_spec h 0); [done|].
    destruct (decode_pair_ok alloc ver prev r F B' attr_end O g rlsize Ha Hrd)
      as (g1 & rlsize1 & -> & Hout1); [done|done|done|lia|zlia|done|zlia|].
    cbn [obind]. unfold B'. rewrite (assoc_L (++) F).
    destruct (IH (next_prev ver prev r) (vcn r + rlen r) (F ++ run_pair ver prev r) (O ++ [r]) g1
      rlsize1 fuel) as (g' & rlsize' & lcn' & E & Hout');
      [by apply next_prev_ok|done|lia|zlia|done|zlia|cbn in Hf; lia|].
    exists g', rlsize', lcn'. rewrite E. rewrite <- !(assoc_L (++) O) in *. cbn [app] in *.
    split; [|done]. do 2 f_equal. zlia.
Qed.

Lemma zlen_pairs_ge ver prev l : zlen l <= zlen (pairs ver prev l).
Proof.
  revert prev. induction l as [|r l IH]; intros prev; cbn [pairs]; [zlia|].
  specialize (IH (next_prev ver prev r)). unfold run_pair. pose proof (zlen_pair (rlen r)
    (if has_lcn ver r then Some (lcn r - prev) else None)).
  pose proof (zlen_nonneg (sbytes (rlen r))).
  pose proof (zlen_nonneg (dlcn_bytes (if has_lcn ver r then Some (lcn r - prev) else None))). zlia.
Qed.

(** The terminator of a decoded run list and the unmapped run in front of
    it. *)
Definition tail_runs (s e total : Z) : runlist :=
  if (s =? 0) && (e <? total) then [mkrun e LCN_RL_NOT_MAPPED (total - e)] else [].
Definition tail_end (s e total : Z) : run :=
  if s =? 0 then mkrun (Z.max e total) LCN_ENOENT 0 else mkrun e LCN_RL_NOT_MAPPED 0.

(** The length of the attribute, of which [total] clusters are allocated, that its base extent
    of [e] clusters gives: a highest vcn of 0, that of one cluster, is taken for a single extent. *)
Definition known (e total : Z) : Z := if e =? 1 then 1 else total.

Lemma known_ge e total : e <= total -> e <= known e total.
Proof. unfold known. destruct (Z.eqb_spec e 1); lia. Qed.

Lemma decode_finish_ok bits attr O g rlsize e lc buf total :
  out_ok (O ++ g) (zlen O) rlsize -> zlen O + 2 < 65536 -> buf < a_length attr ->
  a_highest_vcn attr = e - 1 -> 0 <= e < 2 ^ 62 -> 0 <= bits ->
  (a_lowest_vcn attr = 0 -> a_allocated_size attr = total * 2 ^ bits /\ e <= total /\
     (total + 1) * 2 ^ bits < 2 ^ 63) ->
  exists pad, decode_finish (2 ^ bits) bits attr (mkd (O ++ g) rlsize (zlen O) e lc buf) =
    Ret ((O ++ tail_runs (a_lowest_vcn attr) e (known e total)) ++ tail_end (a_lowest_vcn attr) e (known e total) :: pad).
Proof.
  intros (_ & _ & _ & Hroom) HO Hbuf Hhi He Hbits Hbase.
  destruct g as [|x [|y g]]; [zlia|zlia|].
  unfold decode_finish. cbn [d_rl d_rlpos d_vcn d_buf].
  destruct (Z.leb_spec (a_length attr) buf); [lia|]. rewrite Hhi.
  rewrite wraps_small by (unfold in_s; cbn; lia || lia). rewrite Z.eqb_refl, andb_false_r.
  unfold tail_runs, tail_end. destruct (Z.eqb_spec (a_lowest_vcn attr) 0) as [E0|E0]; cbn [andb].
  - destruct (Hbase E0) as (Ea & Het & Hmax). assert (0 < 2 ^ bits) by lia.
    rewrite Ea. rewrite (wraps_small 64 (total * 2 ^ bits + 2 ^ bits - 1)) by (unfold in_s; cbn; nia || lia).
    rewrite Z.shiftr_div_pow2 by lia.
    replace (total * 2 ^ bits + 2 ^ bits - 1) with (2 ^ bits - 1 + total * 2 ^ bits) by lia.
    rewrite Z.div_add, (Z.div_small (2 ^ bits - 1)) by lia. rewrite Z.add_0_l.
    assert (total < 2 ^ 63) by nia.
    rewrite wraps_small by (unfold in_s; cbn; lia || lia).
    destruct (Z.eqb_spec (e - 1) 0); cbn [negb].
    + cbn [obind]. rewrite upd_here by done. cbn [obind]. rewrite upd_here by done.
      assert (known e total = e) as -> by (unfold known; destruct (Z.eqb_spec e 1); lia). rewrite Z.ltb_irrefl, Z.max_id, app_nil_r. by exists (y :: g).
    + assert (known e total = total) as -> by (unfold known; destruct (Z.eqb_spec e 1); lia). destruct (Z.ltb_spec (e - 1) (total - 1)).
      * rewrite wraps_small by (unfold in_s; cbn; lia || lia).
        rewrite upd_here by done. cbn [obind]. rewrite upd_here by done. cbn [obind].
        rewrite wrapu_small by (unfold in_u; zlia). rewrite wraps_small by (unfold in_s; cbn; lia || lia).
        unfold set_lcn at 1. cbn [vcn rlen lcn].
        destruct (Z.ltb_spec e total); [|lia].
        rewrite (cons_middle _ O), (assoc_L (++)). rewrite upd_here by zlia. cbn [obind].
        rewrite upd_here by zlia. exists g. cbn [vcn rlen lcn set_lcn].
        replace (total - 1 - (e - 1)) with (total - e) by lia.
        replace (e + (total - e)) with (Z.max e total) by lia. done.
      * destruct (Z.ltb_spec (total - 1) (e - 1)); [lia|]. cbn [obind].
        rewrite upd_here by done. cbn [obind]. rewrite upd_here by done.
        assert (total = e) as -> by lia. rewrite Z.ltb_irrefl, Z.max_id, app_nil_r. by exists (y :: g).
  - rewrite upd_here by done. cbn [obind]. rewrite upd_here by done. rewrite app_nil_r.
    by exists (y :: g).
Qed.

(** The meaning of a decoded run list. *)
Definition front_runs (s : Z) : runlist :=
  if s =? 0 then [] else [mkrun 0 LCN_RL_NOT_MAPPED s].

Lemma decoded_ok s todo e total pad :
  0 <= s -> contig s todo e -> (s = 0 -> e <= total) ->
  rl_ok (((front_runs s ++ todo) ++ tail_runs s e total) ++ tail_end s e total :: pad)
    ((front_runs s ++ todo) ++ tail_runs s e total) (tail_end s e total) 0.
Proof.
  intros Hs Hc Ht. pose proof (contig_le _ _ _ Hc). split.
  - by eexists.
  - apply contig_app. exists e. split.
    + apply contig_app. exists s. split; [|done].
      unfold front_runs. destruct (Z.eqb_spec s 0); cbn; lia.
    + unfold tail_runs, tail_end. destruct (Z.eqb_spec s 0) as [E0|]; cbn [andb]; [|done].
      specialize (Ht E0). destruct (Z.ltb_spec e total); cbn; lia.
  - unfold tail_end. by destruct (s =? 0).
  - unfold tail_end. by destruct (s =? 0).
Qed.

Lemma decoded_lcn v0 l t s total v :
  contig v0 l (vcn t) -> 0 <= v0 <= s -> s <= vcn t -> 0 <= v -> (s = 0 -> vcn t <= total) ->
  lcn_of ((front_runs s ++ from_runs l s) ++ tail_runs s (vcn t) total) (tail_end s (vcn t) total) v =
  if v <? s then LCN_RL_NOT_MAPPED
  else if v <? vcn t then lcn_of l t v
  else if (s =? 0) && (total <=? v) then LCN_ENOENT else LCN_RL_NOT_MAPPED.
Proof.
  intros Hc Hs Hs2 Hv Ht. unfold lcn_of. rewrite !find_lcn_app.
  assert (find_lcn (front_runs s) v = if v <? s then Some LCN_RL_NOT_MAPPED else None) as ->.
  { unfold front_runs. destruct (Z.eqb_spec s 0); cbn [find_lcn].
    - destruct (Z.ltb_spec v s); [lia|done].
    - destruct (Z.ltb_spec v s).
      + by rewrite (proj2 (in_run_true _ _)) by (cbn; lia).
      + by rewrite (proj2 (in_run_false _ _)) by (cbn; lia). }
  destruct (Z.ltb_spec v s); [done|].
  rewrite (find_lcn_from v0 l (vcn t)) by (done || lia).
  destruct (Z.ltb_spec v (vcn t)) as [Hvt|Hvt].
  - destruct (find_lcn_in _ _ _ v Hc) as [x ->]; [lia|done].
  - rewrite (find_lcn_out _ _ _ v Hc) by lia. unfold tail_runs, tail_end.
    destruct (Z.eqb_spec s 0) as [E0|E0]; cbn [andb find_lcn vcn lcn].
    + specialize (Ht E0). destruct (Z.ltb_spec (vcn t) total).
      * cbn [find_lcn]. unfold in_run, run_lcn. cbn [vcn rlen lcn].
        destruct (Z.leb_spec (vcn t) v); [|lia]. cbn [andb].
        destruct (Z.ltb_spec v (vcn t + (total - vcn t))), (Z.leb_spec total v); try lia; [done|].
        destruct (Z.leb_spec (Z.max (vcn t) total) v); done || lia.
      * cbn [find_lcn]. destruct (Z.leb_spec (Z.max (vcn t) total) v), (Z.leb_spec total v);
          done || lia.
    + destruct (Z.leb_spec (vcn t) v); done || lia.
Qed.

(** C2. Round trip.  Let [ntfs_mapping_pairs_build] store the run list from
    the vcn [s] on in the mapping pairs array of an attribute record that says
    so (lowest vcn [s], highest vcn the last one, and, in the base extent, an
    allocated size of [total] clusters).  Then [ntfs_mapping_pairs_decompress]
    gives back a well-formed run list that maps every cluster from [s] on as
    the original does, says LCN_RL_NOT_MAPPED for those of other extents and
    LCN_ENOENT for those past the end, which, for a base extent of exactly one
    cluster, it takes to be 1 whatever [total] is ([known]).  The list has fewer than
    65532 runs on the volume, there is memory, and what [realloc] reads behind the
    block that it grows can be read ([readable]). *)
Theorem build_decompress_roundtrip ver rl l t v0 s dst dst_len buf' stop hdr bits total (alloc : heap run) :
  rl_ok rl l t v0 -> Forall on_volume l -> 0 <= v0 <= s -> s <= vcn t < 2 ^ 62 ->
  1 <= dst_len <= zlen dst -> zlen l + 4 < 65536 ->
  ntfs_mapping_pairs_build ver dst dst_len (Some rl) s = Ret (buf', None, Some stop) ->
  0 <= bits -> (s = 0 -> vcn t <= total /\ (total + 1) * 2 ^ bits < 2 ^ 63) ->
  (forall n, alloc n = true) -> readable alloc ->
  exists rl' l' t',
    ntfs_mapping_pairs_decompress alloc (2 ^ bits) bits
      (mkattr (hdr ++ buf') (zlen hdr + zlen buf') true s (vcn t - 1) (total * 2 ^ bits) (zlen hdr))
      None = Ret rl' /\
    rl_ok rl' l' t' 0 /\
    forall v, 0 <= v -> lcn_of l' t' v =
      if v <? s then LCN_RL_NOT_MAPPED
      else if v <? vcn t then lcn_of l t v
      else if (s =? 0) && (known (vcn t) total <=? v) then LCN_ENOENT else LCN_RL_NOT_MAPPED.
Proof.
  intros Hok Hvol Hs Hs2 Hd Hcount Hbuild Hbits Htotal Ha Hrd.
  destruct (build_spec ver rl l t v0 s dst dst_len Hok Hvol Hs ltac:(lia) Hd)
    as (k & stop' & buf2 & E & _ & Hk & _ & _ & (rest & Er) & _).
  rewrite E in Hbuild. injection Hbuild as -> Est _.
  destruct Hok as [[pad ->] Hc Ht Htl]. set (todo := from_runs l s) in *.
  assert (k = zlen todo) as ->.
  { unfold build_status in Est. destruct (Z.eqb_spec k (zlen todo)); done. }
  rewrite take_ge in Er by zlia. subst buf'.
  pose proof (from_runs_contig v0 l (vcn t) s Hc ltac:(lia)) as Hct. fold todo in Hct.
  pose proof (from_runs_encodable v0 l (vcn t) s Hc ltac:(lia) Hvol) as Hencd. fold todo in Hencd.
  assert (zlen todo <= zlen l) as Hlen by (unfold todo; apply from_runs_length).
  set (front := front_runs s).
  unfold ntfs_mapping_pairs_decompress, ntfs_mapping_pairs_decompress_i.
  set (attr := mkattr _ _ _ _ _ _ _).
  assert (exists g, decode_start alloc attr = Ret (mkd (front ++ g) 0x1000 (zlen front) s 0 (zlen hdr)) /\
    out_ok (front ++ g) (zlen front) 0x1000) as (g & -> & Hout).
  { unfold decode_start, attr, front, front_runs. cbn [a_non_resident a_lowest_vcn a_length a_mapping_pairs_offset negb orb].
    destruct (Z.ltb_spec s 0); [lia|]. destruct (Z.ltb_spec (zlen hdr + zlen (pairs ver 0 todo ++ 0 :: rest)) (zlen hdr)); [zlia|].
    rewrite Ha. cbn [negb]. destruct (Z.eqb_spec s 0) as [->|]; cbn [negb].
    - exists (replicate 170 (mkrun 0 0 0)). split; [done|]. by split_and!.
    - exists (replicate 169 (mkrun 0 0 0)). split; [done|]. by split_and!. }
  cbn [obind a_mem a_length attr].
  destruct (decode_loop_ok alloc ver todo 0 s (vcn t) hdr rest
    (zlen hdr + zlen (pairs ver 0 todo ++ 0 :: rest)) front g 0x1000
    (Z.to_nat (zlen hdr + zlen (pairs ver 0 todo ++ 0 :: rest))))
    as (g' & rlsize' & lcn' & -> & Hout'); [done|done|done|by split|done|lia|lia| |done|zlia| |].
  { unfold front, front_runs. destruct (s =? 0); zlia. }
  { pose proof (zlen_pairs_ge ver 0 todo). zlia. }
  cbn [obind].
  destruct (decode_finish_ok bits attr (front ++ todo) g' rlsize' (vcn t) lcn'
    (zlen hdr + zlen (pairs ver 0 todo)) total) as (pad' & ->); [done| | |done|lia|done| |].
  { unfold front, front_runs. destruct (s =? 0); zlia. }
  { unfold attr. cbn [a_length]. zlia. }
  { unfold attr. cbn [a_lowest_vcn a_allocated_size]. intros E0. split; [done|]. by apply Htotal. }
  cbn [obind]. unfold attr. cbn [a_lowest_vcn].
  eexists _, _, _. split_and!; [reflexivity| |].
  - apply decoded_ok; [lia|done|]. intros E0. by apply known_ge, Htotal.
  - intros v Hv. unfold todo. apply (decoded_lcn v0); [done|lia|lia|lia|].
    intros E0. by apply known_ge, Htotal.
Qed.

(** The run list of the witnesses in a base extent of 12 clusters. *)
Lemma build_decompress_roundtrip_witness :
  exists rl' l' t',
    ntfs_mapping_pairs_decompress (full_heap (mkrun 0 0 0)) 4096 12
      (mkattr ([0; 0] ++ [0x11; 4; 100; 1; 6; 17; 2; 206; 0]) 11 true 0 11 (12 * 4096) 2) None = Ret rl' /\
    rl_ok rl' l' t' 0 /\ lcn_of l' t' 11 = 51 /\ lcn_of l' t' 5 = LCN_HOLE.
Proof.
  destruct (build_decompress_roundtrip 3 ex_rl ex_runs ex_end 0 0 (replicate 9 0) 9
    [0x11; 4; 100; 1; 6; 17; 2; 206; 0] 3 [0; 0] 12 12 (full_heap (mkrun 0 0 0)) ex_rl_ok)
    as (rl' & l' & t' & E & Hok & Hv).
  - repeat constructor; unfold LCN_HOLE; cbn; lia.
  - done.
  - done.
  - done.
  - done.
  - vm_compute. reflexivity.
  - done.
  - done.
  - done.
  - apply readable_full.
  - exists rl', l', t'. refine (conj E (conj Hok (conj (Hv 11 _) (Hv 5 _)))).
    + vm_compute. discriminate.
    + vm_compute. discriminate.
Defined.

(** ** Memory safety of the decoder *)
Section Safety.
Context (alloc : heap run) (mem : bytes) (attr_end : Z).
Context (Hmem : attr_end < zlen mem) (Hread : readable alloc).

Lemma rd_safe {A} (l : list A) i : 0 <= i < zlen l -> safe (fun _ => True) (rd l i).
Proof. intros [a ->]%rd_some. done. Qed.

Lemma upd_safe (l : runlist) i f :
  0 <= i < zlen l -> safe (fun l' => zlen l' = zlen l) (upd l i f).
Proof.
  intros H. unfold upd. destruct (rd_some l i H) as [a ->]. cbn [obind].
  rewrite wr_ok by done. apply zlen_insert.
Qed.

Lemma read_down_safe n pos d :
  0 <= pos - Z.of_nat n + 1 -> pos < zlen mem -> safe (fun _ => True) (read_down n mem pos d).
Proof using All.
  revert pos d. induction n as [|n IH]; intros pos d H1 H2; cbn [read_down]; [done|].
  eapply safe_bind; [apply rd_safe; lia|]. intros x _. apply IH; lia.
Qed.

Lemma read_number_safe buf lo hi :
  0 <= buf -> 0 <= lo <= hi -> buf + hi <= attr_end -> safe (fun _ => True) (read_number mem buf lo hi).
Proof using All.
  intros. unfold read_number. eapply safe_bind; [apply rd_safe; lia|]. intros x _.
  apply read_down_safe; lia.
Qed.

Lemma land_mask h k : 0 <= Z.land h (Z.ones (Z.of_nat k)).
Proof. rewrite Z.land_ones by lia. apply Z.mod_pos_bound. lia. Qed.

Lemma grow_output_safe rl rlpos rlsize :
  out_ok rl rlpos rlsize ->
  safe (fun '(rl', rlsize') => zlen rl' = rlsize' / sizeof_run /\ 0x1000 <= rlsize' /\
          rlpos + 3 <= zlen rl') (grow_output alloc rl rlpos rlsize).
Proof using All.
  intros Hout. destruct (grow_output_ok (Heap (fun _ => true) (behind alloc)) rl rlpos rlsize (fun _ => eq_refl) Hread Hout)
    as (rl' & rlsize' & E & ? & ? & ? & _).
  unfold grow_output, realloc_block in *. destruct (_ <? _); [|by injection E as <- <-].
  destruct (alloc _); [|done]. cbn [pool behind] in E. destruct (rdn _ _ _); try done. by injection E as <- <-.
Qed.

(** One round stays inside of the attribute and of the output block, and
    moves on. *)
Lemma decode_pair_safe s :
  out_ok (d_rl s) (d_rlpos s) (d_rlsize s) -> 0 <= d_buf s < attr_end ->
  safe (fun s' => out_ok (d_rl s') (d_rlpos s') (d_rlsize s') /\ d_buf s < d_buf s')
    (decode_pair alloc mem attr_end s).
Proof using All.
  intros Hout Hbuf. pose proof Hout as (_ & _ & Hpos & _).
  unfold decode_pair.
  eapply safe_bind; [apply (grow_output_safe _ _ _ Hout)|].
  intros [rl1 rlsize1] (Hz & Hsz & Hroom).
  eapply safe_bind; [apply upd_safe; lia|]. intros rl2 H2; cbn beta in H2.
  destruct (rd_some mem (d_buf s) ltac:(lia)) as [h Eh].
  assert (0 <= Z.land h 0xf) as Hh1 by apply (land_mask h 4).
  assert (0 <= Z.land (Z.shiftr h 4) 0xf) as Hh2 by apply (land_mask _ 4).
  eapply safe_bind with (P := fun _ => True).
  { unfold decode_length. rewrite Eh. cbn [obind].
    destruct (negb _); [|done]. destruct (Z.ltb_spec attr_end (d_buf s + Z.land h 0xf)); [done|].
    apply read_number_safe; lia. }
  intros len _. destruct (len <? 0); [done|].
  eapply safe_bind; [apply upd_safe; lia|]. intros rl3 H3; cbn beta in H3.
  eapply safe_bind with (P := fun _ => True).
  { unfold decode_lcn. rewrite Eh. cbn [obind]. destruct (_ =? 0); [done|].
    destruct (Z.ltb_spec attr_end (d_buf s + (Z.land h 0xf + Z.land (Z.shiftr h 4) 0xf))); [done|].
    eapply safe_bind; [apply read_number_safe; lia|]. intros d _. by destruct (_ <? _). }
  intros [l lcn] _.
  eapply safe_bind; [apply upd_safe; lia|]. intros rl4 H4; cbn beta in H4.
  rewrite Eh. cbn. split; [|lia].
  assert (0 <= u16 (d_rlpos s + 1) <= d_rlpos s + 1) by (unfold wrapu; change (2 ^ 16) with 65536; dlia).
  unfold out_ok. lia.
Qed.

Lemma decode_loop_safe fuel s :
  out_ok (d_rl s) (d_rlpos s) (d_rlsize s) -> 0 <= d_buf s -> attr_end - d_buf s <= Z.of_nat fuel ->
  safe (fun s' => out_ok (d_rl s') (d_rlpos s') (d_rlsize s'))
    (decode_loop alloc fuel mem attr_end s).
Proof using All.
  revert s. induction fuel as [|fuel IH]; intros s Hout H0 Hf; cbn [decode_loop];
    (destruct (Z.ltb_spec (d_buf s) attr_end); [|done]); [lia|].
  eapply safe_bind; [apply rd_safe; lia|]. intros h _. destruct (h =? 0); [done|].
  eapply safe_bind; [apply decode_pair_safe; [done|lia]|]. intros s' [Hout' Hlt].
  apply IH; [done|lia|lia].
Qed.
End Safety.

Lemma decode_finish_safe cs bits attr s :
  out_ok (d_rl s) (d_rlpos s) (d_rlsize s) -> safe (fun _ => True) (decode_finish cs bits attr s).
Proof.
  intros (_ & _ & Hpos & Hroom). unfold decode_finish.
  destruct (_ <=? _); [done|]. destruct (_ && _); [done|].
  assert (0 <= u16 (d_rlpos s + 1) <= d_rlpos s + 1) by (unfold wrapu; change (2 ^ 16) with 65536; dlia).
  eapply safe_bind with (P := fun '(rl, rlpos, _) => 0 <= rlpos < zlen rl).
  - destruct (_ =? 0).
    + eapply safe_bind with (P := fun '(rl, rlpos, _) => 0 <= rlpos < zlen rl).
      * destruct (negb _); [|cbn; lia]. destruct (_ <? _).
        -- eapply safe_bind; [apply upd_safe; lia|]. intros rl1 H1; cbn beta in H1.
           eapply safe_bind; [apply upd_safe; lia|]. intros rl2 H2; cbn beta in H2. cbn. lia.
        -- destruct (_ <? _); cbn; [done|lia].
      * intros [[rl rlpos] vcn] Hr. eapply safe_bind; [by apply upd_safe|]. intros rl1 H1; cbn beta in H1. cbn. lia.
    + eapply safe_bind; [apply upd_safe; lia|]. intros rl1 H1; cbn beta in H1. cbn. lia.
  - intros [[rl rlpos] vcn] Hr. eapply safe_weaken; [by apply upd_safe|done].
Qed.

(** C13. Memory safety of the decoder.  Whatever an attribute record holds -
    it comes from the disk - decoding its mapping pairs terminates, writes
    only inside of the run list it allocated and reads no further than one
    byte behind the record, when what [realloc] reads behind the run list that it
    grows can be read ([readable]; Example decompress_grow_overread). *)
Theorem decompress_safe (alloc : heap run) cs bits attr :
  readable alloc ->
  0 <= a_mapping_pairs_offset attr -> a_length attr < zlen (a_mem attr) ->
  safe (fun _ => True) (ntfs_mapping_pairs_decompress alloc cs bits attr None).
Proof.
  intros Hread H0 Hlen. unfold ntfs_mapping_pairs_decompress, ntfs_mapping_pairs_decompress_i.
  eapply safe_bind with
    (P := fun s => out_ok (d_rl s) (d_rlpos s) (d_rlsize s) /\ d_buf s = a_mapping_pairs_offset attr).
  - unfold decode_start. destruct (_ || _); [done|]. destruct (_ <? _); [done|].
    destruct (negb (alloc _)); [done|]. by destruct (negb _).
  - intros s [Hout Hb]. eapply safe_bind; [apply decode_loop_safe; [done|done|done|lia|lia]|].
    intros s' Hout'. eapply safe_bind; [by apply decode_finish_safe|]. done.
Qed.

(** The byte behind the record can really be read: a header that announces a
    length field ending exactly at the end of the record. *)
Example decompress_overread :
  ntfs_mapping_pairs_decompress (full_heap (mkrun 0 0 0)) 4096 12 (mkattr [0; 0x01] 2 true 0 0 0 1) None = Fault.
Proof. vm_compute. reflexivity. Qed.

(** Growing the run list reads behind the old one: 170 runs, and no memory behind the
    block. *)
Example decompress_grow_overread :
  ntfs_mapping_pairs_decompress (Heap (fun _ => true) (fun _ _ => [])) 4096 12
    (mkattr (concat (replicate 170 [0x01; 1]) ++ [0; 0]) 342 true 0 169 (170 * 4096) 0) None = Fault.
Proof. vm_compute. reflexivity. Qed.

(** A base extent of one cluster of an attribute of three: the rest is past the end. *)
Example one_cluster_base :
  exists rl, ntfs_mapping_pairs_decompress (full_heap (mkrun 0 0 0)) 4096 12 (mkattr [0x11; 1; 5; 0; 0] 5 true 0 0 (3 * 4096) 0) None = Ret rl /\
    take 2 rl = [mkrun 0 5 1; mkrun 1 LCN_ENOENT 0].
Proof. vm_compute. eexists. split; reflexivity. Qed.

Lemma decompress_safe_witness :
  safe (fun _ => True)
    (ntfs_mapping_pairs_decompress (full_heap (mkrun 0 0 0)) 4096 12 (mkattr [0; 0x01; 0x55] 2 true 0 0 0 1) None).
Proof. apply decompress_safe; [apply readable_full|cbn; lia|vm_compute; reflexivity]. Defined.
