(* ===== verification/Device.v ===== *)
(** * The device layer (ntfs/device.c)

    [ntfs_pread] and [ntfs_pwrite] repeat the positioned reads and writes of a
    device until everything is transferred; clusters and records are read and
    written through them.  The device itself is an interface,
    [device_operations], with the laws a working device obeys,
    [device_laws]; UefiIo.v implements it. *)
From S2P Require Import Prelude Mst.

(** ** The interface *)

(** device.h:114-126 ntfs_device_operations. The operations that are used for
    data, and the state flags of [struct ntfs_device].  A read gives the bytes
    it stored in the buffer, a write the number of bytes written. *)
Class device_operations (Dev : Type) := {
  op_pread : Dev -> Z -> Z -> Dev * outcome bytes;
  op_pwrite : Dev -> bytes -> Z -> Dev * outcome Z;
  op_sync : Dev -> Dev * outcome unit;
  NDevReadOnly : Dev -> bool;
  NDevDirty : Dev -> bool;
  NDevSync : Dev -> bool;
  NDevSetDirty : Dev -> Dev;
}.

(** The size of a single transfer: sizes in the functions below the device layer are of the
    type [int]; this leaves room for the sectors at the edges. *)
Definition max_io : Z := 2 ^ 31 - 2 ^ 17.

(** A device that works: [dev_bytes] is what it stores.  It may transfer less
    than asked for, but at least one byte. *)
Class device_laws (Dev : Type) `{device_operations Dev} := {
  dev_ok : Dev -> Prop;
  dev_bytes : Dev -> bytes;
  pread_law : forall d pos n,
    dev_ok d -> 0 <= pos -> 0 < n <= max_io -> pos + n <= zlen (dev_bytes d) ->
    exists d' m, op_pread d n pos = (d', Ret (sub (dev_bytes d) pos m)) /\ 0 < m <= n /\
      dev_ok d' /\ dev_bytes d' = dev_bytes d /\ NDevReadOnly d' = NDevReadOnly d;
  pwrite_law : forall d pos b,
    dev_ok d -> NDevReadOnly d = false -> 0 <= pos -> b <> [] -> zlen b <= max_io ->
    pos + zlen b <= zlen (dev_bytes d) ->
    exists d' m, op_pwrite d b pos = (d', Ret m) /\ 0 < m <= zlen b /\
      dev_ok d' /\ dev_bytes d' = splice (dev_bytes d) pos (sub b 0 m) /\
      NDevReadOnly d' = false;
  sync_law : forall d, dev_ok d -> NDevReadOnly d = false ->
    exists d', op_sync d = (d', Ret tt) /\ dev_ok d' /\ dev_bytes d' = dev_bytes d /\
      NDevReadOnly d' = false;
  dirty_law : forall d, dev_ok d -> dev_ok (NDevSetDirty d) /\
    dev_bytes (NDevSetDirty d) = dev_bytes d /\ NDevReadOnly (NDevSetDirty d) = NDevReadOnly d;
}.

Section Ops.
Context {Dev : Type} {ops : device_operations Dev}.

(** device.c:167-178 ntfs_device_sync *)
Definition ntfs_device_sync (dev : Dev) : Dev * outcome unit :=
  if NDevDirty dev then op_sync dev else (dev, Ret tt).

(** device.c:215-226 ntfs_pread. The loop; [acc] are the bytes read so far,
    [total] of them.  Every round reads at least one byte, so [count] rounds
    are enough. *)
Fixpoint pread_loop (fuel : nat) (dev : Dev) (pos count : Z) (acc : bytes) : Dev * outcome bytes :=
  if count =? 0 then (dev, Ret acc)
  else match fuel with
  | O => (dev, Fault)
  | S fuel' =>
    match op_pread dev count (pos + zlen acc) with
    | (dev, Ret br) =>
      if 0 <? zlen br then pread_loop fuel' dev pos (count - zlen br) (acc ++ br)
      else (dev, Ret acc)
    | (dev, Fail e) => (dev, if negb (zlen acc =? 0) then Ret acc else Fail e)
    | (dev, Fault) => (dev, Fault)
    end
  end.

(** device.c:199-228 ntfs_pread. The bytes stored in the buffer, or -1. *)
Definition ntfs_pread (dev : Dev) (pos count : Z) : Dev * outcome bytes :=
  if (count <? 0) || (pos <? 0) then (dev, Fail EINVAL)
  else if count =? 0 then (dev, Ret [])
  else pread_loop (Z.to_nat count) dev pos count [].

(** device.c:271-286 ntfs_pwrite. The loop: [total] when it ends, and the
    errno of a failed write. *)
Fixpoint pwrite_loop (fuel : nat) (dev : Dev) (pos count : Z) (b : bytes) (total : Z)
  : Dev * outcome (Z * errno_t) :=
  if count =? 0 then (dev, Ret (total, EUNSET))
  else match fuel with
  | O => (dev, Fault)
  | S fuel' =>
    match rdn b total count with
    | Ret chunk =>
      match op_pwrite dev chunk (pos + total) with
      | (dev, Ret written) =>
        if 0 <? written then pwrite_loop fuel' dev pos (count - written) b (total + written)
        else (dev, Ret (total, EUNSET))
      | (dev, Fail e) => (dev, if negb (total =? 0) then Ret (total, e) else Ret (-1, e))
      | (dev, Fault) => (dev, Fault)
      end
    | _ => (dev, Fault)
    end
  end.

(** device.c:249-292 ntfs_pwrite. The return value, and errno when it is
    negative. *)
Definition ntfs_pwrite (dev : Dev) (pos count : Z) (b : bytes) : Dev * outcome (Z * errno_t) :=
  if (count <? 0) || (pos <? 0) then (dev, Ret (-1, EINVAL))
  else if count =? 0 then (dev, Ret (0, EUNSET))
  else if NDevReadOnly dev then (dev, Ret (-1, EROFS))
  else
    match pwrite_loop (Z.to_nat count) (NDevSetDirty dev) pos count b 0 with
    | (dev, Ret (total, e)) =>
      if NDevSync dev && negb (total =? 0) then
        match op_sync dev with
        | (dev, Ret _) => (dev, Ret (total, e))
        | (dev, Fail e') => (dev, Ret (total - 1, e'))
        | (dev, Fault) => (dev, Fault)
        end
      else (dev, Ret (total, e))
    | r => r
    end.

(** *** Clusters *)

(** The fields of [ntfs_volume] used for cluster access. *)
Record volume := mkvol { v_nr_clusters : Z; v_cluster_size_bits : Z; NVolReadOnly : bool }.

(** device.c:427-450 ntfs_cluster_read. The bytes read; the code returns their
    number in clusters.  ESPIPE is not distinguished from EINVAL. *)
Definition ntfs_cluster_read (vol : volume) (dev : Dev) (lcn count : Z) : Dev * outcome bytes :=
  if (lcn <? 0) || (count <? 0) then (dev, Fail EINVAL)
  else if v_nr_clusters vol <? lcn + count then (dev, Fail EINVAL)
  else ntfs_pread dev (Z.shiftl lcn (v_cluster_size_bits vol))
         (Z.shiftl count (v_cluster_size_bits vol)).

(** device.c:463-489 ntfs_cluster_write. The number of clusters. *)
Definition ntfs_cluster_write (vol : volume) (dev : Dev) (lcn count : Z) (b : bytes)
  : Dev * outcome (Z * errno_t) :=
  if (lcn <? 0) || (count <? 0) then (dev, Ret (-1, EINVAL))
  else if v_nr_clusters vol <? lcn + count then (dev, Ret (-1, EINVAL))
  else
    let n := Z.shiftl count (v_cluster_size_bits vol) in
    let '(dev, bw) := if negb (NVolReadOnly vol)
      then ntfs_pwrite dev (Z.shiftl lcn (v_cluster_size_bits vol)) n b
      else (dev, Ret (n, EUNSET)) in
    match bw with
    | Ret (bw, e) => (dev, Ret (if bw <? 0 then (bw, e) else (Z.shiftr bw (v_cluster_size_bits vol), e)))
    | r => (dev, r)
    end.

(** *** Records *)

(** The 16-bit words of a buffer, little endian, and back. *)
Fixpoint words_of (b : bytes) : words :=
  match b with
  | lo :: hi :: b' => (lo + 256 * hi) :: words_of b'
  | _ => []
  end.

Fixpoint bytes_of (w : words) : bytes :=
  match w with
  | [] => []
  | x :: w' => x mod 256 :: (x / 256) mod 256 :: bytes_of w'
  end.

(** device.c:343-345 ntfs_mst_pread. The fixup of [n] records from the [i]-th
    on; its result is disregarded. *)
Fixpoint mst_fix_read (n : nat) (i bksize : Z) (b : bytes) : outcome bytes :=
  match n with
  | O => Ret b
  | S n' =>
    let! r := rdn b (i * bksize) bksize in
    let! (_, w) := ntfs_mst_post_read_fixup (words_of r) bksize in
    let! b := wrn b (i * bksize) (bytes_of w) in
    mst_fix_read n' (i + 1) bksize b
  end.

(** device.c:323-348 ntfs_mst_pread. The buffer and the number of complete
    records; a [bksize] of 0 passes the check and is divided by. *)
Definition ntfs_mst_pread (dev : Dev) (pos count bksize : Z) : Dev * outcome (bytes * Z) :=
  if negb (Z.land bksize (u32 (bksize - 1)) =? 0) || negb (bksize mod NTFS_BLOCK_SIZE =? 0)
  then (dev, Fail EINVAL)
  else
    match ntfs_pread dev pos (s64 (count * bksize)) with
    | (dev, Ret b) =>
      (dev, if bksize =? 0 then Fault
            else let n := zlen b / bksize in
                 let! b := mst_fix_read (Z.to_nat n) 0 bksize b in Ret (b, n))
    | (dev, Fail e) => (dev, Fail e)
    | (dev, Fault) => (dev, Fault)
    end.

(** device.c:391-405 ntfs_mst_pwrite. Protecting the records: the buffer and
    how many are protected, or the error of the very first one. *)
Fixpoint mst_fix_write (n : nat) (i bksize : Z) (b : bytes) : outcome (bytes * Z * status) :=
  match n with
  | O => Ret (b, i, None)
  | S n' =>
    let! r := rdn b (i * bksize) bksize in
    let! (st, w) := ntfs_mst_pre_write_fixup (Some (words_of r)) bksize in
    match st, w with
    | None, Some w =>
      let! b := wrn b (i * bksize) (bytes_of w) in mst_fix_write n' (i + 1) bksize b
    | Some e, _ => Ret (b, i, if i =? 0 then Some e else None)
    | None, None => Ret (b, i, None)
    end
  end.

(** device.c:409-411 ntfs_mst_pwrite. Deprotecting them again. *)
Fixpoint mst_unfix (n : nat) (i bksize : Z) (b : bytes) : outcome bytes :=
  match n with
  | O => Ret b
  | S n' =>
    let! r := rdn b (i * bksize) (zlen b - i * bksize) in
    let! w := ntfs_mst_post_write_fixup (words_of r) in
    let! b := wrn b (i * bksize) (bytes_of w) in
    mst_unfix n' (i + 1) bksize b
  end.

(** device.c:380-414 ntfs_mst_pwrite. The buffer afterwards, the return value
    and errno. *)
Definition ntfs_mst_pwrite (dev : Dev) (pos count bksize : Z) (b : bytes)
  : Dev * outcome (bytes * Z * errno_t) :=
  if (count <? 0) || negb (bksize mod NTFS_BLOCK_SIZE =? 0) then (dev, Ret (b, -1, EINVAL))
  else if count =? 0 then (dev, Ret (b, 0, EUNSET))
  else
    match mst_fix_write (Z.to_nat count) 0 bksize b with
    | Ret (b, n, Some e) => (dev, Ret (b, -1, e))
    | Ret (b, n, None) =>
      match ntfs_pwrite dev pos (s64 (n * bksize)) b with
      | (dev, Ret (written, e)) =>
        (dev, let! b := mst_unfix (Z.to_nat n) 0 bksize b in
              if written <=? 0 then Ret (b, written, e)
              else if bksize =? 0 then Fault else Ret (b, written / bksize, e))
      | (dev, Fail e) => (dev, Fail e)
      | (dev, Fault) => (dev, Fault)
      end
    | Fail e => (dev, Fail e)
    | Fault => (dev, Fault)
    end.
End Ops.

(** ** Correctness over a working device *)
Section Laws.
Context {Dev : Type} {ops : device_operations Dev} {laws : device_laws Dev}.

Lemma pread_loop_ok fuel d pos count acc :
  dev_ok d -> 0 <= pos -> 0 <= count <= max_io -> pos + zlen acc + count <= zlen (dev_bytes d) ->
  acc = sub (dev_bytes d) pos (zlen acc) -> count <= Z.of_nat fuel ->
  exists d', pread_loop fuel d pos count acc = (d', Ret (sub (dev_bytes d) pos (zlen acc + count))) /\
    dev_ok d' /\ dev_bytes d' = dev_bytes d /\ NDevReadOnly d' = NDevReadOnly d.
Proof using laws.
  revert d count acc. induction fuel as [|fuel IH]; intros d count acc Hok Hp Hc Hr Hacc Hf;
    cbn [pread_loop]; destruct (Z.eqb_spec count 0) as [->|Hne].
  - exists d. rewrite Z.add_0_r, <- Hacc. done.
  - lia.
  - exists d. rewrite Z.add_0_r, <- Hacc. done.
  - pose proof (zlen_nonneg acc).
    destruct (pread_law d (pos + zlen acc) count) as (d1 & m & -> & Hm & Hok1 & Hb1 & Hro1);
      [done|lia|lia|lia|].
    set (br := sub (dev_bytes d) (pos + zlen acc) m).
    assert (zlen br = m) as Hbr by (apply zlen_sub; lia).
    rewrite Hbr. destruct (Z.ltb_spec 0 m); [|lia].
    destruct (IH d1 (count - m) (acc ++ br)) as (d' & E & H1 & H2 & H3);
      [done|done|lia|rewrite zlen_app, Hb1; lia| |lia|].
    { rewrite zlen_app, Hbr, Hb1, <- sub_app, <- Hacc by lia. done. }
    exists d'. rewrite E, Hb1, zlen_app, Hbr. rewrite Hb1 in H2. rewrite Hro1 in H3.
    split_and!; [|done|done|done]. do 3 f_equal. lia.
Qed.

(** A positioned read inside of the device gives all the bytes. *)
Lemma pread_full d pos count :
  dev_ok d -> 0 <= pos -> 0 <= count <= max_io -> pos + count <= zlen (dev_bytes d) ->
  exists d', ntfs_pread d pos count = (d', Ret (sub (dev_bytes d) pos count)) /\
    dev_ok d' /\ dev_bytes d' = dev_bytes d /\ NDevReadOnly d' = NDevReadOnly d.
Proof using laws.
  intros. unfold ntfs_pread. destruct (Z.ltb_spec count 0), (Z.ltb_spec pos 0); try lia. cbn [orb].
  destruct (Z.eqb_spec count 0) as [->|]; [by exists d|].
  destruct (pread_loop_ok (Z.to_nat count) d pos count []) as (d' & E & ?); [done|done|lia| |done|lia|].
  - rewrite zlen_nil. lia.
  - exists d'. rewrite E. by rewrite zlen_nil.
Qed.

Lemma pwrite_loop_ok fuel d d0 pos count b total :
  dev_ok d -> NDevReadOnly d = false -> 0 <= pos -> 0 <= total -> 0 <= count <= max_io ->
  total + count <= zlen b -> pos + total + count <= zlen (dev_bytes d0) ->
  dev_bytes d = splice (dev_bytes d0) pos (sub b 0 total) -> count <= Z.of_nat fuel ->
  exists d', pwrite_loop fuel d pos count b total = (d', Ret (total + count, EUNSET)) /\
    dev_ok d' /\ NDevReadOnly d' = false /\
    dev_bytes d' = splice (dev_bytes d0) pos (sub b 0 (total + count)).
Proof using laws.
  revert d count total. induction fuel as [|fuel IH]; intros d count total Hok Hro Hp Ht Hc Hb Hr Hd Hf;
    cbn [pwrite_loop]; destruct (Z.eqb_spec count 0) as [->|Hne].
  - exists d. rewrite Z.add_0_r. done.
  - lia.
  - exists d. rewrite Z.add_0_r. done.
  - rewrite rdn_ok by lia.
    assert (zlen (sub b 0 total) = total) as Hzt by (apply zlen_sub; lia).
    assert (zlen (sub b total count) = count) as Hzc by (apply zlen_sub; lia).
    assert (zlen (dev_bytes d) = zlen (dev_bytes d0)) as Hzd by (rewrite Hd; apply zlen_splice; lia).
    destruct (pwrite_law d (pos + total) (sub b total count))
      as (d1 & m & -> & Hm & Hok1 & Hb1 & Hro1); [done|done|lia| |lia|lia|].
    { intros E. rewrite E in Hzc. rewrite zlen_nil in Hzc. lia. }
    destruct (Z.ltb_spec 0 m); [|lia]. rewrite Hzc in Hm.
    assert (zlen (sub b total m) = m) as Hzm by (apply zlen_sub; lia).
    rewrite sub_sub, Z.add_0_r in Hb1 by lia.
    destruct (IH d1 (count - m) (total + m)) as (d' & E & H1 & H2 & H3);
      [done|done|done|lia|lia|lia|lia| |lia|].
    { rewrite Hb1, Hd. rewrite <- Hzt at 2. rewrite splice_splice by lia.
      f_equal. rewrite <- (sub_app b 0 total m) by lia. done. }
    exists d'. rewrite E. replace (total + m + (count - m)) with (total + count) in * by lia. done.
Qed.

(** A positioned write inside of the device changes exactly its range; on a
    synchronous device the sync succeeds as well. *)
Lemma pwrite_full d pos count b :
  dev_ok d -> NDevReadOnly d = false -> 0 <= pos -> 0 <= count <= zlen b -> count <= max_io ->
  pos + count <= zlen (dev_bytes d) ->
  exists d', ntfs_pwrite d pos count b = (d', Ret (count, EUNSET)) /\
    dev_ok d' /\ NDevReadOnly d' = false /\ dev_bytes d' = splice (dev_bytes d) pos (sub b 0 count).
Proof using laws.
  intros Hok Hro Hp Hc Hmax Hr. unfold ntfs_pwrite.
  destruct (Z.ltb_spec count 0), (Z.ltb_spec pos 0); try lia. cbn [orb].
  destruct (Z.eqb_spec count 0) as [->|].
  { exists d. rewrite sub_0, splice_nil. done. }
  rewrite Hro. destruct (dirty_law d Hok) as (Hok1 & Hb1 & Hro1).
  destruct (pwrite_loop_ok (Z.to_nat count) (NDevSetDirty d) d pos count b 0)
    as (d' & -> & Hok2 & Hro2 & Hb2); [done|congruence|lia..| |lia|].
  { by rewrite sub_0, splice_nil. }
  rewrite Z.add_0_l in *. destruct (NDevSync d' && negb (count =? 0)).
  - destruct (sync_law d' Hok2 Hro2) as (d3 & -> & Hok3 & Hb3 & Hro3).
    exists d3. rewrite Hb3. done.
  - by exists d'.
Qed.
End Laws.

(** What [ntfs_pwrite] writes to a device that works is what [ntfs_pread]
    reads afterwards: after a write of [count] bytes at [pos], any range of
    the device reads as the old contents with exactly the bytes from [pos] on
    replaced, however short the single transfers of the device are; requests are of
    at most [max_io] bytes. *)
Theorem pwrite_pread {Dev} {ops : device_operations Dev} {laws : device_laws Dev}
    d pos count b o c :
  dev_ok d -> NDevReadOnly d = false -> 0 <= pos -> 0 <= count <= zlen b -> count <= max_io ->
  pos + count <= zlen (dev_bytes d) -> 0 <= o -> 0 <= c <= max_io -> o + c <= zlen (dev_bytes d) ->
  exists d1 d2, ntfs_pwrite d pos count b = (d1, Ret (count, EUNSET)) /\
    ntfs_pread d1 o c = (d2, Ret (sub (splice (dev_bytes d) pos (sub b 0 count)) o c)) /\
    dev_bytes d2 = splice (dev_bytes d) pos (sub b 0 count).
Proof.
  intros Hok Hro Hp Hc Hmax Hr Ho Hc2 Hr2.
  destruct (pwrite_full d pos count b) as (d1 & E1 & Hok1 & _ & Hb1); [done..|].
  assert (zlen (sub b 0 count) = count) as Hz by (apply zlen_sub; lia).
  destruct (pread_full d1 o c) as (d2 & E2 & _ & Hb2 & _); [done..|rewrite Hb1, zlen_splice; lia|].
  exists d1, d2. rewrite E2, Hb2, Hb1. done.
Qed.

(** ** An example device: memory that transfers three bytes at a time *)
Definition ram_ops : device_operations bytes := {|
  op_pread d n pos := (d, Ret (sub d pos (Z.min n 3)));
  op_pwrite d b pos := (splice d pos (sub b 0 (Z.min (zlen b) 3)), Ret (Z.min (zlen b) 3));
  op_sync d := (d, Ret tt);
  NDevReadOnly _ := false;
  NDevDirty _ := true;
  NDevSync _ := true;
  NDevSetDirty d := d;
|}.

Definition ram_laws : @device_laws bytes ram_ops.
Proof.
  refine (@Build_device_laws bytes ram_ops (fun _ => True) (fun d => d) _ _ _ _).
  - intros d pos n _ Hp Hn Hr. exists d, (Z.min n 3). split_and!; done || lia.
  - intros d pos b _ _ Hp Hne _ Hr. exists (splice d pos (sub b 0 (Z.min (zlen b) 3))), (Z.min (zlen b) 3).
    assert (0 < zlen b) by (destruct b; [done|zlia]). split_and!; done || lia.
  - intros d _ _. by exists d.
  - done.
Defined.

Lemma pwrite_pread_witness :
  exists d1 d2, @ntfs_pwrite _ ram_ops [1;2;3;4;5;6;7;8;9;10] 2 5 [21;22;23;24;25] = (d1, Ret (5, EUNSET)) /\
    @ntfs_pread _ ram_ops d1 1 7 = (d2, Ret [2;21;22;23;24;25;8]) /\
    d2 = [1;2;21;22;23;24;25;8;9;10].
Proof.
  exact (@pwrite_pread bytes ram_ops ram_laws [1;2;3;4;5;6;7;8;9;10] 2 5 [21;22;23;24;25] 1 7
    I eq_refl ltac:(lia) ltac:(split; discriminate) ltac:(discriminate) ltac:(discriminate) ltac:(lia) ltac:(split; discriminate) ltac:(discriminate)).
Defined.

(** The block size 0 passes the check of [ntfs_mst_pread] and is divided by;
    its comment promises the result 0 for it. *)
Example mst_pread_bksize_zero :
  snd (@ntfs_mst_pread _ ram_ops [1;2;3] 0 4 0) = Fault.
Proof. reflexivity. Qed.
