(* ===== verification/Fields.v ===== *)
(** * Records in memory

    An on-disk record is a byte array, a field a little-endian number at its
    offset.  This file has what stores and moves do to the parts of a record and
    to its fields. *)
From S2P Require Import Prelude Libc.

(** Store a field of [n] bytes. *)
Definition put (n : nat) (m : bytes) (i v : Z) : outcome bytes := wrn m i (le_bytes n v).

(** [memmove] with a size that is unsigned. *)
Definition memmove_size (b : bytes) (dst src n : Z) : outcome bytes :=
  if n <? 0 then Fault else memmove b dst src n.

(** ** Fields of a part of the record *)
Lemma rd_app_mid {A} (p x q : list A) i : 0 <= i < zlen x -> rd (p ++ x ++ q) (zlen p + i) = rd x i.
Proof. intros Hi. pose proof (zlen_nonneg p). rewrite rd_app_r, rd_app_l by lia. f_equal. lia. Qed.

Lemma rd_le_app_mid n p x q i : 0 <= i -> i + Z.of_nat n <= zlen x -> rd_le n (p ++ x ++ q) (zlen p + i) = rd_le n x i.
Proof.
  revert i. induction n as [|n IH]; intros i Hi Hn; cbn [rd_le]; [done|]. rewrite rd_app_mid by lia.
  destruct (rd_some x i) as [b ->]; [lia|]. cbn [obind]. rewrite <- Z.add_assoc, IH by lia. done.
Qed.

Lemma rd_le_app_l n x q i : 0 <= i -> i + Z.of_nat n <= zlen x -> rd_le n (x ++ q) i = rd_le n x i.
Proof. intros. apply (rd_le_app_mid n [] x q i); done. Qed.

Lemma rd_le_range n b i : Forall byte_ok b -> 0 <= i -> i + Z.of_nat n <= zlen b -> exists v, rd_le n b i = Ret v /\ 0 <= v < 256 ^ Z.of_nat n.
Proof.
  intros Hb. revert i. induction n as [|n IH]; intros i Hi Hn; cbn [rd_le]; [by exists 0|].
  destruct (rd_some b i) as [x E]; [lia|]. rewrite E. cbn [obind]. destruct (IH (i + 1)) as (v & -> & Hv); [lia|lia|]. cbn [obind].
  eexists. split; [done|]. apply rd_lookup in E as [_ E]. pose proof (Forall_lookup_1 _ _ _ _ Hb E) as Hx. unfold byte_ok in Hx.
  rewrite Nat2Z.inj_succ, Z.pow_succ_r by lia. nia.
Qed.

(** ** Stores into a part of the record *)
Lemma splice_mid {A} (p g q : list A) i xs :
  0 <= i -> i + zlen xs <= zlen g -> splice (p ++ g ++ q) (zlen p + i) xs = p ++ splice g i xs ++ q.
Proof.
  intros Hi Hx. pose proof (zlen_nonneg p). pose proof (zlen_nonneg xs). pose proof (zlen_nonneg q). apply list_eq_rd.
  - rewrite zlen_splice, !zlen_app, zlen_splice by (rewrite ?zlen_app; lia). lia.
  - intros j Hj. rewrite zlen_splice, !zlen_app in Hj by (rewrite ?zlen_app; lia). rewrite rd_splice by (rewrite ?zlen_app; lia).
    assert (zlen (splice g i xs) = zlen g) as Hz by (apply zlen_splice; lia).
    destruct (Z.ltb_spec j (zlen p)).
    + destruct (Z.leb_spec (zlen p + i) j); [lia|]. cbn [andb]. by rewrite !rd_app_l by lia.
    + rewrite (rd_app_r p (splice g i xs ++ q)) by lia. destruct (Z.ltb_spec (j - zlen p) (zlen g)).
      * rewrite (rd_app_l (splice g i xs)), rd_splice by lia. rewrite (rd_app_r p (g ++ q)), (rd_app_l g q) by lia.
        destruct (Z.leb_spec (zlen p + i) j), (Z.leb_spec i (j - zlen p)), (Z.ltb_spec j (zlen p + i + zlen xs)),
          (Z.ltb_spec (j - zlen p) (i + zlen xs)); cbn [andb]; try lia; try done. f_equal. lia.
      * rewrite (rd_app_r (splice g i xs)) by lia. rewrite (rd_app_r p (g ++ q)), (rd_app_r g q) by lia. rewrite Hz.
        destruct (Z.leb_spec (zlen p + i) j), (Z.ltb_spec j (zlen p + i + zlen xs)); cbn [andb]; try lia; done.
Qed.

Lemma splice_left {A} (p q : list A) i xs : 0 <= i -> i + zlen xs <= zlen p -> splice (p ++ q) i xs = splice p i xs ++ q.
Proof. intros. apply (splice_mid [] p q i xs); done. Qed.

Lemma put_mid n p g q i v :
  0 <= i -> i + Z.of_nat n <= zlen g -> put n (p ++ g ++ q) (zlen p + i) v = Ret (p ++ splice g i (le_bytes n v) ++ q).
Proof.
  intros Hi Hn. pose proof (zlen_nonneg p). pose proof (zlen_nonneg q). unfold put.
  rewrite wrn_ok by (rewrite ?zlen_le_bytes, ?zlen_app; lia). by rewrite splice_mid by (rewrite ?zlen_le_bytes; lia).
Qed.

Lemma put_left n p q i v : 0 <= i -> i + Z.of_nat n <= zlen p -> put n (p ++ q) i v = Ret (splice p i (le_bytes n v) ++ q).
Proof. intros. apply (put_mid n [] p q i v); done. Qed.

Lemma rd_le_eq n a b i j : (forall k, 0 <= k < Z.of_nat n -> rd a (i + k) = rd b (j + k)) -> rd_le n a i = rd_le n b j.
Proof.
  revert i j. induction n as [|n IH]; intros i j H; cbn [rd_le]; [done|]. pose proof (H 0 ltac:(lia)) as H0. rewrite !Z.add_0_r in H0.
  rewrite H0. destruct (rd b j); [|done..]. cbn [obind]. rewrite (IH (i + 1) (j + 1)); [done|]. intros k Hk.
  rewrite <- !Z.add_assoc. apply H. lia.
Qed.

(** A field in a part of the record, after a store. *)
Lemma rd_le_splice_other n g i xs j :
  0 <= i -> i + zlen xs <= zlen g -> 0 <= j -> j + Z.of_nat n <= i \/ i + zlen xs <= j -> rd_le n (splice g i xs) j = rd_le n g j.
Proof.
  intros Hi Hx Hj Hd. apply rd_le_eq. intros k Hk. rewrite rd_splice by lia.
  destruct (Z.leb_spec i (j + k)), (Z.ltb_spec (j + k) (i + zlen xs)); cbn [andb]; try lia; done.
Qed.

Lemma rd_le_splice_same n g i v :
  0 <= i -> i + Z.of_nat n <= zlen g -> rd_le n (splice g i (le_bytes n v)) i = Ret (v mod 256 ^ Z.of_nat n).
Proof.
  intros Hi Hn. unfold splice. apply rd_le_bytes. unfold zlen in *. rewrite length_take. lia.
Qed.

Lemma rd_splice_other {A} (g : list A) i xs j : 0 <= i -> i + zlen xs <= zlen g -> 0 <= j -> j < i \/ i + zlen xs <= j -> rd (splice g i xs) j = rd g j.
Proof. intros Hi Hx Hj Hd. rewrite rd_splice by lia. destruct (Z.leb_spec i j), (Z.ltb_spec j (i + zlen xs)); cbn [andb]; try lia; done. Qed.

Lemma sub_splice_other {A} (g : list A) i xs j n :
  0 <= i -> i + zlen xs <= zlen g -> 0 <= j -> 0 <= n -> j + n <= zlen g -> j + n <= i \/ i + zlen xs <= j -> sub (splice g i xs) j n = sub g j n.
Proof.
  intros Hi Hx Hj Hn Hg Hd. pose proof (zlen_nonneg xs). apply list_eq_rd; [rewrite !zlen_sub; rewrite ?zlen_splice; lia|].
  intros k Hk. rewrite zlen_sub in Hk by (rewrite ?zlen_splice; lia). rewrite !rd_sub by lia. destruct (Z.ltb_spec k n); [|lia].
  apply rd_splice_other; lia.
Qed.

Lemma byte_ok_le_bytes n v : Forall byte_ok (le_bytes n v).
Proof. revert v. induction n as [|n IH]; intros v; cbn [le_bytes]; constructor; [|apply IH]. unfold byte_ok. apply Z.mod_pos_bound. lia. Qed.

(** Concrete bytes are checked by computation. *)
Lemma bytes_checked b : forallb (fun x => (0 <=? x) && (x <? 256)) b = true -> Forall byte_ok b.
Proof. rewrite forallb_forall, List.Forall_forall. intros H x Hx. specialize (H x Hx). unfold byte_ok. lia. Qed.

Lemma byte_ok_splice g i xs : Forall byte_ok g -> Forall byte_ok xs -> Forall byte_ok (splice g i xs).
Proof. intros Hg Hx. unfold splice. apply Forall_app. split; [by apply Forall_take|]. apply Forall_app. split; [done|by apply Forall_drop]. Qed.

(** ** Moves

    The part [r] of a record moves to [n] bytes after the start of the part [x] in
    front of it. *)
Lemma memmove_parts p x r slack n :
  0 <= n -> n - zlen x <= zlen slack ->
  memmove_size (p ++ x ++ r ++ slack) (zlen p + n) (zlen p + zlen x) (zlen r) =
    Ret (p ++ take (Z.to_nat n) (x ++ r ++ slack) ++ r ++ drop (Z.to_nat (n + zlen r)) (x ++ r ++ slack)).
Proof.
  intros Hn Hfit. pose proof (zlen_nonneg p). pose proof (zlen_nonneg x). pose proof (zlen_nonneg r). pose proof (zlen_nonneg slack).
  unfold memmove_size. destruct (Z.ltb_spec (zlen r) 0); [lia|]. rewrite memmove_spec by (rewrite ?zlen_app; lia).
  assert (sub (p ++ x ++ r ++ slack) (zlen p + zlen x) (zlen r) = r) as ->.
  { rewrite (assoc_L (++) p). apply sub_app_here; [by rewrite zlen_app|done]. }
  rewrite <- (app_nil_r (x ++ r ++ slack)) at 1. rewrite splice_mid by (rewrite ?zlen_app; lia). rewrite app_nil_r. do 2 f_equal.
  unfold splice. replace (Z.to_nat (n + zlen r)) with (Z.to_nat n + length r)%nat by (unfold zlen; lia). done.
Qed.

(** Room for [n] bytes in front of [r]. *)
Lemma memmove_gap p r slack n :
  0 <= n <= zlen slack ->
  memmove_size (p ++ r ++ slack) (zlen p + n) (zlen p) (zlen r) = Ret (p ++ take (Z.to_nat n) (r ++ slack) ++ r ++ drop (Z.to_nat n) slack).
Proof.
  intros Hn. pose proof (memmove_parts p [] r slack n) as H. change (zlen (@nil Z)) with 0 in H. cbn [app] in H. rewrite Z.add_0_r in H. rewrite H by lia.
  do 4 f_equal. rewrite drop_app_ge by (unfold zlen; lia). f_equal. unfold zlen. lia.
Qed.

(** The parts of a record of the same size can be replaced. *)
Lemma wrn_part {A} (p g q x : list A) : zlen x = zlen g -> wrn (p ++ g ++ q) (zlen p) x = Ret (p ++ x ++ q).
Proof.
  intros Hx. pose proof (zlen_nonneg p). pose proof (zlen_nonneg q). rewrite wrn_ok by (rewrite ?zlen_app; lia).
  rewrite <- (Z.add_0_r (zlen p)). rewrite splice_mid by (pose proof (zlen_nonneg x); lia). do 3 f_equal.
  unfold splice. cbn [Z.to_nat Pos.to_nat take app]. rewrite drop_ge by (unfold zlen in *; lia). by rewrite app_nil_r.
Qed.

(** ** The fields stored so far *)
Definition fields (g : bytes) (fs : list (Z * bytes)) : Prop :=
  Forall byte_ok g /\ Forall (fun f => 0 <= f.1 /\ f.1 + zlen f.2 <= zlen g /\ sub g f.1 (zlen f.2) = f.2) fs.

(** A store beside the fields adds one. *)
Lemma fields_splice g i xs fs :
  fields g fs -> 0 <= i -> i + zlen xs <= zlen g -> Forall byte_ok xs -> Forall (fun f => f.1 + zlen f.2 <= i \/ i + zlen xs <= f.1) fs ->
  fields (splice g i xs) ((i, xs) :: fs).
Proof.
  intros [Hb Hf] Hi Hx Hxs Hd. assert (zlen (splice g i xs) = zlen g) as Hz by (apply zlen_splice; lia).
  split; [by apply byte_ok_splice|]. constructor; cbn [fst snd].
  { split; [lia|]. split; [lia|]. by apply sub_splice_same. }
  rewrite !Forall_forall in *. intros f Hin. destruct (Hf f Hin) as (H1 & H2 & H3). specialize (Hd f Hin).
  pose proof (zlen_nonneg f.2). split_and!; [lia|lia|]. rewrite sub_splice_other by lia. done.
Qed.

Lemma wrn_field p g q i xs fs :
  fields g fs -> 0 <= i -> i + zlen xs <= zlen g -> Forall byte_ok xs -> Forall (fun f => f.1 + zlen f.2 <= i \/ i + zlen xs <= f.1) fs ->
  exists g', wrn (p ++ g ++ q) (zlen p + i) xs = Ret (p ++ g' ++ q) /\ zlen g' = zlen g /\ fields g' ((i, xs) :: fs).
Proof.
  intros Hf Hi Hx Hxs Hd. pose proof (zlen_nonneg p). pose proof (zlen_nonneg q). exists (splice g i xs).
  rewrite wrn_ok by (rewrite ?zlen_app; lia). rewrite splice_mid by lia. split; [done|]. split; [apply zlen_splice; lia|].
  by apply fields_splice.
Qed.

Lemma put_field n p g q i v fs :
  fields g fs -> 0 <= i -> i + Z.of_nat n <= zlen g -> Forall (fun f => f.1 + zlen f.2 <= i \/ i + Z.of_nat n <= f.1) fs ->
  exists g', put n (p ++ g ++ q) (zlen p + i) v = Ret (p ++ g' ++ q) /\ zlen g' = zlen g /\ fields g' ((i, le_bytes n v) :: fs).
Proof. intros Hf Hi Hn Hd. apply wrn_field; rewrite ?zlen_le_bytes; try done. apply byte_ok_le_bytes. Qed.

Lemma fields_in g fs i xs : fields g fs -> (i, xs) ∈ fs -> sub g i (zlen xs) = xs.
Proof. intros [_ Hf] Hin. rewrite Forall_forall in Hf. by destruct (Hf _ Hin) as (_ & _ & E). Qed.

Lemma fields_rd_le n g fs i v : fields g fs -> (i, le_bytes n v) ∈ fs -> rd_le n g i = Ret (v mod 256 ^ Z.of_nat n).
Proof.
  intros Hf Hin. pose proof (fields_in g fs i _ Hf Hin) as E. rewrite zlen_le_bytes in E. rewrite <- (rd_le_bytes n [] v [] 0) by done.
  destruct Hf as [_ Hf]. rewrite Forall_forall in Hf. destruct (Hf _ Hin) as (Hi & _). cbn [fst] in Hi.
  apply rd_le_eq. intros k Hk. rewrite app_nil_r. cbn [app]. rewrite <- E, Z.add_0_l, rd_sub by lia. by destruct (Z.ltb_spec k (Z.of_nat n)); [|lia].
Qed.

Lemma fields_rd g fs i v : fields g fs -> (i, le_bytes 1 v) ∈ fs -> rd g i = Ret (v mod 256).
Proof.
  intros Hf Hin. pose proof (fields_rd_le 1 g fs i v Hf Hin) as E. cbn [rd_le] in E. destruct (rd g i) as [x| |]; cbn [obind] in E; try done.
  injection E as E. f_equal. change (256 ^ Z.of_nat 1) with 256 in E. lia.
Qed.

Ltac in_fields := repeat first [apply list_elem_of_here | apply list_elem_of_further].
Ltac disjoint_fields := repeat (apply Forall_cons; split; [cbn [fst snd]; rewrite ?zlen_le_bytes; lia|]); apply Forall_nil; done.
Tactic Notation "store" ident(g) ident(Hz) ident(F) :=
  match goal with
  | F' : fields ?g0 ?fs |- context [put ?n (?p ++ ?g0 ++ ?q) (zlen ?p + ?i) ?v] =>
    destruct (put_field n p g0 q i v fs F') as (g & -> & Hz & F); [lia|lia|disjoint_fields|]; cbn [obind]; clear F'
  end.

