(* ===== verification/Cond.v ===== *)
(** * Conditions of the code

    The operators of C evaluate their second operand only when the first does not
    decide, and an operand may read out of bounds.  This file has the operators on
    outcomes, and the lemmas by which checks are shown to come to an end. *)
From S2P Require Import Prelude Fields.

(** ** Conditions that are evaluated from left to right *)
Definition o_and (a b : outcome bool) : outcome bool := let! x := a in if x then b else Ret false.
Definition o_or (a b : outcome bool) : outcome bool := let! x := a in if x then Ret true else b.
Definition o_not (a : outcome bool) : outcome bool := let! x := a in Ret (negb x).
Infix "&&!" := o_and (at level 41, right associativity) : outcome_scope.
Infix "||!" := o_or (at level 51, right associativity) : outcome_scope.

Lemma o_and_true a b : a &&! b = Ret true <-> a = Ret true /\ b = Ret true.
Proof. unfold o_and. destruct a as [[]| |]; cbn; naive_solver. Qed.

Lemma o_or_false a b : a ||! b = Ret false <-> a = Ret false /\ b = Ret false.
Proof. unfold o_or. destruct a as [[]| |]; cbn; naive_solver. Qed.

Lemma o_not_false a : o_not a = Ret false <-> a = Ret true.
Proof. unfold o_not. destruct a as [[]| |]; cbn; naive_solver. Qed.

(** ** Computations that come to an end

    [tot o]: the computation comes to an end with a value. *)
Definition tot {A} (o : outcome A) : Prop := exists a, o = Ret a.

Lemma tot_ret {A} (a : A) : tot (Ret a).
Proof. by exists a. Qed.
Lemma tot_bind {A B} (o : outcome A) (k : A -> outcome B) : tot o -> (forall a, o = Ret a -> tot (k a)) -> tot (let! a := o in k a).
Proof. intros [a Ha] Hk. rewrite Ha. cbn [obind]. by apply Hk. Qed.
Lemma tot_and a b : tot a -> (a = Ret true -> tot b) -> tot (a &&! b).
Proof. intros [x Hx] Hb. unfold o_and. rewrite Hx. cbn [obind]. destruct x; [by apply Hb|apply tot_ret]. Qed.
Lemma tot_or a b : tot a -> (a = Ret false -> tot b) -> tot (a ||! b).
Proof. intros [x Hx] Hb. unfold o_or. rewrite Hx. cbn [obind]. destruct x; [apply tot_ret|by apply Hb]. Qed.
Lemma tot_not a : tot a -> tot (o_not a).
Proof. intros [x Hx]. unfold o_not. rewrite Hx. apply tot_ret. Qed.
Lemma tot_if {A} (c : bool) (a b : outcome A) : tot a -> tot b -> tot (if c then a else b).
Proof. by destruct c. Qed.
Lemma tot_rd (m : bytes) i : 0 <= i < zlen m -> tot (rd m i).
Proof. apply rd_some. Qed.
Lemma tot_rd_le n m i : Forall byte_ok m -> 0 <= i -> i + Z.of_nat n <= zlen m -> tot (rd_le n m i).
Proof. intros Hm Hi Hn. destruct (rd_le_range n m i Hm Hi Hn) as (v & E & _). by exists v. Qed.

Create HintDb total.
#[export] Hint Resolve tot_ret tot_bind tot_and tot_or tot_not tot_if tot_rd tot_rd_le : total.

(** A check that comes to an end, and what it found when it holds. *)
Definition checks (o : outcome bool) (P : Prop) : Prop := exists b, o = Ret b /\ (b = true -> P).

Lemma checks_and a b (Q : Prop) : tot a -> (a = Ret true -> checks b Q) -> checks (a &&! b) Q.
Proof. intros [x Hx] Hb. unfold o_and. rewrite Hx. cbn [obind]. destruct x; [by apply Hb|by exists false]. Qed.

Lemma checks_pure (c : bool) b (Q : Prop) : (c = true -> checks b Q) -> checks (Ret c &&! b) Q.
Proof. intros Hb. apply checks_and; [apply tot_ret|]. intros [= E]. by apply Hb. Qed.

Lemma checks_tot a (Q : Prop) : tot a -> Q -> checks a Q.
Proof. intros [x Hx] HQ. by exists x. Qed.
