(* ===== verification/Boot.v ===== *)
(** * The boot sector (ntfs/bootsect.c)

    Recognising an NTFS boot sector and deriving the geometry of the volume
    from it. *)
From S2P Require Import Prelude Libc.

(** layout.h:50-106 NTFS_BOOT_SECTOR. The fields the code looks at; the two
    record sizes are signed bytes. *)
Record boot_sector := mkboot {
  oem_id : Z;
  bytes_per_sector : Z;
  sectors_per_cluster : Z;
  reserved_sectors : Z;
  fats : Z;
  root_entries : Z;
  bpb_sectors : Z;
  sectors_per_fat : Z;
  hidden_sectors : Z;
  large_sectors : Z;
  number_of_sectors : Z;
  bs_mft_lcn : Z;
  bs_mftmirr_lcn : Z;
  clusters_per_mft_record : Z;
  clusters_per_index_record : Z;
  volume_serial_number : Z;
  end_of_sector_marker : Z;
}.

(** The packed structure in a buffer of at least 512 bytes. *)
Definition boot_of_bytes (b : bytes) : outcome boot_sector :=
  let! oem := rd_le 8 b 0x03 in
  let! bps := rd_le 2 b 0x0b in
  let! spc := rd_le 1 b 0x0d in
  let! res := rd_le 2 b 0x0e in
  let! fat := rd_le 1 b 0x10 in
  let! roo := rd_le 2 b 0x11 in
  let! sec := rd_le 2 b 0x13 in
  let! spf := rd_le 2 b 0x16 in
  let! hid := rd_le 4 b 0x1c in
  let! lar := rd_le 4 b 0x20 in
  let! num := rd_le 8 b 0x28 in
  let! mft := rd_le 8 b 0x30 in
  let! mir := rd_le 8 b 0x38 in
  let! cpm := rd_le 1 b 0x40 in
  let! cpi := rd_le 1 b 0x44 in
  let! ser := rd_le 8 b 0x48 in
  let! eos := rd_le 2 b 0x1fe in
  Ret (mkboot oem bps spc res fat roo sec spf hid lar (s64 num) (s64 mft) (s64 mir)
         (s8 cpm) (s8 cpi) ser eos).

(** bootsect.c:118-129 ntfs_boot_sector_is_ntfs. Also 131-141: a count of
    clusters per record is a power of two up to 64, or the negative logarithm
    of a size of 2^9 to 2^31 bytes. *)
Definition record_clusters_ok (c : Z) : bool :=
  if (u8 c <? 0xe1) || (0xf7 <? u8 c) then
    (c =? 1) || (c =? 2) || (c =? 4) || (c =? 8) || (c =? 0x10) || (c =? 0x20) || (c =? 0x40)
  else true.

(** bootsect.c:60-153 ntfs_boot_sector_is_ntfs. The end of sector marker only
    leads to a message. *)
Definition ntfs_boot_sector_is_ntfs (b : boot_sector) : bool :=
  if negb (oem_id b =? 0x202020205346544e) then false
  else if (bytes_per_sector b <? 256) || (4096 <? bytes_per_sector b) then false
  else
    let s := sectors_per_cluster b in
    if negb ((s =? 1) || (s =? 2) || (s =? 4) || (s =? 8) || (s =? 16) || (s =? 32) || (s =? 64)
             || (s =? 128)) then false
    else if 65536 <? u32 (bytes_per_sector b * s) then false
    else if negb ((reserved_sectors b =? 0) && (root_entries b =? 0) && (bpb_sectors b =? 0)
                  && (sectors_per_fat b =? 0) && (large_sectors b =? 0) && (fats b =? 0)) then false
    else if negb (record_clusters_ok (clusters_per_mft_record b)) then false
    else record_clusters_ok (clusters_per_index_record b).

(** volume.h:187-235 _ntfs_volume. The fields set from the boot sector. *)
Record geometry := mkgeo {
  sector_size : Z;
  sector_size_bits : Z;
  cluster_size : Z;
  cluster_size_bits : Z;
  mft_record_size : Z;
  mft_record_size_bits : Z;
  indx_record_size : Z;
  indx_record_size_bits : Z;
  nr_clusters : Z;
  mft_lcn : Z;
  mftmirr_lcn : Z;
  mftmirr_size : Z;
}.

(** bootsect.c:250-253 ntfs_boot_sector_parse. Also 265-268: the record size of
    a count of clusters. *)
Definition record_size (c cluster_size_bits : Z) : Z :=
  if c <? 0 then u32 (Z.shiftl 1 (- c)) else u32 (Z.shiftl c cluster_size_bits).

(** [x & (x - 1)] of a 32-bit number: not a power of two. *)
Definition not_pow2 (x : Z) : bool := negb (Z.land x (u32 (x - 1)) =? 0).

(** bootsect.c:172-285 ntfs_boot_sector_parse. [seek] is the device's seek to a
    byte offset: false when it returns -1. *)
Definition ntfs_boot_sector_parse (seek : Z -> bool) (bs : boot_sector) : outcome geometry :=
  let ss := bytes_per_sector bs in
  let ssb := u8 (ffs ss - 1) in
  let spc := sectors_per_cluster bs in
  if negb (Z.land spc (spc - 1) =? 0) then Fail EINVAL
  else
    let sectors := number_of_sectors bs in
    if sectors =? 0 then Fail EINVAL
    else if negb (seek (s64 (Z.shiftl (sectors - 1) ssb))) then Fail EINVAL
    else if ffs spc - 1 <? 0 then Fault
    else
      let nr := Z.shiftr sectors (ffs spc - 1) in
      let mft := bs_mft_lcn bs in
      let mirr := bs_mftmirr_lcn bs in
      if (mft <? 0) || (nr <? mft) || (mirr <? 0) || (nr <? mirr) then Fail EINVAL
      else
        let cs := u32 (spc * ss) in
        if not_pow2 cs then Fail EINVAL
        else
          let csb := u8 (ffs (s32 cs) - 1) in
          let mrs := record_size (clusters_per_mft_record bs) csb in
          if not_pow2 mrs then Fail EINVAL
          else
            let irs := record_size (clusters_per_index_record bs) csb in
            if u32 (4 * mrs) <? cs then
              if mrs =? 0 then Fault
              else Ret (mkgeo ss ssb cs csb mrs (u8 (ffs (s32 mrs) - 1)) irs (u8 (ffs (s32 irs) - 1))
                          nr mft mirr (cs / mrs))
            else Ret (mkgeo ss ssb cs csb mrs (u8 (ffs (s32 mrs) - 1)) irs (u8 (ffs (s32 irs) - 1))
                        nr mft mirr 4).

(** ** The geometry is sound *)
Lemma pow2_inv x : 0 < x -> Z.land x (x - 1) = 0 -> x = 2 ^ Z.log2 x.
Proof.
  intros Hx H. destruct (Z.log2_spec x Hx) as [H1 H2]. set (k := Z.log2 x) in *.
  assert (0 <= k) by apply Z.log2_nonneg.
  destruct (Z.eq_dec x (2 ^ k)) as [|Hne]; [done|]. exfalso.
  assert (forall y, 2 ^ k <= y < 2 ^ Z.succ k -> Z.testbit y k = true) as Hbit.
  { intros y Hy. rewrite Z.testbit_true by lia.
    rewrite Z.pow_succ_r in Hy by lia. replace (y / 2 ^ k) with 1; [done|].
    apply Z.div_unique with (y - 2 ^ k); lia. }
  assert (Z.testbit (Z.land x (x - 1)) k = true) as Hb.
  { rewrite Z.land_spec, !Hbit by lia. done. }
  rewrite H, Z.testbit_0_l in Hb. done.
Qed.

Lemma not_pow2_false x : in_u 32 x -> 0 < x -> not_pow2 x = false -> exists k, 0 <= k < 32 /\ x = 2 ^ k.
Proof.
  unfold not_pow2. intros Hx H0 H. rewrite wrapu_small in H by (unfold in_u in *; lia).
  exists (Z.log2 x). split; [|apply pow2_inv; lia].
  split; [apply Z.log2_nonneg|]. apply Z.log2_lt_pow2; [lia|]. apply Hx.
Qed.

Lemma ffs_s32_pow2 k : 0 <= k < 32 -> u8 (ffs (s32 (2 ^ k)) - 1) = k.
Proof.
  intros Hk. destruct (Z.eq_dec k 31) as [->|]; [reflexivity|].
  assert (2 ^ k < 2 ^ 31) by (apply Z.pow_lt_mono_r; lia).
  rewrite wraps_small by (unfold in_s; cbn in *; lia || lia). rewrite ffs_pow2 by lia.
  rewrite wrapu_small by (unfold in_u; cbn; lia). lia.
Qed.

Lemma record_clusters_inv c :
  in_s 8 c -> record_clusters_ok c = true -> (exists j, 0 <= j <= 6 /\ c = 2 ^ j) \/ -31 <= c <= -9.
Proof.
  intros Hc. unfold in_s in Hc. cbn in Hc. unfold record_clusters_ok.
  assert (u8 c = if c <? 0 then c + 256 else c) as ->.
  { unfold wrapu. change (2 ^ 8) with 256. destruct (Z.ltb_spec c 0); dlia. }
  destruct ((_ <? _) || _) eqn:E.
  - intros H. left. rewrite !orb_true_iff, !Z.eqb_eq in H.
    destruct H as [[[[[[->| ->]| ->]| ->]| ->]| ->]| ->];
      [exists 0|exists 1|exists 2|exists 3|exists 4|exists 5|exists 6]; done.
  - intros _. destruct (Z.ltb_spec c 0); lia.
Qed.

(** A record size is a power of two, and its logarithm is what [ffs] finds. *)
Lemma record_size_pow2 c cb :
  in_s 8 c -> record_clusters_ok c = true -> 0 <= cb <= 16 ->
  exists k, 0 <= k < 32 /\ record_size c cb = 2 ^ k /\ u8 (ffs (s32 (record_size c cb)) - 1) = k.
Proof.
  intros Hc Hr Hcb. destruct (record_clusters_inv c Hc Hr) as [(j & Hj & ->)|Hneg].
  - exists (j + cb). assert (record_size (2 ^ j) cb = 2 ^ (j + cb)) as E.
    { unfold record_size. assert (0 < 2 ^ j) by lia. destruct (Z.ltb_spec (2 ^ j) 0); [lia|].
      rewrite Z.shiftl_mul_pow2, <- Z.pow_add_r by lia. apply wrapu_small. split; [lia|].
      apply Z.pow_lt_mono_r; lia. }
    rewrite E. split_and!; [lia|lia|done|]. apply ffs_s32_pow2. lia.
  - exists (- c). assert (record_size c cb = 2 ^ (- c)) as E.
    { unfold record_size. destruct (Z.ltb_spec c 0); [|lia].
      rewrite Z.shiftl_mul_pow2, Z.mul_1_l by lia. apply wrapu_small. split; [lia|].
      apply Z.pow_lt_mono_r; lia. }
    rewrite E. split_and!; [lia|lia|done|]. apply ffs_s32_pow2. lia.
Qed.

(** C38. The volume geometry.  When a boot sector is accepted and parsed, the
    sector, cluster, MFT record and index record sizes are powers of two with
    the logarithms stored beside them, a cluster has at most 64 KiB, the
    number of clusters is that of the sectors divided by the sectors per
    cluster, and both MFT copies start in the volume or at the first cluster
    behind it, which the code accepts ([mft_behind_volume]).  The MFT mirror
    holds the larger of four records and a cluster of records - for MFT
    records below 2^30 bytes, since [4 * mft_record_size] is computed in 32
    bits. *)
Theorem boot_geometry seek bs g :
  in_u 16 (bytes_per_sector bs) -> in_s 8 (clusters_per_mft_record bs) ->
  in_s 8 (clusters_per_index_record bs) ->
  ntfs_boot_sector_is_ntfs bs = true -> ntfs_boot_sector_parse seek bs = Ret g ->
  sector_size g = 2 ^ sector_size_bits g /\ 8 <= sector_size_bits g <= 12 /\
  cluster_size g = 2 ^ cluster_size_bits g /\
  sector_size_bits g <= cluster_size_bits g <= 16 /\
  mft_record_size g = 2 ^ mft_record_size_bits g /\ 0 <= mft_record_size_bits g < 32 /\
  indx_record_size g = 2 ^ indx_record_size_bits g /\ 0 <= indx_record_size_bits g < 32 /\
  nr_clusters g = number_of_sectors bs / (cluster_size g / sector_size g) /\
  0 <= mft_lcn g <= nr_clusters g /\ 0 <= mftmirr_lcn g <= nr_clusters g /\
  (mft_record_size g < 2 ^ 30 -> mftmirr_size g = Z.max 4 (cluster_size g / mft_record_size g)).
Proof.
  intros Hbps Hcm Hci His Hparse.
  unfold ntfs_boot_sector_is_ntfs in His. cbv zeta in His.
  guard His E0. guard His Ess. guard His Espc. guard His Ecs. guard His Eres. guard His Ecm.
  apply negb_false_iff in Ecm.
  set (ss := bytes_per_sector bs) in *. set (spc := sectors_per_cluster bs) in *.
  assert (exists j, 0 <= j <= 7 /\ spc = 2 ^ j) as (j & Hj & Espc').
  { apply negb_false_iff in Espc. rewrite !orb_true_iff, !Z.eqb_eq in Espc.
    destruct Espc as [[[[[[[->| ->]| ->]| ->]| ->]| ->]| ->]| ->];
      [exists 0|exists 1|exists 2|exists 3|exists 4|exists 5|exists 6|exists 7]; done. }
  clear Espc Eres. assert (256 <= ss <= 4096) as Hss by lia.
  assert (1 <= spc <= 128) as Hspc.
  { rewrite Espc'. split; [lia|]. change 128 with (2 ^ 7). apply Z.pow_le_mono_r; lia. }
  assert (u32 (spc * ss) = spc * ss) as Ewrap by (apply wrapu_small; unfold in_u; cbn; nia).
  rewrite (Z.mul_comm ss), Ewrap in Ecs.
  unfold ntfs_boot_sector_parse in Hparse. fold ss spc in Hparse. rewrite Ewrap in Hparse.
  assert (ffs spc = j + 1) as Effs by (rewrite Espc'; apply ffs_pow2; lia).
  rewrite Effs in Hparse. replace (j + 1 - 1) with j in Hparse by lia. cbv zeta in Hparse.
  guard Hparse E1. guard Hparse E2. guard Hparse E3. guard Hparse E4. guard Hparse Elcn.
  guard Hparse Epow.
  destruct (not_pow2_false (spc * ss)) as (cb & Hcb & Ecb); [unfold in_u; cbn; nia|nia|done|].
  rewrite Ecb in *. rewrite ffs_s32_pow2 in Hparse by lia.
  assert (cb <= 16) as Hcb16.
  { destruct (Z.le_gt_cases cb 16) as [|Hgt]; [done|]. exfalso.
    assert (2 ^ 17 <= 2 ^ cb) by (apply Z.pow_le_mono_r; lia). cbn in *. lia. }
  destruct (record_size_pow2 _ cb Hcm Ecm ltac:(lia)) as (mb & Hmb & Emb & Emb').
  destruct (record_size_pow2 _ cb Hci His ltac:(lia)) as (ib & Hib & Eib & Eib').
  rewrite Emb', Eib' in Hparse. rewrite Emb, Eib in Hparse.
  guard Hparse E5.
  assert (j <= cb) as Hjcb.
  { destruct (Z.le_gt_cases j cb) as [|Hgt]; [done|]. exfalso.
    assert (2 ^ cb < 2 ^ j) by (apply Z.pow_lt_mono_r; lia). nia. }
  assert (ss = 2 ^ (cb - j)) as Ess'.
  { rewrite Z.pow_sub_r by lia. apply Z.div_unique_exact; [lia|]. by rewrite <- Espc'. }
  assert (8 <= cb - j <= 12) as Hsb.
  { split.
    - destruct (Z.le_gt_cases 8 (cb - j)) as [|Hgt]; [done|]. exfalso.
      assert (2 ^ (cb - j) < 2 ^ 8) by (apply Z.pow_lt_mono_r; lia). cbn in *. lia.
    - destruct (Z.le_gt_cases (cb - j) 12) as [|Hgt]; [done|]. exfalso.
      assert (2 ^ 12 < 2 ^ (cb - j)) by (apply Z.pow_lt_mono_r; lia). cbn in *. lia. }
  assert (u8 (ffs ss - 1) = cb - j) as Essb.
  { rewrite Ess', ffs_pow2 by lia. rewrite wrapu_small by (unfold in_u; cbn; lia). lia. }
  rewrite Essb in Hparse.
  assert (0 < 2 ^ mb) by lia.
  assert (exists m, g = mkgeo ss (cb - j) (2 ^ cb) cb (2 ^ mb) mb (2 ^ ib) ib
    (Z.shiftr (number_of_sectors bs) j) (bs_mft_lcn bs) (bs_mftmirr_lcn bs) m /\
    (2 ^ mb < 2 ^ 30 -> m = Z.max 4 (2 ^ cb / 2 ^ mb))) as (m & -> & Hm).
  { destruct (Z.ltb_spec (u32 (4 * 2 ^ mb)) (2 ^ cb)) as [Hlt|Hge].
    - guard Hparse E6. injection Hparse as <-. eexists. split; [done|].
      intros Hm. rewrite wrapu_small in Hlt by (unfold in_u; cbn in *; lia).
      rewrite Z.max_r; [done|]. apply Z.div_le_lower_bound; lia.
    - injection Hparse as <-. eexists. split; [done|].
      intros Hm. rewrite wrapu_small in Hge by (unfold in_u; cbn in *; lia).
      rewrite Z.max_l; [done|]. apply Z.lt_succ_r. apply Z.div_lt_upper_bound; lia. }
  rewrite Z.shiftr_div_pow2 in * by lia. cbn. split_and!; try done; try lia.
  f_equal. rewrite Ess', <- Z.pow_sub_r by lia. f_equal. lia.
Qed.

(** A volume of 100 MiB with 4 KiB clusters and 1 KiB MFT records. *)
Definition sample_boot : boot_sector :=
  mkboot 0x202020205346544e 512 8 0 0 0 0 0 63 0 204800 4 2 (-10) 1 1 0xaa55.

Lemma boot_geometry_witness :
  exists g, ntfs_boot_sector_parse (fun _ => true) sample_boot = Ret g /\
    cluster_size g = 2 ^ cluster_size_bits g /\ nr_clusters g = 25600.
Proof.
  assert (exists g, ntfs_boot_sector_parse (fun _ => true) sample_boot = Ret g) as [g E]
    by (eexists; vm_compute; reflexivity).
  exists g. split; [exact E|].
  destruct (boot_geometry (fun _ => true) sample_boot g) as (_ & _ & H & _);
    [split; cbn; lia|split; cbn; lia|split; cbn; lia|reflexivity|exact E|].
  split; [exact H|]. vm_compute in E. injection E as <-. reflexivity.
Defined.

(** An MFT at the first cluster behind the volume, whose clusters are 0 to 25599, is
    accepted. *)
Example mft_behind_volume :
  exists bs g, ntfs_boot_sector_is_ntfs bs = true /\
    ntfs_boot_sector_parse (fun _ => true) bs = Ret g /\ nr_clusters g = 25600 /\ mft_lcn g = 25600.
Proof.
  exists (mkboot 0x202020205346544e 512 8 0 0 0 0 0 63 0 204800 25600 2 (-10) 1 1 0xaa55).
  eexists. split; [reflexivity|]. split; [vm_compute; reflexivity|]. by split.
Qed.

(** MFT records of 2^30 bytes are accepted, and the MFT mirror then holds no
    record at all. *)
Example mftmirr_size_zero :
  exists bs g, ntfs_boot_sector_is_ntfs bs = true /\
    ntfs_boot_sector_parse (fun _ => true) bs = Ret g /\ mftmirr_size g = 0.
Proof.
  exists (mkboot 0x202020205346544e 512 8 0 0 0 0 0 63 0 204800 4 2 (-30) 1 1 0xaa55).
  eexists. split; [reflexivity|]. split; [vm_compute; reflexivity|reflexivity].
Qed.
