(* ===== verification/UefiIo.v ===== *)
(** * The UEFI device (ntfs/uefi_io.c)

    The device operations of the driver on top of the firmware's
    EFI_DISK_IO_PROTOCOL.  Reads and writes of any byte range are done in
    whole sectors: an unaligned write first reads the sectors at its edges.
    The protocol is an interface with the behaviour the UEFI specification
    promises; the file shows that the device then obeys the laws of
    Device.v. *)
From S2P Require Import Prelude Libc Boot Device.

(** ** The firmware's disk *)

(** EFI_DISK_IO_PROTOCOL: [ReadDisk] gives the bytes on EFI_SUCCESS;
    [WriteDisk] says whether it succeeded. *)
Class disk_io (Disk : Type) := {
  ReadDisk : Disk -> Z -> Z -> option bytes;
  WriteDisk : Disk -> Z -> bytes -> Disk * bool;
}.

(** A disk without errors: every transfer inside of it succeeds. *)
Class disk_io_laws (Disk : Type) `{disk_io Disk} := {
  disk_bytes : Disk -> bytes;
  read_law : forall d off n, 0 <= off -> 0 <= n -> off + n <= zlen (disk_bytes d) ->
    ReadDisk d off n = Some (sub (disk_bytes d) off n);
  write_law : forall d off b, 0 <= off -> off + zlen b <= zlen (disk_bytes d) ->
    exists d', WriteDisk d off b = (d', true) /\ disk_bytes d' = splice (disk_bytes d) off b;
}.

Section Uefi.
Context {Disk : Type} {io : disk_io Disk}.

(** Allocation: whether it succeeds, and what a new block holds. *)
Context (pool : Z -> bool) (fresh : Z -> bytes).

(** gekko_io.h:44-56 _uefi_fd *)
Record uefi_fd := mkfd {
  startSector : Z;
  hiddenSectors : Z;
  sectorSize : Z;
  sectorCount : Z;
  fpos : Z;
  flen : Z;
}.

(** device.h:77-83 ntfs_device. The disk behind it, the descriptor and the
    state flags. *)
Record ntfs_device := mkdev {
  disk : Disk;
  fd : uefi_fd;
  nd_open : bool;
  nd_readonly : bool;
  nd_dirty : bool;
  nd_block : bool;
  nd_sync : bool;
}.

Definition set_disk (dev : ntfs_device) (d : Disk) : ntfs_device :=
  mkdev d (fd dev) (nd_open dev) (nd_readonly dev) (nd_dirty dev) (nd_block dev) (nd_sync dev).
Definition set_fd (dev : ntfs_device) (f : uefi_fd) : ntfs_device :=
  mkdev (disk dev) f (nd_open dev) (nd_readonly dev) (nd_dirty dev) (nd_block dev) (nd_sync dev).
Definition set_dirty (dev : ntfs_device) (b : bool) : ntfs_device :=
  mkdev (disk dev) (fd dev) (nd_open dev) (nd_readonly dev) b (nd_block dev) (nd_sync dev).

(** uefi_io.c:504-518 ntfs_device_uefi_io_readsectors. The loop, sector by
    sector; [None] when it returns false. *)
Fixpoint readsectors_loop (n : nat) (dev : ntfs_device) (sector : Z) : option bytes :=
  match n with
  | O => Some []
  | S n' =>
    match ReadDisk (disk dev) (u64 (s64 (sector * sectorSize (fd dev)))) (sectorSize (fd dev)) with
    | None => None
    | Some b =>
      match readsectors_loop n' dev (sector + 1) with
      | None => None
      | Some r => Some (b ++ r)
      end
    end
  end.

(** uefi_io.c:486-522 ntfs_device_uefi_io_readsectors. The cache is never
    enabled. *)
Definition ntfs_device_uefi_io_readsectors (dev : ntfs_device) (sector numSectors : Z)
  : option bytes := readsectors_loop (Z.to_nat numSectors) dev sector.

(** uefi_io.c:547-560 ntfs_device_uefi_io_writesectors. The loop; sectors
    written before a failure stay written. *)
Fixpoint writesectors_loop (n : nat) (dev : ntfs_device) (sector : Z) (buffer : bytes) (i : Z)
  : ntfs_device * outcome bool :=
  match n with
  | O => (dev, Ret true)
  | S n' =>
    match rdn buffer i (sectorSize (fd dev)) with
    | Ret b =>
      let '(d, ok) := WriteDisk (disk dev) (u64 (s64 (sector * sectorSize (fd dev)))) b in
      let dev := set_disk dev d in
      if ok then writesectors_loop n' dev (sector + 1) buffer (i + sectorSize (fd dev))
      else (dev, Ret false)
    | _ => (dev, Fault)
    end
  end.

(** uefi_io.c:524-564 ntfs_device_uefi_io_writesectors *)
Definition ntfs_device_uefi_io_writesectors (dev : ntfs_device) (sector numSectors : Z)
    (buffer : bytes) : ntfs_device * outcome bool :=
  writesectors_loop (Z.to_nat numSectors) dev sector buffer 0.

(** uefi_io.c:310-319 ntfs_device_uefi_io_readbytes. Also 410-420: the first
    sector and the number of sectors of a byte range. *)
Definition sector_start (f : uefi_fd) (offset : Z) : Z :=
  if 0 <? offset then startSector f + offset / sectorSize f else startSector f.
Definition sector_count (f : uefi_fd) (buffer_offset count : Z) : Z :=
  if sectorSize f <? buffer_offset + count then
    (buffer_offset + count) / sectorSize f
    + (if negb ((buffer_offset + count) mod sectorSize f =? 0) then 1 else 0)
  else 1.

(** uefi_io.c:281-363 ntfs_device_uefi_io_readbytes. The bytes stored in the
    buffer.  A sector size of 0 is divided by; [count] is not negative, as
    [ntfs_pread] makes sure.  The size of the buffer is an [int]: the sectors that fit
    are read, and further ones would be stored behind it. *)
Definition ntfs_device_uefi_io_readbytes (dev : ntfs_device) (offset count : Z) : outcome bytes :=
  let f := fd dev in
  if (sectorSize f =? 0) || (count <? 0) then Fault
  else if offset <? 0 then Fail EROFS
  else if count =? 0 then Ret []
  else
    let buffer_offset := u32 (offset mod sectorSize f) in
    let sec_start := sector_start f offset in
    let sec_count := sector_count f buffer_offset count in
    if (buffer_offset =? 0) && (count mod sectorSize f =? 0) then
      match ntfs_device_uefi_io_readsectors dev sec_start sec_count with
      | None => Fail EIO
      | Some b => Ret b
      end
    else
      let size := s32 (sec_count * sectorSize f) in
      if negb (pool size) then Fail ENOMEM
      else
        match ntfs_device_uefi_io_readsectors dev sec_start (Z.min sec_count (size / sectorSize f)) with
        | None => Fail EIO
        | Some buffer =>
          if size <? sec_count * sectorSize f then Fault else rdn buffer buffer_offset (s32 count)
        end.

(** uefi_io.c:442-462 ntfs_device_uefi_io_writebytes. The write buffer: the
    sectors at the edges of the range as they are on the disk. *)
Definition write_edges (dev : ntfs_device) (sec_start sec_count buffer_offset count : Z)
    (buffer : bytes) : outcome bytes :=
  let ss := sectorSize (fd dev) in
  let! buffer := (if negb (buffer_offset =? 0) then
      match ntfs_device_uefi_io_readsectors dev sec_start 1 with
      | None => Fail EIO
      | Some b => wrn buffer 0 b
      end
    else Ret buffer) in
  if negb ((buffer_offset + count) mod ss =? 0) then
    match ntfs_device_uefi_io_readsectors dev (sec_start + sec_count - 1) 1 with
    | None => Fail EIO
    | Some b => wrn buffer ((sec_count - 1) * ss) b
    end
  else Ret buffer.

(** uefi_io.c:368-484 ntfs_device_uefi_io_writebytes. The size of the buffer and of the copy
    are of the type [int]. *)
Definition ntfs_device_uefi_io_writebytes (dev : ntfs_device) (offset : Z) (buf : bytes)
  : ntfs_device * outcome Z :=
  let f := fd dev in
  let count := zlen buf in
  if nd_readonly dev then (dev, Fail EROFS)
  else if offset <? 0 then (dev, Fail EROFS)
  else if count =? 0 then (dev, Ret 0)
  else if sectorSize f =? 0 then (dev, Fault)
  else
    let buffer_offset := u32 (offset mod sectorSize f) in
    let sec_start := sector_start f offset in
    let sec_count := sector_count f buffer_offset count in
    let write buffer :=
      match ntfs_device_uefi_io_writesectors dev sec_start sec_count buffer with
      | (dev, Ret true) => (set_dirty dev true, Ret count)
      | (dev, Ret false) => (dev, Fail EIO)
      | (dev, Fail e) => (dev, Fail e)
      | (dev, Fault) => (dev, Fault)
      end in
    if (buffer_offset =? 0) && (count mod sectorSize f =? 0) then write buf
    else if negb (pool (s32 (sec_count * sectorSize f))) then (dev, Fail ENOMEM)
    else
      match (let! buffer := write_edges dev sec_start sec_count buffer_offset count
                              (fresh (s32 (sec_count * sectorSize f))) in
             wrn buffer buffer_offset (take (Z.to_nat (s32 count)) buf)) with
      | Ret buffer => write buffer
      | Fail e => (dev, Fail e)
      | Fault => (dev, Fault)
      end.

(** uefi_io.c:265-268 ntfs_device_uefi_io_pread *)
Definition ntfs_device_uefi_io_pread (dev : ntfs_device) (count offset : Z)
  : ntfs_device * outcome bytes := (dev, ntfs_device_uefi_io_readbytes dev offset count).

(** uefi_io.c:273-276 ntfs_device_uefi_io_pwrite *)
Definition ntfs_device_uefi_io_pwrite (dev : ntfs_device) (buf : bytes) (offset : Z)
  : ntfs_device * outcome Z := ntfs_device_uefi_io_writebytes dev offset buf.

(** uefi_io.c:249-252 ntfs_device_uefi_io_read. The position is not moved. *)
Definition ntfs_device_uefi_io_read (dev : ntfs_device) (count : Z)
  : ntfs_device * outcome bytes := (dev, ntfs_device_uefi_io_readbytes dev (s64 (fpos (fd dev))) count).

(** uefi_io.c:257-260 ntfs_device_uefi_io_write *)
Definition ntfs_device_uefi_io_write (dev : ntfs_device) (buf : bytes)
  : ntfs_device * outcome Z := ntfs_device_uefi_io_writebytes dev (s64 (fpos (fd dev))) buf.

Inductive whence := SEEK_SET | SEEK_CUR | SEEK_END.

(** uefi_io.c:225-244 ntfs_device_uefi_io_seek. [pos] and [len] are unsigned,
    and so are the sums and comparisons they take part in. *)
Definition ntfs_device_uefi_io_seek (dev : ntfs_device) (offset : Z) (w : whence) : ntfs_device * Z :=
  let f := fd dev in
  let pos := match w with
    | SEEK_SET => Z.min (u64 (Z.max offset 0)) (flen f)
    | SEEK_CUR => Z.min (Z.max (u64 (fpos f + offset)) 0) (flen f)
    | SEEK_END => Z.min (Z.max (u64 (flen f + offset)) 0) (flen f)
    end in
  (set_fd dev (mkfd (startSector f) (hiddenSectors f) (sectorSize f) (sectorCount f) pos (flen f)), 0).

(** uefi_io.c:569-590 ntfs_device_uefi_io_sync *)
Definition ntfs_device_uefi_io_sync (dev : ntfs_device) : ntfs_device * outcome unit :=
  if nd_readonly dev then (dev, Fail EROFS)
  else (mkdev (disk dev) (fd dev) (nd_open dev) (nd_readonly dev) false (nd_block dev) false, Ret tt).

(** fcntl.h:4-6 O_RDONLY *)
Definition O_RDONLY : Z := 0.
Definition O_RDWR : Z := 2.

(** uefi_io.c:81-163 ntfs_device_uefi_io_open. EBUSY and EINVALPART are not
    distinguished from EINVAL. *)
Definition ntfs_device_uefi_io_open (dev : ntfs_device) (flags : Z) : ntfs_device * outcome unit :=
  if nd_open dev then (dev, Fail EINVAL)
  else if negb (pool 4096) then (dev, Fail ENOMEM)
  else match ReadDisk (disk dev) 0 512 with
  | None => (dev, Fail EIO)
  | Some b =>
    match boot_of_bytes b with
    | Ret boot =>
      if negb (ntfs_boot_sector_is_ntfs boot) then (dev, Fail EINVAL)
      else
        let count := u64 (number_of_sectors boot) in
        let f := mkfd (startSector (fd dev)) (hidden_sectors boot) (bytes_per_sector boot) count 0
                   (u64 (count * bytes_per_sector boot)) in
        (mkdev (disk dev) f true (if negb (Z.land flags O_RDONLY =? 0) then true else nd_readonly dev)
           (nd_dirty dev) true (nd_sync dev), Ret tt)
    | _ => (dev, Fault)
    end
  end.

(** uefi_io.c:168-220 ntfs_device_uefi_io_close *)
Definition ntfs_device_uefi_io_close (dev : ntfs_device) : ntfs_device * outcome unit :=
  if negb (nd_open dev) then (dev, Fail EIO)
  else (mkdev (disk dev) (fd dev) false (nd_readonly dev)
          (if nd_dirty dev && negb (nd_readonly dev) then false else nd_dirty dev) false (nd_sync dev),
        Ret tt).

(** uefi_io.c:710-721 ntfs_device_uefi_io_ops *)
#[export] Instance ntfs_device_uefi_io_ops : device_operations ntfs_device := {
  op_pread := ntfs_device_uefi_io_pread;
  op_pwrite := ntfs_device_uefi_io_pwrite;
  op_sync := ntfs_device_uefi_io_sync;
  NDevReadOnly := nd_readonly;
  NDevDirty := nd_dirty;
  NDevSync := nd_sync;
  NDevSetDirty := fun dev => set_dirty dev true;
}.
End Uefi.

(** ** Byte ranges through sectors *)
Section UefiLaws.
Context {Disk : Type} {io : disk_io Disk} {iolaws : disk_io_laws Disk}.
Context (pool : Z -> bool) (fresh : Z -> bytes).
Context (pool_ok : forall n, pool n = true) (fresh_ok : forall n, 0 <= n -> zlen (fresh n) = n).
Abbreviation dev := (@ntfs_device Disk).

(** The partition lies inside of the disk. *)
Definition uefi_ok (d : dev) : Prop :=
  let f := fd d in
  0 < sectorSize f < 65536 /\ 0 <= startSector f /\ 0 <= sectorCount f /\
  (startSector f + sectorCount f) * sectorSize f <= zlen (disk_bytes (disk d)) /\
  zlen (disk_bytes (disk d)) < 2 ^ 63.

(** What it holds. *)
Definition uefi_bytes (d : dev) : bytes :=
  let f := fd d in
  sub (disk_bytes (disk d)) (startSector f * sectorSize f) (sectorCount f * sectorSize f).

Lemma sector_offset s ss n : 0 <= s -> 0 < ss -> s * ss <= n -> n < 2 ^ 63 -> u64 (s64 (s * ss)) = s * ss.
Proof.
  intros. assert (0 <= s * ss) by nia.
  rewrite wraps_small by (unfold in_s; cbn in *; lia || lia).
  apply wrapu_small. unfold in_u. cbn in *. lia.
Qed.

Lemma readsectors_loop_ok n (d : dev) s :
  0 < sectorSize (fd d) -> 0 <= s -> (s + Z.of_nat n) * sectorSize (fd d) <= zlen (disk_bytes (disk d)) ->
  zlen (disk_bytes (disk d)) < 2 ^ 63 ->
  readsectors_loop n d s =
  Some (sub (disk_bytes (disk d)) (s * sectorSize (fd d)) (Z.of_nat n * sectorSize (fd d))).
Proof using All.
  revert s. induction n as [|n IH]; intros s Hss Hs Hl H63; cbn [readsectors_loop]; [done|].
  set (ss := sectorSize (fd d)) in *.
  rewrite (sector_offset s ss (zlen (disk_bytes (disk d)))) by (done || nia).
  rewrite read_law by nia. rewrite IH by (done || lia || nia).
  f_equal. replace ((s + 1) * ss) with (s * ss + ss) by lia. rewrite sub_app by nia. f_equal. lia.
Qed.

Lemma writesectors_loop_ok n (d : dev) s b i :
  0 < sectorSize (fd d) -> 0 <= s -> 0 <= i ->
  (s + Z.of_nat n) * sectorSize (fd d) <= zlen (disk_bytes (disk d)) ->
  zlen (disk_bytes (disk d)) < 2 ^ 63 -> i + Z.of_nat n * sectorSize (fd d) <= zlen b ->
  exists k, writesectors_loop n d s b i = (set_disk d k, Ret true) /\
    disk_bytes k = splice (disk_bytes (disk d)) (s * sectorSize (fd d))
                     (sub b i (Z.of_nat n * sectorSize (fd d))).
Proof using All.
  revert d s i. induction n as [|n IH]; intros d s i Hss Hs Hi Hl H63 Hb; cbn [writesectors_loop].
  - exists (disk d). rewrite sub_0, splice_nil. by destruct d.
  - set (ss := sectorSize (fd d)) in *. rewrite rdn_ok by nia.
    assert (zlen (sub b i ss) = ss) as Hz by (apply zlen_sub; nia).
    rewrite (sector_offset s ss (zlen (disk_bytes (disk d)))) by (done || nia).
    destruct (write_law (disk d) (s * ss) (sub b i ss)) as (k & -> & Hk); [nia|rewrite Hz; nia|].
    destruct (IH (set_disk d k) (s + 1) (i + ss)) as (k' & E & Hk'); [done|lia|lia| | |cbn; nia|].
    { cbn. fold ss. rewrite Hk, zlen_splice by (rewrite ?Hz; nia). lia. }
    { cbn. rewrite Hk, zlen_splice by (rewrite ?Hz; nia). lia. }
    exists k'. change (sectorSize (fd (set_disk d k))) with ss. rewrite E. cbn in Hk'. fold ss in Hk'. split; [done|].
    rewrite Hk', Hk. replace ((s + 1) * ss) with (s * ss + zlen (sub b i ss)) by lia.
    assert (zlen (sub b (i + ss) (Z.of_nat n * ss)) = Z.of_nat n * ss) as Hz' by (apply zlen_sub; nia).
    rewrite splice_splice by (rewrite ?Hz, ?Hz'; nia). f_equal.
    rewrite sub_app by nia. f_equal. lia.
Qed.

(** The sectors of a byte range: they hold it and lie in the partition. *)
Lemma sector_range (f : uefi_fd) offset count :
  0 < sectorSize f < 65536 -> 0 <= offset -> 0 < count ->
  offset + count <= sectorCount f * sectorSize f ->
  let ss := sectorSize f in
  let r := offset mod ss in
  let n := sector_count f r count in
  u32 (offset mod ss) = r /\ 0 <= r < ss /\
  sector_start f offset * ss + r = startSector f * ss + offset /\
  startSector f <= sector_start f offset /\
  0 < n /\ sector_start f offset + n <= startSector f + sectorCount f /\
  (n - 1) * ss < r + count <= n * ss /\
  ((r + count) mod ss = 0 -> r + count = n * ss) /\
  ((r + count) mod ss <> 0 -> r + count < n * ss).
Proof.
  intros Hss Ho Hc Hend ss r n. fold ss in Hss, Hend.
  assert (0 <= r < ss) as Hr by (apply Z.mod_pos_bound; lia).
  pose proof (Z.div_mod offset ss ltac:(lia)) as Hdm. fold r in Hdm.
  assert (0 <= offset / ss) by (apply Z.div_pos; lia).
  assert (sector_start f offset = startSector f + offset / ss) as Est.
  { unfold sector_start. fold ss. destruct (Z.ltb_spec 0 offset); [done|].
    replace offset with 0 by lia. rewrite Z.div_0_l by lia. lia. }
  rewrite Est.
  assert (0 < n /\ (n - 1) * ss < r + count <= n * ss /\
    ((r + count) mod ss = 0 -> r + count = n * ss) /\
    ((r + count) mod ss <> 0 -> r + count < n * ss)) as (Hn & Hn1 & Hn2 & Hn3).
  { unfold n, sector_count. fold ss. pose proof (Z.div_mod (r + count) ss ltac:(lia)) as Hdm2.
    pose proof (Z.mod_pos_bound (r + count) ss ltac:(lia)).
    destruct (Z.ltb_spec ss (r + count)).
    - assert (1 <= (r + count) / ss) by (apply Z.div_le_lower_bound; lia).
      destruct (Z.eqb_spec ((r + count) mod ss) 0) as [E|E]; cbn [negb]; split_and!; nia.
    - split_and!; [lia|lia|lia| |].
      + intros E. assert (1 <= (r + count) / ss) by (rewrite E in Hdm2; nia). nia.
      + intros E. destruct (Z.eq_dec (r + count) ss) as [E2|]; [|lia].
        rewrite E2, Z.mod_same in E by lia. done. }
  split_and!; try done; try lia.
  - apply wrapu_small. unfold in_u. cbn. lia.
  - enough (offset / ss + n <= sectorCount f) by lia. nia.
Qed.

Lemma uefi_bytes_length (d : dev) : uefi_ok d -> zlen (uefi_bytes d) = sectorCount (fd d) * sectorSize (fd d).
Proof. intros (H1 & H2 & H3 & H4 & H5). unfold uefi_bytes. apply zlen_sub; nia. Qed.

Lemma s32_small z : 0 <= z < 2 ^ 31 -> s32 z = z.
Proof. intros. apply wraps_small; [lia|]. unfold in_s. lia. Qed.

(** Whole sectors are transferred directly; other ranges through a buffer, whose size has to
    be an [int]. *)
Definition transferable (f : uefi_fd) (offset count : Z) : Prop :=
  (offset mod sectorSize f = 0 /\ count mod sectorSize f = 0) \/ count <= max_io.

(** Every byte range of the partition reads as it is stored. *)
Lemma readbytes_ok (d : dev) offset count :
  uefi_ok d -> 0 <= offset -> 0 < count -> transferable (fd d) offset count -> offset + count <= zlen (uefi_bytes d) ->
  ntfs_device_uefi_io_readbytes pool d offset count = Ret (sub (uefi_bytes d) offset count).
Proof using All.
  intros Hok Ho Hc Hmax Hend. rewrite uefi_bytes_length in Hend by done.
  pose proof Hok as (Hss & Hst & Hsc & Hpart & H63).
  destruct (sector_range (fd d) offset count Hss Ho Hc Hend)
    as (Er & Hr & Ebase & Hge & Hn & Hin & Hn1 & Hn2 & Hn3).
  unfold uefi_bytes. rewrite sub_sub by lia.
  set (f := fd d) in *. set (ss := sectorSize f) in *. set (r := offset mod ss) in *.
  set (n := sector_count f r count) in *. set (s0 := sector_start f offset) in *.
  unfold ntfs_device_uefi_io_readbytes. fold f ss r. rewrite Er. fold s0 n.
  destruct (Z.eqb_spec ss 0); [lia|]. destruct (Z.ltb_spec count 0); [lia|]. cbn [orb].
  destruct (Z.ltb_spec offset 0); [lia|]. destruct (Z.eqb_spec count 0); [lia|].
  assert ((s0 + n) * ss <= zlen (disk_bytes (disk d))) as Hfit by nia.
  unfold ntfs_device_uefi_io_readsectors.
  destruct ((r =? 0) && (count mod ss =? 0)) eqn:Edir.
  - rewrite readsectors_loop_ok by (fold f ss; rewrite ?Z2Nat.id; lia). fold f ss. rewrite Z2Nat.id by lia.
    apply andb_prop in Edir as [E0 E1]. apply Z.eqb_eq in E0, E1. f_equal. f_equal; [lia|]. rewrite E0, Z.add_0_l in Hn2. specialize (Hn2 E1). lia.
  - assert (count <= max_io) as Hmax' by (destruct Hmax as [[E0 E1]|?]; [fold f ss r in E0; fold f ss in E1; lia|done]).
    unfold max_io in Hmax'. assert (0 <= n * ss < 2 ^ 31) as Hns by (split; [apply Z.mul_nonneg_nonneg; lia|lia]).
    rewrite (s32_small (n * ss) Hns), (s32_small count) by lia.
    rewrite pool_ok. cbn [negb]. rewrite Z.div_mul, Z.min_id by lia. clear Edir Hmax' Hns Hmax.
    rewrite readsectors_loop_ok by (fold f ss; rewrite ?Z2Nat.id; lia). fold f ss. rewrite Z2Nat.id by lia.
    assert (0 <= s0 * ss) as H1 by (apply Z.mul_nonneg_nonneg; lia). assert (0 <= n * ss) as H2 by (apply Z.mul_nonneg_nonneg; lia).
    assert (zlen (sub (disk_bytes (disk d)) (s0 * ss) (n * ss)) = n * ss) as Hz by (apply zlen_sub; lia).
    rewrite Z.ltb_irrefl, rdn_ok by (rewrite ?Hz; lia). rewrite sub_sub by lia. by rewrite <- Ebase.
Qed.

(** A buffer that agrees with the disk outside of the range. *)
Lemma splice_through {A} (l e x : list A) p r :
  0 <= p -> 0 <= r -> r + zlen x <= zlen e -> p + zlen e <= zlen l ->
  (forall j, 0 <= j < zlen e -> ~ (r <= j < r + zlen x) -> rd e j = rd l (p + j)) ->
  splice l p (splice e r x) = splice l (p + r) x.
Proof.
  intros Hp Hr Hx He H. pose proof (zlen_nonneg x).
  assert (zlen (splice e r x) = zlen e) as Hz by (apply zlen_splice; lia).
  apply list_eq_rd; [rewrite !zlen_splice; lia|].
  intros j Hj. rewrite zlen_splice in Hj by lia.
  rewrite (rd_splice l p), (rd_splice l (p + r)) by lia. rewrite Hz.
  destruct (Z.leb_spec p j), (Z.ltb_spec j (p + zlen e)), (Z.leb_spec (p + r) j),
    (Z.ltb_spec j (p + r + zlen x)); cbn [andb]; try lia; try done;
    rewrite (rd_splice e) by lia;
    destruct (Z.leb_spec r (j - p)), (Z.ltb_spec (j - p) (r + zlen x)); cbn [andb]; try lia;
    try (f_equal; lia); rewrite H by lia; f_equal; lia.
Qed.

(** The write buffer has the disk's bytes at its edges. *)
Lemma write_edges_ok (d : dev) s0 n r count e :
  0 < sectorSize (fd d) -> 0 <= s0 -> 0 < n -> 0 <= r < sectorSize (fd d) -> 0 < count ->
  (s0 + n) * sectorSize (fd d) <= zlen (disk_bytes (disk d)) -> zlen (disk_bytes (disk d)) < 2 ^ 63 ->
  (n - 1) * sectorSize (fd d) < r + count <= n * sectorSize (fd d) ->
  ((r + count) mod sectorSize (fd d) = 0 -> r + count = n * sectorSize (fd d)) ->
  zlen e = n * sectorSize (fd d) ->
  exists e', write_edges d s0 n r count e = Ret e' /\ zlen e' = zlen e /\
    forall j, 0 <= j < zlen e' -> ~ (r <= j < r + count) ->
      rd e' j = rd (disk_bytes (disk d)) (s0 * sectorSize (fd d) + j).
Proof using All.
  intros Hss Hs Hn Hr Hc Hfit H63 Hn1 Hn2 He. unfold write_edges.
  set (ss := sectorSize (fd d)) in *. set (D := disk_bytes (disk d)) in *.
  assert (forall s, 0 <= s -> (s + 1) * ss <= zlen D ->
    ntfs_device_uefi_io_readsectors d s 1 = Some (sub D (s * ss) ss)) as Hrd.
  { intros s H1 H2. unfold ntfs_device_uefi_io_readsectors. change (Z.to_nat 1) with 1%nat.
    rewrite readsectors_loop_ok by (done || fold ss; lia). fold ss D. do 2 f_equal. lia. }
  assert (forall x i, 0 <= i -> i + ss <= zlen x -> forall s, zlen (sub D (s * ss) ss) = ss ->
    wrn x i (sub D (s * ss) ss) = Ret (splice x i (sub D (s * ss) ss))) as Hwr.
  { intros x i H1 H2 s H3. apply wrn_ok; lia. }
  assert (zlen (sub D (s0 * ss) ss) = ss) as Hz0 by (apply zlen_sub; nia).
  assert (zlen (sub D ((s0 + n - 1) * ss) ss) = ss) as Hz1 by (apply zlen_sub; nia).
  assert (exists e1, (if negb (r =? 0) then match ntfs_device_uefi_io_readsectors d s0 1 with
      | None => Fail EIO | Some b => wrn e 0 b end else Ret e) = Ret e1 /\ zlen e1 = zlen e /\
      forall j, 0 <= j < r -> rd e1 j = rd D (s0 * ss + j)) as (e1 & -> & Hze1 & He1).
  { destruct (Z.eqb_spec r 0) as [->|]; cbn [negb]; [exists e; split_and!; [done|done|lia]|].
    rewrite Hrd, Hwr by (done || nia). eexists. split_and!; [done|apply zlen_splice; nia|].
    intros j Hj. rewrite rd_splice by nia. rewrite Hz0.
    destruct (Z.leb_spec 0 j), (Z.ltb_spec j (0 + ss)); try lia. cbn [andb].
    rewrite rd_sub by nia. destruct (Z.ltb_spec (j - 0) ss); [f_equal; lia|lia]. }
  cbn [obind]. destruct (Z.eqb_spec ((r + count) mod ss) 0) as [E|E]; cbn [negb].
  - exists e1. split_and!; [done|done|]. intros j Hj Hout. apply He1. specialize (Hn2 E). lia.
  - rewrite Hrd by nia. rewrite Hwr by (done || nia). eexists.
    split_and!; [done|rewrite zlen_splice; nia|].
    intros j Hj Hout. rewrite zlen_splice in Hj by nia. rewrite rd_splice by nia. rewrite Hz1.
    destruct (Z.leb_spec ((n - 1) * ss) j); cbn [andb].
    + destruct (Z.ltb_spec j ((n - 1) * ss + ss)); [|nia].
      rewrite rd_sub by nia. destruct (Z.ltb_spec (j - (n - 1) * ss) ss); [f_equal; nia|lia].
    + apply He1. nia.
Qed.

(** Every write changes exactly its byte range of the partition. *)
Lemma writebytes_ok (d : dev) offset buf :
  uefi_ok d -> nd_readonly d = false -> 0 <= offset -> buf <> [] -> transferable (fd d) offset (zlen buf) ->
  offset + zlen buf <= zlen (uefi_bytes d) ->
  exists d', ntfs_device_uefi_io_writebytes pool fresh d offset buf = (d', Ret (zlen buf)) /\
    uefi_ok d' /\ nd_readonly d' = false /\ nd_dirty d' = true /\ fd d' = fd d /\
    disk_bytes (disk d') = splice (disk_bytes (disk d)) (startSector (fd d) * sectorSize (fd d) + offset) buf /\
    uefi_bytes d' = splice (uefi_bytes d) offset buf.
Proof using All.
  intros Hok Hro Ho Hne Hmax Hend. rewrite uefi_bytes_length in Hend by done.
  assert (0 < zlen buf) as Hc by (destruct buf; [done|zlia]).
  pose proof Hok as (Hss & Hst & Hsc & Hpart & H63).
  destruct (sector_range (fd d) offset (zlen buf) Hss Ho Hc Hend)
    as (Er & Hr & Ebase & Hge & Hn & Hin & Hn1 & Hn2 & Hn3).
  unfold ntfs_device_uefi_io_writebytes. rewrite Hro.
  destruct (Z.ltb_spec offset 0); [lia|]. destruct (Z.eqb_spec (zlen buf) 0) as [?|Hnb]; [lia|].
  set (f := fd d) in *. set (ss := sectorSize f) in *. set (r := offset mod ss) in *.
  set (n := sector_count f r (zlen buf)) in *. set (s0 := sector_start f offset) in *.
  destruct (Z.eqb_spec ss 0); [lia|]. fold r. rewrite Er. fold n.
  set (D := disk_bytes (disk d)) in *.
  assert ((s0 + n) * ss <= zlen D) as Hfit by nia.
  assert (forall B k, zlen B = n * ss -> disk_bytes k = splice D (s0 * ss) (sub B 0 (n * ss)) ->
    splice D (s0 * ss) B = splice D (s0 * ss + r) buf ->
    uefi_ok (set_dirty (set_disk d k) true) /\ disk_bytes k = splice D (startSector f * ss + offset) buf /\
    uefi_bytes (set_dirty (set_disk d k) true) = splice (uefi_bytes d) offset buf) as Hfin.
  { intros B k HB Hk HE. rewrite <- HB, sub_all, HE in Hk.
    assert (zlen (disk_bytes k) = zlen D) as Hzk by (rewrite Hk, zlen_splice; nia).
    split; [unfold uefi_ok; cbn; fold f ss; rewrite Hzk; split_and!; done || lia|].
    split; [by rewrite Hk, Ebase|].
    unfold uefi_bytes. cbn. fold f ss D. rewrite Hk, Ebase. apply sub_splice_inside; nia. }
  assert (forall B, zlen B = n * ss -> splice D (s0 * ss) B = splice D (s0 * ss + r) buf ->
    exists d', (match ntfs_device_uefi_io_writesectors d s0 n B with
      | (dev, Ret true) => (set_dirty dev true, Ret (zlen buf))
      | (dev, Ret false) => (dev, Fail EIO)
      | (dev, Fail e) => (dev, Fail e)
      | (dev, Fault) => (dev, Fault)
      end) = (d', Ret (zlen buf)) /\ uefi_ok d' /\ nd_readonly d' = false /\ nd_dirty d' = true /\
      fd d' = f /\ disk_bytes (disk d') = splice D (startSector f * ss + offset) buf /\
      uefi_bytes d' = splice (uefi_bytes d) offset buf) as Hwrite.
  { intros B HB HE. unfold ntfs_device_uefi_io_writesectors.
    destruct (writesectors_loop_ok (Z.to_nat n) d s0 B 0) as (k & -> & Hk);
      [fold f ss; lia|lia|lia|fold f ss D; rewrite Z2Nat.id by lia; lia|done|
       fold f ss; rewrite Z2Nat.id by lia; lia|].
    fold f ss D in Hk. rewrite Z2Nat.id in Hk by lia.
    destruct (Hfin B k HB Hk HE) as (H1 & H2 & H3). eexists. split; [done|]. done. }
  destruct ((r =? 0) && (zlen buf mod ss =? 0)) eqn:Edir.
  - apply Hwrite; [|by replace r with 0 by lia; rewrite Z.add_0_r].
    assert (r = 0 /\ zlen buf mod ss = 0) as [E0 E1] by lia. rewrite E0, Z.add_0_l in Hn2. lia.
  - assert (zlen buf <= max_io) as Hmax' by (destruct Hmax as [[E0 E1]|?]; [fold f ss r in E0; fold f ss in E1; lia|done]).
    unfold max_io in Hmax'. assert (0 <= n * ss < 2 ^ 31) as Hns by (split; [apply Z.mul_nonneg_nonneg; lia|lia]).
    rewrite (s32_small (n * ss) Hns), (s32_small (zlen buf)) by lia.
    rewrite take_ge by zlia. rewrite pool_ok. cbn [negb]. assert (0 <= n * ss) as Hnn by (apply Z.mul_nonneg_nonneg; lia).
    destruct (write_edges_ok d s0 n r (zlen buf) (fresh (n * ss))) as (e & Ee & Hze & He);
      [exact (proj1 Hss)|lia|lia|exact Hr|exact Hc|exact Hfit|exact H63|exact Hn1|exact Hn2|exact (fresh_ok _ Hnn)|].
    rewrite Ee. rewrite (fresh_ok _ Hnn) in Hze. cbn [obind]. fold f ss D in He.
    assert (r + zlen buf <= zlen e) as Hin2 by (rewrite Hze; apply Hn1).
    rewrite wrn_ok by (exact Hin2 || apply Hr).
    apply Hwrite; [rewrite zlen_splice by (exact Hin2 || apply Hr); exact Hze|].
    apply splice_through; [apply Z.mul_nonneg_nonneg; lia|apply Hr|exact Hin2|rewrite Hze; lia|exact He].
Qed.

(** The device obeys the laws that the device layer relies on. *)
#[export] Instance uefi_device_laws :
  @device_laws dev (ntfs_device_uefi_io_ops pool fresh).
Proof using All.
  refine (@Build_device_laws dev (ntfs_device_uefi_io_ops pool fresh) uefi_ok uefi_bytes _ _ _ _).
  - intros d pos n Hok Hp [Hn Hmax] Hend. exists d, n. cbn. unfold ntfs_device_uefi_io_pread.
    rewrite readbytes_ok by (done || lia || by right). split_and!; done || lia.
  - intros d pos b Hok Hro Hp Hne Hmax Hend. cbn in *. unfold ntfs_device_uefi_io_pwrite.
    destruct (writebytes_ok d pos b Hok Hro Hp Hne (or_intror Hmax) Hend) as (d' & -> & H1 & H2 & _ & _ & _ & H3).
    exists d', (zlen b). rewrite sub_all. destruct b; [done|]. split_and!; done || zlia.
  - intros d Hok Hro. cbn in *. unfold ntfs_device_uefi_io_sync. rewrite Hro.
    eexists. split; [done|]. done.
  - intros d Hok. done.
Defined.
End UefiLaws.

(** C14. A write of a byte range of the partition, of whole sectors, or of any range of at
    most [max_io] (2 GiB less 128 KiB) bytes, changes exactly that range of the whole disk, marks the device dirty, and
    every later read of the partition sees it. *)
Theorem uefi_write_read {Disk} {io : disk_io Disk} {laws : disk_io_laws Disk} pool fresh
    (d : @ntfs_device Disk) offset buf :
  (forall n, pool n = true) -> (forall n, 0 <= n -> zlen (fresh n) = n) ->
  uefi_ok d -> nd_readonly d = false -> 0 <= offset -> buf <> [] -> transferable (fd d) offset (zlen buf) ->
  offset + zlen buf <= sectorCount (fd d) * sectorSize (fd d) ->
  exists d', ntfs_device_uefi_io_writebytes pool fresh d offset buf = (d', Ret (zlen buf)) /\
    nd_dirty d' = true /\
    disk_bytes (disk d') =
      splice (disk_bytes (disk d)) (startSector (fd d) * sectorSize (fd d) + offset) buf /\
    forall o c, 0 <= o -> 0 < c -> transferable (fd d) o c -> o + c <= sectorCount (fd d) * sectorSize (fd d) ->
      ntfs_device_uefi_io_readbytes pool d' o c = Ret (sub (splice (uefi_bytes d) offset buf) o c).
Proof.
  intros Hpool Hfresh Hok Hro Ho Hne Hmax Hr. rewrite <- (uefi_bytes_length d) in * by done.
  destruct (writebytes_ok pool fresh Hpool Hfresh d offset buf) as (d' & E & Hok' & _ & Hd & Hf & HD & HB);
    [done..|].
  exists d'. split_and!; [done..|]. intros o c Ho' Hc Hcm Hoc. rewrite <- Hf in Hcm.
  rewrite (readbytes_ok pool fresh Hpool Hfresh) by (done || rewrite HB, zlen_splice; done || lia). by rewrite HB.
Qed.

(** *** Errors *)
Lemma readsectors_loop_none {Disk} {io : disk_io Disk} n (d : @ntfs_device Disk) s :
  readsectors_loop n d s = None -> exists o c, ReadDisk (disk d) o c = None.
Proof.
  revert s. induction n as [|n IH]; intros s; cbn [readsectors_loop]; [done|].
  destruct (ReadDisk _ _ _) eqn:E; [|by eauto]. destruct (readsectors_loop n d (s + 1)) eqn:E2; [done|].
  intros _. by apply (IH (s + 1)).
Qed.

Lemma writesectors_loop_error {Disk} {io : disk_io Disk} n (d d' : @ntfs_device Disk) s b i r :
  writesectors_loop n d s b i = (d', r) ->
  fd d' = fd d /\ nd_dirty d' = nd_dirty d /\
  match r with
  | Ret false => exists k o b', WriteDisk k o b' = (disk d', false)
  | Fail _ => False
  | _ => True
  end.
Proof.
  revert d s i. induction n as [|n IH]; intros d s i; cbn [writesectors_loop]; [by intros [= <- <-]|].
  destruct (rdn b i (sectorSize (fd d))) as [x|?|]; [|by intros [= <- <-]..].
  destruct (WriteDisk _ _ x) as [k ok] eqn:E. destruct ok; [exact (IH (set_disk d k) _ _)|].
  intros [= <- <-]. cbn. split_and!; eauto.
Qed.

Lemma wrn_fail {A} (l xs : list A) i e : wrn l i xs = Fail e -> False.
Proof. unfold wrn. destruct xs; [done|]. by case_match. Qed.

Lemma write_edges_error {Disk} {io : disk_io Disk} (d : @ntfs_device Disk) s n r c b e :
  write_edges d s n r c b = Fail e -> e = EIO /\ exists o k, ReadDisk (disk d) o k = None.
Proof.
  assert (forall s x i, match ntfs_device_uefi_io_readsectors d s 1 with
    | Some y => wrn x i y | None => Fail EIO end = Fail e ->
    e = EIO /\ exists o k, ReadDisk (disk d) o k = None) as H.
  { intros s' x i. unfold ntfs_device_uefi_io_readsectors. destruct (readsectors_loop _ _ _) eqn:E.
    - by intros ?%wrn_fail. - intros [= <-]. split; [done|]. by eapply readsectors_loop_none. }
  unfold write_edges. destruct (negb (r =? 0)); cbn [obind].
  - match goal with |- context [obind ?m _] => destruct m as [b1|e1|] eqn:E1 end; cbn [obind]; [| |done].
    + destruct (negb _); [apply H|done].
    + intros [= ->]. exact (H _ _ _ E1).
  - destruct (negb _); [apply H|done].
Qed.

(** A failed request leaves the disk alone unless a sector write itself
    fails: when the firmware cannot read (the edges of the range) or there is
    no memory, a write returns an error, and a read-only device is never
    written, whatever the firmware does. *)
Theorem uefi_write_error {Disk} {io : disk_io Disk} pool fresh (d d' : @ntfs_device Disk) offset buf e :
  ntfs_device_uefi_io_writebytes pool fresh d offset buf = (d', Fail e) ->
  e = EROFS /\ d' = d /\ (nd_readonly d = true \/ offset < 0) \/
  e = ENOMEM /\ d' = d /\ (exists n, pool n = false) \/
  e = EIO /\ nd_readonly d = false /\ fd d' = fd d /\ nd_dirty d' = nd_dirty d /\
    (d' = d /\ (exists o n, ReadDisk (disk d) o n = None) \/
     exists k o b, WriteDisk k o b = (disk d', false)).
Proof.
  intros H. unfold ntfs_device_uefi_io_writebytes in H.
  destruct (nd_readonly d) eqn:Ero; [injection H as <- <-; auto|].
  destruct (Z.ltb_spec offset 0); [injection H as <- <-; auto|].
  destruct (zlen buf =? 0); [done|]. destruct (sectorSize (fd d) =? 0); [done|].
  assert (forall s n b, match ntfs_device_uefi_io_writesectors d s n b with
    | (dev, Ret true) => (set_dirty dev true, Ret (zlen buf))
    | (dev, Ret false) => (dev, Fail EIO)
    | (dev, Fail e) => (dev, Fail e)
    | (dev, Fault) => (dev, Fault)
    end = (d', Fail e) -> e = EIO /\ fd d' = fd d /\ nd_dirty d' = nd_dirty d /\
    exists k o b, WriteDisk k o b = (disk d', false)) as Hw.
  { intros s n b. unfold ntfs_device_uefi_io_writesectors.
    destruct (writesectors_loop _ d s b 0) as [d1 r] eqn:E.
    destruct (writesectors_loop_error _ _ _ _ _ _ _ E) as (H1 & H2 & H3).
    destruct r as [[]|?|]; [done| |done..]. by intros [= <- <-]. }
  right. destruct ((_ =? 0) && _) in H.
  - right. destruct (Hw _ _ _ H) as (-> & ? & ? & ?). split_and!; auto.
  - destruct (pool _) eqn:Epool in H; cbn [negb] in H; [|injection H as <- <-; left; eauto].
    right. destruct (write_edges _ _ _ _ _ _) as [b1|e1|] eqn:Ew in H; cbn [obind] in H; [| |done].
    + destruct (wrn _ _ _) as [b2|e2|] eqn:E2 in H; [|by apply wrn_fail in E2|done].
      destruct (Hw _ _ _ H) as (-> & ? & ? & ?). split_and!; auto.
    + injection H as <- <-. apply write_edges_error in Ew as [-> ?]. split_and!; auto.
Qed.

(** Opening never makes the device read-only: [flags & O_RDONLY] is zero
    for every [flags], since O_RDONLY is. *)
Theorem uefi_open_never_readonly {Disk} {io : disk_io Disk} pool (d d' : @ntfs_device Disk) flags :
  ntfs_device_uefi_io_open pool d flags = (d', Ret tt) -> nd_readonly d' = nd_readonly d.
Proof.
  unfold ntfs_device_uefi_io_open, O_RDONLY. rewrite Z.land_0_r. cbn.
  destruct (nd_open d); [done|]. destruct (negb (pool 4096)); [done|].
  destruct (ReadDisk (disk d) 0 512); [|done]. destruct (boot_of_bytes _); [|done..].
  destruct (negb _); [done|]. by intros [= <-].
Qed.

(** *** Witnesses: a memory disk with sectors of four bytes *)
#[export] Instance mem_disk : disk_io bytes := {
  ReadDisk d off n := match rdn d off n with Ret b => Some b | _ => None end;
  WriteDisk d off b := match wrn d off b with Ret d' => (d', true) | _ => (d, false) end;
}.

#[export] Instance mem_disk_laws : disk_io_laws bytes.
Proof.
  refine (@Build_disk_io_laws bytes mem_disk (fun d => d) _ _).
  - intros. cbn. by rewrite rdn_ok by lia.
  - intros. cbn. rewrite wrn_ok by lia. eauto.
Defined.

(** A partition of three sectors that starts at sector 1. *)
Definition mem_dev : @ntfs_device bytes :=
  mkdev [0;0;0;0; 1;2;3;4; 5;6;7;8; 9;10;11;12; 0;0;0;0] (mkfd 1 1 4 3 0 12) true false false true false.
Definition zeros (n : Z) : bytes := replicate (Z.to_nat n) 0.
Lemma zeros_ok n : 0 <= n -> zlen (zeros n) = n.
Proof. intros. unfold zeros, zlen. rewrite length_replicate. lia. Qed.

Lemma uefi_write_read_witness :
  exists d', ntfs_device_uefi_io_writebytes (fun _ => true) zeros mem_dev 3 [21;22;23;24;25;26] = (d', Ret 6) /\
    nd_dirty d' = true /\ disk d' = [0;0;0;0; 1;2;3;21; 22;23;24;25; 26;10;11;12; 0;0;0;0] /\
    forall o c, 0 <= o -> 0 < c -> transferable (fd mem_dev) o c -> o + c <= 3 * 4 ->
      ntfs_device_uefi_io_readbytes (fun _ => true) d' o c =
      Ret (sub [1;2;3;21; 22;23;24;25; 26;10;11;12] o c).
Proof.
  destruct (uefi_write_read (fun _ => true) zeros mem_dev 3 [21;22;23;24;25;26])
    as (d' & E & Hd & HD & HR); [done|exact zeros_ok|by vm_compute|done|lia|done|right; by vm_compute|by vm_compute|].
  exists d'. split_and!; [exact E|exact Hd|exact HD|exact HR].
Defined.

Lemma uefi_write_error_witness :
  let d := mkdev (take 8 (disk mem_dev)) (fd mem_dev) true false false true false in
  ntfs_device_uefi_io_writebytes (fun _ => true) zeros d 3 [21;22;23;24;25;26] = (d, Fail EIO) /\
  EIO <> EROFS.
Proof.
  intros d. assert (ntfs_device_uefi_io_writebytes (fun _ => true) zeros d 3 [21;22;23;24;25;26] = (d, Fail EIO)) as H
    by reflexivity.
  destruct (uefi_write_error (fun _ => true) zeros d d 3 [21;22;23;24;25;26] EIO H); done.
Defined.

(** The boot sector of a volume with 204800 sectors. *)
Definition sample_sector : bytes :=
  [0; 0; 0; 78; 84; 70; 83; 32; 32; 32; 32; 0; 2; 8] ++ zeros 14 ++ [63; 0; 0; 0] ++ zeros 8 ++
  [0; 32; 3; 0; 0; 0; 0; 0] ++ [4; 0; 0; 0; 0; 0; 0; 0] ++ [2; 0; 0; 0; 0; 0; 0; 0] ++
  [246; 0; 0; 0; 1; 0; 0; 0] ++ zeros 438 ++ [85; 170].

Lemma uefi_open_never_readonly_witness :
  exists d', ntfs_device_uefi_io_open (fun _ => true)
      (mkdev sample_sector (mkfd 0 0 0 0 0 0) false false false false false) O_RDONLY = (d', Ret tt) /\
    nd_readonly d' = false.
Proof.
  eexists. split; [vm_compute; reflexivity|].
  eapply (uefi_open_never_readonly (fun _ => true)
    (mkdev sample_sector (mkfd 0 0 0 0 0 0) false false false false false) _ O_RDONLY).
  vm_compute; reflexivity.
Defined.

(** Seeking before the start goes to the end of the device. *)
Example seek_before_start :
  fpos (fd (fst (ntfs_device_uefi_io_seek mem_dev (-1) SEEK_CUR))) = 12.
Proof. reflexivity. Qed.
