(* ===== verification/RunlistIO.v ===== *)
(** * Reading and writing through a run list (ntfs/runlist.c)

    [ntfs_rl_pread] gathers the bytes of an attribute from the runs of its run
    list, [ntfs_rl_pwrite] scatters them.  The specification is an address
    map: [addr] gives, for a byte of the attribute, the byte of the device
    that holds it, or nothing in a hole. *)
From S2P Require Import Prelude Libc Mst Runlist Device.

(** ** The code *)
Section IO.
Context {Dev : Type} {ops : device_operations Dev}.

(** The size in bytes of a run. *)
Definition run_bytes (csb : Z) (r : run) : Z := Z.shiftl (rlen r) csb.

(** runlist.c:1111-1115 ntfs_rl_pread. Seek to the run that contains [pos];
    [ofs] is where the run begins. *)
Fixpoint rl_seek (csb : Z) (rl : runlist) (ofs pos : Z) : outcome (runlist * Z) :=
  match rl with
  | [] => Fault
  | r :: rl' =>
    if negb (rlen r =? 0) && (ofs + run_bytes csb r <=? pos)
    then rl_seek csb rl' (ofs + run_bytes csb r) pos
    else Ret (rl, ofs)
  end.

(** runlist.c:1137-1149 ntfs_rl_pread. The device read, tried again while it
    is interrupted; [eintr] bounds the number of interruptions. *)
Fixpoint pread_retry (eintr : nat) (dev : Dev) (pos count : Z) : Dev * outcome bytes :=
  match ntfs_pread dev pos count with
  | (dev, Fail EINTR) =>
    match eintr with O => (dev, Fault) | S eintr' => pread_retry eintr' dev pos count end
  | r => r
  end.

(** [rl_err_out]: what was read, or the error if nothing was. *)
Definition rl_err_out (acc : bytes) (e : errno_t) : outcome bytes :=
  if negb (zlen acc =? 0) then Ret acc else Fail e.

(** runlist.c:1118-1153 ntfs_rl_pread. The loop over the runs; [acc] is what
    is in the buffer, [b] the rest of it.  A short read goes on with the next run; the
    size of a hole is passed to [memset] as an [int]. *)
Fixpoint rl_pread_loop (eintr : nat) (csb : Z) (dev : Dev) (rl : runlist) (ofs count : Z)
    (b acc : bytes) : Dev * outcome bytes :=
  if count =? 0 then (dev, Ret acc)
  else match rl with
  | [] => (dev, Fault)
  | r :: rl' =>
    if rlen r =? 0 then (dev, rl_err_out acc EIO)
    else
      let to_read := Z.min count (run_bytes csb r - ofs) in
      if lcn r <? 0 then
        if negb (lcn r =? LCN_HOLE) then (dev, rl_err_out acc EIO)
        else
          match memset b 0 0 (s32 to_read) with
          | Ret b =>
            rl_pread_loop eintr csb dev rl' 0 (count - to_read)
              (drop (Z.to_nat to_read) b) (acc ++ take (Z.to_nat to_read) b)
          | _ => (dev, Fault)
          end
      else
        match pread_retry eintr dev (Z.shiftl (lcn r) csb + ofs) to_read with
        | (dev, Ret br) =>
          if zlen b <? zlen br then (dev, Fault)
          else if 0 <? zlen br then rl_pread_loop eintr csb dev rl' 0 (count - zlen br) (drop (length br) b) (acc ++ br)
          else (dev, rl_err_out acc EIO)
        | (dev, Fail e) => (dev, rl_err_out acc e)
        | (dev, Fault) => (dev, Fault)
        end
  end.

(** runlist.c:1096-1160 ntfs_rl_pread. The bytes stored in the buffer [b]; [None]
    is a NULL run list. *)
Definition ntfs_rl_pread (eintr : nat) (vol : volume) (dev : Dev) (rl : option runlist)
    (pos count : Z) (b : bytes) : Dev * outcome bytes :=
  match rl with
  | None => (dev, Fail EINVAL)
  | Some rl =>
    if (pos <? 0) || (count <? 0) then (dev, Fail EINVAL)
    else if count =? 0 then (dev, Ret [])
    else
      match rl_seek (v_cluster_size_bits vol) rl 0 pos with
      | Ret (rl, ofs) => rl_pread_loop eintr (v_cluster_size_bits vol) dev rl (pos - ofs) count b []
      | _ => (dev, Fault)
      end
  end.

(** runlist.c:1230-1250 ntfs_rl_pwrite. The device write, tried again while it
    is interrupted. *)
Fixpoint pwrite_retry (eintr : nat) (vol : volume) (dev : Dev) (pos count : Z) (b : bytes)
  : Dev * outcome (Z * errno_t) :=
  if NVolReadOnly vol then (dev, Ret (count, EUNSET))
  else
    match ntfs_pwrite dev pos count b with
    | (dev, Ret (-1, EINTR)) =>
      match eintr with O => (dev, Fault) | S eintr' => pwrite_retry eintr' vol dev pos count b end
    | r => r
    end.

(** [rl_err_out] of the write: the return value and errno. *)
Definition rl_write_err (total : Z) (e : errno_t) : Z * errno_t :=
  if negb (total =? 0) then (total, EUNSET) else (-1, e).

(** runlist.c:1210-1251 ntfs_rl_pwrite. The loop over the runs; [b] is the
    buffer from its first unwritten byte on. *)
Fixpoint rl_pwrite_loop (eintr : nat) (vol : volume) (dev : Dev) (rl : runlist) (ofs count : Z)
    (b : bytes) (total : Z) : Dev * outcome (Z * errno_t) :=
  let csb := v_cluster_size_bits vol in
  if count =? 0 then (dev, Ret (total, EUNSET))
  else match rl with
  | [] => (dev, Fault)
  | r :: rl' =>
    if rlen r =? 0 then (dev, Ret (rl_write_err total EIO))
    else
      let to_write := Z.min count (run_bytes csb r - ofs) in
      if lcn r <? 0 then
        if negb (lcn r =? LCN_HOLE) then (dev, Ret (rl_write_err total EIO))
        else rl_pwrite_loop eintr vol dev rl' 0 (count - to_write)
               (drop (Z.to_nat to_write) b) (total + to_write)
      else
        match pwrite_retry eintr vol dev (Z.shiftl (lcn r) csb + ofs) to_write b with
        | (dev, Ret (written, e)) =>
          if 0 <? written
          then rl_pwrite_loop eintr vol dev rl' 0 (count - written)
                 (drop (Z.to_nat written) b) (total + written)
          else (dev, Ret (rl_write_err total (if written =? -1 then e else EIO)))
        | r => r
        end
  end.

(** runlist.c:1185-1257 ntfs_rl_pwrite. The return value and errno; [ofs] is
    the byte offset of the first run. *)
Definition ntfs_rl_pwrite (eintr : nat) (vol : volume) (dev : Dev) (rl : option runlist)
    (ofs pos count : Z) (b : bytes) : Dev * outcome (Z * errno_t) :=
  match rl with
  | None => (dev, Ret (-1, EINVAL))
  | Some rl =>
    if (pos <? 0) || (count <? 0) then (dev, Ret (-1, EINVAL))
    else if count =? 0 then (dev, Ret (0, EUNSET))
    else
      match rl_seek (v_cluster_size_bits vol) rl ofs pos with
      | Ret (rl, ofs) => rl_pwrite_loop eintr vol dev rl (pos - ofs) count b 0
      | _ => (dev, Fault)
      end
  end.
End IO.

(** ** The address map *)

(** The device address of byte [j] of a run list, [None] in a hole and past
    the end. *)
Fixpoint addr (csb : Z) (rl : runlist) (j : Z) : option Z :=
  match rl with
  | [] => None
  | r :: rl' =>
    if rlen r =? 0 then None
    else if j <? run_bytes csb r then
      if lcn r <? 0 then None else Some (Z.shiftl (lcn r) csb + j)
    else addr csb rl' (j - run_bytes csb r)
  end.

(** The byte itself: a hole reads as zero. *)
Definition byte_at (csb : Z) (D : bytes) (rl : runlist) (j : Z) : outcome Z :=
  match addr csb rl j with Some a => rd D a | None => Ret 0 end.

(** The bytes of the runs up to the terminator. *)
Fixpoint rl_size (csb : Z) (rl : runlist) : Z :=
  match rl with
  | [] => 0
  | r :: rl' => if rlen r =? 0 then 0 else run_bytes csb r + rl_size csb rl'
  end.

(** A complete run list whose clusters lie in a device of [n] bytes. *)
Fixpoint rl_fits (csb n : Z) (rl : runlist) : Prop :=
  match rl with
  | [] => False
  | r :: rl' =>
    rlen r = 0 \/
    0 < rlen r /\ (lcn r = LCN_HOLE \/ 0 <= lcn r /\ Z.shiftl (lcn r) csb + run_bytes csb r <= n) /\
    rl_fits csb n rl'
  end.

(** No two bytes share an address. *)
Definition addr_inj (csb : Z) (rl : runlist) : Prop :=
  forall i j a, 0 <= i -> 0 <= j -> addr csb rl i = Some a -> addr csb rl j = Some a -> i = j.

Section Map.
Context (csb : Z) (Hcsb : 0 <= csb).

Lemma run_bytes_pos r : 0 < rlen r -> 0 < run_bytes csb r.
Proof using Hcsb. intros. unfold run_bytes. rewrite Z.shiftl_mul_pow2 by done.
  apply Z.mul_pos_pos; [done|]. by apply Z.pow_pos_nonneg. Qed.

Lemma lcn_bytes_nonneg l : 0 <= l -> 0 <= Z.shiftl l csb.
Proof. intros. by apply Z.shiftl_nonneg. Qed.

Lemma rl_size_nonneg n rl : rl_fits csb n rl -> 0 <= rl_size csb rl.
Proof using Hcsb.
  induction rl as [|r rl IH]; cbn; [done|]. intros [E|(H & _ & Hf)]; [by rewrite E|].
  destruct (Z.eqb_spec (rlen r) 0); [lia|]. pose proof (run_bytes_pos r H). specialize (IH Hf). lia.
Qed.

Lemma rl_seek_ok n rl ofs pos :
  rl_fits csb n rl -> ofs <= pos ->
  exists rl' ofs', rl_seek csb rl ofs pos = Ret (rl', ofs') /\ rl_fits csb n rl' /\ ofs <= ofs' <= pos /\
    rl_size csb rl' = rl_size csb rl - (ofs' - ofs) /\
    (0 < rl_size csb rl' -> pos - ofs' < match rl' with r :: _ => run_bytes csb r | [] => 0 end) /\
    forall j, ofs' <= j -> addr csb rl (j - ofs) = addr csb rl' (j - ofs').
Proof using Hcsb.
  revert ofs. induction rl as [|r rl IH]; intros ofs Hf Ho; [done|]. cbn [rl_seek].
  destruct (Z.eqb_spec (rlen r) 0) as [E|E]; cbn [negb andb].
  - exists (r :: rl), ofs. split_and!; try done; try lia. cbn. rewrite E. cbn. lia.
  - destruct Hf as [?|(Hl & Hlcn & Hf)]; [lia|]. pose proof (run_bytes_pos r Hl).
    destruct (Z.leb_spec (ofs + run_bytes csb r) pos).
    + destruct (IH (ofs + run_bytes csb r) Hf) as (rl' & ofs' & -> & H1 & H2 & H3 & H4 & H5); [lia|].
      exists rl', ofs'. split_and!; try done; try lia.
      * cbn. destruct (Z.eqb_spec (rlen r) 0); lia.
      * intros j Hj. cbn. destruct (Z.eqb_spec (rlen r) 0); [lia|].
        destruct (Z.ltb_spec (j - ofs) (run_bytes csb r)); [lia|].
        rewrite <- H5 by lia. f_equal. lia.
    + exists (r :: rl), ofs. split_and!; try done; try lia. cbn. right. done.
Qed.

Lemma addr_inj_tail r rl : 0 < rlen r -> addr_inj csb (r :: rl) -> addr_inj csb rl.
Proof using Hcsb.
  intros Hl Hinj i j a Hi Hj Ei Ej. pose proof (run_bytes_pos r Hl).
  enough (i + run_bytes csb r = j + run_bytes csb r) by lia.
  apply (Hinj _ _ a); [lia|lia| |]; cbn; destruct (Z.eqb_spec (rlen r) 0); try lia.
  - destruct (Z.ltb_spec (i + run_bytes csb r) (run_bytes csb r)); [lia|].
    by replace (i + run_bytes csb r - run_bytes csb r) with i by lia.
  - destruct (Z.ltb_spec (j + run_bytes csb r) (run_bytes csb r)); [lia|].
    by replace (j + run_bytes csb r - run_bytes csb r) with j by lia.
Qed.

(** The rest of a range, after the part in the first run. *)
Lemma addr_next r rl ofs m j :
  0 < rlen r -> ofs + m = run_bytes csb r -> 0 <= j -> addr csb (r :: rl) (ofs + m + j) = addr csb rl j.
Proof.
  intros Hl Hm Hj. cbn. destruct (Z.eqb_spec (rlen r) 0); [lia|].
  destruct (Z.ltb_spec (ofs + m + j) (run_bytes csb r)); [lia|]. f_equal. lia.
Qed.

Lemma addr_here r rl j :
  0 < rlen r -> 0 <= j < run_bytes csb r ->
  addr csb (r :: rl) j = if lcn r <? 0 then None else Some (Z.shiftl (lcn r) csb + j).
Proof.
  intros Hl Hj. cbn. destruct (Z.eqb_spec (rlen r) 0); [lia|].
  destruct (Z.ltb_spec j (run_bytes csb r)); [done|lia].
Qed.
End Map.

(** ** Correctness over a working device *)
Section Laws.
Context {Dev : Type} {ops : device_operations Dev} {laws : device_laws Dev}.
Context (vol : volume).
Let csb := v_cluster_size_bits vol.
Context (Hcsb : 0 <= csb).

Lemma pread_retry_ok k d pos count :
  dev_ok d -> 0 <= pos -> 0 <= count <= max_io -> pos + count <= zlen (dev_bytes d) ->
  exists d', pread_retry k d pos count = (d', Ret (sub (dev_bytes d) pos count)) /\
    dev_ok d' /\ dev_bytes d' = dev_bytes d /\ NDevReadOnly d' = NDevReadOnly d.
Proof using laws.
  intros. destruct (pread_full d pos count) as (d' & E & ?); [done..|].
  exists d'. split; [|done]. destruct k; cbn; by rewrite E.
Qed.

Lemma pwrite_retry_ok k d pos count b :
  dev_ok d -> NDevReadOnly d = false -> NVolReadOnly vol = false ->
  0 <= pos -> 0 <= count <= zlen b -> count <= max_io -> pos + count <= zlen (dev_bytes d) ->
  exists d', pwrite_retry k vol d pos count b = (d', Ret (count, EUNSET)) /\
    dev_ok d' /\ NDevReadOnly d' = false /\ dev_bytes d' = splice (dev_bytes d) pos (sub b 0 count).
Proof using laws.
  intros Hok Hro Hv Hp Hc Hmax Hr. destruct (pwrite_full d pos count b) as (d' & E & ?); [done..|].
  exists d'. split; [|done]. destruct k; cbn; rewrite Hv, E; by destruct count as [|[]|[]].
Qed.

(** What the read loop gives: the bytes of the address map up to the end of
    the run list. *)
Lemma rl_pread_loop_ok k d rl ofs count b acc :
  dev_ok d -> rl_fits csb (zlen (dev_bytes d)) rl -> 0 <= ofs -> 0 <= count <= max_io -> count <= zlen b ->
  (0 < rl_size csb rl -> ofs < match rl with r :: _ => run_bytes csb r | [] => 0 end) ->
  exists d' x, rl_pread_loop k csb d rl ofs count b acc =
      (d', if count <=? zlen x then Ret (acc ++ x) else rl_err_out (acc ++ x) EIO) /\
    dev_ok d' /\ dev_bytes d' = dev_bytes d /\ NDevReadOnly d' = NDevReadOnly d /\
    zlen x = Z.max 0 (Z.min count (rl_size csb rl - ofs)) /\
    forall j, 0 <= j < zlen x -> rd x j = byte_at csb (dev_bytes d) rl (ofs + j).
Proof using laws Hcsb.
  revert d ofs count b acc. induction rl as [|r rl IH]; intros d ofs count b acc Hok Hf Ho Hc Hzb Hfirst;
    cbn [rl_pread_loop]; [done|].
  destruct (Z.eqb_spec count 0) as [->|Hne].
  { exists d, []. rewrite app_nil_r. change (zlen (@nil Z)) with 0. split_and!; done || lia. }
  cbn [rl_size] in *. destruct (Z.eqb_spec (rlen r) 0) as [E|E].
  { exists d, []. rewrite app_nil_r. change (zlen (@nil Z)) with 0. destruct (Z.leb_spec count 0); [lia|]. split_and!; done || lia. }
  destruct Hf as [?|(Hl & Hlcn & Hf)]; [lia|]. pose proof (run_bytes_pos csb Hcsb r Hl) as Hrb.
  pose proof (rl_size_nonneg csb Hcsb _ _ Hf).
  set (m := Z.min count (run_bytes csb r - ofs)). assert (0 < m) as Hm by lia.
  (* the step: [br] are the bytes of this run *)
  assert (forall d1 br, dev_ok d1 -> dev_bytes d1 = dev_bytes d -> NDevReadOnly d1 = NDevReadOnly d ->
    zlen br = m -> (forall j, 0 <= j < m -> rd br j = byte_at csb (dev_bytes d) (r :: rl) (ofs + j)) ->
    exists d' x, rl_pread_loop k csb d1 rl 0 (count - zlen br) (drop (length br) b) (acc ++ br) =
      (d', if count <=? zlen x then Ret (acc ++ x) else rl_err_out (acc ++ x) EIO) /\
    dev_ok d' /\ dev_bytes d' = dev_bytes d /\ NDevReadOnly d' = NDevReadOnly d /\
    zlen x = Z.max 0 (Z.min count (run_bytes csb r + rl_size csb rl - ofs)) /\
    forall j, 0 <= j < zlen x -> rd x j = byte_at csb (dev_bytes d) (r :: rl) (ofs + j)) as Hstep.
  { intros d1 br Hok1 Hb1 Hro1 Hbr Hbytes.
    destruct (IH d1 0 (count - zlen br) (drop (length br) b) (acc ++ br)) as (d' & x & -> & H1 & H2 & H3 & H4 & H5);
      [done|by rewrite Hb1|lia|lia|unfold zlen in *; rewrite length_drop; lia| |].
    { destruct rl as [|r' rl']; cbn; [done|]. destruct (Z.eqb_spec (rlen r') 0); [lia|].
      destruct Hf as [?|(? & _)]; [lia|]. intros _. by apply run_bytes_pos. }
    exists d', (br ++ x). rewrite zlen_app, <- (assoc_L (++)).
    split_and!; [|done|congruence|congruence|lia|].
    - do 2 f_equal. destruct (Z.leb_spec (count - zlen br) (zlen x)), (Z.leb_spec count (zlen br + zlen x));
        done || lia.
    - intros j Hj. destruct (Z.ltb_spec j m).
      + rewrite rd_app_l by lia. apply Hbytes. lia.
      + rewrite rd_app_r by lia. rewrite H5 by lia. rewrite Hb1. unfold byte_at. do 2 f_equal.
        replace (ofs + j) with (ofs + m + (j - zlen br)) by lia.
        rewrite (addr_next csb r rl ofs m) by lia. f_equal; lia. }
  destruct (Z.ltb_spec (lcn r) 0) as [Hneg|Hpos].
  - destruct Hlcn as [Eh|?]; [|lia]. rewrite Eh. cbn [negb].
    unfold max_io in Hc. rewrite wraps_small, memset_spec by (unfold in_s; lia). change (u8 0) with 0.
    unfold splice. change (Z.to_nat 0) with 0%nat. rewrite take_0. cbn [app Nat.add]. assert (length (replicate (Z.to_nat m) 0) = Z.to_nat m) as Hlr by apply length_replicate.
    rewrite !Hlr, take_app_length', drop_app_length' by (symmetry; exact Hlr).
    destruct (Hstep d (replicate (Z.to_nat m) 0)) as (d' & x & E1 & E2); [done..| | |].
    + rewrite zlen_replicate. lia.
    + intros j Hj. unfold byte_at. rewrite addr_here by lia. rewrite Eh. cbn.
      apply rd_lookup. split; [lia|]. apply lookup_replicate. split; [done|lia].
    + rewrite zlen_replicate, Z2Nat.id, length_replicate in E1 by lia. rewrite E1. eauto.
  - destruct Hlcn as [Eh|[_ Hend]]; [rewrite Eh in Hpos; done|].
    pose proof (lcn_bytes_nonneg csb (lcn r) Hpos).
    destruct (pread_retry_ok k d (Z.shiftl (lcn r) csb + ofs) m) as (d1 & -> & H1 & H2 & H3); [done|lia..|].
    set (br := sub (dev_bytes d) (Z.shiftl (lcn r) csb + ofs) m).
    assert (zlen br = m) as Hz by (apply zlen_sub; lia).
    destruct (Z.ltb_spec (zlen b) (zlen br)); [lia|].
    destruct (Z.ltb_spec 0 (zlen br)); [|lia]. apply Hstep; [done..|].
    intros j Hj. unfold byte_at. rewrite addr_here by lia.
    destruct (Z.ltb_spec (lcn r) 0); [lia|]. unfold br. rewrite rd_sub by lia.
    destruct (Z.ltb_spec j m); [f_equal; lia|lia].
Qed.

(** What a read gives. *)
Lemma rl_pread_ok k d rl pos count b :
  dev_ok d -> rl_fits csb (zlen (dev_bytes d)) rl -> 0 <= pos -> 0 < count <= max_io -> count <= zlen b ->
  exists d' x, ntfs_rl_pread k vol d (Some rl) pos count b =
      (d', if (pos <? rl_size csb rl) then Ret x else Fail EIO) /\
    dev_ok d' /\ dev_bytes d' = dev_bytes d /\ NDevReadOnly d' = NDevReadOnly d /\
    zlen x = Z.max 0 (Z.min count (rl_size csb rl - pos)) /\
    forall j, 0 <= j < zlen x -> rd x j = byte_at csb (dev_bytes d) rl (pos + j).
Proof using laws Hcsb.
  intros Hok Hf Hp Hc Hzb. unfold ntfs_rl_pread.
  destruct (Z.ltb_spec pos 0), (Z.ltb_spec count 0), (Z.eqb_spec count 0); try lia. cbn [orb].
  destruct (rl_seek_ok csb Hcsb _ rl 0 pos Hf) as (rl' & ofs' & E & H1 & H2 & H3 & H4 & H5); [lia|].
  fold csb. rewrite E.
  destruct (rl_pread_loop_ok k d rl' (pos - ofs') count b []) as (d' & x & -> & Hr); [done|done|lia|lia|done|done|].
  destruct Hr as (R1 & R2 & R3 & R4 & R5).
  exists d', x. cbn [app]. split_and!; try done; try lia.
  - f_equal. unfold rl_err_out. pose proof (zlen_nonneg x).
    destruct (Z.leb_spec count (zlen x)), (Z.ltb_spec pos (rl_size csb rl)),
      (Z.eqb_spec (zlen x) 0); cbn [negb]; done || lia.
  - intros j Hj. rewrite R5 by done. unfold byte_at.
    replace (pos - ofs' + j) with (pos + j - ofs') by lia. rewrite <- H5 by lia. by rewrite Z.sub_0_r.
Qed.

(** What the write loop does: the device bytes at the addresses of the range
    get the bytes of the buffer, every other byte of the device is kept. *)
Definition written_at (D D' : bytes) (rl : runlist) (ofs n : Z) (b : bytes) : Prop :=
  zlen D' = zlen D /\
  (forall a, (forall j, 0 <= j < n -> addr csb rl (ofs + j) <> Some a) -> rd D' a = rd D a) /\
  (addr_inj csb rl -> forall j a, 0 <= j < n -> addr csb rl (ofs + j) = Some a -> rd D' a = rd b j).

(** One run and then the others. *)
Lemma written_at_cons D D1 D' r rl ofs n m b :
  0 <= csb -> 0 < rlen r -> 0 <= ofs -> 0 < m -> m <= n -> (m < n -> ofs + m = run_bytes csb r) ->
  m <= run_bytes csb r - ofs -> n <= zlen b ->
  (if lcn r <? 0 then D1 = D
   else 0 <= Z.shiftl (lcn r) csb /\ Z.shiftl (lcn r) csb + run_bytes csb r <= zlen D /\
        D1 = splice D (Z.shiftl (lcn r) csb + ofs) (sub b 0 m)) ->
  written_at D1 D' rl 0 (n - m) (drop (Z.to_nat m) b) ->
  written_at D D' (r :: rl) ofs n b.
Proof using Hcsb.
  intros _ Hl Ho Hm Hmn Hend Hroom Hb HD1 (W1 & W2 & W3).
  set (base := Z.shiftl (lcn r) csb) in *.
  assert (zlen (sub b 0 m) = m) as Hz by (apply zlen_sub; lia).
  assert (zlen D1 = zlen D) as HzD.
  { destruct (lcn r <? 0); [by subst|]. destruct HD1 as (? & ? & ->). apply zlen_splice; lia. }
  assert (forall j, 0 <= j < m -> addr csb (r :: rl) (ofs + j) =
    if lcn r <? 0 then None else Some (base + ofs + j)) as Ahere.
  { intros j Hj. rewrite addr_here by lia. destruct (lcn r <? 0); [done|]. f_equal. lia. }
  assert (forall j, m <= j < n -> addr csb (r :: rl) (ofs + j) = addr csb rl (0 + (j - m))) as Anext.
  { intros j Hj. replace (ofs + j) with (ofs + m + (j - m)) by lia.
    rewrite (addr_next csb r rl ofs m) by lia. done. }
  assert (forall a, (forall j, 0 <= j < m -> addr csb (r :: rl) (ofs + j) <> Some a) -> rd D1 a = rd D a) as K1.
  { intros a Ha. destruct (lcn r <? 0); [by subst|]. destruct HD1 as (? & ? & ->).
    destruct (Z.ltb_spec a 0); [by rewrite !rd_fault by lia|].
    rewrite rd_splice by lia. rewrite Hz.
    destruct (Z.leb_spec (base + ofs) a), (Z.ltb_spec a (base + ofs + m)); cbn [andb]; try done.
    destruct (Ha (a - (base + ofs))); [lia|]. rewrite Ahere by lia. f_equal. lia. }
  split_and!; [congruence| |].
  - intros a Ha. rewrite W2.
    + apply K1. intros j Hj. apply Ha. lia.
    + intros j Hj. specialize (Ha (j + m) ltac:(lia)). rewrite Anext in Ha by lia.
      by replace (j + m - m) with j in Ha by lia.
  - intros Hinj j a Hj Ea. destruct (Z.ltb_spec j m) as [Hjm|Hjm].
    + rewrite W2.
      * rewrite Ahere in Ea by lia. destruct (lcn r <? 0); [done|].
        destruct HD1 as (? & ? & ->). injection Ea as <-.
        rewrite rd_splice by lia. rewrite Hz.
        destruct (Z.leb_spec (base + ofs) (base + ofs + j)), (Z.ltb_spec (base + ofs + j) (base + ofs + m));
          cbn [andb]; try lia.
        rewrite rd_sub by lia. destruct (Z.ltb_spec (base + ofs + j - (base + ofs)) m); [f_equal; lia|lia].
      * intros i Hi Ei. rewrite <- (Z.add_simpl_r i m), <- Anext in Ei by lia.
        enough (ofs + j = ofs + (i + m)) by lia. by apply (Hinj _ _ a); [lia|lia| |].
    + rewrite Anext in Ea by lia. rewrite (W3 (addr_inj_tail csb Hcsb _ _ Hl Hinj) (j - m) a ltac:(lia) Ea).
      unfold rd. destruct (Z.ltb_spec (j - m) 0), (Z.ltb_spec j 0); try lia.
      rewrite lookup_drop. by replace (Z.to_nat m + Z.to_nat (j - m))%nat with (Z.to_nat j) by lia.
Qed.

Lemma written_at_nil D rl ofs n b : n <= 0 -> written_at D D rl ofs n b.
Proof. intros. split_and!; [done|done|lia]. Qed.

Lemma rl_pwrite_loop_ok k d rl ofs count b total :
  dev_ok d -> NDevReadOnly d = false -> NVolReadOnly vol = false ->
  rl_fits csb (zlen (dev_bytes d)) rl -> 0 <= ofs -> 0 <= count <= zlen b -> count <= max_io -> 0 <= total ->
  (0 < rl_size csb rl -> ofs < match rl with r :: _ => run_bytes csb r | [] => 0 end) ->
  let n := Z.max 0 (Z.min count (rl_size csb rl - ofs)) in
  exists d', rl_pwrite_loop k vol d rl ofs count b total =
      (d', Ret (if count <=? n then (total + n, EUNSET) else rl_write_err (total + n) EIO)) /\
    dev_ok d' /\ NDevReadOnly d' = false /\ written_at (dev_bytes d) (dev_bytes d') rl ofs n b.
Proof using laws Hcsb.
  revert d ofs count b total. induction rl as [|r rl IH]; intros d ofs count b total Hok Hro Hv Hf Ho Hc Hmax Ht Hfirst n;
    cbn [rl_pwrite_loop]; [done|]. fold csb.
  destruct (Z.eqb_spec count 0) as [->|Hne].
  { exists d. replace n with 0 by lia. rewrite Z.add_0_r. split_and!; try done. by apply written_at_nil. }
  cbn [rl_size] in *. destruct (Z.eqb_spec (rlen r) 0) as [E|E].
  { exists d. replace n with 0 by lia. rewrite Z.add_0_r. destruct (Z.leb_spec count 0); [lia|].
    split_and!; try done. by apply written_at_nil. }
  destruct Hf as [?|(Hl & Hlcn & Hf)]; [lia|]. pose proof (run_bytes_pos csb Hcsb r Hl) as Hrb.
  pose proof (rl_size_nonneg csb Hcsb _ _ Hf).
  set (m := Z.min count (run_bytes csb r - ofs)). assert (0 < m) as Hm by lia.
  assert (forall d1, dev_ok d1 -> NDevReadOnly d1 = false ->
    (if lcn r <? 0 then dev_bytes d1 = dev_bytes d
     else 0 <= Z.shiftl (lcn r) csb /\ Z.shiftl (lcn r) csb + run_bytes csb r <= zlen (dev_bytes d) /\
       dev_bytes d1 = splice (dev_bytes d) (Z.shiftl (lcn r) csb + ofs) (sub b 0 m)) ->
    exists d', rl_pwrite_loop k vol d1 rl 0 (count - m) (drop (Z.to_nat m) b) (total + m) =
      (d', Ret (if count <=? n then (total + n, EUNSET) else rl_write_err (total + n) EIO)) /\
    dev_ok d' /\ NDevReadOnly d' = false /\
    written_at (dev_bytes d) (dev_bytes d') (r :: rl) ofs n b) as Hstep.
  { intros d1 Hok1 Hro1 HD1.
    assert (zlen (dev_bytes d1) = zlen (dev_bytes d)) as Hz1.
    { destruct (lcn r <? 0); [by rewrite HD1|]. destruct HD1 as (? & ? & ->).
      apply zlen_splice; rewrite ?zlen_sub; lia. }
    assert (zlen (drop (Z.to_nat m) b) = zlen b - m) as Hzd by (unfold zlen; rewrite length_drop; zlia).
    destruct (IH d1 0 (count - m) (drop (Z.to_nat m) b) (total + m)) as (d' & -> & H1 & H2 & H3);
      [done|done|done|by rewrite Hz1|lia|lia|lia|lia| |].
    { destruct rl as [|r' rl']; cbn; [done|]. destruct (Z.eqb_spec (rlen r') 0); [lia|].
      destruct Hf as [?|(? & _)]; [lia|]. intros _. by apply run_bytes_pos. }
    replace (Z.max 0 (Z.min (count - m) (rl_size csb rl - 0))) with (n - m) in * by lia.
    exists d'. split_and!; try done.
    - do 2 f_equal. replace (total + m + (n - m)) with (total + n) by lia.
      destruct (Z.leb_spec (count - m) (n - m)), (Z.leb_spec count n); done || lia.
    - eapply written_at_cons; try exact HD1; try exact H3; done || lia. }
  destruct (Z.ltb_spec (lcn r) 0) as [Hneg|Hpos].
  - destruct Hlcn as [Eh|?]; [|lia]. rewrite Eh. cbn [negb]. by apply Hstep.
  - destruct Hlcn as [Eh|[_ Hend]]; [rewrite Eh in Hpos; done|].
    pose proof (lcn_bytes_nonneg csb (lcn r) Hpos).
    destruct (pwrite_retry_ok k d (Z.shiftl (lcn r) csb + ofs) m b) as (d1 & -> & H1 & H2 & H3); [done|done|done|lia..|].
    destruct (Z.ltb_spec 0 m); [|lia]. apply Hstep; [done|done|]. split_and!; done.
Qed.

(** What a write does. *)
Lemma rl_pwrite_ok k d rl pos count b :
  dev_ok d -> NDevReadOnly d = false -> NVolReadOnly vol = false ->
  rl_fits csb (zlen (dev_bytes d)) rl -> 0 <= pos -> 0 < count <= zlen b -> count <= max_io ->
  let n := Z.max 0 (Z.min count (rl_size csb rl - pos)) in
  exists d', ntfs_rl_pwrite k vol d (Some rl) 0 pos count b =
      (d', Ret (if pos <? rl_size csb rl then (n, EUNSET) else (-1, EIO))) /\
    dev_ok d' /\ NDevReadOnly d' = false /\ written_at (dev_bytes d) (dev_bytes d') rl pos n b.
Proof using laws Hcsb.
  intros Hok Hro Hv Hf Hp Hc Hmax n. unfold ntfs_rl_pwrite.
  destruct (Z.ltb_spec pos 0), (Z.ltb_spec count 0), (Z.eqb_spec count 0); try lia. cbn [orb].
  destruct (rl_seek_ok csb Hcsb _ rl 0 pos Hf) as (rl' & ofs' & E & H1 & H2 & H3 & H4 & H5); [lia|].
  fold csb. rewrite E.
  destruct (rl_pwrite_loop_ok k d rl' (pos - ofs') count b 0) as (d' & -> & R1 & R2 & R3 & R4 & R5);
    [done|done|done|done|lia|lia|done|done|done|].
  replace (Z.max 0 (Z.min count (rl_size csb rl' - (pos - ofs')))) with n in * by lia.
  exists d'. split_and!; try done.
  - rewrite Z.add_0_l. do 2 f_equal. unfold rl_write_err.
    destruct (Z.leb_spec count n), (Z.ltb_spec pos (rl_size csb rl)), (Z.eqb_spec n 0); cbn [negb]; try lia; try done.
  - assert (forall j, 0 <= j -> addr csb rl (pos + j) = addr csb rl' (pos - ofs' + j)) as Ha.
    { intros j Hj. replace (pos - ofs' + j) with (pos + j - ofs') by lia.
      rewrite <- H5 by lia. by rewrite Z.sub_0_r. }
    split_and!; [done| |].
    + intros a Hn. apply R4. intros j Hj. rewrite <- Ha by lia. by apply Hn.
    + intros Hinj j a Hj Ea. apply R5; [|done|by rewrite <- Ha by lia].
      intros x y c Hx Hy Ex Ey. enough (x + ofs' = y + ofs') by lia.
      apply (Hinj _ _ c); [lia|lia| |]; rewrite <- (Z.sub_0_r (_ + ofs')), H5 by lia;
        by rewrite Z.add_simpl_r.
Qed.

(** A read through a run list gives exactly the bytes of the address map:
    the byte of the cluster for an allocated byte and zero in a hole.  It is
    cut at the end of the run list, and a read that begins past it fails with
    EIO. *)
Theorem rl_pread_spec k d rl pos count b :
  dev_ok d -> rl_fits csb (zlen (dev_bytes d)) rl -> 0 <= pos -> 0 < count <= max_io -> count <= zlen b ->
  exists d' x, ntfs_rl_pread k vol d (Some rl) pos count b =
      (d', if (pos <? rl_size csb rl) then Ret x else Fail EIO) /\
    dev_bytes d' = dev_bytes d /\
    zlen x = Z.max 0 (Z.min count (rl_size csb rl - pos)) /\
    forall j, 0 <= j < zlen x -> rd x j = byte_at csb (dev_bytes d) rl (pos + j).
Proof using laws Hcsb.
  intros. destruct (rl_pread_ok k d rl pos count b) as (d' & x & E & ? & ? & ? & ? & ?); [done..|].
  by exists d', x.
Qed.

(** C11. A write through a run list whose runs do not overlap changes exactly
    the device bytes that the written range is mapped to, and reading the
    range back, into any buffer that is large enough, gives the bytes written, with
    zeroes where the range lies in a hole; ranges of at most [max_io] (2 GiB less
    128 KiB) bytes. *)
Theorem rl_pwrite_pread k d rl pos count b buf :
  dev_ok d -> NDevReadOnly d = false -> NVolReadOnly vol = false ->
  rl_fits csb (zlen (dev_bytes d)) rl -> addr_inj csb rl ->
  0 <= pos -> 0 < count <= zlen b -> count <= max_io -> count <= zlen buf -> pos + count <= rl_size csb rl ->
  exists d1 d2 x, ntfs_rl_pwrite k vol d (Some rl) 0 pos count b = (d1, Ret (count, EUNSET)) /\
    (forall a, (forall j, 0 <= j < count -> addr csb rl (pos + j) <> Some a) ->
       rd (dev_bytes d1) a = rd (dev_bytes d) a) /\
    ntfs_rl_pread k vol d1 (Some rl) pos count buf = (d2, Ret x) /\ zlen x = count /\
    forall j, 0 <= j < count ->
      rd x j = match addr csb rl (pos + j) with Some _ => rd b j | None => Ret 0 end.
Proof using laws Hcsb.
  intros Hok Hro Hv Hf Hinj Hp Hc Hmax Hbuf Hend.
  destruct (rl_pwrite_ok k d rl pos count b) as (d1 & E1 & Hok1 & Hro1 & Hz & Hkeep & Hnew); [done..|].
  replace (Z.max 0 (Z.min count (rl_size csb rl - pos))) with count in * by lia.
  destruct (rl_pread_ok k d1 rl pos count buf) as (d2 & x & E2 & _ & _ & _ & Hx & Hbytes);
    [done|by rewrite Hz|done|lia|done|].
  destruct (Z.ltb_spec pos (rl_size csb rl)); [|lia].
  exists d1, d2, x. split_and!; try done; try lia.
  intros j Hj. rewrite Hbytes by lia. unfold byte_at. destruct (addr csb rl (pos + j)) eqn:Ea; [|done].
  by apply Hnew.
Qed.
End Laws.

(** ** Witnesses *)
Definition sample_rl : runlist :=
  [mkrun 0 2 1; mkrun 1 LCN_HOLE 1; mkrun 2 0 2; mkrun 4 LCN_ENOENT 0].
Definition sample_vol : volume := mkvol 3 2 false.
Definition sample_dev : bytes := [1;2;3;4; 5;6;7;8; 9;10;11;12].

Lemma sample_rl_fits : rl_fits 2 12 sample_rl.
Proof.
  right. split; [done|]. split; [right; by vm_compute|].
  right. split; [done|]. split; [by left|].
  right. split; [done|]. split; [right; by vm_compute|]. by left.
Qed.

(** The device has clusters of four bytes and transfers at most three. *)
Lemma rl_pread_spec_witness :
  exists d' x, @ntfs_rl_pread _ ram_ops 0 sample_vol sample_dev (Some sample_rl) 2 9 (replicate 9 7) = (d', Ret x) /\
    zlen x = 9 /\ rd x 0 = Ret 11 /\ rd x 3 = Ret 0 /\ rd x 6 = Ret 1.
Proof.
  destruct (@rl_pread_spec bytes ram_ops ram_laws sample_vol ltac:(done) 0 sample_dev sample_rl 2 9 (replicate 9 7))
    as (d' & x & E & _ & Hz & H); [done| |lia|split; [lia|discriminate]|done|].
  - exact sample_rl_fits.
  - exists d', x. rewrite Hz in H. split_and!; [exact E|exact Hz|exact (H 0 ltac:(by vm_compute))| |].
    + exact (H 3 ltac:(by vm_compute)).
    + exact (H 6 ltac:(by vm_compute)).
Defined.

Lemma sample_rl_inj : addr_inj 2 sample_rl.
Proof.
  intros i j a Hi Hj. cbn. unfold run_bytes. cbn [rlen lcn].
  change (Z.shiftl 1 2) with 4. change (Z.shiftl 2 2) with 8. change (Z.shiftl 0 2) with 0.
  repeat case_match; intros [= <-] [= ?]; lia.
Qed.

Lemma rl_pwrite_pread_witness :
  exists d1 d2 x, @ntfs_rl_pwrite _ ram_ops 0 sample_vol sample_dev (Some sample_rl) 0 2 8
      [21;22;23;24;25;26;27;28] = (d1, Ret (8, EUNSET)) /\
    @ntfs_rl_pread _ ram_ops 0 sample_vol d1 (Some sample_rl) 2 8 (replicate 8 7) = (d2, Ret x) /\
    rd x 0 = Ret 21 /\ rd x 3 = Ret 0 /\ rd x 7 = Ret 28.
Proof.
  destruct (@rl_pwrite_pread bytes ram_ops ram_laws sample_vol ltac:(done) 0 sample_dev sample_rl 2 8
    [21;22;23;24;25;26;27;28] (replicate 8 7)) as (d1 & d2 & x & E1 & _ & E2 & Hz & H);
    [done|done|done| |exact sample_rl_inj|lia|split; [lia|done]|discriminate|done|done|].
  - exact sample_rl_fits.
  - exists d1, d2, x. split_and!; [exact E1|exact E2|exact (H 0 ltac:(lia))|exact (H 3 ltac:(lia))|
      exact (H 7 ltac:(lia))].
Defined.

(** After a short read the loop goes on with the next run, so what follows in
    the buffer comes from the wrong place: here the device cannot read past
    its second byte within the first cluster, and six bytes are returned as
    the first six bytes of the attribute, although bytes 2 to 5 of the buffer
    are the bytes 4 to 7 of the attribute. *)
Definition bad_ops : device_operations bytes := {|
  op_pread d n pos := (d, Ret (if (pos <? 2) then sub d pos (Z.min n (2 - pos))
                               else if pos <? 4 then [] else sub d pos n));
  op_pwrite d b pos := (d, Ret 0);
  op_sync d := (d, Ret tt);
  NDevReadOnly _ := false;
  NDevDirty _ := true;
  NDevSync _ := true;
  NDevSetDirty d := d;
|}.

Example short_read_misplaces :
  @ntfs_rl_pread _ bad_ops 0 sample_vol sample_dev
    (Some [mkrun 0 0 1; mkrun 1 1 1; mkrun 2 LCN_ENOENT 0]) 0 8 (replicate 8 0) = (sample_dev, Ret [1;2;5;6;7;8]).
Proof. reflexivity. Qed.
