(* ===== verification/Bitmap.v ===== *)
(** * Bitmaps (ntfs/bitmap.c)

    Single bits in memory, and runs of bits in a bitmap attribute: the bytes
    of the run are written in windows of at most 8 KiB, the bytes at its ends
    are read first.  The attribute is an interface, [attr_io]. *)
From S2P Require Import Prelude.

(** ** Bits in memory *)

(** bitmap.c:56-64 ntfs_bit_set *)
Definition ntfs_bit_set (bitmap : option bytes) (bit new_value : Z) : outcome (option bytes) :=
  match bitmap with
  | None => Ret None
  | Some m =>
    if 1 <? new_value then Ret (Some m)
    else
      let! b := rd m (Z.shiftr bit 3) in
      let m' := wr m (Z.shiftr bit 3)
        (if new_value =? 0 then u8 (Z.land b (Z.lnot (Z.shiftl 1 (Z.land bit 7))))
         else u8 (Z.lor b (Z.shiftl 1 (Z.land bit 7)))) in
      let! m' := m' in Ret (Some m')
  end.

(** bitmap.c:74-79 ntfs_bit_get *)
Definition ntfs_bit_get (bitmap : option bytes) (bit : Z) : outcome Z :=
  match bitmap with
  | None => Ret (-1)
  | Some m => let! b := rd m (Z.shiftr bit 3) in Ret (Z.land (Z.shiftr b (Z.land bit 7)) 1)
  end.

(** bitmap.c:90-101 ntfs_bit_get_and_set. The old bit and the bitmap. *)
Definition ntfs_bit_get_and_set (bitmap : option bytes) (bit new_value : Z)
  : outcome (Z * option bytes) :=
  match bitmap with
  | None => Ret (-1, None)
  | Some m =>
    if 1 <? new_value then Ret (-1, Some m)
    else
      let shift := Z.land bit 7 in
      let! b := rd m (Z.shiftr bit 3) in
      let old_bit := Z.land (Z.shiftr b shift) 1 in
      if negb (new_value =? old_bit) then
        let! m' := wr m (Z.shiftr bit 3) (u8 (Z.lxor b (Z.shiftl 1 shift))) in Ret (old_bit, Some m')
      else Ret (old_bit, Some m)
  end.

(** ** The bitmap attribute *)

(** [ntfs_attr_pread] and [ntfs_attr_pwrite] (attrib.c) as the bitmap code
    uses them: the bytes read, the number of bytes written. *)
Class attr_io (A : Type) := {
  attr_pread : A -> Z -> Z -> outcome bytes;
  attr_pwrite : A -> Z -> bytes -> A * outcome Z;
}.

(** An attribute that is allocated and initialized: a read past its end is
    cut, a write inside of it changes those bytes. *)
Class attr_io_laws (A : Type) `{attr_io A} := {
  attr_ok : A -> Prop;
  attr_bytes : A -> bytes;
  attr_pread_law : forall na pos n, attr_ok na -> 0 <= pos -> 0 <= n ->
    attr_pread na pos n = Ret (sub (attr_bytes na) pos n);
  attr_pwrite_law : forall na pos b, attr_ok na -> 0 <= pos -> pos + zlen b <= zlen (attr_bytes na) ->
    exists na', attr_pwrite na pos b = (na', Ret (zlen b)) /\ attr_ok na' /\
      attr_bytes na' = splice (attr_bytes na) pos b;
}.

Section Run.
Context {A : Type} {io : attr_io A}.

(** Allocation: whether it succeeds. *)
Context (malloc : Z -> bool).

(** [*p |= 1 << bit] or [*p &= ~(1 << bit)] *)
Definition put_bit (value : bool) (b bit : Z) : Z :=
  u8 (if value then Z.lor b (Z.shiftl 1 bit) else Z.land b (Z.lnot (Z.shiftl 1 bit))).

Definition fill_byte (value : bool) : Z := if value then 0xff else 0.

(** bitmap.c:160-165 ntfs_bitmap_set_bits_in_run. The bits of the first byte;
    [count--] leaves -1 when the run ends in this byte. *)
Fixpoint first_bits (fuel : nat) (value : bool) (b bit count : Z) : Z * Z :=
  match fuel with
  | O => (b, count)
  | S fuel' =>
    if Z.land bit 7 =? 0 then (b, count)
    else if count =? 0 then (b, -1)
    else first_bits fuel' value (put_bit value b bit) (bit + 1) (count - 1)
  end.

(** bitmap.c:202-207 ntfs_bitmap_set_bits_in_run. The bits of the last byte. *)
Fixpoint last_bits (bit : nat) (value : bool) (b count : Z) : Z * Z :=
  match bit with
  | O => (b, count)
  | S bit' =>
    if count =? 0 then (b, -1)
    else last_bits bit' value (put_bit value b (Z.of_nat bit')) (count - 1)
  end.

(** The variables of the loop. *)
Record bstate := mkb {
  b_na : A;
  b_start : Z;
  b_count : Z;
  b_bit : Z;
  b_first : Z;
  b_size : Z;
  b_buf : bytes;
}.

(** What a read or write of the wrong length means. *)
Definition io_error {X} (r : outcome X) : errno_t := match r with Fail e => e | _ => EIO end.

(** bitmap.c:175-213 ntfs_bitmap_set_bits_in_run. The last byte, when it is in
    the window: the buffer, [count], [bit] and [lastbyte]. *)
Definition prepare_last (value : bool) (s : bstate) : outcome (bytes * Z * Z * Z) :=
  if (0 <? b_count s) && negb (b_bit s =? 0) then
    let lastbyte_pos := s32 (Z.shiftr (b_count s + 7) 3 + b_first s) in
    if lastbyte_pos =? 0 then Fail EIO
    else if lastbyte_pos <=? b_size s then
      match attr_pread (b_na s) (Z.shiftr (b_start s + b_count s) 3) 1 with
      | Ret [x] =>
        let '(x, count) := last_bits (Z.to_nat (b_bit s)) value x (b_count s) in
        let! buf := wr (b_buf s) (lastbyte_pos - 1) x in Ret (buf, count, 0, 1)
      | Fault => Fault
      | r => Fail (io_error r)
      end
    else Ret (b_buf s, b_count s, b_bit s, 0)
  else Ret (b_buf s, b_count s, b_bit s, 0).

(** bitmap.c:172-251 ntfs_bitmap_set_bits_in_run. The loop over the windows. *)
Fixpoint window_loop (fuel : nat) (value : bool) (s : bstate) : A * outcome unit :=
  match fuel with
  | O => (b_na s, Fault)
  | S fuel' =>
    match prepare_last value s with
    | Ret (buf, count, bit, lastbyte) =>
      match rdn buf 0 (b_size s) with
      | Ret w =>
        let '(na, br) := attr_pwrite (b_na s) (s32 (Z.shiftr (b_start s) 3 - b_first s)) w in
        match br with
        | Ret n =>
          if negb (n =? b_size s) then (na, Fail EIO)
          else
            let tmp := s32 (Z.shiftl (b_size s - b_first s - lastbyte) 3) in
            match (if negb (b_first s =? 0) then wr buf 0 (fill_byte value) else Ret buf) with
            | Ret buf =>
              let start_bit := b_start s + tmp in
              let count := count - tmp in
              let rest := s32 (Z.shiftr (count + 7) 3) in
              let bufsize := if rest <? b_size s then rest else b_size s in
              if negb (lastbyte =? 0) && negb (count =? 0) then (na, Fail EIO)
              else if 0 <? count then window_loop fuel' value (mkb na start_bit count bit 0 bufsize buf)
              else (na, Ret tt)
            | _ => (na, Fault)
            end
        | Fail e => (na, Fail e)
        | Fault => (na, Fault)
        end
      | _ => (b_na s, Fault)
      end
    | Fail e => (b_na s, Fail e)
    | Fault => (b_na s, Fault)
    end
  end.

(** bitmap.c:148-168 ntfs_bitmap_set_bits_in_run. The first byte: the buffer,
    [start_bit] and [count]. *)
Definition prepare_first (value : bool) (na : A) (start_bit count : Z) (buf : bytes)
  : outcome (bytes * Z * Z) :=
  let bit := Z.land start_bit 7 in
  if negb (bit =? 0) then
    match attr_pread na (Z.shiftr start_bit 3) 1 with
    | Ret [x] =>
      let '(x, count) := first_bits 8 value x bit count in
      let! buf := wr buf 0 x in
      Ret (buf, Z.land (start_bit + 7) (Z.lnot 7), count)
    | Fault => Fault
    | r => Fail (io_error r)
    end
  else Ret (buf, start_bit, count).

(** bitmap.c:115-258 ntfs_bitmap_set_bits_in_run. Every window but the first
    covers 8192 bytes, so [count / 65528 + 2] rounds are enough. *)
Definition ntfs_bitmap_set_bits_in_run (na : A) (start_bit count : Z) (value : bool)
  : A * outcome unit :=
  if (start_bit <? 0) || (count <? 0) then (na, Fail EINVAL)
  else
    let bit := Z.land start_bit 7 in
    let firstbyte := if negb (bit =? 0) then 1 else 0 in
    let bufsize := Z.shiftr (count - (if negb (bit =? 0) then 8 - bit else 0) + 7) 3 + firstbyte in
    let bufsize := if 8192 <? bufsize then 8192 else bufsize in
    if negb (malloc bufsize) then (na, Fail ENOMEM)
    else
      match prepare_first value na start_bit count
              (replicate (Z.to_nat bufsize) (fill_byte value)) with
      | Ret (buf, start_bit, count') =>
        window_loop (Z.to_nat (count / 65528 + 2)) value
          (mkb na start_bit count' (Z.land count' 7) firstbyte bufsize buf)
      | Fail e => (na, Fail e)
      | Fault => (na, Fault)
      end.

(** bitmap.c:271-280 ntfs_bitmap_set_run *)
Definition ntfs_bitmap_set_run (na : A) (start_bit count : Z) : A * outcome unit :=
  ntfs_bitmap_set_bits_in_run na start_bit count true.

(** bitmap.c:293-302 ntfs_bitmap_clear_run *)
Definition ntfs_bitmap_clear_run (na : A) (start_bit count : Z) : A * outcome unit :=
  ntfs_bitmap_set_bits_in_run na start_bit count false.

(** bitmap.h:54-57 ntfs_bitmap_set_bit *)
Definition ntfs_bitmap_set_bit (na : A) (bit : Z) : A * outcome unit := ntfs_bitmap_set_run na bit 1.

(** bitmap.h:68-71 ntfs_bitmap_clear_bit *)
Definition ntfs_bitmap_clear_bit (na : A) (bit : Z) : A * outcome unit := ntfs_bitmap_clear_run na bit 1.
End Run.

(** bitmap.h:79-82 ntfs_rol32. The shift count is less than 32; a shift of 0
    shifts by 32, which C leaves undefined. *)
Definition ntfs_rol32 (word shift : Z) : outcome Z :=
  if (0 <? shift) && (shift <? 32)
  then Ret (Z.lor (u32 (Z.shiftl word shift)) (Z.shiftr word (32 - shift))) else Fault.

(** bitmap.h:90-93 ntfs_ror32 *)
Definition ntfs_ror32 (word shift : Z) : outcome Z :=
  if (0 <? shift) && (shift <? 32)
  then Ret (Z.lor (Z.shiftr word shift) (u32 (Z.shiftl word (32 - shift)))) else Fault.

(** ** Bits of a byte string *)

(** Bit [i] of a bitmap. *)
Definition bit_at (D : bytes) (i : Z) : bool :=
  match rd D (i / 8) with Ret b => Z.testbit b (i mod 8) | _ => false end.

Lemma land7 z : Z.land z 7 = z mod 8.
Proof. change 7 with (Z.ones 3). by rewrite Z.land_ones by lia. Qed.

Lemma land_lnot7 z : Z.land z (Z.lnot 7) = 8 * (z / 8).
Proof.
  rewrite <- Z.ldiff_land. change 7 with (Z.ones 3). rewrite Z.ldiff_ones_r by lia.
  rewrite Z.shiftr_div_pow2, Z.shiftl_mul_pow2 by lia. change (2 ^ 3) with 8. lia.
Qed.

Lemma shiftr3 z : Z.shiftr z 3 = z / 8.
Proof. by rewrite Z.shiftr_div_pow2 by lia. Qed.

Lemma put_bit_spec v b n k :
  0 <= n < 8 -> 0 <= k < 8 -> Z.testbit (put_bit v b n) k = if k =? n then v else Z.testbit b k.
Proof.
  intros Hn Hk. unfold put_bit, wrapu. rewrite Z.mod_pow2_bits_low by lia.
  rewrite Z.shiftl_1_l. destruct v; rewrite ?Z.lor_spec, ?Z.land_spec, ?Z.lnot_spec by lia;
    rewrite Z.pow2_bits_eqb by lia; destruct (Z.eqb_spec k n), (Z.eqb_spec n k); cbn; try lia;
    by destruct (Z.testbit b k).
Qed.

Lemma put_bit_byte v b n : byte_ok (put_bit v b n).
Proof. apply (wrapu_range 8). lia. Qed.

Lemma fill_byte_spec v k : 0 <= k < 8 -> Z.testbit (fill_byte v) k = v.
Proof.
  intros. destruct v; [|apply Z.testbit_0_l]. change (fill_byte true) with (Z.ones 8).
  apply Z.ones_spec_low. lia.
Qed.

Lemma fill_byte_ok v : byte_ok (fill_byte v).
Proof. by destruct v. Qed.

Lemma byte_bits_eq a b :
  byte_ok a -> byte_ok b -> (forall k, 0 <= k < 8 -> Z.testbit a k = Z.testbit b k) -> a = b.
Proof.
  intros Ha Hb H. rewrite <- (Z.mod_small a (2 ^ 8)), <- (Z.mod_small b (2 ^ 8)) by done.
  apply Z.bits_inj'. intros k Hk. destruct (Z.ltb_spec k 8).
  - rewrite !Z.mod_pow2_bits_low by lia. apply H. lia.
  - by rewrite !Z.mod_pow2_bits_high by lia.
Qed.

(** A bitmap is determined by its bits. *)
Lemma bitmap_eq D D' :
  zlen D = zlen D' -> Forall byte_ok D -> Forall byte_ok D' ->
  (forall i, 0 <= i -> bit_at D i = bit_at D' i) -> D = D'.
Proof.
  intros Hz HD HD' H. apply list_eq_rd; [done|]. intros i Hi.
  destruct (rd_some D i) as [b E], (rd_some D' i) as [b' E']; [lia|lia|lia|].
  rewrite E, E'. f_equal. pose proof E as Eb. pose proof E' as Eb'.
  apply rd_lookup in Eb as [_ Eb], Eb' as [_ Eb'].
  apply byte_bits_eq; [by eapply Forall_lookup_1 in HD|by eapply Forall_lookup_1 in HD'|].
  intros k Hk. specialize (H (8 * i + k) ltac:(lia)). unfold bit_at in H.
  replace ((8 * i + k) / 8) with i in H by dlia. replace ((8 * i + k) mod 8) with k in H by dlia.
  by rewrite E, E' in H.
Qed.

(** The first byte. *)
Lemma first_bits_spec fuel v b bit count :
  1 <= bit <= 8 -> 0 <= count -> 8 - bit < Z.of_nat fuel -> byte_ok b ->
  exists b', first_bits fuel v b bit count = (b', if 8 - bit <=? count then count - (8 - bit) else -1) /\
    byte_ok b' /\
    forall k, 0 <= k < 8 -> Z.testbit b' k = if (bit <=? k) && (k <? bit + count) then v else Z.testbit b k.
Proof.
  revert b bit count. induction fuel as [|fuel IH]; intros b bit count Hb Hc Hf Hbyte; [lia|].
  cbn [first_bits]. rewrite land7. destruct (Z.eqb_spec (bit mod 8) 0) as [E|E].
  - assert (bit = 8) as -> by dlia. exists b. rewrite Z.sub_diag. destruct (Z.leb_spec 0 count); [|lia].
    split_and!; [f_equal; lia|done|]. intros k Hk. destruct (Z.leb_spec 8 k); [lia|done].
  - assert (bit < 8) by dlia. destruct (Z.eqb_spec count 0) as [->|Hne].
    + exists b. destruct (Z.leb_spec (8 - bit) 0); [lia|]. split_and!; [done|done|].
      intros k Hk. destruct (Z.leb_spec bit k), (Z.ltb_spec k (bit + 0)); cbn; done || lia.
    + destruct (IH (put_bit v b bit) (bit + 1) (count - 1)) as (b' & -> & H1 & H2);
        [lia..|apply put_bit_byte|].
      exists b'. split_and!; [|done|].
      * f_equal. destruct (Z.leb_spec (8 - (bit + 1)) (count - 1)), (Z.leb_spec (8 - bit) count); lia.
      * intros k Hk. rewrite H2, put_bit_spec by lia.
        destruct (Z.leb_spec (bit + 1) k), (Z.ltb_spec k (bit + 1 + (count - 1))), (Z.leb_spec bit k),
          (Z.ltb_spec k (bit + count)), (Z.eqb_spec k bit); cbn; done || lia.
Qed.

(** The last byte. *)
Lemma last_bits_spec n v b count :
  Z.of_nat n <= 8 -> Z.of_nat n <= count -> byte_ok b ->
  exists b', last_bits n v b count = (b', count - Z.of_nat n) /\ byte_ok b' /\
    forall k, 0 <= k < 8 -> Z.testbit b' k = if k <? Z.of_nat n then v else Z.testbit b k.
Proof.
  revert b count. induction n as [|n IH]; intros b count Hn Hc Hb; cbn [last_bits].
  - exists b. split_and!; [f_equal; lia|done|]. intros k Hk. destruct (Z.ltb_spec k (Z.of_nat 0)); [lia|done].
  - destruct (Z.eqb_spec count 0); [lia|].
    destruct (IH (put_bit v b (Z.of_nat n)) (count - 1)) as (b' & -> & H1 & H2); [lia|lia|apply put_bit_byte|].
    exists b'. split_and!; [f_equal; lia|done|]. intros k Hk. rewrite H2, put_bit_spec by lia.
    destruct (Z.ltb_spec k (Z.of_nat n)), (Z.ltb_spec k (Z.of_nat (S n))), (Z.eqb_spec k (Z.of_nat n)); done || lia.
Qed.

Lemma sub_one {X} (l : list X) i x : rd l i = Ret x -> sub l i 1 = [x].
Proof.
  intros E. pose proof (rd_bound _ _ _ E). apply list_eq_rd; [by rewrite zlen_sub by lia|].
  intros j Hj. rewrite zlen_sub in Hj by lia. rewrite rd_sub by lia.
  replace j with 0 by lia. by rewrite Z.add_0_r, E.
Qed.

(** The bits of a buffer [x] agree with the map [T] from byte [p] on. *)
Definition shows (x : bytes) (n p : Z) (T : Z -> bool) : Prop :=
  forall j, 0 <= j < n -> exists b, rd x j = Ret b /\ byte_ok b /\
    forall k, 0 <= k < 8 -> Z.testbit b k = T (8 * (p + j) + k).

Lemma shows_bit_at D : Forall byte_ok D -> shows D (zlen D) 0 (bit_at D).
Proof.
  intros HF j Hj. destruct (rd_some D j Hj) as [b E]. exists b. split_and!; [done| |].
  - apply rd_lookup in E as [_ E]. by eapply Forall_lookup_1 in HF.
  - intros k Hk. unfold bit_at. replace ((8 * (0 + j) + k) / 8) with j by dlia.
    replace ((8 * (0 + j) + k) mod 8) with k by dlia. by rewrite E.
Qed.

Lemma bit_at_splice D x p i T :
  0 <= p -> p + zlen x <= zlen D -> 0 <= i -> shows x (zlen x) p T ->
  bit_at (splice D p x) i = if (8 * p <=? i) && (i <? 8 * (p + zlen x)) then T i else bit_at D i.
Proof.
  intros Hp Hx Hi HT. pose proof (zlen_nonneg x). unfold bit_at. rewrite rd_splice by dlia.
  destruct (Z.leb_spec p (i / 8)), (Z.ltb_spec (i / 8) (p + zlen x)), (Z.leb_spec (8 * p) i),
    (Z.ltb_spec i (8 * (p + zlen x))); cbn [andb]; try done; try dlia.
  destruct (HT (i / 8 - p)) as (b & -> & _ & Hb); [lia|]. rewrite Hb by dlia. f_equal. dlia.
Qed.

Lemma Forall_splice D x p T :
  Forall byte_ok D -> 0 <= p -> p + zlen x <= zlen D -> shows x (zlen x) p T -> Forall byte_ok (splice D p x).
Proof.
  intros HF Hp Hx HT. unfold splice. rewrite !Forall_app. split_and!; [by apply Forall_take| |by apply Forall_drop].
  apply Forall_lookup. intros i b E. destruct (HT (Z.of_nat i)) as (b' & E' & Hb & _).
  { apply lookup_lt_Some in E. zlia. }
  apply rd_lookup in E' as [_ E']. rewrite Nat2Z.id in E'. by simplify_eq.
Qed.

(** ** Correctness of the runs *)
Section RunLaws.
Context {A : Type} {io : attr_io A} {laws : attr_io_laws A} (malloc : Z -> bool).
Context (D0 : bytes) (S C : Z) (v : bool).
Context (HS : 0 <= S) (HC : 0 <= C) (Hend : S + C <= 8 * zlen D0) (H31 : zlen D0 < 2 ^ 31 - 1).

(** The bitmap that is wanted. *)
Definition run_bits (i : Z) : bool := if (S <=? i) && (i <? S + C) then v else bit_at D0 i.

(** Where the window begins. *)
Definition window (s : @bstate A) : Z := b_start s / 8 - b_first s.

Record loop_inv (s : @bstate A) : Prop := {
  li_ok : attr_ok (b_na s);
  li_len : zlen (attr_bytes (b_na s)) = zlen D0;
  li_bytes : Forall byte_ok (attr_bytes (b_na s));
  li_first : b_first s = 0 \/ b_first s = 1;
  li_start : b_start s mod 8 = 0 /\ 8 * b_first s <= b_start s <= 8 * zlen D0 /\ S <= b_start s;
  li_count : -1 <= b_count s;
  li_end : S + C <= b_start s + Z.max 0 (b_count s) /\
           (0 <= b_count s -> S + C = b_start s + b_count s);
  li_bit : 0 < b_count s -> b_bit s = b_count s mod 8;
  li_size : b_size s = Z.min 8192 ((b_count s + 7) / 8 + b_first s);
  li_bits : forall i, 0 <= i ->
    bit_at (attr_bytes (b_na s)) i = if i <? 8 * window s then run_bits i else bit_at D0 i;
  li_room : b_size s <= zlen (b_buf s) <= 8192;
  li_head : b_first s = 1 -> shows (b_buf s) 1 (window s) run_bits;
  li_rest : forall j, b_first s <= j < zlen (b_buf s) -> rd (b_buf s) j = Ret (fill_byte v);
}.

Lemma run_bits_in i : S <= i < S + C -> run_bits i = v.
Proof. intros. unfold run_bits. destruct (Z.leb_spec S i), (Z.ltb_spec i (S + C)); cbn; done || lia. Qed.

Lemma run_bits_out i : ~ (S <= i < S + C) -> run_bits i = bit_at D0 i.
Proof. intros. unfold run_bits. destruct (Z.leb_spec S i), (Z.ltb_spec i (S + C)); cbn; done || lia. Qed.

(** The bytes of the window that lie in the run. *)
Lemma window_shows s n :
  loop_inv s -> b_first s <= n <= zlen (b_buf s) -> 8 * (window s + n) <= S + C \/ n = b_first s ->
  shows (b_buf s) n (window s) run_bits.
Proof.
  intros [] Hn Hin j Hj. unfold window in *.
  destruct (Z.ltb_spec j (b_first s)).
  - assert (j = 0) as -> by lia. apply li_head0; lia.
  - exists (fill_byte v). rewrite li_rest0 by lia. split_and!; [done|apply fill_byte_ok|].
    intros k Hk. rewrite fill_byte_spec by lia. symmetry. apply run_bits_in. dlia.
Qed.

Lemma prepare_last_ok s :
  loop_inv s ->
  exists buf last, prepare_last v s =
      Ret (buf, if last =? 1 then b_count s - b_count s mod 8 else b_count s,
           if last =? 1 then 0 else b_bit s, last) /\
    shows buf (b_size s) (window s) run_bits /\ zlen buf = zlen (b_buf s) /\
    (last = 0 /\ buf = b_buf s /\ 8 * (b_size s - b_first s) <= Z.max 0 (b_count s) \/
     last = 1 /\ 0 < b_count s /\ b_count s mod 8 <> 0 /\
       b_size s = (b_count s + 7) / 8 + b_first s).
Proof using All.
  intros Hi. pose proof Hi as []. unfold prepare_last.
  destruct (Z.ltb_spec 0 (b_count s)) as [Hc|Hc]; cbn [andb].
  2:{ exists (b_buf s), 0. split_and!; try done.
      - apply window_shows; [done|dlia|right; dlia].
      - left. split_and!; try done. dlia. }
  rewrite li_bit0 by done. destruct (Z.eqb_spec (b_count s mod 8) 0) as [E|E]; cbn [negb].
  { exists (b_buf s), 0. split_and!; try done.
    - apply window_shows; [done|dlia|]. left. unfold window. dlia.
    - left. split_and!; try done. dlia. }
  rewrite shiftr3. rewrite wraps_small by (unfold in_s; cbn in *; dlia).
  destruct (Z.eqb_spec ((b_count s + 7) / 8 + b_first s) 0); [dlia|].
  destruct (Z.leb_spec ((b_count s + 7) / 8 + b_first s) (b_size s)).
  2:{ exists (b_buf s), 0. split_and!; try done.
    - apply window_shows; [done|dlia|]. left. unfold window. dlia.
    - left. split_and!; try done. dlia. }
  assert (b_size s = (b_count s + 7) / 8 + b_first s) as Hsz by lia.
  set (q := (b_start s + b_count s) / 8).
  assert (0 <= q < zlen D0 /\ q * 8 + b_count s mod 8 = b_start s + b_count s) as [Hqb Hqm] by (unfold q; dlia).
  rewrite shiftr3. fold q. rewrite attr_pread_law by (done || lia).
  assert (window s + (b_size s - 1) = q) as Hq by (unfold window, q; dlia).
  destruct (rd_some (attr_bytes (b_na s)) q) as [x Ex]; [lia|].
  rewrite (sub_one _ _ _ Ex).
  destruct (last_bits_spec (Z.to_nat (b_count s mod 8)) v x (b_count s)) as (x' & -> & Hx1 & Hx2); [dlia|dlia| |].
  { apply rd_lookup in Ex as [_ Ex]. by eapply Forall_lookup_1 in li_bytes0. }
  assert (1 <= (b_count s + 7) / 8) as Hpos by dlia.
  assert (0 <= b_count s mod 8 < 8 /\ b_count s mod 8 <= b_count s) as Hmod by dlia.
  rewrite wr_ok by lia. cbn [obind]. rewrite Z2Nat.id in * by dlia.
  eexists _, 1. split_and!; [done| |by rewrite zlen_insert|right; done].
  intros j Hj. rewrite rd_insert by lia.
  destruct (Z.eqb_spec ((b_count s + 7) / 8 + b_first s - 1) j) as [Ej|Ej].
  - exists x'. split_and!; [done|done|]. intros k Hk. rewrite Hx2 by done.
    replace (window s + j) with q by lia. destruct (Z.ltb_spec k (b_count s mod 8)).
    + symmetry. apply run_bits_in. lia.
    + rewrite run_bits_out by lia.
      assert (bit_at (attr_bytes (b_na s)) (8 * q + k) = bit_at D0 (8 * q + k)) as <-.
      { rewrite li_bits0 by lia. destruct (Z.ltb_spec (8 * q + k) (8 * window s)); [lia|done]. }
      unfold bit_at. replace ((8 * q + k) / 8) with q by dlia.
      replace ((8 * q + k) mod 8) with k by dlia. by rewrite Ex.
  - apply (window_shows s (b_size s - 1)); [done|lia| |lia].
    unfold window. dlia.
Qed.

(** The byte string after the window is written. *)
Lemma window_written s buf :
  loop_inv s -> shows buf (b_size s) (window s) run_bits -> b_size s <= zlen buf -> 0 <= b_size s ->
  window s + b_size s <= zlen D0 ->
  exists na', attr_pwrite (b_na s) (window s) (sub buf 0 (b_size s)) = (na', Ret (b_size s)) /\
    attr_ok na' /\ zlen (attr_bytes na') = zlen D0 /\ Forall byte_ok (attr_bytes na') /\
    forall i, 0 <= i -> bit_at (attr_bytes na') i =
      if i <? 8 * (window s + b_size s) then run_bits i else bit_at D0 i.
Proof using All.
  intros Hi Hsh Hz H0 Hend'. pose proof Hi as [].
  assert (0 <= window s) as Hp by (unfold window; dlia).
  assert (zlen (sub buf 0 (b_size s)) = b_size s) as Hzs by (apply zlen_sub; lia).
  assert (shows (sub buf 0 (b_size s)) (zlen (sub buf 0 (b_size s))) (window s) run_bits) as Hsub.
  { intros j Hj. rewrite Hzs in Hj. rewrite rd_sub by lia.
    destruct (Z.ltb_spec j (b_size s)); [apply (Hsh j); lia|lia]. }
  destruct (attr_pwrite_law (b_na s) (window s) (sub buf 0 (b_size s))) as (na' & E & Hok & Hb); [done|done|lia|].
  rewrite Hzs in E. exists na'. split_and!; [done|done| | |].
  - rewrite Hb, zlen_splice; lia.
  - rewrite Hb. eapply Forall_splice; try done. lia.
  - intros i Hi0. rewrite Hb, (bit_at_splice _ _ _ _ run_bits) by (done || lia). rewrite Hzs, li_bits0 by done.
    destruct (Z.leb_spec (8 * window s) i), (Z.ltb_spec i (8 * (window s + b_size s))),
      (Z.ltb_spec i (8 * window s)); cbn [andb]; done || lia.
Qed.

(** The last round. *)
Lemma window_done na n :
  (forall i, 0 <= i -> bit_at (attr_bytes na) i = if i <? n then run_bits i else bit_at D0 i) ->
  S + C <= n -> forall i, 0 <= i -> bit_at (attr_bytes na) i = run_bits i.
Proof using All.
  intros H Hn i Hi. rewrite H by done. destruct (Z.ltb_spec i n); [done|].
  symmetry. apply run_bits_out. lia.
Qed.

Definition run_done (na : A) : Prop :=
  attr_ok na /\ zlen (attr_bytes na) = zlen D0 /\ Forall byte_ok (attr_bytes na) /\
  forall i, 0 <= i -> bit_at (attr_bytes na) i = run_bits i.

Lemma window_loop_ok fuel s :
  loop_inv s -> b_count s <= 65528 * (Z.of_nat fuel - 1) -> (0 < fuel)%nat ->
  exists na', window_loop fuel v s = (na', Ret tt) /\ run_done na'.
Proof using All.
  revert s. induction fuel as [|fuel IH]; intros s Hi Hf Hf0; [lia|]. cbn [window_loop].
  destruct (prepare_last_ok s Hi) as (buf & last & -> & Hsh & Hz & Hlast).
  pose proof Hi as []. unfold run_done.
  assert (0 <= b_size s /\ window s + b_size s <= zlen D0 /\ 0 <= window s) as (Hs0 & Hfit & Hw0)
    by (unfold window; dlia).
  rewrite rdn_ok by lia. rewrite shiftr3. fold (window s).
  rewrite (wraps_small 32 (window s)) by (unfold in_s; cbn in *; lia).
  destruct (window_written s buf) as (na' & -> & Hok & Hzn & Hbn & Hbits); [done|done|lia|done|done|].
  rewrite Z.eqb_refl. cbn [negb].
  assert (exists buf', (if negb (b_first s =? 0) then wr buf 0 (fill_byte v) else Ret buf) = Ret buf' /\
    zlen buf' = zlen buf /\ (last = 0 -> forall j, 0 <= j < zlen buf -> rd buf' j = Ret (fill_byte v)))
    as (buf' & -> & Hz' & Hfill).
  { destruct (Z.eqb_spec (b_first s) 0) as [E|E]; cbn [negb].
    - exists buf. split_and!; [done|done|]. intros -> j Hj. destruct Hlast as [(_ & -> & _)|[? _]]; [|lia].
      apply li_rest0. lia.
    - rewrite wr_ok by dlia. eexists. split_and!; [done|by rewrite zlen_insert|].
      intros -> j Hj. destruct Hlast as [(_ & -> & _)|[? _]]; [|lia].
      change 0%nat with (Z.to_nat 0). rewrite rd_insert by dlia. destruct (Z.eqb_spec 0 j); [done|].
      apply li_rest0. lia. }
  rewrite Z.shiftl_mul_pow2 by lia. change (2 ^ 3) with 8. rewrite shiftr3.
  destruct Hlast as [(-> & -> & Hin)|(-> & Hc & Hm & Hsz)]; cbn [Z.eqb Pos.eqb negb andb].
  - rewrite (wraps_small 32 ((b_size s - b_first s - 0) * 8)) by (unfold in_s; cbn in *; dlia).
    rewrite Z.sub_0_r.
    destruct (Z.ltb_spec 0 (b_count s - (b_size s - b_first s) * 8)) as [Hmore|Hdone].
    + rewrite (wraps_small 32) by (unfold in_s; cbn in *; dlia).
      assert (b_size s = 8192) as Hfull by dlia.
      apply IH; cbn [b_count]; [|lia|lia].
      split; cbn; try done; try lia; unfold window in *; cbn; try (dlia || done).
      * destruct (Z.ltb_spec ((b_count s - (b_size s - b_first s) * 8 + 7) / 8) (b_size s)); lia.
      * intros i Hi0. rewrite Hbits by done.
        replace ((b_start s + (b_size s - b_first s) * 8) / 8 - 0)
          with (b_start s / 8 - b_first s + b_size s) by dlia. done.
      * destruct (Z.ltb_spec ((b_count s - (b_size s - b_first s) * 8 + 7) / 8) (b_size s)); lia.
      * intros j Hj. apply Hfill; lia.
    + eexists. split; [done|]. split_and!; [done..|].
      apply (window_done _ (8 * (window s + b_size s))); [done|]. unfold window. dlia.
  - rewrite (wraps_small 32 ((b_size s - b_first s - 1) * 8)) by (unfold in_s; cbn in *; dlia).
    assert (b_count s - b_count s mod 8 - (b_size s - b_first s - 1) * 8 = 0) as -> by dlia.
    cbn [Z.eqb negb Z.ltb Z.compare]. eexists. split; [done|]. split_and!; [done..|].
    apply (window_done _ (8 * (window s + b_size s))); [done|]. unfold window. dlia.
Qed.

(** The first window of a run that begins with a byte. *)
Lemma inv_aligned na :
  attr_ok na -> attr_bytes na = D0 -> Forall byte_ok D0 -> S mod 8 = 0 ->
  let n := Z.min 8192 ((C + 7) / 8) in
  loop_inv (mkb na S C (C mod 8) 0 n (replicate (Z.to_nat n) (fill_byte v))).
Proof using All.
  intros Hok HD HF E n. split; cbn; rewrite ?HD, ?zlen_replicate; unfold window; cbn; try (done || lia || dlia).
  - intros i Hi. destruct (Z.ltb_spec i (8 * (S / 8 - 0))); [|done]. symmetry. apply run_bits_out. dlia.
  - intros j Hj. apply rd_lookup. split; [lia|]. apply lookup_replicate. split; [done|lia].
Qed.

(** The first window of a run that begins inside of byte [p]. *)
Lemma inv_partial na p x x' c n :
  attr_ok na -> attr_bytes na = D0 -> Forall byte_ok D0 ->
  0 <= p < zlen D0 -> S = 8 * p + S mod 8 -> 1 <= S mod 8 < 8 -> rd D0 p = Ret x -> byte_ok x' ->
  (forall k, 0 <= k < 8 -> Z.testbit x' k = if (S mod 8 <=? k) && (k <? S mod 8 + C) then v else Z.testbit x k) ->
  c = (if 8 - S mod 8 <=? C then C - (8 - S mod 8) else -1) -> n = Z.min 8192 ((c + 7) / 8 + 1) ->
  loop_inv (mkb na (8 * (p + 1)) c (c mod 8) 1 n
              (<[Z.to_nat 0:=x']> (replicate (Z.to_nat n) (fill_byte v)))).
Proof using All.
  intros Hok HD HF Hp HSp Hbit Ex Hx1 Hx2 Hc Hn.
  assert (8 * (p + 1) / 8 = p + 1) as Hdiv by dlia.
  assert (-1 <= c /\ 0 <= (c + 7) / 8) as [Hc1 Hc7] by (rewrite Hc; destruct (Z.leb_spec (8 - S mod 8) C); dlia).
  split; cbn -[Z.mul]; rewrite ?HD, ?zlen_insert, ?zlen_replicate; unfold window; cbn -[Z.mul];
    rewrite ?Hdiv; try (done || lia).
  - dlia.
  - destruct (Z.leb_spec (8 - S mod 8) C); lia.
  - intros i Hi. destruct (Z.ltb_spec i (8 * (p + 1 - 1))); [|done]. symmetry. apply run_bits_out. lia.
  - intros _ j Hj. replace j with 0 by lia. exists x'.
    rewrite rd_insert by (rewrite ?zlen_replicate; lia). split_and!; [done|done|].
    intros k Hk. rewrite Hx2 by done. unfold run_bits.
    replace (8 * (p + 1 - 1 + 0) + k) with (8 * p + k) by lia.
    assert (Z.testbit x k = bit_at D0 (8 * p + k)) as ->.
    { unfold bit_at. replace ((8 * p + k) / 8) with p by dlia.
      replace ((8 * p + k) mod 8) with k by dlia. by rewrite Ex. }
    destruct (Z.leb_spec (S mod 8) k), (Z.ltb_spec k (S mod 8 + C)), (Z.leb_spec S (8 * p + k)),
      (Z.ltb_spec (8 * p + k) (S + C)); cbn; done || lia.
  - intros j Hj. rewrite rd_insert by (rewrite ?zlen_replicate; lia). destruct (Z.eqb_spec 0 j); [lia|].
    apply rd_lookup. split; [lia|]. apply lookup_replicate. split; [done|lia].
Qed.

Lemma cap_min n : (if 8192 <? n then 8192 else n) = Z.min 8192 n.
Proof. destruct (Z.ltb_spec 8192 n); lia. Qed.

Lemma set_bits_in_run_ok na :
  (forall n, malloc n = true) -> attr_ok na -> attr_bytes na = D0 -> Forall byte_ok D0 ->
  exists na', ntfs_bitmap_set_bits_in_run malloc na S C v = (na', Ret tt) /\ run_done na'.
Proof using All.
  intros Hm Hok HD HF. unfold ntfs_bitmap_set_bits_in_run.
  destruct (Z.ltb_spec S 0), (Z.ltb_spec C 0); try lia. cbn [orb]. rewrite Hm. cbn [negb].
  rewrite land7, shiftr3, cap_min. unfold prepare_first. rewrite land7, shiftr3.
  assert (C <= 65528 * (Z.of_nat (Z.to_nat (C / 65528 + 2)) - 1)) as Hfuel by dlia.
  assert (0 < Z.to_nat (C / 65528 + 2))%nat as Hfuel0 by dlia.
  destruct (Z.eqb_spec (S mod 8) 0) as [E|E]; cbn [negb].
  - apply window_loop_ok; [|done|done]. rewrite land7, Z.sub_0_r, Z.add_0_r. by apply inv_aligned.
  - set (p := S / 8). assert (0 <= p < zlen D0 /\ S = 8 * p + S mod 8 /\ 1 <= S mod 8 < 8) as (Hp & HSp & Hbit)
      by (unfold p; dlia).
    rewrite attr_pread_law by (done || rewrite ?HD; lia). rewrite HD.
    destruct (rd_some D0 p Hp) as [x Ex]. rewrite (sub_one _ _ _ Ex).
    destruct (first_bits_spec 8 v x (S mod 8) C) as (x' & -> & Hx1 & Hx2); [lia|lia|lia| |].
    { apply rd_lookup in Ex as [_ Ex]. by eapply Forall_lookup_1 in HF. }
    set (c := if 8 - S mod 8 <=? C then C - (8 - S mod 8) else -1).
    assert ((C - (8 - S mod 8) + 7) / 8 = (c + 7) / 8 /\ 0 <= (c + 7) / 8 /\ c <= C) as (-> & Hn1 & Hc).
    { unfold c. destruct (Z.leb_spec (8 - S mod 8) C); dlia. }
    rewrite wr_ok by (rewrite zlen_replicate; lia). cbn [obind].
    assert (Z.land (S + 7) (Z.lnot 7) = 8 * (p + 1)) as ->.
    { rewrite land_lnot7. dlia. }
    apply window_loop_ok; [|cbn; lia|done]. rewrite land7. by apply (inv_partial na p x x').
Qed.
End RunLaws.

(** C12. Setting or clearing a run of bits in a bitmap attribute changes
    exactly the bits [start .. start + count): the run may begin and end inside
    of a byte, lie in a single byte, be empty, or span any number of windows. *)
Theorem set_bits_in_run_spec {A} {io : attr_io A} {laws : attr_io_laws A} malloc na start count v :
  (forall n, malloc n = true) -> attr_ok na -> Forall byte_ok (attr_bytes na) ->
  0 <= start -> 0 <= count -> start + count <= 8 * zlen (attr_bytes na) ->
  zlen (attr_bytes na) < 2 ^ 31 - 1 ->
  exists na', ntfs_bitmap_set_bits_in_run malloc na start count v = (na', Ret tt) /\
    zlen (attr_bytes na') = zlen (attr_bytes na) /\
    forall i, 0 <= i -> bit_at (attr_bytes na') i =
      if (start <=? i) && (i <? start + count) then v else bit_at (attr_bytes na) i.
Proof.
  intros Hm Hok HF H1 H2 H3 H4.
  destruct (set_bits_in_run_ok malloc (attr_bytes na) start count v H1 H2 H3 H4 na) as (na' & E & _ & Hz & _ & Hb);
    [done..|].
  by exists na'.
Qed.

(** In memory: setting a bit to 0 or 1 changes that bit only, and
    [ntfs_bit_get] and [ntfs_bit_get_and_set] read the bit that is stored. *)
Theorem bit_set_get m bit value :
  Forall byte_ok m -> 0 <= bit < 8 * zlen m -> value = 0 \/ value = 1 ->
  exists m', ntfs_bit_set (Some m) bit value = Ret (Some m') /\
    zlen m' = zlen m /\
    (forall i, 0 <= i -> bit_at m' i = if i =? bit then value =? 1 else bit_at m i) /\
    ntfs_bit_get (Some m') bit = Ret value /\
    ntfs_bit_get_and_set (Some m) bit value = Ret (Z.b2z (bit_at m bit), Some m').
Proof.
  intros HF Hb Hv. unfold ntfs_bit_set, ntfs_bit_get, ntfs_bit_get_and_set. rewrite !land7, !shiftr3.
  destruct (rd_some m (bit / 8)) as [b Eb]; [dlia|]. rewrite Eb. cbn [obind].
  destruct (Z.ltb_spec 1 value); [lia|].
  set (x := put_bit (value =? 1) b (bit mod 8)).
  assert ((if value =? 0 then u8 (Z.land b (Z.lnot (Z.shiftl 1 (bit mod 8))))
           else u8 (Z.lor b (Z.shiftl 1 (bit mod 8)))) = x) as ->.
  { unfold x, put_bit. by destruct Hv as [-> | ->]. }
  rewrite wr_ok by dlia. cbn [obind].
  assert (byte_ok b) as Hbb by (apply rd_lookup in Eb as [_ Eb]; by eapply Forall_lookup_1 in HF).
  assert (forall k, 0 <= k < 8 -> Z.testbit x k = if k =? bit mod 8 then value =? 1 else Z.testbit b k) as Hx
    by (intros; apply put_bit_spec; dlia).
  assert (forall y, Z.land (Z.shiftr y (bit mod 8)) 1 = Z.b2z (Z.testbit y (bit mod 8))) as Hget.
  { intros y. change 1 with (Z.ones 1). rewrite Z.land_ones by lia. change (2 ^ 1) with 2.
    rewrite <- Z.bit0_mod. f_equal. rewrite Z.shiftr_spec by dlia. f_equal. }
  assert (bit_at m bit = Z.testbit b (bit mod 8)) as Ebit by (unfold bit_at; by rewrite Eb).
  exists (<[Z.to_nat (bit / 8):=x]> m). split_and!; [done|apply zlen_insert| | |].
  - intros i Hi. unfold bit_at. rewrite rd_insert by dlia.
    destruct (Z.eqb_spec (bit / 8) (i / 8)) as [E|E].
    + rewrite Hx by dlia. destruct (Z.eqb_spec (i mod 8) (bit mod 8)), (Z.eqb_spec i bit); try dlia; try done.
      by rewrite <- E, Eb.
    + destruct (Z.eqb_spec i bit); [subst; lia|done].
  - rewrite rd_insert, Z.eqb_refl by dlia. cbn [obind]. rewrite Hget, Hx, Z.eqb_refl by dlia.
    by destruct Hv as [-> | ->].
  - rewrite Hget, <- Ebit. destruct (Z.eqb_spec value (Z.b2z (bit_at m bit))) as [E|E]; cbn [negb].
    + do 3 f_equal. rewrite <- (list_insert_id m (Z.to_nat (bit / 8)) b) at 1
        by (by apply rd_lookup in Eb as [_ Eb]). f_equal.
      apply byte_bits_eq; [done|apply put_bit_byte|]. intros k Hk. rewrite Hx by lia.
      destruct (Z.eqb_spec k (bit mod 8)) as [->|]; [|done].
      rewrite <- Ebit. destruct Hv as [-> | ->]; by destruct (bit_at m bit).
    + rewrite wr_ok by dlia. cbn [obind]. do 4 f_equal. apply byte_bits_eq; [apply (wrapu_range 8); lia|apply put_bit_byte|].
      intros k Hk. rewrite Hx by lia. unfold wrapu. rewrite Z.mod_pow2_bits_low by lia.
      rewrite Z.lxor_spec, Z.shiftl_1_l, Z.pow2_bits_eqb by dlia.
      rewrite (Z.eqb_sym k). destruct (Z.eqb_spec (bit mod 8) k) as [Ek|]; [|by rewrite xorb_false_r].
      rewrite <- Ek, <- Ebit. destruct Hv as [-> | ->]; by destruct (bit_at m bit).
Qed.

(** ** Witnesses: an attribute in memory *)
#[export] Instance mem_attr : attr_io bytes := {
  attr_pread d pos n := Ret (sub d pos n);
  attr_pwrite d pos b := match wrn d pos b with Ret d' => (d', Ret (zlen b)) | _ => (d, Fail EIO) end;
}.

#[export] Instance mem_attr_laws : attr_io_laws bytes.
Proof.
  refine (@Build_attr_io_laws bytes mem_attr (fun _ => True) (fun d => d) _ _).
  - done.
  - intros na pos b _ Hp Hr. cbn. rewrite wrn_ok by lia. eauto.
Defined.

Lemma set_bits_in_run_spec_witness :
  exists na', ntfs_bitmap_set_bits_in_run (fun _ => true) [0x01; 0x00; 0x80; 0xff] 5 14 true = (na', Ret tt) /\
    bit_at na' 4 = false /\ bit_at na' 5 = true /\ bit_at na' 18 = true /\ bit_at na' 19 = false.
Proof.
  destruct (set_bits_in_run_spec (fun _ => true) [0x01; 0x00; 0x80; 0xff] 5 14 true)
    as (na' & E & _ & H); [done|done|repeat constructor; lia|lia|lia|by vm_compute|by vm_compute|].
  exists na'. split_and!; [exact E|by rewrite H|by rewrite H|by rewrite H|by rewrite H].
Defined.

Lemma bit_set_get_witness :
  exists m', ntfs_bit_set (Some [0x81; 0x02]) 9 0 = Ret (Some m') /\ ntfs_bit_get (Some m') 9 = Ret 0.
Proof.
  destruct (bit_set_get [0x81; 0x02] 9 0) as (m' & H1 & _ & _ & H2 & _);
    [repeat constructor; lia|split; [lia|by vm_compute]|by left|].
  exists m'. split; [exact H1|exact H2].
Defined.
