(* ===== verification/Unistr.v ===== *)
(** * Names (ntfs/unistr.c)

    Names are arrays of 16-bit units.  This file models their comparison and
    case mapping, and shows that [ntfs_names_full_collate], which orders the
    entries of a directory index, is a total order: the lexicographic order
    of the upcased names, refined by the order of the names themselves. *)
From S2P Require Import Prelude.

Abbreviation ustr := (list Z).

(** ** The code *)

(** [if (u < upcase_len) u = upcase[u]] *)
Definition up (upcase : ustr) (upcase_len u : Z) : outcome Z :=
  if u <? upcase_len then rd upcase u else Ret u.

(** unistr.c:245-267 ntfs_ucsncmp *)
Fixpoint ntfs_ucsncmp (n : nat) (s1 s2 : ustr) : outcome Z :=
  match n with
  | O => Ret 0
  | S n' =>
    match s1, s2 with
    | c1 :: s1', c2 :: s2' =>
      if c1 <? c2 then Ret (-1)
      else if c2 <? c1 then Ret 1
      else if c1 =? 0 then Ret 0
      else ntfs_ucsncmp n' s1' s2'
    | _, _ => Fault
    end
  end.

(** unistr.c:287-312 ntfs_ucsncasecmp *)
Fixpoint ntfs_ucsncasecmp (n : nat) (s1 s2 upcase : ustr) (upcase_size : Z) : outcome Z :=
  match n with
  | O => Ret 0
  | S n' =>
    match s1, s2 with
    | c1 :: s1', c2 :: s2' =>
      let! c1 := up upcase upcase_size c1 in
      let! c2 := up upcase upcase_size c2 in
      if c1 <? c2 then Ret (-1)
      else if c2 <? c1 then Ret 1
      else if c1 =? 0 then Ret 0
      else ntfs_ucsncasecmp n' s1' s2' upcase upcase_size
    | _, _ => Fault
    end
  end.

Inductive IGNORE_CASE_BOOL := CASE_SENSITIVE | IGNORE_CASE.

(** unistr.c:120-133 ntfs_names_are_equal *)
Definition ntfs_names_are_equal (s1 : ustr) (s1_len : Z) (s2 : ustr) (s2_len : Z)
    (ic : IGNORE_CASE_BOOL) (upcase : ustr) (upcase_size : Z) : outcome bool :=
  if negb (s1_len =? s2_len) then Ret false
  else if s1_len =? 0 then Ret true
  else
    let! r := match ic with
      | CASE_SENSITIVE => ntfs_ucsncmp (Z.to_nat s1_len) s1 s2
      | IGNORE_CASE => ntfs_ucsncasecmp (Z.to_nat s1_len) s1 s2 upcase upcase_size
      end in
    Ret (r =? 0).

(** unistr.c:169-172 ntfs_names_full_collate. The loop that skips equal units:
    [cnt], which is decremented first, and the two pointers afterwards. *)
Fixpoint skip_equal (cnt : nat) (n1 n2 : ustr) : outcome (nat * ustr * ustr) :=
  match cnt with
  | O => Fault
  | S cnt' =>
    match cnt' with
    | O => Ret (O, n1, n2)
    | S _ =>
      match n1, n2 with
      | a :: n1', b :: n2' => if a =? b then skip_equal cnt' n1' n2' else Ret (cnt', n1, n2)
      | _, _ => Fault
      end
    end
  end.

(** unistr.c:179-190 ntfs_names_full_collate. The upcased units where the
    loop over the next [cnt] units ends. *)
Fixpoint upcase_loop (cnt : nat) (n1 n2 upcase : ustr) (upcase_len : Z) : outcome (Z * Z) :=
  match cnt, n1, n2 with
  | S cnt', c1 :: n1', c2 :: n2' =>
    let! u1 := up upcase upcase_len c1 in
    let! u2 := up upcase upcase_len c2 in
    match cnt' with
    | O => Ret (u1, u2)
    | S _ => if u1 =? u2 then upcase_loop cnt' n1' n2' upcase upcase_len else Ret (u1, u2)
    end
  | _, _, _ => Fault
  end.

(** [if (a < b) return -1; if (a > b) return 1;] and what follows. *)
Definition cmp_then (a b : Z) (rest : Z) : Z :=
  if a <? b then -1 else if b <? a then 1 else rest.

(** unistr.c:151-229 ntfs_names_full_collate *)
Definition ntfs_names_full_collate (name1 : ustr) (name1_len : Z) (name2 : ustr) (name2_len : Z)
    (ic : IGNORE_CASE_BOOL) (upcase : ustr) (upcase_len : Z) : outcome Z :=
  let cnt := Z.min name1_len name2_len in
  if 0 <? cnt then
    match ic with
    | CASE_SENSITIVE =>
      let! (cnt, n1, n2) := skip_equal (Z.to_nat cnt) name1 name2 in
      match n1, n2 with
      | c1 :: n1', c2 :: n2' =>
        let! u1 := up upcase upcase_len c1 in
        let! u2 := up upcase upcase_len c2 in
        let! (u1, u2) := (if (u1 =? u2) && negb (Nat.eqb cnt 0)
          then upcase_loop cnt n1' n2' upcase upcase_len else Ret (u1, u2)) in
        Ret (cmp_then u1 u2 (cmp_then name1_len name2_len (cmp_then c1 c2 0)))
      | _, _ => Fault
      end
    | IGNORE_CASE =>
      let! (u1, u2) := upcase_loop (Z.to_nat cnt) name1 name2 upcase upcase_len in
      Ret (cmp_then u1 u2 (cmp_then name1_len name2_len 0))
    end
  else Ret (cmp_then name1_len name2_len 0).

(** unistr.c:326-335 ntfs_ucsnlen *)
Fixpoint ntfs_ucsnlen (s : ustr) (maxlen : nat) : outcome Z :=
  match maxlen with
  | O => Ret 0
  | S m =>
    match s with
    | [] => Fault
    | c :: s' => if c =? 0 then Ret 0 else let! n := ntfs_ucsnlen s' m in Ret (1 + n)
    end
  end.

(** unistr.c:354-366 ntfs_ucsndup. [malloc] says whether the allocation
    succeeds. *)
Definition ntfs_ucsndup (malloc : Z -> bool) (s : ustr) (maxlen : nat) : outcome ustr :=
  let! len := ntfs_ucsnlen s maxlen in
  if malloc ((len + 1) * 2) then
    let! x := rdn s 0 len in Ret (x ++ [0])
  else Fail ENOMEM.

(** unistr.c:379-388 ntfs_name_upcase. The first [n] units. *)
Fixpoint ntfs_name_upcase (n : nat) (name upcase : ustr) (upcase_len : Z) : outcome ustr :=
  match n with
  | O => Ret name
  | S n' =>
    match name with
    | [] => Fault
    | u :: name' =>
      let! v := up upcase upcase_len u in
      let! r := ntfs_name_upcase n' name' upcase upcase_len in Ret (v :: r)
    end
  end.

(** unistr.c:393-403 ntfs_name_locase *)
Definition ntfs_name_locase (n : nat) (name : ustr) (locase : option ustr) (locase_len : Z)
  : outcome ustr :=
  match locase with
  | None => Ret name
  | Some locase => ntfs_name_upcase n name locase locase_len
  end.

(** unistr.c:415-420 ntfs_file_value_upcase. The name of a FILE_NAME attribute
    and its length. *)
Definition ntfs_file_value_upcase (file_name : ustr) (file_name_length : Z) (upcase : ustr)
    (upcase_len : Z) : outcome ustr :=
  ntfs_name_upcase (Z.to_nat file_name_length) file_name upcase upcase_len.

(** unistr.c:1385-1391 ntfs_forbidden_chars. [1L << (ch - 0x20)] is tested in
    the 32 bits of [mainset]. *)
Definition mainset : Z :=
  fold_right (fun c m => Z.lor (Z.shiftl 1 (c - 0x20)) m) 0 [34; 42; 47; 58; 60; 62; 63].
(** unistr.c:1396-1404 ntfs_forbidden_chars. One character. *)
Definition ntfs_forbidden_char (ch : Z) : bool :=
  (ch <? 0x20) || ((ch <? 0x40) && negb (Z.land (Z.shiftl 1 (ch - 0x20)) mainset =? 0))
  || (ch =? 92) || (ch =? 124).
(** unistr.c:1380-1408 ntfs_forbidden_chars. TRUE with errno EINVAL. *)
Definition ntfs_forbidden_chars (name : ustr) (len : Z) : outcome bool :=
  let! last := (if len =? 0 then Ret true
    else let! c := rd name (len - 1) in Ret ((c =? 32) || (c =? 46))) in
  let! cs := rdn name 0 len in
  Ret (last || existsb ntfs_forbidden_char cs).

(** unistr.c:1426-1436 ntfs_collapsible_chars. The loop. *)
Fixpoint collapsible_loop (n : nat) (shortname longname upcase : ustr) (upcase_len : Z)
  : outcome bool :=
  match n with
  | O => Ret true
  | S n' =>
    match shortname, longname with
    | cs :: s', ch :: l' =>
      let! same := (if cs =? ch then Ret true
        else if (upcase_len <=? ch) || (upcase_len <=? cs) then Ret false
        else let! a := rd upcase cs in let! b := rd upcase ch in Ret (a =? b)) in
      if same then collapsible_loop n' s' l' upcase upcase_len else Ret false
    | _, _ => Fault
    end
  end.
(** unistr.c:1418-1438 ntfs_collapsible_chars *)
Definition ntfs_collapsible_chars (shortname : ustr) (shortlen : Z) (longname : ustr) (longlen : Z)
    (upcase : ustr) (upcase_len : Z) : outcome bool :=
  if shortlen =? longlen then
    collapsible_loop (Z.to_nat shortlen) shortname longname upcase upcase_len
  else Ret false.

(** ** Specification *)

(** The table as a total function. *)
Definition upf (upcase : ustr) (upcase_len c : Z) : Z :=
  match up upcase upcase_len c with Ret u => u | _ => c end.

(** Lexicographic comparison. *)
Fixpoint lexcmp (l k : ustr) : Z :=
  match l, k with
  | [], [] => 0
  | [], _ :: _ => -1
  | _ :: _, [] => 1
  | a :: l', b :: k' => cmp_then a b (lexcmp l' k')
  end.

(** The first [n] units, then [X]. *)
Fixpoint lexn (n : nat) (l k : ustr) (X : Z) : Z :=
  match n, l, k with
  | S n', a :: l', b :: k' => cmp_then a b (lexn n' l' k' X)
  | _, _, _ => X
  end.

(** The first comparison that decides. *)
Definition seqc (a b : Z) : Z := if a =? 0 then b else a.

Lemma cmp_then_seqc a b X Y : cmp_then a b (seqc X Y) = seqc (cmp_then a b X) Y.
Proof. unfold cmp_then, seqc. by destruct (a <? b), (b <? a). Qed.

Lemma cmp_then_0 a b Y : cmp_then a b Y = seqc (cmp_then a b 0) Y.
Proof. apply (cmp_then_seqc a b 0 Y). Qed.

Lemma cmp_then_refl a X : cmp_then a a X = X.
Proof. unfold cmp_then. by rewrite Z.ltb_irrefl. Qed.

Lemma cmp_then_zero a b X : cmp_then a b X = 0 <-> a = b /\ X = 0.
Proof. unfold cmp_then. destruct (Z.ltb_spec a b), (Z.ltb_spec b a); lia. Qed.

Lemma lexn_seqc n l k X Y : lexn n l k (seqc X Y) = seqc (lexn n l k X) Y.
Proof.
  revert l k. induction n as [|n IH]; intros [|a l] [|b k]; cbn; try done.
  by rewrite IH, cmp_then_seqc.
Qed.

Lemma lexcmp_lexn l k :
  lexcmp l k = lexn (Nat.min (length l) (length k)) l k (cmp_then (zlen l) (zlen k) 0).
Proof.
  revert k. induction l as [|a l IH]; intros [|b k]; cbn; try done.
  rewrite IH. f_equal. f_equal. rewrite !zlen_cons. unfold cmp_then.
  destruct (Z.ltb_spec (zlen l) (zlen k)), (Z.ltb_spec (1 + zlen l) (1 + zlen k)),
    (Z.ltb_spec (zlen k) (zlen l)), (Z.ltb_spec (1 + zlen k) (1 + zlen l)); done || lia.
Qed.

Lemma lexcmp_app p l k : lexcmp (p ++ l) (p ++ k) = lexcmp l k.
Proof. induction p as [|a p IH]; cbn; [done|]. by rewrite cmp_then_refl. Qed.

Lemma lexcmp_zero l k : lexcmp l k = 0 <-> l = k.
Proof.
  revert k. induction l as [|a l IH]; intros [|b k]; cbn; try done.
  rewrite cmp_then_zero, IH. naive_solver.
Qed.

Lemma lexcmp_antisym l k : lexcmp k l = - lexcmp l k.
Proof.
  revert k. induction l as [|a l IH]; intros [|b k]; cbn; try done.
  unfold cmp_then. destruct (Z.ltb_spec a b), (Z.ltb_spec b a); try done; lia || apply IH.
Qed.

Lemma lexcmp_trans l k m : lexcmp l k <= 0 -> lexcmp k m <= 0 -> lexcmp l m <= 0.
Proof.
  revert k m. induction l as [|a l IH]; intros [|b k] [|c m]; cbn; try done; try lia.
  unfold cmp_then.
  destruct (Z.ltb_spec a b), (Z.ltb_spec b a), (Z.ltb_spec b c), (Z.ltb_spec c b),
    (Z.ltb_spec a c), (Z.ltb_spec c a); try lia. apply IH.
Qed.

Section Names.
(** A table that covers the units below [upcase_len]. *)
Context (upcase : ustr) (upcase_len : Z) (Htab : upcase_len <= zlen upcase).
Let f := upf upcase upcase_len.

Lemma up_ok c : 0 <= c -> up upcase upcase_len c = Ret (f c).
Proof using Htab.
  intros Hc. unfold f, upf, up. destruct (Z.ltb_spec c upcase_len); [|done].
  destruct (rd_some upcase c) as [u E]; [lia|]. by rewrite E.
Qed.

Abbreviation units l := (Forall (fun c => 0 <= c) l).

Lemma skip_equal_ok cnt n1 n2 :
  (0 < cnt)%nat -> (cnt <= length n1)%nat -> (cnt <= length n2)%nat ->
  exists p c1 r1 c2 r2 k, skip_equal cnt n1 n2 = Ret (k, c1 :: r1, c2 :: r2) /\
    n1 = p ++ c1 :: r1 /\ n2 = p ++ c2 :: r2 /\ (length p + 1 + k = cnt)%nat /\ (c1 = c2 -> k = O).
Proof.
  revert n1 n2. induction cnt as [|cnt IH]; intros n1 n2 H0 H1 H2; [lia|]. cbn.
  destruct n1 as [|a n1], n2 as [|b n2]; cbn in *; try lia.
  destruct cnt as [|cnt]; [by exists [], a, n1, b, n2, O|].
  destruct (Z.eqb_spec a b) as [->|Hne].
  - destruct (IH n1 n2) as (p & c1 & r1 & c2 & r2 & k & E & -> & -> & Hk & Hc); [lia..|].
    exists (b :: p), c1, r1, c2, r2, k. split_and!; cbn; done || lia.
  - exists [], a, n1, b, n2, (S cnt). split_and!; done || lia.
Qed.

Lemma upcase_loop_ok cnt n1 n2 :
  (0 < cnt)%nat -> (cnt <= length n1)%nat -> (cnt <= length n2)%nat -> units n1 -> units n2 ->
  exists u1 u2, upcase_loop cnt n1 n2 upcase upcase_len = Ret (u1, u2) /\
    forall X, cmp_then u1 u2 X = lexn cnt (map f n1) (map f n2) X.
Proof using Htab.
  revert n1 n2. induction cnt as [|cnt IH]; intros n1 n2 H0 H1 H2 F1 F2; [lia|].
  destruct n1 as [|a n1], n2 as [|b n2]; cbn in *; try lia.
  apply Forall_cons in F1 as [Fa F1]. apply Forall_cons in F2 as [Fb F2].
  rewrite !up_ok by done. cbn [obind]. destruct cnt as [|cnt]; [by eexists _, _|].
  destruct (Z.eqb_spec (f a) (f b)) as [E|E].
  - destruct (IH n1 n2) as (u1 & u2 & -> & H); [lia|lia|lia|done|done|].
    exists u1, u2. split; [done|]. intros X. by rewrite E, cmp_then_refl, H.
  - exists (f a), (f b). split; [done|]. intros X. unfold cmp_then.
    destruct (Z.ltb_spec (f a) (f b)), (Z.ltb_spec (f b) (f a)); done || lia.
Qed.

Lemma ignore_case_ok n1 n2 :
  units n1 -> units n2 ->
  ntfs_names_full_collate n1 (zlen n1) n2 (zlen n2) IGNORE_CASE upcase upcase_len =
  Ret (lexcmp (map f n1) (map f n2)).
Proof using Htab.
  intros F1 F2. unfold ntfs_names_full_collate. rewrite lexcmp_lexn, !length_map.
  replace (zlen (map f n1)) with (zlen n1) by (unfold zlen; by rewrite length_map).
  replace (zlen (map f n2)) with (zlen n2) by (unfold zlen; by rewrite length_map).
  destruct (Z.ltb_spec 0 (Z.min (zlen n1) (zlen n2))).
  - replace (Nat.min (length n1) (length n2)) with (Z.to_nat (Z.min (zlen n1) (zlen n2))) by zlia.
    destruct (upcase_loop_ok (Z.to_nat (Z.min (zlen n1) (zlen n2))) n1 n2) as (u1 & u2 & -> & E); [zlia..|done|done|].
    cbn [obind]. by rewrite E.
  - destruct n1, n2; try done. zlia.
Qed.

(** The order that the code computes. *)
Definition name_cmp (n1 n2 : ustr) : Z := seqc (lexcmp (map f n1) (map f n2)) (lexcmp n1 n2).

Lemma case_sensitive_ok n1 n2 :
  units n1 -> units n2 ->
  ntfs_names_full_collate n1 (zlen n1) n2 (zlen n2) CASE_SENSITIVE upcase upcase_len =
  Ret (name_cmp n1 n2).
Proof using Htab.
  intros F1 F2. unfold ntfs_names_full_collate, name_cmp.
  destruct (Z.ltb_spec 0 (Z.min (zlen n1) (zlen n2))); [|destruct n1, n2; try done; zlia].
  destruct (skip_equal_ok (Z.to_nat (Z.min (zlen n1) (zlen n2))) n1 n2)
    as (p & c1 & r1 & c2 & r2 & k & -> & E1 & E2 & Hk & Hc); [zlia..|].
  cbn [obind]. set (L := cmp_then (zlen n1) (zlen n2) 0).
  assert (k = Nat.min (length r1) (length r2)) as Ek by (subst n1 n2; unfold zlen in *; rewrite !length_app in *; cbn in *; lia).
  assert (0 <= c1 /\ units r1 /\ 0 <= c2 /\ units r2) as (Hc1 & Hr1 & Hc2 & Hr2).
  { subst. apply Forall_app in F1 as [_ F1]. apply Forall_app in F2 as [_ F2].
    apply Forall_cons in F1 as [? ?]. by apply Forall_cons in F2 as [? ?]. }
  assert (lexcmp (map f n1) (map f n2) = cmp_then (f c1) (f c2) (lexn k (map f r1) (map f r2) L)) as EL.
  { rewrite E1, E2, !map_app, lexcmp_app. cbn. rewrite lexcmp_lexn, !length_map, <- Ek. do 2 f_equal.
    unfold L, cmp_then, zlen. rewrite E1, E2, !length_app, !length_map. cbn.
    repeat match goal with |- context [?a <? ?b] => destruct (Z.ltb_spec a b) end; done || lia. }
  assert (lexcmp (map f n1) (map f n2) = 0 -> lexcmp n1 n2 = cmp_then c1 c2 0) as Htie.
  { intros Hz. assert (length n1 = length n2) as Hlen.
    { apply lexcmp_zero in Hz. rewrite <- (length_map f n1), <- (length_map f n2). by rewrite Hz. }
    rewrite E1, E2, lexcmp_app. cbn. destruct (Z.eq_dec c1 c2) as [->|Hne].
    - rewrite !cmp_then_refl. specialize (Hc eq_refl). subst n1 n2. rewrite !length_app in Hlen. cbn in Hlen.
      destruct r1, r2; try done; cbn in *; lia.
    - unfold cmp_then. destruct (Z.ltb_spec c1 c2), (Z.ltb_spec c2 c1); done || lia. }
  rewrite !up_ok by done. cbn [obind].
  transitivity (@Ret Z (seqc (cmp_then (f c1) (f c2) (lexn k (map f r1) (map f r2) L)) (cmp_then c1 c2 0))).
  - rewrite <- cmp_then_seqc, <- lexn_seqc. unfold L. rewrite <- cmp_then_0.
    destruct (Z.eqb_spec (f c1) (f c2)) as [E|E]; cbn [andb].
    + destruct k as [|k]; cbn [Nat.eqb negb]; [done|].
      destruct (upcase_loop_ok (S k) r1 r2) as (u1 & u2 & -> & H1); [lia..|done|done|].
      cbn [obind]. by rewrite H1, E, cmp_then_refl.
    + cbn [obind]. f_equal. unfold cmp_then at 1 4.
      destruct (Z.ltb_spec (f c1) (f c2)), (Z.ltb_spec (f c2) (f c1)); done || lia.
  - rewrite <- EL. unfold seqc. destruct (Z.eqb_spec (lexcmp (map f n1) (map f n2)) 0) as [E|]; [|done].
    by rewrite Htie.
Qed.
Lemma name_cmp_antisym a b : name_cmp b a = - name_cmp a b.
Proof using.
  unfold name_cmp, seqc. rewrite (lexcmp_antisym (map f a)), (lexcmp_antisym a).
  destruct (Z.eqb_spec (lexcmp (map f a) (map f b)) 0), (Z.eqb_spec (- lexcmp (map f a) (map f b)) 0); lia.
Qed.

Lemma name_cmp_zero a b : name_cmp a b = 0 <-> a = b.
Proof using.
  unfold name_cmp, seqc. destruct (Z.eqb_spec (lexcmp (map f a) (map f b)) 0) as [|Hn]; [apply lexcmp_zero|].
  split; [done|]. intros ->. destruct Hn. by apply lexcmp_zero.
Qed.

Lemma name_cmp_trans a b c : name_cmp a b <= 0 -> name_cmp b c <= 0 -> name_cmp a c <= 0.
Proof using.
  unfold name_cmp, seqc. pose proof (lexcmp_trans (map f a) (map f b) (map f c)) as T.
  pose proof (lexcmp_trans a b c) as T2.
  assert (lexcmp (map f a) (map f b) = 0 -> lexcmp (map f a) (map f c) = lexcmp (map f b) (map f c)) as Q1.
  { intros E%lexcmp_zero. by rewrite E. }
  assert (lexcmp (map f b) (map f c) = 0 -> lexcmp (map f a) (map f c) = lexcmp (map f a) (map f b)) as Q2.
  { intros E%lexcmp_zero. by rewrite E. }
  assert (lexcmp (map f a) (map f c) = 0 -> lexcmp (map f a) (map f b) = - lexcmp (map f b) (map f c)) as Q3.
  { intros E%lexcmp_zero. rewrite E. apply lexcmp_antisym. }
  destruct (Z.eqb_spec (lexcmp (map f a) (map f b)) 0), (Z.eqb_spec (lexcmp (map f b) (map f c)) 0),
    (Z.eqb_spec (lexcmp (map f a) (map f c)) 0); lia.
Qed.
End Names.

(** C15. The order of directory entries: for names whose units are covered by
    the upcase table, the case-sensitive [ntfs_names_full_collate] compares
    the upcased names lexicographically and then the names themselves (while its comment,
    unistr.c:142, says that CASE_SENSITIVE ignores the table), and
    this is a total order - antisymmetric, transitive, and 0 only for the
    same name. *)
Theorem collate_total_order upcase upcase_len a b c :
  upcase_len <= zlen upcase ->
  Forall (fun u => 0 <= u) a -> Forall (fun u => 0 <= u) b -> Forall (fun u => 0 <= u) c ->
  let collate x y := ntfs_names_full_collate x (zlen x) y (zlen y) CASE_SENSITIVE upcase upcase_len in
  let f := upf upcase upcase_len in
  exists r r1 r2, collate a b = Ret r /\ collate b c = Ret r1 /\ collate a c = Ret r2 /\
    r = seqc (lexcmp (map f a) (map f b)) (lexcmp a b) /\
    collate b a = Ret (- r) /\ (r = 0 <-> a = b) /\ (r <= 0 -> r1 <= 0 -> r2 <= 0).
Proof.
  intros Ht Ha Hb Hc collate f. unfold collate.
  exists (name_cmp upcase upcase_len a b), (name_cmp upcase upcase_len b c), (name_cmp upcase upcase_len a c).
  rewrite !case_sensitive_ok by done. split_and!; try done; [by rewrite name_cmp_antisym|apply name_cmp_zero|apply name_cmp_trans].
Qed.

(** *** Equality of names *)
Lemma ucsncmp_ok n s1 s2 :
  length s1 = n -> length s2 = n -> Forall (fun u => 0 < u) s1 -> Forall (fun u => 0 < u) s2 ->
  ntfs_ucsncmp n s1 s2 = Ret (lexcmp s1 s2).
Proof.
  revert s1 s2. induction n as [|n IH]; intros [|a s1] [|b s2]; try done. cbn. intros [= H1] [= H2].
  intros [Ha F1]%Forall_cons [Hb F2]%Forall_cons. unfold cmp_then. rewrite IH by done.
  destruct (a <? b), (b <? a); try done. destruct (Z.eqb_spec a 0); [lia|done].
Qed.

Lemma ucsncasecmp_ok upcase len n s1 s2 :
  len <= zlen upcase -> (forall u, 0 < u -> 0 < upf upcase len u) ->
  length s1 = n -> length s2 = n -> Forall (fun u => 0 < u) s1 -> Forall (fun u => 0 < u) s2 ->
  ntfs_ucsncasecmp n s1 s2 upcase len = Ret (lexcmp (map (upf upcase len) s1) (map (upf upcase len) s2)).
Proof.
  intros Ht Hpos. revert s1 s2. induction n as [|n IH]; intros [|a s1] [|b s2]; try done.
  cbn -[up upf]. intros [= H1] [= H2]. intros [Ha F1]%Forall_cons [Hb F2]%Forall_cons.
  rewrite !up_ok by (done || lia). cbn [obind]. unfold cmp_then. rewrite IH by done.
  pose proof (Hpos a Ha).
  destruct (upf upcase len a <? upf upcase len b), (upf upcase len b <? upf upcase len a); try done.
  destruct (Z.eqb_spec (upf upcase len a) 0); [lia|done].
Qed.

(** For names without NUL units [ntfs_names_are_equal] decides equality of
    the names, or of the upcased names when case is ignored, and it agrees
    with the order that ignores case. *)
Theorem names_are_equal_spec upcase len s1 s2 :
  len <= zlen upcase -> (forall u, 0 < u -> 0 < upf upcase len u) ->
  Forall (fun u => 0 < u) s1 -> Forall (fun u => 0 < u) s2 ->
  let f := upf upcase len in
  ntfs_names_are_equal s1 (zlen s1) s2 (zlen s2) CASE_SENSITIVE upcase len = Ret (bool_decide (s1 = s2)) /\
  ntfs_names_are_equal s1 (zlen s1) s2 (zlen s2) IGNORE_CASE upcase len =
    Ret (bool_decide (map f s1 = map f s2)) /\
  (exists r, ntfs_names_full_collate s1 (zlen s1) s2 (zlen s2) IGNORE_CASE upcase len = Ret r /\
     (r = 0 <-> ntfs_names_are_equal s1 (zlen s1) s2 (zlen s2) IGNORE_CASE upcase len = Ret true)).
Proof.
  intros Ht Hpos F1 F2 f.
  assert (ntfs_names_are_equal s1 (zlen s1) s2 (zlen s2) IGNORE_CASE upcase len =
    Ret (bool_decide (map f s1 = map f s2))) as Hic.
  { unfold ntfs_names_are_equal. destruct (Z.eqb_spec (zlen s1) (zlen s2)) as [E|E]; cbn [negb].
    - destruct (Z.eqb_spec (zlen s1) 0) as [E0|E0].
      { destruct s1, s2; try done; zlia. }
      rewrite ucsncasecmp_ok by (done || zlia). cbn [obind]. f_equal. apply Bool.eq_true_iff_eq.
      by rewrite bool_decide_eq_true, Z.eqb_eq, lexcmp_zero.
    - rewrite bool_decide_eq_false_2; [done|]. intros Hm. apply E. unfold zlen.
      rewrite <- (length_map f s1), <- (length_map f s2). by rewrite Hm. }
  split_and!; [|done|].
  - unfold ntfs_names_are_equal. destruct (Z.eqb_spec (zlen s1) (zlen s2)) as [E|E]; cbn [negb].
    + destruct (Z.eqb_spec (zlen s1) 0) as [E0|E0].
      { destruct s1, s2; try done; zlia. }
      rewrite ucsncmp_ok by (done || zlia). cbn [obind]. f_equal. apply Bool.eq_true_iff_eq.
      by rewrite bool_decide_eq_true, Z.eqb_eq, lexcmp_zero.
    + rewrite bool_decide_eq_false_2; [done|]. by intros ->.
  - eexists. split.
    + apply ignore_case_ok; [done|..]; (eapply Forall_impl; [eassumption|]); cbn; lia.
    + rewrite Hic, lexcmp_zero. fold f. split.
      * intros E. by rewrite bool_decide_eq_true_2.
      * intros [= E]. by apply bool_decide_eq_true in E.
Qed.

(** A NUL unit ends the comparison: these different names are equal. *)
Example nul_names_equal :
  ntfs_names_are_equal [97; 0; 98] 3 [97; 0; 99] 3 CASE_SENSITIVE [] 0 = Ret true.
Proof. reflexivity. Qed.

Lemma forbidden_char_iff c :
  0 <= c -> ntfs_forbidden_char c = true <-> c < 32 \/ c ∈ [34; 42; 47; 58; 60; 62; 63; 92; 124].
Proof.
  intros Hc. destruct (Z.ltb_spec c 128) as [Hs|Hb].
  - assert (forallb (fun n => Bool.eqb (ntfs_forbidden_char (Z.of_nat n))
      ((Z.of_nat n <? 32) || existsb (Z.eqb (Z.of_nat n)) [34; 42; 47; 58; 60; 62; 63; 92; 124]))
      (seq 0 128) = true) as H by (by vm_compute).
    rewrite forallb_forall in H. specialize (H (Z.to_nat c)). rewrite Z2Nat.id in H by done.
    rewrite (eqb_prop _ _ (H ltac:(apply in_seq; lia))), orb_true_iff, Z.ltb_lt, existsb_exists.
    split; (intros [?|Hx]; [by left|right]).
    + destruct Hx as (x & Hx & ->%Z.eqb_eq). by apply list_elem_of_In.
    + exists c. split; [by apply list_elem_of_In|apply Z.eqb_refl].
  - unfold ntfs_forbidden_char. rewrite !elem_of_cons.
    destruct (Z.ltb_spec c 0x20), (Z.ltb_spec c 0x40); try lia. cbn [orb andb].
    rewrite orb_true_iff, !Z.eqb_eq. split; [intros [-> | ->]; auto 12|].
    intros [?|H']; [lia|]. repeat destruct H' as [->|H']; try lia; auto. by apply elem_of_nil in H'.
Qed.

Lemma destruct_last {A} (l : list A) : l = [] \/ exists p c, l = p ++ [c].
Proof. destruct l using rev_ind; eauto. Qed.

(** [ntfs_forbidden_chars] forbids exactly the empty name, the names that
    end in a space or a dot, and those with a control character or one of
    the characters that Win32 excludes from names. *)
Theorem forbidden_chars_spec name :
  Forall (fun u => 0 <= u) name ->
  exists r, ntfs_forbidden_chars name (zlen name) = Ret r /\
    (r = true <-> name = [] \/ (exists p, name = p ++ [32] \/ name = p ++ [46]) \/
       Exists (fun c => c < 32 \/ c ∈ [34; 42; 47; 58; 60; 62; 63; 92; 124]) name).
Proof.
  intros F. unfold ntfs_forbidden_chars. rewrite rdn_ok by (pose proof (zlen_nonneg name); lia).
  rewrite sub_all. cbn [obind].
  assert (existsb ntfs_forbidden_char name =
    bool_decide (Exists (fun c => c < 32 \/ c ∈ [34; 42; 47; 58; 60; 62; 63; 92; 124]) name)) as ->.
  { apply Bool.eq_true_iff_eq. rewrite bool_decide_eq_true, existsb_exists, Exists_exists.
    rewrite Forall_forall in F. split; intros (c & Hin & Hc); exists c.
    - split; [by apply list_elem_of_In|]. apply forbidden_char_iff; [|done]. apply F. by apply list_elem_of_In.
    - split; [by apply list_elem_of_In|]. apply forbidden_char_iff; [by apply F|done]. }
  destruct (destruct_last name) as [->|(p & c & ->)]; [eexists; split; [done|]; tauto|].
  rewrite zlen_app, zlen_cons, zlen_nil. destruct (Z.eqb_spec (zlen p + (1 + 0)) 0); [zlia|].
  rewrite rd_app_here by lia. cbn [obind]. eexists. split; [done|].
  rewrite orb_true_iff, orb_true_iff, bool_decide_eq_true, !Z.eqb_eq. split.
  - intros [[-> | ->]|H]; [right; left; eauto|right; left; eauto|by right; right].
  - intros [H|[(q & [H|H])|H]]; [by destruct p| | |by right].
    + apply app_inj_tail in H as [_ ->]. auto.
    + apply app_inj_tail in H as [_ ->]. auto.
Qed.

(** ** Witnesses: a table that upcases the ASCII letters *)
Definition ascii_upcase : ustr :=
  map (fun n => if (97 <=? Z.of_nat n) && (Z.of_nat n <=? 122) then Z.of_nat n - 32 else Z.of_nat n) (seq 0 128).

Lemma collate_total_order_witness :
  exists r r1 r2,
    ntfs_names_full_collate [97; 66] 2 [65; 98] 2 CASE_SENSITIVE ascii_upcase 128 = Ret r /\
    ntfs_names_full_collate [65; 98] 2 [98] 1 CASE_SENSITIVE ascii_upcase 128 = Ret r1 /\
    ntfs_names_full_collate [97; 66] 2 [98] 1 CASE_SENSITIVE ascii_upcase 128 = Ret r2 /\ r = 1 /\ r1 = -1.
Proof.
  destruct (collate_total_order ascii_upcase 128 [97; 66] [65; 98] [98])
    as (r & r1 & r2 & E & E1 & E2 & Er & _); [by vm_compute|repeat constructor; lia..|].
  exists r, r1, r2. split_and!; [exact E|exact E1|exact E2|by rewrite Er|].
  vm_compute in E1. by injection E1.
Defined.

Lemma ascii_upcase_pos u : 0 < u -> 0 < upf ascii_upcase 128 u.
Proof.
  intros Hu. unfold upf, up. destruct (Z.ltb_spec u 128); [|done].
  destruct (rd ascii_upcase u) as [v| |] eqn:E; try done. apply rd_lookup in E as [_ E].
  unfold ascii_upcase in E. rewrite list_lookup_fmap in E.
  rewrite lookup_seq_lt in E by lia. injection E as <-. cbn [Nat.add]; rewrite Z2Nat.id by lia.
  destruct (Z.leb_spec 97 u), (Z.leb_spec u 122); cbn; lia.
Qed.

Lemma names_are_equal_spec_witness :
  ntfs_names_are_equal [97; 66] 2 [65; 98] 2 CASE_SENSITIVE ascii_upcase 128 = Ret false /\
  ntfs_names_are_equal [97; 66] 2 [65; 98] 2 IGNORE_CASE ascii_upcase 128 = Ret true.
Proof.
  destruct (names_are_equal_spec ascii_upcase 128 [97; 66] [65; 98]) as (E1 & E2 & _);
    [by vm_compute|exact ascii_upcase_pos|repeat constructor; lia..|].
  split; [exact E1|exact (eq_trans E2 eq_refl)].
Defined.

Lemma forbidden_chars_spec_witness : ntfs_forbidden_chars [97; 58; 98] 3 = Ret true.
Proof.
  destruct (forbidden_chars_spec [97; 58; 98]) as (r & E & H); [repeat constructor; lia|].
  change (zlen [97; 58; 98]) with 3 in E. rewrite E. f_equal. apply H. right. right. apply Exists_cons. right. apply Exists_cons. left.
  right. rewrite !elem_of_cons. tauto.
Defined.
