(* ===== verification/Utf.v ===== *)
(** * UTF-8 and UTF-16 (ntfs/unistr.c)

    File names are UTF-16 on the volume and UTF-8 in the interface of the
    driver.  The conversions first compute the size of the result, allocate
    it, and then convert unit by unit into it; the model keeps the buffer, so
    that a size that is too small is a [Fault]. *)
From S2P Require Import Prelude Unistr.

(** config.h:4-4 PATH_MAX *)
Definition PATH_MAX : Z := 255.
(** layout.h:1065-1065 NTFS_MAX_NAME_LEN *)
Definition NTFS_MAX_NAME_LEN : Z := 255.

(** ** UTF-16 to UTF-8 *)

(** unistr.c:459-490 utf16_to_utf8_size. The loop; the length was checked
    after every unit, [surrog] is a high surrogate that waits for the low
    one. *)
Fixpoint size8_loop (ins : ustr) (n : nat) (surrog : bool) (count outs_len : Z) : outcome Z :=
  match n with
  | O => if surrog then Fail EILSEQ else Ret count
  | S n' =>
    match ins with
    | [] => Fault
    | c :: ins' =>
      if c =? 0 then (if surrog then Fail EILSEQ else Ret count)
      else
        let next surrog count :=
          if outs_len <? count then Fail ENAMETOOLONG else size8_loop ins' n' surrog count outs_len in
        if surrog then
          if (0xdc00 <=? c) && (c <? 0xe000) then next false (count + 4) else Fail EILSEQ
        else if c <? 0x80 then next false (count + 1)
        else if c <? 0x800 then next false (count + 2)
        else if c <? 0xd800 then next false (count + 3)
        else if c <? 0xdc00 then next true count
        else if 0xe000 <=? c then next false (count + 3)
        else Fail EILSEQ
    end
  end.

(** unistr.c:452-498 utf16_to_utf8_size *)
Definition utf16_to_utf8_size (ins : ustr) (ins_len outs_len : Z) : outcome Z :=
  size8_loop ins (Z.to_nat ins_len) false 0 outs_len.

(** unistr.c:548-578 ntfs_utf16_to_utf8. What one unit stores and the new
    [halfpair]. *)
Definition utf8_unit (halfpair c : Z) : outcome (bytes * Z) :=
  if negb (halfpair =? 0) then
    if (0xdc00 <=? c) && (c <? 0xe000) then
      Ret ([u8 (0xf0 + Z.land (Z.shiftr (halfpair + 64) 8) 7);
            u8 (0x80 + Z.land (Z.shiftr (halfpair + 64) 2) 63);
            u8 (0x80 + Z.land (Z.shiftr c 6) 15 + Z.shiftl (Z.land halfpair 3) 4);
            u8 (0x80 + Z.land c 63)], 0)
    else Fail EILSEQ
  else if c <? 0x80 then Ret ([u8 c], 0)
  else if c <? 0x800 then
    Ret ([u8 (Z.lor 0xc0 (Z.land (Z.shiftr c 6) 0x3f)); u8 (Z.lor 0x80 (Z.land c 0x3f))], 0)
  else if c <? 0xd800 then
    Ret ([u8 (Z.lor 0xe0 (Z.shiftr c 12)); u8 (Z.lor 0x80 (Z.land (Z.shiftr c 6) 0x3f));
          u8 (Z.lor 0x80 (Z.land c 0x3f))], 0)
  else if c <? 0xdc00 then Ret ([], c)
  else if 0xe000 <=? c then
    Ret ([u8 (Z.lor 0xe0 (Z.shiftr c 12)); u8 (Z.lor 0x80 (Z.land (Z.shiftr c 6) 0x3f));
          u8 (Z.lor 0x80 (Z.land c 0x3f))], 0)
  else Fail EILSEQ.

(** unistr.c:546-580 ntfs_utf16_to_utf8. The loop and the final NUL: the
    buffer and the position. *)
Fixpoint utf8_loop (ins : ustr) (n : nat) (halfpair : Z) (outs : bytes) (t : Z) : outcome (bytes * Z) :=
  let finish := let! outs := wr outs t 0 in Ret (outs, t) in
  match n with
  | O => finish
  | S n' =>
    match ins with
    | [] => Fault
    | c :: ins' =>
      if c =? 0 then finish
      else
        let! (x, halfpair') := utf8_unit halfpair c in
        let! outs := wrn outs t x in
        let t := t + zlen x in
        let! outs := (if (halfpair =? 0) && (c <? 0x80) then wr outs t 0 else Ret outs) in
        utf8_loop ins' n' halfpair' outs t
    end
  end.

Section Convert.
(** Allocation: whether it succeeds. *)
Context (malloc : Z -> bool).

(** unistr.c:509-620 ntfs_utf16_to_utf8. The buffer, which is allocated when
    [outs] is NULL, and the number of bytes without the NUL. *)
Definition ntfs_utf16_to_utf8 (ins : ustr) (ins_len : Z) (outs : option bytes) (outs_len : Z)
  : outcome (bytes * Z) :=
  let outs_len := match outs with None => PATH_MAX | Some _ => outs_len end in
  let! size := utf16_to_utf8_size ins ins_len outs_len in
  match outs with
  | Some outs => utf8_loop ins (Z.to_nat ins_len) 0 outs 0
  | None =>
    if malloc (size + 1) then
      utf8_loop ins (Z.to_nat ins_len) 0 (replicate (Z.to_nat (size + 1)) 0) 0
    else Fail ENOMEM
  end.

(** unistr.c:837-867 ntfs_ucstombs. The encoding is UTF-8; [None] for [ins] is
    a NULL pointer. *)
Definition ntfs_ucstombs (ins : option ustr) (ins_len : Z) (outs : option bytes) (outs_len : Z)
  : outcome (bytes * Z) :=
  match ins with
  | None => Fail EINVAL
  | Some ins =>
    if match outs with Some _ => outs_len =? 0 | None => false end then Fail ENAMETOOLONG
    else ntfs_utf16_to_utf8 ins ins_len outs outs_len
  end.

(** ** UTF-8 to UTF-16 *)

(** [if (!*s) break;] and the rest of the sequence. *)
Definition unless_nul {A} (s : bytes) (stop : outcome A) (k : bytes -> outcome A) : outcome A :=
  match s with [] => Fault | c :: s' => if c =? 0 then stop else k s' end.

(** unistr.c:631-666 utf8_to_utf16_size. The loop; a string that ends inside
    of a sequence ends the loop as well.  The string shrinks in every round,
    so its length bounds the rounds. *)
Fixpoint size16_loop (fuel : nat) (s : bytes) (count : Z) : outcome Z :=
  match fuel with
  | O => Fault
  | S fuel' =>
    match s with
    | [] => Fault
    | byte :: s =>
      if byte =? 0 then Ret count
      else
        let count := count + 1 in
        if PATH_MAX <=? count then Fail ENAMETOOLONG
        else if 0xc0 <=? byte then
          if 0xf5 <=? byte then Fail EILSEQ
          else
            unless_nul s (Ret count) (fun s1 =>
            unless_nul s1 (Ret count) (fun s2 =>
            let s3 := if 0xe0 <=? byte then s2 else s1 in
            unless_nul s3 (Ret count) (fun s4 =>
            if 0xf0 <=? byte then
              let count := count + 1 in
              if PATH_MAX <=? count then Fail ENAMETOOLONG else size16_loop fuel' s4 count
            else size16_loop fuel' s3 count)))
        else size16_loop fuel' s count
    end
  end.
(** unistr.c:631-666 utf8_to_utf16_size *)
Definition utf8_to_utf16_size (s : bytes) : outcome Z := size16_loop (length s) s 0.

(** [s[i] & 0xC0 == 0x80] *)
Definition is_cont (c : Z) : bool := Z.land c 0xC0 =? 0x80.

(** unistr.c:676-732 utf8_to_unicode. The code point and the number of bytes;
    the tests of the continuation bytes stop at the first that fails. *)
Definition utf8_to_unicode (s : bytes) : outcome (Z * Z) :=
  let! byte := rd s 0 in
  if byte =? 0 then Ret (0, 0)
  else if byte <? 0x80 then Ret (byte, 1)
  else if byte <? 0xc2 then Fail EILSEQ
  else if byte <? 0xE0 then
    let! s1 := rd s 1 in
    if is_cont s1 then Ret (Z.lor (Z.shiftl (Z.land byte 0x1F) 6) (Z.land s1 0x3F), 2)
    else Fail EILSEQ
  else if byte <? 0xF0 then
    let! s1 := rd s 1 in
    if is_cont s1 then
      let! s2 := rd s 2 in
      if is_cont s2 then
        let wc := Z.lor (Z.lor (Z.shiftl (Z.land byte 0x0F) 12) (Z.shiftl (Z.land s1 0x3F) 6))
                    (Z.land s2 0x3F) in
        if ((0x800 <=? wc) && (wc <=? 0xD7FF)) || ((0xe000 <=? wc) && (wc <=? 0xFFFF)) then Ret (wc, 3)
        else Fail EILSEQ
      else Fail EILSEQ
    else Fail EILSEQ
  else if byte <? 0xF5 then
    let! s1 := rd s 1 in
    if is_cont s1 then
      let! s2 := rd s 2 in
      if is_cont s2 then
        let! s3 := rd s 3 in
        if is_cont s3 then
          let wc := Z.lor (Z.lor (Z.lor (Z.shiftl (Z.land byte 0x07) 18) (Z.shiftl (Z.land s1 0x3F) 12))
                             (Z.shiftl (Z.land s2 0x3F) 6)) (Z.land s3 0x3F) in
          if (wc <=? 0x10ffff) && (0x10000 <=? wc) then Ret (wc, 4) else Fail EILSEQ
        else Fail EILSEQ
      else Fail EILSEQ
    else Fail EILSEQ
  else Fail EILSEQ.

(** unistr.c:798-806 ntfs_utf8_to_utf16. The units of a code point. *)
Definition utf16_units (wc : Z) : ustr :=
  if wc <? 0x10000 then [u16 wc]
  else let wc := wc - 0x10000 in
       [u16 (Z.shiftr wc 10 + 0xd800); u16 (Z.land wc 0x3ff + 0xdc00)].

(** unistr.c:783-808 ntfs_utf8_to_utf16. The loop: the buffer and the position
    after the NUL. *)
Fixpoint utf16_loop (fuel : nat) (s : bytes) (outs : ustr) (outpos : Z) : outcome (ustr * Z) :=
  match fuel with
  | O => Fault
  | S fuel' =>
    let! (wc, m) := utf8_to_unicode s in
    if m <=? 0 then
      let! outs := wr outs outpos 0 in Ret (outs, outpos + 1)
    else
      let x := utf16_units wc in
      let! outs := wrn outs outpos x in
      utf16_loop fuel' (drop (Z.to_nat m) s) outs (outpos + zlen x)
  end.

(** unistr.c:742-810 ntfs_utf8_to_utf16. The buffer and the number of units
    without the NUL; the contents of a new buffer are taken to be zero. *)
Definition ntfs_utf8_to_utf16 (ins : bytes) (outs : option ustr) : outcome (ustr * Z) :=
  let! shorts := utf8_to_utf16_size ins in
  let! outs := match outs with
    | Some outs => Ret outs
    | None => if malloc ((shorts + 1) * 2) then Ret (replicate (Z.to_nat (shorts + 1)) 0) else Fail ENOMEM
    end in
  let! (outs, outpos) := utf16_loop (length ins) ins outs 0 in
  Ret (outs, outpos - 1).

(** unistr.c:963-981 ntfs_mbstoucs. The encoding is UTF-8. *)
Definition ntfs_mbstoucs (ins : option bytes) (outs : option ustr) : outcome (ustr * Z) :=
  match ins with
  | None => Fail EINVAL
  | Some ins => ntfs_utf8_to_utf16 ins outs
  end.

(** unistr.c:1339-1357 ntfs_str2ucs. A NULL string leaves the length as it
    was, here [len0]; AT_UNNAMED is the empty name. *)
Definition ntfs_str2ucs (s : option bytes) (len0 : Z) : outcome (ustr * Z) :=
  let! (ucs, len) := match s with
    | None => Ret ([0], len0)
    | Some s => ntfs_mbstoucs (Some s) None
    end in
  if NTFS_MAX_NAME_LEN <? len then Fail ENAMETOOLONG
  else if match s with None => true | _ => len =? 0 end then Ret ([0], 0)
  else Ret (ucs, len).
End Convert.

(** ** Specification: code points *)
Definition code_point (c : Z) : Prop := 0 < c < 0xd800 \/ 0xe000 <= c < 0x110000.

(** The bytes of a code point. *)
Definition utf8_cp (c : Z) : bytes :=
  if c <? 0x80 then [c]
  else if c <? 0x800 then [0xc0 + c / 64; 0x80 + c mod 64]
  else if c <? 0x10000 then [0xe0 + c / 4096; 0x80 + c / 64 mod 64; 0x80 + c mod 64]
  else [0xf0 + c / 262144; 0x80 + c / 4096 mod 64; 0x80 + c / 64 mod 64; 0x80 + c mod 64].

(** A text in the two encodings. *)
Definition text8 (cps : list Z) : bytes := concat (map utf8_cp cps).
Definition text16 (cps : list Z) : ustr := concat (map utf16_units cps).

(** *** Bit operations as arithmetic *)
Lemma land_masks x :
  Z.land x 3 = x mod 4 /\ Z.land x 7 = x mod 8 /\ Z.land x 15 = x mod 16 /\ Z.land x 31 = x mod 32 /\
  Z.land x 63 = x mod 64 /\ Z.land x 1023 = x mod 1024.
Proof.
  split_and!; [apply (Z.land_ones x 2)|apply (Z.land_ones x 3)|apply (Z.land_ones x 4)|
    apply (Z.land_ones x 5)|apply (Z.land_ones x 6)|apply (Z.land_ones x 10)]; lia.
Qed.

(** [masks]: the masks of the goal as remainders; [bits]: the shifts as well. *)
Ltac masks :=
  repeat match goal with
  | |- context [Z.land ?x ?m] =>
      first [ rewrite (proj1 (land_masks x))
            | rewrite (proj1 (proj2 (land_masks x)))
            | rewrite (proj1 (proj2 (proj2 (land_masks x))))
            | rewrite (proj1 (proj2 (proj2 (proj2 (land_masks x)))))
            | rewrite (proj1 (proj2 (proj2 (proj2 (proj2 (land_masks x))))))
            | rewrite (proj2 (proj2 (proj2 (proj2 (proj2 (land_masks x)))))) ]
  end.
Ltac bits :=
  masks; rewrite ?Z.shiftr_div_pow2, ?Z.shiftl_mul_pow2 by lia;
  change (2 ^ 2) with 4; change (2 ^ 4) with 16; change (2 ^ 6) with 64; change (2 ^ 8) with 256;
  change (2 ^ 10) with 1024; change (2 ^ 12) with 4096; change (2 ^ 18) with 262144.

Lemma lor_c0 y : 0 <= y < 64 -> Z.lor 0xc0 y = 0xc0 + y.
Proof. apply (lor_add 3 y 6). lia. Qed.
Lemma lor_e0 y : 0 <= y < 32 -> Z.lor 0xe0 y = 0xe0 + y.
Proof. apply (lor_add 7 y 5). lia. Qed.
Lemma lor_80 y : 0 <= y < 128 -> Z.lor 0x80 y = 0x80 + y.
Proof. apply (lor_add 1 y 7). lia. Qed.

(** *** One code point *)
Lemma utf8_cp_length c : code_point c -> 1 <= zlen (utf8_cp c) <= 4.
Proof. intros. unfold utf8_cp. repeat case_match; zlia. Qed.

Lemma unit_bmp c : code_point c -> c < 0x10000 -> utf8_unit 0 c = Ret (utf8_cp c, 0).
Proof.
  intros Hc Hb. unfold code_point in Hc. unfold utf8_unit, utf8_cp. cbn [Z.eqb negb].
  destruct (Z.ltb_spec c 0x80); [do 3 f_equal; by rewrite wrapu_small by (unfold in_u; lia)|].
  bits. destruct (Z.ltb_spec c 0x800).
  { rewrite lor_c0, lor_80 by dlia. rewrite !wrapu_small by (unfold in_u; cbn; dlia).
    do 4 f_equal. dlia. }
  assert ([u8 (Z.lor 0xe0 (c / 4096)); u8 (Z.lor 0x80 ((c / 64) mod 64)); u8 (Z.lor 0x80 (c mod 64))] =
    [0xe0 + c / 4096; 0x80 + (c / 64) mod 64; 0x80 + c mod 64]) as ->.
  { rewrite lor_e0, !lor_80 by dlia. rewrite !wrapu_small by (unfold in_u; cbn; dlia). done. }
  destruct (Z.ltb_spec c 0xd800), (Z.ltb_spec c 0xdc00), (Z.leb_spec 0xe000 c), (Z.ltb_spec c 0x10000);
    done || lia.
Qed.

(** The two halves of a code point above 0xffff. *)
Definition high c := 0xd800 + (c - 0x10000) / 1024.
Definition low c := 0xdc00 + (c - 0x10000) mod 1024.

Lemma utf16_units_eq c :
  code_point c -> utf16_units c = if c <? 0x10000 then [c] else [high c; low c].
Proof.
  intros Hc. unfold code_point in Hc. unfold utf16_units, high, low. bits.
  destruct (Z.ltb_spec c 0x10000); rewrite !wrapu_small by (unfold in_u; cbn; dlia); [done|].
  f_equal; [lia|]. f_equal. lia.
Qed.

Lemma unit_pair c :
  0x10000 <= c < 0x110000 ->
  utf8_unit 0 (high c) = Ret ([], high c) /\ utf8_unit (high c) (low c) = Ret (utf8_cp c, 0).
Proof.
  intros Hc. assert (0xd800 <= high c < 0xdc00 /\ 0xdc00 <= low c < 0xe000) as [Hh Hl]
    by (unfold high, low; dlia). split.
  - unfold utf8_unit. cbn [Z.eqb negb].
    destruct (Z.ltb_spec (high c) 0x80), (Z.ltb_spec (high c) 0x800), (Z.ltb_spec (high c) 0xd800),
      (Z.ltb_spec (high c) 0xdc00); done || lia.
  - unfold utf8_unit. destruct (Z.eqb_spec (high c) 0); [lia|]. cbn [negb].
    destruct (Z.leb_spec 0xdc00 (low c)), (Z.ltb_spec (low c) 0xe000); try lia. cbn [andb].
    unfold utf8_cp. destruct (Z.ltb_spec c 0x80), (Z.ltb_spec c 0x800), (Z.ltb_spec c 0x10000); try lia.
    bits. unfold high, low in *. rewrite !wrapu_small by (unfold in_u; cbn; dlia).
    apply f_equal, (f_equal (fun x => (x, 0))).
    repeat (apply (f_equal2 (@cons Z)); [dlia|]). done.
Qed.

Lemma is_cont_byte c : byte_ok c -> is_cont c = (c / 64 =? 2).
Proof.
  intros Hc. assert (forallb (fun n => Bool.eqb (is_cont (Z.of_nat n)) (Z.of_nat n / 64 =? 2)) (seq 0 256) = true)
    as H by (by vm_compute).
  rewrite forallb_forall in H. unfold byte_ok in Hc. specialize (H (Z.to_nat c)). rewrite Z2Nat.id in H by lia.
  apply eqb_prop, H, in_seq. lia.
Qed.

Lemma cont_of x : is_cont (0x80 + x mod 64) = true.
Proof. rewrite is_cont_byte by (unfold byte_ok; dlia). apply Z.eqb_eq. dlia. Qed.

Lemma lor_shl k n y : 0 <= n -> 0 <= y < 2 ^ n -> Z.lor (Z.shiftl k n) y = k * 2 ^ n + y.
Proof. intros. rewrite Z.shiftl_mul_pow2 by done. by apply lor_add. Qed.

(** The code points of two, three and four bytes. *)
Lemma lor2 a b : 0 <= b < 64 -> Z.lor (Z.shiftl a 6) b = a * 64 + b.
Proof. intros. by rewrite lor_shl by (done || lia). Qed.

Lemma lor3 a b c : 0 <= b < 64 -> 0 <= c < 64 ->
  Z.lor (Z.lor (Z.shiftl a 12) (Z.shiftl b 6)) c = a * 4096 + b * 64 + c.
Proof.
  intros. rewrite (lor_shl a 12) by (rewrite ?Z.shiftl_mul_pow2 by lia; cbn; lia).
  rewrite Z.shiftl_mul_pow2 by lia. change (2 ^ 12) with 4096. change (2 ^ 6) with 64.
  replace (a * 4096 + b * 64) with ((a * 64 + b) * 2 ^ 6) by (change (2 ^ 6) with 64; lia).
  rewrite lor_add by (change (2 ^ 6) with 64; lia). done.
Qed.

Lemma lor4 a b c d : 0 <= b < 64 -> 0 <= c < 64 -> 0 <= d < 64 ->
  Z.lor (Z.lor (Z.lor (Z.shiftl a 18) (Z.shiftl b 12)) (Z.shiftl c 6)) d
  = a * 262144 + b * 4096 + c * 64 + d.
Proof.
  intros. rewrite <- (Z.lor_assoc (Z.shiftl a 18)), <- (Z.lor_assoc (Z.shiftl a 18)), lor3 by done.
  rewrite lor_shl by (change (2 ^ 18) with 262144; lia). change (2 ^ 18) with 262144. lia.
Qed.

Lemma decode_cp c rest : code_point c -> utf8_to_unicode (utf8_cp c ++ rest) = Ret (c, zlen (utf8_cp c)).
Proof.
  intros Hc. unfold code_point in Hc. unfold utf8_to_unicode, utf8_cp.
  destruct (Z.ltb_spec c 0x80) as [H0|H0]; cbn [app].
  { rewrite rd_cons_0. cbn [obind]. destruct (Z.eqb_spec c 0), (Z.ltb_spec c 0x80); done || lia. }
  destruct (Z.ltb_spec c 0x800) as [H1|H1]; [|destruct (Z.ltb_spec c 0x10000) as [H2|H2]]; cbn [app];
    rewrite rd_cons_0; cbn [obind].
  - change (rd (0xc0 + c / 64 :: 0x80 + c mod 64 :: rest) 1) with (Ret (0x80 + c mod 64)). cbn [obind].
    rewrite cont_of. masks. rewrite lor2 by dlia.
    destruct (Z.eqb_spec (0xc0 + c / 64) 0), (Z.ltb_spec (0xc0 + c / 64) 0x80),
      (Z.ltb_spec (0xc0 + c / 64) 0xc2), (Z.ltb_spec (0xc0 + c / 64) 0xE0); try dlia.
    do 2 f_equal. dlia.
  - set (b0 := 0xe0 + c / 4096). assert (0xe0 <= b0 < 0xf0 /\ b0 mod 16 = c / 4096) as [Hb0 Hm] by (unfold b0; dlia).
    change (rd (b0 :: 0x80 + (c / 64) mod 64 :: 0x80 + c mod 64 :: rest) 1) with (Ret (0x80 + (c / 64) mod 64)).
    change (rd (b0 :: 0x80 + (c / 64) mod 64 :: 0x80 + c mod 64 :: rest) 2) with (Ret (0x80 + c mod 64)).
    cbn [obind]. rewrite !cont_of. masks. rewrite lor3, Hm by dlia.
    replace (c / 4096 * 4096 + (0x80 + (c / 64) mod 64) mod 64 * 64 + (0x80 + c mod 64) mod 64) with c by dlia.
    destruct (Z.eqb_spec b0 0), (Z.ltb_spec b0 0x80), (Z.ltb_spec b0 0xc2), (Z.ltb_spec b0 0xE0),
      (Z.ltb_spec b0 0xF0); try lia.
    destruct (Z.leb_spec 0x800 c), (Z.leb_spec c 0xD7FF), (Z.leb_spec 0xe000 c), (Z.leb_spec c 0xFFFF);
      done || lia.
  - set (b0 := 0xf0 + c / 262144). assert (0xf0 <= b0 < 0xf5 /\ b0 mod 8 = c / 262144) as [Hb0 Hm] by (unfold b0; dlia).
    change (rd (b0 :: 0x80 + (c / 4096) mod 64 :: 0x80 + (c / 64) mod 64 :: 0x80 + c mod 64 :: rest) 1)
      with (Ret (0x80 + (c / 4096) mod 64)).
    change (rd (b0 :: 0x80 + (c / 4096) mod 64 :: 0x80 + (c / 64) mod 64 :: 0x80 + c mod 64 :: rest) 2)
      with (Ret (0x80 + (c / 64) mod 64)).
    change (rd (b0 :: 0x80 + (c / 4096) mod 64 :: 0x80 + (c / 64) mod 64 :: 0x80 + c mod 64 :: rest) 3)
      with (Ret (0x80 + c mod 64)).
    cbn [obind]. rewrite !cont_of. masks. rewrite lor4, Hm by dlia.
    replace (c / 262144 * 262144 + (0x80 + (c / 4096) mod 64) mod 64 * 4096 +
      (0x80 + (c / 64) mod 64) mod 64 * 64 + (0x80 + c mod 64) mod 64) with c by dlia.
    destruct (Z.eqb_spec b0 0), (Z.ltb_spec b0 0x80), (Z.ltb_spec b0 0xc2), (Z.ltb_spec b0 0xE0),
      (Z.ltb_spec b0 0xF0), (Z.ltb_spec b0 0xF5); try lia.
    destruct (Z.leb_spec c 0x10ffff), (Z.leb_spec 0x10000 c); done || lia.
Qed.

(** The lead byte and the continuation bytes of what is accepted. *)
Lemma rd_next {A} (l : list A) i a : rd l i = Ret a -> 0 <= i -> drop (Z.to_nat i) l = a :: drop (Z.to_nat (i + 1)) l.
Proof.
  intros [_ E]%rd_lookup Hi. rewrite (drop_S _ _ _ E). do 2 f_equal. lia.
Qed.

Lemma decode_inv s wc m :
  Forall byte_ok s -> utf8_to_unicode s = Ret (wc, m) ->
  (m = 0 /\ exists rest, s = 0 :: rest) \/
  (code_point wc /\ m = zlen (utf8_cp wc) /\ exists rest, s = utf8_cp wc ++ rest).
Proof.
  intros HF H. unfold utf8_to_unicode in H.
  destruct s as [|b s]; [done|]. apply Forall_cons in HF as [Hb HF]. rewrite rd_cons_0 in H. cbn [obind] in H.
  destruct (Z.eqb_spec b 0) as [->|]; [injection H as <- <-; left; eauto|]. right.
  unfold byte_ok in *. unfold code_point, utf8_cp.
  destruct (Z.ltb_spec b 0x80).
  { injection H as <- <-. destruct (Z.ltb_spec b 0x80); [|lia]. split_and!; [lia|done|by exists s]. }
  guard H E0. assert (0xc2 <= b) by lia.
  destruct s as [|s1 s]; [repeat case_match; done|]. apply Forall_cons in HF as [Hs1 HF].
  change (rd (b :: s1 :: s) 1) with (Ret s1) in H. cbn [obind] in H. rewrite is_cont_byte in H by done.
  unfold byte_ok in *. destruct (Z.ltb_spec b 0xE0).
  { destruct (Z.eqb_spec (s1 / 64) 2); [|done]. revert H. masks. rewrite lor2 by dlia. intros [= <- <-].
    remember (b mod 32 * 64 + s1 mod 64) as x eqn:Ex.
    assert (0x80 <= x < 0x800 /\ b = 0xc0 + x / 64 /\ s1 = 0x80 + x mod 64) as (Hx & Eb & E1) by (rewrite Ex; dlia).
    clear Ex. subst b s1.
    destruct (Z.ltb_spec x 0x80), (Z.ltb_spec x 0x800); try lia. split_and!; [lia|done|by exists s]. }
  destruct s as [|s2 s]; [repeat case_match; done|]. apply Forall_cons in HF as [Hs2 HF].
  change (rd (b :: s1 :: s2 :: s) 2) with (Ret s2) in H. cbn [obind] in H. rewrite (is_cont_byte s2) in H by done.
  unfold byte_ok in *. destruct (Z.ltb_spec b 0xF0).
  { destruct (Z.eqb_spec (s1 / 64) 2); [|done]. destruct (Z.eqb_spec (s2 / 64) 2); [|done].
    revert H. masks. rewrite lor3 by dlia.
    remember (b mod 16 * 4096 + s1 mod 64 * 64 + s2 mod 64) as x eqn:Ex.
    assert (b = 0xe0 + x / 4096 /\ s1 = 0x80 + (x / 64) mod 64 /\ s2 = 0x80 + x mod 64) as (Eb & E1 & E2)
      by (rewrite Ex; dlia).
    clear Ex. subst b s1 s2.
    destruct (Z.leb_spec 0x800 x), (Z.leb_spec x 0xD7FF), (Z.leb_spec 0xe000 x), (Z.leb_spec x 0xFFFF);
      cbn [andb orb]; intros [= <- <-]; try lia;
      (destruct (Z.ltb_spec x 0x80), (Z.ltb_spec x 0x800), (Z.ltb_spec x 0x10000); try lia);
      (split_and!; [lia|done|by exists s]). }
  destruct (Z.ltb_spec b 0xF5); [|done].
  destruct s as [|s3 s]; [repeat case_match; done|]. apply Forall_cons in HF as [Hs3 HF].
  change (rd (b :: s1 :: s2 :: s3 :: s) 3) with (Ret s3) in H. cbn [obind] in H. rewrite (is_cont_byte s3) in H by done.
  unfold byte_ok in *.
  destruct (Z.eqb_spec (s1 / 64) 2); [|done]. destruct (Z.eqb_spec (s2 / 64) 2); [|done].
  destruct (Z.eqb_spec (s3 / 64) 2); [|done].
  revert H. masks. rewrite lor4 by dlia.
  remember (b mod 8 * 262144 + s1 mod 64 * 4096 + s2 mod 64 * 64 + s3 mod 64) as x eqn:Ex.
  assert (b = 0xf0 + x / 262144 /\ s1 = 0x80 + (x / 4096) mod 64 /\ s2 = 0x80 + (x / 64) mod 64 /\
    s3 = 0x80 + x mod 64) as (Eb & E1 & E2 & E3) by (rewrite Ex; dlia).
  clear Ex. subst b s1 s2 s3.
  destruct (Z.leb_spec x 0x10ffff), (Z.leb_spec 0x10000 x); cbn [andb]; intros [= <- <-].
  destruct (Z.ltb_spec x 0x80), (Z.ltb_spec x 0x800), (Z.ltb_spec x 0x10000); try lia.
  split_and!; [lia|done|by exists s].
Qed.

(** *** Texts *)
Lemma text8_cons c cps : text8 (c :: cps) = utf8_cp c ++ text8 cps.
Proof. done. Qed.
Lemma text16_cons c cps : text16 (c :: cps) = utf16_units c ++ text16 cps.
Proof. done. Qed.

Lemma utf16_units_length c : code_point c -> zlen (utf16_units c) = if c <? 0x10000 then 1 else 2.
Proof. intros. rewrite utf16_units_eq by done. by destruct (c <? 0x10000). Qed.

Lemma utf8_cp_head c : code_point c -> exists b t, utf8_cp c = b :: t /\ b <> 0.
Proof.
  unfold code_point, utf8_cp. intros. repeat case_match; eexists _, _; (split; [done|dlia]).
Qed.

(** [unless_nul] on a byte that is not NUL. *)
Lemma unless_nul_cons {A} b s (stop : outcome A) k : b <> 0 -> unless_nul (b :: s) stop k = k s.
Proof. intros. cbn. by destruct (Z.eqb_spec b 0). Qed.

Lemma size16_nul f t k : (0 < f)%nat -> size16_loop f (0 :: t) k = Ret k.
Proof. destruct f; [lia|done]. Qed.

Lemma unless_nul_next f t k :
  t <> [] -> (0 < f)%nat ->
  unless_nul t (Ret k) (fun _ => size16_loop f t k) = size16_loop f t k.
Proof.
  intros Ht Hf. destruct t as [|x t]; [done|]. cbn [unless_nul].
  destruct (Z.eqb_spec x 0) as [->|]; [by rewrite size16_nul|done].
Qed.

(** One code point of the size computation. *)
Lemma size16_step f c t count :
  code_point c -> t <> [] -> (0 < f)%nat -> count < PATH_MAX ->
  let k := count + zlen (utf16_units c) in
  size16_loop (S f) (utf8_cp c ++ t) count =
  if PATH_MAX <=? k then Fail ENAMETOOLONG else size16_loop f t k.
Proof.
  intros Hc Ht Hf Hk k. unfold k. rewrite utf16_units_length by done. clear k.
  unfold code_point in Hc. unfold utf8_cp.
  destruct (Z.ltb_spec c 0x80); [|destruct (Z.ltb_spec c 0x800); [|destruct (Z.ltb_spec c 0x10000)]];
    cbn [app size16_loop].
  - destruct (Z.eqb_spec c 0), (Z.leb_spec 0xc0 c), (Z.ltb_spec c 0x10000); try lia. done.
  - destruct (Z.eqb_spec (0xc0 + c / 64) 0), (Z.leb_spec 0xc0 (0xc0 + c / 64)), (Z.leb_spec 0xf5 (0xc0 + c / 64)),
      (Z.leb_spec 0xe0 (0xc0 + c / 64)), (Z.leb_spec 0xf0 (0xc0 + c / 64)), (Z.ltb_spec c 0x10000); try dlia.
    rewrite unless_nul_cons by dlia. destruct (PATH_MAX <=? count + 1); [done|].
    destruct t as [|x t]; [done|]. cbn [unless_nul].
    destruct (Z.eqb_spec x 0) as [->|]; [by rewrite size16_nul|done].
  - destruct (Z.eqb_spec (0xe0 + c / 4096) 0), (Z.leb_spec 0xc0 (0xe0 + c / 4096)), (Z.leb_spec 0xf5 (0xe0 + c / 4096)),
      (Z.leb_spec 0xe0 (0xe0 + c / 4096)), (Z.leb_spec 0xf0 (0xe0 + c / 4096)); try dlia.
    rewrite !unless_nul_cons by dlia. destruct (PATH_MAX <=? count + 1); [done|].
    by apply unless_nul_next.
  - destruct (Z.eqb_spec (0xf0 + c / 262144) 0), (Z.leb_spec 0xc0 (0xf0 + c / 262144)),
      (Z.leb_spec 0xf5 (0xf0 + c / 262144)), (Z.leb_spec 0xe0 (0xf0 + c / 262144)),
      (Z.leb_spec 0xf0 (0xf0 + c / 262144)); try dlia.
    rewrite !unless_nul_cons by dlia. replace (count + 2) with (count + 1 + 1) by lia.
    destruct (Z.leb_spec PATH_MAX (count + 1)), (Z.leb_spec PATH_MAX (count + 1 + 1)); done || lia.
Qed.

Lemma text8_app_ne cps t : t <> [] -> text8 cps ++ t <> [].
Proof. intros Ht E. by apply app_eq_nil in E as [_ ?]. Qed.

Lemma size16_text fuel cps rest count :
  Forall code_point cps -> (length cps < fuel)%nat -> count < PATH_MAX ->
  size16_loop fuel (text8 cps ++ 0 :: rest) count =
  if count + zlen (text16 cps) <? PATH_MAX then Ret (count + zlen (text16 cps)) else Fail ENAMETOOLONG.
Proof.
  revert fuel count. induction cps as [|c cps IH]; intros fuel count HF Hf Hc.
  - change (zlen (text16 [])) with 0. rewrite Z.add_0_r. destruct (Z.ltb_spec count PATH_MAX); [|lia].
    by apply size16_nul.
  - apply Forall_cons in HF as [Hcp HF]. destruct fuel as [|fuel]; cbn in Hf; [lia|].
    rewrite text8_cons, <- (assoc_L (++)), size16_step by (done || lia || by apply text8_app_ne).
    rewrite text16_cons, zlen_app. pose proof (zlen_nonneg (text16 cps)).
    destruct (Z.leb_spec PATH_MAX (count + zlen (utf16_units c))).
    + destruct (Z.ltb_spec (count + (zlen (utf16_units c) + zlen (text16 cps))) PATH_MAX); [lia|done].
    + rewrite IH by (done || lia). by rewrite Z.add_assoc.
Qed.

Lemma size16_mono fuel s count k : size16_loop fuel s count = Ret k -> count <= k.
Proof.
  revert s count. induction fuel as [|fuel IH]; intros s count H; [done|]. cbn in H.
  destruct s as [|b s]; [done|]. destruct (b =? 0); [injection H; lia|].
  destruct (PATH_MAX <=? count + 1); [done|].
  destruct (0xc0 <=? b); [|apply IH in H; lia]. destruct (0xf5 <=? b); [done|].
  destruct s as [|b1 s]; [done|]. cbn in H. destruct (b1 =? 0); [injection H; lia|].
  destruct s as [|b2 s]; [done|]. cbn in H. destruct (b2 =? 0); [injection H; lia|].
  destruct (0xe0 <=? b); cbn in H.
  - destruct s as [|b3 s]; [done|]. cbn in H. destruct (b3 =? 0); [injection H; lia|].
    destruct (0xf0 <=? b); [|apply IH in H; lia]. destruct (PATH_MAX <=? count + 1 + 1); [done|].
    apply IH in H. lia.
  - destruct (b2 =? 0); [injection H; lia|].
    destruct (0xf0 <=? b); [|apply IH in H; lia]. destruct (PATH_MAX <=? count + 1 + 1); [done|].
    apply IH in H. lia.
Qed.

Lemma size16_lower fuel cps s count k :
  Forall code_point cps -> (length cps < fuel)%nat -> count < PATH_MAX -> s <> [] ->
  size16_loop fuel (text8 cps ++ s) count = Ret k -> count + zlen (text16 cps) <= k.
Proof.
  revert fuel count. induction cps as [|c cps IH]; intros fuel count HF Hf Hc Hs H.
  - apply size16_mono in H. change (zlen (text16 [])) with 0. lia.
  - apply Forall_cons in HF as [Hcp HF]. destruct fuel as [|fuel]; cbn in Hf; [lia|].
    rewrite text8_cons, <- (assoc_L (++)), size16_step in H by (done || lia || by apply text8_app_ne).
    rewrite text16_cons, zlen_app. destruct (Z.leb_spec PATH_MAX (count + zlen (utf16_units c))); [done|].
    apply IH in H; [lia|done|lia|done|done].
Qed.

Lemma size16_safe fuel s count :
  (length s <= fuel)%nat -> In 0 s -> safe (fun _ => True) (size16_loop fuel s count).
Proof.
  revert s count. induction fuel as [|fuel IH]; intros s count Hf Hin.
  { destruct s; [done|cbn in Hf; lia]. }
  cbn. destruct s as [|b s]; [done|]. destruct (Z.eqb_spec b 0); [done|].
  assert (In 0 s) as Hin1 by (destruct Hin; done). cbn in Hf.
  destruct (PATH_MAX <=? count + 1); [done|].
  destruct (0xc0 <=? b); [|apply IH; done || lia]. destruct (0xf5 <=? b); [done|].
  destruct s as [|b1 s]; [done|]. cbn in Hf |- *. destruct (Z.eqb_spec b1 0); [done|].
  assert (In 0 s) as Hin2 by (destruct Hin1; done).
  destruct s as [|b2 s]; [done|]. cbn in Hf |- *. destruct (Z.eqb_spec b2 0); [done|].
  assert (In 0 s) as Hin3 by (destruct Hin2; done).
  destruct (0xe0 <=? b).
  - destruct s as [|b3 s]; [done|]. cbn in Hf |- *. destruct (Z.eqb_spec b3 0); [done|].
    assert (In 0 s) as Hin4 by (destruct Hin3; done).
    destruct (0xf0 <=? b); [destruct (PATH_MAX <=? count + 1 + 1); [done|]|]; apply IH; cbn; auto; lia.
  - cbn. destruct (Z.eqb_spec b2 0); [done|].
    destruct (0xf0 <=? b); [destruct (PATH_MAX <=? count + 1 + 1); [done|]|]; apply IH; cbn; auto; lia.
Qed.

(** *** The conversion to UTF-16 *)
Lemma utf16_loop_text fuel cps s outs pos :
  Forall code_point cps -> 0 <= pos -> pos + zlen (text16 cps) <= zlen outs ->
  utf16_loop (length cps + fuel) (text8 cps ++ s) outs pos =
  utf16_loop fuel s (splice outs pos (text16 cps)) (pos + zlen (text16 cps)).
Proof.
  revert outs pos. induction cps as [|c cps IH]; intros outs pos HF Hp Hr.
  - change (text16 []) with (@nil Z). change (zlen (@nil Z)) with 0. by rewrite splice_nil, Z.add_0_r.
  - apply Forall_cons in HF as [Hc HF]. rewrite text16_cons, zlen_app in *.
    pose proof (zlen_nonneg (text16 cps)). pose proof (zlen_nonneg (utf16_units c)).
    rewrite text8_cons, <- (assoc_L (++)). cbn [length Nat.add utf16_loop]. rewrite decode_cp by done. cbn [obind].
    pose proof (utf8_cp_length c Hc). destruct (Z.leb_spec (zlen (utf8_cp c)) 0); [lia|].
    rewrite wrn_ok by lia. cbn [obind].
    replace (drop (Z.to_nat (zlen (utf8_cp c))) (utf8_cp c ++ text8 cps ++ s)) with (text8 cps ++ s)
      by (symmetry; apply drop_app_length'; zlia).
    rewrite IH by (done || rewrite ?zlen_splice; lia). rewrite splice_splice by lia. f_equal. lia.
Qed.

Lemma buffer_filled (x : list Z) n : n = Z.to_nat (zlen x + 1) -> splice (replicate n 0) 0 x = x ++ [0].
Proof.
  intros ->. replace (Z.to_nat (zlen x + 1)) with (S (length x)) by zlia. rewrite replicate_S_end.
  apply (splice_app_here [] _ [0]); [done|]. rewrite zlen_replicate. zlia.
Qed.

Lemma text8_length cps : Forall code_point cps -> Z.of_nat (length cps) <= zlen (text8 cps).
Proof.
  induction 1 as [|c cps Hc HF IH]; [done|]. rewrite text8_cons, zlen_app. pose proof (utf8_cp_length c Hc). cbn. lia.
Qed.

(** A valid string is converted. *)
Lemma utf8_to_utf16_text malloc cps rest :
  (forall n, malloc n = true) -> Forall code_point cps ->
  ntfs_utf8_to_utf16 malloc (text8 cps ++ 0 :: rest) None =
  if zlen (text16 cps) <? PATH_MAX then Ret (text16 cps ++ [0], zlen (text16 cps)) else Fail ENAMETOOLONG.
Proof.
  intros Hm HF. pose proof (text8_length cps HF). pose proof (zlen_nonneg (text16 cps)).
  assert (length cps < length (text8 cps ++ 0%Z :: rest))%nat as Hl by (rewrite length_app; cbn; zlia).
  unfold ntfs_utf8_to_utf16, utf8_to_utf16_size. rewrite size16_text by (done || (unfold PATH_MAX; lia)).
  rewrite Z.add_0_l. destruct (Z.ltb_spec (zlen (text16 cps)) PATH_MAX); [|done]. cbn [obind].
  rewrite Hm. cbn [obind].
  replace (length (text8 cps ++ 0%Z :: rest)) with (length cps + (length (text8 cps ++ 0%Z :: rest) - length cps))%nat by lia.
  rewrite utf16_loop_text by (done || rewrite ?zlen_replicate; lia).
  rewrite buffer_filled by done. rewrite Z.add_0_l.
  destruct (length (text8 cps ++ 0%Z :: rest) - length cps)%nat as [|f] eqn:E; [lia|].
  cbn [utf16_loop]. change (utf8_to_unicode (0 :: rest)) with (Ret (0, 0)). cbn [obind Z.leb Z.compare].
  rewrite wr_app_here by done. cbn [obind]. do 2 f_equal. lia.
Qed.

Lemma utf8_to_unicode_safe s : Forall byte_ok s -> In 0 s -> utf8_to_unicode s <> Fault.
Proof.
  intros HF Hin H. unfold utf8_to_unicode in H.
  assert (is_cont 0 = false) as H0 by done.
  destruct s as [|b s]; [done|]. rewrite rd_cons_0 in H. cbn [obind] in H.
  destruct (Z.eqb_spec b 0); [done|]. assert (In 0 s) as Hin1 by (destruct Hin; done).
  destruct (b <? 0x80); [done|]. destruct (b <? 0xc2); [done|].
  destruct s as [|s1 s]; [done|]. change (rd (b :: s1 :: s) 1) with (Ret s1) in H. cbn [obind] in H.
  destruct (b <? 0xE0); [by destruct (is_cont s1)|].
  destruct (is_cont s1) eqn:E1; [|by destruct (b <? 0xF0), (b <? 0xF5)].
  assert (In 0 s) as Hin2 by (destruct Hin1 as [->|]; [congruence|done]).
  destruct s as [|s2 s]; [done|]. change (rd (b :: s1 :: s2 :: s) 2) with (Ret s2) in H. cbn [obind] in H.
  destruct (b <? 0xF0).
  { destruct (is_cont s2); [|done]. by destruct ((_ && _) || _) in H. }
  destruct (b <? 0xF5); [|done]. destruct (is_cont s2) eqn:E2; [|done].
  assert (In 0 s) as Hin3 by (destruct Hin2 as [->|]; [congruence|done]).
  destruct s as [|s3 s]; [done|]. change (rd (b :: s1 :: s2 :: s3 :: s) 3) with (Ret s3) in H. cbn [obind] in H.
  destruct (is_cont s3); [|done]. by destruct (_ && _) in H.
Qed.

Lemma in_cp c t : code_point c -> In 0 (utf8_cp c ++ t) -> In 0 t.
Proof.
  intros Hc [H|H]%in_app_or; [|done]. exfalso. unfold code_point, utf8_cp in *.
  repeat case_match; cbn in H; intuition dlia.
Qed.

(** Every NUL-terminated string begins with the longest valid text. *)
Lemma utf8_split n s :
  (length s <= n)%nat -> Forall byte_ok s -> In 0 s ->
  exists cps t, Forall code_point cps /\ s = text8 cps ++ t /\ t <> [] /\
    ((exists r, t = 0 :: r) \/ exists e, utf8_to_unicode t = Fail e).
Proof.
  revert s. induction n as [|n IH]; intros s Hn HF Hin; [by destruct s; [|cbn in Hn; lia]|].
  assert (s <> []) as Hne by (by destruct s).
  destruct (utf8_to_unicode s) as [[wc m]|e|] eqn:E.
  - destruct (decode_inv s wc m HF E) as [(-> & r & ->)|(Hc & -> & r & ->)].
    + exists [], (0 :: r). split_and!; [done|done|done|eauto].
    + apply Forall_app in HF as [_ HF]. destruct (IH r) as (cps & t & H1 & -> & H3 & H4).
      * pose proof (utf8_cp_length wc Hc). rewrite length_app in Hn. zlia.
      * done.
      * by eapply in_cp.
      * exists (wc :: cps), t. rewrite text8_cons, <- (assoc_L (++)). split_and!; [by constructor|done|done|done].
  - exists [], s. split_and!; [done|done|done|eauto].
  - by apply utf8_to_unicode_safe in E.
Qed.

(** The conversion never leaves its buffer, and accepts texts only. *)
Lemma utf8_to_utf16_exact malloc s :
  (forall n, malloc n = true) -> Forall byte_ok s -> In 0 s ->
  safe (fun '(o, n) => exists cps rest, Forall code_point cps /\ s = text8 cps ++ 0 :: rest /\
    o = text16 cps ++ [0] /\ n = zlen (text16 cps) /\ n < PATH_MAX) (ntfs_utf8_to_utf16 malloc s None).
Proof.
  intros Hm HF Hin. destruct (utf8_split (length s) s) as (cps & t & Hcps & -> & Hne & [[r ->]|[e He]]); [done..| |].
  - rewrite utf8_to_utf16_text by done.
    destruct (Z.ltb_spec (zlen (text16 cps)) PATH_MAX); [|done]. cbn. by exists cps, r.
  - unfold ntfs_utf8_to_utf16, utf8_to_utf16_size.
    pose proof (size16_safe (length (text8 cps ++ t)) (text8 cps ++ t) 0 ltac:(done) Hin) as Hs.
    destruct (size16_loop _ _ 0) as [k|?|] eqn:Ek; [|done|done]. cbn [obind].
    pose proof (text8_length cps Hcps). destruct t as [|x t]; [done|].
    apply size16_lower in Ek; [|done|rewrite length_app; cbn; zlia|by unfold PATH_MAX|done].
    rewrite Hm. cbn [obind]. pose proof (zlen_nonneg (text16 cps)).
    replace (length (text8 cps ++ x :: t)) with (length cps + S (length (text8 cps ++ x :: t) - length cps - 1))%nat
      by (rewrite length_app; cbn; zlia).
    rewrite utf16_loop_text by (done || rewrite ?zlen_replicate; lia).
    cbn [utf16_loop]. by rewrite He.
Qed.

(** *** The conversion to UTF-8 *)

(** Where a name ends: at its length or at a NUL unit. *)
Definition ustr_end (t : ustr) : Prop := t = [] \/ exists r, t = 0 :: r.

Lemma size8_step c t n count L :
  code_point c -> 0 <= count -> (length (utf16_units c) <= n)%nat ->
  size8_loop (utf16_units c ++ t) n false count L =
  if L <? count + zlen (utf8_cp c) then Fail ENAMETOOLONG
  else size8_loop t (n - length (utf16_units c)) false (count + zlen (utf8_cp c)) L.
Proof.
  intros Hc H0. rewrite utf16_units_eq by done. unfold code_point in Hc. unfold utf8_cp.
  destruct (Z.ltb_spec c 0x10000) as [Hb|Hb]; cbn [length]; intros Hn.
  - destruct n as [|n]; [lia|]. cbn [app size8_loop]. destruct (Z.eqb_spec c 0); [lia|].
    rewrite Nat.sub_1_r. cbn [Nat.pred].
    destruct (Z.ltb_spec c 0x80), (Z.ltb_spec c 0x800), (Z.ltb_spec c 0xd800), (Z.ltb_spec c 0xdc00),
      (Z.leb_spec 0xe000 c), (Z.leb_spec 0x10000 c); try lia; rewrite ?zlen_cons; cbn [andb];
      repeat match goal with |- context [zlen ?l] => change (zlen l) with 0 end; by rewrite ?Z.add_0_r.
  - assert (0xd800 <= high c < 0xdc00 /\ 0xdc00 <= low c < 0xe000) as [Hh Hl] by (unfold high, low; dlia).
    destruct n as [|[|n]]; [lia|lia|]. cbn [app size8_loop].
    destruct (Z.eqb_spec (high c) 0), (Z.ltb_spec (high c) 0x80), (Z.ltb_spec (high c) 0x800),
      (Z.ltb_spec (high c) 0xd800), (Z.ltb_spec (high c) 0xdc00); try lia.
    destruct (Z.ltb_spec c 0x80), (Z.ltb_spec c 0x800), (Z.leb_spec 0x10000 c); try lia. cbn [andb].
    rewrite !zlen_cons. repeat match goal with |- context [zlen ?l] => change (zlen l) with 0 end.
    destruct (Z.eqb_spec (low c) 0), (Z.leb_spec 0xdc00 (low c)), (Z.ltb_spec (low c) 0xe000); try lia.
    cbn [andb]. replace (S (S n) - 2)%nat with n by lia.
    replace (count + (1 + (1 + (1 + (1 + 0))))) with (count + 4) by lia.
    destruct (Z.ltb_spec L count), (Z.ltb_spec L (count + 4)); done || lia.
Qed.

Lemma size8_text cps t n count L :
  Forall code_point cps -> ustr_end t -> n = length (text16 cps ++ t) -> 0 <= count ->
  count + zlen (text8 cps) <= L ->
  size8_loop (text16 cps ++ t) n false count L = Ret (count + zlen (text8 cps)).
Proof.
  intros HF Ht ->. revert count. induction HF as [|c cps Hc HF IH]; intros count H0 HL.
  - change (text16 []) with (@nil Z). change (zlen (text8 [])) with 0. rewrite Z.add_0_r.
    by destruct Ht as [->|[r ->]].
  - rewrite text8_cons, zlen_app in *. rewrite text16_cons, <- (assoc_L (++)).
    pose proof (zlen_nonneg (text8 cps)). pose proof (utf8_cp_length c Hc).
    rewrite size8_step by (done || rewrite !length_app; lia).
    destruct (Z.ltb_spec L (count + zlen (utf8_cp c))); [lia|].
    replace (length (utf16_units c ++ text16 cps ++ t) - length (utf16_units c))%nat
      with (length (text16 cps ++ t)) by (rewrite !length_app; lia).
    rewrite IH by lia. f_equal. lia.
Qed.

(** What the size computation accepts is a text. *)
Lemma size8_inv m w count L k :
  (length w <= m)%nat -> Forall (in_u 16) w -> 0 <= count ->
  size8_loop w (length w) false count L = Ret k ->
  exists cps t, Forall code_point cps /\ w = text16 cps ++ t /\ ustr_end t /\
    k = count + zlen (text8 cps) /\ (cps = [] \/ k <= L).
Proof.
  revert w count. induction m as [|m IH]; intros w count Hm HF H0 H.
  { destruct w; [|cbn in Hm; lia]. injection H as <-. exists [], [].
    split_and!; [done|done|by left|change (zlen (text8 [])) with 0; lia|by left]. }
  destruct w as [|c w].
  { injection H as <-. exists [], []. split_and!; [done|done|by left|change (zlen (text8 [])) with 0; lia|by left]. }
  apply Forall_cons in HF as [Hc HF]. unfold in_u in Hc. cbn in Hm.
  destruct (Z.eqb_spec c 0) as [->|Hc0].
  { injection H as <-. exists [], (0 :: w).
    split_and!; [done|done|right; eauto|change (zlen (text8 [])) with 0; lia|by left]. }
  (* the text that begins with [cp] *)
  assert (forall cp w', code_point cp -> c :: w = utf16_units cp ++ w' -> (length w' <= m)%nat ->
    exists cps t, Forall code_point cps /\ c :: w = text16 cps ++ t /\ ustr_end t /\
    k = count + zlen (text8 cps) /\ (cps = [] \/ k <= L)) as Hstep.
  { intros cp w' Hcp E Hw'. rewrite E in H. pose proof (utf8_cp_length cp Hcp).
    rewrite size8_step in H by (done || rewrite length_app; lia).
    destruct (Z.ltb_spec L (count + zlen (utf8_cp cp))); [done|].
    replace (length (utf16_units cp ++ w') - length (utf16_units cp))%nat with (length w') in H
      by (rewrite length_app; lia).
    apply IH in H as (cps & t & P1 & P2 & P3 & P4 & P5); [|done| |lia].
    - exists (cp :: cps), t. rewrite text16_cons, text8_cons, zlen_app, <- (assoc_L (++)), <- P2, E.
      split_and!; [by constructor|done|done|lia|right]. destruct P5 as [->|]; [|done].
      change (zlen (text8 [])) with 0 in P4. lia.
    - assert (Forall (in_u 16) (c :: w)) as HF' by (by constructor). rewrite E in HF'.
      by apply Forall_app in HF' as [_ ?]. }
  destruct (decide (0xd800 <= c < 0xe000)) as [Hs|Hs].
  - cbn [length size8_loop] in H. destruct (Z.eqb_spec c 0); [lia|].
    destruct (Z.ltb_spec c 0x80), (Z.ltb_spec c 0x800), (Z.ltb_spec c 0xd800); try lia.
    destruct (Z.ltb_spec c 0xdc00); [|destruct (Z.leb_spec 0xe000 c); [lia|done]].
    destruct (L <? count); [done|].
    destruct w as [|d w]; [done|]. cbn [length size8_loop] in H.
    destruct (Z.eqb_spec d 0); [done|].
    destruct (Z.leb_spec 0xdc00 d), (Z.ltb_spec d 0xe000); cbn [andb] in H; try done.
    set (cp := 0x10000 + (c - 0xd800) * 1024 + (d - 0xdc00)).
    assert (code_point cp) as Hcp by (unfold code_point, cp; lia).
    apply (Hstep cp w Hcp); [|cbn in Hm; lia]. rewrite utf16_units_eq by done. unfold high, low.
    destruct (Z.ltb_spec cp 0x10000); [unfold cp in *; lia|]. cbn [app].
    f_equal; [unfold cp; dlia|]. f_equal. unfold cp. dlia.
  - assert (code_point c) as Hcp by (unfold code_point; cbn in Hc; lia).
    apply (Hstep c w Hcp); [|lia]. rewrite utf16_units_eq by done.
    destruct (Z.ltb_spec c 0x10000); [done|cbn in Hc; lia].
Qed.

(** What the buffer holds: the old bytes, the text, NUL. *)
Definition buffer8 (outs outs' : bytes) (t : Z) (x : bytes) : Prop :=
  zlen outs' = zlen outs /\
  forall j, 0 <= j <= t + zlen x ->
    rd outs' j = if j <? t then rd outs j else if j <? t + zlen x then rd x (j - t) else Ret 0.

Lemma buffer8_nil outs t : 0 <= t < zlen outs -> buffer8 outs (<[Z.to_nat t:=0]> outs) t [].
Proof.
  intros Ht. split; [apply zlen_insert|]. change (zlen (@nil Z)) with 0. intros j Hj.
  rewrite rd_insert by lia. destruct (Z.eqb_spec t j), (Z.ltb_spec j t), (Z.ltb_spec j (t + 0)); done || lia.
Qed.

Lemma buffer8_app outs outs1 outs' t x y :
  0 <= t -> zlen outs1 = zlen outs ->
  (forall j, 0 <= j < t + zlen x -> rd outs1 j = if j <? t then rd outs j else rd x (j - t)) ->
  buffer8 outs1 outs' (t + zlen x) y -> buffer8 outs outs' t (x ++ y).
Proof.
  intros Ht Hz H1 [H2 H3]. split; [congruence|]. rewrite zlen_app. intros j Hj.
  pose proof (zlen_nonneg x). pose proof (zlen_nonneg y). rewrite H3 by lia.
  destruct (Z.ltb_spec j (t + zlen x)).
  - rewrite H1 by lia. destruct (Z.ltb_spec j t); [done|].
    destruct (Z.ltb_spec j (t + (zlen x + zlen y))); [|lia]. by rewrite rd_app_l by lia.
  - destruct (Z.ltb_spec j t); [lia|].
    destruct (Z.ltb_spec j (t + zlen x + zlen y)), (Z.ltb_spec j (t + (zlen x + zlen y))); try lia; [|done].
    rewrite rd_app_r by lia. f_equal. lia.
Qed.

Lemma splice_prefix (outs x : bytes) t j :
  0 <= t -> t + zlen x <= zlen outs -> 0 <= j < t + zlen x ->
  rd (splice outs t x) j = if j <? t then rd outs j else rd x (j - t).
Proof.
  intros. rewrite rd_splice by lia. destruct (Z.ltb_spec j t), (Z.leb_spec t j), (Z.ltb_spec j (t + zlen x));
    done || lia.
Qed.

Lemma utf8_loop_text cps s n outs t :
  Forall code_point cps -> ustr_end s -> n = length (text16 cps ++ s) -> 0 <= t ->
  t + zlen (text8 cps) < zlen outs ->
  exists outs', utf8_loop (text16 cps ++ s) n 0 outs t = Ret (outs', t + zlen (text8 cps)) /\
    buffer8 outs outs' t (text8 cps).
Proof.
  intros HF Hs ->. revert outs t. induction HF as [|c cps Hc HF IH]; intros outs t Ht Hr.
  - change (text16 []) with (@nil Z). change (zlen (text8 [])) with 0 in *. cbn [app].
    exists (<[Z.to_nat t:=0]> outs). split; [|apply buffer8_nil; lia].
    destruct Hs as [->|[r ->]]; cbn [length utf8_loop Z.eqb]; rewrite wr_ok by lia; cbn; by rewrite Z.add_0_r.
  - rewrite text8_cons, zlen_app in *. rewrite text16_cons, <- (assoc_L (++)), length_app.
    pose proof (zlen_nonneg (text8 cps)). pose proof (utf8_cp_length c Hc) as Hlen.
    assert (zlen (splice outs t (utf8_cp c)) = zlen outs) as Hz by (apply zlen_splice; lia).
    assert (forall outs1, zlen outs1 = zlen outs ->
      (forall j, 0 <= j < t + zlen (utf8_cp c) -> rd outs1 j = rd (splice outs t (utf8_cp c)) j) ->
      exists outs', utf8_loop (text16 cps ++ s) (length (text16 cps ++ s)) 0 outs1 (t + zlen (utf8_cp c)) =
        Ret (outs', t + (zlen (utf8_cp c) + zlen (text8 cps))) /\ buffer8 outs outs' t (utf8_cp c ++ text8 cps)) as Hnext.
    { intros outs1 Hz1 H1. destruct (IH outs1 (t + zlen (utf8_cp c))) as (outs' & -> & HB); [lia|lia|].
      exists outs'. split; [do 2 f_equal; lia|]. eapply buffer8_app; try done.
      intros j Hj. rewrite H1 by lia. apply splice_prefix; lia. }
    rewrite utf16_units_eq by done. destruct (Z.ltb_spec c 0x10000) as [Hb|Hb]; cbn [length Nat.add app utf8_loop].
    + unfold code_point in Hc. destruct (Z.eqb_spec c 0); [lia|]. rewrite unit_bmp by done. cbn [obind].
      rewrite wrn_ok by lia. cbn [obind Z.eqb andb].
      destruct (c <? 0x80); [|by apply Hnext].
      rewrite wr_ok by lia. cbn [obind]. apply Hnext; [by rewrite zlen_insert|].
      intros j Hj. rewrite rd_insert by lia. destruct (Z.eqb_spec (t + zlen (utf8_cp c)) j); [lia|done].
    + destruct (unit_pair c) as [E1 E2]; [unfold code_point in Hc; lia|].
      assert (0xd800 <= high c < 0xdc00 /\ 0xdc00 <= low c) as [Hh Hl] by (unfold high, low, code_point in *; dlia).
      destruct (Z.eqb_spec (high c) 0), (Z.ltb_spec (high c) 0x80); try lia.
      rewrite E1. cbn [obind]. change (wrn outs t []) with (Ret outs). cbn [obind Z.eqb andb].
      destruct (Z.eqb_spec (low c) 0); [lia|]. change (zlen (@nil Z)) with 0. rewrite Z.add_0_r, E2. cbn [obind].
      rewrite wrn_ok by lia. cbn [obind]. destruct (Z.eqb_spec (high c) 0); [lia|]. cbn [andb].
      by apply Hnext.
Qed.

(** A new buffer of the computed size is filled exactly. *)
Lemma utf16_to_utf8_text malloc cps s :
  (forall n, malloc n = true) -> Forall code_point cps -> ustr_end s -> zlen (text8 cps) <= PATH_MAX ->
  ntfs_utf16_to_utf8 malloc (text16 cps ++ s) (zlen (text16 cps ++ s)) None 0 =
  Ret (text8 cps ++ [0], zlen (text8 cps)).
Proof.
  intros Hm HF Hs HL. unfold ntfs_utf16_to_utf8, utf16_to_utf8_size.
  replace (Z.to_nat (zlen (text16 cps ++ s))) with (length (text16 cps ++ s)) by (unfold zlen; lia).
  rewrite size8_text by (done || lia). cbn [obind]. rewrite Hm, Z.add_0_l.
  pose proof (zlen_nonneg (text8 cps)).
  destruct (utf8_loop_text cps s (length (text16 cps ++ s)) (replicate (Z.to_nat (zlen (text8 cps) + 1)) 0) 0)
    as (o & -> & Hz & HB); [done|done|done|lia|rewrite zlen_replicate; lia|].
  rewrite zlen_replicate in Hz. rewrite Z.add_0_l in *. do 2 f_equal.
  apply list_eq_rd; [rewrite zlen_app, zlen_cons, zlen_nil; lia|]. intros j Hj. rewrite HB by lia.
  rewrite Z.sub_0_r. destruct (Z.ltb_spec j 0); [lia|]. destruct (Z.ltb_spec j (zlen (text8 cps))).
  - by rewrite rd_app_l by lia.
  - replace j with (zlen (text8 cps)) by lia. by rewrite rd_app_here.
Qed.

Lemma size8_safe w surrog count L : safe (fun _ => True) (size8_loop w (length w) surrog count L).
Proof.
  revert surrog count. induction w as [|c w IH]; intros surrog count; cbn; [by destruct surrog|].
  repeat case_match; try done; apply IH.
Qed.

Lemma utf16_to_utf8_exact malloc w :
  (forall n, malloc n = true) -> Forall (in_u 16) w ->
  safe (fun '(o, n) => exists cps t, Forall code_point cps /\ w = text16 cps ++ t /\ ustr_end t /\
    o = text8 cps ++ [0] /\ n = zlen (text8 cps)) (ntfs_utf16_to_utf8 malloc w (zlen w) None 0).
Proof.
  intros Hm HF. pose proof (size8_safe w false 0 PATH_MAX) as Hs.
  destruct (size8_loop w (length w) false 0 PATH_MAX) as [k|e|] eqn:E; [| |done].
  - destruct (size8_inv (length w) w 0 PATH_MAX k) as (cps & t & H1 & -> & H3 & H4 & H5); [done|done|lia|done|].
    rewrite utf16_to_utf8_text; [|done|done|done|].
    + cbn. by exists cps, t.
    + rewrite Z.add_0_l in H4. destruct H5 as [->|]; [by vm_compute|lia].
  - unfold ntfs_utf16_to_utf8, utf16_to_utf8_size.
    replace (Z.to_nat (zlen w)) with (length w) by (unfold zlen; lia). by rewrite E.
Qed.

(** ** The conversions as a pair *)

(** C16. A text of Unicode code points without NUL survives both conversions:
    its UTF-16 name becomes its UTF-8 encoding, which is converted back to the
    same name.  The lengths are bounded by PATH_MAX. *)
Theorem utf16_utf8_roundtrip malloc cps :
  (forall n, malloc n = true) -> Forall code_point cps ->
  zlen (text8 cps) <= PATH_MAX -> zlen (text16 cps) < PATH_MAX ->
  exists b n, ntfs_ucstombs malloc (Some (text16 cps)) (zlen (text16 cps)) None 0 = Ret (b, n) /\
    b = text8 cps ++ [0] /\ n = zlen (text8 cps) /\
    ntfs_mbstoucs malloc (Some b) None = Ret (text16 cps ++ [0], zlen (text16 cps)).
Proof.
  intros Hm HF H8 H16. exists (text8 cps ++ [0]), (zlen (text8 cps)). split_and!; [|done|done|].
  - cbn [ntfs_ucstombs]. rewrite <- (app_nil_r (text16 cps)) at 1 2. rewrite utf16_to_utf8_text; [done..|by left|done].
  - cbn [ntfs_mbstoucs]. rewrite utf8_to_utf16_text by done.
    destruct (Z.ltb_spec (zlen (text16 cps)) PATH_MAX); [done|lia].
Qed.

(** On any input - a NUL-terminated string, an array of 16-bit units - the
    conversions stay inside of the buffers they allocate and of their input,
    and they succeed only on text: what they return is the encoding, in the
    other form, of exactly the code points that the input encodes. *)
Theorem conversions_exact malloc s w :
  (forall n, malloc n = true) -> Forall byte_ok s -> In 0 s -> Forall (in_u 16) w ->
  safe (fun '(o, n) => exists cps rest, Forall code_point cps /\ s = text8 cps ++ 0 :: rest /\
      o = text16 cps ++ [0] /\ n = zlen (text16 cps)) (ntfs_mbstoucs malloc (Some s) None) /\
  safe (fun '(o, n) => exists cps t, Forall code_point cps /\ w = text16 cps ++ t /\ ustr_end t /\
      o = text8 cps ++ [0] /\ n = zlen (text8 cps)) (ntfs_ucstombs malloc (Some w) (zlen w) None 0).
Proof.
  intros Hm HF Hin Hw. split.
  - eapply safe_weaken; [by apply utf8_to_utf16_exact|]. intros [o n] (cps & rest & H). exists cps, rest. tauto.
  - by apply utf16_to_utf8_exact.
Qed.

(** ** Witnesses *)
Lemma utf16_utf8_roundtrip_witness :
  exists b n, ntfs_ucstombs (fun _ => true) (Some [97; 0xe9; 0x20ac; 0xd83d; 0xde00]) 5 None 0 = Ret (b, n) /\
    b = [97; 0xc3; 0xa9; 0xe2; 0x82; 0xac; 0xf0; 0x9f; 0x98; 0x80; 0] /\ n = 10 /\
    ntfs_mbstoucs (fun _ => true) (Some b) None = Ret ([97; 0xe9; 0x20ac; 0xd83d; 0xde00; 0], 5).
Proof.
  apply (utf16_utf8_roundtrip (fun _ => true) [97; 0xe9; 0x20ac; 0x1f600]); [done| |by vm_compute|by vm_compute].
  repeat constructor; unfold code_point; lia.
Defined.

Lemma conversions_exact_witness :
  safe (fun _ => True) (ntfs_mbstoucs (fun _ => true) (Some [0xe2; 0x82; 0; 5]) None) /\
  safe (fun _ => True) (ntfs_ucstombs (fun _ => true) (Some [97; 0xd800]) 2 None 0).
Proof.
  destruct (conversions_exact (fun _ => true) [0xe2; 0x82; 0; 5] [97; 0xd800]) as [H1 H2];
    [done|repeat constructor; lia|cbn; auto|repeat constructor; lia|].
  split; [exact (safe_weaken _ _ _ H1 (fun _ _ => I))|exact (safe_weaken _ _ _ H2 (fun _ _ => I))].
Defined.

(** A caller's buffer of exactly the size of the text: the NUL is stored one
    byte past its end. *)
Example no_room_for_nul :
  ntfs_utf16_to_utf8 (fun _ => true) [97; 98] 2 (Some [0; 0]) 2 = Fault.
Proof. reflexivity. Qed.

(** A name of the maximal length of NTFS, 255 units, is refused. *)
Example longest_name_refused :
  ntfs_str2ucs (fun _ => true) (Some (replicate 255 97 ++ [0])) 0 = Fail ENAMETOOLONG.
Proof. vm_compute. reflexivity. Qed.
