(* ===== verification/Collate.v ===== *)
(** * Collation rules (ntfs/collate.c)

    The comparison functions of index keys.  A comparison has the raw key
    bytes and their lengths; [lexcmp] of Unistr.v is the order they should
    compute. *)
From S2P Require Import Prelude Libc Unistr Mst Device.

(** collate.h:30-30 NTFS_COLLATION_ERROR *)
Definition NTFS_COLLATION_ERROR : Z := -2.

(** collate.c:55-71 ntfs_collate_binary *)
Definition ntfs_collate_binary (data1 : bytes) (data1_len : Z) (data2 : bytes) (data2_len : Z)
  : outcome Z :=
  let! rc := memcmp data1 data2 (Z.min data1_len data2_len) in
  Ret (if (rc =? 0) && negb (data1_len =? data2_len) then
         if data1_len <? data2_len then -1 else 1
       else rc).

(** collate.c:85-109 ntfs_collate_ntofs_ulong *)
Definition ntfs_collate_ntofs_ulong (data1 : bytes) (data1_len : Z) (data2 : bytes) (data2_len : Z)
  : outcome Z :=
  if negb (data1_len =? data2_len) || negb (data1_len =? 4) then Ret NTFS_COLLATION_ERROR
  else
    let! d1 := rd_le 4 data1 0 in
    let! d2 := rd_le 4 data2 0 in
    Ret (if d1 <? d2 then -1 else if d1 =? d2 then 0 else 1).

(** collate.c:135-140 ntfs_collate_ntofs_ulongs. The loop, [n] keys to go. *)
Fixpoint ulongs_loop (n : nat) (data1 data2 : bytes) (p : Z) : outcome (Z * Z) :=
  match n with
  | O => Fault
  | S n' =>
    let! d1 := rd_le 4 data1 p in
    let! d2 := rd_le 4 data2 p in
    match n' with
    | O => Ret (d1, d2)
    | S _ => if d1 =? d2 then ulongs_loop n' data1 data2 (p + 4) else Ret (d1, d2)
    end
  end.

(** collate.c:117-150 ntfs_collate_ntofs_ulongs *)
Definition ntfs_collate_ntofs_ulongs (data1 : bytes) (data1_len : Z) (data2 : bytes) (data2_len : Z)
  : outcome Z :=
  if negb (data1_len =? data2_len) || (data1_len <=? 0) || negb (Z.land data1_len 3 =? 0)
  then Ret NTFS_COLLATION_ERROR
  else
    let! (d1, d2) := ulongs_loop (Z.to_nat (data1_len / 4)) data1 data2 0 in
    Ret (if d1 <? d2 then -1 else if d1 =? d2 then 0 else 1).

(** collate.c:165-204 ntfs_collate_ntofs_security_hash *)
Definition ntfs_collate_ntofs_security_hash (data1 : bytes) (data1_len : Z) (data2 : bytes)
    (data2_len : Z) : outcome Z :=
  if negb (data1_len =? data2_len) || negb (data1_len =? 8) then Ret NTFS_COLLATION_ERROR
  else
    let! d1 := rd_le 4 data1 0 in
    let! d2 := rd_le 4 data2 0 in
    if d1 <? d2 then Ret (-1)
    else if d2 <? d1 then Ret 1
    else
      let! d1 := rd_le 4 data1 4 in
      let! d2 := rd_le 4 data2 4 in
      Ret (if d1 <? d2 then -1 else if d2 <? d1 then 1 else 0).

(** layout.h:1144-1145 FILE_NAME_ATTR. The length of the name in a FILE_NAME
    attribute. *)
Definition file_name_length (data : bytes) : outcome Z := rd data 0x40.
(** layout.h:1147-1147 FILE_NAME_ATTR. The name, and what follows it. *)
Definition file_name (data : bytes) : ustr := words_of (drop 0x42 data).

Section Volume.
(** The upcase table of the volume. *)
Context (upcase : ustr) (upcase_len : Z).

(** collate.c:218-237 ntfs_collate_file_name *)
Definition ntfs_collate_file_name (data1 : bytes) (data1_len : Z) (data2 : bytes) (data2_len : Z)
  : outcome Z :=
  let! l1 := file_name_length data1 in
  let! l2 := file_name_length data2 in
  ntfs_names_full_collate (file_name data1) l1 (file_name data2) l2 CASE_SENSITIVE upcase upcase_len.

(** layout.h:554-568 COLLATION_RULES *)
Inductive COLLATION_RULES :=
| COLLATION_BINARY | COLLATION_FILE_NAME | COLLATION_UNICODE_STRING | COLLATION_NTOFS_ULONG
| COLLATION_NTOFS_SID | COLLATION_NTOFS_SECURITY_HASH | COLLATION_NTOFS_ULONGS.

(** collate.c:245-271 ntfs_get_collate_function. NULL is EOPNOTSUPP. *)
Definition ntfs_get_collate_function (cr : COLLATION_RULES)
  : outcome (bytes -> Z -> bytes -> Z -> outcome Z) :=
  match cr with
  | COLLATION_BINARY => Ret ntfs_collate_binary
  | COLLATION_FILE_NAME => Ret ntfs_collate_file_name
  | COLLATION_NTOFS_SECURITY_HASH => Ret ntfs_collate_ntofs_security_hash
  | COLLATION_NTOFS_ULONG => Ret ntfs_collate_ntofs_ulong
  | COLLATION_NTOFS_ULONGS => Ret ntfs_collate_ntofs_ulongs
  | _ => Fail EOPNOTSUPP
  end.
End Volume.

(** ** Keys of 32-bit numbers *)
Definition key_bytes (ks : list Z) : bytes := concat (map (le_bytes 4) ks).

Lemma key_bytes_length ks : zlen (key_bytes ks) = 4 * zlen ks.
Proof. induction ks as [|k ks IH]; [done|]. unfold key_bytes in *. cbn [map concat]. rewrite zlen_app, IH. zlia. Qed.

Lemma rd_key ks p k ks' :
  ks = p ++ k :: ks' -> in_u 32 k -> rd_le 4 (key_bytes ks) (4 * zlen p) = Ret k.
Proof.
  intros -> Hk. unfold key_bytes. rewrite map_app, concat_app. cbn [map concat].
  rewrite rd_le_bytes by (symmetry; apply key_bytes_length). f_equal. by apply Z.mod_small.
Qed.

Lemma cmp3 a b : (if a <? b then -1 else if a =? b then 0 else 1) = cmp_then a b 0.
Proof. unfold cmp_then. destruct (Z.ltb_spec a b), (Z.eqb_spec a b), (Z.ltb_spec b a); done || lia. Qed.

Lemma ulongs_loop_ok n p q1 q2 :
  (0 < n)%nat -> length q1 = n -> length q2 = n -> Forall (in_u 32) q1 -> Forall (in_u 32) q2 ->
  exists d1 d2, ulongs_loop n (key_bytes (p ++ q1)) (key_bytes (p ++ q2)) (4 * zlen p) = Ret (d1, d2) /\
    cmp_then d1 d2 0 = lexcmp q1 q2.
Proof.
  revert p q1 q2. induction n as [|n IH]; intros p q1 q2 H0 H1 H2 F1 F2; [lia|].
  destruct q1 as [|a q1], q2 as [|b q2]; try done. cbn in H1, H2.
  apply Forall_cons in F1 as [Fa F1]. apply Forall_cons in F2 as [Fb F2].
  cbn [ulongs_loop]. rewrite (rd_key _ p a q1), (rd_key _ p b q2) by done. cbn [obind].
  destruct n as [|n].
  { destruct q1, q2; try done. by exists a, b. }
  destruct (Z.eqb_spec a b) as [->|Hne].
  - destruct (IH (p ++ [b]) q1 q2) as (d1 & d2 & E & Ec); [lia|lia|lia|done|done|].
    exists d1, d2. rewrite <- !(assoc_L (++)) in E. cbn [app] in E. rewrite zlen_app in E.
    change (zlen [b]) with 1 in E. replace (4 * (zlen p + 1)) with (4 * zlen p + 4) in E by lia.
    split; [done|]. cbn [lexcmp]. by rewrite cmp_then_refl.
  - exists a, b. split; [done|]. cbn [lexcmp]. unfold cmp_then.
    destruct (Z.ltb_spec a b), (Z.ltb_spec b a); done || lia.
Qed.

(** The collation rules of the system indexes order their keys
    lexicographically by their 32-bit numbers; keys of different or invalid
    lengths are an error. *)
Theorem collate_keys k1 k2 :
  Forall (in_u 32) k1 -> Forall (in_u 32) k2 ->
  let n1 := zlen (key_bytes k1) in let n2 := zlen (key_bytes k2) in
  ntfs_collate_ntofs_ulongs (key_bytes k1) n1 (key_bytes k2) n2 =
    Ret (if bool_decide (length k1 = length k2 /\ k1 <> []) then lexcmp k1 k2 else NTFS_COLLATION_ERROR) /\
  ntfs_collate_ntofs_ulong (key_bytes k1) n1 (key_bytes k2) n2 =
    Ret (if bool_decide (length k1 = 1%nat /\ length k2 = 1%nat) then lexcmp k1 k2 else NTFS_COLLATION_ERROR) /\
  ntfs_collate_ntofs_security_hash (key_bytes k1) n1 (key_bytes k2) n2 =
    Ret (if bool_decide (length k1 = 2%nat /\ length k2 = 2%nat) then lexcmp k1 k2 else NTFS_COLLATION_ERROR).
Proof.
  intros F1 F2 n1 n2. unfold n1, n2. rewrite !key_bytes_length. split_and!.
  - unfold ntfs_collate_ntofs_ulongs. case_bool_decide as Hd.
    + destruct Hd as [Hl Hne]. assert (0 < length k1)%nat by (destruct k1; cbn; [done|lia]).
      replace (zlen k2) with (zlen k1) by zlia. rewrite Z.eqb_refl. cbn [negb orb].
      destruct (Z.leb_spec (4 * zlen k1) 0); [zlia|]. cbn [orb].
      change 3 with (Z.ones 2). rewrite Z.land_ones by lia. change (2 ^ 2) with 4.
      rewrite Z.mul_comm, Z.mod_mul by lia. cbn [Z.eqb negb]. rewrite Z.div_mul by lia.
      destruct (ulongs_loop_ok (Z.to_nat (zlen k1)) [] k1 k2) as (d1 & d2 & E & Ec); [zlia..|done|done|].
      cbn [app] in E. change (4 * zlen (@nil Z)) with 0 in E. rewrite E. cbn [obind]. by rewrite cmp3, Ec.
    + assert (negb (4 * zlen k1 =? 4 * zlen k2) || (4 * zlen k1 <=? 0) = true) as ->; [|done].
      destruct (Z.eqb_spec (4 * zlen k1) (4 * zlen k2)), (Z.leb_spec (4 * zlen k1) 0); cbn; try done.
      destruct Hd. split; [zlia|]. intros ->. zlia.
  - unfold ntfs_collate_ntofs_ulong. case_bool_decide as Hd.
    + destruct Hd as [H1 H2]. destruct k1 as [|a [|]], k2 as [|b [|]]; try done.
      apply Forall_cons in F1 as [Fa _]. apply Forall_cons in F2 as [Fb _].
      change (zlen [a]) with 1. change (zlen [b]) with 1. cbn [Z.mul Pos.mul Z.eqb Pos.eqb negb orb].
      pose proof (rd_key [a] [] a [] eq_refl Fa) as Ea. pose proof (rd_key [b] [] b [] eq_refl Fb) as Eb.
      change (4 * zlen (@nil Z)) with 0 in *. rewrite Ea, Eb. cbn [obind lexcmp]. by rewrite cmp3.
    + assert (negb (4 * zlen k1 =? 4 * zlen k2) || negb (4 * zlen k1 =? 4) = true) as ->; [|done].
      destruct (Z.eqb_spec (4 * zlen k1) (4 * zlen k2)), (Z.eqb_spec (4 * zlen k1) 4); cbn; try done.
      destruct Hd. split; zlia.
  - unfold ntfs_collate_ntofs_security_hash. case_bool_decide as Hd.
    + destruct Hd as [H1 H2]. destruct k1 as [|a [|a' [|]]], k2 as [|b [|b' [|]]]; try done.
      apply Forall_cons in F1 as [Fa [Fa' _]%Forall_cons]. apply Forall_cons in F2 as [Fb [Fb' _]%Forall_cons].
      change (zlen [a; a']) with 2. change (zlen [b; b']) with 2. cbn [Z.mul Pos.mul Z.eqb Pos.eqb negb orb].
      pose proof (rd_key [a; a'] [] a [a'] eq_refl Fa) as Ea. pose proof (rd_key [b; b'] [] b [b'] eq_refl Fb) as Eb.
      pose proof (rd_key [a; a'] [a] a' [] eq_refl Fa') as Ea'. pose proof (rd_key [b; b'] [b] b' [] eq_refl Fb') as Eb'.
      change (4 * zlen (@nil Z)) with 0 in *. change (4 * zlen [a]) with 4 in *. change (4 * zlen [b]) with 4 in *.
      rewrite Ea, Eb. cbn [obind lexcmp]. unfold cmp_then.
      destruct (a <? b), (b <? a); try done. rewrite Ea', Eb'. cbn [obind]. done.
    + assert (negb (4 * zlen k1 =? 4 * zlen k2) || negb (4 * zlen k1 =? 8) = true) as ->; [|done].
      destruct (Z.eqb_spec (4 * zlen k1) (4 * zlen k2)), (Z.eqb_spec (4 * zlen k1) 8); cbn; try done.
      destruct Hd. split; zlia.
Qed.

(** ** File names *)

(** A FILE_NAME attribute with the given name. *)
Definition file_name_attr (hdr : bytes) (ns : Z) (name : ustr) (rest : bytes) : bytes :=
  hdr ++ [zlen name; ns] ++ bytes_of name ++ rest.

Lemma words_of_bytes_of w b :
  Forall (in_u 16) w -> words_of (bytes_of w ++ b) = w ++ words_of b.
Proof.
  induction 1 as [|x w Hx HF IH]; [done|]. unfold in_u in Hx. cbn [bytes_of app words_of]. rewrite IH.
  f_equal. assert (0 <= x < 65536) by (cbn in Hx; lia). dlia.
Qed.

Lemma file_name_of hdr ns name rest :
  zlen hdr = 0x40 -> Forall (in_u 16) name ->
  file_name_length (file_name_attr hdr ns name rest) = Ret (zlen name) /\
  file_name (file_name_attr hdr ns name rest) = name ++ words_of rest.
Proof.
  intros Hh HF. unfold file_name_length, file_name, file_name_attr. split.
  - cbn [app]. by rewrite rd_app_here by lia.
  - assert (drop 0x42 (hdr ++ [zlen name; ns] ++ bytes_of name ++ rest) = bytes_of name ++ rest) as ->.
    { rewrite (assoc_L (++)). apply drop_app_length'. rewrite length_app. cbn. zlia. }
    by apply words_of_bytes_of.
Qed.

(** Units past the end of a name do not matter. *)
Lemma skip_equal_tail cnt n1 t1 n2 t2 :
  (0 < cnt)%nat -> (cnt <= length n1)%nat -> (cnt <= length n2)%nat ->
  skip_equal cnt (n1 ++ t1) (n2 ++ t2) =
  let! (k, a, b) := skip_equal cnt n1 n2 in Ret (k, a ++ t1, b ++ t2).
Proof.
  revert n1 n2. induction cnt as [|cnt IH]; intros n1 n2 H0 H1 H2; [lia|].
  destruct n1 as [|a n1], n2 as [|b n2]; cbn in H1, H2; try lia. cbn [skip_equal app].
  destruct cnt as [|cnt]; [done|]. destruct (a =? b); [|done]. apply IH; lia.
Qed.

Lemma upcase_loop_tail cnt n1 t1 n2 t2 upcase upcase_len :
  (cnt <= length n1)%nat -> (cnt <= length n2)%nat -> (0 < cnt)%nat ->
  upcase_loop cnt (n1 ++ t1) (n2 ++ t2) upcase upcase_len = upcase_loop cnt n1 n2 upcase upcase_len.
Proof.
  revert n1 n2. induction cnt as [|cnt IH]; intros n1 n2 H1 H2 H0; [lia|].
  destruct n1 as [|a n1], n2 as [|b n2]; cbn in H1, H2; try lia. cbn [upcase_loop app].
  destruct (up _ _ a); [|done..]. destruct (up _ _ b); [|done..]. cbn [obind].
  destruct cnt as [|cnt]; [done|]. destruct (_ =? _); [|done]. apply IH; lia.
Qed.

Lemma full_collate_tail upcase upcase_len n1 t1 n2 t2 :
  upcase_len <= zlen upcase -> Forall (fun u => 0 <= u) n1 -> Forall (fun u => 0 <= u) n2 ->
  ntfs_names_full_collate (n1 ++ t1) (zlen n1) (n2 ++ t2) (zlen n2) CASE_SENSITIVE upcase upcase_len =
  Ret (name_cmp upcase upcase_len n1 n2).
Proof.
  intros Ht F1 F2. rewrite <- case_sensitive_ok by done. unfold ntfs_names_full_collate.
  destruct (Z.ltb_spec 0 (Z.min (zlen n1) (zlen n2))); [|done].
  rewrite skip_equal_tail by zlia.
  destruct (skip_equal_ok (Z.to_nat (Z.min (zlen n1) (zlen n2))) n1 n2)
    as (p & c1 & r1 & c2 & r2 & k & -> & E1 & E2 & Hk & Hc); [zlia..|].
  cbn [obind app]. destruct (up _ _ c1); [|done..]. destruct (up _ _ c2); [|done..]. cbn [obind].
  destruct ((_ =? _) && negb (Nat.eqb k 0)) eqn:E; [|done].
  rewrite upcase_loop_tail; [done|subst; unfold zlen in *; rewrite !length_app in *; cbn in *; lia..|].
  apply andb_true_iff in E as [_ E]. apply negb_true_iff, Nat.eqb_neq in E. lia.
Qed.

(** The directory order on FILE_NAME attributes is the name order of their
    names: upcased names lexicographically, then the names themselves. *)
Theorem collate_file_name_spec upcase upcase_len h1 ns1 n1 r1 h2 ns2 n2 r2 l1 l2 :
  upcase_len <= zlen upcase -> zlen h1 = 0x40 -> zlen h2 = 0x40 ->
  Forall (in_u 16) n1 -> Forall (in_u 16) n2 ->
  let f := upf upcase upcase_len in
  ntfs_collate_file_name upcase upcase_len (file_name_attr h1 ns1 n1 r1) l1 (file_name_attr h2 ns2 n2 r2) l2 =
  Ret (seqc (lexcmp (map f n1) (map f n2)) (lexcmp n1 n2)).
Proof.
  intros Ht H1 H2 F1 F2 f. unfold ntfs_collate_file_name.
  destruct (file_name_of h1 ns1 n1 r1 H1 F1) as [-> ->]. destruct (file_name_of h2 ns2 n2 r2 H2 F2) as [-> ->].
  cbn [obind]. apply full_collate_tail; [done|..]; (eapply Forall_impl; [eassumption|]); intros ? [? ?]; lia.
Qed.

(** The binary collation is not an order: memcmp of this C library returns
    -1 for every difference, so that of two different keys of the same length
    each collates before the other. *)
Theorem collate_binary_not_antisymmetric d1 d2 :
  length d1 = length d2 -> Forall byte_ok d1 -> Forall byte_ok d2 -> d1 <> d2 ->
  ntfs_collate_binary d1 (zlen d1) d2 (zlen d2) = Ret (-1) /\
  ntfs_collate_binary d2 (zlen d2) d1 (zlen d1) = Ret (-1).
Proof.
  intros Hl F1 F2 Hne.
  assert (forall n x y, n = length x -> length x = length y -> Forall byte_ok x -> Forall byte_ok y -> x <> y ->
    memcmp_loop n x y = Ret (-1)) as H.
  { intros n. induction n as [|n IH]; intros [|a x] [|b y]; try done. cbn. intros [= En] [= Exy].
    intros [Ha Fx]%Forall_cons [Hb Fy]%Forall_cons Hxy. destruct (Z.eqb_spec (s8 a) (s8 b)) as [E|E]; [|done].
    apply IH; try done. intros ->. apply Hxy. f_equal. unfold wraps, byte_ok in *.
    change (2 ^ (8 - 1)) with 128 in E. change (2 ^ 8) with 256 in E. dlia. }
  unfold ntfs_collate_binary, memcmp.
  replace (zlen d2) with (zlen d1) by zlia. rewrite Z.min_id.
  replace (Z.to_nat (zlen d1)) with (length d1) by zlia.
  rewrite !H by (done || congruence || lia). done.
Qed.

(** ** Witnesses *)
Lemma collate_keys_witness :
  ntfs_collate_ntofs_security_hash (key_bytes [7; 0x102]) 8 (key_bytes [7; 0x201]) 8 = Ret (-1).
Proof.
  destruct (collate_keys [7; 0x102] [7; 0x201]) as (_ & _ & H); [repeat constructor; lia..|]. exact H.
Defined.

Lemma collate_file_name_spec_witness :
  ntfs_collate_file_name ascii_upcase 128 (file_name_attr (replicate 64 0) 1 [97; 66] [0; 0]) 70
    (file_name_attr (replicate 64 0) 1 [65; 98] []) 70 = Ret 1.
Proof.
  refine (eq_trans (collate_file_name_spec ascii_upcase 128 (replicate 64 0) 1 [97; 66] [0; 0] (replicate 64 0) 1
    [65; 98] [] 70 70 _ _ _ _ _) _); [by vm_compute|done|done|repeat constructor; lia..|reflexivity].
Defined.

Lemma collate_binary_not_antisymmetric_witness :
  ntfs_collate_binary [1; 2] 2 [1; 3] 2 = Ret (-1) /\ ntfs_collate_binary [1; 3] 2 [1; 2] 2 = Ret (-1).
Proof.
  exact (collate_binary_not_antisymmetric [1; 2] [1; 3] eq_refl ltac:(repeat constructor; lia)
    ltac:(repeat constructor; lia) ltac:(done)).
Defined.
