(* ===== verification/Lcnalloc.v ===== *)
(** * The cluster allocator (ntfs/lcnalloc.c)

    Clusters are allocated and freed in the volume's bitmap, the attribute
    [lcnbmp_na].  The volume is split in three zones; the allocator keeps a
    position in each of them and the set of those it found full.  The bitmap is
    read in windows of 4 KiB and one range of free clusters is taken from each
    window; what was allocated is given back when the request cannot be met. *)
From S2P Require Import Prelude Libc Runlist Bitmap.

Definition NTFS_LCNALLOC_BSIZE : Z := 4096.
Definition NTFS_LCNALLOC_SKIP : Z := NTFS_LCNALLOC_BSIZE.

(** lcnalloc.c:58-62 ZONE_MFT. The zones, bits of a set. *)
Definition ZONE_MFT : Z := 1.
Definition ZONE_DATA1 : Z := 2.
Definition ZONE_DATA2 : Z := 4.

(** lcnalloc.h:34-39 NTFS_CLUSTER_ALLOCATION_ZONES *)
Definition FIRST_ZONE : Z := 0.
Definition MFT_ZONE : Z := 0.
Definition DATA_ZONE : Z := 1.
Definition LAST_ZONE : Z := 1.

(** volume.h:180-262 _ntfs_volume. The fields of the allocator. *)
Record volume (A : Type) := mkvol {
  lcnbmp_na : A;
  nr_clusters : Z;
  free_clusters : Z;
  mft_lcn : Z;
  mft_zone_start : Z;
  mft_zone_end : Z;
  mft_zone_pos : Z;
  data1_zone_pos : Z;
  data2_zone_pos : Z;
  full_zones : Z;
}.
Arguments mkvol {A}.
Arguments lcnbmp_na {A}.
Arguments nr_clusters {A}.
Arguments free_clusters {A}.
Arguments mft_lcn {A}.
Arguments mft_zone_start {A}.
Arguments mft_zone_end {A}.
Arguments mft_zone_pos {A}.
Arguments data1_zone_pos {A}.
Arguments data2_zone_pos {A}.
Arguments full_zones {A}.

Section Setters.
Context {A : Type}.
Definition set_bmp na (v : volume A) : volume A := mkvol na (nr_clusters v) (free_clusters v) (mft_lcn v) (mft_zone_start v)
  (mft_zone_end v) (mft_zone_pos v) (data1_zone_pos v) (data2_zone_pos v) (full_zones v).
Definition set_free n (v : volume A) : volume A := mkvol (lcnbmp_na v) (nr_clusters v) n (mft_lcn v) (mft_zone_start v)
  (mft_zone_end v) (mft_zone_pos v) (data1_zone_pos v) (data2_zone_pos v) (full_zones v).
Definition set_mft_pos p (v : volume A) : volume A := mkvol (lcnbmp_na v) (nr_clusters v) (free_clusters v) (mft_lcn v)
  (mft_zone_start v) (mft_zone_end v) p (data1_zone_pos v) (data2_zone_pos v) (full_zones v).
Definition set_data1_pos p (v : volume A) : volume A := mkvol (lcnbmp_na v) (nr_clusters v) (free_clusters v) (mft_lcn v)
  (mft_zone_start v) (mft_zone_end v) (mft_zone_pos v) p (data2_zone_pos v) (full_zones v).
Definition set_data2_pos p (v : volume A) : volume A := mkvol (lcnbmp_na v) (nr_clusters v) (free_clusters v) (mft_lcn v)
  (mft_zone_start v) (mft_zone_end v) (mft_zone_pos v) (data1_zone_pos v) p (full_zones v).
Definition set_full z (v : volume A) : volume A := mkvol (lcnbmp_na v) (nr_clusters v) (free_clusters v) (mft_lcn v)
  (mft_zone_start v) (mft_zone_end v) (mft_zone_pos v) (data1_zone_pos v) (data2_zone_pos v) z.
End Setters.

(** ** Zone positions *)

(** lcnalloc.c:64-72 ntfs_cluster_set_zone_pos *)
Definition ntfs_cluster_set_zone_pos (start end_ pos tc : Z) : Z :=
  if end_ <=? tc then start else if start <=? tc then tc else pos.

(** lcnalloc.c:74-87 ntfs_cluster_update_zone_pos *)
Definition ntfs_cluster_update_zone_pos {A} (vol : volume A) (zone tc : Z) : volume A :=
  if zone =? ZONE_MFT then
    set_mft_pos (ntfs_cluster_set_zone_pos (mft_lcn vol) (mft_zone_end vol) (mft_zone_pos vol) tc) vol
  else if zone =? ZONE_DATA1 then
    set_data1_pos (ntfs_cluster_set_zone_pos (mft_zone_end vol) (nr_clusters vol) (data1_zone_pos vol) tc) vol
  else
    set_data2_pos (ntfs_cluster_set_zone_pos 0 (mft_zone_start vol) (data2_zone_pos vol) tc) vol.

(** The zone is marked as full in [full_zones]. *)
Definition is_full {A} (vol : volume A) (zone : Z) : bool := negb (Z.land (full_zones vol) zone =? 0).

(** [vol->full_zones &= ~zone], after its position is moved to [lcn]. *)
Definition reopen {A} (vol : volume A) (zone lcn : Z) : volume A :=
  if is_full vol zone then
    let vol := ntfs_cluster_update_zone_pos vol zone lcn in
    set_full (Z.land (full_zones vol) (Z.lnot zone)) vol
  else vol.

(** lcnalloc.c:95-114 update_full_status *)
Definition update_full_status {A} (vol : volume A) (lcn : Z) : volume A :=
  if mft_zone_end vol <=? lcn then reopen vol ZONE_DATA1 lcn
  else if lcn <? mft_zone_start vol then reopen vol ZONE_DATA2 lcn
  else reopen vol ZONE_MFT lcn.

(** ** The longest range of free clusters of a window *)

(** The variables of [max_empty_bit_range]. *)
Record range_state := mkrange { r_run : Z; r_max : Z; r_pos : Z }.

(** [if (run > max_range) { max_range = run; start_pos = end - run; } run = 0;] *)
Definition close_run (s : range_state) (end_ : Z) : range_state :=
  if r_max s <? r_run s then mkrange 0 (r_run s) (end_ - r_run s) else mkrange 0 (r_max s) (r_pos s).

(** lcnalloc.c:146-158 max_empty_bit_range. The bits of one byte: [j] counts
    up to 8, [n] is what is left. *)
Fixpoint range_bits (n : nat) (b i j : Z) (s : range_state) : range_state :=
  match n with
  | O => s
  | S n' =>
    range_bits n' b i (j + 1)
      (if negb (Z.land b (Z.shiftl 1 j) =? 0) then close_run s (i * 8 + j)
       else mkrange (r_run s + 1) (r_max s) (r_pos s))
  end.

(** lcnalloc.c:125-163 max_empty_bit_range. Each byte of the [do] loops over
    bytes 0 and 255 is one more iteration of its case: at 255 the second and
    later bytes find [run = 0]. *)
Fixpoint range_bytes (buf : bytes) (i : Z) (s : range_state) : range_state :=
  match buf with
  | [] => s
  | b :: buf' =>
    range_bytes buf' (i + 1)
      (if b =? 0 then mkrange (r_run s + 8) (r_max s) (r_pos s)
       else if b =? 255 then close_run s (i * 8)
       else range_bits 8 b i 0 s)
  end.

(** lcnalloc.c:116-169 max_empty_bit_range. [buf] holds [size] bytes. *)
Definition max_empty_bit_range (buf : bytes) : Z :=
  let s := range_bytes buf 0 (mkrange 0 0 (-1)) in
  if r_max s <? r_run s then zlen buf * 8 - r_run s else r_pos s.

(** ** Allocation *)
Section Alloc.
Context {A : Type} {io : attr_io A}.

(** Allocations of memory: the buffers of the bitmap code, the window of the
    allocator, and the blocks of run lists. *)
Context (bm_malloc malloc : Z -> bool) (realloc : heap run).

(** lcnalloc.c:171-193 bitmap_writeback. The bitmap and the new [writeback]. *)
Definition bitmap_writeback (vol : volume A) (pos size : Z) (b : bytes) (writeback : bool)
  : volume A * outcome unit :=
  if negb writeback then (vol, Ret tt)
  else
    match rdn b 0 size with
    | Ret w =>
      let '(na, written) := attr_pwrite (lcnbmp_na vol) pos w in
      (set_bmp na vol,
       match written with
       | Ret n => if n =? size then Ret tt else Fail (if n =? 0 then EIO else EUNSET)
       | Fail e => Fail e
       | Fault => Fault
       end)
    | _ => (vol, Fault)
    end.

(** The run list that is built: its runs ([rlpos] of them), the size of its
    block, the last run and the number of clusters that are still wanted. *)
Record list_state := mklist {
  l_rl : runlist;
  l_rlsize : Z;
  l_prev_lcn : Z;
  l_prev_run_len : Z;
  l_clusters : Z;
}.

Definition rlpos (l : list_state) : Z := zlen (l_rl l).

(** The block of the run list; the elements behind the runs have not been written. *)
Definition rl_block (l : list_state) : runlist := resize (Z.to_nat (l_rlsize l / sizeof_run)) (mkrun 0 0 0) (l_rl l).

(** lcnalloc.c:356-366 ntfs_cluster_alloc. Room for two more elements; at first there is no
    block.  The elements that [realloc] copies behind the runs are written before they are read. *)
Definition grow (l : list_state) : outcome list_state :=
  if l_rlsize l <=? s32 ((rlpos l + 2) * sizeof_run) then
    let size := s32 (l_rlsize l + 4096) in
    let! p := (if l_rlsize l =? 0 then Ret (if realloc size then Some [] else None)
               else realloc_block realloc (rl_block l) size (size / sizeof_run)) in
    match p with
    | Some _ => Ret (mklist (l_rl l) size (l_prev_lcn l) (l_prev_run_len l) (l_clusters l))
    | None => Fail ENOMEM
    end
  else Ret l.

(** [rl[rlpos]], the element after the runs, is stored to: it has to lie in
    the block. *)
Definition room (l : list_state) : bool := (rlpos l + 1) * sizeof_run <=? l_rlsize l.

(** lcnalloc.c:378-403 ntfs_cluster_alloc. Cluster [c] joins the last run or
    begins a new one. *)
Definition add_cluster (start_vcn : Z) (l : list_state) (c : Z) : outcome list_state :=
  if (l_prev_lcn l =? c - l_prev_run_len l) && negb (rlpos l =? 0) then
    let n := l_prev_run_len l + 1 in
    let! rl := upd (l_rl l) (rlpos l - 1) (fun r => set_len r n) in
    Ret (mklist rl (l_rlsize l) (l_prev_lcn l) n (l_clusters l))
  else if room l then
    let! v := (if negb (rlpos l =? 0) then
                 let! r := rd (l_rl l) (rlpos l - 1) in Ret (vcn r + l_prev_run_len l)
               else Ret start_vcn) in
    Ret (mklist (l_rl l ++ [mkrun v c 1]) (l_rlsize l) c 1 (l_clusters l))
  else Fault.

(** [--clusters] *)
Definition dec_clusters (l : list_state) : list_state :=
  mklist (l_rl l) (l_rlsize l) (l_prev_lcn l) (l_prev_run_len l) (l_clusters l - 1).

(** lcnalloc.c:371-376 ntfs_cluster_alloc. The count of free clusters. *)
Definition count_down (vol : volume A) : volume A :=
  if free_clusters vol <=? 0 then vol else set_free (free_clusters vol - 1) vol.

(** How the search of a window ends. *)
Inductive window_end :=
| Searched                (** the loop ended *)
| Allocated (lcn : Z)     (** [goto done_ret], after bit [lcn] was taken *)
| NoMemory.               (** [goto wb_err_ret] *)

Record window_state := mkwin {
  w_vol : volume A;
  w_list : list_state;
  w_guess : bool;
  w_buf : bytes;
  w_writeback : bool;
}.

(** lcnalloc.c:338-419 ntfs_cluster_alloc. The search of one window that begins
    at bit [bmp_pos]. A range is looked for at most once, and every other round
    takes a bit, so that there are at most [8 * br + 2] rounds. *)
Fixpoint window_search (fuel : nat) (start_vcn bmp_pos lcn : Z) (w : window_state)
  : outcome (window_state * window_end) :=
  match fuel with
  | O => Fault
  | S fuel' =>
    if lcn <? Z.shiftl (zlen (w_buf w)) 3 then
      if w_guess w then
        let! byte := rd (w_buf w) (Z.shiftr lcn 3) in
        let bit := u8 (Z.shiftl 1 (Z.land lcn 7)) in
        if negb (Z.land byte bit =? 0) then
          Ret (mkwin (w_vol w) (w_list w) false (w_buf w) (w_writeback w), Searched)
        else
          match grow (w_list w) with
          | Ret l =>
            let! buf := wr (w_buf w) (Z.shiftr lcn 3) (u8 (Z.lor byte bit)) in
            let vol := count_down (w_vol w) in
            let! l := add_cluster start_vcn l (lcn + bmp_pos) in
            let l := dec_clusters l in
            let w := mkwin vol l true buf true in
            if l_clusters l =? 0 then Ret (w, Allocated lcn)
            else window_search fuel' start_vcn bmp_pos (lcn + 1) w
          | Fail _ => Ret (w, NoMemory)
          | Fault => Fault
          end
      else
        let lcn := max_empty_bit_range (w_buf w) in
        if lcn <? 0 then Ret (w, Searched)
        else window_search fuel' start_vcn bmp_pos lcn
               (mkwin (w_vol w) (w_list w) true (w_buf w) (w_writeback w))
    else Ret (w, Searched)
  end.

(** Where the allocator searches. *)
Record search_state := mksearch {
  s_zone_start : Z;
  s_zone_end : Z;
  s_bmp_pos : Z;
  s_pass : Z;
  s_search_zone : Z;
  s_done_zones : Z;
  s_guess : bool;
  s_used_zone_pos : bool;
}.

(** lcnalloc.c:484-513 ntfs_cluster_alloc. The next zone: [zone_start],
    [zone_end], [search_zone] and [pass]. *)
Definition switch_zone (vol : volume A) (search_zone done_zones : Z) : Z * Z * Z * Z :=
  let to_data1 := (data1_zone_pos vol, nr_clusters vol, ZONE_DATA1,
                   if data1_zone_pos vol =? mft_zone_end vol then 2 else 1) in
  if search_zone =? ZONE_MFT then to_data1
  else if search_zone =? ZONE_DATA1 then
    (data2_zone_pos vol, mft_zone_start vol, ZONE_DATA2, if data2_zone_pos vol =? 0 then 2 else 1)
  else if Z.land done_zones ZONE_DATA1 =? 0 then to_data1
  else (mft_zone_pos vol, mft_zone_end vol, ZONE_MFT,
        if mft_zone_pos vol =? mft_zone_start vol then 2 else 1).

(** lcnalloc.c:469-527 ntfs_cluster_alloc. From the label [done_zones_check];
    an empty zone is left at once. [None]: all zones are done. Every zone is
    done at most once and DATA2 is passed through once more, so that there are
    at most four rounds. *)
Fixpoint done_zones_check (fuel : nat) (vol : volume A) (rl : runlist) (s : search_state)
  : outcome (volume A * option search_state) :=
  match fuel with
  | O => Fault
  | S fuel' =>
    let done_zones := Z.lor (s_done_zones s) (s_search_zone s) in
    let vol := set_full (Z.lor (full_zones vol) (s_search_zone s)) vol in
    if done_zones <? ZONE_MFT + ZONE_DATA1 + ZONE_DATA2 then
      let! vol :=
        (if negb (zlen rl =? 0) then
           let! r := rd rl (zlen rl - 1) in
           Ret (if s_used_zone_pos s then
                  ntfs_cluster_update_zone_pos vol (s_search_zone s) (lcn r + rlen r + NTFS_LCNALLOC_SKIP)
                else vol)
         else Ret vol) in
      let '(zone_start, zone_end, search_zone, pass) := switch_zone vol (s_search_zone s) done_zones in
      let s' := mksearch zone_start zone_end zone_start pass search_zone done_zones
                  (s_guess s) (s_used_zone_pos s) in
      if zone_start =? zone_end then done_zones_check fuel' vol rl s' else Ret (vol, Some s')
    else Ret (vol, None)
  end.

(** lcnalloc.c:447-467 ntfs_cluster_alloc. From the label [zone_pass_done]. *)
Definition zone_pass_done (vol : volume A) (rl : runlist) (s : search_state)
  : outcome (volume A * option search_state) :=
  if s_pass s =? 1 then
    let zone_end := s_zone_start s in
    let zone_start := if s_search_zone s =? ZONE_MFT then mft_zone_start vol
                      else if s_search_zone s =? ZONE_DATA1 then mft_zone_end vol else 0 in
    let zone_end := if zone_end <? zone_start then zone_start else zone_end in
    Ret (vol, Some (mksearch zone_start zone_end zone_start 2 (s_search_zone s) (s_done_zones s)
                      (s_guess s) (s_used_zone_pos s)))
  else done_zones_check 4 vol rl s.

(** lcnalloc.c:426-444 ntfs_cluster_alloc. The next window; the flag tells
    whether it lies in the zone. *)
Definition next_window (vol : volume A) (s : search_state) (bmp_pos br : Z) (guess : bool)
  : search_state * bool :=
  let s' :=
    if negb (s_used_zone_pos s) then
      let zone_start := if s_search_zone s =? ZONE_MFT then mft_zone_pos vol
                        else if s_search_zone s =? ZONE_DATA1 then data1_zone_pos vol
                        else data2_zone_pos vol in
      let pass := if (zone_start =? 0) || (zone_start =? mft_zone_start vol)
                     || (zone_start =? mft_zone_end vol) then 2 else s_pass s in
      mksearch zone_start (s_zone_end s) zone_start pass (s_search_zone s) (s_done_zones s) guess true
    else
      mksearch (s_zone_start s) (s_zone_end s) (bmp_pos + Z.shiftl br 3) (s_pass s)
        (s_search_zone s) (s_done_zones s) guess true in
  (s', s_bmp_pos s' <? s_zone_end s').

(** lcnalloc.c:576-610 ntfs_cluster_free_from_rl. The loop: [nr_freed] and the
    result. *)
Fixpoint free_from_rl_loop (vol : volume A) (rl : runlist) (nr_freed : Z)
  : volume A * Z * outcome unit :=
  match rl with
  | [] => (vol, nr_freed, Fault)
  | r :: rl' =>
    if rlen r =? 0 then (vol, nr_freed, Ret tt)
    else if 0 <=? lcn r then
      let vol := update_full_status vol (lcn r) in
      let '(na, st) := ntfs_bitmap_clear_run bm_malloc (lcnbmp_na vol) (lcn r) (rlen r) in
      let vol := set_bmp na vol in
      match st with
      | Ret _ => free_from_rl_loop vol rl' (nr_freed + rlen r)
      | Fail e => (vol, nr_freed, Fail e)
      | Fault => (vol, nr_freed, Fault)
      end
    else free_from_rl_loop vol rl' nr_freed
  end.

(** lcnalloc.c:576-610 ntfs_cluster_free_from_rl *)
Definition ntfs_cluster_free_from_rl (vol : volume A) (rl : runlist) : volume A * outcome unit :=
  let '(vol, nr_freed, ret) := free_from_rl_loop vol rl 0 in
  (set_free (free_clusters vol + nr_freed) vol, ret).

(** The terminator that follows the runs. *)
Definition terminate (l : list_state) : outcome runlist :=
  if room l then
    let! r := rd (l_rl l) (rlpos l - 1) in
    Ret (l_rl l ++ [mkrun (vcn r + rlen r) LCN_RL_NOT_MAPPED 0])
  else Fault.

(** lcnalloc.c:554-566 ntfs_cluster_alloc. From the label [err_ret]: what was
    allocated is freed; whether that fails is not looked at. [rl] is NULL until
    the first block is allocated. *)
Definition err_ret (vol : volume A) (l : list_state) (err : errno_t) : volume A * outcome runlist :=
  if l_rlsize l =? 0 then (vol, Fail err)
  else
    match terminate l with
    | Ret rl =>
      let '(vol, st) := ntfs_cluster_free_from_rl vol rl in
      (vol, match st with Fault => Fault | _ => Fail err end)
    | _ => (vol, Fault)
    end.

(** lcnalloc.c:315-553 ntfs_cluster_alloc. The loop over the windows. *)
Fixpoint alloc_loop (fuel : nat) (start_vcn : Z) (vol : volume A) (l : list_state) (s : search_state)
  : volume A * outcome runlist :=
  match fuel with
  | O => (vol, Fault)
  | S fuel' =>
    let pass_done vol l s :=
      match zone_pass_done vol (l_rl l) s with
      | Ret (vol, Some s) => alloc_loop fuel' start_vcn vol l s
      | Ret (vol, None) => err_ret vol l ENOSPC
      | _ => (vol, Fault)
      end in
    if is_full vol (s_search_zone s) then pass_done vol l s
    else
      let last_read_pos := Z.shiftr (s_bmp_pos s) 3 in
      match attr_pread (lcnbmp_na vol) last_read_pos NTFS_LCNALLOC_BSIZE with
      | Fail e => err_ret vol l e
      | Fault => (vol, Fault)
      | Ret [] => pass_done vol l s
      | Ret buf =>
        let br := zlen buf in
        let bmp_pos := Z.land (s_bmp_pos s) (Z.lnot 7) in
        match window_search (Z.to_nat (8 * br + 3)) start_vcn bmp_pos (Z.land (s_bmp_pos s) 7)
                (mkwin vol l (s_guess s) buf false) with
        | Ret (w, Allocated lcn) =>
          let vol := if s_used_zone_pos s then
                       ntfs_cluster_update_zone_pos (w_vol w) (s_search_zone s)
                         (lcn + bmp_pos + 1 + NTFS_LCNALLOC_SKIP)
                     else w_vol w in
          match terminate (w_list w) with
          | Ret rl =>
            match bitmap_writeback vol last_read_pos br (w_buf w) (w_writeback w) with
            | (vol, Ret _) => (vol, Ret rl)
            | (vol, Fail e) => err_ret vol (w_list w) e
            | (vol, Fault) => (vol, Fault)
            end
          | _ => (vol, Fault)
          end
        | Ret (w, NoMemory) =>
          match bitmap_writeback (w_vol w) last_read_pos br (w_buf w) (w_writeback w) with
          | (vol, Ret _) => err_ret vol (w_list w) ENOMEM
          | (vol, Fail e) => err_ret vol (w_list w) e
          | (vol, Fault) => (vol, Fault)
          end
        | Ret (w, Searched) =>
          match bitmap_writeback (w_vol w) last_read_pos br (w_buf w) (w_writeback w) with
          | (vol, Ret _) =>
            let '(s, inside) := next_window vol s bmp_pos br (w_guess w) in
            if inside then alloc_loop fuel' start_vcn vol (w_list w) s
            else pass_done vol (w_list w) s
          | (vol, Fail e) => err_ret vol (w_list w) e
          | (vol, Fault) => (vol, Fault)
          end
        | _ => (vol, Fault)
        end
      end
  end.

(** lcnalloc.c:282-310 ntfs_cluster_alloc. Where the search begins. *)
Definition first_window (vol : volume A) (start_lcn zone : Z) : search_state :=
  let has_guess := 0 <=? start_lcn in
  let zone_start := if has_guess then start_lcn
                    else if zone =? DATA_ZONE then data1_zone_pos vol else mft_zone_pos vol in
  let pass := if (zone_start =? 0) || (zone_start =? mft_zone_start vol)
                 || (zone_start =? mft_zone_end vol) then 2 else 1 in
  let '(zone_end, search_zone) :=
    if zone_start <? mft_zone_start vol then (mft_zone_start vol, ZONE_DATA2)
    else if zone_start <? mft_zone_end vol then (mft_zone_end vol, ZONE_MFT)
    else (nr_clusters vol, ZONE_DATA1) in
  mksearch zone_start zone_end zone_start pass search_zone 0 has_guess (negb has_guess).

(** lcnalloc.c:235-567 ntfs_cluster_alloc *)
Definition ntfs_cluster_alloc (fuel : nat) (vol : volume A) (start_vcn count start_lcn zone : Z)
  : volume A * outcome runlist :=
  if (count <? 0) || (start_lcn <? -1) || (s8 zone <? FIRST_ZONE) || (LAST_ZONE <? zone) then
    (vol, Fail EINVAL)
  else if count =? 0 then
    (vol, if malloc 0x1000 then Ret [mkrun start_vcn LCN_RL_NOT_MAPPED 0] else Fail EUNSET)
  else if negb (malloc NTFS_LCNALLOC_BSIZE) then (vol, Fail EUNSET)
  else alloc_loop fuel start_vcn vol (mklist [] 0 0 0 count) (first_window vol start_lcn zone).

(** ** Freeing *)

(** lcnalloc.c:617-646 ntfs_cluster_free_basic *)
Definition ntfs_cluster_free_basic (vol : volume A) (lcn count : Z) : volume A * outcome unit :=
  if 0 <=? lcn then
    let vol := update_full_status vol lcn in
    let '(na, st) := ntfs_bitmap_clear_run bm_malloc (lcnbmp_na vol) lcn count in
    let vol := set_bmp na vol in
    match st with
    | Ret _ => (set_free (free_clusters vol + count) vol, Ret tt)
    | st => (vol, st)
    end
  else (vol, Ret tt).

(** The run list of an attribute, as the allocator uses [ntfs_attr_find_vcn]:
    the elements from the one that holds the cluster on. *)
Class attr_runs (N : Type) := { attr_find_vcn : N -> Z -> N * outcome runlist }.

(** [if (count >= 0 && to_free > count) to_free = count;] *)
Definition cap (count to_free : Z) : Z :=
  if (0 <=? count) && (count <? to_free) then count else to_free.

(** [if (count >= 0) count -= to_free;] *)
Definition less (count to_free : Z) : Z := if 0 <=? count then count - to_free else count.

(** The clusters from [lcn] on are freed. *)
Definition free_range (vol : volume A) (lcn n : Z) : volume A * outcome unit :=
  let vol := update_full_status vol lcn in
  let '(na, st) := ntfs_bitmap_clear_run bm_malloc (lcnbmp_na vol) lcn n in
  (set_bmp na vol, st).

(** lcnalloc.c:721-751 ntfs_cluster_free. The runs after the first; [nr_freed]
    and the [count] that is left. *)
Fixpoint free_rest (vol : volume A) (rl : runlist) (count nr_freed : Z) : volume A * Z * outcome Z :=
  match rl with
  | [] => (vol, nr_freed, Fault)
  | r :: rl' =>
    if (rlen r =? 0) || (count =? 0) then (vol, nr_freed, Ret count)
    else if (lcn r <? 0) && negb (lcn r =? LCN_HOLE) then (vol, nr_freed, Fail EIO)
    else
      let to_free := cap count (rlen r) in
      if negb (lcn r =? LCN_HOLE) then
        match free_range vol (lcn r) to_free with
        | (vol, Ret _) => free_rest vol rl' (less count to_free) (nr_freed + to_free)
        | (vol, Fail e) => (vol, nr_freed, Fail e)
        | (vol, Fault) => (vol, nr_freed, Fault)
        end
      else free_rest vol rl' (less count to_free) nr_freed
  end.

(** lcnalloc.c:664-771 ntfs_cluster_free. The number is returned as an
    [int]. *)
Definition ntfs_cluster_free {N} `{attr_runs N} (vol : volume A) (na : N) (start_vcn count : Z)
  : volume A * N * outcome Z :=
  if (start_vcn <? 0) || ((count <? 0) && negb (count =? -1)) then (vol, na, Fail EINVAL)
  else
    let '(na, rl) := attr_find_vcn na start_vcn in
    match rl with
    | Fail ENOENT => (vol, na, Ret 0)
    | Fail e => (vol, na, Fail e)
    | Fault | Ret [] => (vol, na, Fault)
    | Ret (r :: rl) =>
      if (lcn r <? 0) && negb (lcn r =? LCN_HOLE) then (vol, na, Fail EIO)
      else
        let delta := start_vcn - vcn r in
        let to_free := cap count (rlen r - delta) in
        let '(vol, st) := if negb (lcn r =? LCN_HOLE) then free_range vol (lcn r + delta) to_free
                          else (vol, Ret tt) in
        match st with
        | Fail e => (vol, na, Fail e)
        | Fault => (vol, na, Fault)
        | Ret _ =>
          let '(vol, nr_freed, rest) :=
            free_rest vol rl (less count to_free) (if negb (lcn r =? LCN_HOLE) then to_free else 0) in
          (set_free (free_clusters vol + nr_freed) vol, na,
           match rest with
           | Ret count => if negb (count =? -1) && negb (count =? 0) then Fail EIO else Ret (s32 nr_freed)
           | Fail e => Fail e
           | Fault => Fault
           end)
        end
    end.
End Alloc.

(** ** The longest free range *)

(** Bits [p .. p + n) of the map [T] are clear. *)
Definition range_free (T : Z -> bool) (p n : Z) : Prop := forall i, p <= i < p + n -> T i = false.

(** The longest range of clear bits among the first [e] bits of [T]; the one
    that ends at [e] is still open. *)
Record longest (T : Z -> bool) (e : Z) (s : range_state) : Prop := {
  lg_run : 0 <= r_run s <= e;
  lg_open : range_free T (e - r_run s) (r_run s);
  lg_left : r_run s = e \/ T (e - r_run s - 1) = true;
  lg_max : 0 <= r_max s;
  lg_none : r_max s = 0 -> r_pos s = -1;
  lg_some : 0 < r_max s -> 0 <= r_pos s /\ r_pos s + r_max s <= e /\ range_free T (r_pos s) (r_max s);
  lg_best : forall q m, 0 <= q < e - r_run s -> 0 < m -> q + m <= e -> range_free T q m -> m <= r_max s;
}.

Lemma longest_free T e s :
  longest T e s -> T e = false -> longest T (e + 1) (mkrange (r_run s + 1) (r_max s) (r_pos s)).
Proof.
  intros [] HT. split; cbn; try lia; try done.
  - intros i Hi. destruct (Z.eqb_spec i e) as [->|]; [done|]. apply lg_open0. lia.
  - destruct lg_left0 as [->|<-]; [by left|right]. f_equal. lia.
  - intros Hm. destruct (lg_some0 Hm) as (? & ? & ?). split_and!; [done|lia|done].
  - intros q m Hq Hm Hqm Hf. destruct (Z.leb_spec (q + m) e).
    + apply (lg_best0 q m); [lia|done..].
    + destruct lg_left0 as [|E]; [lia|]. rewrite Hf in E by lia. done.
Qed.

Lemma longest_set T e s : longest T e s -> T e = true -> longest T (e + 1) (close_run s e).
Proof.
  intros [] HT. unfold close_run.
  assert (forall q m, 0 <= q -> 0 < m -> q + m <= e + 1 -> range_free T q m ->
    m <= Z.max (r_max s) (r_run s)) as Hbest.
  { intros q m Hq Hm Hqm Hf. destruct (Z.eqb_spec (q + m) (e + 1)).
    - rewrite Hf in HT by lia. done.
    - destruct (Z.ltb_spec q (e - r_run s)); [|lia].
      pose proof (lg_best0 q m ltac:(lia) Hm ltac:(lia) Hf). lia. }
  destruct (Z.ltb_spec (r_max s) (r_run s)); split; cbn; try lia; try done.
  all: try (intros i Hi; lia).
  all: try (right; rewrite <- HT; f_equal; lia).
  - intros _. split_and!; [lia|lia|done].
  - intros q m Hq Hm Hqm Hf. specialize (Hbest q m). intuition lia.
  - intros Hm. destruct (lg_some0 Hm) as (? & ? & ?). split_and!; [done|lia|done].
  - intros q m Hq Hm Hqm Hf. specialize (Hbest q m). intuition lia.
Qed.

Lemma longest_free_n T n e s :
  longest T e s -> range_free T e (Z.of_nat n) ->
  longest T (e + Z.of_nat n) (mkrange (r_run s + Z.of_nat n) (r_max s) (r_pos s)).
Proof.
  revert e s. induction n as [|n IH]; intros e s Hs Hf.
  - rewrite !Z.add_0_r. by destruct s.
  - replace (e + Z.of_nat (S n)) with (e + 1 + Z.of_nat n) by lia.
    replace (r_run s + Z.of_nat (S n)) with (r_run s + 1 + Z.of_nat n) by lia.
    apply (IH (e + 1) (mkrange (r_run s + 1) (r_max s) (r_pos s))).
    + apply longest_free; [done|]. apply Hf. lia.
    + intros i Hi. apply Hf. lia.
Qed.

(** More set bits change nothing. *)
Lemma longest_set_n T n e s :
  longest T e s -> r_run s = 0 -> (forall i, e <= i < e + Z.of_nat n -> T i = true) ->
  longest T (e + Z.of_nat n) s.
Proof.
  revert e s. induction n as [|n IH]; intros e s Hs Hr Hf.
  - by rewrite Z.add_0_r.
  - replace (e + Z.of_nat (S n)) with (e + 1 + Z.of_nat n) by lia.
    apply IH; [|done|intros i Hi; apply Hf; lia].
    pose proof (longest_set T e s Hs ltac:(apply Hf; lia)) as H. unfold close_run in H.
    pose proof (lg_max _ _ _ Hs). destruct (Z.ltb_spec (r_max s) (r_run s)); [lia|].
    destruct s as [run m p]. cbn in *. by subst.
Qed.

Lemma land_bit_zero b j : 0 <= j -> (Z.land b (2 ^ j) =? 0) = negb (Z.testbit b j).
Proof.
  intros Hj. destruct (Z.eqb_spec (Z.land b (2 ^ j)) 0) as [E|E].
  - apply (f_equal (fun z => Z.testbit z j)) in E. rewrite Z.land_spec, Z.pow2_bits_true, Z.testbit_0_l in E by lia.
    rewrite andb_true_r in E. by rewrite E.
  - destruct (Z.testbit b j) eqn:Eb; [done|]. exfalso. apply E. apply Z.bits_inj'. intros m Hm.
    rewrite Z.land_spec, Z.testbit_0_l, Z.pow2_bits_eqb by lia.
    destruct (Z.eqb_spec j m) as [<-|]; [by rewrite Eb|by rewrite andb_false_r].
Qed.

Lemma longest_bits T n b i j s :
  longest T (i * 8 + j) s -> 0 <= j -> j + Z.of_nat n <= 8 ->
  (forall k, 0 <= k < 8 -> Z.testbit b k = T (i * 8 + k)) ->
  longest T (i * 8 + j + Z.of_nat n) (range_bits n b i j s).
Proof.
  revert j s. induction n as [|n IH]; intros j s Hs Hj Hn Hb; cbn [range_bits]; [by rewrite Z.add_0_r|].
  replace (i * 8 + j + Z.of_nat (S n)) with (i * 8 + (j + 1) + Z.of_nat n) by lia.
  apply IH; [|lia|lia|done].
  rewrite Z.shiftl_1_l, land_bit_zero, Hb by lia.
  rewrite Z.add_assoc. destruct (T (i * 8 + j)) eqn:ET; cbn [negb].
  - by apply longest_set.
  - by apply longest_free.
Qed.

Lemma shows_cons b buf p T :
  shows (b :: buf) (zlen (b :: buf)) p T ->
  byte_ok b /\ (forall k, 0 <= k < 8 -> Z.testbit b k = T (p * 8 + k)) /\ shows buf (zlen buf) (p + 1) T.
Proof.
  intros H. pose proof (zlen_nonneg buf). rewrite zlen_cons in H.
  destruct (H 0) as (b' & E & Hb & Hk); [lia|]. injection E as <-. split_and!; [done| |].
  - intros k Hk'. rewrite Hk by done. f_equal. lia.
  - intros j Hj. destruct (H (j + 1)) as (x & E & Hx & Hxk); [lia|]. rewrite rd_cons_pos in E by lia.
    exists x. split_and!; [|done|].
    + rewrite <- E. f_equal. lia.
    + intros k Hk'. rewrite Hxk by done. f_equal. lia.
Qed.

Lemma longest_bytes T buf i s :
  longest T (i * 8) s -> shows buf (zlen buf) i T -> longest T ((i + zlen buf) * 8) (range_bytes buf i s).
Proof.
  revert i s. induction buf as [|b buf IH]; intros i s Hs Hsh; cbn [range_bytes].
  - by rewrite zlen_nil, Z.add_0_r.
  - apply shows_cons in Hsh as (Hb & Hk & Hsh).
    replace ((i + zlen (b :: buf)) * 8) with ((i + 1 + zlen buf) * 8) by (rewrite zlen_cons; lia).
    apply IH; [|done]. replace ((i + 1) * 8) with (i * 8 + Z.of_nat 8) by lia.
    destruct (Z.eqb_spec b 0) as [->|]; [|destruct (Z.eqb_spec b 255) as [->|]].
    + apply longest_free_n; [done|]. intros x Hx. specialize (Hk (x - i * 8) ltac:(lia)).
      rewrite Z.testbit_0_l in Hk. rewrite Hk. f_equal. lia.
    + assert (forall x, i * 8 <= x < i * 8 + 8 -> T x = true) as HT.
      { intros x Hx. specialize (Hk (x - i * 8) ltac:(lia)). change 255 with (Z.ones 8) in Hk.
        rewrite Z.ones_spec_low in Hk by lia. rewrite Hk. f_equal. lia. }
      replace (i * 8 + Z.of_nat 8) with (i * 8 + 1 + Z.of_nat 7) by lia.
      apply longest_set_n; [|unfold close_run; by destruct (_ <? _)|intros; apply HT; lia].
      apply longest_set; [done|]. apply HT. lia.
    + replace (i * 8 + Z.of_nat 8) with (i * 8 + 0 + Z.of_nat 8) by lia.
      apply longest_bits; [by rewrite Z.add_0_r|lia|lia|done].
Qed.

(** What [max_empty_bit_range] finds in the bytes [buf] that show [T]. *)
Lemma max_range_spec T buf :
  shows buf (zlen buf) 0 T ->
  let p := max_empty_bit_range buf in
  (p = -1 /\ forall i, 0 <= i < 8 * zlen buf -> T i = true) \/
  (exists n, 0 <= p /\ 0 < n /\ p + n <= 8 * zlen buf /\ range_free T p n /\
    forall q m, 0 <= q -> 0 < m -> q + m <= 8 * zlen buf -> range_free T q m -> m <= n).
Proof.
  intros Hsh p. pose proof (zlen_nonneg buf).
  assert (longest T (0 * 8) (mkrange 0 0 (-1))) as H0.
  { split; cbn; try lia; try done; intros i Hi; lia. }
  pose proof (longest_bytes T buf 0 _ H0 Hsh) as []. unfold p, max_empty_bit_range.
  set (s := range_bytes buf 0 (mkrange 0 0 (-1))) in *. rewrite Z.add_0_l in *.
  assert (forall q m, 0 <= q -> 0 < m -> q + m <= zlen buf * 8 -> range_free T q m ->
    m <= Z.max (r_max s) (r_run s)) as Hbest.
  { intros q m Hq Hm Hqm Hf. destruct (Z.ltb_spec q (zlen buf * 8 - r_run s)); [|lia].
    pose proof (lg_best0 q m ltac:(lia) Hm ltac:(lia) Hf). lia. }
  destruct (Z.ltb_spec (r_max s) (r_run s)).
  - right. exists (r_run s). split_and!; [lia|lia|lia|done|].
    intros q m Hq Hm Hqm Hf. pose proof (Hbest q m ltac:(lia) Hm ltac:(lia) Hf). lia.
  - destruct (Z.eqb_spec (r_max s) 0) as [E|E].
    + left. split; [by apply lg_none0|]. intros i Hi. destruct (T i) eqn:ET; [done|exfalso].
      pose proof (Hbest i 1 ltac:(lia) ltac:(lia) ltac:(lia)) as Hb.
      assert (range_free T i 1) by (intros k Hk; by replace k with i by lia). intuition lia.
    + right. destruct lg_some0 as (? & ? & ?); [lia|]. exists (r_max s). split_and!; [done|lia|lia|done|].
      intros q m Hq Hm Hqm Hf. pose proof (Hbest q m ltac:(lia) Hm ltac:(lia) Hf). lia.
Qed.

(** [max_empty_bit_range] returns the start of a range of clear bits that
    no range of clear bits of the buffer exceeds, and -1 exactly when every bit
    is set. *)
Theorem max_empty_bit_range_spec buf :
  Forall byte_ok buf ->
  let p := max_empty_bit_range buf in
  (p = -1 /\ forall i, 0 <= i < 8 * zlen buf -> bit_at buf i = true) \/
  (exists n, 0 <= p /\ 0 < n /\ p + n <= 8 * zlen buf /\ range_free (bit_at buf) p n /\
    forall q m, 0 <= q -> 0 < m -> q + m <= 8 * zlen buf -> range_free (bit_at buf) q m -> m <= n).
Proof. intros HF. apply max_range_spec, shows_bit_at, HF. Qed.

(** ** Witnesses *)

(** A volume of 72 clusters: the first 12 and two more groups are taken. *)
Definition ex_bitmap : bytes := [0xff; 0x0f; 0xf0; 0xff; 0x0f; 0xf0; 0xff; 0x0f; 0xf0].
Definition ex_volume : volume bytes := mkvol ex_bitmap 72 24 4 4 8 4 8 0 0.

Lemma max_empty_bit_range_spec_witness :
  max_empty_bit_range ex_bitmap = 12 /\ range_free (bit_at ex_bitmap) 12 8.
Proof.
  destruct (max_empty_bit_range_spec ex_bitmap) as [[E _]|(n & _ & _ & Hn & Hf & Hbest)];
    [repeat constructor; lia|by vm_compute in E|].
  split; [by vm_compute|]. intros i Hi. apply (Hf i).
  assert (max_empty_bit_range ex_bitmap = 12) as E by (by vm_compute). rewrite E.
  assert (8 <= n); [|lia]. apply (Hbest 12); [lia|lia|by vm_compute|].
  intros j Hj. assert (j = 12 \/ j = 13 \/ j = 14 \/ j = 15 \/ j = 16 \/ j = 17 \/ j = 18 \/ j = 19) as Hj' by lia.
  by destruct Hj' as [-> |[-> |[-> |[-> |[-> |[-> |[-> | ->]]]]]]]; vm_compute.
Defined.
