(* ===== verification/LcnallocProofs.v ===== *)
(** * Correctness of cluster allocation (ntfs/lcnalloc.c)

    The invariants of the windows, of the run list under construction and of the
    search through the zones; a request is met in full or leaves the bitmap as
    it was, and a hint is honoured. *)
From S2P Require Import Prelude Libc Runlist Bitmap Lcnalloc.

(** ** What is allocated *)

(** The clusters of the volume that a run and a run list refer to. *)
Definition run_clusters (r : run) : list Z := if 0 <=? lcn r then seqZ (lcn r) (rlen r) else [].
Definition clusters (l : runlist) : list Z := l ≫= run_clusters.

(** The clear bits of a bitmap. *)
Definition free_bits (D : bytes) : list Z := filter (fun i => bit_at D i = false) (seqZ 0 (8 * zlen D)).

(** [D] is the bitmap [D0] in which the clusters [L] are marked. *)
Definition mark (D0 : bytes) (L : list Z) (i : Z) : bool := bit_at D0 i || bool_decide (i ∈ L).

Definition marked (D0 : bytes) (L : list Z) (D : bytes) : Prop :=
  zlen D = zlen D0 /\ Forall byte_ok D /\ forall i, 0 <= i -> bit_at D i = mark D0 L i.

(** The clusters [L] are different and free in [D0]. *)
Definition free_in (D0 : bytes) (L : list Z) : Prop :=
  NoDup L /\ forall c, c ∈ L -> 0 <= c < 8 * zlen D0 /\ bit_at D0 c = false.

Lemma elem_of_free_bits D c : c ∈ free_bits D <-> 0 <= c < 8 * zlen D /\ bit_at D c = false.
Proof. unfold free_bits. rewrite list_elem_of_filter, elem_of_seqZ. naive_solver lia. Qed.

Lemma free_bits_NoDup D : NoDup (free_bits D).
Proof. apply NoDup_filter, NoDup_seqZ. Qed.

Lemma zlen_seqZ a n : 0 <= n -> zlen (seqZ a n) = n.
Proof. intros. unfold zlen. rewrite length_seqZ. lia. Qed.

(** There are at most as many of them as clear bits. *)
Lemma free_in_length D0 L : free_in D0 L -> zlen L <= zlen (free_bits D0).
Proof.
  intros [Hn H]. unfold zlen. apply inj_le, submseteq_length, NoDup_submseteq; [done|].
  intros c Hc. by apply elem_of_free_bits, H.
Qed.

Lemma free_in_snoc D0 L c :
  free_in D0 L -> 0 <= c < 8 * zlen D0 -> mark D0 L c = false -> free_in D0 (L ++ [c]).
Proof.
  intros [Hn H] Hc Hm. apply orb_false_iff in Hm as [Hb Hm]. apply bool_decide_eq_false in Hm. split.
  - apply NoDup_app. split_and!; [done| |apply NoDup_singleton]. intros x Hx. rewrite list_elem_of_singleton. by intros ->.
  - intros x. rewrite elem_of_app, list_elem_of_singleton. intros [Hx| ->]; auto.
Qed.

(** Marking takes these clusters from the clear ones. *)
Lemma marked_free_bits D0 L D :
  free_in D0 L -> marked D0 L D -> zlen (free_bits D) = zlen (free_bits D0) - zlen L.
Proof.
  intros [Hn H] (Hz & _ & Hb).
  assert (L ++ free_bits D ≡ₚ free_bits D0) as E.
  { apply NoDup_Permutation; [|apply free_bits_NoDup|].
    - apply NoDup_app. split_and!; [done| |apply free_bits_NoDup].
      intros c Hc [? Hf]%elem_of_free_bits. rewrite Hb in Hf by lia. unfold mark in Hf.
      rewrite bool_decide_true, orb_true_r in Hf; done.
    - intros c. rewrite elem_of_app, !elem_of_free_bits, Hz. split.
      + intros [Hc|[Hc Hf]]; [by apply H|]. rewrite Hb in Hf by lia. by apply orb_false_iff in Hf as [? _].
      + intros [Hc Hf]. destruct (decide (c ∈ L)); [by left|right]. split; [done|].
        rewrite Hb by lia. unfold mark. by rewrite Hf, bool_decide_false. }
  apply Permutation_length in E. rewrite length_app in E. unfold zlen. lia.
Qed.

Lemma marked_nil D0 D : Forall byte_ok D0 -> marked D0 [] D -> D = D0.
Proof.
  intros HF (Hz & HD & Hb). apply bitmap_eq; [done..|]. intros i Hi. rewrite Hb by done.
  unfold mark. rewrite bool_decide_false by apply not_elem_of_nil. apply orb_false_r.
Qed.

Lemma marked_id D0 : Forall byte_ok D0 -> marked D0 [] D0.
Proof.
  intros HF. unfold marked. split_and!; [done|done|]. intros. unfold mark. rewrite bool_decide_false by apply not_elem_of_nil. by rewrite orb_false_r.
Qed.

Lemma clusters_app l k : clusters (l ++ k) = clusters l ++ clusters k.
Proof. apply bind_app. Qed.

Lemma clusters_1 r : 0 <= lcn r -> clusters [r] = seqZ (lcn r) (rlen r).
Proof. intros. unfold clusters, run_clusters. cbn. destruct (Z.leb_spec 0 (lcn r)); [apply app_nil_r|lia]. Qed.

Lemma clusters_snoc l r : 0 <= lcn r -> clusters (l ++ [r]) = clusters l ++ seqZ (lcn r) (rlen r).
Proof. intros. by rewrite clusters_app, clusters_1. Qed.

Lemma clusters_length v l e :
  contig v l e -> Forall (fun r => 0 <= lcn r) l -> zlen (clusters l) = e - v.
Proof.
  intros Hc Hl. revert v Hc. induction Hl as [|r l Hr Hl IH]; intros v; cbn [contig].
  - intros ->. change (zlen (clusters [])) with 0. lia.
  - intros (_ & Hn & Hc). change (r :: l) with ([r] ++ l).
    rewrite clusters_app, zlen_app, clusters_1, zlen_seqZ, (IH _ Hc) by lia. lia.
Qed.

(** ** The run list under construction *)

Record building (start_vcn count : Z) (l : list_state) : Prop := {
  bd_contig : contig start_vcn (l_rl l) (start_vcn + zlen (clusters (l_rl l)));
  bd_lcn : Forall (fun r => 0 <= lcn r) (l_rl l);
  bd_last : l_rl l = [] \/ exists rl r, l_rl l = rl ++ [r] /\ l_prev_lcn l = lcn r /\ l_prev_run_len l = rlen r;
  bd_clusters : l_clusters l = count - zlen (clusters (l_rl l));
  bd_pos : 0 <= l_clusters l;
  bd_size : l_rl l = [] /\ l_rlsize l = 0 \/
    l_rl l <> [] /\ (rlpos l + 1) * sizeof_run <= l_rlsize l <= (rlpos l + 2) * sizeof_run + 4096;
}.

(** A list has no more runs than clusters. *)
Lemma rlpos_bound start_vcn count l : building start_vcn count l -> 0 <= rlpos l <= count.
Proof.
  intros []. unfold rlpos. split; [apply zlen_nonneg|].
  assert (zlen (l_rl l) <= zlen (clusters (l_rl l))); [|lia].
  clear bd_last0 bd_clusters0 bd_size0. revert start_vcn bd_contig0.
  induction bd_lcn0 as [|r k Hr Hk IH]; intros v; [done|].
  change (r :: k) with ([r] ++ k). rewrite clusters_app, !zlen_app, clusters_1 by done.
  cbn [app contig]. intros (Hv & Hn & Hc). rewrite zlen_seqZ in * by lia.
  pose proof (IH (v + rlen r)) as H. rewrite zlen_cons, zlen_nil.
  assert (v + (rlen r + zlen (clusters k)) = v + rlen r + zlen (clusters k)) as E by lia.
  rewrite E in Hc. specialize (H Hc). lia.
Qed.

Lemma rlpos_grow_ok (realloc : heap run) start_vcn count l : readable realloc ->
  building start_vcn count l -> count < 2 ^ 26 -> 0 < l_clusters l ->
  (exists n, realloc n = false) /\ grow realloc l = Fail ENOMEM \/
  exists size, grow realloc l = Ret (mklist (l_rl l) size (l_prev_lcn l) (l_prev_run_len l) (l_clusters l)) /\
    (rlpos l + 2) * sizeof_run <= size <= (rlpos l + 2) * sizeof_run + 4096.
Proof.
  intros Hrd Hb Hc Hp. pose proof (rlpos_bound _ _ _ Hb). pose proof Hb as []. unfold grow, sizeof_run in *.
  rewrite (wraps_small 32 ((rlpos l + 2) * 24)) by (unfold in_s; lia).
  destruct (Z.leb_spec (l_rlsize l) ((rlpos l + 2) * 24)).
  - assert (-1 < l_rlsize l) by (destruct bd_size0 as [[_ ->]|]; lia).
    rewrite (wraps_small 32) by (unfold in_s; lia).
    assert ((let! p := (if l_rlsize l =? 0 then Ret (if realloc (l_rlsize l + 4096) then Some [] else None)
        else realloc_block realloc (rl_block l) (l_rlsize l + 4096) ((l_rlsize l + 4096) / 24)) in
      match p with Some _ => Ret (mklist (l_rl l) (l_rlsize l + 4096) (l_prev_lcn l) (l_prev_run_len l) (l_clusters l)) | None => Fail ENOMEM end) =
      if realloc (l_rlsize l + 4096) then Ret (mklist (l_rl l) (l_rlsize l + 4096) (l_prev_lcn l) (l_prev_run_len l) (l_clusters l)) else Fail ENOMEM) as ->.
    { destruct (Z.eqb_spec (l_rlsize l) 0); [by destruct (realloc _)|]. destruct (realloc (l_rlsize l + 4096)) eqn:E; [|unfold realloc_block; by rewrite E].
      destruct (realloc_block_take realloc (rl_block l) _ ((l_rlsize l + 4096) / 24) Hrd E) as (? & -> & _); [apply Z.div_pos; lia|]. done. }
    destruct (realloc (l_rlsize l + 4096)) eqn:Er; [right|left; by eauto]. eexists. split; [done|].
    destruct bd_size0 as [[E ->]|[]]; [|lia]. unfold rlpos in *. rewrite E in *. rewrite zlen_nil. lia.
  - right. exists (l_rlsize l). destruct l. cbn in *. split; [done|]. destruct bd_size0 as [[_ ->]|]; lia.
Qed.

(** The last run grows by one cluster or a new run is added. *)
Lemma add_cluster_ok start_vcn count l size c :
  building start_vcn count l -> 0 <= c -> 0 < l_clusters l ->
  (rlpos l + 2) * sizeof_run <= size <= (rlpos l + 2) * sizeof_run + 4096 ->
  exists l', add_cluster start_vcn
      (mklist (l_rl l) size (l_prev_lcn l) (l_prev_run_len l) (l_clusters l)) c = Ret l' /\
    building start_vcn count (dec_clusters l') /\ l_clusters l' = l_clusters l /\
    clusters (l_rl l') = clusters (l_rl l) ++ [c] /\ l_rl l' <> [].
Proof.
  intros [] Hc Hp Hs. unfold add_cluster, room, sizeof_run in *. cbn [l_prev_lcn l_prev_run_len l_rl l_rlsize rlpos l_clusters].
  unfold rlpos in *. cbn [l_rl] in *. pose proof (zlen_nonneg (l_rl l)).
  destruct bd_last0 as [E|(rl & r & E & E1 & E2)].
  - rewrite E in *. change (clusters []) with (@nil Z) in *. rewrite !zlen_nil in *.
    cbn [Z.eqb negb app]. rewrite andb_false_r.
    destruct (Z.leb_spec ((0 + 1) * 24) size); [|lia]. cbn [obind].
    eexists. split; [done|]. cbn [l_rl l_clusters dec_clusters].
    assert (clusters [mkrun start_vcn c 1] = [c]) as Ecl by (by rewrite clusters_1 by done).
    rewrite Ecl. split_and!; [|done|done|done].
    split; cbn [l_rl l_clusters dec_clusters l_prev_lcn l_prev_run_len l_rlsize]; rewrite ?Ecl;
      change (zlen [c]) with 1.
    + cbn. lia.
    + by apply Forall_singleton.
    + right. by exists [], (mkrun start_vcn c 1).
    + lia.
    + lia.
    + right. split; [done|]. unfold rlpos, sizeof_run. cbn [l_rl l_rlsize dec_clusters]. change (zlen [_]) with 1. lia.
  - rewrite E, E1, E2 in *. rewrite Forall_app in bd_lcn0. destruct bd_lcn0 as [Hl Hr].
    rewrite Forall_singleton in Hr.
    pose proof (clusters_snoc rl r Hr) as Ecl0. rewrite Ecl0 in *. apply contig_app in bd_contig0 as (m & Hc1 & Hc2 & Hn & Hm). cbn in Hm.
    rewrite !zlen_app in *. change (zlen [r]) with 1 in *. rewrite zlen_seqZ in * by lia. pose proof (zlen_nonneg rl).
    destruct (Z.eqb_spec (zlen rl + 1) 0); [lia|]. cbn [negb]. rewrite andb_true_r.
    destruct (Z.eqb_spec (lcn r) (c - rlen r)) as [Ec|Ec].
    + unfold upd. replace (zlen rl + 1 - 1) with (zlen rl) by lia.
      rewrite rd_app_here by done. cbn [obind]. rewrite wr_app_here by done. cbn [obind].
      eexists. split; [done|]. cbn [l_rl l_clusters dec_clusters].
      assert (clusters (rl ++ [set_len r (rlen r + 1)]) = clusters rl ++ seqZ (lcn r) (rlen r) ++ [c]) as Ecl.
      { rewrite clusters_snoc by done. cbn. rewrite seqZ_app by lia. by replace (lcn r + rlen r) with c by lia. }
      split_and!; [|done|rewrite Ecl; by rewrite (assoc_L (++))|by destruct rl].
      split; cbn [l_rl l_clusters dec_clusters l_prev_lcn l_prev_run_len l_rlsize]; rewrite ?Ecl.
      * apply contig_app. exists m. split; [done|]. cbn. rewrite !zlen_app, zlen_seqZ by lia. change (zlen [c]) with 1. lia.
      * apply Forall_app. split; [done|]. by apply Forall_singleton.
      * right. by exists rl, (set_len r (rlen r + 1)).
      * rewrite !zlen_app, zlen_seqZ by lia. change (zlen [c]) with 1. lia.
      * lia.
      * right. split; [by destruct rl|]. unfold rlpos, sizeof_run. cbn. rewrite zlen_app. change (zlen [_]) with 1. lia.
    + destruct (Z.leb_spec ((zlen rl + 1 + 1) * 24) size); [|lia].
      replace (zlen rl + 1 - 1) with (zlen rl) by lia. rewrite rd_app_here by done. cbn [obind].
      eexists. split; [done|]. cbn [l_rl l_clusters dec_clusters].
      assert (clusters ((rl ++ [r]) ++ [mkrun (vcn r + rlen r) c 1]) = (clusters rl ++ seqZ (lcn r) (rlen r)) ++ [c]) as Ecl.
      { by rewrite !clusters_snoc by done. }
      split_and!; [|done|done|by destruct rl].
      split; cbn [l_rl l_clusters dec_clusters l_prev_lcn l_prev_run_len l_rlsize]; rewrite ?Ecl.
      * apply contig_app. exists (start_vcn + (zlen (clusters rl) + rlen r)). split.
        -- apply contig_app. exists m. split; [done|]. cbn. lia.
        -- cbn. rewrite !zlen_app, zlen_seqZ by lia. change (zlen [c]) with 1. lia.
      * apply Forall_app. split; [apply Forall_app; split; [done|by apply Forall_singleton]|].
        by apply Forall_singleton.
      * right. by exists (rl ++ [r]), (mkrun (vcn r + rlen r) c 1).
      * rewrite !zlen_app, zlen_seqZ by lia. change (zlen [c]) with 1. lia.
      * lia.
      * right. split; [by destruct rl|]. unfold rlpos, sizeof_run. cbn. rewrite !zlen_app. change (zlen [_]) with 1. lia.
Qed.

(** The bytes that are read show the bitmap. *)
Lemma sub_shows D0 L D p n :
  0 <= p -> 0 <= n -> p + zlen (sub D p n) <= zlen D -> zlen (sub D p n) <= n -> marked D0 L D ->
  shows (sub D p n) (zlen (sub D p n)) p (mark D0 L).
Proof.
  intros Hp Hn Hend Hle (Hz & HB & Hb) j Hj. destruct (rd_some _ j Hj) as [b E]. exists b. rewrite E.
  rewrite rd_sub in E by lia. destruct (Z.ltb_spec j n); [|done].
  destruct (shows_bit_at _ HB (p + j)) as (b' & E' & Hb' & Hk); [lia|]. rewrite E in E'. injection E' as <-.
  split_and!; [done|done|]. intros k Hk'. rewrite Hk by done. rewrite <- Hb by lia. f_equal.
Qed.

(** ** The search of a window *)

Lemma shows_set_bit D0 T b p c m :
  shows b (zlen b) p (mark D0 T) -> 0 <= m < 8 * zlen b -> c = m + 8 * p -> 0 <= p ->
  exists b', (let! byte := rd b (Z.shiftr m 3) in
              wr b (Z.shiftr m 3) (u8 (Z.lor byte (u8 (Z.shiftl 1 (Z.land m 7)))))) = Ret b' /\
    zlen b' = zlen b /\ shows b' (zlen b) p (mark D0 (T ++ [c])).
Proof.
  intros Hs Hm -> Hp. rewrite shiftr3, land7. assert (0 <= m / 8 < zlen b) as Hi by dlia.
  destruct (Hs (m / 8) Hi) as (x & -> & Hx & Hk). cbn [obind]. rewrite wr_ok by done.
  assert (u8 (Z.shiftl 1 (m mod 8)) = Z.shiftl 1 (m mod 8)) as ->.
  { apply wrapu_small. rewrite Z.shiftl_1_l. split; [lia|]. apply Z.pow_lt_mono_r; dlia. }
  fold (put_bit true x (m mod 8)). eexists. split_and!; [done|apply zlen_insert|].
  intros j Hj. rewrite rd_insert by lia. destruct (Z.eqb_spec (m / 8) j) as [<-|Hne].
  - eexists. split_and!; [done|apply put_bit_byte|]. intros k Hk'. rewrite put_bit_spec by dlia.
    rewrite Hk by done. unfold mark. destruct (Z.eqb_spec k (m mod 8)) as [->|Hne].
    + rewrite (bool_decide_true (_ ∈ T ++ _)); [by rewrite orb_true_r|].
      apply elem_of_app. right. apply list_elem_of_singleton. dlia.
    + f_equal. apply bool_decide_ext. rewrite elem_of_app, list_elem_of_singleton.
      split; [by left|intros [|]; [done|dlia]].
  - destruct (Hs j Hj) as (y & -> & Hy & Hyk). exists y. split_and!; [done|done|].
    intros k Hk'. rewrite Hyk by done. unfold mark. f_equal. apply bool_decide_ext.
    rewrite elem_of_app, list_elem_of_singleton. split; [by left|intros [|]; [done|dlia]].
Qed.

(** The test of a bit. *)
Lemma shows_test_bit T b p m :
  shows b (zlen b) p T -> 0 <= m < 8 * zlen b ->
  exists x, rd b (Z.shiftr m 3) = Ret x /\
    (Z.land x (u8 (Z.shiftl 1 (Z.land m 7))) =? 0) = negb (T (m + 8 * p)).
Proof.
  intros Hs Hm. rewrite shiftr3, land7. destruct (Hs (m / 8)) as (x & E & Hx & Hk); [dlia|].
  exists x. split; [done|].
  assert (u8 (Z.shiftl 1 (m mod 8)) = 2 ^ (m mod 8)) as ->.
  { rewrite Z.shiftl_1_l. apply wrapu_small. split; [lia|]. apply Z.pow_lt_mono_r; dlia. }
  replace (m + 8 * p) with (8 * (p + m / 8) + m mod 8) by dlia. rewrite <- Hk by dlia.
  apply land_bit_zero. dlia.
Qed.

Section AllocLaws.
Context {A : Type} {io : attr_io A} {laws : attr_io_laws A} (realloc : heap run) (Hread : readable realloc).
Context (D0 : bytes) (start_vcn count : Z).
Context (HF : Forall byte_ok D0) (H31 : zlen D0 < 2 ^ 31 - 1) (Hcount : count < 2 ^ 26).

(** The number of free clusters that is left. *)
Definition free_left (L : list Z) : Z := zlen (free_bits D0) - zlen L.

(** The window of [n] bytes from byte [p] on, of the volume [vol]. *)
Record win_ok (vol : volume A) (p n : Z) (w : @window_state A) : Prop := {
  wo_vol : w_vol w = set_free (free_left (clusters (l_rl (w_list w)))) vol;
  wo_list : building start_vcn count (w_list w);
  wo_free : free_in D0 (clusters (l_rl (w_list w)));
  wo_len : zlen (w_buf w) = n;
  wo_shows : shows (w_buf w) n p (mark D0 (clusters (l_rl (w_list w))));
  wo_out : forall i, 0 <= i -> ~ (8 * p <= i < 8 * (p + n)) ->
    bit_at (attr_bytes (lcnbmp_na vol)) i = mark D0 (clusters (l_rl (w_list w))) i;
  wo_clean : w_writeback w = false -> marked D0 (clusters (l_rl (w_list w))) (attr_bytes (lcnbmp_na vol));
}.

Lemma wo_not_full vol p n w :
  win_ok vol p n w -> forall c, 0 <= c < 8 * zlen D0 -> mark D0 (clusters (l_rl (w_list w))) c = false ->
  0 < free_left (clusters (l_rl (w_list w))).
Proof.
  intros [] c Hc Hm. pose proof (free_in_length _ _ (free_in_snoc _ _ _ wo_free0 Hc Hm)) as H.
  rewrite zlen_app in H. change (zlen [c]) with 1 in H. unfold free_left. lia.
Qed.

(** One cluster is taken. *)
Lemma take_ok vol p n w m l :
  win_ok vol p n w -> zlen (attr_bytes (lcnbmp_na vol)) = zlen D0 -> 0 <= p -> p + n <= zlen D0 ->
  0 <= m < 8 * n -> 0 < l_clusters (w_list w) ->
  mark D0 (clusters (l_rl (w_list w))) (m + 8 * p) = false ->
  grow realloc (w_list w) = Ret l ->
  exists byte buf l', rd (w_buf w) (Z.shiftr m 3) = Ret byte /\
    wr (w_buf w) (Z.shiftr m 3) (u8 (Z.lor byte (u8 (Z.shiftl 1 (Z.land m 7))))) = Ret buf /\
    add_cluster start_vcn l (m + 8 * p) = Ret l' /\
    win_ok vol p n (mkwin (count_down (w_vol w)) (dec_clusters l') true buf true) /\
    l_clusters (dec_clusters l') = l_clusters (w_list w) - 1 /\ l_rl l' <> [].
Proof using All.
  intros Hw HD Hp Hn Hm Hcl Hmark Hg. pose proof (wo_not_full _ _ _ _ Hw (m + 8 * p) ltac:(lia) Hmark) as Hpos.
  pose proof Hw as []. set (L := clusters (l_rl (w_list w))) in *.
  destruct (rlpos_grow_ok realloc _ _ _ Hread wo_list0 Hcount Hcl) as [[_ E]|(size & E & Hsize)]; [congruence|].
  rewrite E in Hg. injection Hg as <-.
  destruct (add_cluster_ok _ _ _ size (m + 8 * p) wo_list0) as (l' & El & Hb & Hl' & Hc' & Hne); [lia|done|done|].
  rewrite <- wo_len0 in wo_shows0, Hm.
  destruct (shows_set_bit D0 L (w_buf w) p (m + 8 * p) m) as (buf & Eb & Hz & Hs); [done|lia|done|done|].
  apply obind_ret in Eb as (byte & E1 & E2). exists byte, buf, l'. split_and!; try done.
  2:{ unfold dec_clusters. cbn. lia. }
  fold L in Hc'. split; cbn [w_vol w_list w_buf w_writeback dec_clusters l_rl]; rewrite ?Hc'.
  - rewrite wo_vol0. unfold count_down. cbn [free_clusters set_free]. fold L.
    destruct (Z.leb_spec (free_left L) 0); [lia|]. unfold set_free, free_left. cbn. f_equal.
    rewrite zlen_app. change (zlen [m + 8 * p]) with 1. lia.
  - done.
  - apply free_in_snoc; [done|lia|done].
  - lia.
  - by rewrite <- wo_len0.
  - intros i Hi Hout. rewrite wo_out0 by done. unfold mark. f_equal. apply bool_decide_ext.
    rewrite elem_of_app, list_elem_of_singleton. split; [by left|intros [|]; [done|lia]].
  - done.
Qed.

Lemma window_search_ok fuel vol p n m w :
  win_ok vol p n w -> zlen (attr_bytes (lcnbmp_na vol)) = zlen D0 -> 0 <= p -> p + n <= zlen D0 ->
  0 < l_clusters (w_list w) -> 0 <= m ->
  (if w_guess w then 8 * n - m + 1 else 8 * n + 2) <= Z.of_nat fuel -> (0 < fuel)%nat ->
  exists w' e, window_search realloc fuel start_vcn (8 * p) m w = Ret (w', e) /\ win_ok vol p n w' /\
    match e with
    | Allocated c => 0 <= c /\ l_clusters (w_list w') = 0 /\ l_rl (w_list w') <> []
    | _ => 0 < l_clusters (w_list w')
    end.
Proof using All.
  revert m w. induction fuel as [|fuel IH]; intros m w Hw HD Hp Hn Hcl Hm Hf Hf0; [lia|].
  cbn [window_search]. pose proof Hw as []. rewrite wo_len0, Z.shiftl_mul_pow2 by lia. change (2 ^ 3) with 8.
  destruct (Z.ltb_spec m (n * 8)).
  2:{ eexists _, _. split_and!; done. }
  destruct (w_guess w) eqn:Eg.
  - rewrite <- wo_len0 in wo_shows0.
    destruct (shows_test_bit _ _ _ m wo_shows0) as (x & E & Et); [lia|]. rewrite E. cbn [obind].
    rewrite Et, negb_involutive.
    destruct (mark D0 (clusters (l_rl (w_list w))) (m + 8 * p)) eqn:Emark.
    { eexists _, _. split_and!; [done| |done]. by destruct w, Hw; split. }
    destruct (grow realloc (w_list w)) as [l|e|] eqn:Egr.
    + destruct (take_ok vol p n w m l) as (byte & buf & l' & E1 & E2 & E3 & Hw' & Hc' & Hne); try done; [lia|].
      rewrite E in E1. injection E1 as <-. rewrite E2. cbn [obind]. rewrite E3. cbn [obind].
      rewrite Hc'. destruct (Z.eqb_spec (l_clusters (w_list w) - 1) 0) as [E0|E0].
      * eexists _, (Allocated m). split_and!; try done; cbn [w_list]; lia.
      * apply IH; try done; cbn [w_list w_guess]; lia.
    + eexists _, _. split_and!; done.
    + destruct (rlpos_grow_ok realloc _ _ _ Hread wo_list0 Hcount Hcl) as [[_ E']|(? & E' & _)]; congruence.
  - rewrite <- wo_len0 in wo_shows0.
    assert (exists T, shows (w_buf w) (zlen (w_buf w)) 0 T) as [T HT].
    { exists (fun i => mark D0 (clusters (l_rl (w_list w))) (i + 8 * p)). intros j Hj.
      destruct (wo_shows0 j Hj) as (b & E & Hb & Hk). exists b. split_and!; [done|done|].
      intros k Hk'. rewrite Hk by done. f_equal. lia. }
    pose proof (max_range_spec T _ HT) as H'. cbn zeta in H'.
    destruct (Z.ltb_spec (max_empty_bit_range (w_buf w)) 0).
    { eexists _, _. split_and!; done. }
    assert (0 <= zlen (w_buf w)) by apply zlen_nonneg.
    apply IH; try done; cbn [w_list w_guess]; [|lia|lia]. by destruct w, Hw; split.
Qed.

Lemma set_bmp_id (vol : volume A) : set_bmp (lcnbmp_na vol) vol = vol.
Proof. by destruct vol. Qed.

(** The window is written. *)
Lemma writeback_ok vol p n w (vol' : volume A) :
  win_ok vol p n w -> lcnbmp_na vol' = lcnbmp_na vol -> attr_ok (lcnbmp_na vol) ->
  zlen (attr_bytes (lcnbmp_na vol)) = zlen D0 -> Forall byte_ok (attr_bytes (lcnbmp_na vol)) ->
  0 <= p -> p + n <= zlen D0 ->
  exists na, bitmap_writeback vol' p n (w_buf w) (w_writeback w) = (set_bmp na vol', Ret tt) /\
    attr_ok na /\ marked D0 (clusters (l_rl (w_list w))) (attr_bytes na).
Proof using All.
  intros [] Hv Hok HD HB Hp Hn. unfold bitmap_writeback. destruct (w_writeback w); cbn [negb].
  - pose proof (zlen_nonneg (w_buf w)). rewrite rdn_ok, <- wo_len0, sub_all by lia. rewrite Hv.
    destruct (attr_pwrite_law (lcnbmp_na vol) p (w_buf w)) as (na & -> & Hok' & Hb); [done|done|lia|].
    rewrite Z.eqb_refl. exists na. split_and!; [done|done|]. unfold marked. rewrite Hb.
    rewrite <- wo_len0 in wo_shows0. split_and!.
    + rewrite zlen_splice; lia.
    + eapply Forall_splice; try done. lia.
    + intros i Hi. rewrite (bit_at_splice _ _ _ _ (mark D0 (clusters (l_rl (w_list w))))) by (done || lia).
      destruct (Z.leb_spec (8 * p) i), (Z.ltb_spec i (8 * (p + zlen (w_buf w)))); cbn [andb]; try done;
        apply wo_out0; lia.
  - exists (lcnbmp_na vol). split_and!; [by rewrite <- Hv, set_bmp_id|done|auto].
Qed.

(** ** Giving clusters back *)
Context (bm_malloc : Z -> bool) (Hmalloc : forall n, bm_malloc n = true).

Lemma update_full_status_frame (vol : volume A) c :
  lcnbmp_na (update_full_status vol c) = lcnbmp_na vol /\
  free_clusters (update_full_status vol c) = free_clusters vol /\
  nr_clusters (update_full_status vol c) = nr_clusters vol.
Proof.
  unfold update_full_status, reopen, ntfs_cluster_update_zone_pos.
  repeat case_match; done.
Qed.

(** A range of marked clusters is cleared. *)
Lemma clear_run_ok (na : A) c n L :
  attr_ok na -> marked D0 (seqZ c n ++ L) (attr_bytes na) -> free_in D0 (seqZ c n ++ L) ->
  0 <= c -> 0 < n ->
  exists na', ntfs_bitmap_clear_run bm_malloc na c n = (na', Ret tt) /\ attr_ok na' /\
    marked D0 L (attr_bytes na') /\ free_in D0 L.
Proof using All.
  intros Hok (Hz & HB & Hb) [Hnd Hfr] Hc Hn. unfold ntfs_bitmap_clear_run.
  assert (c + n <= 8 * zlen D0) as Hend.
  { destruct (Hfr (c + n - 1)) as [? _]; [|lia]. apply elem_of_app. left. apply elem_of_seqZ. lia. }
  destruct (set_bits_in_run_ok bm_malloc (attr_bytes na) c n false) with (na := na)
    as (na' & E & Hok' & Hz' & HB' & Hb'); [lia..|done|done|done|done|].
  apply NoDup_app in Hnd as (_ & Hdis & Hnd).
  exists na'. split_and!; [done|done| |].
  - unfold marked. split_and!; [lia|done|]. intros i Hi. rewrite Hb' by done. unfold run_bits.
    destruct (Z.leb_spec c i), (Z.ltb_spec i (c + n)); cbn [andb]; rewrite ?Hb by done; unfold mark.
    1:{ assert (i ∈ seqZ c n) as Hin by (apply elem_of_seqZ; lia).
        destruct (Hfr i) as [_ ->]; [apply elem_of_app; by left|]. cbn.
        symmetry. apply bool_decide_eq_false. auto. }
    all: f_equal; apply bool_decide_ext; rewrite elem_of_app, elem_of_seqZ; split; [intros [|]; [lia|done]|by right].
  - split; [done|]. intros x Hx. apply Hfr. apply elem_of_app. by right.
Qed.

Lemma free_from_rl_ok (vol : volume A) l t pad v e nr :
  attr_ok (lcnbmp_na vol) -> contig v l e -> Forall (fun r => 0 <= lcn r) l -> rlen t = 0 ->
  marked D0 (clusters l) (attr_bytes (lcnbmp_na vol)) -> free_in D0 (clusters l) ->
  exists vol', free_from_rl_loop bm_malloc vol (l ++ t :: pad) nr = (vol', nr + (e - v), Ret tt) /\
    attr_ok (lcnbmp_na vol') /\ attr_bytes (lcnbmp_na vol') = D0 /\ free_clusters vol' = free_clusters vol.
Proof using All.
  intros Hok Hc Hl Ht. revert vol v nr Hok Hc. induction Hl as [|r l Hr Hl IH]; intros vol v nr Hok Hc Hm Hfr.
  - cbn. rewrite Ht. cbn in Hc. subst v. rewrite Z.sub_diag, Z.add_0_r. exists vol. split_and!; try done.
    by apply marked_nil.
  - destruct Hc as (Hv & Hn & Hc). cbn [app free_from_rl_loop].
    destruct (Z.eqb_spec (rlen r) 0); [lia|]. destruct (Z.leb_spec 0 (lcn r)); [|lia].
    destruct (update_full_status_frame vol (lcn r)) as (Ena & Efr & _). rewrite Ena.
    change (r :: l) with ([r] ++ l) in *. rewrite clusters_app, clusters_1 in * by done.
    destruct (clear_run_ok (lcnbmp_na vol) (lcn r) (rlen r) (clusters l)) as (na' & -> & Hok' & Hm' & Hfr'); try done.
    destruct (IH (set_bmp na' (update_full_status vol (lcn r))) (v + rlen r) (nr + rlen r))
      as (vol' & E & H1 & H2 & H3); try done.
    exists vol'. rewrite E. split_and!; try done.
    + do 2 f_equal. lia.
    + by rewrite H3.
Qed.

(** ** The loop *)

(** The positions of the zones are not negative. *)
Record zones_ok (vol : volume A) : Prop := {
  zo_mft : 0 <= mft_lcn vol;
  zo_start : 0 <= mft_zone_start vol;
  zo_end : 0 <= mft_zone_end vol;
  zo_nr : 0 <= nr_clusters vol;
  zo_pos : 0 <= mft_zone_pos vol;
  zo_data1 : 0 <= data1_zone_pos vol;
  zo_data2 : 0 <= data2_zone_pos vol;
}.

(** What holds between two windows. *)
Record alloc_inv (vol : volume A) (l : list_state) : Prop := {
  ai_ok : attr_ok (lcnbmp_na vol);
  ai_marked : marked D0 (clusters (l_rl l)) (attr_bytes (lcnbmp_na vol));
  ai_left : free_clusters vol = free_left (clusters (l_rl l));
  ai_list : building start_vcn count l;
  ai_free : free_in D0 (clusters (l_rl l));
  ai_zones : zones_ok vol;
}.

(** How an allocation ends. *)
Definition alloc_result (r : volume A * outcome runlist) : Prop :=
  let '(vol, out) := r in
  attr_ok (lcnbmp_na vol) /\
  match out with
  | Ret rl => exists l, rl = l ++ [mkrun (start_vcn + count) LCN_RL_NOT_MAPPED 0] /\
      contig start_vcn l (start_vcn + count) /\ Forall (fun r => 0 <= lcn r) l /\
      free_in D0 (clusters l) /\ marked D0 (clusters l) (attr_bytes (lcnbmp_na vol)) /\
      free_clusters vol = zlen (free_bits D0) - count
  | Fail e => (e = ENOSPC \/ e = ENOMEM) /\ attr_bytes (lcnbmp_na vol) = D0 /\
      free_clusters vol = zlen (free_bits D0)
  | Fault => False
  end.

Lemma terminate_ok l :
  building start_vcn count l -> l_rl l <> [] ->
  terminate l = Ret (l_rl l ++ [mkrun (start_vcn + zlen (clusters (l_rl l))) LCN_RL_NOT_MAPPED 0]).
Proof.
  intros [] Hne. unfold terminate, room. destruct bd_size0 as [[? _]|[_ Hs]]; [done|].
  destruct (Z.leb_spec ((rlpos l + 1) * sizeof_run) (l_rlsize l)); [|lia].
  destruct bd_last0 as [|(rl & r & E & _)]; [done|]. rewrite E in *. unfold rlpos. rewrite E, zlen_app.
  change (zlen [r]) with 1. rewrite rd_app_here by lia. cbn [obind].
  apply contig_app in bd_contig0 as (m & _ & <- & _ & <-). done.
Qed.

Lemma err_ret_ok vol l e :
  alloc_inv vol l -> e = ENOSPC \/ e = ENOMEM -> alloc_result (err_ret bm_malloc vol l e).
Proof using All.
  intros [] He. pose proof ai_list0 as []. unfold err_ret.
  destruct (Z.eqb_spec (l_rlsize l) 0) as [E|E].
  - assert (l_rl l = []) as El.
    { destruct bd_size0 as [[? _]|[_ Hs]]; [done|]. pose proof (zlen_nonneg (l_rl l)). unfold rlpos, sizeof_run in *. lia. }
    rewrite El in *. cbn [alloc_result]. split_and!; [done|done|by apply marked_nil|].
    rewrite ai_left0. unfold free_left. change (zlen (clusters [])) with 0. lia.
  - assert (l_rl l <> []) as El by (by destruct bd_size0 as [[_ ?]|[? _]]).
    rewrite terminate_ok by done. unfold ntfs_cluster_free_from_rl.
    destruct (free_from_rl_ok vol (l_rl l) (mkrun (start_vcn + zlen (clusters (l_rl l))) LCN_RL_NOT_MAPPED 0) []
      start_vcn _ 0 ai_ok0 bd_contig0 bd_lcn0 eq_refl ai_marked0 ai_free0) as (vol' & -> & H1 & H2 & H3).
    cbn [alloc_result]. split_and!; [done|done|done|]. cbn [free_clusters set_free].
    rewrite H3, ai_left0. unfold free_left. lia.
Qed.

(** ** Zones *)

Lemma update_zone_pos_ok (vol : volume A) l zone tc :
  alloc_inv vol l -> 0 <= tc -> alloc_inv (ntfs_cluster_update_zone_pos vol zone tc) l.
Proof.
  intros [????? []] Htc. unfold ntfs_cluster_update_zone_pos, ntfs_cluster_set_zone_pos.
  repeat case_match; split; try done; split; cbn; repeat case_match; lia.
Qed.

Lemma set_full_ok (vol : volume A) l z : alloc_inv vol l -> alloc_inv (set_full z vol) l.
Proof. intros [????? []]. split; try done; by split. Qed.

(** The zone that is searched, the zones that are done, and how many more
    zones are searched at most, this one included. *)
Definition zone_table : list (Z * Z * Z) :=
  [(1, 0, 3); (2, 1, 2); (4, 3, 1); (2, 0, 3); (4, 2, 2); (1, 6, 1); (4, 0, 4); (2, 4, 3); (4, 6, 2)].

Record search_ok (r : Z) (s : search_state) : Prop := {
  so_zone : (s_search_zone s, s_done_zones s, r) ∈ zone_table;
  so_start : 0 <= s_zone_start s;
  so_pos : 0 <= s_bmp_pos s;
  so_pass : s_pass s = 1 \/ s_pass s = 2;
}.

Lemma zone_table_rank s d r : (s, d, r) ∈ zone_table -> 1 <= r <= 4.
Proof. unfold zone_table. rewrite !elem_of_cons, elem_of_nil. naive_solver lia. Qed.

(** The windows that are read at most before the search ends. *)
Definition measure (r : Z) (s : search_state) : Z :=
  (2 * r + Z.b2z (s_pass s =? 1) + Z.b2z (negb (s_used_zone_pos s))) * (8 * zlen D0 + 2)
  + Z.max 0 (8 * zlen D0 + 1 - s_bmp_pos s).

Lemma switch_zone_ok (vol : volume A) s d r :
  zones_ok vol -> (s, d, r) ∈ zone_table -> Z.lor d s < 7 ->
  exists zs ze s' pass r', switch_zone vol s (Z.lor d s) = (zs, ze, s', pass) /\
    0 <= zs /\ (pass = 1 \/ pass = 2) /\ (s', Z.lor d s, r') ∈ zone_table /\ r' < r.
Proof.
  intros [] Hin Hlt. unfold zone_table in Hin. rewrite !elem_of_cons, elem_of_nil in Hin.
  assert (forall (b : bool), (if b then 2 else 1) = 1 \/ (if b then 2 else 1) = 2) as Hp by (intros []; auto).
  destruct_or! Hin; try done; injection Hin as -> -> ->; try (exfalso; revert Hlt; by vm_compute); unfold switch_zone; cbn.
  1: exists (data1_zone_pos vol), (nr_clusters vol), 2, (if data1_zone_pos vol =? mft_zone_end vol then 2 else 1), 2.
  2: exists (data2_zone_pos vol), (mft_zone_start vol), 4, (if data2_zone_pos vol =? 0 then 2 else 1), 1.
  3: exists (data2_zone_pos vol), (mft_zone_start vol), 4, (if data2_zone_pos vol =? 0 then 2 else 1), 2.
  4: exists (mft_zone_pos vol), (mft_zone_end vol), 1, (if mft_zone_pos vol =? mft_zone_start vol then 2 else 1), 1.
  5: exists (data1_zone_pos vol), (nr_clusters vol), 2, (if data1_zone_pos vol =? mft_zone_end vol then 2 else 1), 3.
  6: exists (data2_zone_pos vol), (mft_zone_start vol), 4, (if data2_zone_pos vol =? 0 then 2 else 1), 2.
  7: exists (mft_zone_pos vol), (mft_zone_end vol), 1, (if mft_zone_pos vol =? mft_zone_start vol then 2 else 1), 1.
  all: split_and!; [done|done|apply Hp| |lia]; unfold zone_table; rewrite !elem_of_cons; tauto.
Qed.

Lemma done_zones_check_ok fuel (vol : volume A) l s r :
  alloc_inv vol l -> search_ok r s -> r <= Z.of_nat fuel ->
  exists vol' o, done_zones_check fuel vol (l_rl l) s = Ret (vol', o) /\ alloc_inv vol' l /\
    match o with
    | Some s' => exists r', search_ok r' s' /\ r' < r /\ s_used_zone_pos s' = s_used_zone_pos s
    | None => True
    end.
Proof using All.
  revert vol s r. induction fuel as [|fuel IH]; intros vol s r Hi Hs Hf.
  { destruct Hs as [Hs _ _ _]. apply zone_table_rank in Hs. lia. }
  cbn [done_zones_check]. pose proof Hs as [Hz _ _ _].
  pose proof (set_full_ok vol l (Z.lor (full_zones vol) (s_search_zone s)) Hi) as Hi1.
  set (vol1 := set_full _ vol) in *. change (ZONE_MFT + ZONE_DATA1 + ZONE_DATA2) with 7.
  destruct (Z.ltb_spec (Z.lor (s_done_zones s) (s_search_zone s)) 7) as [Hlt|].
  2:{ exists vol1, None. done. }
  assert (exists vol2, (if negb (zlen (l_rl l) =? 0) then
           let! r := rd (l_rl l) (zlen (l_rl l) - 1) in
           Ret (if s_used_zone_pos s then
                  ntfs_cluster_update_zone_pos vol1 (s_search_zone s) (lcn r + rlen r + NTFS_LCNALLOC_SKIP)
                else vol1)
         else Ret vol1) = Ret vol2 /\ alloc_inv vol2 l) as (vol2 & -> & Hi2).
  { pose proof (ai_list _ _ Hi) as []. destruct bd_last0 as [->|(rl & q & E & _)]; [by exists vol1|].
    rewrite E in *. rewrite zlen_app. change (zlen [q]) with 1. pose proof (zlen_nonneg rl).
    destruct (Z.eqb_spec (zlen rl + 1) 0); [lia|]. cbn [negb]. rewrite rd_app_here by lia. cbn [obind].
    eexists. split; [done|]. destruct (s_used_zone_pos s); [|done]. apply update_zone_pos_ok; [done|].
    apply contig_app in bd_contig0 as (m & _ & _ & Hn & _). apply Forall_app in bd_lcn0 as [_ Hq].
    rewrite Forall_singleton in Hq. unfold NTFS_LCNALLOC_SKIP, NTFS_LCNALLOC_BSIZE. lia. }
  cbn [obind]. destruct (switch_zone_ok vol2 _ _ _ (ai_zones _ _ Hi2) Hz Hlt)
    as (zs & ze & s' & pass & r' & -> & Hzs & Hp & Hz' & Hr).
  set (st := mksearch zs ze zs pass s' _ _ _).
  assert (search_ok r' st) as Hst by (by split).
  destruct (zs =? ze).
  - destruct (IH vol2 st r' Hi2 Hst) as (vol' & o & E & Hi' & Ho); [lia|].
    exists vol', o. split_and!; [done|done|]. destruct o as [s''|]; [|done].
    destruct Ho as (r'' & ? & ? & ?). exists r''. split_and!; [done|lia|done].
  - exists vol2, (Some st). split_and!; [done|done|]. by exists r'.
Qed.

Lemma zone_pass_done_ok (vol : volume A) l s r :
  alloc_inv vol l -> search_ok r s ->
  exists vol' o, zone_pass_done vol (l_rl l) s = Ret (vol', o) /\ alloc_inv vol' l /\
    match o with Some s' => exists r', search_ok r' s' /\ measure r' s' < measure r s | None => True end.
Proof using All.
  intros Hi Hs. unfold zone_pass_done. pose proof Hs as [Hz Hst Hpos Hp]. pose proof (zlen_nonneg D0) as HN.
  pose proof (zone_table_rank _ _ _ Hz) as Hr. unfold measure.
  destruct (Z.eqb_spec (s_pass s) 1) as [E|E].
  - set (zs := if s_search_zone s =? ZONE_MFT then _ else _).
    assert (0 <= zs) as Hzs by (unfold zs; pose proof (ai_zones _ _ Hi) as []; repeat case_match; lia).
    eexists vol, (Some _). split_and!; [done|done|]. exists r. split; [split; cbn; auto|].
    cbn -[Z.mul Z.add Z.max]. destruct (negb (s_used_zone_pos s)); cbn [Z.b2z]; nia.
  - destruct (done_zones_check_ok 4 vol l s r Hi Hs) as (vol' & o & E' & Hi' & Ho); [lia|].
    exists vol', o. split_and!; [done|done|]. destruct o as [s'|]; [|done].
    destruct Ho as (r' & Hs' & Hr' & Hu). exists r'. split; [done|]. rewrite Hu.
    pose proof Hs' as [_ _ Hpos' _]. cbn [Z.b2z].
    destruct (s_pass s' =? 1), (negb (s_used_zone_pos s)); cbn [Z.b2z]; nia.
Qed.

(** The next window comes later in the zone, or the search begins at the
    position of the zone. *)
Lemma next_window_ok (vol : volume A) l s r n guess :
  alloc_inv vol l -> search_ok r s -> 0 < n -> s_bmp_pos s / 8 + n <= zlen D0 ->
  exists s' b, next_window vol s (8 * (s_bmp_pos s / 8)) n guess = (s', b) /\
    search_ok r s' /\ measure r s' < measure r s.
Proof using All.
  intros Hi [Hz Hst Hpos Hp] Hn Hend. pose proof (ai_zones _ _ Hi) as []. unfold next_window.
  pose proof (zone_table_rank _ _ _ Hz) as Hr. eexists _, _. split; [done|].
  destruct (s_used_zone_pos s) eqn:Eu; cbn [negb].
  - rewrite Z.shiftl_mul_pow2 by lia. change (2 ^ 3) with 8. split; [split; cbn; try done; dlia|].
    unfold measure. cbn. rewrite Eu. cbn. dlia.
  - split.
    + split; cbn; try done; repeat case_match; try done; auto.
    + unfold measure. cbn [s_pass s_used_zone_pos s_bmp_pos]. rewrite Eu. cbn [negb Z.b2z].
      match goal with |- context [Z.b2z (?p =? 1)] =>
        lazymatch p with context [if _ then _ else _] =>
          assert (0 <= Z.b2z (p =? 1) <= Z.b2z (s_pass s =? 1)) as Hp'
            by (case_match; cbn; by destruct (s_pass s =? 1)) end end.
      set (q := Z.b2z _) in *. set (q' := Z.b2z (s_pass s =? 1)) in *.
      assert (0 <= (if s_search_zone s =? ZONE_MFT then mft_zone_pos vol
        else if s_search_zone s =? ZONE_DATA1 then data1_zone_pos vol else data2_zone_pos vol))
        by (repeat case_match; lia).
      pose proof (zlen_nonneg D0). nia.
Qed.

Lemma alloc_loop_ok fuel (vol : volume A) l s r :
  alloc_inv vol l -> search_ok r s -> 0 < l_clusters l -> measure r s < Z.of_nat fuel ->
  alloc_result (alloc_loop bm_malloc realloc fuel start_vcn vol l s).
Proof using All.
  revert vol l s r. induction fuel as [|fuel IH]; intros vol l s r Hi Hs Hcl Hf.
  { unfold measure in Hf. pose proof (zone_table_rank _ _ _ (so_zone _ _ Hs)). pose proof (zlen_nonneg D0).
    destruct (s_pass s =? 1), (negb (s_used_zone_pos s)); cbn [Z.b2z] in Hf; nia. }
  assert (forall vol l s r, alloc_inv vol l -> search_ok r s -> 0 < l_clusters l ->
    measure r s < Z.of_nat (S fuel) ->
    alloc_result match zone_pass_done vol (l_rl l) s with
      | Ret (vol, Some s) => alloc_loop bm_malloc realloc fuel start_vcn vol l s
      | Ret (vol, None) => err_ret bm_malloc vol l ENOSPC
      | _ => (vol, Fault)
      end) as Hpass.
  { clear -IH HF H31 Hcount Hmalloc laws Hread. intros vol l s r Hi Hs Hcl Hf.
    destruct (zone_pass_done_ok vol l s r Hi Hs) as (vol' & o & -> & Hi' & Ho). destruct o as [s'|].
    - destruct Ho as (r' & Hs' & Hm). apply (IH _ _ _ r'); [done|done|done|lia].
    - apply err_ret_ok; auto. }
  cbn [alloc_loop]. destruct (is_full vol (s_search_zone s)); [by apply (Hpass _ _ _ r)|].
  pose proof Hi as []. destruct ai_marked0 as (Hz & HB & Hb). rewrite shiftr3, land7, land_lnot7.
  pose proof (so_pos _ _ Hs) as Hpos. set (p := s_bmp_pos s / 8). assert (0 <= p) as Hp by (unfold p; dlia).
  rewrite attr_pread_law by (done || unfold NTFS_LCNALLOC_BSIZE; lia).
  set (buf := sub _ _ _). destruct buf as [|b0 buf0] eqn:Ebuf; [by apply (Hpass _ _ _ r)|].
  rewrite <- Ebuf. assert (0 < zlen buf /\ p + zlen buf <= zlen D0 /\
    shows buf (zlen buf) p (mark D0 (clusters (l_rl l)))) as (Hn & Hend & Hsh).
  { assert (0 < zlen buf) by (rewrite Ebuf; zlia).
    assert (zlen buf = Z.max 0 (Z.min 4096 (zlen D0 - p))) as Hzb.
    { unfold buf, sub, zlen, NTFS_LCNALLOC_BSIZE in *. rewrite length_take, length_drop. lia. }
    split_and!; [done|lia|]. by apply sub_shows; try done; unfold buf, NTFS_LCNALLOC_BSIZE in *; lia. }
  assert (win_ok vol p (zlen buf) (mkwin vol l (s_guess s) buf false)) as Hw.
  { split; cbn [w_vol w_list w_buf w_writeback]; try done; [rewrite <- ai_left0; by destruct vol|].
    intros i Hi0 _. by apply Hb. }
  destruct (window_search_ok (Z.to_nat (8 * zlen buf + 3)) vol p (zlen buf) (s_bmp_pos s mod 8) _ Hw)
    as (w & e & -> & Hw' & He); [done|done|done|done|dlia|cbn; destruct (s_guess s); dlia|lia|].
  assert (forall vol', lcnbmp_na vol' = lcnbmp_na vol -> free_clusters vol' = free_left (clusters (l_rl (w_list w))) ->
    zones_ok vol' -> exists na, bitmap_writeback vol' p (zlen buf) (w_buf w) (w_writeback w) = (set_bmp na vol', Ret tt) /\
    alloc_inv (set_bmp na vol') (w_list w)) as Hwb.
  { intros vol' Hna Hfr [].
    destruct (writeback_ok vol p (zlen buf) w vol' Hw' Hna) as (na & E & Hok & Hm); [done..|].
    exists na. split; [done|]. destruct Hw'. by split. }
  pose proof (wo_vol _ _ _ _ Hw') as Ewv. assert (lcnbmp_na (w_vol w) = lcnbmp_na vol) as Ena by (by rewrite Ewv).
  assert (free_clusters (w_vol w) = free_left (clusters (l_rl (w_list w)))) as Efr by (by rewrite Ewv).
  assert (zones_ok (w_vol w)) as Hzo by (rewrite Ewv; by destruct ai_zones0).
  destruct e as [|c|].
  - destruct (Hwb (w_vol w)) as (na & -> & Hi'); [done..|].
    destruct (next_window_ok (set_bmp na (w_vol w)) (w_list w) s r (zlen buf) (w_guess w) Hi' Hs) as (s' & b & En & Hs' & Hm);
      [done|done|]. fold p in En. rewrite En.
    destruct b; [apply (IH _ _ _ r)|apply (Hpass _ _ _ r)]; try done; lia.
  - destruct He as (Hc & He & Hne). rewrite terminate_ok; [|by destruct Hw'|done].
    destruct (Hwb (if s_used_zone_pos s then ntfs_cluster_update_zone_pos (w_vol w) (s_search_zone s)
                     (c + 8 * p + 1 + NTFS_LCNALLOC_SKIP) else w_vol w)) as (na & -> & Hi').
    1,2: unfold ntfs_cluster_update_zone_pos; repeat case_match; done.
    { destruct (s_used_zone_pos s); [|done].
      unfold ntfs_cluster_update_zone_pos, ntfs_cluster_set_zone_pos, NTFS_LCNALLOC_SKIP, NTFS_LCNALLOC_BSIZE.
      destruct Hzo. repeat case_match; split; cbn; repeat case_match; lia. }
    pose proof Hi' as []. pose proof ai_list1 as [].
    assert (zlen (clusters (l_rl (w_list w))) = count) as Ecount by lia. rewrite Ecount in *.
    cbn [alloc_result]. split; [done|]. exists (l_rl (w_list w)). split_and!; try done.
    rewrite ai_left1. unfold free_left. lia.
  - destruct (Hwb (w_vol w)) as (na & -> & Hi'); [done..|]. apply err_ret_ok; auto.
Qed.
End AllocLaws.

(** The allocator's view of a volume is consistent: the bitmap is readable, the
    count of free clusters is that of the bitmap, the zones are positions. *)
Record volume_ok {A} `{attr_io_laws A} (vol : volume A) : Prop := {
  vk_attr : attr_ok (lcnbmp_na vol);
  vk_bytes : Forall byte_ok (attr_bytes (lcnbmp_na vol));
  vk_size : zlen (attr_bytes (lcnbmp_na vol)) < 2 ^ 31 - 1;
  vk_free : free_clusters vol = zlen (free_bits (attr_bytes (lcnbmp_na vol)));
  vk_zones : zones_ok vol;
}.

(** C1. Allocation is all or nothing.  On a consistent volume, whose bitmap has less than
    2^31 - 1 bytes, a request for [count] clusters, less than 2^26 (so that the sizes of
    run lists are ints), ends, with fuel for eleven reads per bit of the bitmap, when there
    is memory for the buffers and what [realloc] reads behind the run list that it grows
    can be read ([readable]; Example ex_grow_overread);
    either it returns a run list that maps exactly the virtual clusters
    [start_vcn .. start_vcn + count), whose clusters are all different, were
    all free, and are exactly those that the bitmap marks in addition, with
    [free_clusters] lowered by [count]; or it fails with ENOSPC or ENOMEM and
    the bitmap and the count of free clusters are what they were.  Both ways the
    count agrees with the bitmap. *)
Theorem cluster_alloc_all_or_nothing {A} {io : attr_io A} {laws : attr_io_laws A}
    bm_malloc malloc (realloc : heap run) fuel (vol : volume A) start_vcn count start_lcn zone :
  (forall n, bm_malloc n = true) -> malloc NTFS_LCNALLOC_BSIZE = true -> readable realloc -> volume_ok vol ->
  0 < count < 2 ^ 26 -> -1 <= start_lcn -> zone = MFT_ZONE \/ zone = DATA_ZONE ->
  11 * (8 * zlen (attr_bytes (lcnbmp_na vol)) + 2) <= Z.of_nat fuel ->
  exists vol' out,
    ntfs_cluster_alloc bm_malloc malloc realloc fuel vol start_vcn count start_lcn zone = (vol', out) /\
    free_clusters vol' = zlen (free_bits (attr_bytes (lcnbmp_na vol'))) /\
    match out with
    | Ret rl => exists l, rl = l ++ [mkrun (start_vcn + count) LCN_RL_NOT_MAPPED 0] /\
        contig start_vcn l (start_vcn + count) /\ Forall (fun r => 0 <= lcn r) l /\
        free_in (attr_bytes (lcnbmp_na vol)) (clusters l) /\
        marked (attr_bytes (lcnbmp_na vol)) (clusters l) (attr_bytes (lcnbmp_na vol')) /\
        free_clusters vol' = free_clusters vol - count
    | Fail e => (e = ENOSPC \/ e = ENOMEM) /\ attr_bytes (lcnbmp_na vol') = attr_bytes (lcnbmp_na vol) /\
        free_clusters vol' = free_clusters vol
    | Fault => False
    end.
Proof.
  intros Hbm Hm Hread [] Hcount Hlcn Hzone Hfuel. unfold ntfs_cluster_alloc.
  destruct (Z.ltb_spec count 0), (Z.ltb_spec start_lcn (-1)); try lia.
  assert ((s8 zone <? FIRST_ZONE) || (LAST_ZONE <? zone) = false) as Ez by (by destruct Hzone as [-> | ->]).
  rewrite <- orb_assoc, Ez. cbn [orb]. destruct (Z.eqb_spec count 0); [lia|]. rewrite Hm. cbn [negb].
  set (D0 := attr_bytes (lcnbmp_na vol)) in *. pose proof vk_zones0 as [].
  assert (alloc_inv D0 start_vcn count vol (mklist [] 0 0 0 count)) as Hi.
  { split; try done; cbn [l_rl]; change (clusters []) with (@nil Z).
    - by apply marked_id.
    - rewrite vk_free0. unfold free_left. rewrite zlen_nil. lia.
    - split; cbn [l_rl l_clusters]; change (clusters []) with (@nil Z); rewrite ?zlen_nil; try (by auto); try lia.
      cbn. lia.
    - split; [constructor|]. intros c Hc. by apply not_elem_of_nil in Hc. }
  assert (exists r, search_ok r (first_window vol start_lcn zone) /\
    s_used_zone_pos (first_window vol start_lcn zone) = negb (0 <=? start_lcn) /\ 1 <= r <= 4) as (r & Hs & _ & Hr).
  { unfold first_window. set (zs := if 0 <=? start_lcn then start_lcn else _).
    assert (0 <= zs) as Hzs by (unfold zs; repeat case_match; lia).
    destruct (zs <? mft_zone_start vol); [exists 4|destruct (zs <? mft_zone_end vol); [exists 3|exists 3]];
      (split_and!; [split; cbn; [|done|done|case_match; auto]|done|lia|lia]);
      unfold zone_table; rewrite !elem_of_cons; tauto. }
  pose proof (alloc_loop_ok realloc Hread D0 start_vcn count vk_bytes0 vk_size0 ltac:(lia) bm_malloc Hbm fuel vol
    _ _ r Hi Hs) as Hres.
  destruct (alloc_loop _ _ _ _ _ _ _) as [vol' out].
  destruct Hres as [Hok Hres]; [cbn; lia| |].
  - unfold measure. pose proof (so_pos _ _ Hs). pose proof (zlen_nonneg D0). unfold D0 in *.
    destruct (s_pass _ =? 1), (negb (s_used_zone_pos _)); cbn [Z.b2z]; nia.
  - exists vol', out. split; [done|]. destruct out as [rl|e|]; [|..|done].
    + destruct Hres as (l & Hrl & Hc & Hl & Hfr & Hmk & Hleft). split.
      * rewrite (marked_free_bits _ _ _ Hfr Hmk), (clusters_length _ _ _ Hc Hl), Hleft. lia.
      * exists l. rewrite vk_free0. by split_and!.
    + destruct Hres as (He & Hb & Hf). rewrite Hb, vk_free0. by split_and!.
Qed.

(** ** The hint *)
Section Hint.
Context {A : Type} {io : attr_io A} {laws : attr_io_laws A} (realloc : heap run) (Hread : readable realloc).
Context (D0 : bytes) (start_vcn count hint : Z).
Context (HF : Forall byte_ok D0) (H31 : zlen D0 < 2 ^ 31 - 1) (Hcount : count < 2 ^ 26).
Context (Hrealloc : forall n, realloc n = true) (Hhint : 0 <= hint).

(** [n] clusters from the hint on are taken, in one run. *)
Definition hinted (n : Z) (l : list_state) : Prop :=
  l_rl l = (if n =? 0 then [] else [mkrun start_vcn hint n]) /\
  (n <> 0 -> l_prev_lcn l = hint /\ l_prev_run_len l = n).

Lemma hinted_clusters n l : 0 <= n -> hinted n l -> clusters (l_rl l) = seqZ hint n.
Proof using Hhint.
  intros Hn [-> _]. destruct (Z.eqb_spec n 0) as [->|]; [done|]. by rewrite clusters_1.
Qed.

Lemma hinted_add n l l' size :
  0 <= n -> hinted n l ->
  add_cluster start_vcn (mklist (l_rl l) size (l_prev_lcn l) (l_prev_run_len l) (l_clusters l)) (hint + n) = Ret l' ->
  hinted (n + 1) (dec_clusters l').
Proof using Hhint.
  intros Hn [El Hl] E. unfold add_cluster, hinted in *. cbn [l_rl l_prev_lcn l_prev_run_len rlpos] in E.
  unfold rlpos in E. cbn [l_rl] in E. destruct (Z.eqb_spec n 0) as [->|Hne]; rewrite El in E.
  - cbn [zlen length Z.of_nat Z.eqb negb] in E. rewrite andb_false_r in E.
    destruct (room _); [|done]. injection E as <-. by rewrite Z.add_0_r.
  - destruct (Hl Hne) as [E1 E2]. rewrite E1, E2 in E.
    assert (hint =? hint + n - n = true) as Eq by (apply Z.eqb_eq; lia). rewrite Eq in E.
    cbn in E. injection E as <-. cbn. destruct (Z.eqb_spec (n + 1) 0); [lia|done].
Qed.

Lemma window_hint fuel (vol : volume A) p bytes_n n m w :
  win_ok D0 start_vcn count vol p bytes_n w -> zlen (attr_bytes (lcnbmp_na vol)) = zlen D0 ->
  0 <= p -> p + bytes_n <= zlen D0 -> w_guess w = true -> hinted n (w_list w) -> 0 <= n < count ->
  m + 8 * p = hint + n -> 0 <= m -> hint + count <= 8 * (p + bytes_n) -> range_free (bit_at D0) hint count ->
  count - n <= Z.of_nat fuel ->
  exists w' c, window_search realloc fuel start_vcn (8 * p) m w = Ret (w', Allocated c) /\
    win_ok D0 start_vcn count vol p bytes_n w' /\ hinted count (w_list w').
Proof using All.
  revert n m w. induction fuel as [|fuel IH]; intros n m w Hw HD Hp Hend Hg Hh Hn Hm Hm0 Hfit Hfree Hf; [lia|].
  pose proof Hw as []. pose proof (hinted_clusters n _ ltac:(lia) Hh) as Ecl.
  cbn [window_search]. rewrite wo_len0, Z.shiftl_mul_pow2 by lia. change (2 ^ 3) with 8.
  destruct (Z.ltb_spec m (bytes_n * 8)); [|lia]. rewrite Hg.
  rewrite <- wo_len0 in wo_shows0.
  destruct (shows_test_bit _ _ _ m wo_shows0) as (x & Ex & Et); [lia|]. rewrite Ex. cbn [obind]. rewrite Et.
  assert (mark D0 (clusters (l_rl (w_list w))) (m + 8 * p) = false) as Emark.
  { unfold mark. rewrite Ecl, Hfree by lia. rewrite bool_decide_false; [done|]. rewrite elem_of_seqZ. lia. }
  rewrite Emark. cbn [negb].
  assert (l_clusters (w_list w) = count - n) as Eleft.
  { destruct wo_list0. rewrite Ecl, zlen_seqZ in bd_clusters0 by lia. done. }
  destruct (rlpos_grow_ok realloc _ _ _ Hread wo_list0 Hcount) as [[[? E] _]|(size & Eg & Hsize)]; [lia|by rewrite Hrealloc in E|].
  destruct (take_ok realloc Hread D0 start_vcn count HF H31 Hcount vol p bytes_n w m (mklist (l_rl (w_list w)) size
    (l_prev_lcn (w_list w)) (l_prev_run_len (w_list w)) (l_clusters (w_list w))) Hw)
    as (byte & buf & l' & E1 & E2 & E3 & Hw' & Hc' & Hne); try done; try lia.
  rewrite Eg. rewrite Ex in E1. injection E1 as <-. rewrite E2. cbn [obind]. rewrite E3. cbn [obind]. rewrite Hc', Eleft.
  rewrite Hm in E3. apply hinted_add in E3; [|lia|done].
  destruct (Z.eqb_spec (count - n - 1) 0).
  - eexists _, m. split_and!; [done|done|]. cbn [w_list]. by replace count with (n + 1) by lia.
  - apply (IH (n + 1)); try done; cbn [w_guess w_list]; lia.
Qed.
End Hint.

(** The hint is honoured: when the [count] clusters from [start_lcn] on are
    free, lie in the 4 KiB of bitmap from the byte of [start_lcn] on, and the
    zone of [start_lcn] is not marked as full, the request is met by exactly one
    run at [start_lcn], and the positions of the zones stay where they were. *)
Theorem cluster_alloc_hint {A} {io : attr_io A} {laws : attr_io_laws A}
    bm_malloc malloc (realloc : heap run) fuel (vol : volume A) start_vcn count start_lcn zone :
  malloc NTFS_LCNALLOC_BSIZE = true -> (forall n, realloc n = true) -> readable realloc -> volume_ok vol -> (0 < fuel)%nat ->
  0 < count < 2 ^ 26 -> 0 <= start_lcn -> zone = MFT_ZONE \/ zone = DATA_ZONE ->
  start_lcn mod 8 + count <= 8 * NTFS_LCNALLOC_BSIZE ->
  start_lcn + count <= 8 * zlen (attr_bytes (lcnbmp_na vol)) ->
  range_free (bit_at (attr_bytes (lcnbmp_na vol))) start_lcn count ->
  is_full vol (s_search_zone (first_window vol start_lcn zone)) = false ->
  exists na, ntfs_cluster_alloc bm_malloc malloc realloc fuel vol start_vcn count start_lcn zone =
      (set_bmp na (set_free (free_clusters vol - count) vol),
       Ret [mkrun start_vcn start_lcn count; mkrun (start_vcn + count) LCN_RL_NOT_MAPPED 0]) /\
    marked (attr_bytes (lcnbmp_na vol)) (seqZ start_lcn count) (attr_bytes na).
Proof.
  intros Hm Hre Hread [] Hfuel Hcount Hlcn Hzone Hwin Hend Hfree Hfull. unfold ntfs_cluster_alloc.
  destruct (Z.ltb_spec count 0), (Z.ltb_spec start_lcn (-1)); try lia.
  assert ((s8 zone <? FIRST_ZONE) || (LAST_ZONE <? zone) = false) as Ez by (by destruct Hzone as [-> | ->]).
  rewrite <- orb_assoc, Ez. cbn [orb]. destruct (Z.eqb_spec count 0); [lia|]. rewrite Hm. cbn [negb].
  set (D0 := attr_bytes (lcnbmp_na vol)) in *. set (s := first_window vol start_lcn zone) in *.
  assert (s_bmp_pos s = start_lcn /\ s_guess s = true /\ s_used_zone_pos s = false) as (Epos & Eguess & Eused).
  { unfold s, first_window. destruct (Z.leb_spec 0 start_lcn); [|lia]. repeat case_match; done. }
  destruct fuel as [|fuel]; [lia|]. cbn [alloc_loop]. rewrite Hfull, Epos, shiftr3, land7, land_lnot7.
  set (p := start_lcn / 8). assert (0 <= p /\ start_lcn mod 8 + 8 * p = start_lcn) as [Hp Hpm] by (unfold p; dlia).
  rewrite attr_pread_law by (done || unfold NTFS_LCNALLOC_BSIZE; lia). fold D0.
  set (buf := sub D0 p NTFS_LCNALLOC_BSIZE).
  assert (p < zlen D0) as Hpz by dlia.
  assert (zlen buf = Z.min NTFS_LCNALLOC_BSIZE (zlen D0 - p)) as Hzb.
  { unfold buf, sub, zlen, NTFS_LCNALLOC_BSIZE in *. rewrite length_take, length_drop. lia. }
  assert (0 < zlen buf) as Hn by (unfold NTFS_LCNALLOC_BSIZE in *; lia).
  destruct buf as [|b0 buf0] eqn:Ebuf; [done|]. rewrite <- Ebuf in *.
  set (w0 := mkwin vol (mklist [] 0 0 0 count) (s_guess s) buf false).
  assert (win_ok D0 start_vcn count vol p (zlen buf) w0) as Hw.
  { split; cbn [w_vol w_list w_buf w_writeback w0 l_rl]; change (clusters []) with (@nil Z).
    - unfold free_left. rewrite zlen_nil, Z.sub_0_r. rewrite <- vk_free0. by destruct vol.
    - split; cbn [l_rl l_clusters]; change (clusters []) with (@nil Z); rewrite ?zlen_nil; try (by auto); try lia.
      cbn. lia.
    - split; [constructor|]. intros c Hc. by apply not_elem_of_nil in Hc.
    - done.
    - apply sub_shows; [done|done|unfold buf, NTFS_LCNALLOC_BSIZE in *; lia|unfold buf, NTFS_LCNALLOC_BSIZE in *; lia|by apply marked_id].
    - intros i Hi _. by apply marked_id.
    - intros _. by apply marked_id. }
  destruct (window_hint realloc Hread D0 start_vcn count start_lcn vk_bytes0 vk_size0 ltac:(lia) Hre Hlcn
    (Z.to_nat (8 * zlen buf + 3)) vol p (zlen buf) 0 (start_lcn mod 8) w0 Hw)
    as (w & c & -> & Hw' & Hh); try done; try lia; try dlia.
  pose proof (hinted_clusters start_vcn start_lcn Hlcn count _ ltac:(lia) Hh) as Ecl.
  destruct Hh as [Erl _]. destruct (Z.eqb_spec count 0); [lia|].
  pose proof Hw' as []. rewrite Eused.
  rewrite (terminate_ok start_vcn count) by (done || by rewrite Erl).
  destruct (writeback_ok realloc Hread D0 start_vcn count vk_bytes0 vk_size0 ltac:(lia) vol p (zlen buf) w (w_vol w) Hw')
    as (na & -> & Hok & Hmk); try done; try lia; [by rewrite wo_vol0|].
  exists na. rewrite Ecl, zlen_seqZ, Erl in * by lia. split; [|done]. rewrite wo_vol0. unfold free_left.
  rewrite zlen_seqZ, <- vk_free0 by lia. done.
Qed.

(** ** Witnesses *)

Lemma ex_volume_ok : volume_ok ex_volume.
Proof. split; [done|repeat constructor; lia|done|by vm_compute|by split]. Qed.

Lemma cluster_alloc_all_or_nothing_witness :
  exists vol' out, ntfs_cluster_alloc (fun _ => true) (fun _ => true) (full_heap (mkrun 0 0 0)) 900 ex_volume 100 19 (-1) DATA_ZONE
      = (vol', out) /\ free_clusters vol' = zlen (free_bits (lcnbmp_na vol')).
Proof.
  destruct (cluster_alloc_all_or_nothing (fun _ => true) (fun _ => true) (full_heap (mkrun 0 0 0)) 900 ex_volume 100 19 (-1) DATA_ZONE)
    as (vol' & out & E & Hf & _); [done|done|apply readable_full|exact ex_volume_ok|lia|lia|by right|by vm_compute|].
  exists vol', out. split; [exact E|exact Hf].
Defined.

(** The block of the run list grows by [realloc], which reads behind the old block. *)
Example ex_grow_overread :
  grow (Heap (fun _ => true) (fun _ _ => [])) (mklist (replicate 169 (mkrun 0 0 1)) 4096 0 1 5) = Fault.
Proof. by vm_compute. Qed.

(** Three windows of one range each. *)
Example ex_alloc_19 :
  (ntfs_cluster_alloc (fun _ => true) (fun _ => true) (full_heap (mkrun 0 0 0)) 900 ex_volume 100 19 (-1) DATA_ZONE).2 =
  Ret [mkrun 100 12 8; mkrun 108 36 8; mkrun 116 60 3; mkrun 119 LCN_RL_NOT_MAPPED 0].
Proof. by vm_compute. Qed.

(** 28 of 28 free clusters are refused: each pass over a zone takes one range
    of each window only. *)
Example ex_fragmented_enospc :
  let vol := mkvol [0xff; 0x0f; 0xff; 0x0f; 0xff; 0x0f; 0xff; 0x0f; 0xff; 0x0f; 0xff; 0x0f; 0xff; 0x0f]
               112 28 4 4 8 4 8 0 0 in
  (ntfs_cluster_alloc (fun _ => true) (fun _ => true) (full_heap (mkrun 0 0 0)) 2000 vol 0 28 (-1) DATA_ZONE).2 = Fail ENOSPC.
Proof. by vm_compute. Qed.

Lemma cluster_alloc_hint_witness :
  exists na, ntfs_cluster_alloc (fun _ => true) (fun _ => true) (full_heap (mkrun 0 0 0)) 1 ex_volume 0 5 37 DATA_ZONE =
    (set_bmp na (set_free 19 ex_volume), Ret [mkrun 0 37 5; mkrun 5 LCN_RL_NOT_MAPPED 0]).
Proof.
  destruct (cluster_alloc_hint (fun _ => true) (fun _ => true) (full_heap (mkrun 0 0 0)) 1 ex_volume 0 5 37 DATA_ZONE)
    as (na & E & _); [done|done|apply readable_full|exact ex_volume_ok|lia|lia|lia|by right|by vm_compute|by vm_compute| |by vm_compute|].
  - intros i Hi. assert (i = 37 \/ i = 38 \/ i = 39 \/ i = 40 \/ i = 41) as Hi' by (cbn in Hi; lia).
    by destruct Hi' as [-> |[-> |[-> |[-> | ->]]]]; vm_compute.
  - exists na. exact E.
Defined.
