(* ===== verification/LcnallocFree.v ===== *)
(** * Correctness of freeing clusters (ntfs/lcnalloc.c) *)
From S2P Require Import Prelude Libc Runlist Bitmap Lcnalloc LcnallocProofs.

(** ** Freeing the clusters of an attribute *)

(** The clusters of the volume behind the virtual clusters [s .. e). *)
Definition backing (l : runlist) (s e : Z) : list Z :=
  omap (fun v => match find_lcn l v with Some c => if 0 <=? c then Some c else None | None => None end)
    (seqZ s (e - s)).

Lemma backing_app l s m e : s <= m <= e -> backing l s e = backing l s m ++ backing l m e.
Proof.
  intros. unfold backing. rewrite <- omap_app. f_equal.
  replace (e - s) with ((m - s) + (e - m)) by lia. rewrite seqZ_app by lia.
  by replace (s + (m - s)) with m by lia.
Qed.

Lemma backing_nil l s : backing l s s = [].
Proof. unfold backing. by rewrite Z.sub_diag. Qed.

Lemma backing_ext l k s e : (forall v, s <= v < e -> find_lcn l v = find_lcn k v) -> backing l s e = backing k s e.
Proof. intros H. apply list_omap_ext, Forall_Forall2_diag, Forall_forall. intros v Hv%elem_of_seqZ. by rewrite H by lia. Qed.

(** Inside of one run. *)
Lemma backing_run r l s n :
  vcn r <= s -> 0 <= n -> s + n <= vcn r + rlen r ->
  backing (r :: l) s (s + n) = if 0 <=? lcn r then seqZ (lcn r + (s - vcn r)) n else [].
Proof.
  intros Hs Hn. rewrite <- (Z2Nat.id n) by done. generalize (Z.to_nat n) as k. clear n Hn.
  induction k as [|k IH]; intros He.
  - rewrite Z.add_0_r, backing_nil. by case_match.
  - replace (s + Z.of_nat (S k)) with (s + Z.of_nat k + 1) by lia.
    rewrite (backing_app _ _ (s + Z.of_nat k)), IH by lia. unfold backing.
    replace (s + Z.of_nat k + 1 - (s + Z.of_nat k)) with 1 by lia.
    change (seqZ (s + Z.of_nat k) 1) with [0 + (s + Z.of_nat k)]. cbn [omap list_omap find_lcn]. rewrite Z.add_0_l.
    assert (in_run r (s + Z.of_nat k) = true) as -> by (apply in_run_true; lia). unfold run_lcn.
    destruct (Z.leb_spec 0 (lcn r)).
    + destruct (Z.leb_spec 0 (lcn r + (s + Z.of_nat k - vcn r))); [|lia].
      replace (Z.of_nat (S k)) with (Z.of_nat k + 1) by lia. rewrite seqZ_app by lia. f_equal.
      change (seqZ (lcn r + (s - vcn r) + Z.of_nat k) 1) with [0 + (lcn r + (s - vcn r) + Z.of_nat k)]. f_equal. lia.
    + destruct (Z.leb_spec 0 (lcn r)); [lia|done].
Qed.

Lemma backing_skip r l s e : vcn r + rlen r <= s -> backing (r :: l) s e = backing l s e.
Proof.
  intros Hs. apply backing_ext. intros v Hv. cbn. destruct (in_run r v) eqn:E; [|done].
  apply in_run_true in E. lia.
Qed.

Lemma backing_prefix v0 l1 l2 m s e : contig v0 l1 m -> m <= s -> backing (l1 ++ l2) s e = backing l2 s e.
Proof.
  intros Hc Hs. apply backing_ext. intros v Hv. rewrite find_lcn_app.
  rewrite (find_lcn_out v0 l1 m) by (done || lia). done.
Qed.

(** [D'] is [D] with the clusters [F] free. *)
Definition cleared (D : bytes) (F : list Z) (D' : bytes) : Prop :=
  zlen D' = zlen D /\ Forall byte_ok D' /\
  forall i, 0 <= i -> bit_at D' i = bit_at D i && negb (bool_decide (i ∈ F)).

Lemma cleared_nil D : Forall byte_ok D -> cleared D [] D.
Proof.
  intros. unfold cleared. split_and!; [done|done|]. intros.
  rewrite bool_decide_false by apply not_elem_of_nil. by rewrite andb_true_r.
Qed.

Lemma cleared_app D F D' G D'' : cleared D F D' -> cleared D' G D'' -> cleared D (F ++ G) D''.
Proof.
  intros (Hz & _ & Hb) (Hz' & HB & Hb'). unfold cleared. split_and!; [lia|done|]. intros i Hi.
  rewrite Hb', Hb by done. rewrite <- andb_assoc, <- negb_orb. do 2 f_equal.
  rewrite <- bool_decide_or. apply bool_decide_ext. symmetry. apply elem_of_app.
Qed.

(** A run of an attribute: a hole or clusters of the volume. *)
Definition freeable (D : bytes) (r : run) : Prop :=
  lcn r = LCN_HOLE \/ 0 <= lcn r /\ lcn r + rlen r <= 8 * zlen D.

Section FreeLaws.
Context {A : Type} {io : attr_io A} {laws : attr_io_laws A} (bm_malloc : Z -> bool).
Context (Hmalloc : forall n, bm_malloc n = true).

Lemma free_range_ok (vol : volume A) c n :
  let D := attr_bytes (lcnbmp_na vol) in
  attr_ok (lcnbmp_na vol) -> Forall byte_ok D -> zlen D < 2 ^ 31 - 1 ->
  0 <= c -> 0 <= n -> c + n <= 8 * zlen D ->
  exists vol', free_range bm_malloc vol c n = (vol', Ret tt) /\ attr_ok (lcnbmp_na vol') /\
    cleared D (seqZ c n) (attr_bytes (lcnbmp_na vol')) /\ free_clusters vol' = free_clusters vol.
Proof using All.
  intros D Hok HB H31 Hc Hn Hend. unfold free_range, ntfs_bitmap_clear_run.
  destruct (update_full_status_frame vol c) as (Ena & Efr & _). rewrite Ena.
  destruct (set_bits_in_run_ok bm_malloc D c n false) with (na := lcnbmp_na vol)
    as (na & -> & Hok' & Hz & HB' & Hb); [lia..|done|done|done|done|].
  eexists. split_and!; [done|done| |done]. cbn. unfold cleared. split_and!; [done|done|]. intros i Hi. rewrite Hb by done.
  unfold run_bits. destruct (Z.leb_spec c i), (Z.ltb_spec i (c + n)); cbn [andb].
  1:{ rewrite bool_decide_true by (apply elem_of_seqZ; lia). by rewrite andb_false_r. }
  all: rewrite bool_decide_false by (rewrite elem_of_seqZ; lia); by rewrite andb_true_r.
Qed.

(** What is left to free after [n] clusters. *)
Definition less_ok (count v e : Z) : Prop := count = -1 \/ 0 <= count <= e - v.
Definition free_end (count v e : Z) : Z := if count =? -1 then e else v + count.

(** One run from cluster [s] on. *)
Lemma cap_ok count s e r :
  less_ok count s e -> vcn r <= s <= vcn r + rlen r -> vcn r + rlen r <= e ->
  let n := cap count (vcn r + rlen r - s) in
  0 <= n <= vcn r + rlen r - s /\ s + n <= free_end count s e /\
  less_ok (less count n) (s + n) e /\ free_end (less count n) (s + n) e = free_end count s e /\
  (s + n = vcn r + rlen r \/ less count n = 0) /\ (less count n = -1 <-> count = -1).
Proof.
  intros H Hs He n. unfold n, cap, less, less_ok, free_end in *.
  destruct (Z.leb_spec 0 count), (Z.ltb_spec count (vcn r + rlen r - s)), (Z.eqb_spec count (-1)); cbn [andb];
    split_and!; try lia;
  match goal with |- context [?a =? -1] => destruct (Z.eqb_spec a (-1)); lia | _ => idtac end.
Qed.

(** The clusters of [r] from [s] on: a hole is passed over. *)
Lemma free_run_ok (vol : volume A) r l s n :
  let D := attr_bytes (lcnbmp_na vol) in
  attr_ok (lcnbmp_na vol) -> Forall byte_ok D -> zlen D < 2 ^ 31 - 1 -> freeable D r ->
  vcn r <= s -> 0 <= n -> s + n <= vcn r + rlen r ->
  exists vol', (if negb (lcn r =? LCN_HOLE) then free_range bm_malloc vol (lcn r + (s - vcn r)) n else (vol, Ret tt))
      = (vol', Ret tt) /\ attr_ok (lcnbmp_na vol') /\
    cleared D (backing (r :: l) s (s + n)) (attr_bytes (lcnbmp_na vol')) /\ free_clusters vol' = free_clusters vol /\
    zlen (backing (r :: l) s (s + n)) = if negb (lcn r =? LCN_HOLE) then n else 0.
Proof using All.
  intros D Hok HB H31 Hr Hs Hn He. subst D. rewrite backing_run by done. unfold freeable, LCN_HOLE in *.
  destruct (Z.eqb_spec (lcn r) (-1)) as [E|E]; cbn [negb].
  - rewrite E. cbn [Z.leb Z.compare]. exists vol. split_and!; try done. by apply cleared_nil.
  - destruct Hr as [|[Hr1 Hr2]]; [done|]. destruct (Z.leb_spec 0 (lcn r)); [|lia].
    destruct (free_range_ok vol (lcn r + (s - vcn r)) n) as (vol' & -> & H1 & H2 & H3); try done; try lia.
    exists vol'. split_and!; try done. rewrite zlen_seqZ; lia.
Qed.

Lemma freeable_cleared D F D' r : cleared D F D' -> freeable D r -> freeable D' r.
Proof. intros (Hz & _) H. unfold freeable in *. by rewrite Hz. Qed.

Lemma free_rest_ok (vol : volume A) l t pad v e count nr :
  let D := attr_bytes (lcnbmp_na vol) in
  attr_ok (lcnbmp_na vol) -> Forall byte_ok D -> zlen D < 2 ^ 31 - 1 -> Forall (freeable D) l ->
  contig v l e -> rlen t = 0 -> less_ok count v e ->
  let F := backing l v (free_end count v e) in
  exists vol', free_rest bm_malloc vol (l ++ t :: pad) count nr =
      (vol', nr + zlen F, Ret (if count =? -1 then -1 else 0)) /\
    cleared D F (attr_bytes (lcnbmp_na vol')) /\ free_clusters vol' = free_clusters vol.
Proof using All.
  cbn zeta. revert vol v count nr. induction l as [|r l IH]; intros vol v count nr Hok HB H31 Hl Hc Ht Hcount.
  - cbn in Hc. subst v. cbn [app free_rest]. rewrite Ht. cbn [Z.eqb orb].
    assert (free_end count e e = e /\ (if count =? -1 then -1 else 0) = count) as [-> ->].
    { unfold free_end, less_ok in *. destruct (Z.eqb_spec count (-1)); lia. }
    rewrite backing_nil. exists vol. split_and!; [by rewrite Z.add_0_r|by apply cleared_nil|done].
  - destruct Hc as (Hv & Hn & Hc). pose proof (contig_le _ _ _ Hc). apply Forall_cons in Hl as [Hr Hl].
    cbn [app free_rest]. destruct (Z.eqb_spec (rlen r) 0) as [|_]; [lia|]. cbn [orb].
    destruct (Z.eqb_spec count 0) as [->|Hc0].
    { unfold free_end. cbn [Z.eqb]. rewrite Z.add_0_r, backing_nil. exists vol.
      split_and!; [by rewrite Z.add_0_r|by apply cleared_nil|done]. }
    assert ((lcn r <? 0) && negb (lcn r =? LCN_HOLE) = false) as ->.
    { unfold LCN_HOLE. destruct Hr as [-> |[? _]]; [done|]. destruct (Z.ltb_spec (lcn r) 0); [lia|done]. }
    destruct (cap_ok count v e r) as (H1 & H2 & H3 & H4 & H5 & H6); [done|lia|lia|].
    replace (vcn r + rlen r - v) with (rlen r) in * by lia. set (n := cap count (rlen r)) in *.
    destruct (free_run_ok vol r l v n Hok HB H31 Hr) as (vol1 & E & Hok1 & Hc1 & Hf1 & Hz1); [lia|lia|lia|].
    replace (lcn r + (v - vcn r)) with (lcn r) in E by lia.
    assert (exists vol', free_rest bm_malloc vol1 (l ++ t :: pad) (less count n) (nr + zlen (backing (r :: l) v (v + n))) =
        (vol', nr + zlen (backing (r :: l) v (free_end count v e)), Ret (if count =? -1 then -1 else 0)) /\
      cleared (attr_bytes (lcnbmp_na vol)) (backing (r :: l) v (free_end count v e)) (attr_bytes (lcnbmp_na vol')) /\
      free_clusters vol' = free_clusters vol) as (vol' & E' & Hc' & Hf').
    { rewrite (backing_app (r :: l) v (v + n) (free_end count v e)), zlen_app by lia.
      destruct H5 as [H5|H5].
      - rewrite Hv in H5. rewrite <- H5 in Hc.
        destruct (IH vol1 (v + n) (less count n) (nr + zlen (backing (r :: l) v (v + n)))) as (vol' & E' & Hc' & Hf');
          try done.
        { by destruct Hc1 as (_ & ? & _). }
        { destruct Hc1 as [-> _]. done. }
        { eapply Forall_impl; [exact Hl|]. intros x. by apply (freeable_cleared _ _ _ _ Hc1). }
        rewrite H4 in E', Hc'. exists vol'. rewrite E', (backing_skip r l (v + n)) by lia. split_and!.
        + f_equal; [f_equal; lia|]. destruct (Z.eqb_spec (less count n) (-1)), (Z.eqb_spec count (-1)); tauto || done.
        + by eapply cleared_app.
        + by rewrite Hf'.
      - assert (free_end count v e = v + n) as ->.
        { unfold free_end in H4 at 1. rewrite H5 in H4. cbn in H4. lia. }
        rewrite backing_nil, app_nil_r. rewrite H5. exists vol1. split_and!; try done.
        destruct (Z.eqb_spec count (-1)); [lia|]. change (zlen (@nil Z)) with 0. rewrite Z.add_0_r.
        destruct l as [|q l]; cbn [app free_rest].
        + rewrite Ht. done.
        + by rewrite orb_true_r. }
    exists vol'. split_and!; [|done|done]. rewrite <- E'. destruct (negb (lcn r =? LCN_HOLE)).
    + rewrite E, Hz1. done.
    + rewrite Hz1, Z.add_0_r. by injection E as ->.
Qed.
End FreeLaws.

(** An attribute whose run list is mapped: [an_runs], from cluster 0 on, and
    its terminator. *)
Class attr_runs_laws (N : Type) `{attr_runs N} := {
  an_ok : N -> Prop;
  an_runs : N -> runlist;
  an_end : N -> run;
  an_contig : forall na, an_ok na -> contig 0 (an_runs na) (vcn (an_end na)) /\ rlen (an_end na) = 0;
  an_find : forall na v, an_ok na -> 0 <= v < vcn (an_end na) ->
    exists na' l1 r l2 pad, attr_find_vcn na v = (na', Ret (r :: l2 ++ an_end na :: pad)) /\
      an_runs na = l1 ++ r :: l2 /\ in_run r v = true;
}.

(** C37. [ntfs_cluster_free] clears the bits of exactly the clusters that back
    the virtual clusters from [start_vcn] on - [count] of them or, for -1, all
    to the end -, holes are passed over, no other bit changes, [free_clusters]
    grows by their number and this number is returned, cut to an [int]. *)
Theorem cluster_free_spec {A} {io : attr_io A} {laws : attr_io_laws A} {N} {ar : attr_runs N} {arl : attr_runs_laws N}
    bm_malloc (vol : volume A) (na : N) start_vcn count :
  let D := attr_bytes (lcnbmp_na vol) in
  (forall n, bm_malloc n = true) -> attr_ok (lcnbmp_na vol) -> Forall byte_ok D -> zlen D < 2 ^ 31 - 1 ->
  an_ok na -> Forall (freeable D) (an_runs na) -> 0 <= start_vcn < vcn (an_end na) ->
  count = -1 \/ 0 <= count <= vcn (an_end na) - start_vcn ->
  let F := backing (an_runs na) start_vcn (if count =? -1 then vcn (an_end na) else start_vcn + count) in
  exists vol' na', ntfs_cluster_free bm_malloc vol na start_vcn count = (vol', na', Ret (s32 (zlen F))) /\
    free_clusters vol' = free_clusters vol + zlen F /\
    zlen (attr_bytes (lcnbmp_na vol')) = zlen D /\
    forall i, 0 <= i -> bit_at (attr_bytes (lcnbmp_na vol')) i = bit_at D i && negb (bool_decide (i ∈ F)).
Proof.
  intros D Hm Hok HB H31 Hna Hl Hs Hcount F. unfold ntfs_cluster_free.
  destruct (Z.ltb_spec start_vcn 0); [lia|]. cbn [orb].
  assert ((count <? 0) && negb (count =? -1) = false) as ->.
  { destruct (Z.ltb_spec count 0), (Z.eqb_spec count (-1)); done || lia. }
  destruct (an_contig na Hna) as [Hc Ht].
  destruct (an_find na start_vcn Hna Hs) as (na' & l1 & r & l2 & pad & -> & El & Hin). apply in_run_true in Hin.
  unfold F in *. rewrite El in *. apply contig_app in Hc as (m & Hc1 & Hc2). destruct Hc2 as (Hv & Hn & Hc2).
  apply Forall_app in Hl as [_ Hl]. apply Forall_cons in Hl as [Hr Hl]. pose proof (contig_le _ _ _ Hc2) as Hle.
  assert ((lcn r <? 0) && negb (lcn r =? LCN_HOLE) = false) as ->.
  { unfold LCN_HOLE. destruct Hr as [-> |[? _]]; [done|]. destruct (Z.ltb_spec (lcn r) 0); [lia|done]. }
  rewrite (backing_prefix 0 l1 (r :: l2) m) by (done || lia).
  set (e := vcn (an_end na)) in *. change (if count =? -1 then e else start_vcn + count) with (free_end count start_vcn e).
  destruct (cap_ok count start_vcn e r) as (H1 & H2 & H3 & H4 & H5 & H6); [done|lia|lia|].
  replace (rlen r - (start_vcn - vcn r)) with (vcn r + rlen r - start_vcn) by lia.
  set (n := cap count _) in *.
  destruct (free_run_ok bm_malloc Hm vol r l2 start_vcn n Hok HB H31 Hr) as (vol1 & E & Hok1 & Hcl1 & Hf1 & Hz1);
    [lia|lia|lia|].
  rewrite E. rewrite (backing_app (r :: l2) start_vcn (start_vcn + n) (free_end count start_vcn e)), zlen_app by lia.
  assert (exists vol2, free_rest bm_malloc vol1 (l2 ++ an_end na :: pad) (less count n)
      (zlen (backing (r :: l2) start_vcn (start_vcn + n))) =
      (vol2, zlen (backing (r :: l2) start_vcn (start_vcn + n)) +
         zlen (backing (r :: l2) (start_vcn + n) (free_end count start_vcn e)), Ret (if less count n =? -1 then -1 else 0)) /\
    cleared (attr_bytes (lcnbmp_na vol1)) (backing (r :: l2) (start_vcn + n) (free_end count start_vcn e))
      (attr_bytes (lcnbmp_na vol2)) /\ free_clusters vol2 = free_clusters vol1) as (vol2 & E2 & Hcl2 & Hf2).
  { destruct H5 as [H5|H5].
    - rewrite H5, (backing_skip r l2 (vcn r + rlen r)), <- H4, H5 by lia. replace (vcn r + rlen r) with (m + rlen r) in * by lia. rewrite H5 in H3.
      apply free_rest_ok; try done.
      + by destruct Hcl1 as (_ & ? & _).
      + by destruct Hcl1 as [-> _].
      + eapply Forall_impl; [exact Hl|]. intros x. by apply (freeable_cleared _ _ _ _ Hcl1).
    - assert (free_end count start_vcn e = start_vcn + n) as ->.
      { unfold free_end in H4 at 1. rewrite H5 in H4. cbn in H4. lia. }
      rewrite backing_nil, H5. exists vol1. split_and!; [|apply cleared_nil; by destruct Hcl1 as (_ & ? & _)|done].
      change (zlen (@nil Z)) with 0. rewrite Z.add_0_r. destruct l2 as [|q l2]; cbn [app free_rest].
      + by rewrite Ht.
      + by rewrite orb_true_r. }
  rewrite <- Hz1, E2. eexists _, _. split_and!.
  - destruct (Z.eqb_spec (less count n) (-1)); done.
  - cbn. lia.
  - cbn. destruct Hcl1 as [Hz' _], Hcl2 as [-> _]. done.
  - cbn. by destruct (cleared_app _ _ _ _ _ Hcl1 Hcl2) as (_ & _ & Hb).
Qed.

(** ** Witnesses *)

(** An attribute that is its run list. *)
Fixpoint runs_from (l : runlist) (v : Z) : runlist :=
  match l with
  | [] => []
  | r :: l' => if in_run r v then l else runs_from l' v
  end.

Definition ex_attr : Type := runlist * run.

#[export] Instance mem_runs : attr_runs ex_attr := {
  attr_find_vcn na v :=
    (na, match runs_from na.1 v with [] => Fail ENOENT | l => Ret (l ++ [na.2]) end);
}.

Lemma runs_from_in l v0 e v :
  contig v0 l e -> v0 <= v < e ->
  exists l1 r l2, l = l1 ++ r :: l2 /\ runs_from l v = r :: l2 /\ in_run r v = true.
Proof.
  revert v0. induction l as [|r l IH]; intros v0; cbn [contig runs_from]; [lia|].
  intros (Hv & Hn & Hc) Hin. destruct (in_run r v) eqn:E.
  - by exists [], r, l.
  - apply in_run_false in E. destruct (IH (v0 + rlen r)) as (l1 & q & l2 & -> & Hr & Hq); [done|lia|].
    by exists (r :: l1), q, l2.
Qed.

#[export] Instance mem_runs_laws : attr_runs_laws ex_attr.
Proof.
  refine (@Build_attr_runs_laws ex_attr mem_runs
    (fun na => contig 0 na.1 (vcn na.2) /\ rlen na.2 = 0) fst snd (fun na H => H) _).
  intros na v [Hc _] Hv. destruct (runs_from_in _ _ _ _ Hc Hv) as (l1 & r & l2 & El & Er & Hin).
  exists na, l1, r, l2, []. cbn. rewrite Er. done.
Defined.

Definition ex_na : ex_attr := ([mkrun 0 2 4; mkrun 4 LCN_HOLE 3; mkrun 7 24 6], mkrun 13 LCN_ENOENT 0).

Lemma cluster_free_spec_witness :
  exists vol' na', ntfs_cluster_free (fun _ => true) ex_volume ex_na 2 8 = (vol', na', Ret 5) /\
    free_clusters vol' = 29 /\ bit_at (lcnbmp_na vol') 3 = true /\ bit_at (lcnbmp_na vol') 4 = false /\
    bit_at (lcnbmp_na vol') 26 = false /\ bit_at (lcnbmp_na vol') 27 = true.
Proof.
  destruct (cluster_free_spec (fun _ => true) ex_volume ex_na 2 8) as (vol' & na' & E & Hf & _ & Hb);
    [done|done|repeat constructor; lia|by vm_compute|by split| |by cbn; lia|right; cbn; lia|].
  - change (an_runs ex_na) with ex_na.1. cbn [ex_na fst]. rewrite !Forall_cons, Forall_nil.
    unfold freeable, LCN_HOLE. change (zlen (attr_bytes (lcnbmp_na ex_volume))) with 9. cbn. lia.
  - exists vol', na'. split_and!; [exact E|exact Hf|by rewrite Hb..].
Defined.
