(* ===== verification/Compress.v ===== *)
(** * Compressed attributes (ntfs/compress.c)

    The LZNT1 codec: a compression block is a sequence of sub-blocks of 4 KiB,
    each with a header of two bytes and groups of eight tokens behind a tag
    byte; a token is a byte or a phrase, the distance and length of an earlier
    occurrence whose split in 16 bits depends on the position.  The encoder
    finds the occurrences with binary trees over the positions met so far. *)
From S2P Require Import Prelude Runlist Device Lcnalloc.

(** compress.c:72-82 NTFS_SB_SIZE *)
Definition NTFS_SYMBOL_TOKEN : Z := 0.
Definition NTFS_TOKEN_MASK : Z := 1.
Definition NTFS_SB_SIZE_MASK : Z := 0x0fff.
Definition NTFS_SB_SIZE : Z := 0x1000.
Definition NTFS_SB_IS_COMPRESSED : Z := 0x8000.

(** compress.c:67-67 le16_to_cpup *)
Definition le16_to_cpup (b : bytes) (i : Z) : outcome Z :=
  let! lo := rd b i in let! hi := rd b (i + 1) in Ret (lo + Z.shiftl hi 8).

(** ** The encoder *)

(** compress.c:84-93 COMPRESS_CONTEXT. The arrays and results; the text and
    its size are arguments. *)
Record context := mkctx {
  c_size : Z;
  c_rel : Z;
  c_mxsz : Z;
  c_head : list Z;
  c_lson : list Z;
  c_rson : list Z;
}.

Section BestMatch.
Context (inbuf : bytes) (i maxpos : Z).

(** [p1[j]] and, for a [node], [p2[j]]. *)
Definition p1_at (j : Z) : outcome Z := rd inbuf (maxpos + j).
Definition p2_at (node j : Z) : outcome Z := rd inbuf (maxpos + node - i + j).

(** compress.c:143-145 ntfs_best_match. The loop with an empty body. *)
Fixpoint extend (fuel : nat) (node j : Z) : outcome Z :=
  match fuel with
  | O => Fault
  | S fuel' =>
    let! a := p1_at j in let! b := p2_at node j in
    if a =? b then (if j + 1 <? 0 then extend fuel' node (j + 1) else Ret (j + 1)) else Ret j
  end.

(** compress.c:135-147 ntfs_best_match. How far the text at [node] agrees. *)
Definition match_len (startj node : Z) : outcome Z :=
  let! a := p1_at startj in let! b := p2_at node startj in
  if a =? b then
    if startj + 1 <? 0 then extend (Z.to_nat (- (startj + 1))) node (startj + 1) else Ret (startj + 1)
  else Ret startj.

(** compress.c:134-163 ntfs_best_match. The walk down the tree: the best match
    and the sons.  Sons are later positions than their fathers, so that it ends
    after less than [i] nodes. *)
Fixpoint walk (fuel : nat) (startj node bestj bestnode : Z) (lson rson : list Z)
  : outcome (Z * Z * list Z * list Z) :=
  match fuel with
  | O => Fault
  | S fuel' =>
    let! j := match_len startj node in
    let '(bestj, bestnode) := if bestj <? j then (j, node) else (bestj, bestnode) in
    let! go_left := (if j <? 0 then let! a := p1_at j in let! b := p2_at node j in Ret (a <? b) else Ret false) in
    let! next := rd (if go_left : bool then lson else rson) node in
    if (0 <=? next) && (j <? 0) then walk fuel' startj next bestj bestnode lson rson
    else if next <? 0 then
      let! prev := wr (if go_left : bool then lson else rson) node (s16 i) in
      Ret (if go_left : bool then (bestj, bestnode, prev, rson) else (bestj, bestnode, lson, prev))
    else Ret (bestj, bestnode, lson, rson)
  end.
End BestMatch.

(** compress.c:107-174 ntfs_best_match *)
Definition ntfs_best_match (inbuf : bytes) (bufsize : Z) (c : context) (i : Z) : outcome context :=
  let! b := rd inbuf i in
  let! node := rd (c_head c) (Z.land b 255) in
  if 0 <=? node then
    let maxpos := if i + c_mxsz c <? bufsize then i + c_mxsz c else bufsize in
    let startj := i + 1 - maxpos in
    let! r := (if startj <? 0 then
                 walk inbuf i maxpos (Z.to_nat (i + 1)) startj node startj node (c_lson c) (c_rson c)
               else Ret (startj, node, c_lson c, c_rson c)) in
    let '(bestj, bestnode, lson, rson) := r in
    Ret (mkctx (bestj + maxpos - i) (bestnode - i) (c_mxsz c) (c_head c) lson rson)
  else
    let! head := wr (c_head c) (Z.land b 255) (s16 i) in
    Ret (mkctx 0 0 (c_mxsz c) head (c_lson c) (c_rson c)).

(** The variables of the main loop of [ntfs_compress_block]. *)
Record encoder := mkenc {
  e_ctx : context;
  e_i : Z;
  e_bp : Z;
  e_mxoff : Z;
  e_done : Z;
  e_out : bytes;
  e_xout : Z;
  e_ptag : Z;
  e_tag : Z;
  e_ntag : Z;
}.

Definition set_mxsz (m : Z) (c : context) : context :=
  mkctx (c_size c) (c_rel c) m (c_head c) (c_lson c) (c_rson c).

(** compress.c:230-234 ntfs_compress_block. The split of the phrases at
    position [i]; [mxoff] doubles each time and [i < 2^12]. *)
Fixpoint adjust (fuel : nat) (i bp mxoff mxsz : Z) : Z * Z * Z :=
  match fuel with
  | O => (bp, mxoff, mxsz)
  | S fuel' =>
    if mxoff <? i then adjust fuel' i (bp + 1) (Z.shiftl mxoff 1) (Z.shiftr (mxsz + 2) 1)
    else (bp, mxoff, mxsz)
  end.

(** compress.c:236-239 ntfs_compress_block. The positions up to [i] join the
    trees. *)
Fixpoint search_upto (fuel : nat) (inbuf : bytes) (bufsize i : Z) (c : context) (done : Z)
  : outcome (context * Z) :=
  match fuel with
  | O => Fault
  | S fuel' =>
    let! c := ntfs_best_match inbuf bufsize c (done + 1) in
    if done + 1 <? i then search_upto fuel' inbuf bufsize i c (done + 1) else Ret (c, done + 1)
  end.

(** compress.c:236-270 ntfs_compress_block. One token: the encoder with the
    bytes of the token stored. *)
Definition emit_token (inbuf : bytes) (bufsize : Z) (s : encoder) : outcome encoder :=
  let i := e_i s in
  let! cd := (if e_done s <? i
              then search_upto (Z.to_nat (i - e_done s)) inbuf bufsize i (e_ctx s) (e_done s)
              else Ret (e_ctx s, e_done s)) in
  let '(c, done) := cd in
  let j := i + c_size c in
  let j := if c_mxsz c <? j - i then i + c_mxsz c else j in
  let literal c done :=
    let! b := rd inbuf i in
    let! out := wr (e_out s) (e_xout s) b in
    Ret (mkenc c (i + 1) (e_bp s) (e_mxoff s) done out (e_xout s + 1) (e_ptag s) (e_tag s) (e_ntag s)) in
  if 2 <? j - i then
    let offs := c_rel c in
    let! c := ntfs_best_match inbuf bufsize c (i + 1) in
    let k := i + 1 + c_size c in
    let mxsz2 := if e_mxoff s <=? i then Z.shiftr (c_mxsz c + 2) 1 else c_mxsz c in
    let k := if mxsz2 <? k - i then i + mxsz2 else k in
    if j + 1 <? k then literal c (i + 1)
    else
      let q := u32 (Z.shiftl (Z.lnot offs) (16 - e_bp s) + (j - i - 3)) in
      let! out := wr (e_out s) (e_xout s) (Z.land q 255) in
      let! out := wr out (e_xout s + 1) (Z.land (Z.shiftr q 8) 255) in
      Ret (mkenc c j (e_bp s) (e_mxoff s) (i + 1) out (e_xout s + 2) (e_ptag s)
             (Z.lor (e_tag s) (Z.shiftl 1 (8 - e_ntag s))) (e_ntag s))
  else literal c done.

(** compress.c:271-277 ntfs_compress_block. The tag is stored when it is full
    and the place of the next one is reserved. *)
Definition store_tag (s : encoder) : outcome encoder :=
  if e_ntag s - 1 =? 0 then
    let! out := wr (e_out s) (e_ptag s) (u8 (e_tag s)) in
    Ret (mkenc (e_ctx s) (e_i s) (e_bp s) (e_mxoff s) (e_done s) out (e_xout s + 1) (e_xout s) 0 8)
  else Ret (mkenc (e_ctx s) (e_i s) (e_bp s) (e_mxoff s) (e_done s) (e_out s) (e_xout s) (e_ptag s)
              (e_tag s) (e_ntag s - 1)).

(** compress.c:228-278 ntfs_compress_block. The main loop: every round passes
    over at least one byte of the text. *)
Fixpoint encode_loop (fuel : nat) (inbuf : bytes) (bufsize : Z) (s : encoder) : outcome encoder :=
  match fuel with
  | O => Fault
  | S fuel' =>
    if (e_i s <? bufsize) && (e_xout s <? NTFS_SB_SIZE + 2) then
      let '(bp, mxoff, mxsz) := adjust 16 (e_i s) (e_bp s) (e_mxoff s) (c_mxsz (e_ctx s)) in
      let! s := emit_token inbuf bufsize
                  (mkenc (set_mxsz mxsz (e_ctx s)) (e_i s) bp mxoff (e_done s) (e_out s) (e_xout s)
                     (e_ptag s) (e_tag s) (e_ntag s)) in
      let! s := store_tag s in
      encode_loop fuel' inbuf bufsize s
    else Ret s
  end.

(** compress.c:279-303 ntfs_compress_block. The last tag and the header; a
    sub-block that is not made smaller is stored in full. *)
Definition finish_block (inbuf : bytes) (bufsize : Z) (s : encoder) : outcome (bytes * Z) :=
  let! ox := (if e_ntag s =? 8 then Ret (e_out s, e_xout s - 1)
              else let! out := wr (e_out s) (e_ptag s) (u8 (e_tag s)) in Ret (out, e_xout s)) in
  let '(out, xout) := ox in
  if (bufsize <=? e_i s) && (xout <? NTFS_SB_SIZE + 2) then
    let! out := wr out 0 (Z.land (xout - 3) 255) in
    let! out := wr out 1 (0xb0 + Z.land (Z.shiftr (xout - 3) 8) 15) in
    Ret (out, xout)
  else
    let! text := rdn inbuf 0 bufsize in
    let! out := wrn out 2 text in
    let! out := wrn out (bufsize + 2) (replicate (Z.to_nat (NTFS_SB_SIZE - bufsize)) 0) in
    let! out := wr out 0 0xff in
    let! out := wr out 1 0x3f in
    Ret (out, NTFS_SB_SIZE + 2).

(** compress.c:191-303 ntfs_compress_block. The output buffer and the size of
    the block. *)
Definition ntfs_compress_block (malloc : bool) (inbuf : bytes) (bufsize : Z) (outbuf : bytes)
  : outcome (bytes * Z) :=
  if malloc then
    let c := mkctx 0 0 (Z.shiftl 1 (16 - 4) + 2) (replicate 256 (-1))
               (replicate (Z.to_nat NTFS_SB_SIZE) (-1)) (replicate (Z.to_nat NTFS_SB_SIZE) (-1)) in
    let! s := encode_loop (Z.to_nat (bufsize + 1)) inbuf bufsize
                (mkenc c 0 4 (Z.shiftl 1 4) (-1) outbuf 3 2 0 8) in
    finish_block inbuf bufsize s
  else Fail ENOMEM.

(** ** The decoder *)

(** [while (length--) *dest++ = *dest_back_addr++;] *)
Fixpoint copy_bytes (n : nat) (dest : bytes) (d back : Z) : outcome bytes :=
  match n with
  | O => Ret dest
  | S n' => let! b := rd dest back in let! dest := wr dest d b in copy_bytes n' dest (d + 1) (back + 1)
  end.

(** compress.c:439-441 ntfs_decompress. [lg] of [dest - dest_sb_start - 1]. *)
Fixpoint phrase_lg (fuel : nat) (i lg : Z) : Z :=
  match fuel with
  | O => lg
  | S fuel' => if 0x10 <=? i then phrase_lg fuel' (Z.shiftr i 1) (lg + 1) else lg
  end.

(** compress.c:426-479 ntfs_decompress. A phrase token at [cb]; the position
    is [d] in the sub-block that begins at [sb] and ends at [sb_end]. *)
Definition copy_phrase (cbuf : bytes) (cb : Z) (dest : bytes) (sb sb_end d : Z) : outcome (bytes * Z) :=
  if d =? sb then Fail EOVERFLOW
  else
    let lg := phrase_lg 16 (u16 (d - sb - 1)) 0 in
    let! pt := le16_to_cpup cbuf cb in
    let back := d - Z.shiftr pt (12 - lg) - 1 in
    if back <? sb then Fail EOVERFLOW
    else
      let length := u16 (Z.land pt (Z.shiftr 0xfff lg) + 3) in
      if sb_end <? d + length then Fail EOVERFLOW
      else
        let max_non_overlap := u16 (d - back) in
        if length <=? max_non_overlap then
          let! x := rdn dest back length in
          let! dest := wrn dest d x in Ret (dest, d + length)
        else
          let! x := rdn dest back max_non_overlap in
          let! dest := wrn dest d x in
          let rest := u16 (length - max_non_overlap) in
          let! dest := copy_bytes (Z.to_nat rest) dest (d + max_non_overlap) (back + max_non_overlap) in
          Ret (dest, d + length).

(** compress.c:408-480 ntfs_decompress. The tokens of one tag: [cb], the
    destination and the position in it. *)
Fixpoint decode_tokens (n : nat) (cbuf : bytes) (tag cb cb_sb_end : Z) (dest : bytes) (sb sb_end d : Z)
  : outcome (Z * bytes * Z) :=
  match n with
  | O => Ret (cb, dest, d)
  | S n' =>
    if (cb_sb_end <=? cb) || (sb_end <? d) then Ret (cb, dest, d)
    else if Z.land tag NTFS_TOKEN_MASK =? NTFS_SYMBOL_TOKEN then
      let! b := rd cbuf cb in
      let! dest := wr dest d b in
      decode_tokens n' cbuf (Z.shiftr tag 1) (cb + 1) cb_sb_end dest sb sb_end (d + 1)
    else
      let! r := copy_phrase cbuf cb dest sb sb_end d in
      let '(dest, d) := r in
      decode_tokens n' cbuf (Z.shiftr tag 1) (cb + 2) cb_sb_end dest sb sb_end d
  end.

(** compress.c:388-482 ntfs_decompress. From the label [do_next_tag]: the
    groups of a sub-block; each one takes its tag byte. *)
Fixpoint decode_tags (fuel : nat) (cbuf : bytes) (cb cb_sb_end : Z) (dest : bytes) (sb sb_end d : Z)
  : outcome (Z * bytes * Z) :=
  match fuel with
  | O => Fault
  | S fuel' =>
    if cb =? cb_sb_end then
      if d <? sb_end then
        let! dest := wrn dest d (replicate (Z.to_nat (sb_end - d)) 0) in Ret (cb, dest, sb_end)
      else Ret (cb, dest, d)
    else if (cb_sb_end <? cb) || (sb_end <? d) then Fail EOVERFLOW
    else
      let! tag := rd cbuf cb in
      let! r := decode_tokens 8 cbuf tag (cb + 1) cb_sb_end dest sb sb_end d in
      let '(cb, dest, d) := r in
      decode_tags fuel' cbuf cb cb_sb_end dest sb sb_end d
  end.

(** compress.c:340-482 ntfs_decompress. From the label [do_next_sb]: the
    sub-blocks; [cb_size] and [dest_size] are the ends of the two buffers. *)
Fixpoint decode_blocks (fuel : nat) (cbuf : bytes) (cb cb_size : Z) (dest : bytes) (d dest_size : Z)
  : outcome bytes :=
  match fuel with
  | O => Fault
  | S fuel' =>
    if cb =? cb_size then Ret dest
    else
      let! h := le16_to_cpup cbuf cb in
      if (h =? 0) || (d =? dest_size) then Ret dest
      else
        let sb_end := d + NTFS_SB_SIZE in
        if dest_size <? sb_end then Fail EOVERFLOW
        else if cb_size <? cb + 6 then Fail EOVERFLOW
        else
          let cb_sb_end := cb + Z.land h NTFS_SB_SIZE_MASK + 3 in
          if cb_size <? cb_sb_end then Fail EOVERFLOW
          else if Z.land h NTFS_SB_IS_COMPRESSED =? 0 then
            let cb := cb + 2 in
            if negb (cb_sb_end - cb =? NTFS_SB_SIZE) then Fail EOVERFLOW
            else
              let! x := rdn cbuf cb NTFS_SB_SIZE in
              let! dest := wrn dest d x in
              decode_blocks fuel' cbuf (cb + NTFS_SB_SIZE) cb_size dest (d + NTFS_SB_SIZE) dest_size
          else
            let! r := decode_tags (Z.to_nat cb_size) cbuf (cb + 2) cb_sb_end dest d sb_end d in
            let '(cb, dest, d) := r in
            decode_blocks fuel' cbuf cb cb_size dest d dest_size
  end.

(** compress.c:320-487 ntfs_decompress *)
Definition ntfs_decompress (dest : bytes) (dest_size : Z) (cbuf : bytes) (cb_size : Z) : outcome bytes :=
  decode_blocks (Z.to_nat (cb_size + 1)) cbuf 0 cb_size dest 0 dest_size.

(** ** Clusters and compression blocks *)
Section Clusters.
Context {Dev : Type} {ops : device_operations Dev}.

(** compress.c:841-858 read_clusters. The loop: [got] and the bytes read;
    [offs] is 0 after the first run. *)
Fixpoint read_loop (cluster_size_bits : Z) (dev : Dev) (rl : runlist) (offs got to_read : Z) (inbuf : bytes)
  : Dev * outcome (Z * bytes) :=
  match rl with
  | [] => (dev, Fault)
  | r :: rl' =>
    let count := u32 (u32 (Z.shiftl (rlen r) cluster_size_bits) - offs) in
    let count := if to_read - got <? count then to_read - got else count in
    match ntfs_pread dev (Z.shiftl (lcn r) cluster_size_bits + offs) count with
    | (dev, Ret br) =>
      if zlen br =? s32 count then
        if got + count <? to_read
        then read_loop cluster_size_bits dev rl' 0 (got + count) to_read (inbuf ++ br)
        else (dev, Ret (got + count, inbuf ++ br))
      else (dev, Ret (got, inbuf ++ br))
    | (dev, Fail _) => (dev, Ret (got, inbuf))
    | (dev, Fault) => (dev, Fault)
    end
  end.

(** compress.c:826-860 read_clusters *)
Definition read_clusters (cluster_size_bits : Z) (dev : Dev) (rl : runlist) (offs to_read : Z)
  : Dev * outcome (Z * bytes) := read_loop cluster_size_bits dev rl offs 0 to_read [].

(** compress.c:882-899 write_clusters. The loop: [put]. *)
Fixpoint write_loop (cluster_size_bits : Z) (dev : Dev) (rl : runlist) (offs put to_write : Z) (outbuf : bytes)
  : Dev * outcome Z :=
  match rl with
  | [] => (dev, Fault)
  | r :: rl' =>
    let count := s32 (s32 (Z.shiftl (rlen r) cluster_size_bits) - offs) in
    let count := if to_write - put <? count then to_write - put else count in
    match rdn outbuf put count with
    | Ret x =>
      match ntfs_pwrite dev (Z.shiftl (lcn r) cluster_size_bits + offs) count x with
      | (dev, Ret (xput, _)) =>
        if xput =? count then
          if put + count <? to_write
          then write_loop cluster_size_bits dev rl' 0 (put + count) to_write outbuf
          else (dev, Ret (put + count))
        else (dev, Ret put)
      | (dev, Fail _) => (dev, Ret put)
      | (dev, Fault) => (dev, Fault)
      end
    | _ => (dev, Fault)
    end
  end.

(** compress.c:868-901 write_clusters *)
Definition write_clusters (cluster_size_bits : Z) (dev : Dev) (rl : runlist) (offs to_write : Z) (outbuf : bytes)
  : Dev * outcome Z := write_loop cluster_size_bits dev rl offs 0 to_write outbuf.

(** compress.c:928-933 ntfs_comp_set. One zero, two zeros, and the beginning of
    a longer row of them. *)
Definition onezero : bytes := [0x01; 0xb0; 0x00; 0x00].
Definition twozeroes : bytes := [0x02; 0xb0; 0x00; 0x00; 0x00].
Definition morezeroes : bytes := [0x03; 0xb0; 0x02; 0x00].

(** compress.c:958-977 ntfs_comp_set. Is the block at [pbuf] made of zeros? *)
Definition is_zero_block (pbuf : bytes) (sz : Z) : bool :=
  if sz =? 4 then bool_decide (sub pbuf 0 4 = onezero)
  else if sz =? 5 then bool_decide (sub pbuf 0 5 = twozeroes)
  else if sz =? 6 then bool_decide (sub pbuf 0 4 = morezeroes)
  else false.

(** compress.c:946-980 ntfs_comp_set. The sub-blocks from [p] on: the output,
    its size, [allzeroes] and [fail].  There are [insz / 4096 + 1] of them at
    most. *)
Fixpoint comp_blocks (fuel : nat) (malloc : bool) (block_size clsz : Z) (inbuf : bytes) (insz p : Z)
    (outbuf : bytes) (compsz : Z) (allzeroes : bool) : outcome (bytes * Z * bool * bool) :=
  match fuel with
  | O => Fault
  | S fuel' =>
    if p <? insz then
      let bsz := if p + NTFS_SB_SIZE <? insz then NTFS_SB_SIZE else insz - p in
      let! text := rdn inbuf p bsz in
      match ntfs_compress_block malloc text bsz (drop (Z.to_nat compsz) outbuf) with
      | Ret (pbuf, sz) =>
        let outbuf := take (Z.to_nat compsz) outbuf ++ pbuf in
        if (sz =? 0) || (block_size <? compsz + sz + clsz + 2) then Ret (outbuf, compsz, allzeroes, true)
        else
          comp_blocks fuel' malloc block_size clsz inbuf insz (p + NTFS_SB_SIZE) outbuf (compsz + sz)
            (if allzeroes then is_zero_block pbuf sz else false)
      | Fail _ => Ret (outbuf, compsz, allzeroes, true)
      | Fault => Fault
      end
    else Ret (outbuf, compsz, allzeroes, false)
  end.

(** [-1]: not compressed, nothing is written; [-2]: the write failed. *)
Definition comp_buffer_size (block_size : Z) : Z := block_size + 2 * (block_size / NTFS_SB_SIZE) + 2.

(** compress.c:913-1003 ntfs_comp_set *)
Definition ntfs_comp_set (malloc_buf malloc_ctx : bool) (cluster_size_bits block_size : Z) (dev : Dev)
    (rl : runlist) (offs insz : Z) (inbuf : bytes) : Dev * outcome Z :=
  let clsz := Z.shiftl 1 cluster_size_bits in
  if malloc_buf then
    match comp_blocks (Z.to_nat (insz / NTFS_SB_SIZE + 2)) malloc_ctx block_size clsz inbuf insz 0
            (replicate (Z.to_nat (comp_buffer_size block_size)) 0) 0 true with
    | Ret (outbuf, compsz, allzeroes, fail) =>
      if negb fail && negb allzeroes then
        match (let! o := wr outbuf compsz 0 in wr o (compsz + 1) 0) with
        | Ret outbuf =>
          let rounded := Z.lor (compsz + 2 - 1) (clsz - 1) + 1 in
          match write_clusters cluster_size_bits dev rl offs rounded outbuf with
          | (dev, Ret written) => (dev, Ret (if negb (written =? rounded) then -2 else written))
          | r => r
          end
        | _ => (dev, Fault)
        end
      else (dev, Ret (if negb fail then 0 else -1))
    | _ => (dev, Fault)
    end
  else (dev, Ret (-1)).
End Clusters.

(** compress.c:1020-1021 valid_compressed_run. Back to the run at the start of
    the compression block. *)
Fixpoint back_to_block (fuel : nat) (block_clusters : Z) (rl : runlist) (i : Z) : outcome Z :=
  match fuel with
  | O => Fault
  | S fuel' =>
    let! r := rd rl i in
    if negb (Z.land (vcn r) (block_clusters - 1) =? 0) then back_to_block fuel' block_clusters rl (i - 1) else Ret i
  end.

(** compress.c:1023-1044 valid_compressed_run. The checks of the runs from an
    element on; each one looks at the element after it. *)
Fixpoint check_runs (block_clusters : Z) (fullcheck : bool) (rl : runlist) : outcome bool :=
  match rl with
  | [] => Fault
  | r :: rl' =>
    if rlen r =? 0 then Ret true
    else
      let! n := rd rl' 0 in
      let bad := negb (vcn r + rlen r =? vcn n)
                 || ((lcn r =? LCN_HOLE) && (negb (Z.land (vcn r + rlen r) (block_clusters - 1) =? 0)
                                            || (fullcheck && (lcn n =? LCN_HOLE)))) in
      let! ok := check_runs block_clusters fullcheck rl' in Ret (negb bad && ok)
  end.

(** compress.c:1012-1046 valid_compressed_run. [rl] is element [i] of the run
    list. *)
Definition valid_compressed_run (block_clusters : Z) (rl : runlist) (i : Z) (fullcheck : bool) : outcome bool :=
  let! j := back_to_block (Z.to_nat (i + 1)) block_clusters rl i in
  check_runs block_clusters fullcheck (drop (Z.to_nat j) rl).

(** compress.c:504-540 ntfs_is_cb_compressed. The loop over the runs after the
    first; [fuel] bounds the run list fragments that are mapped on the way. *)
Fixpoint is_cb_compressed {N} `{attr_runs N} (fuel : nat) (na : N) (rl : runlist) (cb_start_vcn cb_clusters : Z)
  : N * outcome bool :=
  match fuel with
  | O => (na, Fault)
  | S fuel' =>
    match rl with
    | [] => (na, Fault)
    | r :: rl' =>
      (fix next (na : N) (rl : runlist) (cb_clusters : Z) : N * outcome bool :=
        if cb_clusters <=? 0 then (na, Ret false)
        else
          match rl with
          | [] => (na, Fault)
          | r :: rl' =>
            if (lcn r <? LCN_HOLE) || (rlen r =? 0) then
              match attr_find_vcn na (vcn r) with
              | (na, Ret (q :: ql)) =>
                if (lcn q <? LCN_HOLE) || (rlen q =? 0) then (na, Ret true)
                else if vcn q <? vcn r then is_cb_compressed fuel' na (q :: ql) (vcn r) cb_clusters
                else if lcn q =? LCN_HOLE then (na, Ret true)
                else if cb_clusters <=? rlen q then (na, Ret false)
                else is_cb_compressed fuel' na (q :: ql) (vcn q) cb_clusters
              | (na, Fail _) => (na, Ret true)
              | (na, _) => (na, Fault)
              end
            else if lcn r =? LCN_HOLE then (na, Ret true)
            else if cb_clusters <=? rlen r then (na, Ret false)
            else next na rl' (cb_clusters - rlen r)
          end) na rl' (cb_clusters - (rlen r - (cb_start_vcn - vcn r)))
    end
  end.
