(* ===== verification/CompressCodec.v ===== *)
(** * Correctness of the LZNT1 codec (ntfs/compress.c)

    A sub-block is a list of tokens in groups of eight.  The encoder emits
    tokens that stand for its text, the decoder gives back the text that tokens
    stand for. *)
From S2P Require Import Prelude Runlist Compress.

(** ** Tokens *)

Inductive token := Sym (b : Z) | Phrase (dist len : Z).

(** The bits of a distance at position [p]: at least 4, and enough for every
    distance up to [p]. *)
Definition bp_of (p : Z) : Z := Z.max 4 (Z.log2_up p).

(** The tokens [ts] stand for the bytes [p .. e) of the text [T]. *)
Fixpoint tokens_ok (T : bytes) (p : Z) (ts : list token) (e : Z) : Prop :=
  match ts with
  | [] => p = e
  | Sym b :: ts' => rd T p = Ret b /\ tokens_ok T (p + 1) ts' e
  | Phrase d l :: ts' =>
    1 <= d <= p /\ 3 <= l <= 2 ^ (16 - bp_of p) + 2 /\ p + l <= zlen T /\
    (forall j, 0 <= j < l -> rd T (p + j) = rd T (p - d + j)) /\ tokens_ok T (p + l) ts' e
  end.

Definition tok_len (t : token) : Z := match t with Sym _ => 1 | Phrase _ l => l end.

(** The code of a phrase at position [p]. *)
Definition phrase_code (p d l : Z) : Z := (d - 1) * 2 ^ (16 - bp_of p) + (l - 3).

Definition tok_bytes (p : Z) (t : token) : bytes :=
  match t with
  | Sym b => [b]
  | Phrase d l => [phrase_code p d l mod 256; phrase_code p d l / 256]
  end.

Fixpoint toks_bytes (p : Z) (ts : list token) : bytes :=
  match ts with
  | [] => []
  | t :: ts' => tok_bytes p t ++ toks_bytes (p + tok_len t) ts'
  end.

(** The tag of up to eight tokens. *)
Fixpoint tag_of (ts : list token) : Z :=
  match ts with
  | [] => 0
  | t :: ts' => (match t with Sym _ => 0 | Phrase _ _ => 1 end) + 2 * tag_of ts'
  end.

Fixpoint toks_len (ts : list token) : Z :=
  match ts with [] => 0 | t :: ts' => tok_len t + toks_len ts' end.

(** The groups of a sub-block. *)
Fixpoint groups_bytes (p : Z) (gs : list (list token)) : bytes :=
  match gs with
  | [] => []
  | g :: gs' => tag_of g :: toks_bytes p g ++ groups_bytes (p + toks_len g) gs'
  end.

Lemma tokens_ok_app T p ts us e :
  tokens_ok T p (ts ++ us) e <-> exists m, tokens_ok T p ts m /\ tokens_ok T m us e.
Proof. revert p. induction ts as [|[b|d l] ts IH]; intros p; cbn; [naive_solver|rewrite IH; naive_solver..]. Qed.

Lemma tokens_ok_len T p ts e : tokens_ok T p ts e -> e = p + toks_len ts.
Proof.
  revert p. induction ts as [|[b|d l] ts IH]; intros p; cbn.
  - lia.
  - intros [_ H]. apply IH in H. lia.
  - intros (_ & _ & _ & _ & H). apply IH in H. lia.
Qed.

Lemma tokens_ok_le T p ts e : tokens_ok T p ts e -> 0 <= p -> p <= e /\ (ts <> [] -> p < e <= zlen T).
Proof.
  revert p. induction ts as [|[b|d l] ts IH]; intros p; cbn.
  - intros ->. split; [lia|done].
  - intros [Hb H] Hp. apply rd_bound in Hb. destruct (IH _ H) as [H1 H2]; [lia|]. split; [lia|]. intros _.
    split; [lia|]. destruct ts; [cbn in H; lia|]. destruct H2; [done|lia].
  - intros (Hd & Hl & He & _ & H) Hp. destruct (IH _ H) as [H1 H2]; [lia|]. split; [lia|]. intros _.
    split; [lia|]. destruct ts; [cbn in H; lia|]. destruct H2; [done|lia].
Qed.

Lemma toks_bytes_app p ts us : toks_bytes p (ts ++ us) = toks_bytes p ts ++ toks_bytes (p + toks_len ts) us.
Proof.
  revert p. induction ts as [|t ts IH]; intros p; cbn.
  - by rewrite Z.add_0_r.
  - rewrite IH, (assoc_L (++)). do 2 f_equal. lia.
Qed.

Lemma groups_bytes_app p gs hs :
  groups_bytes p (gs ++ hs) = groups_bytes p gs ++ groups_bytes (p + toks_len (concat gs)) hs.
Proof.
  revert p. induction gs as [|g gs IH]; intros p; cbn [app groups_bytes concat].
  - by rewrite Z.add_0_r.
  - rewrite IH. cbn. rewrite <- (assoc_L (++)). do 4 f_equal.
    assert (forall ts us, toks_len (ts ++ us) = toks_len ts + toks_len us) as Happ.
    { intros ts us. induction ts; cbn; lia. }
    rewrite Happ. lia.
Qed.

Lemma tag_of_snoc ts t :
  tag_of (ts ++ [t]) = tag_of ts + (match t with Sym _ => 0 | Phrase _ _ => 1 end) * 2 ^ Z.of_nat (length ts).
Proof.
  induction ts as [|u ts IH]; cbn [app tag_of length].
  - change (2 ^ Z.of_nat 0) with 1. lia.
  - rewrite IH, Nat2Z.inj_succ, Z.pow_succ_r by lia. lia.
Qed.

Lemma tag_of_bound ts : 0 <= tag_of ts < 2 ^ Z.of_nat (length ts).
Proof.
  induction ts as [|t ts IH]; cbn [tag_of length]; [done|].
  rewrite Nat2Z.inj_succ, Z.pow_succ_r by lia. destruct t; lia.
Qed.

(** ** The split of phrases *)

Lemma bp_of_bounds p : 0 <= p <= 4096 -> 4 <= bp_of p <= 12.
Proof.
  intros Hp. unfold bp_of. assert (Z.log2_up p <= 12); [|lia].
  change 12 with (Z.log2_up 4096). apply Z.log2_up_le_mono. lia.
Qed.

Lemma bp_of_mono p q : p <= q -> bp_of p <= bp_of q.
Proof. intros. unfold bp_of. pose proof (Z.log2_up_le_mono p q). lia. Qed.

(** Every distance fits. *)
Lemma bp_of_fits p : p <= 2 ^ bp_of p.
Proof.
  unfold bp_of. destruct (Z.leb_spec p 1); [pose proof (Z.pow_pos_nonneg 2 (Z.max 4 (Z.log2_up p))); lia|].
  pose proof (Z.log2_up_spec p). assert (2 ^ Z.log2_up p <= 2 ^ Z.max 4 (Z.log2_up p)); [|lia].
  apply Z.pow_le_mono_r; lia.
Qed.

(** [bp_of p] is the least number of bits. *)
Lemma bp_of_least p b : 4 <= b -> p <= 2 ^ b -> bp_of p <= b.
Proof.
  intros Hb Hp. unfold bp_of. apply Z.max_lub; [done|].
  rewrite <- (Z.log2_up_pow2 b) by lia. by apply Z.log2_up_le_mono.
Qed.

Lemma bp_of_tight p b : 4 <= b -> 2 ^ b < p -> b < bp_of p.
Proof.
  intros Hb Hp. destruct (Z.ltb_spec b (bp_of p)); [done|].
  pose proof (bp_of_fits p). assert (2 ^ bp_of p <= 2 ^ b) by (apply Z.pow_le_mono_r; lia). lia.
Qed.

Lemma adjust_ok fuel p b :
  4 <= b <= bp_of p -> bp_of p <= 12 -> bp_of p - b < Z.of_nat fuel ->
  adjust fuel p b (2 ^ b) (2 ^ (16 - b) + 2) = (bp_of p, 2 ^ bp_of p, 2 ^ (16 - bp_of p) + 2).
Proof.
  revert b. induction fuel as [|fuel IH]; intros b Hb Hp Hf; [lia|]. cbn [adjust].
  destruct (Z.ltb_spec (2 ^ b) p) as [Hlt|Hge].
  - apply bp_of_tight in Hlt; [|lia].
    rewrite Z.shiftl_mul_pow2, Z.shiftr_div_pow2 by lia. change (2 ^ 1) with 2.
    replace (2 ^ b * 2) with (2 ^ (b + 1)) by (rewrite Z.pow_add_r by lia; lia).
    replace ((2 ^ (16 - b) + 2 + 2) / 2) with (2 ^ (16 - (b + 1)) + 2).
    + apply IH; lia.
    + replace (16 - b) with (16 - (b + 1) + 1) by lia. rewrite (Z.pow_add_r 2 _ 1) by lia. change (2 ^ 1) with 2. dlia.
  - apply bp_of_least in Hge; [|lia]. by replace (bp_of p) with b by lia.
Qed.

Lemma phrase_lg_ok fuel x lg :
  0 <= x -> Z.log2 x - 3 < Z.of_nat fuel -> phrase_lg fuel x lg = lg + (bp_of (x + 1) - 4).
Proof.
  intros Hx Hf. assert (bp_of (x + 1) - 4 = Z.max 0 (Z.log2 x - 3)) as ->.
  { unfold bp_of. destruct (Z.eqb_spec x 0) as [->|]; [done|].
    rewrite Z.log2_up_eqn by lia. replace (Z.pred (x + 1)) with x by lia. lia. }
  revert x lg Hx Hf. induction fuel as [|fuel IH]; intros x lg Hx Hf; cbn [phrase_lg]; [lia|].
  destruct (Z.leb_spec 0x10 x) as [Hge|Hlt].
  - assert (4 <= Z.log2 x) by (apply (Z.log2_le_mono 16); lia).
    rewrite IH; rewrite ?Z.log2_shiftr by lia; try lia. apply Z.shiftr_nonneg. lia.
  - assert (Z.log2 x <= 3); [|lia]. apply (Z.log2_le_mono x 15). lia.
Qed.

(** ** The decoder *)

(** The destination [dest]: [dest0] in which the bytes from [sb] on are the
    first [p] bytes of [T]; the rest of the sub-block is not determined. *)
Record filled (dest0 : bytes) (sb : Z) (T : bytes) (p : Z) (dest : bytes) : Prop := {
  fl_len : zlen dest = zlen dest0;
  fl_text : forall j, 0 <= j < p -> rd dest (sb + j) = rd T j;
  fl_rest : forall j, 0 <= j -> j < sb \/ sb + NTFS_SB_SIZE <= j -> rd dest j = rd dest0 j;
}.

Section Decode.
Context (dest0 : bytes) (sb : Z) (T : bytes).
Context (Hsb : 0 <= sb) (Hroom : sb + NTFS_SB_SIZE <= zlen dest0) (HT : zlen T <= NTFS_SB_SIZE).

(** Storing the next bytes of the text. *)
Lemma filled_splice p dest x :
  filled dest0 sb T p dest -> 0 <= p -> p + zlen x <= NTFS_SB_SIZE ->
  (forall j, 0 <= j < zlen x -> rd x j = rd T (p + j)) ->
  filled dest0 sb T (p + zlen x) (splice dest (sb + p) x).
Proof using Hsb Hroom.
  intros [] Hp Hx H. pose proof (zlen_nonneg x). split.
  - rewrite zlen_splice; lia.
  - intros j Hj. rewrite rd_splice by lia.
    destruct (Z.leb_spec (sb + p) (sb + j)), (Z.ltb_spec (sb + j) (sb + p + zlen x)); cbn [andb]; try lia.
    + rewrite H by lia. f_equal. lia.
    + apply fl_text0. lia.
  - intros j Hj Hout. rewrite rd_splice by lia.
    destruct (Z.leb_spec (sb + p) j), (Z.ltb_spec j (sb + p + zlen x)); cbn [andb]; try lia; by apply fl_rest0.
Qed.

Lemma insert_splice {X} (l : list X) i x : 0 <= i < zlen l -> <[Z.to_nat i:=x]> l = splice l i [x].
Proof.
  intros Hi. apply list_eq_rd.
  - rewrite zlen_insert, zlen_splice; [done|lia|]. change (zlen [x]) with 1. lia.
  - intros j Hj. rewrite rd_insert, rd_splice by (change (zlen [x]) with 1; lia). change (zlen [x]) with 1.
    destruct (Z.eqb_spec i j), (Z.leb_spec i j), (Z.ltb_spec j (i + 1)); cbn [andb]; try lia; try done.
    subst. by rewrite Z.sub_diag.
Qed.

Lemma filled_byte p dest b :
  filled dest0 sb T p dest -> 0 <= p < NTFS_SB_SIZE -> rd T p = Ret b ->
  exists dest', wr dest (sb + p) b = Ret dest' /\ filled dest0 sb T (p + 1) dest'.
Proof using Hsb Hroom.
  intros Hf Hp Hb. pose proof (fl_len _ _ _ _ _ Hf). rewrite wr_ok by lia. eexists. split; [done|].
  rewrite insert_splice by lia. apply (filled_splice p dest [b]); try done; change (zlen [b]) with 1; [lia|lia|].
  intros j Hj. replace j with 0 by lia. by rewrite Z.add_0_r, Hb.
Qed.

(** A part of the phrase that does not overlap with its copy. *)
Lemma filled_copy p dest d n :
  filled dest0 sb T p dest -> 1 <= d <= p -> 0 <= n <= d -> p + n <= zlen T ->
  (forall j, 0 <= j < n -> rd T (p + j) = rd T (p - d + j)) ->
  exists x dest', rdn dest (sb + p - d) n = Ret x /\ wrn dest (sb + p) x = Ret dest' /\
    filled dest0 sb T (p + n) dest'.
Proof using Hsb Hroom HT.
  intros Hf Hd Hn Hend H. pose proof (fl_len _ _ _ _ _ Hf). rewrite rdn_ok by lia.
  assert (zlen (sub dest (sb + p - d) n) = n) as Hz by (apply zlen_sub; lia).
  eexists _, _. split; [done|]. rewrite wrn_ok by lia. split; [done|]. rewrite <- Hz at 1.
  apply filled_splice; [done|lia|lia|]. intros j Hj. rewrite Hz in Hj. rewrite rd_sub by lia.
  destruct (Z.ltb_spec j n); [|lia]. rewrite H by lia.
  replace (sb + p - d + j) with (sb + (p - d + j)) by lia. apply (fl_text _ _ _ _ _ Hf). lia.
Qed.

Lemma copy_bytes_ok n p dest d :
  filled dest0 sb T p dest -> 1 <= d <= p -> p + Z.of_nat n <= zlen T ->
  (forall j, 0 <= j < Z.of_nat n -> rd T (p + j) = rd T (p - d + j)) ->
  exists dest', copy_bytes n dest (sb + p) (sb + p - d) = Ret dest' /\ filled dest0 sb T (p + Z.of_nat n) dest'.
Proof using Hsb Hroom HT.
  revert p dest. induction n as [|n IH]; intros p dest Hf Hd Hend H; cbn [copy_bytes].
  - exists dest. by rewrite Z.add_0_r.
  - destruct (rd_some T p) as [b Eb]; [lia|].
    assert (rd dest (sb + p - d) = Ret b) as ->.
    { replace (sb + p - d) with (sb + (p - d)) by lia. rewrite (fl_text _ _ _ _ _ Hf) by lia.
      rewrite <- Eb. specialize (H 0 ltac:(lia)). by rewrite !Z.add_0_r in H. }
    cbn [obind]. destruct (filled_byte p dest b) as (dest1 & -> & Hf1); [done|lia|done|]. cbn [obind].
    replace (sb + p + 1) with (sb + (p + 1)) by lia. replace (sb + p - d + 1) with (sb + (p + 1) - d) by lia.
    replace (p + Z.of_nat (S n)) with (p + 1 + Z.of_nat n) by lia.
    apply IH; [done|lia|lia|]. intros j Hj. specialize (H (j + 1) ltac:(lia)).
    replace (p + 1 + j) with (p + (j + 1)) by lia. rewrite H. f_equal. lia.
Qed.

(** The code of a phrase. *)
Lemma phrase_code_ok p d l :
  1 <= d <= p -> p <= 4096 -> 3 <= l <= 2 ^ (16 - bp_of p) + 2 ->
  0 <= phrase_code p d l < 65536 /\
  Z.shiftr (phrase_code p d l) (12 - (bp_of p - 4)) = d - 1 /\
  Z.land (phrase_code p d l) (Z.shiftr 0xfff (bp_of p - 4)) = l - 3.
Proof using.
  intros Hd Hp Hl. pose proof (bp_of_bounds p ltac:(lia)) as Hb. pose proof (bp_of_fits p) as Hfit.
  unfold phrase_code. set (k := 16 - bp_of p) in *. replace (12 - (bp_of p - 4)) with k by lia.
  assert (0 < 2 ^ k) by (apply Z.pow_pos_nonneg; lia).
  assert (2 ^ bp_of p * 2 ^ k = 65536) as E by (rewrite <- Z.pow_add_r by lia; by replace (bp_of p + k) with 16 by lia).
  assert (Z.shiftr 0xfff (bp_of p - 4) = Z.ones k) as ->.
  { change 0xfff with (Z.ones 12). rewrite Z.shiftr_div_pow2, Z.ones_div_pow2 by lia. f_equal. lia. }
  rewrite Z.shiftr_div_pow2, Z.land_ones by lia. split_and!.
  - nia.
  - nia.
  - rewrite Z.div_add_l, Z.div_small by lia. lia.
  - rewrite Z.add_comm, Z.mod_add, Z.mod_small by lia. done.
Qed.

Lemma copy_phrase_ok cbuf cb p dest d l :
  filled dest0 sb T p dest -> 1 <= d <= p -> 3 <= l <= 2 ^ (16 - bp_of p) + 2 -> p + l <= zlen T ->
  (forall j, 0 <= j < l -> rd T (p + j) = rd T (p - d + j)) ->
  rd cbuf cb = Ret (phrase_code p d l mod 256) -> rd cbuf (cb + 1) = Ret (phrase_code p d l / 256) ->
  exists dest', copy_phrase cbuf cb dest sb (sb + NTFS_SB_SIZE) (sb + p) = Ret (dest', sb + (p + l)) /\
    filled dest0 sb T (p + l) dest'.
Proof using Hsb Hroom HT.
  intros Hf Hd Hl Hend H E1 E2. unfold NTFS_SB_SIZE in HT. assert (p <= 4096) as Hp by lia.
  destruct (phrase_code_ok p d l) as (Hc & Ec1 & Ec2); [done|done|done|].
  unfold copy_phrase. destruct (Z.eqb_spec (sb + p) sb); [lia|].
  replace (sb + p - sb - 1) with (p - 1) by lia. rewrite (wrapu_small 16) by (unfold in_u; lia).
  rewrite phrase_lg_ok; [|lia|].
  2:{ assert (Z.log2 (p - 1) <= 11) by (apply (Z.log2_le_mono (p - 1) 4095); lia). lia. }
  replace (p - 1 + 1) with p by lia. rewrite Z.add_0_l. unfold le16_to_cpup. rewrite E1, E2. cbn [obind].
  rewrite Z.shiftl_mul_pow2 by lia. change (2 ^ 8) with 256.
  replace (phrase_code p d l mod 256 + phrase_code p d l / 256 * 256) with (phrase_code p d l) by dlia.
  rewrite Ec1, Ec2. replace (sb + p - (d - 1) - 1) with (sb + p - d) by lia.
  destruct (Z.ltb_spec (sb + p - d) sb); [lia|].
  assert (2 ^ (16 - bp_of p) <= 2 ^ 12) by (apply Z.pow_le_mono_r; [lia|]; pose proof (bp_of_bounds p); lia).
  rewrite (wrapu_small 16 (l - 3 + 3)) by (unfold in_u; lia). replace (l - 3 + 3) with l by lia.
  unfold NTFS_SB_SIZE in *. destruct (Z.ltb_spec (sb + 0x1000) (sb + p + l)); [lia|].
  rewrite (wrapu_small 16) by (unfold in_u; lia). replace (sb + p - (sb + p - d)) with d by lia.
  destruct (Z.leb_spec l d).
  - destruct (filled_copy p dest d l) as (x & dest' & -> & E & Hf'); [done|lia|lia|lia|done|].
    cbn [obind]. rewrite E. cbn [obind]. exists dest'. split; [do 2 f_equal; lia|done].
  - destruct (filled_copy p dest d d) as (x & dest1 & -> & E & Hf1); [done|lia|lia|lia|intros; apply H; lia|].
    cbn [obind]. rewrite E. cbn [obind]. rewrite (wrapu_small 16) by (unfold in_u; lia).
    destruct (copy_bytes_ok (Z.to_nat (l - d)) (p + d) dest1 d) as (dest' & E' & Hf'); [done|lia|lia| |].
    + intros j Hj. replace (p + d + j) with (p + (d + j)) by lia. rewrite H by lia. f_equal. lia.
    + replace (sb + (p + d)) with (sb + p + d) in E' by lia. replace (sb + p - d + d) with (sb + p + d - d) by lia.
      rewrite E'. cbn [obind]. exists dest'. split; [do 2 f_equal; lia|].
      by replace (p + l) with (p + d + Z.of_nat (Z.to_nat (l - d))) by lia.
Qed.

(** [x] lies in [cbuf] from [cb] on. *)
Definition has (cbuf : bytes) (cb : Z) (x : bytes) : Prop := forall j, 0 <= j < zlen x -> rd cbuf (cb + j) = rd x j.

Lemma has_app cbuf cb x y : has cbuf cb (x ++ y) <-> has cbuf cb x /\ has cbuf (cb + zlen x) y.
Proof using.
  unfold has. rewrite zlen_app. pose proof (zlen_nonneg x). pose proof (zlen_nonneg y). split.
  - intros H1. split; intros j Hj.
    + rewrite H1 by lia. apply rd_app_l. lia.
    + replace (cb + zlen x + j) with (cb + (zlen x + j)) by lia. rewrite H1 by lia.
      rewrite rd_app_r by lia. f_equal. lia.
  - intros [H1 H2] j Hj. destruct (Z.ltb_spec j (zlen x)).
    + rewrite rd_app_l by lia. apply H1. lia.
    + rewrite rd_app_r by lia. rewrite <- H2 by lia. f_equal. lia.
Qed.

Lemma has_cons cbuf cb b x : has cbuf cb (b :: x) <-> rd cbuf cb = Ret b /\ has cbuf (cb + 1) x.
Proof using.
  change (b :: x) with ([b] ++ x). rewrite has_app. unfold has at 1. change (zlen [b]) with 1. split.
  - intros [H1 H2]. split; [|done]. specialize (H1 0 ltac:(lia)). by rewrite Z.add_0_r in H1.
  - intros [H1 H2]. split; [|done]. intros j Hj. replace j with 0 by lia. by rewrite Z.add_0_r.
Qed.

Lemma decode_tokens_ok ts n cbuf m cb cb_end dest p e :
  (length ts <= n)%nat -> tokens_ok T p ts e -> 0 <= p -> filled dest0 sb T p dest ->
  has cbuf cb (toks_bytes p ts) -> cb + zlen (toks_bytes p ts) <= cb_end ->
  exists dest', decode_tokens n cbuf (tag_of ts + m * 2 ^ Z.of_nat (length ts)) cb cb_end dest sb
      (sb + NTFS_SB_SIZE) (sb + p) =
    decode_tokens (n - length ts) cbuf m (cb + zlen (toks_bytes p ts)) cb_end dest' sb (sb + NTFS_SB_SIZE) (sb + e) /\
    filled dest0 sb T e dest'.
Proof using Hsb Hroom HT.
  revert n m cb dest p. induction ts as [|t ts IH]; intros n m cb dest p Hn Hok Hp Hf Hh Hend.
  - cbn in Hok. subst e. exists dest. cbn [length tag_of toks_bytes]. rewrite Nat.sub_0_r.
    change (zlen (@nil Z)) with 0. rewrite Z.add_0_r, Z.mul_1_r. done.
  - destruct n as [|n]; cbn [length] in Hn; [lia|].
    assert (forall c, c + 2 * tag_of ts + m * 2 ^ Z.of_nat (length (t :: ts)) =
      c + 2 * (tag_of ts + m * 2 ^ Z.of_nat (length ts))) as Etag.
    { intros c. cbn [length]. rewrite Nat2Z.inj_succ, Z.pow_succ_r by lia. lia. }
    set (rest := tag_of ts + m * 2 ^ Z.of_nat (length ts)) in *.
    assert (forall c, 0 <= c < 2 -> Z.land (c + 2 * rest) NTFS_TOKEN_MASK = c /\ Z.shiftr (c + 2 * rest) 1 = rest) as Hbit.
    { intros c Hc. unfold NTFS_TOKEN_MASK. change 1 with (Z.ones 1) at 1. rewrite Z.land_ones, Z.shiftr_div_pow2 by lia.
      change (2 ^ 1) with 2. split; dlia. }
    cbn [toks_bytes tag_of] in *. rewrite zlen_app in *. pose proof (zlen_nonneg (toks_bytes (p + tok_len t) ts)).
    apply has_app in Hh as [Hh1 Hh2]. cbn [length decode_tokens].
    pose proof (proj2 (tokens_ok_le T p (t :: ts) e Hok Hp) ltac:(done)) as [Hpe HeT].
    unfold NTFS_SB_SIZE in *. destruct (Z.ltb_spec (sb + 0x1000) (sb + p)); [lia|].
    destruct t as [b|d l]; cbn [tok_bytes tok_len] in *; destruct Hok as [Hok1 Hok2].
    + apply has_cons in Hh1 as [Eb _]. change (zlen [b]) with 1 in *.
      destruct (Z.leb_spec cb_end cb); [lia|]. cbn [orb]. rewrite Etag.
      destruct (Hbit 0) as [-> ->]; [lia|]. cbn [Z.eqb NTFS_SYMBOL_TOKEN]. rewrite Eb. cbn [obind].
      destruct (filled_byte p dest b Hf) as (dest1 & -> & Hf1); [unfold NTFS_SB_SIZE; lia|done|]. cbn [obind].
      destruct (IH n m (cb + 1) dest1 (p + 1)) as (dest' & E & Hf'); try done; try lia.
      exists dest'. replace (sb + (p + 1)) with (sb + p + 1) in E by lia. unfold rest. rewrite E. split; [|done].
      f_equal. lia.
    + apply has_cons in Hh1 as [E1 Hh1]. apply has_cons in Hh1 as [E2 _]. change (zlen [_; _]) with 2 in *.
      destruct (Z.leb_spec cb_end cb); [lia|]. cbn [orb]. rewrite Etag.
      destruct (Hbit 1) as [-> ->]; [lia|]. cbn [Z.eqb NTFS_SYMBOL_TOKEN].
      destruct Hok2 as (Hl & HlT & Hcopy & Hok2).
      destruct (copy_phrase_ok cbuf cb p dest d l Hf) as (dest1 & E & Hf1); [done..|].
      unfold NTFS_SB_SIZE in E. rewrite E. cbn [obind].
      destruct (IH n m (cb + 2) dest1 (p + l)) as (dest' & E' & Hf'); try done; try lia.
      exists dest'. unfold rest. rewrite E'. split; [|done]. f_equal. lia.
Qed.

(** All groups but the last one are full. *)
Fixpoint groups_ok (gs : list (list token)) : Prop :=
  match gs with
  | [] => True
  | g :: gs' => g <> [] /\ (length g <= 8)%nat /\ (gs' <> [] -> length g = 8%nat) /\ groups_ok gs'
  end.

(** The rest of a sub-block is zeroed. *)
Lemma filled_zeros dest :
  filled dest0 sb T (zlen T) dest -> zlen T < NTFS_SB_SIZE ->
  exists dest', wrn dest (sb + zlen T) (replicate (Z.to_nat (NTFS_SB_SIZE - zlen T)) 0) = Ret dest' /\
    filled dest0 sb (T ++ replicate (Z.to_nat (NTFS_SB_SIZE - zlen T)) 0) NTFS_SB_SIZE dest'.
Proof using Hsb Hroom.
  intros Hf Hlt. pose proof (zlen_nonneg T). pose proof (fl_len _ _ _ _ _ Hf).
  set (z := replicate (Z.to_nat (NTFS_SB_SIZE - zlen T)) 0).
  assert (zlen z = NTFS_SB_SIZE - zlen T) as Hz by (unfold z; rewrite zlen_replicate; lia).
  rewrite wrn_ok by lia. eexists. split; [done|]. split.
  - rewrite zlen_splice; lia.
  - intros j Hj. rewrite rd_splice by lia.
    destruct (Z.leb_spec (sb + zlen T) (sb + j)), (Z.ltb_spec (sb + j) (sb + zlen T + zlen z)); cbn [andb]; try lia.
    + rewrite rd_app_r by lia. f_equal. lia.
    + rewrite rd_app_l by lia. apply (fl_text _ _ _ _ _ Hf). lia.
  - intros j Hj Hout. rewrite rd_splice by lia.
    destruct (Z.leb_spec (sb + zlen T) j), (Z.ltb_spec j (sb + zlen T + zlen z)); cbn [andb]; try lia;
      by apply (fl_rest _ _ _ _ _ Hf).
Qed.

(** The text with the zeros behind it. *)
Definition padded : bytes := T ++ replicate (Z.to_nat (NTFS_SB_SIZE - zlen T)) 0.

Lemma decode_tags_ok fuel gs cbuf cb cb_end dest p :
  groups_ok gs -> tokens_ok T p (concat gs) (zlen T) -> 0 <= p -> filled dest0 sb T p dest ->
  has cbuf cb (groups_bytes p gs) -> cb + zlen (groups_bytes p gs) = cb_end -> (length gs < fuel)%nat ->
  exists dest', decode_tags fuel cbuf cb cb_end dest sb (sb + NTFS_SB_SIZE) (sb + p) =
      Ret (cb_end, dest', sb + NTFS_SB_SIZE) /\ filled dest0 sb padded NTFS_SB_SIZE dest'.
Proof using Hsb Hroom HT.
  revert gs cb dest p. induction fuel as [|fuel IH]; intros gs cb dest p Hgs Hok Hp Hf Hh Hend Hfuel; [lia|].
  cbn [decode_tags]. destruct gs as [|g gs].
  - cbn [concat tokens_ok] in Hok. subst p. cbn [groups_bytes] in Hend. change (zlen (@nil Z)) with 0 in Hend.
    destruct (Z.eqb_spec cb cb_end); [|lia]. destruct (Z.ltb_spec (sb + zlen T) (sb + NTFS_SB_SIZE)).
    + replace (sb + NTFS_SB_SIZE - (sb + zlen T)) with (NTFS_SB_SIZE - zlen T) by lia.
      destruct (filled_zeros dest Hf) as (dest' & -> & Hf'); [lia|]. cbn [obind]. exists dest'.
      split; [do 3 f_equal; lia|done].
    + exists dest. assert (zlen T = NTFS_SB_SIZE) as E by lia. rewrite E in *. split; [do 3 f_equal; lia|].
      unfold padded. rewrite E, Z.sub_diag. cbn. by rewrite app_nil_r.
  - cbn [groups_bytes concat] in *. destruct Hgs as (Hne & Hg8 & Hgf & Hgs). rewrite zlen_cons, zlen_app in Hend.
    pose proof (zlen_nonneg (toks_bytes p g)). pose proof (zlen_nonneg (groups_bytes (p + toks_len g) gs)).
    apply has_cons in Hh as [Etag Hh]. apply has_app in Hh as [Hh1 Hh2].
    apply tokens_ok_app in Hok as (e & Hok1 & Hok2). pose proof (tokens_ok_len _ _ _ _ Hok1) as He.
    destruct (tokens_ok_le _ _ _ _ Hok1 Hp) as [_ HeT]. destruct (HeT Hne) as [Hpe HeT'].
    destruct (Z.eqb_spec cb cb_end); [lia|]. destruct (Z.ltb_spec cb_end cb); [lia|].
    destruct (Z.ltb_spec (sb + NTFS_SB_SIZE) (sb + p)); [lia|]. cbn [orb]. rewrite Etag. cbn [obind].
    destruct (decode_tokens_ok g 8 cbuf 0 (cb + 1) cb_end dest p e) as (dest1 & E & Hf1); try done; [lia|].
    rewrite Z.mul_0_l, Z.add_0_r in E. rewrite E.
    assert (decode_tokens (8 - length g) cbuf 0 (cb + 1 + zlen (toks_bytes p g)) cb_end dest1 sb (sb + NTFS_SB_SIZE)
      (sb + e) = Ret (cb + 1 + zlen (toks_bytes p g), dest1, sb + e)) as ->.
    { destruct gs as [|g' gs].
      - cbn [groups_bytes] in Hend. change (zlen (@nil Z)) with 0 in Hend. destruct (8 - length g)%nat; [done|]. cbn [decode_tokens].
        destruct (Z.leb_spec cb_end (cb + 1 + zlen (toks_bytes p g))); [done|lia].
      - rewrite Hgf by done. done. }
    cbn [obind]. rewrite <- He in *. apply (IH gs); try done; cbn [length] in Hfuel; lia.
Qed.
End Decode.

(** ** The search for matches *)
Section Match.
Context (T : bytes) (HB : Forall byte_ok T) (HT : zlen T <= NTFS_SB_SIZE).

(** Sons are later positions, before [n], with the same byte. *)
Definition sons_ok (n : Z) (son : list Z) : Prop :=
  zlen son = NTFS_SB_SIZE /\
  forall k m, rd son k = Ret m -> 0 <= m -> k < m < n /\ rd T m = rd T k.

Record ctx_ok (n : Z) (c : context) : Prop := {
  cx_head_len : zlen (c_head c) = 256;
  cx_head : forall k h, rd (c_head c) k = Ret h -> 0 <= h -> h < n /\ rd T h = Ret k;
  cx_lson : sons_ok n (c_lson c);
  cx_rson : sons_ok n (c_rson c);
}.

(** The result of the search at position [i]. *)
Definition match_ok (i : Z) (c : context) : Prop :=
  0 <= c_size c /\ i + c_size c <= zlen T /\
  (0 < c_size c -> 1 <= - c_rel c <= i /\ forall j, 0 <= j < c_size c -> rd T (i + j) = rd T (i + c_rel c + j)).

Lemma sons_ok_weaken n m son : sons_ok n son -> n <= m -> sons_ok m son.
Proof using. intros [Hz H] Hn. split; [done|]. intros k x E Hx. destruct (H k x E Hx). split; [lia|done]. Qed.

Lemma sons_ok_set i node son :
  sons_ok i son -> 0 <= node < i -> i < NTFS_SB_SIZE -> rd T i = rd T node ->
  exists son', wr son node (s16 i) = Ret son' /\ sons_ok (i + 1) son'.
Proof using.
  intros [Hz H] Hn Hi E. unfold NTFS_SB_SIZE in *. rewrite (wraps_small 16) by (unfold in_s; lia).
  rewrite wr_ok by lia. eexists. split; [done|]. split; [by rewrite zlen_insert|].
  intros k m Ek Hm. pose proof (rd_bound _ _ _ Ek) as Hk. rewrite zlen_insert in Hk. rewrite rd_insert in Ek by lia.
  destruct (Z.eqb_spec node k) as [->|].
  - injection Ek as <-. split; [lia|done].
  - destruct (H k m Ek Hm). split; [lia|done].
Qed.

Section Walk.
Context (i maxpos startj : Z).
Context (Hi : 0 <= i) (Hmax : i < maxpos <= zlen T) (Hstart : startj = i + 1 - maxpos).

(** The text at [node] agrees with that at [i] up to [j]. *)
Definition agrees (node j : Z) : Prop :=
  0 <= node < i /\ startj <= j <= 0 /\ forall x, startj - 1 <= x < j -> rd T (maxpos + x) = rd T (maxpos + node - i + x).

Lemma at_ok node x :
  0 <= node < i -> startj <= x < 0 ->
  exists a b, p1_at T maxpos x = Ret a /\ p2_at T i maxpos node x = Ret b /\
    rd T (maxpos + x) = Ret a /\ rd T (maxpos + node - i + x) = Ret b.
Proof using Hi Hmax Hstart.
  intros Hn Hx. unfold p1_at, p2_at.
  destruct (rd_some T (maxpos + x)) as [a Ea]; [lia|]. destruct (rd_some T (maxpos + node - i + x)) as [b Eb]; [lia|].
  exists a, b. by split_and!.
Qed.

Lemma agrees_next node j a b :
  agrees node j -> j < 0 -> rd T (maxpos + j) = Ret a -> rd T (maxpos + node - i + j) = Ret b -> a = b ->
  agrees node (j + 1).
Proof using.
  intros (Hn & Hj & H) Hj0 Ea Eb ->. split_and!; try lia. intros x Hx. destruct (Z.eqb_spec x j) as [->|]; [congruence|].
  apply H. lia.
Qed.

Lemma extend_ok fuel node j :
  agrees node j -> j < 0 -> - j <= Z.of_nat fuel ->
  exists j', extend T i maxpos fuel node j = Ret j' /\ agrees node j'.
Proof using Hi Hmax Hstart.
  revert j. induction fuel as [|fuel IH]; intros j Ha Hj Hf; [lia|]. cbn [extend].
  pose proof Ha as (Hn & Hjb & _). destruct (at_ok node j) as (a & b & -> & -> & Ea & Eb); [done|lia|]. cbn [obind].
  destruct (Z.eqb_spec a b) as [E|].
  - pose proof (agrees_next _ _ _ _ Ha Hj Ea Eb E). destruct (Z.ltb_spec (j + 1) 0).
    + apply IH; [done|done|lia].
    + eauto.
  - eauto.
Qed.

Lemma match_len_ok node :
  startj < 0 -> 0 <= node < i -> rd T i = rd T node ->
  exists j, match_len T i maxpos startj node = Ret j /\ agrees node j.
Proof using Hi Hmax Hstart.
  intros Hs Hn E0. unfold match_len.
  assert (agrees node startj) as Ha.
  { split_and!; try lia. intros x Hx. replace (maxpos + x) with i by lia. rewrite E0. f_equal. lia. }
  destruct (at_ok node startj) as (a & b & -> & -> & Ea & Eb); [done|lia|]. cbn [obind].
  destruct (Z.eqb_spec a b) as [E|]; [|eauto].
  pose proof (agrees_next _ _ _ _ Ha Hs Ea Eb E). destruct (Z.ltb_spec (startj + 1) 0); [|eauto].
  apply extend_ok; [done|done|lia].
Qed.

Lemma walk_ok fuel node bestj bestnode lson rson :
  sons_ok i lson -> sons_ok i rson -> startj < 0 -> 0 <= node < i -> rd T i = rd T node -> i < NTFS_SB_SIZE ->
  agrees bestnode bestj -> i - node <= Z.of_nat fuel ->
  exists bestj' bestnode' lson' rson', walk T i maxpos fuel startj node bestj bestnode lson rson =
      Ret (bestj', bestnode', lson', rson') /\
    agrees bestnode' bestj' /\ sons_ok (i + 1) lson' /\ sons_ok (i + 1) rson'.
Proof using HT Hi Hmax Hstart.
  revert node bestj bestnode. induction fuel as [|fuel IH]; intros node bestj bestnode Hl Hr Hs Hn E0 Hi' Hb Hf; [lia|].
  cbn [walk]. destruct (match_len_ok node Hs Hn E0) as (j & -> & Hj). cbn [obind].
  set (best := if bestj <? j then (j, node) else (bestj, bestnode)).
  assert (agrees best.2 best.1) as Hbest by (unfold best; by destruct (bestj <? j)).
  destruct best as [bj bn]. cbn [fst snd] in Hbest. pose proof Hj as (_ & Hjb & _).
  assert (exists go_left, (if j <? 0 then let! a := p1_at T maxpos j in let! b := p2_at T i maxpos node j in Ret (a <? b)
    else Ret false) = Ret go_left) as (go_left & ->).
  { destruct (Z.ltb_spec j 0); [|eauto]. destruct (at_ok node j) as (a & b & -> & -> & _); [done|lia|]. cbn. eauto. }
  cbn [obind]. set (son := if go_left then lson else rson).
  assert (sons_ok i son) as Hson by (unfold son; by destruct go_left).
  destruct (rd_some son node) as [next En]; [destruct Hson as [-> _]; lia|]. rewrite En. cbn [obind].
  destruct (Z.leb_spec 0 next) as [Hnext|Hnext]; cbn [andb].
  - destruct Hson as [_ Hson]. destruct (Hson node next En Hnext) as [Hlt Eq].
    destruct (Z.ltb_spec j 0).
    + apply IH; try done; [lia|congruence|lia].
    + destruct (Z.ltb_spec next 0); [lia|]. exists bj, bn, lson, rson. split_and!; [done|done| |]; eapply sons_ok_weaken; (done || lia).
  - destruct (Z.ltb_spec next 0); [|lia].
    destruct (sons_ok_set i node son Hson) as (son' & -> & Hson'); [done|done|done|]. cbn [obind].
    destruct go_left; eexists _, _, _, _; (split_and!; [done|done|..]); try done; eapply sons_ok_weaken; (done || lia).
Qed.
End Walk.

(** [ntfs_best_match] finds an earlier occurrence, and position [i] joins the
    trees. *)
Lemma best_match_ok c i :
  ctx_ok i c -> 0 <= i < zlen T -> 1 <= c_mxsz c ->
  exists c', ntfs_best_match T (zlen T) c i = Ret c' /\ ctx_ok (i + 1) c' /\ match_ok i c' /\ c_mxsz c' = c_mxsz c.
Proof using HB HT.
  intros [] Hi Hm. unfold ntfs_best_match. destruct (rd_some T i) as [b Eb]; [lia|]. rewrite Eb. cbn [obind].
  assert (Z.land b 255 = b /\ 0 <= b < 256) as [-> Hb].
  { apply rd_lookup in Eb as [_ Eb]. eapply Forall_lookup_1 in Eb; [|exact HB]. split; [|done].
    change 255 with (Z.ones 8). rewrite Z.land_ones by lia. by apply Z.mod_small. }
  destruct (rd_some (c_head c) b) as [node En]; [lia|]. rewrite En. cbn [obind].
  destruct (Z.leb_spec 0 node) as [Hnode|Hnode].
  - destruct (cx_head0 b node En Hnode) as [Hlt Enode].
    set (maxpos := if i + c_mxsz c <? zlen T then i + c_mxsz c else zlen T).
    assert (i < maxpos <= zlen T) as Hmax by (unfold maxpos; destruct (Z.ltb_spec (i + c_mxsz c) (zlen T)); lia).
    assert (rd T i = rd T node) as E0 by congruence.
    assert (exists bestj bestnode lson rson, (if i + 1 - maxpos <? 0 then
        walk T i maxpos (Z.to_nat (i + 1)) (i + 1 - maxpos) node (i + 1 - maxpos) node (c_lson c) (c_rson c)
        else Ret (i + 1 - maxpos, node, c_lson c, c_rson c)) = Ret (bestj, bestnode, lson, rson) /\
      agrees i maxpos (i + 1 - maxpos) bestnode bestj /\ sons_ok (i + 1) lson /\ sons_ok (i + 1) rson)
      as (bestj & bestnode & lson & rson & -> & (Hbn & Hbj & Hag) & Hl & Hr).
    { assert (agrees i maxpos (i + 1 - maxpos) node (i + 1 - maxpos)) as Hag.
      { split_and!; try lia. intros x Hx. replace (maxpos + x) with i by lia. rewrite E0. f_equal. lia. }
      destruct (Z.ltb_spec (i + 1 - maxpos) 0).
      - apply walk_ok; (done || lia).
      - eexists _, _, _, _. split_and!; [done|done|..]; eapply sons_ok_weaken; (done || lia). }
    cbn [obind]. eexists. split_and!; [done| | |done].
    + split; cbn; try done. intros k h Eh Hh. destruct (cx_head0 k h Eh Hh). split; [lia|done].
    + unfold match_ok. cbn. split_and!; [lia|lia|]. intros _. split; [lia|]. intros j Hj.
      specialize (Hag (i + j - maxpos) ltac:(lia)).
      replace (maxpos + (i + j - maxpos)) with (i + j) in Hag by lia. rewrite Hag. f_equal. lia.
  - unfold NTFS_SB_SIZE in HT. rewrite (wraps_small 16) by (unfold in_s; lia). rewrite wr_ok by lia. cbn [obind]. eexists.
    split_and!; [done| | |done].
    + split; cbn; try (eapply sons_ok_weaken; (done || lia)).
      * by rewrite zlen_insert.
      * intros k h Eh Hh. pose proof (rd_bound _ _ _ Eh) as Hk. rewrite rd_insert in Eh by lia.
        destruct (Z.eqb_spec b k) as [<-|]; [injection Eh as <-; split; [lia|done]|].
        destruct (cx_head0 k h Eh Hh). split; [lia|done].
    + unfold match_ok. cbn. split_and!; lia.
Qed.

Lemma search_upto_ok fuel i c done :
  ctx_ok (done + 1) c -> -1 <= done < i -> i < zlen T -> 1 <= c_mxsz c -> i - done <= Z.of_nat fuel ->
  exists c', search_upto fuel T (zlen T) i c done = Ret (c', i) /\ ctx_ok (i + 1) c' /\ match_ok i c' /\
    c_mxsz c' = c_mxsz c.
Proof using HB HT.
  revert c done. induction fuel as [|fuel IH]; intros c done Hc Hd Hi Hm Hf; [lia|]. cbn [search_upto].
  destruct (best_match_ok c (done + 1)) as (c1 & -> & Hc1 & Hm1 & Em); [done|lia|done|]. cbn [obind].
  destruct (Z.ltb_spec (done + 1) i).
  - destruct (IH c1 (done + 1)) as (c' & E & H1 & H2 & H3); [done|lia|done|lia|lia|].
    exists c'. rewrite E. split_and!; [done|done|done|congruence].
  - assert (i = done + 1) as -> by lia. exists c1. done.
Qed.
End Match.

(** ** The encoder *)
Section Encode.
Context (T : bytes) (HB : Forall byte_ok T) (HT : zlen T <= NTFS_SB_SIZE).

(** The output so far: the full groups [gs], the place of a tag, and the tokens
    [cur] of the last group, [k] of which are counted in [ntag]. *)
Record enc_ok (N : Z) (gs : list (list token)) (cur : list token) (k : Z) (s : encoder) : Prop := {
  en_out : exists h0 h1 x rest, e_out s =
    (h0 :: h1 :: groups_bytes 0 gs) ++ x :: (toks_bytes (toks_len (concat gs)) cur ++ rest);
  en_len : zlen (e_out s) = N;
  en_ptag : e_ptag s = 2 + zlen (groups_bytes 0 gs);
  en_xout : e_xout s = e_ptag s + 1 + zlen (toks_bytes (toks_len (concat gs)) cur);
  en_full : Forall (fun g => length g = 8%nat) gs;
  en_tag : e_tag s = tag_of cur;
  en_ntag : e_ntag s = 8 - k;
  en_cur : (length cur <= 8)%nat;
  en_toks : tokens_ok T 0 (concat gs ++ cur) (e_i s);
  en_i : 0 <= e_i s <= zlen T;
  en_bp : 4 <= e_bp s <= bp_of (e_i s);
  en_mxoff : e_mxoff s = 2 ^ e_bp s;
  en_mxsz : c_mxsz (e_ctx s) = 2 ^ (16 - e_bp s) + 2;
  en_ctx : ctx_ok T (e_done s + 1) (e_ctx s);
  en_done : -1 <= e_done s <= e_i s;
  en_match : e_done s = e_i s -> match_ok T (e_i s) (e_ctx s);
}.

(** A token is appended. *)
Lemma tokens_snoc gs cur t i e :
  tokens_ok T 0 (concat gs ++ cur) i -> tokens_ok T i [t] e ->
  tokens_ok T 0 (concat gs ++ cur ++ [t]) e /\
  toks_bytes (toks_len (concat gs)) (cur ++ [t]) = toks_bytes (toks_len (concat gs)) cur ++ tok_bytes i t.
Proof using.
  intros H Ht. split.
  - rewrite (assoc_L (++)). apply tokens_ok_app. eauto.
  - apply tokens_ok_app in H as (m & H1 & H2). apply tokens_ok_len in H1, H2.
    rewrite toks_bytes_app. cbn [toks_bytes]. rewrite app_nil_r. do 2 f_equal. lia.
Qed.

(** The bytes of a token are stored behind the others. *)
Lemma store_bytes N gs cur k s x rest0 :
  enc_ok N gs cur k s -> 4100 <= N -> e_xout s < NTFS_SB_SIZE + 2 -> zlen x <= 2 ->
  rest0 = e_xout s ->
  exists h0 h1 y rest, wrn (e_out s) rest0 x =
    Ret ((h0 :: h1 :: groups_bytes 0 gs) ++ y :: ((toks_bytes (toks_len (concat gs)) cur ++ x) ++ rest)).
Proof using.
  intros [] HN Hx Hz ->. destruct en_out0 as (h0 & h1 & y & rest & E). unfold NTFS_SB_SIZE in Hx.
  set (G := h0 :: h1 :: groups_bytes 0 gs) in *. set (P := toks_bytes (toks_len (concat gs)) cur) in *.
  assert (zlen (G ++ y :: P) = e_xout s) as Hlen.
  { rewrite zlen_app, zlen_cons. unfold G. rewrite !zlen_cons. lia. }
  assert (e_out s = (G ++ y :: P) ++ take (length x) rest ++ drop (length x) rest) as E'.
  { rewrite E, take_drop. rewrite <- (assoc_L (++)). done. }
  assert (zlen x <= zlen rest) as Hrest.
  { rewrite E, app_comm_cons, (assoc_L (++)), zlen_app, Hlen in en_len0. lia. }
  exists h0, h1, y, (drop (length x) rest). rewrite E', wrn_app_here; [|by rewrite Hlen|].
  - f_equal. rewrite <- !(assoc_L (++)). done.
  - unfold zlen in *. rewrite length_take. lia.
Qed.

Lemma wr_wrn (l : bytes) p x : wr l p x = wrn l p [x].
Proof using.
  unfold wr, wrn. change (zlen [x]) with 1. destruct (Z.leb_spec 0 p), (Z.ltb_spec p (zlen l)), (Z.leb_spec (p + 1) (zlen l));
    cbn [andb]; try lia; try done. by rewrite insert_splice by lia.
Qed.

Lemma wr_wr_wrn (l : bytes) p x y l1 l2 : wr l p x = Ret l1 -> wrn l p [x; y] = Ret l2 -> wr l1 (p + 1) y = Ret l2.
Proof using.
  intros E1 E2. rewrite wr_wrn in E1. unfold wrn in *. change (zlen [x]) with 1 in *. change (zlen [x; y]) with 2 in *.
  destruct (Z.leb_spec 0 p), (Z.leb_spec (p + 1) (zlen l)), (Z.leb_spec (p + 2) (zlen l)); cbn [andb] in *; try done.
  injection E1 as <-. injection E2 as <-. rewrite wr_ok by (rewrite zlen_splice; change (zlen [x]) with 1; lia).
  rewrite insert_splice by (rewrite zlen_splice; change (zlen [x]) with 1; lia). f_equal.
  change 1 with (zlen [x]). rewrite splice_splice; [done|done|]. change (zlen [x]) with 1. change (zlen [y]) with 1. lia.
Qed.

Lemma lor_tag cur : Z.lor (tag_of cur) (Z.shiftl 1 (Z.of_nat (length cur))) = tag_of cur + 2 ^ Z.of_nat (length cur).
Proof using.
  rewrite Z.shiftl_1_l. pose proof (tag_of_bound cur) as Hb. symmetry. rewrite Z.add_comm. rewrite Z.lor_comm.
  apply Z.add_nocarry_lor. apply Z.bits_inj'. intros n Hn.
  rewrite Z.land_spec, Z.pow2_bits_eqb, Z.testbit_0_l by lia.
  destruct (Z.eqb_spec (Z.of_nat (length cur)) n) as [<-|]; [|done]. cbn [andb].
  destruct (Z.testbit (tag_of cur) (Z.of_nat (length cur))) eqn:E; [|done].
  rewrite Z.testbit_true, Z.div_small in E by lia. done.
Qed.

(** A token leaves the encoder in order. *)
Lemma emitted N gs cur s c i' done out xout tag t :
  enc_ok N gs cur (Z.of_nat (length cur)) s -> 4100 <= N -> (length cur < 8)%nat -> e_xout s < NTFS_SB_SIZE + 2 ->
  tokens_ok T (e_i s) [t] i' -> e_i s < i' -> zlen (tok_bytes (e_i s) t) <= 2 ->
  wrn (e_out s) (e_xout s) (tok_bytes (e_i s) t) = Ret out -> xout = e_xout s + zlen (tok_bytes (e_i s) t) ->
  tag = tag_of (cur ++ [t]) -> ctx_ok T (done + 1) c -> -1 <= done <= i' -> (done = i' -> match_ok T i' c) ->
  c_mxsz c = c_mxsz (e_ctx s) ->
  enc_ok N gs (cur ++ [t]) (Z.of_nat (length cur))
    (mkenc c i' (e_bp s) (e_mxoff s) done out xout (e_ptag s) tag (e_ntag s)).
Proof using.
  intros Hs HN Hcur Hx Ht Hlt Hz Hout -> -> Hc Hd Hm Hmx. pose proof Hs as [].
  destruct (tokens_snoc gs cur t _ _ en_toks0 Ht) as [Htoks Hbytes].
  destruct (store_bytes N gs cur _ s (tok_bytes (e_i s) t) (e_xout s) Hs HN Hx Hz eq_refl) as (h0 & h1 & y & rest & Eo).
  rewrite Hout in Eo. injection Eo as ->.
  assert (i' <= zlen T) by (destruct (tokens_ok_le T _ _ _ Ht ltac:(lia)) as [_ [_ ?]]; done).
  split; cbn [e_ctx e_i e_bp e_mxoff e_done e_out e_xout e_ptag e_tag e_ntag]; rewrite ?Hbytes; try done; try lia.
  - eauto.
  - rewrite <- en_len0. symmetry. unfold wrn in Hout. destruct (tok_bytes (e_i s) t) as [|b0 bs] eqn:Eb; [congruence|].
    destruct ((0 <=? e_xout s) && (e_xout s + zlen (b0 :: bs) <=? zlen (e_out s))) eqn:Eg; [|done].
    injection Hout as <-. symmetry. apply zlen_splice; lia.
  - rewrite zlen_app. lia.
  - rewrite length_app. cbn. lia.
  - split; [lia|]. etrans; [|apply (bp_of_mono (e_i s) i'); lia]. lia.
Qed.

Lemma emit_token_ok N gs cur s :
  enc_ok N gs cur (Z.of_nat (length cur)) s -> 4100 <= N -> (length cur < 8)%nat ->
  e_xout s < NTFS_SB_SIZE + 2 -> e_i s < zlen T -> e_bp s = bp_of (e_i s) ->
  exists t s', emit_token T (zlen T) s = Ret s' /\ enc_ok N gs (cur ++ [t]) (Z.of_nat (length cur)) s' /\
    e_i s < e_i s' /\ e_xout s' <= NTFS_SB_SIZE + 3.
Proof using HB HT.
  intros Hs HN Hcur Hx Hlt Hbp. pose proof Hs as []. unfold emit_token, NTFS_SB_SIZE in *.
  assert (1 <= c_mxsz (e_ctx s)) as Hmx1 by (rewrite en_mxsz0; pose proof (Z.pow_nonneg 2 (16 - e_bp s)); lia).
  assert (exists c, (if e_done s <? e_i s then search_upto (Z.to_nat (e_i s - e_done s)) T (zlen T) (e_i s) (e_ctx s) (e_done s)
      else Ret (e_ctx s, e_done s)) = Ret (c, e_i s) /\ ctx_ok T (e_i s + 1) c /\ match_ok T (e_i s) c /\
      c_mxsz c = c_mxsz (e_ctx s)) as (c & -> & Hc & Hm & Em).
  { destruct (Z.ltb_spec (e_done s) (e_i s)).
    - apply search_upto_ok; try done; try lia.
    - assert (e_done s = e_i s) as E by lia. exists (e_ctx s). rewrite E in *. auto. }
  cbn [obind]. set (i := e_i s) in *.
  set (j := if c_mxsz c <? i + c_size c - i then i + c_mxsz c else i + c_size c).
  assert (j <= i + c_size c /\ j - i <= c_mxsz c) as [Hj1 Hj2].
  { unfold j. destruct (Z.ltb_spec (c_mxsz c) (i + c_size c - i)); lia. }
  destruct Hm as (Hm0 & HmT & Hmatch).
  assert (forall c2 done2, ctx_ok T (done2 + 1) c2 -> -1 <= done2 <= i + 1 -> (done2 = i + 1 -> match_ok T (i + 1) c2) ->
    c_mxsz c2 = c_mxsz (e_ctx s) ->
    exists t s', (let! b := rd T i in
      let! out := wr (e_out s) (e_xout s) b in
      Ret (mkenc c2 (i + 1) (e_bp s) (e_mxoff s) done2 out (e_xout s + 1) (e_ptag s) (e_tag s) (e_ntag s))) = Ret s' /\
      enc_ok N gs (cur ++ [t]) (Z.of_nat (length cur)) s' /\ i < e_i s' /\ e_xout s' <= 0x1000 + 3) as Hlit.
  { intros c2 done2 Hc2 Hd2 Hm2 Emx. destruct (rd_some T i) as [b Eb]; [lia|]. rewrite Eb. cbn [obind].
    destruct (store_bytes N gs cur _ s [b] (e_xout s) Hs HN Hx) as (h0 & h1 & y & rest & Eo); [done|done|].
    rewrite wr_wrn, Eo. cbn [obind]. exists (Sym b). eexists. split_and!; [done| |cbn; lia|cbn; lia].
    eapply (emitted N gs cur s _ _ _ _ _ _ (Sym b)); try done; fold i; cbn [tok_bytes]; try (by split); try lia; try done.
    rewrite tag_of_snoc. lia. }
  destruct (Z.ltb_spec 2 (j - i)) as [Hlong|Hshort].
  2:{ apply Hlit; [done|lia|lia|done]. }
  destruct (best_match_ok T HB HT c (i + 1)) as (c2 & -> & Hc2 & Hm2 & Em2); [done|lia|lia|]. cbn [obind].
  match goal with |- context [if j + 1 <? ?k then _ else _] => destruct (Z.ltb_spec (j + 1) k) end.
  { apply Hlit; [by replace (i + 1 + 1) with (i + 1 + 1) by lia|lia|done|congruence]. }
  destruct Hmatch as [Hd Hcopy]; [lia|]. set (d := - c_rel c) in *.
  assert (tokens_ok T i [Phrase d (j - i)] j) as Ht.
  { cbn. rewrite Em, en_mxsz0, Hbp in Hj2. split_and!; try lia. intros x Hx'. rewrite Hcopy by lia. f_equal. lia. }
  assert (3 <= j - i <= 2 ^ (16 - bp_of i) + 2) as Hl by (rewrite Em, en_mxsz0, Hbp in Hj2; lia).
  destruct (phrase_code_ok i d (j - i)) as (Hq & _); [lia|lia|done|].
  assert (u32 (Z.shiftl (Z.lnot (c_rel c)) (16 - e_bp s) + (j - i - 3)) = phrase_code i d (j - i)) as ->.
  { rewrite Z.shiftl_mul_pow2, Hbp by (pose proof (bp_of_bounds i); lia). unfold phrase_code in *.
    replace (Z.lnot (c_rel c)) with (d - 1) by (unfold Z.lnot, d; lia). apply wrapu_small. unfold in_u. lia. }
  set (q := phrase_code i d (j - i)) in *.
  assert (Z.land q 255 = q mod 256) as -> by (change 255 with (Z.ones 8); by rewrite Z.land_ones by lia).
  assert (Z.land (Z.shiftr q 8) 255 = q / 256) as ->.
  { change 255 with (Z.ones 8). rewrite Z.land_ones, Z.shiftr_div_pow2 by lia. change (2 ^ 8) with 256. apply Z.mod_small. dlia. }
  destruct (store_bytes N gs cur _ s [q mod 256] (e_xout s) Hs HN Hx) as (? & ? & ? & ? & E1); [done|done|].
  destruct (store_bytes N gs cur _ s [q mod 256; q / 256] (e_xout s) Hs HN Hx) as (? & ? & ? & ? & E2); [done|done|].
  rewrite <- wr_wrn in E1. rewrite E1. cbn [obind]. rewrite (wr_wr_wrn _ _ _ _ _ _ E1 E2). cbn [obind].
  exists (Phrase d (j - i)). eexists. split_and!; [done| |cbn; lia|cbn; lia].
  eapply (emitted N gs cur s _ _ _ _ _ _ (Phrase d (j - i))); try done; fold i; cbn [tok_bytes]; fold q; try done; try lia.
  - rewrite en_tag0, en_ntag0, tag_of_snoc. replace (8 - (8 - Z.of_nat (length cur))) with (Z.of_nat (length cur)) by lia.
    rewrite lor_tag. lia.
Qed.

(** The tag is stored when the group is full. *)
Lemma store_tag_ok N gs cur t s :
  enc_ok N gs (cur ++ [t]) (Z.of_nat (length cur)) s -> 4100 <= N -> e_xout s <= NTFS_SB_SIZE + 3 ->
  exists gs' cur' s', store_tag s = Ret s' /\ enc_ok N gs' cur' (Z.of_nat (length cur')) s' /\
    (length cur' < 8)%nat /\ e_i s' = e_i s /\ e_xout s' <= NTFS_SB_SIZE + 4.
Proof using.
  intros [] HN Hx. unfold store_tag, NTFS_SB_SIZE in *. rewrite length_app in en_cur0. cbn in en_cur0.
  destruct en_out0 as (h0 & h1 & x & rest & E). set (g := cur ++ [t]) in *.
  pose proof (tag_of_bound g) as Htb.
  assert (zlen (h0 :: h1 :: groups_bytes 0 gs) = e_ptag s) as Hp by (rewrite !zlen_cons; lia).
  rewrite en_ntag0. destruct (Z.eqb_spec (8 - Z.of_nat (length cur) - 1) 0) as [E8|E8].
  - assert (length g = 8%nat) as Hg by (unfold g; rewrite length_app; cbn; lia). rewrite Hg in Htb.
    rewrite (wrapu_small 8) by (unfold in_u; lia). rewrite E, wr_app_here by done. cbn [obind].
    assert (groups_bytes 0 (gs ++ [g]) = groups_bytes 0 gs ++ e_tag s :: toks_bytes (toks_len (concat gs)) g) as Eg.
    { rewrite groups_bytes_app. cbn [groups_bytes]. by rewrite app_nil_r, en_tag0. }
    assert (concat (gs ++ [g]) = concat gs ++ g) as Ec by (rewrite concat_app; cbn; by rewrite app_nil_r).
    assert (zlen (groups_bytes 0 (gs ++ [g])) = zlen (groups_bytes 0 gs) + 1 + zlen (toks_bytes (toks_len (concat gs)) g)) as Ez.
    { rewrite Eg, zlen_app, zlen_cons. lia. }
    exists (gs ++ [g]), []. eexists. split; [done|]. split; [|cbn; split_and!; [lia|done|lia]].
    assert (0 < zlen rest) as Hr.
    { rewrite E, zlen_app, Hp, zlen_cons, zlen_app in en_len0. lia. }
    destruct rest as [|y rest]; [done|].
    split; cbn [e_ctx e_i e_bp e_mxoff e_done e_out e_xout e_ptag e_tag e_ntag length]; try done; try lia.
    + exists h0, h1, y, rest. rewrite Eg. cbn [toks_bytes app]. rewrite <- !(assoc_L (++)). done.
    + rewrite <- en_len0, E, !zlen_app, !zlen_cons. lia.
    + cbn [toks_bytes]. change (zlen (@nil Z)) with 0. lia.
    + apply Forall_app. split; [done|]. by apply Forall_singleton.
    + rewrite app_nil_r, Ec. done.
  - exists gs, g. eexists. split; [done|]. split; [|split_and!; [unfold g; rewrite length_app; cbn; lia|done|cbn; lia]].
    split; cbn [e_ctx e_i e_bp e_mxoff e_done e_out e_xout e_ptag e_tag e_ntag]; try done; try lia.
    + eauto.
    + unfold g. rewrite length_app. cbn. lia.
    + unfold g. rewrite length_app. cbn. lia.
Qed.

Lemma encode_loop_ok fuel N gs cur s :
  enc_ok N gs cur (Z.of_nat (length cur)) s -> 4100 <= N -> (length cur < 8)%nat -> e_xout s <= NTFS_SB_SIZE + 4 ->
  zlen T - e_i s < Z.of_nat fuel ->
  exists gs' cur' s', encode_loop fuel T (zlen T) s = Ret s' /\ enc_ok N gs' cur' (Z.of_nat (length cur')) s' /\
    (length cur' < 8)%nat /\ e_xout s' <= NTFS_SB_SIZE + 4 /\
    (e_i s' = zlen T \/ NTFS_SB_SIZE + 2 <= e_xout s').
Proof using HB HT.
  revert gs cur s. induction fuel as [|fuel IH]; intros gs cur s Hs HN Hcur Hx Hf; [destruct Hs; lia|].
  cbn [encode_loop]. pose proof Hs as []. destruct (Z.ltb_spec (e_i s) (zlen T)) as [Hlt|]; cbn [andb].
  2:{ exists gs, cur, s. split_and!; try done. left. lia. }
  destruct (Z.ltb_spec (e_xout s) (NTFS_SB_SIZE + 2)) as [Hxo|].
  2:{ exists gs, cur, s. split_and!; try done. by right. }
  rewrite en_mxoff0, en_mxsz0. unfold NTFS_SB_SIZE in HT. pose proof (bp_of_bounds (e_i s) ltac:(lia)) as Hb.
  rewrite adjust_ok by lia. set (s1 := mkenc _ _ _ _ _ _ _ _ _ _).
  assert (enc_ok N gs cur (Z.of_nat (length cur)) s1) as Hs1.
  { split; cbn; try done; try lia; try (by destruct en_ctx0; split). }
  destruct (emit_token_ok N gs cur s1 Hs1) as (t & s2 & -> & Hs2 & Hi2 & Hx2); try done.
  cbn [obind]. destruct (store_tag_ok N gs cur t s2 Hs2) as (gs' & cur' & s3 & -> & Hs3 & Hcur' & Hi3 & Hx3); [done|done|].
  cbn [obind]. cbn [e_i s1] in Hi2. destruct (IH gs' cur' s3) as (gs2 & cur2 & s4 & E & H); try done; [lia|].
  exists gs2, cur2, s4. by rewrite E.
Qed.
End Encode.

(** ** Sub-blocks *)

Lemma wr_0 {X} (a b : X) l : wr (a :: l) 0 b = Ret (b :: l).
Proof. by apply (wr_app_here [] l a b 0). Qed.

Lemma wr_1 {X} (a b c : X) l : wr (a :: b :: l) 1 c = Ret (a :: c :: l).
Proof. by apply (wr_app_here [a] l b c 1). Qed.

(** A sub-block for the text [T]: tokens that stand for it, or the text. *)
Inductive block_of (T : bytes) : bytes -> Prop :=
| block_tokens gs n :
    groups_ok gs -> tokens_ok T 0 (concat gs) (zlen T) -> n = 2 + zlen (groups_bytes 0 gs) -> 4 <= n < NTFS_SB_SIZE + 2 ->
    block_of T ((n - 3) mod 256 :: 0xb0 + (n - 3) / 256 :: groups_bytes 0 gs)
| block_stored : block_of T (0xff :: 0x3f :: padded T).

Lemma zlen_padded T : zlen T <= NTFS_SB_SIZE -> zlen (padded T) = NTFS_SB_SIZE.
Proof. intros. unfold padded. rewrite zlen_app, zlen_replicate. unfold NTFS_SB_SIZE in *. lia. Qed.

Lemma block_len T blk : zlen T <= NTFS_SB_SIZE -> block_of T blk -> 4 <= zlen blk <= NTFS_SB_SIZE + 2.
Proof.
  intros HT [gs n Hgs Hok Hn Hb|]; rewrite !zlen_cons.
  - lia.
  - rewrite zlen_padded by done. unfold NTFS_SB_SIZE. lia.
Qed.

Section Finish.
Context (T : bytes) (HB : Forall byte_ok T) (HT : 1 <= zlen T <= NTFS_SB_SIZE).

Lemma groups_ok_full gs cur :
  Forall (fun g : list token => length g = 8%nat) gs -> (length cur <= 8)%nat -> cur <> [] -> groups_ok (gs ++ [cur]).
Proof using.
  intros Hgs Hc Hne. induction Hgs as [|g gs Hg Hgs IH]; cbn [app groups_ok].
  - split_and!; done.
  - split_and!; [by destruct g|lia|done|done].
Qed.

Lemma groups_ok_all gs : Forall (fun g : list token => length g = 8%nat) gs -> groups_ok gs.
Proof using. intros Hgs. induction Hgs as [|g gs Hg Hgs IH]; cbn; [done|]. split_and!; [by destruct g|lia|done|done]. Qed.

Lemma groups_bytes_nonempty p gs : groups_ok gs -> concat gs <> [] -> 2 <= zlen (groups_bytes p gs).
Proof using.
  intros Hok Hne. destruct gs as [|g gs]; [done|]. cbn [groups_bytes]. destruct Hok as (Hg & _).
  destruct g as [|t g]; [done|]. rewrite zlen_cons, zlen_app. cbn [toks_bytes]. rewrite zlen_app.
  pose proof (zlen_nonneg (toks_bytes (p + tok_len t) g)). pose proof (zlen_nonneg (groups_bytes (p + toks_len (t :: g)) gs)).
  destruct t; cbn [tok_bytes]; rewrite ?zlen_cons, ?zlen_nil; change (zlen (@nil Z)) with 0; lia.
Qed.

(** The header and the text of a block that is stored in full. *)
Lemma store_full out :
  NTFS_SB_SIZE + 2 <= zlen out ->
  exists out', (let! text := rdn T 0 (zlen T) in
      let! out := wrn out 2 text in
      let! out := wrn out (zlen T + 2) (replicate (Z.to_nat (NTFS_SB_SIZE - zlen T)) 0) in
      let! out := wr out 0 0xff in
      let! out := wr out 1 0x3f in
      Ret (out, NTFS_SB_SIZE + 2)) = Ret (out', NTFS_SB_SIZE + 2) /\
    zlen out' = zlen out /\ sub out' 0 (NTFS_SB_SIZE + 2) = 0xff :: 0x3f :: padded T.
Proof using HT.
  intros Ho. rewrite rdn_ok, sub_all by lia. cbn [obind].
  assert (exists h0 h1 b rest, out = [h0; h1] ++ b ++ rest /\ zlen b = NTFS_SB_SIZE) as (h0 & h1 & b & rest & -> & Hb).
  { destruct out as [|h0 [|h1 out]]; try (rewrite ?zlen_cons in Ho; unfold NTFS_SB_SIZE in Ho; change (zlen (@nil Z)) with 0 in Ho; lia).
    rewrite !zlen_cons in Ho. exists h0, h1, (take (Z.to_nat NTFS_SB_SIZE) out), (drop (Z.to_nat NTFS_SB_SIZE) out).
    cbn [app]. rewrite take_drop. split; [done|]. unfold zlen in *. rewrite length_take. unfold NTFS_SB_SIZE in *. lia. }
  assert (exists b1 b2, b = b1 ++ b2 /\ zlen b1 = zlen T /\ zlen b2 = NTFS_SB_SIZE - zlen T) as (b1 & b2 & -> & H1 & H2).
  { exists (take (length T) b), (drop (length T) b). rewrite take_drop. unfold zlen in *. rewrite length_take, length_drop. split_and!; [done|lia|lia]. }
  rewrite <- (assoc_L (++)), wrn_app_here by done. cbn [obind].
  rewrite (assoc_L (++) [h0; h1] T), wrn_app_here; cbn [obind].
  2:{ rewrite zlen_app. change (zlen [h0; h1]) with 2. lia. }
  2:{ rewrite zlen_replicate. lia. }
  cbn [app]. rewrite wr_0. cbn [obind]. rewrite wr_1. cbn [obind].
  eexists. split; [done|]. split.
  - rewrite !zlen_cons, !zlen_app, zlen_replicate. lia.
  - change (0xff :: 0x3f :: T ++ ?z ++ rest) with ([] ++ (0xff :: 0x3f :: T ++ z ++ rest)).
    rewrite (assoc_L (++) T). fold (padded T). rewrite !app_comm_cons. rewrite sub_app_here; [done|done|].
    rewrite !zlen_cons, zlen_padded by lia. done.
Qed.

Lemma finish_block_ok N gs cur s :
  enc_ok T N gs cur (Z.of_nat (length cur)) s -> 4100 <= N -> (length cur < 8)%nat ->
  (e_i s = zlen T \/ NTFS_SB_SIZE + 2 <= e_xout s) ->
  exists out n, finish_block T (zlen T) s = Ret (out, n) /\ zlen out = N /\ n <= NTFS_SB_SIZE + 2 /\
    block_of T (sub out 0 n) /\ zlen (sub out 0 n) = n.
Proof using HT.
  intros [] HN Hcur Hend. destruct en_out0 as (h0 & h1 & x & rest & E). unfold finish_block.
  pose proof (tag_of_bound cur) as Htb.
  assert (2 ^ Z.of_nat (length cur) <= 2 ^ 8) as Hp8 by (apply Z.pow_le_mono_r; lia).
  set (gsF := if decide (cur = []) then gs else gs ++ [cur]).
  assert (groups_ok gsF /\ concat gsF = concat gs ++ cur) as [HgF HcF].
  { unfold gsF. destruct (decide (cur = [])) as [->|].
    - split; [by apply groups_ok_all|]. by rewrite app_nil_r.
    - split; [apply groups_ok_full; done || lia|]. rewrite concat_app. cbn. by rewrite app_nil_r. }
  assert (exists out rest', (if e_ntag s =? 8 then Ret (e_out s, e_xout s - 1)
              else let! out := wr (e_out s) (e_ptag s) (u8 (e_tag s)) in Ret (out, e_xout s)) =
      Ret (out, 2 + zlen (groups_bytes 0 gsF)) /\ out = h0 :: h1 :: groups_bytes 0 gsF ++ rest' /\ zlen out = N)
    as (out & rest' & -> & Eout & Hlen).
  { unfold gsF. destruct (decide (cur = [])) as [->|Hne].
    - rewrite en_ntag0. cbn [length]. change (8 - Z.of_nat 0 =? 8) with true. cbn [toks_bytes] in *.
      exists (e_out s), (x :: rest). split_and!; [|by rewrite E|done]. rewrite en_xout0, en_ptag0.
      change (zlen (@nil Z)) with 0. do 2 f_equal. lia.
    - assert (0 < length cur)%nat by (destruct cur; [done|cbn; lia]).
      destruct (Z.eqb_spec (e_ntag s) 8); [lia|]. rewrite (wrapu_small 8) by (unfold in_u; lia).
      rewrite E, wr_app_here by (rewrite !zlen_cons; lia). cbn [obind].
      eexists _, rest. split_and!.
      + do 2 f_equal. rewrite groups_bytes_app, Z.add_0_l, zlen_app. cbn [groups_bytes]. rewrite app_nil_r, zlen_cons. lia.
      + rewrite groups_bytes_app. cbn [groups_bytes app]. rewrite app_nil_r, en_tag0, <- !(assoc_L (++)). done.
      + rewrite <- en_len0, E, !zlen_app, !zlen_cons. lia. }
  cbn [obind]. set (n := 2 + zlen (groups_bytes 0 gsF)).
  destruct ((zlen T <=? e_i s) && (n <? NTFS_SB_SIZE + 2)) eqn:Ec.
  - apply andb_true_iff in Ec as [Ec1%Z.leb_le Ec2%Z.ltb_lt].
    assert (e_i s = zlen T) as Ei by lia. rewrite Ei, <- HcF in en_toks0.
    assert (concat gsF <> []) as Hne by (intros Hnil; rewrite Hnil in en_toks0; cbn in en_toks0; lia).
    pose proof (groups_bytes_nonempty 0 gsF HgF Hne) as H4.
    assert (Z.land (n - 3) 255 = (n - 3) mod 256) as -> by (change 255 with (Z.ones 8); by rewrite Z.land_ones by lia).
    assert (Z.land (Z.shiftr (n - 3) 8) 15 = (n - 3) / 256) as ->.
    { change 15 with (Z.ones 4). rewrite Z.land_ones, Z.shiftr_div_pow2 by lia. unfold NTFS_SB_SIZE in *.
      apply Z.mod_small. change (2 ^ 8) with 256. change (2 ^ 4) with 16. dlia. }
    rewrite Eout. rewrite wr_0. cbn [obind]. rewrite wr_1. cbn [obind].
    eexists _, n. split; [done|]. split_and!; [|lia| |].
    + rewrite <- Hlen, Eout. by rewrite !zlen_cons.
    + match goal with |- block_of _ (sub (?a :: ?b :: ?g ++ _) _ _) =>
        replace (sub (a :: b :: g ++ rest') 0 n) with (a :: b :: g) end.
      * apply block_tokens; try done. lia.
      * symmetry. apply (sub_app_here [] (_ :: _ :: _)); [done|]. rewrite !zlen_cons. lia.
    + apply zlen_sub; [done|lia|]. rewrite !zlen_cons, zlen_app. pose proof (zlen_nonneg rest'). lia.
  - destruct (store_full out) as (out' & -> & Hz & Hs); [unfold NTFS_SB_SIZE; lia|].
    exists out', (NTFS_SB_SIZE + 2). split_and!; [done|lia|lia| |].
    + rewrite Hs. apply block_stored.
    + apply zlen_sub; unfold NTFS_SB_SIZE; lia.
Qed.

(** The encoder makes a sub-block for its text. *)
Lemma compress_block_ok outbuf :
  4100 <= zlen outbuf ->
  exists out n, ntfs_compress_block true T (zlen T) outbuf = Ret (out, n) /\ zlen out = zlen outbuf /\
    n <= NTFS_SB_SIZE + 2 /\ block_of T (sub out 0 n) /\ zlen (sub out 0 n) = n.
Proof using HB HT.
  intros Ho. unfold ntfs_compress_block. set (c := mkctx _ _ _ _ _ _).
  destruct outbuf as [|h0 [|h1 [|x rest]]] eqn:Eo;
    try (rewrite ?zlen_cons in Ho; change (zlen (@nil Z)) with 0 in Ho; lia).
  assert (enc_ok T (zlen outbuf) [] [] (Z.of_nat (length (@nil token))) (mkenc c 0 4 (Z.shiftl 1 4) (-1) outbuf 3 2 0 8)) as H0.
  { rewrite Eo. split; cbn; try done; try lia; try (change (zlen (@nil Z)) with 0; lia).
    - by exists h0, h1, x, rest.
    - split; cbn [c c_head c_lson c_rson].
      + by vm_compute.
      + intros k h Ek Hh. apply rd_lookup in Ek as [_ Ek]. apply lookup_replicate in Ek as [-> _]. lia.
      + split; [by rewrite zlen_replicate|]. intros k h Ek Hh. apply rd_lookup in Ek as [_ Ek]. apply lookup_replicate in Ek as [-> _]. lia.
      + split; [by rewrite zlen_replicate|]. intros k h Ek Hh. apply rd_lookup in Ek as [_ Ek]. apply lookup_replicate in Ek as [-> _]. lia. }
  rewrite <- Eo in *.
  destruct (encode_loop_ok T HB ltac:(lia) (Z.to_nat (zlen T + 1)) _ [] [] _ H0 Ho) as (gs & cur & s & -> & Hs & Hcur & Hx & Hend);
    [cbn; lia|cbn; unfold NTFS_SB_SIZE; lia|cbn; lia|].
  cbn [obind]. destruct (finish_block_ok _ gs cur s Hs) as (out & n & -> & H1 & H2 & H3 & H4); try done.
  exists out, n. by split_and!.
Qed.
End Finish.

(** ** Decoding a sub-block *)
Lemma groups_bytes_length p gs : Z.of_nat (length gs) <= zlen (groups_bytes p gs).
Proof.
  revert p. induction gs as [|g gs IH]; intros p; cbn [length groups_bytes]; [done|].
  rewrite zlen_cons, zlen_app. specialize (IH (p + toks_len g)). pose proof (zlen_nonneg (toks_bytes p g)). lia.
Qed.

Lemma filled_0 dest sb T : filled dest sb T 0 dest.
Proof. split; [done|intros; lia|done]. Qed.

Lemma decode_block_ok T blk fuel cbuf cb cb_size dest d dest_size :
  block_of T blk -> zlen T <= NTFS_SB_SIZE -> has cbuf cb blk -> 0 <= cb -> cb + zlen blk <= cb_size -> cb + 6 <= cb_size ->
  0 <= d -> d + NTFS_SB_SIZE <= dest_size -> dest_size <= zlen dest -> cb_size <= zlen cbuf ->
  exists dest', decode_blocks (S fuel) cbuf cb cb_size dest d dest_size =
      decode_blocks fuel cbuf (cb + zlen blk) cb_size dest' (d + NTFS_SB_SIZE) dest_size /\
    filled dest d (padded T) NTFS_SB_SIZE dest'.
Proof.
  intros Hblk HT Hh Hcb Hend H6 Hd Hds Hdest Hcz. pose proof (block_len T blk HT Hblk) as Hbz.
  cbn [decode_blocks]. destruct (Z.eqb_spec cb cb_size) as [|_]; [lia|].
  destruct Hblk as [gs n Hgs Hok Hn Hnb|].
  - apply has_cons in Hh as [E0 Hh]. apply has_cons in Hh as [E1 Hh].
    unfold le16_to_cpup. rewrite E0, E1. cbn [obind]. unfold NTFS_SB_SIZE in *.
    rewrite Z.shiftl_mul_pow2 by lia. change (2 ^ 8) with 256.
    replace ((n - 3) mod 256 + (0xb0 + (n - 3) / 256) * 256) with (0xb000 + (n - 3)) by dlia.
    destruct (Z.eqb_spec (0xb000 + (n - 3)) 0); [lia|]. destruct (Z.eqb_spec d dest_size); [lia|]. cbn [orb].
    destruct (Z.ltb_spec dest_size (d + 0x1000)); [lia|]. destruct (Z.ltb_spec cb_size (cb + 6)); [lia|].
    assert (Z.land (0xb000 + (n - 3)) NTFS_SB_SIZE_MASK = n - 3) as ->.
    { unfold NTFS_SB_SIZE_MASK. change 0x0fff with (Z.ones 12). rewrite Z.land_ones by lia. change (2 ^ 12) with 4096. dlia. }
    rewrite !zlen_cons in *. replace (cb + (n - 3) + 3) with (cb + n) by lia.
    destruct (Z.ltb_spec cb_size (cb + n)); [lia|].
    assert (Z.land (0xb000 + (n - 3)) NTFS_SB_IS_COMPRESSED =? 0 = false) as ->.
    { unfold NTFS_SB_IS_COMPRESSED. change 0x8000 with (2 ^ 15). rewrite Lcnalloc.land_bit_zero by lia.
      apply negb_false_iff. apply Z.testbit_true; [lia|]. change (2 ^ 15) with 32768.
      assert ((0xb000 + (n - 3)) / 32768 = 1) as -> by dlia. done. }
    pose proof (groups_bytes_length 0 gs). replace (cb + 1 + 1) with (cb + 2) in Hh by lia.
    destruct (decode_tags_ok dest d T Hd ltac:(unfold NTFS_SB_SIZE; lia) HT (Z.to_nat cb_size) gs cbuf (cb + 2) (cb + n) dest 0)
      as (dest' & E & Hf); try done; try lia.
    { apply filled_0. }
    unfold NTFS_SB_SIZE in E. rewrite Z.add_0_r in E. rewrite E. cbn [obind]. exists dest'. split; [|done]. f_equal. lia.
  - apply has_cons in Hh as [E0 Hh]. apply has_cons in Hh as [E1 Hh].
    unfold le16_to_cpup. rewrite E0, E1. cbn [obind]. rewrite !zlen_cons, zlen_padded in * by done. unfold NTFS_SB_SIZE in *.
    change (0xff + Z.shiftl 0x3f 8) with 0x3fff. destruct (Z.eqb_spec 0x3fff 0); [lia|]. destruct (Z.eqb_spec d dest_size); [lia|].
    cbn [orb]. destruct (Z.ltb_spec dest_size (d + 0x1000)); [lia|]. destruct (Z.ltb_spec cb_size (cb + 6)); [lia|].
    change (Z.land 0x3fff NTFS_SB_SIZE_MASK) with 0xfff. change (Z.land 0x3fff NTFS_SB_IS_COMPRESSED =? 0) with true.
    destruct (Z.ltb_spec cb_size (cb + 0xfff + 3)); [lia|].
    destruct (Z.eqb_spec (cb + 0xfff + 3 - (cb + 2)) 0x1000); [|lia]. cbn [negb].
    replace (cb + 1 + 1) with (cb + 2) in Hh by lia.
    assert (zlen (sub cbuf (cb + 2) 0x1000) = 0x1000) as Hz by (apply zlen_sub; lia).
    rewrite rdn_ok by lia. cbn [obind]. rewrite wrn_ok by lia. cbn [obind].
    eexists. split; [f_equal; lia|].
    pose proof (filled_splice dest d (padded T) Hd ltac:(unfold NTFS_SB_SIZE; lia) 0 dest (sub cbuf (cb + 2) 0x1000) (filled_0 _ _ _)) as Hf.
    rewrite Hz, Z.add_0_r in Hf. apply Hf; [lia|unfold NTFS_SB_SIZE; lia|].
    intros j Hj. rewrite rd_sub by lia. destruct (Z.ltb_spec j 0x1000); [|lia]. rewrite Hh; [done|].
    rewrite zlen_padded by done. done.
Qed.
