(* ===== verification/CompressSet.v ===== *)
(** * Compression blocks: round trip and safety (ntfs/compress.c)

    What [ntfs_comp_set] stores for a compression block, [ntfs_decompress] gives
    back; and [ntfs_decompress] on any input ends within its buffers and one
    byte behind them. *)
From S2P Require Import Prelude Runlist Device Compress CompressCodec.

(** ** Sequences of sub-blocks *)

(** [Bs] are the sub-blocks of the text [T], all but the last one full. *)
Inductive blocks_of : bytes -> bytes -> Prop :=
| blocks_nil : blocks_of [] []
| blocks_cons T blk Ts Bs :
    1 <= zlen T <= NTFS_SB_SIZE -> (Ts <> [] -> zlen T = NTFS_SB_SIZE) ->
    block_of T blk -> blocks_of Ts Bs -> blocks_of (T ++ Ts) (blk ++ Bs).

(** The text, with zeros behind it up to a multiple of 4096. *)
Definition padded_text (T : bytes) : bytes :=
  T ++ replicate (Z.to_nat (NTFS_SB_SIZE * ((zlen T + NTFS_SB_SIZE - 1) / NTFS_SB_SIZE) - zlen T)) 0.

Lemma zlen_padded_text T : zlen (padded_text T) = NTFS_SB_SIZE * ((zlen T + NTFS_SB_SIZE - 1) / NTFS_SB_SIZE).
Proof.
  unfold padded_text. rewrite zlen_app, zlen_replicate. pose proof (zlen_nonneg T). unfold NTFS_SB_SIZE. dlia.
Qed.

Lemma padded_text_cons T Ts :
  1 <= zlen T <= NTFS_SB_SIZE -> (Ts <> [] -> zlen T = NTFS_SB_SIZE) -> padded_text (T ++ Ts) = padded T ++ padded_text Ts.
Proof.
  intros HT Hfull. unfold padded_text, padded. rewrite zlen_app. destruct Ts as [|t Ts].
  - rewrite app_nil_r. cbn [app]. change (zlen (@nil Z)) with 0. rewrite Z.add_0_r.
    assert ((zlen T + NTFS_SB_SIZE - 1) / NTFS_SB_SIZE = 1) as -> by (unfold NTFS_SB_SIZE in *; dlia).
    change (Z.to_nat (NTFS_SB_SIZE * ((0 + NTFS_SB_SIZE - 1) / NTFS_SB_SIZE) - 0)) with 0%nat.
    rewrite Z.mul_1_r. cbn [replicate app]. by rewrite app_nil_r.
  - rewrite Hfull by done. rewrite Z.sub_diag. cbn [replicate Z.to_nat]. rewrite app_nil_r, <- (assoc_L (++)). do 3 f_equal.
    unfold NTFS_SB_SIZE. dlia.
Qed.

Lemma decode_blocks_ok T Bs fuel cbuf cb cb_size dest d dest_size :
  blocks_of T Bs -> has cbuf cb (Bs ++ [0; 0]) -> 0 <= cb -> cb + zlen Bs + 2 <= cb_size -> cb_size <= zlen cbuf ->
  0 <= d -> d + zlen (padded_text T) <= dest_size -> dest_size <= zlen dest -> zlen Bs < Z.of_nat fuel ->
  exists dest', decode_blocks fuel cbuf cb cb_size dest d dest_size = Ret dest' /\ zlen dest' = zlen dest /\
    (forall j, 0 <= j < zlen (padded_text T) -> rd dest' (d + j) = rd (padded_text T) j) /\
    (forall j, 0 <= j -> j < d \/ d + zlen (padded_text T) <= j -> rd dest' j = rd dest j).
Proof.
  intros Hb. revert fuel cb dest d. induction Hb as [|T blk Ts Bs HT Hfull Hblk Hbs IH];
    intros fuel cb dest d Hh Hcb Hend Hcz Hd Hds Hdest Hfuel; (destruct fuel as [|fuel]; [pose proof (zlen_nonneg (A:=Z)); zlia|]).
  - cbn [app] in Hh. apply has_cons in Hh as [E0 Hh]. apply has_cons in Hh as [E1 _]. cbn [decode_blocks].
    change (zlen (@nil Z)) with 0 in *. destruct (Z.eqb_spec cb cb_size); [lia|].
    unfold le16_to_cpup. rewrite E0, E1. cbn [obind]. change (0 + Z.shiftl 0 8 =? 0) with true. cbn [orb].
    exists dest. split_and!; try done. intros j Hj. change (zlen (padded_text [])) with 0 in Hj. lia.
  - rewrite <- (assoc_L (++)) in Hh. apply has_app in Hh as [Hh1 Hh2]. rewrite zlen_app in *.
    pose proof (block_len T blk ltac:(lia) Hblk) as Hbz. pose proof (zlen_nonneg Bs).
    rewrite padded_text_cons, zlen_app, zlen_padded in * by (done || lia). pose proof (zlen_nonneg (padded_text Ts)).
    destruct (decode_block_ok T blk fuel cbuf cb cb_size dest d dest_size) as (dest1 & -> & Hf); try done; try lia.
    pose proof (fl_len _ _ _ _ _ Hf) as Hz1.
    destruct (IH fuel (cb + zlen blk) dest1 (d + NTFS_SB_SIZE)) as (dest' & E & Hz & Ht & Hr); try done; try lia.
    exists dest'. split_and!; [done|lia| |].
    + intros j Hj. destruct (Z.ltb_spec j NTFS_SB_SIZE).
      * rewrite Hr, rd_app_l by (rewrite ?zlen_padded; lia). apply (fl_text _ _ _ _ _ Hf). lia.
      * rewrite rd_app_r by (rewrite zlen_padded; lia). rewrite zlen_padded, <- Ht by lia. f_equal. lia.
    + intros j Hj Hout. rewrite Hr by lia. apply (fl_rest _ _ _ _ _ Hf); lia.
Qed.

(** ** Blocks of zeros *)

Definition all_zero (T : bytes) : Prop := Forall (fun b => b = 0) T.

Lemma all_zero_rd T : (forall j, 0 <= j < zlen T -> rd T j = Ret 0) -> all_zero T.
Proof.
  intros H. apply Forall_lookup. intros i b E. specialize (H (Z.of_nat i)).
  assert (Z.of_nat i < zlen T) by (apply lookup_lt_Some in E; unfold zlen; lia).
  specialize (H ltac:(lia)). apply rd_lookup in H as [_ H]. rewrite Nat2Z.id in H. congruence.
Qed.

(** The tokens 0, and a phrase behind it, stand for zeros. *)
Lemma tokens_zero T ts :
  tokens_ok T 0 ts (zlen T) -> ts = [Sym 0] \/ ts = [Sym 0; Sym 0] \/ (exists d l, ts = [Sym 0; Phrase d l]) -> all_zero T.
Proof.
  intros Hok Hts. apply all_zero_rd. destruct_or! Hts; [| |destruct Hts as (d & l & Hts)]; subst ts; cbn in Hok.
  - destruct Hok as [H0 He]. intros j Hj. by replace j with 0 by lia.
  - destruct Hok as (H0 & H1 & He). intros j Hj. destruct (Z.eqb_spec j 0) as [->|]; [done|]. by replace j with 1 by lia.
  - destruct Hok as (H0 & Hd & Hl & HlT & Hcopy & He). assert (d = 1) as -> by lia.
    assert (forall n : nat, Z.of_nat n < zlen T -> rd T (Z.of_nat n) = Ret 0) as Hn.
    { induction n as [|n IH]; intros Hn; [done|]. specialize (Hcopy (Z.of_nat n) ltac:(lia)).
      replace (0 + 1 + Z.of_nat n) with (Z.of_nat (S n)) in Hcopy by lia. rewrite Hcopy.
      replace (0 + 1 - 1 + Z.of_nat n) with (Z.of_nat n) by lia. apply IH. lia. }
    intros j Hj. specialize (Hn (Z.to_nat j) ltac:(lia)). by rewrite Z2Nat.id in Hn by lia.
Qed.

(** One group of tokens from its bytes. *)
Lemma zero_group p g x :
  tag_of g :: toks_bytes p g = x -> x = [0; 0] \/ x = [0; 0; 0] \/ (exists a b, x = [2; 0; a; b]) -> 
  g = [Sym 0] \/ g = [Sym 0; Sym 0] \/ (exists d l, g = [Sym 0; Phrase d l]).
Proof.
  intros <- Hx. destruct g as [|t g].
  { destruct_or! Hx; [done|done|]. destruct Hx as (? & ? & ?). done. }
  destruct t as [b|d l]; cbn [tag_of toks_bytes tok_bytes app] in Hx.
  2:{ destruct_or! Hx; [injection Hx; lia|injection Hx; lia|]. destruct Hx as (a & b & Hx). injection Hx. lia. }
  destruct g as [|t g]; cbn [tag_of toks_bytes app] in Hx.
  { destruct_or! Hx; try done; [injection Hx as ->; by left|]. destruct Hx as (? & ? & Hx). done. }
  destruct t as [c|d l]; cbn [tag_of toks_bytes tok_bytes app] in Hx.
  - destruct g as [|t g].
    + destruct_or! Hx; try done; [injection Hx as -> ->; by right; left|]. destruct Hx as (? & ? & Hx). done.
    + exfalso. destruct t; cbn in Hx; destruct_or! Hx; try done; destruct Hx as (? & ? & Hx); injection Hx; try done; intros; lia.
  - destruct g as [|t g].
    + destruct_or! Hx; try done; destruct Hx as (a & e & Hx). injection Hx as -> ? ?. right. right. by eexists _, _.
    + exfalso. destruct t; cbn in Hx; destruct_or! Hx; try done; destruct Hx as (? & ? & Hx); done.
Qed.

Lemma toks_bytes_length p ts : Z.of_nat (length ts) <= zlen (toks_bytes p ts).
Proof.
  revert p. induction ts as [|t ts IH]; intros p; cbn [length toks_bytes]; [done|].
  rewrite zlen_app. specialize (IH (p + tok_len t)). destruct t; cbn [tok_bytes]; rewrite ?zlen_cons; change (zlen (@nil Z)) with 0; lia.
Qed.

Lemma zero_block T blk :
  block_of T blk -> blk = onezero \/ blk = twozeroes \/ (exists a b, blk = morezeroes ++ [a; b]) -> all_zero T.
Proof.
  intros [gs n Hgs Hok Hn _|] Hblk.
  2:{ destruct_or! Hblk; try done. by destruct Hblk as (? & ? & ?). }
  assert (groups_bytes 0 gs = [0; 0] \/ groups_bytes 0 gs = [0; 0; 0] \/ exists a b, groups_bytes 0 gs = [2; 0; a; b]) as Hx.
  { destruct_or! Hblk; [injection Hblk; auto|injection Hblk; auto|]. destruct Hblk as (a & b & Hblk).
    cbn in Hblk. injection Hblk as _ _ ->. right. right. by exists a, b. }
  destruct gs as [|g gs].
  { destruct_or! Hx; try done. by destruct Hx as (? & ? & ?). }
  assert (gs = []) as ->.
  { destruct gs as [|g' gs]; [done|exfalso]. destruct Hgs as (_ & _ & Hg & _). specialize (Hg ltac:(done)).
    assert (zlen (groups_bytes 0 (g :: g' :: gs)) <= 4) as Hz by (destruct_or! Hx; [rewrite Hx..|destruct Hx as (? & ? & ->)]; done).
    cbn [groups_bytes] in Hz. rewrite zlen_cons, zlen_app in Hz. pose proof (toks_bytes_length 0 g).
    pose proof (zlen_nonneg (tag_of g' :: toks_bytes (0 + toks_len g) g' ++ groups_bytes (0 + toks_len g + toks_len g') gs)). lia. }
  cbn [groups_bytes concat] in *. rewrite app_nil_r in *. eapply tokens_zero; [exact Hok|]. by eapply zero_group.
Qed.

Lemma is_zero_block_ok T pbuf sz :
  block_of T (sub pbuf 0 sz) -> zlen (sub pbuf 0 sz) = sz -> is_zero_block pbuf sz = true -> all_zero T.
Proof.
  intros Hb Hz H. unfold is_zero_block in H. apply (zero_block _ _ Hb).
  destruct (Z.eqb_spec sz 4) as [->|]; [left; by apply bool_decide_eq_true in H|].
  destruct (Z.eqb_spec sz 5) as [->|]; [right; left; by apply bool_decide_eq_true in H|].
  destruct (Z.eqb_spec sz 6) as [->|]; [|done]. apply bool_decide_eq_true in H. right. right.
  change 6 with (4 + 2) in *. rewrite <- sub_app in * by lia. rewrite H in *.
  destruct (sub pbuf (0 + 4) 2) as [|a [|b [|c l]]]; try done; [by exists a, b|].
  rewrite zlen_app, !zlen_cons in Hz. change (zlen morezeroes) with 4 in Hz. pose proof (zlen_nonneg l). lia.
Qed.

(** ** Compressing a block *)
Section Set_.
Context (inbuf : bytes) (block_size clsz : Z).
Context (HB : Forall byte_ok inbuf) (Hblk : 0 < block_size /\ block_size mod NTFS_SB_SIZE = 0) (Hcl : 0 < clsz).

Lemma comp_blocks_ok fuel p outbuf compsz az :
  0 <= p -> p mod NTFS_SB_SIZE = 0 -> zlen inbuf <= block_size -> zlen outbuf = comp_buffer_size block_size ->
  0 <= compsz -> compsz * NTFS_SB_SIZE <= p * (NTFS_SB_SIZE + 2) -> zlen inbuf - p < NTFS_SB_SIZE * (Z.of_nat fuel - 1) ->
  (0 < fuel)%nat ->
  exists out n az' fail, comp_blocks fuel true block_size clsz inbuf (zlen inbuf) p outbuf compsz az = Ret (out, n, az', fail) /\
    zlen out = zlen outbuf /\
    (fail = false -> exists Bs, blocks_of (drop (Z.to_nat p) inbuf) Bs /\ n = compsz + zlen Bs /\
      sub out 0 n = sub outbuf 0 compsz ++ Bs /\ (p < zlen inbuf -> n + clsz + 2 <= block_size) /\
      (az' = true -> all_zero (drop (Z.to_nat p) inbuf))).
Proof using HB Hblk Hcl.
  revert p outbuf compsz az. induction fuel as [|fuel IH]; intros p outbuf compsz az Hp Hpm Hin Hout Hc Hcp Hf Hf0; [lia|].
  cbn [comp_blocks]. unfold comp_buffer_size in Hout. set (nb := block_size / NTFS_SB_SIZE) in *.
  assert (block_size = NTFS_SB_SIZE * nb) as Hnb by (unfold nb, NTFS_SB_SIZE in *; dlia).
  destruct (Z.ltb_spec p (zlen inbuf)) as [Hlt|Hge].
  2:{ exists outbuf, compsz, az, false. split_and!; [done|done|]. intros _. exists [].
    assert (drop (Z.to_nat p) inbuf = []) as -> by (apply drop_ge; unfold zlen in *; lia).
    split_and!; [apply blocks_nil|change (zlen (@nil Z)) with 0; lia|by rewrite app_nil_r|lia|by intros _; apply Forall_nil]. }
  set (bsz := if p + NTFS_SB_SIZE <? zlen inbuf then NTFS_SB_SIZE else zlen inbuf - p).
  assert (1 <= bsz <= NTFS_SB_SIZE /\ p + bsz <= zlen inbuf /\ (bsz = NTFS_SB_SIZE \/ p + bsz = zlen inbuf)) as (Hbsz & Hend & Hfull).
  { unfold bsz, NTFS_SB_SIZE in *. destruct (Z.ltb_spec (p + 0x1000) (zlen inbuf)); lia. }
  assert (compsz + 4100 <= zlen outbuf) as Hroom.
  { assert (exists k, p = NTFS_SB_SIZE * k) as [k Ek] by (exists (p / NTFS_SB_SIZE); unfold NTFS_SB_SIZE in *; dlia). rewrite Ek in *.
    assert (k + 1 <= nb) by (unfold NTFS_SB_SIZE in *; lia). unfold NTFS_SB_SIZE in *. lia. }
  rewrite rdn_ok by lia. cbn [obind]. set (T := sub inbuf p bsz).
  assert (zlen T = bsz) as HT by (apply zlen_sub; lia).
  assert (zlen (drop (Z.to_nat compsz) outbuf) = zlen outbuf - compsz) as Hd.
  { unfold zlen in *. rewrite length_drop. lia. }
  assert (Forall byte_ok T) as HBT by (by apply Forall_take, Forall_drop).
  destruct (compress_block_ok T HBT ltac:(lia) (drop (Z.to_nat compsz) outbuf)) as (pbuf & sz & E & Hpz & Hsz & Hblock & Hs).
  { rewrite Hd. lia. }
  rewrite HT in E. rewrite E. clear E. set (out1 := take (Z.to_nat compsz) outbuf ++ pbuf).
  assert (zlen (take (Z.to_nat compsz) outbuf) = compsz) as Htk by (unfold zlen in *; rewrite length_take; lia).
  assert (zlen out1 = zlen outbuf) as Hz1 by (unfold out1; rewrite zlen_app; lia).
  pose proof (block_len T _ ltac:(lia) Hblock) as Hsz4.
  destruct (Z.eqb_spec sz 0) as [|_]; [lia|]. cbn [orb]. destruct (Z.ltb_spec block_size (compsz + sz + clsz + 2)).
  { exists out1, compsz, az, true. split_and!; [done|done|done]. }
  set (az1 := if az then is_zero_block pbuf sz else false).
  destruct (IH (p + NTFS_SB_SIZE) out1 (compsz + sz) az1) as (out & n & az' & fail & E & Hz & Hres); try done; try lia.
  { unfold NTFS_SB_SIZE in *. dlia. }
  { unfold comp_buffer_size. fold nb. lia. }
  { unfold NTFS_SB_SIZE in *. nia. }
  { unfold NTFS_SB_SIZE in *. lia. }
  exists out, n, az', fail. split_and!; [done|lia|]. intros Hfail. destruct (Hres Hfail) as (Bs & HBs & Hn & Hsub & Hfit & Hzero).
  assert (drop (Z.to_nat p) inbuf = T ++ drop (Z.to_nat (p + NTFS_SB_SIZE)) inbuf) as Edrop.
  { destruct Hfull as [Hfull|Hfull].
    - unfold T, sub. rewrite Hfull, <- (take_drop (Z.to_nat NTFS_SB_SIZE) (drop (Z.to_nat p) inbuf)) at 1.
      rewrite drop_drop. do 2 f_equal. unfold NTFS_SB_SIZE. lia.
    - rewrite (drop_ge inbuf (Z.to_nat (p + NTFS_SB_SIZE))) by (unfold zlen in *; unfold NTFS_SB_SIZE in *; lia).
      rewrite app_nil_r. unfold T, sub. rewrite take_ge; [done|]. rewrite length_drop. unfold zlen in *. lia. }
  exists (sub pbuf 0 sz ++ Bs). split_and!.
  - rewrite Edrop. apply blocks_cons; [lia| |done|done]. intros Hne. destruct Hfull as [Hfull|Hfull]; [lia|].
    exfalso. apply Hne. apply drop_ge. unfold zlen, NTFS_SB_SIZE in *. lia.
  - rewrite zlen_app, Hs. lia.
  - rewrite Hsub, (assoc_L (++)). f_equal. unfold out1. rewrite <- sub_app, Z.add_0_l by lia. f_equal.
    + unfold sub. rewrite Z2Nat.inj_0, !drop_0. rewrite take_app_le by (unfold zlen in *; lia). rewrite take_take. f_equal. lia.
    + unfold sub. rewrite drop_app_length' by (unfold zlen in *; lia). by rewrite Z2Nat.inj_0, drop_0.
  - intros _. destruct (Z.ltb_spec (p + NTFS_SB_SIZE) (zlen inbuf)) as [H'|H']; [by apply Hfit|].
    assert (zlen Bs = 0); [|lia]. rewrite drop_ge in HBs by (unfold zlen, NTFS_SB_SIZE in *; lia).
    inversion HBs as [|T' ? ? ? HT' _ _ _ HT0]; [done|]. apply app_eq_nil in HT0 as [-> _]. change (zlen (@nil Z)) with 0 in HT'. lia.
  - intros Haz. rewrite Edrop. apply Forall_app. split; [|by apply Hzero].
    assert (az1 = true) as Haz1.
    { clear -E Haz. revert E. generalize (p + NTFS_SB_SIZE), out1, (compsz + sz). intros p' o c E.
      destruct az1; [done|exfalso]. revert p' o c E. induction fuel as [|fuel IH]; intros p' o c E; [done|].
      cbn [comp_blocks] in E. destruct (p' <? zlen inbuf); [|by simplify_eq].
      destruct (rdn _ _ _); cbn [obind] in E; try done. destruct (ntfs_compress_block _ _ _ _) as [[? ?]|?|]; try done; [|by simplify_eq].
      destruct (_ || _); [by simplify_eq|]. by apply IH in E. }
    unfold az1 in Haz1. destruct az; [|done]. by eapply is_zero_block_ok.
Qed.
End Set_.

Lemma lor_ones_succ x k : 0 <= x -> 0 <= k -> Z.lor x (Z.shiftl 1 k - 1) + 1 = (x / 2 ^ k + 1) * 2 ^ k.
Proof.
  intros Hx Hk. replace (Z.shiftl 1 k - 1) with (Z.ones k) by (rewrite Z.ones_equiv, Z.shiftl_1_l; lia).
  assert (Z.lor x (Z.ones k) = Z.lor (Z.ldiff x (Z.ones k)) (Z.ones k)) as ->.
  { apply Z.bits_inj'. intros n _. rewrite !Z.lor_spec, Z.ldiff_spec. by destruct (Z.testbit x n), (Z.testbit (Z.ones k) n). }
  rewrite <- Z.lxor_lor, <- Z.add_nocarry_lxor by apply Z.land_ldiff.
  rewrite Z.ldiff_ones_r, Z.shiftl_mul_pow2, Z.shiftr_div_pow2, Z.ones_equiv by lia. lia.
Qed.

Lemma compsz_lt_buffer n block_size : 0 <= n -> n + 2 <= block_size -> n + 1 < comp_buffer_size block_size.
Proof. intros. unfold comp_buffer_size, NTFS_SB_SIZE. pose proof (zlen_nonneg (@nil Z)). dlia. Qed.

Lemma rounded_ok n bits block_size :
  0 <= n -> 0 <= bits -> n + 2 ^ bits + 2 <= block_size ->
  let rounded := Z.lor (n + 2 - 1) (Z.shiftl 1 bits - 1) + 1 in
  n + 2 <= rounded <= block_size /\ rounded mod 2 ^ bits = 0.
Proof.
  intros Hn Hb Hfit rounded. unfold rounded. rewrite lor_ones_succ by lia. clear rounded.
  pose proof (Z.pow_pos_nonneg 2 bits ltac:(lia) Hb). rewrite Z.mod_mul by lia. split; [|done].
  pose proof (Z.div_mod (n + 2 - 1) (2 ^ bits) ltac:(lia)). pose proof (Z.mod_pos_bound (n + 2 - 1) (2 ^ bits) ltac:(lia)). nia.
Qed.

(** C17. What [ntfs_comp_set] does with a compression block: it leaves it to the
    caller to store it uncompressed (-1), it finds that it is made of zeros (0),
    or it writes a whole number of clusters whose decompression, whatever the
    rest of the block holds, is the data followed by zeros up to a multiple of
    4096. *)
Theorem comp_set_roundtrip {Dev} {ops : device_operations Dev} (bits block_size : Z) (dev : Dev) rl offs inbuf :
  Forall byte_ok inbuf -> 0 <= bits -> 0 < block_size -> block_size mod NTFS_SB_SIZE = 0 -> zlen inbuf <= block_size ->
  ntfs_comp_set true true bits block_size dev rl offs (zlen inbuf) inbuf = (dev, Ret (-1)) \/
  (ntfs_comp_set true true bits block_size dev rl offs (zlen inbuf) inbuf = (dev, Ret 0) /\ all_zero inbuf) \/
  exists stored rounded,
    ntfs_comp_set true true bits block_size dev rl offs (zlen inbuf) inbuf =
      match write_clusters bits dev rl offs rounded stored with
      | (dev', Ret written) => (dev', Ret (if negb (written =? rounded) then -2 else written))
      | r => r
      end /\
    0 < rounded <= block_size /\ rounded mod 2 ^ bits = 0 /\ rounded <= zlen stored /\
    forall tail dest, zlen tail = block_size - rounded -> block_size <= zlen dest ->
      ntfs_decompress dest block_size (sub stored 0 rounded ++ tail) block_size =
        Ret (padded_text inbuf ++ drop (Z.to_nat (zlen (padded_text inbuf))) dest).
Proof.
  intros HB Hbits Hbs Hbm Hin. unfold ntfs_comp_set.
  set (out0 := replicate (Z.to_nat (comp_buffer_size block_size)) 0).
  pose proof (Z.pow_pos_nonneg 2 bits ltac:(lia) Hbits) as Hpow. pose proof (zlen_nonneg inbuf) as Hin0.
  destruct (comp_blocks_ok inbuf block_size (Z.shiftl 1 bits) HB (conj Hbs Hbm) ltac:(rewrite Z.shiftl_1_l; lia)
              (Z.to_nat (zlen inbuf / NTFS_SB_SIZE + 2)) 0 out0 0 true) as (out & n & az & fail & E & Hz & Hres); try done; try lia.
  { unfold out0. rewrite zlen_replicate. unfold comp_buffer_size, NTFS_SB_SIZE. dlia. }
  { unfold NTFS_SB_SIZE. dlia. }
  { unfold NTFS_SB_SIZE. dlia. }
  rewrite E. destruct fail; [by left|]. destruct (Hres eq_refl) as (Bs & HBs & Hn & Hsub & Hfit & Hzero).
  rewrite Z2Nat.inj_0, drop_0 in *. destruct az; [right; left; split; [done|by apply Hzero]|].
  right. right. cbn [negb andb]. rewrite Z.shiftl_1_l in Hfit.
  destruct (decide (inbuf = [])) as [->|Hne]; [by cbn in E; destruct (Z.to_nat _); simplify_eq|].
  assert (0 < zlen inbuf) as Hpos by (destruct inbuf; [done|rewrite zlen_cons; pose proof (zlen_nonneg inbuf); lia]).
  specialize (Hfit Hpos). pose proof (zlen_nonneg Bs) as HBs0. rewrite sub_0 in Hsub. cbn [app] in Hsub.
  destruct (rounded_ok n bits block_size) as [Hr Hrm]; [lia..|]. set (rounded := Z.lor _ _ + 1) in *.
  pose proof (compsz_lt_buffer n block_size ltac:(lia) ltac:(lia)) as Hlt.
  assert (zlen out0 = comp_buffer_size block_size) as Hz0.
  { unfold out0. rewrite zlen_replicate. unfold comp_buffer_size, NTFS_SB_SIZE. dlia. }
  rewrite wr_ok by lia. cbn [obind]. rewrite wr_ok by (rewrite zlen_insert; lia).
  set (stored := <[_:=_]> _). assert (zlen stored = zlen out0) as Hzs by (unfold stored; rewrite !zlen_insert; lia).
  exists stored, rounded. split; [done|]. assert (block_size <= zlen stored) as Hbz by (rewrite Hzs, Hz0; unfold comp_buffer_size, NTFS_SB_SIZE; dlia).
  split_and!; [lia|lia|done|lia|]. intros tail dest Ht Hd.
  assert (zlen (sub stored 0 rounded) = rounded) as Hzr by (apply zlen_sub; lia).
  assert (zlen (padded_text inbuf) <= block_size) as Hpad.
  { rewrite zlen_padded_text. unfold NTFS_SB_SIZE in *. dlia. }
  unfold ntfs_decompress. destruct (decode_blocks_ok inbuf Bs (Z.to_nat (block_size + 1)) (sub stored 0 rounded ++ tail) 0 block_size
    dest 0 block_size) as (dest' & -> & Hz' & Htext & Hrest); rewrite ?zlen_app; try done; try lia.
  { apply has_app. split.
    - intros j Hj. rewrite Z.add_0_l, rd_app_l, rd_sub by lia. destruct (Z.ltb_spec j rounded); [|lia].
      unfold stored. rewrite !rd_insert by (rewrite ?zlen_insert; lia). destruct (Z.eqb_spec (n + 1) (0 + j)); [lia|].
      destruct (Z.eqb_spec n (0 + j)); [lia|]. rewrite <- Hsub, rd_sub by lia. by destruct (Z.ltb_spec j n); [|lia].
    - intros j Hj. change (zlen [0; 0]) with 2 in Hj. rewrite rd_app_l, rd_sub by lia. destruct (Z.ltb_spec (0 + zlen Bs + j) rounded); [|lia].
      unfold stored. rewrite !rd_insert by (rewrite ?zlen_insert; lia). destruct (Z.eqb_spec (n + 1) (0 + (0 + zlen Bs + j))).
      + by replace j with 1 by lia.
      + destruct (Z.eqb_spec n (0 + (0 + zlen Bs + j))); [|lia]. by replace j with 0 by lia. }
  f_equal. pose proof (zlen_nonneg (padded_text inbuf)). apply list_eq_rd.
  { rewrite zlen_app, Hz'. unfold zlen in *. rewrite length_drop. lia. }
  intros j Hj. destruct (Z.ltb_spec j (zlen (padded_text inbuf))).
  - rewrite rd_app_l by lia. rewrite <- Htext by lia. f_equal.
  - rewrite rd_app_r, Hrest by lia. rewrite !rd_Some, lookup_drop by lia. by rewrite <- Z2Nat.inj_add, Zplus_minus by lia.
Qed.

(** "ABCABCABCABC" in the second cluster of a device of four clusters. *)
Definition sample_text : bytes := [65;66;67;65;66;67;65;66;67;65;66;67].
Definition sample_dev : bytes := replicate 2048 7.

Lemma comp_set_roundtrip_witness :
  let comp := @ntfs_comp_set _ ram_ops true true 9 8192 sample_dev [mkrun 0 1 1; mkrun 1 (-3) 0] 0 12 sample_text in
  snd comp = Ret 512 /\ sub (fst comp) 512 10 = [5; 176; 8; 65; 66; 67; 6; 32; 0; 0] /\
  exists stored rounded dest, 0 < rounded <= 8192 /\
    ntfs_decompress (replicate 8192 9) 8192 (sub stored 0 rounded ++ replicate (Z.to_nat (8192 - rounded)) 1) 8192 = Ret dest /\
    sub dest 0 13 = sample_text ++ [0] /\ rd dest 4095 = Ret 0 /\ rd dest 4096 = Ret 9.
Proof.
  intros comp. split; [by vm_compute|]. split; [by vm_compute|].
  destruct (@comp_set_roundtrip bytes ram_ops 9 8192 sample_dev [mkrun 0 1 1; mkrun 1 (-3) 0] 0 sample_text)
    as [H|[[H _]|(stored & rounded & E & Hr & _ & _ & H)]];
    [repeat (constructor; [split; done|]); constructor|lia|lia|done|by vm_compute|..].
  - exfalso. apply (f_equal snd) in H. by vm_compute in H.
  - exfalso. apply (f_equal snd) in H. by vm_compute in H.
  - exists stored, rounded. eexists. split; [exact Hr|]. split.
    + apply H; [rewrite zlen_replicate; lia|by vm_compute].
    + vm_compute. split_and!; reflexivity.
Defined.
