(* ===== verification/CompressSafe.v ===== *)
(** * Decompression of arbitrary data (ntfs/compress.c)

    [ntfs_decompress] on any input ends, with the data or with EOVERFLOW, and
    stays within its two buffers and one byte behind each of them. *)
From S2P Require Import Prelude Runlist Device Compress.

Lemma land_le a b : 0 <= b -> 0 <= Z.land a b <= b.
Proof.
  intros Hb. split; [by apply Z.land_nonneg; right|].
  assert (Z.ldiff (Z.land a b) b = 0) as H0.
  { apply Z.bits_inj'. intros n _. rewrite Z.ldiff_spec, Z.land_spec, Z.bits_0. by destruct (Z.testbit a n), (Z.testbit b n). }
  pose proof (Z.sub_nocarry_ldiff b (Z.land a b) H0). pose proof (proj2 (Z.ldiff_nonneg b (Z.land a b)) (or_introl Hb)). lia.
Qed.

Lemma phrase_lg_ge fuel i lg : lg <= phrase_lg fuel i lg.
Proof.
  revert i lg. induction fuel as [|fuel IH]; intros i lg; cbn [phrase_lg]; [done|].
  destruct (_ <=? _); [|done]. specialize (IH (Z.shiftr i 1) (lg + 1)). lia.
Qed.

Section Safe.
Context (dest0 : bytes) (B : Z).

(** The buffer has its length and its bytes behind [B]. *)
Definition kept (dest : bytes) : Prop := zlen dest = zlen dest0 /\ forall j, B < j -> rd dest j = rd dest0 j.

Lemma kept_refl : kept dest0.
Proof using. by split. Qed.

Lemma kept_wr dest d b : kept dest -> 0 <= d <= B -> B < zlen dest0 -> exists dest', wr dest d b = Ret dest' /\ kept dest'.
Proof using.
  intros [Hz Hk] Hd HB. rewrite wr_ok by lia. eexists. split; [done|]. split; [by rewrite zlen_insert|].
  intros j Hj. rewrite rd_insert by lia. destruct (Z.eqb_spec d j); [lia|]. by apply Hk.
Qed.

Lemma kept_wrn dest d x : kept dest -> 0 <= d -> d + zlen x <= B + 1 -> B < zlen dest0 -> exists dest', wrn dest d x = Ret dest' /\ kept dest'.
Proof using.
  intros [Hz Hk] Hd Hx HB. rewrite wrn_ok by lia. eexists. split; [done|]. split; [apply eq_trans with (zlen dest); [apply zlen_splice|]; lia|].
  intros j Hj. pose proof (zlen_nonneg x). rewrite rd_splice by lia.
  destruct (Z.leb_spec d j), (Z.ltb_spec j (d + zlen x)); cbn [andb]; try lia; by apply Hk.
Qed.

Lemma copy_bytes_kept n dest d back :
  kept dest -> 0 <= back <= d -> d + Z.of_nat n <= B + 1 -> B < zlen dest0 ->
  exists dest', copy_bytes n dest d back = Ret dest' /\ kept dest'.
Proof using.
  revert dest d back. induction n as [|n IH]; intros dest d back Hk Hb Hd HB; cbn [copy_bytes]; [by exists dest|].
  destruct (rd_some dest back) as [b ->]; [destruct Hk; lia|]. cbn [obind].
  destruct (kept_wr dest d b) as (dest' & -> & Hk'); [done|lia|lia|]. cbn [obind]. apply IH; try done; lia.
Qed.

Context (cbuf : bytes) (cb_size : Z).
Context (HB : B < zlen dest0) (Hcb : Forall byte_ok cbuf) (Hcs : cb_size < zlen cbuf).

Lemma rd_cbuf cb : 0 <= cb <= cb_size -> exists b, rd cbuf cb = Ret b /\ 0 <= b < 256.
Proof using Hcb Hcs.
  intros H. destruct (rd_some cbuf cb) as [b E]; [lia|]. exists b. split; [done|].
  pose proof E as E'. apply rd_lookup in E' as [_ E']. exact (Forall_lookup_1 _ _ _ _ Hcb E').
Qed.

Lemma le16_cbuf cb : 0 <= cb < cb_size -> exists h, le16_to_cpup cbuf cb = Ret h /\ 0 <= h < 65536.
Proof using Hcb Hcs.
  intros H. unfold le16_to_cpup. destruct (rd_cbuf cb) as (lo & -> & Hlo); [lia|]. destruct (rd_cbuf (cb + 1)) as (hi & -> & Hhi); [lia|].
  cbn [obind]. eexists. split; [done|]. rewrite Z.shiftl_mul_pow2 by lia. lia.
Qed.

Lemma copy_phrase_safe cb dest sb d :
  kept dest -> 0 <= cb < cb_size -> 0 <= sb -> sb <= d <= sb + NTFS_SB_SIZE -> sb + NTFS_SB_SIZE <= B ->
  copy_phrase cbuf cb dest sb (sb + NTFS_SB_SIZE) d = Fail EOVERFLOW \/
  exists dest' d', copy_phrase cbuf cb dest sb (sb + NTFS_SB_SIZE) d = Ret (dest', d') /\ kept dest' /\ d < d' <= sb + NTFS_SB_SIZE.
Proof using HB Hcb Hcs.
  intros Hk Hc Hsb Hd HsB. unfold copy_phrase. destruct (Z.eqb_spec d sb); [by left|].
  destruct (le16_cbuf cb Hc) as (pt & -> & Hpt). cbn [obind]. set (lg := phrase_lg _ _ _).
  assert (0 <= lg) as Hlg by apply phrase_lg_ge. clearbody lg.
  set (off := Z.shiftr pt (12 - lg)). assert (0 <= off) by (apply Z.shiftr_nonneg; lia). clearbody off.
  destruct (Z.ltb_spec (d - off - 1) sb) as [|Hback]; [by left|].
  set (len := u16 _). assert (0 < len) as Hlen.
  { unfold len. assert (0 <= Z.shiftr 0xfff lg <= 0xfff) as Hs.
    { rewrite Z.shiftr_div_pow2 by lia. pose proof (Z.pow_pos_nonneg 2 lg ltac:(lia) Hlg).
      split; [apply Z.div_pos; lia|apply Z.div_le_upper_bound; nia]. }
    pose proof (land_le pt (Z.shiftr 0xfff lg) ltac:(lia)). rewrite wrapu_small by (unfold in_u; lia). lia. }
  clearbody len. destruct (Z.ltb_spec (sb + NTFS_SB_SIZE) (d + len)); [by left|]. right. unfold NTFS_SB_SIZE in *.
  assert (u16 (d - (d - off - 1)) = off + 1) as -> by (rewrite wrapu_small by (unfold in_u; lia); lia).
  pose proof Hk as [Hz _].
  destruct (Z.leb_spec len (off + 1)).
  - rewrite rdn_ok by lia. cbn [obind]. destruct (kept_wrn dest d (sub dest (d - off - 1) len)) as (dest' & -> & Hk');
      [done|lia|rewrite zlen_sub; lia|lia|]. cbn [obind]. exists dest', (d + len). split_and!; [done|done|lia..].
  - rewrite rdn_ok by lia. cbn [obind]. destruct (kept_wrn dest d (sub dest (d - off - 1) (off + 1))) as (dest1 & -> & Hk1);
      [done|lia|rewrite zlen_sub; lia|lia|]. cbn [obind].
    assert (u16 (len - (off + 1)) = len - (off + 1)) as -> by (rewrite wrapu_small by (unfold in_u; lia); lia).
    destruct (copy_bytes_kept (Z.to_nat (len - (off + 1))) dest1 (d + (off + 1)) (d - off - 1 + (off + 1))) as (dest' & -> & Hk');
      [done|lia|lia|done|]. cbn [obind]. exists dest', (d + len). split_and!; [done|done|lia..].
Qed.

(** The tokens of a tag: [cb] advances, to one byte behind the sub-block at
    most; the position, to one byte behind it at most. *)
Lemma decode_tokens_safe n tag cb cbe dest sb d :
  kept dest -> 0 <= cb -> cbe <= cb_size -> 0 <= sb -> sb <= d <= sb + NTFS_SB_SIZE + 1 -> sb + NTFS_SB_SIZE <= B ->
  decode_tokens n cbuf tag cb cbe dest sb (sb + NTFS_SB_SIZE) d = Fail EOVERFLOW \/
  exists cb' dest' d', decode_tokens n cbuf tag cb cbe dest sb (sb + NTFS_SB_SIZE) d = Ret (cb', dest', d') /\
    kept dest' /\ cb <= cb' /\ d <= d' <= sb + NTFS_SB_SIZE + 1.
Proof using HB Hcb Hcs.
  revert tag cb dest d. induction n as [|n IH]; intros tag cb dest d Hk Hc Hcbe Hsb Hd HsB; cbn [decode_tokens].
  { right. exists cb, dest, d. split_and!; [done|done|lia..]. }
  destruct (Z.leb_spec cbe cb); cbn [orb]; [right; exists cb, dest, d; split_and!; [done|done|lia..]|].
  destruct (Z.ltb_spec (sb + NTFS_SB_SIZE) d); [right; exists cb, dest, d; split_and!; [done|done|lia..]|].
  destruct (Z.land tag NTFS_TOKEN_MASK =? NTFS_SYMBOL_TOKEN).
  - destruct (rd_cbuf cb) as (b & -> & _); [lia|]. cbn [obind].
    destruct (kept_wr dest d b) as (dest1 & -> & Hk1); [done|lia|lia|]. cbn [obind].
    destruct (IH (Z.shiftr tag 1) (cb + 1) dest1 (d + 1)) as [->|(cb' & dest' & d' & -> & Hk' & Hc' & Hd')]; try done; try lia; [by left|].
    right. exists cb', dest', d'. split_and!; [done|done|lia..].
  - destruct (copy_phrase_safe cb dest sb d) as [->|(dest1 & d1 & -> & Hk1 & Hd1)]; try done; try lia; [by left|]. cbn [obind].
    destruct (IH (Z.shiftr tag 1) (cb + 2) dest1 d1) as [->|(cb' & dest' & d' & -> & Hk' & Hc' & Hd')]; try done; try lia; [by left|].
    right. exists cb', dest', d'. split_and!; [done|done|lia..].
Qed.

Lemma decode_tags_safe fuel cb cbe dest sb d :
  kept dest -> 0 <= cb -> cbe <= cb_size -> 0 <= sb -> sb <= d <= sb + NTFS_SB_SIZE + 1 -> sb + NTFS_SB_SIZE <= B ->
  0 < Z.of_nat fuel -> cbe - cb < Z.of_nat fuel ->
  decode_tags fuel cbuf cb cbe dest sb (sb + NTFS_SB_SIZE) d = Fail EOVERFLOW \/
  exists dest' d', decode_tags fuel cbuf cb cbe dest sb (sb + NTFS_SB_SIZE) d = Ret (cbe, dest', d') /\
    kept dest' /\ sb + NTFS_SB_SIZE <= d' <= sb + NTFS_SB_SIZE + 1.
Proof using HB Hcb Hcs.
  revert cb dest d. induction fuel as [|fuel IH]; intros cb dest d Hk Hc Hcbe Hsb Hd HsB Hf0 Hf; [lia|]. cbn [decode_tags].
  destruct (Z.eqb_spec cb cbe) as [->|Hne].
  - destruct (Z.ltb_spec d (sb + NTFS_SB_SIZE)); [|right; exists dest, d; split_and!; [done|done|lia..]].
    destruct (kept_wrn dest d (replicate (Z.to_nat (sb + NTFS_SB_SIZE - d)) 0)) as (dest1 & -> & Hk1);
      [done|lia|rewrite zlen_replicate; lia|lia|]. cbn [obind].
    right. exists dest1, (sb + NTFS_SB_SIZE). split_and!; [done|done|lia..].
  - destruct (Z.ltb_spec cbe cb); cbn [orb]; [by left|]. destruct (Z.ltb_spec (sb + NTFS_SB_SIZE) d); [by left|].
    destruct (rd_cbuf cb) as (tag & -> & _); [lia|]. cbn [obind].
    destruct (decode_tokens_safe 8 tag (cb + 1) cbe dest sb d) as [->|(cb' & dest' & d' & -> & Hk' & Hc' & Hd')]; try done; try lia; [by left|].
    cbn [obind]. apply IH; try done; try lia.
Qed.

Lemma decode_blocks_safe fuel cb dest d dest_size :
  kept dest -> 0 <= cb <= cb_size -> 0 <= d -> dest_size <= B -> cb_size - cb < Z.of_nat fuel ->
  decode_blocks fuel cbuf cb cb_size dest d dest_size = Fail EOVERFLOW \/
  exists dest', decode_blocks fuel cbuf cb cb_size dest d dest_size = Ret dest' /\ kept dest'.
Proof using HB Hcb Hcs.
  revert cb dest d. induction fuel as [|fuel IH]; intros cb dest d Hk Hc Hd HdB Hf; [lia|]. cbn [decode_blocks].
  destruct (Z.eqb_spec cb cb_size) as [->|Hne]; [right; by exists dest|].
  destruct (le16_cbuf cb) as (h & -> & Hh); [lia|]. cbn [obind].
  destruct (_ || _); [right; by exists dest|]. destruct (Z.ltb_spec dest_size (d + NTFS_SB_SIZE)); [by left|].
  destruct (Z.ltb_spec cb_size (cb + 6)); [by left|]. pose proof (land_le h NTFS_SB_SIZE_MASK ltac:(done)) as Hl.
  set (cbe := cb + _ + 3). assert (cb + 3 <= cbe) by lia. clearbody cbe. destruct (Z.ltb_spec cb_size cbe); [by left|].
  destruct (Z.land h NTFS_SB_IS_COMPRESSED =? 0).
  - unfold NTFS_SB_SIZE in *. destruct (Z.eqb_spec (cbe - (cb + 2)) 0x1000); cbn [negb]; [|by left].
    rewrite rdn_ok by lia. cbn [obind].
    destruct (kept_wrn dest d (sub cbuf (cb + 2) 0x1000)) as (dest1 & -> & Hk1); [done|lia|rewrite zlen_sub; lia|lia|].
    cbn [obind]. apply IH; try done; lia.
  - destruct (decode_tags_safe (Z.to_nat cb_size) (cb + 2) cbe dest d d) as [->|(dest1 & d1 & -> & Hk1 & Hd1)]; try done; unfold NTFS_SB_SIZE in *; try lia; [by left|].
    cbn [obind]. apply IH; try done; lia.
Qed.
End Safe.

(** C18. [ntfs_decompress] on any bytes, compressed by this code or not: it comes to
    an end with the block or with EOVERFLOW and never leaves the buffers when
    each has one byte behind it, which is where a phrase token cut off by the
    end of the input and a byte behind a full sub-block are looked for. *)
Theorem lznt1_decompress_safe (dest : bytes) (dest_size : Z) (cbuf : bytes) (cb_size : Z) :
  Forall byte_ok cbuf -> 0 <= cb_size < zlen cbuf -> dest_size < zlen dest ->
  ntfs_decompress dest dest_size cbuf cb_size = Fail EOVERFLOW \/
  exists dest', ntfs_decompress dest dest_size cbuf cb_size = Ret dest' /\ zlen dest' = zlen dest /\
    forall j, dest_size < j -> rd dest' j = rd dest j.
Proof.
  intros Hcb Hcs Hd. unfold ntfs_decompress.
  destruct (decode_blocks_safe dest dest_size cbuf cb_size ltac:(lia) Hcb ltac:(lia) (Z.to_nat (cb_size + 1)) 0 dest 0 dest_size)
    as [->|(dest' & -> & Hk)]; try lia; [by split|by left|right; by exists dest'].
Qed.

(** A sub-block that fills its 4096 bytes with a byte and a phrase, and a byte
    behind them. *)
Definition sample_over : bytes := [0x04; 0xb0; 0x02; 0x41; 0xfc; 0x0f; 0x42; 0; 0].

Lemma lznt1_decompress_safe_witness :
  exists dest', ntfs_decompress (replicate 4098 7) 4096 (sample_over) 7 = Ret dest' /\ zlen dest' = 4098 /\ rd dest' 4097 = Ret 7.
Proof.
  destruct (lznt1_decompress_safe (replicate 4098 7) 4096 sample_over 7) as [H|(dest' & E & Hz & H)];
    [repeat (constructor; [split; done|]); constructor|done|done|exfalso|].
  { assert (match ntfs_decompress (replicate 4098 7) 4096 sample_over 7 with Fail _ => False | _ => True end) as Hn by (vm_compute; exact I).
    by rewrite H in Hn. }
  exists dest'. split; [exact E|]. split; [exact Hz|]. rewrite H; [by vm_compute|done].
Defined.

(** The byte behind the destination is written... *)
Example decompress_writes_behind :
  ntfs_decompress (replicate 4096 7) 4096 sample_over 7 = Fault /\
  (let! d := ntfs_decompress (replicate 4098 7) 4096 sample_over 7 in rd d 4096) = Ret 0x42.
Proof. by vm_compute. Qed.

(** ... and the byte behind the input is read, by a phrase token that begins at
    its last byte. *)
Example decompress_reads_behind :
  let cb := [0x03; 0xb0; 0x04; 0x41; 0x42; 0xfc] in
  ntfs_decompress (replicate 4098 7) 4096 cb 6 = Fault /\
  ntfs_decompress (replicate 4098 7) 4096 (cb ++ [0]) 6 = Fail EOVERFLOW.
Proof. by vm_compute. Qed.

