(* ===== verification/Cache.v ===== *)
(** * LRU caches (ntfs/cache.c)

    A cache is one block of memory: the entries, on a doubly linked list from
    the most recently used one to the oldest one or on a free list, and the
    links of the hash chains, on the chain of a hash value or on a free list.
    A pointer to an entry or a link is its index, [NULL] is -1, so that
    following [NULL] is an access outside of the array. *)
From S2P Require Import Prelude Libc.

Definition NULL : Z := -1.
Definition non_null (p : Z) : bool := negb (p =? NULL).

Definition CACHE_FREE : Z := 1.
Definition CACHE_NOHASH : Z := 2.

(** What the pointer [variable] of an entry leads to: nothing, a block of the
    heap, or a block that was freed. *)
Inductive heap_ptr :=
| PNull
| PBlock (b : bytes)
| PDangling.

(** [free]: of a null pointer it does nothing. *)
Definition heap_free (p : heap_ptr) : outcome unit := match p with PDangling => Fault | _ => Ret tt end.

(** libc.c:112-115 malloc. A block of [n] bytes. *)
Definition heap_alloc (mem : heap Z) (n : Z) : heap_ptr := if mem n then PBlock (replicate (Z.to_nat n) 0) else PNull.
(** libc.c:122-133 realloc. To a block of [n] bytes. *)
Definition heap_realloc (mem : heap Z) (p : heap_ptr) (n : Z) : outcome heap_ptr :=
  match p with
  | PDangling => Fault
  | PNull => Ret (heap_alloc mem n)
  | PBlock b => let! nb := realloc_block mem b n n in Ret (match nb with Some nb => PBlock nb | None => PNull end)
  end.

Section Cache.
(** The fixed size data of the entries, and the functions of the kind of cache:
    [compare] tells that two items differ. *)
Context {P : Type} (ulong : Z).

(** cache.h:30-36 CACHED_GENERIC. The part that is data. *)
Record item := mkitem {
  payload : P;
  variable : heap_ptr;
  varsize : Z;
}.

(** cache.h:30-36 CACHED_GENERIC *)
Record entry := mkentry {
  next : Z;
  previous : Z;
  data : item;
}.

(** cache.h:81-84 HASH_ENTRY *)
Record hash_entry := mkhash {
  h_next : Z;
  h_entry : Z;
}.

(** cache.h:86-100 CACHE_HEADER. With the arrays behind it; [dofree] tells
    whether there is such a function and [freed] what it was called with. *)
Record cache := mkcache {
  most_recent_entry : Z;
  oldest_entry : Z;
  free_entry : Z;
  free_hash : Z;
  first_hash : list Z;
  dofree : bool;
  dohash : option (item -> Z);
  reads : Z;
  writes : Z;
  hits : Z;
  max_hash : Z;
  entries : list entry;
  links : list hash_entry;
  freed : list item;
}.

(** Assignments to the fields. *)
Definition set_mru (p : Z) (c : cache) : cache :=
  mkcache p (oldest_entry c) (free_entry c) (free_hash c) (first_hash c) (dofree c) (dohash c) (reads c) (writes c)
    (hits c) (max_hash c) (entries c) (links c) (freed c).
Definition set_oldest (p : Z) (c : cache) : cache :=
  mkcache (most_recent_entry c) p (free_entry c) (free_hash c) (first_hash c) (dofree c) (dohash c) (reads c) (writes c)
    (hits c) (max_hash c) (entries c) (links c) (freed c).
Definition set_free (p : Z) (c : cache) : cache :=
  mkcache (most_recent_entry c) (oldest_entry c) p (free_hash c) (first_hash c) (dofree c) (dohash c) (reads c) (writes c)
    (hits c) (max_hash c) (entries c) (links c) (freed c).
Definition set_entries (es : list entry) (c : cache) : cache :=
  mkcache (most_recent_entry c) (oldest_entry c) (free_entry c) (free_hash c) (first_hash c) (dofree c) (dohash c)
    (reads c) (writes c) (hits c) (max_hash c) es (links c) (freed c).
Definition set_hashing (fh : Z) (first : list Z) (ls : list hash_entry) (c : cache) : cache :=
  mkcache (most_recent_entry c) (oldest_entry c) (free_entry c) fh first (dofree c) (dohash c)
    (reads c) (writes c) (hits c) (max_hash c) (entries c) ls (freed c).
Definition drop_hashing (c : cache) : cache :=
  mkcache (most_recent_entry c) (oldest_entry c) (free_entry c) (free_hash c) (first_hash c) (dofree c) None
    (reads c) (writes c) (hits c) (max_hash c) (entries c) (links c) (freed c).
Definition count_reads (hit : bool) (c : cache) : cache :=
  mkcache (most_recent_entry c) (oldest_entry c) (free_entry c) (free_hash c) (first_hash c) (dofree c) (dohash c)
    (wrapu ulong (reads c + 1)) (writes c) (if hit then wrapu ulong (hits c + 1) else hits c) (max_hash c) (entries c)
    (links c) (freed c).
Definition count_writes (c : cache) : cache :=
  mkcache (most_recent_entry c) (oldest_entry c) (free_entry c) (free_hash c) (first_hash c) (dofree c) (dohash c)
    (reads c) (wrapu ulong (writes c + 1)) (hits c) (max_hash c) (entries c) (links c) (freed c).
Definition call_dofree (e : item) (c : cache) : cache :=
  mkcache (most_recent_entry c) (oldest_entry c) (free_entry c) (free_hash c) (first_hash c) (dofree c) (dohash c)
    (reads c) (writes c) (hits c) (max_hash c) (entries c) (links c) (freed c ++ [e]).

Definition set_next (p : Z) (e : entry) : entry := mkentry p (previous e) (data e).
Definition set_previous (p : Z) (e : entry) : entry := mkentry (next e) p (data e).
Definition set_data (d : item) (e : entry) : entry := mkentry (next e) (previous e) d.

(** [e->field = ...] *)
Definition upd_entry (c : cache) (p : Z) (f : entry -> entry) : outcome cache :=
  let! e := rd (entries c) p in
  let! es := wr (entries c) p (f e) in
  Ret (set_entries es c).

(** cache.c:63-97 inserthashindex *)
Definition inserthashindex (c : cache) (current : Z) : outcome cache :=
  match dohash c with
  | None => Ret c
  | Some hash =>
    let! e := rd (entries c) current in
    let h := hash (data e) in
    if (0 <=? h) && (h <? max_hash c) then
      let link := free_hash c in
      if non_null link then
        let! l := rd (links c) link in
        let! first := rd (first_hash c) h in
        let! ls := wr (links c) link (mkhash first current) in
        let! fs := wr (first_hash c) h link in
        Ret (set_hashing (h_next l) fs ls c)
      else Ret (drop_hashing c)
    else Ret (drop_hashing c)
  end.

(** cache.c:111-117 drophashindex. The search for the link of an entry; a chain
    has at most the number of links. *)
Fixpoint find_link (fuel : nat) (ls : list hash_entry) (current link previous : Z) : outcome (Z * Z) :=
  match fuel with
  | O => Fault
  | S fuel' =>
    if non_null link then
      let! l := rd ls link in
      if negb (h_entry l =? current) then find_link fuel' ls current (h_next l) link else Ret (link, previous)
    else Ret (link, previous)
  end.

(** cache.c:103-138 drophashindex *)
Definition drophashindex (c : cache) (current hash : Z) : outcome cache :=
  match dohash c with
  | None => Ret c
  | Some _ =>
    if (0 <=? hash) && (hash <? max_hash c) then
      let! first := rd (first_hash c) hash in
      let! r := find_link (S (length (links c))) (links c) current first NULL in
      let '(link, previous) := r in
      if non_null link then
        let! l := rd (links c) link in
        let! lf := (if non_null previous then
                      let! p := rd (links c) previous in
                      let! ls := wr (links c) previous (mkhash (h_next l) (h_entry p)) in Ret (ls, first_hash c)
                    else let! fs := wr (first_hash c) hash (h_next l) in Ret (links c, fs)) in
        let '(ls, fs) := lf in
        let! ls := wr ls link (mkhash (free_hash c) (h_entry l)) in
        Ret (set_hashing link fs ls c)
      else Ret (drop_hashing c)
    else Ret (drop_hashing c)
  end.

(** cache.c:163-165 ntfs_fetch_cache. The first entry of a hash chain that does
    not differ. *)
Fixpoint chain_find (fuel : nat) (c : cache) (compare : item -> item -> bool) (wanted : item) (link : Z) : outcome Z :=
  match fuel with
  | O => Fault
  | S fuel' =>
    if non_null link then
      let! l := rd (links c) link in
      let! e := rd (entries c) (h_entry l) in
      if compare (data e) wanted then chain_find fuel' c compare wanted (h_next l) else Ret (h_entry l)
    else Ret NULL
  end.

(** cache.c:174-178 ntfs_fetch_cache. The first entry of the LRU list that does
    not differ. *)
Fixpoint list_find (fuel : nat) (c : cache) (compare : item -> item -> bool) (wanted : item) (current : Z) : outcome Z :=
  match fuel with
  | O => Fault
  | S fuel' =>
    if non_null current then
      let! e := rd (entries c) current in
      if compare (data e) wanted then list_find fuel' c compare wanted (next e) else Ret current
    else Ret NULL
  end.

(** cache.c:155-179 ntfs_fetch_cache. *)
Definition find_entry (c : cache) (compare : item -> item -> bool) (wanted : item) : outcome Z :=
  match dohash c with
  | Some hash =>
    let! first := rd (first_hash c) (hash wanted) in
    chain_find (S (length (links c))) c compare wanted first
  | None => list_find (S (length (entries c))) c compare wanted (most_recent_entry c)
  end.

(** cache.c:180-201 ntfs_fetch_cache. The entry found becomes the head of the
    list. *)
Definition move_to_head (c : cache) (current : Z) : outcome cache :=
  let! e := rd (entries c) current in
  if non_null (previous e) then
    let! c := upd_entry c (previous e) (set_next (next e)) in
    let! c := (if non_null (next e) then upd_entry c (next e) (set_previous (previous e))
               else Ret (set_oldest (previous e) c)) in
    let! c := upd_entry c current (fun e => set_previous NULL (set_next (most_recent_entry c) e)) in
    let! c := upd_entry c (most_recent_entry c) (set_previous current) in
    Ret (set_mru current c)
  else Ret c.

(** cache.c:147-205 ntfs_fetch_cache *)
Definition ntfs_fetch_cache (c : cache) (wanted : item) (compare : item -> item -> bool) : outcome (cache * Z) :=
  let! current := find_entry c compare wanted in
  if non_null current then
    let! c := move_to_head c current in Ret (count_reads true c, current)
  else Ret (count_reads false c, NULL).

(** cache.c:259-269 ntfs_enter_cache. An entry of the free list. *)
Definition take_free (c : cache) (malloc : heap Z) (it : item) : outcome (cache * Z) :=
  let current := free_entry c in
  let! e := rd (entries c) current in
  let c := set_free (next e) c in
  let v := if negb (varsize it =? 0) then heap_alloc malloc (varsize it) else PNull in
  let! c := upd_entry c current (set_data (mkitem (payload (data e)) v (varsize it))) in
  Ret (if non_null (oldest_entry c) then c else set_oldest current c, current).

(** cache.c:270-295 ntfs_enter_cache. The oldest entry is used again. *)
Definition reuse_oldest (c : cache) (malloc : heap Z) (it : item) : outcome (cache * Z) :=
  let current := oldest_entry c in
  let! e := rd (entries c) current in
  let! c := upd_entry c (previous e) (set_next NULL) in
  let! c := (match dohash c with Some hash => drophashindex c current (hash (data e)) | None => Ret c end) in
  let c := if dofree c then call_dofree (data e) c else c in
  let c := set_oldest (previous e) c in
  let! v := (if negb (varsize it =? 0) then
               if negb (varsize (data e) =? 0) then heap_realloc malloc (variable (data e)) (varsize it)
               else Ret (heap_alloc malloc (varsize it))
             else
               let! _ := (if negb (varsize (data e) =? 0) then heap_free (variable (data e)) else Ret tt) in
               Ret PNull) in
  let! c := upd_entry c current (set_data (mkitem (payload (data e)) v (varsize it))) in
  Ret (c, current).

(** cache.c:296-322 ntfs_enter_cache. The entry becomes the head of the list and
    gets the data; without memory for its variable part it goes to the free
    list. *)
Definition fill_entry (c : cache) (current : Z) (it : item) : outcome (cache * Z) :=
  let! c := upd_entry c current (fun e => set_previous NULL (set_next (most_recent_entry c) e)) in
  let! c := (if non_null (most_recent_entry c) then upd_entry c (most_recent_entry c) (set_previous current)
             else Ret c) in
  let c := set_mru current c in
  let! c := upd_entry c current (fun e => set_data (mkitem (payload it) (variable (data e)) (varsize (data e))) e) in
  if negb (varsize it =? 0) then
    let! e := rd (entries c) current in
    match variable (data e) with
    | PNull =>
      let c := set_mru (next e) c in
      let! c := upd_entry c current (set_next (free_entry c)) in
      Ret (set_free current c, NULL)
    | PDangling => Fault
    | PBlock b =>
      match variable it with
      | PBlock x =>
        let! x := rdn x 0 (varsize it) in
        let! b := wrn b 0 x in
        let! c := upd_entry c current (set_data (mkitem (payload it) (PBlock b) (varsize it))) in
        Ret (c, current)
      | _ => Fault
      end
    end
  else
    let! c := upd_entry c current (set_data (mkitem (payload it) PNull 0)) in Ret (c, current).

(** cache.c:212-327 ntfs_enter_cache *)
Definition ntfs_enter_cache (c : cache) (malloc : heap Z) (it : item) (compare : item -> item -> bool)
  : outcome (cache * Z) :=
  let! current := find_entry c compare it in
  if non_null current then Ret (count_writes c, current)
  else
    let! r := (if non_null (free_entry c) then take_free c malloc it else reuse_oldest c malloc it) in
    let '(c, current) := r in
    let! r := fill_entry c current it in
    let '(c, current) := r in
    let! c := (if non_null current then inserthashindex c current else Ret c) in
    Ret (count_writes c, current).

(** cache.c:335-359 do_invalidate *)
Definition do_invalidate (c : cache) (current flags : Z) : outcome cache :=
  let! e := rd (entries c) current in
  let c := if negb (Z.land flags CACHE_FREE =? 0) && dofree c then call_dofree (data e) c else c in
  let! c := (if non_null (next e) then upd_entry c (next e) (set_previous (previous e))
             else Ret (set_oldest (previous e) c)) in
  let! c := (if non_null (previous e) then upd_entry c (previous e) (set_next (next e))
             else Ret (set_mru (next e) c)) in
  let! c := upd_entry c current (set_next (free_entry c)) in
  let c := set_free current c in
  let! _ := heap_free (variable (data e)) in
  upd_entry c current
    (set_data (mkitem (payload (data e)) (match variable (data e) with PNull => PNull | _ => PDangling end) 0)).

(** cache.c:394-407 ntfs_invalidate_cache. Along a hash chain. *)
Fixpoint invalidate_chain (fuel : nat) (c : cache) (it : item) (compare : item -> item -> bool)
    (h link flags count : Z) : outcome (cache * Z) :=
  match fuel with
  | O => Fault
  | S fuel' =>
    if non_null link then
      let! l := rd (links c) link in
      let! e := rd (entries c) (h_entry l) in
      if compare (data e) it then invalidate_chain fuel' c it compare h (h_next l) flags count
      else
        let! c := drophashindex c (h_entry l) h in
        let! c := do_invalidate c (h_entry l) flags in
        invalidate_chain fuel' c it compare h (h_next l) flags (s32 (count + 1))
    else Ret (c, count)
  end.

(** cache.c:413-426 ntfs_invalidate_cache. Along the LRU list. *)
Fixpoint invalidate_list (fuel : nat) (c : cache) (it : item) (compare : item -> item -> bool)
    (current flags count : Z) : outcome (cache * Z) :=
  match fuel with
  | O => Fault
  | S fuel' =>
    if non_null current then
      let! e := rd (entries c) current in
      if compare (data e) it then invalidate_list fuel' c it compare (next e) flags count
      else
        let! c := (match dohash c with Some hash => drophashindex c current (hash (data e)) | None => Ret c end) in
        let! c := do_invalidate c current flags in
        invalidate_list fuel' c it compare (next e) flags (s32 (count + 1))
    else Ret (c, count)
  end.

(** cache.c:374-430 ntfs_invalidate_cache *)
Definition ntfs_invalidate_cache (c : cache) (it : item) (compare : item -> item -> bool) (flags : Z)
  : outcome (cache * Z) :=
  let nohash := negb (Z.land flags CACHE_NOHASH =? 0) in
  let! r := (match dohash c with
             | Some hash =>
               if nohash then Ret (c, 0)
               else
                 let! link := rd (first_hash c) (hash it) in
                 invalidate_chain (S (length (links c))) c it compare (hash it) link flags 0
             | None => Ret (c, 0)
             end) in
  let '(c, count) := r in
  if nohash || (match dohash c with None => true | Some _ => false end)
  then invalidate_list (S (length (entries c))) c it compare (most_recent_entry c) flags count
  else Ret (c, count).

(** cache.c:432-445 ntfs_remove_cache. [p] is an entry of the cache. *)
Definition ntfs_remove_cache (c : cache) (p flags : Z) : outcome (cache * Z) :=
  let! e := rd (entries c) p in
  let! c := (match dohash c with Some hash => drophashindex c p (hash (data e)) | None => Ret c end) in
  let! c := do_invalidate c p flags in
  Ret (c, 1).

(** cache.c:456-461 ntfs_free_cache. What [dofree] is called with, from an
    entry on. *)
Fixpoint free_entries (fuel : nat) (c : cache) (current : Z) (calls : list item) : outcome (list item) :=
  match fuel with
  | O => Fault
  | S fuel' =>
    if non_null current then
      let! e := rd (entries c) current in
      let calls := if dofree c then calls ++ [data e] else calls in
      let! _ := heap_free (variable (data e)) in
      free_entries fuel' c (next e) calls
    else Ret calls
  end.

(** cache.c:451-464 ntfs_free_cache *)
Definition ntfs_free_cache (c : cache) : outcome (list item) :=
  free_entries (S (length (entries c))) c (most_recent_entry c) (freed c).

(** cache.c:502-545 ntfs_create_cache. [item_count] entries chained on the free
    list, and as many links; [blank] is the memory of an entry. *)
Definition ntfs_create_cache (malloc : bool) (blank : P) (df : bool) (hash : option (item -> Z)) (item_count mh : Z)
  : option cache :=
  if malloc then
    let chained (i : nat) : Z := if Z.of_nat i + 1 <? item_count then Z.of_nat i + 1 else NULL in
    let hashing := match hash with Some _ => negb (mh =? 0) | None => false end in
    Some (mkcache NULL NULL 0 (if negb (mh =? 0) then 0 else NULL)
      (if negb (mh =? 0) then replicate (Z.to_nat mh) NULL else [])
      df (if hashing then hash else None) 0 0 0 (if hashing then mh else 0)
      (map (fun i => mkentry (chained i) NULL (mkitem blank PNull 0)) (seq 0 (Z.to_nat item_count)))
      (if negb (mh =? 0) then map (fun i => mkhash (chained i) NULL) (seq 0 (Z.to_nat item_count)) else [])
      [])
  else None.
End Cache.

Arguments item P : clear implicits.
Arguments entry P : clear implicits.
Arguments cache P : clear implicits.
