(* ===== verification/CacheLists.v ===== *)
(** * The linked lists of a cache (ntfs/cache.c)

    What a doubly linked list of entries, a free list and a hash chain are, and
    how the assignments of the code change them. *)
From S2P Require Import Prelude Libc Cache.

(** The pointer to the first and to the last node of a list that is followed by
    [n] or preceded by [p]. *)
Definition head_of {X} (l : list (Z * X)) (n : Z) : Z := match l with [] => n | (a, _) :: _ => a end.
Fixpoint last_of {X} (p : Z) (l : list (Z * X)) : Z := match l with [] => p | (a, _) :: l' => last_of a l' end.
Definition first_of (l : list Z) : Z := match l with [] => NULL | a :: _ => a end.

Lemma head_of_app {X} (l k : list (Z * X)) n : head_of (l ++ k) n = head_of l (head_of k n).
Proof. by destruct l as [|[a x] l]. Qed.

Lemma last_of_app {X} p (l k : list (Z * X)) : last_of p (l ++ k) = last_of (last_of p l) k.
Proof. revert p. induction l as [|[a x] l IH]; intros p; cbn; [done|apply IH]. Qed.

Lemma last_of_in {X} p (l : list (Z * X)) : l <> [] -> last_of p l ∈ l.*1.
Proof.
  revert p. induction l as [|[a x] l IH]; intros p H; [done|]. cbn. destruct l as [|[b y] l]; [by left|].
  right. by apply IH.
Qed.

Lemma head_of_in {X} (l : list (Z * X)) n : l <> [] -> head_of l n ∈ l.*1.
Proof. destruct l as [|[a x] l]; [done|]. by left. Qed.

Lemma non_null_ge p : 0 <= p -> non_null p = true.
Proof. intros. unfold non_null, NULL. by destruct (Z.eqb_spec p (-1)); [lia|]. Qed.

(** Stores at other places. *)
Lemma rd_other {A} (l : list A) i j a : 0 <= i < zlen l -> i <> j -> rd (<[Z.to_nat i := a]> l) j = rd l j.
Proof.
  intros Hi Hne. destruct (Z.ltb_spec j 0) as [Hj|Hj].
  - by rewrite !rd_fault by lia.
  - rewrite rd_insert by lia. by destruct (Z.eqb_spec i j).
Qed.

Section Lists.
Context {P : Type}.
Implicit Types (es : list (entry P)) (l : list (Z * item P)).

(** The entries [l] are linked in both directions, from behind [p] to before
    [n]. *)
Fixpoint dseg es (p : Z) l (n : Z) : Prop :=
  match l with
  | [] => True
  | (a, d) :: l' => rd es a = Ret (mkentry (head_of l' n) p d) /\ dseg es a l' n
  end.

(** The entries [l] are linked as a free list. *)
Fixpoint fseg es (l : list Z) : Prop :=
  match l with
  | [] => True
  | a :: l' => (exists e, rd es a = Ret e /\ next e = first_of l') /\ fseg es l'
  end.

(** The links and entries [l] are a hash chain. *)
Fixpoint hseg (ls : list hash_entry) (l : list (Z * Z)) : Prop :=
  match l with
  | [] => True
  | (a, e) :: l' => rd ls a = Ret (mkhash (head_of l' NULL) e) /\ hseg ls l'
  end.

(** The links [l] are the free list. *)
Fixpoint lseg (ls : list hash_entry) (l : list Z) : Prop :=
  match l with
  | [] => True
  | a :: l' => (exists e, rd ls a = Ret e /\ h_next e = first_of l') /\ lseg ls l'
  end.

Lemma dseg_app es p l k n : dseg es p (l ++ k) n <-> dseg es p l (head_of k n) /\ dseg es (last_of p l) k n.
Proof.
  revert p. induction l as [|[a d] l IH]; intros p; cbn [dseg app last_of]; [naive_solver|].
  rewrite head_of_app, IH. naive_solver.
Qed.

Lemma dseg_frame es es' p l n : (forall a, a ∈ l.*1 -> rd es' a = rd es a) -> dseg es p l n -> dseg es' p l n.
Proof.
  revert p. induction l as [|[a d] l IH]; intros p Hf; cbn [dseg]; [done|].
  intros [H1 H2]. split; [rewrite Hf; [done|by left]|]. apply IH; [|done]. intros b Hb. apply Hf. by right.
Qed.

Lemma dseg_in es p l n a d : dseg es p l n -> (a, d) ∈ l -> exists e, rd es a = Ret e /\ data e = d.
Proof.
  revert p. induction l as [|[b x] l IH]; intros p; cbn [dseg]; [by intros _ ?%elem_of_nil|].
  intros [H1 H2] [[= -> ->]|H]%elem_of_cons; [by eexists|by eapply IH].
Qed.

Lemma dseg_range es p l n a : dseg es p l n -> a ∈ l.*1 -> 0 <= a < zlen es.
Proof.
  intros H (x & -> & Hx)%list_elem_of_fmap. destruct x as [a d]. destruct (dseg_in _ _ _ _ _ _ H Hx) as (e & E & _).
  by apply rd_bound in E.
Qed.

Lemma fseg_frame es es' (l : list Z) : (forall a, a ∈ l -> rd es' a = rd es a) -> fseg es l -> fseg es' l.
Proof.
  induction l as [|a l IH]; intros Hf; cbn [fseg]; [done|].
  intros [H1 H2]. split; [rewrite Hf; [done|by left]|]. apply IH; [|done]. intros b Hb. apply Hf. by right.
Qed.

Lemma fseg_range es (l : list Z) a : fseg es l -> a ∈ l -> 0 <= a < zlen es.
Proof.
  induction l as [|b l IH]; cbn [fseg]; [by intros _ ?%elem_of_nil|]. intros [(e & E & _) H] [->|Ha]%elem_of_cons.
  - by apply rd_bound in E.
  - by apply IH.
Qed.

Lemma first_of_range es (l : list Z) : fseg es l -> l <> [] -> 0 <= first_of l.
Proof. destruct l as [|a l]; [done|]. intros H _. apply (fseg_range es (a :: l)); [done|by left]. Qed.

Lemma hseg_frame ls ls' (l : list (Z * Z)) : (forall a, a ∈ l.*1 -> rd ls' a = rd ls a) -> hseg ls l -> hseg ls' l.
Proof.
  induction l as [|[a e] l IH]; intros Hf; cbn [hseg]; [done|].
  intros [H1 H2]. split; [rewrite Hf; [done|by left]|]. apply IH; [|done]. intros b Hb. apply Hf. by right.
Qed.

Lemma hseg_range ls (l : list (Z * Z)) a : hseg ls l -> a ∈ l.*1 -> 0 <= a < zlen ls.
Proof.
  induction l as [|[b e] l IH]; cbn [hseg]; [by intros _ ?%elem_of_nil|]. intros [E H] [->|Ha]%elem_of_cons.
  - by apply rd_bound in E.
  - by apply IH.
Qed.

Lemma hseg_app_r ls (l k : list (Z * Z)) : hseg ls (l ++ k) -> hseg ls k.
Proof. induction l as [|[a e] l IH]; cbn [hseg app]; [done|]. intros [_ H]. by apply IH. Qed.

Lemma lseg_frame ls ls' (l : list Z) : (forall a, a ∈ l -> rd ls' a = rd ls a) -> lseg ls l -> lseg ls' l.
Proof.
  induction l as [|a l IH]; intros Hf; cbn [lseg]; [done|].
  intros [H1 H2]. split; [rewrite Hf; [done|by left]|]. apply IH; [|done]. intros b Hb. apply Hf. by right.
Qed.

Lemma lseg_range ls (l : list Z) a : lseg ls l -> a ∈ l -> 0 <= a < zlen ls.
Proof.
  induction l as [|b l IH]; cbn [lseg]; [by intros _ ?%elem_of_nil|]. intros [(e & E & _) H] [->|Ha]%elem_of_cons.
  - by apply rd_bound in E.
  - by apply IH.
Qed.
End Lists.

(** ** Hash tables *)

Lemma concat_split {X} (chains : list (list X)) h ch :
  chains !! h = Some ch ->
  exists rest, concat chains ≡ₚ ch ++ rest /\ forall ch', concat (<[h := ch']> chains) ≡ₚ ch' ++ rest.
Proof.
  intros H. exists (concat (take h chains) ++ concat (drop (S h) chains)). pose proof (lookup_lt_Some _ _ _ H) as Hlt. split.
  - rewrite <- (take_drop_middle chains h ch H) at 1. rewrite concat_app. cbn [concat]. rewrite !(assoc_L (++)).
    by rewrite (Permutation_app_comm (concat (take h chains)) ch).
  - intros ch'. rewrite insert_take_drop by done. rewrite concat_app. cbn [concat]. rewrite !(assoc_L (++)).
    by rewrite (Permutation_app_comm (concat (take h chains)) ch').
Qed.

(** The table: [chains] are its chains, [fl] its free links. *)
Record htab (ls : list hash_entry) (first : list Z) (free : Z) (chains : list (list (Z * Z))) (fl : list Z) : Prop := {
  ht_first : first = map (fun ch => head_of ch NULL) chains;
  ht_chain : forall h ch, chains !! h = Some ch -> hseg ls ch;
  ht_free : lseg ls fl;
  ht_head : free = first_of fl;
  ht_nodup : NoDup ((concat chains).*1 ++ fl);
}.

Lemma ht_first_rd ls first free chains fl h ch :
  htab ls first free chains fl -> 0 <= h -> chains !! Z.to_nat h = Some ch -> rd first h = Ret (head_of ch NULL).
Proof.
  intros H Hh Hch. apply rd_lookup. split; [done|]. rewrite (ht_first _ _ _ _ _ H), list_lookup_fmap, Hch. done.
Qed.

Lemma in_chain {X} (chains : list (list X)) h ch x : chains !! h = Some ch -> x ∈ ch -> x ∈ concat chains.
Proof.
  intros Hch Hx. destruct (concat_split chains h ch Hch) as (rest & Hp & _). rewrite Hp. apply elem_of_app. by left.
Qed.

(** Other chains do not have the links of one. *)
Lemma chains_disjoint (chains : list (list (Z * Z))) h1 h2 c1 c2 a :
  NoDup ((concat chains).*1) -> chains !! h1 = Some c1 -> chains !! h2 = Some c2 -> h1 <> h2 -> a ∈ c1.*1 -> a ∈ c2.*1 -> False.
Proof.
  intros Hnd H1 H2 Hne Ha1 Ha2. destruct (concat_split chains h1 c1 H1) as (rest & Hp & Hp').
  rewrite Hp, fmap_app in Hnd. apply NoDup_app in Hnd as (_ & Hd & _). apply (Hd a Ha1).
  assert (a ∈ (concat (<[h1 := []]> chains)).*1) as Hin; [|by rewrite (Hp' []) in Hin].
  apply list_elem_of_fmap in Ha2 as (x & -> & Hx). apply list_elem_of_fmap. exists x. split; [done|].
  apply (in_chain _ h2 c2); [|done]. by rewrite list_lookup_insert_ne.
Qed.

(** *** A link is taken from the free list *)
Lemma htab_insert ls first free chains link fl h ch cur :
  htab ls first free chains (link :: fl) -> 0 <= h -> chains !! Z.to_nat h = Some ch ->
  exists l ls' fs, rd ls link = Ret l /\ wr ls link (mkhash (head_of ch NULL) cur) = Ret ls' /\ wr first h link = Ret fs /\
    zlen ls' = zlen ls /\ htab ls' fs (h_next l) (<[Z.to_nat h := (link, cur) :: ch]> chains) fl.
Proof.
  intros H Hh Hch. destruct H as [Hfirst Hchain [(l & El & Hl) Hfree] Hhead Hnd]. pose proof (rd_bound _ _ _ El) as Hlink.
  pose proof (lookup_lt_Some _ _ _ Hch) as Hlt.
  exists l. do 2 eexists. split; [done|]. split; [by apply wr_ok|].
  split; [apply wr_ok; rewrite Hfirst; unfold zlen; rewrite length_map; lia|]. split; [by rewrite zlen_insert|].
  destruct (concat_split chains (Z.to_nat h) ch Hch) as (rest & Hp & Hp').
  assert (NoDup ((link :: ch.*1 ++ rest.*1) ++ fl)) as Hnd'.
  { eapply NoDup_Permutation_proper; [|exact Hnd]. rewrite Hp, fmap_app. cbn. by rewrite Permutation_middle. }
  cbn [app] in Hnd'. apply NoDup_cons in Hnd' as [Hni Hnd']. constructor.
  - rewrite Hfirst. rewrite (list_fmap_insert (fun ch => head_of ch NULL)). done.
  - intros k c Hk. destruct (decide (k = Z.to_nat h)) as [->|Hne].
    + rewrite list_lookup_insert_eq in Hk by done. injection Hk as <-. split.
      * rewrite rd_insert by lia. by rewrite Z.eqb_refl.
      * eapply hseg_frame; [|by eapply Hchain]. intros a Ha. apply rd_other; [done|]. intros ->. apply Hni.
        apply elem_of_app. left. apply elem_of_app. by left.
    + rewrite list_lookup_insert_ne in Hk by done. eapply hseg_frame; [|by eapply Hchain]. intros a Ha. apply rd_other; [done|].
      intros ->. apply NoDup_app in Hnd as (_ & Hd & _). apply (Hd a); [|by left].
      apply list_elem_of_fmap in Ha as (x & -> & Hx). apply list_elem_of_fmap. exists x. split; [done|]. by eapply in_chain.
  - eapply lseg_frame; [|exact Hfree]. intros a Ha. apply rd_other; [done|]. intros ->. apply Hni. apply elem_of_app. by right.
  - done.
  - eapply NoDup_Permutation_proper; [rewrite (Hp' ((link, cur) :: ch)); reflexivity|]. rewrite fmap_app. cbn. by apply NoDup_cons.
Qed.

(** *** The link of an entry is dropped *)
Lemma find_link_ok ls ch1 link cur ch2 prev fuel :
  hseg ls (ch1 ++ (link, cur) :: ch2) -> cur ∉ ch1.*2 -> (length ch1 < fuel)%nat ->
  find_link fuel ls cur (head_of (ch1 ++ (link, cur) :: ch2) NULL) prev = Ret (link, last_of prev ch1).
Proof.
  revert prev fuel. induction ch1 as [|[a e] ch1 IH]; intros prev fuel Hs Hni Hf; (destruct fuel as [|fuel]; [cbn in Hf; lia|]);
    cbn [find_link app head_of last_of].
  - destruct Hs as [E _]. pose proof (rd_bound _ _ _ E). rewrite non_null_ge by lia. rewrite E. cbn. by rewrite Z.eqb_refl.
  - destruct Hs as [E Hs]. pose proof (rd_bound _ _ _ E). rewrite non_null_ge by lia. rewrite E. cbn [obind h_entry h_next].
    destruct (Z.eqb_spec e cur) as [->|]; [exfalso; apply Hni; by left|]. cbn [negb]. apply IH; [done| |cbn in Hf; lia].
    intros Hin. apply Hni. by right.
Qed.

Lemma last_of_split {X} p (l : list (Z * X)) : l <> [] -> exists l' x, l = l' ++ [(last_of p l, x)].
Proof.
  revert p. induction l as [|[a x] l IH]; intros p H; [done|]. cbn. destruct l as [|[b y] l]; [by exists [], x|].
  destruct (IH a ltac:(done)) as (l' & z & E). exists ((a, x) :: l'), z. cbn [app]. f_equal. exact E.
Qed.

(** [previous->next = link->next] in a chain. *)
Lemma hseg_unlink ls ch1 link cur ch2 p e :
  hseg ls (ch1 ++ (link, cur) :: ch2) -> NoDup (ch1 ++ (link, cur) :: ch2).*1 -> ch1 <> [] -> p = last_of NULL ch1 ->
  rd ls p = Ret e -> hseg (<[Z.to_nat p := mkhash (head_of ch2 NULL) (h_entry e)]> ls) (ch1 ++ ch2).
Proof.
  intros Hs Hnd Hne -> E. destruct (last_of_split NULL ch1 Hne) as (l' & x & Hl). set (p := last_of NULL ch1) in *. clearbody p. subst ch1.
  pose proof (rd_bound _ _ _ E) as Hp. clear Hne.
  revert Hs Hnd. induction l' as [|[a y] l' IH]; cbn [app hseg head_of]; intros Hs Hnd.
  - destruct Hs as (E1 & _ & Hs). split.
    + rewrite rd_insert by lia. rewrite Z.eqb_refl. rewrite E in E1. by injection E1 as ->.
    + eapply hseg_frame; [|exact Hs]. intros b Hb. apply rd_other; [done|]. intros ->.
      cbn in Hnd. apply NoDup_cons in Hnd as [Hni _]. apply Hni. by right.
  - destruct Hs as [E1 Hs]. cbn in Hnd. apply NoDup_cons in Hnd as [Hni Hnd]. split; [|by apply IH].
    rewrite rd_other; [|done|].
    + rewrite E1. rewrite !head_of_app. done.
    + intros ->. apply Hni. rewrite !fmap_app. apply elem_of_app. left. apply elem_of_app. right. by left.
Qed.

Lemma htab_drop ls first free chains fl h ch1 link cur ch2 fuel :
  htab ls first free chains fl -> 0 <= h -> chains !! Z.to_nat h = Some (ch1 ++ (link, cur) :: ch2) -> cur ∉ ch1.*2 ->
  (length ch1 < fuel)%nat ->
  exists l ls1 ls' fs,
    rd first h = Ret (head_of (ch1 ++ (link, cur) :: ch2) NULL) /\
    find_link fuel ls cur (head_of (ch1 ++ (link, cur) :: ch2) NULL) NULL = Ret (link, last_of NULL ch1) /\
    0 <= link /\ rd ls link = Ret l /\ h_next l = head_of ch2 NULL /\
    (if non_null (last_of NULL ch1) then
       let! p := rd ls (last_of NULL ch1) in
       let! ls := wr ls (last_of NULL ch1) (mkhash (h_next l) (h_entry p)) in Ret (ls, first)
     else let! fs := wr first h (h_next l) in Ret (ls, fs)) = Ret (ls1, fs) /\
    wr ls1 link (mkhash free (h_entry l)) = Ret ls' /\ zlen ls' = zlen ls /\
    htab ls' fs link (<[Z.to_nat h := ch1 ++ ch2]> chains) (link :: fl).
Proof.
  intros H Hh Hch Hni Hf. pose proof (ht_first_rd _ _ _ _ _ _ _ H Hh Hch) as Efirst. destruct H as [Hfirst Hchain Hfree Hhead Hnd].
  pose proof (Hchain _ _ Hch) as Hseg. pose proof (hseg_app_r _ _ _ Hseg) as [Elink _].
  pose proof (lookup_lt_Some _ _ _ Hch) as Hlt. pose proof (rd_bound _ _ _ Elink) as Hlink.
  destruct (concat_split chains (Z.to_nat h) _ Hch) as (rest & Hp & Hp').
  assert (NoDup ((ch1 ++ (link, cur) :: ch2).*1 ++ rest.*1 ++ fl)) as Hnd1.
  { eapply NoDup_Permutation_proper; [|exact Hnd]. by rewrite Hp, !fmap_app, <- !(assoc_L (++)). }
  pose proof Hnd1 as Hnd2. apply NoDup_app in Hnd2 as (Hndch & Hdis & Hndrest).
  assert (NoDup (link :: (ch1.*1 ++ ch2.*1) ++ rest.*1 ++ fl)) as Hnd3.
  { eapply NoDup_Permutation_proper; [|exact Hnd1]. rewrite fmap_app, <- !(assoc_L (++)). apply Permutation_middle. }
  apply NoDup_cons in Hnd3 as [Hlni Hnd3].
  set (ls1 := if non_null (last_of NULL ch1) then match rd ls (last_of NULL ch1) with Ret p =>
      <[Z.to_nat (last_of NULL ch1) := mkhash (head_of ch2 NULL) (h_entry p)]> ls | _ => ls end else ls).
  set (fs := if non_null (last_of NULL ch1) then first else <[Z.to_nat h := head_of ch2 NULL]> first).
  exists (mkhash (head_of ch2 NULL) cur), ls1, (<[Z.to_nat link := mkhash free cur]> ls1), fs.
  assert (ch1 = [] \/ ch1 <> [] /\ exists p, rd ls (last_of NULL ch1) = Ret p) as Hcase.
  { destruct (decide (ch1 = [])) as [->|Hne]; [by left|right]. split; [done|]. apply rd_some.
    apply (hseg_range ls (ch1 ++ (link, cur) :: ch2)); [done|]. rewrite fmap_app. apply elem_of_app. left. by apply last_of_in. }
  assert (zlen ls1 = zlen ls) as Hz1.
  { unfold ls1. destruct (non_null _); [|done]. destruct (rd ls (last_of NULL ch1)); [by rewrite zlen_insert|done..]. }
  assert (forall a, a ∉ ch1.*1 -> rd ls1 a = rd ls a) as Hls1.
  { intros a Ha. unfold ls1. destruct Hcase as [->|[Hne [p E]]]; [done|]. pose proof (rd_bound _ _ _ E).
    rewrite non_null_ge by lia. rewrite E. apply rd_other; [done|]. intros <-. apply Ha. by apply last_of_in. }
  split_and!; [done|by apply find_link_ok|lia|done|done| |by apply wr_ok; lia|by rewrite zlen_insert|].
  { unfold ls1, fs. destruct Hcase as [->|[Hne [p E]]].
    - cbn. rewrite wr_ok; [done|]. rewrite Hfirst. unfold zlen. rewrite length_map. lia.
    - pose proof (rd_bound _ _ _ E). rewrite non_null_ge by lia. rewrite E. cbn [obind h_next]. by rewrite wr_ok by lia. }
  constructor.
  - assert (first = (fun ch => head_of ch NULL) <$> chains) as Hfirst' by exact Hfirst.
    assert (map (fun ch : list (Z * Z) => head_of ch NULL) (<[Z.to_nat h := ch1 ++ ch2]> chains) = <[Z.to_nat h := head_of (ch1 ++ ch2) NULL]> first) as ->.
    { rewrite Hfirst'. apply (list_fmap_insert (fun ch => head_of ch NULL)). }
    unfold fs. destruct Hcase as [->|[Hne [p E]]].
    + cbn [last_of]. unfold non_null, NULL. cbn. done.
    + pose proof (rd_bound _ _ _ E). rewrite non_null_ge by lia. rewrite list_insert_id; [done|].
      apply rd_lookup in Efirst as [_ ->]. f_equal. rewrite !head_of_app. by destruct ch1 as [|[??] ?].
  - intros k c Hk. assert (link ∉ c.*1) as Hlc.
    { intros Hin. destruct (decide (k = Z.to_nat h)) as [->|Hne].
      - rewrite list_lookup_insert_eq in Hk by done. injection Hk as <-. apply Hlni. apply elem_of_app. left. by rewrite fmap_app in Hin.
      - rewrite list_lookup_insert_ne in Hk by done. apply NoDup_app in Hnd as (Hnd & _).
        eapply (chains_disjoint chains k (Z.to_nat h)); [exact Hnd|exact Hk|exact Hch|done|exact Hin|].
        rewrite fmap_app. apply elem_of_app. right. by left. }
    eapply (hseg_frame ls1); [intros a Ha; apply rd_other; [lia|]; by intros ->|].
    destruct (decide (k = Z.to_nat h)) as [->|Hne].
    + rewrite list_lookup_insert_eq in Hk by done. injection Hk as <-. unfold ls1. destruct Hcase as [->|[Hne [p E]]].
      * cbn. apply (hseg_app_r _ [(link, cur)]). by cbn in Hseg.
      * pose proof (rd_bound _ _ _ E). rewrite non_null_ge by lia. rewrite E. by eapply (hseg_unlink ls ch1 link cur ch2).
    + rewrite list_lookup_insert_ne in Hk by done. eapply hseg_frame; [|by eapply Hchain]. intros a Ha. apply Hls1. intros Ha1.
      apply NoDup_app in Hnd as (Hnd & _).
      eapply (chains_disjoint chains k (Z.to_nat h)); [exact Hnd|exact Hk|exact Hch|done|exact Ha|].
      rewrite fmap_app. apply elem_of_app. by left.
  - cbn [lseg]. split.
    + eexists. split; [rewrite rd_insert by lia; rewrite Z.eqb_refl; done|done].
    + eapply (lseg_frame ls); [|exact Hfree]. intros a Ha. rewrite rd_other; [|lia|].
      * apply Hls1. intros Ha1. apply (Hdis a); [rewrite fmap_app; apply elem_of_app; by left|apply elem_of_app; by right].
      * intros ->. apply Hlni. apply elem_of_app. right. apply elem_of_app. by right.
  - done.
  - eapply NoDup_Permutation_proper; [rewrite (Hp' (ch1 ++ ch2)); reflexivity|]. rewrite !fmap_app.
    eapply NoDup_Permutation_proper; [symmetry; apply Permutation_middle|]. apply NoDup_cons. split; [|by rewrite <- (assoc_L (++))].
    by rewrite <- (assoc_L (++)).
Qed.
