(* ===== verification/CacheRep.v ===== *)
(** * The representation of a cache (ntfs/cache.c)

    The invariant [rep] of the pointer structure, the list of entries it stands
    for, and what the building blocks of the operations do to it. *)
From S2P Require Import Prelude Libc Cache CacheLists.

Section Rep.
Context {P : Type}.
Implicit Types (c : cache P) (es : list (entry P)).

(** ** Segments around an entry *)
Definition same_but (S : list Z) es es' : Prop := zlen es' = zlen es /\ forall b, b ∉ S -> rd es' b = rd es b.

Lemma same_but_refl S es : same_but S es es.
Proof using. by split. Qed.

Lemma same_but_trans S es1 es2 es3 : same_but S es1 es2 -> same_but S es2 es3 -> same_but S es1 es3.
Proof using. intros [H1 H2] [H3 H4]. split; [lia|]. intros b Hb. by rewrite H4, H2. Qed.

Lemma same_but_insert S es a e : 0 <= a < zlen es -> a ∈ S -> same_but S es (<[Z.to_nat a := e]> es).
Proof using. intros Ha Hin. split; [by rewrite zlen_insert|]. intros b Hb. apply rd_other; [done|]. by intros ->. Qed.

Lemma same_but_mono S S' es es' : (forall a, a ∈ S -> a ∈ S') -> same_but S es es' -> same_but S' es es'.
Proof using. intros H [H1 H2]. split; [done|]. intros b Hb. apply H2. intros Hin. by apply Hb, H. Qed.

(** [l1->next = x] of the last entry of a segment. *)
Lemma dseg_set_next es p l n x :
  dseg es p l n -> NoDup l.*1 -> l <> [] ->
  exists e, rd es (last_of p l) = Ret e /\ dseg (<[Z.to_nat (last_of p l) := set_next x e]> es) p l x.
Proof using.
  revert p. induction l as [|[a d] l IH]; intros p Hs Hnd Hne; [done|]. cbn [dseg last_of] in *. destruct Hs as [E Hs].
  cbn in Hnd. apply NoDup_cons in Hnd as [Hni Hnd]. pose proof (rd_bound _ _ _ E). destruct l as [|b l].
  - cbn [last_of head_of]. eexists. split; [exact E|]. split; [|done]. rewrite rd_insert by lia. by rewrite Z.eqb_refl.
  - destruct (IH a Hs Hnd ltac:(done)) as (e & Ee & Hs'). exists e. split; [done|]. split; [|done].
    pose proof (rd_bound _ _ _ Ee). rewrite rd_other; [|lia|].
    + rewrite E. by destruct b.
    + intros Heq. apply Hni. rewrite <- Heq at 1. by apply last_of_in.
Qed.

(** [l2->previous = x] of its first entry. *)
Lemma dseg_set_previous es p l n x :
  dseg es p l n -> NoDup l.*1 -> l <> [] ->
  exists e, rd es (head_of l n) = Ret e /\ dseg (<[Z.to_nat (head_of l n) := set_previous x e]> es) x l n.
Proof using.
  intros Hs Hnd Hne. destruct l as [|[a d] l]; [done|]. cbn [dseg head_of] in *. destruct Hs as [E Hs].
  cbn in Hnd. apply NoDup_cons in Hnd as [Hni Hnd]. pose proof (rd_bound _ _ _ E).
  eexists. split; [exact E|]. split; [rewrite rd_insert by lia; by rewrite Z.eqb_refl|].
  eapply dseg_frame; [|exact Hs]. intros b Hb. apply rd_other; [lia|]. by intros ->.
Qed.

(** The segments before and behind an entry [a] that is being unlinked. *)
Record around es (l1 : list (Z * item P)) (n1 a : Z) (ea : entry P) (p2 : Z) (l2 : list (Z * item P)) : Prop := {
  ar_before : dseg es NULL l1 n1;
  ar_at : rd es a = Ret ea;
  ar_behind : dseg es p2 l2 NULL;
  ar_nodup : NoDup (l1.*1 ++ a :: l2.*1);
}.

Lemma around_split es l1 a d l2 :
  dseg es NULL (l1 ++ (a, d) :: l2) NULL -> NoDup (l1 ++ (a, d) :: l2).*1 ->
  around es l1 a a (mkentry (head_of l2 NULL) (last_of NULL l1) d) a l2.
Proof using.
  intros Hs Hnd. apply dseg_app in Hs as [H1 H2]. cbn [dseg head_of] in *. destruct H2 as [E H2].
  rewrite fmap_app in Hnd. by constructor.
Qed.

Lemma around_next es l1 n1 a ea p2 l2 x :
  around es l1 n1 a ea p2 l2 -> l1 <> [] ->
  exists e, rd es (last_of NULL l1) = Ret e /\ around (<[Z.to_nat (last_of NULL l1) := set_next x e]> es) l1 x a ea p2 l2.
Proof using.
  intros [H1 E H2 Hnd] Hne. pose proof Hnd as (Hnd1 & Hdis & Hnd2)%NoDup_app.
  destruct (dseg_set_next es NULL l1 n1 x H1 Hnd1 Hne) as (e & Ee & H1'). exists e. split; [done|].
  pose proof (rd_bound _ _ _ Ee). pose proof (last_of_in NULL l1 Hne) as Hin. constructor; [done| | |done].
  - rewrite rd_other; [done|lia|]. intros Heq. apply (Hdis (last_of NULL l1) Hin). rewrite Heq. by left.
  - eapply dseg_frame; [|exact H2]. intros b Hb. apply rd_other; [lia|]. intros <-. apply (Hdis _ Hin). by right.
Qed.

Lemma around_previous es l1 n1 a ea p2 l2 x :
  around es l1 n1 a ea p2 l2 -> l2 <> [] ->
  exists e, rd es (head_of l2 NULL) = Ret e /\ around (<[Z.to_nat (head_of l2 NULL) := set_previous x e]> es) l1 n1 a ea x l2.
Proof using.
  intros [H1 E H2 Hnd] Hne. pose proof Hnd as (Hnd1 & Hdis & Hnd2)%NoDup_app. apply NoDup_cons in Hnd2 as [Hni Hnd2].
  destruct (dseg_set_previous es p2 l2 NULL x H2 Hnd2 Hne) as (e & Ee & H2'). exists e. split; [done|].
  pose proof (rd_bound _ _ _ Ee). pose proof (head_of_in l2 NULL Hne) as Hin. constructor; [|rewrite rd_other; [done|lia|]; by intros Heq; apply Hni; rewrite <- Heq|done|done].
  eapply dseg_frame; [|exact H1]. intros b Hb. apply rd_other; [lia|]. intros <-. apply (Hdis _ Hb). by right.
Qed.

Lemma upd_entry_ok c a f e :
  rd (entries c) a = Ret e -> upd_entry c a f = Ret (set_entries (<[Z.to_nat a := f e]> (entries c)) c).
Proof using. intros E. unfold upd_entry. rewrite E. cbn [obind]. by rewrite wr_ok by (by eapply rd_bound). Qed.

Lemma non_null_last (l : list (Z * item P)) es n : dseg es NULL l n -> l <> [] -> non_null (last_of NULL l) = true.
Proof using. intros Hs Hne. apply non_null_ge. eapply dseg_range; [exact Hs|by apply last_of_in]. Qed.

Lemma non_null_head (l : list (Z * item P)) es p n : dseg es p l n -> l <> [] -> non_null (head_of l n) = true.
Proof using. intros Hs Hne. apply non_null_ge. eapply dseg_range; [exact Hs|by apply head_of_in]. Qed.

(** Unlinking: [previous->next = next] and [next->previous = previous], or the
    ends of the list, in either order. *)
Definition link_next c (p n : Z) : outcome (cache P) :=
  if non_null p then upd_entry c p (set_next n) else Ret (set_mru n c).
Definition link_previous c (p n : Z) : outcome (cache P) :=
  if non_null n then upd_entry c n (set_previous p) else Ret (set_oldest p c).

Lemma link_next_ok c l1 n1 a ea p2 l2 n :
  around (entries c) l1 n1 a ea p2 l2 -> most_recent_entry c = head_of l1 a ->
  exists es, link_next c (last_of NULL l1) n = Ret (set_mru (head_of l1 n) (set_entries es c)) /\
    around es l1 n a ea p2 l2 /\ same_but l1.*1 (entries c) es.
Proof using.
  intros Ha Hm. unfold link_next. destruct (decide (l1 = [])) as [->|Hne].
  - exists (entries c). cbn [last_of head_of]. change (non_null NULL) with false. split; [by destruct c|]. split; [|apply same_but_refl].
    by destruct Ha.
  - destruct (around_next _ _ _ _ _ _ _ n Ha Hne) as (e & E & Ha'). pose proof (rd_bound _ _ _ E).
    rewrite non_null_ge, (upd_entry_ok _ _ _ e) by (done || lia). eexists. split; [|split; [exact Ha'|]].
    + destruct l1 as [|[b x] l1]; [done|]. cbn in *. by destruct c; cbn in *; subst.
    + apply same_but_insert; [lia|]. by apply last_of_in.
Qed.

Lemma link_previous_ok c l1 n1 a ea p2 l2 p :
  around (entries c) l1 n1 a ea p2 l2 -> oldest_entry c = last_of a l2 ->
  exists es, link_previous c p (head_of l2 NULL) = Ret (set_oldest (last_of p l2) (set_entries es c)) /\
    around es l1 n1 a ea p l2 /\ same_but l2.*1 (entries c) es.
Proof using.
  intros Ha Hm. unfold link_previous. destruct (decide (l2 = [])) as [->|Hne].
  - exists (entries c). cbn [last_of head_of]. change (non_null NULL) with false. split; [by destruct c|]. split; [|apply same_but_refl].
    by destruct Ha.
  - destruct (around_previous _ _ _ _ _ _ _ p Ha Hne) as (e & E & Ha'). pose proof (rd_bound _ _ _ E).
    rewrite non_null_ge, (upd_entry_ok _ _ _ e) by (done || lia). eexists. split; [|split; [exact Ha'|]].
    + destruct l2 as [|[b x] l2]; [done|]. cbn in *. by destruct c; cbn in *; subst.
    + apply same_but_insert; [lia|]. by apply head_of_in.
Qed.

(** ** The list part of the invariant *)
Record lrep c (l : list (Z * item P)) (fr : list Z) : Prop := {
  lr_seg : dseg (entries c) NULL l NULL;
  lr_mru : most_recent_entry c = head_of l NULL;
  lr_old : oldest_entry c = last_of NULL l;
  lr_free : fseg (entries c) fr;
  lr_first : free_entry c = first_of fr;
  lr_nodup : NoDup (l.*1 ++ fr);
  lr_count : (length l + length fr = length (entries c))%nat;
}.

(** An entry taken out of the list, with the caller's assignments to follow. *)
Record unlinked c (l1 : list (Z * item P)) (a : Z) (d : item P) (l2 : list (Z * item P)) (fr : list Z) es : Prop := {
  un_seg : dseg es NULL (l1 ++ l2) NULL;
  un_at : exists e, rd es a = Ret e /\ data e = d /\ previous e = last_of NULL l1 /\ next e = head_of l2 NULL;
  un_free : fseg es fr;
  un_same : same_but (l1.*1 ++ l2.*1) (entries c) es;
}.

Lemma around_join es l1 a ea l2 : around es l1 (head_of l2 NULL) a ea (last_of NULL l1) l2 -> dseg es NULL (l1 ++ l2) NULL.
Proof using. intros [H1 _ H2 _]. by apply dseg_app. Qed.

Lemma lrep_around c l1 a d l2 fr :
  lrep c (l1 ++ (a, d) :: l2) fr -> around (entries c) l1 a a (mkentry (head_of l2 NULL) (last_of NULL l1) d) a l2.
Proof using. intros H. apply around_split; [apply (lr_seg _ _ _ H)|]. by apply lr_nodup, NoDup_app in H as (H & _). Qed.

Lemma unlinked_of c l1 a d l2 fr es :
  lrep c (l1 ++ (a, d) :: l2) fr ->
  around es l1 (head_of l2 NULL) a (mkentry (head_of l2 NULL) (last_of NULL l1) d) (last_of NULL l1) l2 ->
  same_but (l1.*1 ++ l2.*1) (entries c) es -> unlinked c l1 a d l2 fr es.
Proof using.
  intros H Ha Hs. constructor; [by eapply around_join|by eexists; split; [apply (ar_at _ _ _ _ _ _ _ Ha)|]| |done].
  eapply fseg_frame; [|apply (lr_free _ _ _ H)]. intros b Hb. apply Hs. intros Hin. pose proof (lr_nodup _ _ _ H) as Hnd.
  apply NoDup_app in Hnd as (_ & Hd & _). apply (Hd b); [|done]. rewrite fmap_app. cbn.
  apply elem_of_app in Hin as [?|?]; apply elem_of_app; [by left|right; by right].
Qed.

Lemma same_but_app_l S S' es es' : same_but S es es' -> same_but (S ++ S') es es'.
Proof using. apply same_but_mono. intros a Ha. apply elem_of_app. by left. Qed.
Lemma same_but_app_r S S' es es' : same_but S' es es' -> same_but (S ++ S') es es'.
Proof using. apply same_but_mono. intros a Ha. apply elem_of_app. by right. Qed.

(** In the order of [ntfs_fetch_cache]. *)
Lemma unlink_fetch c l1 a d l2 fr :
  lrep c (l1 ++ (a, d) :: l2) fr ->
  exists es, (let! c := link_next c (last_of NULL l1) (head_of l2 NULL) in link_previous c (last_of NULL l1) (head_of l2 NULL)) =
      Ret (set_mru (head_of (l1 ++ l2) NULL) (set_oldest (last_of NULL (l1 ++ l2)) (set_entries es c))) /\
    unlinked c l1 a d l2 fr es.
Proof using.
  intros H. pose proof (lrep_around _ _ _ _ _ _ H) as Ha.
  destruct (link_next_ok c l1 _ _ _ _ _ (head_of l2 NULL) Ha) as (es1 & -> & Ha1 & Hs1).
  { rewrite (lr_mru _ _ _ H), head_of_app. by destruct l1 as [|[??]?]. }
  cbn [obind]. destruct (link_previous_ok (set_mru (head_of l1 (head_of l2 NULL)) (set_entries es1 c)) l1 _ _ _ _ _ (last_of NULL l1) Ha1)
    as (es & -> & Ha2 & Hs2).
  { cbn. by rewrite (lr_old _ _ _ H), last_of_app. }
  exists es. split; [by rewrite head_of_app, last_of_app|]. eapply unlinked_of; [done|done|].
  eapply same_but_trans; [by apply same_but_app_l|by apply same_but_app_r].
Qed.

(** In the order of [do_invalidate]. *)
Lemma unlink_invalidate c l1 a d l2 fr :
  lrep c (l1 ++ (a, d) :: l2) fr ->
  exists es, (let! c := link_previous c (last_of NULL l1) (head_of l2 NULL) in link_next c (last_of NULL l1) (head_of l2 NULL)) =
      Ret (set_mru (head_of (l1 ++ l2) NULL) (set_oldest (last_of NULL (l1 ++ l2)) (set_entries es c))) /\
    unlinked c l1 a d l2 fr es.
Proof using.
  intros H. pose proof (lrep_around _ _ _ _ _ _ H) as Ha.
  destruct (link_previous_ok c l1 _ _ _ _ _ (last_of NULL l1) Ha) as (es1 & -> & Ha1 & Hs1).
  { by rewrite (lr_old _ _ _ H), last_of_app. }
  cbn [obind]. destruct (link_next_ok (set_oldest (last_of (last_of NULL l1) l2) (set_entries es1 c)) l1 _ _ _ _ _ (head_of l2 NULL) Ha1)
    as (es & -> & Ha2 & Hs2).
  { cbn. rewrite (lr_mru _ _ _ H), head_of_app. by destruct l1 as [|[??]?]. }
  exists es. split; [by rewrite head_of_app, last_of_app|]. eapply unlinked_of; [done|done|].
  eapply same_but_trans; [by apply same_but_app_r|by apply same_but_app_l].
Qed.

(** ** An entry outside of the lists *)
Record detached c (l : list (Z * item P)) (a : Z) (e : entry P) (fr : list Z) : Prop := {
  de_seg : dseg (entries c) NULL l NULL;
  de_mru : most_recent_entry c = head_of l NULL;
  de_old : oldest_entry c = last_of a l;
  de_at : rd (entries c) a = Ret e;
  de_free : fseg (entries c) fr;
  de_first : free_entry c = first_of fr;
  de_nodup : NoDup (a :: l.*1 ++ fr);
  de_count : (S (length l + length fr) = length (entries c))%nat;
}.

(** What the operations on the lists leave alone. *)
Record frame c c' : Prop := {
  fm_first : first_hash c' = first_hash c;
  fm_free : free_hash c' = free_hash c;
  fm_links : links c' = links c;
  fm_dohash : dohash c' = dohash c;
  fm_max : max_hash c' = max_hash c;
  fm_dofree : dofree c' = dofree c;
  fm_len : length (entries c') = length (entries c);
}.

Lemma frame_refl c : frame c c.
Proof using. by constructor. Qed.

Lemma frame_trans c1 c2 c3 : frame c1 c2 -> frame c2 c3 -> frame c1 c3.
Proof using. intros [] []. constructor; congruence. Qed.

Lemma frame_entries c es m o f : length es = length (entries c) -> frame c (set_mru m (set_oldest o (set_free f (set_entries es c)))).
Proof using. by constructor. Qed.

Lemma same_but_length S es es' : same_but S es es' -> length es' = length es.
Proof using. intros [H _]. unfold zlen in H. lia. Qed.

(** The entry becomes the head of the list. *)
Lemma push_ok c l a e fr :
  detached c l a e fr ->
  exists c', (let! c := upd_entry c a (fun e => set_previous NULL (set_next (most_recent_entry c) e)) in
     let! c := (if non_null (most_recent_entry c) then upd_entry c (most_recent_entry c) (set_previous a) else Ret c) in
     Ret (set_mru a c)) = Ret c' /\ lrep c' ((a, data e) :: l) fr /\ frame c c' /\ freed c' = freed c.
Proof using.
  intros [Hs Hm Ho E Hf Hfe Hnd Hc]. apply NoDup_cons in Hnd as [Hni Hnd]. pose proof (rd_bound _ _ _ E) as Hb.
  assert (a ∉ l.*1 /\ a ∉ fr) as [Hal Haf] by (split; intros ?; apply Hni, elem_of_app; auto).
  rewrite (upd_entry_ok _ _ _ e E). cbn [obind]. set (es1 := <[_ := _]> _).
  assert (dseg es1 NULL l NULL) as Hs1 by (eapply dseg_frame; [|exact Hs]; intros b Hb'; apply rd_other; [lia|by intros ->]).
  assert (rd es1 a = Ret (mkentry (head_of l NULL) NULL (data e))) as E1.
  { unfold es1. rewrite rd_insert, Z.eqb_refl, Hm by lia. done. }
  assert (exists es2, (if non_null (most_recent_entry (set_entries es1 c)) then upd_entry (set_entries es1 c) (most_recent_entry (set_entries es1 c)) (set_previous a)
     else Ret (set_entries es1 c)) = Ret (set_entries es2 c) /\ dseg es2 a l NULL /\ same_but l.*1 es1 es2) as (es2 & -> & Hs2 & Hsame).
  { cbn [most_recent_entry set_entries]. rewrite Hm. destruct (decide (l = [])) as [->|Hne].
    - exists es1. split_and!; [done|done|apply same_but_refl].
    - destruct (dseg_set_previous es1 NULL l NULL a Hs1) as (e2 & E2 & Hs2); [by apply NoDup_app in Hnd as (? & _)|done|].
      pose proof (rd_bound _ _ _ E2). rewrite non_null_ge, (upd_entry_ok _ _ _ e2) by (done || lia).
      eexists. split_and!; [done|exact Hs2|]. apply same_but_insert; [cbn; lia|by apply head_of_in]. }
  cbn [obind]. eexists. split; [done|]. pose proof (same_but_length _ _ _ Hsame) as Hlen.
  assert (length es1 = length (entries c)) as Hlen1 by apply length_insert.
  split; [|split; [|done]].
  2:{ constructor; cbn; congruence. }
  destruct Hsame as [Hz Hsame]. constructor; cbn.
  - split; [rewrite Hsame by done; exact E1|done].
  - done.
  - done.
  - eapply fseg_frame; [|exact Hf]. intros b Hb'. rewrite Hsame.
    + apply rd_other; [lia|]. by intros ->.
    + intros Hin. apply NoDup_app in Hnd as (_ & Hd & _). by apply (Hd b).
  - done.
  - by apply NoDup_cons.
  - lia.
Qed.

(** The data of the head of the list are set. *)
Lemma head_data_ok c l a d fr f d' :
  lrep c ((a, d) :: l) fr -> (forall e, data e = d -> f e = set_data d' e) ->
  exists c', upd_entry c a f = Ret c' /\ lrep c' ((a, d') :: l) fr /\ frame c c' /\ freed c' = freed c.
Proof using.
  intros H Hf. pose proof H as [[E Hs] Hm Ho Hfr Hfe Hnd Hc]. cbn in Hnd. pose proof Hnd as [Hni Hnd']%NoDup_cons.
  pose proof (rd_bound _ _ _ E) as Hb. rewrite (upd_entry_ok _ _ _ _ E), Hf by done. eexists. split; [done|].
  split; [|split; [by constructor; cbn; rewrite ?length_insert|done]]. constructor; cbn.
  - split; [rewrite rd_insert, Z.eqb_refl by lia; done|]. eapply dseg_frame; [|exact Hs]. intros b Hb'. apply rd_other; [lia|].
    intros ->. apply Hni, elem_of_app. by left.
  - done.
  - done.
  - eapply fseg_frame; [|exact Hfr]. intros b Hb'. apply rd_other; [lia|]. intros ->. apply Hni, elem_of_app. by right.
  - done.
  - done.
  - rewrite length_insert. cbn in Hc. lia.
Qed.

(** ** The hash part of the invariant *)
Definition hrep_at c (hash : item P -> Z) (l : list (Z * item P)) (chains : list (list (Z * Z))) (fl : list Z) : Prop :=
    htab (links c) (first_hash c) (free_hash c) chains fl /\ zlen chains = max_hash c /\
    (concat chains).*2 ≡ₚ l.*1 /\ (length (concat chains) + length fl = length (links c))%nat /\
    length (links c) = length (entries c) /\
    forall h ch a e d, chains !! h = Some ch -> (a, e) ∈ ch -> (e, d) ∈ l -> hash d = Z.of_nat h.

Definition hrep c (hash : item P -> Z) (l : list (Z * item P)) : Prop := exists chains fl, hrep_at c hash l chains fl.

Definition hash_ok c (l : list (Z * item P)) : Prop :=
  match dohash c with None => True | Some hash => hrep c hash l end.

Lemma hrep_frame c c' hash l : frame c c' -> hrep c hash l -> hrep c' hash l.
Proof using.
  intros [H1 H2 H3 _ H5 _ H6] (chains & fl & H). exists chains, fl. unfold hrep_at in *. by rewrite H1, H2, H3, H5, H6.
Qed.

Lemma hash_ok_frame c c' l : frame c c' -> hash_ok c l -> hash_ok c' l.
Proof using. intros Hf. unfold hash_ok. rewrite (fm_dohash _ _ Hf). destruct (dohash c); [by apply hrep_frame|done]. Qed.

Lemma hrep_perm c hash l l' : l ≡ₚ l' -> hrep c hash l -> hrep c hash l'.
Proof using.
  intros Hp (chains & fl & H1 & H2 & H3 & H4 & H5 & H6). exists chains, fl. split_and!; [done|done|by rewrite <- Hp|done|done|].
  intros h ch a e d Hch Hin Hd. eapply H6; [done|done|]. by rewrite Hp.
Qed.

Lemma hash_ok_perm c l l' : l ≡ₚ l' -> hash_ok c l -> hash_ok c l'.
Proof using. intros Hp. unfold hash_ok. destruct (dohash c); [by apply hrep_perm|done]. Qed.

Lemma chain_at {X} (chains : list (list X)) x : x ∈ concat chains -> exists h ch, chains !! h = Some ch /\ x ∈ ch.
Proof using.
  induction chains as [|c chains IH]; cbn; [by intros ?%elem_of_nil|]. intros [H|H]%elem_of_app; [by exists 0%nat, c|].
  destruct (IH H) as (h & ch & Hh & Hx). by exists (S h), ch.
Qed.

Lemma chain_length {X} (chains : list (list X)) h ch : chains !! h = Some ch -> (length ch <= length (concat chains))%nat.
Proof using. intros H. destruct (concat_split chains h ch H) as (rest & -> & _). rewrite length_app. lia. Qed.

Lemma insert_index_ok c hash l a e :
  hrep c hash l -> dohash c = Some hash -> rd (entries c) a = Ret e -> a ∉ l.*1 -> (length l < length (entries c))%nat ->
  0 <= hash (data e) < max_hash c ->
  exists fh fs ls, inserthashindex c a = Ret (set_hashing fh fs ls c) /\ hrep (set_hashing fh fs ls c) hash ((a, data e) :: l).
Proof using.
  intros (chains & fl & Ht & Hz & Hp & Hlen & Hlinks & Hhash) Hd E Hni Hlt Hr. unfold inserthashindex. rewrite Hd, E. cbn [obind].
  set (h := hash (data e)) in *. destruct (Z.leb_spec 0 h), (Z.ltb_spec h (max_hash c)); try lia. cbn [andb].
  assert (length (concat chains) = length l) as Hcl by (apply Permutation_length in Hp; by rewrite !length_fmap in Hp).
  destruct fl as [|link fl]; [cbn in Hlen; lia|]. destruct (lookup_lt_is_Some_2 chains (Z.to_nat h)) as [ch Hch]; [unfold zlen in Hz; lia|].
  rewrite (ht_head _ _ _ _ _ Ht). cbn [first_of]. pose proof (lseg_range _ _ link (ht_free _ _ _ _ _ Ht) ltac:(by left)) as Hlr.
  rewrite non_null_ge by lia. rewrite (ht_first_rd _ _ _ _ _ h ch Ht ltac:(lia) Hch).
  destruct (htab_insert _ _ _ _ _ _ h ch a Ht ltac:(lia) Hch) as (lk & ls' & fs & -> & Ew & Ef & Hls & Ht'). cbn [obind]. rewrite Ew. cbn [obind].
  rewrite Ef. cbn [obind]. do 3 eexists. split; [done|]. destruct (concat_split chains _ ch Hch) as (rest & Hpr & Hpr').
  exists (<[Z.to_nat h := (link, a) :: ch]> chains), fl. unfold hrep_at. cbn. split_and!; [done|unfold zlen; by rewrite length_insert| | |unfold zlen in *; lia|].
  - rewrite (Hpr' ((link, a) :: ch)). cbn. by rewrite <- Hp, Hpr.
  - rewrite (Hpr' ((link, a) :: ch)). rewrite Hpr in Hlen. cbn in *. unfold zlen in *. lia.
  - intros k c0 x y d Hk Hx Hy. destruct (decide (k = Z.to_nat h)) as [->|Hne].
    + rewrite list_lookup_insert_eq in Hk by (by eapply lookup_lt_Some). injection Hk as <-.
      apply elem_of_cons in Hx as [[= -> ->]|Hx].
      * apply elem_of_cons in Hy as [[= ->]|Hy]; [unfold h; lia|]. exfalso. apply Hni. by eapply (list_elem_of_fmap_2 fst _ (a, d)).
      * apply elem_of_cons in Hy as [[= -> ->]|Hy]; [unfold h; lia|]. by eapply Hhash.
    + rewrite list_lookup_insert_ne in Hk by done. apply elem_of_cons in Hy as [[= -> ->]|Hy]; [|by eapply Hhash].
      exfalso. apply Hni. rewrite <- Hp. eapply (list_elem_of_fmap_2 snd _ (x, a)). by eapply in_chain.
Qed.

Lemma drop_index_at c hash l l' a d chains fl h ch1 link ch2 :
  hrep_at c hash l chains fl -> dohash c = Some hash -> l ≡ₚ (a, d) :: l' -> NoDup l.*1 ->
  chains !! h = Some (ch1 ++ (link, a) :: ch2) -> 0 <= Z.of_nat h < max_hash c ->
  exists fh fs ls, drophashindex c a (Z.of_nat h) = Ret (set_hashing fh fs ls c) /\
    hrep_at (set_hashing fh fs ls c) hash l' (<[h := ch1 ++ ch2]> chains) (link :: fl).
Proof using.
  intros (Ht & Hz & Hp & Hlen & Hlinks & Hhash) Hd Hl Hnd Hch Hr. unfold drophashindex. rewrite Hd.
  destruct (Z.leb_spec 0 (Z.of_nat h)), (Z.ltb_spec (Z.of_nat h) (max_hash c)); try lia. cbn [andb].
  assert (NoDup (concat chains).*2) as Hnd2 by (by rewrite Hp).
  destruct (concat_split chains _ _ Hch) as (rest & Hpr & Hpr'). pose proof (chain_length _ _ _ Hch) as Hcl.
  assert (a ∉ ch1.*2) as Hni.
  { rewrite Hpr, !fmap_app in Hnd2. cbn in Hnd2. rewrite <- (assoc_L (++)) in Hnd2. cbn in Hnd2.
    rewrite <- Permutation_middle in Hnd2. apply NoDup_cons in Hnd2 as [Hni _]. rewrite !elem_of_app in Hni. tauto. }
  rewrite length_app in Hcl. cbn in Hcl.
  destruct (htab_drop _ _ _ _ _ (Z.of_nat h) ch1 link a ch2 (S (length (links c))) Ht ltac:(lia)) as
    (lk & ls1 & ls' & fs & -> & Efind & Hlk & Elk & Hnx & Eupd & Ewr & Hls & Ht'); [by rewrite Nat2Z.id|done|lia|].
  cbn [obind]. rewrite Efind. cbn [obind]. rewrite non_null_ge by done. rewrite Elk. cbn [obind]. rewrite Eupd. cbn [obind].
  rewrite Ewr. cbn [obind]. do 3 eexists. split; [done|]. rewrite Nat2Z.id in Ht'.
  unfold hrep_at. cbn. split_and!; [done|unfold zlen; by rewrite length_insert| | |unfold zlen in *; lia|].
  - apply (Permutation_cons_inv (a := a)). rewrite (Hpr' (ch1 ++ ch2)). transitivity l.*1; [|by rewrite Hl].
    rewrite <- Hp, Hpr, !fmap_app, <- !(assoc_L (++)). cbn. by rewrite Permutation_middle.
  - rewrite (Hpr' (ch1 ++ ch2)). rewrite Hpr in Hlen. rewrite !length_app in *. cbn in *. unfold zlen in *. lia.
  - intros k c0 x y z Hk Hx Hy. assert ((y, z) ∈ l) as Hyl by (rewrite Hl; by right).
    destruct (decide (k = h)) as [->|Hne].
    + rewrite list_lookup_insert_eq in Hk by (by eapply lookup_lt_Some). injection Hk as <-. eapply Hhash; [exact Hch| |done].
      apply elem_of_app in Hx as [Hx|Hx]; apply elem_of_app; [by left|right; right; done].
    + rewrite list_lookup_insert_ne in Hk by done. by eapply Hhash.
Qed.

(** The chain that an entry is on. *)
Lemma entry_chain c hash l chains fl a d :
  hrep_at c hash l chains fl -> (a, d) ∈ l ->
  exists ch1 link ch2, chains !! Z.to_nat (hash d) = Some (ch1 ++ (link, a) :: ch2) /\ 0 <= hash d.
Proof using.
  intros (Ht & Hz & Hp & Hlen & Hlinks & Hhash) Hin.
  assert (a ∈ (concat chains).*2) as Hac by (rewrite Hp; by eapply (list_elem_of_fmap_2 fst _ (a, d))).
  apply list_elem_of_fmap in Hac as ([link a'] & Heq & Hlc). cbn in Heq. subst a'.
  destruct (chain_at chains _ Hlc) as (h & ch & Hch & Hx). pose proof (Hhash _ _ _ _ _ Hch Hx Hin) as Hh.
  apply list_elem_of_split in Hx as (ch1 & ch2 & ->). exists ch1, link, ch2. rewrite Hh, Nat2Z.id. split; [done|lia].
Qed.

Lemma drop_index_ok c hash l l' a d :
  hrep c hash l -> dohash c = Some hash -> l ≡ₚ (a, d) :: l' -> NoDup l.*1 -> 0 <= hash d < max_hash c ->
  exists fh fs ls, drophashindex c a (hash d) = Ret (set_hashing fh fs ls c) /\ hrep (set_hashing fh fs ls c) hash l'.
Proof using.
  intros (chains & fl & H) Hd Hl Hnd Hr. destruct (entry_chain _ _ _ _ _ a d H) as (ch1 & link & ch2 & Hch & Hh); [rewrite Hl; by left|].
  destruct (drop_index_at _ _ _ l' a d _ _ _ ch1 link ch2 H Hd Hl Hnd Hch) as (fh & fs & ls & E & H'); [lia|].
  rewrite Z2Nat.id in E by done. exists fh, fs, ls. split; [done|]. by exists (<[Z.to_nat (hash d) := ch1 ++ ch2]> chains), (link :: fl).
Qed.
End Rep.
