(* ===== verification/CacheProofs.v ===== *)
(** * LRU caches: refinement of the abstract cache (ntfs/cache.c)

    Whatever is done to a cache, its pointer structure stands for a list of
    items without duplicates, and every operation does to it what the abstract
    least recently used cache does. *)
From S2P Require Import Prelude Libc Cache CacheLists CacheRep.

(** ** Kinds of caches *)

(** What a user of a cache gives to it: the comparison, the hash function, if
    any, with the number of its values, and whether entries are to be freed. *)
Class cache_kind (P : Type) := {
  ck_compare : item P -> item P -> bool;
  ck_hash : option (item P -> Z);
  ck_max_hash : Z;
  ck_dofree : bool;
}.

(** A variable part is there when it has a size. *)
Definition var_ok {P} (d : item P) : Prop :=
  (varsize d = 0 /\ variable d = PNull) \/ (0 < varsize d /\ exists b, variable d = PBlock b /\ zlen b = varsize d).

(** What the cache relies on: for the items that are valid the comparison is
    that of a key, and the hash is a function of it. *)
Class cache_kind_laws (P K : Type) `{EqDecision K, cache_kind P} := {
  ck_valid : item P -> Prop;
  ck_key : item P -> K;
  ck_var d : ck_valid d -> var_ok d;
  ck_same d w : ck_valid d -> ck_valid w -> ck_compare d w = negb (bool_decide (ck_key d = ck_key w));
  ck_hash_key h d w : ck_hash = Some h -> ck_valid d -> ck_valid w -> ck_key d = ck_key w -> h d = h w;
  ck_range h d : ck_hash = Some h -> ck_valid d -> 0 <= h d < ck_max_hash;
}.

Section Refinement.
Context {P K : Type} {EK : EqDecision K} {CK : cache_kind P} {LK : cache_kind_laws P K}.
Implicit Types (c : cache P).

(** The invariant: [l] are the entries in use with their data, most recent
    first, and [fr] the free ones. *)
Record cache_inv c (l : list (Z * item P)) (fr : list Z) : Prop := {
  ci_list : lrep c l fr;
  ci_hash : hash_ok c l;
  ci_dohash : dohash c = ck_hash;
  ci_max : max_hash c = ck_max_hash;
  ci_dofree : dofree c = ck_dofree;
  ci_valid : Forall ck_valid l.*2;
  ci_keys : NoDup (ck_key <$> l.*2);
}.

Lemma ci_nodup c l fr : cache_inv c l fr -> NoDup l.*1.
Proof using. intros H. by apply ci_list, lr_nodup, NoDup_app in H as (? & _). Qed.

Lemma valid_in c l fr a d : cache_inv c l fr -> (a, d) ∈ l -> ck_valid d.
Proof using. intros H Hin. eapply Forall_forall; [apply (ci_valid _ _ _ H)|]. by eapply (list_elem_of_fmap_2 snd _ (a, d)). Qed.

Lemma rd_in c l fr a d : cache_inv c l fr -> (a, d) ∈ l -> exists e, rd (entries c) a = Ret e /\ data e = d.
Proof using. intros H Hin. eapply dseg_in; [|exact Hin]. apply (lr_seg _ _ _ (ci_list _ _ _ H)). Qed.

(** Two entries with one key are one entry. *)
Lemma key_inj c l fr a d b x : cache_inv c l fr -> (a, d) ∈ l -> (b, x) ∈ l -> ck_key d = ck_key x -> a = b.
Proof using.
  intros H Ha Hb Hk. pose proof (ci_keys _ _ _ H) as Hnd. apply list_elem_of_lookup in Ha as [i Ha], Hb as [j Hb].
  assert (i = j) as ->; [|by simplify_eq]. eapply (NoDup_lookup _ i j (ck_key d) Hnd); rewrite !list_lookup_fmap.
  - by rewrite Ha.
  - rewrite Hb. cbn. by rewrite Hk.
Qed.

Lemma compare_in c l fr a d w : cache_inv c l fr -> (a, d) ∈ l -> ck_valid w ->
  ck_compare d w = negb (bool_decide (ck_key d = ck_key w)).
Proof using. intros H Hin Hw. apply ck_same; [by eapply valid_in|done]. Qed.

(** ** Looking for an entry *)
Lemma list_find_ok c l fr w l1 l2 a fuel p :
  cache_inv c l fr -> ck_valid w -> (forall x d, (x, d) ∈ l1 -> (x, d) ∈ l /\ ck_key d <> ck_key w) ->
  dseg (entries c) p (l1 ++ l2) NULL -> (length l1 < fuel)%nat ->
  match l2 with [] => a = NULL | (x, d) :: _ => a = x /\ (x, d) ∈ l /\ ck_key d = ck_key w end ->
  list_find fuel c ck_compare w (head_of (l1 ++ l2) NULL) = Ret a.
Proof using.
  intros H Hw. revert fuel p. induction l1 as [|[x d] l1 IH]; intros fuel p Hl1 Hs Hf Ha; (destruct fuel as [|fuel]; [cbn in Hf; lia|]);
    cbn [app head_of list_find].
  - destruct l2 as [|[x d] l2]; cbn [head_of]; [by subst|]. destruct Ha as (-> & Hin & Hk). destruct Hs as [E _].
    pose proof (rd_bound _ _ _ E). rewrite non_null_ge, E by lia. cbn. rewrite (compare_in _ _ _ _ _ _ H Hin Hw). by rewrite bool_decide_true.
  - destruct Hs as [E Hs]. pose proof (rd_bound _ _ _ E). rewrite non_null_ge, E by lia. cbn [obind data next].
    destruct (Hl1 x d) as [Hin Hk]; [by left|]. rewrite (compare_in _ _ _ _ _ _ H Hin Hw), bool_decide_false by done.
    eapply IH; [|exact Hs|cbn in Hf; lia|done]. intros y z Hy. apply Hl1. by right.
Qed.

Lemma chain_find_ok c l fr w ch1 ch2 a fuel :
  cache_inv c l fr -> ck_valid w -> (forall x e, (x, e) ∈ ch1 -> exists d, (e, d) ∈ l /\ ck_key d <> ck_key w) ->
  hseg (links c) (ch1 ++ ch2) -> (length ch1 < fuel)%nat ->
  match ch2 with [] => a = NULL | (_, e) :: _ => a = e /\ exists d, (e, d) ∈ l /\ ck_key d = ck_key w end ->
  chain_find fuel c ck_compare w (head_of (ch1 ++ ch2) NULL) = Ret a.
Proof using.
  intros H Hw. revert fuel. induction ch1 as [|[x e] ch1 IH]; intros fuel Hc1 Hs Hf Ha; (destruct fuel as [|fuel]; [cbn in Hf; lia|]);
    cbn [app head_of chain_find].
  - destruct ch2 as [|[x e] ch2]; cbn [head_of]; [by subst|]. destruct Ha as (-> & d & Hin & Hk). destruct Hs as [E _].
    pose proof (rd_bound _ _ _ E). rewrite non_null_ge, E by lia. cbn [obind h_entry].
    destruct (rd_in _ _ _ _ _ H Hin) as (en & -> & Hd). cbn [obind]. rewrite Hd, (compare_in _ _ _ _ _ _ H Hin Hw). by rewrite bool_decide_true.
  - destruct Hs as [E Hs]. pose proof (rd_bound _ _ _ E). rewrite non_null_ge, E by lia. cbn [obind h_entry h_next].
    destruct (Hc1 x e) as (d & Hin & Hk); [by left|]. destruct (rd_in _ _ _ _ _ H Hin) as (en & -> & Hd). cbn [obind].
    rewrite Hd, (compare_in _ _ _ _ _ _ H Hin Hw), bool_decide_false by done. cbn [negb].
    apply IH; [|done|cbn in Hf; lia|done]. intros y z Hy. apply (Hc1 y). by right.
Qed.

Lemma key_cases (l : list (Z * item P)) k :
  (exists l1 a d l2, l = l1 ++ (a, d) :: l2 /\ ck_key d = k /\ forall x y, (x, y) ∈ l1 -> ck_key y <> k) \/
  (forall x y, (x, y) ∈ l -> ck_key y <> k).
Proof using.
  induction l as [|[a d] l IH]; [right; by intros x y ?%elem_of_nil|]. destruct (decide (ck_key d = k)) as [Hk|Hk].
  - left. exists [], a, d, l. split_and!; [done|done|]. by intros x y ?%elem_of_nil.
  - destruct IH as [(l1 & b & x & l2 & -> & Hx & Hl1)|Hn].
    + left. exists ((a, d) :: l1), b, x, l2. split_and!; [done|done|]. intros y z [[= -> ->]|Hy]%elem_of_cons; [done|by eapply Hl1].
    + right. intros y z [[= -> ->]|Hy]%elem_of_cons; [done|by eapply Hn].
Qed.

Lemma find_entry_ok c l fr w :
  cache_inv c l fr -> ck_valid w ->
  (exists l1 a d l2, l = l1 ++ (a, d) :: l2 /\ ck_key d = ck_key w /\ (forall x y, (x, y) ∈ l1 -> ck_key y <> ck_key w) /\
    find_entry c ck_compare w = Ret a) \/
  ((forall x y, (x, y) ∈ l -> ck_key y <> ck_key w) /\ find_entry c ck_compare w = Ret NULL).
Proof using.
  intros H Hw. pose proof (ci_list _ _ _ H) as HL. unfold find_entry.
  destruct (dohash c) as [hash|] eqn:Ehash.
  - pose proof (ci_hash _ _ _ H) as Hh. unfold hash_ok in Hh. rewrite Ehash in Hh.
    destruct Hh as (chains & fl & Ht & Hz & Hp & Hlen & Hlinks & Hhash). pose proof (ci_dohash _ _ _ H) as Hck. rewrite Ehash in Hck.
    pose proof (ck_range hash w (eq_sym Hck) Hw) as Hr. rewrite <- (ci_max _ _ _ H), <- Hz in Hr.
    destruct (lookup_lt_is_Some_2 chains (Z.to_nat (hash w))) as [ch Hch]; [unfold zlen in Hr; lia|].
    rewrite (ht_first_rd _ _ _ _ _ (hash w) ch Ht ltac:(lia) Hch). cbn [obind].
    pose proof (ht_chain _ _ _ _ _ Ht _ _ Hch) as Hseg. pose proof (chain_length _ _ _ Hch) as Hcl.
    assert (forall x e, (x, e) ∈ ch -> exists d, (e, d) ∈ l) as Hentry.
    { intros x e Hx. assert (e ∈ l.*1) as He by (rewrite <- Hp; eapply (list_elem_of_fmap_2 snd _ (x, e)); by eapply in_chain).
      apply list_elem_of_fmap in He as ([? d] & -> & He). by exists d. }
    destruct (key_cases l (ck_key w)) as [(l1 & a & d & l2 & El & Hk & Hl1)|Hn].
    + left. exists l1, a, d, l2. split_and!; [done|done|done|].
      assert ((a, d) ∈ l) as Hin by (rewrite El; apply elem_of_app; right; by left).
      assert (a ∈ (concat chains).*2) as Hac by (rewrite Hp; by eapply (list_elem_of_fmap_2 fst _ (a, d))).
      apply list_elem_of_fmap in Hac as ([link a'] & Heq & Hlc). cbn in Heq. subst a'.
      destruct (chain_at chains _ Hlc) as (h & ch' & Hch' & Hx). pose proof (Hhash _ _ _ _ _ Hch' Hx Hin) as Hh.
      rewrite (ck_hash_key hash d w (eq_sym Hck) (valid_in _ _ _ _ _ H Hin) Hw Hk) in Hh. rewrite Hh, Nat2Z.id, Hch' in Hch.
      injection Hch as ->. apply list_elem_of_split in Hx as (ch1 & ch2 & ->).
      eapply (chain_find_ok c l fr w ch1); [done|done| |done|rewrite length_app in Hcl; lia|].
      * intros x e Hx. destruct (Hentry x e) as [y Hy]; [by apply elem_of_app; left|]. exists y. split; [done|]. intros Hyk.
        assert (e = a) as -> by (eapply (key_inj _ _ _ _ _ _ _ H Hy Hin); congruence).
        assert (NoDup (concat chains).*2) as Hnd by (rewrite Hp; by eapply ci_nodup).
        destruct (concat_split chains _ _ Hch') as (rest & Hpr & _). rewrite Hpr, !fmap_app in Hnd.
        apply NoDup_app in Hnd as (Hnd & _). apply NoDup_app in Hnd as (_ & Hd & _). apply (Hd a); [|by left].
        by eapply (list_elem_of_fmap_2 snd _ (x, a)).
      * split; [done|]. by exists d.
    + right. split; [done|]. rewrite <- (app_nil_r ch). eapply (chain_find_ok c l fr w ch []); [done|done| |by rewrite app_nil_r|lia|done].
      intros x e Hx. destruct (Hentry x e Hx) as [d Hd]. exists d. split; [done|by eapply Hn].
  - rewrite (lr_mru _ _ _ HL). pose proof (lr_seg _ _ _ HL) as Hs. pose proof (lr_count _ _ _ HL) as Hc.
    destruct (key_cases l (ck_key w)) as [(l1 & a & d & l2 & -> & Hk & Hl1)|Hn].
    + left. exists l1, a, d, l2. split_and!; [done|done|done|].
      eapply (list_find_ok c _ fr w l1); [done|done| |exact Hs|rewrite length_app in Hc; lia|].
      * intros x y Hx. split; [by apply elem_of_app; left|by eapply Hl1].
      * split_and!; [done|apply elem_of_app; right; by left|done].
    + right. split; [done|]. rewrite <- (app_nil_r l) at 1. eapply (list_find_ok c l fr w l []); [done|done| |by rewrite app_nil_r|lia|done].
      intros x y Hx. split; [done|by eapply Hn].
Qed.

(** ** The entry found becomes the most recent one *)
Lemma detached_of c l1 a d l2 fr es :
  lrep c (l1 ++ (a, d) :: l2) fr -> unlinked c l1 a d l2 fr es -> l1 ++ l2 <> [] ->
  exists e, data e = d /\
    detached (set_mru (head_of (l1 ++ l2) NULL) (set_oldest (last_of NULL (l1 ++ l2)) (set_entries es c))) (l1 ++ l2) a e fr.
Proof using.
  intros H [Hs (e & E & Hd & _) Hf Hsame] Hne. exists e. split; [done|]. pose proof (lr_nodup _ _ _ H) as Hnd.
  pose proof (same_but_length _ _ _ Hsame) as Hlen. pose proof (lr_count _ _ _ H) as Hc. rewrite length_app in Hc. cbn in Hc.
  constructor; cbn; try done.
  - destruct (l1 ++ l2) as [|[b x] l]; [done|]. done.
  - apply (lr_first _ _ _ H).
  - eapply NoDup_Permutation_proper; [|exact Hnd]. rewrite !fmap_app, <- !(assoc_L (++)). cbn. by rewrite Permutation_middle.
  - rewrite length_app. lia.
Qed.

Lemma move_to_head_ok c l1 a d l2 fr :
  lrep c (l1 ++ (a, d) :: l2) fr ->
  exists c', move_to_head c a = Ret c' /\ lrep c' ((a, d) :: l1 ++ l2) fr /\ frame c c' /\ freed c' = freed c.
Proof using.
  intros H. pose proof (lrep_around _ _ _ _ _ _ H) as Ha. pose proof (ar_at _ _ _ _ _ _ _ Ha) as E. unfold move_to_head. rewrite E.
  cbn [obind previous next]. destruct (decide (l1 = [])) as [->|Hne].
  { exists c. split_and!; [done|done|apply frame_refl|done]. }
  rewrite (non_null_last _ _ _ (ar_before _ _ _ _ _ _ _ Ha) Hne).
  destruct (unlink_fetch _ _ _ _ _ _ H) as (es & Eu & Hu). unfold link_next in Eu.
  rewrite (non_null_last _ _ _ (ar_before _ _ _ _ _ _ _ Ha) Hne) in Eu.
  destruct (upd_entry c (last_of NULL l1) _) as [cA| |]; cbn [obind] in Eu |- *; try done.
  unfold link_previous in Eu. rewrite Eu. cbn [obind]. clear Eu cA.
  assert (l1 ++ l2 <> []) as Hne2 by (by destruct l1).
  destruct (detached_of _ _ _ _ _ _ _ H Hu Hne2) as (e & Hd & Hdet). subst d. set (c1 := set_mru _ _) in *.
  assert (frame c c1) as Hf1 by (unfold c1; constructor; cbn; try done; apply (same_but_length _ _ _ (un_same _ _ _ _ _ _ _ Hu))).
  destruct (push_ok _ _ _ _ _ Hdet) as (c' & Ep & HL & Hf & Hfr). exists c'. split_and!; [|done|by eapply frame_trans|by rewrite Hfr].
  rewrite (upd_entry_ok _ _ _ _ (de_at _ _ _ _ _ Hdet)) in Ep |- *. cbn [obind] in Ep |- *.
  cbn [most_recent_entry set_entries] in Ep. rewrite (de_mru _ _ _ _ _ Hdet) in Ep.
  rewrite (non_null_head (l1 ++ l2) es NULL NULL (un_seg _ _ _ _ _ _ _ Hu) Hne2) in Ep.
  cbn [most_recent_entry set_entries]. by rewrite (de_mru _ _ _ _ _ Hdet).
Qed.

(** What the operations keep of a state that is related to another one. *)
Lemma inv_frame c c' l l' fr fr' :
  cache_inv c l fr -> lrep c' l' fr' -> frame c c' -> hash_ok c' l' -> Forall ck_valid l'.*2 -> NoDup (ck_key <$> l'.*2) ->
  cache_inv c' l' fr'.
Proof using.
  intros [_ _ H3 H4 H5 _ _] HL [] Hh Hv Hk. constructor; try done; congruence.
Qed.

Lemma inv_perm c c' l l' fr :
  cache_inv c l fr -> lrep c' l' fr -> frame c c' -> l ≡ₚ l' -> cache_inv c' l' fr.
Proof using.
  intros H HL Hf Hp. eapply inv_frame; [exact H|done|done| | |].
  - eapply hash_ok_frame; [exact Hf|]. eapply hash_ok_perm; [exact Hp|apply (ci_hash _ _ _ H)].
  - rewrite <- Hp. apply (ci_valid _ _ _ H).
  - rewrite <- Hp. apply (ci_keys _ _ _ H).
Qed.

Lemma inv_reads ul hit c l fr : cache_inv c l fr -> cache_inv (count_reads ul hit c) l fr.
Proof using. intros H. eapply inv_perm; [exact H| |by constructor|done]. by destruct H as [[] _ _ _ _ _ _]. Qed.

Lemma inv_writes ul c l fr : cache_inv c l fr -> cache_inv (count_writes ul c) l fr.
Proof using. intros H. eapply inv_perm; [exact H| |by constructor|done]. by destruct H as [[] _ _ _ _ _ _]. Qed.

(** [ntfs_fetch_cache] *)
Lemma fetch_ok ul c l fr w :
  cache_inv c l fr -> ck_valid w ->
  (exists l1 a d l2 c', l = l1 ++ (a, d) :: l2 /\ ck_key d = ck_key w /\ (forall x y, (x, y) ∈ l1 -> ck_key y <> ck_key w) /\
    ntfs_fetch_cache ul c w ck_compare = Ret (c', a) /\ cache_inv c' ((a, d) :: l1 ++ l2) fr /\ freed c' = freed c) \/
  ((forall x y, (x, y) ∈ l -> ck_key y <> ck_key w) /\
    exists c', ntfs_fetch_cache ul c w ck_compare = Ret (c', NULL) /\ cache_inv c' l fr /\ freed c' = freed c).
Proof using.
  intros H Hw. unfold ntfs_fetch_cache. destruct (find_entry_ok c l fr w H Hw) as [(l1 & a & d & l2 & -> & Hk & Hl1 & ->)|[Hn ->]]; cbn [obind].
  - left. assert (0 <= a) as Ha by (destruct (rd_in _ _ _ a d H) as (e & E & _); [apply elem_of_app; right; by left|]; apply rd_bound in E; lia).
    rewrite non_null_ge by done. destruct (move_to_head_ok _ _ _ _ _ _ (ci_list _ _ _ H)) as (c' & -> & HL & Hf & Hfr). cbn [obind].
    exists l1, a, d, l2. eexists. split_and!; [done|done|done|done| |by rewrite <- Hfr].
    apply inv_reads. eapply inv_perm; [exact H|done|done|]. by rewrite Permutation_middle.
  - right. split; [done|]. change (non_null NULL) with false. eexists. split_and!; [done|by apply inv_reads|done].
Qed.

(** ** Invalidation *)

(** What [dofree] is called with. *)
Definition freed_of c (flags : Z) (d : item P) : list (item P) :=
  if negb (Z.land flags CACHE_FREE =? 0) && dofree c then [d] else [].

Lemma do_invalidate_ok c l1 a d l2 fr flags :
  lrep c (l1 ++ (a, d) :: l2) fr -> var_ok d ->
  exists c', do_invalidate c a flags = Ret c' /\ lrep c' (l1 ++ l2) (a :: fr) /\ frame c c' /\ freed c' = freed c ++ freed_of c flags d.
Proof using.
  intros H Hv. pose proof (lrep_around _ _ _ _ _ _ H) as Ha. pose proof (ar_at _ _ _ _ _ _ _ Ha) as E. unfold do_invalidate. rewrite E.
  cbn [obind previous next data]. set (c0 := if _ && _ then call_dofree d c else c).
  assert (lrep c0 (l1 ++ (a, d) :: l2) fr /\ frame c c0 /\ freed c0 = freed c ++ freed_of c flags d) as (H0 & Hf0 & Hfr0).
  { unfold c0, freed_of. destruct (_ && _); split_and!; [by destruct H|by constructor|done|done|apply frame_refl|by rewrite app_nil_r]. }
  assert (free_entry c0 = first_of fr) as Hfe by apply (lr_first _ _ _ H0).
  clearbody c0. destruct (unlink_invalidate _ _ _ _ _ _ H0) as (es & Eu & Hu). unfold link_previous, link_next in Eu.
  destruct (if non_null (head_of l2 NULL) then _ else _) as [cA| |]; cbn [obind] in Eu |- *; try done. rewrite Eu. cbn [obind]. clear Eu cA.
  destruct (un_at _ _ _ _ _ _ _ Hu) as (e & Ee & Hd & _ & _). pose proof (rd_bound _ _ _ Ee) as Hb. set (c1 := set_mru _ _).
  assert (entries c1 = es) as Ees by done. rewrite (upd_entry_ok c1 a _ e) by done. cbn [obind]. rewrite Ees.
  assert (heap_free (variable d) = Ret tt) as -> by (by destruct Hv as [[_ ->]|(_ & b & -> & _)]). cbn [obind].
  erewrite upd_entry_ok by (cbn; rewrite rd_insert by lia; by rewrite Z.eqb_refl). eexists. split; [done|].
  pose proof (same_but_length _ _ _ (un_same _ _ _ _ _ _ _ Hu)) as Hlen. pose proof (lr_nodup _ _ _ H) as Hnd.
  assert (NoDup (a :: (l1 ++ l2).*1 ++ fr)) as Hnd'.
  { eapply NoDup_Permutation_proper; [|exact Hnd]. rewrite !fmap_app, <- !(assoc_L (++)). cbn. by rewrite Permutation_middle. }
  pose proof Hnd' as [Hni Hnd2]%NoDup_cons. set (es2 := <[_ := _]> _).
  assert (forall b, b <> a -> rd es2 b = rd es b) as Hes2.
  { intros b Hb'. unfold es2. cbn. rewrite !rd_other; rewrite ?zlen_insert; lia || done. }
  split; [|split; [|by cbn]].
  2:{ eapply frame_trans; [exact Hf0|]. constructor; cbn; try done. unfold es2. cbn. by rewrite !length_insert. }
  pose proof (lr_count _ _ _ H) as Hc. rewrite length_app in Hc. cbn in Hc. constructor; cbn.
  - eapply dseg_frame; [|apply (un_seg _ _ _ _ _ _ _ Hu)]. intros b Hb'. apply Hes2. intros ->. apply Hni, elem_of_app. by left.
  - done.
  - done.
  - split.
    + eexists. split; [unfold es2; cbn; rewrite rd_insert, Z.eqb_refl by (rewrite ?zlen_insert; lia); done|]. done.
    + eapply fseg_frame; [|apply (un_free _ _ _ _ _ _ _ Hu)]. intros b Hb'. apply Hes2. intros ->. apply Hni, elem_of_app. by right.
  - done.
  - eapply NoDup_Permutation_proper; [|exact Hnd']. by rewrite Permutation_middle.
  - unfold es2. cbn. rewrite !length_insert, length_app. pose proof (fm_len _ _ Hf0). lia.
Qed.

(** The entry leaves its hash chain, if there are such. *)
Definition drop_index c (a : Z) (d : item P) : outcome (cache P) :=
  match dohash c with Some hash => drophashindex c a (hash d) | None => Ret c end.

Lemma same_lists c fh fs ls l fr : lrep c l fr -> lrep (set_hashing fh fs ls c) l fr.
Proof using. by intros []. Qed.

Lemma remove_inv c c1 l1 a d l2 fr flags :
  cache_inv c (l1 ++ (a, d) :: l2) fr -> lrep c1 (l1 ++ (a, d) :: l2) fr -> hash_ok c1 (l1 ++ l2) ->
  dohash c1 = dohash c -> max_hash c1 = max_hash c -> dofree c1 = dofree c -> freed c1 = freed c ->
  exists c', do_invalidate c1 a flags = Ret c' /\ cache_inv c' (l1 ++ l2) (a :: fr) /\ freed c' = freed c ++ freed_of c flags d /\
    frame c1 c'.
Proof using.
  intros H HL Hh Hdh Hm Hdf Hfr.
  destruct (do_invalidate_ok c1 _ _ _ _ _ flags HL) as (c' & -> & HL' & Hf & Hfr').
  { apply ck_var, (valid_in _ _ _ a d H), elem_of_app. right. by left. }
  exists c'. split; [done|]. split; [|split; [|done]].
  2:{ rewrite Hfr', Hfr. f_equal. unfold freed_of. by rewrite Hdf. }
  assert (l1 ++ (a, d) :: l2 ≡ₚ (a, d) :: l1 ++ l2) as Hp by (by rewrite Permutation_middle).
  pose proof (ci_valid _ _ _ H) as Hv. pose proof (ci_keys _ _ _ H) as Hk. rewrite Hp in Hv, Hk. cbn in Hv, Hk.
  apply Forall_cons in Hv as [_ Hv]. apply NoDup_cons in Hk as [_ Hk]. constructor; try done.
  - by eapply hash_ok_frame.
  - rewrite (fm_dohash _ _ Hf), Hdh. apply (ci_dohash _ _ _ H).
  - rewrite (fm_max _ _ Hf), Hm. apply (ci_max _ _ _ H).
  - rewrite (fm_dofree _ _ Hf), Hdf. apply (ci_dofree _ _ _ H).
Qed.

Lemma drop_index_inv c l1 a d l2 fr :
  cache_inv c (l1 ++ (a, d) :: l2) fr ->
  exists c1, drop_index c a d = Ret c1 /\ lrep c1 (l1 ++ (a, d) :: l2) fr /\ hash_ok c1 (l1 ++ l2) /\
    dohash c1 = dohash c /\ max_hash c1 = max_hash c /\ dofree c1 = dofree c /\ freed c1 = freed c /\ entries c1 = entries c.
Proof using.
  intros H. pose proof (ci_list _ _ _ H) as HL. pose proof (ci_hash _ _ _ H) as Hh. unfold drop_index, hash_ok in *.
  destruct (dohash c) as [hash|] eqn:Ed.
  - assert (0 <= hash d < max_hash c) as Hr.
    { rewrite (ci_max _ _ _ H). apply (ck_range hash d); [by rewrite <- (ci_dohash _ _ _ H)|].
      eapply (valid_in _ _ _ a d H), elem_of_app. right. by left. }
    destruct (drop_index_ok c hash _ (l1 ++ l2) a d Hh Ed) as (fh & fs & ls & E & Hh'); [by rewrite Permutation_middle|by eapply ci_nodup|done|].
    exists (set_hashing fh fs ls c). split_and!; try done; [by apply same_lists|]. cbn. by rewrite Ed.
  - exists c. rewrite ?Ed. done.
Qed.

(** [ntfs_remove_cache] *)
Lemma remove_ok c l1 a d l2 fr flags :
  cache_inv c (l1 ++ (a, d) :: l2) fr ->
  exists c', ntfs_remove_cache c a flags = Ret (c', 1) /\ cache_inv c' (l1 ++ l2) (a :: fr) /\ freed c' = freed c ++ freed_of c flags d.
Proof using.
  intros H. destruct (drop_index_inv _ _ _ _ _ _ H) as (c1 & E & HL & Hh & H1 & H2 & H3 & H4 & _).
  unfold ntfs_remove_cache. pose proof (ar_at _ _ _ _ _ _ _ (lrep_around _ _ _ _ _ _ (ci_list _ _ _ H))) as Ee. rewrite Ee. cbn [obind data].
  unfold drop_index in E. rewrite E. cbn [obind].
  destruct (remove_inv _ _ _ _ _ _ _ flags H HL Hh H1 H2 H3 H4) as (c' & -> & H' & Hf & _). cbn [obind]. by exists c'.
Qed.

(** [ntfs_invalidate_cache] along the list, with any comparison. *)
Lemma invalidate_list_ok cmp it flags c l1 l2 fr fuel n :
  cache_inv c (l1 ++ l2) fr -> (length l2 < fuel)%nat -> 0 <= n -> n + zlen l2 < 2 ^ 31 ->
  exists c' fr', invalidate_list fuel c it cmp (head_of l2 NULL) flags n = Ret (c', n + zlen (filter (fun p => cmp p.2 it = false) l2)) /\
    cache_inv c' (l1 ++ filter (fun p => cmp p.2 it = true) l2) fr' /\
    freed c' = freed c ++ concat (map (fun p => freed_of c flags p.2) (filter (fun p => cmp p.2 it = false) l2)) /\
    length (entries c') = length (entries c).
Proof using.
  revert c l1 fr fuel n. induction l2 as [|[a d] l2 IH]; intros c l1 fr fuel n H Hf Hn Hmax; (destruct fuel as [|fuel]; [cbn in Hf; lia|]).
  - exists c, fr. split_and!; [|done|by rewrite app_nil_r|done]. cbn. do 2 f_equal. change (zlen (@nil (Z * item P))) with 0. lia.
  - pose proof (ar_at _ _ _ _ _ _ _ (lrep_around _ _ _ _ _ _ (ci_list _ _ _ H))) as E. cbn [invalidate_list head_of]. 
    pose proof (rd_bound _ _ _ E). rewrite non_null_ge, E by lia. cbn [obind data next]. rewrite zlen_cons in Hmax. pose proof (zlen_nonneg l2). cbn in Hf.
    rewrite !filter_cons. cbn [snd]. destruct (cmp d it) eqn:Ec.
    + rewrite (decide_False (P := true = false)), (decide_True (P := true = true)) by done.
      destruct (IH c (l1 ++ [(a, d)]) fr fuel n) as (c' & fr' & E' & H' & Hfr & Hle); [by rewrite <- (assoc_L (++))|lia|lia|lia|].
      exists c', fr'. rewrite <- (assoc_L (++)) in H'. done.
    + rewrite (decide_True (P := false = false)), (decide_False (P := false = true)) by done.
      destruct (drop_index_inv _ _ _ _ _ _ H) as (c1 & E1 & HL & Hh & Hq1 & Hq2 & Hq3 & Hq4 & Hq5). unfold drop_index in E1. rewrite E1. cbn [obind].
      destruct (remove_inv _ _ _ _ _ _ _ flags H HL Hh Hq1 Hq2 Hq3 Hq4) as (c2 & -> & H' & Hf2 & Hfm). cbn [obind].
      rewrite wraps_small by (unfold in_s; lia).
      destruct (IH c2 l1 (a :: fr) fuel (n + 1)) as (c' & fr' & E' & Hi & Hfr & Hle); [done|lia|lia|lia|].
      exists c', fr'. rewrite E'. split; [do 2 f_equal; rewrite zlen_cons; lia|]. split; [done|]. split; [|by rewrite Hle, (fm_len _ _ Hfm), Hq5]. rewrite Hfr, Hf2, <- (assoc_L (++)). cbn [map concat].
      do 2 f_equal. f_equal. apply map_ext. intros p. unfold freed_of. by rewrite (fm_dofree _ _ Hfm), Hq3.
Qed.

(** [ntfs_invalidate_cache] along a hash chain *)
Lemma chain_skip c it h flags n s t fuel :
  hseg (links c) (s ++ t) -> (forall x e, (x, e) ∈ s -> exists en, rd (entries c) e = Ret en /\ ck_compare (data en) it = true) ->
  invalidate_chain (length s + fuel) c it ck_compare h (head_of (s ++ t) NULL) flags n =
    invalidate_chain fuel c it ck_compare h (head_of t NULL) flags n.
Proof using.
  induction s as [|[x e] s IH]; intros Hs He; [done|]. cbn [length plus invalidate_chain app head_of]. destruct Hs as [E Hs].
  pose proof (rd_bound _ _ _ E). rewrite non_null_ge, E by lia. cbn [obind h_entry h_next].
  destruct (He x e) as (en & -> & Hc); [by left|]. cbn [obind]. rewrite Hc. apply IH; [done|]. intros y z Hy. apply (He y). by right.
Qed.

Lemma filter_differ (l : list (Z * item P)) w :
  Forall ck_valid l.*2 -> ck_valid w -> (forall x y, (x, y) ∈ l -> ck_key y <> ck_key w) ->
  filter (fun p => ck_compare p.2 w = true) l = l /\ filter (fun p => ck_compare p.2 w = false) l = [].
Proof using.
  intros Hv Hw Hn. induction l as [|[a d] l IH]; [done|]. rewrite !filter_cons. cbn in Hv |- *. apply Forall_cons in Hv as [Hd Hv].
  rewrite (ck_same d w Hd Hw), (bool_decide_false (ck_key d = ck_key w)) by (apply (Hn a); by left). cbn [negb].
  rewrite decide_True, decide_False by done. destruct IH as [-> ->]; [done| |done]. intros x y Hx. apply (Hn x). by right.
Qed.

Lemma filter_same (l1 l2 : list (Z * item P)) a d w :
  Forall ck_valid (l1 ++ (a, d) :: l2).*2 -> NoDup (ck_key <$> (l1 ++ (a, d) :: l2).*2) -> ck_valid w -> ck_key d = ck_key w ->
  filter (fun p => ck_compare p.2 w = true) (l1 ++ (a, d) :: l2) = l1 ++ l2 /\
  filter (fun p => ck_compare p.2 w = false) (l1 ++ (a, d) :: l2) = [(a, d)].
Proof using.
  intros Hv Hnd Hw Hk. rewrite !fmap_app in *. cbn in *. apply Forall_app in Hv as [Hv1 Hv2]. apply Forall_cons in Hv2 as [Hd Hv2].
  apply NoDup_app in Hnd as (_ & Hdis & Hnd). apply NoDup_cons in Hnd as [Hni Hnd].
  destruct (filter_differ l1 w Hv1 Hw) as [E1 E2].
  { intros x y Hx Hy. apply (Hdis (ck_key y)); [|rewrite Hy, Hk; by left]. apply list_elem_of_fmap. exists y. split; [done|].
    by eapply (list_elem_of_fmap_2 snd _ (x, y)). }
  destruct (filter_differ l2 w Hv2 Hw) as [E3 E4].
  { intros x y Hx Hy. apply Hni. rewrite Hk, <- Hy. apply list_elem_of_fmap. exists y. split; [done|].
    by eapply (list_elem_of_fmap_2 snd _ (x, y)). }
  rewrite !filter_app, E1, E2, !filter_cons. cbn [snd]. rewrite (ck_same d w Hd Hw), bool_decide_true by done. cbn [negb].
  rewrite decide_False, decide_True by done. by rewrite E3, E4.
Qed.

Lemma invalidate_chain_ok c l fr w flags hash :
  cache_inv c l fr -> ck_valid w -> dohash c = Some hash ->
  exists link c' fr', rd (first_hash c) (hash w) = Ret link /\
    invalidate_chain (S (length (links c))) c w ck_compare (hash w) link flags 0 =
      Ret (c', zlen (filter (fun p => ck_compare p.2 w = false) l)) /\
    cache_inv c' (filter (fun p => ck_compare p.2 w = true) l) fr' /\ dohash c' = Some hash /\
    freed c' = freed c ++ concat (map (fun p => freed_of c flags p.2) (filter (fun p => ck_compare p.2 w = false) l)) /\
    length (entries c') = length (entries c).
Proof using.
  intros H Hw Ed. pose proof (ci_hash _ _ _ H) as Hh. unfold hash_ok in Hh. rewrite Ed in Hh. destruct Hh as (chains & fl & Hat).
  pose proof Hat as (Ht & Hz & Hp & Hlen & Hlinks & Hhash). pose proof (ci_dohash _ _ _ H) as Hck. rewrite Ed in Hck.
  pose proof (ck_range hash w (eq_sym Hck) Hw) as Hr. rewrite <- (ci_max _ _ _ H) in Hr.
  destruct (lookup_lt_is_Some_2 chains (Z.to_nat (hash w))) as [ch Hch]; [unfold zlen in Hz; lia|].
  exists (head_of ch NULL). pose proof (ht_first_rd _ _ _ _ _ (hash w) ch Ht ltac:(lia) Hch) as Ef.
  pose proof (ht_chain _ _ _ _ _ Ht _ _ Hch) as Hseg. pose proof (chain_length _ _ _ Hch) as Hcl.
  assert (forall x e, (x, e) ∈ ch -> exists d, (e, d) ∈ l) as Hentry.
  { intros x e Hx. assert (e ∈ l.*1) as He by (rewrite <- Hp; eapply (list_elem_of_fmap_2 snd _ (x, e)); by eapply in_chain).
    apply list_elem_of_fmap in He as ([? d] & -> & He). by exists d. }
  assert (forall x e a, (x, e) ∈ ch -> (forall d, (e, d) ∈ l -> ck_key d = ck_key w -> e = a) -> e <> a ->
    exists en, rd (entries c) e = Ret en /\ ck_compare (data en) w = true) as Hskip.
  { intros x e a Hx Hk Hne. destruct (Hentry x e Hx) as [d Hd]. destruct (rd_in _ _ _ _ _ H Hd) as (en & E & Hen). exists en. split; [done|].
    rewrite Hen, (compare_in _ _ _ _ _ _ H Hd Hw), bool_decide_false; [done|]. intros Hkd. by apply Hne, (Hk d). }
  destruct (key_cases l (ck_key w)) as [(l1 & a & d & l2 & El & Hk & Hl1)|Hn].
  - assert ((a, d) ∈ l) as Hin by (rewrite El; apply elem_of_app; right; by left).
    destruct (entry_chain _ _ _ _ _ _ _ Hat Hin) as (ch1 & link & ch2 & Hch' & _).
    rewrite (ck_hash_key hash d w (eq_sym Hck) (valid_in _ _ _ _ _ H Hin) Hw Hk), Hch in Hch'. injection Hch' as ->.
    assert (forall x e, (x, e) ∈ ch1 \/ (x, e) ∈ ch2 -> (x, e) ∈ ch1 ++ (link, a) :: ch2 /\ e <> a) as Hother.
    { assert (NoDup (concat chains).*2) as Hnd by (rewrite Hp; by eapply ci_nodup).
      destruct (concat_split chains _ _ Hch) as (rest & Hpr & _). rewrite Hpr, !fmap_app in Hnd.
      apply NoDup_app in Hnd as (Hnd & _). cbn in Hnd. rewrite <- Permutation_middle in Hnd. apply NoDup_cons in Hnd as [Hni _].
      intros x e Hx. split; [apply elem_of_app; destruct Hx; [by left|right; by right]|]. intros ->. apply Hni, elem_of_app.
      destruct Hx as [Hx|Hx]; [left|right]; by eapply (list_elem_of_fmap_2 snd _ (x, a)). }
    assert (forall x e, (x, e) ∈ ch1 \/ (x, e) ∈ ch2 -> exists en, rd (entries c) e = Ret en /\ ck_compare (data en) w = true) as Hskips.
    { intros x e Hx. destruct (Hother x e Hx) as [Hx' Hne]. apply (Hskip x e a Hx'); [|done]. intros y Hy Hyk.
      eapply (key_inj _ _ _ _ _ _ _ H Hy Hin). congruence. }
    subst l. destruct (filter_same l1 l2 a d w (ci_valid _ _ _ H) (ci_keys _ _ _ H) Hw Hk) as [-> ->].
    rewrite length_app in Hcl. cbn in Hcl. replace (S (length (links c))) with (length ch1 + S (length ch2 + S (length (links c) - length ch1 - length ch2 - 1)))%nat by lia.
    rewrite chain_skip; [|done|intros x e Hx; apply (Hskips x); by left]. cbn [head_of invalidate_chain].
    pose proof (hseg_app_r _ _ _ Hseg) as [El _]. pose proof (rd_bound _ _ _ El). rewrite non_null_ge, El by lia. cbn [obind h_entry h_next].
    destruct (rd_in _ _ _ _ _ H Hin) as (en & Een & Hen). rewrite Een. cbn [obind]. rewrite Hen, (compare_in _ _ _ _ _ _ H Hin Hw), bool_decide_true by done.
    cbn [negb].
    destruct (drop_index_at c hash _ (l1 ++ l2) a d chains fl _ ch1 link ch2 Hat Ed ltac:(by rewrite Permutation_middle) (ci_nodup _ _ _ H) Hch ltac:(lia))
      as (fh & fs & ls & Edrop & Hat'). rewrite Z2Nat.id in Edrop by lia. rewrite Edrop. cbn [obind]. set (c1 := set_hashing fh fs ls c) in *.
    destruct (remove_inv c c1 l1 a d l2 fr flags H) as (c' & -> & H' & Hfr & Hfm); try done.
    { by apply same_lists, ci_list. }
    { unfold hash_ok, c1. cbn. rewrite Ed. eexists _, _. exact Hat'. }
    cbn [obind]. exists c', (a :: fr). split; [done|]. split; [|split; [done|split; [by rewrite (fm_dohash _ _ Hfm)|]]].
    2:{ split; [rewrite Hfr; cbn; by rewrite app_nil_r|by rewrite (fm_len _ _ Hfm)]. }
    assert (hseg (links c') ch2) as Hs2.
    { rewrite (fm_links _ _ Hfm). destruct Hat' as (Ht' & _). eapply hseg_app_r, (ht_chain _ _ _ _ _ Ht' (Z.to_nat (hash w))).
      apply list_lookup_insert_eq. by eapply lookup_lt_Some. }
    pose proof (chain_skip c' w (hash w) flags (s32 (0 + 1)) ch2 []) as Hcs. rewrite app_nil_r in Hcs.
    rewrite Hcs; [done|done|]. intros x e Hx. destruct (Hother x e) as [Hx' Hne]; [by right|].
    destruct (Hentry x e Hx') as [y Hy]. assert ((e, y) ∈ l1 ++ l2) as Hy'.
    { rewrite elem_of_app, elem_of_cons in Hy. rewrite elem_of_app. destruct Hy as [?|[[= -> ->]|?]]; [by left|done|by right]. }
    destruct (rd_in _ _ _ _ _ H' Hy') as (en' & Een' & Hen'). exists en'. split; [done|]. rewrite Hen', (compare_in _ _ _ _ _ _ H' Hy' Hw).
    rewrite bool_decide_false; [done|]. intros Hyk. apply Hne. eapply (key_inj _ _ _ _ _ _ _ H Hy Hin). congruence.
  - destruct (filter_differ l w (ci_valid _ _ _ H) Hw Hn) as [-> ->]. exists c, fr. split; [done|]. split_and!; [|done|done|by rewrite app_nil_r|done].
    pose proof (chain_skip c w (hash w) flags 0 ch [] (S (length (links c) - length ch))) as Hcs. rewrite app_nil_r in Hcs.
    replace (length ch + S (length (links c) - length ch))%nat with (S (length (links c))) in Hcs by lia. rewrite Hcs; [done|done|].
    intros x e Hx. apply (Hskip x e (-1) Hx); [|].
    + intros d Hd Hdk. by apply Hn in Hd.
    + intros ->. destruct (Hentry x (-1) Hx) as [d Hd]. destruct (rd_in _ _ _ _ _ H Hd) as (en & E & _). by apply rd_bound in E; lia.
Qed.

(** [ntfs_invalidate_cache] *)
Lemma invalidate_ok c l fr w cmp flags :
  cache_inv c l fr -> zlen (entries c) < 2 ^ 31 ->
  (cmp = ck_compare /\ ck_valid w) \/ Z.land flags CACHE_NOHASH <> 0 ->
  exists c' fr', ntfs_invalidate_cache c w cmp flags = Ret (c', zlen (filter (fun p => cmp p.2 w = false) l)) /\
    cache_inv c' (filter (fun p => cmp p.2 w = true) l) fr' /\
    freed c' = freed c ++ concat (map (fun p => freed_of c flags p.2) (filter (fun p => cmp p.2 w = false) l)) /\
    length (entries c') = length (entries c).
Proof using.
  intros H Hmax Hcmp. pose proof (lr_count _ _ _ (ci_list _ _ _ H)) as Hc. unfold ntfs_invalidate_cache.
  assert (exists c' fr', invalidate_list (S (length (entries c))) c w cmp (most_recent_entry c) flags 0 =
      Ret (c', zlen (filter (fun p => cmp p.2 w = false) l)) /\ cache_inv c' (filter (fun p => cmp p.2 w = true) l) fr' /\
    freed c' = freed c ++ concat (map (fun p => freed_of c flags p.2) (filter (fun p => cmp p.2 w = false) l)) /\
    length (entries c') = length (entries c)) as Hlist.
  { rewrite (lr_mru _ _ _ (ci_list _ _ _ H)).
    apply (invalidate_list_ok cmp w flags c [] l fr (S (length (entries c))) 0 H); unfold zlen in *; lia. }
  destruct (Z.eqb_spec (Z.land flags CACHE_NOHASH) 0) as [E0|E0]; cbn [negb].
  - destruct Hcmp as [[-> Hw]|]; [|done]. destruct (dohash c) as [hash|] eqn:Ed; [|cbn [obind orb]; rewrite Ed; exact Hlist].
    destruct (invalidate_chain_ok c l fr w flags hash H Hw Ed) as (link & c' & fr' & -> & E & H' & Ed' & Hfr & Hle). cbn [obind]. rewrite E. cbn [obind orb].
    rewrite Ed'. by exists c', fr'.
  - destruct (dohash c); cbn [obind orb]; exact Hlist.
Qed.

(** ** Entering an item *)

(** The memory of the variable part before it is filled. *)
Definition blank_for (it d : item P) : Prop :=
  varsize it = 0 \/ exists b, variable d = PBlock b /\ zlen b = varsize it.

Lemma item_eta (it : item P) : mkitem (payload it) (variable it) (varsize it) = it.
Proof using. by destruct it. Qed.

Lemma wrn_all {X} (b x : list X) : zlen b = zlen x -> wrn b 0 x = Ret x.
Proof using.
  intros Hz. rewrite wrn_ok by lia. f_equal. unfold splice. cbn. rewrite drop_ge by (unfold zlen in *; lia). by rewrite app_nil_r.
Qed.

Lemma fill_ok c l a e fr it :
  detached c l a e fr -> blank_for it (data e) -> var_ok it ->
  exists c', fill_entry c a it = Ret (c', a) /\ lrep c' ((a, it) :: l) fr /\ frame c c' /\ freed c' = freed c.
Proof using.
  intros Hd Hb Hv. destruct (push_ok _ _ _ _ _ Hd) as (c1 & Ep & HL1 & Hf1 & Hfr1). unfold fill_entry.
  destruct (upd_entry c a _) as [cA| |]; cbn [obind] in Ep |- *; try done.
  destruct (if non_null (most_recent_entry cA) then _ else _) as [cB| |]; cbn [obind] in Ep |- *; try done.
  injection Ep as ->.
  destruct (head_data_ok c1 l a (data e) fr (fun e => set_data (mkitem (payload it) (variable (data e)) (varsize (data e))) e)
    (mkitem (payload it) (variable (data e)) (varsize (data e))) HL1) as (c2 & -> & HL2 & Hf2 & Hfr2).
  { intros e' <-. done. }
  cbn [obind]. set (d2 := mkitem _ _ _) in *.
  assert (forall d', exists c', upd_entry c2 a (set_data d') = Ret c' /\ lrep c' ((a, d') :: l) fr /\ frame c c' /\ freed c' = freed c) as Hset.
  { intros d'. destruct (head_data_ok c2 l a d2 fr (set_data d') d' HL2) as (c' & E & HL & Hf & Hfr); [done|].
    exists c'. split_and!; [done|done| |congruence]. eapply frame_trans; [exact Hf1|]. by eapply frame_trans. }
  destruct Hv as [[Hv0 Hvn]|(Hv0 & x & Hx & Hzx)].
  - rewrite Hv0. cbn [Z.eqb negb]. destruct (Hset (mkitem (payload it) PNull 0)) as (c' & -> & HL & Hf & Hfr). cbn [obind].
    exists c'. split_and!; [done| |done|done]. rewrite <- (item_eta it), Hvn, Hv0. done.
  - destruct (Z.eqb_spec (varsize it) 0); [lia|]. cbn [negb]. destruct Hb as [|(b & Hb & Hzb)]; [lia|].
    pose proof (lr_seg _ _ _ HL2) as [E _]. rewrite E. cbn [obind data variable]. unfold d2 at 1. cbn [variable]. rewrite Hb, Hx.
    assert (rdn x 0 (varsize it) = Ret x) as -> by (rewrite rdn_ok, <- Hzx, sub_all by lia; done). cbn [obind]. rewrite wrn_all by lia. cbn [obind].
    destruct (Hset (mkitem (payload it) (PBlock x) (varsize it))) as (c' & -> & HL & Hf & Hfr). cbn [obind].
    exists c'. split_and!; [done| |done|done]. rewrite <- Hx, item_eta in HL. done.
Qed.

Context (mem : heap Z) (Hmem : forall n, mem n = true) (Hread : readable mem).

Lemma take_free_ok c l a fr it :
  lrep c l (a :: fr) -> 0 <= varsize it ->
  exists c' e, take_free c mem it = Ret (c', a) /\ detached c' l a e fr /\ blank_for it (data e) /\ frame c c' /\ freed c' = freed c.
Proof using Hmem.
  intros H Hvs. pose proof H as [Hs Hm Ho [(e & E & Hn) Hf] Hfe Hnd Hc]. unfold take_free. rewrite Hfe. cbn [first_of]. rewrite E. cbn [obind].
  rewrite (upd_entry_ok (set_free (next e) c) a _ e E). cbn [obind entries set_free]. set (d1 := mkitem _ _ _). pose proof (rd_bound _ _ _ E) as Hb.
  assert (NoDup (a :: l.*1 ++ fr)) as Hnd' by (eapply NoDup_Permutation_proper; [|exact Hnd]; by rewrite Permutation_middle).
  pose proof Hnd' as [Hni Hnd2]%NoDup_cons.
  set (c1 := set_entries _ _). exists (if non_null (oldest_entry c1) then c1 else set_oldest a c1), (set_data d1 e). split; [done|].
  split; [|split; [|split; [destruct (non_null _); constructor; cbn; rewrite ?length_insert; done|by destruct (non_null _)]]].
  - assert (entries (if non_null (oldest_entry c1) then c1 else set_oldest a c1) = <[Z.to_nat a := set_data d1 e]> (entries c)) as Ees
      by (by destruct (non_null _)).
    constructor; rewrite ?Ees.
    + eapply dseg_frame; [|exact Hs]. intros b Hb'. apply rd_other; [lia|]. intros ->. apply Hni, elem_of_app. by left.
    + by destruct (non_null _).
    + assert (oldest_entry c1 = last_of NULL l) as -> by exact Ho. destruct l as [|[b x] l]; [done|].
      rewrite (non_null_last ((b, x) :: l) _ _ Hs) by done. exact Ho.
    + rewrite rd_insert, Z.eqb_refl by lia. done.
    + eapply fseg_frame; [|exact Hf]. intros b Hb'. apply rd_other; [lia|]. intros ->. apply Hni, elem_of_app. by right.
    + by destruct (non_null _).
    + done.
    + rewrite length_insert. cbn in Hc. lia.
  - cbn [data set_data]. unfold d1, blank_for. cbn [variable]. destruct (Z.eqb_spec (varsize it) 0); [by left|]. cbn. unfold heap_alloc. rewrite Hmem. right.
    eexists. split; [done|]. rewrite zlen_replicate. lia.
Qed.

Lemma heap_realloc_ok (d it : item P) : var_ok d -> 0 <= varsize it ->
  exists v, (if negb (varsize it =? 0) then
               if negb (varsize d =? 0) then heap_realloc mem (variable d) (varsize it) else Ret (heap_alloc mem (varsize it))
             else let! _ := (if negb (varsize d =? 0) then heap_free (variable d) else Ret tt) in Ret PNull) = Ret v /\
    forall p : P, blank_for it (mkitem p v (varsize it)).
Proof using Hmem Hread.
  intros Hd Hvs. unfold blank_for. cbn [variable]. destruct (Z.eqb_spec (varsize it) 0); cbn [negb].
  - exists PNull. split; [|by left]. destruct Hd as [[-> _]|(Hd & b & -> & _)]; [done|]. by destruct (negb _).
  - destruct Hd as [[-> _]|(Hd & b & Hb & Hz)].
    + cbn. unfold heap_alloc. rewrite Hmem. eexists. split; [done|]. intros p. right. eexists. split; [done|]. rewrite zlen_replicate. lia.
    + destruct (Z.eqb_spec (varsize d) 0); [lia|]. rewrite Hb. cbn [negb heap_realloc].
      destruct (realloc_block_take mem b _ (varsize it) Hread (Hmem (varsize it)) Hvs) as (junk & -> & Hj). cbn [obind]. eexists. split; [done|]. intros p. right. eexists. split; [done|].
      unfold zlen. rewrite length_take, length_app. unfold zlen in *. lia.
Qed.

Lemma reuse_oldest_ok c l1 a d it :
  cache_inv c (l1 ++ [(a, d)]) [] -> l1 <> [] -> 0 <= varsize it ->
  exists c' e, reuse_oldest c mem it = Ret (c', a) /\ detached c' l1 a e [] /\ blank_for it (data e) /\ hash_ok c' l1 /\
    dohash c' = dohash c /\ max_hash c' = max_hash c /\ dofree c' = dofree c /\
    freed c' = freed c ++ (if dofree c then [d] else []).
Proof using Hmem Hread.
  intros H Hne Hvs. pose proof (ci_list _ _ _ H) as HL. pose proof (lrep_around _ _ _ _ _ _ HL) as Ha. pose proof (ar_at _ _ _ _ _ _ _ Ha) as E.
  unfold reuse_oldest. rewrite (lr_old _ _ _ HL), last_of_app. cbn [last_of]. rewrite E. cbn [obind previous data].
  destruct (link_next_ok c l1 _ _ _ _ _ NULL Ha) as (es & El & Ha1 & Hs1).
  { rewrite (lr_mru _ _ _ HL), head_of_app. by destruct l1 as [|[??]?]. }
  unfold link_next in El. rewrite (non_null_last _ _ _ (ar_before _ _ _ _ _ _ _ Ha) Hne) in El. rewrite El. cbn [obind]. clear El.
  set (c1 := set_mru _ _).
  assert (dohash c1 = dohash c) as Edh by done. rewrite Edh.
  assert (hash_ok c1 (l1 ++ [(a, d)])) as Hh1.
  { eapply hash_ok_frame; [|apply (ci_hash _ _ _ H)]. constructor; cbn; try done. apply (same_but_length _ _ _ Hs1). }
  assert (exists c2, (match dohash c with Some hash => drophashindex c1 a (hash d) | None => Ret c1 end) = Ret c2 /\ hash_ok c2 l1 /\
    exists fh fs ls, c2 = set_hashing fh fs ls c1) as (c2 & -> & Hh2 & fh & fs & ls & Ec2).
  { unfold hash_ok in *. rewrite Edh in Hh1. destruct (dohash c) as [hash|] eqn:Ed.
    - destruct (drop_index_ok c1 hash _ l1 a d Hh1) as (fh & fs & ls & -> & Hh'); [done|by rewrite Permutation_app_comm|by eapply ci_nodup| |].
      { cbn. rewrite (ci_max _ _ _ H). apply (ck_range hash d); [by rewrite <- Ed, (ci_dohash _ _ _ H)|].
        eapply (valid_in _ _ _ a d H), elem_of_app. right. by left. }
      eexists. split; [done|]. cbn. rewrite Ed. split; [done|by eexists _, _, _].
    - exists c1. rewrite Edh. split_and!; [done|done|]. by exists (free_hash c1), (first_hash c1), (links c1); destruct c. }
  cbn [obind].
  destruct (heap_realloc_ok d it) as (v & -> & Hblank); [apply ck_var; eapply (valid_in _ _ _ a d H), elem_of_app; right; by left|done|].
  cbn [obind].
  assert (exists c3, (if dofree c2 then call_dofree d c2 else c2) = c3 /\ entries c3 = es /\ most_recent_entry c3 = head_of l1 NULL /\
    free_entry c3 = first_of [] /\ freed c3 = freed c ++ (if dofree c then [d] else []) /\ dohash c3 = dohash c /\ max_hash c3 = max_hash c /\
    dofree c3 = dofree c /\ hash_ok c3 l1) as (c3 & -> & Ees & Hm3 & Hf3 & Hfr3 & Hd3 & Hmx3 & Hdf3 & Hh3).
  { eexists. split; [done|]. pose proof (lr_first _ _ _ HL) as Hfe. destruct (dofree c2) eqn:Edf; subst c2; cbn in *; rewrite ?Edf, ?app_nil_r;
      split_and!; try done. }
  pose proof (ar_at _ _ _ _ _ _ _ Ha1) as Ea. rewrite <- Ees in Ea. rewrite (upd_entry_ok (set_oldest (last_of NULL l1) c3) a _ _ Ea). cbn [obind].
  eexists _, (set_data (mkitem (payload d) v (varsize it)) (mkentry NULL (last_of NULL l1) d)). split; [done|]. cbn [data set_data]. pose proof (rd_bound _ _ _ (ar_at _ _ _ _ _ _ _ Ha1)) as Hb.
  split; [|split; [apply Hblank|split_and!; try done]].
  2:{ eapply hash_ok_frame; [|exact Hh3]. constructor; cbn; try done. by rewrite length_insert. }
  pose proof (ar_nodup _ _ _ _ _ _ _ Ha1) as Hnd. cbn in Hnd. rewrite Permutation_app_comm in Hnd. cbn in Hnd.
  pose proof Hnd as [Hni _]%NoDup_cons. constructor; cbn; rewrite ?Ees.
  - eapply dseg_frame; [|apply (ar_before _ _ _ _ _ _ _ Ha1)]. intros b Hb'. apply rd_other; [lia|]. by intros ->.
  - done.
  - destruct l1 as [|[b x] l1]; done.
  - rewrite rd_insert, Z.eqb_refl by lia. done.
  - done.
  - done.
  - by rewrite app_nil_r.
  - rewrite length_insert, (same_but_length _ _ _ Hs1), <- (lr_count _ _ _ HL), length_app. cbn. lia.
Qed.

Lemma head_at c a d l fr : lrep c ((a, d) :: l) fr -> exists e, rd (entries c) a = Ret e /\ data e = d.
Proof using. intros H. eapply dseg_in; [apply (lr_seg _ _ _ H)|by left]. Qed.

(** The new head of the list joins its hash chain. *)
Lemma join_index_inv c a it l fr :
  lrep c ((a, it) :: l) fr -> hash_ok c l -> dohash c = ck_hash -> max_hash c = ck_max_hash -> dofree c = ck_dofree ->
  Forall ck_valid (it :: l.*2) -> NoDup (ck_key <$> it :: l.*2) ->
  exists c', inserthashindex c a = Ret c' /\ cache_inv c' ((a, it) :: l) fr /\ freed c' = freed c.
Proof using.
  intros HL Hh Hd Hm Hdf Hv Hk. unfold hash_ok in Hh. destruct (dohash c) as [hash|] eqn:Ed.
  - destruct (head_at _ _ _ _ _ HL) as (e & E & He). pose proof (lr_nodup _ _ _ HL) as Hnd. cbn in Hnd. apply NoDup_cons in Hnd as [Hni _].
    destruct (insert_index_ok c hash l a e Hh Ed E) as (fh & fs & ls & Ei & Hh').
    + intros Hin. apply Hni, elem_of_app. by left.
    + pose proof (lr_count _ _ _ HL) as Hc. cbn in Hc. lia.
    + rewrite He, Hm. apply (ck_range hash it); [done|]. by apply Forall_cons in Hv as [? _].
    + rewrite He in Hh'. exists (set_hashing fh fs ls c). split; [done|]. split; [|done]. constructor; try done; [by apply same_lists| |by rewrite <- Hd].
      unfold hash_ok. cbn. by rewrite Ed.
  - exists c. unfold inserthashindex. rewrite Ed. split; [done|]. split; [|done]. constructor; try done; [unfold hash_ok; by rewrite Ed|by rewrite Ed].
Qed.

(** [ntfs_enter_cache] *)
Lemma enter_ok ul c l fr it :
  cache_inv c l fr -> ck_valid it -> (2 <= length (entries c))%nat ->
  (exists l1 a d l2 c', l = l1 ++ (a, d) :: l2 /\ ck_key d = ck_key it /\ (forall x y, (x, y) ∈ l1 -> ck_key y <> ck_key it) /\
    ntfs_enter_cache ul c mem it ck_compare = Ret (c', a) /\ cache_inv c' l fr /\ freed c' = freed c) \/
  ((forall x y, (x, y) ∈ l -> ck_key y <> ck_key it) /\
    exists c' a, ntfs_enter_cache ul c mem it ck_compare = Ret (c', a) /\
      ((exists fr', fr = a :: fr' /\ cache_inv c' ((a, it) :: l) fr' /\ freed c' = freed c) \/
       (exists l1 d, fr = [] /\ l = l1 ++ [(a, d)] /\ cache_inv c' ((a, it) :: l1) [] /\
          freed c' = freed c ++ (if dofree c then [d] else [])))).
Proof using Hmem Hread.
  intros H Hv Hlen. unfold ntfs_enter_cache. pose proof (ci_list _ _ _ H) as HL. pose proof (ck_var it Hv) as Hvar.
  assert (0 <= varsize it) as Hvs by (destruct Hvar as [[-> _]|[? _]]; lia).
  destruct (find_entry_ok c l fr it H Hv) as [(l1 & a & d & l2 & -> & Hk & Hl1 & ->)|[Hn ->]]; cbn [obind].
  - left. assert (0 <= a) as Ha by (destruct (rd_in _ _ _ a d H) as (e & E & _); [apply elem_of_app; right; by left|]; apply rd_bound in E; lia).
    rewrite non_null_ge by done. exists l1, a, d, l2. eexists. split_and!; [done|done|done|done|by apply inv_writes|done].
  - right. split; [done|]. change (non_null NULL) with false. cbn [andb].
    assert (Forall ck_valid (it :: l.*2) /\ NoDup (ck_key <$> it :: l.*2)) as [Hvl Hkl].
    { split; [apply Forall_cons; split; [done|apply (ci_valid _ _ _ H)]|]. cbn. apply NoDup_cons. split; [|apply (ci_keys _ _ _ H)].
      intros (y & Hy & Hin)%list_elem_of_fmap. apply list_elem_of_fmap in Hin as ([x z] & -> & Hx). by apply (Hn x z Hx). }
    destruct fr as [|a fr'].
    + rewrite (lr_first _ _ _ HL). cbn [first_of]. change (non_null NULL) with false.
      pose proof (lr_count _ _ _ HL) as Hc. destruct l as [|p l0 _] using rev_ind; [cbn in Hc; lia|]. destruct p as [a d].
      destruct (reuse_oldest_ok c l0 a d it H) as (c1 & e & -> & Hd & Hb & Hh & Hd1 & Hm1 & Hdf1 & Hfr1); [|done|].
      { intros ->. cbn in Hc. lia. }
      cbn [obind]. destruct (fill_ok _ _ _ _ _ it Hd Hb Hvar) as (c2 & -> & HL2 & Hf2 & Hfr2). cbn [obind].
      pose proof (de_at _ _ _ _ _ Hd) as Hat. apply rd_bound in Hat. rewrite non_null_ge by lia.
      rewrite fmap_app in Hvl, Hkl. cbn in Hvl, Hkl. rewrite fmap_app in Hkl.
      destruct (join_index_inv c2 a it l0 []) as (c' & -> & Hi & Hfr); try done.
      { by eapply hash_ok_frame. }
      { rewrite (fm_dohash _ _ Hf2), Hd1. apply (ci_dohash _ _ _ H). }
      { rewrite (fm_max _ _ Hf2), Hm1. apply (ci_max _ _ _ H). }
      { rewrite (fm_dofree _ _ Hf2), Hdf1. apply (ci_dofree _ _ _ H). }
      { apply Forall_cons in Hvl as [? Hvl]. apply Forall_app in Hvl as [? _]. by apply Forall_cons. }
      { apply NoDup_cons in Hkl as [Hni Hkl]. apply NoDup_app in Hkl as [? _]. cbn. apply NoDup_cons. split; [|done].
        intros Hin. apply Hni, elem_of_app. by left. }
      cbn [obind]. exists (count_writes ul c'), a. split; [done|]. right. exists l0, d. split_and!; [done|done|by apply inv_writes|].
      cbn. by rewrite Hfr, Hfr2, Hfr1.
    + rewrite (lr_first _ _ _ HL). cbn [first_of].
      assert (0 <= a) as Ha by (apply (first_of_range _ _ (lr_free _ _ _ HL)); done). rewrite non_null_ge by done.
      destruct (take_free_ok c l a fr' it HL Hvs) as (c1 & e & -> & Hd & Hb & Hf1 & Hfr1). cbn [obind].
      destruct (fill_ok _ _ _ _ _ it Hd Hb Hvar) as (c2 & -> & HL2 & Hf2 & Hfr2). cbn [obind]. rewrite non_null_ge by done.
      assert (frame c c2) as Hf by (by eapply frame_trans).
      destruct (join_index_inv c2 a it l fr') as (c' & -> & Hi & Hfr); try done.
      { eapply hash_ok_frame; [exact Hf|apply (ci_hash _ _ _ H)]. }
      { rewrite (fm_dohash _ _ Hf). apply (ci_dohash _ _ _ H). }
      { rewrite (fm_max _ _ Hf). apply (ci_max _ _ _ H). }
      { rewrite (fm_dofree _ _ Hf). apply (ci_dofree _ _ _ H). }
      cbn [obind]. exists (count_writes ul c'), a. split; [done|]. left. exists fr'. split_and!; [done|by apply inv_writes|].
      cbn. by rewrite Hfr, Hfr2, Hfr1.
Qed.
End Refinement.
