(* ===== verification/CacheKinds.v ===== *)
(** * The caches of the driver (ntfs/dir.c, ntfs/inode.c)

    The comparison and hash functions of the three hashed caches - open inodes by
    number, directory entries by parent and name, inode numbers by path - each
    with the proof that it is what the cache relies on. *)
From S2P Require Import Prelude Libc Cache CacheLists CacheRep CacheProofs.

(** layout.h:325-325 MREF. The record number without the sequence number. *)
Definition MREF (x : Z) : Z := Z.land x 0xffffffffffff.

(** param.h:25-29 CACHE_INODE_SIZE *)
Definition CACHE_INODE_SIZE : Z := 32.
Definition CACHE_NIDATA_SIZE : Z := 64.
Definition CACHE_LOOKUP_SIZE : Z := 64.

(** A comparison that stays in its objects, as a truth value; the others count
    as a difference. *)
Definition truth (b : outcome bool) : bool := match b with Ret b => b | _ => true end.

(** [strcmp(a, b) != 0] and [memcmp(a, b, n) != 0] *)
Definition differ (r : outcome Z) : outcome bool := let! n := r in Ret (negb (n =? 0)).

(** ** Open inodes *)

(** cache.h:45-54 CACHED_NIDATA. The fields behind the generic ones: [ni] is a
    pointer to an inode. *)
Record nidata := mknidata { nd_inum : Z; nd_ni : Z }.

(** inode.c:414-418 ntfs_inode_nidata_hash *)
Definition ntfs_inode_nidata_hash (it : item nidata) : Z := nd_inum (payload it) mod (2 * CACHE_NIDATA_SIZE).

(** inode.c:424-429 idata_cache_compare *)
Definition idata_cache_compare (cached wanted : item nidata) : bool :=
  negb (nd_inum (payload cached) =? nd_inum (payload wanted)).

#[global] Instance nidata_kind : cache_kind nidata := {
  ck_compare := idata_cache_compare;
  ck_hash := Some ntfs_inode_nidata_hash;
  ck_max_hash := 2 * CACHE_NIDATA_SIZE;
  ck_dofree := true;
}.

#[global, refine] Instance nidata_kind_laws : cache_kind_laws nidata Z := {
  ck_valid d := varsize d = 0 /\ variable d = PNull;
  ck_key d := nd_inum (payload d);
}.
Proof.
  - intros d H. by left.
  - intros d w _ _. cbn. unfold idata_cache_compare. by destruct (Z.eqb_spec (nd_inum (payload d)) (nd_inum (payload w))) as [E|E];
      [rewrite bool_decide_true by done|rewrite bool_decide_false by done].
  - intros h d w [= <-] _ _ Hk. unfold ntfs_inode_nidata_hash. by rewrite Hk.
  - intros h d [= <-] _. unfold ntfs_inode_nidata_hash. cbn. apply Z.mod_pos_bound. done.
Defined.

(** ** Strings in the variable part *)

(** A text with its terminator and without another one. *)
Definition c_string (b : bytes) : Prop := exists s, b = s ++ [0] /\ nonzero s /\ s <> [].

Definition text_ok {P} (d : item P) : Prop := exists b, variable d = PBlock b /\ varsize d = zlen b /\ c_string b /\ Forall byte_ok b.

(** The bytes of the variable part. *)
Definition text_of {P} (d : item P) : bytes := match variable d with PBlock b => b | _ => [] end.

Lemma text_var {P} (d : item P) : text_ok d -> var_ok d.
Proof.
  intros (b & Hb & Hz & (s & -> & _ & Hs) & _). right. rewrite Hz. split; [|by eexists].
  rewrite zlen_app. pose proof (zlen_nonneg s). change (zlen [0]) with 1. lia.
Qed.

(** ** Inode numbers by path *)

(** dir.c:97-112 ntfs_dir_inode_hash *)
Definition dir_inode_hash (cached : item Z) : outcome Z :=
  match variable cached with
  | PNull => Ret (-1)
  | PDangling => Fault
  | PBlock path =>
    let! r := strrchr path 47 in
    let name := match r with Some p => p | None => 0 end in
    let! n0 := rd path name in
    let! n1 := rd path (name + 1) in
    let! l := strlen (drop (Z.to_nat name) path) in
    Ret ((Z.shiftl n0 1 + n1 + l) mod (2 * CACHE_INODE_SIZE))
  end.
Definition ntfs_dir_inode_hash (cached : item Z) : Z := match dir_inode_hash cached with Ret h => h | _ => -1 end.

(** dir.c:118-123 inode_cache_compare *)
Definition inode_cache_compare (cached wanted : item Z) : outcome bool :=
  match variable cached, variable wanted with
  | PNull, _ => Ret true
  | PBlock a, PBlock b => differ (strcmp a b)
  | _, _ => Fault
  end.

(** dir.c:136-157 inode_cache_inv_compare. The payload is the inode number. *)
Definition inode_cache_inv_compare (c w : item Z) : outcome bool :=
  match variable w with
  | PDangling => Fault
  | PNull => Ret ((match variable c with PNull => true | _ => false end) || negb (payload w =? MREF (payload c)))
  | PBlock wpath =>
    let! len := strlen wpath in
    match variable c with
    | PDangling => Fault
    | PNull => Ret true
    | PBlock cpath =>
      if payload w =? MREF (payload c) then Ret false
      else
        let! r := strncmp cpath wpath len in
        match r with
        | Some _ => Ret true
        | None => let! b := rd cpath len in Ret (negb (b =? 0) && negb (b =? 47))
        end
    end
  end.

Definition path_kind : cache_kind Z := {|
  ck_compare c w := truth (inode_cache_compare c w);
  ck_hash := Some ntfs_dir_inode_hash;
  ck_max_hash := 2 * CACHE_INODE_SIZE;
  ck_dofree := false;
|}.

Lemma strrchr_ok s k ch : nonzero s -> exists r, strrchr (s ++ 0 :: k) ch = Ret r /\ forall p, r = Some p -> 0 <= p < zlen s.
Proof.
  intros Hs. unfold strrchr. rewrite strlen_ok by done. cbn [obind]. unfold zlen. rewrite Nat2Z.id.
  assert (length s <= length s)%nat as Hle by done. revert Hle. generalize (length s) at 1 3. intros n.
  induction n as [|n IH]; intros Hle; cbn [strrchr_loop]; [by exists None|].
  destruct (rd_some (s ++ 0 :: k) (Z.of_nat n)) as [b ->]; [unfold zlen; rewrite length_app; cbn; lia|]. cbn [obind].
  destruct (s8 b =? ch); [|apply IH; lia]. exists (Some (Z.of_nat n)). split; [done|]. intros p [= <-]. lia.
Qed.

Lemma nonzero_drop s n : nonzero s -> nonzero (drop n s).
Proof. apply Forall_drop. Qed.

(** The hash of a path: within range, and within the path. *)
Lemma dir_inode_hash_ok d : text_ok d -> exists h, dir_inode_hash d = Ret h /\ 0 <= h < 2 * CACHE_INODE_SIZE.
Proof.
  intros (b & Hb & Hz & (s & -> & Hs & Hne) & Hbytes). unfold dir_inode_hash. rewrite Hb.
  destruct (strrchr_ok s [] 47 Hs) as (r & -> & Hr). cbn [obind]. set (p := match r with Some p => p | None => 0 end).
  assert (0 <= p < zlen s) as Hp.
  { unfold p. destruct r; [by apply Hr|]. destruct s; [done|]. unfold zlen. cbn. lia. }
  clearbody p. assert (zlen (s ++ [0]) = zlen s + 1) as Hzs by (by rewrite zlen_app).
  destruct (rd_some (s ++ [0]) p) as [n0 ->]; [lia|]. destruct (rd_some (s ++ [0]) (p + 1)) as [n1 ->]; [lia|]. cbn [obind].
  rewrite drop_app_le by (unfold zlen in Hp; lia). rewrite strlen_ok by (by apply nonzero_drop). cbn [obind].
  eexists. split; [done|]. by apply Z.mod_pos_bound.
Qed.

Lemma path_compare_ok d w : text_ok d -> text_ok w -> inode_cache_compare d w = Ret (negb (bool_decide (text_of d = text_of w))).
Proof.
  intros (a & Ha & _ & (s & -> & Hs & _) & _) (b & Hb & _ & (t & -> & Ht & _) & _).
  unfold inode_cache_compare, text_of. rewrite Ha, Hb, strcmp_spec by done. unfold differ. cbn [obind]. f_equal.
  destruct (decide (s = t)) as [->|Hne]; [by rewrite bool_decide_true|]. rewrite bool_decide_false; [done|].
  intros E. apply app_inj_tail in E as [? _]. done.
Qed.

Lemma path_kind_laws : @cache_kind_laws Z bytes _ path_kind.
Proof.
  refine (@Build_cache_kind_laws Z bytes _ path_kind text_ok text_of _ _ _ _); cbn.
  - apply text_var.
  - intros d w Hd Hw. by rewrite path_compare_ok.
  - intros h d w [= <-] Hd Hw Hk. unfold ntfs_dir_inode_hash, dir_inode_hash. destruct Hd as (a & Ha & _), Hw as (b & Hb & _).
    unfold text_of in Hk. rewrite Ha, Hb in *. by subst.
  - intros h d [= <-] Hd. unfold ntfs_dir_inode_hash. by destruct (dir_inode_hash_ok d Hd) as (r & -> & Hr).
Defined.

(** ** Directory entries *)

(** cache.h:56-65 CACHED_LOOKUP. The fields behind the generic ones. *)
Record lookup_data := mklookup { lk_parent : Z; lk_inum : Z }.

(** dir.c:202-215 ntfs_dir_lookup_hash *)
Definition dir_lookup_hash (cached : item lookup_data) : outcome Z :=
  match variable cached with
  | PNull => Ret (-1)
  | PDangling => Fault
  | PBlock name =>
    let count := s32 (varsize cached) in
    if count =? 0 then Ret (-1)
    else
      let! n0 := rd name 0 in
      let! n1 := rd name 1 in
      let! nl := rd name (count - 1) in
      Ret (u32 (Z.shiftl n0 2 + Z.shiftl n1 1 + nl + count) mod (2 * CACHE_LOOKUP_SIZE))
  end.
Definition ntfs_dir_lookup_hash (cached : item lookup_data) : Z := match dir_lookup_hash cached with Ret h => h | _ => -1 end.

(** dir.c:167-176 lookup_cache_compare *)
Definition lookup_cache_compare (c w : item lookup_data) : outcome bool :=
  match variable c with
  | PNull => Ret true
  | _ =>
    if negb (lk_parent (payload c) =? lk_parent (payload w)) || negb (varsize c =? varsize w) then Ret true
    else
      match variable c, variable w with
      | PBlock a, PBlock b => differ (memcmp a b (varsize c))
      | _, _ => Fault
      end
  end.

(** dir.c:186-194 lookup_cache_inv_compare *)
Definition lookup_cache_inv_compare (c w : item lookup_data) : bool :=
  (match variable c with PNull => true | _ => false end)
  || negb (lk_parent (payload c) =? lk_parent (payload w))
  || negb (MREF (lk_inum (payload c)) =? MREF (lk_inum (payload w))).

#[global] Instance lookup_kind : cache_kind lookup_data := {
  ck_compare c w := truth (lookup_cache_compare c w);
  ck_hash := Some ntfs_dir_lookup_hash;
  ck_max_hash := 2 * CACHE_LOOKUP_SIZE;
  ck_dofree := false;
}.

Lemma lookup_compare_ok d w : text_ok d -> text_ok w ->
  lookup_cache_compare d w = Ret (negb (bool_decide ((lk_parent (payload d), text_of d) = (lk_parent (payload w), text_of w)))).
Proof.
  intros (a & Ha & Hza & _ & Hba) (b & Hb & Hzb & _ & Hbb). unfold lookup_cache_compare, text_of. rewrite Ha, Hb, Hza, Hzb.
  destruct (Z.eqb_spec (lk_parent (payload d)) (lk_parent (payload w))) as [->|Hp]; cbn [negb orb].
  2:{ rewrite bool_decide_false; [done|]. by intros [= ?]. }
  destruct (Z.eqb_spec (zlen a) (zlen b)) as [Hz|Hz]; cbn [negb].
  2:{ rewrite bool_decide_false; [done|]. by intros [= ->]. }
  unfold memcmp. pose proof (memcmp_loop_ok a b [] []) as Hc. rewrite !app_nil_r in Hc. unfold zlen. rewrite Nat2Z.id, Hc by (done || (unfold zlen in Hz; lia)). unfold differ. cbn [obind]. f_equal.
  destruct (decide (a = b)) as [->|Hne]; [by rewrite bool_decide_true|]. rewrite bool_decide_false; [done|]. by intros [= ->].
Qed.

Definition lookup_valid (d : item lookup_data) : Prop := text_ok d /\ varsize d < 2 ^ 31.

Lemma dir_lookup_hash_ok d : lookup_valid d -> exists h, dir_lookup_hash d = Ret h /\ 0 <= h < 2 * CACHE_LOOKUP_SIZE.
Proof.
  intros [(b & Hb & Hz & (s & -> & Hs & Hne) & _) Hmax]. unfold dir_lookup_hash. rewrite Hb.
  assert (zlen (s ++ [0]) = zlen s + 1) as Hzs by (by rewrite zlen_app).
  assert (1 <= zlen s) as H1 by (destruct s; [done|unfold zlen; cbn; lia]). rewrite wraps_small by (unfold in_s; lia).
  destruct (Z.eqb_spec (varsize d) 0); [lia|].
  destruct (rd_some (s ++ [0]) 0) as [n0 ->]; [lia|]. destruct (rd_some (s ++ [0]) 1) as [n1 ->]; [lia|].
  destruct (rd_some (s ++ [0]) (varsize d - 1)) as [nl ->]; [lia|]. cbn [obind]. eexists. split; [done|]. by apply Z.mod_pos_bound.
Qed.

#[global, refine] Instance lookup_kind_laws : cache_kind_laws lookup_data (Z * bytes) := {
  ck_valid := lookup_valid;
  ck_key d := (lk_parent (payload d), text_of d);
}.
Proof.
  - intros d [Hd _]. by apply text_var.
  - intros d w [Hd _] [Hw _]. cbn. by rewrite lookup_compare_ok.
  - intros h d w [= <-] [Hd _] [Hw _] [= _ Hk]. unfold ntfs_dir_lookup_hash, dir_lookup_hash.
    destruct Hd as (a & Ha & Hza & _), Hw as (b & Hb & Hzb & _). unfold text_of in Hk. rewrite Ha, Hb, Hza, Hzb in *. by subst.
  - intros h d [= <-] Hd. unfold ntfs_dir_lookup_hash. cbn. by destruct (dir_lookup_hash_ok d Hd) as (r & -> & Hr).
Defined.

(** Because the driver's [strncmp] returns a pointer when the strings agree, the
    comparison for invalidating paths is the wrong way around: with the
    directory "d" gone, the path "d/x" is kept and the path "e" is dropped. *)
Example inode_inv_compare_inverted :
  let it inum path := mkitem inum (PBlock path) (zlen path) in
  inode_cache_inv_compare (it 7 [100; 47; 120; 0]) (it 5 [100; 0]) = Ret true /\
  inode_cache_inv_compare (it 8 [101; 0]) (it 5 [100; 0]) = Ret false.
Proof. by vm_compute. Qed.
