(* ===== verification/CacheLru.v ===== *)
(** * The abstract LRU cache (ntfs/cache.c)

    A bounded list of items, most recently used first, without two items of one
    key, and the refinement theorem: any sequence of calls on a cache that
    [ntfs_create_cache] made gives what it gives on the abstract cache. *)
From S2P Require Import Prelude Libc Cache CacheLists CacheRep CacheProofs CacheKinds.

Section Lru.
Context {P K : Type} {EK : EqDecision K} {CK : cache_kind P} {LK : cache_kind_laws P K}.

(** ** The abstract cache *)
Record lru := mklru { l_items : list (item P); l_freed : list (item P) }.

Definition has_key (k : K) (d : item P) : Prop := ck_key d = k.
#[global] Instance has_key_dec k d : Decision (has_key k d) := EK (ck_key d) k.

(** The item with the key of [w], which becomes the most recent one. *)
Definition lru_fetch (w : item P) (s : lru) : lru * option (item P) :=
  let hit := filter (has_key (ck_key w)) (l_items s) in
  (mklru (hit ++ filter (fun d => ~ has_key (ck_key w) d) (l_items s)) (l_freed s), head hit).

(** The item that is in the cache from now on: an old one with this key stays
    where it is, and the oldest one gives way when [n] items are there. *)
Definition lru_enter (n : nat) (it : item P) (s : lru) : lru * option (item P) :=
  match head (filter (has_key (ck_key it)) (l_items s)) with
  | Some d => (s, Some d)
  | None =>
    (if decide (length (l_items s) < n)%nat then mklru (it :: l_items s) (l_freed s)
     else mklru (it :: removelast (l_items s))
            (l_freed s ++ match ck_dofree, last (l_items s) with true, Some d => [d] | _, _ => [] end), Some it)
  end.

(** The items that compare as equal go, and are counted. *)
Definition lru_invalidate (cmp : item P -> item P -> bool) (w : item P) (flags : Z) (s : lru) : lru * Z :=
  let gone := filter (fun d => cmp d w = false) (l_items s) in
  (mklru (filter (fun d => cmp d w = true) (l_items s))
     (l_freed s ++ if negb (Z.land flags CACHE_FREE =? 0) && ck_dofree then gone else []), zlen gone).

(** ** Calls and their results *)
Inductive call :=
| CFetch (w : item P)
| CEnter (it : item P)
| CInvalidate (w : item P) (flags : Z)
| CInvalidateBy (cmp : item P -> item P -> bool) (w : item P) (flags : Z)
| CFetchRemove (w : item P) (flags : Z).

Inductive result :=
| RItem (d : option (item P))
| RCount (n : Z).

Definition call_ok (o : call) : Prop :=
  match o with
  | CFetch w | CEnter w | CInvalidate w _ | CFetchRemove w _ => ck_valid w
  | CInvalidateBy _ _ flags => Z.land flags CACHE_NOHASH <> 0
  end.

(** The memory that the variable parts are taken from. *)
Context (mem : heap Z).

(** What a pointer that was returned leads to. *)
Definition item_at (c : cache P) (p : Z) : option (item P) :=
  match rd (entries c) p with Ret e => Some (data e) | _ => None end.

(** A call of the code. [CFetchRemove]: the entry is fetched, and removed when it
    was there, as [ntfs_inode_open] does. *)
Definition code_call (ul : Z) (o : call) (c : cache P) : outcome (cache P * result) :=
  match o with
  | CFetch w => let! r := ntfs_fetch_cache ul c w ck_compare in Ret (fst r, RItem (item_at (fst r) (snd r)))
  | CEnter it => let! r := ntfs_enter_cache ul c mem it ck_compare in Ret (fst r, RItem (item_at (fst r) (snd r)))
  | CInvalidate w flags => let! r := ntfs_invalidate_cache c w ck_compare flags in Ret (fst r, RCount (snd r))
  | CInvalidateBy cmp w flags => let! r := ntfs_invalidate_cache c w cmp flags in Ret (fst r, RCount (snd r))
  | CFetchRemove w flags =>
    let! r := ntfs_fetch_cache ul c w ck_compare in
    if non_null (snd r) then
      let! q := ntfs_remove_cache (fst r) (snd r) flags in Ret (fst q, RItem (item_at (fst r) (snd r)))
    else Ret (fst r, RItem None)
  end.

Definition spec_call (n : nat) (o : call) (s : lru) : lru * result :=
  match o with
  | CFetch w => let '(s, d) := lru_fetch w s in (s, RItem d)
  | CEnter it => let '(s, d) := lru_enter n it s in (s, RItem d)
  | CInvalidate w flags => let '(s, k) := lru_invalidate ck_compare w flags s in (s, RCount k)
  | CInvalidateBy cmp w flags => let '(s, k) := lru_invalidate cmp w flags s in (s, RCount k)
  | CFetchRemove w flags =>
    let '(s, d) := lru_fetch w s in
    match d with
    | Some x => (mklru (tail (l_items s)) (l_freed s ++ if negb (Z.land flags CACHE_FREE =? 0) && ck_dofree then [x] else []), RItem d)
    | None => (s, RItem None)
    end
  end.

Fixpoint code_calls (ul : Z) (os : list call) (c : cache P) : outcome (cache P * list result) :=
  match os with
  | [] => Ret (c, [])
  | o :: os' => let! r := code_call ul o c in let! q := code_calls ul os' (fst r) in Ret (fst q, snd r :: snd q)
  end.

Fixpoint spec_calls (n : nat) (os : list call) (s : lru) : lru * list result :=
  match os with
  | [] => (s, [])
  | o :: os' => let '(s, r) := spec_call n o s in let '(s, q) := spec_calls n os' s in (s, r :: q)
  end.

(** ** The simulation *)
Record simulates (n : nat) (c : cache P) (s : lru) : Prop := {
  sim_inv : exists l fr, cache_inv c l fr /\ l.*2 = l_items s;
  sim_size : length (entries c) = n;
  sim_freed : freed c = l_freed s;
}.

Lemma filter_snd (Q : item P -> Prop) `{!forall d, Decision (Q d)} (l : list (Z * item P)) :
  (filter (fun p => Q p.2) l).*2 = filter Q l.*2.
Proof.
  induction l as [|[a d] l IH]; [done|]. cbn [fmap list_fmap]. rewrite !filter_cons. cbn [snd].
  destruct (decide (Q d)); cbn; by rewrite IH.
Qed.

Lemma filter_key_none (l : list (Z * item P)) k :
  (forall x y, (x, y) ∈ l -> ck_key y <> k) ->
  filter (has_key k) l.*2 = [] /\ filter (fun d => ~ has_key k d) l.*2 = l.*2.
Proof.
  intros Hn. induction l as [|[a d] l IH]; [done|]. cbn [fmap list_fmap snd]. rewrite !filter_cons.
  assert (~ has_key k d) as Hd by (apply (Hn a); by left). rewrite (decide_False (P := has_key k d)), (decide_True (P := ~ has_key k d)) by done.
  destruct IH as [-> ->]; [|done]. intros x y Hx. apply (Hn x). by right.
Qed.

Lemma filter_key_some (l1 l2 : list (Z * item P)) a d k :
  NoDup (ck_key <$> (l1 ++ (a, d) :: l2).*2) -> ck_key d = k ->
  filter (has_key k) (l1 ++ (a, d) :: l2).*2 = [d] /\
  filter (fun d => ~ has_key k d) (l1 ++ (a, d) :: l2).*2 = (l1 ++ l2).*2.
Proof.
  intros Hnd Hk. rewrite !fmap_app in Hnd. cbn in Hnd. apply NoDup_app in Hnd as (_ & Hdis & Hnd). apply NoDup_cons in Hnd as [Hni Hnd].
  destruct (filter_key_none l1 k) as [E1 E2].
  { intros x y Hx Hy. apply (Hdis (ck_key y)); [|rewrite Hy, <- Hk; by left]. apply list_elem_of_fmap. exists y. split; [done|].
    by eapply (list_elem_of_fmap_2 snd _ (x, y)). }
  destruct (filter_key_none l2 k) as [E3 E4].
  { intros x y Hx Hy. apply Hni. rewrite Hk, <- Hy. apply list_elem_of_fmap. exists y. split; [done|].
    by eapply (list_elem_of_fmap_2 snd _ (x, y)). }
  rewrite !fmap_app. cbn [fmap list_fmap snd]. rewrite !filter_app, E1, E2, !filter_cons.
  rewrite (decide_True (P := has_key k d)), (decide_False (P := ~ has_key k d)) by (unfold has_key; tauto).
  by rewrite E3, E4.
Qed.

Lemma item_at_null c : item_at c NULL = None.
Proof. unfold item_at. by rewrite rd_fault by (unfold NULL; lia). Qed.

Lemma item_at_in c l fr a d : cache_inv c l fr -> (a, d) ∈ l -> item_at c a = Some d.
Proof. intros H Hin. destruct (rd_in _ _ _ _ _ H Hin) as (e & E & He). unfold item_at. by rewrite E, He. Qed.

Lemma inv_size c c' l l' fr fr' : cache_inv c l fr -> cache_inv c' l' fr' -> (length l' + length fr' = length l + length fr)%nat ->
  length (entries c') = length (entries c).
Proof. intros H H' Hl. rewrite <- (lr_count _ _ _ (ci_list _ _ _ H)), <- (lr_count _ _ _ (ci_list _ _ _ H')). done. Qed.

Lemma fetch_sim n ul c s w :
  simulates n c s -> ck_valid w ->
  exists c' p, ntfs_fetch_cache ul c w ck_compare = Ret (c', p) /\ simulates n c' (fst (lru_fetch w s)) /\
    item_at c' p = snd (lru_fetch w s) /\
    (if non_null p then exists l2 fr d, snd (lru_fetch w s) = Some d /\ cache_inv c' ((p, d) :: l2) fr /\ l2.*2 = tail (l_items (fst (lru_fetch w s)))
     else snd (lru_fetch w s) = None).
Proof.
  intros [(l & fr & H & Hl) Hn Hf] Hw. unfold lru_fetch. rewrite <- Hl. cbn [fst snd].
  destruct (fetch_ok ul c l fr w H Hw) as [(l1 & a & d & l2 & c' & -> & Hk & _ & E & H' & Hfr)|[Hno (c' & E & H' & Hfr)]]; rewrite E.
  - destruct (filter_key_some l1 l2 a d _ (ci_keys _ _ _ H) Hk) as [-> ->]. cbn [head app l_items l_freed]. exists c', a. split; [done|].
    assert (item_at c' a = Some d) as Hat by (eapply item_at_in; [exact H'|by left]).
    split; [|split; [done|]].
    + constructor; [by exists ((a, d) :: l1 ++ l2), fr| |by rewrite Hfr]. rewrite <- Hn. eapply inv_size; [exact H|exact H'|].
      cbn. rewrite !length_app. cbn. lia.
    + assert (0 <= a) as Ha.
      { unfold item_at in Hat. destruct (rd (entries c') a) eqn:Er; try done. by apply rd_bound in Er as [? _]. }
      rewrite non_null_ge by done. by exists (l1 ++ l2), fr, d.
  - destruct (filter_key_none l _ Hno) as [-> ->]. exists c', NULL. rewrite item_at_null. split_and!; try done.
    constructor; [by exists l, fr| |by rewrite Hfr]. rewrite <- Hn. by eapply inv_size.
Qed.

Context (Hmem : forall n, mem n = true) (Hread : readable mem).

Lemma enter_sim n ul c s it :
  simulates n c s -> ck_valid it -> (2 <= n)%nat ->
  exists c' p, ntfs_enter_cache ul c mem it ck_compare = Ret (c', p) /\ simulates n c' (fst (lru_enter n it s)) /\
    item_at c' p = snd (lru_enter n it s).
Proof.
  intros [(l & fr & H & Hl) Hn Hf] Hw H2. unfold lru_enter. rewrite <- Hl. pose proof (lr_count _ _ _ (ci_list _ _ _ H)) as Hc.
  destruct (enter_ok mem Hmem Hread ul c l fr it H Hw ltac:(lia)) as [(l1 & a & d & l2 & c' & El & Hk & _ & -> & H' & Hfr)|[Hno (c' & a & -> & Hcase)]].
  - assert (filter (has_key (ck_key it)) l.*2 = [d]) as -> by (rewrite El; apply filter_key_some; [rewrite <- El; apply (ci_keys _ _ _ H)|done]).
    cbn [head fst snd]. exists c', a. split; [done|]. split.
    + constructor; [by exists l, fr| |by rewrite Hfr]. rewrite <- Hn. by eapply inv_size.
    + eapply item_at_in; [exact H'|]. rewrite El. apply elem_of_app. right. by left.
  - destruct (filter_key_none l _ Hno) as [-> _]. cbn [head fst snd]. exists c', a. split; [done|].
    destruct Hcase as [(fr' & -> & H' & Hfr)|(l1 & d & -> & -> & H' & Hfr)].
    + cbn in Hc. rewrite decide_True by (rewrite length_fmap; lia). cbn [fst snd]. split; [|eapply item_at_in; [exact H'|by left]].
      constructor; [by exists ((a, it) :: l), fr'| |by rewrite Hfr]. rewrite <- Hn. eapply inv_size; [exact H|exact H'|cbn; lia].
    + cbn in Hc. rewrite length_app in Hc. cbn in Hc. rewrite decide_False by (rewrite length_fmap, length_app; cbn; lia). cbn [fst snd].
      split; [|eapply item_at_in; [exact H'|by left]]. rewrite fmap_app. cbn. rewrite removelast_last, last_snoc.
      constructor; [by exists ((a, it) :: l1), []| |].
      * rewrite <- Hn. eapply inv_size; [exact H|exact H'|]. rewrite length_app. cbn. lia.
      * rewrite Hfr, Hf. cbn. rewrite (ci_dofree _ _ _ H). by destruct ck_dofree.
Qed.

Lemma concat_freed c flags (l : list (Z * item P)) :
  dofree c = ck_dofree -> concat (map (fun p => freed_of c flags p.2) l) = if negb (Z.land flags CACHE_FREE =? 0) && ck_dofree then l.*2 else [].
Proof.
  intros Hd. unfold freed_of. rewrite Hd. induction l as [|[a d] l IH]; [by destruct (_ && _)|]. cbn [map concat]. rewrite IH. cbn.
  by destruct (_ && _).
Qed.

Lemma invalidate_sim n c s w cmp flags :
  simulates n c s -> Z.of_nat n < 2 ^ 31 -> (cmp = ck_compare /\ ck_valid w) \/ Z.land flags CACHE_NOHASH <> 0 ->
  exists c', ntfs_invalidate_cache c w cmp flags = Ret (c', snd (lru_invalidate cmp w flags s)) /\ simulates n c' (fst (lru_invalidate cmp w flags s)).
Proof.
  intros [(l & fr & H & Hl) Hn Hf] Hmax Hcmp. unfold lru_invalidate. rewrite <- Hl. cbn [fst snd].
  destruct (invalidate_ok c l fr w cmp flags H) as (c' & fr' & E & H' & Hfr & Hlen); [unfold zlen; lia|done|].
  exists c'. rewrite <- !(filter_snd (fun d => cmp d w = _)). split.
  - rewrite E. do 2 f_equal. unfold zlen. by rewrite length_fmap.
  - constructor; [by eexists _, fr'|lia|]. rewrite Hfr, Hf, concat_freed by apply (ci_dofree _ _ _ H). done.
Qed.

Lemma call_sim n ul o c s :
  simulates n c s -> (2 <= n)%nat -> Z.of_nat n < 2 ^ 31 -> call_ok o ->
  exists c', code_call ul o c = Ret (c', snd (spec_call n o s)) /\ simulates n c' (fst (spec_call n o s)).
Proof.
  intros H H2 Hmax Ho. destruct o as [w|it|w flags|cmp w flags|w flags]; cbn [code_call spec_call call_ok] in *.
  - destruct (fetch_sim n ul c s w H Ho) as (c' & p & -> & Hs & Hat & _). cbn [obind fst snd]. destruct (lru_fetch w s) as [s' d].
    exists c'. cbn in *. by rewrite Hat.
  - destruct (enter_sim n ul c s it H Ho H2) as (c' & p & -> & Hs & Hat). cbn [obind fst snd]. destruct (lru_enter n it s) as [s' d].
    exists c'. cbn in *. by rewrite Hat.
  - destruct (invalidate_sim n c s w ck_compare flags H Hmax ltac:(by left)) as (c' & -> & Hs). cbn [obind fst snd].
    destruct (lru_invalidate ck_compare w flags s) as [s' k]. by exists c'.
  - destruct (invalidate_sim n c s w cmp flags H Hmax ltac:(by right)) as (c' & -> & Hs). cbn [obind fst snd].
    destruct (lru_invalidate cmp w flags s) as [s' k]. by exists c'.
  - destruct (fetch_sim n ul c s w H Ho) as (c' & p & -> & Hs & Hat & Hp). cbn [obind fst snd]. destruct (lru_fetch w s) as [s' d]. cbn [fst snd] in *.
    destruct (non_null p); [|clear Hat; subst d; by exists c'].
    destruct Hp as (l2 & fr & x & -> & H' & Hl2). destruct (remove_ok c' [] p x l2 fr flags H') as (c2 & -> & H2' & Hfr). cbn [obind fst snd].
    exists c2. rewrite Hat. split; [done|]. destruct Hs as [_ Hsz Hsf]. constructor; cbn [l_items l_freed].
    + by exists l2, (p :: fr).
    + rewrite <- Hsz. eapply inv_size; [exact H'|exact H2'|]. cbn. lia.
    + rewrite Hfr, Hsf. unfold freed_of. by rewrite (ci_dofree _ _ _ H').
Qed.

Lemma calls_sim n ul os c s :
  simulates n c s -> (2 <= n)%nat -> Z.of_nat n < 2 ^ 31 -> Forall call_ok os ->
  exists c', code_calls ul os c = Ret (c', snd (spec_calls n os s)) /\ simulates n c' (fst (spec_calls n os s)).
Proof.
  revert c s. induction os as [|o os IH]; intros c s H H2 Hmax Ho; [by exists c|]. apply Forall_cons in Ho as [Ho Hos].
  cbn [code_calls spec_calls]. destruct (call_sim n ul o c s H H2 Hmax Ho) as (c1 & -> & H1). cbn [obind fst snd].
  destruct (spec_call n o s) as [s1 r]. destruct (IH c1 s1 H1 H2 Hmax Hos) as (c' & -> & H'). cbn [obind fst snd].
  cbn [fst] in *. destruct (spec_calls n os s1) as [s' q]. by exists c'.
Qed.

(** ** A new cache *)
Lemma rd_map_seq {X} (f : nat -> X) n i : (i < n)%nat -> rd (map f (seq 0 n)) (Z.of_nat i) = Ret (f i).
Proof.
  intros Hi. apply rd_lookup. split; [lia|]. rewrite Nat2Z.id. change (map f (seq 0 n)) with (f <$> seq 0 n).
  rewrite list_lookup_fmap, lookup_seq_lt by done. done.
Qed.

Lemma nodup_of_nat n k : NoDup (map Z.of_nat (seq k n)).
Proof. apply (NoDup_fmap_2 Z.of_nat). apply NoDup_seq. Qed.

Definition chained (n i : nat) : Z := if Z.of_nat i + 1 <? Z.of_nat n then Z.of_nat i + 1 else NULL.

Lemma chained_first n k m : (k + S m = n)%nat -> chained n k = first_of (map Z.of_nat (seq (S k) m)).
Proof.
  intros <-. unfold chained. destruct m as [|m]; cbn [seq map first_of].
  - destruct (Z.ltb_spec (Z.of_nat k + 1) (Z.of_nat (k + 1))); [lia|done].
  - destruct (Z.ltb_spec (Z.of_nat k + 1) (Z.of_nat (k + S (S m)))); lia.
Qed.

Lemma fseg_new (f : nat -> item P) n m k : (k + m = n)%nat ->
  fseg (map (fun i => mkentry (chained n i) NULL (f i)) (seq 0 n)) (map Z.of_nat (seq k m)).
Proof.
  revert k. induction m as [|m IH]; intros k Hk; cbn [seq map fseg]; [done|]. split; [|apply IH; lia].
  eexists. split; [apply rd_map_seq; lia|]. cbn. by apply chained_first.
Qed.

Lemma lseg_new n m k : (k + m = n)%nat ->
  lseg (map (fun i => mkhash (chained n i) NULL) (seq 0 n)) (map Z.of_nat (seq k m)).
Proof.
  revert k. induction m as [|m IH]; intros k Hk; cbn [seq map lseg]; [done|]. split; [|apply IH; lia].
  eexists. split; [apply rd_map_seq; lia|]. cbn. by apply chained_first.
Qed.

(** A hash function goes with a number of hash values. *)
Definition hash_shape : Prop := match ck_hash with Some _ => 0 < ck_max_hash | None => ck_max_hash = 0 end.

Lemma create_sim n blank :
  hash_shape -> (0 < n)%nat ->
  exists c, ntfs_create_cache true blank ck_dofree ck_hash (Z.of_nat n) ck_max_hash = Some c /\ simulates n c (mklru [] []).
Proof.
  intros Hshape Hn. unfold ntfs_create_cache. rewrite Nat2Z.id. eexists. split; [done|].
  assert (map Z.of_nat (seq 0 n) = 0 :: map Z.of_nat (seq 1 (n - 1))) as Hseq by (destruct n as [|n']; [lia|]; cbn; by rewrite Nat.sub_0_r).
  constructor; [|cbn; by rewrite length_map, length_seq|done].
  exists [], (map Z.of_nat (seq 0 n)). split; [|done]. constructor.
  - constructor; cbn; try done.
    + by apply (fseg_new (fun _ => mkitem blank PNull 0)).
    + by rewrite Hseq.
    + apply nodup_of_nat.
    + by rewrite !length_map, !length_seq.
  - unfold hash_ok, hash_shape in *. cbn. destruct ck_hash as [hash|]; [|done].
    destruct (Z.eqb_spec ck_max_hash 0); [lia|]. cbn [negb].
    assert (forall k, concat (replicate k (@nil (Z * Z))) = []) as Hcr by (intros k; by induction k).
    exists (replicate (Z.to_nat ck_max_hash) []), (map Z.of_nat (seq 0 n)). unfold hrep_at. cbn. rewrite Hcr. split_and!.
    + constructor.
      * clear. induction (Z.to_nat ck_max_hash) as [|k IH]; [done|]. cbn. by rewrite <- IH.
      * intros h ch Hch. apply lookup_replicate in Hch as [-> _]. done.
      * by apply lseg_new.
      * by rewrite Hseq.
      * rewrite Hcr. apply nodup_of_nat.
    + rewrite zlen_replicate. lia.
    + done.
    + by rewrite !length_map, !length_seq.
    + by rewrite !length_map, !length_seq.
    + intros h ch a e d _ _ Hin. by apply elem_of_nil in Hin.
  - cbn. unfold hash_shape in Hshape. destruct ck_hash; [|done]. destruct (Z.eqb_spec ck_max_hash 0); [lia|done].
  - cbn. unfold hash_shape in Hshape. destruct ck_hash; [|done]. destruct (Z.eqb_spec ck_max_hash 0); [lia|done].
  - done.
  - apply Forall_nil_2.
  - apply NoDup_nil_2.
Qed.

(** C9. A cache of at least two entries, used in any way (lookups, entries, both
    kinds of invalidation, removals) with enough memory, behaves as the abstract
    LRU cache, when what [realloc] reads behind the variable part of an entry that is
    used again can be read ([readable]; Example reuse_overread): the calls never follow a
    null or dangling pointer nor loop, give
    the items and counts of the abstract cache, and call [dofree] for the items
    that it gives up, in its order. *)
Theorem cache_refines_lru (ul : Z) (n : nat) (blank : P) (os : list call) :
  hash_shape -> (2 <= n)%nat -> Z.of_nat n < 2 ^ 31 -> Forall call_ok os ->
  exists c c', ntfs_create_cache true blank ck_dofree ck_hash (Z.of_nat n) ck_max_hash = Some c /\
    code_calls ul os c = Ret (c', snd (spec_calls n os (mklru [] []))) /\
    freed c' = l_freed (fst (spec_calls n os (mklru [] []))).
Proof.
  intros Hshape H2 Hmax Hos. destruct (create_sim n blank Hshape ltac:(lia)) as (c & E & H). exists c.
  destruct (calls_sim n ul os c _ H H2 Hmax Hos) as (c' & E' & H'). exists c'. split_and!; [done|done|apply (sim_freed _ _ _ H')].
Qed.
End Lru.

(** Three inodes go through a cache of two entries. *)
Definition sample_inode (n : Z) : item nidata := mkitem (mknidata n (1000 + n)) PNull 0.
Definition sample_calls : list call :=
  [CEnter (sample_inode 5); CEnter (sample_inode 6); CFetch (sample_inode 5); CEnter (sample_inode 133); CFetch (sample_inode 6);
   CFetchRemove (sample_inode 5) 0; CInvalidate (sample_inode 133) CACHE_FREE].

Lemma cache_refines_lru_witness :
  exists c c', ntfs_create_cache true (mknidata 0 0) true (Some ntfs_inode_nidata_hash) 2 128 = Some c /\
    code_calls (full_heap 0) 64 sample_calls c =
      Ret (c', [RItem (Some (sample_inode 5)); RItem (Some (sample_inode 6)); RItem (Some (sample_inode 5));
                RItem (Some (sample_inode 133)); RItem None; RItem (Some (sample_inode 5)); RCount 1]) /\
    freed c' = [sample_inode 6; sample_inode 133].
Proof.
  destruct (cache_refines_lru (full_heap 0) (fun _ => eq_refl) (readable_full 0) 64 2 (mknidata 0 0) sample_calls) as (c & c' & E & E' & Hf);
    [done|lia|done|repeat (constructor; [done|]); constructor|].
  exists c, c'. split; [exact E|]. split; [rewrite E'; by vm_compute|rewrite Hf; by vm_compute].
Defined.

(** Without memory for the name of a new entry the entry goes back to the free
    list, but the first entry still takes it for its predecessor: the next
    fetch of the first entry links it to itself, so that a search in the list
    does not end. *)
Example enter_without_memory :
  let it parent name := mkitem (mklookup parent 9) (PBlock name) (zlen name) in
  let a := it 5 [97; 98; 0] in let b := it 5 [99; 100; 0] in
  let cmp c w := truth (lookup_cache_compare c w) in
  match ntfs_create_cache true (mklookup 0 0) false (Some ntfs_dir_lookup_hash) 4 128 with
  | Some c =>
    (let! r := ntfs_enter_cache 64 c (full_heap 0) a cmp in
     let! r := ntfs_enter_cache 64 (fst r) (Heap (fun _ => false) (behind (full_heap 0))) b cmp in
     let! r := ntfs_fetch_cache 64 (fst r) a cmp in
     let! e := rd (entries (fst r)) (snd r) in
     Ret (snd r, next e, free_entry (fst r), match ntfs_invalidate_cache (fst r) b lookup_cache_inv_compare CACHE_NOHASH with Fault => true | _ => false end))
    = Ret (0, 0, 1, true)
  | None => False
  end.
Proof. by vm_compute. Qed.

(** The oldest entry of a cache of two is used again for a longer name: [realloc] reads
    behind the old one. *)
Example reuse_overread :
  let it parent name := mkitem (mklookup parent 9) (PBlock name) (zlen name) in
  let cmp c w := truth (lookup_cache_compare c w) in
  let no_more := Heap (fun _ => true) (fun _ _ => []) in
  match ntfs_create_cache true (mklookup 0 0) false (Some ntfs_dir_lookup_hash) 2 128 with
  | Some c =>
    (let! r := ntfs_enter_cache 64 c no_more (it 5 [97; 0]) cmp in
     let! r := ntfs_enter_cache 64 (fst r) no_more (it 5 [98; 0]) cmp in
     ntfs_enter_cache 64 (fst r) no_more (it 5 [99; 100; 0]) cmp) = Fault
  | None => False
  end.
Proof. by vm_compute. Qed.
