(* ===== verification/AttrRec.v ===== *)
(** * Attribute records (ntfs/attrib.c)

    An MFT record holds a row of attribute records, ordered by type and name
    and closed by an end marker.  This file models the search for an attribute
    in a record and the operations that move the records around: making room,
    resizing, adding a resident or a non-resident attribute. *)
From S2P Require Import Prelude Libc Fields Unistr.

(** layout.h:494-513 ATTR_TYPES *)
Definition AT_UNUSED : Z := 0.
Definition AT_ATTRIBUTE_LIST : Z := 0x20.
Definition AT_FILE_NAME : Z := 0x30.
Definition AT_VOLUME_NAME : Z := 0x60.
Definition AT_DATA : Z := 0x80.
Definition AT_INDEX_ROOT : Z := 0x90.
Definition AT_INDEX_ALLOCATION : Z := 0xa0.
Definition AT_LOGGED_UTILITY_STREAM : Z := 0x100.
Definition AT_END : Z := 0xffffffff.

Definition ATTR_IS_COMPRESSED : Z := 0x0001.
Definition ATTR_IS_SPARSE : Z := 0x8000.
Definition RESIDENT_ATTR_IS_INDEXED : Z := 1.
Definition MFT_RECORD_IS_DIRECTORY : Z := 2.

(** types.h:115-115 STATUS_RESIDENT_ATTRIBUTE_FILLED_MFT *)
Definition STATUS_RESIDENT_ATTRIBUTE_FILLED_MFT : Z := -2.

(** ** Fields

    A record is a byte array, a field a little-endian number at its offset. *)

(** layout.h:343-410 MFT_RECORD *)
Definition m_attrs_offset (m : bytes) : outcome Z := rd_le 2 m 20.
Definition m_flags (m : bytes) : outcome Z := rd_le 2 m 22.
Definition m_bytes_in_use (m : bytes) : outcome Z := rd_le 4 m 24.
Definition m_bytes_allocated (m : bytes) : outcome Z := rd_le 4 m 28.
Definition m_next_attr_instance (m : bytes) : outcome Z := rd_le 2 m 40.

(** layout.h:721-819 ATTR_RECORD. At offset [a] of the record. *)
Definition a_type (m : bytes) (a : Z) : outcome Z := rd_le 4 m a.
Definition a_length (m : bytes) (a : Z) : outcome Z := rd_le 4 m (a + 4).
Definition a_non_resident (m : bytes) (a : Z) : outcome Z := rd m (a + 8).
Definition a_name_length (m : bytes) (a : Z) : outcome Z := rd m (a + 9).
Definition a_name_offset (m : bytes) (a : Z) : outcome Z := rd_le 2 m (a + 10).
Definition a_value_length (m : bytes) (a : Z) : outcome Z := rd_le 4 m (a + 16).
Definition a_value_offset (m : bytes) (a : Z) : outcome Z := rd_le 2 m (a + 20).
Definition a_data_size (m : bytes) (a : Z) : outcome Z := let! v := rd_le 8 m (a + 48) in Ret (s64 v).

(** [(n + 7) & ~7] on 32 bits. *)
Definition up8 (n : Z) : Z := Z.land (u32 (n + 7)) 0xfffffff8.

(** The 16-bit units from an offset on. *)
Fixpoint units (b : bytes) : ustr :=
  match b with
  | lo :: hi :: b' => (lo + Z.shiftl hi 8) :: units b'
  | _ => []
  end.
Definition units_at (m : bytes) (i : Z) : ustr := if i <? 0 then [] else units (drop (Z.to_nat i) m).
Definition unit_bytes (u : ustr) : bytes := concat (map (le_bytes 2) u).

(** attrib.c:126-138 ntfs_get_attribute_value_length *)
Definition ntfs_get_attribute_value_length (m : bytes) (a : Z) : outcome Z :=
  let! nr := a_non_resident m a in
  if negb (nr =? 0) then a_data_size m a else a_value_length m a.

(** ** Searching *)

(** The name that is looked for: [NULL], [AT_UNNAMED] or a name. *)
Inductive name_arg := NoName | Unnamed | Name (u : ustr).

(** The result of a search and [ctx->attr]: the attribute, or, with ENOENT, the
    one before which it belongs. *)
Inductive find_result := Found (a : Z) | Absent (a : Z).

Section Find.
Context (upcase : ustr) (upcase_len : Z).
Context (type : Z) (name : name_arg) (name_len : Z) (ic : IGNORE_CASE_BOOL) (val : option bytes) (val_len : Z).

(** attrib.c:2771-2799 ntfs_attr_find. The name of the attribute at [a]: [None] to
    stop the search, else whether it matches. *)
Definition match_name (m : bytes) (a : Z) : outcome (option bool) :=
  match name with
  | Unnamed => let! n := a_name_length m a in Ret (if negb (n =? 0) then None else Some true)
  | NoName => Ret (Some true)
  | Name u =>
    let! ofs := a_name_offset m a in
    let! len := a_name_length m a in
    let! rc := ntfs_names_full_collate u name_len (units_at m (a + ofs)) len ic upcase upcase_len in
    Ret (if negb (rc =? 0) then (if rc <? 0 then None else Some false) else Some true)
  end.

(** attrib.c:2800-2828 ntfs_attr_find. Its value. *)
Definition match_value (m : bytes) (a : Z) : outcome (option bool) :=
  match val with
  | None => Ret (Some true)
  | Some v =>
    let! ofs := a_value_offset m a in
    let! avl := a_value_length m a in
    let! rc := memcmp v (drop (Z.to_nat (a + ofs)) m) (Z.min val_len avl) in
    Ret (if rc =? 0 then
           (if val_len =? avl then Some true else if val_len <? avl then None else Some false)
         else if rc <? 0 then None else Some false)
  end.

(** attrib.c:2744-2833 ntfs_attr_find. The loop; [a] is in front of the bytes that
    it reads, so that there are at most as many rounds as bytes. *)
Fixpoint find_loop (fuel : nat) (m : bytes) (a : Z) : outcome find_result :=
  match fuel with
  | O => Fault
  | S fuel' =>
    let! alloc := m_bytes_allocated m in
    if (a <? 0) || (alloc <? a) then Fail EIO
    else
      let! t := a_type m a in
      if (negb (type =? AT_UNUSED) && (type <? t)) || (t =? AT_END) then Ret (Absent a)
      else
        let! len := a_length m a in
        if len =? 0 then Fail EIO
        else if type =? AT_UNUSED then Ret (Found a)
        else if negb (t =? type) then find_loop fuel' m (a + len)
        else
          let! mn := match_name m a in
          match mn with
          | None => Ret (Absent a)
          | Some false => find_loop fuel' m (a + len)
          | Some true =>
            let! mv := match_value m a in
            match mv with
            | None => Ret (Absent a)
            | Some true => Ret (Found a)
            | Some false => find_loop fuel' m (a + len)
            end
          end
  end.

(** attrib.c:2714-2833 ntfs_attr_find. From a new search context, or on from the
    attribute at [attr]. *)
Definition ntfs_attr_find (m : bytes) (is_first : bool) (attr : Z) : outcome find_result :=
  let! a := (if is_first then Ret attr else let! len := a_length m attr in Ret (attr + len)) in
  find_loop (S (length m)) m a.
End Find.

(** attrib.c:3393-3407 ntfs_attr_init_search_ctx. [ctx->attr] *)
Definition first_attr (m : bytes) : outcome Z := m_attrs_offset m.

(** ** What is allowed for a type *)

(** layout.h:619-633 ATTR_DEF *)
Record ATTR_DEF := mkdef { ad_type : Z; ad_flags : Z; ad_min_size : Z; ad_max_size : Z }.

(** attrib.c:3492-3514 ntfs_attr_find_in_attrdef. The table with its entries up to
    [attrdef_len]. *)
Fixpoint find_def (attrdef : list ATTR_DEF) (type : Z) : option ATTR_DEF :=
  match attrdef with
  | [] => None
  | ad :: attrdef' =>
    if ad_type ad =? 0 then None
    else if ad_type ad <? type then find_def attrdef' type
    else if ad_type ad =? type then Some ad else None
  end.
Definition ntfs_attr_find_in_attrdef (attrdef : option (list ATTR_DEF)) (type : Z) : outcome ATTR_DEF :=
  match attrdef with
  | Some t => if type =? 0 then Fail EINVAL else match find_def t type with Some ad => Ret ad | None => Fail ENOENT end
  | None => Fail EINVAL
  end.

(** attrib.c:3533-3580 ntfs_attr_size_bounds_check *)
Definition ntfs_attr_size_bounds_check (attrdef : option (list ATTR_DEF)) (type size : Z) : outcome unit :=
  if size <? 0 then Fail EINVAL
  else if (type =? AT_ATTRIBUTE_LIST) && (0x40000 <? size) then Fail ERANGE
  else
    let! ad := ntfs_attr_find_in_attrdef attrdef type in
    let min_size := if type =? AT_VOLUME_NAME then 0 else ad_min_size ad in
    let max_size := ad_max_size ad in
    if (negb (min_size =? 0) && (size <? min_size)) || ((0 <? max_size) && (max_size <? size)) then Fail ERANGE else Ret tt.

(** attrib.c:76-85 TXF_DATA *)
Definition TXF_DATA : ustr := [36; 84; 88; 70; 95; 68; 65; 84; 65; 0].
Definition ATTR_DEF_RESIDENT : Z := 0x40.

(** attrib.c:3601-3634 ntfs_attr_can_be_non_resident *)
Definition ntfs_attr_can_be_non_resident (attrdef : option (list ATTR_DEF)) (upcase : ustr) (upcase_len : Z)
    (type : Z) (name : name_arg) (name_len : Z) : outcome unit :=
  let! txf := (if type =? AT_LOGGED_UTILITY_STREAM then
                 match name with
                 | NoName => Ret false
                 | Unnamed => ntfs_names_are_equal TXF_DATA 9 [0] name_len CASE_SENSITIVE upcase upcase_len
                 | Name u => ntfs_names_are_equal TXF_DATA 9 u name_len CASE_SENSITIVE upcase upcase_len
                 end
               else Ret false) in
  let! allowed := (if txf : bool then Ret false
                   else let! ad := ntfs_attr_find_in_attrdef attrdef type in Ret (Z.land (ad_flags ad) ATTR_DEF_RESIDENT =? 0)) in
  if allowed : bool then Ret tt else Fail EPERM.

(** attrib.c:3658-3670 ntfs_attr_can_be_resident *)
Definition ntfs_attr_can_be_resident (attrdef : option (list ATTR_DEF)) (type : Z) : outcome unit :=
  match attrdef with
  | None => Fail EINVAL
  | Some _ =>
    if type =? 0 then Fail EINVAL
    else if negb (type =? AT_INDEX_ALLOCATION) then Ret tt else Fail EPERM
  end.

(** ** Moving records *)

(** attrib.c:3686-3721 ntfs_make_room_for_attr. [pos] is an offset. *)
Definition ntfs_make_room_for_attr (m : bytes) (pos size : Z) : outcome bytes :=
  let size := up8 size in
  if pos <? 0 then Fail EINVAL
  else
    let! biu := m_bytes_in_use m in
    if s32 biu - 8 <? pos then Fail EINVAL
    else if size =? 0 then Ret m
    else
      let! alloc := m_bytes_allocated m in
      if (alloc <? u32 (biu + size)) || (alloc <? pos + size) then Fail ENOSPC
      else
        let! m := memmove_size m (pos + size) pos (biu - pos) in
        put 4 m 24 (u32 (biu + size)).

(** attrib.c:4452-4498 ntfs_attr_record_resize. The record and the status; ENOSPC
    is -1. *)
Definition ntfs_attr_record_resize (m : bytes) (a new_size : Z) : outcome (bytes * Z) :=
  let! old_size := m_bytes_in_use m in
  let! alloc_size := m_bytes_allocated m in
  let! attr_size := a_length m a in
  let new_size := up8 new_size in
  if negb (new_size =? attr_size) then
    let new_muse := u32 (old_size - attr_size + new_size) in
    if alloc_size <? new_muse then Fail ENOSPC
    else
      let! t := a_type m a in
      if (t =? AT_INDEX_ROOT) && (attr_size <? new_size) && (alloc_size <? u32 (new_muse + 120))
         && (u32 (old_size + 120) <=? alloc_size)
      then Ret (m, STATUS_RESIDENT_ATTRIBUTE_FILLED_MFT)
      else
        let! m := memmove_size m (a + new_size) (a + attr_size) (old_size - a - attr_size) in
        let! m := put 4 m 24 new_muse in
        let! m := (if 8 <=? new_size then put 4 m (a + 4) new_size else Ret m) in
        Ret (m, 0)
  else Ret (m, 0).

(** attrib.c:4516-4538 ntfs_resident_attr_value_resize *)
Definition ntfs_resident_attr_value_resize (m : bytes) (a new_size : Z) : outcome (bytes * Z) :=
  let! vo := a_value_offset m a in
  let! r := ntfs_attr_record_resize m a (up8 (vo + new_size)) in
  let '(m, ret) := r in
  if ret <? 0 then Ret (m, ret)
  else
    let! vl := a_value_length m a in
    let! vo := a_value_offset m a in
    let! m := (if vl <? new_size then wrn m (a + vo + vl) (replicate (Z.to_nat (new_size - vl)) 0) else Ret m) in
    let! m := put 4 m (a + 16) new_size in
    Ret (m, 0).

(** ** Adding an attribute *)

(** What the functions change of the inode; [nr_extents = -1] marks an extent,
    the attribute list is the base inode's. *)
Record ntfs_inode := mkinode {
  mrec : bytes;
  data_size : Z;
  allocated_size : Z;
  known_size : bool;
  dirty : bool;
}.
Definition set_mrec (m : bytes) (ni : ntfs_inode) : ntfs_inode :=
  mkinode m (data_size ni) (allocated_size ni) (known_size ni) (dirty ni).

Section Add.
Context (attrdef : option (list ATTR_DEF)) (upcase : ustr) (upcase_len : Z).
(** The attribute list of the inode, when it has one: [ntfs_attrlist_entry_add]
    for the attribute at an offset of the record, and how it fails.  It resizes
    $ATTRIBUTE_LIST, which may be in the same record, and so may change it. *)
Context (attrlist_entry_add : option (ntfs_inode -> Z -> ntfs_inode * option errno_t)).

(** attrib.c:3827-3836 ntfs_resident_attr_record_add. Also 3959-3966 of
    [ntfs_non_resident_attr_record_add]: the attribute at [a] is entered in the list. *)
Definition enter_in_list (ni : ntfs_inode) (type a : Z) : ntfs_inode * option errno_t :=
  match attrlist_entry_add with
  | Some add => if negb (type =? AT_ATTRIBUTE_LIST) then add ni a else (ni, None)
  | None => (ni, None)
  end.

Definition name_units (name : name_arg) : ustr := match name with Name u => u | Unnamed => [0] | NoName => [] end.

(** attrib.c:3797-3822 ntfs_resident_attr_record_add. The fields of the new record
    at [a]. *)
Definition fill_resident (m : bytes) (a type length : Z) (name : name_arg) (name_len : Z) (val : option bytes) (size data_flags : Z)
  : outcome bytes :=
  let! m := put 4 m a type in
  let! m := put 4 m (a + 4) length in
  let! m := put 1 m (a + 8) 0 in
  let! m := put 1 m (a + 9) name_len in
  let! m := put 2 m (a + 10) (if negb (name_len =? 0) then 24 else 0) in
  let! m := put 2 m (a + 12) data_flags in
  let! inst := m_next_attr_instance m in
  let! m := put 2 m (a + 14) inst in
  let! m := put 4 m (a + 16) size in
  let! m := put 2 m (a + 20) (u16 (length - up8 size)) in
  let! vo := a_value_offset m a in
  let! m := (match val with
             | Some v => let! x := rdn v 0 size in wrn m (a + vo) x
             | None => wrn m (a + vo) (replicate (Z.to_nat size) 0)
             end) in
  let! m := put 1 m (a + 22) (if type =? AT_FILE_NAME then RESIDENT_ATTR_IS_INDEXED else 0) in
  let! m := (if negb (name_len =? 0) then
               let! no := a_name_offset m a in
               let! x := rdn (unit_bytes (name_units name)) 0 (2 * name_len) in wrn m (a + no) x
             else Ret m) in
  put 2 m 40 (Z.land (inst + 1) 0xffff).

(** attrib.c:3743-3855 ntfs_resident_attr_record_add. The inode and the offset of
    the new record, or the error; [i30]: the name is the constant
    [NTFS_INDEX_I30]. *)
Definition ntfs_resident_attr_record_add (i30 malloc : bool) (ni : ntfs_inode) (type : Z) (name : name_arg) (name_len : Z)
    (val : option bytes) (size data_flags : Z) : outcome (ntfs_inode * (Z + errno_t)) :=
  if (match name with NoName => true | _ => false end) && negb (name_len =? 0) then Ret (ni, inr EINVAL)
  else
    match ntfs_attr_can_be_resident attrdef type with
    | Fail e => Ret (ni, inr e)
    | Fault => Fault
    | Ret _ =>
      if malloc then
        let! a := first_attr (mrec ni) in
        match ntfs_attr_find upcase upcase_len type name name_len CASE_SENSITIVE val size (mrec ni) true a with
        | Ret (Found _) => Ret (ni, inr EEXIST)
        | Fail _ => Ret (ni, inr EIO)
        | Fault => Fault
        | Ret (Absent a) =>
          let length := u32 (24 + up8 (name_len * 2) + up8 size) in
          match ntfs_make_room_for_attr (mrec ni) a length with
          | Fail e => Ret (ni, inr e)
          | Fault => Fault
          | Ret m =>
            let! m := fill_resident m a type length name name_len val size data_flags in
            let '(ni, failed) := enter_in_list (set_mrec m ni) type a in
            let m := mrec ni in
            match failed with
            | Some e => let! r := ntfs_attr_record_resize m a 0 in Ret (set_mrec (fst r) ni, inr e)
            | None =>
              let! fl := m_flags m in
              let main := if negb (Z.land fl MFT_RECORD_IS_DIRECTORY =? 0) then (type =? AT_INDEX_ROOT) && i30
                          else (type =? AT_DATA) && match name with Unnamed => true | _ => false end in
              Ret (if main then mkinode m size (up8 size) true true
                   else mkinode m (data_size ni) (allocated_size ni) (known_size ni) true, inl a)
            end
          end
        end
      else Ret (ni, inr EUNSET)
    end.

(** attrib.c:3935-3958 ntfs_non_resident_attr_record_add. The fields of the new
    record at [a]. *)
Definition fill_non_resident (m : bytes) (a type length : Z) (name : name_arg) (name_len lowest_vcn dataruns_size flags : Z)
  : outcome bytes :=
  let packed := negb (Z.land flags (Z.lor ATTR_IS_COMPRESSED ATTR_IS_SPARSE) =? 0) in
  let! m := put 4 m a type in
  let! m := put 4 m (a + 4) length in
  let! m := put 1 m (a + 8) 1 in
  let! m := put 1 m (a + 9) name_len in
  let! m := put 2 m (a + 10) (if packed then 72 else 64) in
  let! m := put 2 m (a + 12) flags in
  let! inst := m_next_attr_instance m in
  let! m := put 2 m (a + 14) inst in
  let! m := put 8 m (a + 16) lowest_vcn in
  let! m := put 2 m (a + 32) (u16 (length - dataruns_size)) in
  let! m := put 1 m (a + 34) (if negb (Z.land flags ATTR_IS_COMPRESSED =? 0) then 4 else 0) in
  let! m := (if lowest_vcn =? 0 then
               let! m := put 8 m (a + 24) (-1) in
               let! m := put 8 m (a + 40) 0 in
               let! m := put 8 m (a + 48) 0 in
               let! m := put 8 m (a + 56) 0 in
               let! mpo := rd_le 2 m (a + 32) in
               put 1 m (a + mpo) 0
             else Ret m) in
  let! m := (if negb (name_len =? 0) then
               let! no := a_name_offset m a in
               let! x := rdn (unit_bytes (name_units name)) 0 (2 * name_len) in wrn m (a + no) x
             else Ret m) in
  put 2 m 40 (Z.land (inst + 1) 0xffff).

(** attrib.c:3875-3985 ntfs_non_resident_attr_record_add. Up to the lookup of
    the new record, which is its result [relookup]. *)
Definition ntfs_non_resident_attr_record_add (relookup : bytes -> outcome Z) (malloc : bool) (ni : ntfs_inode) (type : Z)
    (name : name_arg) (name_len lowest_vcn dataruns_size flags : Z) : outcome (ntfs_inode * (Z + errno_t)) :=
  if (dataruns_size <=? 0) || ((match name with NoName => true | _ => false end) && negb (name_len =? 0)) then Ret (ni, inr EINVAL)
  else
    match ntfs_attr_can_be_non_resident attrdef upcase upcase_len type name name_len with
    | Fail e => Ret (ni, inr e)
    | Fault => Fault
    | Ret _ =>
      if malloc then
        let! a := first_attr (mrec ni) in
        match ntfs_attr_find upcase upcase_len type name name_len CASE_SENSITIVE None 0 (mrec ni) true a with
        | Ret (Found _) => Ret (ni, inr EEXIST)
        | Fail _ => Ret (ni, inr EIO)
        | Fault => Fault
        | Ret (Absent a) =>
          let dataruns_size := s32 (up8 dataruns_size) in
          let packed := negb (Z.land flags (Z.lor ATTR_IS_COMPRESSED ATTR_IS_SPARSE) =? 0) in
          let length := u32 (64 + up8 (2 * name_len) + dataruns_size + (if packed then 8 else 0)) in
          match ntfs_make_room_for_attr (mrec ni) a length with
          | Fail e => Ret (ni, inr e)
          | Fault => Fault
          | Ret m =>
            let! m := fill_non_resident m a type length name name_len lowest_vcn dataruns_size flags in
            let '(ni, failed) := enter_in_list (set_mrec m ni) type a in
            let m := mrec ni in
            match failed with
            | Some e => let! r := ntfs_attr_record_resize m a 0 in Ret (set_mrec (fst r) ni, inr e)
            | None =>
              let ni := mkinode m (data_size ni) (allocated_size ni) (known_size ni) true in
              match relookup m with
              | Ret ofs => Ret (ni, inl ofs)
              | Fail e => Ret (ni, inr e)
              | Fault => Fault
              end
            end
          end
        end
      else Ret (ni, inr EUNSET)
    end.
End Add.
