(* ===== verification/AttrRecProofs.v ===== *)
(** * Attribute records: the records as a list (ntfs/attrib.c)

    A well-formed MFT record is a header, a list of attribute records, the end
    marker and free space.  The search finds what a search in the list finds,
    and the operations that move bytes insert, replace and remove elements. *)
From stdpp Require Import sorting.
From S2P Require Import Prelude Libc Fields Unistr AttrRec.

(** ** The name in an attribute record *)
Lemma units_app x k : Nat.even (length x) = true -> units (x ++ k) = units x ++ units k.
Proof.
  remember (length x) as n eqn:Hn. revert x Hn. induction n as [n IH] using lt_wf_ind. intros x -> He.
  destruct x as [|a [|b x]]; cbn [app units]; [done|done|]. f_equal. eapply IH; [|done|done]. cbn. lia.
Qed.

Lemma length_units x : Nat.even (length x) = true -> (2 * length (units x) = length x)%nat.
Proof.
  remember (length x) as n eqn:Hn. revert x Hn. induction n as [n IH] using lt_wf_ind. intros x -> He.
  destruct x as [|a [|b x]]; cbn [units length] in *; [done|done|]. specialize (IH (length x) ltac:(lia) x eq_refl He). lia.
Qed.

Lemma units_nonneg x : Forall byte_ok x -> Forall (fun u => 0 <= u) (units x).
Proof.
  remember (length x) as n eqn:Hn. revert x Hn. induction n as [n IH] using lt_wf_ind. intros x -> Hb.
  destruct x as [|a [|b x]]; cbn [units]; [constructor|constructor|]. apply Forall_cons in Hb as [Ha Hb]. apply Forall_cons in Hb as [Hb Hx].
  unfold byte_ok in *. constructor; [|by eapply IH; [|done|]; cbn; [lia|]]. rewrite Z.shiftl_mul_pow2 by lia. lia.
Qed.

Lemma units_unit_bytes u : Forall (fun c => 0 <= c < 65536) u -> units (unit_bytes u) = u.
Proof.
  induction u as [|c u IH]; [done|]. intros [Hc Hu]%Forall_cons. unfold unit_bytes. cbn [map concat le_bytes app units]. f_equal; [|by apply IH].
  rewrite Z.shiftl_mul_pow2 by lia. change (2 ^ 8) with 256. dlia.
Qed.

Lemma zlen_unit_bytes u : zlen (unit_bytes u) = 2 * zlen u.
Proof.
  induction u as [|c u IH]; [done|]. change (unit_bytes (c :: u)) with (le_bytes 2 c ++ unit_bytes u).
  rewrite zlen_app, zlen_le_bytes, IH, zlen_cons. lia.
Qed.

(** The comparison looks at the units within the length only. *)
Lemma skip_equal_ext cnt n1 n2 k :
  (cnt <= length n2)%nat ->
  skip_equal cnt n1 (n2 ++ k) = match skip_equal cnt n1 n2 with Ret (c, a, b) => Ret (c, a, b ++ k) | r => r end.
Proof.
  revert n1 n2. induction cnt as [|cnt IH]; intros n1 n2 Hc; cbn [skip_equal]; [done|]. destruct cnt as [|cnt]; [done|].
  destruct n1 as [|x n1]; [done|]. destruct n2 as [|y n2]; [cbn in Hc; lia|]. cbn [app]. destruct (x =? y); [|done]. apply IH. cbn in Hc. lia.
Qed.

Lemma upcase_loop_ext cnt n1 n2 k upcase len :
  (cnt <= length n2)%nat -> upcase_loop cnt n1 (n2 ++ k) upcase len = upcase_loop cnt n1 n2 upcase len.
Proof.
  revert n1 n2. induction cnt as [|cnt IH]; intros n1 n2 Hc; [done|]. destruct n1 as [|x n1]; [done|].
  destruct n2 as [|y n2]; [cbn in Hc; lia|]. cbn [app upcase_loop]. destruct (up _ _ x); [|done..]. cbn [obind]. destruct (up _ _ y); [|done..].
  cbn [obind]. destruct cnt; [done|]. destruct (_ =? _); [|done]. apply IH. cbn in Hc. lia.
Qed.

Lemma collate_ext n1 n2 k upcase len :
  ntfs_names_full_collate n1 (zlen n1) (n2 ++ k) (zlen n2) CASE_SENSITIVE upcase len =
  ntfs_names_full_collate n1 (zlen n1) n2 (zlen n2) CASE_SENSITIVE upcase len.
Proof.
  unfold ntfs_names_full_collate. destruct (Z.ltb_spec 0 (Z.min (zlen n1) (zlen n2))); [|done].
  rewrite skip_equal_ext by (unfold zlen in *; lia).
  destruct (skip_equal_ok (Z.to_nat (Z.min (zlen n1) (zlen n2))) n1 n2) as (p & c1 & r1 & c2 & r2 & j & -> & _ & E2 & Hj & _);
    [unfold zlen in *; lia..|]. cbn [obind app]. destruct (up _ _ c1); [|done..]. cbn [obind]. destruct (up _ _ c2); [|done..]. cbn [obind].
  destruct (_ && _); [|done]. rewrite upcase_loop_ext; [done|].
  assert (length n2 = length p + S (length r2))%nat by (rewrite E2, length_app; done). unfold zlen in *. lia.
Qed.

(** ** Well-formed records *)
Definition attr_type (x : bytes) : Z := match a_type x 0 with Ret t => t | _ => 0 end.
Definition attr_name (x : bytes) : ustr :=
  match a_name_offset x 0, a_name_length x 0 with Ret o, Ret n => units (sub x o (2 * n)) | _, _ => [] end.

Record attr_ok (x : bytes) : Prop := {
  ao_size : 24 <= zlen x;
  ao_bytes : Forall byte_ok x;
  ao_length : a_length x 0 = Ret (zlen x);
  ao_type : 0 < attr_type x < AT_END;
  ao_name : exists o n, a_name_offset x 0 = Ret o /\ a_name_length x 0 = Ret n /\ o + 2 * n <= zlen x;
}.

(** [hdr], the attributes [attrs], the end marker and [slack]. *)
Record mrec_ok (m hdr : bytes) (attrs : list bytes) (slack : bytes) : Prop := {
  mo_eq : exists e, m = hdr ++ concat attrs ++ (le_bytes 4 AT_END ++ e) ++ slack /\ zlen e = 4;
  mo_hdr : 42 <= zlen hdr;
  mo_first : m_attrs_offset m = Ret (zlen hdr);
  mo_use : m_bytes_in_use m = Ret (zlen hdr + zlen (concat attrs) + 8);
  mo_alloc : m_bytes_allocated m = Ret (zlen m);
  mo_attrs : Forall attr_ok attrs;
  mo_bytes : Forall byte_ok m;
  mo_small : zlen m < 2 ^ 31;
}.

Lemma a_type_mid p x q : 4 <= zlen x -> a_type (p ++ x ++ q) (zlen p) = a_type x 0.
Proof. intros. unfold a_type. rewrite <- (Z.add_0_r (zlen p)). apply rd_le_app_mid; lia. Qed.

Lemma a_length_mid p x q : 8 <= zlen x -> a_length (p ++ x ++ q) (zlen p) = a_length x 0.
Proof. intros. unfold a_length. apply rd_le_app_mid; lia. Qed.

Lemma a_name_length_mid p x q : 10 <= zlen x -> a_name_length (p ++ x ++ q) (zlen p) = a_name_length x 0.
Proof. intros. unfold a_name_length. apply rd_app_mid; lia. Qed.

Lemma a_name_offset_mid p x q : 12 <= zlen x -> a_name_offset (p ++ x ++ q) (zlen p) = a_name_offset x 0.
Proof. intros. unfold a_name_offset. apply rd_le_app_mid; lia. Qed.

Lemma a_type_ok x : attr_ok x -> a_type x 0 = Ret (attr_type x).
Proof.
  intros H. unfold attr_type. destruct (rd_le_range 4 x 0 (ao_bytes _ H)) as (t & E & _); [lia|pose proof (ao_size _ H); lia|].
  unfold a_type. by rewrite E.
Qed.

Lemma name_fields x : attr_ok x -> exists o n, a_name_offset x 0 = Ret o /\ a_name_length x 0 = Ret n /\ 0 <= o /\ 0 <= n < 256 /\
  o + 2 * n <= zlen x /\ attr_name x = units (sub x o (2 * n)) /\ zlen (attr_name x) = n.
Proof.
  intros H. destruct (ao_name _ H) as (o & n & Eo & En & Hfit). pose proof (ao_size _ H). exists o, n.
  destruct (rd_le_range 2 x (0 + 10) (ao_bytes _ H)) as (o' & Eo' & Ho'); [lia|lia|]. unfold a_name_offset in Eo. rewrite Eo in Eo'. injection Eo' as <-.
  unfold a_name_length in En. pose proof En as En'. apply rd_lookup in En' as [_ En']. pose proof (Forall_lookup_1 _ _ _ _ (ao_bytes _ H) En') as Hn.
  unfold byte_ok in Hn. assert (attr_name x = units (sub x o (2 * n))) as Hname.
  { unfold attr_name, a_name_offset, a_name_length. by rewrite Eo, En. }
  split_and!; try done; try lia. rewrite Hname.
  assert (zlen (sub x o (2 * n)) = 2 * n) as Hz by (apply zlen_sub; lia).
  assert (Nat.even (length (sub x o (2 * n))) = true) as He.
  { replace (length (sub x o (2 * n))) with (2 * Z.to_nat n)%nat by (unfold zlen in Hz; lia). apply Nat.even_spec. by exists (Z.to_nat n). }
  pose proof (length_units _ He). unfold zlen in *. lia.
Qed.

(** The units at the name of an attribute begin with the name. *)
Lemma units_at_name p x q o n : attr_ok x -> a_name_offset x 0 = Ret o -> a_name_length x 0 = Ret n ->
  exists k, units_at (p ++ x ++ q) (zlen p + o) = attr_name x ++ k.
Proof.
  intros H Eo En. destruct (name_fields x H) as (o' & n' & Eo' & En' & Ho & Hn & Hfit & Hname & Hz). rewrite Eo in Eo'. injection Eo' as <-.
  rewrite En in En'. injection En' as <-. pose proof (zlen_nonneg p). unfold units_at. destruct (Z.ltb_spec (zlen p + o) 0); [lia|].
  exists (units (drop (Z.to_nat (o + 2 * n)) x ++ q)). rewrite Hname, <- units_app.
  - f_equal. rewrite drop_app_ge by (unfold zlen in *; lia). replace (Z.to_nat (zlen p + o) - length p)%nat with (Z.to_nat o) by (unfold zlen in *; lia).
    rewrite drop_app_le by (unfold zlen in *; lia). rewrite (assoc_L (++)). f_equal. unfold sub.
    rewrite <- (take_drop (Z.to_nat (2 * n)) (drop (Z.to_nat o) x)) at 1. rewrite drop_drop. do 2 f_equal. lia.
  - assert (zlen (sub x o (2 * n)) = 2 * n) as Hzs by (apply zlen_sub; lia).
    replace (length (sub x o (2 * n))) with (2 * Z.to_nat n)%nat by (unfold zlen in Hzs; lia). apply Nat.even_spec. by exists (Z.to_nat n).
Qed.

(** ** Searching *)
Section Search.
Context (upcase : ustr) (upcase_len : Z) (Htab : upcase_len <= zlen upcase).

(** The name that is looked for, as units: none for the unnamed attribute. *)
Definition name_ok (name : name_arg) (name_len : Z) (u : ustr) : Prop :=
  match name with
  | NoName => False
  | Unnamed => name_len = 0 /\ u = []
  | Name v => v = u /\ name_len = zlen u /\ u <> [] /\ Forall (fun c => 0 <= c < 65536) u
  end.

(** The position of a type and name against an attribute. *)
Definition attr_cmp (type : Z) (u : ustr) (x : bytes) : Z := cmp_then type (attr_type x) (name_cmp upcase upcase_len u (attr_name x)).

Lemma match_name_ok p x q name name_len u :
  attr_ok x -> name_ok name name_len u ->
  exists c, match_name upcase upcase_len name name_len CASE_SENSITIVE (p ++ x ++ q) (zlen p) = Ret c /\
    let r := name_cmp upcase upcase_len u (attr_name x) in
    c = if r =? 0 then Some true else if r <? 0 then None else Some false.
Proof using Htab.
  intros H Hn. pose proof (ao_size _ H). destruct (name_fields x H) as (o & n & Eo & En & Ho & Hnr & Hfit & Hname & Hz). unfold match_name.
  destruct name as [| |v]; cbn in Hn; [done|destruct Hn as [-> ->]|destruct Hn as (-> & -> & Hne & Hu)].
  - rewrite a_name_length_mid, En by lia. cbn [obind]. eexists. split; [done|]. cbn zeta.
    destruct (attr_name x) as [|c l] eqn:Ea.
    + unfold zlen in Hz. cbn in Hz. subst n. done.
    + rewrite zlen_cons in Hz. pose proof (zlen_nonneg l). destruct (Z.eqb_spec n 0); [lia|]. done.
  - rewrite a_name_offset_mid, Eo by lia. cbn [obind]. rewrite a_name_length_mid, En by lia. cbn [obind].
    destruct (units_at_name p x q o n H Eo En) as [k ->]. rewrite <- Hz, collate_ext.
    rewrite case_sensitive_ok; [|done| |].
    + cbn [obind]. eexists. split; [done|]. cbn zeta. by destruct (Z.eqb_spec (name_cmp upcase upcase_len u (attr_name x)) 0).
    + eapply Forall_impl; [exact Hu|]. cbn. lia.
    + rewrite Hname. apply units_nonneg. apply Forall_take, Forall_drop, (ao_bytes _ H).
Qed.

Lemma concat_length_bound (attrs : list bytes) : Forall attr_ok attrs -> 24 * Z.of_nat (length attrs) <= zlen (concat attrs).
Proof using.
  induction 1 as [|x l Hx Hl IH]; [done|]. cbn [concat length]. rewrite zlen_app. pose proof (ao_size _ Hx). lia.
Qed.

Lemma find_loop_ok type name name_len u val val_len attrs p e slack fuel :
  0 < type < AT_END -> name_ok name name_len u -> val = None \/ Forall (fun x => attr_cmp type u x <> 0) attrs -> Forall attr_ok attrs -> zlen e = 4 ->
  m_bytes_allocated (p ++ concat attrs ++ (le_bytes 4 AT_END ++ e) ++ slack) = Ret (zlen (p ++ concat attrs ++ (le_bytes 4 AT_END ++ e) ++ slack)) ->
  (length attrs < fuel)%nat ->
  exists before after, attrs = before ++ after /\ Forall (fun x => 0 < attr_cmp type u x) before /\
    find_loop upcase upcase_len type name name_len CASE_SENSITIVE val val_len fuel (p ++ concat attrs ++ (le_bytes 4 AT_END ++ e) ++ slack) (zlen p) =
      Ret (match after with
           | x :: _ => if attr_cmp type u x =? 0 then Found (zlen p + zlen (concat before)) else Absent (zlen p + zlen (concat before))
           | [] => Absent (zlen p + zlen (concat before))
           end) /\
    match after with x :: _ => attr_cmp type u x <= 0 | [] => True end.
Proof using Htab.
  intros Ht Hn Hval Hattrs He. revert p fuel. induction Hattrs as [|x attrs Hx Hattrs IH]; intros p fuel Halloc Hf; (destruct fuel as [|fuel]; [cbn in Hf; lia|]).
  - exists [], []. split_and!; [done|constructor| |done]. cbn [concat app find_loop] in *. rewrite Halloc. cbn [obind]. rewrite !zlen_app.
    pose proof (zlen_nonneg p). pose proof (zlen_nonneg slack). change (zlen (@nil Z)) with 0. rewrite zlen_le_bytes.
    destruct (Z.ltb_spec (zlen p) 0); [lia|]. destruct (Z.ltb_spec (zlen p + (Z.of_nat 4 + zlen e + zlen slack)) (zlen p)); [lia|]. cbn [orb].
    assert (a_type (p ++ (le_bytes 4 AT_END ++ e) ++ slack) (zlen p) = Ret AT_END) as ->.
    { rewrite a_type_mid by (rewrite zlen_app, zlen_le_bytes; lia). unfold a_type. by apply (rd_le_bytes 4 [] AT_END e 0). }
    cbn [obind]. rewrite Z.eqb_refl, orb_true_r. by rewrite Z.add_0_r.
  - cbn [concat] in *. rewrite <- (assoc_L (++) x) in *. set (q := concat attrs ++ (le_bytes 4 AT_END ++ e) ++ slack) in *.
    pose proof (ao_size _ Hx) as Hsz. pose proof (zlen_nonneg p). pose proof (zlen_nonneg q). cbn [find_loop]. rewrite Halloc. cbn [obind].
    rewrite (zlen_app p), (zlen_app x). destruct (Z.ltb_spec (zlen p) 0); [lia|].
    destruct (Z.ltb_spec (zlen p + (zlen x + zlen q)) (zlen p)); [lia|]. cbn [orb].
    rewrite a_type_mid, (a_type_ok x Hx) by lia. cbn [obind]. rewrite a_length_mid, (ao_length _ Hx) by lia. cbn [obind].
    pose proof (ao_type _ Hx) as Htx. destruct (Z.eqb_spec (attr_type x) AT_END); [lia|]. rewrite orb_false_r.
    unfold AT_UNUSED. destruct (Z.eqb_spec type 0); [lia|]. cbn [negb andb]. destruct (Z.eqb_spec (zlen x) 0); [lia|].
    assert (0 < attr_cmp type u x -> exists before after, x :: attrs = before ++ after /\ Forall (fun x => 0 < attr_cmp type u x) before /\
      find_loop upcase upcase_len type name name_len CASE_SENSITIVE val val_len fuel (p ++ x ++ q) (zlen p + zlen x) =
      Ret (match after with
           | x :: _ => if attr_cmp type u x =? 0 then Found (zlen p + zlen (concat before)) else Absent (zlen p + zlen (concat before))
           | [] => Absent (zlen p + zlen (concat before))
           end) /\
      match after with x :: _ => attr_cmp type u x <= 0 | [] => True end) as Hnext.
    { intros Hc. destruct (IH ltac:(destruct Hval as [|[??]%Forall_cons]; [by left|by right]) (p ++ x) fuel) as (before & after & -> & Hb & E & Ha); [by rewrite <- (assoc_L (++) p x)|cbn in Hf; lia|].
      exists (x :: before), after. rewrite <- (assoc_L (++) p x), zlen_app in E. split_and!; [done|by constructor| |done].
      rewrite E. cbn [concat]. rewrite zlen_app. destruct after; [do 2 f_equal; lia|]. destruct (_ =? 0); do 2 f_equal; lia. }
    assert (attr_cmp type u x <= 0 -> forall r, r = (if attr_cmp type u x =? 0 then Found (zlen p) else Absent (zlen p)) ->
      exists before after, x :: attrs = before ++ after /\ Forall (fun x => 0 < attr_cmp type u x) before /\
      @Ret find_result r =
      Ret (match after with
           | x :: _ => if attr_cmp type u x =? 0 then Found (zlen p + zlen (concat before)) else Absent (zlen p + zlen (concat before))
           | [] => Absent (zlen p + zlen (concat before))
           end) /\
      match after with x :: _ => attr_cmp type u x <= 0 | [] => True end) as Hstop.
    { intros Hc r ->. exists [], (x :: attrs). split_and!; [done|constructor| |done]. cbn [concat]. change (zlen (@nil Z)) with 0. by rewrite Z.add_0_r. }
    assert (type < attr_type x -> attr_cmp type u x = -1) as Hlt.
    { intros. unfold attr_cmp, cmp_then. by destruct (Z.ltb_spec type (attr_type x)); [|lia]. }
    assert (attr_type x < type -> attr_cmp type u x = 1) as Hgt.
    { intros. unfold attr_cmp, cmp_then. destruct (Z.ltb_spec type (attr_type x)); [lia|]. by destruct (Z.ltb_spec (attr_type x) type); [|lia]. }
    destruct (Z.ltb_spec type (attr_type x)) as [Hc|Hc]; [apply Hstop; by rewrite Hlt|].
    destruct (Z.eqb_spec (attr_type x) type) as [Et|Et]; cbn [negb]; [|apply Hnext; rewrite Hgt by lia; lia].
    destruct (match_name_ok p x q name name_len u Hx Hn) as (c & -> & ->). cbn [obind]. set (r := name_cmp _ _ _ _) in *. cbn zeta.
    assert (attr_cmp type u x = r) as Er by (unfold attr_cmp, cmp_then; rewrite Et; destruct (Z.ltb_spec type type); [lia|done]).
    destruct (Z.eqb_spec r 0) as [E0|E0].
    + destruct Hval as [->|[Hval _]%Forall_cons]; [|by rewrite Er in Hval]. cbn [match_value obind]. apply Hstop; [lia|]. rewrite Er. by destruct (Z.eqb_spec r 0).
    + destruct (Z.ltb_spec r 0); [|apply Hnext; lia]. apply Hstop; [lia|]. rewrite Er. by destruct (Z.eqb_spec r 0).
Qed.

Lemma attr_cmp_zero type u x : attr_cmp type u x = 0 <-> attr_type x = type /\ attr_name x = u.
Proof using.
  unfold attr_cmp. rewrite cmp_then_zero, name_cmp_zero. naive_solver.
Qed.

(** The order of the attributes of a record. *)
Definition attr_le (x y : bytes) : Prop := attr_cmp (attr_type x) (attr_name x) y <= 0.
Definition attrs_sorted (attrs : list bytes) : Prop := StronglySorted attr_le attrs.

Lemma attr_cmp_trans type u x y : attr_cmp type u x <= 0 -> attr_le x y -> attr_cmp type u y <= 0.
Proof using.
  unfold attr_le, attr_cmp, cmp_then. pose proof (name_cmp_trans upcase upcase_len u (attr_name x) (attr_name y)).
  destruct (Z.ltb_spec type (attr_type x)), (Z.ltb_spec (attr_type x) type), (Z.ltb_spec (attr_type x) (attr_type y)),
    (Z.ltb_spec (attr_type y) (attr_type x)), (Z.ltb_spec type (attr_type y)), (Z.ltb_spec (attr_type y) type); lia.
Qed.

Lemma attr_cmp_lt_trans type u x y : attr_cmp type u x < 0 -> attr_le x y -> attr_cmp type u y < 0.
Proof using.
  intros Hx Hy. pose proof (attr_cmp_trans type u x y ltac:(lia) Hy). destruct (Z.eq_dec (attr_cmp type u y) 0) as [E|]; [|lia].
  exfalso. apply attr_cmp_zero in E as [<- <-]. unfold attr_le, attr_cmp, cmp_then in *.
  pose proof (name_cmp_antisym upcase upcase_len (attr_name x) (attr_name y)).
  destruct (Z.ltb_spec (attr_type x) (attr_type y)), (Z.ltb_spec (attr_type y) (attr_type x)); lia.
Qed.

Lemma find_in_record m hdr attrs slack type name name_len u val val_len :
  mrec_ok m hdr attrs slack -> 0 < type < AT_END -> name_ok name name_len u -> val = None \/ Forall (fun x => attr_cmp type u x <> 0) attrs ->
  exists before after, attrs = before ++ after /\ Forall (fun x => 0 < attr_cmp type u x) before /\
    ntfs_attr_find upcase upcase_len type name name_len CASE_SENSITIVE val val_len m true (zlen hdr) =
      Ret (match after with
           | x :: _ => if attr_cmp type u x =? 0 then Found (zlen hdr + zlen (concat before)) else Absent (zlen hdr + zlen (concat before))
           | [] => Absent (zlen hdr + zlen (concat before))
           end) /\
    match after with x :: _ => attr_cmp type u x <= 0 | [] => True end.
Proof using Htab.
  intros H Ht Hn Hval. destruct (mo_eq _ _ _ _ H) as (e & Em & He). unfold ntfs_attr_find. cbn [obind].
  pose proof (concat_length_bound _ (mo_attrs _ _ _ _ H)) as Hb. pose proof (mo_alloc _ _ _ _ H) as Halloc. rewrite Em in Halloc.
  destruct (find_loop_ok type name name_len u val val_len attrs hdr e slack (S (length m)) Ht Hn Hval (mo_attrs _ _ _ _ H) He Halloc) as (before & after & H1 & H2 & H3 & H4).
  - assert (zlen (concat attrs) <= zlen m) as Hz; [|unfold zlen in *; lia].
    rewrite Em, !zlen_app. pose proof (zlen_nonneg hdr). pose proof (zlen_nonneg (le_bytes 4 AT_END)). pose proof (zlen_nonneg slack). lia.
  - rewrite <- Em in H3. by exists before, after.
Qed.

(** In a record whose attributes are in order. *)
Lemma find_sorted m hdr attrs slack type name name_len u val val_len :
  mrec_ok m hdr attrs slack -> attrs_sorted attrs -> 0 < type < AT_END -> name_ok name name_len u ->
  val = None \/ Forall (fun x => attr_cmp type u x <> 0) attrs ->
  exists before after, attrs = before ++ after /\ Forall (fun x => 0 < attr_cmp type u x) before /\
    ((exists x rest, after = x :: rest /\ attr_type x = type /\ attr_name x = u /\
       ntfs_attr_find upcase upcase_len type name name_len CASE_SENSITIVE val val_len m true (zlen hdr) = Ret (Found (zlen hdr + zlen (concat before)))) \/
     (Forall (fun x => attr_cmp type u x < 0) after /\ (forall x, x ∈ attrs -> ~ (attr_type x = type /\ attr_name x = u)) /\
       ntfs_attr_find upcase upcase_len type name name_len CASE_SENSITIVE val val_len m true (zlen hdr) = Ret (Absent (zlen hdr + zlen (concat before))))).
Proof using Htab.
  intros H Hs Ht Hn Hval.
  destruct (find_in_record m hdr attrs slack type name name_len u val val_len H Ht Hn Hval) as (before & after & -> & Hb & E & Ha).
  exists before, after. split; [done|]. split; [done|].
  assert (Forall (fun x => attr_cmp type u x < 0) after -> forall x, x ∈ before ++ after -> ~ (attr_type x = type /\ attr_name x = u)) as Hnone.
  { intros Hlt x Hx Hk. apply attr_cmp_zero in Hk. apply elem_of_app in Hx as [Hx|Hx].
    - rewrite Forall_forall in Hb. specialize (Hb x Hx). cbn in Hb. lia.
    - rewrite Forall_forall in Hlt. specialize (Hlt x Hx). cbn in Hlt. lia. }
  destruct after as [|x rest]; [right; split_and!; [constructor|by apply Hnone|done]|].
  destruct (Z.eqb_spec (attr_cmp type u x) 0) as [E0|E0].
  - left. exists x, rest. pose proof E0 as [? ?]%attr_cmp_zero. done.
  - right. assert (Forall (fun x => attr_cmp type u x < 0) (x :: rest)) as Hlt.
    { constructor; [lia|]. apply StronglySorted_app_1_r in Hs. apply StronglySorted_inv in Hs as [_ Hx].
      eapply Forall_impl; [exact Hx|]. intros y Hy. eapply attr_cmp_lt_trans; [|exact Hy]. lia. }
    split_and!; [done|by apply Hnone|done].
Qed.

(** [ntfs_attr_find] in a well-formed record whose attributes are in order: it
    finds an attribute exactly when the record has one with this type and
    name, and tells where one is or where it belongs. *)
Theorem attr_find_spec m hdr attrs slack type name name_len u :
  mrec_ok m hdr attrs slack -> attrs_sorted attrs -> 0 < type < AT_END -> name_ok name name_len u ->
  first_attr m = Ret (zlen hdr) /\
  exists before after, attrs = before ++ after /\ Forall (fun x => 0 < attr_cmp type u x) before /\
    ((exists x rest, after = x :: rest /\ attr_type x = type /\ attr_name x = u /\
       ntfs_attr_find upcase upcase_len type name name_len CASE_SENSITIVE None 0 m true (zlen hdr) = Ret (Found (zlen hdr + zlen (concat before)))) \/
     (Forall (fun x => attr_cmp type u x < 0) after /\ (forall x, x ∈ attrs -> ~ (attr_type x = type /\ attr_name x = u)) /\
       ntfs_attr_find upcase upcase_len type name name_len CASE_SENSITIVE None 0 m true (zlen hdr) = Ret (Absent (zlen hdr + zlen (concat before))))).
Proof using Htab. intros H Hs Ht Hn. split; [apply (mo_first _ _ _ _ H)|]. eapply find_sorted; eauto. Qed.

(** Two names compare the other way round. *)
Lemma attr_cmp_antisym x y : attr_cmp (attr_type x) (attr_name x) y = - attr_cmp (attr_type y) (attr_name y) x.
Proof using.
  unfold attr_cmp, cmp_then. pose proof (name_cmp_antisym upcase upcase_len (attr_name x) (attr_name y)).
  destruct (Z.ltb_spec (attr_type x) (attr_type y)), (Z.ltb_spec (attr_type y) (attr_type x)); lia.
Qed.

(** An attribute at the place that the search gives keeps the order. *)
Lemma insert_sorted before after x type u :
  attrs_sorted (before ++ after) -> attr_type x = type -> attr_name x = u ->
  Forall (fun y => 0 < attr_cmp type u y) before -> Forall (fun y => attr_cmp type u y < 0) after -> attrs_sorted (before ++ x :: after).
Proof using.
  intros Hs <- <- Hb Ha. rewrite Forall_forall in Hb, Ha. pose proof (StronglySorted_app_1_l _ _ _ Hs) as Hsb. pose proof (StronglySorted_app_1_r _ _ _ Hs) as Hsa.
  apply StronglySorted_app_2; [|done|].
  - intros y z Hy Hz. apply elem_of_cons in Hz as [->|Hz].
    + unfold attr_le. rewrite attr_cmp_antisym. specialize (Hb y Hy). cbn in Hb. lia.
    + by apply (StronglySorted_app_1_elem_of attr_le before after y z Hs).
  - constructor; [done|]. apply Forall_forall. intros z Hz. unfold attr_le. specialize (Ha z Hz). cbn in Ha. lia.
Qed.
End Search.

(** ** A record *)

(** Bytes of an attribute: unnamed or with a name of one unit, and a value. *)
Definition sample_attr (type : Z) (name : ustr) (value : bytes) : bytes :=
  le_bytes 4 type ++ le_bytes 4 40 ++ [0; zlen name] ++ le_bytes 2 24 ++ le_bytes 2 0 ++ le_bytes 2 1 ++
  le_bytes 4 (zlen value) ++ le_bytes 2 32 ++ [0; 0] ++ unit_bytes name ++ replicate (8 - 2 * length name) 0 ++ value ++ replicate (8 - length value) 0.

(** A header of 48 bytes: where the attributes begin, the bytes in use and
    allocated, the next instance. *)
Definition sample_hdr (used alloc : Z) : bytes :=
  replicate 20 0 ++ le_bytes 2 48 ++ le_bytes 2 1 ++ le_bytes 4 used ++ le_bytes 4 alloc ++ replicate 8 0 ++ le_bytes 2 3 ++ replicate 6 0.

Definition sample_a : bytes := sample_attr 0x10 [] [1; 2; 3; 4; 5; 6; 7; 8].
Definition sample_b : bytes := sample_attr 0x80 [65] [9; 10].
Definition sample_slack : bytes := replicate 64 0.
Definition sample_rec : bytes :=
  sample_hdr 136 200 ++ concat [sample_a; sample_b] ++ (le_bytes 4 AT_END ++ [0; 0; 0; 0]) ++ sample_slack.

Ltac all_bytes := vm_compute; repeat (apply Forall_cons; split; [split; [discriminate|reflexivity]|]); apply Forall_nil; exact I.

Lemma sample_a_ok : attr_ok sample_a.
Proof.
  constructor; [done|all_bytes|done|done|]. exists 24, 0. done.
Qed.

Lemma sample_b_ok : attr_ok sample_b.
Proof.
  constructor; [done|all_bytes|done|done|]. exists 24, 1. done.
Qed.

Lemma sample_ok : mrec_ok sample_rec (sample_hdr 136 200) [sample_a; sample_b] sample_slack.
Proof.
  constructor; [by exists [0; 0; 0; 0]|done|done|done|done| |all_bytes|done].
  constructor; [apply sample_a_ok|]. constructor; [apply sample_b_ok|constructor].
Qed.

Lemma sample_sorted : attrs_sorted [] 0 [sample_a; sample_b].
Proof. repeat constructor; done. Qed.

Lemma attr_find_spec_witness :
  exists before after, [sample_a; sample_b] = before ++ after /\ Forall (fun x => 0 < attr_cmp [] 0 0x80 [65] x) before /\
    ntfs_attr_find [] 0 0x80 (Name [65]) 1 CASE_SENSITIVE None 0 sample_rec true 48 = Ret (Found 88).
Proof.
  destruct (attr_find_spec [] 0 ltac:(done) sample_rec (sample_hdr 136 200) [sample_a; sample_b] sample_slack 0x80 (Name [65]) 1 [65] sample_ok sample_sorted)
    as (_ & before & after & E & Hb & _).
  - done.
  - split_and!; [done|done|done|]. constructor; [lia|constructor].
  - exists before, after. split; [done|]. split; [done|reflexivity].
Defined.
