(* ===== verification/AttrRecOps.v ===== *)
(** * Attribute records: inserting, resizing, removing (ntfs/attrib.c)

    The operations that move the bytes of a record, as operations on the list
    of its attributes. *)
From stdpp Require Import sorting.
From S2P Require Import Prelude Libc Fields Unistr AttrRec AttrRecProofs.

(** ** Making room *)
Lemma up8_ok n : 0 <= n -> n + 7 < 2 ^ 32 -> up8 n = 8 * ((n + 7) / 8) /\ n <= up8 n < n + 8 /\ up8 n mod 8 = 0.
Proof.
  intros Hn Hmax. unfold up8. rewrite wrapu_small by (unfold in_u; lia).
  assert (Z.land (n + 7) 0xfffffff8 = 8 * ((n + 7) / 8)) as ->; [|dlia].
  assert (0 <= (n + 7) / 8 < 2 ^ 29) as Hq by (change (2 ^ 32) with 4294967296 in Hmax; change (2 ^ 29) with 536870912; dlia).
  replace 0xfffffff8 with (Z.shiftl (Z.ones 29) 3) by reflexivity.
  replace (8 * ((n + 7) / 8)) with (Z.shiftl ((n + 7) / 8) 3) by (rewrite Z.shiftl_mul_pow2 by lia; change (2 ^ 3) with 8; lia).
  apply Z.bits_inj'. intros k Hk. rewrite Z.land_spec, !Z.shiftl_spec by done. destruct (Z.ltb_spec k 3).
  - rewrite !(Z.testbit_neg_r _ (k - 3)) by lia. by rewrite andb_false_r.
  - change 8 with (2 ^ 3) in *. rewrite Z.div_pow2_bits by lia. replace (k - 3 + 3) with k by lia. rewrite Z.testbit_ones by lia.
    destruct (Z.leb_spec 0 (k - 3)); [|lia]. destruct (Z.ltb_spec (k - 3) 29); cbn [andb]; [by rewrite andb_true_r|].
    rewrite andb_false_r. symmetry.
    rewrite <- (Z.mod_small (n + 7) (2 ^ 32)) by lia. apply Z.mod_pow2_bits_high. lia.
Qed.

(** The header with a new number of bytes in use. *)
Definition with_use (hdr : bytes) (n : Z) : bytes := splice hdr 24 (le_bytes 4 n).

Lemma zlen_with_use hdr n : 42 <= zlen hdr -> zlen (with_use hdr n) = zlen hdr.
Proof. intros. unfold with_use. apply zlen_splice; rewrite ?zlen_le_bytes; lia. Qed.

(** Everything behind [pos] moves up. *)
Lemma make_room_ok hdr p r slack size :
  42 <= zlen hdr -> 0 < size -> size + 7 < 2 ^ 32 -> 8 <= zlen r -> up8 size <= zlen slack ->
  zlen (hdr ++ p ++ r ++ slack) < 2 ^ 31 ->
  m_bytes_in_use (hdr ++ p ++ r ++ slack) = Ret (zlen hdr + zlen p + zlen r) ->
  m_bytes_allocated (hdr ++ p ++ r ++ slack) = Ret (zlen (hdr ++ p ++ r ++ slack)) ->
  ntfs_make_room_for_attr (hdr ++ p ++ r ++ slack) (zlen hdr + zlen p) size =
    Ret (with_use hdr (zlen hdr + zlen p + zlen r + up8 size) ++ p ++ take (Z.to_nat (up8 size)) (r ++ slack) ++ r ++ drop (Z.to_nat (up8 size)) slack).
Proof.
  intros Hh Hs Hs7 Hr Hfit Hmax Huse Halloc. destruct (up8_ok size) as (_ & Hup & _); [lia|lia|]. set (s8 := up8 size) in *.
  unfold ntfs_make_room_for_attr. fold s8. rewrite Huse, Halloc. cbn [obind].
  pose proof (zlen_nonneg p). rewrite !zlen_app in *. destruct (Z.ltb_spec (zlen hdr + zlen p) 0); [lia|].
  rewrite wraps_small by (unfold in_s; lia). destruct (Z.ltb_spec (zlen hdr + zlen p + zlen r - 8) (zlen hdr + zlen p)); [lia|].
  destruct (Z.eqb_spec s8 0); [lia|]. rewrite wrapu_small by (unfold in_u; lia).
  destruct (Z.ltb_spec (zlen hdr + (zlen p + (zlen r + zlen slack))) (zlen hdr + zlen p + zlen r + s8)); [lia|].
  destruct (Z.ltb_spec (zlen hdr + (zlen p + (zlen r + zlen slack))) (zlen hdr + zlen p + s8)); [lia|]. cbn [orb].
  replace (zlen hdr + zlen p + zlen r - (zlen hdr + zlen p)) with (zlen r) by lia.
  rewrite (assoc_L (++) hdr), <- (zlen_app hdr p), memmove_gap by lia. cbn [obind]. rewrite <- (assoc_L (++) hdr). by rewrite put_left by lia.
Qed.

(** ** Filling a new record *)

(** The value that a caller passes, none for zeros. *)
Definition value_ok (val : option bytes) (size : Z) (vb : bytes) : Prop :=
  match val with
  | Some v => size <= zlen v /\ Forall byte_ok v /\ vb = take (Z.to_nat size) v
  | None => vb = replicate (Z.to_nat size) 0
  end.

Lemma value_ok_bytes val size vb : 0 <= size -> value_ok val size vb -> zlen vb = size /\ Forall byte_ok vb.
Proof.
  intros Hs. destruct val as [v|]; cbn [value_ok].
  - intros (Hv & Hb & ->). split; [unfold zlen in *; rewrite length_take; lia|by apply Forall_take].
  - intros ->. split; [rewrite zlen_replicate; lia|]. apply Forall_replicate. done.
Qed.

(** What a resident attribute record holds. *)
Record resident_holds (x : bytes) (type : Z) (u : ustr) (vo : Z) (vb : bytes) (data_flags inst : Z) : Prop := {
  rh_ok : attr_ok x;
  rh_type : attr_type x = type;
  rh_name : attr_name x = u;
  rh_resident : a_non_resident x 0 = Ret 0;
  rh_flags : rd_le 2 x 12 = Ret (data_flags mod 2 ^ 16);
  rh_inst : rd_le 2 x 14 = Ret (inst mod 2 ^ 16);
  rh_value_length : a_value_length x 0 = Ret (zlen vb);
  rh_value_offset : a_value_offset x 0 = Ret vo;
  rh_value : sub x vo (zlen vb) = vb;
}.

Lemma name_bytes name nl u : name_ok name nl u -> nl <> 0 -> rdn (unit_bytes (name_units name)) 0 (2 * nl) = Ret (unit_bytes u) /\ zlen u = nl.
Proof.
  intros Hn Hnz. destruct name as [| |v]; cbn [name_ok name_units] in *; [done|lia|]. destruct Hn as (-> & -> & _ & _). split; [|done].
  pose proof (zlen_nonneg u). rewrite rdn_ok by (rewrite ?zlen_unit_bytes; lia). by rewrite <- zlen_unit_bytes, sub_all.
Qed.

Lemma unit_bytes_ok u : Forall byte_ok (unit_bytes u).
Proof. induction u as [|c u IH]; [constructor|]. unfold unit_bytes. cbn [map concat]. apply Forall_app. split; [apply byte_ok_le_bytes|done]. Qed.

(** The name goes to the offset that the record has for it. *)
Lemma store_name p g q name nl u no v fs :
  name_ok name nl u -> 0 <= nl < 256 -> fields g fs -> (10, le_bytes 2 v) ∈ fs -> (nl <> 0 -> v = no) -> 12 <= no < 2 ^ 16 -> no + 2 * nl <= zlen g ->
  Forall (fun f => f.1 + zlen f.2 <= no \/ no + 2 * nl <= f.1) fs ->
  exists x, (if negb (nl =? 0) then
               let! no := a_name_offset (p ++ g ++ q) (zlen p) in
               let! y := rdn (unit_bytes (name_units name)) 0 (2 * nl) in wrn (p ++ g ++ q) (zlen p + no) y
             else Ret (p ++ g ++ q)) = Ret (p ++ x ++ q) /\
    zlen x = zlen g /\ fields x fs /\ (nl <> 0 -> sub x no (2 * nl) = unit_bytes u).
Proof.
  intros Hn Hnl Hf Hin Hv Hno Hg Hd. destruct (Z.eqb_spec nl 0) as [->|Hnz]; cbn [negb]; [by exists g|].
  destruct (name_bytes name nl u Hn Hnz) as [-> Hu]. unfold a_name_offset. rewrite rd_le_app_mid by lia.
  rewrite (fields_rd_le 2 g _ 10 _ Hf Hin), (Hv Hnz). cbn [obind]. rewrite Z.mod_small by (change (256 ^ Z.of_nat 2) with 65536; lia).
  pose proof (unit_bytes_ok u) as Hub. pose proof (zlen_unit_bytes u) as Huz.
  destruct (wrn_field p g q no (unit_bytes u) fs Hf) as (x & -> & Hz & Fx); [lia|lia|done|by rewrite Huz, Hu|].
  exists x. split; [done|]. split; [done|]. split.
  - destruct Fx as [Fb Fx]. split; [done|]. by apply Forall_cons in Fx as [_ Fx].
  - intros _. rewrite <- Hu, <- Huz. apply (fields_in x _ no _ Fx). in_fields.
Qed.

Lemma fill_resident_ok hdr p gap q type name nl u val size vb data_flags inst :
  42 <= zlen hdr -> Forall byte_ok gap -> 0 < type < AT_END -> name_ok name nl u -> 0 <= nl < 256 -> 0 <= size < 2 ^ 31 -> value_ok val size vb ->
  zlen gap = 24 + up8 (nl * 2) + up8 size -> zlen gap < 2 ^ 31 -> rd_le 2 hdr 40 = Ret inst ->
  exists x, zlen x = zlen gap /\ resident_holds x type u (24 + up8 (nl * 2)) vb data_flags inst /\
    fill_resident ((hdr ++ p) ++ gap ++ q) (zlen (hdr ++ p)) type (zlen gap) name nl val size data_flags =
      Ret (splice hdr 40 (le_bytes 2 (Z.land (inst + 1) 0xffff)) ++ p ++ x ++ q).
Proof.
  intros Hh Hbg Ht Hn Hnl Hs Hv Hg Hmax Hinst. destruct (up8_ok (nl * 2)) as (_ & Hun & _); [lia|lia|].
  destruct (up8_ok size) as (_ & Hus & _); [lia|lia|]. destruct (value_ok_bytes val size vb) as [Hvz Hvb]; [lia|done|].
  assert (forall r, m_next_attr_instance ((hdr ++ p) ++ r) = Ret inst) as Hmi.
  { intros r. unfold m_next_attr_instance. rewrite <- (assoc_L (++) hdr), rd_le_app_l by lia. done. }
  assert (u16 (zlen gap - up8 size) = 24 + up8 (nl * 2)) as Hvo by (rewrite Hg, wrapu_small by (unfold in_u; lia); lia).
  assert (fields gap []) as F0 by (by split). unfold fill_resident.
  replace (put 4 ((hdr ++ p) ++ gap ++ q) (zlen (hdr ++ p)) type) with (put 4 ((hdr ++ p) ++ gap ++ q) (zlen (hdr ++ p) + 0) type) by (by rewrite Z.add_0_r).
  store g1 Z1 F1. store g2 Z2 F2. store g3 Z3 F3. store g4 Z4 F4. store g5 Z5 F5. store g6 Z6 F6. rewrite Hmi. cbn [obind].
  store g7 Z7 F7. store g8 Z8 F8. rewrite Hvo. store g9 Z9 F9.
  assert (a_value_offset ((hdr ++ p) ++ g9 ++ q) (zlen (hdr ++ p)) = Ret (24 + up8 (nl * 2))) as ->.
  { unfold a_value_offset. rewrite rd_le_app_mid by lia. rewrite (fields_rd_le 2 g9 _ 20 _ F9) by in_fields.
    rewrite Z.mod_small; [done|]. change (256 ^ Z.of_nat 2) with 65536. lia. }
  cbn [obind].
  destruct (wrn_field (hdr ++ p) g9 q (24 + up8 (nl * 2)) vb _ F9) as (g10 & Ew & Z10 & F10); [lia|lia|done|disjoint_fields|]. rewrite Z.add_assoc in Ew.
  assert ((match val with
           | Some v => let! y := rdn v 0 size in wrn ((hdr ++ p) ++ g9 ++ q) (zlen (hdr ++ p) + (24 + up8 (nl * 2))) y
           | None => wrn ((hdr ++ p) ++ g9 ++ q) (zlen (hdr ++ p) + (24 + up8 (nl * 2))) (replicate (Z.to_nat size) 0)
           end) = Ret ((hdr ++ p) ++ g10 ++ q)) as ->.
  { rewrite Z.add_assoc. destruct val as [v|]; cbn [value_ok] in Hv; [destruct Hv as (Hv & _ & ->)|by subst vb].
    rewrite rdn_ok by lia. cbn [obind]. unfold sub. rewrite drop_0. done. }
  cbn [obind]. clear F9. store g11 Z11 F11.
  destruct (store_name (hdr ++ p) g11 q name nl u 24 (if negb (nl =? 0) then 24 else 0) _ Hn ltac:(lia) F11) as (x & -> & Zx & Fx & Nx);
    [in_fields|by destruct (Z.eqb_spec nl 0)|lia|lia|disjoint_fields|]. cbn [obind].
  exists x. split; [lia|]. split.
  - assert (zlen x = zlen gap) as Hx by lia.
    assert (forall n i v, (i, le_bytes n v) ∈ _ -> rd_le n x i = Ret (v mod 256 ^ Z.of_nat n)) as Hrd by (intros n i v; apply (fields_rd_le n x _ i v Fx)).
    assert (a_name_length x 0 = Ret nl) as Enl.
    { change (a_name_length x 0) with (rd x 9). rewrite (fields_rd x _ 9 nl Fx) by in_fields. by rewrite Z.mod_small by lia. }
    assert (a_name_offset x 0 = Ret (if negb (nl =? 0) then 24 else 0)) as Eno.
    { change (a_name_offset x 0) with (rd_le 2 x 10). rewrite (Hrd 2%nat 10 (if negb (nl =? 0) then 24 else 0)) by in_fields. by destruct (nl =? 0). }
    assert (attr_type x = type) as Etype.
    { unfold attr_type, a_type. rewrite (Hrd 4%nat 0 type) by in_fields. apply Z.mod_small. unfold AT_END in Ht. change (256 ^ Z.of_nat 4) with 4294967296. lia. }
    constructor; try done.
    + constructor; [lia|by destruct Fx| |lia|].
      * change (a_length x 0) with (rd_le 4 x 4). rewrite (Hrd 4%nat 4 (zlen gap)) by in_fields. rewrite Hx, Z.mod_small; [done|]. change (256 ^ Z.of_nat 4) with 4294967296. lia.
      * exists (if negb (nl =? 0) then 24 else 0), nl. split; [done|]. split; [done|]. destruct (Z.eqb_spec nl 0); cbn [negb]; lia.
    + unfold attr_name. rewrite Eno, Enl. destruct (Z.eqb_spec nl 0) as [->|Hnz]; cbn [negb].
      * destruct name as [| |v]; cbn [name_ok] in Hn; [done|by destruct Hn as [_ ->]|]. destruct Hn as (_ & Hz & Hne & _). destruct u; [done|]. rewrite zlen_cons in Hz. pose proof (zlen_nonneg u). lia.
      * rewrite (Nx Hnz). apply units_unit_bytes. destruct name as [| |v]; cbn [name_ok] in Hn; [done|destruct Hn as [_ ->]; done|by destruct Hn as (_ & _ & _ & ?)].
    + change (a_non_resident x 0) with (rd x 8). by rewrite (fields_rd x _ 8 0 Fx) by in_fields.
    + rewrite (Hrd 2%nat 12 data_flags) by in_fields. done.
    + rewrite (Hrd 2%nat 14 inst) by in_fields. done.
    + change (a_value_length x 0) with (rd_le 4 x 16). rewrite (Hrd 4%nat 16 size) by in_fields. rewrite Z.mod_small, Hvz; [done|]. change (256 ^ Z.of_nat 4) with 4294967296. lia.
    + change (a_value_offset x 0) with (rd_le 2 x 20). rewrite (Hrd 2%nat 20 (24 + up8 (nl * 2))) by in_fields. rewrite Z.mod_small; [done|]. change (256 ^ Z.of_nat 2) with 65536. lia.
    + apply (fields_in x _ _ _ Fx). in_fields.
  - rewrite <- (assoc_L (++) hdr). by rewrite put_left by lia.
Qed.

(** ** Adding a resident attribute *)
Definition record_tail (attrs : list bytes) (e slack : bytes) : bytes := concat attrs ++ (le_bytes 4 AT_END ++ e) ++ slack.

Lemma zlen_record m hdr attrs slack : mrec_ok m hdr attrs slack -> zlen m = zlen hdr + zlen (concat attrs) + 8 + zlen slack.
Proof. intros H. destruct (mo_eq _ _ _ _ H) as (e & -> & He). rewrite !zlen_app, zlen_le_bytes, He. lia. Qed.

Lemma no_room m hdr before after slack size :
  mrec_ok m hdr (before ++ after) slack -> 0 < size -> size + 7 < 2 ^ 31 -> zlen slack < up8 size ->
  ntfs_make_room_for_attr m (zlen hdr + zlen (concat before)) size = Fail ENOSPC.
Proof.
  intros H Hs Hs7 Hfit. pose proof (zlen_record _ _ _ _ H) as Hz. pose proof (mo_small _ _ _ _ H). rewrite concat_app, zlen_app in Hz.
  pose proof (zlen_nonneg (concat before)). pose proof (zlen_nonneg (concat after)). pose proof (zlen_nonneg hdr). pose proof (zlen_nonneg slack).
  destruct (up8_ok size) as (_ & Hup & _); [lia|lia|]. unfold ntfs_make_room_for_attr.
  destruct (Z.ltb_spec (zlen hdr + zlen (concat before)) 0); [lia|]. rewrite (mo_use _ _ _ _ H). cbn [obind]. rewrite concat_app, zlen_app.
  rewrite wraps_small by (unfold in_s; lia). destruct (Z.ltb_spec (zlen hdr + (zlen (concat before) + zlen (concat after)) + 8 - 8) (zlen hdr + zlen (concat before))); [lia|].
  destruct (Z.eqb_spec (up8 size) 0); [lia|]. rewrite (mo_alloc _ _ _ _ H). cbn [obind]. rewrite wrapu_small by (unfold in_u; lia).
  destruct (Z.ltb_spec (zlen m) (zlen hdr + (zlen (concat before) + zlen (concat after)) + 8 + up8 size)); [done|lia].
Qed.

(** The header after an attribute has gone in. *)
Definition add_header (hdr : bytes) (used inst : Z) : bytes := splice (with_use hdr used) 40 (le_bytes 2 (Z.land (inst + 1) 0xffff)).

(** A record with other attributes, in the same space. *)
Lemma mrec_rebuild m hdr attrs slack hdr' attrs' slack' e :
  mrec_ok m hdr attrs slack -> zlen hdr' = zlen hdr -> Forall byte_ok hdr' -> Forall byte_ok slack' -> Forall byte_ok e -> zlen e = 4 ->
  (forall n i, 0 <= i -> i + Z.of_nat n <= 24 \/ 28 <= i /\ i + Z.of_nat n <= 40 -> rd_le n hdr' i = rd_le n hdr i) ->
  rd_le 4 hdr' 24 = Ret (zlen hdr + zlen (concat attrs') + 8) -> Forall attr_ok attrs' ->
  zlen (concat attrs') + zlen slack' = zlen (concat attrs) + zlen slack ->
  mrec_ok (hdr' ++ record_tail attrs' e slack') hdr' attrs' slack'.
Proof.
  intros H Hh' Hbh Hbs Hbe He Hother Huse Hattrs Hsize. pose proof (mo_hdr _ _ _ _ H) as Hh. pose proof (zlen_record _ _ _ _ H) as Hz.
  destruct (mo_eq _ _ _ _ H) as (e0 & Em & He0).
  assert (forall n i r, 0 <= i -> i + Z.of_nat n <= 24 \/ 28 <= i /\ i + Z.of_nat n <= 40 -> rd_le n (hdr' ++ r) i = rd_le n m i) as Hrd.
  { intros n i r Hi Hn. rewrite Em, !rd_le_app_l by lia. by apply Hother. }
  assert (zlen (hdr' ++ record_tail attrs' e slack') = zlen m) as Hz' by (unfold record_tail; rewrite !zlen_app, zlen_le_bytes; lia).
  constructor.
  - by exists e.
  - lia.
  - unfold m_attrs_offset. rewrite Hrd by lia. rewrite Hh'. apply (mo_first _ _ _ _ H).
  - unfold m_bytes_in_use. rewrite rd_le_app_l by lia. by rewrite Hh'.
  - unfold m_bytes_allocated. rewrite Hrd, Hz' by lia. apply (mo_alloc _ _ _ _ H).
  - done.
  - unfold record_tail. rewrite !Forall_app. split_and!; try done; [|apply byte_ok_le_bytes].
    clear -Hattrs. induction Hattrs as [|x l Hx Hl IH]; [constructor|]. cbn [concat]. apply Forall_app. split; [apply (ao_bytes _ Hx)|done].
  - rewrite Hz'. apply (mo_small _ _ _ _ H).
Qed.

(** The parts of a well-formed record hold bytes. *)
Lemma mrec_bytes m hdr attrs slack e :
  m = hdr ++ record_tail attrs e slack -> mrec_ok m hdr attrs slack -> Forall byte_ok hdr /\ Forall byte_ok slack /\ Forall byte_ok e.
Proof. intros -> H. pose proof (mo_bytes _ _ _ _ H) as Hb. unfold record_tail in Hb. rewrite !Forall_app in Hb. naive_solver. Qed.

Lemma with_use_other hdr used n i : 42 <= zlen hdr -> 0 <= i -> i + Z.of_nat n <= 24 \/ 28 <= i -> rd_le n (with_use hdr used) i = rd_le n hdr i.
Proof. intros Hh Hi Hn. unfold with_use. apply rd_le_splice_other; rewrite ?zlen_le_bytes; lia. Qed.

Lemma with_use_same hdr used : 42 <= zlen hdr -> 0 <= used < 2 ^ 32 -> rd_le 4 (with_use hdr used) 24 = Ret used.
Proof.
  intros Hh Hu. unfold with_use. rewrite rd_le_splice_same by lia. rewrite Z.mod_small; [done|]. change (256 ^ Z.of_nat 4) with 4294967296. lia.
Qed.

Lemma byte_ok_with_use hdr used : Forall byte_ok hdr -> Forall byte_ok (with_use hdr used).
Proof. intros. apply byte_ok_splice; [done|apply byte_ok_le_bytes]. Qed.

Lemma insert_wf m hdr before after slack e x inst :
  m = hdr ++ record_tail (before ++ after) e slack -> zlen e = 4 -> mrec_ok m hdr (before ++ after) slack -> attr_ok x -> zlen x <= zlen slack ->
  let hdr' := add_header hdr (zlen hdr + zlen (concat before) + (zlen (concat after) + 8) + zlen x) inst in
  mrec_ok (hdr' ++ concat before ++ x ++ record_tail after e (drop (Z.to_nat (zlen x)) slack)) hdr' (before ++ x :: after) (drop (Z.to_nat (zlen x)) slack) /\
  zlen hdr' = zlen hdr.
Proof.
  intros Em He H Hx Hfit hdr'. pose proof (mo_hdr _ _ _ _ H) as Hh. pose proof (ao_size _ Hx). pose proof (mo_small _ _ _ _ H).
  pose proof (zlen_nonneg (concat before)). pose proof (zlen_nonneg (concat after)). pose proof (zlen_record _ _ _ _ H) as Hz. rewrite concat_app, zlen_app in Hz.
  set (used := zlen hdr + zlen (concat before) + (zlen (concat after) + 8) + zlen x) in hdr'.
  assert (zlen (with_use hdr used) = zlen hdr) as Hw by (by apply zlen_with_use).
  assert (zlen hdr' = zlen hdr) as Hh' by (unfold hdr', add_header; rewrite zlen_splice; rewrite ?zlen_le_bytes; lia).
  destruct (mrec_bytes _ _ _ _ _ Em H) as (Hbh & Hbs & Hbe). pose proof (mo_attrs _ _ _ _ H) as Ha. apply Forall_app in Ha as [Hab Haa].
  assert (zlen (concat (before ++ x :: after)) = zlen (concat before) + zlen x + zlen (concat after)) as Hzc by (rewrite concat_app; cbn [concat]; rewrite !zlen_app; lia).
  split; [|done].
  assert (hdr' ++ concat before ++ x ++ record_tail after e (drop (Z.to_nat (zlen x)) slack) = hdr' ++ record_tail (before ++ x :: after) e (drop (Z.to_nat (zlen x)) slack)) as ->.
  { unfold record_tail. rewrite concat_app. cbn [concat]. by rewrite <- !(assoc_L (++)). }
  eapply mrec_rebuild; try done.
  - apply byte_ok_splice; [by apply byte_ok_with_use|apply byte_ok_le_bytes].
  - by apply Forall_drop.
  - intros n i Hi Hn. unfold hdr', add_header. rewrite rd_le_splice_other by (rewrite ?zlen_le_bytes; lia). apply with_use_other; lia.
  - unfold hdr', add_header. rewrite rd_le_splice_other by (rewrite ?zlen_le_bytes; lia). rewrite with_use_same by lia. f_equal. lia.
  - apply Forall_app. split; [done|]. by constructor.
  - rewrite Hzc, concat_app, zlen_app. unfold zlen in *. rewrite length_drop. lia.
Qed.

(** Room is made and the record filled: the new attribute is in the list. *)
Lemma make_and_fill m hdr before after slack e type name nl u val size vb data_flags inst :
  m = hdr ++ record_tail (before ++ after) e slack -> zlen e = 4 -> mrec_ok m hdr (before ++ after) slack ->
  0 < type < AT_END -> name_ok name nl u -> 0 <= nl < 256 -> 0 <= size < 2 ^ 30 -> value_ok val size vb -> rd_le 2 hdr 40 = Ret inst ->
  let len := 24 + up8 (nl * 2) + up8 size in
  len <= zlen slack ->
  exists x hdr', zlen x = len /\ zlen hdr' = zlen hdr /\ resident_holds x type u (24 + up8 (nl * 2)) vb data_flags inst /\
    mrec_ok (hdr' ++ concat before ++ x ++ record_tail after e (drop (Z.to_nat len) slack)) hdr' (before ++ x :: after) (drop (Z.to_nat len) slack) /\
    rd_le 2 hdr' 40 = Ret (Z.land (inst + 1) 0xffff) /\
    (let! m := ntfs_make_room_for_attr m (zlen hdr + zlen (concat before)) len in
     fill_resident m (zlen hdr + zlen (concat before)) type len name nl val size data_flags) =
    Ret (hdr' ++ concat before ++ x ++ record_tail after e (drop (Z.to_nat len) slack)).
Proof.
  intros Em He H Ht Hn Hnl Hs Hv Hinst len Hfit. pose proof (mo_hdr _ _ _ _ H) as Hh. pose proof (mo_small _ _ _ _ H) as Hsm.
  destruct (up8_ok (nl * 2)) as (_ & Hun & Hmn); [lia|lia|]. destruct (up8_ok size) as (_ & Hus & Hms); [lia|lia|].
  assert (up8 len = len) as Hlen by (destruct (up8_ok len) as (-> & _ & _); unfold len; dlia).
  assert (m = hdr ++ concat before ++ (concat after ++ le_bytes 4 AT_END ++ e) ++ slack) as Em'.
  { rewrite Em. unfold record_tail. rewrite concat_app. by rewrite <- !(assoc_L (++)). }
  set (r := concat after ++ le_bytes 4 AT_END ++ e) in *. assert (zlen r = zlen (concat after) + 8) as Hr by (unfold r; rewrite !zlen_app, zlen_le_bytes; lia).
  pose proof (mo_use _ _ _ _ H) as Huse. pose proof (mo_alloc _ _ _ _ H) as Halloc. rewrite Em' in Huse, Halloc.
  rewrite concat_app, zlen_app in Huse. pose proof (zlen_nonneg (concat after)).
  pose proof (make_room_ok hdr (concat before) r slack len Hh ltac:(lia) ltac:(lia) ltac:(lia) ltac:(lia)) as Hroom.
  rewrite <- Em' in Hroom at 1. specialize (Hroom ltac:(lia)). rewrite Huse, Halloc in Hroom. rewrite Hr, Hlen in Hroom.
  specialize (Hroom ltac:(f_equal; lia) eq_refl). rewrite <- Em' in Hroom. rewrite Hroom. clear Hroom. cbn [obind].
  set (used := zlen hdr + zlen (concat before) + (zlen (concat after) + 8) + len).
  set (gap := take (Z.to_nat len) (r ++ slack)).
  assert (zlen gap = len) as Hgap by (unfold gap, zlen; rewrite length_take, length_app; unfold zlen in *; lia).
  assert (zlen (with_use hdr used) = zlen hdr) as Hw by (by apply zlen_with_use).
  destruct (fill_resident_ok (with_use hdr used) (concat before) gap (r ++ drop (Z.to_nat len) slack) type name nl u val size vb data_flags inst)
    as (x & Hx & Hholds & E); try done; try lia.
  { unfold gap. apply Forall_take. pose proof (mo_bytes _ _ _ _ H) as Hb. rewrite Em', !Forall_app in Hb. apply Forall_app. by destruct Hb as (_ & _ & ? & ?). }
  { unfold with_use. rewrite rd_le_splice_other by (rewrite ?zlen_le_bytes; lia). done. }
  rewrite Hgap in Hx, E. rewrite <- (assoc_L (++)), zlen_app, Hw in E.
  assert (attr_ok x) as Hxok by apply (rh_ok _ _ _ _ _ _ _ Hholds).
  destruct (insert_wf m hdr before after slack e x inst Em He H Hxok ltac:(lia)) as [Hwf Hhz]. rewrite Hx in Hwf, Hhz. fold used in Hwf, Hhz.
  exists x, (add_header hdr used inst). split; [done|]. split; [done|]. split; [done|]. split; [done|]. split.
  - unfold add_header. rewrite rd_le_splice_same by lia. rewrite Z.mod_small; [done|]. change (Z.of_nat 2) with 2.
    change 0xffff with (Z.ones 16). rewrite Z.land_ones by lia. apply Z.mod_pos_bound. done.
  - etransitivity; [exact E|]. unfold add_header, record_tail, r. f_equal. do 3 f_equal. by rewrite <- !(assoc_L (++)).
Qed.
Section Add.
Context (upcase : ustr) (upcase_len : Z) (Htab : upcase_len <= zlen upcase).
Context (attrdef : option (list ATTR_DEF)).

Definition has_key (type : Z) (u : ustr) (x : bytes) : Prop := attr_type x = type /\ attr_name x = u.

(** C19. [ntfs_resident_attr_record_add] on a well-formed record in order, without an
    attribute list, when no value is given or the record has no attribute of this type and
    name (values are ordered by a [memcmp] that is not an order, attrib.c:2806).  When the
    record has the type and name, it is an error;
    else, when the attribute does not fit, another; else the record becomes the
    one with the new attribute at its place, in order, the others as before. *)
Theorem resident_add_spec ni hdr attrs slack i30 type name nl u val size vb data_flags inst :
  mrec_ok (mrec ni) hdr attrs slack -> attrs_sorted upcase upcase_len attrs ->
  0 < type < AT_END -> name_ok name nl u -> 0 <= nl < 256 -> 0 <= size < 2 ^ 30 -> value_ok val size vb ->
  ntfs_attr_can_be_resident attrdef type = Ret tt -> rd_le 2 hdr 40 = Ret inst ->
  val = None \/ (forall x, x ∈ attrs -> ~ has_key type u x) ->
  let len := 24 + up8 (nl * 2) + up8 size in
  let res := ntfs_resident_attr_record_add attrdef upcase upcase_len None i30 true ni type name nl val size data_flags in
  ((exists x, x ∈ attrs /\ has_key type u x) /\ res = Ret (ni, inr EEXIST)) \/
  (forall x, x ∈ attrs -> ~ has_key type u x) /\
  ((zlen slack < len /\ res = Ret (ni, inr ENOSPC)) \/
   exists before after x hdr' ni', attrs = before ++ after /\ len <= zlen slack /\ zlen x = len /\ zlen hdr' = zlen hdr /\
     resident_holds x type u (24 + up8 (nl * 2)) vb data_flags inst /\
     mrec_ok (mrec ni') hdr' (before ++ x :: after) (drop (Z.to_nat len) slack) /\ attrs_sorted upcase upcase_len (before ++ x :: after) /\
     rd_le 2 hdr' 40 = Ret (Z.land (inst + 1) 0xffff) /\ dirty ni' = true /\
     res = Ret (ni', inl (zlen hdr + zlen (concat before)))).
Proof using Htab.
  intros H Hsort Ht Hn Hnl Hs Hv Hdef Hinst Hval len res. destruct (mo_eq _ _ _ _ H) as (e & Em & He).
  assert (mrec ni = hdr ++ record_tail attrs e slack) as Em' by done.
  destruct (up8_ok (nl * 2)) as (_ & Hun & Hmn); [lia|lia|]. destruct (up8_ok size) as (_ & Hus & Hms); [lia|lia|].
  assert (up8 len = len) as Hlen by (destruct (up8_ok len) as (-> & _ & _); unfold len; dlia).
  assert (val = None \/ Forall (fun x => attr_cmp upcase upcase_len type u x <> 0) attrs) as Hval'.
  { destruct Hval as [|Hno]; [by left|]. right. apply Forall_forall. intros x Hx. rewrite attr_cmp_zero. by apply Hno. }
  destruct (find_sorted upcase upcase_len Htab (mrec ni) hdr attrs slack type name nl u val size H Hsort Ht Hn Hval')
    as (before & after & -> & Hb & Hcase).
  assert (res = match ntfs_attr_find upcase upcase_len type name nl CASE_SENSITIVE val size (mrec ni) true (zlen hdr) with
                | Ret (Found _) => Ret (ni, inr EEXIST)
                | Fail _ => Ret (ni, inr EIO)
                | Fault => Fault
                | Ret (Absent a) =>
                  match ntfs_make_room_for_attr (mrec ni) a len with
                  | Fail e => Ret (ni, inr e)
                  | Fault => Fault
                  | Ret m =>
                    let! m := fill_resident m a type len name nl val size data_flags in
                    let! fl := m_flags m in
                    let main := if negb (Z.land fl MFT_RECORD_IS_DIRECTORY =? 0) then (type =? AT_INDEX_ROOT) && i30
                                else (type =? AT_DATA) && match name with Unnamed => true | _ => false end in
                    Ret (if main then mkinode m size (up8 size) true true
                         else mkinode m (data_size ni) (allocated_size ni) (known_size ni) true, inl a)
                  end
                end) as ->.
  { unfold res, ntfs_resident_attr_record_add. destruct name as [| |v]; cbn [name_ok] in Hn; [done|..]; cbn [andb];
      rewrite Hdef; cbn [obind]; unfold first_attr; rewrite (mo_first _ _ _ _ H); cbn [obind];
      (rewrite wrapu_small by (unfold in_u; lia)); done. }
  destruct Hcase as [(x & rest & -> & Hx1 & Hx2 & ->)|(Ha & Hnone & ->)].
  - left. split; [|done]. exists x. split; [|done]. apply elem_of_app. right. apply elem_of_cons. by left.
  - right. split; [done|]. destruct (Z.ltb_spec (zlen slack) len).
    + left. split; [done|]. by rewrite (no_room _ _ _ _ _ len H) by lia.
    + right. destruct (make_and_fill (mrec ni) hdr before after slack e type name nl u val size vb data_flags inst Em' He H Ht Hn Hnl Hs Hv Hinst ltac:(done))
        as (x & hdr' & Hx & Hh' & Hholds & Hwf & Hinst' & E). fold len in Hx, Hwf, E.
      destruct (ntfs_make_room_for_attr (mrec ni) _ len) as [m1| |]; cbn [obind] in E; [|done..]. rewrite E. cbn [obind].
      set (m' := hdr' ++ concat before ++ x ++ record_tail after e (drop (Z.to_nat len) slack)) in *.
      destruct (rd_le_range 2 m' 22 (mo_bytes _ _ _ _ Hwf)) as (fl & Efl & _); [lia| |].
      { pose proof (zlen_record _ _ _ _ Hwf) as Hz. pose proof (mo_hdr _ _ _ _ Hwf). pose proof (zlen_nonneg (concat (before ++ x :: after))).
        pose proof (zlen_nonneg (drop (Z.to_nat len) slack)). lia. }
      unfold m_flags. rewrite Efl. cbn [obind]. cbn zeta.
      set (main := if negb _ then _ && i30 else _ && _).
      set (ni' := if main then mkinode m' size (up8 size) true true else mkinode m' (data_size ni) (allocated_size ni) (known_size ni) true).
      exists before, after, x, hdr', ni'.
      assert (mrec ni' = m' /\ dirty ni' = true) as [Em2 Ed2] by (unfold ni'; by destruct main).
      rewrite Em2. split_and!; try done. apply (insert_sorted upcase upcase_len before after x type u); try done; apply Hholds.
Qed.
End Add.

Lemma resident_add_spec_witness :
  exists before after x hdr' ni', [sample_a; sample_b] = before ++ after /\ mrec_ok (mrec ni') hdr' (before ++ x :: after) (drop 32 sample_slack) /\
    ntfs_resident_attr_record_add (Some []) [] 0 None false true (mkinode sample_rec 0 0 false false) 0x80 Unnamed 0 (Some [7; 7; 7]) 3 0 =
    Ret (ni', inl 88).
Proof.
  assert (forall x, x ∈ [sample_a; sample_b] -> ~ has_key 0x80 [] x) as Hno.
  { intros x [->|[->|Hx%elem_of_nil]%elem_of_cons]%elem_of_cons; [intros [H _]; discriminate H|intros [_ H]; discriminate H|done]. }
  destruct (resident_add_spec [] 0 ltac:(done) (Some []) (mkinode sample_rec 0 0 false false) (sample_hdr 136 200) [sample_a; sample_b] sample_slack
    false 0x80 Unnamed 0 [] (Some [7; 7; 7]) 3 [7; 7; 7] 0 3 sample_ok sample_sorted)
    as [[(x & Hx & Hk) _]|(_ & [[H _]|(before & after & x & hdr' & ni' & E & _ & _ & _ & _ & Hwf & _ & _ & _ & Hr)])].
  - done.
  - done.
  - done.
  - done.
  - split; [done|]. split; [|done]. repeat (apply Forall_cons; split; [done|]). by apply Forall_nil.
  - done.
  - done.
  - by right.
  - by destruct (Hno x Hx).
  - discriminate H.
  - exists before, after, x, hdr', ni'. split; [done|]. split; [exact Hwf|]. clear -Hr. vm_compute in Hr. injection Hr as <- _. reflexivity.
Defined.
