(* ===== verification/AttrRecResize.v ===== *)
(** * Attribute records: resizing (ntfs/attrib.c)

    [ntfs_attr_record_resize] replaces one element of the list of attributes,
    or with size 0 removes it; [ntfs_resident_attr_value_resize] cuts a value or
    extends it with zeros. *)
From stdpp Require Import sorting.
From S2P Require Import Prelude Libc Fields Unistr AttrRec AttrRecProofs AttrRecOps.

(** The bytes of an attribute record after a move of what follows. *)
Definition moved (x r slack : bytes) (n : Z) : bytes := take (Z.to_nat n) (x ++ r ++ slack).
Definition left_over (x r slack : bytes) (n : Z) : bytes := drop (Z.to_nat (n + zlen r)) (x ++ r ++ slack).

Lemma zlen_moved x r slack n : 0 <= n -> n <= zlen (x ++ r ++ slack) -> zlen (moved x r slack n) = n.
Proof. intros. unfold moved. unfold zlen in *. rewrite length_take. lia. Qed.

Lemma zlen_left_over x r slack n : 0 <= n -> n + zlen r <= zlen (x ++ r ++ slack) -> zlen (left_over x r slack n) = zlen x + zlen slack - n.
Proof. intros. unfold left_over. rewrite !zlen_app in *. unfold zlen in *. rewrite length_drop, !length_app. lia. Qed.

(** An index root that grows would leave less than 120 bytes of the record, which now has as
    many. *)
Definition filled (t n xl sl : Z) : bool := (t =? AT_INDEX_ROOT) && (xl <? n) && (sl <? n - xl + 120) && (120 <=? sl).

(** The bytes behind the record move; the length goes into what is left of it. *)
Lemma record_resize_bytes hdr p x r slack t new :
  let m := hdr ++ p ++ x ++ r ++ slack in
  let n := up8 new in
  42 <= zlen hdr -> 24 <= zlen x -> 0 <= new < 2 ^ 30 -> zlen m < 2 ^ 31 ->
  m_bytes_in_use m = Ret (zlen hdr + zlen p + zlen x + zlen r) -> m_bytes_allocated m = Ret (zlen m) ->
  a_length x 0 = Ret (zlen x) -> a_type x 0 = Ret t -> n <> zlen x ->
  ntfs_attr_record_resize m (zlen hdr + zlen p) new =
    if zlen slack <? n - zlen x then Fail ENOSPC
    else if filled t n (zlen x) (zlen slack) then Ret (m, STATUS_RESIDENT_ATTRIBUTE_FILLED_MFT)
    else Ret (with_use hdr (zlen hdr + zlen p + n + zlen r) ++ p ++
              (if 8 <=? n then splice (moved x r slack n) 4 (le_bytes 4 n) else moved x r slack n) ++ r ++ left_over x r slack n, 0).
Proof.
  intros m n Hh Hx Hnew Hm Huse Halloc Hlen Htype Hne. destruct (up8_ok new) as (_ & Hup & _); [lia|lia|]. fold n in Hup.
  assert (m = (hdr ++ p) ++ x ++ r ++ slack) as Em by (unfold m; by rewrite <- (assoc_L (++) hdr)).
  pose proof (zlen_nonneg p). pose proof (zlen_nonneg r). pose proof (zlen_nonneg slack). pose proof (zlen_nonneg m) as Hmz.
  assert (zlen m = zlen hdr + zlen p + zlen x + zlen r + zlen slack) as Hz by (unfold m; rewrite !zlen_app; lia).
  unfold ntfs_attr_record_resize. rewrite Huse, Halloc. cbn [obind]. rewrite <- (zlen_app hdr p).
  rewrite Em at 1. rewrite a_length_mid, Hlen by lia. cbn [obind]. fold n. destruct (Z.eqb_spec n (zlen x)); [done|]. cbn [negb].
  rewrite (zlen_app hdr p).
  rewrite wrapu_small by (unfold in_u; lia). replace (zlen hdr + zlen p + zlen x + zlen r - zlen x + n) with (zlen hdr + zlen p + n + zlen r) by lia.
  destruct (Z.ltb_spec (zlen m) (zlen hdr + zlen p + n + zlen r)), (Z.ltb_spec (zlen slack) (n - zlen x)); try lia; [done|].
  rewrite <- (zlen_app hdr p). rewrite Em at 1. rewrite a_type_mid, Htype by lia. cbn [obind].
  rewrite (zlen_app hdr p), !wrapu_small by (unfold in_u; lia).
  assert ((t =? AT_INDEX_ROOT) && (zlen x <? n) && (zlen m <? zlen hdr + zlen p + n + zlen r + 120) && (zlen hdr + zlen p + zlen x + zlen r + 120 <=? zlen m)
    = filled t n (zlen x) (zlen slack)) as ->.
  { unfold filled. rewrite Hz. destruct (t =? AT_INDEX_ROOT); cbn [andb]; [|done]. lia. }
  destruct (filled _ _ _ _); [done|]. rewrite <- (zlen_app hdr p). replace (zlen (hdr ++ p) + zlen x + zlen r - zlen (hdr ++ p) - zlen x) with (zlen r) by lia.
  rewrite Em at 1. rewrite memmove_parts by lia. cbn [obind]. fold (moved x r slack n). fold (left_over x r slack n). rewrite <- (assoc_L (++) hdr), (zlen_app hdr p).
  rewrite put_left by lia. cbn [obind]. fold (with_use hdr (zlen hdr + zlen p + n + zlen r)).
  assert (zlen (with_use hdr (zlen hdr + zlen p + n + zlen r)) = zlen hdr) as Hw by (by apply zlen_with_use).
  destruct (Z.leb_spec 8 n); cbn [obind]; [|done].
  rewrite (assoc_L (++) (with_use _ _)). replace (zlen hdr + zlen p + 4) with (zlen (with_use hdr (zlen hdr + zlen p + n + zlen r) ++ p) + 4) by (rewrite zlen_app; lia).
  rewrite put_mid by (rewrite ?zlen_moved; rewrite ?zlen_app; lia). cbn [obind]. by rewrite <- (assoc_L (++) (with_use _ _)).
Qed.

(** Removing an attribute. *)
Lemma remove_wf m hdr before x after slack :
  mrec_ok m hdr (before ++ x :: after) slack ->
  exists m' slack', ntfs_attr_record_resize m (zlen hdr + zlen (concat before)) 0 = Ret (m', 0) /\
    let hdr' := with_use hdr (zlen hdr + zlen (concat before) + (zlen (concat after) + 8)) in
    mrec_ok m' hdr' (before ++ after) slack' /\ zlen m' = zlen m /\ zlen hdr' = zlen hdr.
Proof.
  intros H. destruct (mo_eq _ _ _ _ H) as (e & Em & He). pose proof (mo_hdr _ _ _ _ H) as Hh. pose proof (mo_small _ _ _ _ H) as Hsm.
  pose proof (mo_attrs _ _ _ _ H) as Ha. apply Forall_app in Ha as [Hab Haa]. apply Forall_cons in Haa as [Hx Haa]. pose proof (ao_size _ Hx) as Hxs.
  pose proof (zlen_record _ _ _ _ H) as Hz. destruct (mrec_bytes m hdr _ slack e Em H) as (Hbh & Hbs & Hbe).
  assert (zlen (concat (before ++ x :: after)) = zlen (concat before) + zlen x + zlen (concat after)) as Hzc by (rewrite concat_app; cbn [concat]; rewrite !zlen_app; lia).
  set (r := concat after ++ le_bytes 4 AT_END ++ e). assert (zlen r = zlen (concat after) + 8) as Hr by (unfold r; rewrite !zlen_app, zlen_le_bytes; lia).
  assert (m = hdr ++ concat before ++ x ++ r ++ slack) as Em'.
  { rewrite Em, concat_app. unfold r. cbn [concat]. by rewrite <- !(assoc_L (++)). }
  pose proof (zlen_nonneg (concat before)). pose proof (zlen_nonneg (concat after)). pose proof (zlen_nonneg slack).
  pose proof (mo_use _ _ _ _ H) as Huse. pose proof (mo_alloc _ _ _ _ H) as Halloc.
  pose proof (record_resize_bytes hdr (concat before) x r slack (attr_type x) 0) as E. cbn zeta in E. rewrite <- Em' in E. change (up8 0) with 0 in E.
  specialize (E Hh Hxs ltac:(lia) Hsm ltac:(rewrite Huse; f_equal; lia) Halloc (ao_length _ Hx) (a_type_ok _ Hx) ltac:(lia)).
  destruct (Z.ltb_spec (zlen slack) (0 - zlen x)); [lia|].
  assert (filled (attr_type x) 0 (zlen x) (zlen slack) = false) as Hnf by (unfold filled; lia). rewrite Hnf in E. change (8 <=? 0) with false in E. cbn match in E.
  change (moved x r slack 0) with (@nil Z) in E. cbn [app] in E. rewrite E. eexists _, (left_over x r slack 0). split; [done|]. cbn zeta.
  set (used := zlen hdr + zlen (concat before) + (zlen (concat after) + 8)). rewrite Z.add_0_r, Hr. fold used.
  assert (zlen (left_over x r slack 0) = zlen x + zlen slack) as Hzl by (rewrite zlen_left_over; rewrite ?zlen_app; lia).
  assert (zlen (with_use hdr used) = zlen hdr) as Hw by (by apply zlen_with_use).
  split; [|split; [rewrite !zlen_app; lia|done]].
  assert (with_use hdr used ++ concat before ++ r ++ left_over x r slack 0 = with_use hdr used ++ record_tail (before ++ after) e (left_over x r slack 0)) as ->.
  { unfold record_tail, r. rewrite concat_app. by rewrite <- !(assoc_L (++)). }
  eapply mrec_rebuild; try done.
  - by apply byte_ok_with_use.
  - unfold left_over. apply Forall_drop. pose proof (mo_bytes _ _ _ _ H) as Hb. rewrite Em', !Forall_app in Hb. rewrite !Forall_app. naive_solver.
  - intros n i Hi Hn. apply with_use_other; lia.
  - rewrite with_use_same by lia. rewrite concat_app, zlen_app. f_equal. lia.
  - by apply Forall_app.
  - rewrite concat_app, zlen_app. lia.
Qed.

(** A resident attribute record: the name between the header and the value. *)
Record resident_ok (x : bytes) (vo : Z) (value : bytes) : Prop := {
  ro_ok : attr_ok x;
  ro_value_offset : a_value_offset x 0 = Ret vo;
  ro_value_length : a_value_length x 0 = Ret (zlen value);
  ro_value : sub x vo (zlen value) = value;
  ro_fits : 24 <= vo /\ vo + zlen value <= zlen x;
  ro_name : forall o n, a_name_offset x 0 = Ret o -> a_name_length x 0 = Ret n -> o + 2 * n <= vo /\ (n = 0 \/ 24 <= o);
}.

(** [y] is [x] up to [n] but for the length of the record and of the value. *)
Definition same_attr (x y : bytes) (n : Z) : Prop :=
  forall j, 0 <= j < n -> j < 4 \/ 8 <= j < 16 \/ 20 <= j -> rd y j = rd x j.

Lemma same_fields x y n k i : same_attr x y n -> 0 <= i -> i + Z.of_nat k <= n -> i + Z.of_nat k <= 4 \/ 8 <= i /\ i + Z.of_nat k <= 16 \/ 20 <= i ->
  rd_le k y i = rd_le k x i.
Proof. intros H Hi Hn Hd. apply rd_le_eq. intros j Hj. apply H; lia. Qed.

(** Such a record of the right size is well-formed, with the type and name. *)
Lemma same_attr_ok x y vo value n :
  resident_ok x vo value -> same_attr x y n -> vo <= n -> n <= zlen y -> Forall byte_ok y -> a_length y 0 = Ret (zlen y) ->
  attr_ok y /\ attr_type y = attr_type x /\ attr_name y = attr_name x /\ a_value_offset y 0 = Ret vo.
Proof.
  intros H Hs Hn Hy Hb Hlen. pose proof (ro_fits _ _ _ H) as [Hvo Hfit]. destruct (name_fields x (ro_ok _ _ _ H)) as (o & c & Eo & Ec & Ho & Hc & Hoc & Hname & Hz).
  pose proof (ro_name _ _ _ H o c Eo Ec) as Hreg.
  assert (attr_type y = attr_type x) as Et by (unfold attr_type, a_type; by rewrite (same_fields x y n 4 0) by (done || lia)).
  assert (a_name_offset y 0 = Ret o) as Eo' by (rewrite <- Eo; apply (same_fields x y n); lia || done).
  assert (a_name_length y 0 = Ret c) as Ec' by (rewrite <- Ec; apply Hs; lia).
  split_and!.
  - constructor; [lia|done|done|rewrite Et; apply (ao_type _ (ro_ok _ _ _ H))|]. exists o, c. split_and!; [done|done|lia].
  - done.
  - unfold attr_name. rewrite Eo, Ec, Eo', Ec'. f_equal. destruct Hreg as [Hovo [->|Ho24]]; [by rewrite !sub_0|].
    apply list_eq_rd; [rewrite !zlen_sub; lia|]. intros j Hj. rewrite zlen_sub in Hj by lia. rewrite !rd_sub by lia. destruct (Z.ltb_spec j (2 * c)); [|lia]. apply Hs; lia.
  - rewrite <- (ro_value_offset _ _ _ H). apply (same_fields x y n); lia || done.
Qed.

(** The record of an attribute with more or fewer bytes. *)
Lemma resize_wf m hdr before x after slack vo value new :
  mrec_ok m hdr (before ++ x :: after) slack -> resident_ok x vo value -> 0 <= new < 2 ^ 30 -> vo <= up8 new ->
  ntfs_attr_record_resize m (zlen hdr + zlen (concat before)) new = (if zlen slack <? up8 new - zlen x then Fail ENOSPC
    else if filled (attr_type x) (up8 new) (zlen x) (zlen slack) then Ret (m, STATUS_RESIDENT_ATTRIBUTE_FILLED_MFT)
    else ntfs_attr_record_resize m (zlen hdr + zlen (concat before)) new) /\
  (up8 new - zlen x <= zlen slack -> filled (attr_type x) (up8 new) (zlen x) (zlen slack) = false ->
   exists hdr' y slack' e', zlen hdr' = zlen hdr /\ zlen e' = 4 /\ zlen y = up8 new /\ Forall byte_ok y /\ a_length y 0 = Ret (zlen y) /\
     same_attr x y (Z.min (up8 new) (zlen x)) /\ rd_le 4 y 16 = rd_le 4 x 16 /\
     let m' := hdr' ++ record_tail (before ++ y :: after) e' slack' in
     ntfs_attr_record_resize m (zlen hdr + zlen (concat before)) new = Ret (m', 0) /\ 
     (attr_ok y -> mrec_ok m' hdr' (before ++ y :: after) slack')).
Proof.
  intros H Hx Hnew Hvo. destruct (mo_eq _ _ _ _ H) as (e & Em & He). pose proof (mo_hdr _ _ _ _ H) as Hh. pose proof (mo_small _ _ _ _ H) as Hsm.
  pose proof (mo_attrs _ _ _ _ H) as Ha. apply Forall_app in Ha as [Hab Haa]. apply Forall_cons in Haa as [Hxo Haa]. pose proof (ao_size _ Hxo) as Hxs.
  pose proof (zlen_record _ _ _ _ H) as Hz. destruct (mrec_bytes m hdr _ slack e Em H) as (Hbh & Hbs & Hbe). pose proof (ro_fits _ _ _ Hx) as [Hvo24 _].
  assert (zlen (concat (before ++ x :: after)) = zlen (concat before) + zlen x + zlen (concat after)) as Hzc by (rewrite concat_app; cbn [concat]; rewrite !zlen_app; lia).
  set (r := concat after ++ le_bytes 4 AT_END ++ e). assert (zlen r = zlen (concat after) + 8) as Hr by (unfold r; rewrite !zlen_app, zlen_le_bytes; lia).
  assert (m = hdr ++ concat before ++ x ++ r ++ slack) as Em'.
  { rewrite Em, concat_app. unfold r. cbn [concat]. by rewrite <- !(assoc_L (++)). }
  pose proof (zlen_nonneg (concat before)). pose proof (zlen_nonneg (concat after)). pose proof (zlen_nonneg slack).
  pose proof (mo_use _ _ _ _ H) as Huse. pose proof (mo_alloc _ _ _ _ H) as Halloc.
  pose proof (record_resize_bytes hdr (concat before) x r slack (attr_type x) new) as E. cbn zeta in E. rewrite <- Em' in E.
  specialize (E Hh Hxs Hnew Hsm ltac:(rewrite Huse; f_equal; lia) Halloc (ao_length _ Hxo) (a_type_ok _ Hxo)).
  destruct (up8_ok new) as (_ & Hup & _); [lia|lia|]. set (n := up8 new) in *. 
  split; [destruct (Z.ltb_spec (zlen slack) (n - zlen x)); [apply E; lia|]; destruct (filled _ _ _ _) eqn:Ef; [apply E; unfold filled in Ef; lia|done]|]. intros Hfit Hnf.
  destruct (Z.eq_dec n (zlen x)) as [En|En].
  - exists hdr, x, slack, e. split_and!; try done; try lia; [apply (ao_bytes _ Hxo)|apply (ao_length _ Hxo)|]. assert (m = hdr ++ record_tail (before ++ x :: after) e slack) as Em2 by exact Em.
    cbn zeta. rewrite <- Em2. split; [|done].
    unfold ntfs_attr_record_resize. rewrite Huse, Halloc. cbn [obind]. rewrite <- (zlen_app hdr).
    assert (a_length m (zlen (hdr ++ concat before)) = Ret (zlen x)) as ->.
    { rewrite Em', (assoc_L (++) hdr), a_length_mid by lia. apply (ao_length _ Hxo). }
    cbn [obind]. fold n. rewrite En, Z.eqb_refl. cbn [negb]. done.
  - specialize (E En). rewrite Hnf in E. destruct (Z.ltb_spec (zlen slack) (n - zlen x)); [lia|]. destruct (Z.leb_spec 8 n); [|lia].
    assert (zlen (moved x r slack n) = n) as Hzm by (apply zlen_moved; rewrite ?zlen_app; lia).
    set (y := splice (moved x r slack n) 4 (le_bytes 4 n)) in *. assert (zlen y = n) as Hy by (unfold y; rewrite zlen_splice; rewrite ?zlen_le_bytes; lia).
    set (used := zlen hdr + zlen (concat before) + n + zlen r) in *.
    assert (zlen (with_use hdr used) = zlen hdr) as Hw by (by apply zlen_with_use).
    assert (zlen (left_over x r slack n) = zlen x + zlen slack - n) as Hzl by (apply zlen_left_over; rewrite ?zlen_app; lia).
    assert (Forall byte_ok (x ++ r ++ slack)) as Hball by (pose proof (mo_bytes _ _ _ _ H) as Hb; rewrite Em', !Forall_app in Hb; rewrite !Forall_app; naive_solver).
    assert (forall j, 0 <= j < n -> j < zlen x -> rd (moved x r slack n) j = rd x j) as Hmv.
    { intros j Hj Hjx. unfold moved. change (take (Z.to_nat n) (x ++ r ++ slack)) with (sub (x ++ r ++ slack) 0 n). rewrite rd_sub by lia.
      destruct (Z.ltb_spec j n); [|lia]. by rewrite Z.add_0_l, rd_app_l by lia. }
    assert (Forall byte_ok y) as Hby by (apply byte_ok_splice; [by apply Forall_take|apply byte_ok_le_bytes]).
    exists (with_use hdr used), y, (left_over x r slack n), e. split_and!; try done.
    + change (a_length y 0) with (rd_le 4 y 4). unfold y at 1. rewrite rd_le_splice_same by lia. rewrite Hy, Z.mod_small; [done|]. change (256 ^ Z.of_nat 4) with 4294967296. lia.
    + intros j Hj Hd. unfold y. rewrite rd_splice_other by (rewrite ?zlen_le_bytes; lia). apply Hmv; lia.
    + apply rd_le_eq. intros k Hk. unfold y. rewrite rd_splice_other by (rewrite ?zlen_le_bytes; lia). apply Hmv; lia.
    + cbn zeta. split.
      * rewrite E. do 2 f_equal. unfold record_tail, r. rewrite concat_app. cbn [concat]. by rewrite <- !(assoc_L (++)).
      * intros Hyo. eapply mrec_rebuild; try done; [by apply byte_ok_with_use|by apply Forall_drop|intros k i Hi Hk; apply with_use_other; lia| | |].
        -- rewrite with_use_same by lia. rewrite concat_app. cbn [concat]. rewrite !zlen_app. unfold used. f_equal. lia.
        -- apply Forall_app. split; [done|]. by constructor.
        -- rewrite !concat_app. cbn [concat]. rewrite !zlen_app. lia.
Qed.

Lemma replace_wf hdr before y z after slack e :
  mrec_ok (hdr ++ record_tail (before ++ y :: after) e slack) hdr (before ++ y :: after) slack -> zlen e = 4 -> attr_ok z -> zlen z = zlen y ->
  mrec_ok (hdr ++ record_tail (before ++ z :: after) e slack) hdr (before ++ z :: after) slack.
Proof.
  intros H He Hz Hzy. pose proof (mo_hdr _ _ _ _ H) as Hh. destruct (mrec_bytes _ _ _ _ _ eq_refl H) as (Hbh & Hbs & Hbe).
  assert (zlen (concat (before ++ z :: after)) = zlen (concat (before ++ y :: after))) as Hc by (rewrite !concat_app; cbn [concat]; rewrite !zlen_app; lia).
  eapply mrec_rebuild; try done.
  - rewrite Hc, <- (mo_use _ _ _ _ H). unfold m_bytes_in_use. by rewrite rd_le_app_l by lia.
  - pose proof (mo_attrs _ _ _ _ H) as Ha. apply Forall_app in Ha as [Hab Haa]. apply Forall_cons in Haa as [_ Haa]. apply Forall_app. split; [done|]. by constructor.
  - by rewrite Hc.
Qed.

(** The zeros and the length go into the attribute. *)
Lemma value_stored hdr before y after e slack vo vl new :
  0 <= vo -> 20 <= vo -> 0 <= vl -> vo + new <= zlen y -> 0 <= new < 2 ^ 32 -> vo + vl <= zlen y \/ new <= vl -> Forall byte_ok y ->
  let m := hdr ++ record_tail (before ++ y :: after) e slack in
  let a := zlen hdr + zlen (concat before) in
  exists z, zlen z = zlen y /\ Forall byte_ok z /\ (forall j, 0 <= j < vo + Z.min vl new -> j < 16 \/ 20 <= j -> rd z j = rd y j) /\ rd_le 4 z 16 = Ret new /\
    (forall j, vl <= j < new -> rd z (vo + j) = Ret 0) /\
    (let! m := (if vl <? new then wrn m (a + vo + vl) (replicate (Z.to_nat (new - vl)) 0) else Ret m) in put 4 m (a + 16) new) =
    Ret (hdr ++ record_tail (before ++ z :: after) e slack).
Proof.
  intros Hvo0 Hvo Hvl Hn Hnr Hd Hby m a. set (q := record_tail after e slack).
  assert (forall w, hdr ++ record_tail (before ++ w :: after) e slack = (hdr ++ concat before) ++ w ++ q) as Hsplit.
  { intros w. unfold q, record_tail. rewrite concat_app. cbn [concat]. by rewrite <- !(assoc_L (++)). }
  unfold m, a. rewrite <- (zlen_app hdr).
  set (y1 := if vl <? new then splice y (vo + vl) (replicate (Z.to_nat (new - vl)) 0) else y).
  assert (zlen y1 = zlen y) as Hy1.
  { unfold y1. destruct (Z.ltb_spec vl new); [|done]. apply zlen_splice; rewrite ?zlen_replicate; lia. }
  assert (Forall byte_ok y1) as Hb1.
  { unfold y1. destruct (vl <? new); [|done]. apply byte_ok_splice; [done|]. by apply Forall_replicate. }
  assert ((if vl <? new then wrn ((hdr ++ concat before) ++ y ++ q) (zlen (hdr ++ concat before) + vo + vl) (replicate (Z.to_nat (new - vl)) 0)
           else Ret ((hdr ++ concat before) ++ y ++ q)) = Ret ((hdr ++ concat before) ++ y1 ++ q)) as E.
  { unfold y1. destruct (Z.ltb_spec vl new); [|done]. rewrite <- Z.add_assoc. pose proof (zlen_nonneg (hdr ++ concat before)). pose proof (zlen_nonneg q).
    rewrite wrn_ok by (rewrite ?zlen_replicate, ?zlen_app in *; lia). by rewrite splice_mid by (rewrite ?zlen_replicate; lia). }
  exists (splice y1 16 (le_bytes 4 new)). rewrite !Hsplit, E. cbn [obind]. rewrite put_mid by lia. split_and!.
  - rewrite zlen_splice; rewrite ?zlen_le_bytes; lia.
  - apply byte_ok_splice; [done|apply byte_ok_le_bytes].
  - intros j Hj Hjd. rewrite rd_splice_other by (rewrite ?zlen_le_bytes; lia). unfold y1. destruct (Z.ltb_spec vl new); [|done].
    apply rd_splice_other; rewrite ?zlen_replicate; lia.
  - rewrite rd_le_splice_same by lia. by rewrite Z.mod_small.
  - intros j Hj. rewrite rd_splice_other by (rewrite ?zlen_le_bytes; lia). unfold y1. destruct (Z.ltb_spec vl new); [|lia].
    rewrite rd_splice by (rewrite ?zlen_replicate; lia). destruct (Z.leb_spec (vo + vl) (vo + j)); [|lia].
    destruct (Z.ltb_spec (vo + j) (vo + vl + zlen (replicate (Z.to_nat (new - vl)) 0))) as [Hl|Hl]; [|rewrite zlen_replicate in Hl; lia]. cbn [andb].
    apply rd_lookup. split; [lia|]. apply lookup_replicate. split; [done|lia].
  - done.
Qed.

(** C20. [ntfs_resident_attr_value_resize] on an attribute of a well-formed record:
    ENOSPC when the record is too full; for an index root that would fill a record with
    120 free bytes or more so far that less than 120 are left, the record as it is and
    STATUS_RESIDENT_ATTRIBUTE_FILLED_MFT; else the attribute has the new length,
    its value is the old one, cut or extended with zeros, its type and name
    and all other attributes are as before. *)
Theorem value_resize_spec m hdr before x after slack vo value new :
  mrec_ok m hdr (before ++ x :: after) slack -> resident_ok x vo value -> 0 <= new -> vo + new < 2 ^ 29 ->
  let len := up8 (vo + new) in
  let res := ntfs_resident_attr_value_resize m (zlen hdr + zlen (concat before)) new in
  (zlen slack < len - zlen x /\ res = Fail ENOSPC) \/
  (len - zlen x <= zlen slack /\ filled (attr_type x) len (zlen x) (zlen slack) = true /\ res = Ret (m, STATUS_RESIDENT_ATTRIBUTE_FILLED_MFT)) \/
  (len - zlen x <= zlen slack /\ filled (attr_type x) len (zlen x) (zlen slack) = false /\
   exists m' hdr' y slack', res = Ret (m', 0) /\ zlen hdr' = zlen hdr /\ mrec_ok m' hdr' (before ++ y :: after) slack' /\
     zlen y = len /\ attr_type y = attr_type x /\ attr_name y = attr_name x /\
     resident_ok y vo (take (Z.to_nat new) (value ++ replicate (Z.to_nat new) 0))).
Proof.
  intros H Hx Hnew Hmax len res. pose proof (ro_ok _ _ _ Hx) as Hxo. pose proof (ro_fits _ _ _ Hx) as [Hvo Hfit].
  destruct (up8_ok (vo + new)) as (_ & Hup & Hmod); [lia|lia|]. fold len in Hup, Hmod.
  assert (up8 len = len) as Hlen by (destruct (up8_ok len) as (-> & _ & _); dlia).
  destruct (resize_wf m hdr before x after slack vo value len H Hx) as [Efail Eok]; [lia|lia|]. rewrite Hlen in Efail, Eok.
  destruct (mo_eq _ _ _ _ H) as (e & Em & He). pose proof (zlen_nonneg value) as Hvz.
  assert (a_value_offset m (zlen hdr + zlen (concat before)) = Ret vo) as Evo.
  { rewrite Em, concat_app. cbn [concat]. rewrite <- !(assoc_L (++)), (assoc_L (++) hdr), <- zlen_app. unfold a_value_offset.
    rewrite rd_le_app_mid by (pose proof (ao_size _ Hxo); lia). apply (ro_value_offset _ _ _ Hx). }
  unfold res, ntfs_resident_attr_value_resize. rewrite Evo. cbn [obind]. fold len.
  destruct (Z.ltb_spec (zlen slack) (len - zlen x)) as [Hl|Hl]; [left; split; [done|by rewrite Efail]|right].
  destruct (filled _ _ _ _) eqn:Ef; [left; split_and!; [done|done|by rewrite Efail]|right; split_and!; [done|done|]].
  destruct (Eok Hl eq_refl) as (hdr' & y & slack' & e' & Hh' & He' & Hy & Hby & Hylen & Hsame & Hvl & -> & Hwf). cbn [obind]. change (0 <? 0) with false. cbn match.
  destruct (same_attr_ok x y vo value (Z.min len (zlen x)) Hx Hsame) as (Hyo & Hyt & Hyn & Hyvo); [lia|lia|done|done|].
  rewrite (ro_value_length _ _ _ Hx : rd_le 4 x 16 = _) in Hvl. pose proof (ao_size _ Hyo).
  rewrite <- Hh'. set (a := zlen hdr' + zlen (concat before)). set (m1 := hdr' ++ record_tail (before ++ y :: after) e' slack') in *.
  assert (forall w n i, 0 <= i -> i + Z.of_nat n <= zlen w -> rd_le n (hdr' ++ record_tail (before ++ w :: after) e' slack') (a + i) = rd_le n w i) as Hrd.
  { intros w n i Hi Hn. unfold record_tail, a. rewrite concat_app. cbn [concat]. rewrite <- !(assoc_L (++)), (assoc_L (++) hdr'), <- zlen_app. by apply rd_le_app_mid. }
  assert (a_value_length m1 a = Ret (zlen value)) as -> by (unfold a_value_length, m1; rewrite Hrd by lia; done).
  assert (a_value_offset m1 a = Ret vo) as -> by (unfold a_value_offset, m1; rewrite Hrd by lia; done). cbn [obind].
  destruct (value_stored hdr' before y after e' slack' vo (zlen value) new) as (z & Hz & Hbz & Hzrd & Hz16 & Hz0 & E); [lia|lia|lia|lia|lia|lia|done|].
  fold a m1 in E.
  destruct (if zlen value <? new then _ else _) as [m2| |]; cbn [obind] in E |- *; [|done..]. rewrite E. cbn [obind].
  assert (same_attr x z (vo + Z.min (zlen value) new)) as Hsz.
  { intros j Hj Hd. rewrite Hzrd by lia. apply Hsame; lia. }
  assert (a_length z 0 = Ret (zlen z)) as Hzlen.
  { rewrite Hz, <- Hylen. apply rd_le_eq. intros k Hk. apply Hzrd; lia. }
  destruct (same_attr_ok x z vo value (vo + Z.min (zlen value) new) Hx Hsz) as (Hzo & Hzt & Hzn & Hzvo); [lia|lia|done|done|].
  exists (hdr' ++ record_tail (before ++ z :: after) e' slack'), hdr', z, slack'. split; [done|]. split; [done|].
  split; [apply (replace_wf hdr' before y z after slack' e'); [by apply Hwf|done|done|done]|]. split; [lia|]. split; [done|]. split; [done|].
  assert (zlen (take (Z.to_nat new) (value ++ replicate (Z.to_nat new) 0)) = new) as Hzv by (unfold zlen; rewrite length_take, length_app, length_replicate; lia).
  constructor; [done|done|by rewrite Hzv| |lia|].
  - rewrite Hzv. apply list_eq_rd; [rewrite zlen_sub; lia|]. intros j Hj. rewrite zlen_sub in Hj by lia. rewrite rd_sub by lia.
    destruct (Z.ltb_spec j new); [|lia]. change (take (Z.to_nat new) (value ++ replicate (Z.to_nat new) 0)) with (sub (value ++ replicate (Z.to_nat new) 0) 0 new).
    rewrite rd_sub by lia. destruct (Z.ltb_spec j new); [|lia]. rewrite Z.add_0_l. destruct (Z.ltb_spec j (zlen value)).
    + rewrite rd_app_l by lia. rewrite <- (ro_value _ _ _ Hx). rewrite rd_sub by lia. destruct (Z.ltb_spec j (zlen value)); [|lia]. rewrite Hsz by lia. done.
    + rewrite Hz0 by lia. rewrite rd_app_r by lia. symmetry. apply rd_lookup. split; [lia|]. apply lookup_replicate. split; [done|lia].
  - intros o c Eo Ec. apply (ro_name _ _ _ Hx).
    + rewrite <- Eo. symmetry. apply (same_fields x z (vo + Z.min (zlen value) new)); lia || done.
    + rewrite <- Ec. symmetry. apply Hsz; lia.
Qed.

Lemma sample_b_resident : resident_ok sample_b 32 [9; 10].
Proof.
  constructor; [apply sample_b_ok|done|done|done|done|]. intros o n Ho Hn. vm_compute in Ho, Hn. injection Ho as <-. injection Hn as <-. lia.
Qed.

Lemma value_resize_spec_witness :
  exists m' hdr' y slack', ntfs_resident_attr_value_resize sample_rec 88 12 = Ret (m', 0) /\ mrec_ok m' hdr' [sample_a; y] slack' /\
    resident_ok y 32 [9; 10; 0; 0; 0; 0; 0; 0; 0; 0; 0; 0].
Proof.
  destruct (value_resize_spec sample_rec (sample_hdr 136 200) [sample_a] sample_b [] sample_slack 32 [9; 10] 12 sample_ok sample_b_resident)
    as [[H _]|[(_ & H & _)|(_ & _ & m' & hdr' & y & slack' & Hr & _ & Hwf & _ & _ & _ & Hy)]].
  - done.
  - done.
  - discriminate H.
  - discriminate H.
  - exists m', hdr', y, slack'. split; [exact Hr|]. split; [exact Hwf|exact Hy].
Defined.

(** Entering the attribute at [a] in the list fails with [err].  That may have changed the
    other attributes of the record, as [R] says; the new one is still at [a]. *)
Definition fails_with (add : ntfs_inode -> Z -> ntfs_inode * option errno_t) (err : errno_t) (R : list bytes -> list bytes -> Prop) : Prop :=
  forall ni hdr before x after slack, mrec_ok (mrec ni) hdr (before ++ x :: after) slack ->
  exists ni' hdr' before' after' slack', add ni (zlen hdr + zlen (concat before)) = (ni', Some err) /\
    mrec_ok (mrec ni') hdr' (before' ++ x :: after') slack' /\
    zlen hdr' + zlen (concat before') = zlen hdr + zlen (concat before) /\ R (before ++ after) (before' ++ after').

(** C21. [ntfs_resident_attr_record_add] when there is room for the attribute but it cannot
    be entered in the attribute list of the inode: the new record is taken out again, the
    others are as the attempt to enter it left them (as before, when that did not change
    the record), and the caller gets the error.  The attempt may resize other attributes, but
    leaves the new one where it was added ([fails_with]): the code takes out what is at that
    offset. *)
Theorem resident_add_undone upcase upcase_len attrdef add err R ni hdr attrs slack i30 type name nl u val size vb data_flags inst :
  upcase_len <= zlen upcase -> mrec_ok (mrec ni) hdr attrs slack -> attrs_sorted upcase upcase_len attrs ->
  0 < type < AT_END -> type <> AT_ATTRIBUTE_LIST -> name_ok name nl u -> 0 <= nl < 256 -> 0 <= size < 2 ^ 30 -> value_ok val size vb ->
  ntfs_attr_can_be_resident attrdef type = Ret tt -> rd_le 2 hdr 40 = Ret inst -> (forall x, x ∈ attrs -> ~ has_key type u x) ->
  24 + up8 (nl * 2) + up8 size <= zlen slack -> fails_with add err R ->
  exists ni' hdr' attrs' slack',
    ntfs_resident_attr_record_add attrdef upcase upcase_len (Some add) i30 true ni type name nl val size data_flags = Ret (ni', inr err) /\
    mrec_ok (mrec ni') hdr' attrs' slack' /\ R attrs attrs'.
Proof.
  intros Htab H Hsort Ht Hnl20 Hn Hnl Hs Hv Hdef Hinst Hno Hfit Hadd. destruct (mo_eq _ _ _ _ H) as (e & Em & He).
  assert (mrec ni = hdr ++ record_tail attrs e slack) as Em' by done.
  destruct (up8_ok (nl * 2)) as (_ & Hun & _); [lia|lia|]. destruct (up8_ok size) as (_ & Hus & _); [lia|lia|].
  assert (val = None \/ Forall (fun x => attr_cmp upcase upcase_len type u x <> 0) attrs) as Hval.
  { right. apply Forall_forall. intros x Hx. rewrite attr_cmp_zero. by apply Hno. }
  destruct (find_sorted upcase upcase_len Htab (mrec ni) hdr attrs slack type name nl u val size H Hsort Ht Hn Hval)
    as (before & after & -> & Hb & [(x & rest & -> & Hx1 & Hx2 & _)|(Ha & _ & Efind)]).
  { destruct (Hno x); [|done]. apply elem_of_app. right. apply elem_of_cons. by left. }
  destruct (make_and_fill (mrec ni) hdr before after slack e type name nl u val size vb data_flags inst Em' He H Ht Hn Hnl Hs Hv Hinst Hfit)
    as (x & hdr' & Hx & Hh' & Hholds & Hwf & Hinst' & E).
  set (len := 24 + up8 (nl * 2) + up8 size) in *.
  match type of Hwf with mrec_ok ?m1 _ _ _ => destruct (Hadd (set_mrec m1 ni) hdr' before x after _ Hwf) as (ni2 & hdr2 & before2 & after2 & slack2 & Ea & Hwf2 & Hofs & HR) end.
  destruct (remove_wf _ _ _ _ _ _ Hwf2) as (m' & slack' & Er & Hwf' & _ & _). rewrite Hofs in Er. rewrite Hh' in Er, Ea.
  eexists (set_mrec m' ni2), _, (before2 ++ after2), slack'. cbn [mrec set_mrec].
  split; [|split; [exact Hwf'|exact HR]].
  - unfold ntfs_resident_attr_record_add.
    assert (match name with NoName => true | _ => false end && negb (nl =? 0) = false) as -> by (by destruct name).
    rewrite Hdef. unfold first_attr. rewrite (mo_first _ _ _ _ H). cbn [obind]. rewrite Efind. rewrite wrapu_small by (unfold in_u; lia). fold len.
    destruct (ntfs_make_room_for_attr (mrec ni) _ len) as [m1| |]; cbn [obind] in E; [|done..]. rewrite E. cbn [obind].
    unfold enter_in_list. destruct (Z.eqb_spec type AT_ATTRIBUTE_LIST); [done|]. cbn [negb]. rewrite Ea, Er. done.
Qed.

Lemma resident_add_undone_witness :
  exists ni' hdr' slack',
    ntfs_resident_attr_record_add (Some []) [] 0 (Some (fun ni _ => (ni, Some EIO))) false true (mkinode sample_rec 0 0 false false) 0x80 Unnamed 0 None 3 0 =
      Ret (ni', inr EIO) /\ mrec_ok (mrec ni') hdr' [sample_a; sample_b] slack'.
Proof.
  destruct (resident_add_undone [] 0 (Some []) (fun ni _ => (ni, Some EIO)) EIO eq (mkinode sample_rec 0 0 false false) (sample_hdr 136 200) [sample_a; sample_b] sample_slack
    false 0x80 Unnamed 0 [] None 3 [0; 0; 0] 0 3 ltac:(done) sample_ok sample_sorted) as (ni' & hdr' & attrs' & slack' & Hr & Hwf & <-).
  - done.
  - done.
  - done.
  - done.
  - done.
  - done.
  - done.
  - done.
  - intros x [->|[->|Hx%elem_of_nil]%elem_of_cons]%elem_of_cons; [intros [H _]; discriminate H|intros [_ H]; discriminate H|done].
  - done.
  - intros ni hdr before x after slack H. by exists ni, hdr, before, after, slack.
  - exists ni', hdr', slack'. split; [exact Hr|exact Hwf].
Defined.

(** Attributes with the same type and name are told apart by their value.  The
    replacement of [memcmp] returns -1 for any difference, so that the search
    ends at the first one with another value, behind which the wanted one is. *)
Definition two_names : bytes :=
  sample_hdr 136 200 ++ concat [sample_attr AT_FILE_NAME [] [9]; sample_attr AT_FILE_NAME [] [3]] ++ (le_bytes 4 AT_END ++ [0; 0; 0; 0]) ++ sample_slack.

Example find_misses_value :
  ntfs_attr_find [] 0 AT_FILE_NAME Unnamed 0 CASE_SENSITIVE (Some [3]) 1 two_names true 48 = Ret (Absent 48).
Proof. vm_compute. reflexivity. Qed.

(** A search looks at the type of what it takes for a record up to the end of
    the allocated bytes, and so past them. *)
Example find_reads_behind :
  ntfs_attr_find [] 0 AT_FILE_NAME Unnamed 0 CASE_SENSITIVE None 0 (sample_hdr 136 88 ++ sample_a) true 48 = Fault.
Proof. vm_compute. reflexivity. Qed.
