(* ===== verification/Index.v ===== *)
(** * Index trees (ntfs/index.c)

    An index is a B-tree of nodes: the index root, which is the value of a
    resident attribute, and index blocks, which are the records of a
    non-resident one.  A node is a header and a row of entries, each with a key
    and, when the node is not a leaf, at its end the vcn of the block with the
    smaller keys; the last entry has no key.  This file models the operations
    on nodes, the lookup, and the insertion with the splitting of blocks. *)
From S2P Require Import Prelude Libc Fields.

(** index.h:62-62 VCN_INDEX_ROOT_PARENT *)
Definition VCN_INDEX_ROOT_PARENT : Z := -2.
(** index.h:64-64 MAX_PARENT_VCN *)
Definition MAX_PARENT_VCN : Z := 32.

(** layout.h:2338-2345 INDEX_ENTRY_NODE *)
Definition INDEX_ENTRY_NODE : Z := 1.
Definition INDEX_ENTRY_END : Z := 2.
(** layout.h:2101-2114 INDEX_HEADER_FLAGS *)
Definition LARGE_INDEX : Z := 1.
Definition LEAF_NODE : Z := 0.
Definition INDEX_NODE : Z := 1.
Definition NODE_MASK : Z := 1.
Definition magic_INDX : Z := 0x58444e49.

(** ** Nodes

    [b] is the index root or an index block, the header at [h] in it: 16 in the
    root, 24 in a block.  A pointer to an entry is its offset. *)
Definition ROOT_INDEX : Z := 16.
Definition BLOCK_INDEX : Z := 24.

(** layout.h:2130-2149 INDEX_HEADER *)
Definition entries_offset (b : bytes) (h : Z) : outcome Z := rd_le 4 b h.
Definition index_length (b : bytes) (h : Z) : outcome Z := rd_le 4 b (h + 4).
Definition allocated_size (b : bytes) (h : Z) : outcome Z := rd_le 4 b (h + 8).
Definition ih_flags (b : bytes) (h : Z) : outcome Z := rd b (h + 12).

(** layout.h:2381-2440 INDEX_ENTRY *)
Definition ie_length (b : bytes) (e : Z) : outcome Z := rd_le 2 b (e + 8).
Definition ie_key_length (b : bytes) (e : Z) : outcome Z := rd_le 2 b (e + 10).
Definition ie_flags (b : bytes) (e : Z) : outcome Z := rd_le 2 b (e + 12).

(** index.c:193-196 ntfs_ie_get_vcn_addr *)
Definition ntfs_ie_get_vcn_addr (b : bytes) (e : Z) : outcome Z := let! l := ie_length b e in Ret (e + l - 8).
(** index.c:201-204 ntfs_ie_get_vcn *)
Definition ntfs_ie_get_vcn (b : bytes) (e : Z) : outcome Z :=
  let! a := ntfs_ie_get_vcn_addr b e in let! v := rd_le 8 b a in Ret (s64 v).
(** index.c:206-209 ntfs_ie_get_first *)
Definition ntfs_ie_get_first (b : bytes) (h : Z) : outcome Z := let! o := entries_offset b h in Ret (h + o).
(** index.c:211-214 ntfs_ie_get_next *)
Definition ntfs_ie_get_next (b : bytes) (e : Z) : outcome Z := let! l := ie_length b e in Ret (e + l).
(** index.c:216-220 ntfs_ie_get_end *)
Definition ntfs_ie_get_end (b : bytes) (h : Z) : outcome Z := let! l := index_length b h in Ret (h + l).
(** index.c:222-225 ntfs_ie_end *)
Definition ntfs_ie_end (b : bytes) (e : Z) : outcome bool :=
  let! f := ie_flags b e in
  if negb (Z.land f INDEX_ENTRY_END =? 0) then Ret true else let! l := ie_length b e in Ret (l =? 0).

(** index.c:230-238 ntfs_ie_get_last. Every round goes on by at least a byte. *)
Fixpoint ntfs_ie_get_last (fuel : nat) (b : bytes) (e ies_end : Z) : outcome Z :=
  match fuel with
  | O => Fault
  | S fuel' =>
    if e <? ies_end then
      let! x := ntfs_ie_end b e in
      if x : bool then Ret e else let! e := ntfs_ie_get_next b e in ntfs_ie_get_last fuel' b e ies_end
    else Ret e
  end.

(** index.c:248-249 ntfs_ie_get_by_pos. The loop, from the entry at [e]. *)
Fixpoint by_pos (pos : nat) (b : bytes) (e : Z) : outcome Z :=
  match pos with O => Ret e | S pos' => let! e := ntfs_ie_get_next b e in by_pos pos' b e end.
Definition ntfs_ie_get_by_pos (b : bytes) (h pos : Z) : outcome Z :=
  let! e := ntfs_ie_get_first b h in by_pos (Z.to_nat pos) b e.

(** index.c:254-269 ntfs_ie_prev. [None]: NULL. *)
Fixpoint prev_loop (fuel : nat) (b : bytes) (tmp ie : Z) (ie_prev : option Z) : outcome (option Z) :=
  match fuel with
  | O => Fault
  | S fuel' => if tmp =? ie then Ret ie_prev else let! n := ntfs_ie_get_next b tmp in prev_loop fuel' b n ie (Some tmp)
  end.
Definition ntfs_ie_prev (b : bytes) (h ie : Z) : outcome (option Z) :=
  let! e := ntfs_ie_get_first b h in prev_loop (S (length b)) b e ie None.

(** index.c:311-312 ntfs_ih_numof_entries. The loop. *)
Fixpoint numof_loop (fuel : nat) (b : bytes) (e stop n : Z) : outcome Z :=
  match fuel with
  | O => Fault
  | S fuel' =>
    let! x := ntfs_ie_end b e in
    if negb x && (e <? stop) then let! e := ntfs_ie_get_next b e in numof_loop fuel' b e stop (n + 1) else Ret n
  end.
(** index.c:301-314 ntfs_ih_numof_entries *)
Definition ntfs_ih_numof_entries (b : bytes) (h : Z) : outcome Z :=
  let! stop := ntfs_ie_get_end b h in
  let! e := ntfs_ie_get_first b h in
  numof_loop (S (length b)) b e stop 0.
(** index.c:316-319 ntfs_ih_one_entry *)
Definition ntfs_ih_one_entry (b : bytes) (h : Z) : outcome bool := let! n := ntfs_ih_numof_entries b h in Ret (n =? 1).
(** index.c:321-324 ntfs_ih_zero_entry *)
Definition ntfs_ih_zero_entry (b : bytes) (h : Z) : outcome bool := let! n := ntfs_ih_numof_entries b h in Ret (n =? 0).

(** index.c:326-336 ntfs_ie_delete *)
Definition ntfs_ie_delete (b : bytes) (h e : Z) : outcome bytes :=
  let! il := index_length b h in
  let! l := ie_length b e in
  let new_size := u32 (il - l) in
  let! b := put 4 b (h + 4) new_size in
  memmove_size b e (e + l) (new_size - (e - h)).

(** index.c:338-341 ntfs_ie_set_vcn *)
Definition ntfs_ie_set_vcn (b : bytes) (e vcn : Z) : outcome bytes := let! a := ntfs_ie_get_vcn_addr b e in put 8 b a vcn.

(** index.c:346-356 ntfs_ie_insert. [ie] has the bytes of the entry from its start
    on. *)
Definition ntfs_ie_insert (b : bytes) (h : Z) (ie : bytes) (pos : Z) : outcome bytes :=
  let! ie_size := ie_length ie 0 in
  let! il := index_length b h in
  let! b := put 4 b (h + 4) (il + ie_size) in
  let! il := index_length b h in
  let! b := memmove_size b (pos + ie_size) pos (il - (pos - h) - ie_size) in
  let! x := rdn ie 0 ie_size in
  wrn b pos x.

(** index.c:358-369 ntfs_ie_dup. With memory. *)
Definition ntfs_ie_dup (ie : bytes) : outcome bytes := let! l := ie_length ie 0 in rdn ie 0 l.

(** index.c:371-388 ntfs_ie_dup_novcn *)
Definition ntfs_ie_dup_novcn (ie : bytes) : outcome bytes :=
  let! size := ie_length ie 0 in
  let! f := ie_flags ie 0 in
  let size := if negb (Z.land f INDEX_ENTRY_NODE =? 0) then size - 8 else size in
  let! dup := rdn ie 0 size in
  let! f := ie_flags dup 0 in
  let! dup := put 2 dup 12 (Z.land f (Z.lnot INDEX_ENTRY_NODE)) in
  put 2 dup 8 size.

(** index.c:1276-1289 ntfs_ie_add_vcn. With memory; [past]: the bytes behind the block of the
    entry, which [realloc] (libc.c:122-133) reads. *)
Definition ntfs_ie_add_vcn (past : bytes) (ie : bytes) : outcome bytes :=
  let! l := ie_length ie 0 in
  let! ie := put 2 ie 8 (l + 8) in
  let! l := ie_length ie 0 in
  let! p := realloc (fun _ => true) past (Some ie) l in
  match p with
  | None => Fault
  | Some p => let! f := ie_flags p 0 in put 2 p 12 (Z.lor f INDEX_ENTRY_NODE)
  end.

(** index.c:390-424 ntfs_ia_check *)
Definition ntfs_ia_check (block_size : Z) (ib : bytes) (vcn : Z) : outcome bool :=
  let! asz := allocated_size ib BLOCK_INDEX in
  let ib_size := u32 (asz + 0x18) in
  let! magic := rd_le 4 ib 0 in
  let! v := rd_le 8 ib 16 in
  Ret ((magic =? magic_INDX) && (s64 v =? vcn) && (ib_size =? block_size)).

(** index.c:800-829 ntfs_ib_alloc. With memory. *)
Definition ntfs_ib_alloc (ib_vcn ib_size node_type : Z) : outcome bytes :=
  let ib := replicate (Z.to_nat ib_size) 0 in
  let! ib := put 4 ib 0 magic_INDX in
  let! ib := put 2 ib 4 40 in
  let! ib := put 2 ib 6 (ib_size / 512 + 1) in
  let! uo := rd_le 2 ib 4 in
  let! ib := put 2 ib uo 1 in
  let! ib := put 8 ib 8 0 in
  let! ib := put 8 ib 16 ib_vcn in
  let! uc := rd_le 2 ib 6 in
  let! ib := put 4 ib 24 (Z.land (16 + uc * 2 + 7) (Z.lnot 7)) in
  let! ib := put 4 ib 28 0 in
  let! ib := put 4 ib 32 (ib_size - 24) in
  put 1 ib 36 node_type.

(** index.c:845-848 ntfs_ie_get_median. The number of entries. *)
Fixpoint count_loop (fuel : nat) (b : bytes) (e stop i : Z) : outcome Z :=
  match fuel with
  | O => Fault
  | S fuel' =>
    if e <? stop then
      let! x := ntfs_ie_end b e in
      if x : bool then Ret i else let! e := ntfs_ie_get_next b e in count_loop fuel' b e stop (i + 1)
    else Ret i
  end.
(** index.c:834-860 ntfs_ie_get_median *)
Definition ntfs_ie_get_median (b : bytes) (h : Z) : outcome Z :=
  let! e := ntfs_ie_get_first b h in
  let! stop := ntfs_ie_get_end b h in
  let! i := count_loop (S (length b)) b e stop 0 in
  let median := i / 2 - 1 in
  by_pos (Z.to_nat (median + 1)) b e.

(** index.c:1291-1319 ntfs_ih_insert. With memory. *)
Definition ntfs_ih_insert (past : bytes) (b : bytes) (h : Z) (orig_ie : bytes) (new_vcn pos : Z) : outcome bytes :=
  let! ie := ntfs_ie_dup orig_ie in
  let! f := ie_flags ie 0 in
  let! ie := (if Z.land f INDEX_ENTRY_NODE =? 0 then ntfs_ie_add_vcn past ie else Ret ie) in
  let! ie_node := ntfs_ie_get_by_pos b h pos in
  let! old_vcn := ntfs_ie_get_vcn b ie_node in
  let! b := ntfs_ie_set_vcn b ie_node new_vcn in
  let! b := ntfs_ie_insert b h ie ie_node in
  ntfs_ie_set_vcn b ie_node old_vcn.

(** index.c:1038-1065 ntfs_ib_copy_tail. The new block. *)
Definition ib_tail (block_size : Z) (src : bytes) (median new_vcn : Z) : outcome bytes :=
  let! fl := ih_flags src BLOCK_INDEX in
  let! dst := ntfs_ib_alloc new_vcn block_size (Z.land fl NODE_MASK) in
  let! ie_head := ntfs_ie_get_next src median in
  let! ies_end := ntfs_ie_get_end src BLOCK_INDEX in
  let tail_size := s32 (ies_end - ie_head) in
  let! first := ntfs_ie_get_first dst BLOCK_INDEX in
  if tail_size <? 0 then Fault
  else
    let! x := rdn src ie_head tail_size in
    let! dst := wrn dst first x in
    let! eo := entries_offset dst BLOCK_INDEX in
    put 4 dst (BLOCK_INDEX + 4) (tail_size + eo).

(** index.c:1067-1091 ntfs_ib_cut_tail. The block without its tail. *)
Definition ib_head (ib : bytes) (ie : Z) : outcome bytes :=
  let! ies_start := ntfs_ie_get_first ib BLOCK_INDEX in
  let! ies_end := ntfs_ie_get_end ib BLOCK_INDEX in
  let! ie_last := ntfs_ie_get_last (S (length ib)) ib ies_start ies_end in
  let! f := ie_flags ib ie_last in
  let! ib := (if negb (Z.land f INDEX_ENTRY_NODE =? 0) then let! v := ntfs_ie_get_vcn ib ie in ntfs_ie_set_vcn ib ie_last v else Ret ib) in
  let! l := ie_length ib ie_last in
  let! x := rdn ib ie_last l in
  let! ib := wrn ib ie x in
  let! l := ie_length ib ie in
  let! eo := entries_offset ib BLOCK_INDEX in
  put 4 ib (BLOCK_INDEX + 4) (ie - ies_start + l + eo).

(** index.c:988-1015 ntfs_ir_to_ib. With memory. *)
Definition ntfs_ir_to_ib (ir : bytes) (ib_vcn : Z) : outcome bytes :=
  let! bs := rd_le 4 ir 8 in
  let! ib := ntfs_ib_alloc ib_vcn bs LEAF_NODE in
  let! ies_start := ntfs_ie_get_first ir ROOT_INDEX in
  let! ies_end := ntfs_ie_get_end ir ROOT_INDEX in
  let! ie_last := ntfs_ie_get_last (S (length ir)) ir ies_start ies_end in
  let! l := ie_length ir ie_last in
  let i := ie_last - ies_start + l in
  let! x := rdn ir ies_start i in
  let! first := ntfs_ie_get_first ib BLOCK_INDEX in
  let! ib := wrn ib first x in
  let! fl := ih_flags ir ROOT_INDEX in
  let! ib := put 1 ib (BLOCK_INDEX + 12) fl in
  let! eo := entries_offset ib BLOCK_INDEX in
  put 4 ib (BLOCK_INDEX + 4) (i + eo).

(** index.c:1017-1036 ntfs_ir_nill *)
Definition ntfs_ir_nill (ir : bytes) : outcome bytes :=
  let! ies_start := ntfs_ie_get_first ir ROOT_INDEX in
  let! ies_end := ntfs_ie_get_end ir ROOT_INDEX in
  let! ie_last := ntfs_ie_get_last (S (length ir)) ir ies_start ies_end in
  if ies_start <? ie_last then let! l := ie_length ir ie_last in memmove_size ir ies_start ie_last l else Ret ir.

(** ** Searching *)
Definition COLLATE := bytes -> Z -> bytes -> Z -> outcome Z.
Definition NTFS_COLLATION_ERROR : Z := -2.

(** The result of a search in a node: the entry with the key and its number; the
    entry in front of which the key belongs in a leaf; or the vcn of the block to
    go on with and the number of the entry with it. *)
Inductive ie_result := IeFound (ie item : Z) | IeMissing (ie : Z) | IeChild (vcn item : Z).

(** index.c:499-548 ntfs_ie_lookup. The loop, from the entry at [ie] with number
    [item]: the entry with the key, or the one to look for a child at. *)
Fixpoint ie_loop (fuel : nat) (collate : option COLLATE) (key : bytes) (key_len : Z) (b : bytes) (index_end ie item : Z)
  : outcome (bool * Z * Z) :=
  match fuel with
  | O => Fault
  | S fuel' =>
    if index_end <? ie + 16 then Fail ERANGE
    else
      let! l := ie_length b ie in
      if index_end <? ie + l then Fail ERANGE
      else
        let! x := ntfs_ie_end b ie in
        if x : bool then Ret (false, ie, item)
        else
          match collate with
          | None => Fail EOPNOTSUPP
          | Some f =>
            let! kl := ie_key_length b ie in
            let! rc := f key key_len (drop (Z.to_nat (ie + 16)) b) kl in
            if rc =? NTFS_COLLATION_ERROR then Fail ERANGE
            else if rc =? -1 then Ret (false, ie, item)
            else if rc =? 0 then Ret (true, ie, item)
            else let! ie := ntfs_ie_get_next b ie in ie_loop fuel' collate key key_len b index_end ie (item + 1)
          end
  end.

(** index.c:483-574 ntfs_ie_lookup. The caller stores the number of the entry in
    [parent_pos]. *)
Definition ntfs_ie_lookup (collate : option COLLATE) (key : bytes) (key_len : Z) (b : bytes) (h : Z) : outcome ie_result :=
  let! index_end := ntfs_ie_get_end b h in
  let! ie := ntfs_ie_get_first b h in
  let! (found, ie, item) := ie_loop (S (length b)) collate key key_len b index_end ie 0 in
  if found : bool then Ret (IeFound ie item)
  else
    let! f := ie_flags b ie in
    if Z.land f INDEX_ENTRY_NODE =? 0 then Ret (IeMissing ie)
    else
      let! vcn := ntfs_ie_get_vcn b ie in
      if vcn <? 0 then Fail EINVAL else Ret (IeChild vcn item).

(** ** The context *)

(** index.h:115-134 ntfs_index_context. [entry] is an offset in the root or in
    [ib]; [None]: NULL; [ib = None]: NULL or freed. *)
Record ntfs_index_context := mkicx {
  entry : option Z;
  collate : option COLLATE;
  is_in_root : bool;
  ib : option bytes;
  parent_pos : list Z;
  parent_vcn : list Z;
  pindex : Z;
  ib_dirty : bool;
  block_size : Z;
  vcn_size_bits : Z;
}.

(** index.c:119-140 ntfs_index_ctx_get *)
Definition new_context : ntfs_index_context :=
  mkicx None None false None (replicate 32 0) (replicate 32 0) 0 false 0 0.

Definition set_entry e in_root b (c : ntfs_index_context) :=
  mkicx e (collate c) in_root b (parent_pos c) (parent_vcn c) (pindex c) (ib_dirty c) (block_size c) (vcn_size_bits c).
Definition set_pos l (c : ntfs_index_context) :=
  mkicx (entry c) (collate c) (is_in_root c) (ib c) l (parent_vcn c) (pindex c) (ib_dirty c) (block_size c) (vcn_size_bits c).
Definition set_vcns l (c : ntfs_index_context) :=
  mkicx (entry c) (collate c) (is_in_root c) (ib c) (parent_pos c) l (pindex c) (ib_dirty c) (block_size c) (vcn_size_bits c).
Definition set_pindex i (c : ntfs_index_context) :=
  mkicx (entry c) (collate c) (is_in_root c) (ib c) (parent_pos c) (parent_vcn c) i (ib_dirty c) (block_size c) (vcn_size_bits c).
Definition set_dirty d (c : ntfs_index_context) :=
  mkicx (entry c) (collate c) (is_in_root c) (ib c) (parent_pos c) (parent_vcn c) (pindex c) d (block_size c) (vcn_size_bits c).
Definition set_params f bs bits (c : ntfs_index_context) :=
  mkicx (entry c) f (is_in_root c) (ib c) (parent_pos c) (parent_vcn c) (pindex c) (ib_dirty c) bs bits.

(** index.c:73-76 ntfs_ib_vcn_to_pos *)
Definition ntfs_ib_vcn_to_pos (c : ntfs_index_context) (vcn : Z) : Z := Z.shiftl vcn (vcn_size_bits c).
(** index.c:78-81 ntfs_ib_pos_to_vcn *)
Definition ntfs_ib_pos_to_vcn (c : ntfs_index_context) (pos : Z) : Z := Z.shiftr pos (vcn_size_bits c).

(** index.c:614-623 ntfs_icx_parent_inc. [Some]: the error. *)
Definition ntfs_icx_parent_inc (c : ntfs_index_context) : ntfs_index_context * option errno_t :=
  let c := set_pindex (pindex c + 1) c in (c, if MAX_PARENT_VCN <=? pindex c then Some EOPNOTSUPP else None).
(** index.c:625-634 ntfs_icx_parent_dec *)
Definition ntfs_icx_parent_dec (c : ntfs_index_context) : ntfs_index_context * option errno_t :=
  let c := set_pindex (pindex c - 1) c in (c, if pindex c <? 0 then Some EINVAL else None).
(** index.c:1321-1324 ntfs_icx_parent_vcn *)
Definition ntfs_icx_parent_vcn (c : ntfs_index_context) : outcome Z := rd (parent_vcn c) (pindex c).
(** index.c:1326-1329 ntfs_icx_parent_pos *)
Definition ntfs_icx_parent_pos (c : ntfs_index_context) : outcome Z := rd (parent_pos c) (pindex c).

Definition store_pos (c : ntfs_index_context) (item : Z) : outcome ntfs_index_context :=
  let! l := wr (parent_pos c) (pindex c) item in Ret (set_pos l c).
Definition store_vcn (c : ntfs_index_context) (vcn : Z) : outcome ntfs_index_context :=
  let! l := wr (parent_vcn c) (pindex c) vcn in Ret (set_vcns l c).

(** ** The attributes of an index

    [S] is the state of the inode. *)
Class index_attrs (S : Type) := {
  (** the value of the index root, found by [ntfs_ir_lookup], and the stores in it *)
  ir_get : S -> outcome bytes;
  ir_put : S -> bytes -> S;
  (** [ntfs_attr_mst_pread] and [ntfs_attr_mst_pwrite] of one block at a position *)
  ia_pread : S -> Z -> outcome bytes;
  ia_pwrite : S -> Z -> bytes -> S * outcome unit;
  (** [ntfs_ia_open] *)
  ia_open : S -> outcome unit;
}.

Section Lookup.
Context {S : Type} {attrs : index_attrs S}.
(** Whether there is memory; the collation rules; the cluster size of the volume. *)
Context (memory : bool) (get_collate : Z -> option COLLATE) (cluster_size cluster_size_bits : Z).

(** index.c:590-612 ntfs_ib_read. The block, or an error that its callers report as
    EIO. *)
Definition ntfs_ib_read (s : S) (c : ntfs_index_context) (vcn : Z) : outcome bytes :=
  let! dst := ia_pread s (ntfs_ib_vcn_to_pos c vcn) in
  let! good := ntfs_ia_check (block_size c) dst vcn in
  if good : bool then Ret dst else Fail EIO.

(** index.c:83-98 ntfs_ib_write *)
Definition ntfs_ib_write (s : S) (c : ntfs_index_context) (b : bytes) : S * outcome unit :=
  match rd_le 8 b 16 with
  | Ret v => ia_pwrite s (ntfs_ib_vcn_to_pos c (s64 v)) b
  | Fail e => (s, Fail e)
  | Fault => (s, Fault)
  end.

(** index.c:746-780 ntfs_index_lookup. From [descend_into_child_node] on. *)
Fixpoint descend (fuel : nat) (s : S) (c : ntfs_index_context) (key : bytes) (key_len old_vcn vcn : Z)
  : outcome (ntfs_index_context * option errno_t) :=
  match fuel with
  | O => Fault
  | Datatypes.S fuel' =>
    let! c := store_vcn c old_vcn in
    match ntfs_icx_parent_inc c with
    | (c, Some e) => Ret (c, Some e)
    | (c, None) =>
      match ntfs_ib_read s c vcn with
      | Fault => Fault
      | Fail _ => Ret (c, Some EIO)
      | Ret b =>
        match ntfs_ie_lookup (collate c) key key_len b BLOCK_INDEX with
        | Fault => Fault
        | Fail e => Ret (c, Some e)
        | Ret (IeFound ie item) =>
          let! c := store_pos c item in
          let! c := store_vcn c vcn in
          Ret (set_entry (Some ie) false (Some b) c, None)
        | Ret (IeMissing ie) =>
          let! c := store_vcn c vcn in
          Ret (set_entry (Some ie) false (Some b) c, Some ENOENT)
        | Ret (IeChild child item) =>
          let! c := store_pos c item in
          let! fl := ih_flags b BLOCK_INDEX in
          if Z.land fl NODE_MASK =? LEAF_NODE then Ret (c, Some EIO)
          else descend fuel' s c key key_len vcn child
        end
      end
    end
  end.

(** index.c:668-798 ntfs_index_lookup. The context, and [None] when the key is
    there, ENOENT when it is not, or the error.  The array of parents ends the
    descent. *)
Definition ntfs_index_lookup (s : S) (c : ntfs_index_context) (key : bytes) (key_len : Z)
  : outcome (ntfs_index_context * option errno_t) :=
  if key_len <=? 0 then Ret (c, Some EINVAL)
  else
    match ir_get s with
    | Fault => Fault
    | Fail e => Ret (c, Some (if decide (e = ENOENT) then EIO else e))
    | Ret ir =>
      let! bs := rd_le 4 ir 8 in
      if bs <? 512 then Ret (set_params (collate c) bs (vcn_size_bits c) c, Some EIO)
      else
        let bits := if cluster_size <=? bs then cluster_size_bits else 9 in
        let! rule := rd_le 4 ir 4 in
        let c := set_params (get_collate rule) bs bits c in
        match get_collate rule with
        | None => Ret (c, Some EOPNOTSUPP)
        | Some _ =>
          match ntfs_ie_lookup (collate c) key key_len ir ROOT_INDEX with
          | Fault => Fault
          | Fail e => Ret (c, Some e)
          | Ret (IeFound ie item) =>
            let! c := store_pos c item in
            let! c := store_vcn c VCN_INDEX_ROOT_PARENT in
            Ret (set_entry (Some ie) true (ib c) c, None)
          | Ret (IeMissing ie) =>
            let! c := store_vcn c VCN_INDEX_ROOT_PARENT in
            Ret (set_entry (Some ie) true (ib c) c, Some ENOENT)
          | Ret (IeChild vcn item) =>
            let! c := store_pos c item in
            match ia_open s with
            | Fault => Fault
            | Fail _ => Ret (c, Some EIO)
            | Ret _ =>
              if memory then descend (Z.to_nat (MAX_PARENT_VCN + 1)) s c key key_len VCN_INDEX_ROOT_PARENT vcn
              else Ret (c, Some EUNSET)
            end
          end
        end
    end.
End Lookup.
