(* ===== verification/IndexAdd.v ===== *)
(** * Index trees: adding an entry (ntfs/index.c)

    The bitmap of the index blocks, the growth of the index root, the splitting of
    full blocks, and the loop of [ntfs_ie_add] that makes room until the new entry
    fits into its leaf. *)
From S2P Require Import Prelude Libc Fields Index.

(** types.h:113-117 STATUS_OK *)
Inductive status := STATUS_OK | STATUS_ERROR | STATUS_RESIDENT_ATTRIBUTE_FILLED_MFT | STATUS_KEEP_SEARCHING.

(** The other operations on the attributes of an index: the bitmap of the blocks in
    use, the index allocation, and the size of the index root. *)
Class index_space (St : Type) := {
  (** [ntfs_attr_exist], [ntfs_attr_add] of the bitmap and the index allocation *)
  bm_exist : St -> bool;
  bm_create : St -> bytes -> St * outcome unit;
  ia_exist : St -> bool;
  ia_create : St -> St * outcome unit;
  (** [ntfs_attr_readall] of the bitmap *)
  bm_readall : St -> outcome bytes;
  (** [ntfs_attr_open] of the bitmap: its size; [ntfs_attr_truncate]; [ntfs_attr_pread] and
      [ntfs_attr_pwrite] of a byte *)
  bm_open : St -> outcome Z;
  bm_truncate : St -> Z -> St * outcome unit;
  bm_pread : St -> Z -> outcome Z;
  bm_pwrite : St -> Z -> Z -> St * outcome unit;
  (** [ntfs_attr_open] and [ntfs_attr_truncate] of the index root *)
  ir_open : St -> outcome unit;
  ir_truncate : St -> Z -> St * status;
  (** [ntfs_resident_attr_value_resize] of the index root; moving the root to an extent,
      and whether that worked *)
  ir_resize : St -> Z -> St * outcome unit;
  ir_move_away : St -> Z -> St * bool;
}.

Section Add.
Context {St : Type} {attrs : index_attrs St} {space : index_space St}.
(** Whether there is memory; the bytes behind the block of an entry that gets room for a
    child, which [realloc] reads. *)
Context (memory : bool) (past : bytes).

(** ** The bitmap of the blocks *)

(** index.c:862-865 ntfs_ibm_vcn_to_pos *)
Definition ntfs_ibm_vcn_to_pos (c : ntfs_index_context) (vcn : Z) : Z := ntfs_ib_vcn_to_pos c vcn / block_size c.
(** index.c:867-870 ntfs_ibm_pos_to_vcn *)
Definition ntfs_ibm_pos_to_vcn (c : ntfs_index_context) (pos : Z) : Z := ntfs_ib_pos_to_vcn c (pos * block_size c).

(** index.c:872-891 ntfs_ibm_add *)
Definition ntfs_ibm_add (s : St) : St * outcome unit :=
  if bm_exist s then (s, Ret tt) else bm_create s (replicate 8 0).

(** index.c:893-938 ntfs_ibm_modify. The result of a failing call is the error. *)
Definition ntfs_ibm_modify (s : St) (c : ntfs_index_context) (vcn : Z) (set : bool) : St * outcome unit :=
  let pos := ntfs_ibm_vcn_to_pos c vcn in
  let bpos := u32 (pos / 8) in
  let bit := Z.shiftl 1 (pos mod 8) in
  match bm_open s with
  | Ret data_size =>
    let '(s, r) := if set && (data_size <? u32 (bpos + 1)) then bm_truncate s (Z.land (data_size + 8) (Z.lnot 7)) else (s, Ret tt) in
    match r with
    | Ret _ =>
      match bm_pread s bpos with
      | Ret byte => bm_pwrite s bpos (if set then Z.lor byte bit else Z.land byte (u8 (Z.lnot bit)))
      | Fail e => (s, Fail e)
      | Fault => (s, Fault)
      end
    | r => (s, r)
    end
  | Fail e => (s, Fail e)
  | Fault => (s, Fault)
  end.

(** index.c:941-944 ntfs_ibm_set *)
Definition ntfs_ibm_set (s : St) (c : ntfs_index_context) (vcn : Z) : St * outcome unit := ntfs_ibm_modify s c vcn true.
(** index.c:946-949 ntfs_ibm_clear *)
Definition ntfs_ibm_clear (s : St) (c : ntfs_index_context) (vcn : Z) : St * outcome unit := ntfs_ibm_modify s c vcn false.

(** index.c:970-975 ntfs_ibm_get_free. The first clear bit of a byte. *)
Fixpoint clear_bit (n : nat) (byte bit : Z) : option Z :=
  match n with
  | O => None
  | S n' => if Z.land byte (Z.shiftl 1 bit) =? 0 then Some bit else clear_bit n' byte (bit + 1)
  end.
(** index.c:965-978 ntfs_ibm_get_free. The loop, and the position after the last byte. *)
Fixpoint free_bit (bm : bytes) (byte : Z) : Z :=
  match bm with
  | [] => byte * 8
  | x :: bm' =>
    if x =? 255 then free_bit bm' (byte + 1)
    else match clear_bit 8 x 0 with Some bit => byte * 8 + bit | None => free_bit bm' (byte + 1) end
  end.
(** index.c:951-986 ntfs_ibm_get_free. [None]: -1. *)
Definition ntfs_ibm_get_free (s : St) (c : ntfs_index_context) : St * outcome (option Z) :=
  match bm_readall s with
  | Ret bm =>
    let vcn := ntfs_ibm_pos_to_vcn c (free_bit bm 0) in
    match ntfs_ibm_set s c vcn with
    | (s, Ret _) => (s, Ret (Some vcn))
    | (s, Fail _) => (s, Ret None)
    | (s, Fault) => (s, Fault)
    end
  | Fail _ => (s, Ret None)
  | Fault => (s, Fault)
  end.

(** A cleanup whose error is ignored. *)
Definition undo (x : St * outcome unit) : outcome St := match x with (_, Fault) => Fault | (s, _) => Ret s end.

(** ** The index root *)

(** index.c:1093-1114 ntfs_ia_add *)
Definition ntfs_ia_add (s : St) : St * outcome unit :=
  match ntfs_ibm_add s with
  | (s, Ret _) =>
    let '(s, r) := if ia_exist s then (s, Ret tt) else ia_create s in
    match r with Ret _ => (s, ia_open s) | r => (s, r) end
  | r => r
  end.

(** index.c:1158-1172 ntfs_ir_reparent. The emptied root: its only entry has no
    key, and room for a vcn. The size it has to get, too. *)
Definition emptied_root (ir : bytes) : outcome (bytes * Z) :=
  let! ir := ntfs_ir_nill ir in
  let! ie := ntfs_ie_get_first ir ROOT_INDEX in
  let! f := ie_flags ir ie in
  let! ir := put 2 ir (ie + 12) (Z.lor f INDEX_ENTRY_NODE) in
  let! ir := put 2 ir (ie + 8) (16 + 8) in
  let! ir := put 1 ir (ROOT_INDEX + 12) LARGE_INDEX in
  let! eo := entries_offset ir ROOT_INDEX in
  let! l := ie_length ir ie in
  let! ir := put 4 ir (ROOT_INDEX + 4) (eo + l) in
  let! il := index_length ir ROOT_INDEX in
  let! ir := put 4 ir (ROOT_INDEX + 8) il in
  Ret (ir, 32 - 16 + il).

(** index.c:1153-1209 ntfs_ir_reparent. From the label [retry] on; a root that was
    moved away is in an extent, so there are no more than two rounds. *)
Fixpoint reparent_root (rounds : nat) (s : St) (c : ntfs_index_context) (new_ib_vcn : Z) : outcome (St * status) :=
  let clear_bmp s := let! s := undo (ntfs_ibm_clear s c new_ib_vcn) in Ret (s, STATUS_ERROR) in
  match ir_get s with
  | Fault => Fault
  | Fail _ => clear_bmp s
  | Ret ir =>
    let! (ir, ix_root_size) := emptied_root ir in
    match ir_resize (ir_put s ir) ix_root_size with
    | (_, Fault) => Fault
    | (s, Fail e) =>
      match rounds with
      | S rounds' =>
        if decide (e = ENOSPC) then
          let '(s, moved) := ir_move_away s ix_root_size in
          if moved : bool then reparent_root rounds' s c new_ib_vcn else clear_bmp s
        else clear_bmp s
      | O => clear_bmp s
      end
    | (s, Ret _) =>
      let! ir := ir_get s in
      let! ie := ntfs_ie_get_first ir ROOT_INDEX in
      let! ir := ntfs_ie_set_vcn ir ie new_ib_vcn in
      Ret (ir_put s ir, STATUS_OK)
    end
  end.

(** index.c:1116-1209 ntfs_ir_reparent *)
Definition ntfs_ir_reparent (s : St) (c : ntfs_index_context) : outcome (St * status) :=
  match ir_get s with
  | Fault => Fault
  | Fail _ => Ret (s, STATUS_ERROR)
  | Ret ir =>
    let! fl := ih_flags ir ROOT_INDEX in
    let '(s, r) := if Z.land fl NODE_MASK =? 0 then ntfs_ia_add s else (s, Ret tt) in
    match r with
    | Fault => Fault
    | Fail _ => Ret (s, STATUS_ERROR)
    | Ret _ =>
      match ntfs_ibm_get_free s c with
      | (_, Fault) => Fault
      | (s, Fail _) | (s, Ret None) => Ret (s, STATUS_ERROR)
      | (s, Ret (Some new_ib_vcn)) =>
        let clear_bmp s := let! s := undo (ntfs_ibm_clear s c new_ib_vcn) in Ret (s, STATUS_ERROR) in
        match ir_get s with
        | Fault => Fault
        | Fail _ => clear_bmp s
        | Ret ir =>
          if memory then
            let! ib := ntfs_ir_to_ib ir new_ib_vcn in
            match ntfs_ib_write s c ib with
            | (_, Fault) => Fault
            | (s, Fail _) => clear_bmp s
            | (s, Ret _) => reparent_root 1 s c new_ib_vcn
            end
          else clear_bmp s
        end
      end
    end
  end.

(** index.c:1216-1246 ntfs_ir_truncate *)
Definition ntfs_ir_truncate (s : St) (data_size : Z) : outcome (St * status) :=
  match ir_open s with
  | Fault => Fault
  | Fail _ => Ret (s, STATUS_ERROR)
  | Ret _ =>
    match ir_truncate s (data_size + 16) with
    | (s, STATUS_OK) =>
      match ir_get s with
      | Fault => Fault
      | Fail _ => Ret (s, STATUS_ERROR)
      | Ret ir => let! ir := put 4 ir (ROOT_INDEX + 8) data_size in Ret (ir_put s ir, STATUS_OK)
      end
    | (s, r) => Ret (s, r)
    end
  end.

(** index.c:1254-1271 ntfs_ir_make_space *)
Definition ntfs_ir_make_space (s : St) (c : ntfs_index_context) (data_size : Z) : outcome (St * status) :=
  let! (s, ret) := ntfs_ir_truncate s data_size in
  match ret with
  | STATUS_RESIDENT_ATTRIBUTE_FILLED_MFT =>
    let! (s, ret) := ntfs_ir_reparent s c in
    Ret (s, match ret with STATUS_OK => STATUS_KEEP_SEARCHING | r => r end)
  | ret => Ret (s, ret)
  end.

(** index.c:1332-1359 ntfs_ir_insert_median. [median] has the bytes of the entry from
    its start on. *)
Definition ntfs_ir_insert_median (s : St) (c : ntfs_index_context) (median : bytes) (new_vcn : Z) : outcome (St * status) :=
  match ir_get s with
  | Fault => Fault
  | Fail _ => Ret (s, STATUS_ERROR)
  | Ret ir =>
    let! il := index_length ir ROOT_INDEX in
    let! l := ie_length median 0 in
    let! f := ie_flags median 0 in
    let new_size := il + l + (if Z.land f INDEX_ENTRY_NODE =? 0 then 8 else 0) in
    let! (s, ret) := ntfs_ir_make_space s c new_size in
    match ret with
    | STATUS_OK =>
      match ir_get s with
      | Fault => Fault
      | Fail _ => Ret (s, STATUS_ERROR)
      | Ret ir =>
        if memory then
          let! pos := ntfs_icx_parent_pos c in
          let! ir := ntfs_ih_insert past ir ROOT_INDEX median new_vcn pos in
          Ret (ir_put s ir, STATUS_OK)
        else Ret (s, STATUS_ERROR)
      end
    | ret => Ret (s, ret)
    end
  end.

(** ** Blocks *)

(** index.c:1038-1065 ntfs_ib_copy_tail *)
Definition ntfs_ib_copy_tail (s : St) (c : ntfs_index_context) (src : bytes) (median new_vcn : Z) : outcome (St * status) :=
  if memory then
    let! dst := ib_tail (block_size c) src median new_vcn in
    match ntfs_ib_write s c dst with
    | (_, Fault) => Fault
    | (s, Fail _) => Ret (s, STATUS_ERROR)
    | (s, Ret _) => Ret (s, STATUS_OK)
    end
  else Ret (s, STATUS_ERROR).

(** index.c:1067-1091 ntfs_ib_cut_tail. The block is changed in place. *)
Definition ntfs_ib_cut_tail (s : St) (c : ntfs_index_context) (ib : bytes) (ie : Z) : outcome (St * bytes * status) :=
  let! ib := ib_head ib ie in
  match ntfs_ib_write s c ib with
  | (_, Fault) => Fault
  | (s, Fail _) => Ret (s, ib, STATUS_ERROR)
  | (s, Ret _) => Ret (s, ib, STATUS_OK)
  end.

(** What the splitting of a block does: the block is changed in place. *)
Definition split_fun := St -> ntfs_index_context -> bytes -> outcome (St * ntfs_index_context * bytes * status).

(** index.c:1367-1405 ntfs_ib_insert. [ie] has the bytes of the entry from its start on. *)
Definition ntfs_ib_insert (ntfs_ib_split : split_fun) (s : St) (c : ntfs_index_context) (ie : bytes) (new_vcn : Z)
  : outcome (St * ntfs_index_context * status) :=
  if negb memory then Ret (s, c, STATUS_ERROR)
  else
    let! old_vcn := ntfs_icx_parent_vcn c in
    match ntfs_ib_read s c old_vcn with
    | Fault => Fault
    | Fail _ => Ret (s, c, STATUS_ERROR)
    | Ret ib =>
      let! idx_size := index_length ib BLOCK_INDEX in
      let! asz := allocated_size ib BLOCK_INDEX in
      let! l := ie_length ie 0 in
      if asz <? u32 (idx_size + l + 8) then
        let! (s, c, _, err) := ntfs_ib_split s c ib in
        Ret (s, c, match err with STATUS_OK => STATUS_KEEP_SEARCHING | e => e end)
      else
        let! pos := ntfs_icx_parent_pos c in
        let! ib := ntfs_ih_insert past ib BLOCK_INDEX ie new_vcn pos in
        match ntfs_ib_write s c ib with
        | (_, Fault) => Fault
        | (s, Fail _) => Ret (s, c, STATUS_ERROR)
        | (s, Ret _) => Ret (s, c, STATUS_OK)
        end
    end.

(** index.c:1413-1447 ntfs_ib_split. Every call goes up a level. *)
Fixpoint ntfs_ib_split (fuel : nat) (s : St) (c : ntfs_index_context) (ib : bytes) : outcome (St * ntfs_index_context * bytes * status) :=
  match fuel with
  | O => Fault
  | S fuel' =>
    match ntfs_icx_parent_dec c with
    | (c, Some _) => Ret (s, c, ib, STATUS_ERROR)
    | (c, None) =>
      let! median := ntfs_ie_get_median ib BLOCK_INDEX in
      match ntfs_ibm_get_free s c with
      | (_, Fault) => Fault
      | (s, Fail _) | (s, Ret None) => Ret (s, c, ib, STATUS_ERROR)
      | (s, Ret (Some new_vcn)) =>
        let! (s, ret) := ntfs_ib_copy_tail s c ib median new_vcn in
        match ret with
        | STATUS_OK =>
          let! parent := ntfs_icx_parent_vcn c in
          let entry := drop (Z.to_nat median) ib in
          let! (s, c, ret) :=
            (if parent =? VCN_INDEX_ROOT_PARENT then
               let! (s, ret) := ntfs_ir_insert_median s c entry new_vcn in Ret (s, c, ret)
             else ntfs_ib_insert (ntfs_ib_split fuel') s c entry new_vcn) in
          match ret with
          | STATUS_OK => let! (s, ib, ret) := ntfs_ib_cut_tail s c ib median in Ret (s, c, ib, ret)
          | ret => let! s := undo (ntfs_ibm_clear s c new_vcn) in Ret (s, c, ib, ret)
          end
        | _ => let! s := undo (ntfs_ibm_clear s c new_vcn) in Ret (s, c, ib, STATUS_ERROR)
        end
      end
    end
  end.

(** ** Adding *)

(** index.c:142-161 ntfs_index_ctx_free *)
Definition ntfs_index_ctx_free (s : St) (c : ntfs_index_context) : outcome (St * ntfs_index_context) :=
  match entry c with
  | None => Ret (s, c)
  | Some _ =>
    if is_in_root c then Ret (s, c)
    else
      match ib c with
      | None => Fault
      | Some b =>
        let! s := (if ib_dirty c then undo (ntfs_ib_write s c b) else Ret s) in
        Ret (s, set_entry (entry c) false None c)
      end
  end.

(** index.c:169-173 ntfs_index_ctx_put *)
Definition ntfs_index_ctx_put (s : St) (c : ntfs_index_context) : outcome St := let! (s, _) := ntfs_index_ctx_free s c in Ret s.
(** index.c:181-191 ntfs_index_ctx_reinit. The assignments keep the values. *)
Definition ntfs_index_ctx_reinit (s : St) (c : ntfs_index_context) : outcome (St * ntfs_index_context) := ntfs_index_ctx_free s c.

Context (get_collate : Z -> option COLLATE) (cluster_size cluster_size_bits : Z).

(** index.c:1475-1478 ntfs_ie_add. The node that the context is in, and its header. *)
Definition ctx_node (s : St) (c : ntfs_index_context) : outcome (bytes * Z) :=
  if is_in_root c then let! ir := ir_get s in Ret (ir, ROOT_INDEX)
  else match ib c with Some b => Ret (b, BLOCK_INDEX) | None => Fault end.

(** index.c:1450-1510 ntfs_ie_add. [fuel]: the rounds. [None]: success, otherwise the
    error, EUNSET for one of a function below. *)
Fixpoint ntfs_ie_add (fuel : nat) (s : St) (c : ntfs_index_context) (ie : bytes) : outcome (St * ntfs_index_context * option errno_t) :=
  match fuel with
  | O => Fault
  | S fuel' =>
    let! kl := ie_key_length ie 0 in
    let! (c, err) := ntfs_index_lookup memory get_collate cluster_size cluster_size_bits s c (drop 16 ie) kl in
    match err with
    | None => Ret (s, c, Some EEXIST)
    | Some e =>
      if decide (e = ENOENT) then
        let! (b, h) := ctx_node s c in
        let! asz := allocated_size b h in
        let! il := index_length b h in
        let! l := ie_length ie 0 in
        let new_size := s32 (il + l) in
        if new_size <=? s32 asz then
          match entry c with
          | None => Fault
          | Some e =>
            let! b := ntfs_ie_insert b h ie e in
            if is_in_root c then Ret (ir_put s b, c, None)
            else Ret (s, set_dirty true (set_entry (entry c) false (Some b) c), None)
          end
        else
          let! (s, c, ret) :=
            (if is_in_root c then let! (s, ret) := ntfs_ir_make_space s c new_size in Ret (s, c, ret)
             else let! (s, c, b, ret) := ntfs_ib_split (S (Z.to_nat MAX_PARENT_VCN)) s c b in Ret (s, set_entry (entry c) false (Some b) c, ret)) in
          match ret with
          | STATUS_ERROR => Ret (s, c, Some EUNSET)
          | _ => let! (s, c) := ntfs_index_ctx_reinit s c in ntfs_ie_add fuel' s c ie
          end
      else Ret (s, c, Some e)
    end
  end.

(** index.c:1534-1545 ntfs_index_add_filename. [fn]: the FILE_NAME attribute. *)
Definition filename_entry (fn : bytes) (mref : Z) : outcome bytes :=
  let! nl := rd fn 0x40 in
  let fn_size := nl * 2 + 0x42 in
  let ie_size := Z.land (16 + fn_size + 7) (Z.lnot 7) in
  let ie := replicate (Z.to_nat ie_size) 0 in
  let! ie := put 8 ie 0 mref in
  let! ie := put 2 ie 8 ie_size in
  let! ie := put 2 ie 10 fn_size in
  let! key := rdn fn 0 fn_size in
  wrn ie 16 key.
(** index.c:1520-1558 ntfs_index_add_filename *)
Definition ntfs_index_add_filename (fuel : nat) (s : St) (fn : bytes) (mref : Z) : outcome (St * option errno_t) :=
  if memory then
    let! ie := filename_entry fn mref in
    let! (s, c, err) := ntfs_ie_add fuel s new_context ie in
    let! s := ntfs_index_ctx_put s c in
    Ret (s, err)
  else Ret (s, Some EUNSET).
End Add.
