(* ===== verification/IndexNode.v ===== *)
(** * Index nodes as lists of entries (ntfs/index.c)

    A well-formed node is a header, a row of entries with keys and one without,
    and free space.  The search in a node is the search in the list, inserting
    and deleting an entry are insertion and deletion in the list. *)
From S2P Require Import Prelude Libc Fields Index.

(** ** Entries *)
Definition ent_key (x : bytes) : bytes := match ie_key_length x 0 with Ret n => sub x 16 n | _ => [] end.
Definition ent_vcn (x : bytes) : Z := match ntfs_ie_get_vcn x 0 with Ret v => v | _ => 0 end.

(** An entry of a node that is a leaf or not; the last entry has no key. *)
Record ent_ok (node last : bool) (x : bytes) : Prop := {
  en_size : (if node then 24 else 16) <= zlen x < 2 ^ 15;
  en_bytes : Forall byte_ok x;
  en_length : ie_length x 0 = Ret (zlen x);
  en_flags : exists f, ie_flags x 0 = Ret f /\ (Z.land f INDEX_ENTRY_NODE =? 0) = negb node /\ (Z.land f INDEX_ENTRY_END =? 0) = negb last;
  en_key : last = false -> exists n, ie_key_length x 0 = Ret n /\ 16 + n + (if node then 8 else 0) <= zlen x;
}.

Lemma ent_size16 node last x : ent_ok node last x -> 16 <= zlen x.
Proof. intros H. pose proof (en_size _ _ _ H). destruct node; lia. Qed.

Section Mid.
Context (p x q : bytes) (Hx : 16 <= zlen x).

Lemma ie_length_mid : ie_length (p ++ x ++ q) (zlen p) = ie_length x 0.
Proof using Hx. unfold ie_length. apply rd_le_app_mid; lia. Qed.
Lemma ie_key_length_mid : ie_key_length (p ++ x ++ q) (zlen p) = ie_key_length x 0.
Proof using Hx. unfold ie_key_length. apply rd_le_app_mid; lia. Qed.
Lemma ie_flags_mid : ie_flags (p ++ x ++ q) (zlen p) = ie_flags x 0.
Proof using Hx. unfold ie_flags. apply rd_le_app_mid; lia. Qed.
End Mid.

Section Entry.
Context (node last : bool) (x : bytes) (H : ent_ok node last x).

Lemma ent_end p q : ntfs_ie_end (p ++ x ++ q) (zlen p) = Ret last.
Proof using H.
  pose proof (ent_size16 _ _ _ H) as Hs. destruct (en_flags _ _ _ H) as (f & Ef & _ & El). unfold ntfs_ie_end.
  rewrite ie_flags_mid, Ef by lia. cbn [obind]. rewrite El. destruct last; cbn [negb]; [done|].
  rewrite ie_length_mid, (en_length _ _ _ H) by lia. cbn [obind]. by destruct (Z.eqb_spec (zlen x) 0); [lia|].
Qed.

Lemma ent_next p q : ntfs_ie_get_next (p ++ x ++ q) (zlen p) = Ret (zlen (p ++ x)).
Proof using H.
  pose proof (ent_size16 _ _ _ H). unfold ntfs_ie_get_next. rewrite ie_length_mid, (en_length _ _ _ H) by lia. cbn [obind]. by rewrite zlen_app.
Qed.

Lemma ent_vcn_mid p q : node = true -> ntfs_ie_get_vcn (p ++ x ++ q) (zlen p) = Ret (ent_vcn x).
Proof using H.
  intros ->. pose proof (en_size _ _ _ H) as Hs. unfold ntfs_ie_get_vcn, ntfs_ie_get_vcn_addr. rewrite ie_length_mid, (en_length _ _ _ H) by lia.
  cbn [obind]. unfold ent_vcn, ntfs_ie_get_vcn, ntfs_ie_get_vcn_addr. rewrite (en_length _ _ _ H). cbn [obind].
  replace (zlen p + zlen x - 8) with (zlen p + (zlen x - 8)) by lia. rewrite rd_le_app_mid by lia.
  replace (0 + zlen x - 8) with (zlen x - 8) by lia.
  destruct (rd_le_range 8 x (zlen x - 8) (en_bytes _ _ _ H)) as (v & -> & _); [lia|lia|done].
Qed.

Lemma ent_node_flag p q : exists f, ie_flags (p ++ x ++ q) (zlen p) = Ret f /\ (Z.land f INDEX_ENTRY_NODE =? 0) = negb node.
Proof using H.
  pose proof (ent_size16 _ _ _ H). destruct (en_flags _ _ _ H) as (f & Ef & En & _). exists f. by rewrite ie_flags_mid by lia.
Qed.

Lemma ent_key_mid p q : last = false ->
  exists rest, ie_key_length (p ++ x ++ q) (zlen p) = Ret (zlen (ent_key x)) /\ drop (Z.to_nat (zlen p + 16)) (p ++ x ++ q) = ent_key x ++ rest.
Proof using H.
  intros Hl. pose proof (ent_size16 _ _ _ H). destruct (en_key _ _ _ H Hl) as (n & En & Hn). rewrite ie_key_length_mid, En by lia.
  destruct (rd_le_range 2 x 10 (en_bytes _ _ _ H)) as (n' & En' & Hr); [lia|lia|]. change (ie_key_length x 0) with (rd_le 2 x 10) in En. rewrite En in En'. injection En' as <-.
  unfold ent_key. change (ie_key_length x 0) with (rd_le 2 x 10). rewrite En. assert (16 + n <= zlen x) as Hfit by (destruct node; lia).
  exists (drop (Z.to_nat (16 + n)) x ++ q). rewrite zlen_sub by lia. split; [done|].
  pose proof (zlen_nonneg p). rewrite drop_app_ge by (unfold zlen in *; lia).
  replace (Z.to_nat (zlen p + 16) - length p)%nat with (Z.to_nat 16) by (unfold zlen; lia).
  rewrite drop_app_le by (unfold zlen in *; lia). rewrite (assoc_L (++)). f_equal. unfold sub.
  rewrite <- (take_drop (Z.to_nat n) (drop (Z.to_nat 16) x)) at 1. rewrite drop_drop. do 2 f_equal. lia.
Qed.
End Entry.

(** ** Nodes *)

(** [pre] and the entries [es] and [le] make up the used part. *)
Record node_ok (node : bool) (b : bytes) (h : Z) (pre : bytes) (es : list bytes) (le tail : bytes) : Prop := {
  no_eq : b = pre ++ concat es ++ le ++ tail;
  no_head : 0 <= h /\ h + 16 <= zlen pre;
  no_first : entries_offset b h = Ret (zlen pre - h);
  no_len : index_length b h = Ret (zlen pre - h + zlen (concat es) + zlen le);
  no_alloc : allocated_size b h = Ret (zlen b - h);
  no_flag : exists f, ih_flags b h = Ret f /\ Z.land f NODE_MASK = (if node then 1 else 0);
  no_entries : Forall (ent_ok node false) es;
  no_last : ent_ok node true le;
  no_bytes : Forall byte_ok b;
  no_small : zlen b < 2 ^ 31;
}.

Section Node.
Context (node : bool) (b : bytes) (h : Z) (pre : bytes) (es : list bytes) (le tail : bytes) (H : node_ok node b h pre es le tail).

Lemma node_first : ntfs_ie_get_first b h = Ret (zlen pre).
Proof using H. unfold ntfs_ie_get_first. rewrite (no_first _ _ _ _ _ _ _ H). cbn [obind]. f_equal. lia. Qed.

Lemma node_end : ntfs_ie_get_end b h = Ret (zlen pre + zlen (concat es) + zlen le).
Proof using H. unfold ntfs_ie_get_end. rewrite (no_len _ _ _ _ _ _ _ H). cbn [obind]. f_equal. lia. Qed.

Lemma node_count : 16 * Z.of_nat (length es) <= zlen (concat es).
Proof using H.
  pose proof (no_entries _ _ _ _ _ _ _ H) as F. clear H. induction F as [|x l Hx Hl IH]; [done|].
  cbn [concat length]. rewrite zlen_app. pose proof (ent_size16 _ _ _ Hx). lia.
Qed.

Lemma node_fuel : (length es < S (length b))%nat.
Proof using H.
  pose proof node_count. rewrite (no_eq _ _ _ _ _ _ _ H). rewrite !length_app. unfold zlen in *. lia.
Qed.
End Node.

(** A node has one reading. *)
Lemma entries_unique node es le tail es' le' tail' :
  Forall (ent_ok node false) es -> ent_ok node true le -> Forall (ent_ok node false) es' -> ent_ok node true le' ->
  concat es ++ le ++ tail = concat es' ++ le' ++ tail' -> es' = es /\ le' = le /\ tail' = tail.
Proof.
  assert (forall l1 l2 x y q r, ent_ok node l1 x -> ent_ok node l2 y -> x ++ q = y ++ r -> l1 = l2 /\ x = y /\ q = r) as Hone.
  { intros l1 l2 x y q r Hx Hy E. pose proof (ent_end node l1 x Hx [] q) as E1. pose proof (ent_end node l2 y Hy [] r) as E2. cbn [app] in E1, E2.
    rewrite E, E2 in E1. injection E1 as E1. split; [done|]. pose proof (ie_length_mid [] x q (ent_size16 _ _ _ Hx)) as L1. pose proof (ie_length_mid [] y r (ent_size16 _ _ _ Hy)) as L2.
    cbn [app] in L1, L2. rewrite E, L2, (en_length _ _ _ Hx), (en_length _ _ _ Hy) in L1. injection L1 as L1.
    apply app_inj_1; [unfold zlen in L1; lia|done]. }
  intros F Hle F' Hle'. revert es' F'. induction F as [|x es Hx F IH]; intros es' F' E; destruct F' as [|y es' Hy F']; cbn [concat app] in E; rewrite <- ?(assoc_L (++) x), <- ?(assoc_L (++) y) in E.
  - by destruct (Hone _ _ _ _ _ _ Hle Hle' E) as (_ & -> & ->).
  - by destruct (Hone _ _ _ _ _ _ Hle Hy E).
  - by destruct (Hone _ _ _ _ _ _ Hx Hle' E).
  - destruct (Hone _ _ _ _ _ _ Hx Hy E) as (_ & <- & E'). by destruct (IH es' F' E') as (-> & -> & ->).
Qed.

Lemma node_unique nd b h pre es le tail nd' pre' es' le' tail' :
  node_ok nd b h pre es le tail -> node_ok nd' b h pre' es' le' tail' -> nd' = nd /\ pre' = pre /\ es' = es /\ le' = le /\ tail' = tail.
Proof.
  intros H H'. assert (nd' = nd) as ->.
  { destruct (no_flag _ _ _ _ _ _ _ H) as (f & E & Hf). destruct (no_flag _ _ _ _ _ _ _ H') as (f' & E' & Hf'). rewrite E in E'. injection E' as <-. rewrite Hf in Hf'. by destruct nd, nd'. }
  pose proof (no_first _ _ _ _ _ _ _ H) as E1. rewrite (no_first _ _ _ _ _ _ _ H') in E1. injection E1 as E1.
  pose proof (no_eq _ _ _ _ _ _ _ H) as E. rewrite (no_eq _ _ _ _ _ _ _ H') in E. apply app_inj_1 in E as [-> E]; [|unfold zlen in E1; lia].
  split; [done|]. split; [done|]. apply (entries_unique nd); try done; first [apply (no_entries _ _ _ _ _ _ _ H)|apply (no_last _ _ _ _ _ _ _ H)|apply (no_entries _ _ _ _ _ _ _ H')|apply (no_last _ _ _ _ _ _ _ H')].
Qed.

(** An entry of a node, by what is before it. *)
Lemma node_split node b h pre es1 es2 le tail :
  node_ok node b h pre (es1 ++ es2) le tail -> b = (pre ++ concat es1) ++ concat es2 ++ le ++ tail.
Proof. intros H. rewrite (no_eq _ _ _ _ _ _ _ H), concat_app. by rewrite <- !(assoc_L (++)). Qed.

Lemma by_pos_ok node es1 p es2 rest :
  Forall (ent_ok node false) es1 -> by_pos (length es1) (p ++ concat es1 ++ concat es2 ++ rest) (zlen p) = Ret (zlen (p ++ concat es1)).
Proof.
  intros F. revert p. induction F as [|x l Hx Hl IH]; intros p; cbn [length by_pos concat]; [by rewrite app_nil_r|].
  rewrite <- (assoc_L (++) x). rewrite (ent_next node false x Hx). cbn [obind]. rewrite (assoc_L (++) p x), IH. by rewrite <- (assoc_L (++) p x).
Qed.

(** ** Orders of keys

    What a collation function promises: on valid keys it computes a total
    order, whatever bytes follow the keys in memory. *)
Class key_order (f : COLLATE) := {
  key_valid : bytes -> Prop;
  key_cmp : bytes -> bytes -> Z;
  key_eval : forall k junk x rest, key_valid k -> key_valid x -> f (k ++ junk) (zlen k) (x ++ rest) (zlen x) = Ret (key_cmp k x);
  key_range : forall k x, key_valid k -> key_valid x -> -1 <= key_cmp k x <= 1;
  key_antisym : forall k x, key_valid k -> key_valid x -> key_cmp k x = - key_cmp x k;
  key_trans : forall k x y, key_valid k -> key_valid x -> key_valid y -> key_cmp k x <= 0 -> key_cmp x y <= 0 -> key_cmp k y <= 0;
}.

Section Search.
Context {f : COLLATE} {ord : key_order f} (junk : bytes).

Lemma key_lt_trans k x y : key_valid k -> key_valid x -> key_valid y -> key_cmp k x < 0 -> key_cmp x y <= 0 -> key_cmp k y < 0.
Proof using.
  intros Vk Vx Vy Hkx Hxy. pose proof (key_trans k x y Vk Vx Vy ltac:(lia) Hxy). destruct (Z.eq_dec (key_cmp k y) 0) as [E|]; [|lia].
  pose proof (key_trans x y k Vx Vy Vk Hxy) as Ht. rewrite (key_antisym y k Vy Vk), E in Ht. rewrite (key_antisym x k Vx Vk) in Ht. lia.
Qed.

Definition ent_cmp (key x : bytes) : Z := key_cmp key (ent_key x).

Lemma ie_loop_ok node key es p le tail index_end fuel item :
  key_valid key -> Forall (fun x => key_valid (ent_key x)) es -> Forall (ent_ok node false) es -> ent_ok node true le ->
  index_end = zlen p + zlen (concat es) + zlen le -> (length es < fuel)%nat ->
  exists es1 es2, es = es1 ++ es2 /\ Forall (fun x => 0 < ent_cmp key x) es1 /\
    match es2 with x :: _ => ent_cmp key x <= 0 | [] => True end /\
    ie_loop fuel (Some f) (key ++ junk) (zlen key) (p ++ concat es ++ le ++ tail) index_end (zlen p) item =
      Ret (match es2 with x :: _ => ent_cmp key x =? 0 | [] => false end, zlen (p ++ concat es1), item + Z.of_nat (length es1)).
Proof using.
  intros Vk Vs F Hle -> Hf. revert p item fuel Hf. induction F as [|x l Hx Hl IH]; intros p item fuel Hf; (destruct fuel as [|fuel]; [cbn in Hf; lia|]).
  - exists [], []. split; [done|]. split; [constructor|]. split; [done|]. cbn [concat app ie_loop length]. pose proof (ent_size16 _ _ _ Hle).
    change (zlen (@nil Z)) with 0. destruct (Z.ltb_spec (zlen p + 0 + zlen le) (zlen p + 16)); [lia|].
    rewrite ie_length_mid, (en_length _ _ _ Hle) by lia. cbn [obind]. destruct (Z.ltb_spec (zlen p + 0 + zlen le) (zlen p + zlen le)); [lia|].
    rewrite (ent_end node true le Hle). cbn [obind]. rewrite app_nil_r. do 3 f_equal. lia.
  - apply Forall_cons in Vs as [Vx Vs]. cbn [concat]. rewrite <- (assoc_L (++) x). set (q := concat l ++ le ++ tail). pose proof (ent_size16 _ _ _ Hx).
    pose proof (zlen_nonneg (concat l)). pose proof (ent_size16 _ _ _ Hle). cbn [ie_loop]. rewrite zlen_app.
    destruct (Z.ltb_spec (zlen p + (zlen x + zlen (concat l)) + zlen le) (zlen p + 16)); [lia|].
    rewrite ie_length_mid, (en_length _ _ _ Hx) by lia. cbn [obind].
    destruct (Z.ltb_spec (zlen p + (zlen x + zlen (concat l)) + zlen le) (zlen p + zlen x)); [lia|].
    rewrite (ent_end node false x Hx). cbn [obind]. destruct (ent_key_mid node false x Hx p q eq_refl) as (rest & -> & ->). cbn [obind].
    rewrite key_eval by done. cbn [obind]. pose proof (key_range key (ent_key x) Vk Vx) as Hr. fold (ent_cmp key x) in Hr |- *.
    unfold NTFS_COLLATION_ERROR. destruct (Z.eqb_spec (ent_cmp key x) (-2)); [lia|].
    destruct (Z.eqb_spec (ent_cmp key x) (-1)) as [E|].
    { exists [], (x :: l). split; [done|]. split; [constructor|]. rewrite E. split; [lia|]. cbn [concat app length]. rewrite app_nil_r. do 3 f_equal. lia. }
    destruct (Z.eqb_spec (ent_cmp key x) 0) as [E|].
    { exists [], (x :: l). split; [done|]. split; [constructor|]. rewrite E. split; [lia|]. cbn [concat app length]. rewrite app_nil_r. do 3 f_equal. lia. }
    rewrite (ent_next node false x Hx). cbn [obind]. destruct (IH Vs (p ++ x) (item + 1) fuel) as (es1 & es2 & -> & F1 & Hx2 & E); [cbn in Hf; lia|].
    exists (x :: es1), es2. split; [done|]. split; [constructor; [lia|done]|]. split; [done|].
    rewrite <- (assoc_L (++) p x), zlen_app in E. fold q in E. replace (zlen p + (zlen x + zlen (concat (es1 ++ es2))) + zlen le) with (zlen p + zlen x + zlen (concat (es1 ++ es2)) + zlen le) by lia.
    rewrite zlen_app. rewrite E. cbn [concat length]. f_equal. f_equal; [by rewrite (assoc_L (++) p x)|lia].
Qed.

(** [ntfs_ie_lookup] finds the first entry whose key is not smaller. *)
Lemma ie_lookup_ok node b h pre es le tail key :
  node_ok node b h pre es le tail -> key_valid key -> Forall (fun x => key_valid (ent_key x)) es -> Forall (fun x => 0 <= ent_vcn x) (if node then es ++ [le] else []) ->
  exists es1 es2, es = es1 ++ es2 /\ Forall (fun x => 0 < ent_cmp key x) es1 /\
    match es2 with x :: _ => ent_cmp key x <= 0 | [] => True end /\
    ntfs_ie_lookup (Some f) (key ++ junk) (zlen key) b h =
      Ret (if match es2 with x :: _ => ent_cmp key x =? 0 | [] => false end
           then IeFound (zlen (pre ++ concat es1)) (Z.of_nat (length es1))
           else if node then IeChild (ent_vcn (match es2 with x :: _ => x | [] => le end)) (Z.of_nat (length es1))
           else IeMissing (zlen (pre ++ concat es1))).
Proof using.
  intros H Vk Vs Hv. pose proof (no_eq _ _ _ _ _ _ _ H) as Eb.
  destruct (ie_loop_ok node key es pre le tail (zlen pre + zlen (concat es) + zlen le) (S (length b)) 0 Vk Vs (no_entries _ _ _ _ _ _ _ H) (no_last _ _ _ _ _ _ _ H) eq_refl)
    as (es1 & es2 & -> & F1 & H2 & E); [apply (node_fuel _ _ _ _ _ _ _ H)|].
  exists es1, es2. split; [done|]. split; [done|]. split; [done|]. unfold ntfs_ie_lookup. rewrite (node_end _ _ _ _ _ _ _ H), (node_first _ _ _ _ _ _ _ H). cbn [obind].
  rewrite <- Eb in E. rewrite E. cbn [obind]. destruct (match es2 with x :: _ => _ | [] => false end); [done|].
  set (x := match es2 with x :: _ => x | [] => le end).
  assert (exists last, ent_ok node last x) as [last Hx].
  { unfold x. pose proof (no_entries _ _ _ _ _ _ _ H) as F. apply Forall_app in F as [_ F]. destruct es2 as [|y l]; [exists true; apply (no_last _ _ _ _ _ _ _ H)|].
    exists false. by apply Forall_cons in F as [? _]. }
  assert (exists q, b = (pre ++ concat es1) ++ x ++ q) as [q Ebx].
  { rewrite (node_split _ _ _ _ _ _ _ _ H). unfold x. destruct es2 as [|y l]; [by exists tail|]. exists (concat l ++ le ++ tail). cbn [concat]. by rewrite <- (assoc_L (++) y). }
  destruct (ent_node_flag node last x Hx (pre ++ concat es1) q) as (g & Eg & Hg). rewrite <- Ebx in Eg. rewrite Eg. cbn [obind]. rewrite Hg.
  destruct node; cbn [negb]; [|done]. pose proof (ent_vcn_mid true last x Hx (pre ++ concat es1) q eq_refl) as Ev. rewrite <- Ebx in Ev. rewrite Ev. cbn [obind].
  destruct (Z.ltb_spec (ent_vcn x) 0) as [Hneg|]; [|done]. exfalso. rewrite Forall_forall in Hv.
  assert (x ∈ (es1 ++ es2) ++ [le]) as Hin by (unfold x; rewrite !elem_of_app; destruct es2; [right; by apply list_elem_of_singleton|left; right; apply elem_of_cons; by left]). specialize (Hv x Hin). cbn in Hv. lia.
Qed.
End Search.
