(* ===== verification/IndexTree.v ===== *)
(** * Index trees: searching (ntfs/index.c)

    A tree of well-formed nodes stands for the list of its keys in order.
    [ntfs_index_lookup] finds a key exactly when the list has it, and otherwise
    ends in the leaf, and there in front of the entry, where the key belongs. *)
From stdpp Require Import sorting.
From S2P Require Import Prelude Libc Fields Index IndexNode.

(** The keys of a node between those of its children. *)
Fixpoint weave {A} (seps : list A) (subs : list (list A)) : list A :=
  match subs, seps with
  | s :: subs', k :: seps' => s ++ k :: weave seps' subs'
  | s :: _, [] => s
  | [], _ => []
  end.

(** The keys before and after the [j]-th child. *)
Definition weave_left {A} (seps : list A) (subs : list (list A)) : list A := concat (zip_with (fun s k => s ++ [k]) subs seps).
Definition weave_right {A} (seps : list A) (subs : list (list A)) : list A :=
  match seps with [] => [] | k :: seps' => k :: weave seps' subs end.

Lemma weave_at {A} (s1 s2 : list A) (t1 : list (list A)) t t2 :
  length t1 = length s1 -> weave (s1 ++ s2) (t1 ++ t :: t2) = weave_left s1 t1 ++ t ++ weave_right s2 t2.
Proof.
  revert s1. induction t1 as [|u t1 IH]; intros [|k s1] Hl; try done; cbn [app weave].
  - destruct s2; cbn [weave_right]; [by rewrite app_nil_r|done].
  - unfold weave_left. cbn [zip_with concat]. fold (weave_left s1 t1). rewrite IH by (cbn in Hl; lia). by rewrite <- !(assoc_L (++)).
Qed.

Lemma weave_seps {A} (seps : list A) (subs : list (list A)) k : length subs = S (length seps) -> k ∈ seps -> k ∈ weave seps subs.
Proof.
  revert seps. induction subs as [|t subs IH]; intros [|x seps] Hl Hk; try done; [by apply elem_of_nil in Hk|]. cbn [weave].
  apply elem_of_app. right. apply elem_of_cons. apply elem_of_cons in Hk as [->|Hk]; [by left|right]. apply IH; [cbn in Hl; lia|done].
Qed.

(** A separator is the last key on the left of the next child. *)
Lemma weave_left_snoc {A} (s1 : list A) k (t1 : list (list A)) :
  length t1 = length (s1 ++ [k]) -> exists l, weave_left (s1 ++ [k]) t1 = l ++ [k].
Proof.
  revert t1. induction s1 as [|x s1 IH]; intros [|u t1] Hl; try done.
  - destruct t1; [|done]. exists u. unfold weave_left. cbn. by rewrite app_nil_r.
  - destruct (IH t1) as [l E]; [cbn in *; lia|]. exists (u ++ x :: l). unfold weave_left in *. cbn [app zip_with concat]. rewrite E. by rewrite <- !(assoc_L (++)).
Qed.

Section Tree.
Context {f : COLLATE} {ord : key_order f}.

(** The vcns of the blocks below the entries of a node. *)
Definition kids_vcns (es : list bytes) (subs : list (list bytes * list Z)) : list Z :=
  concat (zip_with (fun x sub => ent_vcn x :: sub.2) es subs).

Lemma kids_vcns_app es1 es2 t1 t2 : length es1 = length t1 -> kids_vcns (es1 ++ es2) (t1 ++ t2) = kids_vcns es1 t1 ++ kids_vcns es2 t2.
Proof using.
  clear f ord. revert t1. induction es1 as [|x es1 IH]; intros [|t t1] Hl; try done.
  unfold kids_vcns in *. cbn [app zip_with concat]. rewrite IH by (cbn in Hl; lia). cbn [app]. by rewrite <- (assoc_L (++)).
Qed.

(** A tree of depth [d] below the node at [h] of [b], for the blocks [rdb]: its keys
    and the vcns of its blocks. *)
Fixpoint tree_at (rdb : Z -> outcome bytes) (d : nat) (b : bytes) (h : Z) (ks : list bytes) (vs : list Z) : Prop :=
  match d with
  | O => exists pre es le tail, node_ok false b h pre es le tail /\ ks = map ent_key es /\ vs = []
  | S d' => exists pre es le tail subs, node_ok true b h pre es le tail /\
      Forall2 (fun x sub => 0 <= ent_vcn x /\ exists blk, rdb (ent_vcn x) = Ret blk /\ tree_at rdb d' blk BLOCK_INDEX sub.1 sub.2) (es ++ [le]) subs /\
      ks = weave (map ent_key es) (map fst subs) /\ vs = kids_vcns (es ++ [le]) subs
  end.

Definition key_lt (k x : bytes) : Prop := key_cmp k x < 0.
Definition keys_ok (ks : list bytes) : Prop := Forall key_valid ks /\ StronglySorted key_lt ks.

Lemma keys_ok_mid l m r : keys_ok (l ++ m ++ r) -> keys_ok m.
Proof using.
  intros [Hv Hs]. apply Forall_app in Hv as [_ Hv]. apply Forall_app in Hv as [Hv _]. split; [done|].
  by apply StronglySorted_app_1_r, StronglySorted_app_1_l in Hs.
Qed.

(** The blocks of other trees do not matter. *)
Lemma tree_at_ext rdb rdb' d b h ks vs : (forall v, v ∈ vs -> rdb' v = rdb v) -> tree_at rdb d b h ks vs -> tree_at rdb' d b h ks vs.
Proof using.
  revert b h ks vs. induction d as [|d IH]; intros b h ks vs Hv; cbn [tree_at]; [done|].
  intros (pre & es & le & tail & subs & Hn & HF & Ek & ->). exists pre, es, le, tail, subs. split; [done|]. split; [|done].
  clear Hn Ek. induction HF as [|x sub l subs' (Hx & blk & Eb & Ht) HF' IHF]; [constructor|].
  unfold kids_vcns in Hv. cbn [zip_with concat] in Hv. constructor.
  - split; [done|]. exists blk. split; [rewrite <- Eb; apply Hv; apply elem_of_cons; by left|].
    apply IH; [|done]. intros v Hin. apply Hv, elem_of_cons. right. apply elem_of_app. by left.
  - apply IHF. intros v Hin. apply Hv, elem_of_cons. right. apply elem_of_app. by right.
Qed.

Lemma kids_ext rdb rdb' d es subs :
  (forall v, v ∈ kids_vcns es subs -> rdb' v = rdb v) ->
  Forall2 (fun x sub => 0 <= ent_vcn x /\ exists blk, rdb (ent_vcn x) = Ret blk /\ tree_at rdb d blk BLOCK_INDEX sub.1 sub.2) es subs ->
  Forall2 (fun x sub => 0 <= ent_vcn x /\ exists blk, rdb' (ent_vcn x) = Ret blk /\ tree_at rdb' d blk BLOCK_INDEX sub.1 sub.2) es subs.
Proof using.
  intros Hv HF. induction HF as [|x sub l subs' (Hx & blk & Eb & Ht) HF' IHF]; [constructor|].
  unfold kids_vcns in Hv. cbn [zip_with concat] in Hv. constructor.
  - split; [done|]. exists blk. split; [rewrite <- Eb; apply Hv; apply elem_of_cons; by left|].
    eapply tree_at_ext; [|done]. intros v Hin. apply Hv, elem_of_cons. right. apply elem_of_app. by left.
  - apply IHF. intros v Hin. apply Hv, elem_of_cons. right. apply elem_of_app. by right.
Qed.

Lemma valid_keys es : Forall key_valid (map ent_key es) -> Forall (fun x => key_valid (ent_key x)) es.
Proof using. induction es as [|x es IH]; [constructor|]. intros [? ?]%Forall_cons. constructor; [done|by apply IH]. Qed.

(** In a sorted list, all keys are smaller than a key when the last one is; all are
    greater when the first one is. *)
Lemma keys_below l k key : keys_ok (l ++ [k]) -> key_valid key -> 0 < key_cmp key k -> Forall (fun x => key_lt x key) (l ++ [k]).
Proof using.
  intros [Hv Hs] Vk Hk. apply Forall_app in Hv as [Vl Vx]. apply Forall_cons in Vx as [Vx _].
  assert (key_lt k key) as Hlast by (unfold key_lt; rewrite key_antisym by done; lia). apply Forall_app. split; [|by constructor].
  rewrite Forall_forall in Vl |- *. intros x Hx. pose proof (StronglySorted_app_1_elem_of key_lt l [k] x k Hs Hx ltac:(by apply list_elem_of_singleton)) as Hlt.
  unfold key_lt in *. eapply key_lt_trans; [..|exact Hlt|]; auto; lia.
Qed.

Lemma keys_above k r key : keys_ok (k :: r) -> key_valid key -> key_cmp key k < 0 -> Forall (fun x => key_lt key x) (k :: r).
Proof using.
  intros [Hv Hs] Vk Hk. apply Forall_cons in Hv as [Vx Vr]. apply StronglySorted_inv in Hs as [_ Hx]. constructor; [done|].
  rewrite Forall_forall in *. intros x Hin. unfold key_lt in *. specialize (Hx x Hin). cbn in Hx. eapply key_lt_trans; [..|exact Hk|]; auto; lia.
Qed.

Lemma keys_ok_app l r : keys_ok (l ++ r) -> keys_ok l /\ keys_ok r.
Proof using. intros H. split; [apply (keys_ok_mid [] l r H)|apply (keys_ok_mid l r [])]. by rewrite app_nil_r. Qed.

(** The key lies between what is on both sides of the place that a search gives. *)
Lemma node_bounds es1 es2 key :
  key_valid key -> keys_ok (map ent_key (es1 ++ es2)) -> Forall (fun x => 0 < ent_cmp key x) es1 -> match es2 with x :: _ => ent_cmp key x < 0 | [] => True end ->
  Forall (fun k => key_lt k key) (map ent_key es1) /\ Forall (fun k => key_lt key k) (map ent_key es2).
Proof using.
  intros Vk Hk H1 H2. rewrite map_app in Hk. apply keys_ok_app in Hk as [Hk1 Hk2]. split.
  - destruct es1 as [|x0 es0 _] using rev_ind; [constructor|]. rewrite map_app in *. cbn [map] in *. apply Forall_app in H1 as [_ H1].
    apply Forall_cons in H1 as [H1 _]. by apply keys_below.
  - destruct es2 as [|x es2]; [constructor|]. cbn [map] in *. by apply keys_above.
Qed.

Lemma child_bounds es1 es2 t1 t2 (t : list bytes) key :
  length t1 = length es1 -> key_valid key -> keys_ok (weave_left (map ent_key es1) t1 ++ t ++ weave_right (map ent_key es2) t2) ->
  Forall (fun x => 0 < ent_cmp key x) es1 -> match es2 with x :: _ => ent_cmp key x < 0 | [] => True end ->
  Forall (fun k => key_lt k key) (weave_left (map ent_key es1) t1) /\ Forall (fun k => key_lt key k) (weave_right (map ent_key es2) t2).
Proof using.
  intros Hl Vk Hk H1 H2. apply keys_ok_app in Hk as [Hk1 Hk2]. apply keys_ok_app in Hk2 as [_ Hk2]. split.
  - destruct es1 as [|x0 es0 _] using rev_ind; [by destruct t1|]. rewrite map_app in *. cbn [map] in *.
    destruct (weave_left_snoc (map ent_key es0) (ent_key x0) t1) as [l E]; [rewrite length_app, length_map; by rewrite length_app in Hl|].
    rewrite E in *. apply Forall_app in H1 as [_ H1]. apply Forall_cons in H1 as [H1 _]. by apply keys_below.
  - destruct es2 as [|x es2]; [constructor|]. cbn [map weave_right] in *. by apply keys_above.
Qed.

(** Whether a list has a key. *)
Definition present (key : bytes) (ks : list bytes) : Prop := exists k, k ∈ ks /\ key_cmp key k = 0.

Lemma present_between key l m r :
  key_valid key -> Forall key_valid (l ++ m ++ r) -> Forall (fun k => key_lt k key) l -> Forall (fun k => key_lt key k) r ->
  present key (l ++ m ++ r) <-> present key m.
Proof using.
  intros Vk Hv Hl Hr. rewrite !Forall_app in Hv. destruct Hv as (Vl & _ & Vr). unfold present. split.
  - intros (k & Hk & E). apply elem_of_app in Hk as [Hk|[Hk|Hk]%elem_of_app]; [|by exists k|].
    + rewrite Forall_forall in Hl, Vl. specialize (Hl k Hk). specialize (Vl k Hk). unfold key_lt in Hl. cbn in Hl. rewrite key_antisym in Hl by done. lia.
    + rewrite Forall_forall in Hr. specialize (Hr k Hk). unfold key_lt in Hr. cbn in Hr. lia.
  - intros (k & Hk & E). exists k. split; [|done]. rewrite !elem_of_app. naive_solver.
Qed.

(** The blocks with one replaced. *)
Definition rd_upd (rdb : Z -> outcome bytes) (v : Z) (b : bytes) (w : Z) : outcome bytes := if w =? v then Ret b else rdb w.

(** A child of a node can be replaced. *)
Lemma replace_child rdb d b h pre es1 e es2 le tail t1 ks vs ks' t2 v blk' b'' lst :
  node_ok true b h pre (es1 ++ lst) le tail -> lst ++ [le] = e :: es2 -> length t1 = length es1 ->
  let subs := t1 ++ (ks, vs) :: t2 in
  Forall2 (fun x sub => 0 <= ent_vcn x /\ exists blk, rdb (ent_vcn x) = Ret blk /\ tree_at rdb d blk BLOCK_INDEX sub.1 sub.2) (es1 ++ e :: es2) subs ->
  NoDup (kids_vcns (es1 ++ e :: es2) subs) -> v ∈ ent_vcn e :: vs ->
  rd_upd rdb v b'' (ent_vcn e) = Ret blk' -> tree_at (rd_upd rdb v b'') d blk' BLOCK_INDEX ks' vs ->
  tree_at (rd_upd rdb v b'') (S d) b h
    (weave_left (map ent_key es1) (map fst t1) ++ ks' ++ weave_right (map ent_key lst) (map fst t2)) (kids_vcns (es1 ++ e :: es2) subs).
Proof using.
  intros Hn El Hl subs HF Hnd Hv Eb Ht. cbn [tree_at]. exists pre, (es1 ++ lst), le, tail, (t1 ++ (ks', vs) :: t2).
  rewrite <- (assoc_L (++)), El. unfold subs in *. rewrite !kids_vcns_app in * by done. unfold kids_vcns at 2 in Hnd. cbn [zip_with concat] in Hnd.
  fold (kids_vcns es2 t2) in Hnd. cbn [snd] in Hnd.
  assert (forall w, w ∈ kids_vcns es1 t1 -> rd_upd rdb v b'' w = rdb w) as H1.
  { intros w Hw. unfold rd_upd. destruct (Z.eqb_spec w v) as [->|]; [|done]. exfalso. apply NoDup_app in Hnd as (_ & Hd & _). apply (Hd v Hw).
    apply elem_of_app. by left. }
  assert (forall w, w ∈ kids_vcns es2 t2 -> rd_upd rdb v b'' w = rdb w) as H2.
  { intros w Hw. unfold rd_upd. destruct (Z.eqb_spec w v) as [->|]; [|done]. exfalso. apply NoDup_app in Hnd as (_ & _ & Hnd).
    apply NoDup_app in Hnd as (_ & Hd & _). by apply (Hd v). }
  apply Forall2_app_inv in HF; [|done]. destruct HF as [HF1 HF2]. inversion HF2 as [|? ? ? ? [He _] HF3]; subst.
  split; [done|]. split; [|split].
  - apply Forall2_app; [by eapply kids_ext|]. constructor; [|by eapply kids_ext]. split; [done|]. by exists blk'.
  - rewrite !map_app. cbn [map fst]. rewrite weave_at by (by rewrite !length_map). done.
  - reflexivity.
Qed.
End Tree.

(** ** The descent *)
Section Descend.
Context {f : COLLATE} {ord : key_order f} {St : Type} {attrs : index_attrs St}.
Context (s : St) (bs bits : Z) (junk : bytes).

(** The blocks of the index. *)
Definition blocks (v : Z) : outcome bytes := ntfs_ib_read s (set_params None bs bits new_context) v.

(** A context that is searched with. *)
Record ctx_ok (c : ntfs_index_context) : Prop := {
  cx_pos : zlen (parent_pos c) = 32;
  cx_vcn : zlen (parent_vcn c) = 32;
  cx_index : 0 <= pindex c;
  cx_collate : collate c = Some f;
  cx_size : block_size c = bs;
  cx_bits : vcn_size_bits c = bits;
}.

Lemma ib_read_blocks c v : ctx_ok c -> ntfs_ib_read s c v = blocks v.
Proof using. intros H. unfold blocks, ntfs_ib_read, ntfs_ib_vcn_to_pos. rewrite (cx_size _ H), (cx_bits _ H). done. Qed.

(** Two contexts with the same parents above a level. *)
Definition same_above (i : Z) (c c' : ntfs_index_context) : Prop :=
  forall j, j < i -> rd (parent_vcn c') j = rd (parent_vcn c) j /\ rd (parent_pos c') j = rd (parent_pos c) j.

Lemma same_above_trans i j c c' c'' : i <= j -> same_above i c c' -> same_above j c' c'' -> same_above i c c''.
Proof using. intros Hij H1 H2 k Hk. destruct (H1 k Hk) as [<- <-]. apply H2. lia. Qed.

Lemma rd_insert_other {A} (l : list A) i j v : 0 <= i -> j <> i -> rd (<[Z.to_nat i := v]> l) j = rd l j.
Proof using. intros Hi Hj. unfold rd. destruct (Z.ltb_spec j 0); [done|]. by rewrite list_lookup_insert_ne by lia. Qed.

Lemma store_pos_ok c i : ctx_ok c -> pindex c < 32 ->
  exists c', store_pos c i = Ret c' /\ ctx_ok c' /\ pindex c' = pindex c /\ parent_vcn c' = parent_vcn c /\ ib c' = ib c /\
    rd (parent_pos c') (pindex c) = Ret i /\ same_above (pindex c) c c'.
Proof using.
  intros H Hi. pose proof (cx_index _ H). unfold store_pos. rewrite wr_ok by (rewrite (cx_pos _ H); lia). cbn [obind]. eexists. split; [done|].
  split; [destruct H; constructor; try done; cbn; by rewrite zlen_insert|]. do 3 (split; [done|]). split.
  - cbn. apply rd_lookup. split; [lia|]. apply list_lookup_insert_eq. pose proof (cx_pos _ H). unfold zlen in *. lia.
  - intros j Hj. cbn. split; [done|]. apply rd_insert_other; lia.
Qed.

Lemma store_vcn_ok c v : ctx_ok c -> pindex c < 32 ->
  exists c', store_vcn c v = Ret c' /\ ctx_ok c' /\ pindex c' = pindex c /\ rd (parent_vcn c') (pindex c) = Ret v /\ ib c' = ib c /\
    parent_pos c' = parent_pos c /\ same_above (pindex c) c c'.
Proof using.
  intros H Hi. pose proof (cx_index _ H). unfold store_vcn. rewrite wr_ok by (rewrite (cx_vcn _ H); lia). cbn [obind]. eexists. split; [done|].
  split; [|split; [done|split; [|split; [done|split; [done|]]]]].
  - destruct H. constructor; try done. cbn. by rewrite zlen_insert.
  - cbn. apply rd_lookup. split; [lia|]. apply list_lookup_insert_eq. pose proof (cx_vcn _ H). unfold zlen in *. lia.
  - intros j Hj. cbn. split; [|done]. apply rd_insert_other; lia.
Qed.

(** The key was found: the entry in the context has it. *)
Definition found_at (b : bytes) (h : Z) (c : ntfs_index_context) (key : bytes) (ks : list bytes) : Prop :=
  exists node pre es1 x es2 le tail, node_ok node b h pre (es1 ++ x :: es2) le tail /\
    entry c = Some (zlen (pre ++ concat es1)) /\ ent_cmp key x = 0 /\ ent_key x ∈ ks.

(** It was not: the context has the place in a leaf where it belongs. *)
Definition place_at (b : bytes) (h : Z) (c : ntfs_index_context) (key : bytes) (l r : list bytes) (ks : list bytes) : Prop :=
  exists pre es1 es2 le tail, node_ok false b h pre (es1 ++ es2) le tail /\ entry c = Some (zlen (pre ++ concat es1)) /\
    ks = l ++ map ent_key (es1 ++ es2) ++ r /\
    Forall (fun k => key_lt k key) (l ++ map ent_key es1) /\ Forall (fun k => key_lt key k) (map ent_key es2 ++ r).

(** The parents in a context, from level [i] on, lead from a node down to a leaf: the
    vcns of the nodes, and the numbers of the entries with the children. *)
Fixpoint trail (d : nat) (b : bytes) (h vcn : Z) (ks : list bytes) (vs : list Z) (c : ntfs_index_context) (i : Z) : Prop :=
  rd (parent_vcn c) i = Ret vcn /\
  match d with
  | O => pindex c = i
  | Datatypes.S d' => exists pre es1 es2 le tail t1 k w t2 blk, let e := match es2 with x :: _ => x | [] => le end in
      node_ok true b h pre (es1 ++ es2) le tail /\
      Forall2 (fun x sub => 0 <= ent_vcn x /\ exists blk, blocks (ent_vcn x) = Ret blk /\ tree_at blocks d' blk BLOCK_INDEX sub.1 sub.2)
        ((es1 ++ es2) ++ [le]) (t1 ++ (k, w) :: t2) /\
      length t1 = length es1 /\ rd (parent_pos c) i = Ret (Z.of_nat (length es1)) /\
      ks = weave (map ent_key (es1 ++ es2)) (map fst (t1 ++ (k, w) :: t2)) /\ vs = kids_vcns ((es1 ++ es2) ++ [le]) (t1 ++ (k, w) :: t2) /\
      blocks (ent_vcn e) = Ret blk /\ trail d' blk BLOCK_INDEX (ent_vcn e) k w c (i + 1)
  end.

(** The leaf is the block of [v]; another leaf can take its place. *)
Definition place_in (d : nat) (b : bytes) (vcn : Z) (c : ntfs_index_context) (i : Z) (key : bytes) (ks : list bytes) (vs : list Z) : Prop :=
  trail d b BLOCK_INDEX vcn ks vs c i /\
  exists leaf v l r, ib c = Some leaf /\ v ∈ vcn :: vs /\ blocks v = Ret leaf /\ rd (parent_vcn c) (pindex c) = Ret v /\
    place_at leaf BLOCK_INDEX c key l r ks /\
    forall leaf' pre es le tail, node_ok false leaf' BLOCK_INDEX pre es le tail -> NoDup (vcn :: vs) ->
      tree_at (rd_upd blocks v leaf') d (if vcn =? v then leaf' else b) BLOCK_INDEX (l ++ map ent_key es ++ r) vs.

(** The same below a node, whose own place is left open. *)
Definition place_below (d : nat) (b : bytes) (h vcn : Z) (c : ntfs_index_context) (i : Z) (key : bytes) (ks : list bytes) (vs : list Z) : Prop :=
  trail d b h vcn ks vs c i /\
  exists leaf v l r, ib c = Some leaf /\ v ∈ vs /\ blocks v = Ret leaf /\ rd (parent_vcn c) (pindex c) = Ret v /\
    place_at leaf BLOCK_INDEX c key l r ks /\
    forall leaf' pre es le tail, node_ok false leaf' BLOCK_INDEX pre es le tail -> NoDup vs ->
      tree_at (rd_upd blocks v leaf') d b h (l ++ map ent_key es ++ r) vs.

Lemma place_below_in d b vcn c i key ks vs : place_below d b BLOCK_INDEX vcn c i key ks vs -> place_in d b vcn c i key ks vs.
Proof using.
  intros (Htr & leaf & v & l & r & Hib & Hv & Hbv & Hpv & Hat & Hupd). split; [done|]. exists leaf, v, l, r. split; [done|]. split; [apply elem_of_cons; by right|].
  split; [done|]. split; [done|]. split; [done|]. intros leaf' pre es le tail Hn Hnd. apply NoDup_cons in Hnd as [Hnin Hnd].
  destruct (Z.eqb_spec vcn v) as [->|_]; [done|]. by eapply Hupd.
Qed.

(** The parts of a tree around a child. *)
Lemma child_at (rdb : Z -> outcome bytes) d es1 es2 le subs :
  Forall2 (fun x sub => 0 <= ent_vcn x /\ exists blk, rdb (ent_vcn x) = Ret blk /\ tree_at rdb d blk BLOCK_INDEX sub.1 sub.2) ((es1 ++ es2) ++ [le]) subs ->
  exists es3 t1 k v t2 blk, let e := match es2 with x :: _ => x | [] => le end in
    es2 ++ [le] = e :: es3 /\ length t1 = length es1 /\ subs = t1 ++ (k, v) :: t2 /\
    rdb (ent_vcn e) = Ret blk /\ tree_at rdb d blk BLOCK_INDEX k v /\
    weave (map ent_key (es1 ++ es2)) (map fst subs) = weave_left (map ent_key es1) (map fst t1) ++ k ++ weave_right (map ent_key es2) (map fst t2).
Proof using.
  intros HF. rewrite <- (assoc_L (++)) in HF. apply Forall2_app_inv_l in HF as (t1 & tr & H1 & H2 & ->). apply Forall2_length in H1.
  set (e := match es2 with x :: _ => x | [] => le end). assert (exists es3, es2 ++ [le] = e :: es3) as [es3 Ee] by (unfold e; destruct es2; eauto).
  rewrite Ee in H2. inversion H2 as [|? [k v] ? t2 (_ & blk & Eb & Ht) _]; subst. exists es3, t1, k, v, t2, blk. cbn zeta. fold e.
  split; [done|]. split; [done|]. split; [done|]. split; [done|]. split; [done|]. rewrite !map_app. cbn [map fst]. apply weave_at. by rewrite !length_map.
Qed.

Lemma place_step d b h vcn i pre es1 es2 le tail t1 k w t2 es3 blk c key : let e := match es2 with x :: _ => x | [] => le end in
  node_ok true b h pre (es1 ++ es2) le tail ->
  Forall2 (fun x sub => 0 <= ent_vcn x /\ exists blk, blocks (ent_vcn x) = Ret blk /\ tree_at blocks d blk BLOCK_INDEX sub.1 sub.2)
    ((es1 ++ es2) ++ [le]) (t1 ++ (k, w) :: t2) ->
  es2 ++ [le] = e :: es3 -> length t1 = length es1 -> blocks (ent_vcn e) = Ret blk ->
  let L := weave_left (map ent_key es1) (map fst t1) in
  let R := weave_right (map ent_key es2) (map fst t2) in
  Forall (fun k => key_lt k key) L -> Forall (fun k => key_lt key k) R ->
  rd (parent_vcn c) i = Ret vcn -> rd (parent_pos c) i = Ret (Z.of_nat (length es1)) ->
  place_in d blk (ent_vcn e) c (i + 1) key k w ->
  place_below (S d) b h vcn c i key (L ++ k ++ R) (kids_vcns ((es1 ++ es2) ++ [le]) (t1 ++ (k, w) :: t2)).
Proof using.
  intros e Hn HF Ee Hl Eb L R HL HR Ev Ep (Htr & leaf & v & l & r & Hib & Hv & Hbv & Hpv & Hat & Hupd). split.
  { split; [done|]. exists pre, es1, es2, le, tail, t1, k, w, t2, blk. cbn zeta. do 4 (split; [done|]). split; [|done].
    rewrite !map_app. cbn [map fst]. rewrite weave_at by (by rewrite !length_map). done. }
  rewrite <- (assoc_L (++)), Ee in *.
  assert (v ∈ kids_vcns (es1 ++ e :: es3) (t1 ++ (k, w) :: t2)) as Hvin.
  { rewrite kids_vcns_app by done. apply elem_of_app. right. unfold kids_vcns. cbn [zip_with concat snd]. apply elem_of_app. by left. }
  exists leaf, v, (L ++ l), (r ++ R). split; [done|]. split; [done|]. split; [done|]. split; [done|]. split.
  - destruct Hat as (q & f1 & f2 & l' & tl & Hq & He & Ekq & Hal & Har). exists q, f1, f2, l', tl. split; [done|]. split; [done|].
    split; [rewrite Ekq; by rewrite <- !(assoc_L (++))|]. rewrite <- (assoc_L (++)), (assoc_L (++) _ r). split; apply Forall_app; done.
  - intros leaf' q f1 l' tl Hq Hnd. rewrite <- !(assoc_L (++)). rewrite (assoc_L (++) _ r), (assoc_L (++) l).
    apply (replace_child blocks d b h pre es1 e es3 le tail t1 k w (l ++ map ent_key f1 ++ r) t2 v (if ent_vcn e =? v then leaf' else blk) leaf' es2); try done.
    + unfold rd_upd. destruct (Z.eqb_spec (ent_vcn e) v); done.
    + apply (Hupd leaf' q f1 l' tl Hq). rewrite kids_vcns_app in Hnd by done. apply NoDup_app in Hnd as (_ & _ & Hnd).
      unfold kids_vcns in Hnd. cbn [zip_with concat snd] in Hnd. by apply NoDup_app in Hnd as (Hnd & _ & _).
Qed.

(** The search in a node of a tree: the key is there, or this is the leaf where it
    belongs, or it goes on in a child. *)
Lemma tree_lookup d b h ks vs key :
  tree_at blocks d b h ks vs -> keys_ok ks -> key_valid key ->
  (exists e item, ntfs_ie_lookup (Some f) (key ++ junk) (zlen key) b h = Ret (IeFound e item) /\ forall c, entry c = Some e -> found_at b h c key ks) \/
  (d = 0%nat /\ exists e, ntfs_ie_lookup (Some f) (key ++ junk) (zlen key) b h = Ret (IeMissing e) /\ forall c, entry c = Some e -> place_at b h c key [] [] ks) \/
  (exists d' vcn item blk k w, d = Datatypes.S d' /\ ntfs_ie_lookup (Some f) (key ++ junk) (zlen key) b h = Ret (IeChild vcn item) /\
     (exists fl, ih_flags b h = Ret fl /\ Z.land fl NODE_MASK = INDEX_NODE) /\ blocks vcn = Ret blk /\ tree_at blocks d' blk BLOCK_INDEX k w /\ keys_ok k /\
     (forall c b', found_at b' BLOCK_INDEX c key k -> found_at b' BLOCK_INDEX c key ks) /\
     (forall c i v, rd (parent_vcn c) i = Ret v -> rd (parent_pos c) i = Ret item -> place_in d' blk vcn c (i + 1) key k w -> place_below d b h v c i key ks vs)).
Proof using.
  intros Ht Hks Vk. destruct d as [|d]; cbn [tree_at] in Ht.
  - destruct Ht as (pre & es & le & tail & Hn & -> & ->). pose proof Hks as [Hv Hsort].
    destruct (ie_lookup_ok junk false b h pre es le tail key Hn Vk) as (es1 & es2 & -> & F1 & Hcmp & ->); [by apply valid_keys|constructor|].
    destruct (match es2 with x :: _ => ent_cmp key x =? 0 | [] => false end) eqn:Efound; [left|right; left].
    + destruct es2 as [|x es2]; [done|]. eexists _, _. split; [done|]. intros c He. exists false, pre, es1, x, es2, le, tail. split; [done|].
      split; [done|]. split; [by apply Z.eqb_eq|]. rewrite map_app. apply elem_of_app. right. apply elem_of_cons. by left.
    + split; [done|]. eexists. split; [done|]. intros c He. exists pre, es1, es2, le, tail. split; [done|]. split; [done|].
      split; [by rewrite app_nil_r|]. rewrite app_nil_r. cbn [app]. apply node_bounds; try done. destruct es2; [done|]. apply Z.eqb_neq in Efound. lia.
  - destruct Ht as (pre & es & le & tail & subs & Hn & HF & Ek & Ev). pose proof (Forall2_length _ _ _ HF) as Hlen. rewrite length_app in Hlen. cbn [length] in Hlen.
    assert (Forall (fun x => ent_key x ∈ ks) es) as Hin.
    { rewrite Ek. apply Forall_forall. intros x Hx. apply weave_seps; [rewrite !length_map; lia|by apply (list_elem_of_fmap_2 ent_key)]. }
    assert (Forall (fun x => key_valid (ent_key x)) es) as Vs.
    { eapply Forall_impl; [exact Hin|]. cbn. intros x Hx. destruct Hks as [Hv _]. rewrite Forall_forall in Hv. by apply Hv. }
    assert (Forall (fun x => 0 <= ent_vcn x) (es ++ [le])) as Hvcn by (clear -HF; induction HF as [|x sub l subs [Hx _] _ IHF]; by constructor).
    destruct (ie_lookup_ok junk true b h pre es le tail key Hn Vk Vs Hvcn) as (es1 & es2 & -> & F1 & Hcmp & ->).
    destruct (match es2 with x :: _ => ent_cmp key x =? 0 | [] => false end) eqn:Efound; [left|right; right].
    + destruct es2 as [|x es2]; [done|]. eexists _, _. split; [done|]. intros c He. exists true, pre, es1, x, es2, le, tail. split; [done|]. split; [done|].
      split; [by apply Z.eqb_eq|]. apply Forall_app in Hin as [_ Hin]. by apply Forall_cons in Hin as [? _].
    + destruct (child_at blocks d es1 es2 le subs HF) as (es3 & t1 & k & w & t2 & blk' & Ee & Hl1 & -> & Eb' & Ht1 & Ew). cbn zeta in Ee, Eb'.
      rewrite Ew in Ek. assert (length (map fst t1) = length es1) as Hlm by (by rewrite length_map).
      assert (match es2 with x :: _ => ent_cmp key x < 0 | [] => True end) as Hcmp' by (destruct es2; [done|]; apply Z.eqb_neq in Efound; lia).
      rewrite Ek in Hks. destruct (child_bounds es1 es2 (map fst t1) (map fst t2) k key Hlm Vk Hks F1 Hcmp') as [Hbl Hbr].
      eexists d, _, _, blk', k, w. split; [done|]. split; [done|]. split; [apply (no_flag _ _ _ _ _ _ _ Hn)|]. split; [done|]. split; [done|].
      split; [by eapply keys_ok_mid|]. rewrite Ek. split.
      * intros c b' (nd & q & f1 & y & f2 & l' & tl & Hq & He & Hcy & Hyk). exists nd, q, f1, y, f2, l', tl. split_and!; try done.
        rewrite !elem_of_app. by right; left.
      * intros c i v Hcv Hcp Hpl. rewrite Ev. by eapply (place_step d b h v i pre es1 es2 le tail t1 k w t2).
Qed.

Lemma descend_ok d : forall fuel c blk vcn old ks vs key,
  tree_at blocks d blk BLOCK_INDEX ks vs -> blocks vcn = Ret blk -> keys_ok ks -> key_valid key -> ctx_ok c -> pindex c < 32 -> 32 - pindex c < Z.of_nat fuel ->
  exists c' r, descend fuel s c (key ++ junk) (zlen key) old vcn = Ret (c', r) /\ ctx_ok c' /\
    ((r = Some EOPNOTSUPP /\ 32 <= pindex c + Z.of_nat d + 1) \/
     is_in_root c' = false /\
     rd (parent_vcn c') (pindex c) = Ret old /\ rd (parent_pos c') (pindex c) = rd (parent_pos c) (pindex c) /\ same_above (pindex c) c c' /\
     ((r = None /\ exists b, ib c' = Some b /\ found_at b BLOCK_INDEX c' key ks) \/ (r = Some ENOENT /\ place_in d blk vcn c' (pindex c + 1) key ks vs))).
Proof using.
  induction d as [d IH] using lt_wf_ind. intros fuel c blk vcn old ks vs key Ht Eb Hks Vk Hc Hp Hf. destruct fuel as [|fuel]; [lia|]. cbn [descend].
  destruct (store_vcn_ok c old Hc) as (c1 & -> & Hc1 & Ep1 & Ev1 & _ & Epp1 & Hs1); [lia|]. cbn [obind]. unfold ntfs_icx_parent_inc. cbn [pindex set_pindex]. unfold MAX_PARENT_VCN.
  set (c2 := set_pindex (pindex c1 + 1) c1). assert (pindex c2 = pindex c + 1) as Ep2 by (unfold c2; cbn; lia).
  assert (ctx_ok c2) as Hc2 by (pose proof (cx_index _ Hc); destruct Hc1; constructor; try done; cbn; lia).
  assert (forall c', same_above (pindex c2) c2 c' -> rd (parent_vcn c') (pindex c) = Ret old /\
    rd (parent_pos c') (pindex c) = rd (parent_pos c) (pindex c) /\ same_above (pindex c) c c') as Hkeep.
  { intros c' Hs. destruct (Hs (pindex c)) as [-> ->]; [lia|]. cbn. rewrite Epp1. split; [done|]. split; [done|].
    eapply (same_above_trans (pindex c) (pindex c2) c c1); [lia|done|exact Hs]. }
  destruct (Z.leb_spec 32 (pindex c1 + 1)); [exists c2, (Some EOPNOTSUPP); split; [done|]; split; [done|]; left; split; [done|lia]|].
  rewrite (ib_read_blocks c2 vcn Hc2), Eb, (cx_collate _ Hc2).
  destruct (tree_lookup d blk BLOCK_INDEX ks vs key Ht Hks Vk) as [(e & item & -> & Hfd)|[(-> & e & -> & Hpl)|
    (d' & v & item & blk' & k & w & -> & -> & (fl & Efl & Hfl) & Eb' & Ht' & Hks' & Hfd & Hpl)]].
  - destruct (store_pos_ok c2 item Hc2) as (c3 & -> & Hc3 & Ep3 & _ & _ & _ & Hs3); [lia|]. cbn [obind].
    destruct (store_vcn_ok c3 vcn Hc3) as (c4 & -> & Hc4 & Ep4 & _ & _ & _ & Hs4); [lia|]. cbn [obind].
    destruct (Hkeep c4) as (Hk1 & Hk2 & Hk3); [rewrite Ep3 in Hs4; eapply same_above_trans; [|done|done]; lia|].
    eexists _, _. split; [done|]. split; [by destruct Hc4|]. right. split; [done|]. split; [exact Hk1|]. split; [exact Hk2|]. split; [exact Hk3|].
    left. split; [done|]. exists blk. split; [done|by apply Hfd].
  - destruct (store_vcn_ok c2 vcn Hc2) as (c3 & -> & Hc3 & Ep3 & Epv & _ & _ & Hs3); [lia|]. cbn [obind].
    destruct (Hkeep c3 Hs3) as (Hk1 & Hk2 & Hk3).
    eexists _, _. split; [done|]. split; [by destruct Hc3|]. right. split; [done|]. split; [exact Hk1|]. split; [exact Hk2|]. split; [exact Hk3|].
    right. split; [done|]. split; [split; cbn; [by rewrite <- Ep2|by rewrite Ep3]|].
    exists blk, vcn, [], []. split; [done|]. split; [apply elem_of_cons; by left|]. split; [done|]. split; [cbn; by rewrite Ep3|]. split; [by apply Hpl|].
    intros leaf' pre' es' le' tail' Hn' _. rewrite Z.eqb_refl. cbn [tree_at] in *. destruct Ht as (_ & _ & _ & _ & _ & _ & ->).
    exists pre', es', le', tail'. rewrite app_nil_r. done.
  - destruct (store_pos_ok c2 item Hc2) as (c3 & -> & Hc3 & Ep3 & _ & _ & Epi & Hs3); [lia|]. cbn [obind]. rewrite Efl. cbn [obind]. rewrite Hfl.
    change (INDEX_NODE =? LEAF_NODE) with false. cbn match.
    destruct (IH d' ltac:(lia) fuel c3 blk' v vcn k w key Ht' Eb' Hks' Vk Hc3) as (c' & r & E & Hc' & Hcase); [lia|lia|].
    rewrite Ep3 in *. exists c', r. split; [done|]. split; [done|]. destruct Hcase as [[-> Hdeep]|(Hroot & Hv' & Hp' & Hs' & Hres)]; [left; split; [done|lia]|right].
    destruct (Hkeep c') as (Hk1 & Hk2 & Hk3); [eapply same_above_trans; [|exact Hs3|exact Hs']; lia|].
    split; [done|]. split; [done|]. split; [done|]. split; [done|].
    destruct Hres as [(-> & b & Hib & Hfb)|(-> & Hin)].
    + left. split; [done|]. exists b. split; [done|by apply Hfd].
    + right. split; [done|]. rewrite <- Ep2. by apply place_below_in, Hpl; [|rewrite Hp'|].
Qed.

(** The whole search. *)
Context (get_collate : Z -> option COLLATE) (cluster_size cluster_size_bits : Z).

Record index_ok (ir : bytes) (d : nat) (ks : list bytes) (vs : list Z) : Prop := {
  ix_root : ir_get s = Ret ir;
  ix_open : (0 < d)%nat -> ia_open s = Ret tt;
  ix_size : rd_le 4 ir 8 = Ret bs /\ 512 <= bs;
  ix_bits : bits = if cluster_size <=? bs then cluster_size_bits else 9;
  ix_rule : exists rule, rd_le 4 ir 4 = Ret rule /\ get_collate rule = Some f;
  ix_tree : tree_at blocks d ir ROOT_INDEX ks vs;
  ix_keys : keys_ok ks;
}.

Lemma lookup_ok c ir d ks vs key :
  index_ok ir d ks vs -> key_valid key -> 0 < zlen key ->
  zlen (parent_pos c) = 32 -> zlen (parent_vcn c) = 32 -> 0 <= pindex c < 32 ->
  exists c' r, ntfs_index_lookup true get_collate cluster_size cluster_size_bits s c (key ++ junk) (zlen key) = Ret (c', r) /\ ctx_ok c' /\
    ((r = Some EOPNOTSUPP /\ 32 <= pindex c + Z.of_nat d) \/
     (r = None /\ (is_in_root c' = true /\ found_at ir ROOT_INDEX c' key ks \/
                   is_in_root c' = false /\ exists b, ib c' = Some b /\ found_at b BLOCK_INDEX c' key ks)) \/
     (r = Some ENOENT /\ (is_in_root c' = true /\ d = 0%nat /\ pindex c' = pindex c /\ place_at ir ROOT_INDEX c' key [] [] ks \/
                          is_in_root c' = false /\ place_below d ir ROOT_INDEX VCN_INDEX_ROOT_PARENT c' (pindex c) key ks vs))).
Proof using.
  intros Hix Vk Hk Hp Hv Hi. destruct (ix_size _ _ _ _ Hix) as [Es Hbs]. destruct (ix_rule _ _ _ _ Hix) as (rule & Er & Ec).
  unfold ntfs_index_lookup. destruct (Z.leb_spec (zlen key) 0); [lia|]. rewrite (ix_root _ _ _ _ Hix), Es. cbn [obind].
  destruct (Z.ltb_spec bs 512); [lia|]. rewrite Er. cbn [obind]. rewrite Ec. rewrite <- (ix_bits _ _ _ _ Hix).
  set (c1 := set_params (Some f) bs bits c). assert (ctx_ok c1) as Hc1 by (constructor; first [done|cbn; lia]). assert (pindex c1 = pindex c) as Ep1 by done.
  rewrite (cx_collate _ Hc1).
  destruct (tree_lookup d ir ROOT_INDEX ks vs key (ix_tree _ _ _ _ Hix) (ix_keys _ _ _ _ Hix) Vk) as [(e & item & -> & Hfd)|[(-> & e & -> & Hpl)|
    (d' & v & item & blk' & k & w & -> & -> & _ & Eb' & Ht' & Hks' & Hfd & Hpl)]].
  - destruct (store_pos_ok c1 item Hc1) as (c3 & -> & Hc3 & Ep3 & _ & _); [lia|]. cbn [obind].
    destruct (store_vcn_ok c3 VCN_INDEX_ROOT_PARENT Hc3) as (c4 & -> & Hc4 & _); [lia|]. cbn [obind].
    eexists _, _. split; [done|]. split; [by destruct Hc4|]. right. left. split; [done|]. left. split; [done|by apply Hfd].
  - destruct (store_vcn_ok c1 VCN_INDEX_ROOT_PARENT Hc1) as (c3 & -> & Hc3 & Ep3 & _); [lia|]. cbn [obind].
    eexists _, _. split; [done|]. split; [by destruct Hc3|]. right. right. split; [done|]. left. split; [done|]. split; [done|]. split; [done|by apply Hpl].
  - destruct (store_pos_ok c1 item Hc1) as (c3 & -> & Hc3 & Ep3 & _ & _ & Epi & _); [lia|]. cbn [obind]. rewrite (ix_open _ _ _ _ Hix) by lia.
    destruct (descend_ok d' (Z.to_nat (MAX_PARENT_VCN + 1)) c3 blk' v VCN_INDEX_ROOT_PARENT k w key Ht' Eb' Hks' Vk Hc3) as (c' & r & E & Hc' & Hcase);
      [lia|unfold MAX_PARENT_VCN; lia|].
    exists c', r. split; [done|]. split; [done|]. destruct Hcase as [[-> Hdeep]|(Hroot & Hv' & Hp' & _ & Hres)]; [left; split; [done|lia]|right].
    destruct Hres as [(-> & b & Hib & Hfb)|(-> & Hin)].
    + left. split; [done|]. right. split; [done|]. exists b. split; [done|by apply Hfd].
    + right. split; [done|]. right. split; [done|]. rewrite Ep3, Ep1 in *. by apply Hpl; [|rewrite Hp'|].
Qed.
End Descend.
