(* ===== verification/IndexOps.v ===== *)
(** * Index nodes: inserting, deleting, splitting (ntfs/index.c) *)
From S2P Require Import Prelude Libc Fields Index IndexNode.

(** The header with another length. *)
Definition with_len (pre : bytes) (h v : Z) : bytes := splice pre (h + 4) (le_bytes 4 v).

Lemma zlen_with_len pre h v : 0 <= h -> h + 16 <= zlen pre -> zlen (with_len pre h v) = zlen pre.
Proof. intros. unfold with_len. apply zlen_splice; rewrite ?zlen_le_bytes; lia. Qed.

Lemma rd_with_len pre h v j : 0 <= h -> h + 16 <= zlen pre -> 0 <= j -> j < h + 4 \/ h + 8 <= j -> rd (with_len pre h v) j = rd pre j.
Proof. intros. unfold with_len. apply rd_splice_other; rewrite ?zlen_le_bytes; lia. Qed.

Lemma byte_ok_with_len pre h v : Forall byte_ok pre -> Forall byte_ok (with_len pre h v).
Proof. intros. apply byte_ok_splice; [done|apply byte_ok_le_bytes]. Qed.

Lemma put_len pre h q v : 0 <= h -> h + 16 <= zlen pre -> put 4 (pre ++ q) (h + 4) v = Ret (with_len pre h v ++ q).
Proof. intros. by rewrite put_left by lia. Qed.

Lemma len_with_len pre h q v : 0 <= h -> h + 16 <= zlen pre -> 0 <= v < 2 ^ 32 -> index_length (with_len pre h v ++ q) h = Ret v.
Proof.
  intros. unfold index_length. rewrite rd_le_app_l by (rewrite ?zlen_with_len; lia). unfold with_len. rewrite rd_le_splice_same by lia.
  rewrite Z.mod_small; [done|]. change (256 ^ Z.of_nat 4) with 4294967296. lia.
Qed.

(** ** A node with other entries *)
Lemma node_bytes node b h pre es le tail : node_ok node b h pre es le tail ->
  Forall byte_ok pre /\ Forall byte_ok (concat es) /\ Forall byte_ok le /\ Forall byte_ok tail.
Proof. intros H. pose proof (no_bytes _ _ _ _ _ _ _ H) as Hb. rewrite (no_eq _ _ _ _ _ _ _ H), !Forall_app in Hb. naive_solver. Qed.

Lemma node_size node b h pre es le tail : node_ok node b h pre es le tail -> zlen b = zlen pre + zlen (concat es) + zlen le + zlen tail.
Proof. intros H. rewrite (no_eq _ _ _ _ _ _ _ H), !zlen_app. lia. Qed.

Lemma entries_bytes node last es : Forall (ent_ok node last) es -> Forall byte_ok (concat es).
Proof. induction 1 as [|x l Hx Hl IH]; [constructor|]. cbn [concat]. apply Forall_app. split; [apply (en_bytes _ _ _ Hx)|done]. Qed.

Lemma node_rebuild node b h pre es le tail es' le' tail' :
  node_ok node b h pre es le tail -> Forall (ent_ok node false) es' -> ent_ok node true le' -> Forall byte_ok tail' ->
  zlen (concat es') + zlen le' + zlen tail' = zlen (concat es) + zlen le + zlen tail ->
  let pre' := with_len pre h (zlen pre - h + zlen (concat es') + zlen le') in
  node_ok node (pre' ++ concat es' ++ le' ++ tail') h pre' es' le' tail'.
Proof.
  intros H Hes Hle Htail Hsize pre'. destruct (no_head _ _ _ _ _ _ _ H) as [Hh0 Hh]. pose proof (no_small _ _ _ _ _ _ _ H) as Hsm.
  pose proof (node_size _ _ _ _ _ _ _ H) as Hz. assert (zlen pre' = zlen pre) as Hp by (by apply zlen_with_len).
  pose proof (zlen_nonneg (concat es')). pose proof (zlen_nonneg le'). pose proof (zlen_nonneg tail').
  destruct (node_bytes _ _ _ _ _ _ _ H) as (Hb & _ & _ & _).
  assert (zlen (pre' ++ concat es' ++ le' ++ tail') = zlen b) as Hz' by (rewrite !zlen_app; lia).
  assert (forall q j, 0 <= j < zlen pre -> j < h + 4 \/ h + 8 <= j -> rd (pre' ++ q) j = rd b j) as Hrd.
  { intros q j Hj Hd. rewrite (no_eq _ _ _ _ _ _ _ H), !rd_app_l by lia. apply rd_with_len; lia. }
  assert (forall n q i, 0 <= i -> i + Z.of_nat n <= zlen pre -> i + Z.of_nat n <= h + 4 \/ h + 8 <= i -> rd_le n (pre' ++ q) i = rd_le n b i) as Hrdl.
  { intros n q i Hi Hn Hd. apply rd_le_eq. intros k Hk. apply Hrd; lia. }
  constructor; try done.
  - lia.
  - unfold entries_offset. rewrite Hrdl, Hp by lia. apply (no_first _ _ _ _ _ _ _ H).
  - unfold pre' at 1. rewrite len_with_len by lia. f_equal. lia.
  - unfold allocated_size. rewrite Hrdl, Hz' by lia. apply (no_alloc _ _ _ _ _ _ _ H).
  - unfold ih_flags. rewrite Hrd by lia. apply (no_flag _ _ _ _ _ _ _ H).
  - rewrite !Forall_app. split_and!; [by apply byte_ok_with_len|by eapply entries_bytes|apply (en_bytes _ _ _ Hle)|done].
  - by rewrite Hz'.
Qed.

(** ** Inserting and deleting *)
Lemma node_insert_ok node b h pre es1 es2 le tail x junk :
  node_ok node b h pre (es1 ++ es2) le tail -> ent_ok node false x -> zlen x <= zlen tail ->
  let pre' := with_len pre h (zlen pre - h + zlen (concat (es1 ++ x :: es2)) + zlen le) in
  let b' := pre' ++ concat (es1 ++ x :: es2) ++ le ++ drop (Z.to_nat (zlen x)) tail in
  ntfs_ie_insert b h (x ++ junk) (zlen (pre ++ concat es1)) = Ret b' /\
  node_ok node b' h pre' (es1 ++ x :: es2) le (drop (Z.to_nat (zlen x)) tail) /\ zlen b' = zlen b.
Proof.
  intros H Hx Hfit pre' b'. destruct (no_head _ _ _ _ _ _ _ H) as [Hh0 Hh]. pose proof (node_size _ _ _ _ _ _ _ H) as Hz.
  pose proof (ent_size16 _ _ _ Hx) as Hxs. pose proof (no_small _ _ _ _ _ _ _ H) as Hsm. pose proof (ent_size16 _ _ _ (no_last _ _ _ _ _ _ _ H)).
  pose proof (zlen_nonneg (concat es1)). pose proof (zlen_nonneg (concat es2)). rewrite concat_app, zlen_app in Hz.
  assert (zlen (concat (es1 ++ x :: es2)) = zlen (concat es1) + zlen x + zlen (concat es2)) as Hc by (rewrite concat_app; cbn [concat]; rewrite !zlen_app; lia).
  assert (zlen (drop (Z.to_nat (zlen x)) tail) = zlen tail - zlen x) as Hd by (unfold zlen in *; rewrite length_drop; lia).
  assert (zlen pre' = zlen pre) as Hp by (by apply zlen_with_len).
  assert (node_ok node b' h pre' (es1 ++ x :: es2) le (drop (Z.to_nat (zlen x)) tail)) as Hn.
  { apply (node_rebuild node b h pre (es1 ++ es2) le tail); try done.
    - pose proof (no_entries _ _ _ _ _ _ _ H) as F. apply Forall_app in F as [? ?]. apply Forall_app. split; [done|by constructor].
    - apply (no_last _ _ _ _ _ _ _ H).
    - apply Forall_drop. by destruct (node_bytes _ _ _ _ _ _ _ H) as (_ & _ & _ & ?).
    - rewrite (concat_app es1 es2), zlen_app. lia. }
  split; [|split; [done|unfold b'; rewrite !zlen_app; lia]].
  unfold ntfs_ie_insert. assert (ie_length (x ++ junk) 0 = Ret (zlen x)) as Exl.
  { unfold ie_length. rewrite rd_le_app_l by lia. apply (en_length _ _ _ Hx). }
  rewrite Exl. cbn [obind]. rewrite (no_len _ _ _ _ _ _ _ H). cbn [obind]. rewrite (node_split _ _ _ _ _ _ _ _ H), <- (assoc_L (++) pre).
  rewrite put_len by lia. cbn [obind].
  assert (zlen pre - h + zlen (concat (es1 ++ es2)) + zlen le + zlen x = zlen pre - h + zlen (concat (es1 ++ x :: es2)) + zlen le) as -> by (rewrite (concat_app es1 es2), zlen_app; lia).
  rewrite len_with_len by lia. cbn [obind]. fold pre'. rewrite (assoc_L (++) pre'), (assoc_L (++) (concat es2)). rewrite (zlen_app pre), <- Hp, <- (zlen_app pre').
  assert (zlen pre' - h + zlen (concat (es1 ++ x :: es2)) + zlen le - (zlen (pre' ++ concat es1) - h) - zlen x = zlen (concat es2 ++ le)) as -> by (rewrite !zlen_app; lia).
  rewrite memmove_gap by lia. cbn [obind]. rewrite rdn_ok by (rewrite ?zlen_app; pose proof (zlen_nonneg junk); lia). cbn [obind].
  assert (sub (x ++ junk) 0 (zlen x) = x) as -> by (apply (sub_app_here [] x junk); done).
  rewrite wrn_part.
  - unfold b'. rewrite concat_app. cbn [concat]. by rewrite <- !(assoc_L (++)).
  - unfold zlen in *. rewrite length_take, !length_app. lia.
Qed.

Lemma node_delete_ok node b h pre es1 x es2 le tail :
  node_ok node b h pre (es1 ++ x :: es2) le tail ->
  exists tail', let pre' := with_len pre h (zlen pre - h + zlen (concat (es1 ++ es2)) + zlen le) in
  let b' := pre' ++ concat (es1 ++ es2) ++ le ++ tail' in
  ntfs_ie_delete b h (zlen (pre ++ concat es1)) = Ret b' /\ node_ok node b' h pre' (es1 ++ es2) le tail' /\ zlen b' = zlen b.
Proof.
  intros H. destruct (no_head _ _ _ _ _ _ _ H) as [Hh0 Hh]. pose proof (node_size _ _ _ _ _ _ _ H) as Hz.
  pose proof (no_entries _ _ _ _ _ _ _ H) as F. apply Forall_app in F as [F1 F2]. apply Forall_cons in F2 as [Hx F2].
  pose proof (ent_size16 _ _ _ Hx) as Hxs. pose proof (no_small _ _ _ _ _ _ _ H) as Hsm. pose proof (ent_size16 _ _ _ (no_last _ _ _ _ _ _ _ H)).
  pose proof (zlen_nonneg (concat es1)). pose proof (zlen_nonneg (concat es2)). pose proof (zlen_nonneg tail).
  assert (zlen (concat (es1 ++ x :: es2)) = zlen (concat es1) + zlen x + zlen (concat es2)) as Hc by (rewrite concat_app; cbn [concat]; rewrite !zlen_app; lia).
  set (r := concat es2 ++ le). exists (drop (Z.to_nat (0 + zlen r)) (x ++ r ++ tail)). cbn zeta.
  set (pre' := with_len pre h (zlen pre - h + zlen (concat (es1 ++ es2)) + zlen le)). assert (zlen pre' = zlen pre) as Hp by (by apply zlen_with_len).
  set (tail' := drop (Z.to_nat (0 + zlen r)) (x ++ r ++ tail)).
  assert (zlen r = zlen (concat es2) + zlen le) as Hr by (unfold r; by rewrite zlen_app).
  assert (zlen tail' = zlen x + zlen tail) as Htl by (unfold tail', zlen in *; rewrite length_drop, !length_app; lia).
  destruct (node_bytes _ _ _ _ _ _ _ H) as (Hb1 & Hb2 & Hb3 & Hb4).
  assert (node_ok node (pre' ++ concat (es1 ++ es2) ++ le ++ tail') h pre' (es1 ++ es2) le tail') as Hn.
  { apply (node_rebuild node b h pre (es1 ++ x :: es2) le tail); try done.
    - by apply Forall_app.
    - apply (no_last _ _ _ _ _ _ _ H).
    - apply Forall_drop. unfold r. rewrite concat_app in Hb2. cbn [concat] in Hb2. rewrite !Forall_app in *. naive_solver.
    - rewrite (concat_app es1 es2), zlen_app. lia. }
  split; [|split; [done|rewrite !zlen_app, concat_app, zlen_app; lia]].
  unfold ntfs_ie_delete. rewrite (no_len _ _ _ _ _ _ _ H). cbn [obind].
  assert (b = (pre ++ concat es1) ++ x ++ r ++ tail) as Eb.
  { rewrite (node_split _ _ _ _ _ _ _ _ H). cbn [concat]. unfold r. by rewrite <- !(assoc_L (++)). }
  assert (ie_length b (zlen (pre ++ concat es1)) = Ret (zlen x)) as -> by (rewrite Eb, ie_length_mid by lia; apply (en_length _ _ _ Hx)).
  cbn [obind]. assert (u32 (zlen pre - h + zlen (concat (es1 ++ x :: es2)) + zlen le - zlen x) = zlen pre - h + zlen (concat (es1 ++ es2)) + zlen le) as ->.
  { rewrite wrapu_small by (unfold in_u; lia). rewrite (concat_app es1 es2), zlen_app. lia. }
  rewrite Eb, <- (assoc_L (++) pre), put_len by lia. cbn [obind]. fold pre'. rewrite (assoc_L (++) pre'), (zlen_app pre), <- Hp, <- (zlen_app pre').
  assert (zlen pre' - h + zlen (concat (es1 ++ es2)) + zlen le - (zlen (pre' ++ concat es1) - h) = zlen r) as -> by (rewrite (concat_app es1 es2), !zlen_app; lia).
  pose proof (memmove_parts (pre' ++ concat es1) x r tail 0) as Hm. rewrite Z.add_0_r in Hm. rewrite Hm by lia.
  fold tail'. cbn [Z.to_nat take app]. rewrite concat_app. unfold r. by rewrite <- !(assoc_L (++)).
Qed.
