(* ===== verification/IndexSplit.v ===== *)
(** * Index nodes: splitting (ntfs/index.c)

    The pieces of splitting a block: the median, the new block with the entries
    after it, the old block with the ones before it, and the median in the parent
    with the two blocks as its neighbours. *)
From S2P Require Import Prelude Libc Fields Index IndexNode IndexOps.

(** ** The median *)
Lemma count_loop_ok node es p le tail stop fuel i :
  Forall (ent_ok node false) es -> ent_ok node true le -> stop = zlen p + zlen (concat es) + zlen le -> (length es < fuel)%nat ->
  count_loop fuel (p ++ concat es ++ le ++ tail) (zlen p) stop i = Ret (i + Z.of_nat (length es)).
Proof.
  intros F Hle -> Hf. pose proof (ent_size16 _ _ _ Hle). revert p i fuel Hf.
  induction F as [|x l Hx Hl IH]; intros p i fuel Hf; (destruct fuel as [|fuel]; [cbn in Hf; lia|]); cbn [concat app count_loop length].
  - change (zlen (@nil Z)) with 0. destruct (Z.ltb_spec (zlen p) (zlen p + 0 + zlen le)); [|lia]. rewrite (ent_end node true le Hle). cbn [obind]. f_equal. lia.
  - rewrite <- (assoc_L (++) x). pose proof (ent_size16 _ _ _ Hx). pose proof (zlen_nonneg (concat l)). rewrite zlen_app.
    destruct (Z.ltb_spec (zlen p) (zlen p + (zlen x + zlen (concat l)) + zlen le)); [|lia].
    rewrite (ent_end node false x Hx). cbn [obind]. rewrite (ent_next node false x Hx). cbn [obind]. specialize (IH (p ++ x) (i + 1) fuel ltac:(cbn in Hf; lia)).
    rewrite <- (assoc_L (++) p x), zlen_app in IH. rewrite zlen_app. rewrite !Z.add_assoc. rewrite IH. f_equal. lia.
Qed.

Lemma median_ok node b h pre es le tail :
  node_ok node b h pre es le tail -> ntfs_ie_get_median b h = Ret (zlen (pre ++ concat (take (length es / 2) es))).
Proof.
  intros H. unfold ntfs_ie_get_median. rewrite (node_first _ _ _ _ _ _ _ H), (node_end _ _ _ _ _ _ _ H). cbn [obind].
  pose proof (no_entries _ _ _ _ _ _ _ H) as F. rewrite (no_eq _ _ _ _ _ _ _ H) at 2.
  rewrite (count_loop_ok node es pre le tail) by (try done; first [apply (no_last _ _ _ _ _ _ _ H)|apply (node_fuel _ _ _ _ _ _ _ H)]). cbn [obind].
  set (k := (length es / 2)%nat). assert (k <= length es)%nat as Hk by (apply Nat.Div0.div_le_upper_bound; lia).
  replace (Z.to_nat ((0 + Z.of_nat (length es)) / 2 - 1 + 1)) with k.
  2: { unfold k. rewrite Z.sub_add, Z.add_0_l. change 2 with (Z.of_nat 2). rewrite <- Nat2Z.inj_div. by rewrite Nat2Z.id. }
  rewrite (no_eq _ _ _ _ _ _ _ H). rewrite <- (take_drop k es) at 1. rewrite concat_app, <- (assoc_L (++) (concat _)).
  replace k with (length (take k es)) at 1 by (rewrite length_take; lia).
  apply (by_pos_ok node). by apply Forall_take.
Qed.

(** ** Entries with another child *)
Definition with_vcn (x : bytes) (v : Z) : bytes := splice x (zlen x - 8) (le_bytes 8 v).

Lemma sub_app_first {A} (x q : list A) i n : 0 <= i -> 0 <= n -> i + n <= zlen x -> sub (x ++ q) i n = sub x i n.
Proof. intros. unfold sub, zlen in *. by rewrite drop_app_le, take_app_le by (rewrite ?length_drop; lia). Qed.

Section With_vcn.
Context (last : bool) (x : bytes) (H : ent_ok true last x) (v : Z).

Lemma zlen_with_vcn : zlen (with_vcn x v) = zlen x.
Proof using H. pose proof (en_size _ _ _ H). unfold with_vcn. apply zlen_splice; rewrite ?zlen_le_bytes; lia. Qed.

Lemma with_vcn_field n i : 0 <= i -> i + Z.of_nat n <= zlen x - 8 -> rd_le n (with_vcn x v) i = rd_le n x i.
Proof using H. intros. pose proof (en_size _ _ _ H). unfold with_vcn. apply rd_le_splice_other; rewrite ?zlen_le_bytes; lia. Qed.

Lemma with_vcn_ok : ent_ok true last (with_vcn x v).
Proof using H.
  pose proof (en_size _ _ _ H) as Hs. cbn in Hs. pose proof zlen_with_vcn as Hz. constructor.
  - rewrite Hz. exact Hs.
  - apply byte_ok_splice; [apply (en_bytes _ _ _ H)|apply byte_ok_le_bytes].
  - unfold ie_length. rewrite with_vcn_field, Hz by lia. apply (en_length _ _ _ H).
  - unfold ie_flags. rewrite with_vcn_field by lia. apply (en_flags _ _ _ H).
  - intros Hl. unfold ie_key_length. rewrite with_vcn_field, Hz by lia. apply (en_key _ _ _ H Hl).
Qed.

Lemma with_vcn_key : last = false -> ent_key (with_vcn x v) = ent_key x.
Proof using H.
  intros Hl. pose proof (en_size _ _ _ H) as Hs. cbn in Hs. destruct (en_key _ _ _ H Hl) as (n & En & Hn).
  destruct (rd_le_range 2 x 10 (en_bytes _ _ _ H)) as (n' & En' & Hr); [lia|lia|]. change (ie_key_length x 0) with (rd_le 2 x 10) in En. rewrite En in En'. injection En' as <-.
  unfold ent_key, ie_key_length. rewrite with_vcn_field by lia. change (0 + 10) with 10. rewrite En. unfold with_vcn. apply sub_splice_other; rewrite ?zlen_le_bytes; lia.
Qed.

Lemma with_vcn_vcn : 0 <= v < 2 ^ 63 -> ent_vcn (with_vcn x v) = v.
Proof using H.
  intros Hv. pose proof (en_size _ _ _ H) as Hs. cbn in Hs. unfold ent_vcn, ntfs_ie_get_vcn, ntfs_ie_get_vcn_addr.
  rewrite (en_length _ _ _ with_vcn_ok), zlen_with_vcn. cbn [obind]. rewrite Z.add_0_l. unfold with_vcn. rewrite rd_le_splice_same by lia. cbn [obind].
  rewrite Z.mod_small by (change (256 ^ Z.of_nat 8) with (2 ^ 64); lia). by rewrite wraps_small by (unfold in_s; lia).
Qed.

Lemma set_vcn_mid p q : ntfs_ie_set_vcn (p ++ x ++ q) (zlen p) v = Ret (p ++ with_vcn x v ++ q).
Proof using H.
  pose proof (en_size _ _ _ H) as Hs. cbn in Hs. unfold ntfs_ie_set_vcn, ntfs_ie_get_vcn_addr. rewrite ie_length_mid, (en_length _ _ _ H) by lia. cbn [obind].
  replace (zlen p + zlen x - 8) with (zlen p + (zlen x - 8)) by lia. by rewrite put_mid by lia.
Qed.
End With_vcn.

(** A copy of a leaf's entry gets room for a child. *)
Lemma add_vcn_ok past x : ent_ok false false x -> zlen x + 8 < 2 ^ 15 -> zlen past = 8 -> Forall byte_ok past ->
  exists x', ntfs_ie_add_vcn past x = Ret x' /\ ent_ok true false x' /\ ent_key x' = ent_key x /\ zlen x' = zlen x + 8.
Proof.
  intros H Hl Hf Hfb. pose proof (en_size _ _ _ H) as Hs. cbn in Hs. destruct (en_flags _ _ _ H) as (g & Eg & Hg1 & Hg2).
  destruct (en_key _ _ _ H eq_refl) as (n & En & Hn).
  destruct (rd_le_range 2 x 10 (en_bytes _ _ _ H)) as (n' & En' & Hnr); [lia|lia|]. change (ie_key_length x 0) with (rd_le 2 x 10) in En. rewrite En in En'. injection En' as <-.
  destruct (rd_le_range 2 x 12 (en_bytes _ _ _ H)) as (g' & Eg' & Hgr); [lia|lia|]. change (ie_flags x 0) with (rd_le 2 x 12) in Eg. rewrite Eg in Eg'. injection Eg' as <-.
  change (256 ^ Z.of_nat 2) with 65536 in *.
  set (y := splice x 8 (le_bytes 2 (zlen x + 8))). assert (zlen y = zlen x) as Hy by (apply zlen_splice; rewrite ?zlen_le_bytes; lia).
  assert (rd_le 2 y 8 = Ret (zlen x + 8)) as Ey.
  { unfold y. rewrite rd_le_splice_same by lia. rewrite Z.mod_small; [done|]. change (256 ^ Z.of_nat 2) with 65536. lia. }
  set (z := y ++ past). assert (zlen z = zlen x + 8) as Hz by (unfold z; rewrite zlen_app; lia).
  set (x' := splice z 12 (le_bytes 2 (Z.lor g INDEX_ENTRY_NODE))). assert (zlen x' = zlen x + 8) as Hx' by (unfold x'; rewrite zlen_splice; rewrite ?zlen_le_bytes; lia).
  assert (forall k i, 0 <= i -> i + Z.of_nat k <= zlen x -> i + Z.of_nat k <= 8 \/ 10 <= i -> rd_le k z i = rd_le k x i) as Ez.
  { intros k i Hi Hk Hd. unfold z. rewrite rd_le_app_l by lia. unfold y. apply rd_le_splice_other; rewrite ?zlen_le_bytes; lia. }
  assert (Z.lor g INDEX_ENTRY_NODE < 65536 /\ 0 <= Z.lor g INDEX_ENTRY_NODE) as Hlor.
  { split; [|apply Z.lor_nonneg; split; [lia|done]]. assert (g = 0 \/ 0 < g) as [->|Hg0] by lia; [done|].
    apply Z.log2_lt_pow2 with (b := 16); [|rewrite Z.log2_lor by (unfold INDEX_ENTRY_NODE; lia); apply Z.max_lub_lt; [apply Z.log2_lt_pow2; lia|done]].
    assert (0 <= Z.lor g INDEX_ENTRY_NODE) by (apply Z.lor_nonneg; split; [lia|done]). destruct (Z.eq_dec (Z.lor g INDEX_ENTRY_NODE) 0) as [E|]; [|lia].
    apply Z.lor_eq_0_iff in E as [_ E]. discriminate E. }
  exists x'. split; [|split; [|split]].
  - unfold ntfs_ie_add_vcn. rewrite (en_length _ _ _ H). cbn [obind]. unfold put at 1. rewrite wrn_ok by (rewrite ?zlen_le_bytes; lia). fold y. cbn [obind].
    unfold ie_length. change (0 + 8) with 8. rewrite Ey. cbn [obind]. rewrite <- realloc_block_bytes by lia. unfold realloc_block. cbn [pool behind]. fold z. rewrite rdn_ok by lia. cbn [obind]. rewrite <- Hz, sub_all.
    unfold ie_flags. change (0 + 12) with 12. rewrite Ez, Eg by lia. cbn [obind]. unfold put. by rewrite wrn_ok by (rewrite ?zlen_le_bytes; lia).
  - assert (Forall byte_ok z) as Hzb.
    { unfold z, y. apply Forall_app. split; [|done]. apply byte_ok_splice; [apply (en_bytes _ _ _ H)|apply byte_ok_le_bytes]. }
    constructor.
    + lia.
    + unfold x'. apply byte_ok_splice; [done|apply byte_ok_le_bytes].
    + rewrite Hx'. unfold ie_length, x'. change (0 + 8) with 8. rewrite rd_le_splice_other by (rewrite ?zlen_le_bytes; lia). unfold z. by rewrite rd_le_app_l, Ey by lia.
    + unfold ie_flags, x'. change (0 + 12) with 12. rewrite rd_le_splice_same by lia. exists (Z.lor g INDEX_ENTRY_NODE).
      rewrite Z.mod_small by (change (256 ^ Z.of_nat 2) with 65536; lia). split; [done|]. split.
      * rewrite Z.land_lor_distr_l. change (Z.land INDEX_ENTRY_NODE INDEX_ENTRY_NODE) with 1. apply Z.eqb_neq. intros E. apply Z.lor_eq_0_iff in E as [_ E]. discriminate E.
      * rewrite Z.land_lor_distr_l. change (Z.land INDEX_ENTRY_NODE INDEX_ENTRY_END) with 0. by rewrite Z.lor_0_r.
    + intros _. exists n. unfold ie_key_length, x'. change (0 + 10) with 10. rewrite rd_le_splice_other by (rewrite ?zlen_le_bytes; lia).
      rewrite Ez, En by lia. split; [done|]. fold x'. cbn in Hn. lia.
  - unfold ent_key, ie_key_length. change (0 + 10) with 10. unfold x'. rewrite rd_le_splice_other by (rewrite ?zlen_le_bytes; lia). rewrite Ez, En by lia.
    cbn in Hn. rewrite sub_splice_other by (rewrite ?zlen_le_bytes; lia). unfold z. rewrite sub_app_first by lia. unfold y. apply sub_splice_other; rewrite ?zlen_le_bytes; lia.
  - done.
Qed.

(** ** The median in its parent *)

(** Entries of the same size can take the place of others. *)
Lemma node_same node b h pre es le tail es' le' :
  node_ok node b h pre es le tail -> Forall (ent_ok node false) es' -> ent_ok node true le' -> zlen (concat es') + zlen le' = zlen (concat es) + zlen le ->
  node_ok node (pre ++ concat es' ++ le' ++ tail) h pre es' le' tail.
Proof.
  intros H Hes Hle Hz. destruct (no_head _ _ _ _ _ _ _ H) as [Hh0 Hh]. destruct (node_bytes _ _ _ _ _ _ _ H) as (Hb & _ & _ & Ht).
  assert (zlen (pre ++ concat es' ++ le' ++ tail) = zlen b) as Hzb by (rewrite (node_size _ _ _ _ _ _ _ H), !zlen_app; lia).
  assert (forall n q i, 0 <= i -> i + Z.of_nat n <= zlen pre -> rd_le n (pre ++ q) i = rd_le n b i) as Hrd.
  { intros. rewrite (no_eq _ _ _ _ _ _ _ H). by rewrite !rd_le_app_l by lia. }
  constructor; try done.
  - unfold entries_offset. rewrite Hrd by lia. apply (no_first _ _ _ _ _ _ _ H).
  - unfold index_length. rewrite Hrd by lia. pose proof (no_len _ _ _ _ _ _ _ H) as E. unfold index_length in E. rewrite E. f_equal. lia.
  - unfold allocated_size. rewrite Hrd, Hzb by lia. apply (no_alloc _ _ _ _ _ _ _ H).
  - destruct (no_flag _ _ _ _ _ _ _ H) as (f & Ef & Hf). exists f. split; [|done]. unfold ih_flags in *.
    rewrite (no_eq _ _ _ _ _ _ _ H), rd_app_l in Ef by lia. by rewrite rd_app_l by lia.
  - rewrite !Forall_app. split_and!; [done|by eapply entries_bytes|apply (en_bytes _ _ _ Hle)|done].
  - rewrite Hzb. apply (no_small _ _ _ _ _ _ _ H).
Qed.

(** The entries from one on, with another child of the first. *)
Definition first_of (es : list bytes) (le : bytes) : bytes := match es with x :: _ => x | [] => le end.
Definition rest_of (es : list bytes) (le : bytes) : bytes := match es with _ :: l => concat l ++ le | [] => [] end.
Definition with_first (es : list bytes) (le : bytes) (x : bytes) : list bytes * bytes := match es with _ :: l => (x :: l, le) | [] => ([], x) end.

Lemma first_rest es le : concat es ++ le = first_of es le ++ rest_of es le.
Proof. destruct es as [|x es]; cbn; [by rewrite app_nil_r|by rewrite <- (assoc_L (++))]. Qed.

Lemma with_first_bytes es le x : concat (with_first es le x).1 ++ (with_first es le x).2 = x ++ rest_of es le.
Proof. destruct es as [|y es]; cbn; [by rewrite app_nil_r|by rewrite <- (assoc_L (++))]. Qed.

Lemma first_ok node es le : Forall (ent_ok node false) es -> ent_ok node true le -> exists last, ent_ok node last (first_of es le).
Proof. intros F H. destruct es as [|x es]; [by exists true|]. exists false. by apply Forall_cons in F as [? _]. Qed.

Lemma with_first_ok es le v :
  Forall (ent_ok true false) es -> ent_ok true true le -> 0 <= v < 2 ^ 63 ->
  let '(es', le') := with_first es le (with_vcn (first_of es le) v) in
  Forall (ent_ok true false) es' /\ ent_ok true true le' /\ map ent_key es' = map ent_key es /\
  map ent_vcn (es' ++ [le']) = v :: map ent_vcn (tail (es ++ [le])) /\ zlen (concat es') + zlen le' = zlen (concat es) + zlen le /\
  map zlen es' = map zlen es /\ zlen le' = zlen le.
Proof.
  intros F H Hv. destruct es as [|x es]; cbn [with_first first_of].
  - split; [constructor|]. split; [by apply with_vcn_ok|]. split; [done|]. split; [cbn; by rewrite (with_vcn_vcn true le H v Hv)|].
    cbn [concat]. by rewrite (zlen_with_vcn true le H v).
  - apply Forall_cons in F as [Hx F]. split; [constructor; [by apply with_vcn_ok|done]|]. split; [done|].
    split; [cbn [map]; by rewrite (with_vcn_key false x Hx v eq_refl)|]. split; [cbn; by rewrite (with_vcn_vcn false x Hx v Hv)|].
    cbn [concat map]. rewrite !zlen_app, (zlen_with_vcn false x Hx v). split; [lia|done].
Qed.

Section Insert_median.
Context (b : bytes) (h : Z) (pre : bytes) (es1 es2 : list bytes) (le tail : bytes) (H : node_ok true b h pre (es1 ++ es2) le tail).

Lemma node_at_first : b = (pre ++ concat es1) ++ first_of es2 le ++ rest_of es2 le ++ tail.
Proof using H. rewrite (node_split _ _ _ _ _ _ _ _ H). rewrite (assoc_L (++) (concat es2)), first_rest. by rewrite <- !(assoc_L (++)). Qed.

Lemma node_with_first v : 0 <= v < 2 ^ 63 ->
  let '(es', le') := with_first es2 le (with_vcn (first_of es2 le) v) in
  ntfs_ie_set_vcn b (zlen (pre ++ concat es1)) v = Ret (pre ++ concat (es1 ++ es') ++ le' ++ tail) /\
  node_ok true (pre ++ concat (es1 ++ es') ++ le' ++ tail) h pre (es1 ++ es') le' tail /\
  zlen (pre ++ concat (es1 ++ es') ++ le' ++ tail) = zlen b.
Proof using H.
  intros Hv. pose proof (no_entries _ _ _ _ _ _ _ H) as F. apply Forall_app in F as [F1 F2]. pose proof (no_last _ _ _ _ _ _ _ H) as Hle.
  destruct (first_ok true es2 le F2 Hle) as [last Hfi]. pose proof (with_first_ok es2 le v F2 Hle Hv) as Hw.
  pose proof (with_first_bytes es2 le (with_vcn (first_of es2 le) v)) as Hb. destruct (with_first es2 le _) as [es' le']. cbn [fst snd] in Hb.
  destruct Hw as (F' & Hle' & _ & _ & Hz & _). split; [|split].
  - rewrite node_at_first at 1. rewrite (set_vcn_mid last _ Hfi). rewrite concat_app, <- !(assoc_L (++)). do 2 f_equal.
    by rewrite (assoc_L (++) (concat es')), Hb, <- !(assoc_L (++)).
  - apply (node_same true b h pre (es1 ++ es2) le tail); try done; [by apply Forall_app|]. rewrite !concat_app, !zlen_app. lia.
  - rewrite (node_size _ _ _ _ _ _ _ H). rewrite !concat_app, !zlen_app. lia.
Qed.

Lemma by_pos_node : ntfs_ie_get_by_pos b h (Z.of_nat (length es1)) = Ret (zlen (pre ++ concat es1)).
Proof using H.
  unfold ntfs_ie_get_by_pos. rewrite (node_first _ _ _ _ _ _ _ H). cbn [obind]. rewrite Nat2Z.id, (no_eq _ _ _ _ _ _ _ H), concat_app, <- (assoc_L (++) (concat es1)).
  apply (by_pos_ok true). pose proof (no_entries _ _ _ _ _ _ _ H) as F. by apply Forall_app in F as [F1 _].
Qed.

Lemma get_vcn_node : ntfs_ie_get_vcn b (zlen (pre ++ concat es1)) = Ret (ent_vcn (first_of es2 le)).
Proof using H.
  pose proof (no_entries _ _ _ _ _ _ _ H) as F. apply Forall_app in F as [F1 F2]. destruct (first_ok true es2 le F2 (no_last _ _ _ _ _ _ _ H)) as [last Hfi].
  rewrite node_at_first. by apply (ent_vcn_mid true last).
Qed.
End Insert_median.

(** A copy of an entry that has room for a child. *)
Lemma dup_with_vcn node past m junk : ent_ok node false m -> zlen m + 8 < 2 ^ 15 -> zlen past = 8 -> Forall byte_ok past ->
  exists m', (let! ie := ntfs_ie_dup (m ++ junk) in let! f := ie_flags ie 0 in if Z.land f INDEX_ENTRY_NODE =? 0 then ntfs_ie_add_vcn past ie else Ret ie) = Ret m' /\
    ent_ok true false m' /\ ent_key m' = ent_key m /\ zlen m' = zlen m + (if node then 0 else 8).
Proof.
  intros H Hs Hf Hfb. pose proof (ent_size16 _ _ _ H). destruct (en_flags _ _ _ H) as (g & Eg & Hg & _).
  assert (ntfs_ie_dup (m ++ junk) = Ret m) as ->.
  { unfold ntfs_ie_dup. unfold ie_length. rewrite rd_le_app_l by lia. pose proof (en_length _ _ _ H) as E. unfold ie_length in E. rewrite E. cbn [obind].
    rewrite rdn_ok by (rewrite ?zlen_app; pose proof (zlen_nonneg junk); lia). by rewrite sub_app_first, sub_all by lia. }
  cbn [obind]. rewrite Eg. cbn [obind]. rewrite Hg. destruct node; cbn [negb].
  - exists m. split_and!; try done. lia.
  - destruct (add_vcn_ok past m H Hs Hf Hfb) as (m' & -> & Hok & Hk & Hz). by exists m'.
Qed.

Lemma ih_insert_ok past b h pre es1 es2 le tail node m junk new_vcn :
  node_ok true b h pre (es1 ++ es2) le tail -> ent_ok node false m -> zlen m + (if node then 0 else 8) <= zlen tail -> zlen m + 8 < 2 ^ 15 ->
  zlen past = 8 -> Forall byte_ok past -> 0 <= new_vcn < 2 ^ 63 -> 0 <= ent_vcn (first_of es2 le) < 2 ^ 63 ->
  exists b' v m' es2' le' tail', ntfs_ih_insert past b h (m ++ junk) new_vcn (Z.of_nat (length es1)) = Ret b' /\
    node_ok true b' h (with_len pre h v) (es1 ++ m' :: es2') le' tail' /\ zlen b' = zlen b /\
    ent_key m' = ent_key m /\ ent_vcn m' = ent_vcn (first_of es2 le) /\ map ent_key es2' = map ent_key es2 /\
    map ent_vcn (es2' ++ [le']) = new_vcn :: map ent_vcn (List.tail (es2 ++ [le])) /\
    zlen m' = zlen m + (if node then 0 else 8) /\ map zlen es2' = map zlen es2 /\ zlen le' = zlen le.
Proof.
  intros H Hm Hfit Hs Hf Hfb Hnew Hold. pose proof (no_entries _ _ _ _ _ _ _ H) as F. apply Forall_app in F as [F1 F2].
  pose proof (with_first_ok es2 le new_vcn F2 (no_last _ _ _ _ _ _ _ H) Hnew) as Hw. pose proof (node_with_first b h pre es1 es2 le tail H new_vcn Hnew) as Hn.
  destruct (with_first es2 le _) as [es2' le']. destruct Hw as (F' & Hle' & Hk' & Hv' & _ & Hz' & Hzl'). destruct Hn as (Eset & Hn & Hzs).
  destruct (dup_with_vcn node past m junk Hm Hs Hf Hfb) as (m1 & Edup & Hm1 & Hk1 & Hz1).
  destruct (node_insert_ok true _ h pre es1 es2' le' tail m1 [] Hn Hm1) as (Eins & Hn1 & Hzb); [lia|]. rewrite app_nil_r in Eins.
  set (v := zlen pre - h + zlen (concat (es1 ++ m1 :: es2')) + zlen le') in *. set (pre' := with_len pre h v) in *. set (tail' := drop (Z.to_nat (zlen m1)) tail) in *.
  destruct (no_head _ _ _ _ _ _ _ H) as [Hh0 Hh]. assert (zlen pre' = zlen pre) as Hp by (by apply zlen_with_len).
  pose proof (node_with_first _ h pre' es1 (m1 :: es2') le' tail' Hn1 (ent_vcn (first_of es2 le)) Hold) as Hn2. cbn [with_first first_of] in Hn2. destruct Hn2 as (Eset2 & Hn2 & Hzs2).
  eexists _, v, (with_vcn m1 (ent_vcn (first_of es2 le))), es2', le', tail'.
  split; [|split; [exact Hn2|split; [|split; [|split; [|split; [|split; [|split]]]]]]].
  - unfold ntfs_ih_insert. destruct (ntfs_ie_dup (m ++ junk)) as [ie| |]; cbn [obind] in Edup |- *; try done.
    destruct (ie_flags ie 0) as [fl| |]; cbn [obind] in Edup |- *; try done. rewrite Edup. cbn [obind].
    rewrite (by_pos_node _ _ _ _ _ _ _ H). cbn [obind]. rewrite (get_vcn_node _ _ _ _ _ _ _ H). cbn [obind]. rewrite Eset. cbn [obind]. rewrite Eins. cbn [obind]. rewrite zlen_app, <- Hp, <- zlen_app. exact Eset2.
  - by rewrite Hzs2, Hzb.
  - by rewrite (with_vcn_key false m1 Hm1 _ eq_refl).
  - by apply (with_vcn_vcn false m1 Hm1).
  - done.
  - done.
  - by rewrite (zlen_with_vcn false m1 Hm1).
  - done.
Qed.

(** ** The old block *)
Lemma get_last_ok node es p le tail stop fuel :
  Forall (ent_ok node false) es -> ent_ok node true le -> stop = zlen p + zlen (concat es) + zlen le -> (length es < fuel)%nat ->
  ntfs_ie_get_last fuel (p ++ concat es ++ le ++ tail) (zlen p) stop = Ret (zlen (p ++ concat es)).
Proof.
  intros F Hle -> Hf. pose proof (ent_size16 _ _ _ Hle). revert p fuel Hf.
  induction F as [|x l Hx Hl IH]; intros p fuel Hf; (destruct fuel as [|fuel]; [cbn in Hf; lia|]); cbn [concat app ntfs_ie_get_last length].
  - change (zlen (@nil Z)) with 0. destruct (Z.ltb_spec (zlen p) (zlen p + 0 + zlen le)); [|lia]. rewrite (ent_end node true le Hle). cbn [obind]. by rewrite app_nil_r.
  - rewrite <- (assoc_L (++) x). pose proof (ent_size16 _ _ _ Hx). pose proof (zlen_nonneg (concat l)). rewrite (zlen_app x).
    destruct (Z.ltb_spec (zlen p) (zlen p + (zlen x + zlen (concat l)) + zlen le)); [|lia].
    rewrite (ent_end node false x Hx). cbn [obind]. rewrite (ent_next node false x Hx). cbn [obind]. specialize (IH (p ++ x) fuel ltac:(cbn in Hf; lia)).
    rewrite <- (assoc_L (++) p x), (zlen_app p x) in IH. rewrite (zlen_app p x). rewrite !Z.add_assoc. rewrite IH. f_equal. by rewrite <- (assoc_L (++) p x).
Qed.

Lemma node_get_last node b h pre es le tail : node_ok node b h pre es le tail ->
  ntfs_ie_get_last (S (length b)) b (zlen pre) (zlen pre + zlen (concat es) + zlen le) = Ret (zlen (pre ++ concat es)).
Proof.
  intros H. rewrite (no_eq _ _ _ _ _ _ _ H) at 2. apply (get_last_ok node); [apply (no_entries _ _ _ _ _ _ _ H)|apply (no_last _ _ _ _ _ _ _ H)|done|].
  apply (node_fuel _ _ _ _ _ _ _ H).
Qed.

(** A part of a record is overwritten from its start on. *)
Lemma wrn_start {A} (p q x : list A) : zlen x <= zlen q -> wrn (p ++ q) (zlen p) x = Ret (p ++ x ++ drop (Z.to_nat (zlen x)) q).
Proof.
  intros Hx. rewrite <- (take_drop (Z.to_nat (zlen x)) q) at 1. apply wrn_part. unfold zlen in *. rewrite length_take. lia.
Qed.

(** The last entry of a node that keeps what is before the median. *)
Definition cut_last (node : bool) (le m : bytes) : bytes := if node then with_vcn le (ent_vcn m) else le.

Lemma ent_flag_le node b h pre es le tail : node_ok node b h pre es le tail ->
  exists f, ie_flags b (zlen (pre ++ concat es)) = Ret f /\ (Z.land f INDEX_ENTRY_NODE =? 0) = negb node.
Proof.
  intros H. destruct (ent_node_flag node true le (no_last _ _ _ _ _ _ _ H) (pre ++ concat es) tail) as (f & E & Hf). exists f. split; [|done].
  rewrite (no_eq _ _ _ _ _ _ _ H). by rewrite (assoc_L (++) pre).
Qed.

Lemma ib_head_ok node b pre es1 m es2 le tail :
  node_ok node b BLOCK_INDEX pre (es1 ++ m :: es2) le tail -> (node = true -> 0 <= ent_vcn m < 2 ^ 63) ->
  exists b' v tail', ib_head b (zlen (pre ++ concat es1)) = Ret b' /\ node_ok node b' BLOCK_INDEX (with_len pre BLOCK_INDEX v) es1 (cut_last node le m) tail' /\ zlen b' = zlen b.
Proof.
  intros H Hv. destruct (no_head _ _ _ _ _ _ _ H) as [Hh0 Hh]. pose proof (no_small _ _ _ _ _ _ _ H) as Hsm.
  set (le' := cut_last node le m). set (b1 := pre ++ concat (es1 ++ m :: es2) ++ le' ++ tail).
  assert (node_ok node b1 BLOCK_INDEX pre (es1 ++ m :: es2) le' tail /\ zlen b1 = zlen b /\
    (let! f := ie_flags b (zlen (pre ++ concat (es1 ++ m :: es2))) in
     if negb (Z.land f INDEX_ENTRY_NODE =? 0) then let! v := ntfs_ie_get_vcn b (zlen (pre ++ concat es1)) in ntfs_ie_set_vcn b (zlen (pre ++ concat (es1 ++ m :: es2))) v else Ret b) = Ret b1)
    as (Hn1 & Hz1 & E1).
  { destruct (ent_flag_le _ _ _ _ _ _ _ H) as (f & -> & Hf). cbn [obind]. rewrite Hf. unfold b1, le', cut_last. destruct node; cbn [negb].
    - specialize (Hv eq_refl). rewrite (get_vcn_node b BLOCK_INDEX pre es1 (m :: es2) le tail H). cbn [obind first_of].
      rewrite <- (app_nil_r (es1 ++ m :: es2)) in H. pose proof (node_with_first _ _ _ _ _ _ _ H (ent_vcn m) Hv) as Hn. cbn [with_first first_of] in Hn.
      rewrite app_nil_r in Hn. destruct Hn as (Es & Hn & Hzn). split; [exact Hn|]. split; [exact Hzn|exact Es].
    - rewrite <- (no_eq _ _ _ _ _ _ _ H). done. }
  pose proof (node_size _ _ _ _ _ _ _ Hn1) as Hz. pose proof (no_last _ _ _ _ _ _ _ Hn1) as Hle'. pose proof (ent_size16 _ _ _ Hle') as Hs'.
  pose proof (no_entries _ _ _ _ _ _ _ Hn1) as F. apply Forall_app in F as [F1 F2]. pose proof F2 as F2'. apply Forall_cons in F2' as [Hm F2'].
  assert (zlen (concat (es1 ++ m :: es2)) = zlen (concat es1) + zlen m + zlen (concat es2)) as Hc by (rewrite concat_app; cbn [concat]; rewrite !zlen_app; lia).
  pose proof (zlen_nonneg (concat es1)). pose proof (zlen_nonneg (concat es2)). pose proof (zlen_nonneg tail). pose proof (ent_size16 _ _ _ Hm).
  set (q := m ++ concat es2 ++ le' ++ tail). set (tail' := drop (Z.to_nat (zlen le')) q).
  assert (zlen q = zlen m + zlen (concat es2) + zlen le' + zlen tail) as Hq by (unfold q; rewrite !zlen_app; lia).
  assert (zlen tail' = zlen q - zlen le') as Ht' by (unfold tail', zlen in *; rewrite length_drop; lia).
  assert (b1 = (pre ++ concat es1) ++ q) as Eb1.
  { unfold b1, q. rewrite concat_app. cbn [concat]. by rewrite <- !(assoc_L (++)). }
  assert (zlen pre + zlen (concat es1) + zlen m + zlen (concat es2) + zlen le' <= zlen b) as Hfit by lia.
  destruct (node_bytes _ _ _ _ _ _ _ Hn1) as (Hb & Hbc & Hbl & Hbt).
  assert (node_ok node (with_len pre BLOCK_INDEX (zlen pre - BLOCK_INDEX + zlen (concat es1) + zlen le') ++ concat es1 ++ le' ++ tail') BLOCK_INDEX
    (with_len pre BLOCK_INDEX (zlen pre - BLOCK_INDEX + zlen (concat es1) + zlen le')) es1 le' tail') as Hn2.
  { apply (node_rebuild node b1 BLOCK_INDEX pre (es1 ++ m :: es2) le' tail); try done; [|lia]. apply Forall_drop. unfold q. rewrite concat_app in Hbc. cbn [concat] in Hbc.
    rewrite !Forall_app in *. naive_solver. }
  eexists _, _, tail'. split; [|split; [exact Hn2|]].
  - unfold ib_head. rewrite (node_first _ _ _ _ _ _ _ H), (node_end _ _ _ _ _ _ _ H). cbn [obind]. rewrite (node_get_last _ _ _ _ _ _ _ H). cbn [obind].
    destruct (ie_flags b (zlen (pre ++ concat (es1 ++ m :: es2)))) as [f| |]; cbn [obind] in E1 |- *; try done. rewrite E1. cbn [obind].
    assert (ie_length b1 (zlen (pre ++ concat (es1 ++ m :: es2))) = Ret (zlen le')) as El.
    { unfold b1. rewrite (assoc_L (++) pre). rewrite ie_length_mid by lia. apply (en_length _ _ _ Hle'). }
    rewrite El. cbn [obind]. rewrite rdn_ok by (rewrite ?zlen_app; lia). cbn [obind].
    assert (sub b1 (zlen (pre ++ concat (es1 ++ m :: es2))) (zlen le') = le') as ->.
    { unfold b1. rewrite (assoc_L (++) pre). by apply sub_app_here. }
    rewrite Eb1, wrn_start by lia. cbn [obind]. fold tail'. rewrite ie_length_mid by lia. rewrite (en_length _ _ _ Hle'). cbn [obind].
    assert (entries_offset ((pre ++ concat es1) ++ le' ++ tail') BLOCK_INDEX = Ret (zlen pre - BLOCK_INDEX)) as ->.
    { pose proof (no_first _ _ _ _ _ _ _ H) as E. unfold entries_offset in *. rewrite (no_eq _ _ _ _ _ _ _ H) in E.
      rewrite rd_le_app_l in E by lia. rewrite <- (assoc_L (++) pre), rd_le_app_l by lia. exact E. }
    cbn [obind]. rewrite <- (assoc_L (++) pre), put_len by done.
    assert (zlen (pre ++ concat es1) - zlen pre + zlen le' + (zlen pre - BLOCK_INDEX) = zlen pre - BLOCK_INDEX + zlen (concat es1) + zlen le') as -> by (rewrite zlen_app; lia).
    done.
  - rewrite (node_size _ _ _ _ _ _ _ Hn2), zlen_with_len by done. lia.
Qed.

(** ** A new block *)
Lemma put_whole n g i v fs :
  fields g fs -> 0 <= i -> i + Z.of_nat n <= zlen g -> Forall (fun f => f.1 + zlen f.2 <= i \/ i + Z.of_nat n <= f.1) fs ->
  exists g', put n g i v = Ret g' /\ zlen g' = zlen g /\ fields g' ((i, le_bytes n v) :: fs).
Proof.
  intros Hf Hi Hn Hd. destruct (put_field n [] g [] i v fs Hf Hi Hn Hd) as (g' & E & Hz & F). cbn [app] in E. rewrite !app_nil_r in E.
  by exists g'.
Qed.

Ltac whole g Hz F :=
  match goal with
  | F' : fields ?g0 ?fs |- context [put ?n ?g0 ?i ?v] =>
    destruct (put_whole n g0 i v fs F') as (g & -> & Hz & F); [lia|lia|disjoint_fields|]; cbn [obind]; clear F'
  end.

Lemma round8 x : Z.land (x + 7) (Z.lnot 7) = (x + 7) / 8 * 8.
Proof.
  change 7 with (Z.ones 3). rewrite <- Z.ldiff_land, Z.ldiff_ones_r by lia. rewrite Z.shiftr_div_pow2, Z.shiftl_mul_pow2 by lia. done.
Qed.

(** Where the entries of a new block begin, in its header. *)
Definition first_offset (bs : Z) : Z := (16 + (bs / 512 + 1) * 2 + 7) / 8 * 8.

Lemma first_offset_bounds bs : 512 <= bs -> 16 + (bs / 512 + 1) * 2 <= first_offset bs < 24 + (bs / 512 + 1) * 2.
Proof. intros. unfold first_offset. pose proof (Z.div_mod (16 + (bs / 512 + 1) * 2 + 7) 8 ltac:(lia)). pose proof (Z.mod_pos_bound (16 + (bs / 512 + 1) * 2 + 7) 8 ltac:(lia)). lia. Qed.

Lemma ib_alloc_ok vcn bs nt : 512 <= bs < 2 ^ 24 ->
  exists g, ntfs_ib_alloc vcn bs nt = Ret g /\ zlen g = bs /\
    fields g [(36, le_bytes 1 nt); (32, le_bytes 4 (bs - 24)); (28, le_bytes 4 0); (24, le_bytes 4 (first_offset bs)); (16, le_bytes 8 vcn); (8, le_bytes 8 0);
      (40, le_bytes 2 1); (6, le_bytes 2 (bs / 512 + 1)); (4, le_bytes 2 40); (0, le_bytes 4 magic_INDX)].
Proof.
  intros Hbs. unfold ntfs_ib_alloc. set (g0 := replicate (Z.to_nat bs) 0).
  assert (zlen g0 = bs) as Z0 by (unfold g0; rewrite zlen_replicate; lia).
  assert (fields g0 []) as F0 by (split; [apply Forall_replicate; by split|constructor]).
  whole g1 Z1 F1. whole g2 Z2 F2. whole g3 Z3 F3. rewrite (fields_rd_le 2 g3 _ 4 40 F3) by in_fields. cbn [obind].
  change (40 mod 256 ^ Z.of_nat 2) with 40. whole g4 Z4 F4. whole g5 Z5 F5. whole g6 Z6 F6.
  rewrite (fields_rd_le 2 g6 _ 6 (bs / 512 + 1) F6) by in_fields. cbn [obind]. assert (0 <= bs / 512 < 2 ^ 15) by (split; [apply Z.div_pos; lia|apply Z.div_lt_upper_bound; lia]).
  rewrite Z.mod_small by (change (256 ^ Z.of_nat 2) with 65536; lia). rewrite round8. fold (first_offset bs).
  whole g7 Z7 F7. whole g8 Z8 F8. whole g9 Z9 F9. whole g10 Z10 F10. exists g10. split; [done|]. split; [lia|exact F10].
Qed.

Lemma node_intro (node : bool) h (p : bytes) (es : list bytes) (le tail : bytes) fl :
  0 <= h -> h + 16 <= zlen p -> entries_offset p h = Ret (zlen p - h) -> allocated_size p h = Ret (zlen p + zlen (concat es) + zlen le + zlen tail - h) ->
  ih_flags p h = Ret fl -> Z.land fl NODE_MASK = (if node then 1 else 0) -> Forall byte_ok p -> Forall (ent_ok node false) es -> ent_ok node true le -> Forall byte_ok tail ->
  zlen p + zlen (concat es) + zlen le + zlen tail < 2 ^ 31 ->
  let p' := with_len p h (zlen p - h + zlen (concat es) + zlen le) in node_ok node (p' ++ concat es ++ le ++ tail) h p' es le tail.
Proof.
  intros Hh0 Hh Eo Ea Ef Hf Hp Hes Hle Htail Hs p'. assert (zlen p' = zlen p) as Hz by (by apply zlen_with_len).
  pose proof (zlen_nonneg (concat es)). pose proof (zlen_nonneg tail). pose proof (ent_size16 _ _ _ Hle).
  assert (forall n q i, 0 <= i -> i + Z.of_nat n <= zlen p -> i + Z.of_nat n <= h + 4 \/ h + 8 <= i -> rd_le n (p' ++ q) i = rd_le n p i) as Hrd.
  { intros n q i Hi Hn Hd. rewrite rd_le_app_l by lia. apply rd_le_eq. intros k Hk. apply rd_with_len; lia. }
  constructor; try done.
  - lia.
  - unfold entries_offset. rewrite Hrd, Hz by lia. exact Eo.
  - unfold p' at 1. rewrite len_with_len by lia. f_equal. lia.
  - unfold allocated_size. rewrite Hrd by lia. rewrite !zlen_app, Hz. unfold allocated_size in Ea. rewrite Ea. f_equal. lia.
  - exists fl. split; [|done]. unfold ih_flags. rewrite rd_app_l by lia. unfold p'. rewrite rd_with_len by lia. exact Ef.
  - rewrite !Forall_app. split_and!; [by apply byte_ok_with_len|by eapply entries_bytes|apply (en_bytes _ _ _ Hle)|done].
  - rewrite !zlen_app. lia.
Qed.

(** What a block has in front of its index header, and its update sequence array,
    which ends before the entries. *)
Record block_ok (bs vcn : Z) (b pre : bytes) : Prop := {
  bk_magic : rd_le 4 b 0 = Ret magic_INDX;
  bk_vcn : exists v, rd_le 8 b 16 = Ret v /\ s64 v = vcn;
  bk_usa : exists uo, rd_le 2 b 4 = Ret uo /\ rd_le 2 b 6 = Ret (bs / 512 + 1) /\ 40 <= uo /\ uo + 2 * (bs / 512 + 1) <= zlen pre;
  bk_size : zlen b = bs;
}.

Lemma block_ok_eq bs vcn b pre b' pre' :
  block_ok bs vcn b pre -> (forall i, 0 <= i < 24 -> rd b' i = rd b i) -> zlen pre' = zlen pre -> zlen b' = zlen b -> block_ok bs vcn b' pre'.
Proof.
  intros H Hrd Hp Hz. assert (forall n i, 0 <= i -> i + Z.of_nat n <= 24 -> rd_le n b' i = rd_le n b i) as E.
  { intros n i Hi Hn. apply rd_le_eq. intros k Hk. apply Hrd. lia. }
  constructor; rewrite ?E, ?Hp, ?Hz by lia; apply H.
Qed.

(** A changed length does not matter. *)
Lemma block_ok_len bs vcn b pre q v q' :
  b = pre ++ q -> 40 <= zlen pre -> zlen q' = zlen q -> block_ok bs vcn b pre -> block_ok bs vcn (with_len pre BLOCK_INDEX v ++ q') (with_len pre BLOCK_INDEX v).
Proof.
  intros -> Hp Hq H. assert (zlen (with_len pre BLOCK_INDEX v) = zlen pre) as Hz by (apply zlen_with_len; unfold BLOCK_INDEX; lia).
  apply (block_ok_eq bs vcn (pre ++ q) pre); [done| |done|rewrite !zlen_app; lia].
  intros i Hi. rewrite !rd_app_l by lia. apply rd_with_len; unfold BLOCK_INDEX; lia.
Qed.

(** Entries are stored in a new block. *)
Lemma fill_block bs vcn nt g p q :
  512 <= bs < 2 ^ 24 -> 0 <= vcn < 2 ^ 63 -> zlen g = bs ->
  fields g [(36, le_bytes 1 nt); (32, le_bytes 4 (bs - 24)); (28, le_bytes 4 0); (24, le_bytes 4 (first_offset bs)); (16, le_bytes 8 vcn); (8, le_bytes 8 0);
      (40, le_bytes 2 1); (6, le_bytes 2 (bs / 512 + 1)); (4, le_bytes 2 40); (0, le_bytes 4 magic_INDX)] ->
  g = p ++ q -> zlen p = 24 + first_offset bs ->
  entries_offset p BLOCK_INDEX = Ret (zlen p - BLOCK_INDEX) /\ allocated_size p BLOCK_INDEX = Ret (bs - 24) /\ ih_flags p BLOCK_INDEX = Ret (nt mod 256) /\
  block_ok bs vcn g p /\ Forall byte_ok p /\ Forall byte_ok q.
Proof.
  intros Hbs Hvcn Hz F Eg Hp. pose proof (first_offset_bounds bs ltac:(lia)) as Hfo. assert (0 <= bs / 512 < 2 ^ 15) by (split; [apply Z.div_pos; lia|apply Z.div_lt_upper_bound; lia]).
  assert (forall n i, 0 <= i -> i + Z.of_nat n <= zlen p -> rd_le n p i = rd_le n g i) as E by (intros n i Hi Hn; rewrite Eg; by rewrite rd_le_app_l by lia).
  split_and!.
  - unfold entries_offset, BLOCK_INDEX. rewrite E by lia. rewrite (fields_rd_le 4 g _ 24 (first_offset bs) F) by in_fields. f_equal.
    rewrite Z.mod_small by (change (256 ^ Z.of_nat 4) with 4294967296; lia). lia.
  - unfold allocated_size, BLOCK_INDEX. rewrite E by lia. change (24 + 8) with 32. rewrite (fields_rd_le 4 g _ 32 (bs - 24) F) by in_fields.
    rewrite Z.mod_small; [done|]. change (256 ^ Z.of_nat 4) with 4294967296. lia.
  - unfold ih_flags, BLOCK_INDEX. change (24 + 12) with 36. rewrite <- (rd_app_l p q) by lia. rewrite <- Eg. apply (fields_rd g _ 36 nt F). in_fields.
  - constructor; [| | |done].
    + rewrite (fields_rd_le 4 g _ 0 magic_INDX F) by in_fields. done.
    + rewrite (fields_rd_le 8 g _ 16 vcn F) by in_fields. eexists. split; [done|]. change (256 ^ Z.of_nat 8) with (2 ^ 64). rewrite Z.mod_small by lia.
      apply wraps_small; [lia|unfold in_s; lia].
    + exists 40. rewrite (fields_rd_le 2 g _ 4 40 F), (fields_rd_le 2 g _ 6 (bs / 512 + 1) F) by in_fields. split; [done|]. split; [|lia].
      rewrite Z.mod_small; [done|]. change (256 ^ Z.of_nat 2) with 65536. lia.
  - destruct F as [Fb _]. rewrite Eg in Fb. by apply Forall_app in Fb as [? _].
  - destruct F as [Fb _]. rewrite Eg in Fb. by apply Forall_app in Fb as [_ ?].
Qed.

Lemma split_first g n : 0 <= n <= zlen g -> exists p q : bytes, g = p ++ q /\ zlen p = n /\ zlen q = zlen g - n.
Proof.
  intros Hn. exists (take (Z.to_nat n) g), (drop (Z.to_nat n) g). split; [by rewrite take_drop|]. unfold zlen in *. rewrite length_take, length_drop. lia.
Qed.

Lemma ib_tail_ok node bs src pre es1 m es2 le tail v new_vcn :
  node_ok node src BLOCK_INDEX pre (es1 ++ m :: es2) le tail -> block_ok bs v src pre -> 512 <= bs < 2 ^ 24 -> 0 <= new_vcn < 2 ^ 63 ->
  exists dst pre' tail', ib_tail bs src (zlen (pre ++ concat es1)) new_vcn = Ret dst /\ node_ok node dst BLOCK_INDEX pre' es2 le tail' /\ block_ok bs new_vcn dst pre' /\
    zlen pre' = 24 + first_offset bs.
Proof.
  intros H Hb Hbs Hnew. pose proof (node_size _ _ _ _ _ _ _ H) as Hz. rewrite (bk_size _ _ _ _ Hb) in Hz. destruct (bk_usa _ _ _ _ Hb) as (uo & _ & _ & Huo & Hup).
  pose proof (first_offset_bounds bs ltac:(lia)) as Hfo. pose proof (no_entries _ _ _ _ _ _ _ H) as F. apply Forall_app in F as [F1 F2]. apply Forall_cons in F2 as [Hm F2].
  pose proof (no_last _ _ _ _ _ _ _ H) as Hle. pose proof (ent_size16 _ _ _ Hm). pose proof (ent_size16 _ _ _ Hle). pose proof (zlen_nonneg (concat es1)). pose proof (zlen_nonneg (concat es2)). pose proof (zlen_nonneg tail).
  assert (zlen (concat (es1 ++ m :: es2)) = zlen (concat es1) + zlen m + zlen (concat es2)) as Hc by (rewrite concat_app; cbn [concat]; rewrite !zlen_app; lia).
  destruct (no_flag _ _ _ _ _ _ _ H) as (fl & Efl & Hfl). unfold ib_tail. rewrite Efl. cbn [obind]. rewrite Hfl.
  set (nt := if node then 1 else 0). destruct (ib_alloc_ok new_vcn bs nt Hbs) as (g & -> & Hg & Fg). cbn [obind].
  assert (src = (pre ++ concat es1) ++ m ++ concat es2 ++ le ++ tail) as Es.
  { rewrite (no_eq _ _ _ _ _ _ _ H), concat_app. cbn [concat]. by rewrite <- !(assoc_L (++)). }
  assert (ntfs_ie_get_next src (zlen (pre ++ concat es1)) = Ret (zlen ((pre ++ concat es1) ++ m))) as -> by (rewrite Es; by apply (ent_next node false)).
  cbn [obind]. rewrite (node_end _ _ _ _ _ _ _ H). cbn [obind].
  pose proof (Z.mul_div_le bs 512 ltac:(lia)). assert (1 <= bs / 512) by (apply Z.div_le_lower_bound; lia).
  destruct (split_first g (24 + first_offset bs)) as (p & q & Eg & Hp & Hq); [lia|].
  destruct (fill_block bs new_vcn nt g p q Hbs Hnew Hg Fg Eg Hp) as (Eo & Ea & Ef & Hbk & Hpb & Hqb).
  assert (forall q', entries_offset (p ++ q') BLOCK_INDEX = Ret (first_offset bs)) as Eoq.
  { intros q'. unfold entries_offset in *. rewrite rd_le_app_l, Eo by (unfold BLOCK_INDEX; lia). f_equal. unfold BLOCK_INDEX. lia. }
  unfold ntfs_ie_get_first. rewrite Eg, Eoq. cbn [obind].
  assert (s32 (zlen pre + zlen (concat (es1 ++ m :: es2)) + zlen le - zlen ((pre ++ concat es1) ++ m)) = zlen (concat es2 ++ le)) as ->.
  { rewrite wraps_small; [rewrite !zlen_app; lia|lia|]. unfold in_s. rewrite !zlen_app. lia. }
  pose proof (zlen_app (concat es2) le) as Hx. destruct (Z.ltb_spec (zlen (concat es2 ++ le)) 0); [lia|].
  rewrite rdn_ok by (rewrite ?Es, ?zlen_app; lia). cbn [obind].
  assert (sub src (zlen ((pre ++ concat es1) ++ m)) (zlen (concat es2 ++ le)) = concat es2 ++ le) as ->.
  { rewrite Es. rewrite (assoc_L (++) _ m), (assoc_L (++) (concat es2)). by apply sub_app_here. }
  replace (BLOCK_INDEX + first_offset bs) with (zlen p) by (unfold BLOCK_INDEX; lia). rewrite wrn_start by lia. cbn [obind].
  rewrite Eoq. cbn [obind]. rewrite put_len by (unfold BLOCK_INDEX; lia).
  set (t' := drop (Z.to_nat (zlen (concat es2 ++ le))) q). assert (zlen t' = zlen q - zlen (concat es2 ++ le)) as Ht by (unfold t', zlen in *; rewrite length_drop; lia).
  eexists _, (with_len p BLOCK_INDEX (zlen (concat es2 ++ le) + first_offset bs)), t'. split; [done|]. split.
  - rewrite <- (assoc_L (++) (concat es2)). replace (zlen (concat es2 ++ le) + first_offset bs) with (zlen p - BLOCK_INDEX + zlen (concat es2) + zlen le) by (unfold BLOCK_INDEX; lia).
    apply (node_intro node BLOCK_INDEX p es2 le t' (nt mod 256)); try done; try (unfold BLOCK_INDEX; lia).
    + rewrite Ea. f_equal. unfold BLOCK_INDEX. lia.
    + unfold nt. by destruct node.
    + by apply Forall_drop.
  - split; [|rewrite zlen_with_len by (unfold BLOCK_INDEX; lia); lia]. apply (block_ok_len bs new_vcn g p q); [done|lia|rewrite !zlen_app; lia|done].
Qed.

(** ** The root's entries in a new block *)
Lemma ir_to_ib_ok nd ir pre es le tail bs new_vcn :
  node_ok nd ir 16 pre es le tail -> rd_le 4 ir 8 = Ret bs -> 512 <= bs < 2 ^ 24 -> 0 <= new_vcn < 2 ^ 63 -> zlen ir + first_offset bs <= bs + 8 ->
  exists ib pre' tail', ntfs_ir_to_ib ir new_vcn = Ret ib /\ node_ok nd ib BLOCK_INDEX pre' es le tail' /\ block_ok bs new_vcn ib pre' /\ zlen pre' = 24 + first_offset bs.
Proof.
  intros H Ebs Hbs Hnew Hfits. pose proof (node_size _ _ _ _ _ _ _ H) as Hz. destruct (no_head _ _ _ _ _ _ _ H) as [_ Hh].
  pose proof (first_offset_bounds bs ltac:(lia)) as Hfo. pose proof (no_last _ _ _ _ _ _ _ H) as Hle. pose proof (ent_size16 _ _ _ Hle).
  pose proof (zlen_nonneg (concat es)). pose proof (zlen_nonneg tail). unfold ntfs_ir_to_ib. rewrite Ebs. cbn [obind].
  destruct (ib_alloc_ok new_vcn bs LEAF_NODE Hbs) as (g & -> & Hg & Fg). cbn [obind]. unfold ROOT_INDEX.
  rewrite (node_first _ _ _ _ _ _ _ H), (node_end _ _ _ _ _ _ _ H). cbn [obind]. rewrite (node_get_last _ _ _ _ _ _ _ H). cbn [obind].
  assert (ir = (pre ++ concat es) ++ le ++ tail) as Ei by (rewrite <- (assoc_L (++) pre); apply (no_eq _ _ _ _ _ _ _ H)).
  assert (ie_length ir (zlen (pre ++ concat es)) = Ret (zlen le)) as -> by (rewrite Ei, ie_length_mid by lia; apply (en_length _ _ _ Hle)). cbn [obind].
  assert (zlen (pre ++ concat es) - zlen pre + zlen le = zlen (concat es ++ le)) as -> by (rewrite !zlen_app; lia).
  pose proof (zlen_app (concat es) le) as Hx. rewrite rdn_ok by lia. cbn [obind].
  assert (sub ir (zlen pre) (zlen (concat es ++ le)) = concat es ++ le) as -> by (rewrite Ei, <- !(assoc_L (++) pre), (assoc_L (++) (concat es)); by apply sub_app_here).
  assert (0 <= bs / 512) by (apply Z.div_pos; lia).
  destruct (split_first g (24 + first_offset bs)) as (p & q & Eg & Hp & Hq); [lia|].
  destruct (fill_block bs new_vcn LEAF_NODE g p q Hbs Hnew Hg Fg Eg Hp) as (Eo & Ea & _ & Hbk & Hpb & Hqb).
  assert (forall p' q', (forall i, 0 <= i < 36 -> rd p' i = rd p i) -> zlen p' = zlen p -> entries_offset (p' ++ q') BLOCK_INDEX = Ret (first_offset bs)) as Eoq.
  { intros p' q' Hp' Hzp. unfold entries_offset in *. rewrite rd_le_app_l by (unfold BLOCK_INDEX; lia). rewrite (rd_le_eq 4 p' p BLOCK_INDEX BLOCK_INDEX).
    - rewrite Eo. f_equal. unfold BLOCK_INDEX. lia.
    - intros k Hk. apply Hp'. unfold BLOCK_INDEX. lia. }
  unfold ntfs_ie_get_first. rewrite Eg, (Eoq p q) by done. cbn [obind].
  replace (BLOCK_INDEX + first_offset bs) with (zlen p) by (unfold BLOCK_INDEX; lia). rewrite wrn_start by lia. cbn [obind].
  destruct (no_flag _ _ _ _ _ _ _ H) as (fl & Efl & Hfl). rewrite Efl. cbn [obind].
  assert (byte_ok fl) as Hflb by (unfold ih_flags in Efl; apply rd_lookup in Efl as [_ Efl]; by apply (Forall_lookup_1 _ _ _ _ (no_bytes _ _ _ _ _ _ _ H)) in Efl).
  rewrite put_left by (unfold BLOCK_INDEX; lia). cbn [obind]. set (p1 := splice p (BLOCK_INDEX + 12) (le_bytes 1 fl)).
  assert (zlen p1 = zlen p) as Hp1 by (unfold p1; rewrite zlen_splice; rewrite ?zlen_le_bytes; unfold BLOCK_INDEX; lia).
  assert (forall i, 0 <= i < 36 -> rd p1 i = rd p i) as Hrd1 by (intros i Hi; unfold p1; apply rd_splice_other; rewrite ?zlen_le_bytes; unfold BLOCK_INDEX; lia).
  rewrite (Eoq p1 _ Hrd1 Hp1). cbn [obind]. rewrite put_len by (unfold BLOCK_INDEX; lia).
  set (t' := drop (Z.to_nat (zlen (concat es ++ le))) q). assert (zlen t' = zlen q - zlen (concat es ++ le)) as Ht by (unfold t', zlen in *; rewrite length_drop; lia).
  eexists _, (with_len p1 BLOCK_INDEX (zlen (concat es ++ le) + first_offset bs)), t'. split; [done|]. split.
  - rewrite <- (assoc_L (++) (concat es)). replace (zlen (concat es ++ le) + first_offset bs) with (zlen p1 - BLOCK_INDEX + zlen (concat es) + zlen le) by (unfold BLOCK_INDEX; lia).
    apply (node_intro nd BLOCK_INDEX p1 es le t' fl); try done; try (unfold BLOCK_INDEX; lia).
    + rewrite <- (app_nil_r p1), (Eoq p1 [] Hrd1 Hp1). f_equal. rewrite app_nil_r. unfold BLOCK_INDEX. lia.
    + unfold allocated_size in *. rewrite (rd_le_eq 4 p1 p _ (BLOCK_INDEX + 8)) by (intros k Hk; apply Hrd1; unfold BLOCK_INDEX; lia). rewrite Ea. f_equal. unfold BLOCK_INDEX. lia.
    + unfold ih_flags, p1. rewrite rd_splice by (rewrite ?zlen_le_bytes; unfold BLOCK_INDEX; lia). rewrite zlen_le_bytes.
      destruct (Z.leb_spec (BLOCK_INDEX + 12) (BLOCK_INDEX + 12)), (Z.ltb_spec (BLOCK_INDEX + 12) (BLOCK_INDEX + 12 + Z.of_nat 1)); try lia. cbn [andb le_bytes].
      rewrite Z.sub_diag, rd_cons_0. f_equal. apply Z.mod_small. exact Hflb.
    + apply byte_ok_splice; [done|apply byte_ok_le_bytes].
    + apply (no_entries _ _ _ _ _ _ _ H).
    + by apply Forall_drop.
  - split; [|rewrite zlen_with_len by (unfold BLOCK_INDEX; lia); lia]. apply (block_ok_len bs new_vcn (p1 ++ q) p1 q); [done|lia|rewrite !zlen_app; lia|].
    apply (block_ok_eq bs new_vcn g p); [done| |done|rewrite Eg, !zlen_app; lia]. intros i Hi. rewrite Eg, !rd_app_l by lia. apply Hrd1. lia.
Qed.
