(* ===== verification/IndexInv.v ===== *)
(** * Index trees: the attributes, and what they hold (ntfs/index.c)

    The laws of the attributes of an index; the bitmap of its blocks; the blocks
    as [ntfs_ib_write] leaves them. *)
From S2P Require Import Prelude Libc Fields Bitmap Index IndexAdd IndexNode IndexOps IndexSplit IndexTree.

(** A block as it is read back after it was written: the transfer changes its update
    sequence array. *)
Definition has_usa (bs : Z) (b : bytes) (uo : Z) : Prop :=
  rd_le 2 b 4 = Ret uo /\ rd_le 2 b 6 = Ret (bs / 512 + 1) /\ 40 <= uo /\ uo + 2 * (bs / 512 + 1) <= bs.
Definition usa_changed (bs : Z) (b b' : bytes) : Prop :=
  exists uo, has_usa bs b uo /\ zlen b' = zlen b /\ Forall byte_ok b' /\ forall i, i < uo \/ uo + 2 * (bs / 512 + 1) <= i -> rd b' i = rd b i.

Section Views.
Context {St : Type} {attrs : index_attrs St} {space : index_space St}.

Definition same_root (s s' : St) : Prop := ir_get s' = ir_get s /\ ia_open s' = ia_open s.
Definition same_blocks (s s' : St) : Prop := forall p, ia_pread s' p = ia_pread s p.
Definition same_bitmap (s s' : St) : Prop := bm_readall s' = bm_readall s.

Definition resized (ir : bytes) (n : Z) (ir' : bytes) : Prop :=
  zlen ir' = n /\ Forall byte_ok ir' /\ forall i, i < n -> i < zlen ir -> rd ir' i = rd ir i.
End Views.

(** What the operations on the attributes promise; none of them makes an invalid
    access. *)
Class index_laws {St : Type} (attrs : index_attrs St) (space : index_space St) (bs : Z) := {
  l_ir_put : forall s ir ir', ir_get s = Ret ir -> zlen ir' = zlen ir ->
    ir_get (ir_put s ir') = Ret ir' /\ ia_open (ir_put s ir') = ia_open s /\ same_blocks s (ir_put s ir') /\ same_bitmap s (ir_put s ir');
  l_ia_pwrite : forall s pos b uo, zlen b = bs -> Forall byte_ok b -> has_usa bs b uo ->
    exists s' r, ia_pwrite s pos b = (s', r) /\ r <> Fault /\
      (r = Ret tt -> same_root s s' /\ same_bitmap s s' /\ (exists b', ia_pread s' pos = Ret b' /\ usa_changed bs b b') /\
        forall p, p + bs <= pos \/ pos + bs <= p -> ia_pread s' p = ia_pread s p);
  l_bm_readall : forall s, bm_readall s <> Fault /\ forall bm, bm_readall s = Ret bm -> Forall byte_ok bm /\ zlen bm < 2 ^ 31;
  l_bm_open : forall s, bm_open s <> Fault /\ forall bm n, bm_readall s = Ret bm -> bm_open s = Ret n -> n = zlen bm;
  l_bm_truncate : forall s n, exists s' r, bm_truncate s n = (s', r) /\ r <> Fault /\ same_root s s' /\ same_blocks s s' /\
    forall bm, bm_readall s = Ret bm -> zlen bm <= n ->
      bm_readall s' = Ret (if r is Ret _ then bm ++ replicate (Z.to_nat (n - zlen bm)) 0 else bm);
  l_bm_pread : forall s i, bm_pread s i <> Fault /\ forall bm v, bm_readall s = Ret bm -> 0 <= i < zlen bm -> bm_pread s i = Ret v -> rd bm i = Ret v;
  l_bm_pwrite : forall s i v, exists s' r, bm_pwrite s i v = (s', r) /\ r <> Fault /\ same_root s s' /\ same_blocks s s' /\
    forall bm, bm_readall s = Ret bm -> 0 <= i < zlen bm -> byte_ok v ->
      bm_readall s' = Ret (<[Z.to_nat i := v]> bm) \/ (r <> Ret tt /\ bm_readall s' = Ret bm);
  l_ir_get : forall s, ir_get s <> Fault;
  l_ir_open : forall s, ir_open s <> Fault;
  l_ia_open : forall s, ia_open s <> Fault;
  l_ir_truncate : forall s n, exists s' r, ir_truncate s n = (s', r) /\ r <> STATUS_KEEP_SEARCHING /\
    forall ir, ir_get s = Ret ir -> r <> STATUS_ERROR ->
      ia_open s' = ia_open s /\ same_blocks s s' /\ same_bitmap s s' /\
      if r is STATUS_OK then exists ir', ir_get s' = Ret ir' /\ resized ir n ir' else ir_get s' = Ret ir;
  l_ir_resize : forall s n, exists s' r, ir_resize s n = (s', r) /\ r <> Fault /\
    forall ir, ir_get s = Ret ir ->
      ia_open s' = ia_open s /\ same_blocks s s' /\ same_bitmap s s' /\
      if r is Ret _ then exists ir', ir_get s' = Ret ir' /\ resized ir n ir' else ir_get s' = Ret ir;
  l_bm_create : forall s x, exists s' r, bm_create s x = (s', r) /\ r <> Fault /\ same_root s s' /\ same_blocks s s';
  l_ia_create : forall s, exists s' r, ia_create s = (s', r) /\ r <> Fault /\ ir_get s' = ir_get s /\ same_blocks s s' /\ same_bitmap s s';
  l_bm_exist : forall s bm, bm_readall s = Ret bm -> bm_exist s = true;
  l_ir_move_away : forall s n, exists s' r, ir_move_away s n = (s', r) /\
    (r = true -> same_root s s' /\ same_blocks s s' /\ same_bitmap s s');
}.

(** The root is resident: it never gets larger than what fits into a block. *)
Class resident_fits {St : Type} (space : index_space St) (bs : Z) := {
  l_truncate_fits : forall s n s', ir_truncate s n = (s', STATUS_OK) -> n + first_offset bs <= bs + 8;
  l_resize_fits : forall s n s', ir_resize s n = (s', Ret tt) -> n + first_offset bs <= bs + 8;
}.

Section Bits.
Context {St : Type} {attrs : index_attrs St} {space : index_space St} {bs : Z} {laws : index_laws attrs space bs}.

(** ** The bitmap *)
Definition bit_of (s : St) (j : Z) : bool := match bm_readall s with Ret bm => bit_at bm j | _ => false end.

Lemma bit_at_insert bm i v j : 0 <= i < zlen bm -> 0 <= j ->
  bit_at (<[Z.to_nat i := v]> bm) j = if j / 8 =? i then Z.testbit v (j mod 8) else bit_at bm j.
Proof using.
  intros Hi Hj. unfold bit_at. rewrite rd_insert by (lia || (apply Z.div_pos; lia)). rewrite Z.eqb_sym. by destruct (Z.eqb_spec (j / 8) i).
Qed.

Lemma bit_at_zeros bm n j : 0 <= j -> bit_at (bm ++ replicate n 0) j = bit_at bm j.
Proof using.
  intros Hj. assert (0 <= j / 8) by (apply Z.div_pos; lia). unfold bit_at. destruct (Z.ltb_spec (j / 8) (zlen bm)); [by rewrite rd_app_l by lia|].
  rewrite rd_app_r by lia. rewrite (rd_fault bm) by lia.
  destruct (rd (replicate n 0) (j / 8 - zlen bm)) as [v| |] eqn:E; [|done..]. apply rd_lookup in E as [_ E]. apply lookup_replicate in E as [-> _]. apply Z.testbit_0_l.
Qed.

(** A byte with one bit changed. *)
Definition bit_set_in (set : bool) (byte n : Z) : Z := if set then Z.lor byte (Z.shiftl 1 n) else Z.land byte (u8 (Z.lnot (Z.shiftl 1 n))).

Lemma bit_set_in_ok set byte n : byte_ok byte -> 0 <= n < 8 ->
  byte_ok (bit_set_in set byte n) /\ forall k, 0 <= k < 8 -> Z.testbit (bit_set_in set byte n) k = if k =? n then set else Z.testbit byte k.
Proof using.
  intros Hb Hn. assert (bit_set_in set byte n = put_bit set byte n) as ->; [|split; [apply put_bit_byte|intros; by apply put_bit_spec]].
  apply Z.bits_inj'. intros k Hk. unfold put_bit, wrapu, bit_set_in. rewrite Z.shiftl_1_l. unfold byte_ok in Hb.
  destruct (Z.ltb_spec k 8).
  - rewrite Z.mod_pow2_bits_low by lia. destruct set; [done|]. unfold wrapu. rewrite !Z.land_spec, Z.mod_pow2_bits_low by lia. done.
  - rewrite Z.mod_pow2_bits_high by lia. assert (Z.testbit byte k = false) as Eb.
    { rewrite <- (Z.mod_small byte (2 ^ 8)) by lia. apply Z.mod_pow2_bits_high. lia. }
    destruct set; [rewrite Z.lor_spec, Eb, Z.pow2_bits_false by lia; done|by rewrite Z.land_spec, Eb].
Qed.

Lemma rd_byte bm i v : Forall byte_ok bm -> rd bm i = Ret v -> byte_ok v.
Proof using. intros F E. apply rd_lookup in E as [_ E]. by eapply Forall_lookup_1 in F. Qed.

Lemma ibm_modify_ok s c vcn k (set : bool) bm :
  block_size c = bs -> 0 < bs -> ntfs_ib_vcn_to_pos c vcn = k * bs -> 0 <= k -> bm_readall s = Ret bm -> k < 8 * zlen bm + (if set then 1 else 0) ->
  exists s' r, ntfs_ibm_modify s c vcn set = (s', r) /\ r <> Fault /\ same_root s s' /\ same_blocks s s' /\
    exists bm', bm_readall s' = Ret bm' /\ zlen bm <= zlen bm' /\ (forall j, 0 <= j -> j <> k -> bit_at bm' j = bit_at bm j) /\
      (r = Ret tt -> k < 8 * zlen bm' /\ bit_at bm' k = set).
Proof using laws.
  intros Ebs Hbs Epos Hk Ebm Hlt. destruct (l_bm_readall s) as [_ Hbm]. destruct (Hbm bm Ebm) as [Hbb Hbz]. unfold ntfs_ibm_modify, ntfs_ibm_vcn_to_pos.
  rewrite Epos, Ebs, Z.div_mul by lia. assert (0 <= k / 8 <= zlen bm) as Hk8 by (split; [apply Z.div_pos; lia|destruct set; dlia]).
  rewrite (wrapu_small 32 (k / 8)) by (unfold in_u; lia). rewrite (wrapu_small 32 (k / 8 + 1)) by (unfold in_u; lia).
  destruct (l_bm_open s) as [Hof Ho]. destruct (bm_open s) as [n|e|] eqn:Eo; [|by exists s, (Fail e); split_and!; try done; exists bm|done].
  assert (n = zlen bm) as -> by (by eapply Ho). clear Ho Hof.
  set (trunc := if set && (zlen bm <? k / 8 + 1) then bm_truncate s (Z.land (zlen bm + 8) (Z.lnot 7)) else (s, Ret tt)).
  assert (exists s1 r1, trunc = (s1, r1) /\ r1 <> Fault /\ same_root s s1 /\ same_blocks s s1 /\ exists bm1, bm_readall s1 = Ret bm1 /\ zlen bm <= zlen bm1 /\
    (forall j, 0 <= j -> bit_at bm1 j = bit_at bm j) /\ (r1 = Ret tt -> k < 8 * zlen bm1)) as (s1 & r1 & -> & Hr1 & Hro1 & Hbl1 & bm1 & Ebm1 & Hz1 & Hbits1 & Hk1).
  { unfold trunc. destruct (set && (zlen bm <? k / 8 + 1)) eqn:Et.
    - apply andb_true_iff in Et as [-> Et]. rewrite land_lnot7. destruct (l_bm_truncate s (8 * ((zlen bm + 8) / 8))) as (s1 & r1 & -> & Hr & Hro & Hbl & Hc).
      exists s1, r1. split_and!; try done. specialize (Hc bm Ebm ltac:(dlia)). eexists. split; [exact Hc|]. destruct r1 as [[]|e|]; [|split; [lia|]; done|done].
      rewrite zlen_app, zlen_replicate. split; [lia|]. split; [intros; by apply bit_at_zeros|]. intros _. dlia.
    - exists s, (Ret tt). split_and!; try done. exists bm. split_and!; try done. intros _. destruct set; [|lia]. cbn in Et. apply Z.ltb_ge in Et. dlia. }
  destruct r1 as [[]|e|]; [|exists s1, (Fail e); split_and!; try done; exists bm1; split_and!; try done; intros; by apply Hbits1|done].
  specialize (Hk1 eq_refl). destruct (l_bm_readall s1) as [_ Hb1]. destruct (Hb1 bm1 Ebm1) as [Hbb1 _]. destruct (l_bm_pread s1 (k / 8)) as [Hpf Hp].
  destruct (bm_pread s1 (k / 8)) as [byte|e|] eqn:Ep; [|exists s1, (Fail e); split_and!; try done; exists bm1; split_and!; try done; intros; by apply Hbits1|done].
  specialize (Hp bm1 byte Ebm1 ltac:(dlia) eq_refl). pose proof (rd_byte _ _ _ Hbb1 Hp) as Hbyte.
  fold (bit_set_in set byte (k mod 8)). assert (0 <= k mod 8 < 8) as Hm by (apply Z.mod_pos_bound; lia).
  destruct (bit_set_in_ok set byte (k mod 8) Hbyte Hm) as [Hok Hbit]. set (v := bit_set_in set byte (k mod 8)) in *.
  destruct (l_bm_pwrite s1 (k / 8) v) as (s2 & r2 & -> & Hr2 & Hro2 & Hbl2 & Hc). exists s2, r2. split; [done|]. split; [done|].
  split; [destruct Hro1, Hro2; split; congruence|]. split; [intros p; by rewrite Hbl2|].
  destruct (Hc bm1 Ebm1 ltac:(dlia) Hok) as [E2|[Hne E2]].
  - eexists. split; [exact E2|]. rewrite zlen_insert. split; [done|]. split.
    + intros j Hj Hne. rewrite bit_at_insert by dlia. rewrite <- Hbits1 by done. destruct (Z.eqb_spec (j / 8) (k / 8)) as [E|]; [|done].
      rewrite Hbit by (apply Z.mod_pos_bound; lia). destruct (Z.eqb_spec (j mod 8) (k mod 8)); [dlia|]. unfold bit_at. by rewrite E, Hp.
    + intros _. split; [done|]. rewrite bit_at_insert, Z.eqb_refl by dlia. by rewrite Hbit, Z.eqb_refl by lia.
  - exists bm1. split; [done|]. split; [done|]. split; [intros; by apply Hbits1|done].
Qed.

Lemma clear_bit_ok n byte bit : 0 <= bit -> match clear_bit n byte bit with
  | Some k => bit <= k < bit + Z.of_nat n /\ Z.testbit byte k = false
  | None => forall k, bit <= k < bit + Z.of_nat n -> Z.testbit byte k = true
  end.
Proof using.
  revert bit. induction n as [|n IH]; intros bit Hb; cbn [clear_bit]; [lia|]. rewrite Z.shiftl_1_l.
  destruct (Z.eqb_spec (Z.land byte (2 ^ bit)) 0) as [E|E].
  - split; [lia|]. pose proof (f_equal (fun x => Z.testbit x bit) E) as Et. cbn in Et. rewrite Z.land_spec, Z.pow2_bits_true, Z.testbit_0_l, andb_true_r in Et by lia. done.
  - assert (Z.testbit byte bit = true) as Et.
    { destruct (Z.testbit byte bit) eqn:Et; [done|]. exfalso. apply E. apply Z.bits_inj'. intros k Hk. rewrite Z.land_spec, Z.testbit_0_l, Z.pow2_bits_eqb by lia.
      destruct (Z.eqb_spec bit k) as [->|]; [by rewrite Et|by rewrite andb_false_r]. }
    specialize (IH (bit + 1) ltac:(lia)). destruct (clear_bit n byte (bit + 1)) as [k|]; [split; [lia|by destruct IH]|].
    intros k Hk. destruct (Z.eq_dec k bit) as [->|]; [done|apply IH; lia].
Qed.

Lemma free_bit_ok pre bm : Forall byte_ok bm ->
  zlen pre * 8 <= free_bit bm (zlen pre) <= (zlen pre + zlen bm) * 8 /\ bit_at (pre ++ bm) (free_bit bm (zlen pre)) = false.
Proof using.
  intros F. revert pre. induction F as [|x bm Hx F IH]; intros pre; cbn [free_bit].
  - rewrite app_nil_r. change (zlen (@nil Z)) with 0. pose proof (zlen_nonneg pre). split; [lia|]. unfold bit_at. rewrite Z.div_mul by lia. by rewrite rd_fault by lia.
  - assert (zlen pre + 1 = zlen (pre ++ [x])) as E1 by (rewrite zlen_app; done). rewrite zlen_cons. pose proof (zlen_nonneg pre). pose proof (zlen_nonneg bm).
    destruct (IH (pre ++ [x])) as [Hr Hbit]. rewrite <- E1, <- (assoc_L (++) pre) in *. cbn [app] in Hbit.
    destruct (x =? 255); [split; [lia|done]|]. pose proof (clear_bit_ok 8 x 0 ltac:(lia)) as Hc. destruct (clear_bit 8 x 0) as [k|]; [|split; [lia|done]].
    destruct Hc as [Hk Ht]. split; [lia|]. unfold bit_at. replace ((zlen pre * 8 + k) / 8) with (zlen pre) by dlia. replace ((zlen pre * 8 + k) mod 8) with k by dlia.
    by rewrite rd_app_here.
Qed.

(** A vcn names the [k]-th block. *)
Definition slot (bits vcn k : Z) : Prop := 0 <= k /\ 0 <= vcn < 2 ^ 63 /\ Z.shiftl vcn bits = k * bs.

Lemma slot_vcn bits k : 0 <= bits -> 0 < bs < 2 ^ 24 -> bs mod 2 ^ bits = 0 -> 0 <= k < 2 ^ 35 -> slot bits (Z.shiftr (k * bs) bits) k.
Proof using.
  intros Hb Hbs Hd Hk. rewrite Z.shiftr_div_pow2 by done. pose proof (Z.pow_pos_nonneg 2 bits ltac:(lia) Hb) as Hp. split; [lia|].
  assert (bs = 2 ^ bits * (bs / 2 ^ bits)) as E by (pose proof (Z.div_mod bs (2 ^ bits) ltac:(lia)); lia).
  assert (k * bs / 2 ^ bits = k * (bs / 2 ^ bits)) as Ed by (rewrite E at 1; rewrite (Z.mul_comm (2 ^ bits)), Z.mul_assoc, Z.div_mul by lia; done).
  rewrite Ed. assert (0 <= bs / 2 ^ bits < 2 ^ 24) as Hq by (split; [apply Z.div_pos; lia|apply Z.div_lt_upper_bound; nia]).
  split; [split; [nia|change (2 ^ 63) with (2 ^ 35 * 2 ^ 28); nia]|]. rewrite Z.shiftl_mul_pow2 by done. nia.
Qed.

Lemma slot_inj bits v w k : 0 <= bits -> slot bits v k -> slot bits w k -> v = w.
Proof using.
  intros Hb (_ & _ & Ev) (_ & _ & Ew). rewrite Z.shiftl_mul_pow2 in Ev, Ew by done. pose proof (Z.pow_pos_nonneg 2 bits ltac:(lia) Hb). nia.
Qed.

Lemma ibm_get_free_ok s c bm bits :
  block_size c = bs -> vcn_size_bits c = bits -> 0 <= bits -> 0 < bs < 2 ^ 24 -> bs mod 2 ^ bits = 0 -> bm_readall s = Ret bm ->
  exists s' r k bm', ntfs_ibm_get_free s c = (s', Ret r) /\ same_root s s' /\ same_blocks s s' /\ bm_readall s' = Ret bm' /\
    (forall j, 0 <= j -> j <> k -> bit_at bm' j = bit_at bm j) /\ 0 <= k /\ bit_at bm k = false /\
    match r with Some v => slot bits v k /\ bit_at bm' k = true | None => True end.
Proof using laws.
  intros Ebs Ebits Hbits Hbs Hd Ebm. destruct (l_bm_readall s) as [_ Hbm]. destruct (Hbm bm Ebm) as [Hbb Hbz]. unfold ntfs_ibm_get_free. rewrite Ebm.
  destruct (free_bit_ok [] bm Hbb) as [Hk Hfree]. change (zlen (@nil Z)) with 0 in *. cbn [app] in Hfree. set (k := free_bit bm 0) in *.
  assert (slot bits (ntfs_ibm_pos_to_vcn c k) k) as Hslot.
  { unfold ntfs_ibm_pos_to_vcn, ntfs_ib_pos_to_vcn. rewrite Ebs, Ebits. apply slot_vcn; lia. }
  destruct (ibm_modify_ok s c (ntfs_ibm_pos_to_vcn c k) k true bm) as (s' & r & E & Hr & Hro & Hbl & bm' & Ebm' & _ & Hoth & Hset); try done; [lia| |lia|lia|].
  { unfold ntfs_ib_vcn_to_pos. rewrite Ebits. apply Hslot. }
  unfold ntfs_ibm_set. rewrite E. destruct r as [[]|e|]; [| |done].
  - exists s', (Some (ntfs_ibm_pos_to_vcn c k)), k, bm'. split_and!; try done; [lia|]. by destruct (Hset eq_refl).
  - exists s', None, k, bm'. split_and!; try done. lia.
Qed.
End Bits.

Arguments slot : clear implicits.

(** ** Writing a block *)
Section Write.
Context {St : Type} {attrs : index_attrs St} {space : index_space St} {bs : Z} {laws : index_laws attrs space bs} (bits : Z) (Hbits : 0 <= bits) (Hbs : 512 <= bs < 2 ^ 24).
Notation blocks s := (IndexTree.blocks s bs bits).

Lemma usa_node node b pre es le tail vcn b' :
  node_ok node b BLOCK_INDEX pre es le tail -> block_ok bs vcn b pre -> usa_changed bs b b' ->
  exists pre', node_ok node b' BLOCK_INDEX pre' es le tail /\ block_ok bs vcn b' pre' /\ zlen pre' = zlen pre.
Proof using.
  intros Hn Hb (uo & (Euo & _ & Huo & _) & Hz & Hbytes & Hrd). destruct (bk_usa _ _ _ _ Hb) as (uo' & Euo' & Euc & _ & Hend). rewrite Euo in Euo'. injection Euo' as <-.
  destruct (no_head _ _ _ _ _ _ _ Hn) as [_ Hh]. unfold BLOCK_INDEX in Hh. pose proof (no_eq _ _ _ _ _ _ _ Hn) as Eb.
  assert (zlen pre <= zlen b) as Hpb by (rewrite Eb, zlen_app; pose proof (zlen_nonneg (concat es ++ le ++ tail)); lia).
  destruct (split_first b' (zlen pre)) as (pre' & q & Eb' & Hp' & Hq); [pose proof (zlen_nonneg pre); lia|].
  assert (q = concat es ++ le ++ tail) as ->.
  { rewrite Hz, Eb in Hq. apply list_eq_rd.
    - rewrite zlen_app in Hq. lia.
    - intros i Hi. specialize (Hrd (zlen pre + i) ltac:(right; lia)). rewrite Eb, Eb' in Hrd. rewrite !rd_app_r in Hrd by lia.
      replace (zlen pre + i - zlen pre) with i in Hrd by lia. replace (zlen pre + i - zlen pre') with i in Hrd by lia. exact Hrd. }
  assert (forall i, i < 40 -> rd b' i = rd b i) as Hr40 by (intros i Hi; apply Hrd; left; lia).
  assert (forall n i, 0 <= i -> i + Z.of_nat n <= 40 -> rd_le n b' i = rd_le n b i) as Hle by (intros n i Hi Hn'; apply rd_le_eq; intros k Hk; apply Hr40; lia).
  exists pre'. split; [|split; [|done]].
  - pose proof Hn as Hn'. destruct Hn' as [_ _ Efi Ele Eal Efl Hes Hl _ Hsm]. constructor; rewrite ?Hp'; try done.
    + unfold entries_offset, BLOCK_INDEX in *. by rewrite Hle by lia.
    + unfold index_length, BLOCK_INDEX in *. by rewrite Hle by lia.
    + unfold allocated_size, BLOCK_INDEX in *. by rewrite Hle, Hz by lia.
    + unfold ih_flags, BLOCK_INDEX in *. by rewrite Hr40 by lia.
    + by rewrite Hz.
  - apply (block_ok_eq bs vcn b pre); try done. intros i Hi. apply Hr40. lia.
Qed.

Lemma block_usa node b pre es le tail vcn : node_ok node b BLOCK_INDEX pre es le tail -> block_ok bs vcn b pre -> exists uo, has_usa bs b uo.
Proof using.
  intros Hn Hb. destruct (bk_usa _ _ _ _ Hb) as (uo & E1 & E2 & H1 & H2). exists uo. split_and!; try done.
  pose proof (bk_size _ _ _ _ Hb) as Hz. rewrite (no_eq _ _ _ _ _ _ _ Hn), zlen_app in Hz. pose proof (zlen_nonneg (concat es ++ le ++ tail)). lia.
Qed.

Lemma block_check node b pre es le tail vcn : node_ok node b BLOCK_INDEX pre es le tail -> block_ok bs vcn b pre -> ntfs_ia_check bs b vcn = Ret true.
Proof using Hbs.
  intros Hn Hb. unfold ntfs_ia_check. rewrite (no_alloc _ _ _ _ _ _ _ Hn), (bk_magic _ _ _ _ Hb). destruct (bk_vcn _ _ _ _ Hb) as (v & Ev & Hv). rewrite Ev. cbn [obind].
  rewrite (bk_size _ _ _ _ Hb), Hv. unfold BLOCK_INDEX. rewrite wrapu_small by (unfold in_u; lia). replace (bs - 24 + 24) with bs by lia. by rewrite !Z.eqb_refl.
Qed.

Lemma slots_apart v w k kw : slot bs bits v k -> slot bs bits w kw -> v <> w -> Z.shiftl w bits + bs <= Z.shiftl v bits \/ Z.shiftl v bits + bs <= Z.shiftl w bits.
Proof using Hbits Hbs.
  intros Hv Hw Hne. destruct Hv as (Hk & Hv0 & Ev), Hw as (Hkw & Hw0 & Ew). destruct (Z.eq_dec k kw) as [->|].
  - exfalso. apply Hne. rewrite Z.shiftl_mul_pow2 in Ev, Ew by done. pose proof (Z.pow_pos_nonneg 2 bits ltac:(lia) Hbits). nia.
  - rewrite Ev, Ew. nia.
Qed.

Lemma ib_write_ok s c b v k node pre es le tail :
  vcn_size_bits c = bits -> block_ok bs v b pre -> node_ok node b BLOCK_INDEX pre es le tail -> slot bs bits v k ->
  exists s' r, ntfs_ib_write s c b = (s', r) /\ r <> Fault /\
    (r = Ret tt -> same_root s s' /\ same_bitmap s s' /\
      (exists b' pre', blocks s' v = Ret b' /\ node_ok node b' BLOCK_INDEX pre' es le tail /\ block_ok bs v b' pre' /\ zlen pre' = zlen pre) /\
      forall w kw, slot bs bits w kw -> w <> v -> blocks s' w = blocks s w).
Proof using laws Hbits Hbs.
  intros Ebits Hb Hn Hv. unfold ntfs_ib_write. destruct (bk_vcn _ _ _ _ Hb) as (x & Ex & Hx). rewrite Ex, Hx. unfold ntfs_ib_vcn_to_pos. rewrite Ebits.
  destruct (block_usa _ _ _ _ _ _ _ Hn Hb) as [uo Huo].
  destruct (l_ia_pwrite s (Z.shiftl v bits) b uo (bk_size _ _ _ _ Hb) (no_bytes _ _ _ _ _ _ _ Hn) Huo) as (s' & r & E & Hr & Hok).
  exists s', r. split; [done|]. split; [done|]. intros Er. destruct (Hok Er) as (Hro & Hbm & (b' & Eb' & Hch) & Hoth). split; [done|]. split; [done|]. split.
  - destruct (usa_node _ _ _ _ _ _ _ _ Hn Hb Hch) as (pre' & Hn' & Hb' & Hp'). exists b', pre'. split; [|done].
    unfold IndexTree.blocks, ntfs_ib_read, ntfs_ib_vcn_to_pos. cbn [vcn_size_bits set_params block_size]. rewrite Eb'. cbn [obind].
    rewrite (block_check _ _ _ _ _ _ _ Hn' Hb'). done.
  - intros w kw Hw Hne. unfold IndexTree.blocks, ntfs_ib_read, ntfs_ib_vcn_to_pos. cbn [vcn_size_bits set_params]. rewrite Hoth; [done|]. by eapply slots_apart.
Qed.
End Write.
