(* ===== verification/IndexRoot.v ===== *)
(** * Index trees: a root that moves into a block (ntfs/index.c)

    What [ntfs_ir_reparent] leaves of the root: one entry without a key, whose
    child is the block with the old entries. *)
From S2P Require Import Prelude Libc Fields Index IndexAdd IndexNode IndexOps IndexSplit IndexTree IndexInv.

(** A number that is read is a field. *)
Lemma rd_le_sub n b i v : Forall byte_ok b -> 0 <= i -> rd_le n b i = Ret v -> sub b i (Z.of_nat n) = le_bytes n v /\ i + Z.of_nat n <= Z.max i (zlen b).
Proof.
  intros Hb. revert i v. induction n as [|n IH]; intros i v Hi; cbn [rd_le].
  - intros [= <-]. split; [apply sub_0|lia].
  - destruct (rd b i) as [x| |] eqn:Ex; cbn [obind]; [|done..]. destruct (rd_le n b (i + 1)) as [y| |] eqn:Ey; cbn [obind]; [|done..]. intros [= <-].
    pose proof (rd_bound _ _ _ Ex). destruct (IH (i + 1) y ltac:(lia) Ey) as [Es Hm]. split; [|lia].
    rewrite Nat2Z.inj_succ, <- Z.add_1_l, <- sub_app by lia. rewrite Es. cbn [le_bytes].
    apply rd_lookup in Ex as Ex'. destruct Ex' as [_ Ex']. pose proof (Forall_lookup_1 _ _ _ _ Hb Ex') as Hx. unfold byte_ok in Hx.
    assert (sub b i 1 = [x]) as ->.
    { apply list_eq_rd; [rewrite zlen_sub by lia; done|]. intros j Hj. rewrite zlen_sub in Hj by lia. rewrite rd_sub by lia. replace j with 0 by lia. by rewrite Z.add_0_r. }
    cbn [app]. f_equal; [dlia|]. f_equal. dlia.
Qed.

(** ** The emptied root *)
Record emptied (b : bytes) (p : Z) : Prop := {
  em_place : 32 <= p /\ p + 16 <= zlen b /\ p < 2 ^ 30;
  em_bytes : Forall byte_ok b;
  em_first : entries_offset b ROOT_INDEX = Ret (p - 16);
  em_len : index_length b ROOT_INDEX = Ret (p + 8);
  em_alloc : allocated_size b ROOT_INDEX = Ret (p + 8);
  em_flags : ih_flags b ROOT_INDEX = Ret LARGE_INDEX;
  em_elen : ie_length b p = Ret 24;
  em_eflags : exists f, ie_flags b p = Ret f /\ 0 <= f < 2 ^ 16 /\ Z.land f INDEX_ENTRY_NODE <> 0 /\ Z.land f INDEX_ENTRY_END <> 0;
}.

Lemma lor_node f : 0 <= f < 2 ^ 16 -> 0 <= Z.lor f INDEX_ENTRY_NODE < 2 ^ 16 /\ Z.land (Z.lor f INDEX_ENTRY_NODE) INDEX_ENTRY_NODE <> 0 /\
  (Z.land f INDEX_ENTRY_END <> 0 -> Z.land (Z.lor f INDEX_ENTRY_NODE) INDEX_ENTRY_END <> 0).
Proof.
  intros Hf. assert (Z.lor f INDEX_ENTRY_NODE = f \/ Z.lor f INDEX_ENTRY_NODE = f + 1) as Hl.
  { unfold INDEX_ENTRY_NODE. destruct (Z.odd f) eqn:Eo.
    - left. apply Z.bits_inj'. intros k Hk. rewrite Z.lor_spec. destruct (Z.eq_dec k 0) as [->|]; [rewrite Z.bit0_odd, Eo; done|].
      change 1 with (2 ^ 0). rewrite Z.pow2_bits_false by lia. by rewrite orb_false_r.
    - right. assert (Z.land f 1 = 0) as Ea.
      { change 1 with (Z.ones 1). rewrite Z.land_ones by lia. change (2 ^ 1) with 2. rewrite Zmod_odd, Eo. done. }
      rewrite <- Z.lxor_lor by done. symmetry. apply Z.add_nocarry_lxor. done. }
  assert (Z.lor f INDEX_ENTRY_NODE < 2 ^ 16) as Hlt.
  { destruct (Z.eq_dec f 0) as [->|]; [done|]. apply Z.log2_lt_pow2; [unfold INDEX_ENTRY_NODE in *; lia|]. rewrite Z.log2_lor by (unfold INDEX_ENTRY_NODE; lia).
    apply Z.max_lub_lt; [apply Z.log2_lt_pow2; lia|done]. }
  split; [unfold INDEX_ENTRY_NODE in *; lia|]. split.
  - rewrite Z.land_lor_distr_l. intros E. apply Z.lor_eq_0_iff in E as [_ E]. discriminate E.
  - rewrite Z.land_lor_distr_l. change (Z.land INDEX_ENTRY_NODE INDEX_ENTRY_END) with 0. by rewrite Z.lor_0_r.
Qed.

(** The stores of [emptied_root], after the last entry was moved to the front. *)
Lemma emptied_stores b p f :
  32 <= p -> p + 16 <= zlen b -> p < 2 ^ 30 -> Forall byte_ok b -> entries_offset b ROOT_INDEX = Ret (p - 16) -> ie_flags b p = Ret f -> Z.land f INDEX_ENTRY_END <> 0 ->
  exists b', (let! ie := ntfs_ie_get_first b ROOT_INDEX in
    let! f := ie_flags b ie in
    let! ir := put 2 b (ie + 12) (Z.lor f INDEX_ENTRY_NODE) in
    let! ir := put 2 ir (ie + 8) (16 + 8) in
    let! ir := put 1 ir (ROOT_INDEX + 12) LARGE_INDEX in
    let! eo := entries_offset ir ROOT_INDEX in
    let! l := ie_length ir ie in
    let! ir := put 4 ir (ROOT_INDEX + 4) (eo + l) in
    let! il := index_length ir ROOT_INDEX in
    let! ir := put 4 ir (ROOT_INDEX + 8) il in
    Ret (ir, 32 - 16 + il)) = Ret (b', p + 24) /\ emptied b' p /\ zlen b' = zlen b /\ forall k, 0 <= k < 16 -> rd b' k = rd b k.
Proof.
  intros Hp Hz Hp31 Hb Eo Ef Hf. unfold ntfs_ie_get_first. rewrite Eo. cbn [obind]. unfold ROOT_INDEX. replace (16 + (p - 16)) with p by lia. rewrite Ef. cbn [obind].
  unfold entries_offset, ROOT_INDEX in Eo. destruct (rd_le_sub 4 b 16 (p - 16) Hb ltac:(lia) Eo) as [E0 _].
  destruct (rd_le_range 2 b (p + 12) Hb) as (f' & Ef' & Hfr); [lia|lia|]. unfold ie_flags in Ef. rewrite Ef in Ef'. injection Ef' as <-. change (256 ^ Z.of_nat 2) with (2 ^ 16) in Hfr.
  destruct (lor_node f Hfr) as (Hl & Hln & Hle). specialize (Hle Hf). set (g := Z.lor f INDEX_ENTRY_NODE) in *.
  assert (sub b 0 16 = sub b 0 16) as Eh by done.
  assert (zlen (sub b 0 16) = 16) as Zh by (rewrite zlen_sub; lia).
  assert (fields b [(16, le_bytes 4 (p - 16)); (0, sub b 0 16)]) as F0.
  { split; [done|]. constructor; [cbn [fst snd]; rewrite zlen_le_bytes; split; [lia|]; split; [lia|exact E0]|]. constructor; [|constructor]. cbn [fst snd].
    rewrite Zh. split; [lia|]. split; [lia|done]. }
  set (head := sub b 0 16) in *. clearbody head.
  destruct (put_whole 2 b (p + 12) g _ F0) as (b1 & -> & Z1 & F1); [lia|lia|repeat (apply Forall_cons; split; [cbn [fst snd]; rewrite ?zlen_le_bytes, ?Zh; lia|]); done|]. cbn [obind].
  destruct (put_whole 2 b1 (p + 8) (16 + 8) _ F1) as (b2 & -> & Z2 & F2); [lia|lia|repeat (apply Forall_cons; split; [cbn [fst snd]; rewrite ?zlen_le_bytes, ?Zh; lia|]); done|]. cbn [obind].
  destruct (put_whole 1 b2 (16 + 12) LARGE_INDEX _ F2) as (b3 & -> & Z3 & F3); [lia|lia|repeat (apply Forall_cons; split; [cbn [fst snd]; rewrite ?zlen_le_bytes, ?Zh; lia|]); done|]. cbn [obind].
  unfold entries_offset. rewrite (fields_rd_le 4 b3 _ 16 (p - 16) F3) by in_fields. cbn [obind]. unfold ie_length. rewrite (fields_rd_le 2 b3 _ (p + 8) (16 + 8) F3) by in_fields. cbn [obind].
  rewrite (Z.mod_small (p - 16)) by (change (256 ^ Z.of_nat 4) with 4294967296; lia). change ((16 + 8) mod 256 ^ Z.of_nat 2) with 24.
  replace (p - 16 + 24) with (p + 8) by lia.
  destruct (put_whole 4 b3 (16 + 4) (p + 8) _ F3) as (b4 & -> & Z4 & F4); [lia|lia|repeat (apply Forall_cons; split; [cbn [fst snd]; rewrite ?zlen_le_bytes, ?Zh; lia|]); done|]. cbn [obind].
  unfold index_length. rewrite (fields_rd_le 4 b4 _ (16 + 4) (p + 8) F4) by in_fields. cbn [obind]. rewrite (Z.mod_small (p + 8)) by (change (256 ^ Z.of_nat 4) with 4294967296; lia).
  destruct (put_whole 4 b4 (16 + 8) (p + 8) _ F4) as (b5 & -> & Z5 & F5); [lia|lia|repeat (apply Forall_cons; split; [cbn [fst snd]; rewrite ?zlen_le_bytes, ?Zh; lia|]); done|]. cbn [obind].
  exists b5. split; [do 2 f_equal; lia|]. split; [|split; [lia|]].
  - constructor.
    + lia.
    + by destruct F5.
    + unfold entries_offset, ROOT_INDEX. rewrite (fields_rd_le 4 b5 _ 16 (p - 16) F5) by in_fields. f_equal. apply Z.mod_small. change (256 ^ Z.of_nat 4) with 4294967296. lia.
    + unfold index_length, ROOT_INDEX. rewrite (fields_rd_le 4 b5 _ (16 + 4) (p + 8) F5) by in_fields. f_equal. apply Z.mod_small. change (256 ^ Z.of_nat 4) with 4294967296. lia.
    + unfold allocated_size, ROOT_INDEX. rewrite (fields_rd_le 4 b5 _ (16 + 8) (p + 8) F5) by in_fields. f_equal. apply Z.mod_small. change (256 ^ Z.of_nat 4) with 4294967296. lia.
    + unfold ih_flags, ROOT_INDEX. by rewrite (fields_rd b5 _ (16 + 12) LARGE_INDEX F5) by in_fields.
    + unfold ie_length. rewrite (fields_rd_le 2 b5 _ (p + 8) (16 + 8) F5) by in_fields. done.
    + exists g. unfold ie_flags. rewrite (fields_rd_le 2 b5 _ (p + 12) g F5) by in_fields. rewrite Z.mod_small by (change (256 ^ Z.of_nat 2) with (2 ^ 16); lia). done.
  - intros k Hk. pose proof (fields_in b5 _ 0 head F5 ltac:(in_fields)) as E5. destruct F0 as [_ F0]. apply Forall_cons in F0 as [_ F0]. apply Forall_cons in F0 as [(_ & _ & E) _].
    cbn [fst snd] in E. rewrite Zh in *. pose proof (f_equal (fun l => rd l k) (eq_trans E5 (eq_sym E))) as Er. cbn beta in Er. rewrite !rd_sub in Er by lia.
    by destruct (Z.ltb_spec k 16); [|lia].
Qed.

Lemma nill_node nd ir pre es le tail : node_ok nd ir ROOT_INDEX pre es le tail ->
  exists b q, ntfs_ir_nill ir = Ret b /\ b = pre ++ le ++ q /\ zlen b = zlen ir /\ Forall byte_ok b.
Proof.
  intros H. pose proof (no_last _ _ _ _ _ _ _ H) as Hle. pose proof (ent_size16 _ _ _ Hle). destruct (node_bytes _ _ _ _ _ _ _ H) as (B1 & B2 & B3 & B4).
  unfold ntfs_ir_nill. rewrite (node_first _ _ _ _ _ _ _ H), (node_end _ _ _ _ _ _ _ H). cbn [obind]. rewrite (node_get_last _ _ _ _ _ _ _ H). cbn [obind].
  pose proof (no_eq _ _ _ _ _ _ _ H) as Eb. pose proof (node_size _ _ _ _ _ _ _ H) as Hz. rewrite zlen_app. pose proof (zlen_nonneg (concat es)). destruct (Z.ltb_spec (zlen pre) (zlen pre + zlen (concat es))).
  - assert (ie_length ir (zlen pre + zlen (concat es)) = Ret (zlen le)) as ->.
    { rewrite <- zlen_app, Eb, (assoc_L (++) pre), ie_length_mid by lia. apply (en_length _ _ _ Hle). }
    cbn [obind]. pose proof (memmove_parts pre (concat es) le tail 0) as Hm. rewrite Z.add_0_r in Hm. change (take (Z.to_nat 0) (concat es ++ le ++ tail)) with (@nil Z) in Hm. cbn [app] in Hm.
    rewrite Eb, Hm by (pose proof (zlen_nonneg tail); lia). eexists _, _. split; [done|]. split; [done|]. split.
    + rewrite !zlen_app. assert (zlen (drop (Z.to_nat (0 + zlen le)) (concat es ++ le ++ tail)) = zlen (concat es) + zlen tail) as ->; [|lia].
      unfold zlen in *. rewrite length_drop, !length_app. lia.
    + rewrite !Forall_app. split_and!; try done. apply Forall_drop. by rewrite !Forall_app.
  - assert (concat es = []) as E by (destruct (concat es) as [|x l] eqn:E; [done|rewrite zlen_cons in *; pose proof (zlen_nonneg l); lia]). rewrite E in Eb. exists ir, tail. cbn [app] in Eb. split_and!; try done.
    apply (no_bytes _ _ _ _ _ _ _ H).
Qed.

Lemma emptied_node nd ir pre es le tail : node_ok nd ir ROOT_INDEX pre es le tail -> zlen ir < 2 ^ 30 ->
  exists b', emptied_root ir = Ret (b', zlen pre + 24) /\ emptied b' (zlen pre) /\ zlen b' = zlen ir /\ forall k, 0 <= k < 16 -> rd b' k = rd ir k.
Proof.
  intros H Hsm. destruct (no_head _ _ _ _ _ _ _ H) as [_ Hh]. unfold ROOT_INDEX in Hh. pose proof (no_last _ _ _ _ _ _ _ H) as Hle. pose proof (ent_size16 _ _ _ Hle).
  destruct (nill_node _ _ _ _ _ _ H) as (b & q & En & Eb & Hz & Hb). unfold emptied_root. rewrite En. cbn [obind].
  pose proof (zlen_nonneg q). assert (zlen b = zlen pre + zlen le + zlen q) as Hzb by (rewrite Eb, !zlen_app; lia).
  destruct (en_flags _ _ _ Hle) as (fl & Ef & _ & Hf). destruct (emptied_stores b (zlen pre) fl) as (b' & E & Hem & Hz' & Hrd); try lia; try done.
  - rewrite Eb. unfold entries_offset. pose proof (no_first _ _ _ _ _ _ _ H) as Eo. unfold entries_offset in Eo. rewrite (no_eq _ _ _ _ _ _ _ H) in Eo.
    unfold ROOT_INDEX in *. rewrite rd_le_app_l in Eo |- * by lia. exact Eo.
  - rewrite Eb, ie_flags_mid by lia. exact Ef.
  - exists b'. split; [exact E|]. split; [done|]. split; [lia|]. intros k Hk. rewrite Hrd by done. rewrite Eb, (no_eq _ _ _ _ _ _ _ H). by rewrite !rd_app_l by lia.
Qed.

Lemma emptied_again b p : emptied b p ->
  exists b', emptied_root b = Ret (b', p + 24) /\ emptied b' p /\ zlen b' = zlen b /\ forall k, 0 <= k < 16 -> rd b' k = rd b k.
Proof.
  intros H. destruct (em_place _ _ H) as (Hp & Hz & H31). destruct (em_eflags _ _ H) as (fl & Ef & Hfr & Hn & He).
  assert (ntfs_ir_nill b = Ret b) as E.
  { unfold ntfs_ir_nill, ntfs_ie_get_first, ntfs_ie_get_end. rewrite (em_first _ _ H), (em_len _ _ H). cbn [obind]. unfold ROOT_INDEX. replace (16 + (p - 16)) with p by lia.
    cbn [ntfs_ie_get_last]. destruct (Z.ltb_spec p (16 + (p + 8))); [|lia]. unfold ntfs_ie_end. rewrite Ef. cbn [obind]. rewrite (proj2 (Z.eqb_neq _ _) He). cbn [negb obind].
    by rewrite Z.ltb_irrefl. }
  unfold emptied_root. rewrite E. cbn [obind]. apply (emptied_stores b p fl); try done; try apply (em_bytes _ _ H); apply H.
Qed.

(** The root with its only entry, as soon as it has its new size and the child. *)
Lemma reparented b p b1 v : emptied b p -> resized b (p + 24) b1 -> 0 <= v < 2 ^ 63 ->
  exists b2 pre le, (let! ie := ntfs_ie_get_first b1 ROOT_INDEX in ntfs_ie_set_vcn b1 ie v) = Ret b2 /\ node_ok true b2 ROOT_INDEX pre [] le [] /\
    ent_vcn le = v /\ zlen le = 24 /\ zlen b2 = zlen b1 /\ forall k, 0 <= k < 16 -> rd b2 k = rd b k.
Proof.
  intros H (Hz & Hb & Hrd) Hv. destruct (em_place _ _ H) as (Hp & Hpz & H31). destruct (em_eflags _ _ H) as (fl & Ef & Hfr & Hfn & Hfe).
  destruct (split_first b1 p) as (pre & le & E & Zp & Zl); [lia|].
  assert (forall m i, 0 <= i -> i + Z.of_nat m <= p + 16 -> rd_le m b1 i = rd_le m b i) as Hle by (intros m i Hi Hm; apply rd_le_eq; intros k Hk; apply Hrd; lia).
  assert (forall m i, 0 <= i -> i + Z.of_nat m <= 16 -> rd_le m le i = rd_le m b (p + i)) as Hlle.
  { intros m i Hi Hm. rewrite <- Hle by lia. rewrite E. rewrite <- (app_nil_r le) at 2. rewrite <- Zp. by rewrite rd_le_app_mid by lia. }
  rewrite E in Hb. apply Forall_app in Hb as [Hbp Hbl].
  assert (ent_ok true true le) as Hent.
  { constructor; [lia|done| | |done].
    - unfold ie_length. rewrite Hlle by lia. rewrite Z.add_0_l. pose proof (em_elen _ _ H) as El. unfold ie_length in El. rewrite El. f_equal. lia.
    - exists fl. unfold ie_flags. rewrite Hlle, Z.add_0_l by lia. split; [exact Ef|]. by rewrite (proj2 (Z.eqb_neq _ _) Hfn), (proj2 (Z.eqb_neq _ _) Hfe). }
  assert (node_ok true b1 ROOT_INDEX pre [] le []) as Hn.
  { constructor; unfold ROOT_INDEX; cbn [concat app]; try done.
    - by rewrite app_nil_r.
    - lia.
    - unfold entries_offset. rewrite Hle by lia. pose proof (em_first _ _ H) as Eo. unfold entries_offset, ROOT_INDEX in Eo. by rewrite Eo, Zp.
    - unfold index_length. rewrite Hle by lia. pose proof (em_len _ _ H) as Eo. unfold index_length, ROOT_INDEX in Eo. rewrite Eo. change (zlen (@nil Z)) with 0. f_equal. lia.
    - unfold allocated_size. rewrite Hle by lia. pose proof (em_alloc _ _ H) as Eo. unfold allocated_size, ROOT_INDEX in Eo. rewrite Eo. f_equal. lia.
    - exists LARGE_INDEX. unfold ih_flags. rewrite Hrd by lia. split; [apply (em_flags _ _ H)|done].
    - rewrite E. by apply Forall_app.
    - lia. }
  assert (b1 = pre ++ le ++ []) as E' by (by rewrite app_nil_r).
  exists (pre ++ with_vcn le v ++ []), pre, (with_vcn le v). rewrite (node_first _ _ _ _ _ _ _ Hn). cbn [obind].
  split; [rewrite E' at 1; by apply (set_vcn_mid true le Hent v pre [])|]. split.
  - apply (node_same true b1 ROOT_INDEX pre [] le [] [] (with_vcn le v) Hn); [constructor|by apply with_vcn_ok|]. by rewrite (zlen_with_vcn true le Hent v).
  - split; [by apply (with_vcn_vcn true le Hent)|]. split; [rewrite (zlen_with_vcn true le Hent v); lia|]. split; [rewrite E', !zlen_app; by rewrite (zlen_with_vcn true le Hent v)|].
    intros k Hk. rewrite rd_app_l by lia. rewrite <- (rd_app_l pre le) by lia. rewrite <- E. apply Hrd; lia.
Qed.
