(* ===== verification/IndexGrow.v ===== *)
(** * Index trees: replacing nodes (ntfs/index.c)

    A node of a tree can be replaced by one with the same keys; a child that is
    split gives two neighbours with its median between them in their parent. *)
From S2P Require Import Prelude Libc Fields Index IndexNode IndexOps IndexSplit IndexTree.

Lemma ent_vcn_lt x : ent_vcn x < 2 ^ 63.
Proof.
  unfold ent_vcn, ntfs_ie_get_vcn. destruct (ntfs_ie_get_vcn_addr x 0) as [a| |]; cbn [obind]; [|done..]. destruct (rd_le 8 x a) as [v| |]; cbn [obind]; [|done..].
  apply (wraps_range 64 v). lia.
Qed.

(** ** Weaving *)
Lemma weave_split {A} (s1 : list A) k s2 (t1 : list (list A)) t t2 :
  length t1 = length s1 -> weave (s1 ++ k :: s2) (t1 ++ t :: t2) = weave s1 (t1 ++ [t]) ++ k :: weave s2 t2.
Proof.
  intros Hl. rewrite weave_at by done. rewrite <- (app_nil_r s1) at 2. rewrite (weave_at s1 [] t1 t []) by done. cbn [weave_right].
  by rewrite app_nil_r, <- (assoc_L (++)).
Qed.

Section Kids.
Context {f : COLLATE} {ord : key_order f}.

(** A child of a node. *)
Definition kid (rdb : Z -> outcome bytes) (d : nat) (x : bytes) (sub : list bytes * list Z) : Prop :=
  0 <= ent_vcn x /\ exists blk, rdb (ent_vcn x) = Ret blk /\ tree_at rdb d blk BLOCK_INDEX sub.1 sub.2.

Lemma kids_cons x es sub subs : kids_vcns (x :: es) (sub :: subs) = ent_vcn x :: sub.2 ++ kids_vcns es subs.
Proof using. done. Qed.

Lemma kids_vcns_eq es es' subs : map ent_vcn es = map ent_vcn es' -> kids_vcns es subs = kids_vcns es' subs.
Proof using.
  clear f ord. revert es' subs. induction es as [|x es IH]; intros [|y es'] [|sub subs] E; try done. cbn in E. injection E as Ex E.
  rewrite !kids_cons, Ex. by rewrite (IH es' subs).
Qed.

(** Children only matter by their vcn. *)
Lemma kids_eq rdb d es es' subs : map ent_vcn es = map ent_vcn es' -> Forall2 (kid rdb d) es subs -> Forall2 (kid rdb d) es' subs.
Proof using.
  intros E F. revert es' E. induction F as [|x sub es subs Hx F IH]; intros [|y es'] E; try done. cbn in E. injection E as Ex E.
  constructor; [|by apply IH]. unfold kid in *. by rewrite <- Ex.
Qed.

Lemma kids_frame rdb rdb' d es subs : (forall v, v ∈ kids_vcns es subs -> rdb' v = rdb v) -> Forall2 (kid rdb d) es subs -> Forall2 (kid rdb' d) es subs.
Proof using. apply kids_ext. Qed.

(** ** A child is replaced *)
Lemma replace_kid rdb rdb' d b h pre es1 es2 le tail t1 k w t2 blk' w' :
  node_ok true b h pre (es1 ++ es2) le tail -> length t1 = length es1 ->
  Forall2 (kid rdb d) ((es1 ++ es2) ++ [le]) (t1 ++ (k, w) :: t2) ->
  (forall v, v ∈ kids_vcns es1 t1 ++ kids_vcns (List.tail (es2 ++ [le])) t2 -> rdb' v = rdb v) ->
  rdb' (ent_vcn (first_of es2 le)) = Ret blk' -> tree_at rdb' d blk' BLOCK_INDEX k w' ->
  tree_at rdb' (S d) b h (weave (map ent_key (es1 ++ es2)) (map fst (t1 ++ (k, w) :: t2)))
    (kids_vcns es1 t1 ++ (ent_vcn (first_of es2 le) :: w') ++ kids_vcns (List.tail (es2 ++ [le])) t2).
Proof using.
  intros Hn Hl HF Hsame Eb Ht. cbn [tree_at]. exists pre, (es1 ++ es2), le, tail, (t1 ++ (k, w') :: t2). split; [done|].
  assert (exists es3, es2 ++ [le] = first_of es2 le :: es3) as [es3 Ee] by (destruct es2; eauto). rewrite <- (assoc_L (++)), Ee in *. cbn [List.tail] in *.
  apply Forall2_app_inv in HF; [|done]. destruct HF as [HF1 HF2]. inversion HF2 as [|? ? ? ? [He _] HF3]; subst. split; [|split].
  - apply Forall2_app; [|constructor].
    + eapply kids_frame; [|exact HF1]. intros v Hv. apply Hsame, elem_of_app. by left.
    + split; [done|]. by exists blk'.
    + eapply kids_frame; [|exact HF3]. intros v Hv. apply Hsame, elem_of_app. by right.
  - by rewrite !map_app.
  - rewrite kids_vcns_app by done. rewrite kids_cons. done.
Qed.

(** ** A child is split *)
Lemma split_kid rdb d blk k w : tree_at rdb d blk BLOCK_INDEX k w ->
  exists nd pre es le tail, node_ok nd blk BLOCK_INDEX pre es le tail /\ (nd = true -> Forall (fun x => 0 <= ent_vcn x) es) /\
    forall f1 m f2, es = f1 ++ m :: f2 -> exists k1 k2 w1 w2, k = k1 ++ ent_key m :: k2 /\ w = w1 ++ w2 /\
      forall rdb' hd ph th tl pt tt, (forall v, v ∈ w -> rdb' v = rdb v) -> node_ok nd hd BLOCK_INDEX ph f1 (cut_last nd le m) th -> node_ok nd tl BLOCK_INDEX pt f2 le tt ->
        tree_at rdb' d hd BLOCK_INDEX k1 w1 /\ tree_at rdb' d tl BLOCK_INDEX k2 w2.
Proof using.
  destruct d as [|d]; cbn [tree_at].
  - intros (pre & es & le & tail & Hn & -> & ->). exists false, pre, es, le, tail. split; [done|]. split; [done|]. intros f1 m f2 ->.
    exists (map ent_key f1), (map ent_key f2), [], []. rewrite map_app. split; [done|]. split; [done|]. intros rdb' hd ph th tl pt tt _ Hh Ht.
    split; [by exists ph, f1, le, th|by exists pt, f2, le, tt].
  - intros (pre & es & le & tail & subs & Hn & HF & -> & ->). exists true, pre, es, le, tail. split; [done|].
    assert (Forall (fun x => 0 <= ent_vcn x) (es ++ [le])) as Hv by (clear -HF; induction HF as [|x sub l subs [Hx _] _ IHF]; by constructor).
    split; [intros _; by apply Forall_app in Hv as [? _]|]. intros f1 m f2 ->. rewrite <- (assoc_L (++) f1) in HF. cbn [app] in HF.
    apply Forall2_app_inv_l in HF as (u1 & ur & HF1 & HF2 & ->). apply Forall2_cons_inv_l in HF2 as ([uk uw] & u2 & Hm & HF2 & ->).
    pose proof (Forall2_length _ _ _ HF1) as Hl. rewrite !map_app. cbn [map fst].
    exists (weave (map ent_key f1) (map fst u1 ++ [uk])), (weave (map ent_key f2) (map fst u2)), (kids_vcns f1 u1 ++ ent_vcn m :: uw), (kids_vcns (f2 ++ [le]) u2).
    split; [by rewrite weave_split by (by rewrite !length_map)|]. rewrite <- (assoc_L (++) f1). cbn [app]. rewrite kids_vcns_app by done. rewrite kids_cons. cbn [snd].
    split; [by rewrite <- (assoc_L (++))|]. intros rdb' hd ph th tl pt tt Hsame Hh Ht.
    pose proof (no_entries _ _ _ _ _ _ _ Hn) as F. apply Forall_app in F as [_ F]. apply Forall_cons in F as [Hmok _]. pose proof (no_last _ _ _ _ _ _ _ Hn) as Hle.
    apply Forall_app in Hv as [Hv _]. apply Forall_app in Hv as [_ Hv]. apply Forall_cons in Hv as [Hvm _].
    assert (map ent_vcn [cut_last true le m] = map ent_vcn [m]) as Ecut.
    { cbn. f_equal. apply (with_vcn_vcn true le Hle). pose proof (ent_vcn_lt m). lia. }
    split.
    + exists ph, f1, (cut_last true le m), th, (u1 ++ [(uk, uw)]). split; [done|]. split; [|split].
      * apply (kids_eq rdb' d (f1 ++ [m])); [by rewrite !map_app, Ecut|]. eapply kids_frame; [|apply Forall2_app; [exact HF1|by constructor]].
        intros v Hin. apply Hsame. rewrite kids_vcns_app in Hin by done. rewrite kids_cons in Hin. cbn [snd] in Hin. rewrite app_nil_r in Hin.
        rewrite (app_comm_cons uw), (assoc_L (++)). apply elem_of_app. by left.
      * by rewrite map_app.
      * rewrite (kids_vcns_eq (f1 ++ [cut_last true le m]) (f1 ++ [m])) by (by rewrite !map_app, Ecut). rewrite kids_vcns_app by done. rewrite kids_cons. cbn [snd]. by rewrite app_nil_r.
    + exists pt, f2, le, tt, u2. split; [done|]. split; [|done]. eapply kids_frame; [|exact HF2].
      intros v Hin. apply Hsame. rewrite (app_comm_cons uw), (assoc_L (++)). apply elem_of_app. by right.
Qed.

Lemma split_child rdb rdb' d b h b' pre pre' es1 es2 le tail tail' t1 k w t2 m m' es2' le' hd tl k1 k2 w1 w2 nv :
  node_ok true b h pre (es1 ++ es2) le tail -> length t1 = length es1 ->
  Forall2 (kid rdb d) ((es1 ++ es2) ++ [le]) (t1 ++ (k, w) :: t2) ->
  node_ok true b' h pre' (es1 ++ m' :: es2') le' tail' -> ent_key m' = ent_key m -> ent_vcn m' = ent_vcn (first_of es2 le) -> map ent_key es2' = map ent_key es2 ->
  map ent_vcn (es2' ++ [le']) = nv :: map ent_vcn (List.tail (es2 ++ [le])) -> 0 <= nv ->
  k = k1 ++ ent_key m :: k2 -> tree_at rdb' d hd BLOCK_INDEX k1 w1 -> tree_at rdb' d tl BLOCK_INDEX k2 w2 ->
  rdb' (ent_vcn (first_of es2 le)) = Ret hd -> rdb' nv = Ret tl ->
  (forall v, v ∈ kids_vcns es1 t1 ++ kids_vcns (List.tail (es2 ++ [le])) t2 -> rdb' v = rdb v) ->
  tree_at rdb' (S d) b' h (weave (map ent_key (es1 ++ es2)) (map fst (t1 ++ (k, w) :: t2)))
    (kids_vcns es1 t1 ++ (ent_vcn (first_of es2 le) :: w1) ++ (nv :: w2) ++ kids_vcns (List.tail (es2 ++ [le])) t2).
Proof using.
  intros Hn Hl HF Hn' Ekm Evm Ek2 Ev2 Hnv -> Hhd Htl Eh Et Hsame. cbn [tree_at].
  exists pre', (es1 ++ m' :: es2'), le', tail', (t1 ++ (k1, w1) :: (k2, w2) :: t2). split; [done|].
  assert (exists es3, es2 ++ [le] = first_of es2 le :: es3) as [es3 Ee] by (destruct es2; eauto). rewrite <- (assoc_L (++)), Ee in HF. rewrite Ee in *. cbn [List.tail] in *.
  apply Forall2_app_inv in HF; [|done]. destruct HF as [HF1 HF2]. apply Forall2_cons in HF2 as [[He _] HF3].
  assert (exists y es3', es2' ++ [le'] = y :: es3' /\ ent_vcn y = nv /\ map ent_vcn es3' = map ent_vcn es3) as (y & es3' & Ey & Evy & Ev3).
  { destruct (es2' ++ [le']) as [|y es3']; [done|]. cbn in Ev2. injection Ev2 as E1 E2. by exists y, es3'. }
  rewrite <- (assoc_L (++)). cbn [app]. rewrite Ey. split; [|split].
  - apply Forall2_app; [|constructor; [|constructor]].
    + eapply kids_frame; [|exact HF1]. intros v Hv. apply Hsame, elem_of_app. by left.
    + unfold kid. cbn [fst snd]. rewrite Evm. split; [done|]. by exists hd.
    + unfold kid. cbn [fst snd]. rewrite Evy. split; [done|]. by exists tl.
    + apply (kids_eq rdb' d es3); [done|]. eapply kids_frame; [|exact HF3]. intros v Hv. apply Hsame, elem_of_app. by right.
  - rewrite !map_app. cbn [map fst]. rewrite Ekm, Ek2. rewrite weave_at by (by rewrite !length_map). rewrite weave_at by (by rewrite !length_map).
    cbn [weave_right]. rewrite <- !(assoc_L (++)). cbn [app]. do 2 f_equal. f_equal. destruct es2 as [|x es2]; cbn [map weave_right weave]; [|done].
    destruct t2; [by rewrite app_nil_r|]. apply Forall2_length in HF3. cbn in Ee. injection Ee as <-. done.
  - rewrite kids_vcns_app by done. rewrite !kids_cons. cbn [snd]. rewrite Evm, Evy. rewrite (kids_vcns_eq es3' es3) by done. cbn [app]. done.
Qed.

End Kids.

Lemma perm_insert {A} (a n w c : list A) e : a ++ (e :: n ++ w) ++ c ≡ₚ n ++ a ++ e :: w ++ c.
Proof.
  rewrite (assoc_L (++) n a), (Permutation_app_comm n a), <- (assoc_L (++) a). f_equiv. cbn [app]. rewrite <- Permutation_middle. by rewrite (assoc_L (++) n).
Qed.

(** ** The path in a context *)
Section Path.
Context {f : COLLATE} {ord : key_order f} {St : Type} {attrs : index_attrs St}.
Context (s : St) (bs bits : Z).
Notation blocks := (IndexTree.blocks s bs bits).
Notation trail := (IndexTree.trail s bs bits).

(** A node on the path, and that it can be replaced: [news] are the vcns that come
    with the new one. *)
Definition replaceable (rdb : Z -> outcome bytes) (d : nat) (b : bytes) (h : Z) (ks : list bytes) (vs : list Z) (dn : nat) (nvcn : Z) (nks : list bytes) (nvs : list Z) : Prop :=
  forall rdb' nb' nvs' news, rdb' nvcn = Ret nb' -> tree_at rdb' dn nb' BLOCK_INDEX nks nvs' -> nvs' ≡ₚ news ++ nvs ->
    (forall v, v ∈ vs -> v ∉ nvcn :: nvs -> rdb' v = rdb v) -> exists vs', tree_at rdb' d b h ks vs' /\ vs' ≡ₚ news ++ vs.

Lemma trail_tree d b h vcn ks vs c i : tree_at blocks d b h ks vs -> trail d b h vcn ks vs c i -> rd (parent_vcn c) i = Ret vcn.
Proof using. intros _. destruct d; by intros [? _]. Qed.

Lemma trail_hole d : forall b h vcn ks vs c i j, trail d b h vcn ks vs c i -> (1 <= j <= d)%nat -> NoDup vs ->
  exists nb nvcn nks nvs, rd (parent_vcn c) (i + Z.of_nat j) = Ret nvcn /\ blocks nvcn = Ret nb /\ 0 <= nvcn /\
    trail (d - j) nb BLOCK_INDEX nvcn nks nvs c (i + Z.of_nat j) /\ tree_at blocks (d - j) nb BLOCK_INDEX nks nvs /\
    NoDup (nvcn :: nvs) /\ (forall v, v ∈ nvcn :: nvs -> v ∈ vs) /\ replaceable blocks d b h ks vs (d - j) nvcn nks nvs.
Proof using.
  induction d as [|d IH]; intros b h vcn ks vs c i j Htr Hj Hnd; [lia|]. cbn [IndexTree.trail] in Htr.
  destruct Htr as (_ & pre & es1 & es2 & le & tail & t1 & k & w & t2 & blk & Hn & HF & Hl & _ & -> & -> & Eb & Htr).
  fold (first_of es2 le) in *. pose proof HF as HF'. change (Forall2 (kid blocks d) ((es1 ++ es2) ++ [le]) (t1 ++ (k, w) :: t2)) in HF'.
  assert (exists es3, es2 ++ [le] = first_of es2 le :: es3) as [es3 Ee] by (destruct es2; eauto).
  rewrite <- (assoc_L (++) es1), Ee in Hnd |- *. rewrite kids_vcns_app, kids_cons in Hnd |- * by done. cbn [snd] in Hnd |- *.
  rewrite <- (assoc_L (++) es1), Ee in HF. apply Forall2_app_inv in HF; [|done]. destruct HF as [_ HF2]. apply Forall2_cons in HF2 as [(He & blk1 & Eb1 & Ht) _].
  rewrite Eb in Eb1. injection Eb1 as <-. cbn [fst snd] in Ht.
  pose proof Hnd as Hnd'. apply NoDup_app in Hnd' as (_ & Hd1 & Hnd2). rewrite app_comm_cons in Hnd2. apply NoDup_app in Hnd2 as (Hndw & Hd2 & _).
  (* the child can be replaced *)
  assert (replaceable blocks (S d) b h (weave (map ent_key (es1 ++ es2)) (map fst (t1 ++ (k, w) :: t2)))
    (kids_vcns es1 t1 ++ ent_vcn (first_of es2 le) :: w ++ kids_vcns es3 t2) d (ent_vcn (first_of es2 le)) k w) as Hrep.
  { intros rdb' nb' nvs' news Enb Htn Hperm Hsame. eexists. split.
    - apply (replace_kid blocks rdb' d b h pre es1 es2 le tail t1 k w t2 nb' nvs' Hn Hl HF'); [|exact Enb|exact Htn]. rewrite Ee. cbn [List.tail].
      intros v Hv. apply Hsame.
      + apply elem_of_app in Hv as [Hv|Hv]; apply elem_of_app; [by left|right]. rewrite app_comm_cons. apply elem_of_app. by right.
      + intros Hin. apply elem_of_app in Hv as [Hv|Hv]; [apply (Hd1 v Hv); rewrite app_comm_cons; apply elem_of_app; by left|by apply (Hd2 v Hin)].
    - rewrite Ee. cbn [List.tail]. rewrite Hperm. apply perm_insert. }
  destruct (decide (j = 1)%nat) as [->|Hj1].
  - exists blk, (ent_vcn (first_of es2 le)), k, w. cbn [Nat.sub]. rewrite Nat.sub_0_r. split_and!; try done.
    + by eapply trail_tree.
    + intros v Hv. apply elem_of_app. right. rewrite app_comm_cons. apply elem_of_app. by left.
  - destruct (IH blk BLOCK_INDEX (ent_vcn (first_of es2 le)) k w c (i + 1) (j - 1)%nat Htr) as (nb & nvcn & nks & nvs & Ev & Enb & Hnv & Htrn & Htn & Hndn & Hsub & Hr); [lia|by apply NoDup_cons in Hndw as [_ ?]|].
    replace (i + 1 + Z.of_nat (j - 1)) with (i + Z.of_nat j) in * by lia. replace (d - (j - 1))%nat with (S d - j)%nat in * by lia.
    exists nb, nvcn, nks, nvs. split_and!; try done.
    + intros v Hv. apply elem_of_app. right. apply elem_of_cons. right. apply elem_of_app. left. by apply Hsub.
    + intros rdb' nb' nvs' news Enb' Htn' Hperm Hsame.
      destruct (Hr rdb' nb' nvs' news Enb' Htn' Hperm) as (w' & Htw & Hpw).
      { intros v Hv Hnin. apply Hsame; [|done]. apply elem_of_app. right. apply elem_of_cons. right. apply elem_of_app. by left. }
      apply (Hrep rdb' blk w' news); [|done|done|].
      * rewrite <- Eb. apply Hsame; [apply elem_of_app; right; apply elem_of_cons; by left|].
        intros Hin. apply NoDup_cons in Hndw as [Hnin _]. apply Hnin. by apply Hsub.
      * intros v Hv Hnin. apply Hsame; [done|]. intros Hin. apply Hnin, elem_of_cons. right. by apply Hsub.
Qed.
End Path.
