(* ===== verification/IndexSearch.v ===== *)
(** * Index trees: what a lookup gives (ntfs/index.c)

    The keys of an index decide the result of [ntfs_index_lookup]. *)
From stdpp Require Import sorting.
From S2P Require Import Prelude Libc Mst Device Fields Unistr Collate Index IndexNode IndexTree.

(** ** Orders: 32-bit keys, and FILE_NAME attributes *)
Definition ulong_val (k : bytes) : Z := match rd_le 4 k 0 with Ret v => v | _ => 0 end.
Definition ulong_cmp (k x : bytes) : Z := let a := ulong_val k in let b := ulong_val x in if a <? b then -1 else if a =? b then 0 else 1.

Lemma rd_ulong k rest : zlen k = 4 -> rd_le 4 (k ++ rest) 0 = Ret (ulong_val k).
Proof.
  intros Hk. rewrite rd_le_app_l by lia. unfold ulong_val. destruct (rd_le 4 k 0) as [v|e|] eqn:E; [done|..]; exfalso;
  (destruct k as [|a [|b [|c [|d [|]]]]]; vm_compute in Hk; try done; cbn in E; done).
Qed.

#[export] Program Instance ulong_order : key_order ntfs_collate_ntofs_ulong := {
  key_valid k := zlen k = 4;
  key_cmp := ulong_cmp;
}.
Next Obligation.
  intros k junk x rest Hk Hx. unfold ntfs_collate_ntofs_ulong. rewrite Hk, Hx. cbn [Z.eqb Pos.eqb negb orb].
  by rewrite !rd_ulong by done.
Qed.
Next Obligation. intros k x _ _. unfold ulong_cmp. cbn zeta. repeat case_match; lia. Qed.
Next Obligation. intros k x _ _. unfold ulong_cmp. cbn zeta. repeat case_match; lia. Qed.
Next Obligation. intros k x y _ _ _. unfold ulong_cmp. cbn zeta. repeat case_match; lia. Qed.

Lemma lexcmp_range l k : -1 <= lexcmp l k <= 1.
Proof. revert k. induction l as [|a l IH]; intros [|b k]; cbn; try lia. unfold cmp_then. specialize (IH k). repeat case_match; lia. Qed.

Section File_names.
Context (upcase : ustr) (upcase_len : Z) (Htable : upcase_len <= zlen upcase).

Definition file_name_key (k : bytes) : Prop :=
  exists hdr ns name, zlen hdr = 0x40 /\ Forall (in_u 16) name /\ k = file_name_attr hdr ns name [].

Lemma file_name_key_eval k rest : file_name_key k ->
  file_name_length (k ++ rest) = Ret (zlen (file_name k)) /\ file_name (k ++ rest) = file_name k ++ words_of rest /\ Forall (in_u 16) (file_name k).
Proof using.
  intros (hdr & ns & name & Hh & Hn & ->). destruct (file_name_of hdr ns name [] Hh Hn) as [_ ->]. cbn [words_of]. rewrite app_nil_r.
  destruct (file_name_of hdr ns name rest Hh Hn) as [E1 E2]. assert (file_name_attr hdr ns name [] ++ rest = file_name_attr hdr ns name rest) as ->; [|done].
  unfold file_name_attr. rewrite app_nil_r. cbn [app]. by rewrite <- (assoc_L (++) hdr).
Qed.

#[export] Program Instance file_name_order : key_order (ntfs_collate_file_name upcase upcase_len) := {
  key_valid := file_name_key;
  key_cmp k x := name_cmp upcase upcase_len (file_name k) (file_name x);
}.
Next Obligation.
  intros k junk x rest Hk Hx. unfold ntfs_collate_file_name. destruct (file_name_key_eval k junk Hk) as (-> & -> & Fk).
  destruct (file_name_key_eval x rest Hx) as (-> & -> & Fx). cbn [obind].
  apply full_collate_tail; [done|..]; (eapply Forall_impl; [eassumption|]); intros ? [? ?]; lia.
Qed.
Next Obligation. intros k x _ _. cbn. unfold name_cmp, seqc. pose proof lexcmp_range as L. destruct (lexcmp _ _ =? 0); apply L. Qed.
Next Obligation. intros k x _ _. cbn. apply name_cmp_antisym. Qed.
Next Obligation. intros k x y _ _ _. cbn. apply name_cmp_trans. Qed.
End File_names.

(** ** The lookup *)

(** The entry that the context points to has the key. *)
Definition ctx_entry {f} {ord : key_order f} (ir : bytes) (c : ntfs_index_context) (key : bytes) : Prop :=
  exists node b h pre es1 x es2 le tail, node_ok node b h pre (es1 ++ x :: es2) le tail /\ entry c = Some (zlen (pre ++ concat es1)) /\
    key_cmp key (ent_key x) = 0 /\ if is_in_root c then b = ir /\ h = ROOT_INDEX else ib c = Some b /\ h = BLOCK_INDEX.

(** The context points into a leaf, between the smaller and the greater keys. *)
Definition ctx_place {f} {ord : key_order f} (ir : bytes) (c : ntfs_index_context) (key : bytes) (ks : list bytes) : Prop :=
  exists b h pre es1 es2 le tail l r, node_ok false b h pre (es1 ++ es2) le tail /\ entry c = Some (zlen (pre ++ concat es1)) /\
    ks = (l ++ map ent_key es1) ++ map ent_key es2 ++ r /\
    Forall (fun k => key_lt k key) (l ++ map ent_key es1) /\ Forall (fun k => key_lt key k) (map ent_key es2 ++ r) /\
    if is_in_root c then b = ir /\ h = ROOT_INDEX else ib c = Some b /\ h = BLOCK_INDEX.

Section Spec.
Context {f : COLLATE} {ord : key_order f} {St : Type} {attrs : index_attrs St}.

Lemma place_absent key a b : key_valid key -> keys_ok (a ++ b) -> Forall (fun k => key_lt k key) a -> Forall (fun k => key_lt key k) b -> ~ present key (a ++ b).
Proof using.
  clear attrs St. intros Vk [Hv _] Ha Hb (k & Hk & E). rewrite Forall_forall in *. specialize (Hv k Hk). apply elem_of_app in Hk as [Hk|Hk].
  - specialize (Ha k Hk). unfold key_lt in Ha. cbn in *. rewrite key_antisym in Ha by done. lia.
  - specialize (Hb k Hk). unfold key_lt in Hb. cbn in *. lia.
Qed.

(** C3. Searching an index of well-formed nodes whose keys are in order ends and
    makes no invalid access: it succeeds exactly when the index has the key, with
    the context at the entry that has it, and fails with ENOENT exactly when
    it does not, with the context in a leaf between the smaller and the greater keys. *)
Theorem index_lookup_spec (s : St) bs bits get_collate cluster_size cluster_size_bits ir d ks vs c key junk :
  index_ok s bs bits get_collate cluster_size cluster_size_bits ir d ks vs -> key_valid key -> 0 < zlen key ->
  zlen (parent_pos c) = 32 -> zlen (parent_vcn c) = 32 -> 0 <= pindex c -> pindex c + Z.of_nat d < 32 ->
  exists c' r, ntfs_index_lookup true get_collate cluster_size cluster_size_bits s c (key ++ junk) (zlen key) = Ret (c', r) /\
    (present key ks -> r = None /\ ctx_entry ir c' key) /\
    (~ present key ks -> r = Some ENOENT /\ ctx_place ir c' key ks).
Proof using.
  intros Hix Vk Hk Hp Hv Hi Hd. destruct (lookup_ok s bs bits junk get_collate cluster_size cluster_size_bits c ir d ks vs key Hix Vk Hk Hp Hv ltac:(lia))
    as (c' & r & E & _ & H). exists c', r. split; [done|]. destruct H as [[_ H]|[[-> H]|[-> H]]]; [lia|..].
  - assert (present key ks /\ ctx_entry ir c' key) as [? ?]; [|by split].
    destruct H as [(Er & nd & pre & es1 & x & es2 & le & tail & Hn & He & Hx & Hin)|(Er & b & Hb & nd & pre & es1 & x & es2 & le & tail & Hn & He & Hx & Hin)];
      (split; [by exists (ent_key x)|]); eexists nd, _, _, pre, es1, x, es2, le, tail; rewrite Er; done.
  - assert (ctx_place ir c' key ks) as Hpl.
    { destruct H as [(Er & _ & _ & pre & es1 & es2 & le & tail & Hn & He & Ek & Hl & Hr)|
        (Er & _ & leaf & v & l & r & Hib & _ & _ & _ & (pre & es1 & es2 & le & tail & Hn & He & Ek & Hl & Hr) & _)].
      - exists ir, ROOT_INDEX, pre, es1, es2, le, tail, [], []. rewrite Er. rewrite map_app in Ek. cbn [app] in *. rewrite !app_nil_r in *. done.
      - exists leaf, BLOCK_INDEX, pre, es1, es2, le, tail, l, r. rewrite Er. rewrite map_app in Ek. by rewrite <- !(assoc_L (++)) in *. }
    split; [|done]. intros Hpr. exfalso. destruct Hpl as (b & h & pre & es1 & es2 & le & tail & l & r & _ & _ & Ek & Hl & Hr & _).
    pose proof (ix_keys _ _ _ _ _ _ _ _ _ _ Hix) as Hks. rewrite Ek in Hks, Hpr. by eapply place_absent.
Qed.
End Spec.

(** ** An index of two leaves *)
Definition small_entry (key : bytes) (fl : Z) (kid : bytes) : bytes :=
  replicate 8 0 ++ le_bytes 2 (16 + zlen key * 2 + zlen kid) ++ le_bytes 2 (zlen key) ++ le_bytes 2 fl ++ [0; 0] ++ key ++ replicate (length key) 0 ++ kid.
Definition small_header (first used all fl : Z) : bytes := le_bytes 4 first ++ le_bytes 4 used ++ le_bytes 4 all ++ [fl; 0; 0; 0].

Definition small_root : bytes :=
  replicate 4 0 ++ le_bytes 4 16 ++ le_bytes 4 512 ++ [1; 0; 0; 0] ++ small_header 16 72 72 1 ++
  small_entry (le_bytes 4 50) 1 (le_bytes 8 0) ++ small_entry [] 3 (le_bytes 8 1).
Definition small_block_head (vcn used : Z) : bytes :=
  le_bytes 4 magic_INDX ++ le_bytes 2 40 ++ le_bytes 2 2 ++ replicate 8 0 ++ le_bytes 8 vcn ++ small_header 40 used 488 0 ++ replicate 24 0.
Definition small_block (vcn k1 k2 : Z) : bytes :=
  small_block_head vcn 104 ++ (small_entry (le_bytes 4 k1) 0 [] ++ small_entry (le_bytes 4 k2) 0 []) ++ small_entry [] 2 [] ++ replicate 384 0.

(** The attributes in memory: the root and the blocks by position. *)
#[export] Instance memory_attrs : index_attrs (bytes * list (Z * bytes)) := {
  ir_get s := Ret s.1;
  ir_put s ir := (ir, s.2);
  ia_pread s pos := match find (fun x => x.1 =? pos) s.2 with Some x => Ret x.2 | None => Fail EIO end;
  ia_pwrite s pos b := ((s.1, (pos, b) :: s.2), Ret tt);
  ia_open s := Ret tt;
}.
Definition small_index : bytes * list (Z * bytes) := (small_root, [(0, small_block 0 10 20); (512, small_block 1 60 70)]).
Definition ulong_rule (rule : Z) : option COLLATE := if rule =? 16 then Some ntfs_collate_ntofs_ulong else None.
Definition small_keys : list bytes := map (le_bytes 4) [10; 20; 50; 60; 70].

Ltac check_entry := constructor; [vm_compute; by split|by apply bytes_checked; vm_compute|reflexivity|eexists; split; [reflexivity|by split]|
  first [discriminate|intros _; eexists; split; [reflexivity|vm_compute; discriminate]]].
Ltac check_node := constructor; [reflexivity|vm_compute; split; discriminate|reflexivity|reflexivity|reflexivity|eexists; split; [reflexivity|reflexivity]|
  repeat (constructor; [check_entry|]); constructor|check_entry|apply bytes_checked; by vm_compute|reflexivity].

Lemma small_block_ok vcn k1 k2 : In (vcn, k1, k2) [(0, 10, 20); (1, 60, 70)] ->
  node_ok false (small_block vcn k1 k2) BLOCK_INDEX (small_block_head vcn 104) [small_entry (le_bytes 4 k1) 0 []; small_entry (le_bytes 4 k2) 0 []]
    (small_entry [] 2 []) (replicate 384 0).
Proof. intros [[= <- <- <-]|[[= <- <- <-]|[]]]; check_node. Qed.

Lemma small_root_ok : node_ok true small_root ROOT_INDEX (take 32 small_root) [small_entry (le_bytes 4 50) 1 (le_bytes 8 0)]
  (small_entry [] 3 (le_bytes 8 1)) [].
Proof. check_node. Qed.

Lemma small_index_at {St} {attrs : index_attrs St} (s : St) :
  ir_get s = Ret small_root -> ia_open s = Ret tt -> ia_pread s 0 = Ret (small_block 0 10 20) -> ia_pread s 512 = Ret (small_block 1 60 70) ->
  index_ok s 512 9 ulong_rule 512 9 small_root 1 small_keys [0; 1].
Proof.
  intros Er Eo E0 E1. assert (blocks s 512 9 0 = Ret (small_block 0 10 20)) as B0 by (unfold blocks, ntfs_ib_read; change (ntfs_ib_vcn_to_pos _ 0) with 0; by rewrite E0).
  assert (blocks s 512 9 1 = Ret (small_block 1 60 70)) as B1 by (unfold blocks, ntfs_ib_read; change (ntfs_ib_vcn_to_pos _ 1) with 512; by rewrite E1).
  constructor; try done.
  - exists 16. split; reflexivity.
  - eexists _, _, _, _, [([le_bytes 4 10; le_bytes 4 20], []); ([le_bytes 4 60; le_bytes 4 70], [])]. split; [exact small_root_ok|]. split; [|split; reflexivity].
    constructor; [|constructor; [|constructor]].
    + split; [vm_compute; discriminate|]. exists (small_block 0 10 20). split; [exact B0|]. eexists _, _, _, _. split; [apply small_block_ok; by left|split; reflexivity].
    + split; [vm_compute; discriminate|]. exists (small_block 1 60 70). split; [exact B1|]. eexists _, _, _, _. split; [apply small_block_ok; by right; left|split; reflexivity].
  - split; [repeat constructor|repeat constructor; vm_compute; done].
Qed.

Lemma small_index_ok : index_ok small_index 512 9 ulong_rule 512 9 small_root 1 small_keys [0; 1].
Proof. by apply small_index_at. Qed.

Lemma index_lookup_spec_witness :
  (exists c, ntfs_index_lookup true ulong_rule 512 9 small_index new_context (le_bytes 4 60) 4 = Ret (c, None) /\ ctx_entry small_root c (le_bytes 4 60)) /\
  (exists c, ntfs_index_lookup true ulong_rule 512 9 small_index new_context (le_bytes 4 15) 4 = Ret (c, Some ENOENT) /\ ctx_place small_root c (le_bytes 4 15) small_keys).
Proof.
  split.
  - destruct (index_lookup_spec small_index 512 9 ulong_rule 512 9 small_root 1 small_keys [0; 1] new_context (le_bytes 4 60) [] small_index_ok)
      as (c & r & E & H & _); [reflexivity..|vm_compute; discriminate|reflexivity|].
    destruct H as [-> H]; [exists (le_bytes 4 60); split; [by apply (bool_decide_unpack (le_bytes 4 60 ∈ small_keys)); vm_compute|reflexivity]|]. by exists c.
  - destruct (index_lookup_spec small_index 512 9 ulong_rule 512 9 small_root 1 small_keys [0; 1] new_context (le_bytes 4 15) [] small_index_ok)
      as (c & r & E & _ & H); [reflexivity..|vm_compute; discriminate|reflexivity|].
    destruct H as [-> H]; [|by exists c]. intros (k & Hk & E'). unfold small_keys in Hk. cbn [map] in Hk.
    repeat (apply elem_of_cons in Hk as [->|Hk]; [vm_compute in E'; discriminate|]). by apply elem_of_nil in Hk.
Defined.
