(* ===== verification/IndexInsert.v ===== *)
(** * Index trees: making room (ntfs/index.c)

    [ntfs_ib_split], with the recursion through full parents and the growth of the
    root, and [ntfs_ir_make_space] keep the keys of the tree. *)
From stdpp Require Import sorting.
From S2P Require Import Prelude Libc Fields Bitmap Index IndexAdd IndexNode IndexOps IndexSplit IndexTree IndexInv IndexRoot IndexGrow.

Section Insert.
Context {f : COLLATE} {ord : key_order f} {St : Type} {attrs : index_attrs St} {space : index_space St} {bs : Z} {laws : index_laws attrs space bs} {fits : resident_fits space bs}.
Context (bits : Z) (get_collate : Z -> option COLLATE) (cluster_size cluster_size_bits : Z).
Notation blocks s := (IndexTree.blocks s bs bits).
Notation trail s := (IndexTree.trail s bs bits).
Notation index_ok s := (IndexTree.index_ok s bs bits get_collate cluster_size cluster_size_bits).

(** ** The invariant

    [M] bounds the entries of blocks that are not leaves; those of leaves have room for
    a child.  Into a block without entries, one more than [M] bytes long fits. *)
Context (M : Z).

Definition sized (nd : bool) (es : list bytes) (le : bytes) : Prop := Forall (fun x => zlen x + (if nd then 0 else 8) <= M) es /\ zlen le <= 24.
Definition stored (s : St) (v : Z) : Prop :=
  exists nd b pre es le tail, blocks s v = Ret b /\ block_ok bs v b pre /\ node_ok nd b BLOCK_INDEX pre es le tail /\ sized nd es le /\ zlen pre + 32 + M <= bs.
Definition root_ok (ir : bytes) : Prop :=
  exists nd pre es le tail, node_ok nd ir ROOT_INDEX pre es le tail /\ sized nd es le /\ zlen ir + first_offset bs <= bs + 8.
(** A root without a key: its only entry leads to the block [v]. *)
Definition keyless (ir : bytes) (v : Z) : Prop := exists pre le, node_ok true ir ROOT_INDEX pre [] le [] /\ ent_vcn le = v.
Definition in_use (s : St) (v : Z) : Prop := exists k, slot bs bits v k /\ bit_of s k = true.

Record tree_inv (s : St) (ir : bytes) (d : nat) (ks : list bytes) (vs : list Z) : Prop := {
  tv_index : index_ok s ir d ks vs;
  tv_root : root_ok ir;
  tv_nodup : NoDup vs;
  tv_slots : Forall (in_use s) vs;
  tv_stored : Forall (stored s) vs;
}.

(** What a step may do: bits stay set, and the blocks that come in were free. *)
Record grown (s s' : St) (vs vs' : list Z) : Prop := {
  gr_bits : forall k, 0 <= k -> bit_of s k = true -> bit_of s' k = true;
  gr_new : forall v, v ∈ vs' -> v ∈ vs \/ exists k, slot bs bits v k /\ bit_of s k = false;
  gr_bm : exists bm, bm_readall s' = Ret bm;
  gr_more : (length vs < length vs')%nat;
}.

Lemma stored_eq s s' v : blocks s' v = blocks s v -> stored s v -> stored s' v.
Proof using. intros E (nd & b & pre & es & le & tail & Eb & H). exists nd, b, pre, es, le, tail. by rewrite E. Qed.

(** What is known of a block, for the entries it is known to have. *)
Lemma stored_node s v b nd pre es le tail : stored s v -> blocks s v = Ret b -> node_ok nd b BLOCK_INDEX pre es le tail ->
  block_ok bs v b pre /\ sized nd es le /\ zlen pre + 32 + M <= bs.
Proof using.
  intros (nd' & b' & pre' & es' & le' & tail' & Eb & Hb & Hn' & H) Eb' Hn. rewrite Eb in Eb'. injection Eb' as ->.
  destruct (node_unique _ _ _ _ _ _ _ _ _ _ _ _ Hn Hn') as (-> & -> & -> & -> & _). done.
Qed.

Lemma root_sized ir nd pre es le tail : root_ok ir -> node_ok nd ir ROOT_INDEX pre es le tail -> sized nd es le /\ zlen ir + first_offset bs <= bs + 8.
Proof using.
  intros (nd' & pre' & es' & le' & tail' & Hn' & H) Hn. by destruct (node_unique _ _ _ _ _ _ _ _ _ _ _ _ Hn Hn') as (-> & _ & -> & -> & _).
Qed.

(** A step that leaves the tree alone. *)
Lemma tree_inv_frame s s' ir d ks vs :
  tree_inv s ir d ks vs -> same_root s s' -> (forall v, v ∈ vs -> blocks s' v = blocks s v) -> (forall v, v ∈ vs -> in_use s v -> in_use s' v) -> tree_inv s' ir d ks vs.
Proof using.
  intros [Hi Hrt Hnd Hsl Hst] [Er Eo] Hb Hbit. constructor; [|done|done| |].
  - destruct Hi. constructor; try done; [by rewrite Er|by rewrite Eo|]. by apply (tree_at_ext (blocks s)).
  - rewrite Forall_forall in *. intros v Hv. apply Hbit; [done|by apply Hsl].
  - rewrite Forall_forall in *. intros v Hv. apply (stored_eq s); [by apply Hb|by apply Hst].
Qed.

Lemma same_blocks_at s s' v : same_blocks s s' -> blocks s' v = blocks s v.
Proof using. intros H. unfold IndexTree.blocks, ntfs_ib_read. by rewrite H. Qed.

Lemma in_use_bits s s' v : (forall k, 0 <= k -> bit_of s k = true -> bit_of s' k = true) -> in_use s v -> in_use s' v.
Proof using. intros H (k & Hk & Hb). exists k. split; [done|]. apply H; [by destruct Hk|done]. Qed.

Lemma trail_ext s s' d b h vcn ks vs c i : (forall v, v ∈ vs -> blocks s' v = blocks s v) -> trail s d b h vcn ks vs c i -> trail s' d b h vcn ks vs c i.
Proof using.
  revert b h vcn ks vs i. induction d as [|d IH]; intros b h vcn ks vs i Hs; cbn [IndexTree.trail]; [done|].
  intros (Ev & pre & es1 & es2 & le & tail & t1 & k & w & t2 & blk & Hn & HF & Hl & Ep & Ek & Evs & Eb & Htr). split; [done|].
  exists pre, es1, es2, le, tail, t1, k, w, t2, blk. fold (first_of es2 le) in *.
  assert (forall v, v ∈ ent_vcn (first_of es2 le) :: w -> v ∈ vs) as Hsub.
  { intros v Hv. rewrite Evs. assert (exists es3, es2 ++ [le] = first_of es2 le :: es3) as [es3 Ee] by (destruct es2; eauto).
    rewrite <- (assoc_L (++)), Ee, kids_vcns_app, kids_cons by done. apply elem_of_app. right. cbn [snd]. rewrite app_comm_cons. apply elem_of_app. by left. }
  split_and!; try done.
  - eapply kids_ext; [|exact HF]. intros v Hv. apply Hs. by rewrite Evs.
  - rewrite Hs; [done|]. apply Hsub, elem_of_cons. by left.
  - apply IH; [|done]. intros v Hv. apply Hs, Hsub, elem_of_cons. by right.
Qed.

(** ** The bitmap *)
Context (Hbits : 0 <= bits) (Hbs : 512 <= bs < 2 ^ 15) (Hdiv : bs mod 2 ^ bits = 0) (HM : 24 + first_offset bs + 32 + M <= bs).
Lemma modify_no_fault s c vcn b : exists s' r, ntfs_ibm_modify s c vcn b = (s', r) /\ r <> Fault.
Proof using laws.
  unfold ntfs_ibm_modify. destruct (l_bm_open s) as [Ho _]. destruct (bm_open s) as [n|e|]; [|by eexists _, _|done].
  match goal with |- context [let '(_, _) := ?x in _] => assert (exists s1 r1, x = (s1, r1) /\ r1 <> Fault) as (s1 & r1 & -> & Hr1) end.
  { destruct (b && _); [|by eexists _, _]. destruct (l_bm_truncate s (Z.land (n + 8) (Z.lnot 7))) as (s1 & r1 & E & Hr & _). by exists s1, r1. }
  destruct r1; [|by eexists _, _|done]. destruct (l_bm_pread s1 (u32 (ntfs_ibm_vcn_to_pos c vcn / 8))) as [Hp _].
  destruct (bm_pread _ _) as [byte| |]; [|by eexists _, _|done].
  destruct (l_bm_pwrite s1 (u32 (ntfs_ibm_vcn_to_pos c vcn / 8)) (bit_set_in b byte (ntfs_ibm_vcn_to_pos c vcn mod 8))) as (s2 & r2 & E & Hr & _).
  exists s2, r2. split; [exact E|done].
Qed.

Lemma undo_clear s c vcn : exists s', undo (ntfs_ibm_clear s c vcn) = Ret s'.
Proof using laws. destruct (modify_no_fault s c vcn false) as (s' & r & E & Hr). unfold ntfs_ibm_clear. rewrite E. destruct r; [by exists s'|by exists s'|done]. Qed.

(** The bit of a block that did not come in is cleared again. *)
Lemma clear_new s c ir d ks vs nv k bm :
  block_size c = bs -> vcn_size_bits c = bits -> tree_inv s ir d ks vs -> bm_readall s = Ret bm -> slot bs bits nv k -> bit_of s k = true -> nv ∉ vs ->
  exists s', undo (ntfs_ibm_clear s c nv) = Ret s' /\ tree_inv s' ir d ks vs /\ (forall j, 0 <= j -> j <> k -> bit_of s' j = bit_of s j) /\ exists bm', bm_readall s' = Ret bm'.
Proof using laws Hbits Hbs Hdiv.
  intros Ebs Ebits Hinv Ebm Hnv Hbit Hnin. unfold bit_of in Hbit. rewrite Ebm in Hbit.
  assert (k < 8 * zlen bm) as Hk.
  { destruct (Z.ltb_spec k (8 * zlen bm)); [done|]. exfalso. unfold bit_at in Hbit. rewrite rd_fault in Hbit by (destruct Hnv; dlia). done. }
  destruct (ibm_modify_ok (laws := laws) s c nv k false bm Ebs ltac:(lia)) as (s' & r & E & Hr & Hro & Hbl & bm' & Ebm' & _ & Hoth & _); try done.
  { unfold ntfs_ib_vcn_to_pos. rewrite Ebits. apply Hnv. }
  { apply Hnv. }
  { lia. }
  unfold ntfs_ibm_clear. rewrite E. exists s'. split; [by destruct r|]. assert (forall j, 0 <= j -> j <> k -> bit_of s' j = bit_of s j) as Hj.
  { intros j Hj Hne. unfold bit_of. rewrite Ebm, Ebm'. by apply Hoth. }
  split; [|split; [done|by exists bm']]. apply (tree_inv_frame s); try done.
  - intros v _. by apply same_blocks_at.
  - intros v Hv (kv & Hkv & Hb). exists kv. split; [done|]. rewrite Hj; [done|by destruct Hkv|]. intros ->. apply Hnin. by rewrite (slot_inj (bs := bs) bits nv v k Hbits Hnv Hkv).
Qed.

(** ** The root gets another size *)
Lemma root_swap rdb d b b' h ks vs :
  (forall nd pre es le tail, node_ok nd b h pre es le tail -> exists pre' tail', node_ok nd b' h pre' es le tail') -> tree_at rdb d b h ks vs -> tree_at rdb d b' h ks vs.
Proof using.
  clear Hbits Hbs Hdiv HM. intros H. destruct d as [|d]; cbn [tree_at].
  - intros (pre & es & le & tail & Hn & Hk). destruct (H _ _ _ _ _ Hn) as (pre' & tail' & Hn'). by exists pre', es, le, tail'.
  - intros (pre & es & le & tail & subs & Hn & Hk). destruct (H _ _ _ _ _ Hn) as (pre' & tail' & Hn'). by exists pre', es, le, tail', subs.
Qed.

(** The used part of the root and its first fields stay. *)
Lemma resized_root nd ir pre es le tail n ir1 :
  node_ok nd ir ROOT_INDEX pre es le tail -> zlen pre - ROOT_INDEX + zlen (concat es) + zlen le <= n < 2 ^ 31 - 16 -> resized ir (n + 16) ir1 ->
  exists ir' pre' tail', put 4 ir1 (ROOT_INDEX + 8) n = Ret ir' /\ node_ok nd ir' ROOT_INDEX pre' es le tail' /\
    zlen pre' = zlen pre /\ zlen tail' = n - (zlen pre - ROOT_INDEX + zlen (concat es) + zlen le) /\ (forall k, 0 <= k < 16 -> rd ir' k = rd ir k).
Proof using.
  clear Hbits Hbs Hdiv HM. intros H Hn (Hz & Hb & Hrd). destruct (no_head _ _ _ _ _ _ _ H) as [_ Hh]. unfold ROOT_INDEX in *.
  pose proof (zlen_nonneg (concat es)). pose proof (ent_size16 _ _ _ (no_last _ _ _ _ _ _ _ H)). pose proof (zlen_nonneg tail).
  pose proof (node_size _ _ _ _ _ _ _ H) as Hzi. set (u := zlen pre + zlen (concat es) + zlen le) in *.
  set (ir' := splice ir1 24 (le_bytes 4 n)). assert (zlen ir' = n + 16) as Hz' by (unfold ir'; rewrite zlen_splice; rewrite ?zlen_le_bytes; lia).
  assert (Forall byte_ok ir') as Hb' by (apply byte_ok_splice; [done|apply byte_ok_le_bytes]).
  assert (forall k, 0 <= k < u -> k < 24 \/ 28 <= k -> rd ir' k = rd ir k) as Hrd'.
  { intros k Hk Hd. unfold ir'. rewrite rd_splice_other by (rewrite ?zlen_le_bytes; lia). apply Hrd; lia. }
  assert (forall m i, 0 <= i -> i + Z.of_nat m <= u -> i + Z.of_nat m <= 24 \/ 28 <= i -> rd_le m ir' i = rd_le m ir i) as Hle.
  { intros m i Hi Hm Hd. apply rd_le_eq. intros k Hk. apply Hrd'; lia. }
  destruct (split_first ir' (zlen pre)) as (pre' & q & E & Hp & Hq); [lia|]. destruct (split_first q (zlen (concat es) + zlen le)) as (mid & tail' & Eq & Hm & Ht); [lia|].
  assert (mid = concat es ++ le) as ->.
  { apply list_eq_rd; [rewrite zlen_app; lia|]. intros i Hi. specialize (Hrd' (zlen pre + i) ltac:(lia) ltac:(lia)). rewrite E, Eq in Hrd'.
    rewrite (rd_app_r pre'), (rd_app_l mid) in Hrd' by lia. rewrite (no_eq _ _ _ _ _ _ _ H) in Hrd'. rewrite (assoc_L (++) (concat es)) in Hrd'.
    rewrite (rd_app_r pre), (rd_app_l (concat es ++ le)) in Hrd' by (rewrite ?zlen_app; lia).
    replace (zlen pre + i - zlen pre') with i in Hrd' by lia. replace (zlen pre + i - zlen pre) with i in Hrd' by lia. exact Hrd'. }
  exists ir', pre', tail'. split; [unfold put; by rewrite wrn_ok by (rewrite ?zlen_le_bytes; lia)|]. split; [|split; [done|split; [lia|intros; apply Hrd'; lia]]].
  destruct H as [_ _ Efi Ele _ (fl & Efl & Hfl) Hes Hl _ _]. constructor; rewrite ?Hp; try done.
  - rewrite E, Eq. by rewrite <- (assoc_L (++) (concat es)).
  - unfold entries_offset in *. by rewrite Hle by lia.
  - unfold index_length in *. by rewrite Hle by lia.
  - unfold allocated_size, ir'. change (16 + 8) with 24. rewrite rd_le_splice_same by lia. fold ir'. rewrite Hz', Z.mod_small; [f_equal; lia|]. change (256 ^ Z.of_nat 4) with 4294967296. lia.
  - exists fl. split; [|done]. unfold ih_flags in *. by rewrite Hrd' by lia.
  - lia.
Qed.

(** A root with the same node, and the same fields in front. *)
Lemma inv_root s s' ir ir' d ks vs :
  tree_inv s ir d ks vs -> ir_get s' = Ret ir' -> ia_open s' = ia_open s -> same_blocks s s' -> same_bitmap s s' ->
  (forall nd pre es le tail, node_ok nd ir ROOT_INDEX pre es le tail -> exists pre' tail', node_ok nd ir' ROOT_INDEX pre' es le tail') ->
  (forall k, 0 <= k < 16 -> rd ir' k = rd ir k) -> zlen ir' + first_offset bs <= bs + 8 -> tree_inv s' ir' d ks vs.
Proof using.
  clear Hbits Hbs Hdiv HM. intros [Hi Hrt Hnd Hsl Hst] Er Eo Hbl Hbm Hroot Hrd Hfits. assert (forall v, blocks s' v = blocks s v) as Hb by (intros; by apply same_blocks_at).
  assert (forall i, 0 <= i -> i + 4 <= 16 -> rd_le 4 ir' i = rd_le 4 ir i) as Hle by (intros i Hi' Hm; apply rd_le_eq; intros k Hk; apply Hrd; lia).
  constructor; [| |done| |].
  2: { destruct Hrt as (nd & pre & es & le & tail & Hn & Hs & _). destruct (Hroot _ _ _ _ _ Hn) as (pre' & tail' & Hn'). by exists nd, pre', es, le, tail'. }
  - destruct Hi. constructor; try done; [by rewrite Eo|by rewrite Hle by lia|by rewrite Hle by lia|]. apply (root_swap _ d ir); [done|]. by apply (tree_at_ext (blocks s)).
  - eapply Forall_impl; [exact Hsl|]. cbn. intros v. apply in_use_bits. intros k _. unfold bit_of. by rewrite Hbm.
  - eapply Forall_impl; [exact Hst|]. cbn. intros v. by apply stored_eq.
Qed.

(** The entries of a node in another place make the same tree. *)
Lemma root_node s ir d ks vs : tree_inv s ir d ks vs -> exists nd pre es le tail, node_ok nd ir ROOT_INDEX pre es le tail /\ nd = bool_decide (d <> 0%nat) /\
  forall b h pre' tail', node_ok nd b h pre' es le tail' -> tree_at (blocks s) d b h ks vs.
Proof using.
  clear Hbits Hbs Hdiv HM. intros [Hi _ _ _ _]. pose proof (ix_tree _ _ _ _ _ _ _ _ _ _ Hi) as Ht. destruct d as [|d]; cbn [tree_at] in Ht.
  - destruct Ht as (pre & es & le & tail & Hn & Hk). exists false, pre, es, le, tail. split_and!; try done. intros b h pre' tail' Hn'. by exists pre', es, le, tail'.
  - destruct Ht as (pre & es & le & tail & subs & Hn & Hk). exists true, pre, es, le, tail. split_and!; try done. intros b h pre' tail' Hn'. by exists pre', es, le, tail', subs.
Qed.

Lemma ir_truncate_ok s ir d ks vs nd pre es le tail n :
  tree_inv s ir d ks vs -> node_ok nd ir ROOT_INDEX pre es le tail -> zlen pre - ROOT_INDEX + zlen (concat es) + zlen le <= n < 2 ^ 31 - 16 ->
  exists s' st, ntfs_ir_truncate s n = Ret (s', st) /\
    match st with
    | STATUS_OK => exists ir' pre' tail', tree_inv s' ir' d ks vs /\ node_ok nd ir' ROOT_INDEX pre' es le tail' /\ zlen pre' = zlen pre /\
        zlen tail' = n - (zlen pre - ROOT_INDEX + zlen (concat es) + zlen le) /\ same_blocks s s' /\ same_bitmap s s'
    | STATUS_RESIDENT_ATTRIBUTE_FILLED_MFT => tree_inv s' ir d ks vs /\ same_blocks s s' /\ same_bitmap s s'
    | STATUS_ERROR => True
    | STATUS_KEEP_SEARCHING => False
    end.
Proof using laws fits.
  clear Hbits Hbs Hdiv HM. intros Hinv Hn Hlen. pose proof (ix_root _ _ _ _ _ _ _ _ _ _ (tv_index _ _ _ _ _ Hinv)) as Eir. unfold ntfs_ir_truncate.
  pose proof (l_ir_open s) as Hro. destruct (ir_open s) as [[]|e|]; [|by exists s, STATUS_ERROR|done]. clear Hro.
  destruct (l_ir_truncate s (n + 16)) as (s1 & st & Etr & Hst & Hok). specialize (Hok ir Eir). rewrite Etr. destruct st; [|by exists s1, STATUS_ERROR| |done].
  - pose proof (l_truncate_fits _ _ _ Etr) as Hsmall. destruct (Hok ltac:(done)) as (Eo & Hbl & Hbm & ir1 & Eir1 & Hres). rewrite Eir1.
    destruct (resized_root nd ir pre es le tail n ir1 Hn Hlen Hres) as (ir' & pre' & tail' & Eput & Hn' & Hp' & Ht' & Hrd). rewrite Eput. cbn [obind].
    assert (zlen ir' = n + 16) as Hz' by (rewrite (node_size _ _ _ _ _ _ _ Hn'); unfold ROOT_INDEX in *; lia).
    destruct (l_ir_put s1 ir1 ir' Eir1) as (Eir' & Eo' & Hbl' & Hbm'); [destruct Hres as (Hz & _); lia|].
    assert (same_blocks s (ir_put s1 ir')) as Hbl2 by (intros p; by rewrite Hbl'). assert (same_bitmap s (ir_put s1 ir')) as Hbm2 by (unfold same_bitmap in *; congruence).
    exists (ir_put s1 ir'), STATUS_OK. split; [done|]. exists ir', pre', tail'. split; [|done]. apply (inv_root s _ ir); try done; [congruence| |lia].
    intros nd0 pre0 es0 le0 tail0 Hn0. destruct (node_unique _ _ _ _ _ _ _ _ _ _ _ _ Hn Hn0) as (-> & -> & -> & -> & ->). by exists pre', tail'.
  - destruct (Hok ltac:(done)) as (Eo & Hbl & Hbm & Eir1). exists s1, STATUS_RESIDENT_ATTRIBUTE_FILLED_MFT. split; [done|]. split; [|done].
    destruct (root_sized ir _ _ _ _ _ (tv_root _ _ _ _ _ Hinv) Hn) as [_ Hsz].
    apply (inv_root s _ ir); try done. intros. by eexists _, _.
Qed.

(** ** The root moves into a block *)
Lemma ia_add_ok s : exists s' r, ntfs_ia_add s = (s', r) /\ r <> Fault /\
  (r = Ret tt -> ir_get s' = ir_get s /\ same_blocks s s' /\ ia_open s' = Ret tt /\ forall k, bit_of s k = true -> bit_of s' k = true).
Proof using laws.
  clear Hbits Hbs Hdiv HM. unfold ntfs_ia_add.
  assert (exists s1 r1, ntfs_ibm_add s = (s1, r1) /\ r1 <> Fault /\ ir_get s1 = ir_get s /\ same_blocks s s1 /\ forall k, bit_of s k = true -> bit_of s1 k = true)
    as (s1 & r1 & -> & Hr1 & Hi1 & Hb1 & Hbit1).
  { unfold ntfs_ibm_add. destruct (bm_exist s) eqn:Ex; [by exists s, (Ret tt)|]. destruct (l_bm_create s (replicate 8 0)) as (s1 & r1 & -> & Hr & [Hi _] & Hb).
    exists s1, r1. split_and!; try done. intros k. unfold bit_of. destruct (bm_readall s) eqn:E; [|done..]. apply l_bm_exist in E. congruence. }
  destruct r1 as [[]|e|]; [|by exists s1, (Fail e)|done].
  assert (exists s2 r2, (if ia_exist s1 then (s1, Ret tt) else ia_create s1) = (s2, r2) /\ r2 <> Fault /\ ir_get s2 = ir_get s1 /\ same_blocks s1 s2 /\ same_bitmap s1 s2)
    as (s2 & r2 & -> & Hr2 & Hi2 & Hb2 & Hm2).
  { destruct (ia_exist s1); [by exists s1, (Ret tt)|]. destruct (l_ia_create s1) as (s2 & r2 & -> & H). by exists s2, r2. }
  destruct r2 as [[]|e|]; [|by exists s2, (Fail e)|done]. exists s2, (ia_open s2). split; [done|]. split; [apply l_ia_open|]. intros Eo.
  split; [congruence|]. split; [intros p; by rewrite Hb2|]. split; [done|]. intros k Hk. apply Hbit1 in Hk. unfold bit_of in *. by rewrite Hm2.
Qed.

Lemma reparent_root_ok : forall rounds s c ir d ks vs irs p nv k nd es le blk,
  block_size c = bs -> vcn_size_bits c = bits ->
  (* the root, or what is left of it, and the block with its entries *)
  ir_get s = Ret irs -> (irs = ir /\ (exists pre tail, node_ok nd ir ROOT_INDEX pre es le tail /\ zlen pre = p /\ zlen ir < 2 ^ 30) \/ emptied irs p /\ forall k, 0 <= k < 16 -> rd irs k = rd ir k) ->
  ia_open s = Ret tt -> tree_at (blocks s) d blk BLOCK_INDEX ks vs -> blocks s nv = Ret blk -> stored s nv ->
  rd_le 4 ir 8 = Ret bs -> bits = (if cluster_size <=? bs then cluster_size_bits else 9) -> (exists rule, rd_le 4 ir 4 = Ret rule /\ get_collate rule = Some f) -> keys_ok ks ->
  NoDup (nv :: vs) -> slot bs bits nv k -> bit_of s k = true -> Forall (in_use s) vs -> Forall (stored s) vs ->
  exists s' st, reparent_root rounds s c nv = Ret (s', st) /\ (st = STATUS_OK \/ st = STATUS_ERROR) /\
    (st = STATUS_OK -> same_bitmap s s' /\ exists ir', tree_inv s' ir' (S d) ks (nv :: vs) /\ keyless ir' nv).
Proof using laws fits Hbits Hbs.
  intros rounds. induction rounds as [|rounds IH]; intros s c ir d ks vs irs p nv k nd es le blk Ebs Ebits Eir Hroot Hopen Ht Eblk Hblk Hsize Hb Hrule Hks Hnd Hslot Hbit Huse Hst.
  all: assert (forall s1, exists s' st, (let! s0 := undo (ntfs_ibm_clear s1 c nv) in Ret (s0, STATUS_ERROR)) = Ret (s', st) /\ (st = STATUS_OK \/ st = STATUS_ERROR) /\
    (st = STATUS_OK -> same_bitmap s s' /\ exists ir', tree_inv s' ir' (S d) ks (nv :: vs) /\ keyless ir' nv)) as Hclear
    by (intros s1; destruct (undo_clear s1 c nv) as [s' ->]; cbn [obind]; exists s', STATUS_ERROR; split; [done|]; split; [by right|done]).
  all: cbn [reparent_root]; rewrite Eir.
  all: assert (exists ire, emptied_root irs = Ret (ire, p + 24) /\ emptied ire p /\ zlen ire = zlen irs /\ forall k, 0 <= k < 16 -> rd ire k = rd ir k) as (ire & -> & Hem & Hz & Hrd)
    by (destruct Hroot as [(-> & pre & tail & Hn & <- & Hsm)|[Hem Hrd]];
        [by eapply emptied_node|destruct (emptied_again irs p Hem) as (ire & -> & Hem' & Hz & Hrd'); exists ire; split_and!; try done; intros j Hj; by rewrite Hrd', Hrd by lia]).
  all: cbn [obind]; destruct (l_ir_put s irs ire Eir Hz) as (Eir1 & Eo1 & Hbl1 & Hbm1).
  all: destruct (l_ir_resize (ir_put s ire) (p + 24)) as (s2 & r & Ers & Hr & Hres); rewrite Ers; specialize (Hres ire Eir1); destruct Hres as (Eo2 & Hbl2 & Hbm2 & Hres).
  all: assert (same_blocks s s2) as Hbl by (intros q; by rewrite Hbl2); assert (same_bitmap s s2) as Hbm by (unfold same_bitmap in *; congruence).
  all: destruct r as [[]|e|]; [| |done].
  (* the root has its new size *)
  1, 3: destruct Hres as (ir3 & Eir3 & Hres); rewrite Eir3; cbn [obind];
    destruct (reparented ire p ir3 nv Hem Hres (proj1 (proj2 Hslot))) as (ir4 & pre & le4 & E4 & Hn4 & Hv4 & Hl4 & Hz4 & Hrd4); pose proof (l_resize_fits _ _ _ Ers) as Hfits;
    destruct (ntfs_ie_get_first ir3 ROOT_INDEX) as [ie| |]; cbn [obind] in E4 |- *; try done; rewrite E4; cbn [obind];
    destruct (l_ir_put s2 ir3 ir4 Eir3 Hz4) as (Eir5 & Eo5 & Hbl5 & Hbm5); set (s5 := ir_put s2 ir4) in *;
    exists s5, STATUS_OK; split; [done|]; split; [by left|]; intros _; split; [unfold same_bitmap in *; congruence|]; exists ir4; split; [|exists pre, le4; split; [exact Hn4|exact Hv4]];
    assert (forall v, blocks s5 v = blocks s v) as Hb5 by (intros v; rewrite (same_blocks_at s2 s5 v Hbl5); by apply same_blocks_at);
    assert (forall i, 0 <= i -> i + 4 <= 16 -> rd_le 4 ir4 i = rd_le 4 ir i) as Hle by (intros i Hi Hm; apply rd_le_eq; intros j Hj; rewrite Hrd4 by lia; apply Hrd; lia);
    assert (forall v, in_use s v -> in_use s5 v) as Huse5 by (intros v; apply in_use_bits; intros j _; unfold bit_of, same_bitmap in *; by rewrite Hbm5, Hbm);
    constructor; [|exists true, pre, [], le4, []; split; [done|]; split; [split; [constructor|lia]|]; destruct Hres as [Hz3 _]; lia|done| |];
    [ constructor; [done|intros _; congruence|split; [by rewrite Hle by lia|lia]|done|by rewrite Hle by lia| |done];
      exists pre, [], le4, [], [(ks, vs)]; split; [done|]; split;
        [constructor; [|constructor]; rewrite Hv4; split; [apply Hslot|]; exists blk; split; [by rewrite Hb5|]; by apply (tree_at_ext (blocks s))|];
        split; [done|cbn; by rewrite Hv4, app_nil_r]
    | constructor; [apply Huse5; by exists k|eapply Forall_impl; [exact Huse|]; cbn; apply Huse5]
    | constructor; [by apply (stored_eq s)|eapply Forall_impl; [exact Hst|]; cbn; intros v; by apply stored_eq] ].
  - apply Hclear.
  - destruct (decide (e = ENOSPC)); [|apply Hclear]. destruct (l_ir_move_away s2 (p + 24)) as (s3 & m & -> & Hm). destruct m; [|apply Hclear].
    destruct (Hm eq_refl) as ([Er3 Eo3] & Hbl3 & Hbm3). assert (forall v, blocks s3 v = blocks s v) as Hb3 by (intros v; rewrite (same_blocks_at s2 s3 v Hbl3); by apply same_blocks_at).
    destruct (IH s3 c ir d ks vs ire p nv k nd es le blk) as (s' & st & E & Hst' & Hok); try done; [congruence|by right|congruence|by apply (tree_at_ext (blocks s))|by rewrite Hb3|by apply (stored_eq s)| | | |].
    + unfold bit_of, same_bitmap in *. by rewrite Hbm3, Hbm.
    + eapply Forall_impl; [exact Huse|]. cbn. intros v. apply in_use_bits. intros j _. unfold bit_of, same_bitmap in *. by rewrite Hbm3, Hbm.
    + eapply Forall_impl; [exact Hst|]. cbn. intros v. by apply stored_eq.
    + exists s', st. split; [done|]. split; [done|]. intros Es. destruct (Hok Es) as [Hb' Hi]. split; [unfold same_bitmap in *; congruence|done].
Qed.

Lemma not_in_use s v k vs : slot bs bits v k -> bit_of s k = false -> Forall (in_use s) vs -> v ∉ vs.
Proof using Hbits Hbs.
  intros Hs Hb F Hin. rewrite Forall_forall in F. destruct (F v Hin) as (k' & Hs' & Hb'). assert (k' = k) as ->; [|congruence].
  destruct Hs as (_ & _ & E), Hs' as (_ & _ & E'). rewrite E in E'. nia.
Qed.

(** What a free block is: the state after its bit was set. *)
Lemma get_free_inv s c ir d ks vs :
  block_size c = bs -> vcn_size_bits c = bits -> tree_inv s ir d ks vs ->
  exists s' r, ntfs_ibm_get_free s c = (s', r) /\ r <> Fault /\ forall nv, r = Ret (Some nv) ->
    exists k bm', tree_inv s' ir d ks vs /\ same_root s s' /\ same_blocks s s' /\ slot bs bits nv k /\ nv ∉ vs /\ bit_of s k = false /\ bit_of s' k = true /\
      (forall j, 0 <= j -> bit_of s j = true -> bit_of s' j = true) /\ (forall j, 0 <= j -> j <> k -> bit_of s' j = bit_of s j) /\ bm_readall s' = Ret bm'.
Proof using laws Hbits Hbs Hdiv.
  intros Ebs Ebits Hinv. destruct (bm_readall s) as [bm|e|] eqn:Ebm.
  - destruct (ibm_get_free_ok (laws := laws) s c bm bits Ebs Ebits Hbits ltac:(lia) Hdiv Ebm) as (s' & r & k & bm' & E & Hro & Hbl & Ebm' & Hoth & Hk & Hfree & Hr).
    exists s', (Ret r). split; [done|]. split; [done|]. intros nv [= ->]. destruct Hr as [Hslot Hset]. exists k, bm'.
    assert (bit_of s k = false) as Hf by (unfold bit_of; by rewrite Ebm). assert (bit_of s' k = true) as Ht by (unfold bit_of; by rewrite Ebm').
    assert (forall j, 0 <= j -> j <> k -> bit_of s' j = bit_of s j) as Hj by (intros j Hj Hne; unfold bit_of; rewrite Ebm, Ebm'; by apply Hoth).
    assert (forall j, 0 <= j -> bit_of s j = true -> bit_of s' j = true) as Hmono by (intros j Hj0 Hb; destruct (Z.eq_dec j k) as [->|]; [done|by rewrite Hj]).
    split_and!; try done; [|by eapply not_in_use; [..|apply (tv_slots _ _ _ _ _ Hinv)]].
    apply (tree_inv_frame s); try done; [intros v _; by apply same_blocks_at|intros v _; by apply in_use_bits].
  - unfold ntfs_ibm_get_free. rewrite Ebm. by exists s, (Ret None).
  - by destruct (l_bm_readall s).
Qed.

Lemma reparent_ok memory s c ir d ks vs :
  block_size c = bs -> vcn_size_bits c = bits -> tree_inv s ir d ks vs ->
  exists s' st, ntfs_ir_reparent memory s c = Ret (s', st) /\ (st = STATUS_OK \/ st = STATUS_ERROR) /\
    (st = STATUS_OK -> exists ir' v, tree_inv s' ir' (S d) ks (v :: vs) /\ keyless ir' v /\ grown s s' vs (v :: vs)).
Proof using laws fits Hbits Hbs Hdiv HM.
  intros Ebs Ebits Hinv. destruct (root_node _ _ _ _ _ Hinv) as (nd & pre & es & le & tail & Hn & Hnd & Hmove).
  destruct (root_sized ir _ _ _ _ _ (tv_root _ _ _ _ _ Hinv) Hn) as [Hsz Hfits].
  unfold ntfs_ir_reparent. rewrite (ix_root _ _ _ _ _ _ _ _ _ _ (tv_index _ _ _ _ _ Hinv)). destruct (no_flag _ _ _ _ _ _ _ Hn) as (fl & Efl & Hfl). rewrite Efl. cbn [obind]. rewrite Hfl.
  assert (exists s0 r0, (if (if nd then 1 else 0) =? 0 then ntfs_ia_add s else (s, Ret tt)) = (s0, r0) /\ r0 <> Fault /\
    (r0 = Ret tt -> tree_inv s0 ir d ks vs /\ ia_open s0 = Ret tt /\ (forall k, bit_of s k = true -> bit_of s0 k = true) /\ forall v, v ∈ vs -> blocks s0 v = blocks s v)) as (s0 & r0 & -> & Hr0 & H0).
  { destruct nd; cbn [Z.eqb].
    - exists s, (Ret tt). split_and!; try done. intros _. split_and!; try done. apply (ix_open _ _ _ _ _ _ _ _ _ _ (tv_index _ _ _ _ _ Hinv)). destruct d; [done|lia].
    - destruct (ia_add_ok s) as (s0 & r0 & E & Hr & H). exists s0, r0. split; [done|]. split; [done|]. intros Er. destruct (H Er) as (Eir & Hbl & Eo & Hbit).
      split_and!; try done; [|intros v _; by apply same_blocks_at]. destruct d as [|d]; [|done]. pose proof Hinv as [Hi Hrt Hnv Hsl Hst]. pose proof (ix_tree _ _ _ _ _ _ _ _ _ _ Hi) as Ht.
      destruct Ht as (_ & _ & _ & _ & _ & _ & ->). constructor; [|done|done|done|done]. destruct Hi as [? _ ? ? ? Ht ?]. constructor; try done; congruence. }
  destruct r0 as [[]|e|]; [|by exists s0, STATUS_ERROR; split; [done|]; split; [by right|done]|done]. destruct (H0 eq_refl) as (Hinv0 & Hopen & Hbit0 & Hbl0). clear Hr0 H0.
  destruct (get_free_inv s0 c ir d ks vs Ebs Ebits Hinv0) as (s1 & r1 & -> & Hr1 & H1). destruct r1 as [[nv|]|e|]; try done;
    [|exists s1, STATUS_ERROR; split; [done|]; split; [by right|done]..].
  destruct (H1 nv eq_refl) as (k & bm' & Hinv1 & [Er1 Eo1] & Hbl1 & Hslot & Hnin & Hfree & Hset & Hmono & _ & Ebm1). clear H1 Hr1.
  assert (forall s1', exists s' st, (let! s0 := undo (ntfs_ibm_clear s1' c nv) in Ret (s0, STATUS_ERROR)) = Ret (s', st) /\ (st = STATUS_OK \/ st = STATUS_ERROR) /\
    (st = STATUS_OK -> exists ir' v, tree_inv s' ir' (S d) ks (v :: vs) /\ keyless ir' v /\ grown s s' vs (v :: vs))) as Hclear.
  { intros s1'. destruct (undo_clear s1' c nv) as [s' ->]. cbn [obind]. exists s', STATUS_ERROR. split; [done|]. split; [by right|done]. }
  rewrite (ix_root _ _ _ _ _ _ _ _ _ _ (tv_index _ _ _ _ _ Hinv1)). destruct memory; [|apply Hclear].
  pose proof (tv_index _ _ _ _ _ Hinv1) as Hi1. destruct (ix_size _ _ _ _ _ _ _ _ _ _ Hi1) as [Esz _].
  destruct (ir_to_ib_ok nd ir pre es le tail bs nv Hn Esz ltac:(lia)) as (ib & pb & tb & -> & Hnb & Hbk & Hpb); [apply Hslot|exact Hfits|]. cbn [obind].
  destruct (ib_write_ok (laws := laws) bits Hbits ltac:(lia) s1 c ib nv k nd pb es le tb Ebits Hbk Hnb Hslot) as (s2 & r2 & -> & Hr2 & H2).
  destruct r2 as [[]|e|]; [|apply Hclear|done]. destruct (H2 eq_refl) as (Hro2 & Hbm2 & (blk & pk & Eblk & Hnk & Hbk' & Hpk) & Hoth). clear H2 Hr2.
  assert (forall v, v ∈ vs -> blocks s2 v = blocks s1 v) as Hsame.
  { intros v Hv. pose proof (tv_slots _ _ _ _ _ Hinv1) as F. rewrite Forall_forall in F. destruct (F v Hv) as (kv & Hkv & _). apply (Hoth v kv Hkv). intros ->. done. }
  assert (forall j, bit_of s2 j = bit_of s1 j) as Hbit2 by (intros j; unfold bit_of; by rewrite Hbm2).
  assert (tree_inv s2 ir d ks vs) as Hinv2 by (apply (tree_inv_frame s1); try done; intros v _; apply in_use_bits; intros j _; by rewrite Hbit2).
  pose proof (tv_index _ _ _ _ _ Hinv2) as [Eir2 Eo2 [Esz2 _] Eb2 Erule Ht2 Hk2].
  destruct (reparent_root_ok 1 s2 c ir d ks vs ir (zlen pre) nv k nd es le blk) as (s3 & st & E3 & Hst & Hok); try done.
  - left. split; [done|]. exists pre, tail. split; [done|]. split; [done|]. pose proof (first_offset_bounds bs ltac:(lia)). assert (0 <= bs / 512) by (apply Z.div_pos; lia). lia.
  - destruct Hro2 as [_ ->]. by rewrite Eo1.
  - apply (tree_at_ext (blocks s)); [|by apply (Hmove blk BLOCK_INDEX pk tb)]. intros v Hv. rewrite Hsame by done. rewrite (same_blocks_at s0 s1) by done. by apply Hbl0.
  - exists nd, blk, pk, es, le, tb. split_and!; try done. lia.
  - constructor; [done|apply (tv_nodup _ _ _ _ _ Hinv)].
  - by rewrite Hbit2.
  - apply (tv_slots _ _ _ _ _ Hinv2).
  - apply (tv_stored _ _ _ _ _ Hinv2).
  - exists s3, st. split; [done|]. split; [done|]. intros Es. destruct (Hok Es) as (Hbm3 & ir' & Hinv' & Hkl). exists ir', nv. split; [done|]. split; [done|].
    assert (forall j, bit_of s3 j = bit_of s1 j) as Hb3 by (intros j; unfold bit_of, same_bitmap in *; by rewrite Hbm3, Hbm2).
    constructor.
    + intros j Hj Hb. rewrite Hb3. apply Hmono; [done|by apply Hbit0].
    + intros v [->|Hv]%elem_of_cons; [right|by left]. exists k. split; [done|]. destruct (bit_of s k) eqn:Eb; [|done]. apply Hbit0 in Eb. congruence.
    + exists bm'. unfold same_bitmap in *. congruence.
    + cbn. lia.
Qed.

(** Room in the root: it gets larger, or it moves into a block. *)
Lemma make_space_ok memory s c ir d ks vs nd pre es le tail n :
  block_size c = bs -> vcn_size_bits c = bits -> tree_inv s ir d ks vs ->
  node_ok nd ir ROOT_INDEX pre es le tail -> zlen pre - ROOT_INDEX + zlen (concat es) + zlen le <= n < 2 ^ 31 - 16 ->
  exists s' st, ntfs_ir_make_space memory s c n = Ret (s', st) /\
    match st with
    | STATUS_OK => exists ir' pre' tail', tree_inv s' ir' d ks vs /\ node_ok nd ir' ROOT_INDEX pre' es le tail' /\ zlen pre' = zlen pre /\
        zlen tail' = n - (zlen pre - ROOT_INDEX + zlen (concat es) + zlen le) /\ same_blocks s s' /\ same_bitmap s s'
    | STATUS_KEEP_SEARCHING => exists ir' vs', tree_inv s' ir' (S d) ks vs' /\ grown s s' vs vs'
    | STATUS_ERROR => True
    | STATUS_RESIDENT_ATTRIBUTE_FILLED_MFT => False
    end.
Proof using laws fits Hbits Hbs Hdiv HM.
  intros Ebs Ebits Hinv Hn Hlen. unfold ntfs_ir_make_space. destruct (ir_truncate_ok s ir d ks vs nd pre es le tail n Hinv Hn Hlen) as (s1 & st & -> & Hst). cbn [obind].
  destruct st; [by exists s1, STATUS_OK|by exists s1, STATUS_ERROR| |done]. destruct Hst as (Hinv1 & Hbl1 & Hbm1).
  destruct (reparent_ok memory s1 c ir d ks vs Ebs Ebits Hinv1) as (s2 & st2 & -> & Hst2 & H2). cbn [obind]. destruct Hst2 as [->| ->]; [|by exists s2, STATUS_ERROR].
  exists s2, STATUS_KEEP_SEARCHING. split; [done|]. destruct (H2 eq_refl) as (ir' & v' & Hinv' & _ & [G1 G2 G3 G4]). exists ir', (v' :: vs). split; [done|].
  assert (forall k, bit_of s1 k = bit_of s k) as Hb by (intros k; unfold bit_of, same_bitmap in *; by rewrite Hbm1).
  constructor; [intros k Hk; rewrite <- Hb; by apply G1| |done|done]. intros v Hv. destruct (G2 v Hv) as [?|(k & Hk & E)]; [by left|right]. exists k. by rewrite <- Hb.
Qed.
End Insert.
