(* ===== verification/IndexRoom.v ===== *)
(** * Index trees: splitting a block (ntfs/index.c)

    [ntfs_ib_split] moves the median of a block into its parent, which it splits
    first when that is full, up to the root, which grows or moves into a block.
    The keys of the tree stay as they are. *)
From stdpp Require Import sorting.
From S2P Require Import Prelude Libc Fields Bitmap Index IndexAdd IndexNode IndexOps IndexSplit IndexTree IndexInv IndexRoot IndexGrow IndexInsert.

(** ** A block and its parent *)
Section Parent.
Context {f : COLLATE} {ord : key_order f} {St : Type} {attrs : index_attrs St}.
Context (s : St) (bs bits : Z).
Notation blocks := (IndexTree.blocks s bs bits).
Notation trail := (IndexTree.trail s bs bits).

(** The block at level [j] of the path in a context, and the node above it, with the
    entries before the one that leads to the block, and from it on. *)
Record parent_at (ir : bytes) (d : nat) (ks : list bytes) (vs : list Z) (c : ntfs_index_context) (i : Z) (j : nat)
    (pb : bytes) (ph pvcn : Z) (pvs : list Z) (ppre : bytes) (es1 es2 : list bytes) (ple ptail : bytes)
    (t1 : list (list bytes * list Z)) (k : list bytes) (w : list Z) (t2 : list (list bytes * list Z)) (nb : bytes) : Prop := {
  pa_vcn : rd (parent_vcn c) (i + Z.of_nat j - 1) = Ret pvcn;
  pa_pos : rd (parent_pos c) (i + Z.of_nat j - 1) = Ret (Z.of_nat (length es1));
  pa_child : rd (parent_vcn c) (i + Z.of_nat j) = Ret (ent_vcn (first_of es2 ple));
  pa_node : node_ok true pb ph ppre (es1 ++ es2) ple ptail;
  pa_kids : Forall2 (kid blocks (d - j)) ((es1 ++ es2) ++ [ple]) (t1 ++ (k, w) :: t2);
  pa_len : length t1 = length es1;
  pa_block : blocks (ent_vcn (first_of es2 ple)) = Ret nb;
  pa_tree : tree_at blocks (d - j) nb BLOCK_INDEX k w;
  pa_pvs : pvs = kids_vcns ((es1 ++ es2) ++ [ple]) (t1 ++ (k, w) :: t2);
  pa_nodup : NoDup (pvcn :: pvs);
  pa_sub : forall v, v ∈ pvs -> v ∈ vs;
  pa_place : pb = ir /\ ph = ROOT_INDEX /\ pvcn = VCN_INDEX_ROOT_PARENT /\ j = 1%nat \/ ph = BLOCK_INDEX /\ blocks pvcn = Ret pb /\ pvcn ∈ vs /\ (2 <= j)%nat;
  pa_replace : forall rdb' pb' pvs' news, (ph = ROOT_INDEX \/ rdb' pvcn = Ret pb') ->
    tree_at rdb' (S (d - j)) pb' ph (weave (map ent_key (es1 ++ es2)) (map fst (t1 ++ (k, w) :: t2))) pvs' -> pvs' ≡ₚ news ++ pvs ->
    (forall v, v ∈ vs -> v ∉ pvcn :: pvs -> rdb' v = blocks v) ->
    exists vs', tree_at rdb' d (if decide (ph = ROOT_INDEX) then pb' else ir) ROOT_INDEX ks vs' /\ vs' ≡ₚ news ++ vs;
}.

Lemma trail_start d b h vcn ks vs c i : trail d b h vcn ks vs c i -> rd (parent_vcn c) i = Ret vcn.
Proof using. destruct d; by intros [? _]. Qed.

Lemma parent_view ir d ks vs c i j :
  trail d ir ROOT_INDEX VCN_INDEX_ROOT_PARENT ks vs c i -> NoDup vs -> Forall (fun v => 0 <= v) vs -> (1 <= j <= d)%nat ->
  exists pb ph pvcn pvs ppre es1 es2 ple ptail t1 k w t2 nb, parent_at ir d ks vs c i j pb ph pvcn pvs ppre es1 es2 ple ptail t1 k w t2 nb.
Proof using.
  intros Htr Hnd Hpos Hj.
  assert (forall d' pb ph pvcn pks pvs i', trail (S d') pb ph pvcn pks pvs c i' -> exists ppre es1 es2 ple ptail t1 k w t2 nb,
    rd (parent_vcn c) i' = Ret pvcn /\ rd (parent_pos c) i' = Ret (Z.of_nat (length es1)) /\ rd (parent_vcn c) (i' + 1) = Ret (ent_vcn (first_of es2 ple)) /\
    node_ok true pb ph ppre (es1 ++ es2) ple ptail /\ Forall2 (kid blocks d') ((es1 ++ es2) ++ [ple]) (t1 ++ (k, w) :: t2) /\ length t1 = length es1 /\
    blocks (ent_vcn (first_of es2 ple)) = Ret nb /\ tree_at blocks d' nb BLOCK_INDEX k w /\ pvs = kids_vcns ((es1 ++ es2) ++ [ple]) (t1 ++ (k, w) :: t2) /\
    pks = weave (map ent_key (es1 ++ es2)) (map fst (t1 ++ (k, w) :: t2))) as Htop.
  { intros d' pb ph pvcn pks pvs i' (Ev & pre & es1 & es2 & le & tail & t1 & k & w & t2 & blk & Hn & HF & Hl & Ep & Ek & Evs & Eb & Htr').
    fold (first_of es2 le) in *. exists pre, es1, es2, le, tail, t1, k, w, t2, blk. split_and!; try done.
    - apply (trail_start _ _ _ _ _ _ _ _ Htr').
    - destruct (child_at blocks d' es1 es2 le _ HF) as (es3 & u1 & k' & w' & u2 & blk' & _ & Hlu & Eu & Eb' & Ht & _).
      apply app_inj_1 in Eu as [_ Eu]; [|by rewrite Hl, Hlu]. injection Eu as <- <- _. fold (first_of es2 le) in Eb'. rewrite Eb in Eb'. by injection Eb' as <-. }
  destruct (decide (j = 1%nat)) as [->|Hj1].
  - destruct d as [|d]; [lia|]. destruct (Htop _ _ _ _ _ _ _ Htr) as (ppre & es1 & es2 & ple & ptail & t1 & k & w & t2 & nb & H1 & H2 & H3 & H4 & H5 & H6 & H7 & H8 & Hv & Hk).
    exists ir, ROOT_INDEX, VCN_INDEX_ROOT_PARENT, vs, ppre, es1, es2, ple, ptail, t1, k, w, t2, nb. constructor; rewrite ?Z.add_simpl_r; cbn [Nat.sub]; rewrite ?Nat.sub_0_r; try done.
    + constructor; [|done]. intros Hin. rewrite Forall_forall in Hpos. specialize (Hpos _ Hin). by unfold VCN_INDEX_ROOT_PARENT in Hpos.
    + by left.
    + intros rdb' pb' pvs' news _ Ht Hp _. exists pvs'. rewrite decide_True by done. rewrite Hk. done.
  - destruct (trail_hole s bs bits d ir ROOT_INDEX VCN_INDEX_ROOT_PARENT ks vs c i (j - 1)%nat Htr ltac:(lia) Hnd)
      as (pb & pvcn & pks & pvs & Epv & Epb & Hpv & Htrp & Htp & Hndp & Hsub & Hrep).
    replace (d - (j - 1))%nat with (S (d - j)) in * by lia.
    destruct (Htop _ _ _ _ _ _ _ Htrp) as (ppre & es1 & es2 & ple & ptail & t1 & k & w & t2 & nb & H1 & H2 & H3 & H4 & H5 & H6 & H7 & H8 & Hv & Hk).
    replace (i + Z.of_nat (j - 1)) with (i + Z.of_nat j - 1) in * by lia. rewrite Z.sub_add in H3.
    exists pb, BLOCK_INDEX, pvcn, pvs, ppre, es1, es2, ple, ptail, t1, k, w, t2, nb. constructor; try done.
    + intros v Hin. apply Hsub, elem_of_cons. by right.
    + right. split; [done|]. split; [done|]. split; [apply Hsub, elem_of_cons; by left|lia].
    + intros rdb' pb' pvs' news [E|Eb] Ht Hp Hsame; [done|]. rewrite decide_False by done. apply (Hrep rdb' pb' pvs' news); [done| |done|done]. by rewrite Hk.
Qed.

(** The vcns below the parent, around the block. *)
Lemma parent_vcns ir d ks vs c i j pb ph pvcn pvs ppre es1 es2 ple ptail t1 k w t2 nb :
  parent_at ir d ks vs c i j pb ph pvcn pvs ppre es1 es2 ple ptail t1 k w t2 nb ->
  pvs = kids_vcns es1 t1 ++ (ent_vcn (first_of es2 ple) :: w) ++ kids_vcns (List.tail (es2 ++ [ple])) t2.
Proof using.
  intros H. rewrite (pa_pvs _ _ _ _ _ _ _ _ _ _ _ _ _ _ _ _ _ _ _ _ _ H). assert (exists es3, es2 ++ [ple] = first_of es2 ple :: es3) as [es3 Ee] by (destruct es2; eauto).
  rewrite <- (assoc_L (++)), Ee. rewrite kids_vcns_app by (symmetry; apply (pa_len _ _ _ _ _ _ _ _ _ _ _ _ _ _ _ _ _ _ _ _ _ H)). by rewrite kids_cons.
Qed.

(** The tree with the two halves of the block, and its median between them. *)
Lemma split_tree ir d ks vs c i j pb ph pvcn pvs ppre es1 es2 ple ptail t1 k w t2 nb
    nd pre f1 m f2 le tail pb' ppre' m' es2' ple' ptail' nv hd hpre htail tl tpre ttail rdb' :
  parent_at ir d ks vs c i j pb ph pvcn pvs ppre es1 es2 ple ptail t1 k w t2 nb -> node_ok nd nb BLOCK_INDEX pre (f1 ++ m :: f2) le tail ->
  node_ok true pb' ph ppre' (es1 ++ m' :: es2') ple' ptail' -> ent_key m' = ent_key m -> ent_vcn m' = ent_vcn (first_of es2 ple) ->
  map ent_key es2' = map ent_key es2 -> map ent_vcn (es2' ++ [ple']) = nv :: map ent_vcn (List.tail (es2 ++ [ple])) -> 0 <= nv ->
  node_ok nd hd BLOCK_INDEX hpre f1 (cut_last nd le m) htail -> node_ok nd tl BLOCK_INDEX tpre f2 le ttail ->
  rdb' (ent_vcn (first_of es2 ple)) = Ret hd -> rdb' nv = Ret tl -> (ph = ROOT_INDEX \/ rdb' pvcn = Ret pb') ->
  (forall v, v ∈ vs -> v <> ent_vcn (first_of es2 ple) -> v <> pvcn -> rdb' v = blocks v) ->
  exists vs', tree_at rdb' d (if decide (ph = ROOT_INDEX) then pb' else ir) ROOT_INDEX ks vs' /\ vs' ≡ₚ nv :: vs.
Proof using.
  intros Hpa Hn Hn' Ek Ev Eks Evs Hnv Hh Ht Eh Et Hpb Hsame. pose proof Hpa as [_ _ _ Hpn HF Hl Eb Htree _ Hnd Hsub _ Hrep]. pose proof (parent_vcns _ _ _ _ _ _ _ _ _ _ _ _ _ _ _ _ _ _ _ _ _ Hpa) as Epv.
  set (q := ent_vcn (first_of es2 ple)) in *. apply NoDup_cons in Hnd as [Hnin Hnd]. rewrite Epv in Hnd.
  pose proof Hnd as Hnd'. apply NoDup_app in Hnd' as (_ & Hd1 & Hnd2). apply NoDup_app in Hnd2 as (Hndw & Hd2 & _). apply NoDup_cons in Hndw as [Hqw _].
  assert (forall v, v ∈ pvs -> v <> q -> rdb' v = blocks v) as Hpv.
  { intros v Hv Hne. apply Hsame; [by apply Hsub|done|]. intros ->. done. }
  destruct (split_kid blocks (d - j) nb k w Htree) as (nd0 & pre0 & es0 & le0 & tail0 & Hn0 & _ & Hsplit).
  destruct (node_unique _ _ _ _ _ _ _ _ _ _ _ _ Hn Hn0) as (-> & -> & -> & -> & ->).
  destruct (Hsplit f1 m f2 eq_refl) as (k1 & k2 & w1 & w2 & Ekk & Eww & Hkids).
  assert (forall v, v ∈ w -> rdb' v = blocks v) as Hw.
  { intros v Hv. apply Hpv; [|by intros ->]. rewrite Epv. apply elem_of_app. right. apply elem_of_app. left. apply elem_of_cons. by right. }
  destruct (Hkids rdb' hd hpre htail tl tpre ttail Hw Hh Ht) as [Hth Htt].
  assert (tree_at rdb' (S (d - j)) pb' ph (weave (map ent_key (es1 ++ es2)) (map fst (t1 ++ (k, w) :: t2)))
    (kids_vcns es1 t1 ++ (q :: w1) ++ (nv :: w2) ++ kids_vcns (List.tail (es2 ++ [ple])) t2)) as Htp.
  { apply (split_child blocks rdb' (d - j) pb ph pb' ppre ppre' es1 es2 ple ptail ptail' t1 k w t2 m m' es2' ple' hd tl k1 k2 w1 w2 nv); try done.
    intros v Hv. apply Hpv.
    - rewrite Epv. apply elem_of_app in Hv as [Hv|Hv]; apply elem_of_app; [by left|right]. apply elem_of_app. by right.
    - intros ->. apply elem_of_app in Hv as [Hv|Hv]; [refine (Hd1 q Hv _); apply elem_of_cons; by left|refine (Hd2 q _ Hv); apply elem_of_cons; by left]. }
  apply (Hrep rdb' pb' _ [nv] Hpb Htp).
  - rewrite Epv, Eww. rewrite (assoc_L (++)). cbn [app]. rewrite <- Permutation_middle. rewrite <- (assoc_L (++)). cbn [app]. by rewrite <- (assoc_L (++) w1).
  - intros v Hv Hnv'. apply Hsame; [done|..]; intros ->; apply Hnv'; apply elem_of_cons; [right|by left]. rewrite Epv. apply elem_of_app. right. apply elem_of_app. left. apply elem_of_cons. by left.
Qed.
End Parent.

(** ** The median goes up *)
Section Split.
Context {f : COLLATE} {ord : key_order f} {St : Type} {attrs : index_attrs St} {space : index_space St} {bs : Z} {laws : index_laws attrs space bs} {fits : resident_fits space bs}.
Context (bits : Z) (get_collate : Z -> option COLLATE) (cluster_size cluster_size_bits M : Z) (memory : bool) (past : bytes).
Notation blocks s := (IndexTree.blocks s bs bits).
Notation trail s := (IndexTree.trail s bs bits).
Notation tree_inv := (IndexInsert.tree_inv (bs := bs) bits get_collate cluster_size cluster_size_bits M).
Notation stored := (IndexInsert.stored (bs := bs) bits M).
Notation sized := (IndexInsert.sized M).
Notation root_ok := (IndexInsert.root_ok (bs := bs) M).
Notation grown := (IndexInsert.grown (bs := bs) bits).
Notation parent_at s := (IndexRoom.parent_at s bs bits).

(** A context with the parents of another one. *)
Record same_path (c c' : ntfs_index_context) : Prop := {
  sp_vcn : parent_vcn c' = parent_vcn c;
  sp_pos : parent_pos c' = parent_pos c;
  sp_size : block_size c' = block_size c;
  sp_bits : vcn_size_bits c' = vcn_size_bits c;
  sp_entry : entry c' = entry c;
  sp_dirty : ib_dirty c' = ib_dirty c;
}.

Lemma same_path_trans c c' c'' : same_path c c' -> same_path c' c'' -> same_path c c''.
Proof using. intros [] []. constructor; congruence. Qed.

Definition root_head (ir : bytes) : Prop := rd_le 4 ir 8 = Ret bs /\ exists rule, rd_le 4 ir 4 = Ret rule /\ get_collate rule = Some f.

(** What is there when the median [m] was stored in the parent, and [nv] after it. *)
Record median_in (s s' : St) (ir ir' : bytes) (pb' : bytes) (ph pvcn : Z) (ppre' : bytes) (es1 es2 : list bytes) (ple : bytes) (es2' : list bytes) (ple' ptail' m m' : bytes) (nv : Z) : Prop := {
  mi_node : node_ok true pb' ph ppre' (es1 ++ m' :: es2') ple' ptail';
  mi_key : ent_key m' = ent_key m;
  mi_vcn : ent_vcn m' = ent_vcn (first_of es2 ple);
  mi_keys : map ent_key es2' = map ent_key es2;
  mi_vcns : map ent_vcn (es2' ++ [ple']) = nv :: map ent_vcn (List.tail (es2 ++ [ple]));
  mi_root : ir' = if decide (ph = ROOT_INDEX) then pb' else ir;
  mi_get : ir_get s' = Ret ir';
  mi_open : ia_open s' = ia_open s;
  mi_head : root_head ir';
  mi_ok : root_ok ir';
  mi_bitmap : same_bitmap s s';
  mi_block : ph = ROOT_INDEX \/ blocks s' pvcn = Ret pb' /\ stored s' pvcn;
  mi_other : forall v kv, slot bs bits v kv -> v <> pvcn -> blocks s' v = blocks s v;
}.

Lemma sized_insert es1 es2 es2' le le' m : sized true (es1 ++ es2) le -> zlen m <= M -> map zlen es2' = map zlen es2 -> zlen le' = zlen le -> sized true (es1 ++ m :: es2') le'.
Proof using.
  intros [F Hl] Hm Hz Hz'. split; [|lia]. apply Forall_app in F as [F1 F2]. apply Forall_app. split; [done|]. constructor; [lia|].
  clear -Hz F2. revert es2 Hz F2. induction es2' as [|x l IH]; intros [|y es2] E F; try done. cbn in E. injection E as Ex E. apply Forall_cons in F as [Hy F].
  constructor; [by rewrite Ex|by apply (IH es2)].
Qed.

(** The fields in front of the header stay. *)
Lemma node_front nd b h pre es le tail nd' b' v es' le' tail' :
  node_ok nd b h pre es le tail -> node_ok nd' b' h (with_len pre h v) es' le' tail' -> forall k, 0 <= k < h -> rd b' k = rd b k.
Proof using.
  intros H H' k Hk. destruct (no_head _ _ _ _ _ _ _ H) as [Hh0 Hh]. rewrite (no_eq _ _ _ _ _ _ _ H), (no_eq _ _ _ _ _ _ _ H'). rewrite !rd_app_l by (rewrite ?zlen_with_len by lia; lia).
  apply rd_with_len; lia.
Qed.

Lemma ent_junk node last m junk : ent_ok node last m ->
  ie_length (m ++ junk) 0 = Ret (zlen m) /\ exists g, ie_flags (m ++ junk) 0 = Ret g /\ (Z.land g INDEX_ENTRY_NODE =? 0) = negb node.
Proof using.
  intros H. pose proof (ent_size16 _ _ _ H). destruct (en_flags _ _ _ H) as (g & Eg & Hg & _). pose proof (en_length _ _ _ H) as El.
  unfold ie_length, ie_flags in *. rewrite !rd_le_app_l by lia. split; [done|]. by exists g.
Qed.

Context (Hbits : 0 <= bits) (Hbs : 512 <= bs < 2 ^ 15) (Hdiv : bs mod 2 ^ bits = 0) (HM : 24 + first_offset bs + 32 + M <= bs).
Context (Hpast : zlen past = 8) (Hpastb : Forall byte_ok past).

(** The parent is the root. *)
Lemma root_median_ok s cc ir d ks vs c i pvcn pvs ppre es1 es2 ple ptail t1 k w t2 nb node m junk nv :
  tree_inv s ir d ks vs -> (0 < d)%nat -> parent_at s ir d ks vs c i 1 ir ROOT_INDEX pvcn pvs ppre es1 es2 ple ptail t1 k w t2 nb ->
  same_path c cc -> block_size cc = bs -> vcn_size_bits cc = bits -> pindex cc = i + 1 - 1 ->
  ent_ok node false m -> zlen m + (if node then 0 else 8) <= M -> 0 <= nv < 2 ^ 63 -> 0 <= ent_vcn (first_of es2 ple) < 2 ^ 63 ->
  exists s' st, ntfs_ir_insert_median memory past s cc (m ++ junk) nv = Ret (s', st) /\
    match st with
    | STATUS_OK => exists ir' pb' ppre' es2' ple' ptail' m', median_in s s' ir ir' pb' ROOT_INDEX pvcn ppre' es1 es2 ple es2' ple' ptail' m m' nv
    | STATUS_KEEP_SEARCHING => exists ir' d' vs', tree_inv s' ir' d' ks vs' /\ grown s s' vs vs'
    | STATUS_ERROR => True
    | STATUS_RESIDENT_ATTRIBUTE_FILLED_MFT => False
    end.
Proof using laws fits Hbits Hbs Hdiv HM Hpast Hpastb.
  intros Hinv Hd Hpa Hsp Ebs Ebits Epi Hm HmM Hnv Hold. pose proof (pa_node _ _ _ _ _ _ _ _ _ _ _ _ _ _ _ _ _ _ _ _ _ _ _ _ Hpa) as Hn.
  destruct (root_sized M ir _ _ _ _ _ (tv_root _ _ _ _ _ _ _ _ _ _ Hinv) Hn) as [Hsz Hfits]. unfold ntfs_ir_insert_median.
  rewrite (ix_root _ _ _ _ _ _ _ _ _ _ (tv_index _ _ _ _ _ _ _ _ _ _ Hinv)), (no_len _ _ _ _ _ _ _ Hn). cbn [obind].
  destruct (ent_junk node false m junk Hm) as (-> & g & -> & Hg). cbn [obind]. rewrite Hg.
  pose proof (ent_size16 _ _ _ Hm). pose proof (node_size _ _ _ _ _ _ _ Hn) as Hz. destruct (no_head _ _ _ _ _ _ _ Hn) as [_ Hh]. pose proof (zlen_nonneg ptail).
  pose proof (first_offset_bounds bs ltac:(lia)). assert (0 <= bs / 512) by (apply Z.div_pos; lia).
  set (u := zlen ppre - ROOT_INDEX + zlen (concat (es1 ++ es2)) + zlen ple) in *. set (x := if negb node then 8 else 0).
  assert (x = if node then 0 else 8) as Hx by (unfold x; by destruct node). unfold ROOT_INDEX in Hh.
  destruct (make_space_ok bits get_collate cluster_size cluster_size_bits M Hbits Hbs Hdiv HM memory s cc ir d ks vs true ppre (es1 ++ es2) ple ptail (u + zlen m + x)) as (s1 & st & E & Hst);
    try done; [unfold u, ROOT_INDEX in *; destruct node; lia|]. rewrite E. cbn [obind].
  destruct st; [|by exists s1, STATUS_ERROR|done|by (exists s1, STATUS_KEEP_SEARCHING; split; [done|]; destruct Hst as (ir' & vs' & ? & ?); exists ir', (S d), vs')].
  destruct Hst as (ir1 & pre1 & tail1 & Hinv1 & Hn1 & Hp1 & Ht1 & Hbl1 & Hbm1). pose proof (tv_index _ _ _ _ _ _ _ _ _ _ Hinv1) as Hi1.
  rewrite (ix_root _ _ _ _ _ _ _ _ _ _ Hi1). destruct memory; [|by exists s1, STATUS_ERROR].
  unfold ntfs_icx_parent_pos. rewrite (sp_pos _ _ Hsp), Epi. change 1 with (Z.of_nat 1) at 1. rewrite (pa_pos _ _ _ _ _ _ _ _ _ _ _ _ _ _ _ _ _ _ _ _ _ _ _ _ Hpa). cbn [obind].
  destruct (ih_insert_ok past ir1 ROOT_INDEX pre1 es1 es2 ple tail1 node m junk nv Hn1 Hm) as (ir2 & v & m' & es2' & ple' & tail2 & -> & Hn2 & Hz2 & K1 & K2 & K3 & K4 & K5 & K6 & K7);
    try done; [unfold u, ROOT_INDEX in *; destruct node; lia|destruct node; lia|]. cbn [obind].
  destruct (l_ir_put s1 ir1 ir2 (ix_root _ _ _ _ _ _ _ _ _ _ Hi1) Hz2) as (Eir2 & Eo2 & Hbl2 & Hbm2).
  destruct (root_sized M ir1 _ _ _ _ _ (tv_root _ _ _ _ _ _ _ _ _ _ Hinv1) Hn1) as [Hsz1 Hfits1].
  assert (forall a, 0 <= a -> a + 4 <= 16 -> rd_le 4 ir2 a = rd_le 4 ir1 a) as Hle by (intros a Ha Ha'; apply rd_le_eq; intros b Hb; apply (node_front _ _ _ _ _ _ _ _ _ _ _ _ _ Hn1 Hn2); unfold ROOT_INDEX; lia).
  exists (ir_put s1 ir2), STATUS_OK. split; [done|]. exists ir2, ir2, (with_len pre1 ROOT_INDEX v), es2', ple', tail2, m'. constructor; try done.
  - rewrite Eo2. rewrite (ix_open _ _ _ _ _ _ _ _ _ _ Hi1) by done. by rewrite (ix_open _ _ _ _ _ _ _ _ _ _ (tv_index _ _ _ _ _ _ _ _ _ _ Hinv)).
  - unfold root_head. rewrite !Hle by lia. split; [apply (ix_size _ _ _ _ _ _ _ _ _ _ Hi1)|apply (ix_rule _ _ _ _ _ _ _ _ _ _ Hi1)].
  - exists true, (with_len pre1 ROOT_INDEX v), (es1 ++ m' :: es2'), ple', tail2. split; [done|]. split; [|lia]. apply (sized_insert es1 es2 es2' ple ple'); try done. lia.
  - unfold same_bitmap in *. congruence.
  - by left.
  - intros q kq _ _. rewrite (same_blocks_at bits s1 _ q Hbl2). by apply (same_blocks_at bits).
Qed.

Lemma ib_read_is s c v : block_size c = bs -> vcn_size_bits c = bits -> ntfs_ib_read s c v = blocks s v.
Proof using. intros E1 E2. unfold IndexTree.blocks, ntfs_ib_read, ntfs_ib_vcn_to_pos. by rewrite E1, E2. Qed.

(** What the splitting of a block gives. *)
Definition split_result (s s' : St) (cc c' : ntfs_index_context) (d : nat) (ks : list bytes) (vs : list Z) (st : status) : Prop :=
  same_path cc c' /\ 0 <= pindex c' < pindex cc /\
  match st with
  | STATUS_OK => exists ir' vs', tree_inv s' ir' d ks vs' /\ grown s s' vs vs'
  | STATUS_KEEP_SEARCHING => exists ir' d' vs', tree_inv s' ir' d' ks vs' /\ grown s s' vs vs'
  | STATUS_ERROR => True
  | STATUS_RESIDENT_ATTRIBUTE_FILLED_MFT => False
  end.

(** The parent is a block, and there is room; or it is split. *)
Lemma ib_insert_ok (split : split_fun) s cc ir d ks vs c i j pb pvcn pvs ppre es1 es2 ple ptail t1 k w t2 nb node m junk nv :
  tree_inv s ir d ks vs -> parent_at s ir d ks vs c i j pb BLOCK_INDEX pvcn pvs ppre es1 es2 ple ptail t1 k w t2 nb -> (0 < d)%nat ->
  same_path c cc -> block_size cc = bs -> vcn_size_bits cc = bits -> 0 <= i -> (2 <= j)%nat -> pindex cc = i + Z.of_nat j - 1 ->
  ent_ok node false m -> zlen m + (if node then 0 else 8) <= M -> 0 <= nv < 2 ^ 63 -> 0 <= ent_vcn (first_of es2 ple) < 2 ^ 63 ->
  (es1 ++ es2 <> [] -> exists s' c' b' st, split s cc pb = Ret (s', c', b', st) /\ split_result s s' cc c' d ks vs st) ->
  exists s' c' st, ntfs_ib_insert memory past split s cc (m ++ junk) nv = Ret (s', c', st) /\ same_path cc c' /\ 0 <= pindex c' <= pindex cc /\
    match st with
    | STATUS_OK => c' = cc /\ exists ir' pb' ppre' es2' ple' ptail' m', median_in s s' ir ir' pb' BLOCK_INDEX pvcn ppre' es1 es2 ple es2' ple' ptail' m m' nv
    | STATUS_KEEP_SEARCHING => exists ir' d' vs', tree_inv s' ir' d' ks vs' /\ grown s s' vs vs'
    | STATUS_ERROR => True
    | STATUS_RESIDENT_ATTRIBUTE_FILLED_MFT => False
    end.
Proof using laws fits Hbits Hbs Hdiv HM Hpast Hpastb.
  intros Hinv Hpa Hd Hsp Ebs Ebits Hi Hj Epi Hm HmM Hnv Hold Hsplit. pose proof (pa_node _ _ _ _ _ _ _ _ _ _ _ _ _ _ _ _ _ _ _ _ _ _ _ _ Hpa) as Hn.
  assert (forall s' , exists s0 c' st, Ret (s', cc, STATUS_ERROR) = Ret (s0, c', st) /\ same_path cc c' /\ 0 <= pindex c' <= pindex cc /\
    match st with
    | STATUS_OK => c' = cc /\ exists ir' pb' ppre' es2' ple' ptail' m', median_in s s0 ir ir' pb' BLOCK_INDEX pvcn ppre' es1 es2 ple es2' ple' ptail' m m' nv
    | STATUS_KEEP_SEARCHING => exists ir' d' vs', tree_inv s0 ir' d' ks vs' /\ grown s s0 vs vs'
    | STATUS_ERROR => True
    | STATUS_RESIDENT_ATTRIBUTE_FILLED_MFT => False
    end) as Herr by (intros s'; exists s', cc, STATUS_ERROR; split; [done|]; split; [done|]; split; [lia|done]).
  destruct (pa_place _ _ _ _ _ _ _ _ _ _ _ _ _ _ _ _ _ _ _ _ _ _ _ _ Hpa) as [(_ & E & _)|(_ & Epb & Hin & _)]; [done|].
  pose proof (tv_stored _ _ _ _ _ _ _ _ _ _ Hinv) as Fst. rewrite Forall_forall in Fst. destruct (stored_node bits M s pvcn pb _ _ _ _ _ (Fst pvcn Hin) Epb Hn) as (Hbk & Hsz & Hroom).
  pose proof (tv_slots _ _ _ _ _ _ _ _ _ _ Hinv) as Fsl. rewrite Forall_forall in Fsl. destruct (Fsl pvcn Hin) as (kp & Hkp & _).
  unfold ntfs_ib_insert. destruct memory; cbn [negb]; [|apply Herr]. unfold ntfs_icx_parent_vcn. rewrite Epi in Herr |- *. rewrite (sp_vcn _ _ Hsp), (pa_vcn _ _ _ _ _ _ _ _ _ _ _ _ _ _ _ _ _ _ _ _ _ _ _ _ Hpa). cbn [obind].
  rewrite (ib_read_is s cc pvcn Ebs Ebits), Epb. rewrite (no_len _ _ _ _ _ _ _ Hn), (no_alloc _ _ _ _ _ _ _ Hn). cbn [obind].
  destruct (ent_junk node false m junk Hm) as (-> & _). cbn [obind]. pose proof (bk_size _ _ _ _ Hbk) as Hzb. pose proof (node_size _ _ _ _ _ _ _ Hn) as Hz.
  pose proof (ent_size16 _ _ _ Hm). pose proof (zlen_nonneg ptail). pose proof (zlen_nonneg (concat (es1 ++ es2))). destruct Hsz as [Hes Hple]. pose proof (first_offset_bounds bs ltac:(lia)). assert (0 <= bs / 512) by (apply Z.div_pos; lia).
  destruct (no_head _ _ _ _ _ _ _ Hn) as [_ Hh]. pose proof (ent_size16 _ _ _ (no_last _ _ _ _ _ _ _ Hn)). unfold BLOCK_INDEX in Hh.
  rewrite wrapu_small by (unfold in_u, BLOCK_INDEX; destruct node; lia). destruct (Z.ltb_spec (zlen pb - BLOCK_INDEX) (zlen ppre - BLOCK_INDEX + zlen (concat (es1 ++ es2)) + zlen ple + zlen m + 8)) as [Hfull|Hfit].
  - destruct Hsplit as (s' & c' & b' & st & -> & Hsp' & Hpi & Hst).
    { intros E. rewrite E in *. cbn [concat] in *. change (zlen (@nil Z)) with 0 in *. unfold BLOCK_INDEX in *. destruct node; lia. }
    cbn [obind]. exists s', c', (match st with STATUS_OK => STATUS_KEEP_SEARCHING | e => e end). split; [done|]. split; [done|]. split; [lia|].
    destruct st; try done. destruct Hst as (ir' & vs' & ? & ?). by exists ir', d, vs'.
  - unfold ntfs_icx_parent_pos. rewrite (sp_pos _ _ Hsp), ?Epi, (pa_pos _ _ _ _ _ _ _ _ _ _ _ _ _ _ _ _ _ _ _ _ _ _ _ _ Hpa). cbn [obind].
    destruct (ih_insert_ok past pb BLOCK_INDEX ppre es1 es2 ple ptail node m junk nv Hn Hm) as (pb1 & v & m' & es2' & ple' & ptail' & -> & Hn1 & Hz1 & K1 & K2 & K3 & K4 & K5 & K6 & K7);
      try done; [unfold BLOCK_INDEX in *; destruct node; lia|destruct node; lia|]. cbn [obind].
    assert (zlen (with_len ppre BLOCK_INDEX v) = zlen ppre) as Hzp by (apply zlen_with_len; unfold BLOCK_INDEX; lia).
    assert (block_ok bs pvcn pb1 (with_len ppre BLOCK_INDEX v)) as Hbk1.
    { apply (block_ok_eq bs pvcn pb ppre); try done. intros a Ha. by apply (node_front _ _ _ _ _ _ _ _ _ _ _ _ _ Hn Hn1). }
    destruct (ib_write_ok (laws := laws) bits Hbits ltac:(lia) s cc pb1 pvcn kp _ _ _ _ _ Ebits Hbk1 Hn1 Hkp) as (s2 & r2 & -> & Hr2 & W2).
    destruct r2 as [[]|e|]; [|apply Herr|done]. destruct (W2 eq_refl) as ([Er Eo] & Hbm & (b2 & pre2 & Eb2 & Hn2 & Hbk2 & Hp2) & Hoth).
    exists s2, cc, STATUS_OK. split; [done|]. split; [done|]. split; [lia|]. split; [done|]. pose proof (tv_index _ _ _ _ _ _ _ _ _ _ Hinv) as Hix.
    exists ir, b2, pre2, es2', ple', ptail', m'. constructor; try done.
    + rewrite Er. apply (ix_root _ _ _ _ _ _ _ _ _ _ Hix).
    + split; [apply (ix_size _ _ _ _ _ _ _ _ _ _ Hix)|apply (ix_rule _ _ _ _ _ _ _ _ _ _ Hix)].
    + apply (tv_root _ _ _ _ _ _ _ _ _ _ Hinv).
    + right. split; [done|]. exists true, b2, pre2, (es1 ++ m' :: es2'), ple', ptail'. split; [done|]. split; [done|]. split; [done|]. split; [|lia].
      apply (sized_insert es1 es2 es2' ple ple'); try done. destruct node; lia.
Qed.

(** ** The block is cut *)
Lemma same_bits s s' k : same_bitmap s s' -> bit_of s' k = bit_of s k.
Proof using. intros H. unfold bit_of, same_bitmap in *. by rewrite H. Qed.

Lemma slot_pos s v : IndexInsert.in_use (bs := bs) bits s v -> 0 <= v < 2 ^ 63.
Proof using. by intros (k & (_ & H & _) & _). Qed.

Lemma cut_ok s2 s3 cc ir ir' d ks vs c i j pb ph pvcn pvs ppre es1 es2 ple ptail t1 k w t2 nb
    nd pre f1 m f2 le tail nv kn tl tpre ttail pb' ppre' es2' ple' ptail' m' :
  tree_inv s2 ir d ks vs -> parent_at s2 ir d ks vs c i j pb ph pvcn pvs ppre es1 es2 ple ptail t1 k w t2 nb ->
  node_ok nd nb BLOCK_INDEX pre (f1 ++ m :: f2) le tail -> block_size cc = bs -> vcn_size_bits cc = bits ->
  slot bs bits nv kn -> bit_of s2 kn = true -> nv ∉ vs -> blocks s2 nv = Ret tl -> node_ok nd tl BLOCK_INDEX tpre f2 le ttail -> stored s2 nv ->
  median_in s2 s3 ir ir' pb' ph pvcn ppre' es1 es2 ple es2' ple' ptail' m m' nv ->
  exists s4 ib' st, ntfs_ib_cut_tail s3 cc nb (zlen (pre ++ concat f1)) = Ret (s4, ib', st) /\ (st = STATUS_OK \/ st = STATUS_ERROR) /\
    (st = STATUS_OK -> exists vs', tree_inv s4 ir' d ks vs' /\ vs' ≡ₚ nv :: vs /\ same_bitmap s3 s4).
Proof using laws Hbits Hbs.
  intros Hinv Hpa Hn Ebs Ebits Hslot Hbit Hnin Etl Htl Hstl Hmi. set (q := ent_vcn (first_of es2 ple)) in *.
  pose proof (tv_stored _ _ _ _ _ _ _ _ _ _ Hinv) as Fst. pose proof (tv_slots _ _ _ _ _ _ _ _ _ _ Hinv) as Fsl. rewrite Forall_forall in Fst, Fsl.
  pose proof (parent_vcns _ _ _ _ _ _ _ _ _ _ _ _ _ _ _ _ _ _ _ _ _ _ _ _ Hpa) as Epv. pose proof (pa_nodup _ _ _ _ _ _ _ _ _ _ _ _ _ _ _ _ _ _ _ _ _ _ _ _ Hpa) as Hnd.
  assert (q ∈ pvs) as Hqp by (rewrite Epv; apply elem_of_app; right; apply elem_of_app; left; apply elem_of_cons; by left).
  assert (q <> pvcn) as Hqne by (intros E; apply NoDup_cons in Hnd as [Hnd _]; apply Hnd; by rewrite <- E).
  pose proof (pa_sub _ _ _ _ _ _ _ _ _ _ _ _ _ _ _ _ _ _ _ _ _ _ _ _ Hpa q Hqp) as Hq. assert (q <> nv) as Hqnv by (by intros ->).
  assert (nv <> pvcn) as Hnvp.
  { intros E. destruct (pa_place _ _ _ _ _ _ _ _ _ _ _ _ _ _ _ _ _ _ _ _ _ _ _ _ Hpa) as [(_ & _ & E' & _)|(_ & _ & Hin & _)]; [|by rewrite <- E in Hin].
    destruct Hslot as (_ & Hs & _). rewrite E, E' in Hs. unfold VCN_INDEX_ROOT_PARENT in Hs. lia. }
  destruct (Fsl q Hq) as (kq & Hkq & _). destruct (stored_node bits M s2 q nb _ _ _ _ _ (Fst q Hq) (pa_block _ _ _ _ _ _ _ _ _ _ _ _ _ _ _ _ _ _ _ _ _ _ _ _ Hpa) Hn) as (Hbk & [Hes Hle] & Hroom).
  assert (nd = true -> 0 <= ent_vcn m < 2 ^ 63) as Hvm.
  { intros E. destruct (split_kid _ _ nb k w (pa_tree _ _ _ _ _ _ _ _ _ _ _ _ _ _ _ _ _ _ _ _ _ _ _ _ Hpa)) as (nd0 & ? & es0 & ? & ? & Hn0 & Hv0 & _).
    destruct (node_unique _ _ _ _ _ _ _ _ _ _ _ _ Hn Hn0) as (-> & _ & -> & _). specialize (Hv0 E). apply Forall_app in Hv0 as [_ Hv0]. apply Forall_cons in Hv0 as [Hv0 _].
    split; [done|apply ent_vcn_lt]. }
  unfold ntfs_ib_cut_tail. destruct (ib_head_ok nd nb pre f1 m f2 le tail Hn Hvm) as (hd & v & th & -> & Hhd & Hzh). cbn [obind].
  destruct (no_head _ _ _ _ _ _ _ Hn) as [_ Hh]. assert (zlen (with_len pre BLOCK_INDEX v) = zlen pre) as Hzp by (apply zlen_with_len; unfold BLOCK_INDEX in *; lia).
  assert (block_ok bs q hd (with_len pre BLOCK_INDEX v)) as Hbk1.
  { apply (block_ok_eq bs q nb pre); try done. intros a Ha. by apply (node_front _ _ _ _ _ _ _ _ _ _ _ _ _ Hn Hhd). }
  destruct (ib_write_ok (laws := laws) bits Hbits ltac:(lia) s3 cc hd q kq _ _ _ _ _ Ebits Hbk1 Hhd Hkq) as (s4 & r & -> & Hr & Hw).
  destruct r as [[]|e|]; [|by exists s4, hd, STATUS_ERROR; split; [done|]; split; [by right|done]|done].
  destruct (Hw eq_refl) as ([Er Eo] & Hbm & (hd4 & pre4 & Eh4 & Hn4 & Hbk4 & Hp4) & Hoth). exists s4, hd, STATUS_OK. split; [done|]. split; [by left|]. intros _.
  assert (forall v kv, slot bs bits v kv -> v <> q -> v <> pvcn -> blocks s4 v = blocks s2 v) as Hsame.
  { intros a ka Ha Hne Hne'. rewrite (Hoth a ka Ha Hne). by apply (mi_other _ _ _ _ _ _ _ _ _ _ _ _ _ _ _ _ _ Hmi a ka). }
  assert (ph = ROOT_INDEX \/ blocks s4 pvcn = Ret pb' /\ stored s4 pvcn) as Hpb.
  { destruct (mi_block _ _ _ _ _ _ _ _ _ _ _ _ _ _ _ _ _ Hmi) as [?|[E Hst]]; [by left|]. destruct (pa_place _ _ _ _ _ _ _ _ _ _ _ _ _ _ _ _ _ _ _ _ _ _ _ _ Hpa) as [(_ & ? & _)|(_ & _ & Hin & _)]; [by left|right].
    destruct (Fsl pvcn Hin) as (kp & Hkp & _). assert (blocks s4 pvcn = blocks s3 pvcn) as Ep by (by apply (Hoth pvcn kp)). split; [congruence|by apply (stored_eq bits M s3)]. }
  destruct Hmi as [M1 M2 M3 M4 M5 M6 M7 M8 M9 M10 M11 _ _].
  destruct (split_tree s2 bs bits ir d ks vs c i j pb ph pvcn pvs ppre es1 es2 ple ptail t1 k w t2 nb nd pre f1 m f2 le tail pb' ppre' m' es2' ple' ptail' nv hd4 pre4 th tl tpre ttail (blocks s4))
    as (vs' & Ht & Hp); try done.
  { apply Hslot. }
  { rewrite <- Etl. by apply (Hsame nv kn). }
  { destruct Hpb as [?|[? _]]; [by left|by right]. }
  { intros a Ha Hne Hne'. destruct (Fsl a Ha) as (ka & Hka & _). by apply (Hsame a ka). }
  exists vs'. split; [|done]. rewrite <- M6 in Ht. pose proof (tv_index _ _ _ _ _ _ _ _ _ _ Hinv) as Hix. destruct M9 as [M9 M9'].
  assert (forall a, bit_of s4 a = bit_of s2 a) as Hbits' by (intros a; rewrite (same_bits s3 s4 a Hbm); by apply same_bits).
  constructor; [|done| | |].
  - constructor; try done; [congruence|intros Hd; rewrite Eo, M8; by apply (ix_open _ _ _ _ _ _ _ _ _ _ Hix)|split; [done|lia]|apply (ix_bits _ _ _ _ _ _ _ _ _ _ Hix)|apply (ix_keys _ _ _ _ _ _ _ _ _ _ Hix)].
  - rewrite Hp. constructor; [done|apply (tv_nodup _ _ _ _ _ _ _ _ _ _ Hinv)].
  - rewrite Hp. constructor; [exists kn; by rewrite Hbits'|]. apply Forall_forall. intros a Ha. destruct (Fsl a Ha) as (ka & Hka & Hb). exists ka. by rewrite Hbits'.
  - rewrite Hp. constructor; [apply (stored_eq bits M s2); [by apply (Hsame nv kn)|done]|]. apply Forall_forall. intros a Ha.
    destruct (Z.eq_dec a q) as [->|Hne].
    { exists nd, hd4, pre4, f1, (cut_last nd le m), th. split; [done|]. split; [done|]. split; [done|]. split; [|lia]. apply Forall_app in Hes as [Hes _]. split; [done|].
      unfold cut_last. destruct nd; [|done]. by rewrite (zlen_with_vcn true le (no_last _ _ _ _ _ _ _ Hn)). }
    destruct (Z.eq_dec a pvcn) as [->|Hne'].
    { destruct Hpb as [->|[_ ?]]; [|done]. exfalso. destruct (pa_place _ _ _ _ _ _ _ _ _ _ _ _ _ _ _ _ _ _ _ _ _ _ _ _ Hpa) as [(_ & _ & -> & _)|(? & _)]; [|done].
      pose proof (slot_pos _ _ (Fsl _ Ha)) as Hx. unfold VCN_INDEX_ROOT_PARENT in Hx. lia. }
    destruct (Fsl a Ha) as (ka & Hka & _). apply (stored_eq bits M s2); [by apply (Hsame a ka)|by apply Fst].
Qed.

(** ** Splitting *)

(** The bit of the new block is set back when the parent has to be searched again. *)
Lemma keep_clear s s2 s3 c ir d d' ks vs vs' nv kn :
  block_size c = bs -> vcn_size_bits c = bits -> tree_inv s3 ir d' ks vs' -> grown s2 s3 vs vs' ->
  slot bs bits nv kn -> nv ∉ vs -> bit_of s kn = false -> bit_of s2 kn = true -> (forall j, 0 <= j -> j <> kn -> bit_of s2 j = bit_of s j) -> d = d' ->
  exists s4, undo (ntfs_ibm_clear s3 c nv) = Ret s4 /\ tree_inv s4 ir d' ks vs' /\ grown s s4 vs vs'.
Proof using laws Hbits Hbs Hdiv.
  intros Ebs Ebits Hinv [G1 G2 [bm G3] G4] Hslot Hnin Hfree Hset Hoth _. assert (0 <= kn) as Hkn by apply Hslot.
  destruct (clear_new bits get_collate cluster_size cluster_size_bits M Hbits Hbs Hdiv s3 c ir d' ks vs' nv kn bm) as (s4 & -> & Hinv4 & Hb4 & Hbm4); try done.
  { by apply G1. }
  { intros Hin. destruct (G2 nv Hin) as [?|(k' & Hk' & Hb')]; [done|]. assert (k' = kn) as ->; [|congruence].
    destruct Hslot as (_ & _ & E), Hk' as (_ & _ & E'). rewrite E in E'. nia. }
  exists s4. split; [done|]. split; [done|]. constructor; [| |done|done].
  - intros j Hj Hb. destruct (Z.eq_dec j kn) as [->|Hne]; [congruence|]. rewrite Hb4 by done. apply G1; [done|]. by rewrite Hoth.
  - intros v Hv. destruct (G2 v Hv) as [?|(k' & Hk' & Hb')]; [by left|right]. exists k'. split; [done|]. destruct (Z.eq_dec k' kn) as [->|Hne]; [done|].
    rewrite <- Hoth; [done|apply Hk'|done].
Qed.

Lemma block_split_ok : forall fuel j s cc c i ir d ks vs q b nd pre es le tail,
  tree_inv s ir d ks vs -> trail s d ir ROOT_INDEX VCN_INDEX_ROOT_PARENT ks vs c i -> (1 <= j <= d)%nat -> (j <= fuel)%nat ->
  same_path c cc -> block_size cc = bs -> vcn_size_bits cc = bits -> 0 <= i -> pindex cc = i + Z.of_nat j ->
  rd (parent_vcn c) (i + Z.of_nat j) = Ret q -> blocks s q = Ret b -> node_ok nd b BLOCK_INDEX pre es le tail -> es <> [] ->
  exists s' c' b' st, ntfs_ib_split memory past fuel s cc b = Ret (s', c', b', st) /\ split_result s s' cc c' d ks vs st.
Proof using laws fits Hbits Hbs Hdiv HM Hpast Hpastb.
  intros fuel. induction fuel as [|fuel IH]; intros j s cc c i ir d ks vs q b nd pre es le tail Hinv Htr Hj Hf Hsp Ebs Ebits Hi Epi Eq Eb Hn Hne; [lia|].
  cbn [ntfs_ib_split]. unfold ntfs_icx_parent_dec. set (c1 := set_pindex (pindex cc - 1) cc). assert (pindex c1 = i + Z.of_nat j - 1) as Epi1 by (unfold c1; cbn; lia).
  assert (same_path cc c1) as Hsc by done. assert (same_path c c1) as Hsp1 by (by eapply same_path_trans). assert (block_size c1 = bs) as Ebs1 by done. assert (vcn_size_bits c1 = bits) as Ebits1 by done.
  destruct (Z.ltb_spec (pindex c1) 0); [lia|]. clearbody c1.
  assert (forall s' b', exists s0 c' b0 st, @Ret (St * ntfs_index_context * bytes * status) (s', c1, b', STATUS_ERROR) = Ret (s0, c', b0, st) /\ split_result s s0 cc c' d ks vs st) as Herr.
  { intros s' b'. exists s', c1, b', STATUS_ERROR. split; [done|]. split; [done|]. split; [lia|done]. }
  assert (forall s' b' nv, exists s0 c' b0 st, (let! s0 := undo (ntfs_ibm_clear s' c1 nv) in @Ret (St * ntfs_index_context * bytes * status) (s0, c1, b', STATUS_ERROR)) = Ret (s0, c', b0, st) /\ split_result s s0 cc c' d ks vs st) as Hclear.
  { intros s' b' nv. destruct (undo_clear s' c1 nv) as [s0 ->]. cbn [obind]. apply Herr. }
  rewrite (median_ok _ _ _ _ _ _ _ Hn). cbn [obind]. set (f1 := take (length es / 2) es).
  assert (exists m f2, es = f1 ++ m :: f2) as (m & f2 & Ees).
  { destruct (drop (length es / 2) es) as [|m f2] eqn:Ed; [|exists m, f2; unfold f1; by rewrite <- Ed, take_drop]. exfalso. apply (f_equal length) in Ed. rewrite length_drop in Ed.
    assert (length es <> 0)%nat by (by destruct es). assert (length es / 2 < length es)%nat by (apply Nat.div_lt; lia). change (length (@nil bytes)) with 0%nat in Ed. lia. }
  clearbody f1. rewrite Ees in Hn. clear Ees Hne es.
  destruct (get_free_inv bits get_collate cluster_size cluster_size_bits M Hbits Hbs Hdiv s c1 ir d ks vs Ebs1 Ebits1 Hinv) as (s1 & r1 & -> & Hr1 & H1). destruct r1 as [[nv|]|e|]; [|apply Herr..|done].
  destruct (H1 nv eq_refl) as (kn & bm' & Hinv1 & [Er1 Eo1] & Hbl1 & Hslot & Hnin & Hfree & Hset & Hmono & Hoth1 & Ebm1). clear H1 Hr1.
  pose proof (tv_stored _ _ _ _ _ _ _ _ _ _ Hinv) as Fst. pose proof (tv_slots _ _ _ _ _ _ _ _ _ _ Hinv) as Fsl. rewrite Forall_forall in Fst, Fsl.
  assert (Forall (fun v => 0 <= v) vs) as Hvpos by (apply Forall_forall; intros v Hv; destruct (slot_pos s v (Fsl v Hv)); done).
  destruct (parent_view s bs bits ir d ks vs c i j Htr (tv_nodup _ _ _ _ _ _ _ _ _ _ Hinv) Hvpos Hj) as (? & ? & ? & ? & ? & ? & ? & ? & ? & ? & ? & ? & ? & ? & Hpa0).
  assert (q ∈ vs) as Hq.
  { pose proof (pa_child _ _ _ _ _ _ _ _ _ _ _ _ _ _ _ _ _ _ _ _ _ _ _ _ Hpa0) as Ec. rewrite Eq in Ec. injection Ec as ->. apply (pa_sub _ _ _ _ _ _ _ _ _ _ _ _ _ _ _ _ _ _ _ _ _ _ _ _ Hpa0).
    rewrite (parent_vcns _ _ _ _ _ _ _ _ _ _ _ _ _ _ _ _ _ _ _ _ _ _ _ _ Hpa0). apply elem_of_app. right. apply elem_of_app. left. apply elem_of_cons. by left. }
  clear Hpa0. destruct (stored_node bits M s q b _ _ _ _ _ (Fst q Hq) Eb Hn) as (Hbk & [Hes Hle] & Hroom).
  (* the new block *)
  unfold ntfs_ib_copy_tail. destruct memory eqn:Emem; [|apply Hclear]. rewrite Ebs1.
  destruct (ib_tail_ok nd bs b pre f1 m f2 le tail q nv Hn Hbk ltac:(lia)) as (dst & pd & td & -> & Hdst & Hbd & Hpd); [apply Hslot|]. cbn [obind].
  destruct (ib_write_ok (laws := laws) bits Hbits ltac:(lia) s1 c1 dst nv kn _ _ _ _ _ Ebits1 Hbd Hdst Hslot) as (s2 & r2 & -> & Hr2 & H2).
  destruct r2 as [[]|e|]; [|apply Hclear|done]. destruct (H2 eq_refl) as (Hro2 & Hbm2 & (tl & pt & Etl & Htl & Hbt & Hpt) & Hoth2). clear H2 Hr2. cbn [obind].
  assert (forall v, v ∈ vs -> blocks s2 v = blocks s1 v) as Hsame by (intros v Hv; destruct (Fsl v Hv) as (kv & Hkv & _); apply (Hoth2 v kv Hkv); by intros ->).
  assert (forall a, bit_of s2 a = bit_of s1 a) as Hbits2 by (intros a; by apply same_bits).
  assert (tree_inv s2 ir d ks vs) as Hinv2 by (eapply (tree_inv_frame bits get_collate cluster_size cluster_size_bits M s1); try done; intros v _; apply in_use_bits; intros a _; by rewrite Hbits2).
  assert (forall v, v ∈ vs -> blocks s2 v = blocks s v) as Hsame0 by (intros v Hv; rewrite Hsame by done; by apply same_blocks_at).
  assert (stored s2 nv) as Hstnv.
  { exists nd, tl, pt, f2, le, td. split; [done|]. split; [done|]. split; [done|]. split; [|lia]. split; [|done]. apply Forall_app in Hes as [_ Hes]. by apply Forall_cons in Hes as [_ ?]. }
  assert (trail s2 d ir ROOT_INDEX VCN_INDEX_ROOT_PARENT ks vs c i) as Htr2 by (by apply (trail_ext bits s)).
  destruct (parent_view s2 bs bits ir d ks vs c i j Htr2 (tv_nodup _ _ _ _ _ _ _ _ _ _ Hinv) Hvpos Hj) as (pb & ph & pvcn & pvs & ppre & es1 & es2 & ple & ptail & t1 & k & w & t2 & nb & Hpa).
  pose proof (pa_child _ _ _ _ _ _ _ _ _ _ _ _ _ _ _ _ _ _ _ _ _ _ _ _ Hpa) as Ec. rewrite Eq in Ec. injection Ec as Eqv.
  pose proof (pa_block _ _ _ _ _ _ _ _ _ _ _ _ _ _ _ _ _ _ _ _ _ _ _ _ Hpa) as Enb. rewrite <- Eqv, Hsame0, Eb in Enb by done. injection Enb as <-.
  assert (0 <= ent_vcn (first_of es2 ple) < 2 ^ 63) as Hold by (rewrite <- Eqv; apply (slot_pos s); by apply Fsl).
  pose proof (no_entries _ _ _ _ _ _ _ Hn) as F. apply Forall_app in F as [_ F]. apply Forall_cons in F as [Hm _].
  assert (zlen m + (if nd then 0 else 8) <= M) as HmM by (apply Forall_app in Hes as [_ Hes]; by apply Forall_cons in Hes as [? _]).
  assert (exists junk, drop (Z.to_nat (zlen (pre ++ concat f1))) b = m ++ junk) as [junk ->].
  { exists (concat f2 ++ le ++ tail). rewrite (node_split _ _ _ _ _ _ _ _ Hn). cbn [concat]. unfold zlen. rewrite Nat2Z.id, drop_app_length. by rewrite <- (assoc_L (++) m). }
  unfold ntfs_icx_parent_vcn. rewrite (sp_vcn _ _ Hsp1), Epi1, (pa_vcn _ _ _ _ _ _ _ _ _ _ _ _ _ _ _ _ _ _ _ _ _ _ _ _ Hpa). cbn [obind].
  assert (forall (x : outcome (St * ntfs_index_context * status)) s3 c3 st, x = Ret (s3, c3, st) -> same_path c1 c3 -> 0 <= pindex c3 <= pindex c1 ->
    match st with
    | STATUS_OK => c3 = c1 /\ exists ir' pb' ppre' es2' ple' ptail' m', median_in s2 s3 ir ir' pb' ph pvcn ppre' es1 es2 ple es2' ple' ptail' m m' nv
    | STATUS_KEEP_SEARCHING => exists ir' d' vs', tree_inv s3 ir' d' ks vs' /\ grown s2 s3 vs vs'
    | STATUS_ERROR => True
    | STATUS_RESIDENT_ATTRIBUTE_FILLED_MFT => False
    end ->
    exists s' c' b' st, (let! (s, c, ret) := x in match ret with
      | STATUS_OK => let! (s, ib, ret) := ntfs_ib_cut_tail s c b (zlen (pre ++ concat f1)) in Ret (s, c, ib, ret)
      | ret => let! s := undo (ntfs_ibm_clear s c nv) in Ret (s, c, b, ret)
      end) = Ret (s', c', b', st) /\ split_result s s' cc c' d ks vs st) as Hdone.
  { intros y s3 c3 st -> Hs3 Hp3 Hst. cbn [obind]. assert (same_path cc c3) as Hs3' by (by eapply same_path_trans).
    assert (block_size c3 = bs /\ vcn_size_bits c3 = bits) as [Ebs3 Ebits3] by (rewrite (sp_size _ _ Hs3), (sp_bits _ _ Hs3); done). destruct st.
    - destruct Hst as (-> & ir' & pb' & ppre' & es2' & ple' & ptail' & m' & Hmi). pose proof (mi_bitmap _ _ _ _ _ _ _ _ _ _ _ _ _ _ _ _ _ Hmi) as Hbm3.
      destruct (cut_ok s2 s3 c1 ir ir' d ks vs c i j pb ph pvcn pvs ppre es1 es2 ple ptail t1 k w t2 b nd pre f1 m f2 le tail nv kn tl pt td pb' ppre' es2' ple' ptail' m')
        as (s4 & ib' & st & -> & Hst & H4); try done; [by rewrite Hbits2|].
      cbn [obind]. exists s4, c1, ib', st. split; [done|]. split; [done|]. split; [lia|]. destruct Hst as [->| ->]; [|done]. destruct (H4 eq_refl) as (vs' & Hinv4 & Hp & Hbm4).
      exists ir', vs'. split; [done|]. assert (forall a, bit_of s4 a = bit_of s1 a) as Hb4 by (intros a; rewrite (same_bits s3 s4 a Hbm4), (same_bits s2 s3 a Hbm3); apply Hbits2).
      constructor.
      + intros a Ha Hb. rewrite Hb4. by apply Hmono.
      + intros v Hv. rewrite Hp in Hv. apply elem_of_cons in Hv as [->|Hv]; [right; by exists kn|by left].
      + exists bm'. unfold same_bitmap in *. congruence.
      + rewrite (Permutation_length Hp). cbn. lia.
    - destruct (undo_clear s3 c3 nv) as [s0 ->]. cbn [obind]. exists s0, c3, b, STATUS_ERROR. split; [done|]. split; [done|]. split; [lia|done].
    - done.
    - destruct Hst as (ir' & d' & vs' & Hinv3 & Hg3).
      destruct (keep_clear s s2 s3 c3 ir' d' d' ks vs vs' nv kn) as (s4 & -> & Hinv4 & Hg4); try done.
      { by rewrite Hbits2. }
      { intros a Ha Hne. rewrite Hbits2. by apply Hoth1. }
      cbn [obind]. exists s4, c3, b, STATUS_KEEP_SEARCHING. split; [done|]. split; [done|]. split; [lia|]. by exists ir', d', vs'. }
  destruct (pa_place _ _ _ _ _ _ _ _ _ _ _ _ _ _ _ _ _ _ _ _ _ _ _ _ Hpa) as [(-> & -> & Epv & ->)|(-> & Epb & Hin & Hj2)].
  - rewrite Epv. rewrite Z.eqb_refl. destruct (root_median_ok s2 c1 ir d ks vs c i pvcn pvs ppre es1 es2 ple ptail t1 k w t2 b nd m junk nv) as (s3 & st & E & Hst); try done; [lia|apply Hslot|].
    rewrite Emem in E. apply (Hdone _ s3 c1 st); [by rewrite E|done|lia|]. destruct st; try done.
  - assert (pvcn =? VCN_INDEX_ROOT_PARENT = false) as -> by (apply Z.eqb_neq; pose proof (slot_pos _ _ (Fsl _ Hin)); unfold VCN_INDEX_ROOT_PARENT; lia).
    destruct (ib_insert_ok (ntfs_ib_split true past fuel) s2 c1 ir d ks vs c i j pb pvcn pvs ppre es1 es2 ple ptail t1 k w t2 b nd m junk nv) as (s3 & c3 & st & E & Hs3 & Hp3 & Hst); try done; [lia|apply Hslot| |].
    + intros Hne. pose proof (pa_vcn _ _ _ _ _ _ _ _ _ _ _ _ _ _ _ _ _ _ _ _ _ _ _ _ Hpa) as Epv. replace (i + Z.of_nat j - 1) with (i + Z.of_nat (j - 1)) in * by lia.
      apply (IH (j - 1)%nat s2 c1 c i ir d ks vs pvcn pb true ppre (es1 ++ es2) ple ptail); try done; [lia|lia|].
      apply (pa_node _ _ _ _ _ _ _ _ _ _ _ _ _ _ _ _ _ _ _ _ _ _ _ _ Hpa).
    + rewrite Emem in E. by apply (Hdone _ s3 c3 st).
Qed.
End Split.
