(* ===== verification/IndexEntry.v ===== *)
(** * Index trees: adding an entry (ntfs/index.c)

    [ntfs_ie_add] searches the place of the new entry, makes room as often as
    needed, and stores the entry in its leaf. *)
From stdpp Require Import sorting.
From S2P Require Import Prelude Libc Fields Bitmap Index IndexAdd IndexNode IndexOps IndexSplit IndexTree IndexInv IndexRoot IndexGrow IndexInsert IndexRoom.

(** ** Contexts *)
Section Context_facts.
Context {f : COLLATE} {ord : key_order f} {St : Type} {attrs : index_attrs St}.

Lemma trail_pindex (s : St) bs bits d : forall b h vcn ks vs c i, IndexTree.trail s bs bits d b h vcn ks vs c i -> pindex c = i + Z.of_nat d.
Proof using.
  induction d as [|d IH]; intros b h vcn ks vs c i; cbn [IndexTree.trail]; [intros [_ H]; lia|].
  intros (_ & pre & es1 & es2 & le & tail & t1 & k & w & t2 & blk & _ & _ & _ & _ & _ & _ & _ & H). apply IH in H. lia.
Qed.

(** A lookup does not make a block dirty. *)
Lemma descend_dirty fuel (s : St) : forall c key kl old vcn c' r, descend fuel s c key kl old vcn = Ret (c', r) -> ib_dirty c' = ib_dirty c.
Proof using.
  induction fuel as [|fuel IH]; intros c key kl old vcn c' r; cbn [descend]; [done|]. unfold store_vcn, store_pos, ntfs_icx_parent_inc.
  destruct (wr (parent_vcn c) (pindex c) old) as [l1| |]; cbn [obind]; [|done..]. destruct (_ <=? _); [by intros [= <- <-]|].
  destruct (ntfs_ib_read _ _ _) as [b| |]; [|by intros [= <- <-]|done]. destruct (ntfs_ie_lookup _ _ _ _ _) as [[ie item|ie|child item]|e|]; [..|by intros [= <- <-]|done].
  - destruct (wr (parent_pos _) _ _) as [l2| |]; cbn [obind]; [|done..]. destruct (wr (parent_vcn _) _ _) as [l3| |]; cbn [obind]; [|done..]. by intros [= <- <-].
  - destruct (wr (parent_vcn _) _ _) as [l2| |]; cbn [obind]; [|done..]. by intros [= <- <-].
  - destruct (wr (parent_pos _) _ _) as [l2| |]; cbn [obind]; [|done..]. destruct (ih_flags b BLOCK_INDEX) as [fl| |]; cbn [obind]; [|done..].
    destruct (_ =? LEAF_NODE); [by intros [= <- <-]|]. intros E. by apply IH in E.
Qed.

Lemma lookup_dirty (s : St) memory get_collate cs csb c key kl c' r : ntfs_index_lookup memory get_collate cs csb s c key kl = Ret (c', r) -> ib_dirty c' = ib_dirty c.
Proof using.
  unfold ntfs_index_lookup, store_vcn, store_pos. destruct (kl <=? 0); [by intros [= <- <-]|]. destruct (ir_get s) as [ir| |]; [|by intros [= <- <-]|done].
  destruct (rd_le 4 ir 8) as [bs| |]; cbn [obind]; [|done..]. destruct (bs <? 512); [by intros [= <- <-]|]. destruct (rd_le 4 ir 4) as [rule| |]; cbn [obind]; [|done..].
  destruct (get_collate rule) as [g|]; [|by intros [= <- <-]]. destruct (ntfs_ie_lookup _ _ _ _ _) as [[ie item|ie|child item]|e|]; [..|by intros [= <- <-]|done].
  - destruct (wr (parent_pos _) _ _) as [l2| |]; cbn [obind]; [|done..]. destruct (wr (parent_vcn _) _ _) as [l3| |]; cbn [obind]; [|done..]. by intros [= <- <-].
  - destruct (wr (parent_vcn _) _ _) as [l2| |]; cbn [obind]; [|done..]. by intros [= <- <-].
  - destruct (wr (parent_pos _) _ _) as [l2| |]; cbn [obind]; [|done..]. destruct (ia_open s) as [[]| |]; [|by intros [= <- <-]|done]. destruct memory; [|by intros [= <- <-]].
    intros E. by apply descend_dirty in E.
Qed.
End Context_facts.

(** ** Keys *)
Section Keys.
Context {f : COLLATE} {ord : key_order f}.

(** The keys with one more, in its place. *)
Definition inserted (key : bytes) (ks ks' : list bytes) : Prop :=
  exists l r, ks = l ++ r /\ ks' = l ++ key :: r /\ Forall (fun k => key_lt k key) l /\ Forall (fun k => key_lt key k) r.

Lemma keys_ok_insert key ks ks' : keys_ok ks -> key_valid key -> inserted key ks ks' -> keys_ok ks'.
Proof using.
  intros [Hv Hs] Vk (l & r & -> & -> & Hl & Hr). apply Forall_app in Hv as [Vl Vr]. split; [apply Forall_app; split; [done|by constructor]|].
  apply StronglySorted_app_2; [|by eapply StronglySorted_app_1_l|constructor; [by eapply StronglySorted_app_1_r|done]].
  intros x y Hx [->|Hy]%elem_of_cons; [by rewrite Forall_forall in Hl; apply Hl|]. by eapply StronglySorted_app_1_elem_of.
Qed.

Lemma inserted_absent key ks ks' : key_valid key -> Forall key_valid ks -> inserted key ks ks' -> ~ present key ks.
Proof using.
  intros Vk Hv (l & r & -> & _ & Hl & Hr) (k & Hk & E). rewrite Forall_forall in *. specialize (Hv k Hk). apply elem_of_app in Hk as [Hk|Hk].
  - specialize (Hl k Hk). unfold key_lt in Hl. cbn in *. rewrite key_antisym in Hl by done. lia.
  - specialize (Hr k Hk). unfold key_lt in Hr. cbn in *. lia.
Qed.
End Keys.

(** ** Adding *)
Section Add.
Context {f : COLLATE} {ord : key_order f} {St : Type} {attrs : index_attrs St} {space : index_space St} {bs : Z} {laws : index_laws attrs space bs} {fits : resident_fits space bs}.
Context (bits : Z) (get_collate : Z -> option COLLATE) (cluster_size cluster_size_bits M : Z) (past : bytes).
Notation blocks s := (IndexTree.blocks s bs bits).
Notation trail s := (IndexTree.trail s bs bits).
Notation tree_inv := (IndexInsert.tree_inv (bs := bs) bits get_collate cluster_size cluster_size_bits M).
Notation stored := (IndexInsert.stored (bs := bs) bits M).
Notation sized := (IndexInsert.sized M).
Notation grown := (IndexInsert.grown (bs := bs) bits).
Notation split_result := (IndexRoom.split_result (bs := bs) bits get_collate cluster_size cluster_size_bits M).

(** A tree has no more blocks than the bitmap has bits. *)
Lemma tree_count s ir d ks vs : 0 <= bits -> tree_inv s ir d ks vs -> Z.of_nat (length vs) <= 2 ^ 34.
Proof using laws.
  intros Hbits Hinv. pose proof (tv_slots _ _ _ _ _ _ _ _ _ _ Hinv) as F. pose proof (tv_nodup _ _ _ _ _ _ _ _ _ _ Hinv) as Hnd.
  assert (exists js, Forall2 (fun v k => slot bs bits v k /\ bit_of s k = true) vs js) as [js HF].
  { clear Hnd Hinv. induction F as [|v vs (k & Hk & Hb) F [js IH]]; [by exists []|]. exists (k :: js). by constructor. }
  assert (NoDup js) as Hndj.
  { clear F Hinv. induction HF as [|v k vs js [Hk _] HF IH]; [constructor|]. apply NoDup_cons in Hnd as [Hnin Hnd]. constructor; [|by apply IH].
    intros Hin. apply Hnin. clear -HF Hk Hin Hbits. induction HF as [|w j vs js [Hj _] HF IH]; [by apply elem_of_nil in Hin|]. apply elem_of_cons in Hin as [->|Hin].
    - apply elem_of_cons. left. by apply (slot_inj (bs := bs) bits v w j).
    - apply elem_of_cons. right. by apply IH. }
  rewrite (Forall2_length _ _ _ HF). destruct (l_bm_readall s) as [_ Hbm]. destruct (bm_readall s) as [bm| |] eqn:Ebm.
  - destruct (Hbm bm eq_refl) as [_ Hz]. assert (length js <= length (seqZ 0 (8 * zlen bm)))%nat as Hl.
    { apply submseteq_length, NoDup_submseteq; [done|]. intros k Hk. apply elem_of_seqZ.
      assert (0 <= k /\ bit_of s k = true) as [Hk0 Hb].
      { clear -HF Hk. induction HF as [|v j vs js [(Hj & _) Hb] HF IH]; [by apply elem_of_nil in Hk|]. apply elem_of_cons in Hk as [->|Hk]; [done|by apply IH]. }
      split; [done|]. unfold bit_of in Hb. rewrite Ebm in Hb. destruct (Z.ltb_spec k (8 * zlen bm)); [lia|]. exfalso. unfold bit_at in Hb. by rewrite rd_fault in Hb by dlia. }
    rewrite length_seqZ in Hl. lia.
  - destruct HF as [|v k vs js [_ Hb] _]; [cbn; lia|]. unfold bit_of in Hb. by rewrite Ebm in Hb.
  - destruct HF as [|v k vs js [_ Hb] _]; [cbn; lia|]. unfold bit_of in Hb. by rewrite Ebm in Hb.
Qed.


Context (Hbits : 0 <= bits) (Hbs : 512 <= bs < 2 ^ 15) (Hdiv : bs mod 2 ^ bits = 0) (HM : 24 + first_offset bs + 32 + M <= bs).
Context (Hpast : zlen past = 8) (Hpastb : Forall byte_ok past).
Context (x : bytes) (Hx : ent_ok false false x) (HxM : zlen x + 8 <= M) (Hkey : key_valid (ent_key x)) (Hkpos : 0 < zlen (ent_key x)).

Lemma sized_add es1 es2 le : sized false (es1 ++ es2) le -> sized false (es1 ++ x :: es2) le.
Proof using HxM. intros [F Hl]. split; [|done]. apply Forall_app in F as [F1 F2]. apply Forall_app. split; [done|]. by constructor. Qed.

Lemma place_inserted b h c l r ks : place_at b h c (ent_key x) l r ks -> exists pre es1 es2 le tail, node_ok false b h pre (es1 ++ es2) le tail /\
  entry c = Some (zlen (pre ++ concat es1)) /\ inserted (ent_key x) ks (l ++ map ent_key (es1 ++ x :: es2) ++ r).
Proof using.
  clear Hbits Hbs Hdiv HM. intros (pre & es1 & es2 & le & tail & Hn & He & -> & Hl & Hr). exists pre, es1, es2, le, tail. split; [done|]. split; [done|].
  exists (l ++ map ent_key es1), (map ent_key es2 ++ r). rewrite !map_app. cbn [map]. by rewrite <- !(assoc_L (++)).
Qed.

(** The node of a root that is a leaf is replaced. *)
Lemma replace_root s ir ks vs pre es le tail b' pre' es' tail' :
  tree_inv s ir 0 ks vs -> node_ok false ir ROOT_INDEX pre es le tail -> node_ok false b' ROOT_INDEX pre' es' le tail' -> zlen b' = zlen ir -> sized false es' le ->
  keys_ok (map ent_key es') -> (forall a, 0 <= a < 16 -> rd b' a = rd ir a) -> tree_inv (ir_put s b') b' 0 (map ent_key es') vs.
Proof using laws.
  clear Hbits Hbs Hdiv HM. intros Hinv Hn Hn' Hz Hsz Hks Hfr. pose proof (tv_index _ _ _ _ _ _ _ _ _ _ Hinv) as Hix.
  destruct (l_ir_put s ir b' (ix_root _ _ _ _ _ _ _ _ _ _ Hix) Hz) as (Eg & Eo & Hbl & Hbm).
  assert (forall a, 0 <= a -> a + 4 <= 16 -> rd_le 4 b' a = rd_le 4 ir a) as Hle by (intros a Ha Ha'; apply rd_le_eq; intros k Hk; apply Hfr; lia).
  destruct (root_sized M ir _ _ _ _ _ (tv_root _ _ _ _ _ _ _ _ _ _ Hinv) Hn) as [_ Hf].
  assert (vs = []) as -> by (pose proof (ix_tree _ _ _ _ _ _ _ _ _ _ Hix) as (? & ? & ? & ? & _ & _ & ->); done).
  constructor; [|eexists _, _, _, _, _; split; [exact Hn'|]; split; [done|lia]|constructor..].
  constructor; [done|lia|rewrite Hle by lia; apply (ix_size _ _ _ _ _ _ _ _ _ _ Hix)|apply (ix_bits _ _ _ _ _ _ _ _ _ _ Hix)|rewrite Hle by lia; apply (ix_rule _ _ _ _ _ _ _ _ _ _ Hix)| |done].
  cbn [tree_at]. by eexists _, _, _, _.
Qed.

(** A leaf is replaced by another one, which is written. *)
Lemma replace_leaf s ir d ks vs leaf v l r pre es le tail b' pre' es' tail' :
  tree_inv s ir d ks vs -> blocks s v = Ret leaf -> v ∈ vs -> node_ok false leaf BLOCK_INDEX pre es le tail ->
  node_ok false b' BLOCK_INDEX pre' es' le tail' -> zlen b' = zlen leaf -> zlen pre' = zlen pre -> (sized false es le -> sized false es' le) -> keys_ok (l ++ map ent_key es' ++ r) ->
  (forall a, 0 <= a < BLOCK_INDEX -> rd b' a = rd leaf a) ->
  (forall leaf' pre es le tail, node_ok false leaf' BLOCK_INDEX pre es le tail -> NoDup vs ->
      tree_at (rd_upd (blocks s) v leaf') d ir ROOT_INDEX (l ++ map ent_key es ++ r) vs) ->
  forall c, vcn_size_bits c = bits -> exists s' w, ntfs_ib_write s c b' = (s', w) /\ w <> Fault /\ (w = Ret tt -> tree_inv s' ir d (l ++ map ent_key es' ++ r) vs).
Proof using laws Hbits Hbs.
  clear Hdiv HM. intros Hinv Eb Hv Hn Hn' Hz Hzp Hsized Hks Hfr Hupd c Ec. pose proof (tv_index _ _ _ _ _ _ _ _ _ _ Hinv) as Hix.
  pose proof (tv_stored _ _ _ _ _ _ _ _ _ _ Hinv) as Fst. pose proof (tv_slots _ _ _ _ _ _ _ _ _ _ Hinv) as Fsl. pose proof (tv_nodup _ _ _ _ _ _ _ _ _ _ Hinv) as Hnd. rewrite Forall_forall in Fst, Fsl.
  destruct (stored_node bits M s v leaf _ _ _ _ _ (Fst v Hv) Eb Hn) as (Hbk & Hsz & Hroom). destruct (Fsl v Hv) as (kv & Hkv & Hbv).
  assert (block_ok bs v b' pre') as Hbk' by (by apply (block_ok_eq bs v leaf pre)).
  destruct (ib_write_ok (laws := laws) bits Hbits ltac:(lia) s c b' v kv _ _ _ _ _ Ec Hbk' Hn' Hkv) as (s' & r' & -> & Hr' & Hw). exists s', r'. split; [done|]. split; [done|].
  intros Er. destruct (Hw Er) as ([Eg Eo] & Hbm & (b2 & pre2 & Eb2 & Hn2 & Hbk2 & Hp2) & Hoth).
  assert (forall a, a ∈ vs -> a <> v -> blocks s' a = blocks s a) as Hsame by (intros a Ha Hne; destruct (Fsl a Ha) as (ka & Hka & _); by apply (Hoth a ka)).
  constructor; [|apply (tv_root _ _ _ _ _ _ _ _ _ _ Hinv)|done| |].
  - destruct Hix as [I1 I2 I3 I4 I5 I6 I7]. constructor; try done; [by rewrite Eg|by rewrite Eo|].
    apply (tree_at_ext (rd_upd (blocks s) v b2)); [|by eapply Hupd]. intros a Ha. unfold rd_upd. destruct (Z.eqb_spec a v) as [->|Hne]; [done|by apply Hsame].
  - apply Forall_forall. intros a Ha. destruct (Fsl a Ha) as (ka & Hka & Hb). exists ka. split; [done|]. by rewrite (same_bits s s' ka Hbm).
  - apply Forall_forall. intros a Ha. destruct (Z.eq_dec a v) as [->|Hne]; [|apply (stored_eq bits M s); [by apply Hsame|by apply Fst]].
    eexists false, b2, pre2, _, le, _. split; [done|]. split; [done|]. split; [exact Hn2|]. split; [by apply Hsized|lia].
Qed.

(** The entry is stored in the root. *)
Lemma insert_root s ir ks vs pre es1 es2 le tail ks' :
  tree_inv s ir 0 ks vs -> node_ok false ir ROOT_INDEX pre (es1 ++ es2) le tail -> zlen x <= zlen tail -> inserted (ent_key x) ks ks' -> ks' = map ent_key (es1 ++ x :: es2) ->
  exists b', ntfs_ie_insert ir ROOT_INDEX x (zlen (pre ++ concat es1)) = Ret b' /\ tree_inv (ir_put s b') b' 0 ks' vs.
Proof using laws Hx HxM Hkey.
  clear Hbits Hbs Hdiv HM. intros Hinv Hn Hfit Hins ->. destruct (node_insert_ok false ir ROOT_INDEX pre es1 es2 le tail x [] Hn Hx Hfit) as (E & Hn' & Hz). rewrite app_nil_r in E.
  eexists. split; [exact E|]. eapply replace_root; [exact Hinv|exact Hn|exact Hn'|exact Hz| | |].
  - apply sized_add. apply (root_sized M ir _ _ _ _ _ (tv_root _ _ _ _ _ _ _ _ _ _ Hinv) Hn).
  - eapply keys_ok_insert; [apply (ix_keys _ _ _ _ _ _ _ _ _ _ (tv_index _ _ _ _ _ _ _ _ _ _ Hinv))|done|exact Hins].
  - by apply (node_front _ _ _ _ _ _ _ _ _ _ _ _ _ Hn Hn').
Qed.

(** The entry is stored in a block, which is written. *)
Lemma insert_leaf s ir d ks vs leaf v l r pre es1 es2 le tail :
  tree_inv s ir d ks vs -> blocks s v = Ret leaf -> v ∈ vs -> node_ok false leaf BLOCK_INDEX pre (es1 ++ es2) le tail -> zlen x <= zlen tail ->
  inserted (ent_key x) ks (l ++ map ent_key (es1 ++ x :: es2) ++ r) ->
  (forall leaf' pre es le tail, node_ok false leaf' BLOCK_INDEX pre es le tail -> NoDup vs ->
      tree_at (rd_upd (blocks s) v leaf') d ir ROOT_INDEX (l ++ map ent_key es ++ r) vs) ->
  exists b', ntfs_ie_insert leaf BLOCK_INDEX x (zlen (pre ++ concat es1)) = Ret b' /\ forall c, vcn_size_bits c = bits ->
    exists s' w, ntfs_ib_write s c b' = (s', w) /\ w <> Fault /\ (w = Ret tt -> tree_inv s' ir d (l ++ map ent_key (es1 ++ x :: es2) ++ r) vs).
Proof using laws Hbits Hbs Hx HxM Hkey.
  intros Hinv Eb Hv Hn Hfit Hins Hupd. destruct (node_insert_ok false leaf BLOCK_INDEX pre es1 es2 le tail x [] Hn Hx Hfit) as (E & Hn' & Hz). rewrite app_nil_r in E.
  destruct (no_head _ _ _ _ _ _ _ Hn) as [_ Hh]. eexists. split; [exact E|]. eapply replace_leaf; [exact Hinv|exact Eb|exact Hv|exact Hn|exact Hn'|exact Hz| | | | |exact Hupd].
  - apply zlen_with_len; unfold BLOCK_INDEX in *; lia.
  - apply sized_add.
  - eapply keys_ok_insert; [apply (ix_keys _ _ _ _ _ _ _ _ _ _ (tv_index _ _ _ _ _ _ _ _ _ _ Hinv))|done|exact Hins].
  - by apply (node_front _ _ _ _ _ _ _ _ _ _ _ _ _ Hn Hn').
Qed.

(** ** The rounds *)

(** A context that a search can start with. *)
Record ctx_start (c : ntfs_index_context) : Prop := {
  cs_pos : zlen (parent_pos c) = 32;
  cs_vcn : zlen (parent_vcn c) = 32;
  cs_index : 0 <= pindex c < 32;
  cs_dirty : ib_dirty c = false;
}.

(** How the adding ends: the key was there; or it is there now, as soon as a dirty block
    is written; or there was an error. *)
Definition add_done (s : St) (c : ntfs_index_context) (ks : list bytes) (r : option errno_t) : Prop :=
  (r = Some EEXIST /\ present (ent_key x) ks) \/
  (~ present (ent_key x) ks /\ r = Some EUNSET) \/ r = Some EOPNOTSUPP \/
  (r = None /\ ~ present (ent_key x) ks /\ exists ir d ks' vs, inserted (ent_key x) ks ks' /\
    ((is_in_root c = true /\ entry c <> None /\ tree_inv s ir d ks' vs) \/
     (is_in_root c = false /\ entry c <> None /\ ib_dirty c = true /\ exists b, ib c = Some b /\
        exists s' w, ntfs_ib_write s c b = (s', w) /\ w <> Fault /\ (w = Ret tt -> tree_inv s' ir d ks' vs)))).

(** The entry fits into the root. *)
Definition root_room (ir : bytes) (d : nat) : Prop :=
  d = 0%nat /\ exists nd pre es le tail, node_ok nd ir ROOT_INDEX pre es le tail /\ zlen x <= zlen tail.

Notation ie_add := (ntfs_ie_add true past get_collate cluster_size cluster_size_bits).

Lemma room_test b h pre es le tail : node_ok false b h pre es le tail -> zlen b < 2 ^ 24 ->
  s32 (zlen pre - h + zlen (concat es) + zlen le + zlen x) = zlen pre - h + zlen (concat es) + zlen le + zlen x /\ s32 (zlen b - h) = zlen b - h /\
  (zlen pre - h + zlen (concat es) + zlen le + zlen x <= zlen b - h <-> zlen x <= zlen tail).
Proof using Hx.
  clear Hbits Hbs Hdiv HM HxM Hkpos. intros Hn Hs. pose proof (node_size _ _ _ _ _ _ _ Hn). destruct (no_head _ _ _ _ _ _ _ Hn). pose proof (en_size _ _ _ Hx).
  pose proof (zlen_nonneg (concat es)). pose proof (ent_size16 _ _ _ (no_last _ _ _ _ _ _ _ Hn)). pose proof (zlen_nonneg tail).
  split; [apply wraps_small; [lia|unfold in_s; lia]|]. split; [apply wraps_small; [lia|unfold in_s; lia]|]. lia.
Qed.

(** The round when the place is in the root. *)
Lemma round_root s c ir ks vs : tree_inv s ir 0 ks vs -> ctx_start c -> ctx_ok (f := f) bs bits c -> is_in_root c = true -> place_at ir ROOT_INDEX c (ent_key x) [] [] ks ->
  exists b asz il, ctx_node s c = Ret (b, ROOT_INDEX) /\ allocated_size b ROOT_INDEX = Ret asz /\ index_length b ROOT_INDEX = Ret il /\
  if s32 (il + zlen x) <=? s32 asz then
    exists e b' , entry c = Some e /\ ntfs_ie_insert b ROOT_INDEX x e = Ret b' /\ add_done (ir_put s b') c ks None
  else ~ root_room ir 0 /\ exists s' st, ntfs_ir_make_space true s c (s32 (il + zlen x)) = Ret (s', st) /\
    (st = STATUS_ERROR \/ exists ir' d' vs', (st = STATUS_OK \/ st = STATUS_KEEP_SEARCHING) /\ tree_inv s' ir' d' ks vs' /\ ((length vs < length vs')%nat \/ root_room ir' d')).
Proof using laws fits Hbits Hbs Hdiv HM Hx HxM Hkey.
  intros Hinv Hc Hcx Hr Hpl. destruct (place_inserted _ _ _ _ _ _ Hpl) as (pre & es1 & es2 & le & tail & Hn & He & Hins). cbn [app] in Hins. rewrite app_nil_r in Hins.
  pose proof (tv_index _ _ _ _ _ _ _ _ _ _ Hinv) as Hix. unfold ctx_node. rewrite Hr, (ix_root _ _ _ _ _ _ _ _ _ _ Hix). cbn [obind].
  exists ir, (zlen ir - ROOT_INDEX), (zlen pre - ROOT_INDEX + zlen (concat (es1 ++ es2)) + zlen le). split; [done|]. split; [apply (no_alloc _ _ _ _ _ _ _ Hn)|].
  split; [apply (no_len _ _ _ _ _ _ _ Hn)|]. destruct (root_sized M ir _ _ _ _ _ (tv_root _ _ _ _ _ _ _ _ _ _ Hinv) Hn) as [Hsz Hf].
  pose proof (first_offset_bounds bs ltac:(lia)). assert (0 <= bs / 512) by (apply Z.div_pos; lia).
  destruct (room_test ir ROOT_INDEX pre (es1 ++ es2) le tail Hn ltac:(lia)) as (-> & -> & Hfit).
  assert (~ present (ent_key x) ks) as Habs by (eapply inserted_absent; [done|apply (ix_keys _ _ _ _ _ _ _ _ _ _ Hix)|exact Hins]).
  match goal with |- context [?a <=? ?b] => destruct (Z.leb_spec a b) as [Hle|Hgt] end.
  - destruct (insert_root s ir ks vs pre es1 es2 le tail _ Hinv Hn (proj1 Hfit Hle) Hins eq_refl) as (b' & Eb & Hinv'). exists (zlen (pre ++ concat es1)), b'. split; [done|]. split; [done|].
    right. right. right. split; [done|]. split; [done|]. eexists b', 0%nat, _, vs. split; [exact Hins|]. left. by rewrite He.
  - split.
    { intros (_ & nd & pre' & es' & le' & tail' & Hn' & Ht). destruct (node_unique _ _ _ _ _ _ _ _ _ _ _ _ Hn Hn') as (_ & _ & _ & _ & ->). lia. }
    destruct (make_space_ok bits get_collate cluster_size cluster_size_bits M Hbits Hbs Hdiv HM true s c ir 0 ks vs false pre (es1 ++ es2) le tail
      (zlen pre - ROOT_INDEX + zlen (concat (es1 ++ es2)) + zlen le + zlen x)) as (s' & st & E & Hst); try done.
    { apply (cx_size _ _ _ Hcx). }
    { apply (cx_bits _ _ _ Hcx). }
    { pose proof (ent_size16 _ _ _ Hx). pose proof (en_size _ _ _ Hx). pose proof (node_size _ _ _ _ _ _ _ Hn). pose proof (zlen_nonneg tail). unfold ROOT_INDEX in *. lia. }
    exists s', st. split; [exact E|]. destruct st; [right|by left|done|right].
    + destruct Hst as (ir' & pre' & tail' & Hinv' & Hn' & _ & Ht & _ & _). exists ir', 0%nat, vs. split; [by left|]. split; [done|]. right. split; [done|].
      eexists _, _, _, _, _. split; [exact Hn'|lia].
    + destruct Hst as (ir' & vs' & Hinv' & Hg). exists ir', 1%nat, vs'. split; [by right|]. split; [done|]. left. apply (gr_more _ _ _ _ _ Hg).
Qed.

(** The round when it is in a block. *)
Lemma round_block s c i ir d ks vs : tree_inv s ir d ks vs -> ctx_ok (f := f) bs bits c -> 0 <= i ->
  place_below s bs bits d ir ROOT_INDEX VCN_INDEX_ROOT_PARENT c i (ent_key x) ks vs -> is_in_root c = false ->
  exists b asz il, ctx_node s c = Ret (b, BLOCK_INDEX) /\ allocated_size b BLOCK_INDEX = Ret asz /\ index_length b BLOCK_INDEX = Ret il /\ (0 < d)%nat /\ pindex c < 32 /\
  ~ present (ent_key x) ks /\
  if s32 (il + zlen x) <=? s32 asz then
    exists e b', entry c = Some e /\ ntfs_ie_insert b BLOCK_INDEX x e = Ret b' /\ add_done s (set_dirty true (set_entry (entry c) false (Some b') c)) ks None
  else exists s' c' b' st, ntfs_ib_split true past (S (Z.to_nat MAX_PARENT_VCN)) s c b = Ret (s', c', b', st) /\ split_result s s' c c' d ks vs st /\ entry c <> None.
Proof using laws fits Hbits Hbs Hdiv HM Hx HxM Hkey Hpast Hpastb.
  intros Hinv Hcx Hi (Htr & leaf & v & l & r & Hib & Hv & Eb & Epv & Hpl & Hupd) Hr. pose proof (trail_pindex _ _ _ _ _ _ _ _ _ _ _ Htr) as Epi.
  destruct (place_inserted _ _ _ _ _ _ Hpl) as (pre & es1 & es2 & le & tail & Hn & He & Hins). pose proof (tv_index _ _ _ _ _ _ _ _ _ _ Hinv) as Hix.
  unfold ctx_node. rewrite Hr, Hib. exists leaf, (zlen leaf - BLOCK_INDEX), (zlen pre - BLOCK_INDEX + zlen (concat (es1 ++ es2)) + zlen le). split; [done|].
  split; [apply (no_alloc _ _ _ _ _ _ _ Hn)|]. split; [apply (no_len _ _ _ _ _ _ _ Hn)|].
  assert (0 < d)%nat as Hd by (destruct d; [|lia]; pose proof (ix_tree _ _ _ _ _ _ _ _ _ _ Hix) as (? & ? & ? & ? & _ & _ & ->); by apply elem_of_nil in Hv).
  assert (pindex c < 32) as Hp32 by (pose proof (rd_bound _ _ _ Epv) as Hb; rewrite (cx_vcn _ _ _ Hcx) in Hb; lia). split; [done|]. split; [done|].
  assert (~ present (ent_key x) ks) as Habs by (eapply inserted_absent; [done|apply (ix_keys _ _ _ _ _ _ _ _ _ _ Hix)|exact Hins]). split; [done|].
  pose proof (tv_stored _ _ _ _ _ _ _ _ _ _ Hinv) as Fst. rewrite Forall_forall in Fst. destruct (stored_node bits M s v leaf _ _ _ _ _ (Fst v Hv) Eb Hn) as (Hbk & [Hes Hle] & Hroom).
  pose proof (bk_size _ _ _ _ Hbk) as Hzb. destruct (room_test leaf BLOCK_INDEX pre (es1 ++ es2) le tail Hn ltac:(lia)) as (-> & -> & Hfit).
  match goal with |- context [?a <=? ?b] => destruct (Z.leb_spec a b) as [Hle'|Hgt] end.
  - destruct (insert_leaf s ir d ks vs leaf v l r pre es1 es2 le tail Hinv Eb Hv Hn (proj1 Hfit Hle') Hins) as (b' & Eb' & Hw).
    { intros leaf' pre' es' le' tail' Hn' Hnd. by apply (Hupd leaf' pre' es' le' tail'). }
    exists (zlen (pre ++ concat es1)), b'. split; [done|]. split; [done|]. right. right. right. split; [done|]. split; [done|]. eexists ir, d, _, vs. split; [exact Hins|]. right.
    split; [done|]. split; [by cbn; rewrite He|]. split; [done|]. exists b'. split; [done|]. apply Hw. apply (cx_bits _ _ _ Hcx).
  - destruct (block_split_ok bits get_collate cluster_size cluster_size_bits M true past Hbits Hbs Hdiv HM Hpast Hpastb (S (Z.to_nat MAX_PARENT_VCN)) d s c c i ir d ks vs v leaf false pre (es1 ++ es2) le tail)
      as (s' & c' & b' & st & E & Hres); try done.
    + unfold MAX_PARENT_VCN. lia.
    + apply (cx_size _ _ _ Hcx).
    + apply (cx_bits _ _ _ Hcx).
    + by rewrite <- Epi.
    + intros E. rewrite E in *. cbn [concat] in *. change (zlen (@nil Z)) with 0 in *. unfold BLOCK_INDEX in *. lia.
    + exists s', c', b', st. split; [exact E|]. split; [done|]. by rewrite He.
Qed.

(** A round of the loop ends it, or makes progress. *)
Lemma round_ok s c ir d ks vs : tree_inv s ir d ks vs -> ctx_start c ->
  (exists s' c' r, (forall fuel, ie_add (S fuel) s c x = Ret (s', c', r)) /\ add_done s' c' ks r) \/
  (~ root_room ir d /\ exists s' c' ir' d' vs', (forall fuel, ie_add (S fuel) s c x = ie_add fuel s' c' x) /\
     tree_inv s' ir' d' ks vs' /\ ctx_start c' /\ ((length vs < length vs')%nat \/ root_room ir' d')).
Proof using laws fits Hbits Hbs Hdiv HM Hx HxM Hkey Hkpos Hpast Hpastb.
  intros Hinv Hc. pose proof (tv_index _ _ _ _ _ _ _ _ _ _ Hinv) as Hix. destruct (ent_key_mid false false x Hx [] [] eq_refl) as (rest & Ekl & Edr). rewrite app_nil_r in Ekl, Edr. cbn [app] in Ekl, Edr.
  change (zlen (@nil Z)) with 0 in Ekl, Edr. change (Z.to_nat (0 + 16)) with 16%nat in Edr.
  destruct (lookup_ok s bs bits rest get_collate cluster_size cluster_size_bits c ir d ks vs (ent_key x) Hix Hkey Hkpos (cs_pos _ Hc) (cs_vcn _ Hc) (cs_index _ Hc)) as (c1 & r & Elk & Hcx & Hcase).
  pose proof (lookup_dirty _ _ _ _ _ _ _ _ _ _ Elk) as Edirty. rewrite (cs_dirty _ Hc) in Edirty.
  assert (forall fuel, ie_add (S fuel) s c x = let! (c, err) := Ret (c1, r) in
    match err with
    | None => Ret (s, c, Some EEXIST)
    | Some e =>
      if decide (e = ENOENT) then
        let! (b, h) := ctx_node s c in
        let! asz := allocated_size b h in
        let! il := index_length b h in
        let new_size := s32 (il + zlen x) in
        if new_size <=? s32 asz then
          match entry c with
          | None => Fault
          | Some e =>
            let! b := ntfs_ie_insert b h x e in
            if is_in_root c then Ret (ir_put s b, c, None)
            else Ret (s, set_dirty true (set_entry (entry c) false (Some b) c), None)
          end
        else
          let! (s, c, ret) :=
            (if is_in_root c then let! (s, ret) := ntfs_ir_make_space true s c new_size in Ret (s, c, ret)
             else let! (s, c, b, ret) := ntfs_ib_split true past (S (Z.to_nat MAX_PARENT_VCN)) s c b in Ret (s, set_entry (entry c) false (Some b) c, ret)) in
          match ret with
          | STATUS_ERROR => Ret (s, c, Some EUNSET)
          | _ => let! (s, c) := ntfs_index_ctx_reinit s c in ie_add fuel s c x
          end
      else Ret (s, c, Some e)
    end) as Hround.
  { intros fuel. cbn [ntfs_ie_add]. rewrite Ekl. cbn [obind]. rewrite Edr, Elk. cbn [obind]. destruct r as [e|]; [|done]. destruct (decide (e = ENOENT)); [|done].
    destruct (ctx_node s c1) as [[b h]| |]; cbn [obind]; [|done..]. destruct (allocated_size b h) as [asz| |]; cbn [obind]; [|done..]. destruct (index_length b h) as [il| |]; cbn [obind]; [|done..].
    rewrite (en_length _ _ _ Hx). done. }
  cbn [obind] in Hround. destruct Hcase as [[-> _]|[[-> Hfound]|[-> Hplace]]].
  - left. exists s, c1, (Some EOPNOTSUPP). split; [intros fuel; by rewrite Hround|]. right. right. by left.
  - left. exists s, c1, (Some EEXIST). split; [intros fuel; by rewrite Hround|]. left. split; [done|].
    destruct Hfound as [(_ & nd & p & e1 & y & e2 & le & tl & _ & _ & Hy & Hin)|(_ & b & _ & nd & p & e1 & y & e2 & le & tl & _ & _ & Hy & Hin)]; by exists (ent_key y).
  - destruct Hplace as [(Hr & -> & Epi & Hpl)|[Hr Hpl]].
    + destruct (round_root s c1 ir ks vs Hinv) as (b & asz & il & E1 & E2 & E3 & Hres); try done.
      { constructor; [apply (cx_pos _ _ _ Hcx)|apply (cx_vcn _ _ _ Hcx)|rewrite Epi; apply (cs_index _ Hc)|done]. }
      assert (~ present (ent_key x) ks) as Habs.
      { destruct (place_inserted _ _ _ _ _ _ Hpl) as (? & ? & ? & ? & ? & _ & _ & Hins). eapply inserted_absent; [done|apply (ix_keys _ _ _ _ _ _ _ _ _ _ Hix)|exact Hins]. }
      destruct (s32 (il + zlen x) <=? s32 asz) eqn:Efit.
      * destruct Hres as (e & b' & Ee & Ei & Hdone). left. exists (ir_put s b'), c1, None. split; [|done]. intros fuel. rewrite Hround, decide_True by done.
        rewrite E1. cbn [obind]. rewrite E2, E3. cbn [obind]. cbn zeta. rewrite Efit, Ee, Ei. cbn [obind]. by rewrite Hr.
      * destruct Hres as (Hroom & s' & st & Ems & Hst).
        assert (forall fuel, ie_add (S fuel) s c x = match st with STATUS_ERROR => Ret (s', c1, Some EUNSET) | _ => ie_add fuel s' c1 x end) as Hround'.
        { intros fuel. rewrite Hround, decide_True by done. rewrite E1. cbn [obind]. rewrite E2, E3. cbn [obind]. cbn zeta. rewrite Efit, Hr, Ems. cbn [obind].
          unfold ntfs_index_ctx_reinit, ntfs_index_ctx_free. destruct Hpl as (? & ? & ? & ? & ? & _ & -> & _). rewrite Hr. by destruct st. }
        destruct Hst as [->|(ir' & d' & vs' & Hst & Hinv' & Hprog)].
        { left. exists s', c1, (Some EUNSET). split; [done|]. right. by left. }
        right. split; [done|]. exists s', c1, ir', d', vs'. split; [intros fuel; rewrite Hround'; by destruct Hst as [->| ->]|]. split; [done|]. split; [|done].
        constructor; [apply (cx_pos _ _ _ Hcx)|apply (cx_vcn _ _ _ Hcx)|rewrite Epi; apply (cs_index _ Hc)|done].
    + destruct (round_block s c1 (pindex c) ir d ks vs Hinv Hcx (proj1 (cs_index _ Hc)) Hpl Hr) as (b & asz & il & E1 & E2 & E3 & Hd & Hp32 & Habs & Hres).
      destruct (s32 (il + zlen x) <=? s32 asz) eqn:Efit.
      * destruct Hres as (e & b' & Ee & Ei & Hdone). left. eexists s, _, None. split; [|exact Hdone]. intros fuel. rewrite Hround, decide_True by done.
        rewrite E1. cbn [obind]. rewrite E2, E3. cbn [obind]. cbn zeta. rewrite Efit. rewrite Ee at 1. rewrite Ei. cbn [obind]. by rewrite Hr.
      * destruct Hres as (s' & c2 & b' & st & Esp & (Hsp & Hp2 & Hst) & Hent).
        set (c3 := set_entry (entry c2) false None (set_entry (entry c2) false (Some b') c2)).
        assert (forall fuel, ie_add (S fuel) s c x = match st with STATUS_ERROR => Ret (s', set_entry (entry c2) false (Some b') c2, Some EUNSET) | _ => ie_add fuel s' c3 x end) as Hround'.
        { intros fuel. rewrite Hround, decide_True by done. rewrite E1. cbn [obind]. rewrite E2, E3. cbn [obind]. cbn zeta. rewrite Efit, Hr, Esp. cbn [obind].
          unfold ntfs_index_ctx_reinit, ntfs_index_ctx_free. cbn [entry set_entry is_in_root ib ib_dirty]. rewrite (sp_entry _ _ Hsp), (sp_dirty _ _ Hsp), Edirty. destruct (entry c1) eqn:Eent; [|done].
          cbn [obind]. unfold c3. rewrite (sp_entry _ _ Hsp), Eent. by destruct st. }
        assert (st = STATUS_ERROR \/ st <> STATUS_ERROR) as [->|Hne] by (destruct st; auto).
        { left. eexists s', _, (Some EUNSET). split; [done|]. right. by left. }
        assert (exists ir' d' vs', tree_inv s' ir' d' ks vs' /\ grown s s' vs vs') as (ir' & d' & vs' & Hinv' & Hg).
        { destruct st; try done; [destruct Hst as (ir' & vs' & ? & ?); by exists ir', d, vs']. }
        right. split; [intros [-> _]; lia|]. exists s', c3, ir', d', vs'. split; [intros fuel; rewrite Hround'; by destruct st|]. split; [done|].
        split; [|left; apply (gr_more _ _ _ _ _ Hg)]. unfold c3. constructor; cbn.
        -- rewrite (sp_pos _ _ Hsp). apply (cx_pos _ _ _ Hcx).
        -- rewrite (sp_vcn _ _ Hsp). apply (cx_vcn _ _ _ Hcx).
        -- lia.
        -- by rewrite (sp_dirty _ _ Hsp).
Qed.

(** Every round but one adds blocks to the tree, and there are no more than 2^34. *)
Lemma ie_add_ok n : forall s c ir d ks vs, tree_inv s ir d ks vs -> ctx_start c ->
  root_room ir d /\ (1 <= n)%nat \/ 2 ^ 34 + 2 <= Z.of_nat (n + length vs) ->
  exists s' c' r, add_done s' c' ks r /\ forall fuel, (n <= fuel)%nat -> ie_add fuel s c x = Ret (s', c', r).
Proof using laws fits Hbits Hbs Hdiv HM Hx HxM Hkey Hkpos Hpast Hpastb.
  induction n as [|n IH]; intros s c ir d ks vs Hinv Hc Hf; pose proof (tree_count s ir d ks vs Hbits Hinv) as Hn; [lia|].
  destruct (round_ok s c ir d ks vs Hinv Hc) as [(s' & c' & r & E & Hdone)|(Hno & s' & c' & ir' & d' & vs' & E & Hinv' & Hc' & Hprog)].
  - exists s', c', r. split; [done|]. intros [|fuel] Hl; [lia|]. by rewrite E.
  - destruct (IH s' c' ir' d' ks vs' Hinv' Hc') as (s2 & c2 & r & Hdone & E2).
    { destruct Hf as [[? _]|Hf]; [done|]. destruct Hprog as [Hl|Hroom]; [right; lia|left; split; [done|lia]]. }
    exists s2, c2, r. split; [done|]. intros [|fuel] Hl; [lia|]. rewrite E. apply E2. lia.
Qed.
End Add.
