(* ===== verification/IndexAdded.v ===== *)
(** * Index trees: what an adding gives (ntfs/index.c)

    The adding of a FILE_NAME to a directory, and the attributes of an index kept in
    memory, on which the theorems are tried. *)
From stdpp Require Import sorting.
From S2P Require Import Prelude Libc Mst Device Fields Bitmap Unistr Collate Index IndexAdd IndexNode IndexOps IndexSplit IndexTree IndexInv IndexRoot IndexGrow IndexSearch IndexInsert IndexRoom IndexEntry.

(** ** The entry of a FILE_NAME *)
Lemma filename_entry_ok fn mref nl : rd fn 0x40 = Ret nl -> zlen fn = 0x42 + nl * 2 -> Forall byte_ok fn ->
  exists x, filename_entry fn mref = Ret x /\ ent_ok false false x /\ ent_key x = fn /\ zlen x = (16 + zlen fn + 7) / 8 * 8.
Proof.
  intros Enl Hz Hb. assert (byte_ok nl) as Hnl by (by apply (rd_byte fn 0x40)). unfold byte_ok in Hnl. unfold filename_entry. rewrite Enl. cbn [obind].
  replace (nl * 2 + 0x42) with (zlen fn) by lia. rewrite round8. set (n := (16 + zlen fn + 7) / 8 * 8).
  assert (16 + zlen fn <= n < 16 + zlen fn + 8) as Hn by (unfold n; pose proof (Z.div_mod (16 + zlen fn + 7) 8 ltac:(lia)); pose proof (Z.mod_pos_bound (16 + zlen fn + 7) 8 ltac:(lia)); lia).
  clearbody n. set (g0 := replicate (Z.to_nat n) 0). assert (zlen g0 = n) as Z0 by (unfold g0; rewrite zlen_replicate; lia).
  assert (fields g0 [(12, le_bytes 2 0)]) as F0.
  { split; [apply Forall_replicate; by split|]. constructor; [|constructor]. cbn [fst snd]. rewrite zlen_le_bytes. split; [lia|]. split; [lia|].
    apply list_eq_rd; [by rewrite zlen_sub by lia|]. intros i Hi. rewrite zlen_sub in Hi by lia. rewrite rd_sub by lia. destruct (Z.ltb_spec i (Z.of_nat 2)); [|lia].
    unfold g0. assert (i = 0 \/ i = 1) as [->| ->] by lia; unfold rd; cbn; rewrite lookup_replicate_2 by lia; done. }
  destruct (put_whole 8 g0 0 mref _ F0) as (g1 & -> & Z1 & F1); [lia|lia|disjoint_fields|]. cbn [obind].
  destruct (put_whole 2 g1 8 n _ F1) as (g2 & -> & Z2 & F2); [lia|lia|disjoint_fields|]. cbn [obind].
  destruct (put_whole 2 g2 10 (zlen fn) _ F2) as (g3 & -> & Z3 & F3); [lia|lia|disjoint_fields|]. cbn [obind].
  rewrite rdn_ok by lia. cbn [obind]. rewrite sub_all. rewrite wrn_ok by lia. eexists. split; [done|]. set (x := splice g3 16 fn).
  assert (zlen x = n) as Zx by (unfold x; rewrite zlen_splice; lia).
  assert (forall k i, 0 <= i -> i + Z.of_nat k <= 16 -> rd_le k x i = rd_le k g3 i) as E by (intros k i Hi Hk; unfold x; apply rd_le_splice_other; lia).
  assert (ie_key_length x 0 = Ret (zlen fn)) as Ek.
  { unfold ie_key_length. rewrite E by lia. rewrite (fields_rd_le 2 g3 _ (0 + 10) (zlen fn) F3) by in_fields. rewrite Z.mod_small; [done|]. change (256 ^ Z.of_nat 2) with 65536. lia. }
  split; [|split].
  - constructor.
    + lia.
    + unfold x. apply byte_ok_splice; [by destruct F3|done].
    + unfold ie_length. rewrite E by lia. rewrite (fields_rd_le 2 g3 _ (0 + 8) n F3) by in_fields. rewrite Zx, Z.mod_small; [done|]. change (256 ^ Z.of_nat 2) with 65536. lia.
    + exists 0. unfold ie_flags. rewrite E by lia. rewrite (fields_rd_le 2 g3 _ (0 + 12) 0 F3) by in_fields. done.
    + intros _. exists (zlen fn). split; [done|]. lia.
  - unfold ent_key. rewrite Ek. unfold x. apply sub_splice_same; lia.
  - lia.
Qed.

(** ** An index in memory *)

(** The root, the bitmap, and the blocks by position, the newest first. *)
Record index_memory := mkmem { m_root : bytes; m_bitmap : bytes; m_blocks : list (Z * bytes) }.

Definition all_bytes (b : bytes) : bool := forallb (fun x => (0 <=? x) && (x <? 256)) b.
Definition fit_to (n : Z) (b : bytes) : bytes := take (Z.to_nat n) (b ++ replicate (Z.to_nat n) 0).
#[local] Arguments all_bytes : simpl never.
#[local] Arguments fit_to : simpl never.
(** The bitmap is that of a small volume; the root leaves room for the other attributes. *)
Definition bitmap_max : Z := 4096.
Definition root_max : Z := 496.

#[export] Instance mem_attrs : index_attrs index_memory := {
  ir_get s := Ret (m_root s);
  ir_put s ir := mkmem ir (m_bitmap s) (m_blocks s);
  ia_pread s pos := match find (fun x => x.1 =? pos) (m_blocks s) with Some x => Ret x.2 | None => Fail EIO end;
  ia_pwrite s pos b := (mkmem (m_root s) (m_bitmap s) ((pos, b) :: m_blocks s), Ret tt);
  ia_open s := Ret tt;
}.

Definition set_root (s : index_memory) (n : Z) : option index_memory :=
  if (0 <=? n) && (n <=? root_max) && all_bytes (m_root s) then Some (mkmem (fit_to n (m_root s)) (m_bitmap s) (m_blocks s)) else None.

#[export] Instance mem_space : index_space index_memory := {
  bm_exist s := true;
  bm_create s x := (s, Ret tt);
  ia_exist s := true;
  ia_create s := (s, Ret tt);
  bm_readall s := if all_bytes (m_bitmap s) && (zlen (m_bitmap s) <=? bitmap_max) then Ret (m_bitmap s) else Fail EIO;
  bm_open s := Ret (zlen (m_bitmap s));
  bm_truncate s n := if (zlen (m_bitmap s) <=? n) && (n <=? bitmap_max) then (mkmem (m_root s) (fit_to n (m_bitmap s)) (m_blocks s), Ret tt) else (s, Fail ENOSPC);
  bm_pread s i := match rd (m_bitmap s) i with Ret v => Ret v | _ => Fail EIO end;
  bm_pwrite s i v := match rd (m_bitmap s) i with Ret _ => (mkmem (m_root s) (<[Z.to_nat i := v]> (m_bitmap s)) (m_blocks s), Ret tt) | _ => (s, Fail EIO) end;
  ir_open s := Ret tt;
  ir_truncate s n := match set_root s n with Some s => (s, STATUS_OK) | None => (s, STATUS_RESIDENT_ATTRIBUTE_FILLED_MFT) end;
  ir_resize s n := match set_root s n with Some s => (s, Ret tt) | None => (s, Fail ENOSPC) end;
  ir_move_away s n := (s, false);
}.

Lemma all_bytes_ok b : all_bytes b = true <-> Forall byte_ok b.
Proof.
  unfold all_bytes. rewrite forallb_forall, List.Forall_forall. split; intros H x Hx; specialize (H x Hx); unfold byte_ok in *; lia.
Qed.

Lemma zlen_fit_to n b : 0 <= n -> zlen (fit_to n b) = n.
Proof. intros. unfold fit_to, zlen. rewrite length_take, length_app, length_replicate. lia. Qed.

Lemma fit_to_ok n b : Forall byte_ok b -> Forall byte_ok (fit_to n b).
Proof. intros. apply Forall_take, Forall_app. split; [done|]. apply Forall_replicate. by split. Qed.

Lemma rd_fit_to n b i : i < n -> i < zlen b -> rd (fit_to n b) i = rd b i.
Proof.
  intros Hi Hb. unfold rd. destruct (Z.ltb_spec i 0); [done|]. unfold fit_to. rewrite lookup_take by lia. rewrite decide_True by lia. by rewrite lookup_app_l by (unfold zlen in *; lia).
Qed.

Lemma fit_to_grow n b : zlen b <= n -> fit_to n b = b ++ replicate (Z.to_nat (n - zlen b)) 0.
Proof.
  intros Hn. unfold fit_to. rewrite take_app_ge by (unfold zlen in *; lia). f_equal. rewrite take_replicate. f_equal. unfold zlen in *. lia.
Qed.

Lemma set_root_ok s n s' : set_root s n = Some s' ->
  resized (m_root s) n (m_root s') /\ m_bitmap s' = m_bitmap s /\ m_blocks s' = m_blocks s /\ n <= root_max.
Proof.
  unfold set_root. destruct (Z.leb_spec 0 n); [|done]. destruct (Z.leb_spec n root_max); [|done]. destruct (all_bytes (m_root s)) eqn:E; [|done]. cbn [andb]. intros [= <-].
  apply all_bytes_ok in E. split; [|done]. split; [by apply zlen_fit_to|]. split; [by apply fit_to_ok|]. intros i Hi Hz. by apply rd_fit_to.
Qed.

#[export] Program Instance mem_laws : index_laws mem_attrs mem_space 512.
Next Obligation. intros s ir ir' _ _. done. Qed.
Next Obligation.
  intros s pos b uo Hz Hb Hu. eexists _, _. split; [done|]. split; [done|]. intros _. split; [done|]. split; [done|]. split.
  - exists b. cbn. rewrite Z.eqb_refl. split; [done|]. by exists uo.
  - intros p Hp. cbn. by destruct (Z.eqb_spec pos p); [lia|].
Qed.
Next Obligation.
  intros s. cbn. destruct (all_bytes (m_bitmap s)) eqn:E; [|done]. destruct (Z.leb_spec (zlen (m_bitmap s)) bitmap_max) as [Hl|]; [|done]. cbn [andb]. split; [done|].
  intros bm [= <-]. apply all_bytes_ok in E. split; [done|]. unfold bitmap_max in Hl. lia.
Qed.
Next Obligation. intros s. split; [done|]. cbn. intros bm n E [= <-]. by destruct (_ && _); [injection E as <-|]. Qed.
Next Obligation.
  intros s n. cbn. destruct (Z.leb_spec (zlen (m_bitmap s)) n) as [H1|]; [destruct (Z.leb_spec n bitmap_max) as [H2|]|]; cbn [andb]; eexists _, _; (split; [done|]); (split; [done|]); (split; [done|]); (split; [done|]);
    intros bm E Hl; cbn; [|done..]. destruct (all_bytes (m_bitmap s)) eqn:Ea; [|done]. destruct (Z.leb_spec (zlen (m_bitmap s)) bitmap_max); [|done]. injection E as <-.
  rewrite zlen_fit_to by (pose proof (zlen_nonneg (m_bitmap s)); lia). apply all_bytes_ok in Ea. rewrite (proj2 (all_bytes_ok _) (fit_to_ok n _ Ea)). destruct (Z.leb_spec n bitmap_max); [|lia].
  cbn [andb]. by rewrite fit_to_grow.
Qed.
Next Obligation.
  intros s i. cbn. destruct (rd (m_bitmap s) i) as [v| |] eqn:E; (split; [done|]); intros bm w Ebm Hi; try done. intros [= <-]. destruct (_ && _); [|done]. by injection Ebm as <-.
Qed.
Next Obligation.
  intros s i v. cbn. destruct (rd (m_bitmap s) i) as [w| |] eqn:E; eexists _, _; (split; [done|]); (split; [done|]); (split; [done|]); (split; [done|]); intros bm Ebm Hi Hv; cbn; [left|by right..].
  rewrite zlen_insert. destruct (all_bytes (m_bitmap s)) eqn:Ea; [|done]. destruct (zlen (m_bitmap s) <=? bitmap_max); [|done]. injection Ebm as <-.
  rewrite (proj2 (all_bytes_ok _)); [done|]. apply Forall_insert; [by apply all_bytes_ok|done].
Qed.
Next Obligation. done. Qed.
Next Obligation. done. Qed.
Next Obligation. done. Qed.
Next Obligation.
  intros s n. cbn. destruct (set_root s n) as [s'|] eqn:E; eexists _, _; (split; [done|]); (split; [done|]); intros ir [= <-] _; [|done].
  destruct (set_root_ok _ _ _ E) as (Hr & Hbm & Hbl & _). split; [done|]. split; [intros p; cbn; by rewrite Hbl|]. split; [unfold same_bitmap; cbn; by rewrite Hbm|]. by exists (m_root s').
Qed.
Next Obligation.
  intros s n. cbn. destruct (set_root s n) as [s'|] eqn:E; eexists _, _; (split; [done|]); (split; [done|]); intros ir [= <-]; [|done].
  destruct (set_root_ok _ _ _ E) as (Hr & Hbm & Hbl & _). split; [done|]. split; [intros p; cbn; by rewrite Hbl|]. split; [unfold same_bitmap; cbn; by rewrite Hbm|]. by exists (m_root s').
Qed.
Next Obligation. intros s x. by eexists _, _. Qed.
Next Obligation. intros s. by eexists _, _. Qed.
Next Obligation. done. Qed.
Next Obligation. intros s n. eexists _, _. split; [done|]. done. Qed.

#[export] Program Instance mem_fits : resident_fits mem_space 512.
Next Obligation. intros s n s'. cbn. destruct (set_root s n) as [s2|] eqn:E; [|done]. intros _. destruct (set_root_ok _ _ _ E) as (_ & _ & _ & H). change (first_offset 512) with 24. unfold root_max in H. lia. Qed.
Next Obligation. intros s n s'. cbn. destruct (set_root s n) as [s2|] eqn:E; [|done]. intros _. destruct (set_root_ok _ _ _ E) as (_ & _ & _ & H). change (first_offset 512) with 24. unfold root_max in H. lia. Qed.

(** ** What is promised *)
Section Promises.
Context {f : COLLATE} {ord : key_order f} {St : Type} {attrs : index_attrs St} {space : index_space St} {bs : Z} {laws : index_laws attrs space bs} {fits : resident_fits space bs}.
Context (bits : Z) (get_collate : Z -> option COLLATE) (cluster_size cluster_size_bits M : Z) (past : bytes).
Notation tree_inv := (IndexInsert.tree_inv (bs := bs) bits get_collate cluster_size cluster_size_bits M).
Notation add_done := (IndexEntry.add_done (bs := bs) bits get_collate cluster_size cluster_size_bits M).

(** The sizes: of blocks, and of entries, more than one of which fit into a block; and the
    eight bytes that [realloc] reads behind an entry are there. *)
Record sizes_ok : Prop := {
  so_bits : 0 <= bits;
  so_block : 512 <= bs < 2 ^ 15;
  so_div : bs mod 2 ^ bits = 0;
  so_entry : 24 + first_offset bs + 32 + M <= bs;
  so_past : zlen past = 8;
  so_past_bytes : Forall byte_ok past;
}.

(** C8. With memory, adding an entry to an index ends, after at most 2^34 rounds of splitting blocks
    and growing the root: the key was there; or there was an error; or the key is in its
    place among the others in a well-formed tree, at the latest when the dirty block of the
    context is written. No access is invalid when the eight bytes behind the copy of an
    entry can be read, as [realloc] does when the entry gets room for a child (index.c:1281,
    libc.c:122-133), and when the root of the index fits into a block ([resident_fits]), which
    the code does not check when it moves the root (index.c:1009). The blocks have at least
    512 and less than 2^15 bytes, and more than one entry fits into one ([sizes_ok]). *)
Theorem index_add_ends (s : St) c ir d ks vs x :
  sizes_ok -> tree_inv s ir d ks vs -> ctx_start c -> ent_ok false false x -> zlen x + 8 <= M -> key_valid (ent_key x) -> 0 < zlen (ent_key x) ->
  exists s' c' r, add_done x s' c' ks r /\
    forall fuel, 2 ^ 34 + 2 <= Z.of_nat fuel -> ntfs_ie_add true past get_collate cluster_size cluster_size_bits fuel s c x = Ret (s', c', r).
Proof using laws fits.
  intros [] Hinv Hc Hx HM Hk Hkp.
  destruct (ie_add_ok bits get_collate cluster_size cluster_size_bits M past ltac:(done) ltac:(done) ltac:(done) ltac:(done) ltac:(done) ltac:(done) x Hx HM Hk Hkp (Z.to_nat (2 ^ 34 + 2)) s c ir d ks vs Hinv Hc)
    as (s' & c' & r & Hd & E); [right; lia|]. exists s', c', r. split; [done|]. intros fuel Hf. apply E. lia.
Qed.

(** C5. Splitting the block that a context points to, and with it every full block
    above, keeps the keys of the tree: it is well-formed afterwards, has more blocks, and no
    block that was in use is given away; otherwise an error is reported. As in C8, the
    eight bytes behind the copy of an entry can be read, the blocks have the sizes said there
    ([sizes_ok]) and the root of the index fits into a block ([resident_fits]). *)
Theorem ib_split_keeps memory (s : St) c i ir d ks vs q b nd pre es le tail :
  sizes_ok -> tree_inv s ir d ks vs -> trail s bs bits d ir ROOT_INDEX VCN_INDEX_ROOT_PARENT ks vs c i -> 0 <= i -> (1 <= d <= 33)%nat ->
  block_size c = bs -> vcn_size_bits c = bits -> ntfs_icx_parent_vcn c = Ret q -> blocks s bs bits q = Ret b -> node_ok nd b BLOCK_INDEX pre es le tail -> es <> [] ->
  exists s' c' b' st, ntfs_ib_split memory past (S (Z.to_nat MAX_PARENT_VCN)) s c b = Ret (s', c', b', st) /\ 0 <= pindex c' < pindex c /\
    (st = STATUS_OK \/ st = STATUS_KEEP_SEARCHING \/ st = STATUS_ERROR) /\
    (st <> STATUS_ERROR -> (forall k, 0 <= k -> bit_of s k = true -> bit_of s' k = true) /\
       exists ir' d' vs', tree_inv s' ir' d' ks vs' /\ (length vs < length vs')%nat /\ (st = STATUS_OK -> d' = d)).
Proof using laws fits.
  intros [] Hinv Htr Hi Hd Ebs Ebits Eq Eb Hn Hne. pose proof (trail_pindex _ _ _ _ _ _ _ _ _ _ _ Htr) as Epi.
  destruct (block_split_ok bits get_collate cluster_size cluster_size_bits M memory past ltac:(done) ltac:(done) ltac:(done) ltac:(done) ltac:(done) ltac:(done)
    (S (Z.to_nat MAX_PARENT_VCN)) d s c c i ir d ks vs q b nd pre es le tail) as (s' & c' & b' & st & E & (_ & Hp & Hst)); try done.
  { lia. }
  { unfold MAX_PARENT_VCN. lia. }
  { by rewrite <- Epi. }
  exists s', c', b', st. split; [exact E|]. split; [done|]. destruct st; try done.
  - split; [by left|]. intros _. destruct Hst as (ir' & vs' & Hinv' & Hg). split; [apply (gr_bits _ _ _ _ _ Hg)|]. exists ir', d, vs'. split; [done|]. split; [apply (gr_more _ _ _ _ _ Hg)|done].
  - split; [by right; right|done].
  - split; [by right; left|]. intros _. destruct Hst as (ir' & d' & vs' & Hinv' & Hg). split; [apply (gr_bits _ _ _ _ _ Hg)|]. exists ir', d', vs'. split; [done|].
    split; [apply (gr_more _ _ _ _ _ Hg)|done].
Qed.

(** C36. Moving the entries of the index root into a new block keeps the keys: the tree is
    well-formed, one level deeper, has that block besides those it had, and no key is left in
    its root, whose only entry leads to the new block; otherwise an error is reported. The
    root fits into a block ([resident_fits]): the code does not check that when it copies
    the entries (index.c:1009). *)
Theorem ir_reparent_keeps memory (s : St) c ir d ks vs :
  sizes_ok -> tree_inv s ir d ks vs -> block_size c = bs -> vcn_size_bits c = bits ->
  exists s' st, ntfs_ir_reparent memory s c = Ret (s', st) /\ (st = STATUS_OK \/ st = STATUS_ERROR) /\
    (st = STATUS_OK -> exists ir' v, tree_inv s' ir' (S d) ks (v :: vs) /\ v ∉ vs /\ keyless ir' v).
Proof using laws fits.
  intros [] Hinv Ebs Ebits.
  destruct (reparent_ok bits get_collate cluster_size cluster_size_bits M ltac:(done) ltac:(done) ltac:(done) ltac:(done) memory s c ir d ks vs Ebs Ebits Hinv) as (s' & st & E & Hst & Hok).
  exists s', st. split; [done|]. split; [done|]. intros Es. destruct (Hok Es) as (ir' & v & Hi & Hkl & Hg). exists ir', v. split; [done|].
  split; [by apply (NoDup_cons_1_1 v vs), (tv_nodup _ _ _ _ _ _ _ _ _ _ Hi)|done].
Qed.

(** C4. With memory, adding a file name to a directory reports EEXIST, and changes nothing, when the
    name is there; when it is not and no error is reported, the name is in its place among
    the others in a well-formed tree, unless the block with it could not be written, which
    is not reported. The tree has less than 32 levels. As in C8, the eight bytes behind the copy
    of an entry can be read, the blocks have the sizes said there ([sizes_ok]) and the root
    of the index fits into a block ([resident_fits]). *)
Theorem add_filename_spec (s : St) ir d ks vs fn nl mref :
  sizes_ok -> tree_inv s ir d ks vs -> (d < 32)%nat -> key_valid fn -> rd fn 0x40 = Ret nl -> zlen fn = 0x42 + nl * 2 -> Forall byte_ok fn -> zlen fn + 31 <= M ->
  let add fuel := ntfs_index_add_filename true past get_collate cluster_size cluster_size_bits fuel s fn mref in
  (present fn ks -> forall fuel, add (S fuel) = Ret (s, Some EEXIST)) /\
  (~ present fn ks -> exists s1 c1 r, forall fuel, 2 ^ 34 + 2 <= Z.of_nat fuel ->
     add fuel = (let! s2 := ntfs_index_ctx_put s1 c1 in Ret (s2, r)) /\ (r = Some EUNSET \/ r = Some EOPNOTSUPP \/
     r = None /\ exists s2 ks', ntfs_index_ctx_put s1 c1 = Ret s2 /\ inserted fn ks ks' /\
       ((exists ir' d' vs', tree_inv s2 ir' d' ks' vs') \/ exists b e, ntfs_ib_write s1 c1 b = (s2, Fail e)))).
Proof using laws fits.
  intros [] Hinv Hd Hk Enl Hz Hb HM add. destruct (filename_entry_ok fn mref nl Enl Hz Hb) as (x & Ex & Hx & Ekey & Hzx).
  assert (zlen x + 8 <= M) as HxM by (pose proof (Z.div_mod (16 + zlen fn + 7) 8 ltac:(lia)); pose proof (Z.mod_pos_bound (16 + zlen fn + 7) 8 ltac:(lia)); lia).
  assert (ctx_start new_context) as Hc by done. pose proof (rd_byte fn 0x40 nl Hb Enl) as Hnl. unfold byte_ok in Hnl. pose proof (tv_index _ _ _ _ _ _ _ _ _ _ Hinv) as Hix.
  assert (forall fuel, add fuel = let! (s1, c1, r) := ntfs_ie_add true past get_collate cluster_size cluster_size_bits fuel s new_context x in let! s2 := ntfs_index_ctx_put s1 c1 in Ret (s2, r)) as Eadd.
  { intros fuel. unfold add, ntfs_index_add_filename. by rewrite Ex. }
  split; intros Hpr.
  - intros fuel. rewrite Eadd. destruct (ent_key_mid false false x Hx [] [] eq_refl) as (rest & Ekl & Edr). rewrite app_nil_r in Ekl, Edr. cbn [app] in Ekl, Edr.
    change (zlen (@nil Z)) with 0 in Ekl, Edr. change (Z.to_nat (0 + 16)) with 16%nat in Edr. rewrite Ekey in Ekl, Edr.
    destruct (lookup_ok s bs bits rest get_collate cluster_size cluster_size_bits new_context ir d ks vs fn Hix Hk ltac:(lia) eq_refl eq_refl ltac:(cbn; lia)) as (c1 & r & Elk & Hcx & Hcase).
    pose proof (lookup_dirty _ _ _ _ _ _ _ _ _ _ Elk) as Edirty.
    assert (r = None /\ (is_in_root c1 = true \/ exists b, ib c1 = Some b)) as [-> Hib].
    { destruct Hcase as [[_ H]|[[-> Hf]|[-> Hf]]]; [cbn in H; lia| |exfalso].
      - split; [done|]. destruct Hf as [[? _]|(_ & b & Eb & _)]; [by left|right; by exists b].
      - rewrite <- Ekey in Hpr. destruct Hf as [(_ & _ & _ & Hpl)|(_ & _ & leaf & v & l & r & _ & _ & _ & _ & Hpl & _)]; rewrite <- Ekey in Hpl;
          destruct (place_inserted x _ _ _ _ _ _ Hpl) as (? & ? & ? & ? & ? & _ & _ & Hins); (eapply inserted_absent; [|apply (ix_keys _ _ _ _ _ _ _ _ _ _ Hix)|exact Hins|exact Hpr]); by rewrite Ekey. }
    cbn [ntfs_ie_add]. rewrite Ekl. cbn [obind]. rewrite Edr, Elk. cbn [obind]. unfold ntfs_index_ctx_put, ntfs_index_ctx_free. destruct (entry c1); [|done].
    destruct Hib as [-> |[b ->]]; [done|]. destruct (is_in_root c1); [done|]. by rewrite Edirty.
  - destruct (index_add_ends s new_context ir d ks vs x) as (s1 & c1 & r & Hdone & E); try done; [by rewrite Ekey|rewrite Ekey; lia|].
    exists s1, c1, r. intros fuel Hf. rewrite Eadd, E by done. cbn [obind]. split; [done|]. rewrite <- Ekey in Hpr |- *.
    destruct Hdone as [[_ Hp]|[[_ ->]|[->|(-> & _ & ir' & d' & ks' & vs' & Hins & Hst)]]]; [done|by left|by right; left|]. right. right. split; [done|].
    destruct Hst as [(Er & He & Hinv')|(Er & He & Edt & b & Eib & s2 & w & Ew & Hw & Hok)].
    + exists s1, ks'. split; [|split; [done|]; left; by exists ir', d', vs']. unfold ntfs_index_ctx_put, ntfs_index_ctx_free. rewrite Er. by destruct (entry c1).
    + exists s2, ks'. split; [|split; [done|]].
      * unfold ntfs_index_ctx_put, ntfs_index_ctx_free. destruct (entry c1); [|done]. rewrite Er, Eib, Edt, Ew. cbn [undo]. by destruct w as [[]| |].
      * destruct w as [[]|e|]; [left; by exists ir', d', vs'; apply Hok|right; by exists b, e|done].
Qed.
End Promises.

(** ** The promises on small indexes *)
Definition mem0 : index_memory := mkmem small_root [3; 0; 0; 0; 0; 0; 0; 0] [(0, small_block 0 10 20); (512, small_block 1 60 70)].
Notation mem_inv gc := (tree_inv (bs := 512) 9 gc 512 9 400).

Lemma small_sized_ok vcn k1 k2 : In (vcn, k1, k2) [(0, 10, 20); (1, 60, 70)] -> blocks mem0 512 9 vcn = Ret (small_block vcn k1 k2) -> stored (bs := 512) 9 400 mem0 vcn.
Proof.
  intros H E. exists false, (small_block vcn k1 k2), (small_block_head vcn 104). eexists _, _, _. split; [done|]. split; [|split; [by apply small_block_ok|]].
  - destruct H as [[= <- <- <-]|[[= <- <- <-]|[]]]; (constructor; [reflexivity|eexists; split; reflexivity|exists 40; split; [reflexivity|]; split; [reflexivity|]; vm_compute; split; discriminate|reflexivity]).
  - destruct H as [[= <- <- <-]|[[= <- <- <-]|[]]]; (split; [split; [repeat (apply Forall_cons; split; [vm_compute; discriminate|]); apply Forall_nil; exact I|vm_compute; discriminate]|vm_compute; discriminate]).
Qed.

Lemma mem0_inv : mem_inv ulong_rule mem0 small_root 1 small_keys [0; 1].
Proof.
  constructor.
  - by apply small_index_at.
  - eexists true, _, _, _, _. split; [exact small_root_ok|]. split; [split; [repeat (apply Forall_cons; split; [vm_compute; discriminate|]); apply Forall_nil; exact I|vm_compute; discriminate]|vm_compute; discriminate].
  - apply (bool_decide_unpack (NoDup [0; 1])). by vm_compute.
  - constructor; [exists 0|constructor; [exists 1|constructor]]; (split; [split; [lia|]; split; [lia|reflexivity]|reflexivity]).
  - constructor; [apply (small_sized_ok 0 10 20); [by left|reflexivity]|constructor; [apply (small_sized_ok 1 60 70); [by right; left|reflexivity]|constructor]].
Qed.

Lemma mem_sizes : sizes_ok (bs := 512) 9 400 (replicate 8 0).
Proof. constructor; [lia|lia|reflexivity|vm_compute; discriminate|reflexivity|by apply bytes_checked; vm_compute]. Qed.

(** When the bytes behind the copy of an entry cannot be read, [realloc] leaves the block. *)
Example add_vcn_overread : ntfs_ie_add_vcn [] (small_entry (le_bytes 4 15) 0 []) = Fault.
Proof. by vm_compute. Qed.

Lemma index_add_ends_witness : exists s' c' r, add_done (bs := 512) 9 ulong_rule 512 9 400 (small_entry (le_bytes 4 15) 0 []) s' c' small_keys r /\
  forall fuel, 2 ^ 34 + 2 <= Z.of_nat fuel -> ntfs_ie_add true (replicate 8 0) ulong_rule 512 9 fuel mem0 new_context (small_entry (le_bytes 4 15) 0 []) = Ret (s', c', r).
Proof.
  apply (index_add_ends 9 ulong_rule 512 9 400 (replicate 8 0) mem0 new_context small_root 1 small_keys [0; 1]);
    [exact mem_sizes|exact mem0_inv|constructor; cbn; (reflexivity || lia)|check_entry|vm_compute; discriminate|reflexivity|reflexivity].
Defined.

(** A context in the first leaf. *)
Definition leaf_context : ntfs_index_context := mkicx (Some 64) (Some ntfs_collate_ntofs_ulong) false (Some (small_block 0 10 20)) (replicate 32 0) (-2 :: replicate 31 0) 1 false 512 9.

Lemma leaf_context_trail : trail mem0 512 9 1 small_root ROOT_INDEX VCN_INDEX_ROOT_PARENT small_keys [0; 1] leaf_context 0.
Proof.
  split; [reflexivity|]. exists (take 32 small_root), [], [small_entry (le_bytes 4 50) 1 (le_bytes 8 0)], (small_entry [] 3 (le_bytes 8 1)), [], [], [le_bytes 4 10; le_bytes 4 20], [],
    [([le_bytes 4 60; le_bytes 4 70], [])], (small_block 0 10 20). split; [exact small_root_ok|]. split; [|split_and!; try reflexivity; split; reflexivity].
  constructor; [|constructor; [|constructor]].
  - split; [vm_compute; discriminate|]. exists (small_block 0 10 20). split; [reflexivity|]. eexists _, _, _, _. split; [apply small_block_ok; by left|split; reflexivity].
  - split; [vm_compute; discriminate|]. exists (small_block 1 60 70). split; [reflexivity|]. eexists _, _, _, _. split; [apply small_block_ok; by right; left|split; reflexivity].
Qed.

Lemma ib_split_keeps_witness : exists s' c' b' st,
  ntfs_ib_split true (replicate 8 0) (S (Z.to_nat MAX_PARENT_VCN)) mem0 leaf_context (small_block 0 10 20) = Ret (s', c', b', st) /\ 0 <= pindex c' < 1 /\
    (st = STATUS_OK \/ st = STATUS_KEEP_SEARCHING \/ st = STATUS_ERROR) /\
    (st <> STATUS_ERROR -> (forall k, 0 <= k -> bit_of mem0 k = true -> bit_of s' k = true) /\
       exists ir' d' vs', mem_inv ulong_rule s' ir' d' small_keys vs' /\ (2 < length vs')%nat /\ (st = STATUS_OK -> d' = 1%nat)).
Proof.
  apply (ib_split_keeps 9 ulong_rule 512 9 400 (replicate 8 0) true mem0 leaf_context 0 small_root 1 small_keys [0; 1] 0 (small_block 0 10 20) false (small_block_head 0 104)
    [small_entry (le_bytes 4 10) 0 []; small_entry (le_bytes 4 20) 0 []] (small_entry [] 2 []) (replicate 384 0));
    [exact mem_sizes|exact mem0_inv|exact leaf_context_trail|lia|lia|reflexivity|reflexivity|reflexivity|reflexivity|apply small_block_ok; by left|discriminate].
Defined.

Lemma ir_reparent_keeps_witness : exists s' st, ntfs_ir_reparent true mem0 leaf_context = Ret (s', st) /\ (st = STATUS_OK \/ st = STATUS_ERROR) /\
    (st = STATUS_OK -> exists ir' v, mem_inv ulong_rule s' ir' 2 small_keys [v; 0; 1] /\ v ∉ [0; 1] /\ keyless ir' v).
Proof.
  apply (ir_reparent_keeps 9 ulong_rule 512 9 400 (replicate 8 0) true mem0 leaf_context small_root 1 small_keys [0; 1]); [exact mem_sizes|exact mem0_inv|reflexivity|reflexivity].
Defined.

(** An empty directory. *)
Definition dir_collate : COLLATE := ntfs_collate_file_name [] 0.
#[export] Instance dir_order : key_order dir_collate := file_name_order [] 0 (zlen_nonneg []).
Definition dir_rule (rule : Z) : option COLLATE := if rule =? 1 then Some dir_collate else None.
Definition dir_root : bytes := replicate 4 0 ++ le_bytes 4 1 ++ le_bytes 4 512 ++ [1; 0; 0; 0] ++ small_header 16 32 32 0 ++ small_entry [] 2 [].
Definition empty_dir : index_memory := mkmem dir_root [] [].

Lemma dir_root_ok : node_ok false dir_root ROOT_INDEX (take 32 dir_root) [] (small_entry [] 2 []) [].
Proof. check_node. Qed.

Lemma empty_dir_inv : mem_inv dir_rule empty_dir dir_root 0 [] [].
Proof.
  constructor.
  - constructor; try done; [exists 1; split; reflexivity|eexists _, _, _, _; split; [exact dir_root_ok|by split]|split; constructor].
  - eexists false, _, _, _, _. split; [exact dir_root_ok|]. split; [split; [constructor|vm_compute; discriminate]|vm_compute; discriminate].
  - constructor.
  - constructor.
  - constructor.
Qed.

Lemma add_filename_spec_witness : let fn := file_name_attr (replicate 64 0) 1 [97; 98] [] in
  exists s1 c1 r, forall fuel, 2 ^ 34 + 2 <= Z.of_nat fuel ->
     ntfs_index_add_filename true (replicate 8 0) dir_rule 512 9 fuel empty_dir fn 30 = (let! s2 := ntfs_index_ctx_put s1 c1 in Ret (s2, r)) /\
     (r = Some EUNSET \/ r = Some EOPNOTSUPP \/
      r = None /\ exists s2 ks', ntfs_index_ctx_put s1 c1 = Ret s2 /\ inserted fn [] ks' /\
       ((exists ir' d' vs', mem_inv dir_rule s2 ir' d' ks' vs') \/ exists b e, ntfs_ib_write s1 c1 b = (s2, Fail e))).
Proof.
  intros fn. apply (add_filename_spec 9 dir_rule 512 9 400 (replicate 8 0) empty_dir dir_root 0 [] [] fn 2 30);
    [exact mem_sizes|exact empty_dir_inv|lia|exists (replicate 64 0), 1, [97; 98]; split; [reflexivity|split; [by repeat constructor|reflexivity]]|reflexivity|reflexivity|by apply bytes_checked; vm_compute|vm_compute; discriminate|].
  intros (k & Hk & _). by apply elem_of_nil in Hk.
Defined.

(** The code, run on this directory and on the index of two leaves. *)
Example add_to_empty : match ntfs_index_add_filename true (replicate 8 0) dir_rule 512 9 3 empty_dir (file_name_attr (replicate 64 0) 1 [97; 98] []) 30 with
  | Ret (s, None) => match ntfs_index_lookup true dir_rule 512 9 s new_context (file_name_attr (replicate 64 0) 0 [97; 98] []) 70 with Ret (_, None) => true | _ => false end
  | _ => false
  end = true.
Proof. vm_compute. reflexivity. Qed.
