(* ===== verification/IndexWalk.v ===== *)
(** * Index trees: walking in order (ntfs/index.c)

    [ntfs_index_next] goes from an entry to the next one: down into the child behind it,
    on in the same node, or up to the first parent with an entry that was not visited.
    The entries come in the order of the keys, each one once. *)
From stdpp Require Import sorting.
From S2P Require Import Prelude Libc Fields Collate Index IndexNode IndexTree IndexSearch IndexAdd.

Section Walk.
Context {St : Type} {attrs : index_attrs St}.

(** index.c:1932-1957 ntfs_index_walk_down. The loop from the entry at [ie] of the node of
    the context; [memory]: whether the block of the first round is allocated.  Where a
    block cannot be read, the contents of the buffer are not modelled. *)
Fixpoint walk_down (fuel : nat) (memory : bool) (s : St) (c : ntfs_index_context) (ie : Z) : outcome (ntfs_index_context * option Z) :=
  match fuel with
  | O => Fault
  | S fuel' =>
    let! (b, _) := ctx_node s c in
    let! vcn := ntfs_ie_get_vcn b ie in
    if is_in_root c && negb memory then Fault else
    let c := if is_in_root c then set_pindex 1 (set_entry (entry c) false (Some []) c) else set_pindex (pindex c + 1) c in
    let! c := store_pos c 0 in
    let! c := store_vcn c vcn in
    match ntfs_ib_read s c vcn with
    | Fault => Fault
    | Fail _ => Ret (c, None)
    | Ret b =>
      let! e := ntfs_ie_get_first b BLOCK_INDEX in
      let c := set_entry (Some e) false (Some b) c in
      let! f := ie_flags b e in
      if negb (Z.land f INDEX_ENTRY_NODE =? 0) then walk_down fuel' memory s c e else Ret (c, Some e)
    end
  end.
(** index.c:1927-1959 ntfs_index_walk_down. A level for every round: the array of the
    parents has 32. *)
Definition ntfs_index_walk_down (memory : bool) (s : St) (c : ntfs_index_context) (ie : Z) : outcome (ntfs_index_context * option Z) :=
  walk_down (Z.to_nat MAX_PARENT_VCN) memory s c ie.

(** index.c:1977-2003 ntfs_index_walk_up. The node at the level of the context and the
    entry whose child was left; [None] when it cannot be read. *)
Definition parent_entry (s : St) (c : ntfs_index_context) : outcome (ntfs_index_context * option Z) :=
  let! pos := ntfs_icx_parent_pos c in
  if pindex c =? 0 then
    let c := set_entry (entry c) true None c in
    match ir_get s with
    | Fault => Fault
    | Fail _ => Ret (set_entry None true None c, None)
    | Ret ir => let! e := ntfs_ie_get_by_pos ir ROOT_INDEX pos in Ret (set_entry (Some e) true None c, Some e)
    end
  else
    let! vcn := ntfs_icx_parent_vcn c in
    match ntfs_ib_read s c vcn with
    | Fault => Fault
    | Fail _ => Ret (set_entry None false (ib c) c, None)
    | Ret b => let! e := ntfs_ie_get_by_pos b BLOCK_INDEX pos in Ret (set_entry (Some e) false (Some b) c, Some e)
    end.

Definition is_end (s : St) (c : ntfs_index_context) (e : Z) : outcome bool :=
  let! (b, _) := ctx_node s c in let! f := ie_flags b e in Ret (negb (Z.land f INDEX_ENTRY_END =? 0)).

(** index.c:1974-2006 ntfs_index_walk_up. The loop; [n] is the level. *)
Fixpoint walk_up (n : nat) (s : St) (c : ntfs_index_context) : outcome (ntfs_index_context * option Z) :=
  match n with
  | O => Ret (c, None)
  | S n' =>
    let! (c, entry) := parent_entry s (set_pindex (pindex c - 1) c) in
    match entry with
    | None => Ret (c, None)
    | Some e =>
      let! last := (if 0 <? pindex c then is_end s c e else Ret false) in
      if last : bool then walk_up n' s c else Ret (c, Some e)
    end
  end.
(** index.c:1967-2010 ntfs_index_walk_up *)
Definition ntfs_index_walk_up (s : St) (c : ntfs_index_context) : outcome (ntfs_index_context * option Z) :=
  if 0 <? pindex c then walk_up (Z.to_nat (pindex c)) s c else Ret (c, None).

(** index.c:2041-2082 ntfs_index_next. The next entry in the node of the context, [None]
    for NULL. *)
Definition ntfs_index_next (memory : bool) (s : St) (c : ntfs_index_context) (ie : Z) : outcome (ntfs_index_context * option Z) :=
  let! last := is_end s c ie in
  let! (c, next) :=
    (if last : bool then ntfs_index_walk_up s c
     else
       let! (b, _) := ctx_node s c in
       let! next := ntfs_ie_get_next b ie in
       let! pos := ntfs_icx_parent_pos c in
       let! c := store_pos c (pos + 1) in
       let! flags := ie_flags b next in
       if negb (Z.land flags INDEX_ENTRY_NODE =? 0) then ntfs_index_walk_down memory s c next
       else if negb (Z.land flags INDEX_ENTRY_END =? 0) then ntfs_index_walk_up s c
       else Ret (c, Some next)) in
  match next with
  | None => Ret (c, None)
  | Some e => let! last := is_end s c e in Ret (c, if last : bool then None else Some e)
  end.

Context (get_collate : Z -> option COLLATE) (cluster_size cluster_size_bits : Z) (memory : bool).

(** security.c:5021-5029 ntfs_read_sii. The next entry: a lookup of a key that is not
    supposed to be found when there is no entry yet. *)
Definition read_entry (key : bytes) (s : St) (c : ntfs_index_context) (e : option Z) : outcome (ntfs_index_context * option Z) :=
  match e with
  | Some e => ntfs_index_next memory s c e
  | None =>
    let! (c, err) := ntfs_index_lookup memory get_collate cluster_size cluster_size_bits s c key (zlen key) in
    Ret (c, match err with Some e => if decide (e = ENOENT) then entry c else None | None => None end)
  end.
(** security.c:5009-5037 ntfs_read_sii *)
Definition ntfs_read_sii : St -> ntfs_index_context -> option Z -> outcome (ntfs_index_context * option Z) := read_entry (replicate 4 0).
(** security.c:5045-5073 ntfs_read_sdh *)
Definition ntfs_read_sdh : St -> ntfs_index_context -> option Z -> outcome (ntfs_index_context * option Z) := read_entry (replicate 8 0).

(** The key of the entry at [e], and the keys that a caller gets who calls one of these
    until there is no entry. *)
Definition key_at (s : St) (c : ntfs_index_context) (e : Z) : outcome bytes :=
  let! (b, _) := ctx_node s c in let! n := ie_key_length b e in rdn b (e + 16) n.
Fixpoint read_all (n : nat) (read : ntfs_index_context -> option Z -> outcome (ntfs_index_context * option Z)) (s : St) (c : ntfs_index_context) (e : option Z) : outcome (list bytes) :=
  match n with
  | O => Fault
  | S n' =>
    let! (c, r) := read c e in
    match r with
    | None => Ret []
    | Some e => let! k := key_at s c e in let! ks := read_all n' read s c (Some e) in Ret (k :: ks)
    end
  end.
End Walk.

(** ** The position of a context in the tree *)
Section Cursor.
Context {f : COLLATE} {ord : key_order f} {St : Type} {attrs : index_attrs St}.
Context (s : St) (bs bits : Z).
Notation blk_of := (blocks s bs bits).

(** The trees below the entries of a node. *)
Definition kids (d : nat) (es : list bytes) (subs : list (list bytes * list Z)) : Prop :=
  Forall2 (fun x sub => 0 <= ent_vcn x /\ exists blk, blk_of (ent_vcn x) = Ret blk /\ tree_at blk_of d blk BLOCK_INDEX sub.1 sub.2) es subs.

(** Every leaf has an entry. *)
Fixpoint full (d : nat) (b : bytes) (h : Z) : Prop :=
  match d with
  | O => forall pre es le tail, node_ok false b h pre es le tail -> es <> []
  | S d' => forall pre es le tail x blk, node_ok true b h pre es le tail -> x ∈ es ++ [le] -> blk_of (ent_vcn x) = Ret blk -> full d' blk BLOCK_INDEX
  end.

(** The parents in the context, above level [i], lead from the root to a node at the
    depth [d] of its leaves; [R]: the keys of the tree behind those of the node. *)
Inductive on_path (c : ntfs_index_context) (ir : bytes) : nat -> nat -> bytes -> Z -> list bytes -> Prop :=
| path_root d ks vs : tree_at blk_of d ir ROOT_INDEX ks vs -> (d = 0%nat \/ full d ir ROOT_INDEX) -> on_path c ir 0 d ir ROOT_INDEX []
| path_kid i d b h R pre es1 es2 le tail e es3 t1 k w t2 blk :
    on_path c ir i (S d) b h R -> node_ok true b h pre (es1 ++ es2) le tail -> es2 ++ [le] = e :: es3 ->
    kids d ((es1 ++ es2) ++ [le]) (t1 ++ (k, w) :: t2) -> length t1 = length es1 ->
    rd (parent_pos c) (Z.of_nat i) = Ret (Z.of_nat (length es1)) -> rd (parent_vcn c) (Z.of_nat (S i)) = Ret (ent_vcn e) -> blk_of (ent_vcn e) = Ret blk ->
    on_path c ir (S i) d blk BLOCK_INDEX (weave_right (map ent_key es2) (map fst t2) ++ R).

Lemma path_full c ir i d b h R : on_path c ir i d b h R -> i = 0%nat /\ d = 0%nat \/ full d b h.
Proof using.
  induction 1 as [d ks vs _ [->|H]|i d b h R pre es1 es2 le tail e es3 t1 k w t2 blk _ [[_ ?]|IH] Hn Ee _ _ _ _ Eb]; [by left|by right|done|].
  right. eapply IH; [done| |done]. rewrite <- (assoc_L (++)), Ee. apply elem_of_app. right. apply elem_of_cons. by left.
Qed.

(** Contexts with the same parents, down to the node. *)
Definition same_path (i : nat) (c c' : ntfs_index_context) : Prop :=
  (forall j, (j < i)%nat -> rd (parent_pos c') (Z.of_nat j) = rd (parent_pos c) (Z.of_nat j)) /\
  (forall j, (0 < j <= i)%nat -> rd (parent_vcn c') (Z.of_nat j) = rd (parent_vcn c) (Z.of_nat j)).

Lemma path_same c c' ir i d b h R : same_path i c c' -> on_path c ir i d b h R -> on_path c' ir i d b h R.
Proof using.
  intros Hs H. induction H as [d ks vs Ht Hf|i d b h R pre es1 es2 le tail e es3 t1 k w t2 blk H IH Hn Ee Hk Hl Ep Ev Eb]; [by econstructor|].
  destruct Hs as [Hp Hv]. eapply path_kid; try done.
  - apply IH. split; intros j Hj; [apply Hp|apply Hv]; lia.
  - by rewrite Hp by lia.
  - by rewrite Hv by lia.
Qed.

Lemma same_path_pos i c l : (forall j, (j < i)%nat -> rd l (Z.of_nat j) = rd (parent_pos c) (Z.of_nat j)) -> same_path i c (set_pos l c).
Proof using. by split. Qed.

(** The node that a context is in. *)
Record in_node (c : ntfs_index_context) (ir : bytes) (i d : nat) (b : bytes) (h : Z) (R : list bytes) : Prop := {
  in_path : on_path c ir i d b h R;
  in_level : pindex c = Z.of_nat i;
  in_bytes : ctx_node s c = Ret (b, h);
  in_root : is_in_root c = bool_decide (i = 0%nat);
  in_ctx : ctx_ok (f := f) bs bits c;
  in_deep : (i + d < 32)%nat;
}.

(** The context is at the entry [x] at [ie], and [R] are the keys behind it. *)
Definition cursor (c : ntfs_index_context) (ir : bytes) (ie : Z) (x : bytes) (R : list bytes) : Prop :=
  exists i d b h R0 pre es1 es2 le tail, in_node c ir i d b h R0 /\ node_ok (negb (d =? 0)%nat) b h pre (es1 ++ x :: es2) le tail /\
    ie = zlen (pre ++ concat es1) /\
    match d with
    | O => R = map ent_key es2 ++ R0
    | S d' => exists t1 t t2, kids d' ((es1 ++ x :: es2) ++ [le]) (t1 ++ t :: t2) /\ length t1 = length es1 /\
        rd (parent_pos c) (Z.of_nat i) = Ret (Z.of_nat (length es1)) /\ R = weave (map ent_key es2) (map fst t2) ++ R0
    end.

(** ** Down *)
Lemma go_down c ir i d b h R pre es1 es2 le tail e es3 t1 k w t2 c0 :
  in_node c ir i (S d) b h R -> node_ok true b h pre (es1 ++ es2) le tail -> es2 ++ [le] = e :: es3 ->
  kids d ((es1 ++ es2) ++ [le]) (t1 ++ (k, w) :: t2) -> length t1 = length es1 -> rd (parent_pos c) (Z.of_nat i) = Ret (Z.of_nat (length es1)) ->
  parent_pos c0 = parent_pos c -> parent_vcn c0 = parent_vcn c -> pindex c0 = Z.of_nat (S i) -> ctx_ok (f := f) bs bits c0 ->
  exists c1 c2 blk, store_pos c0 0 = Ret c1 /\ store_vcn c1 (ent_vcn e) = Ret c2 /\ ntfs_ib_read s c2 (ent_vcn e) = Ret blk /\ tree_at blk_of d blk BLOCK_INDEX k w /\
    rd (parent_pos c2) (Z.of_nat (S i)) = Ret 0 /\
    forall e', in_node (set_entry e' false (Some blk) c2) ir (S i) d blk BLOCK_INDEX (weave_right (map ent_key es2) (map fst t2) ++ R).
Proof using.
  intros Hin Hn Ee Hk Hl Ep Epp Epv Epi Hc0. pose proof (in_deep _ _ _ _ _ _ _ Hin).
  destruct (store_pos_ok bs bits c0 0 Hc0) as (c1 & E1 & Hc1 & Ei1 & Ev1 & _ & Er1 & Hs1); [lia|].
  destruct (store_vcn_ok bs bits c1 (ent_vcn e) Hc1) as (c2 & E2 & Hc2 & Ei2 & Ev2 & _ & Epp2 & Hs2); [lia|].
  destruct (child_at blk_of d es1 es2 le _ Hk) as (es3' & t1' & k' & w' & t2' & blk & Ee' & Hl' & Es & Eb & Ht & _). cbn zeta in *.
  assert (match es2 with x :: _ => x | [] => le end = e) as Eeq by (destruct es2; cbn in Ee; congruence). rewrite Eeq in *.
  apply app_inj_1 in Es as [-> Es]; [|congruence]. injection Es as <- <- <-.
  exists c1, c2, blk. split; [done|]. split; [done|]. split; [by rewrite (ib_read_blocks s bs bits c2 _ Hc2)|]. split; [done|].
  assert (rd (parent_pos c2) (Z.of_nat (S i)) = Ret 0) as Er2 by (rewrite Epp2, <- Epi; done). split; [done|].
  intros e'. rewrite Ei1, Epi in *.
  assert (same_path i c (set_entry e' false (Some blk) c2)) as Hsp.
  { split; intros j Hj; cbn.
    - rewrite Epp2. destruct (Hs1 (Z.of_nat j)) as [_ ->]; [lia|]. by rewrite Epp.
    - destruct (Hs2 (Z.of_nat j)) as [-> _]; [lia|]. by rewrite Ev1, Epv. }
  constructor; [|exact Ei2|done|done|by destruct Hc2|lia].
  eapply path_kid; try done.
  - eapply path_same; [exact Hsp|apply Hin].
  - cbn. rewrite Epp2. destruct (Hs1 (Z.of_nat i)) as [_ ->]; [lia|]. by rewrite Epp.
Qed.

(** The entry at a place of a node. *)
Lemma at_place nd b h pre es1 es2 le tail :
  node_ok nd b h pre (es1 ++ es2) le tail -> let x := match es2 with x :: _ => x | [] => le end in
  exists q, b = (pre ++ concat es1) ++ x ++ q /\ ent_ok nd (match es2 with [] => true | _ => false end) x.
Proof using.
  intros Hn. rewrite (node_split _ _ _ _ _ _ _ _ Hn). destruct es2 as [|x es2]; cbn zeta.
  - exists tail. split; [done|apply Hn].
  - exists (concat es2 ++ le ++ tail). cbn [concat]. rewrite <- !(assoc_L (++)). split; [done|]. pose proof (no_entries _ _ _ _ _ _ _ Hn) as F. apply Forall_app in F as [_ F]. by apply Forall_cons in F as [F _].
Qed.

Lemma flags_at nd b h pre es1 es2 le tail : node_ok nd b h pre (es1 ++ es2) le tail ->
  exists fl, ie_flags b (zlen (pre ++ concat es1)) = Ret fl /\ (Z.land fl INDEX_ENTRY_NODE =? 0) = negb nd /\ (Z.land fl INDEX_ENTRY_END =? 0) = match es2 with [] => false | _ => true end.
Proof using.
  intros Hn. destruct (at_place _ _ _ _ _ _ _ _ Hn) as (q & -> & Hx). destruct (en_flags _ _ _ Hx) as (fl & Ef & E1 & E2). exists fl.
  rewrite ie_flags_mid by (by eapply ent_size16). split; [done|]. split; [done|]. rewrite E2. by destruct es2.
Qed.

Lemma vcn_at b h pre es1 es2 le tail e es3 : node_ok true b h pre (es1 ++ es2) le tail -> es2 ++ [le] = e :: es3 -> ntfs_ie_get_vcn b (zlen (pre ++ concat es1)) = Ret (ent_vcn e).
Proof using.
  intros Hn Ee. destruct (at_place _ _ _ _ _ _ _ _ Hn) as (q & -> & Hx). assert (match es2 with x :: _ => x | [] => le end = e) as Eeq by (destruct es2; cbn in Ee; congruence).
  rewrite Eeq in *. by apply (ent_vcn_mid _ _ _ Hx).
Qed.

Lemma is_end_at c ir i d b h R nd pre es1 es2 le tail : in_node c ir i d b h R -> node_ok nd b h pre (es1 ++ es2) le tail ->
  is_end s c (zlen (pre ++ concat es1)) = Ret (match es2 with [] => true | _ => false end).
Proof using.
  intros Hin Hn. unfold is_end. rewrite (in_bytes _ _ _ _ _ _ _ Hin). cbn [obind]. destruct (flags_at _ _ _ _ _ _ _ _ Hn) as (fl & -> & _ & E). cbn [obind]. rewrite E. by destruct es2.
Qed.

Lemma walk_down_ok d : forall fuel c ir i b h R pre es1 es2 le tail e es3 t1 k w t2, (d < fuel)%nat ->
  in_node c ir i (S d) b h R -> node_ok true b h pre (es1 ++ es2) le tail -> es2 ++ [le] = e :: es3 ->
  kids d ((es1 ++ es2) ++ [le]) (t1 ++ (k, w) :: t2) -> length t1 = length es1 -> rd (parent_pos c) (Z.of_nat i) = Ret (Z.of_nat (length es1)) ->
  exists c' ie x R', walk_down fuel true s c (zlen (pre ++ concat es1)) = Ret (c', Some ie) /\ cursor c' ir ie x R' /\ is_end s c' ie = Ret false /\
    ent_key x :: R' = k ++ weave_right (map ent_key es2) (map fst t2) ++ R.
Proof using.
  induction d as [d IH] using lt_wf_ind. intros fuel c ir i b h R pre es1 es2 le tail e es3 t1 k w t2 Hf Hin Hn Ee Hk Hl Ep. destruct fuel as [|fuel]; [lia|]. cbn [walk_down].
  rewrite (in_bytes _ _ _ _ _ _ _ Hin). cbn [obind]. rewrite (vcn_at _ _ _ _ _ _ _ _ _ Hn Ee). cbn [obind negb]. rewrite andb_false_r. cbn match.
  set (c0 := if is_in_root c then _ else _).
  assert (parent_pos c0 = parent_pos c /\ parent_vcn c0 = parent_vcn c /\ pindex c0 = Z.of_nat (S i) /\ ctx_ok (f := f) bs bits c0) as (E1 & E2 & E3 & E4).
  { pose proof (in_level _ _ _ _ _ _ _ Hin). pose proof (in_ctx _ _ _ _ _ _ _ Hin) as Hc. unfold c0. rewrite (in_root _ _ _ _ _ _ _ Hin). case_bool_decide.
    - split; [done|]. split; [done|]. split; [cbn; lia|]. destruct Hc. constructor; try done; cbn; lia.
    - split; [done|]. split; [done|]. split; [cbn; lia|]. destruct Hc. constructor; try done; cbn; lia. }
  destruct (go_down c ir i d b h R pre es1 es2 le tail e es3 t1 k w t2 c0 Hin Hn Ee Hk Hl Ep E1 E2 E3 E4) as (c1 & c2 & blk & Esp & Esv & Erd & Ht & Ep2 & Hin2).
  rewrite Esp. cbn [obind]. rewrite Esv. cbn [obind]. rewrite Erd. cbn [obind].
  pose proof (path_full _ _ _ _ _ _ _ (in_path _ _ _ _ _ _ _ (Hin2 None))) as [[? _]|Hfull]; [done|].
  destruct d as [|d]; cbn [tree_at] in Ht.
  - destruct Ht as (pre' & es' & le' & tail' & Hn' & -> & _). rewrite (node_first _ _ _ _ _ _ _ Hn'). cbn [obind].
    destruct es' as [|x es']; [by destruct (Hfull _ _ _ _ Hn')|]. pose proof (flags_at _ _ _ _ [] _ _ _ Hn') as (fl & Ef & E5 & _). cbn [concat] in Ef. rewrite app_nil_r in Ef. rewrite Ef. cbn [obind].
    rewrite E5. cbn [negb]. set (c3 := set_entry (Some (zlen pre')) false (Some blk) c2). exists c3, (zlen pre'), x, (map ent_key es' ++ weave_right (map ent_key es2) (map fst t2) ++ R). split; [done|].
    pose proof (is_end_at c3 _ _ _ _ _ _ _ pre' [] (x :: es') _ _ (Hin2 _) Hn') as Eend. cbn [concat] in Eend. rewrite app_nil_r in Eend. split; [|split; [done|done]].
    eexists (S i), 0%nat, blk, BLOCK_INDEX, _, pre', [], es', le', tail'. split; [apply Hin2|]. split; [done|]. split; [by cbn [concat]; rewrite app_nil_r|done].
  - destruct Ht as (pre' & es' & le' & tail' & subs & Hn' & Hk' & -> & _). rewrite (node_first _ _ _ _ _ _ _ Hn'). cbn [obind].
    pose proof (flags_at _ _ _ _ [] _ _ _ Hn') as (fl & Ef & E5 & _). cbn [concat] in Ef. rewrite app_nil_r in Ef. rewrite Ef. cbn [obind]. rewrite E5. cbn [negb].
    destruct (child_at blk_of d [] es' le' subs Hk') as (es3' & t1' & k' & w' & t2' & blk' & Ee' & Hl' & -> & _ & _ & Ew). cbn zeta in *. destruct t1'; [|done]. cbn [app] in *.
    destruct (IH d ltac:(lia) fuel _ ir (S i) blk BLOCK_INDEX _ pre' [] es' le' tail' _ es3' [] k' w' t2' ltac:(lia) (Hin2 (Some (zlen pre'))) Hn' Ee' Hk' eq_refl Ep2) as (c' & ie & x & R' & Ew' & Hcur & Hend & Hks).
    cbn [concat] in Ew'. rewrite app_nil_r in Ew'. exists c', ie, x, R'. split; [done|]. split; [done|]. split; [done|]. rewrite Hks, Ew. unfold weave_left. cbn [zip_with concat app map]. by rewrite <- !(assoc_L (++)).
Qed.

(** ** Up *)
Lemma by_pos_at nd b h pre es1 es2 le tail : node_ok nd b h pre (es1 ++ es2) le tail -> ntfs_ie_get_by_pos b h (Z.of_nat (length es1)) = Ret (zlen (pre ++ concat es1)).
Proof using.
  intros Hn. unfold ntfs_ie_get_by_pos. rewrite (node_first _ _ _ _ _ _ _ Hn). cbn [obind]. rewrite Nat2Z.id, (node_split _ _ _ _ _ _ _ _ Hn), <- (assoc_L (++)).
  eapply by_pos_ok. pose proof (no_entries _ _ _ _ _ _ _ Hn) as F. by apply Forall_app in F as [F _].
Qed.

Lemma go_up c ir i d b h R0 : ir_get s = Ret ir -> on_path c ir (S i) d b h R0 -> pindex c = Z.of_nat (S i) -> ctx_ok (f := f) bs bits c -> (S i + d < 32)%nat ->
  exists c' pb ph R pre es1 es2 le tail t1 t t2,
    parent_entry s (set_pindex (pindex c - 1) c) = Ret (c', Some (zlen (pre ++ concat es1))) /\ in_node c' ir i (S d) pb ph R /\
    node_ok true pb ph pre (es1 ++ es2) le tail /\ kids d ((es1 ++ es2) ++ [le]) (t1 ++ t :: t2) /\ length t1 = length es1 /\
    rd (parent_pos c') (Z.of_nat i) = Ret (Z.of_nat (length es1)) /\ R0 = weave_right (map ent_key es2) (map fst t2) ++ R.
Proof using.
  intros Hir Hp Hi Hc Hdeep. inversion Hp as [|? ? pb ph R pre es1 es2 le tail e es3 t1 k w t2 ? Hp' Hn Ee Hk Hl Ep Ev Eb]; subst.
  unfold parent_entry, ntfs_icx_parent_pos, ntfs_icx_parent_vcn. cbn [pindex set_pindex parent_pos parent_vcn]. replace (pindex c - 1) with (Z.of_nat i) by lia. rewrite Ep. cbn [obind].
  assert (forall e' r blk, same_path i c (set_entry e' r blk (set_pindex (Z.of_nat i) c))) as Hsame by done.
  assert (forall e' r blk, ctx_ok (f := f) bs bits (set_entry e' r blk (set_pindex (Z.of_nat i) c))) as Hctx by (intros; destruct Hc; constructor; try done; cbn; lia).
  destruct (Z.eqb_spec (Z.of_nat i) 0) as [Ei|Ei].
  - destruct i; [|lia]. rewrite Hir. inversion Hp'; subst. rewrite (by_pos_at _ _ _ _ _ _ _ _ Hn). cbn [obind].
    eexists _, pb, ROOT_INDEX, [], pre, es1, es2, le, tail, t1, (k, w), t2. split; [done|]. split; [|done]. constructor; [eapply path_same; [|exact Hp']; done|done|cbn; by rewrite Hir|done|apply Hctx|lia].
  - assert (exists v, rd (parent_vcn c) (Z.of_nat i) = Ret v /\ blk_of v = Ret pb /\ ph = BLOCK_INDEX) as (v & Erv & Ebv & ->).
    { inversion Hp'; subst; [lia|]. by eexists. }
    rewrite Erv. cbn [obind]. rewrite (ib_read_blocks s bs bits) by (specialize (Hctx None false None); destruct Hctx; by constructor). rewrite Ebv.
    rewrite (by_pos_at _ _ _ _ _ _ _ _ Hn). cbn [obind].
    eexists _, pb, BLOCK_INDEX, R, pre, es1, es2, le, tail, t1, (k, w), t2. split; [done|]. split; [|done]. constructor; [eapply path_same; [|exact Hp']; done|done|done|cbn; by rewrite bool_decide_false by lia|apply Hctx|lia].
Qed.

(** What [ntfs_index_next] makes of the result of walking up. *)
Definition reaches (ir : bytes) (c : ntfs_index_context) (r : option Z) (R : list bytes) : Prop :=
  match R with
  | [] => match r with None => True | Some e => is_end s c e = Ret true end
  | k :: R' => exists e x, r = Some e /\ ent_key x = k /\ cursor c ir e x R' /\ is_end s c e = Ret false
  end.

Lemma walk_up_ok ir : ir_get s = Ret ir -> forall i c d b h R, on_path c ir i d b h R -> pindex c = Z.of_nat i -> ctx_ok (f := f) bs bits c -> (i + d < 32)%nat ->
  exists c' r, walk_up i s c = Ret (c', r) /\ reaches ir c' r R.
Proof using.
  intros Hir. induction i as [|i IH]; intros c d b h R Hp Hi Hc Hdeep; cbn [walk_up].
  - inversion Hp; subst. eexists _, _. split; done.
  - destruct (go_up c ir i d b h R Hir Hp Hi Hc Hdeep) as (c' & pb & ph & R1 & pre & es1 & es2 & le & tail & t1 & t & t2 & -> & Hin & Hn & Hk & Hl & Ep & ->). cbn [obind].
    rewrite (in_level _ _ _ _ _ _ _ Hin), (is_end_at _ _ _ _ _ _ _ _ _ _ _ _ _ Hin Hn). destruct es2 as [|x es2]; cbn [map weave_right app].
    + destruct (Z.ltb_spec 0 (Z.of_nat i)); cbn [obind].
      * destruct (IH c' (S d) pb ph R1) as (c2 & r & E & Hr); [apply Hin..|lia|]. by exists c2, r.
      * assert (i = 0%nat) as -> by lia. eexists _, _. split; [done|]. pose proof (in_path _ _ _ _ _ _ _ Hin) as Hp0. inversion Hp0; subst. cbn [reaches]. by rewrite (is_end_at _ _ _ _ _ _ _ _ _ _ _ _ _ Hin Hn).
    + assert (exists c2 r, (let! last := if 0 <? Z.of_nat i then Ret false else Ret false in if last : bool then walk_up i s c' else Ret (c', Some (zlen (pre ++ concat es1)))) = Ret (c2, r) /\
        reaches ir c2 r (ent_key x :: weave (map ent_key es2) (map fst t2) ++ R1)) as Hall; [|by destruct (0 <? Z.of_nat i)].
      exists c', (Some (zlen (pre ++ concat es1))). split; [by destruct (0 <? Z.of_nat i)|]. eexists _, x. split; [done|]. split; [done|]. split; [|by rewrite (is_end_at _ _ _ _ _ _ _ _ _ _ _ _ _ Hin Hn)].
      eexists i, (S d), pb, ph, R1, pre, es1, es2, le, tail. split; [done|]. split; [done|]. split; [done|]. exists t1, t, t2. done.
Qed.

(** ** To the next entry *)
Definition at_key (ir : bytes) (c : ntfs_index_context) (r : option Z) (R : list bytes) : Prop :=
  match R with [] => r = None | k :: R' => exists e x, r = Some e /\ ent_key x = k /\ cursor c ir e x R' end.

Lemma reaches_end ir c r R : reaches ir c r R ->
  exists r', match r with None => Ret (c, None) | Some e => let! last := is_end s c e in Ret (c, if last : bool then None else Some e) end = Ret (c, r') /\ at_key ir c r' R.
Proof using.
  destruct R as [|k R]; cbn [reaches at_key].
  - destruct r as [e|]; [intros ->; by exists None|by exists None].
  - intros (e & x & -> & Hk & Hc & ->). cbn [obind]. exists (Some e). split; [done|]. by exists e, x.
Qed.

Lemma walk_up_from ir c i d b h R : ir_get s = Ret ir -> on_path c ir i d b h R -> pindex c = Z.of_nat i -> ctx_ok (f := f) bs bits c -> (i + d < 32)%nat ->
  exists c' r, ntfs_index_walk_up s c = Ret (c', r) /\ reaches ir c' r R.
Proof using.
  intros Hir Hp Hi Hc Hd. unfold ntfs_index_walk_up. rewrite Hi. destruct (Z.ltb_spec 0 (Z.of_nat i)); [rewrite Nat2Z.id; by eapply walk_up_ok|].
  assert (i = 0%nat) as -> by lia. inversion Hp; subst. by exists c, None.
Qed.

Lemma next_at_end ir c i d b h R nd pre es le tail : ir_get s = Ret ir -> in_node c ir i d b h R -> node_ok nd b h pre es le tail ->
  exists c' r, ntfs_index_next true s c (zlen (pre ++ concat es)) = Ret (c', r) /\ at_key ir c' r R.
Proof using.
  intros Hir Hin Hn. rewrite <- (app_nil_r es) in Hn. unfold ntfs_index_next. rewrite (is_end_at _ _ _ _ _ _ _ _ _ _ _ _ _ Hin Hn). cbn [obind].
  destruct (walk_up_from ir c i d b h R Hir) as (c' & r & -> & Hr); [apply Hin..|]. cbn [obind]. destruct (reaches_end ir c' r R Hr) as (r' & -> & Hk). by exists c', r'.
Qed.

Lemma next_ok ir c ie x R : ir_get s = Ret ir -> cursor c ir ie x R -> exists c' r, ntfs_index_next true s c ie = Ret (c', r) /\ at_key ir c' r R.
Proof using.
  intros Hir (i & d & b & h & R0 & pre & es1 & es2 & le & tail & Hin & Hn & -> & Hd). unfold ntfs_index_next.
  pose proof (in_level _ _ _ _ _ _ _ Hin) as Hi. pose proof (in_ctx _ _ _ _ _ _ _ Hin) as Hc. pose proof (in_deep _ _ _ _ _ _ _ Hin).
  rewrite (is_end_at _ _ _ _ _ _ _ _ _ _ _ _ _ Hin Hn), (in_bytes _ _ _ _ _ _ _ Hin). cbn [obind].
  assert (ntfs_ie_get_next b (zlen (pre ++ concat es1)) = Ret (zlen (pre ++ concat (es1 ++ [x])))) as ->.
  { destruct (at_place _ _ _ _ _ _ _ _ Hn) as (q & -> & Hx). rewrite (ent_next _ _ _ Hx), concat_app. cbn [concat]. by rewrite app_nil_r, <- (assoc_L (++)). }
  cbn [obind]. unfold ntfs_icx_parent_pos. destruct (rd_some (parent_pos c) (pindex c)) as [pos Epos]; [rewrite (cx_pos _ _ _ Hc); lia|]. rewrite Epos. cbn [obind].
  destruct (store_pos_ok bs bits c (pos + 1) Hc) as (c1 & E1 & Hc1 & Ei1 & Ev1 & Eib & Er1 & Hs1); [lia|]. rewrite E1. cbn [obind].
  assert (in_node c1 ir i d b h R0) as Hin1.
  { unfold store_pos in E1. destruct (wr _ _ _) as [l| |] eqn:Ewr in E1; try done. injection E1 as <-. constructor; try apply Hin; try done. eapply path_same; [|apply Hin].
    split; intros j Hj; [|done]. apply (Hs1 (Z.of_nat j)). lia. }
  replace (es1 ++ x :: es2) with ((es1 ++ [x]) ++ es2) in * by (by rewrite <- (assoc_L (++))).
  destruct (flags_at _ _ _ _ _ _ _ _ Hn) as (fl & -> & E5 & E6). cbn [obind]. rewrite E5, E6. destruct d as [|d]; cbn [Nat.eqb negb].
  - subst R. destruct es2 as [|y es2]; cbn [negb].
    + destruct (walk_up_from ir c1 i 0 b h R0 Hir) as (c' & r & -> & Hr); [apply Hin1..|]. cbn [obind]. destruct (reaches_end ir c' r _ Hr) as (r' & -> & Hk). by exists c', r'.
    + cbn [obind]. rewrite (is_end_at _ _ _ _ _ _ _ _ _ _ _ _ _ Hin1 Hn). cbn [obind]. eexists _, _. split; [done|]. cbn [map app at_key]. eexists _, y. split; [done|]. split; [done|].
      eexists i, 0%nat, b, h, R0, pre, (es1 ++ [x]), es2, le, tail. done.
  - destruct Hd as (t1 & t & t2 & Hk & Hl & Ep & ->). rewrite Hi in Er1. rewrite Hi, Ep in Epos. injection Epos as <-.
    assert (exists k w t3, t2 = (k, w) :: t3) as (k & w & t3 & ->).
    { apply Forall2_length in Hk. rewrite !length_app in Hk. cbn [length] in Hk. destruct t2 as [|[k w] t3]; [cbn in Hk; lia|]. by exists k, w, t3. }
    assert (exists e es3, es2 ++ [le] = e :: es3) as (e & es3 & Ee) by (destruct es2; eexists _, _; done).
    unfold ntfs_index_walk_down. destruct (walk_down_ok d (Z.to_nat MAX_PARENT_VCN) c1 ir i b h R0 pre (es1 ++ [x]) es2 le tail e es3 (t1 ++ [t]) k w t3) as (c' & ie & y & R' & -> & Hcur & Hend & Hks); try done.
    + unfold MAX_PARENT_VCN. lia.
    + by rewrite <- (assoc_L (++) t1).
    + rewrite !length_app. cbn. lia.
    + rewrite Er1, length_app. cbn [length]. f_equal. lia.
    + cbn [obind]. rewrite Hend. cbn [obind]. eexists c', (Some ie). split; [done|]. assert (weave (map ent_key es2) (map fst ((k, w) :: t3)) ++ R0 = ent_key y :: R') as ->.
      { rewrite Hks. cbn [map fst]. destruct es2; cbn [map weave weave_right]; rewrite <- ?(assoc_L (++)); done. }
      cbn [at_key]. by exists ie, y.
Qed.

(** ** All entries *)
Lemma key_at_cursor ir c ie x R : cursor c ir ie x R -> key_at s c ie = Ret (ent_key x).
Proof using.
  intros (i & d & b & h & R0 & pre & es1 & es2 & le & tail & Hin & Hn & -> & _). unfold key_at. rewrite (in_bytes _ _ _ _ _ _ _ Hin). cbn [obind].
  destruct (at_place _ _ _ _ _ _ _ _ Hn) as (q & -> & Hx). destruct (ent_key_mid _ _ _ Hx (pre ++ concat es1) q eq_refl) as (rest & -> & Hd). cbn [obind].
  pose proof (zlen_nonneg (pre ++ concat es1)). pose proof (zlen_nonneg (ent_key x)). pose proof (ent_size16 _ _ _ Hx). rewrite rdn_ok; [|lia|lia|].
  - f_equal. unfold sub. rewrite Hd. unfold zlen. rewrite Nat2Z.id. by rewrite take_app_length.
  - apply (f_equal zlen) in Hd. unfold zlen in *. rewrite length_drop, !length_app in *. lia.
Qed.

Lemma read_all_cursor (read : ntfs_index_context -> option Z -> outcome (ntfs_index_context * option Z)) ir : ir_get s = Ret ir -> (forall c e, read c (Some e) = ntfs_index_next true s c e) ->
  forall R n c ie x, cursor c ir ie x R -> (length R < n)%nat -> read_all n read s c (Some ie) = Ret R.
Proof using.
  intros Hir Hread. induction R as [|k R IH]; intros n c ie x Hc Hn; (destruct n as [|n]; [lia|]); cbn [read_all]; rewrite Hread;
    destruct (next_ok ir c ie x _ Hir Hc) as (c' & r & -> & Hr); cbn [obind at_key] in *.
  - by subst r.
  - destruct Hr as (e & y & -> & <- & Hcur). rewrite (key_at_cursor _ _ _ _ _ Hcur). cbn [obind]. rewrite (IH n c' e y Hcur) by (cbn in Hn; lia). done.
Qed.

(** A search leads to a leaf whose keys are somewhere in the tree. *)
Lemma trail_path d : forall c ir i b h R vcn ks vs,
  on_path c ir i d b h R -> trail s bs bits d b h vcn ks vs c (Z.of_nat i) -> tree_at blk_of d b h ks vs -> (i = 0%nat \/ h = BLOCK_INDEX /\ blk_of vcn = Ret b) ->
  exists i' leaf hl R' v pre es le tail l, on_path c ir i' 0 leaf hl R' /\ pindex c = Z.of_nat i' /\ rd (parent_vcn c) (Z.of_nat i') = Ret v /\
    (i' = 0%nat \/ hl = BLOCK_INDEX /\ blk_of v = Ret leaf) /\ node_ok false leaf hl pre es le tail /\ ks ++ R = l ++ map ent_key es ++ R' /\ (i' = i + d)%nat.
Proof using.
  induction d as [|d IH]; intros c ir i b h R vcn ks vs Hp Htr Ht Hb; cbn [trail tree_at] in *; destruct Htr as [Ev Htr].
  - destruct Ht as (pre & es & le & tail & Hn & -> & _). exists i, b, h, R, vcn, pre, es, le, tail, []. do 5 (split; [done|]). split; [done|]. lia.
  - destruct Htr as (pre & es1 & es2 & le & tail & t1 & k & w & t2 & blk & Hn & HF & Hl & Ep & -> & -> & Eb & Htr). cbn zeta in *.
    destruct (child_at blk_of d es1 es2 le _ HF) as (es3 & t1' & k' & w' & t2' & blk' & Ee & Hl' & Es & Eb' & Htk & Ew). cbn zeta in *.
    apply app_inj_1 in Es as [-> Es]; [|congruence]. injection Es as <- <- <-. rewrite Eb in Eb'. injection Eb' as <-. rewrite Ew.
    assert (rd (parent_vcn c) (Z.of_nat (S i)) = Ret (ent_vcn match es2 with [] => le | x :: _ => x end)) as Evc.
    { destruct d; cbn [trail] in Htr; destruct Htr as [Htr _]; by replace (Z.of_nat (S i)) with (Z.of_nat i + 1) by lia. }
    replace (Z.of_nat i + 1) with (Z.of_nat (S i)) in Htr by lia.
    destruct (IH c ir (S i) blk BLOCK_INDEX (weave_right (map ent_key es2) (map fst t2) ++ R) (ent_vcn match es2 with [] => le | x :: _ => x end) k w) as (i' & leaf & hl & R' & v & pre' & es & le' & tail' & l & H1 & H2 & H3 & H4 & H5 & H6 & H7); try done; [by eapply path_kid|by right|].
    exists i', leaf, hl, R', v, pre', es, le', tail', (weave_left (map ent_key es1) (map fst t1') ++ l). do 5 (split; [done|]). split; [|lia].
    rewrite <- !(assoc_L (++)) in *. by rewrite H6.
Qed.

Lemma same_middle {A} (m l1 r1 l2 r2 : list A) : m <> [] -> NoDup (l1 ++ m ++ r1) -> l1 ++ m ++ r1 = l2 ++ m ++ r2 -> r1 = r2.
Proof using.
  clear. destruct m as [|x m]; [done|]. intros _ Hnd E. assert (l1 = l2) as ->; [|by simplify_list_eq].
  revert l2 E. induction l1 as [|y l1 IH]; intros [|z l2] E; cbn [app] in *; try done.
  - injection E as -> E. exfalso. apply NoDup_cons in Hnd as [Hnin _]. apply Hnin. rewrite E, elem_of_app, elem_of_cons. tauto.
  - injection E as -> E. exfalso. apply NoDup_cons in Hnd as [Hnin _]. apply Hnin. rewrite elem_of_app, elem_of_cons. tauto.
  - injection E as -> E. f_equal. apply IH; [|done]. by apply NoDup_cons in Hnd as [_ Hnd].
Qed.

Lemma keys_nodup ks : keys_ok ks -> NoDup ks.
Proof using.
  intros [Hv Hs]. induction Hs as [|k ks Hs IH Hk]; [constructor|]. apply Forall_cons in Hv as [Vk Hv]. constructor; [|by apply IH].
  intros Hin. rewrite Forall_forall in Hk. specialize (Hk k Hin). unfold key_lt in Hk. pose proof (key_antisym k k Vk Vk). lia.
Qed.

(** The first entry. *)
Lemma first_leaf c ir i b h R pre es le tail : in_node c ir i 0 b h R -> node_ok false b h pre es le tail -> es <> [] -> exists x es', es = x :: es' /\ cursor c ir (zlen pre) x (map ent_key es' ++ R).
Proof using.
  intros Hin Hn Hne. destruct es as [|x es']; [done|]. exists x, es'. split; [done|]. eexists i, 0%nat, b, h, R, pre, [], es', le, tail. cbn [concat app]. by rewrite app_nil_r.
Qed.

Lemma nothing_below key l r : Forall (fun k => key_lt key k) (l ++ r) -> key_valid key -> Forall key_valid (l ++ r) -> Forall (fun k => key_lt k key) l -> l = [].
Proof using.
  intros Ha Vk Hv Hb. destruct l as [|k l]; [done|]. cbn [app] in *. apply Forall_cons in Ha as [Ha _]. apply Forall_cons in Hv as [Hv _]. apply Forall_cons in Hb as [Hb _].
  unfold key_lt in *. rewrite key_antisym in Hb by done. lia.
Qed.

Lemma read_first get_collate cluster_size cluster_size_bits ir d ks vs key :
  index_ok s bs bits get_collate cluster_size cluster_size_bits ir d ks vs -> (d = 0%nat \/ full d ir ROOT_INDEX) -> key_valid key -> 0 < zlen key -> (d < 32)%nat -> ks <> [] -> Forall (fun k => key_lt key k) ks ->
  exists c e x R, read_entry get_collate cluster_size cluster_size_bits true key s new_context None = Ret (c, Some e) /\ cursor c ir e x R /\ ks = ent_key x :: R.
Proof using.
  intros Hix Hfull Vk Hk Hd Hne Hall. pose proof (ix_keys _ _ _ _ _ _ _ _ _ _ Hix) as Hks. pose proof (ix_tree _ _ _ _ _ _ _ _ _ _ Hix) as Htree. unfold read_entry.
  destruct (lookup_ok s bs bits [] get_collate cluster_size cluster_size_bits new_context ir d ks vs key Hix Vk Hk) as (c & r & E & Hc & H); [done..|cbn; lia|].
  rewrite app_nil_r in E. rewrite E. cbn [obind]. cbn [pindex new_context] in H.
  assert (forall b h, ~ found_at b h c key ks) as Hnf.
  { intros b h (nd & pre & es1 & x & es2 & le & tail & _ & _ & Ex & Hin). rewrite Forall_forall in Hall. specialize (Hall _ Hin). unfold ent_cmp, key_lt in *. lia. }
  destruct H as [[_ H]|[[_ [[_ H]|[_ (b & _ & H)]]]|[-> H]]]; [lia|by apply Hnf in H..|]. rewrite decide_True by done.
  destruct H as [(Er & -> & Ei & pre & es1 & es2 & le & tail & Hn & He & Ek & Hl & _)|(Er & Htr & leaf & v & l & r' & Hib & Hv & Hbv & Hpv & (pre & es1 & es2 & le & tail & Hn & He & Ek & Hl & _) & _)].
  - assert (es1 = []) as ->.
    { cbn [app] in *. rewrite app_nil_r, map_app in Ek. subst ks. apply (fmap_nil_inv ent_key). eapply nothing_below; [exact Hall|done|apply Hks|done]. }
    cbn [app concat map] in *. rewrite app_nil_r in *. subst ks.
    assert (in_node c ir 0 0 ir ROOT_INDEX []) as Hin by (constructor; try done; [by eapply path_root|unfold ctx_node; by rewrite Er, (ix_root _ _ _ _ _ _ _ _ _ _ Hix)]).
    destruct (first_leaf c ir 0 ir ROOT_INDEX [] pre es2 le tail Hin Hn) as (x & es' & -> & Hcur); [by intros ->|]. rewrite app_nil_r in *.
    exists c, (zlen pre), x, (map ent_key es'). rewrite He. done.
  - destruct d as [|d]; [destruct Htree as (? & ? & ? & ? & _ & _ & ->); by apply elem_of_nil in Hv|].
    destruct (trail_path (S d) c ir 0 ir ROOT_INDEX [] _ ks vs (path_root _ _ _ _ _ Htree Hfull) Htr Htree (or_introl eq_refl)) as (i' & leaf' & hl & R' & v' & pre' & es & le' & tail' & l' & Hp & Ei & Ev' & Hb & Hn' & Ek' & Ei').
    rewrite Ei, Ev' in Hpv. injection Hpv as ->. destruct Hb as [?|[-> Hb]]; [lia|]. rewrite Hbv in Hb. injection Hb as <-.
    destruct (node_unique _ _ _ _ _ _ _ _ _ _ _ _ Hn Hn') as (_ & -> & -> & -> & ->). rewrite app_nil_r in Ek'.
    assert (l = [] /\ es1 = []) as [-> ->].
    { rewrite map_app, <- !(assoc_L (++)), (assoc_L (++) l) in Ek. rewrite Ek in Hall, Hks. pose proof (nothing_below key _ _ Hall Vk (proj1 Hks) Hl) as Enil. apply app_eq_nil in Enil as [-> Enil].
      split; [done|]. by apply (fmap_nil_inv ent_key). }
    cbn [app concat map] in *. rewrite app_nil_r in *.
    assert (in_node c ir i' 0 leaf BLOCK_INDEX R') as Hin by (constructor; try done; [unfold ctx_node; by rewrite Er, Hib|rewrite Er; by rewrite bool_decide_false by lia|lia]).
    assert (es2 <> []) as Hne2 by (destruct (path_full _ _ _ _ _ _ _ Hp) as [[? _]|Hf]; [lia|by eapply Hf]).
    destruct (first_leaf c ir i' leaf BLOCK_INDEX R' pre es2 le tail Hin Hn Hne2) as (x & es' & -> & Hcur).
    exists c, (zlen pre), x, (map ent_key es' ++ R'). rewrite He. split; [done|]. split; [done|].
    assert (r' = R') as ->; [|exact Ek]. cbn [app] in Ek. apply (same_middle (map ent_key (x :: es')) [] r' l' R'); [done|cbn [app]; rewrite <- Ek; by apply keys_nodup|cbn [app]; congruence].
Qed.
End Cursor.

(** C6. A caller who reads an index as [ntfs_read_sii] and [ntfs_read_sdh] do, first
    looking up a key below all others and then asking for the next entry until there is
    none, gets the keys of all the nodes of the tree in order, each of them once, when
    every leaf has an entry and the context is a new one. *)
Theorem index_walk_spec {f : COLLATE} {ord : key_order f} {St} {attrs : index_attrs St} (s : St) bs bits get_collate cluster_size cluster_size_bits ir d ks vs key n :
  index_ok s bs bits get_collate cluster_size cluster_size_bits ir d ks vs -> (d = 0%nat \/ full s bs bits d ir ROOT_INDEX) -> (d < 32)%nat ->
  key_valid key -> 0 < zlen key -> ks <> [] -> Forall (fun k => key_lt key k) ks -> (length ks < n)%nat ->
  read_all n (read_entry get_collate cluster_size cluster_size_bits true key s) s new_context None = Ret ks.
Proof.
  intros Hix Hfull Hd Vk Hk Hne Hall Hn. destruct n as [|n]; [lia|]. cbn [read_all].
  destruct (read_first s bs bits get_collate cluster_size cluster_size_bits ir d ks vs key) as (c & e & x & R & -> & Hcur & ->); [done..|]. cbn [obind].
  rewrite (key_at_cursor _ _ _ _ _ _ _ _ Hcur). cbn [obind].
  rewrite (read_all_cursor s bs bits (read_entry get_collate cluster_size cluster_size_bits true key s) ir (ix_root _ _ _ _ _ _ _ _ _ _ Hix) (fun _ _ => eq_refl) R n c e x Hcur) by (cbn in Hn; lia). done.
Qed.

Lemma small_full : full small_index 512 9 1 small_root ROOT_INDEX.
Proof.
  intros pre es le tail x blk Hn Hx Hb. destruct (node_unique _ _ _ _ _ _ _ _ _ _ _ _ small_root_ok Hn) as (_ & -> & -> & -> & ->).
  cbn [app] in Hx. intros pre' es' le' tail' Hn' ->. repeat (apply elem_of_cons in Hx as [->|Hx]); [..|by apply elem_of_nil in Hx].
  - change (blocks small_index 512 9 _) with (Ret (A := bytes) (small_block 0 10 20)) in Hb. injection Hb as <-.
    destruct (node_unique _ _ _ _ _ _ _ _ _ _ _ _ (small_block_ok 0 10 20 ltac:(by left)) Hn') as (_ & _ & E & _). done.
  - change (blocks small_index 512 9 _) with (Ret (A := bytes) (small_block 1 60 70)) in Hb. injection Hb as <-.
    destruct (node_unique _ _ _ _ _ _ _ _ _ _ _ _ (small_block_ok 1 60 70 ltac:(by right; left)) Hn') as (_ & _ & E & _). done.
Qed.

Lemma index_walk_spec_witness : read_all 6 (ntfs_read_sii ulong_rule 512 9 true small_index) small_index new_context None = Ret small_keys.
Proof.
  apply (index_walk_spec small_index 512 9 ulong_rule 512 9 small_root 1 small_keys [0; 1] (replicate 4 0) 6).
  - apply small_index_ok.
  - right. apply small_full.
  - lia.
  - reflexivity.
  - reflexivity.
  - discriminate.
  - repeat (constructor; [vm_compute; reflexivity|]). constructor.
  - vm_compute. lia.
Defined.

(** The assumptions are needed.  A leaf without entries ends the walk, here before the keys
    55, 60 and 70. *)
Definition gap_root : bytes :=
  replicate 4 0 ++ le_bytes 4 16 ++ le_bytes 4 512 ++ [1; 0; 0; 0] ++ small_header 16 104 104 1 ++
  small_entry (le_bytes 4 50) 1 (le_bytes 8 0) ++ small_entry (le_bytes 4 55) 1 (le_bytes 8 2) ++ small_entry [] 3 (le_bytes 8 1).
Definition empty_block : bytes := small_block_head 2 56 ++ small_entry [] 2 [] ++ replicate 432 0.
Definition gap_index : bytes * list (Z * bytes) := (gap_root, (1024, empty_block) :: small_index.2).
Example empty_leaf_ends_walk :
  read_all 9 (ntfs_read_sii ulong_rule 512 9 true gap_index) gap_index new_context None = Ret (map (le_bytes 4) [10; 20; 50]).
Proof. vm_compute. reflexivity. Qed.

(** [ntfs_index_ctx_reinit] leaves [pindex] as it was, so that a second walk with the same
    context does not find the root: it ends with the first leaf. *)
Example stale_context :
  read_all 9 (ntfs_read_sii ulong_rule 512 9 true small_index) small_index (set_pindex 1 new_context) None = Ret (map (le_bytes 4) [10; 20]).
Proof. vm_compute. reflexivity. Qed.

(** Walking down has no check of the depth, as [ntfs_icx_parent_inc] has: on a node that is
    its own child it goes on behind the arrays of the parents. *)
Definition loop_block : bytes :=
  le_bytes 4 magic_INDX ++ le_bytes 2 40 ++ le_bytes 2 2 ++ replicate 8 0 ++ le_bytes 8 1 ++ small_header 40 96 488 1 ++ replicate 24 0 ++
  small_entry (le_bytes 4 60) 1 (le_bytes 8 1) ++ small_entry [] 3 (le_bytes 8 0) ++ replicate 392 0.
Definition loop_index : bytes * list (Z * bytes) := (small_root, [(0, small_block 0 10 20); (512, loop_block)]).
Example loop_overflows : read_all 9 (ntfs_read_sii ulong_rule 512 9 true loop_index) loop_index new_context None = Fault.
Proof. vm_compute. reflexivity. Qed.
