(* ===== verification/IndexRm.v ===== *)
(** * Index trees: removing an entry (ntfs/index.c)

    [ntfs_index_rm] takes an entry out of a leaf that keeps others, replaces an entry of
    an inner node by its successor, or takes a leaf out of the tree and adds the entry
    above it again. *)
From S2P Require Import Prelude Libc Fields Cond Index IndexAdd.

Section Rm.
Context {St : Type} {attrs : index_attrs St} {space : index_space St}.
(** As in [IndexAdd]; [rounds] bounds the rounds of adding an entry again. *)
Context (memory : bool) (past : bytes) (get_collate : Z -> option COLLATE) (cluster_size cluster_size_bits : Z) (rounds : nat).

(** index.c:100-108 ntfs_icx_ib_write *)
Definition ntfs_icx_ib_write (s : St) (c : ntfs_index_context) : outcome (St * ntfs_index_context * status) :=
  match ib c with
  | None => Fault
  | Some b =>
    match ntfs_ib_write s c b with
    | (_, Fault) => Fault
    | (s, Fail _) => Ret (s, c, STATUS_ERROR)
    | (s, Ret _) => Ret (s, set_dirty false c, STATUS_OK)
    end
  end.

(** index.c:1560-1586 ntfs_ih_takeout. The node is [b], with its header at [h]. *)
Definition ntfs_ih_takeout (s : St) (c : ntfs_index_context) (b : bytes) (h ie : Z) : outcome (St * ntfs_index_context * status) :=
  if memory then
    let! ie_roam := ntfs_ie_dup_novcn (drop (Z.to_nat ie) b) in
    let! b := ntfs_ie_delete b h ie in
    let! vcn := ntfs_icx_parent_vcn c in
    let '(s, r) := if vcn =? VCN_INDEX_ROOT_PARENT then (ir_put s b, Ret tt) else ntfs_ib_write s c b in
    match r with
    | Fault => Fault
    | Fail _ => Ret (s, c, STATUS_ERROR)
    | Ret _ =>
      let! (s, c) := ntfs_index_ctx_reinit s c in
      let! (s, c, err) := ntfs_ie_add memory past get_collate cluster_size cluster_size_bits rounds s c ie_roam in
      Ret (s, c, match err with None => STATUS_OK | Some _ => STATUS_ERROR end)
    end
  else Ret (s, c, STATUS_ERROR).

(** index.c:1592-1607 ntfs_ir_leafify *)
Definition ntfs_ir_leafify (s : St) (ir : bytes) : outcome St :=
  let! ie := ntfs_ie_get_first ir ROOT_INDEX in
  let! f := ie_flags ir ie in
  let! ir := put 2 ir (ie + 12) (Z.ldiff f INDEX_ENTRY_NODE) in
  let! l := ie_length ir ie in
  let! ir := put 2 ir (ie + 8) (u16 (l - 8)) in
  let! il := index_length ir ROOT_INDEX in
  let! ir := put 4 ir (ROOT_INDEX + 4) (u32 (il - 8)) in
  let! f := ih_flags ir ROOT_INDEX in
  let! ir := put 1 ir (ROOT_INDEX + 12) (Z.ldiff f LARGE_INDEX) in
  let! il := index_length ir ROOT_INDEX in
  let! (s, _) := ntfs_ir_truncate (ir_put s ir) il in Ret s.

(** index.c:1613-1626 ntfs_ih_reparent_end *)
Definition ntfs_ih_reparent_end (s : St) (c : ntfs_index_context) (b : bytes) (h : Z) : outcome (St * ntfs_index_context * status) :=
  let! pos := ntfs_icx_parent_pos c in
  let! ie := ntfs_ie_get_by_pos b h pos in
  let! ie_prev := ntfs_ie_prev b h ie in
  match ie_prev with
  | None => Fault
  | Some ie_prev =>
    let! vcn := ntfs_ie_get_vcn b ie_prev in
    let! b := ntfs_ie_set_vcn b ie vcn in
    ntfs_ih_takeout s c b h ie_prev
  end.

(** index.c:1628-1680 ntfs_index_rm_leaf. Every call goes up a level. *)
Fixpoint ntfs_index_rm_leaf (fuel : nat) (s : St) (c : ntfs_index_context) : outcome (St * ntfs_index_context * status) :=
  match fuel with
  | O => Fault
  | S fuel' =>
    match ntfs_icx_parent_dec c with
    | (c, Some _) => Ret (s, c, STATUS_ERROR)
    | (c, None) =>
      let! child := rd (parent_vcn c) (pindex c + 1) in
      match ntfs_ibm_clear s c child with
      | (_, Fault) => Fault
      | (s, Fail _) => Ret (s, c, STATUS_ERROR)
      | (s, Ret _) =>
        let! vcn := ntfs_icx_parent_vcn c in
        let root := vcn =? VCN_INDEX_ROOT_PARENT in
        if negb root && negb memory then Ret (s, c, STATUS_ERROR) else
        match (if root then ir_get s else ntfs_ib_read s c vcn) with
        | Fault => Fault
        | Fail _ => Ret (s, c, STATUS_ERROR)
        | Ret b =>
          let h := if root then ROOT_INDEX else BLOCK_INDEX in
          let! pos := ntfs_icx_parent_pos c in
          let! ie := ntfs_ie_get_by_pos b h pos in
          let! last := ntfs_ie_end b ie in
          if negb last then ntfs_ih_takeout s c b h ie else
          let! zero := ntfs_ih_zero_entry b h in
          if zero : bool then
            if root then let! s := ntfs_ir_leafify s b in Ret (s, c, STATUS_OK) else ntfs_index_rm_leaf fuel' s c
          else ntfs_ih_reparent_end s c b h
        end
      end
    end
  end.
Definition rm_leaf : St -> ntfs_index_context -> outcome (St * ntfs_index_context * status) := ntfs_index_rm_leaf (S (Z.to_nat MAX_PARENT_VCN)).

(** index.c:1707-1721 ntfs_index_rm_node. Down to the leaf with the successor: the leaf and
    its entry, [None] for an error. *)
Fixpoint rm_descend (fuel : nat) (s : St) (c : ntfs_index_context) (vcn : Z) : outcome (ntfs_index_context * option (bytes * Z)) :=
  match fuel with
  | O => Fault
  | S fuel' =>
    match ntfs_ib_read s c vcn with
    | Fault => Fault
    | Fail _ => Ret (c, None)
    | Ret b =>
      let! ie_succ := ntfs_ie_get_first b BLOCK_INDEX in
      match ntfs_icx_parent_inc c with
      | (c, Some _) => Ret (c, None)
      | (c, None) =>
        let! c := store_vcn c vcn in
        let! c := store_pos c 0 in
        let! f := ih_flags b BLOCK_INDEX in
        if Z.land f NODE_MASK =? INDEX_NODE then let! vcn := ntfs_ie_get_vcn b ie_succ in rm_descend fuel' s c vcn
        else Ret (c, Some (b, ie_succ))
      end
    end
  end.

(** index.c:1763-1782 ntfs_index_rm_node. The entry at [entry] of [b] is replaced by [ie], its
    successor, which is taken out of its leaf [leaf]; [ret] is what an error returns. *)
Definition rm_replace (s : St) (c : ntfs_index_context) (b : bytes) (h entry : Z) (ie leaf : bytes) (ie_succ new_size : Z) (ret : status)
  : outcome (St * ntfs_index_context * status) :=
  let! b := ntfs_ie_delete b h entry in
  let! b := ntfs_ie_insert b h ie entry in
  let! (s, c, err) :=
    (if is_in_root c then let! (s, err) := ntfs_ir_truncate (ir_put s b) new_size in Ret (s, c, err)
     else ntfs_icx_ib_write s (set_entry (Index.entry c) false (Some b) c)) in
  match err with
  | STATUS_OK =>
    let! leaf := ntfs_ie_delete leaf BLOCK_INDEX ie_succ in
    let! zero := ntfs_ih_zero_entry leaf BLOCK_INDEX in
    if zero : bool then
      let! (s, c, err) := rm_leaf s c in Ret (s, c, match err with STATUS_OK => STATUS_OK | _ => ret end)
    else
      match ntfs_ib_write s c leaf with
      | (_, Fault) => Fault
      | (s, Fail _) => Ret (s, c, ret)
      | (s, Ret _) => Ret (s, c, STATUS_OK)
      end
  | _ => Ret (s, c, ret)
  end.

(** index.c:1682-1788 ntfs_index_rm_node. In the root [ret] is STATUS_OK after the root was
    made larger. *)
Definition ntfs_index_rm_node (s : St) (c : ntfs_index_context) (entry : Z) : outcome (St * ntfs_index_context * status) :=
  match ia_open s with
  | Fault => Fault
  | Fail _ => Ret (s, c, STATUS_ERROR)
  | Ret _ =>
    if memory then
      let! (b, h) := ctx_node s c in
      let! ie_succ := ntfs_ie_get_next b entry in
      let! entry_pos := ntfs_icx_parent_pos c in
      let! c := store_pos c (entry_pos + 1) in
      let level := pindex c in
      let! vcn := ntfs_ie_get_vcn b ie_succ in
      let! (c, found) := rm_descend (S (Z.to_nat MAX_PARENT_VCN)) s c vcn in
      match found with
      | None => Ret (s, c, STATUS_ERROR)
      | Some (leaf, ie_succ) =>
        let! zero := ntfs_ih_zero_entry leaf BLOCK_INDEX in
        if zero : bool then Ret (s, c, STATUS_ERROR) else
        let! ie := ntfs_ie_dup (drop (Z.to_nat ie_succ) leaf) in
        let! ie := ntfs_ie_add_vcn past ie in
        let! vcn := ntfs_ie_get_vcn b entry in
        let! ie := ntfs_ie_set_vcn ie 0 vcn in
        let! l := ie_length ie 0 in
        let! l0 := ie_length b entry in
        let! il := index_length b h in
        let delta := l - l0 in
        let new_size := u32 (il + delta) in
        if 0 <? delta then
          if is_in_root c then
            let! (s, ret) := ntfs_ir_make_space memory s c new_size in
            match ret with
            | STATUS_OK =>
              let! b := ir_get s in
              let! entry := ntfs_ie_get_by_pos b ROOT_INDEX entry_pos in
              rm_replace s c b ROOT_INDEX entry ie leaf ie_succ new_size STATUS_OK
            | ret => Ret (s, c, ret)
            end
          else
            let! asz := allocated_size b h in
            if asz <? new_size then
              let! (s, c, b, ret) := ntfs_ib_split memory past (S (Z.to_nat MAX_PARENT_VCN)) s (set_pindex level c) b in
              Ret (s, set_entry (Index.entry c) false (Some b) c, match ret with STATUS_OK => STATUS_KEEP_SEARCHING | r => r end)
            else rm_replace s c b h entry ie leaf ie_succ new_size STATUS_ERROR
        else rm_replace s c b h entry ie leaf ie_succ new_size STATUS_ERROR
      end
    else Ret (s, c, STATUS_ERROR)
  end.

(** index.c:1801-1842 ntfs_index_rm *)
Definition ntfs_index_rm (s : St) (c : ntfs_index_context) : outcome (St * ntfs_index_context * status) :=
  match entry c with
  | None => Fault
  | Some e =>
    let! (b, h) := ctx_node s c in
    let! last := ntfs_ie_end b e in
    if last : bool then Ret (s, c, STATUS_ERROR) else
    let! f := ie_flags b e in
    if negb (Z.land f INDEX_ENTRY_NODE =? 0) then ntfs_index_rm_node s c e else
    let! stays := Ret (is_in_root c) ||! o_not (ntfs_ih_one_entry b h) in
    if stays : bool then
      let! b := ntfs_ie_delete b h e in
      if is_in_root c then
        let! il := index_length b h in
        let! (s, err) := ntfs_ir_truncate (ir_put s b) il in
        Ret (s, c, match err with STATUS_OK => STATUS_OK | _ => STATUS_ERROR end)
      else ntfs_icx_ib_write s (set_entry (entry c) false (Some b) c)
    else let! (s, c, err) := rm_leaf s c in Ret (s, c, match err with STATUS_OK => STATUS_OK | _ => STATUS_ERROR end)
  end.

(** index.c:1862-1864 ntfs_index_remove. The entry is that of a reparse point. *)
Definition reparse_point (s : St) (c : ntfs_index_context) : outcome bool :=
  match entry c with
  | None => Fault
  | Some e => let! (b, _) := ctx_node s c in let! fa := rd_le 4 b (e + 16 + 0x38) in Ret (negb (Z.land fa 0x400 =? 0))
  end.

(** index.c:1854-1877 ntfs_index_remove. The loop; [symlink]: [ntfs_possible_symlink]. The error
    EUNSET is that of a function below. *)
Fixpoint remove_loop (fuel : nat) (symlink : bool) (s : St) (c : ntfs_index_context) (key : bytes) (keylen : Z) : outcome (St * ntfs_index_context * option errno_t) :=
  match fuel with
  | O => Fault
  | S fuel' =>
    let! (c, err) := ntfs_index_lookup memory get_collate cluster_size cluster_size_bits s c key keylen in
    match err with
    | Some e => Ret (s, c, Some e)
    | None =>
      let! reparse := reparse_point s c in
      if reparse && negb symlink then Ret (s, c, Some EOPNOTSUPP) else
      let! (s, c, ret) := ntfs_index_rm s c in
      match ret with
      | STATUS_OK => Ret (s, c, None)
      | STATUS_ERROR => Ret (s, c, Some EUNSET)
      | _ => let! (s, c) := ntfs_index_ctx_reinit s c in remove_loop fuel' symlink s c key keylen
      end
    end
  end.
(** index.c:1844-1884 ntfs_index_remove *)
Definition ntfs_index_remove (fuel : nat) (symlink : bool) (s : St) (key : bytes) (keylen : Z) : outcome (St * option errno_t) :=
  if memory then
    let! (s, c, err) := remove_loop fuel symlink s new_context key keylen in
    let! s := ntfs_index_ctx_put s c in
    Ret (s, err)
  else Ret (s, Some EUNSET).
End Rm.
