(* ===== verification/IndexRemoved.v ===== *)
(** * Index trees: what removing from a leaf promises (ntfs/index.c)

    An entry that a search finds in a leaf, of which it is not the only entry, is removed:
    the index keeps all other keys and its blocks. *)
From stdpp Require Import sorting.
From S2P Require Import Prelude Libc Fields Cond Index IndexAdd IndexNode IndexOps IndexSplit IndexTree IndexSearch IndexInv IndexGrow IndexInsert IndexRoom IndexEntry IndexAdded.
From S2P Require Import IndexWalk IndexRm.

(** The keys with one less. *)
Definition removed {f} {ord : key_order f} (key : bytes) (ks ks' : list bytes) : Prop := exists l k r, ks = l ++ k :: r /\ key_cmp key k = 0 /\ ks' = l ++ r.

(** ** Searching a key that is there *)
Section Found.
Context {f : COLLATE} {ord : key_order f} {St : Type} {attrs : index_attrs St}.
Context (s : St) (bs bits : Z) (junk : bytes).
Notation blk_of := (blocks s bs bits).

(** The entry that was found is in the leaf [leaf] with the vcn [v]; the other keys are
    [l] and [r]. *)
Definition in_leaf (c : ntfs_index_context) (key : bytes) (ks : list bytes) (vs : list Z) (leaf : bytes) (v : Z) (l r : list bytes) : Prop :=
  ib c = Some leaf /\ v ∈ vs /\ blk_of v = Ret leaf /\ exists pre es1 x es2 le tail, node_ok false leaf BLOCK_INDEX pre (es1 ++ x :: es2) le tail /\
    entry c = Some (zlen (pre ++ concat es1)) /\ ent_cmp key x = 0 /\ ks = l ++ map ent_key (es1 ++ x :: es2) ++ r.

(** Another leaf can take its place, in the tree below [b]. *)
Definition leaf_below (d : nat) (b : bytes) (h : Z) (c : ntfs_index_context) (key : bytes) (ks : list bytes) (vs : list Z) : Prop :=
  exists leaf v l r, in_leaf c key ks vs leaf v l r /\
    forall leaf' pre es le tail, node_ok false leaf' BLOCK_INDEX pre es le tail -> NoDup vs -> tree_at (rd_upd blk_of v leaf') d b h (l ++ map ent_key es ++ r) vs.
Definition leaf_in (d : nat) (b : bytes) (vcn : Z) (c : ntfs_index_context) (key : bytes) (ks : list bytes) (vs : list Z) : Prop :=
  exists leaf v l r, in_leaf c key ks (vcn :: vs) leaf v l r /\
    forall leaf' pre es le tail, node_ok false leaf' BLOCK_INDEX pre es le tail -> NoDup (vcn :: vs) ->
      tree_at (rd_upd blk_of v leaf') d (if vcn =? v then leaf' else b) BLOCK_INDEX (l ++ map ent_key es ++ r) vs.

(** The entry is in a node with children. *)
Definition in_inner (b : bytes) (h : Z) (c : ntfs_index_context) : Prop :=
  exists pre es1 x es2 le tail, node_ok true b h pre (es1 ++ x :: es2) le tail /\ entry c = Some (zlen (pre ++ concat es1)).

Lemma leaf_below_in d b vcn c key ks vs : leaf_below d b BLOCK_INDEX c key ks vs -> leaf_in d b vcn c key ks vs.
Proof using.
  intros (leaf & v & l & r & (Hib & Hv & H) & Hupd). exists leaf, v, l, r. split; [split; [done|]; split; [apply elem_of_cons; by right|done]|].
  intros leaf' pre es le tail Hn Hnd. apply NoDup_cons in Hnd as [Hnin Hnd]. destruct (Z.eqb_spec vcn v) as [->|_]; [done|]. by eapply Hupd.
Qed.

Lemma leaf_step d b h pre es1 es2 le tail t1 k w t2 es3 blk c key : let e := match es2 with x :: _ => x | [] => le end in
  node_ok true b h pre (es1 ++ es2) le tail -> kids s bs bits d ((es1 ++ es2) ++ [le]) (t1 ++ (k, w) :: t2) ->
  es2 ++ [le] = e :: es3 -> length t1 = length es1 -> blk_of (ent_vcn e) = Ret blk -> leaf_in d blk (ent_vcn e) c key k w ->
  leaf_below (S d) b h c key (weave_left (map ent_key es1) (map fst t1) ++ k ++ weave_right (map ent_key es2) (map fst t2)) (kids_vcns ((es1 ++ es2) ++ [le]) (t1 ++ (k, w) :: t2)).
Proof using.
  intros e Hn HF Ee Hl Eb (leaf & v & l & r & (Hib & Hv & Hbv & q & f1 & x & f2 & l' & tl & Hq & He & Ex & ->) & Hupd).
  unfold kids in HF. rewrite <- (assoc_L (++) es1 es2 [le]), Ee in HF |- *.
  set (L := weave_left _ _). set (R := weave_right _ _).
  exists leaf, v, (L ++ l), (r ++ R). split.
  - split; [done|]. split; [|split; [done|]].
    + rewrite kids_vcns_app by done. apply elem_of_app. right. unfold kids_vcns. cbn [zip_with concat snd]. apply elem_of_app. by left.
    + exists q, f1, x, f2, l', tl. split; [done|]. split; [done|]. split; [done|]. by rewrite <- !(assoc_L (++)).
  - intros leaf' q' g1 l'' tl' Hq' Hnd. rewrite <- !(assoc_L (++)). rewrite (assoc_L (++) _ r), (assoc_L (++) l).
    apply (replace_child blk_of d b h pre es1 e es3 le tail t1 _ w (l ++ map ent_key g1 ++ r) t2 v (if ent_vcn e =? v then leaf' else blk) leaf' es2); try done.
    + unfold rd_upd. destruct (Z.eqb_spec (ent_vcn e) v); done.
    + apply (Hupd leaf' q' g1 l'' tl' Hq'). rewrite kids_vcns_app in Hnd by done. apply NoDup_app in Hnd as (_ & _ & Hnd).
      unfold kids_vcns in Hnd. cbn [zip_with concat snd] in Hnd. by apply NoDup_app in Hnd as (Hnd & _ & _).
Qed.

(** What the search in a node of a tree has found. *)
Lemma node_found d b h ks vs key e item :
  tree_at blk_of d b h ks vs -> keys_ok ks -> key_valid key -> ntfs_ie_lookup (Some f) (key ++ junk) (zlen key) b h = Ret (IeFound e item) ->
  exists pre es1 x es2 le tail, node_ok (negb (d =? 0)%nat) b h pre (es1 ++ x :: es2) le tail /\ e = zlen (pre ++ concat es1) /\ ent_cmp key x = 0 /\
    (d = 0%nat -> ks = map ent_key (es1 ++ x :: es2)).
Proof using.
  intros Ht Hks Vk E. assert (exists pre es le tail, node_ok (negb (d =? 0)%nat) b h pre es le tail /\ (d = 0%nat -> ks = map ent_key es) /\
    Forall (fun x => key_valid (ent_key x)) es /\ Forall (fun x => 0 <= ent_vcn x) (if negb (d =? 0)%nat then es ++ [le] else [])) as (pre & es & le & tail & Hn & Ek & Vs & Hvcn).
  { destruct d as [|d]; cbn [tree_at] in Ht.
    - destruct Ht as (pre & es & le & tail & Hn & -> & _). exists pre, es, le, tail. split; [done|]. split; [done|]. split; [apply valid_keys, Hks|constructor].
    - destruct Ht as (pre & es & le & tail & subs & Hn & HF & -> & _). exists pre, es, le, tail. split; [done|]. split; [done|]. pose proof (Forall2_length _ _ _ HF) as Hlen. rewrite length_app in Hlen. cbn [length] in Hlen. split.
      + apply Forall_forall. intros x Hx. destruct Hks as [Hv _]. rewrite Forall_forall in Hv. apply Hv, weave_seps; [rewrite !length_map; lia|by apply (list_elem_of_fmap_2 ent_key)].
      + clear -HF. cbn [Nat.eqb negb]. induction HF as [|x sub l subs [Hx _] _ IHF]; by constructor. }
  destruct (ie_lookup_ok junk _ b h pre es le tail key Hn Vk Vs Hvcn) as (es1 & es2 & -> & _ & _ & El). rewrite El in E. clear El.
  destruct es2 as [|x es2]; [by destruct d|]. destruct (Z.eqb_spec (ent_cmp key x) 0) as [Ex|]; [|by destruct d]. injection E as <- <-.
  exists pre, es1, x, es2, le, tail. done.
Qed.
(** The child that the search goes on in. *)
Lemma node_child d b h ks vs key vcn item :
  tree_at blk_of (S d) b h ks vs -> keys_ok ks -> key_valid key -> ntfs_ie_lookup (Some f) (key ++ junk) (zlen key) b h = Ret (IeChild vcn item) ->
  exists blk k w, blk_of vcn = Ret blk /\ tree_at blk_of d blk BLOCK_INDEX k w /\ keys_ok k /\ forall c, leaf_in d blk vcn c key k w -> leaf_below (S d) b h c key ks vs.
Proof using.
  intros Ht Hks Vk E. cbn [tree_at] in Ht. destruct Ht as (pre & es & le & tail & subs & Hn & HF & Ek & ->).
  pose proof (Forall2_length _ _ _ HF) as Hlen. rewrite length_app in Hlen. cbn [length] in Hlen.
  assert (Forall (fun x => key_valid (ent_key x)) es) as Vs.
  { apply Forall_forall. intros x Hx. destruct Hks as [Hv _]. rewrite Forall_forall in Hv. apply Hv. rewrite Ek. apply weave_seps; [rewrite !length_map; lia|by apply (list_elem_of_fmap_2 ent_key)]. }
  assert (Forall (fun x => 0 <= ent_vcn x) (es ++ [le])) as Hvcn by (clear -HF; induction HF as [|x sub l subs [Hx _] _ IHF]; by constructor).
  destruct (ie_lookup_ok junk true b h pre es le tail key Hn Vk Vs Hvcn) as (es1 & es2 & -> & _ & _ & El). rewrite El in E. clear El.
  destruct (child_at blk_of d es1 es2 le subs HF) as (es3 & t1 & k & w & t2 & blk & Ee & Hl & -> & Eb & Ht & Ew). cbn zeta in *.
  rewrite Ew in Ek. exists blk, k, w. assert (vcn = ent_vcn match es2 with x :: _ => x | [] => le end) as ->.
  { destruct es2 as [|x es2]; [by injection E|]. destruct (ent_cmp key x =? 0); [done|by injection E]. }
  split; [done|]. split; [done|]. split; [rewrite Ek in Hks; by eapply keys_ok_mid|]. intros c Hc. rewrite Ek. by eapply leaf_step.
Qed.
Lemma store_ctx (c c' : ntfs_index_context) v : ctx_ok (f := f) bs bits c -> store_pos c v = Ret c' \/ store_vcn c v = Ret c' -> ctx_ok (f := f) bs bits c'.
Proof using.
  clear s. intros Hc [E|E]; [unfold store_pos in E|unfold store_vcn in E]; apply obind_ret in E as (l & E & [= <-]); apply wr_inv in E as [_ ->];
    (destruct Hc; constructor; try done; cbn; by rewrite zlen_insert).
Qed.

Lemma ie_found_leaf d b h ks vs key e item c : tree_at blk_of d b h ks vs -> keys_ok ks -> key_valid key -> ntfs_ie_lookup (Some f) (key ++ junk) (zlen key) b h = Ret (IeFound e item) ->
  entry c = Some e -> d <> 0%nat /\ in_inner b h c \/ d = 0%nat /\ vs = [] /\ exists pre es1 x es2 le tail, node_ok false b h pre (es1 ++ x :: es2) le tail /\
    entry c = Some (zlen (pre ++ concat es1)) /\ ent_cmp key x = 0 /\ ks = map ent_key (es1 ++ x :: es2).
Proof using.
  intros Ht Hks Vk E He. destruct (node_found d b h ks vs key e item Ht Hks Vk E) as (pre & es1 & x & es2 & le & tail & Hn & -> & Ex & Ek). destruct d as [|d].
  - right. split; [done|]. split; [by destruct Ht as (? & ? & ? & ? & _ & _ & ->)|]. exists pre, es1, x, es2, le, tail. split_and!; try done. by apply Ek.
  - left. split; [done|]. by exists pre, es1, x, es2, le, tail.
Qed.

Lemma descend_found d : forall fuel c blk vcn old ks vs key c', tree_at blk_of d blk BLOCK_INDEX ks vs -> blk_of vcn = Ret blk -> keys_ok ks -> key_valid key -> ctx_ok (f := f) bs bits c ->
  descend fuel s c (key ++ junk) (zlen key) old vcn = Ret (c', None) ->
  is_in_root c' = false /\ ctx_ok (f := f) bs bits c' /\ ((exists b, ib c' = Some b /\ in_inner b BLOCK_INDEX c') \/ leaf_in d blk vcn c' key ks vs).
Proof using.
  induction d as [d IH] using lt_wf_ind. intros fuel c blk vcn old ks vs key c' Ht Eb Hks Vk Hc E. destruct fuel as [|fuel]; [done|]. cbn [descend] in E.
  apply obind_ret in E as (c1 & E1 & E). pose proof (store_ctx _ _ _ Hc (or_intror E1)) as Hc1. unfold ntfs_icx_parent_inc in E. cbn [pindex set_pindex] in E. destruct (MAX_PARENT_VCN <=? pindex c1 + 1); [done|].
  set (c2 := set_pindex (pindex c1 + 1) c1) in *. assert (ctx_ok (f := f) bs bits c2) as Hc2 by (destruct Hc1; constructor; try done; cbn; lia).
  rewrite (ib_read_blocks s bs bits c2 vcn Hc2), Eb, (cx_collate _ _ _ Hc2) in E.
  destruct (ntfs_ie_lookup (Some f) (key ++ junk) (zlen key) blk BLOCK_INDEX) as [[e item|e|child item]|e|] eqn:El; try done.
  - apply obind_ret in E as (c3 & E3 & E). apply obind_ret in E as (c4 & E4 & [= <-]). pose proof (store_ctx _ _ _ (store_ctx _ _ _ Hc2 (or_introl E3)) (or_intror E4)) as Hc4.
    split; [done|]. split; [by destruct Hc4|]. set (c5 := set_entry (Some e) false (Some blk) c4).
    destruct (ie_found_leaf d blk BLOCK_INDEX ks vs key e item c5 Ht Hks Vk El eq_refl) as [[_ Hin]|(-> & -> & pre & es1 & x & es2 & le & tail & Hn & He & Ex & ->)]; [left; by exists blk|right].
    exists blk, vcn, [], []. split; [split; [done|]; split; [apply elem_of_cons; by left|]; split; [done|]|].
    + exists pre, es1, x, es2, le, tail. rewrite app_nil_r. done.
    + intros leaf' pre' es' le' tail' Hn' _. rewrite Z.eqb_refl, app_nil_r. cbn [tree_at app]. by exists pre', es', le', tail'.
  - apply obind_ret in E as (c3 & _ & [=]).
  - apply obind_ret in E as (c3 & E3 & E). pose proof (store_ctx _ _ _ Hc2 (or_introl E3)) as Hc3. apply obind_ret in E as (fl & Efl & E).
    destruct (Z.land fl NODE_MASK =? LEAF_NODE); [done|]. destruct d as [|d].
    { exfalso. cbn [tree_at] in Ht. destruct Ht as (pre & es & le & tail & Hn & -> & _). destruct (ie_lookup_ok junk false blk BLOCK_INDEX pre es le tail key Hn Vk) as (es1 & es2 & _ & _ & _ & El'); [apply valid_keys, Hks|constructor|].
      rewrite El' in El. by destruct (match es2 with x :: _ => _ | [] => false end). }
    destruct (node_child d blk BLOCK_INDEX ks vs key child item Ht Hks Vk El) as (blk' & k & w & Eb' & Ht' & Hk' & Hup).
    destruct (IH d ltac:(lia) fuel c3 blk' child vcn k w key c' Ht' Eb' Hk' Vk Hc3 E) as (Hr & Hc' & [Hin|Hin]); split; try done; (split; [done|]); [by left|right].
    by apply leaf_below_in, Hup.
Qed.

(** Where a key that was found is. *)
Lemma lookup_found get_collate cluster_size cluster_size_bits c ir d ks vs key c' :
  index_ok s bs bits get_collate cluster_size cluster_size_bits ir d ks vs -> key_valid key -> zlen (parent_pos c) = 32 -> zlen (parent_vcn c) = 32 -> 0 <= pindex c ->
  ntfs_index_lookup true get_collate cluster_size cluster_size_bits s c (key ++ junk) (zlen key) = Ret (c', None) ->
  ctx_ok (f := f) bs bits c' /\
  ((exists b h, ctx_node s c' = Ret (b, h) /\ in_inner b h c') \/
   (is_in_root c' = true /\ d = 0%nat /\ exists pre es1 x es2 le tail, node_ok false ir ROOT_INDEX pre (es1 ++ x :: es2) le tail /\
      entry c' = Some (zlen (pre ++ concat es1)) /\ ent_cmp key x = 0 /\ ks = map ent_key (es1 ++ x :: es2)) \/
   (is_in_root c' = false /\ leaf_below d ir ROOT_INDEX c' key ks vs)).
Proof using.
  intros Hix Vk Hp Hv Hi E. destruct (ix_size _ _ _ _ _ _ _ _ _ _ Hix) as [Es Hbs]. destruct (ix_rule _ _ _ _ _ _ _ _ _ _ Hix) as (rule & Er & Ec).
  unfold ntfs_index_lookup in E. destruct (zlen key <=? 0); [done|]. rewrite (ix_root _ _ _ _ _ _ _ _ _ _ Hix), Es in E. cbn [obind] in E.
  destruct (Z.ltb_spec bs 512); [done|]. rewrite Er in E. cbn [obind] in E. rewrite Ec in E. rewrite <- (ix_bits _ _ _ _ _ _ _ _ _ _ Hix) in E.
  set (c1 := set_params (Some f) bs bits c) in *. assert (ctx_ok (f := f) bs bits c1) as Hc1 by (constructor; first [done|cbn; lia]). rewrite (cx_collate _ _ _ Hc1) in E.
  pose proof (ix_tree _ _ _ _ _ _ _ _ _ _ Hix) as Ht. pose proof (ix_keys _ _ _ _ _ _ _ _ _ _ Hix) as Hks.
  destruct (ntfs_ie_lookup (Some f) (key ++ junk) (zlen key) ir ROOT_INDEX) as [[e item|e|child item]|e|] eqn:El; try done.
  - apply obind_ret in E as (c3 & E3 & E). apply obind_ret in E as (c4 & E4 & [= <-]). pose proof (store_ctx _ _ _ (store_ctx _ _ _ Hc1 (or_introl E3)) (or_intror E4)) as Hc4.
    split; [by destruct Hc4|]. set (c5 := set_entry (Some e) true (ib c4) c4).
    destruct (ie_found_leaf d ir ROOT_INDEX ks vs key e item c5 Ht Hks Vk El eq_refl) as [[_ Hin]|(-> & _ & H1)]; [left|right; by left].
    exists ir, ROOT_INDEX. split; [|done]. unfold ctx_node. cbn [is_in_root set_entry c5]. by rewrite (ix_root _ _ _ _ _ _ _ _ _ _ Hix).
  - apply obind_ret in E as (c3 & _ & [=]).
  - apply obind_ret in E as (c3 & E3 & E). pose proof (store_ctx _ _ _ Hc1 (or_introl E3)) as Hc3. destruct (ia_open s) as [[]| |]; try done.
    destruct d as [|d].
    { exfalso. cbn [tree_at] in Ht. destruct Ht as (pre & es & le & tail & Hn & -> & _). destruct (ie_lookup_ok junk false ir ROOT_INDEX pre es le tail key Hn Vk) as (es1 & es2 & _ & _ & _ & El'); [apply valid_keys, Hks|constructor|].
      rewrite El' in El. by destruct (match es2 with x :: _ => _ | [] => false end). }
    destruct (node_child d ir ROOT_INDEX ks vs key child item Ht Hks Vk El) as (blk & k & w & Eb & Ht' & Hk' & Hup).
    destruct (descend_found d _ c3 blk child _ k w key c' Ht' Eb Hk' Vk Hc3 E) as (Hr & Hc' & [(b & Hib & Hin)|Hin]); (split; [done|]).
    + left. exists b, BLOCK_INDEX. split; [|done]. unfold ctx_node. by rewrite Hr, Hib.
    + right. right. split; [done|]. by apply Hup.
Qed.
End Found.

Lemma keys_ok_remove {f} {ord : key_order f} key ks ks' : keys_ok ks -> removed key ks ks' -> keys_ok ks'.
Proof.
  intros [Hv Hs] (l & k & r & -> & _ & ->). apply Forall_app in Hv as [Vl Vr]. apply Forall_cons in Vr as [_ Vr]. split; [apply Forall_app; by split|].
  apply StronglySorted_app_2; [|by eapply StronglySorted_app_1_l|apply StronglySorted_app_1_r in Hs; by apply StronglySorted_inv in Hs as [Hs _]].
  intros x y Hx Hy. eapply StronglySorted_app_1_elem_of; [exact Hs|done|]. apply elem_of_cons. by right.
Qed.

(** ** Removing *)
Section Remove.
Context {f : COLLATE} {ord : key_order f} {St : Type} {attrs : index_attrs St} {space : index_space St} {bs : Z} {laws : index_laws attrs space bs} {fits : resident_fits space bs}.
Context (bits : Z) (get_collate : Z -> option COLLATE) (cluster_size cluster_size_bits M : Z) (past : bytes).
Notation blocks s := (IndexTree.blocks s bs bits).
Notation tree_inv := (IndexInsert.tree_inv (bs := bs) bits get_collate cluster_size cluster_size_bits M).
Notation sized := (IndexInsert.sized M).
Context (Hbits : 0 <= bits) (Hbs : 512 <= bs < 2 ^ 15).

Lemma sized_del es1 x es2 le : sized false (es1 ++ x :: es2) le -> sized false (es1 ++ es2) le.
Proof using. intros [F Hl]. split; [|done]. apply Forall_app in F as [F1 F2]. apply Forall_cons in F2 as [_ F2]. apply Forall_app. by split. Qed.

(** From the root, when it is a leaf. *)
Lemma delete_root s ir ks vs pre es1 x es2 le tail key :
  tree_inv s ir 0 ks vs -> node_ok false ir ROOT_INDEX pre (es1 ++ x :: es2) le tail -> removed key ks (map ent_key (es1 ++ es2)) ->
  exists b' pre' tail', ntfs_ie_delete ir ROOT_INDEX (zlen (pre ++ concat es1)) = Ret b' /\ tree_inv (ir_put s b') b' 0 (map ent_key (es1 ++ es2)) vs /\
    node_ok false b' ROOT_INDEX pre' (es1 ++ es2) le tail' /\ zlen b' = zlen ir.
Proof using laws.
  clear Hbits Hbs. intros Hinv Hn Hrm. destruct (node_delete_ok false ir ROOT_INDEX pre es1 x es2 le tail Hn) as (tail' & E & Hn' & Hz).
  eexists _, _, tail'. split; [exact E|]. split; [|split; [exact Hn'|exact Hz]]. eapply replace_root; [exact Hinv|exact Hn|exact Hn'|exact Hz| | |].
  - eapply sized_del. apply (root_sized M ir _ _ _ _ _ (tv_root _ _ _ _ _ _ _ _ _ _ Hinv) Hn).
  - eapply keys_ok_remove; [apply (ix_keys _ _ _ _ _ _ _ _ _ _ (tv_index _ _ _ _ _ _ _ _ _ _ Hinv))|exact Hrm].
  - by apply (node_front _ _ _ _ _ _ _ _ _ _ _ _ _ Hn Hn').
Qed.

(** From a block, which is written. *)
Lemma delete_leaf s ir d ks vs leaf v l r pre es1 x es2 le tail key :
  tree_inv s ir d ks vs -> blocks s v = Ret leaf -> v ∈ vs -> node_ok false leaf BLOCK_INDEX pre (es1 ++ x :: es2) le tail -> removed key ks (l ++ map ent_key (es1 ++ es2) ++ r) ->
  (forall leaf' pre es le tail, node_ok false leaf' BLOCK_INDEX pre es le tail -> NoDup vs ->
      tree_at (rd_upd (blocks s) v leaf') d ir ROOT_INDEX (l ++ map ent_key es ++ r) vs) ->
  exists b', ntfs_ie_delete leaf BLOCK_INDEX (zlen (pre ++ concat es1)) = Ret b' /\ forall c, vcn_size_bits c = bits ->
    exists s' w, ntfs_ib_write s c b' = (s', w) /\ w <> Fault /\ (w = Ret tt -> tree_inv s' ir d (l ++ map ent_key (es1 ++ es2) ++ r) vs).
Proof using laws Hbits Hbs.
  intros Hinv Eb Hv Hn Hrm Hupd. destruct (node_delete_ok false leaf BLOCK_INDEX pre es1 x es2 le tail Hn) as (tail' & E & Hn' & Hz). destruct (no_head _ _ _ _ _ _ _ Hn) as [_ Hh].
  eexists. split; [exact E|]. eapply replace_leaf; [exact Hbits|exact Hbs|exact Hinv|exact Eb|exact Hv|exact Hn|exact Hn'|exact Hz| | | | |exact Hupd].
  - apply zlen_with_len; unfold BLOCK_INDEX in *; lia.
  - apply sized_del.
  - eapply keys_ok_remove; [apply (ix_keys _ _ _ _ _ _ _ _ _ _ (tv_index _ _ _ _ _ _ _ _ _ _ Hinv))|exact Hrm].
  - by apply (node_front _ _ _ _ _ _ _ _ _ _ _ _ _ Hn Hn').
Qed.

Lemma entry_end nd b h pre es1 x es2 le tail : node_ok nd b h pre (es1 ++ x :: es2) le tail -> ntfs_ie_end b (zlen (pre ++ concat es1)) = Ret false.
Proof using.
  intros Hn. destruct (at_place _ _ _ _ _ _ _ _ Hn) as (q & -> & Hx). by apply (ent_end _ _ _ Hx).
Qed.

(** The entry of the context is in a leaf, and not the only one of a block: what
    [ntfs_index_rm] looks at. *)
Definition leaf_entry (s : St) (c : ntfs_index_context) : Prop :=
  exists b h e fl, ctx_node s c = Ret (b, h) /\ entry c = Some e /\ ie_flags b e = Ret fl /\ Z.land fl INDEX_ENTRY_NODE = 0 /\ (is_in_root c = true \/ ntfs_ih_one_entry b h = Ret false).

(** C7. When a search has found a key in a leaf, in the root or in a block with other
    entries, [ntfs_index_rm] makes no invalid access and does not ask for another round;
    when it reports success, the index is again a well-formed sorted tree, of the same
    depth and blocks, with this key removed and all others kept. *)
Theorem index_rm_leaf_spec s ir d ks vs c key junk c' rounds :
  tree_inv s ir d ks vs -> key_valid key -> zlen (parent_pos c) = 32 -> zlen (parent_vcn c) = 32 -> 0 <= pindex c ->
  ntfs_index_lookup true get_collate cluster_size cluster_size_bits s c (key ++ junk) (zlen key) = Ret (c', None) -> leaf_entry s c' ->
  exists s' c2 st, ntfs_index_rm true past get_collate cluster_size cluster_size_bits rounds s c' = Ret (s', c2, st) /\
    (st = STATUS_OK /\ (exists ir' ks', tree_inv s' ir' d ks' vs /\ removed key ks ks') \/ st = STATUS_ERROR).
Proof using laws fits Hbits Hbs.
  intros Hinv Vk Hp Hv Hi E (b & h & e & fl & Eb & Ee & Efl & Hfl & Hstay). pose proof (tv_index _ _ _ _ _ _ _ _ _ _ Hinv) as Hix.
  destruct (lookup_found s bs bits junk get_collate cluster_size cluster_size_bits c ir d ks vs key c' Hix Vk Hp Hv Hi E) as (Hc & Hcase).
  unfold ntfs_index_rm. rewrite Ee, Eb. cbn [obind].
  destruct Hcase as [(b' & h' & Eb' & pre & es1 & x & es2 & le & tail & Hn & He)|[(Hr & -> & pre & es1 & x & es2 & le & tail & Hn & He & Ex & ->)|(Hr & leaf & v & l & r & (Hib & Hvin & Hbv & pre & es1 & x & es2 & le & tail & Hn & He & Ex & ->) & Hupd)]].
  - exfalso. rewrite Eb in Eb'. injection Eb' as <- <-. rewrite Ee in He. injection He as ->. destruct (flags_at _ _ _ _ _ _ _ _ Hn) as (fl' & Efl' & Hnode & _). rewrite Efl in Efl'. injection Efl' as <-. by rewrite Hfl in Hnode.
  - unfold ctx_node in Eb. rewrite Hr, (ix_root _ _ _ _ _ _ _ _ _ _ Hix) in Eb. cbn [obind] in Eb. injection Eb as <- <-. rewrite Ee in He. injection He as ->.
    rewrite (entry_end _ _ _ _ _ _ _ _ _ Hn). cbn [obind]. rewrite Efl. cbn [obind]. rewrite Hfl. cbn [Z.eqb negb]. rewrite Hr. unfold o_or. cbn [obind].
    destruct (delete_root s ir _ vs pre es1 x es2 le tail key Hinv Hn) as (b' & pre' & tail' & -> & Hinv' & Hn' & Hz); [exists (map ent_key es1), (ent_key x), (map ent_key es2); by rewrite !map_app|].
    cbn [obind]. rewrite (no_len _ _ _ _ _ _ _ Hn'). cbn [obind].
    destruct (ir_truncate_ok bits get_collate cluster_size cluster_size_bits M (ir_put s b') b' 0 (map ent_key (es1 ++ es2)) vs false pre' (es1 ++ es2) le tail' (zlen pre' - ROOT_INDEX + zlen (concat (es1 ++ es2)) + zlen le) Hinv' Hn')
      as (s2 & st & -> & Hst).
    { pose proof (node_size _ _ _ _ _ _ _ Hn'). destruct (root_sized M _ _ _ _ _ _ (tv_root _ _ _ _ _ _ _ _ _ _ Hinv') Hn') as [_ Hf]. pose proof (first_offset_bounds bs ltac:(lia)). assert (0 <= bs / 512) by (apply Z.div_pos; lia). pose proof (zlen_nonneg tail'). unfold ROOT_INDEX in *. lia. }
    cbn [obind]. eexists _, _, _. split; [done|]. destruct st; [left|by right..]. split; [done|]. destruct Hst as (ir' & _ & _ & Hinv2 & _). exists ir', (map ent_key (es1 ++ es2)). split; [done|].
    exists (map ent_key es1), (ent_key x), (map ent_key es2). by rewrite !map_app.
  - unfold ctx_node in Eb. rewrite Hr, Hib in Eb. injection Eb as <- <-. rewrite Ee in He. injection He as ->. destruct Hstay as [?|Hone]; [congruence|].
    rewrite (entry_end _ _ _ _ _ _ _ _ _ Hn). cbn [obind]. rewrite Efl. cbn [obind]. rewrite Hfl. cbn [Z.eqb negb]. rewrite Hr, Hone. unfold o_or, o_not. cbn [obind negb].
    assert (removed key (l ++ map ent_key (es1 ++ x :: es2) ++ r) (l ++ map ent_key (es1 ++ es2) ++ r)) as Hrm.
    { exists (l ++ map ent_key es1), (ent_key x), (map ent_key es2 ++ r). rewrite !map_app. cbn [map]. by rewrite <- !(assoc_L (++)). }
    destruct (delete_leaf s ir d _ vs leaf v l r pre es1 x es2 le tail key Hinv Hbv Hvin Hn Hrm Hupd) as (b' & -> & Hw). cbn [obind]. unfold ntfs_icx_ib_write. cbn [ib set_entry].
    destruct (Hw (set_entry (Some (zlen (pre ++ concat es1))) false (Some b') c')) as (s' & w & -> & Hwf & Hok); [apply (cx_bits _ _ _ Hc)|].
    destruct w as [[]|er|]; [| |done]; (eexists _, _, _; split; [done|]); [left|by right]. split; [done|]. exists ir. eexists. split; [by apply Hok|done].
Qed.
End Remove.

Notation mem_inv gc := (IndexInsert.tree_inv (ord := ulong_order) (bs := 512) 9 gc 512 9 400).

(** The context at the key 20 of the first leaf. *)
Definition at_twenty : ntfs_index_context := match ntfs_index_lookup true ulong_rule 512 9 mem0 new_context (le_bytes 4 20 ++ []) 4 with Ret (c, _) => c | _ => new_context end.

Lemma index_rm_leaf_spec_witness : exists s' c2 st, ntfs_index_rm true (replicate 8 0) ulong_rule 512 9 5 mem0 at_twenty = Ret (s', c2, st) /\
  (st = STATUS_OK /\ (exists ir' ks', mem_inv ulong_rule s' ir' 1 ks' [0; 1] /\ removed (ord := ulong_order) (le_bytes 4 20) small_keys ks') \/ st = STATUS_ERROR).
Proof.
  apply (index_rm_leaf_spec (ord := ulong_order) (bs := 512) 9 ulong_rule 512 9 400 (replicate 8 0) ltac:(lia) ltac:(lia) mem0 small_root 1 small_keys [0; 1] new_context (le_bytes 4 20) [] at_twenty 5);
    [exact mem0_inv|reflexivity|reflexivity|reflexivity|cbn; lia|vm_compute; reflexivity|].
  eexists _, _, _, _. split; [vm_compute; reflexivity|]. split; [vm_compute; reflexivity|]. split; [vm_compute; reflexivity|]. split; [reflexivity|]. right. vm_compute. reflexivity.
Defined.

(** The code, run on the index of two leaves: each of the keys is removed, from a leaf or
    from the root with its successor, and the others stay; so does the last key of a leaf,
    with which the leaf goes. *)
Definition remove_key (s : index_memory) (k : Z) : outcome index_memory :=
  let! (c, _) := ntfs_index_lookup true ulong_rule 512 9 s new_context (le_bytes 4 k) 4 in
  let! (s, c, st) := ntfs_index_rm true (replicate 8 0) ulong_rule 512 9 5 s c in
  match st with STATUS_OK => ntfs_index_ctx_put s c | _ => Fail EUNSET end.
Fixpoint remove_keys (s : index_memory) (ks : list Z) : outcome index_memory := match ks with [] => Ret s | k :: ks' => let! s := remove_key s k in remove_keys s ks' end.
Definition walk_after (ks : list Z) : outcome (list bytes) := let! s := remove_keys mem0 ks in read_all 9 (ntfs_read_sii ulong_rule 512 9 true s) s new_context None.
Example remove_each : map (fun k => walk_after [k]) [10; 20; 50; 60; 70] =
  map (fun l => Ret (map (le_bytes 4) l)) [[20; 50; 60; 70]; [10; 50; 60; 70]; [10; 20; 60; 70]; [10; 20; 50; 70]; [10; 20; 50; 60]].
Proof. vm_compute. reflexivity. Qed.

(** So does every sequence of up to four removals, in every order. After the fifth the
    index is empty, and the walk still returns an entry: the end, with an empty key. *)
Fixpoint choices (ks : list Z) (n : nat) : list (list Z) := match n with O => [[]] | S n => [] :: flat_map (fun k => map (cons k) (choices (filter (fun j => j <> k) ks) n)) ks end.
Definition rest_of (ks : list Z) : outcome (list bytes) := Ret (map (le_bytes 4) (filter (fun k => k ∉ ks) [10; 20; 50; 60; 70])).
Example remove_any : map walk_after (choices [10; 20; 50; 60; 70] 4) = map rest_of (choices [10; 20; 50; 60; 70] 4).
Proof. vm_compute. reflexivity. Qed.
Example remove_all : walk_after [10; 20; 50; 60; 70] = Ret [[]].
Proof. vm_compute. reflexivity. Qed.
