(* ===== verification/Sid.v ===== *)
(** * SIDs and their Linux counterparts (acls.c)

    A SID names a user or a group of Windows: a revision, a count, an authority of 48
    bits and up to 15 sub-authorities.  The mapping list associates SIDs with uids or
    gids; a last item without an id is a pattern from which SIDs are derived.

    A [const SID *] is the list of the bytes from the pointer to the end of the object
    it points into, so that reading behind the object is a [Fault].  uid_t and gid_t
    are [int] in this port (types.h:94). *)
From S2P Require Import Prelude Libc Cond.

(** What is at an index of an object: a pointer before its start cannot be used. *)
Definition at_ptr (m : bytes) (p : Z) : bytes := if p <? 0 then [] else drop (Z.to_nat p) m.

(** ** The SID *)
(** layout.h:1424-1431 SID. The fields; the indices of sub_authority are not checked. *)
Definition revision (sid : bytes) : outcome Z := rd sid 0.
Definition sub_authority_count (sid : bytes) : outcome Z := rd sid 1.
Definition high_part (sid : bytes) : outcome Z := rd_le 2 sid 2.
Definition low_part (sid : bytes) : outcome Z := rd_le 4 sid 4.
Definition sub_authority (sid : bytes) (i : Z) : outcome Z := rd_le 4 sid (8 + 4 * i).
Definition set_sub_authority (sid : bytes) (i v : Z) : outcome bytes := wrn sid (8 + 4 * i) (le_bytes 4 v).

(** layout.h:1437-1437 SID_REVISION *)
Definition SID_REVISION : Z := 1.

(** security.h:41-41 const_cpu_to_be16 *)
Definition const_cpu_to_be16 (x : Z) : Z := Z.shiftl (Z.land x 255) 8 + Z.land (Z.shiftr x 8) 255.
(** security.h:42-43 const_cpu_to_be32 *)
Definition const_cpu_to_be32 (x : Z) : Z :=
  Z.shiftl (Z.land x 255) 24 + Z.shiftl (Z.land x 0xff00) 8 + Z.land (Z.shiftr x 8) 0xff00 + Z.land (Z.shiftr x 24) 255.
(** acls.h:43-44 endian_rev32 *)
Definition endian_rev32 (x : Z) : Z :=
  Z.lor (Z.lor (Z.lor (Z.land (Z.shiftr x 24) 255) (Z.land (Z.shiftr x 8) 0xff00)) (u32 (Z.shiftl (Z.land x 0xff00) 8))) (u32 (Z.shiftl (Z.land x 255) 24)).

(** acls.c:113-118 nullsidbytes *)
Definition nullsid : bytes := [1; 1; 0; 0; 0; 0; 0; 0; 0; 0; 0; 0].
(** acls.c:126-131 worldsidbytes *)
Definition worldsid : bytes := [1; 1; 0; 0; 0; 0; 0; 1; 0; 0; 0; 0].
(** acls.c:137-142 authsidbytes *)
Definition authsid : bytes := [1; 1; 0; 0; 0; 0; 0; 5; 11; 0; 0; 0].
(** acls.c:152-158 adminsidbytes *)
Definition adminsid : bytes := [1; 2; 0; 0; 0; 0; 0; 5; 32; 0; 0; 0; 32; 2; 0; 0].
(** acls.c:166-171 systemsidbytes *)
Definition systemsid : bytes := [1; 1; 0; 0; 0; 0; 0; 5; 18; 0; 0; 0].
(** acls.c:180-185 ownersidbytes *)
Definition ownersid : bytes := [1; 1; 0; 0; 0; 0; 0; 3; 0; 0; 0; 0].
(** acls.c:194-199 groupsidbytes *)
Definition groupsid : bytes := [1; 1; 0; 0; 0; 0; 0; 3; 1; 0; 0; 0].

(** acls.c:213-216 ntfs_sid_size *)
Definition ntfs_sid_size (sid : bytes) : outcome Z := let! c := sub_authority_count sid in Ret (c * 4 + 8).

(** acls.c:222-229 ntfs_same_sid *)
Definition ntfs_same_sid (first second : bytes) : outcome bool :=
  let! size := ntfs_sid_size first in
  let! size2 := ntfs_sid_size second in
  Ret (size2 =? size) &&! (let! c := memcmp first second size in Ret (c =? 0)).

(** The beginnings that [is_world_sid] and [ntfs_is_user_sid] look for. *)
Definition sid_begins (sid : bytes) (count auth sub0 : Z) : outcome bool :=
  (let! c := sub_authority_count sid in Ret (c =? count)) &&!
  (let! h := high_part sid in Ret (h =? const_cpu_to_be16 0)) &&!
  (let! l := low_part sid in Ret (l =? const_cpu_to_be32 auth)) &&!
  (let! s := sub_authority sid 0 in Ret (s =? sub0)).

(** acls.c:236-258 is_world_sid *)
Definition is_world_sid (usid : bytes) : outcome bool :=
  sid_begins usid 1 1 0 ||!
  (sid_begins usid 2 5 32 &&! (let! s := sub_authority usid 1 in Ret (s =? 545))) ||!
  sid_begins usid 1 5 11.

(** acls.c:266-272 ntfs_is_user_sid *)
Definition ntfs_is_user_sid (usid : bytes) : outcome bool := sid_begins usid 5 5 21.

(** acls.c:339-344 ntfs_valid_sid *)
Definition ntfs_valid_sid (sid : bytes) : outcome bool :=
  (let! r := revision sid in Ret (r =? SID_REVISION)) &&!
  (let! c := sub_authority_count sid in Ret (1 <=? c)) &&!
  (let! c := sub_authority_count sid in Ret (c <=? 8)).

(** acls.c:356-366 ntfs_valid_pattern *)
Definition ntfs_valid_pattern (sid : bytes) : outcome bool :=
  let! cnt := sub_authority_count sid in
  let! auth := sub_authority sid (cnt - 1) in
  Ret ((1000 <=? auth) && (auth <=? 0x7fffffff)).

(** ** Mapping between SIDs and ids *)
(** acls.h:118-118 BIGSID. A local buffer; [memcpy] of a SID into it. *)
Definition copy_sid (sid : bytes) : outcome bytes :=
  let! size := ntfs_sid_size sid in
  memcpy (replicate 40 0) 0 sid 0 size.

(** acls.c:405-412 findimplicit. The loop over the carries. *)
Fixpoint carry_loop (n : nat) (psid xsid : bytes) (cnt carry : Z) : outcome Z :=
  match n with
  | O => Fault
  | S n' =>
    let! leauth := sub_authority psid (cnt - 2) in
    let! psid := set_sub_authority psid (cnt - 2) (u32 (leauth + 1)) in
    let! same := ntfs_same_sid psid xsid in
    if same then Ret carry
    else if carry + 1 <? 4 then carry_loop n' psid xsid cnt (carry + 1) else Ret (carry + 1)
  end.

(** acls.c:375-422 findimplicit *)
Definition findimplicit (xsid pattern : bytes) (parity : Z) : outcome Z :=
  let! psid := copy_sid pattern in
  let! cnt := sub_authority_count psid in
  let! xcnt := sub_authority_count xsid in
  if negb (xcnt =? cnt) then Ret 0 else
  let! xlast := sub_authority xsid (cnt - 1) in
  let! psid := set_sub_authority psid (cnt - 1) xlast in
  let! rlast := sub_authority pattern (cnt - 1) in
  if negb ((rlast <? xlast) && (Z.land (Z.lxor (Z.lxor xlast rlast) parity) 1 =? 0)) then Ret 0 else
  let xid := Z.land (Z.shiftr (xlast - rlast) 1) 0x3fffffff in
  let! same := ntfs_same_sid psid xsid in
  if same then Ret xid else
  let! carry := carry_loop 3 psid xsid cnt 1 in
  if carry <? 4 then Ret (Z.lor xid (Z.shiftl carry 30)) else Ret 0.

(** security.h:53-59 MAPPING. The chained list is a list; the groups of a user are
    not used here. *)
Record mapping_item := MAPPING { m_xid : Z; m_sid : bytes }.

(** acls.c:447-455 ntfs_find_usid. The SID that the pattern gives an id; [parity] is 0
    for a user, 1 for a group. *)
Definition implicit_sid (sid : bytes) (id parity : Z) : outcome bytes :=
  let! def := copy_sid sid in
  let! cnt := sub_authority_count def in
  let! leauth := sub_authority def (cnt - 1) in
  let! def := set_sub_authority def (cnt - 1) (u32 (leauth + 2 * Z.land id 0x3fffffff + parity)) in
  if Z.land id 0xc0000000 =? 0 then Ret def else
  let! leauth := sub_authority def (cnt - 2) in
  set_sub_authority def (cnt - 2) (u32 (leauth + Z.land (Z.shiftr id 30) 3)).

(** acls.c:436-462 ntfs_find_usid. The search, common with ntfs_find_gsid; [None] is
    NULL. *)
Fixpoint find_xsid (p : list mapping_item) (id parity : Z) : outcome (option bytes) :=
  match p with
  | [] => Ret None
  | i :: p' =>
    if m_xid i =? 0 then let! sid := implicit_sid (m_sid i) id parity in Ret (Some sid)
    else if m_xid i =? id then Ret (Some (m_sid i)) else find_xsid p' id parity
  end.

(** acls.c:429-466 ntfs_find_usid *)
Definition ntfs_find_usid (usermapping : list mapping_item) (uid : Z) : outcome (option bytes) :=
  if uid =? 0 then Ret (Some adminsid) else find_xsid usermapping uid 0.

(** acls.c:473-510 ntfs_find_gsid *)
Definition ntfs_find_gsid (groupmapping : list mapping_item) (gid : Z) : outcome (option bytes) :=
  if gid =? 0 then Ret (Some adminsid) else find_xsid groupmapping gid 1.

(** acls.c:522-531 ntfs_find_user. The search, common with ntfs_find_group; the u32 of
    [findimplicit] becomes an [int]. *)
Fixpoint find_xid (p : list mapping_item) (sid : bytes) (parity : Z) : outcome Z :=
  match p with
  | [] => Ret 0
  | i :: p' =>
    if m_xid i =? 0 then let! x := findimplicit sid (m_sid i) parity in Ret (s32 x)
    else let! same := ntfs_same_sid sid (m_sid i) in
      if same then Ret (m_xid i) else find_xid p' sid parity
  end.

(** acls.c:517-533 ntfs_find_user *)
Definition ntfs_find_user (usermapping : list mapping_item) (usid : bytes) : outcome Z := find_xid usermapping usid 0.

(** acls.c:540-556 ntfs_find_group *)
Definition ntfs_find_group (groupmapping : list mapping_item) (gsid : bytes) : outcome Z := find_xid groupmapping gsid 1.

(** ** The mapping file

    A text is the bytes from the pointer on, the terminating NUL among them. *)
Definition is_digit (c : Z) : bool := (48 <=? c) && (c <=? 57).

(** acls.c:4004-4012 atoul. An unsigned long has 32 bits here. *)
Fixpoint atoul_from (p : bytes) (v : Z) : outcome Z :=
  match p with
  | [] => Fault
  | c :: p' => if is_digit c then atoul_from p' (u32 (v * 10 + c - 48)) else Ret v
  end.
Definition atoul (p : bytes) : outcome Z := atoul_from p 0.

(** stdlib.c:4-12 atoi. It goes on to the end of the text. *)
Fixpoint atoi_from (str : bytes) (k : Z) : outcome Z :=
  match str with
  | [] => Fault
  | c :: str' => if c =? 0 then Ret k else atoi_from str' (s32 (8 * k + 2 * k + s8 c - 48))
  end.
Definition atoi (str : bytes) : outcome Z := atoi_from str 0.

(** acls.c:4035-4043 encodesid. The sub-authorities: [n] more may follow; [p] is the
    text from the next '-' on. *)
Fixpoint encode_subs (n : nat) (bsid p : bytes) (cnt : Z) : outcome (bytes * Z) :=
  let! q := strchr p 45 in
  match q with
  | None => Ret (bsid, cnt)
  | Some i =>
    match n with
    | O => Ret (bsid, cnt)
    | S n' =>
      let p := drop (S (Z.to_nat i)) p in
      let! auth := atoul p in
      let! bsid := set_sub_authority bsid cnt auth in
      encode_subs n' bsid p (cnt + 1)
    end
  end.

(** acls.c:4020-4054 encodesid. [None] is NULL; [pool] says whether the allocation
    succeeds. The text "S-1-" is 83, 45, 49, 45. *)
Definition encodesid (pool : Z -> bool) (sidstr : bytes) : outcome (option bytes) :=
  let! differs := strncmp sidstr [83; 45; 49; 45; 0] 4 in
  match differs with
  | Some _ => Ret None
  | None =>
    let bsid := replicate 40 0 in
    let! bsid := wr bsid 0 SID_REVISION in
    let p := drop 4 sidstr in
    let! auth := atoul p in
    let! bsid := wrn bsid 2 (le_bytes 2 (const_cpu_to_be16 0)) in
    let! bsid := wrn bsid 4 (le_bytes 4 (endian_rev32 auth)) in
    let! (bsid, cnt) := encode_subs 8 bsid p 0 in
    let! bsid := wr bsid 1 (u8 cnt) in
    let! good := Ret (0 <? cnt) &&! ntfs_valid_sid bsid &&! ntfs_is_user_sid bsid in
    if negb good then Ret None else
    match malloc pool (4 * cnt + 8) with
    | None => Ret None
    | Some sid => let! sid := memcpy sid 0 bsid 0 (4 * cnt + 8) in Ret (Some sid)
    end
  end.

(** acls.h:125-131 MAPLIST. The texts of a record of the mapping file. *)
Record maplist_item := MAPLIST { uidstr : bytes; gidstr : bytes; sidstr : bytes }.

(** acls.c:4237-4238 ntfs_do_user_mapping. The number of a text that begins with a
    digit; names of users and groups are not looked up in this port. *)
Definition text_id (str : bytes) : outcome Z :=
  let! c := rd str 0 in if is_digit c then atoi str else Ret 0.

(** acls.c:4254-4277 ntfs_do_user_mapping. An item for a record of the file, if it is
    accepted and there is memory for it. *)
Definition mapping_of (pool : Z -> bool) (id : Z) (pattern : bool) (str : bytes) : outcome (list mapping_item) :=
  let! sid := encodesid pool str in
  match sid with
  | None => Ret []
  | Some sid =>
    let! bad := Ret pattern &&! o_not (ntfs_valid_pattern sid) in
    if bad || negb (pool 40) then Ret [] else Ret [MAPPING id sid]
  end.

(** acls.c:4223-4281 ntfs_do_user_mapping *)
Fixpoint ntfs_do_user_mapping (pool : Z -> bool) (items : list maplist_item) : outcome (list mapping_item) :=
  match items with
  | [] => Ret []
  | item :: items' =>
    let! uid := text_id (uidstr item) in
    let! pattern := (let! u0 := rd (uidstr item) 0 in Ret (u0 =? 0)) &&! (let! g0 := rd (gidstr item) 0 in Ret (g0 =? 0)) in
    let! m := if negb (uid =? 0) || pattern then mapping_of pool uid pattern (sidstr item) else Ret [] in
    let! rest := ntfs_do_user_mapping pool items' in
    Ret (m ++ rest)
  end.

(** acls.c:4311-4358 ntfs_do_group_mapping. One of the two steps. *)
Fixpoint group_step (pool : Z -> bool) (second : bool) (items : list maplist_item) : outcome (list mapping_item) :=
  match items with
  | [] => Ret []
  | item :: items' =>
    let! u0 := rd (uidstr item) 0 in
    let! g0 := rd (gidstr item) 0 in
    let ok := eqb second (negb (u0 =? 0) || (g0 =? 0)) in
    let! gid := text_id (gidstr item) in
    let pattern := (u0 =? 0) && (g0 =? 0) in
    let! m := if ok && (negb (gid =? 0) || pattern) then mapping_of pool gid pattern (sidstr item) else Ret [] in
    let! rest := group_step pool second items' in
    Ret (m ++ rest)
  end.

(** acls.c:4295-4361 ntfs_do_group_mapping *)
Definition ntfs_do_group_mapping (pool : Z -> bool) (items : list maplist_item) : outcome (list mapping_item) :=
  let! first := group_step pool false items in
  let! second := group_step pool true items in
  Ret (first ++ second).
