(* ===== verification/SidProofs.v ===== *)
(** * The association of ids and SIDs (acls.c)

    What the operations of [Sid.v] do to well-formed SIDs ([is_sid]); what the mapping
    file is turned into; an id that has a SID is found again by it. *)
From S2P Require Import Prelude Libc Fields Cond Sid.

Lemma at_ptr_app (a b : bytes) p : p = zlen a -> at_ptr (a ++ b) p = b.
Proof. intros ->. pose proof (zlen_nonneg a). unfold at_ptr. destruct (Z.ltb_spec (zlen a) 0); [lia|]. by rewrite drop_app_length' by (unfold zlen; lia). Qed.

(** ** SIDs as values *)
(** A complete SID: as many bytes as its count says. *)
Definition is_sid (s : bytes) : Prop :=
  Forall byte_ok s /\ exists c, rd s 1 = Ret c /\ zlen s = c * 4 + 8.

Lemma is_sid_size s : is_sid s -> 8 <= zlen s < 2 ^ 11.
Proof.
  intros (Hb & c & Hc & Hz). apply rd_lookup in Hc as [_ Hc]. pose proof (Forall_lookup_1 _ _ _ _ Hb Hc) as H. unfold byte_ok in H. lia.
Qed.

Lemma sid_size_ok s k : is_sid s -> ntfs_sid_size (s ++ k) = Ret (zlen s).
Proof.
  intros Hs. pose proof (is_sid_size s Hs). destruct Hs as (Hb & c & Hc & Hz). unfold ntfs_sid_size, sub_authority_count.
  rewrite rd_app_l, Hc by lia. cbn [obind]. by rewrite Hz.
Qed.

Lemma sid_size_all s : is_sid s -> ntfs_sid_size s = Ret (zlen s).
Proof. intros Hs. pose proof (sid_size_ok s [] Hs) as H. by rewrite app_nil_r in H. Qed.

(** Two SIDs are equal when they are equal as values, whatever is behind them. *)
Lemma same_sid_ok s t k k' : is_sid s -> is_sid t -> ntfs_same_sid (s ++ k) (t ++ k') = Ret (bool_decide (s = t)).
Proof.
  intros Hs Ht. unfold ntfs_same_sid. rewrite !sid_size_ok by done. cbn [obind o_and]. unfold o_and. cbn [obind].
  destruct (Z.eqb_spec (zlen t) (zlen s)) as [E|E].
  2:{ rewrite bool_decide_false; [done|]. by intros ->. }
  unfold memcmp. replace (Z.to_nat (zlen s)) with (length s) by (unfold zlen; lia).
  rewrite memcmp_loop_ok by (first [by apply Hs | by apply Ht | unfold zlen in E; lia]). cbn [obind]. f_equal.
  destruct (decide (s = t)) as [->|Hne]; [by rewrite bool_decide_true|by rewrite bool_decide_false].
Qed.

Lemma same_sid_all s t : is_sid s -> is_sid t -> ntfs_same_sid s t = Ret (bool_decide (s = t)).
Proof. intros Hs Ht. pose proof (same_sid_ok s t [] [] Hs Ht) as H. by rewrite !app_nil_r in H. Qed.

Lemma copy_sid_ok s : is_sid s -> zlen s <= 40 -> copy_sid s = Ret (s ++ replicate (Z.to_nat (40 - zlen s)) 0).
Proof.
  intros Hs Hz. pose proof (is_sid_size s Hs). unfold copy_sid. rewrite sid_size_all by done. cbn [obind].
  rewrite memcpy_spec by (rewrite ?zlen_replicate; lia). f_equal. unfold splice. change (Z.to_nat 0) with O. cbn [take app Nat.add].
  rewrite sub_all, drop_replicate, take_0. cbn [app]. do 2 f_equal. unfold zlen in *. lia.
Qed.

(** ** User SIDs *)
Definition u32_ok (v : Z) : Prop := 0 <= v < 2 ^ 32.
Definition subs_bytes (l : list Z) : bytes := concat (le_bytes 4 <$> l).
(** S-1-5-21-a-b-c-r *)
Definition user_sid (a b c r : Z) : bytes := 1 :: 5 :: 0 :: 0 :: 0 :: 0 :: 0 :: 5 :: subs_bytes [21; a; b; c; r].

Lemma subs_bytes_app l k : subs_bytes (l ++ k) = subs_bytes l ++ subs_bytes k.
Proof. unfold subs_bytes. by rewrite fmap_app, concat_app. Qed.

Lemma zlen_subs_bytes l : zlen (subs_bytes l) = 4 * zlen l.
Proof.
  induction l as [|x l IH]; [done|]. change (subs_bytes (x :: l)) with (le_bytes 4 x ++ subs_bytes l).
  rewrite zlen_app, zlen_le_bytes, IH, zlen_cons. lia.
Qed.

Lemma subs_byte_ok l : Forall byte_ok (subs_bytes l).
Proof. induction l as [|x l IH]; [constructor|]. change (subs_bytes (x :: l)) with (le_bytes 4 x ++ subs_bytes l). apply Forall_app. split; [apply byte_ok_le_bytes|done]. Qed.

Lemma user_sid_is a b c r : is_sid (user_sid a b c r).
Proof.
  split.
  - unfold user_sid. repeat (constructor; [unfold byte_ok; lia|]). apply subs_byte_ok.
  - exists 5. split; [done|]. unfold user_sid. rewrite !zlen_cons, zlen_subs_bytes. done.
Qed.

Lemma zlen_user_sid a b c r : zlen (user_sid a b c r) = 28.
Proof. unfold user_sid. by rewrite !zlen_cons, zlen_subs_bytes. Qed.

Lemma user_count a b c r k : sub_authority_count (user_sid a b c r ++ k) = Ret 5.
Proof. done. Qed.

Lemma user_sid_split a b c r :
  user_sid a b c r = (1 :: 5 :: 0 :: 0 :: 0 :: 0 :: 0 :: 5 :: subs_bytes [21; a; b]) ++ le_bytes 4 c ++ le_bytes 4 r.
Proof. reflexivity. Qed.

Lemma user_last a b c r k : u32_ok r -> sub_authority (user_sid a b c r ++ k) 4 = Ret r.
Proof.
  intros Hr. unfold sub_authority. rewrite user_sid_split, (assoc_L (++) _ (le_bytes 4 c)), <- (assoc_L (++)).
  rewrite rd_le_bytes by done. by rewrite Z.mod_small.
Qed.

Lemma user_third a b c r k : u32_ok c -> sub_authority (user_sid a b c r ++ k) 3 = Ret c.
Proof.
  intros Hr. unfold sub_authority. rewrite user_sid_split, <- !(assoc_L (++)).
  rewrite rd_le_bytes by done. by rewrite Z.mod_small.
Qed.

Lemma user_set_last a b c r v k : set_sub_authority (user_sid a b c r ++ k) 4 v = Ret (user_sid a b c v ++ k).
Proof.
  unfold set_sub_authority. rewrite !user_sid_split, (assoc_L (++) _ (le_bytes 4 c)), <- !(assoc_L (++) (_ ++ le_bytes 4 c)).
  rewrite wrn_app_here by done. by rewrite <- !(assoc_L (++)).
Qed.

Lemma user_set_third a b c r v k : set_sub_authority (user_sid a b c r ++ k) 3 v = Ret (user_sid a b v r ++ k).
Proof. unfold set_sub_authority. rewrite !user_sid_split, <- !(assoc_L (++)). by rewrite wrn_app_here. Qed.

Lemma le_bytes_inj n v w : 0 <= v < 256 ^ Z.of_nat n -> 0 <= w < 256 ^ Z.of_nat n -> le_bytes n v = le_bytes n w -> v = w.
Proof.
  intros Hv Hw E. pose proof (rd_le_bytes n [] v [] 0 eq_refl) as H1. pose proof (rd_le_bytes n [] w [] 0 eq_refl) as H2.
  rewrite E in H1. rewrite H1 in H2. injection H2. rewrite !Z.mod_small by lia. done.
Qed.

Lemma user_sid_inj a b c r c' r' :
  u32_ok c -> u32_ok r -> u32_ok c' -> u32_ok r' -> user_sid a b c r = user_sid a b c' r' -> c = c' /\ r = r'.
Proof.
  unfold u32_ok. intros Hc Hr Hc' Hr'. rewrite !user_sid_split. intros E. apply app_inv_head in E.
  apply app_inj_1 in E as [E1 E2]; [|done]. apply le_bytes_inj in E1, E2; try done. all: change (256 ^ Z.of_nat 4) with (2 ^ 32); done.
Qed.

(** ** Implicit SIDs

    An id of 32 bits is [lo + hi * 2^30]; the last sub-authority of its SID is the
    pattern's plus [2 * lo] (plus 1 for a group), the one before is the pattern's plus
    [hi]. *)
Definition id_lo (id : Z) : Z := id mod 2 ^ 30.
Definition id_hi (id : Z) : Z := (id / 2 ^ 30) mod 4.

Lemma id_lo_bits id : Z.land id 0x3fffffff = id_lo id.
Proof. apply (Z.land_ones id 30). lia. Qed.

Lemma id_hi_bits id : Z.land (Z.shiftr id 30) 3 = id_hi id.
Proof. rewrite Z.shiftr_div_pow2 by lia. apply (Z.land_ones _ 2). lia. Qed.

Lemma id_hi_mask id : (Z.land id 0xc0000000 =? 0) = (id_hi id =? 0).
Proof.
  assert (Z.land id 0xc0000000 = Z.shiftl (id_hi id) 30) as ->.
  { rewrite <- id_hi_bits. change 0xc0000000 with (Z.shiftl 3 30). apply Z.bits_inj'. intros n Hn.
    rewrite Z.land_spec. destruct (Z.ltb_spec n 30).
    - rewrite !Z.shiftl_spec_low by lia. by rewrite andb_false_r.
    - by rewrite !Z.shiftl_spec_high, Z.land_spec, Z.shiftr_spec, Z.sub_add by lia. }
  rewrite Z.shiftl_mul_pow2 by lia. lia.
Qed.

Lemma id_join id : in_s 32 id -> s32 (Z.lor (id_lo id) (Z.shiftl (id_hi id) 30)) = id.
Proof.
  intros Hid. assert (0 <= id_lo id < 2 ^ 30) as Hlo by (apply Z.mod_pos_bound; lia).
  assert (0 <= id_hi id < 4) as Hhi by (apply Z.mod_pos_bound; lia).
  rewrite Z.lor_comm, Z.shiftl_mul_pow2, lor_add by lia. unfold id_lo, id_hi, in_s, wraps in *. change (2 ^ (32 - 1)) with (2 * 2 ^ 30) in *. change (2 ^ 32) with (4 * 2 ^ 30) in *.
  change (2 ^ 30) with 1073741824 in *. dlia.
Qed.

Definition junk : bytes := replicate 12 0.

Lemma copy_user_sid a b c r : copy_sid (user_sid a b c r) = Ret (user_sid a b c r ++ junk).
Proof. rewrite copy_sid_ok; [done|apply user_sid_is|by rewrite zlen_user_sid]. Qed.

Lemma u32_range v : u32_ok (u32 v).
Proof. apply (wrapu_range 32). done. Qed.

(** The SID of an id. *)
Definition derived (a b c r id parity : Z) : bytes := user_sid a b (u32 (c + id_hi id)) (u32 (r + 2 * id_lo id + parity)).

Lemma implicit_sid_ok a b c r id parity :
  u32_ok c -> u32_ok r -> implicit_sid (user_sid a b c r) id parity = Ret (derived a b c r id parity ++ junk).
Proof.
  intros Hc Hr. unfold implicit_sid, derived. rewrite copy_user_sid. cbn [obind]. rewrite user_count. cbn [obind]. change (5 - 1) with 4. change (5 - 2) with 3.
  rewrite user_last by done. cbn [obind]. rewrite user_set_last, id_lo_bits, id_hi_mask. cbn [obind].
  destruct (Z.eqb_spec (id_hi id) 0) as [->|Hne].
  - rewrite Z.add_0_r, (wrapu_small 32 c) by done. done.
  - rewrite user_third by done. cbn [obind]. by rewrite id_hi_bits, user_set_third.
Qed.

Lemma u32_add_inj c x y : 0 <= x < 4 -> 0 <= y < 4 -> u32 (c + x) = u32 (c + y) -> x = y.
Proof. unfold wrapu. change (2 ^ 32) with 4294967296. intros. dlia. Qed.

Lemma carry_loop_ok a b c r hi k k' n carry :
  1 <= carry <= hi -> hi < 4 -> Z.of_nat n = 4 - carry -> u32_ok r ->
  carry_loop n (user_sid a b (u32 (c + (carry - 1))) r ++ k) (user_sid a b (u32 (c + hi)) r ++ k') 5 carry = Ret hi.
Proof.
  revert carry. induction n as [|n IH]; intros carry Hc Hhi Hn Hr; [lia|]. cbn [carry_loop]. change (5 - 2) with 3.
  rewrite user_third by apply u32_range. cbn [obind]. rewrite user_set_third. cbn [obind].
  replace (u32 (u32 (c + (carry - 1)) + 1)) with (u32 (c + carry)).
  2:{ unfold wrapu. change (2 ^ 32) with 4294967296. dlia. }
  rewrite same_sid_ok by apply user_sid_is. cbn [obind]. destruct (Z.eq_dec carry hi) as [->|Hne].
  - by rewrite bool_decide_true.
  - rewrite bool_decide_false. 2:{ intros E. apply user_sid_inj in E as [E _]; try done; try apply u32_range. by apply u32_add_inj in E; lia. }
    destruct (Z.ltb_spec (carry + 1) 4); [|lia]. replace (c + carry) with (c + (carry + 1 - 1)) by lia. apply IH; (done || lia).
Qed.

(** The id is computed back from the SID derived from a pattern, when the last
    sub-authority is above the pattern's. *)
Lemma findimplicit_ok a b c r id parity k :
  u32_ok c -> 1000 <= r <= 0x7fffffff -> parity = 0 \/ parity = 1 -> 0 < 2 * id_lo id + parity ->
  findimplicit (derived a b c r id parity ++ k) (user_sid a b c r) parity = Ret (Z.lor (id_lo id) (Z.shiftl (id_hi id) 30)).
Proof.
  intros Hc Hr Hp Hpos. assert (0 <= id_lo id < 2 ^ 30) as Hlo by (apply Z.mod_pos_bound; lia).
  assert (0 <= id_hi id < 4) as Hhi by (apply Z.mod_pos_bound; lia). change (2 ^ 30) with 1073741824 in Hlo.
  assert (u32_ok r) as Hr32 by (unfold u32_ok; lia). pose proof (u32_range (c + id_hi id)) as Hc'. unfold findimplicit, derived.
  rewrite (wrapu_small 32 (r + _ + _)) by (unfold in_u; lia). set (x := r + 2 * id_lo id + parity). assert (u32_ok x) as Hx by (unfold u32_ok; lia).
  rewrite copy_user_sid. cbn [obind]. rewrite !user_count. cbn [obind]. change (negb (5 =? 5)) with false. cbn match. change (5 - 1) with 4.
  rewrite user_last by done. cbn [obind]. rewrite user_set_last. cbn [obind].
  replace (sub_authority (user_sid a b c r) 4) with (Ret r : outcome Z) by (symmetry; pose proof (user_last a b c r [] Hr32) as E; by rewrite app_nil_r in E).
  cbn [obind]. replace (r <? x) with true by (symmetry; apply Z.ltb_lt; lia). cbn [andb].
  assert (Z.land (Z.lxor (Z.lxor x r) parity) 1 = 0) as ->.
  { change 1 with (Z.ones 1). rewrite Z.land_ones by lia. apply Z.bits_inj'. intros n Hn. rewrite Z.bits_0.
    destruct (Z.ltb_spec n 1); [|by apply Z.mod_pow2_bits_high; lia]. replace n with 0 by lia. rewrite Z.mod_pow2_bits_low, !Z.lxor_spec, !Z.bit0_odd by lia.
    unfold x. rewrite !Z.odd_add, Z.odd_mul. by destruct (Z.odd r), Hp as [-> | ->]. }
  change (negb (0 =? 0)) with false. cbn match. rewrite same_sid_ok by apply user_sid_is. cbn [obind].
  assert (Z.land (Z.shiftr (x - r) 1) 0x3fffffff = id_lo id) as ->.
  { rewrite id_lo_bits, Z.shiftr_div_pow2 by lia. unfold id_lo at 1, x. change (2 ^ 1) with 2. replace (r + 2 * id_lo id + parity - r) with (id_lo id * 2 + parity) by lia.
    rewrite Z.div_add_l by lia. replace (parity / 2) with 0 by (destruct Hp as [-> | ->]; done). rewrite Z.add_0_r. by apply Z.mod_small. }
  destruct (Z.eq_dec (id_hi id) 0) as [E|Hne].
  - rewrite E, Z.add_0_r, (wrapu_small 32 c) by done. rewrite bool_decide_true by done. by rewrite Z.shiftl_0_l, Z.lor_0_r.
  - rewrite bool_decide_false.
    2:{ intros E. apply user_sid_inj in E as [E _]; try done. rewrite <- (wrapu_small 32 c Hc), <- (Z.add_0_r c) in E at 1. apply u32_add_inj in E; lia. }
    pose proof (carry_loop_ok a b c x (id_hi id) junk k 3 1) as Hl. change (1 - 1) with 0 in Hl. rewrite Z.add_0_r, (wrapu_small 32 c) in Hl by done.
    rewrite Hl by (done || lia). cbn [obind]. by destruct (Z.ltb_spec (id_hi id) 4); [|lia].
Qed.

(** ** Mapping lists *)
Definition item_ok (i : mapping_item) : Prop :=
  exists a b c r, m_sid i = user_sid a b c r /\ u32_ok a /\ u32_ok b /\ u32_ok c /\ u32_ok r /\ in_s 32 (m_xid i) /\ (m_xid i = 0 -> 1000 <= r <= 0x7fffffff).

(** The items before the pattern, and the pattern. *)
Fixpoint explicit (m : list mapping_item) : list mapping_item :=
  match m with [] => [] | i :: m' => if m_xid i =? 0 then [] else i :: explicit m' end.
Fixpoint pattern_of (m : list mapping_item) : option bytes :=
  match m with [] => None | i :: m' => if m_xid i =? 0 then Some (m_sid i) else pattern_of m' end.

Definition mapping_ok (m : list mapping_item) : Prop := Forall item_ok m /\ NoDup (m_sid <$> explicit m).

(** The ids that have a SID of their own: 0, the ids of the list, and those to which
    the pattern gives a SID that is not in the list.  A uid that is a multiple of 2^30
    gets the pattern itself, which is nobody's. *)
Definition has_sid (m : list mapping_item) (id parity : Z) : Prop :=
  id = 0 \/ id ∈ m_xid <$> explicit m \/
  exists a b c r, pattern_of m = Some (user_sid a b c r) /\ u32_ok c /\ 1000 <= r <= 0x7fffffff /\ 0 < 2 * id_lo id + parity /\
    Forall (fun i => m_sid i <> derived a b c r id parity) (explicit m).

Lemma item_sid i : item_ok i -> is_sid (m_sid i) /\ zlen (m_sid i) = 28.
Proof. intros (a & b & c & r & -> & _). split; [apply user_sid_is|apply zlen_user_sid]. Qed.

Lemma same_item_ok s k i : is_sid s -> item_ok i -> ntfs_same_sid (s ++ k) (m_sid i) = Ret (bool_decide (s = m_sid i)).
Proof. intros Hs Hi. pose proof (same_sid_ok s (m_sid i) k [] Hs (proj1 (item_sid i Hi))) as H. by rewrite app_nil_r in H. Qed.

(** A SID that is not in the list is looked for with the pattern. *)
Lemma find_xid_miss m s k parity : Forall item_ok m -> is_sid s -> Forall (fun i => m_sid i <> s) (explicit m) ->
  find_xid m (s ++ k) parity =
    match pattern_of m with Some p => let! x := findimplicit (s ++ k) p parity in Ret (s32 x) | None => Ret 0 end.
Proof.
  intros Hm Hs. induction Hm as [|i m Hi Hm IH]; intros Hne; [done|]. cbn [find_xid explicit pattern_of] in *.
  destruct (Z.eqb_spec (m_xid i) 0) as [|Hx]; [done|]. apply Forall_cons in Hne as [Hne Hrest].
  rewrite same_item_ok by done. rewrite bool_decide_false by congruence. cbn [obind]. by apply IH.
Qed.

(** The SIDs of the list stand for the id they are listed with. *)
Lemma find_xid_hit m i k parity : Forall item_ok m -> NoDup (m_sid <$> explicit m) -> i ∈ explicit m -> find_xid m (m_sid i ++ k) parity = Ret (m_xid i).
Proof.
  intros Hm. induction Hm as [|j m Hj Hm IH]; intros Hnd Hin; cbn [explicit] in *; [by apply elem_of_nil in Hin|].
  cbn [find_xid]. destruct (Z.eqb_spec (m_xid j) 0); [by apply elem_of_nil in Hin|]. cbn [fmap list_fmap] in Hnd. apply NoDup_cons in Hnd as [Hj1 Hnd].
  assert (is_sid (m_sid i)) as Hs.
  { apply elem_of_cons in Hin as [->|Hin]; [by apply item_sid|]. apply item_sid. clear - Hm Hin. induction Hm as [|y m Hy Hm IH]; [by apply elem_of_nil in Hin|].
    cbn [explicit] in Hin. destruct (m_xid y =? 0); [by apply elem_of_nil in Hin|]. apply elem_of_cons in Hin as [->|Hin]; [done|by apply IH]. }
  rewrite same_item_ok by done. cbn [obind]. apply elem_of_cons in Hin as [->|Hin]; [by rewrite bool_decide_true|].
  rewrite bool_decide_false; [by apply IH|]. intros E. apply Hj1. rewrite <- E. by apply list_elem_of_fmap_2.
Qed.

Lemma admin_is_sid : is_sid adminsid.
Proof. split; [unfold adminsid; repeat (constructor; [unfold byte_ok; lia|]); constructor|]. exists 2. done. Qed.

Lemma find_admin m parity : Forall item_ok m -> find_xid m adminsid parity = Ret 0.
Proof.
  intros Hm. assert (Forall (fun i => m_sid i <> adminsid) (explicit m)) as Hne.
  { induction Hm as [|i m Hi Hm IH]; cbn [explicit]; [constructor|]. destruct (m_xid i =? 0); constructor; [|done].
    intros E. apply item_sid in Hi as [_ Hz]. rewrite E in Hz. discriminate Hz. }
  rewrite <- (app_nil_r adminsid), find_xid_miss by (done || apply admin_is_sid).
  induction Hm as [|i m Hi Hm IH]; cbn [pattern_of]; [done|]. cbn [explicit] in Hne. destruct (m_xid i =? 0).
  - destruct Hi as (a & b & c & r & -> & _). unfold findimplicit. by rewrite copy_user_sid.
  - apply Forall_cons in Hne as [_ Hne]. by apply IH.
Qed.

(** What the search for an id ends with. *)
Lemma find_xsid_listed m id parity : id ∈ m_xid <$> explicit m ->
  exists i, i ∈ explicit m /\ m_xid i = id /\ find_xsid m id parity = Ret (Some (m_sid i)).
Proof.
  induction m as [|i m IH]; cbn [explicit find_xsid]; intros Hin; [by apply elem_of_nil in Hin|].
  destruct (Z.eqb_spec (m_xid i) 0); [by apply elem_of_nil in Hin|]. destruct (Z.eqb_spec (m_xid i) id) as [E|E].
  - exists i. split_and!; [apply list_elem_of_here|done|done].
  - cbn [fmap list_fmap] in Hin. apply elem_of_cons in Hin as [->|Hin]; [done|]. destruct (IH Hin) as (j & Hj & Hx & Hf).
    exists j. split_and!; [by apply list_elem_of_further|done|done].
Qed.

Lemma find_xsid_implicit m id parity p : id ∉ m_xid <$> explicit m -> pattern_of m = Some p ->
  find_xsid m id parity = let! sid := implicit_sid p id parity in Ret (Some sid).
Proof.
  induction m as [|i m IH]; cbn [explicit find_xsid pattern_of]; intros Hin Hp; [done|].
  destruct (Z.eqb_spec (m_xid i) 0); [by injection Hp as ->|]. cbn [fmap list_fmap] in Hin. apply not_elem_of_cons in Hin as [Hne Hin].
  destruct (Z.eqb_spec (m_xid i) id); [by subst|]. by apply IH.
Qed.

(** An id with a SID of its own is found again by that SID. *)
Lemma xid_roundtrip m id parity : mapping_ok m -> in_s 32 id -> parity = 0 \/ parity = 1 -> has_sid m id parity ->
  exists sid, (if id =? 0 then Ret (Some adminsid) else find_xsid m id parity) = Ret (Some sid) /\ find_xid m sid parity = Ret id.
Proof.
  intros [Hm Hnd] Hid Hp Hs. destruct (Z.eqb_spec id 0) as [->|Hne].
  { exists adminsid. split; [done|by apply find_admin]. }
  destruct (decide (id ∈ m_xid <$> explicit m)) as [Hin|Hnin].
  - destruct (find_xsid_listed m id parity Hin) as (i & Hi & <- & ->). exists (m_sid i). split; [done|].
    pose proof (find_xid_hit m i [] parity Hm Hnd Hi) as H. by rewrite app_nil_r in H.
  - destruct Hs as [?|[?|(a & b & c & r & Hpat & Hc & Hr & Hpos & Hcl)]]; [done|done|].
    assert (u32_ok r) as Hr32 by (unfold u32_ok; lia). rewrite (find_xsid_implicit m id parity _ Hnin Hpat), implicit_sid_ok by done. cbn [obind].
    eexists. split; [done|]. rewrite find_xid_miss, Hpat, findimplicit_ok by (done || apply user_sid_is). cbn [obind]. f_equal. by apply id_join.
Qed.

(** ** The mapping file

    Texts are terminated; the text of a SID has at least the four characters that
    [encodesid] skips. *)
Definition text_ok (s : bytes) : Prop := exists t k, s = t ++ 0 :: k /\ nonzero t.
Definition sid_text_ok (s : bytes) : Prop := exists h t k, s = h ++ t ++ 0 :: k /\ zlen h = 4 /\ nonzero h /\ nonzero t.
Definition record_ok (i : maplist_item) : Prop := text_ok (uidstr i) /\ text_ok (gidstr i) /\ sid_text_ok (sidstr i).

Lemma atoul_ok t k v : u32_ok v -> exists w, atoul_from (t ++ 0 :: k) v = Ret w /\ u32_ok w.
Proof.
  revert v. induction t as [|c t IH]; intros v Hv; cbn [atoul_from app]; [by exists v|].
  destruct (is_digit c); [|by exists v]. apply IH, u32_range.
Qed.

Lemma atoi_ok t k v : nonzero t -> in_s 32 v -> exists w, atoi_from (t ++ 0 :: k) v = Ret w /\ in_s 32 w.
Proof.
  intros Ht. revert v. induction Ht as [|c t Hc Ht IH]; intros v Hv; cbn [atoi_from app]; [by exists v|].
  destruct (Z.eqb_spec c 0); [done|]. apply IH. by apply (wraps_range 32).
Qed.

Lemma text_id_ok s : text_ok s -> exists w, text_id s = Ret w /\ in_s 32 w.
Proof.
  intros (t & k & -> & Ht). unfold text_id. destruct (rd_some (t ++ 0 :: k) 0) as [c ->]; [zlia|]. cbn [obind].
  destruct (is_digit c); [|by exists 0]. by apply atoi_ok.
Qed.

Lemma text_rd s : text_ok s -> exists c, rd s 0 = Ret c.
Proof. intros (t & k & -> & _). apply rd_some. zlia. Qed.

Lemma strchr_ok t k c j : nonzero t -> c <> 0 -> exists q, strchr_from (t ++ 0 :: k) c j = Ret q /\ forall i, q = Some i -> j <= i < j + zlen t.
Proof.
  intros Ht Hc. revert j. induction Ht as [|x t Hx Ht IH]; intros j; cbn [strchr_from app]; [by exists None|].
  destruct (Z.eqb_spec x 0); [done|]. destruct (s8 x =? c).
  - exists (Some j). split; [done|]. intros i [= <-]. rewrite zlen_cons. pose proof (zlen_nonneg t). lia.
  - destruct (IH (j + 1)) as (q & -> & Hq). exists q. split; [done|]. intros i Hi. apply Hq in Hi. rewrite zlen_cons. lia.
Qed.

Lemma encode_subs_ok n b t k cnt :
  nonzero t -> Forall byte_ok b -> zlen b = 40 -> 0 <= cnt -> cnt + Z.of_nat n = 8 ->
  exists b' cnt', encode_subs n b (t ++ 0 :: k) cnt = Ret (b', cnt') /\ Forall byte_ok b' /\ zlen b' = 40 /\ cnt <= cnt' <= 8 /\
    forall i, 0 <= i < 8 -> rd b' i = rd b i.
Proof.
  revert b t cnt. induction n as [|n IH]; intros b t cnt Ht Hb Hz Hc Hn; cbn [encode_subs]; unfold strchr;
    destruct (strchr_ok t k 45 0 Ht) as (q & -> & Hq); try done; cbn [obind].
  { exists b, cnt. destruct q; split_and!; (done || lia). }
  destruct q as [i|]; [|exists b, cnt; split_and!; (done || lia)]. specialize (Hq i eq_refl).
  rewrite drop_app_le by (unfold zlen in Hq; lia). set (t' := drop (S (Z.to_nat i)) t). assert (nonzero t') as Ht' by (by apply Forall_drop).
  destruct (atoul_ok t' k 0) as (w & Hw & Hwr); [done|]. unfold atoul. rewrite Hw. cbn [obind]. unfold set_sub_authority.
  rewrite wrn_ok by (rewrite ?zlen_le_bytes; lia). cbn [obind].
  destruct (IH (splice b (8 + 4 * cnt) (le_bytes 4 w)) t' (cnt + 1)) as (b' & cnt' & -> & Hb' & Hz' & Hc' & Hrd); try lia.
  - done.
  - apply byte_ok_splice; [done|apply byte_ok_le_bytes].
  - by rewrite zlen_splice by (rewrite ?zlen_le_bytes; lia).
  - exists b', cnt'. split_and!; try (done || lia). intros j Hj. rewrite Hrd by done. apply rd_splice_other; rewrite ?zlen_le_bytes; lia.
Qed.

(** Four bytes are a sub-authority. *)
Lemma le4_bytes x0 x1 x2 x3 : byte_ok x0 -> byte_ok x1 -> byte_ok x2 -> byte_ok x3 ->
  exists v, u32_ok v /\ le_bytes 4 v = [x0; x1; x2; x3] /\ v = x0 + 256 * (x1 + 256 * (x2 + 256 * x3)).
Proof.
  unfold byte_ok. intros H0 H1 H2 H3. eexists. split_and!; [..|done].
  - unfold u32_ok. lia.
  - cbn [le_bytes]. repeat f_equal; dlia.
Qed.

Lemma eqb_true (a : outcome Z) v : (let! x := a in Ret (x =? v)) = Ret true -> a = Ret v.
Proof. destruct a; cbn [obind]; try done. intros [= E]. f_equal. lia. Qed.

Lemma sid_begins_inv s c a v : sid_begins s c a v = Ret true ->
  rd s 1 = Ret c /\ rd_le 2 s 2 = Ret 0 /\ rd_le 4 s 4 = Ret (const_cpu_to_be32 a) /\ rd_le 4 s 8 = Ret v.
Proof.
  unfold sid_begins. rewrite !o_and_true. intros (H1 & H2 & H3 & H4). apply eqb_true in H1, H2, H3, H4. done.
Qed.

(** What [ntfs_is_user_sid] recognises. *)
Lemma user_sid_of s : Forall byte_ok s -> 28 <= zlen s -> rd s 0 = Ret 1 -> ntfs_is_user_sid s = Ret true ->
  exists a b c r, sub s 0 28 = user_sid a b c r /\ u32_ok a /\ u32_ok b /\ u32_ok c /\ u32_ok r.
Proof.
  intros Hb Hz H0 Hu. apply sid_begins_inv in Hu as (H1 & H2 & H4 & H8). change (const_cpu_to_be32 5) with 83886080 in H4.
  do 28 (destruct s as [|? s]; [unfold zlen in Hz; cbn in Hz; lia|]).
  repeat match goal with H : Forall byte_ok (_ :: _) |- _ => apply Forall_cons in H as [? H] end.
  injection H0 as ->. injection H1 as ->. injection H2 as H2. injection H4 as H4. injection H8 as H8.
  destruct (le4_bytes z11 z12 z13 z14) as (a & Ha & Ea & _); try done. destruct (le4_bytes z15 z16 z17 z18) as (b & Hb' & Eb & _); try done.
  destruct (le4_bytes z19 z20 z21 z22) as (c & Hc & Ec & _); try done. destruct (le4_bytes z23 z24 z25 z26) as (r & Hr & Er & _); try done.
  exists a, b, c, r. split; [|done]. unfold user_sid, subs_bytes, sub. change (Z.to_nat 28) with 28%nat. change (Z.to_nat 0) with 0%nat. cbn [take drop]. cbn [fmap list_fmap concat]. rewrite Ea, Eb, Ec, Er. cbn [le_bytes app].
  unfold byte_ok in *. assert (z1 = 0 /\ z2 = 0) as [-> ->] by lia. assert (z3 = 0 /\ z4 = 0 /\ z5 = 0 /\ z6 = 5) as (-> & -> & -> & ->) by lia.
  assert (z7 = 21 /\ z8 = 0 /\ z9 = 0 /\ z10 = 0) as (-> & -> & -> & ->) by lia. done.
Qed.

Lemma strncmp_sid h t k : zlen h = 4 -> strncmp (h ++ t ++ 0 :: k) [83; 45; 49; 45; 0] 4 = Ret (if decide (h = [83; 45; 49; 45]) then Some 4 else None).
Proof.
  intros Hh. destruct (t ++ 0 :: k) as [|a q] eqn:E; [by destruct t|].
  pose proof (strncmp_spec h [83; 45; 49; 45] q [] a 0) as H. rewrite Hh in H. by apply H.
Qed.

(** The checks of [encodesid] read only its buffer. *)
Lemma checks_ok b cnt : Forall byte_ok b -> zlen b = 40 -> rd b 1 = Ret cnt ->
  exists g, (Ret (0 <? cnt) &&! ntfs_valid_sid b &&! ntfs_is_user_sid b) = Ret g.
Proof.
  intros Hb Hz H1. destruct (rd_some b 0) as [r H0]; [lia|].
  destruct (rd_le_range 2 b 2) as (v2 & E2 & _); [done|lia|lia|]. destruct (rd_le_range 4 b 4) as (v4 & E4 & _); [done|lia|lia|].
  destruct (rd_le_range 4 b 8) as (v8 & E8 & _); [done|lia|lia|].
  unfold ntfs_valid_sid, ntfs_is_user_sid, sid_begins, revision, sub_authority_count, high_part, low_part, sub_authority, o_and.
  change (8 + 4 * 0) with 8. rewrite H0, H1, E2, E4, E8. cbn [obind]. repeat (case_match; cbn [obind]); eauto.
Qed.

Definition sid_start : bytes := replicate 40 0.

(** The fields in front of the sub-authorities. *)
Lemma head_ok auth :
  exists b1 b2 b3, wr sid_start 0 SID_REVISION = Ret b1 /\ wrn b1 2 (le_bytes 2 (const_cpu_to_be16 0)) = Ret b2 /\
    wrn b2 4 (le_bytes 4 (endian_rev32 auth)) = Ret b3 /\ Forall byte_ok b3 /\ zlen b3 = 40 /\ rd b3 0 = Ret 1.
Proof.
  exists (1 :: replicate 39 0), (1 :: replicate 39 0), (splice (1 :: replicate 39 0) 4 (le_bytes 4 (endian_rev32 auth))). split_and!; try done.
  apply byte_ok_splice; [|apply byte_ok_le_bytes]. constructor; [by unfold byte_ok|]. by apply Forall_replicate.
Qed.

(** A copy of the start of an object. *)
Lemma memcpy_new b n : 0 <= n <= zlen b -> memcpy (replicate (Z.to_nat n) 0) 0 b 0 n = Ret (sub b 0 n).
Proof.
  intros Hn. rewrite memcpy_spec by (rewrite ?zlen_replicate; lia). f_equal. rewrite <- (app_nil_r (replicate _ 0)).
  rewrite (splice_app_here [] (replicate (Z.to_nat n) 0) []) by (rewrite ?zlen_sub, ?zlen_replicate; lia || done). cbn [app]. by rewrite app_nil_r.
Qed.

(** The SID of a text, if there is one, is a user's. *)
Lemma encodesid_ok pool s : sid_text_ok s ->
  exists o, encodesid pool s = Ret o /\
    forall sid, o = Some sid -> exists a b c r, sid = user_sid a b c r /\ u32_ok a /\ u32_ok b /\ u32_ok c /\ u32_ok r.
Proof.
  intros (h & t & k & -> & Hh & Hhn & Ht). unfold encodesid. rewrite strncmp_sid by done. cbn [obind].
  destruct (decide _); [by exists None|]. rewrite drop_app_length' by (unfold zlen in Hh; lia).
  destruct (atoul_ok t k 0) as (auth & Ha & _); [done|]. destruct (head_ok auth) as (b1 & b2 & b3 & E1 & E2 & E3 & Hb3 & Hz3 & H0).
  fold sid_start. rewrite E1. cbn [obind]. unfold atoul. rewrite Ha. cbn [obind]. rewrite E2. cbn [obind]. rewrite E3. cbn [obind].
  destruct (encode_subs_ok 8 b3 t k 0) as (b4 & cnt & -> & Hb4 & Hz4 & Hcnt & Hrd); [done..|lia|lia|]. cbn [obind]. rewrite wr_ok by lia. cbn [obind].
  rewrite (wrapu_small 8 cnt) by (unfold in_u; lia). set (b := <[_ := cnt]> b4).
  assert (zlen b = 40) as Hz by (unfold b; by rewrite zlen_insert).
  assert (Forall byte_ok b) as Hb by (apply Forall_insert; [done|unfold byte_ok; lia]).
  assert (rd b 0 = Ret 1) as Hr0 by (unfold b; rewrite (rd_insert b4 1 0) by lia; cbn; rewrite Hrd by lia; done).
  assert (rd b 1 = Ret cnt) as Hr1 by (unfold b; by rewrite (rd_insert b4 1 1) by lia). clearbody b.
  destruct (checks_ok b cnt Hb Hz Hr1) as [g Eg]. rewrite Eg. cbn [obind]. destruct g; cbn [negb]; [|by exists None].
  apply o_and_true in Eg as [_ Eg]. apply o_and_true in Eg as [_ Eg]. pose proof (proj1 (sid_begins_inv _ _ _ _ Eg)) as Ec. rewrite Hr1 in Ec.
  injection Ec as ->. unfold malloc. destruct (pool _); [|by exists None]. change (4 * 5 + 8) with 28. rewrite memcpy_new by lia. cbn [obind].
  eexists. split; [done|]. intros sid [= <-].
  apply user_sid_of; (done || lia).
Qed.

Lemma valid_pattern_ok a b c r : u32_ok r -> ntfs_valid_pattern (user_sid a b c r) = Ret ((1000 <=? r) && (r <=? 0x7fffffff)).
Proof.
  intros Hr. unfold ntfs_valid_pattern. change (sub_authority_count (user_sid a b c r)) with (Ret 5 : outcome Z). cbn [obind]. change (5 - 1) with 4.
  pose proof (user_last a b c r [] Hr) as E. rewrite app_nil_r in E. by rewrite E.
Qed.

Lemma mapping_of_ok pool id pattern s : sid_text_ok s -> in_s 32 id -> (id = 0 -> pattern = true) ->
  exists m, mapping_of pool id pattern s = Ret m /\ Forall item_ok m.
Proof.
  intros Hs Hid Hp. unfold mapping_of. destruct (encodesid_ok pool s Hs) as (o & -> & Ho). cbn [obind]. destruct o as [sid|]; [|by exists []].
  destruct (Ho sid eq_refl) as (a & b & c & r & -> & Ha & Hb & Hc & Hr). unfold o_not. rewrite valid_pattern_ok by done. unfold o_and. cbn [obind].
  assert (item_ok (MAPPING id (user_sid a b c r)) \/ (pattern && negb ((1000 <=? r) && (r <=? 0x7fffffff))) = true) as H.
  { destruct (pattern && _) eqn:E; [by right|]. left. exists a, b, c, r. split_and!; try done. intros Hx. apply Hp in Hx as ->. cbn [andb] in E. lia. }
  destruct pattern; cbn [andb] in *; cbn [obind]; destruct (_ || _) eqn:E; eexists; (split; [done|]); constructor; try constructor;
    (destruct H as [H|H]; [done|]); first [rewrite H in E; discriminate E | discriminate H].
Qed.

(** C32. Whatever terminated texts the records of the mapping file have, of which that of a
    SID has at least four characters, the two lists made from them consist of
    well-formed user SIDs (S-1-5-21 and four more sub-authorities, 28 bytes) with ids of
    32 bits, and an item without an id is a pattern whose last sub-authority leaves
    room for 30 bits of an id: what [ntfs_find_usid] and [findimplicit] rely on.  Of a
    shorter text [encodesid] reads what is behind its terminator ([short_text_overread]). *)
Theorem mapping_lists_typed pool items : Forall record_ok items ->
  (exists um, ntfs_do_user_mapping pool items = Ret um /\ Forall item_ok um) /\
  (exists gm, ntfs_do_group_mapping pool items = Ret gm /\ Forall item_ok gm).
Proof.
  intros Hi. assert (forall second, exists gm, group_step pool second items = Ret gm /\ Forall item_ok gm) as Hg.
  { intros second. induction Hi as [|i items (Hu & Hgt & Hs) Hi IH]; cbn [group_step]; [by exists []|].
    destruct (text_rd _ Hu) as [u0 ->], (text_rd _ Hgt) as [g0 ->], (text_id_ok _ Hgt) as (gid & -> & Hgid), IH as (gm & -> & Hgm). cbn [obind].
    destruct (eqb _ _ && _) eqn:E; cbn [obind]; [|by exists gm]. apply andb_true_iff in E as [_ E].
    destruct (mapping_of_ok pool gid ((u0 =? 0) && (g0 =? 0)) (sidstr i) Hs Hgid) as (m & -> & Hm); [intros ->; exact E|]. cbn [obind].
    exists (m ++ gm). split; [done|by apply Forall_app]. }
  split.
  - clear Hg. induction Hi as [|i items (Hu & Hgt & Hs) Hi IH]; cbn [ntfs_do_user_mapping]; [by exists []|].
    destruct (text_rd _ Hu) as [u0 ->], (text_rd _ Hgt) as [g0 ->], (text_id_ok _ Hu) as (uid & -> & Huid), IH as (um & -> & Hum). cbn [obind].
    assert (((Ret (u0 =? 0) : outcome bool) &&! Ret (g0 =? 0)) = Ret ((u0 =? 0) && (g0 =? 0))) as -> by (unfold o_and; cbn; by destruct (u0 =? 0)). cbn [obind].
    destruct (negb (uid =? 0) || _) eqn:E; cbn [obind]; [|by exists um].
    destruct (mapping_of_ok pool uid ((u0 =? 0) && (g0 =? 0)) (sidstr i) Hs Huid) as (m & -> & Hm); [intros ->; exact E|]. cbn [obind].
    exists (m ++ um). split; [done|by apply Forall_app].
  - unfold ntfs_do_group_mapping. destruct (Hg false) as (g1 & -> & H1), (Hg true) as (g2 & -> & H2). cbn [obind].
    exists (g1 ++ g2). split; [done|by apply Forall_app].
Qed.

(** C35. [strncmp] of this port (libc.c:242) is NULL for different texts, so the test
    [!strncmp(sidstr, "S-1-", 4)] turns away every text that does begin with "S-1-": a
    mapping file written as documented gives empty lists and no id is mapped. *)
Theorem mapping_file_ignored pool items :
  Forall (fun i => record_ok i /\ exists t, sidstr i = [83; 45; 49; 45] ++ t) items ->
  ntfs_do_user_mapping pool items = Ret [] /\ ntfs_do_group_mapping pool items = Ret [].
Proof.
  intros Hi. assert (forall i id p, record_ok i /\ (exists t, sidstr i = [83; 45; 49; 45] ++ t) -> mapping_of pool id p (sidstr i) = Ret []) as Hm.
  { intros i id p [(_ & _ & (h & t & k & E & Hh & _)) [t' E']]. unfold mapping_of, encodesid. rewrite E, strncmp_sid by done. rewrite E in E'.
    apply app_inj_1 in E' as [-> _]; [|unfold zlen in Hh; cbn; lia]. by rewrite decide_True. }
  assert (forall second, group_step pool second items = Ret []) as Hg.
  { intros second. induction Hi as [|i items Hr Hi IH]; cbn [group_step]; [done|]. destruct (Hr) as [(Hu & Hgt & _) _].
    destruct (text_rd _ Hu) as [u0 ->], (text_rd _ Hgt) as [g0 ->], (text_id_ok _ Hgt) as (gid & -> & _). cbn [obind].
    rewrite Hm, IH by done. by destruct (eqb _ _ && _). }
  unfold ntfs_do_group_mapping. rewrite !Hg. split; [|done]. clear Hg. induction Hi as [|i items Hr Hi IH]; cbn [ntfs_do_user_mapping]; [done|].
  destruct (Hr) as [(Hu & Hgt & _) _]. destruct (text_rd _ Hu) as [u0 ->], (text_rd _ Hgt) as [g0 ->], (text_id_ok _ Hu) as (uid & -> & _). cbn [obind].
  unfold o_and. cbn [obind]. rewrite IH by done. destruct (u0 =? 0); cbn [obind]; (destruct (_ || _); [|done]); by rewrite Hm.
Qed.

(** C22. A uid or gid with a SID of its own ([has_sid]) is turned into a SID, listed or
    derived from the pattern, and that SID back into the same id: 32 bits of an id fit
    in the two last sub-authorities, and users and groups are kept apart by parity. *)
Theorem id_sid_roundtrip um gm uid gid :
  mapping_ok um -> mapping_ok gm -> in_s 32 uid -> in_s 32 gid -> has_sid um uid 0 -> has_sid gm gid 1 ->
  (exists sid, ntfs_find_usid um uid = Ret (Some sid) /\ ntfs_find_user um sid = Ret uid) /\
  (exists sid, ntfs_find_gsid gm gid = Ret (Some sid) /\ ntfs_find_group gm sid = Ret gid).
Proof.
  intros Hu Hg Hui Hgi Hus Hgs. unfold ntfs_find_usid, ntfs_find_gsid, ntfs_find_user, ntfs_find_group.
  split; apply xid_roundtrip; auto.
Qed.

(** ** Examples *)
Definition some_pattern : bytes := user_sid 1 2 0xffffffff 1000.
Definition some_user : bytes := user_sid 1 2 3 1004.
Definition some_map : list mapping_item := [MAPPING 500 some_user; MAPPING 0 some_pattern].

Lemma some_map_ok : mapping_ok some_map.
Proof.
  split.
  - constructor; [exists 1, 2, 3, 1004|constructor; [exists 1, 2, 0xffffffff, 1000|constructor]]; unfold u32_ok, in_s; cbn; split_and!; (done || lia).
  - apply NoDup_singleton.
Qed.

Lemma id_sid_roundtrip_witness :
  mapping_ok some_map /\ has_sid some_map (-1) 0 /\ has_sid some_map (-2147483648) 1 /\
  (exists sid, ntfs_find_usid some_map (-1) = Ret (Some sid) /\ ntfs_find_user some_map sid = Ret (-1)) /\
  (exists sid, ntfs_find_gsid some_map (-2147483648) = Ret (Some sid) /\ ntfs_find_group some_map sid = Ret (-2147483648)).
Proof.
  assert (forall id p, derived 1 2 0xffffffff 1000 id p <> some_user -> 0 < 2 * id_lo id + p -> has_sid some_map id p) as H.
  { intros id p Hd Hp. right. right. exists 1, 2, 0xffffffff, 1000. unfold u32_ok. split_and!; try (done || lia).
    constructor; [by apply not_eq_sym|constructor]. }
  assert (has_sid some_map (-1) 0) as Hu by (apply H; vm_compute; done).
  assert (has_sid some_map (-2147483648) 1) as Hg by (apply H; vm_compute; done).
  split; [apply some_map_ok|]. split; [done|]. split; [done|].
  apply (id_sid_roundtrip some_map some_map (-1) (-2147483648) some_map_ok some_map_ok); [unfold in_s; lia|unfold in_s; lia|done|done].
Defined.

(** "X-1-5-21-1-2-3-1004", uid "7" *)
Definition sid_text (first : Z) : bytes := [first; 45; 49; 45; 53; 45; 50; 49; 45; 49; 45; 50; 45; 51; 45; 49; 48; 48; 52; 0].
Definition some_record (first : Z) : maplist_item := MAPLIST [55; 0] [0] (sid_text first).

Lemma some_record_ok first : first <> 0 -> record_ok (some_record first).
Proof.
  intros Hf. split_and!.
  - exists [55], []. split; [done|]. by repeat constructor.
  - exists [], []. split; [done|constructor].
  - exists [first; 45; 49; 45], [53; 45; 50; 49; 45; 49; 45; 50; 45; 51; 45; 49; 48; 48; 52], []. split_and!; try done; repeat constructor; done.
Qed.

Lemma mapping_lists_typed_witness :
  ntfs_do_user_mapping (fun _ => true) [some_record 88] = Ret [MAPPING 7 (user_sid 1 2 3 1004)] /\ Forall item_ok [MAPPING 7 (user_sid 1 2 3 1004)].
Proof.
  destruct (mapping_lists_typed (fun _ => true) [some_record 88]) as [(um & E & Hum) _]; [constructor; [by apply some_record_ok|constructor]|].
  assert (um = [MAPPING 7 (user_sid 1 2 3 1004)]) as -> by (vm_compute in E; by injection E as <-). done.
Defined.

Lemma mapping_file_ignored_witness : ntfs_do_user_mapping (fun _ => true) [some_record 83] = Ret [] /\ ntfs_do_group_mapping (fun _ => true) [some_record 83] = Ret [].
Proof.
  apply (mapping_file_ignored (fun _ => true) [some_record 83]). constructor; [|constructor]. split; [by apply some_record_ok|by eexists].
Defined.

(** The text of a SID that is shorter than the prefix it is compared with. *)
Example short_text_overread : encodesid (fun _ => true) [88; 0] = Fault.
Proof. reflexivity. Qed.

(** A uid that is a multiple of 2^30 gets the SID of the pattern with its top bits
    added, which is taken for nobody's: it comes back as root. *)
Example uid_becomes_root :
  (let! sid := ntfs_find_usid some_map 0x40000000 in
   match sid with Some sid => ntfs_find_user some_map sid | None => Fail EUNSET end) = Ret 0.
Proof. reflexivity. Qed.
