(* ===== verification/MapFile.v ===== *)
(** * The mapping file (acls.c)

    The file that associates users and groups with SIDs is read in blocks of 1024 bytes
    and split into lines, whose records are the input of the mapping lists.  A line has
    at most 120 characters that count; lines that begin with # are comments. *)
From S2P Require Import Prelude Libc Fields Cond Sid SidProofs.

(** acls.h:32-32 BUFSZ *)
Definition BUFSZ : Z := 1024.
(** acls.h:34-34 LINESZ *)
Definition LINESZ : Z := 120.

(** acls.c:4064-4065 getmappingitem. The variables of the caller: the bytes that were read
    last, of which there are [size] ([buf]; -1 after an error), the index of the next one
    and the position of the buffer in the file. *)
Record map_reader := READER { m_offs : Z; m_buf : bytes; m_src : Z; m_size : Z }.

(** acls.c:4082-4087 getmappingitem. The loop over the buffer, [n] bytes to go; [text] is
    what [item->maptext] has below [dst]. *)
Fixpoint line_loop (n : nat) (buf : bytes) (src : Z) (text : bytes) : outcome (Z * bytes) :=
  match n with
  | O => Ret (src, text)
  | S n' =>
    let! c := rd buf src in
    if c =? 10 then Ret (src, text) else line_loop n' buf (src + 1) (if zlen text <? LINESZ then text ++ [c] else text)
  end.

Section reader.
(** The callback: the bytes read at a position, [None] for -1. *)
Context (reader : Z -> option bytes).

(** acls.c:4089-4091 getmappingitem. Also acls.c:4158-4160. *)
Definition refill (offs : Z) : map_reader :=
  match reader offs with Some br => READER offs br 0 (zlen br) | None => READER offs [] 0 (-1) end.

(** acls.c:4080-4098 getmappingitem. The outer loop; the line with its NUL, or [None] when
    there is none ([gotend] is 0). *)
Fixpoint get_line (fuel : nat) (st : map_reader) (text : bytes) : outcome (option bytes * map_reader) :=
  match fuel with
  | O => Fault
  | S fuel' =>
    let! (src, text) := line_loop (Z.to_nat (m_size st - m_src st)) (m_buf st) (m_src st) text in
    if m_size st <=? src then
      let st := refill (m_offs st + m_size st) in
      if m_size st =? 0 then Ret (None, st) else get_line fuel' st text
    else
      let st := READER (m_offs st) (m_buf st) (src + 1) (m_size st) in
      let maptext := text ++ [0] in
      let! c := rd maptext 0 in
      if negb (m_size st =? 0) && (c =? 35) then get_line fuel' st [] else Ret (Some maptext, st)
  end.

(** acls.c:4100-4121 getmappingitem. The texts of the record in a line; [None] for a bad
    one. *)
Definition split_item (maptext : bytes) : outcome (option maplist_item) :=
  let! p1 := strchr maptext 58 in
  match p1 with
  | None => Ret None
  | Some pu =>
    let! p2 := strchr (at_ptr maptext (pu + 1)) 58 in
    match p2 with
    | None => Ret None
    | Some p2 =>
      let pg := pu + 1 + p2 in
      let! p3 := strchr (at_ptr maptext (pg + 1)) 58 in
      let! maptext := match p3 with Some q => wr maptext (pg + 1 + q) 0 | None => Ret maptext end in
      let! maptext := wr maptext pg 0 in
      let! maptext := wr maptext pu 0 in
      Ret (Some (MAPLIST maptext (at_ptr maptext (pu + 1)) (at_ptr maptext (pg + 1))))
    end
  end.

(** acls.c:4064-4128 getmappingitem. [alloc] is the memory for an item. *)
Definition getmappingitem (alloc : bool) (fuel : nat) (st : map_reader) : outcome (option maplist_item * map_reader) :=
  if negb alloc then Ret (None, st) else
  let! (line, st) := get_line fuel st [] in
  match line with
  | None => Ret (None, st)
  | Some maptext => let! item := split_item maptext in Ret (item, st)
  end.

(** acls.c:4161-4172 ntfs_read_mapping. The loop; [n] bounds the number of items. *)
Fixpoint read_items (n : nat) (alloc : bool) (fuel : nat) (st : map_reader) : outcome (list maplist_item) :=
  match n with
  | O => Fault
  | S n' =>
    let! (item, st) := getmappingitem alloc fuel st in
    match item with None => Ret [] | Some item => let! rest := read_items n' alloc fuel st in Ret (item :: rest) end
  end.

(** acls.c:4145-4175 ntfs_read_mapping *)
Definition ntfs_read_mapping (alloc : bool) (fuel : nat) : outcome (list maplist_item) :=
  let st := refill 0 in
  if 0 <? m_size st then read_items fuel alloc fuel st else Ret [].
End reader.

(** ** Freeing the lists *)
(** security.h:53-59 MAPPING. An element of a mapping list by the addresses of the blocks
    that were allocated for it; [c_groups] when [grcnt] is not 0. *)
Record mapping_cell := CELL { c_self : Z; c_sid : Z; c_groups : option Z }.

(** acls.c:4191-4193 ntfs_free_mapping. Whether a group has the SID. *)
Definition used_by_group (sid : Z) (groups : list mapping_cell) : bool := existsb (fun g => c_sid g =? sid) groups.
(** acls.c:4187-4202 ntfs_free_mapping. The blocks freed for the users. *)
Fixpoint free_users (users groups : list mapping_cell) : list Z :=
  match users with
  | [] => []
  | u :: users' => (if used_by_group (c_sid u) groups then [] else [c_sid u]) ++ option_list (c_groups u) ++ [c_self u] ++ free_users users' groups
  end.
(** acls.c:4203-4210 ntfs_free_mapping. The blocks freed for the groups. *)
Fixpoint free_groups (groups : list mapping_cell) : list Z :=
  match groups with [] => [] | g :: groups' => c_sid g :: c_self g :: free_groups groups' end.
(** acls.c:4182-4211 ntfs_free_mapping. The calls of [free], in order. *)
Definition ntfs_free_mapping (users groups : list mapping_cell) : list Z := free_users users groups ++ free_groups groups.

(** ** The lines of the file *)
(** A character is added to a line that is not full. *)
Definition grow (text : bytes) (c : Z) : bytes := if zlen text <? LINESZ then text ++ [c] else text.

(** The lines with their end, as far as they count; [text] is the beginning of the first
    one.  What is behind the last end of line is not a line. *)
Fixpoint map_lines (text : bytes) (file : bytes) : list bytes :=
  match file with [] => [] | c :: file' => if c =? 10 then text :: map_lines [] file' else map_lines (grow text c) file' end.

Definition is_comment (line : bytes) : bool := match line with c :: _ => c =? 35 | [] => false end.
Fixpoint skip_comments (ls : list bytes) : list bytes := match ls with l :: ls' => if is_comment l then skip_comments ls' else ls | [] => [] end.

Lemma first_newline (l : bytes) : 10 ∉ l \/ exists a b, l = a ++ 10 :: b /\ 10 ∉ a.
Proof.
  destruct (decide (10 ∈ l)) as [H|]; [right|by left]. destruct (list_elem_of_split_l l 10 H) as (a & b & -> & Ha). by exists a, b.
Qed.

Lemma map_lines_app text a r : 10 ∉ a -> map_lines text (a ++ r) = map_lines (foldl grow text a) r.
Proof.
  revert text. induction a as [|c a IH]; intros text Ha; [done|]. apply not_elem_of_cons in Ha as [Hc Ha]. cbn [app map_lines foldl].
  destruct (Z.eqb_spec c 10); [congruence|]. by apply IH.
Qed.

Lemma line_loop_ok buf src text rest : 0 <= src -> drop (Z.to_nat src) buf = rest ->
  (10 ∉ rest -> line_loop (length rest) buf src text = Ret (src + zlen rest, foldl grow text rest)) /\
  (forall a b, rest = a ++ 10 :: b -> 10 ∉ a -> line_loop (length rest) buf src text = Ret (src + zlen a, foldl grow text a)).
Proof.
  revert src text. induction rest as [|c rest IH]; intros src text Hs Hd; cbn [length line_loop].
  - split; [intros _; by rewrite Z.add_0_r|]. intros [|? a] b; done.
  - assert (rd buf src = Ret c) as ->.
    { apply rd_lookup. split; [done|]. rewrite <- (Nat.add_0_r (Z.to_nat src)), <- lookup_drop, Hd. done. }
    cbn [obind]. assert (drop (Z.to_nat (src + 1)) buf = rest) as Hd'.
    { replace (Z.to_nat (src + 1)) with (Z.to_nat src + 1)%nat by lia. by rewrite <- drop_drop, Hd. }
    destruct (IH (src + 1) (grow text c) ltac:(lia) Hd') as [H1 H2]. split.
    + intros Hn. apply not_elem_of_cons in Hn as [Hc Hn]. destruct (Z.eqb_spec c 10); [congruence|]. fold (grow text c). rewrite H1 by done. f_equal. f_equal. rewrite zlen_cons. lia.
    + intros a b E Ha. destruct a as [|c' a]; injection E as -> E.
      * rewrite Z.eqb_refl. cbn [zlen length foldl]. by rewrite Z.add_0_r.
      * apply not_elem_of_cons in Ha as [Hc Ha]. destruct (Z.eqb_spec c' 10); [congruence|]. fold (grow text c'). rewrite (H2 a b E Ha). f_equal. f_equal. rewrite zlen_cons. lia.
Qed.

Section file.
Context (reader : Z -> option bytes) (file : bytes).
(** The callback gives the next bytes of the file, as many as it likes, and none only at
    the end. *)
Context (reads : forall pos, 0 <= pos <= zlen file -> exists br, reader pos = Some br /\ br = sub file pos (zlen br) /\ pos + zlen br <= zlen file /\ (br = [] -> pos = zlen file)).

(** The position in the file: [r] is what is still to come. *)
Record at_rest (st : map_reader) (r : bytes) : Prop := {
  ar_src : 0 <= m_src st <= m_size st;
  ar_size : m_size st = zlen (m_buf st);
  ar_offs : 0 <= m_offs st /\ m_offs st + m_size st <= zlen file;
  ar_file : exists k, r = drop k file;
  ar_rest : r = drop (Z.to_nat (m_src st)) (m_buf st) ++ drop (Z.to_nat (m_offs st + m_size st)) file;
}.

Lemma refill_ok offs : 0 <= offs <= zlen file ->
  at_rest (refill reader offs) (drop (Z.to_nat offs) file) /\ m_src (refill reader offs) = 0 /\ (m_size (refill reader offs) = 0 -> offs = zlen file).
Proof using reads.
  intros Ho. destruct (reads offs Ho) as (br & E & Ebr & Hin & He). unfold refill. rewrite E. cbn [m_src m_size]. pose proof (zlen_nonneg br). split; [|split; [done|]].
  - constructor; cbn [m_src m_size m_buf m_offs]; try lia; [by eexists|]. change (Z.to_nat 0) with O. cbn [drop]. replace (Z.to_nat (offs + zlen br)) with (Z.to_nat offs + Z.to_nat (zlen br))%nat by lia.
    rewrite <- drop_drop. rewrite <- (take_drop (Z.to_nat (zlen br)) (drop (Z.to_nat offs) file)) at 1. f_equal. symmetry. exact Ebr.
  - intros Hz. apply He. destruct br; [done|]. rewrite zlen_cons in Hz. pose proof (zlen_nonneg br). lia.
Qed.

Lemma get_line_ok fuel st text r : at_rest st r -> (2 * length r + (if (m_src st =? m_size st)%Z then 2 else 1) <= fuel)%nat ->
  exists line st', get_line reader fuel st text = Ret (line, st') /\
    match skip_comments (map_lines text r) with
    | [] => line = None
    | l :: ls => line = Some (l ++ [0]) /\ exists r', at_rest st' r' /\ map_lines [] r' = ls /\ (length r' < length r)%nat
    end.
Proof using reads.
  revert st text r. induction fuel as [|fuel IH]; intros st text r Hr Hf; [destruct (_ =? _); lia|]. cbn [get_line].
  destruct (ar_src _ _ Hr) as [Hs1 Hs2]. destruct (ar_offs _ _ Hr) as [Ho1 Ho2]. pose proof (ar_size _ _ Hr) as Hz. pose proof (ar_rest _ _ Hr) as Er.
  set (rest := drop (Z.to_nat (m_src st)) (m_buf st)) in *. set (tail := drop (Z.to_nat (m_offs st + m_size st)) file) in *.
  assert (zlen rest = m_size st - m_src st) as Hzr by (unfold rest, zlen in *; rewrite length_drop; lia).
  replace (Z.to_nat (m_size st - m_src st)) with (length rest) by (unfold zlen in Hzr; lia).
  destruct (line_loop_ok (m_buf st) (m_src st) text rest Hs1 eq_refl) as [H1 H2]. destruct (first_newline rest) as [Hn|(a & b & Eab & Ha)].
  - rewrite H1 by done. cbn [obind]. destruct (Z.leb_spec (m_size st) (m_src st + zlen rest)); [|lia]. destruct (refill_ok (m_offs st + m_size st)) as (Hr' & Hsrc & Hend); [lia|]. fold tail in Hr'.
    rewrite Er, map_lines_app by done. destruct (Z.eqb_spec (m_size (refill reader (m_offs st + m_size st))) 0) as [E0|E0].
    + do 2 eexists. split; [done|]. unfold tail. rewrite drop_ge by (specialize (Hend E0); unfold zlen in *; lia). done.
    + destruct (IH (refill reader (m_offs st + m_size st)) (foldl grow text rest) tail Hr') as (line & st' & E & Hl).
      { rewrite Hsrc. destruct (Z.eqb_spec 0 (m_size (refill reader (m_offs st + m_size st)))); [lia|]. rewrite Er, length_app in Hf. unfold zlen in Hzr.
        destruct (Z.eqb_spec (m_src st) (m_size st)); lia. }
      exists line, st'. split; [done|]. destruct (skip_comments _) as [|l ls]; [done|]. destruct Hl as (-> & r' & Hr1 & Hr2 & Hr3). split; [done|]. exists r'. split_and!; try done. rewrite length_app. lia.
  - rewrite (H2 a b Eab Ha). cbn [obind]. rewrite Eab, zlen_app, zlen_cons in Hzr. pose proof (zlen_nonneg b). pose proof (zlen_nonneg a). destruct (Z.leb_spec (m_size st) (m_src st + zlen a)); [lia|].
    set (st1 := READER _ _ _ _). assert (at_rest st1 (b ++ tail)) as Hr1.
    { constructor; cbn [m_src m_size m_buf m_offs st1]; try lia.
      { destruct (ar_file _ _ Hr) as [k Ek]. exists (k + (length a + 1))%nat. rewrite <- drop_drop, <- Ek, Er, Eab, <- app_assoc, <- drop_drop, drop_app_length. done. }
      f_equal. replace (Z.to_nat (m_src st + zlen a + 1)) with (Z.to_nat (m_src st) + (length a + 1))%nat by (unfold zlen; lia).
      rewrite <- drop_drop. fold rest. rewrite Eab, <- drop_drop, drop_app_length. done. }
    rewrite Er, Eab, <- app_assoc, map_lines_app by done. cbn [app map_lines]. rewrite Z.eqb_refl. set (l := foldl grow text a) in *. cbn [skip_comments].
    assert (rd (l ++ [0]) 0 = Ret (match l with c :: _ => c | [] => 0 end)) as -> by (by destruct l). cbn [obind].
    assert (is_comment l = ((match l with c :: _ => c | [] => 0 end) =? 35)) as Hc by (by destruct l). rewrite <- Hc.
    cbn [m_size st1]. destruct (Z.eqb_spec (m_size st) 0); [lia|]. cbn [negb andb]. destruct (is_comment l).
    + destruct (IH st1 [] (b ++ tail) Hr1) as (line & st' & E & Hl).
      { rewrite Er, Eab, !length_app in Hf. cbn [length] in Hf. rewrite length_app. destruct (m_src st =? m_size st), (m_src st1 =? m_size st1); lia. }
      exists line, st'. split; [done|]. destruct (skip_comments _) as [|l' ls]; [done|]. destruct Hl as (-> & r' & H1' & H2' & H3'). split; [done|]. exists r'. split_and!; try done.
      rewrite length_app in H3'. rewrite length_app. cbn [length]. rewrite length_app. lia.
    + do 2 eexists. split; [done|]. split; [done|]. exists (b ++ tail). split_and!; try done. rewrite (length_app a). cbn [length]. lia.
Qed.
End file.

(** ** The records *)
(** The text up to the first NUL. *)
Fixpoint c_str (m : bytes) : bytes := match m with [] => [] | c :: m' => if c =? 0 then [] else c :: c_str m' end.
Definition texts (i : maplist_item) : bytes * bytes * bytes := (c_str (uidstr i), c_str (gidstr i), c_str (sidstr i)).

(** A text up to the first colon, and what is behind it. *)
Fixpoint cut (l : bytes) : option (bytes * bytes) :=
  match l with [] => None | c :: l' => if c =? 58 then Some ([], l') else match cut l' with Some (a, b) => Some (c :: a, b) | None => None end end.

(** A record has three texts; a fourth one is left out. *)
Definition record_of (l : bytes) : option (bytes * bytes * bytes) :=
  match cut l with
  | Some (u, r) => match cut r with Some (g, s) => Some (u, g, match cut s with Some (s', _) => s' | None => s end) | None => None end
  | None => None
  end.

(** The records of the lines, up to the first line that has none. *)
Fixpoint records (ls : list bytes) : list (bytes * bytes * bytes) :=
  match ls with
  | [] => []
  | l :: ls' => if is_comment l then records ls' else match record_of l with Some r => r :: records ls' | None => [] end
  end.

Lemma cut_spec l : match cut l with Some (a, b) => l = a ++ 58 :: b /\ 58 ∉ a | None => 58 ∉ l end.
Proof.
  induction l as [|c l IH]; cbn [cut]; [apply not_elem_of_nil|]. destruct (Z.eqb_spec c 58) as [->|Hc]; [split; [done|apply not_elem_of_nil]|].
  destruct (cut l) as [[a b]|]; [|rewrite not_elem_of_cons; split; [congruence|done]]. destruct IH as [-> Ha]. split; [done|]. rewrite not_elem_of_cons. split; [congruence|done].
Qed.

Lemma c_str_app u k : 0 ∉ u -> c_str (u ++ 0 :: k) = u.
Proof.
  induction u as [|c u IH]; intros Hu; [done|]. apply not_elem_of_cons in Hu as [Hc Hu]. cbn [app c_str]. destruct (Z.eqb_spec c 0); [congruence|]. by rewrite IH.
Qed.

Lemma s8_colon b : byte_ok b -> (s8 b =? 58) = (b =? 58).
Proof.
  unfold byte_ok. intros Hb. apply eq_true_iff_eq. rewrite !Z.eqb_eq. unfold wraps. change (2 ^ (8 - 1)) with 128. change (2 ^ 8) with 256. split; intros H; dlia.
Qed.

Lemma strchr_found u k i : 0 ∉ u -> 58 ∉ u -> Forall byte_ok u -> strchr_from (u ++ 58 :: k) 58 i = Ret (Some (i + zlen u)).
Proof.
  intros H0 H1 Hu. revert i H0 H1. induction Hu as [|c u Hc Hu IH]; intros i H0 H1; [change (zlen (@nil Z)) with 0; rewrite Z.add_0_r; done|]. apply not_elem_of_cons in H0 as [Hc0 H0]. apply not_elem_of_cons in H1 as [Hc1 H1].
  cbn [app strchr_from]. rewrite s8_colon by done. destruct (Z.eqb_spec c 0); [congruence|]. destruct (Z.eqb_spec c 58); [congruence|]. rewrite IH by done. f_equal. f_equal. rewrite zlen_cons. lia.
Qed.

Lemma strchr_missing u k i : 0 ∉ u -> 58 ∉ u -> Forall byte_ok u -> strchr_from (u ++ 0 :: k) 58 i = Ret None.
Proof.
  intros H0 H1 Hu. revert i H0 H1. induction Hu as [|c u Hc Hu IH]; intros i H0 H1; [done|]. apply not_elem_of_cons in H0 as [Hc0 H0]. apply not_elem_of_cons in H1 as [Hc1 H1].
  cbn [app strchr_from]. rewrite s8_colon by done. destruct (Z.eqb_spec c 0); [congruence|]. destruct (Z.eqb_spec c 58); [congruence|]. by apply IH.
Qed.

Lemma at_ptr_behind (p k : bytes) c : at_ptr (p ++ c :: k) (zlen p + 1) = k.
Proof. rewrite (cons_middle c p k), app_assoc. apply (at_ptr_app (p ++ [c]) k). rewrite zlen_app. done. Qed.

Lemma split_item_ok l : 0 ∉ l -> Forall byte_ok l -> exists item, split_item (l ++ [0]) = Ret item /\ texts <$> item = record_of l.
Proof.
  intros H0 Hb. unfold split_item, strchr, record_of. pose proof (cut_spec l) as Hc. destruct (cut l) as [[u r]|]; [|rewrite strchr_missing by done; by eexists].
  destruct Hc as [-> Hu]. apply not_elem_of_app in H0 as [Hu0 H0]. apply not_elem_of_cons in H0 as [_ Hr0]. apply Forall_app in Hb as [Hbu Hb]. apply Forall_cons in Hb as [_ Hbr].
  rewrite <- app_assoc. cbn [app]. rewrite strchr_found by done. cbn [obind]. change (0 + zlen u) with (zlen u). rewrite at_ptr_behind.
  pose proof (cut_spec r) as Hc. destruct (cut r) as [[g s]|]; [|rewrite strchr_missing by done; by eexists].
  destruct Hc as [-> Hg]. apply not_elem_of_app in Hr0 as [Hg0 Hr0]. apply not_elem_of_cons in Hr0 as [_ Hs0]. apply Forall_app in Hbr as [Hbg Hbs]. apply Forall_cons in Hbs as [_ Hbs].
  rewrite <- app_assoc. cbn [app]. rewrite strchr_found by done. cbn [obind]. change (0 + zlen g) with (zlen g).
  assert (forall k, u ++ 58 :: g ++ 58 :: k = (u ++ 58 :: g) ++ 58 :: k) as Eg by (intros k; by rewrite <- app_assoc).
  assert (zlen u + 1 + zlen g = zlen (u ++ 58 :: g)) as Ez by (rewrite zlen_app, zlen_cons; lia). rewrite Ez, Eg, at_ptr_behind.
  assert (forall k, (let! maptext := wr ((u ++ 58 :: g) ++ 58 :: k) (zlen (u ++ 58 :: g)) 0 in let! maptext := wr maptext (zlen u) 0 in
    Ret (Some (MAPLIST maptext (at_ptr maptext (zlen u + 1)) (at_ptr maptext (zlen (u ++ 58 :: g) + 1))))) = Ret (Some (MAPLIST (u ++ 0 :: g ++ 0 :: k) (g ++ 0 :: k) k))) as Hend.
  { intros k. rewrite wr_app_here by done. cbn [obind]. rewrite <- app_assoc. cbn [app]. rewrite wr_app_here by done. cbn [obind]. rewrite at_ptr_behind. f_equal. f_equal. f_equal.
    rewrite <- Ez. replace (zlen u + 1 + zlen g) with (zlen (u ++ 0 :: g)) by (rewrite zlen_app, zlen_cons; lia).
    replace (u ++ 0 :: g ++ 0 :: k) with ((u ++ 0 :: g) ++ 0 :: k) by (by rewrite <- app_assoc). apply at_ptr_behind. }
  pose proof (cut_spec s) as Hc. destruct (cut s) as [[s' t]|].
  - destruct Hc as [-> Hs]. apply not_elem_of_app in Hs0 as [Hs0 _]. apply Forall_app in Hbs as [Hbs _]. rewrite <- app_assoc. cbn [app]. rewrite strchr_found by done. cbn [obind]. change (0 + zlen s') with (zlen s').
    replace (zlen (u ++ 58 :: g) + 1 + zlen s') with (zlen ((u ++ 58 :: g) ++ 58 :: s')) by (rewrite (zlen_app _ (58 :: s')), zlen_cons; lia).
    replace ((u ++ 58 :: g) ++ 58 :: s' ++ 58 :: t ++ [0]) with (((u ++ 58 :: g) ++ 58 :: s') ++ 58 :: t ++ [0]) by (by rewrite <- (app_assoc (u ++ 58 :: g))).
    rewrite wr_app_here by done. cbn [obind]. rewrite <- (app_assoc (u ++ 58 :: g)). cbn [app]. rewrite (Hend (s' ++ 0 :: t ++ [0])). eexists. split; [done|]. cbn. unfold texts. cbn [uidstr gidstr sidstr]. by rewrite !c_str_app.
  - rewrite strchr_missing by done. cbn [obind]. rewrite (Hend (s ++ [0])). eexists. split; [done|]. cbn. unfold texts. cbn [uidstr gidstr sidstr]. by rewrite !c_str_app.
Qed.

Lemma split_item_bad l : record_of l = None -> 0 ∉ l -> Forall byte_ok l -> split_item (l ++ [0]) = Ret None.
Proof. intros Hr H0 Hb. destruct (split_item_ok l H0 Hb) as ([i|] & E & Ht); [by rewrite Hr in Ht|done]. Qed.

(** A character of a text. *)
Definition text_char (c : Z) : Prop := byte_ok c /\ c <> 0.

Lemma text_chars l : Forall text_char l -> 0 ∉ l /\ Forall byte_ok l.
Proof.
  intros H. split.
  - intros H0. rewrite List.Forall_forall in H. by destruct (H 0 (proj1 (list_elem_of_In _ _) H0)).
  - eapply Forall_impl; [done|]. by intros c [Hc _].
Qed.

Lemma map_lines_chars text r : Forall text_char text -> Forall text_char r -> Forall (Forall text_char) (map_lines text r).
Proof.
  intros Ht Hr. revert text Ht. induction Hr as [|c r Hc Hr IH]; intros text Ht; cbn [map_lines]; [constructor|]. destruct (c =? 10); [constructor; [done|apply IH; constructor]|].
  apply IH. unfold grow. destruct (_ <? _); [|done]. apply Forall_app. split; [done|]. constructor; [done|constructor].
Qed.

Lemma skip_comments_chars ls : Forall (Forall text_char) ls -> Forall (Forall text_char) (skip_comments ls).
Proof. induction 1 as [|l ls Hl Hls IH]; cbn [skip_comments]; [constructor|]. destruct (is_comment l); [done|by constructor]. Qed.

Lemma records_skip ls : records ls = match skip_comments ls with [] => [] | l :: ls' => match record_of l with Some r => r :: records ls' | None => [] end end.
Proof. induction ls as [|l ls IH]; [done|]. cbn [records skip_comments]. destruct (is_comment l) eqn:E; [done|]. done. Qed.

Section spec.
Context (reader : Z -> option bytes) (file : bytes) (chars : Forall text_char file).
Context (reads : forall pos, 0 <= pos <= zlen file -> exists br, reader pos = Some br /\ br = sub file pos (zlen br) /\ pos + zlen br <= zlen file /\ (br = [] -> pos = zlen file)).

Lemma read_items_ok n fuel st r : at_rest file st r -> (length r < n)%nat -> (2 * length r + 2 <= fuel)%nat ->
  exists items, read_items reader n true fuel st = Ret items /\ texts <$> items = records (map_lines [] r).
Proof using reads chars.
  revert st r. induction n as [|n IH]; intros st r Hr Hn Hf; [lia|]. cbn [read_items]. unfold getmappingitem. cbn [negb].
  destruct (get_line_ok reader file reads fuel st [] r Hr) as (line & st' & E & Hl); [destruct (m_src st =? m_size st); lia|]. rewrite E. cbn [obind]. rewrite records_skip.
  assert (Forall text_char r) as Hc by (destruct (ar_file _ _ _ Hr) as [k ->]; by apply Forall_drop).
  pose proof (skip_comments_chars _ (map_lines_chars [] r ltac:(constructor) Hc)) as Hcs. destruct (skip_comments _) as [|l ls]; [subst; by exists []|].
  destruct Hl as (-> & r' & Hr' & Els & Hlen). apply Forall_cons in Hcs as [Hl Hcs]. apply text_chars in Hl as [H0 Hb]. destruct (split_item_ok l H0 Hb) as (item & Ei & Et). rewrite Ei. cbn [obind].
  destruct item as [item|]; cbn in Et; rewrite <- Et; [|by exists []].
  destruct (IH st' r' Hr') as (items & Er & Ers); [lia|lia|]. rewrite Er. cbn [obind]. eexists. split; [done|]. cbn. by rewrite Ers, Els.
Qed.

Lemma read_mapping_ok fuel : (2 * length file + 2 <= fuel)%nat ->
  exists items, ntfs_read_mapping reader true fuel = Ret items /\ texts <$> items = records (map_lines [] file).
Proof using reads chars.
  intros Hf. destruct (refill_ok reader file reads 0) as (Hr & _ & Hend); [pose proof (zlen_nonneg file); lia|]. change (drop (Z.to_nat 0) file) with file in Hr. unfold ntfs_read_mapping.
  destruct (Z.ltb_spec 0 (m_size (refill reader 0))) as [|Hle].
  - apply read_items_ok; [done|lia|lia].
  - exists []. split; [done|]. assert (m_size (refill reader 0) = 0) as E0 by (pose proof (ar_src _ _ _ Hr); lia). specialize (Hend E0).
    assert (file = []) as -> by (apply length_zero_iff_nil; unfold zlen in Hend; lia). done.
Qed.
End spec.

(** ** A mapping file that was written *)
Definition line_of (r : bytes * bytes * bytes) : bytes := let '(u, g, s) := r in u ++ 58 :: g ++ 58 :: s.
Definition file_of (rs : list (bytes * bytes * bytes)) : bytes := concat ((fun r => line_of r ++ [10]) <$> rs).

(** A record that can be written. *)
Definition record_ok (r : bytes * bytes * bytes) : Prop :=
  let '(u, g, s) := r in
  Forall text_char (line_of r) /\ 10 ∉ line_of r /\ 58 ∉ u /\ 58 ∉ g /\ 58 ∉ s /\ zlen (line_of r) <= LINESZ /\ is_comment (line_of r) = false.

Lemma grow_all text a : zlen text + zlen a <= LINESZ -> foldl grow text a = text ++ a.
Proof.
  revert text. induction a as [|c a IH]; intros text H; cbn [foldl]; [by rewrite app_nil_r|]. rewrite zlen_cons in H. pose proof (zlen_nonneg a). unfold grow at 2.
  destruct (Z.ltb_spec (zlen text) LINESZ); [|lia]. rewrite IH by (rewrite zlen_app, zlen_cons; change (zlen (@nil Z)) with 0; lia). by rewrite <- app_assoc.
Qed.

Lemma cut_app u k : 58 ∉ u -> cut (u ++ 58 :: k) = Some (u, k).
Proof.
  induction u as [|c u IH]; intros Hu; [done|]. apply not_elem_of_cons in Hu as [Hc Hu]. cbn [app cut]. destruct (Z.eqb_spec c 58); [congruence|]. by rewrite IH.
Qed.

Lemma cut_none s : 58 ∉ s -> cut s = None.
Proof. intros Hs. pose proof (cut_spec s) as H. destruct (cut s) as [[a b]|]; [|done]. destruct H as [-> _]. exfalso. apply Hs, elem_of_app. right. apply elem_of_cons. by left. Qed.

Lemma file_of_cons r rs : file_of (r :: rs) = line_of r ++ 10 :: file_of rs.
Proof. unfold file_of. cbn [fmap list_fmap concat]. by rewrite <- app_assoc. Qed.

Lemma file_of_records rs : Forall record_ok rs -> records (map_lines [] (file_of rs)) = rs.
Proof.
  induction 1 as [|[[u g] s] rs (_ & H10 & Hu & Hg & Hs & Hz & Hc) Hrs IH]; [done|]. rewrite file_of_cons, map_lines_app by done. cbn [map_lines]. rewrite Z.eqb_refl.
  rewrite grow_all by (change (zlen (@nil Z)) with 0; lia). cbn [app records]. rewrite Hc. unfold record_of, line_of. rewrite !cut_app, cut_none by done. by rewrite IH.
Qed.

(** ** Properties *)
(** The callback reads the file: at a position inside, some of the bytes that come next,
    at the end none. *)
Definition reads_file (reader : Z -> option bytes) (file : bytes) : Prop :=
  forall pos, 0 <= pos <= zlen file -> exists br, reader pos = Some br /\ br = sub file pos (zlen br) /\ pos + zlen br <= zlen file /\ (br = [] -> pos = zlen file).

(** C33. Reading the mapping file in blocks of any sizes gives the records of its lines:
    comments are left out, a line counts for its first 120 characters, the text behind the
    last end of line is not a line, and the first line without a record is the last one
    that is looked at.  The reading comes to an end. *)
Theorem read_mapping_spec reader file fuel : Forall text_char file -> reads_file reader file -> (2 * length file + 2 <= fuel)%nat ->
  exists items, ntfs_read_mapping reader true fuel = Ret items /\ texts <$> items = records (map_lines [] file).
Proof. intros. by apply read_mapping_ok. Qed.

(** A mapping file that was written with a line for each record gives these records
    back, whatever the sizes of the blocks it is read in. *)
Theorem mapping_file_roundtrip reader rs fuel : Forall record_ok rs -> reads_file reader (file_of rs) -> (2 * length (file_of rs) + 2 <= fuel)%nat ->
  exists items, ntfs_read_mapping reader true fuel = Ret items /\ texts <$> items = rs.
Proof.
  intros Hrs Hr Hf. destruct (read_mapping_ok reader (file_of rs)) with (fuel := fuel) as (items & E & Ht); [|done|done|].
  - clear -Hrs. induction Hrs as [|r rs Hr Hrs IH]; [constructor|]. rewrite file_of_cons. apply Forall_app. split; [destruct r as [[u g] s]; apply Hr|]. by constructor.
  - exists items. split; [done|]. by rewrite Ht, file_of_records.
Qed.

(** Concrete texts and records are checked by computation. *)
Lemma text_checked l : forallb (fun c => (0 <? c) && (c <? 256)) l = true -> Forall text_char l.
Proof. rewrite forallb_forall, List.Forall_forall. intros H c Hc. specialize (H c Hc). unfold text_char, byte_ok. lia. Qed.

Definition record_check (r : bytes * bytes * bytes) : bool :=
  let '(u, g, s) := r in
  forallb (fun c => (0 <? c) && (c <? 256)) (line_of r) && bool_decide (10 ∉ line_of r) && bool_decide (58 ∉ u) && bool_decide (58 ∉ g) && bool_decide (58 ∉ s) &&
  (zlen (line_of r) <=? LINESZ) && negb (is_comment (line_of r)).

Lemma records_checked rs : forallb record_check rs = true -> Forall record_ok rs.
Proof.
  rewrite forallb_forall, List.Forall_forall. intros H r Hr. specialize (H r Hr). destruct r as [[u g] s]. unfold record_check in H.
  repeat (apply andb_true_iff in H as [H ?]). split; [by apply text_checked|]. split_and!; try (by eapply bool_decide_eq_true); [lia|]. by apply negb_true_iff.
Qed.

(** Texts as bytes. *)
Definition some_records : list (bytes * bytes * bytes) := [([49; 48; 48; 48], [], [83; 45; 49]); ([], [49; 48; 48], [83; 45; 50]); ([], [], [83])].
(** A callback that gives seven bytes at most. *)
Definition by_seven (file : bytes) (pos : Z) : option bytes := Some (sub file pos (Z.min 7 (zlen file - pos))).

Lemma by_seven_reads file : reads_file (by_seven file) file.
Proof.
  intros pos Hp. eexists. split; [done|]. pose proof (zlen_nonneg file). rewrite zlen_sub by lia. split; [done|]. split; [lia|]. intros E.
  assert (zlen (sub file pos (Z.min 7 (zlen file - pos))) = 0) as Ez by (by rewrite E). rewrite zlen_sub in Ez by lia. lia.
Qed.

Lemma read_mapping_spec_witness :
  exists items, ntfs_read_mapping (by_seven (35 :: 10 :: file_of some_records)) true 100 = Ret items /\ texts <$> items = records (map_lines [] (35 :: 10 :: file_of some_records)).
Proof.
  apply (read_mapping_spec (by_seven (35 :: 10 :: file_of some_records)) (35 :: 10 :: file_of some_records) 100).
  - by apply text_checked.
  - apply by_seven_reads.
  - vm_compute. lia.
Defined.

Lemma mapping_file_roundtrip_witness : exists items, ntfs_read_mapping (by_seven (file_of some_records)) true 100 = Ret items /\ texts <$> items = some_records.
Proof.
  apply (mapping_file_roundtrip (by_seven (file_of some_records)) some_records 100).
  - by apply records_checked.
  - apply by_seven_reads.
  - vm_compute. lia.
Defined.

(** When the callback fails behind the first block, the loop has no end: the size becomes
    -1, which is not 0, and the position goes back by one at each round. *)
Lemma failing_reader_loops fuel text offs : get_line (fun _ => None) fuel (READER offs [] 0 (-1)) text = Fault.
Proof. revert offs. induction fuel as [|fuel IH]; intros offs; [done|]. cbn. apply IH. Qed.

(** ** What is freed *)
(** The blocks of a user that are not shared. *)
Definition user_blocks (u : mapping_cell) : list Z := option_list (c_groups u) ++ [c_self u].
Definition owned (users groups : list mapping_cell) : list Z := concat (user_blocks <$> users) ++ (c_self <$> groups).

Lemma used_by_group_spec sid groups : used_by_group sid groups = true <-> sid ∈ c_sid <$> groups.
Proof.
  unfold used_by_group. rewrite existsb_exists, list_elem_of_fmap. split.
  - intros (g & Hg & E). exists g. split; [lia|by apply list_elem_of_In].
  - intros (g & -> & Hg). exists g. split; [by apply list_elem_of_In|lia].
Qed.

Definition unshared (users groups : list mapping_cell) : list Z := filter (fun s => used_by_group s groups = false) (c_sid <$> users).

Lemma free_mapping_perm users groups : ntfs_free_mapping users groups ≡ₚ owned users groups ++ unshared users groups ++ (c_sid <$> groups).
Proof.
  unfold ntfs_free_mapping, owned, unshared. assert (free_users users groups ≡ₚ concat (user_blocks <$> users) ++ filter (fun s => used_by_group s groups = false) (c_sid <$> users)) as ->.
  { induction users as [|u users IH]; [done|]. cbn [free_users fmap list_fmap concat]. rewrite IH. unfold user_blocks at 2. rewrite filter_cons.
    destruct (used_by_group (c_sid u) groups) eqn:E; [rewrite decide_False by done|rewrite decide_True by done]; solve_Permutation. }
  assert (free_groups groups ≡ₚ (c_self <$> groups) ++ (c_sid <$> groups)) as ->.
  { clear. induction groups as [|g groups IH]; [done|]. cbn [free_groups fmap list_fmap]. rewrite IH. solve_Permutation. }
  solve_Permutation.
Qed.

(** Every block of the lists is freed, and once: the SIDs of the users differ from each
    other and those of the groups too, but a user and a group may have the same. *)
Lemma free_mapping_once users groups :
  NoDup (owned users groups) -> NoDup (c_sid <$> users) -> NoDup (c_sid <$> groups) -> (forall b, b ∈ c_sid <$> users ++ groups -> b ∉ owned users groups) ->
  NoDup (ntfs_free_mapping users groups) /\ forall b, b ∈ ntfs_free_mapping users groups <-> b ∈ owned users groups ++ (c_sid <$> users ++ groups).
Proof.
  intros Ho Hu Hg Hd. rewrite free_mapping_perm. rewrite fmap_app in Hd |- *. assert (forall b, b ∈ unshared users groups <-> used_by_group b groups = false /\ b ∈ c_sid <$> users) as Hun by (intros b; unfold unshared; by rewrite list_elem_of_filter).
  split.
  - apply NoDup_app. split; [done|]. split.
    + intros b Hb Hs. apply (Hd b); [|done]. clear Hb. apply elem_of_app in Hs as [Hs|Hs]; apply elem_of_app; [left; by apply Hun|by right].
    + apply NoDup_app. split; [by apply NoDup_filter|]. split; [|done]. intros b Hb Hs. apply Hun in Hb as [Hb _]. apply used_by_group_spec in Hs. congruence.
  - intros b. rewrite free_mapping_perm, !elem_of_app, Hun. pose proof (used_by_group_spec b groups). destruct (used_by_group b groups); naive_solver.
Qed.
