(* ===== verification/Acl.v ===== *)
(** * Security descriptors (acls.c)

    The operations on a self-relative security descriptor: its checks, the permissions
    (mode_t) it stands for and the descriptor made for a mode.

    The members of an ACE are where this port's declaration puts them
    (layout.h:1678-1687 under pack(1), for the compiler that Ntfs.inf names): the type
    is an enum of four bytes and the flags a short, so the size is at 6, the mask at 8
    and the SID at 12, where the comments of the declaration and the sizes computed by
    the code ([sidsz + 8]) have 2, 4 and 8.  A size_t has 64 bits (X64). *)
From S2P Require Import Prelude Libc Fields Cond Sid.

(** ** Layout *)
Definition sizeof_SD : Z := 20.
(** layout.h:1829-1849 SECURITY_DESCRIPTOR_RELATIVE. Read the header of a descriptor. *)
Definition sd_revision (sd : bytes) : outcome Z := rd sd 0.
(** layout.h:1832-1832 SECURITY_DESCRIPTOR_RELATIVE *)
Definition sd_control (sd : bytes) : outcome Z := rd_le 2 sd 2.
(** layout.h:1834-1834 SECURITY_DESCRIPTOR_RELATIVE *)
Definition sd_owner (sd : bytes) : outcome Z := rd_le 4 sd 4.
(** layout.h:1837-1837 SECURITY_DESCRIPTOR_RELATIVE *)
Definition sd_group (sd : bytes) : outcome Z := rd_le 4 sd 8.
(** layout.h:1840-1840 SECURITY_DESCRIPTOR_RELATIVE *)
Definition sd_sacl (sd : bytes) : outcome Z := rd_le 4 sd 12.
(** layout.h:1844-1844 SECURITY_DESCRIPTOR_RELATIVE *)
Definition sd_dacl (sd : bytes) : outcome Z := rd_le 4 sd 16.
(** layout.h:1728-1736 ACL *)
Definition sizeof_ACL : Z := 8.
(** layout.h:1729-1729 ACL *)
Definition acl_revision (acl : bytes) : outcome Z := rd acl 0.
(** layout.h:1731-1731 ACL *)
Definition acl_size (acl : bytes) : outcome Z := rd_le 2 acl 2.
(** layout.h:1733-1733 ACL *)
Definition acl_ace_count (acl : bytes) : outcome Z := rd_le 2 acl 4.
(** layout.h:1678-1687 ACCESS_ALLOWED_ACE *)
Definition sizeof_ACE : Z := 24.
(** layout.h:1680-1680 ACCESS_ALLOWED_ACE *)
Definition ace_type (ace : bytes) : outcome Z := rd_le 4 ace 0.
(** layout.h:1681-1681 ACCESS_ALLOWED_ACE *)
Definition ace_flags (ace : bytes) : outcome Z := rd_le 2 ace 4.
(** layout.h:1682-1682 ACCESS_ALLOWED_ACE *)
Definition ace_size (ace : bytes) : outcome Z := rd_le 2 ace 6.
(** layout.h:1684-1684 ACCESS_ALLOWED_ACE *)
Definition ace_mask (ace : bytes) : outcome Z := rd_le 4 ace 8.
(** layout.h:1685-1685 ACCESS_ALLOWED_ACE *)
Definition ace_sid (ace : bytes) : bytes := at_ptr ace 12.

(** layout.h:1436-1456 ACE_TYPES *)
Definition ACCESS_ALLOWED_ACE_TYPE : Z := 0.
(** layout.h:1439-1439 ACE_TYPES *)
Definition ACCESS_DENIED_ACE_TYPE : Z := 1.
(** layout.h:1473-1478 ACE_FLAGS *)
Definition OBJECT_INHERIT_ACE : Z := 0x01.
(** layout.h:1475-1475 ACE_FLAGS *)
Definition CONTAINER_INHERIT_ACE : Z := 0x02.
(** layout.h:1476-1476 ACE_FLAGS *)
Definition NO_PROPAGATE_INHERIT_ACE : Z := 0x04.
(** layout.h:1477-1477 ACE_FLAGS *)
Definition INHERIT_ONLY_ACE : Z := 0x08.
(** layout.h:1523-1657 ACCESS_MASK *)
Definition FILE_READ_DATA : Z := 0x1.
(** layout.h:1531-1531 ACCESS_MASK *)
Definition FILE_WRITE_DATA : Z := 0x2.
(** layout.h:1537-1537 ACCESS_MASK *)
Definition FILE_APPEND_DATA : Z := 0x4.
(** layout.h:1542-1542 ACCESS_MASK *)
Definition FILE_READ_EA : Z := 0x8.
(** layout.h:1545-1545 ACCESS_MASK *)
Definition FILE_WRITE_EA : Z := 0x10.
(** layout.h:1548-1548 ACCESS_MASK *)
Definition FILE_EXECUTE : Z := 0x20.
(** layout.h:1556-1556 ACCESS_MASK *)
Definition FILE_DELETE_CHILD : Z := 0x40.
(** layout.h:1559-1559 ACCESS_MASK *)
Definition FILE_READ_ATTRIBUTES : Z := 0x80.
(** layout.h:1562-1562 ACCESS_MASK *)
Definition FILE_WRITE_ATTRIBUTES : Z := 0x100.
(** layout.h:1570-1570 ACCESS_MASK *)
Definition DELETE : Z := 0x10000.
(** layout.h:1577-1577 ACCESS_MASK *)
Definition READ_CONTROL : Z := 0x20000.
(** layout.h:1580-1580 ACCESS_MASK *)
Definition WRITE_DAC : Z := 0x40000.
(** layout.h:1583-1583 ACCESS_MASK *)
Definition WRITE_OWNER : Z := 0x80000.
(** layout.h:1590-1590 ACCESS_MASK *)
Definition SYNCHRONIZE : Z := 0x100000.
(** layout.h:1628-1628 ACCESS_MASK *)
Definition GENERIC_EXECUTE : Z := 0x20000000.
(** layout.h:1637-1637 ACCESS_MASK *)
Definition GENERIC_WRITE : Z := 0x40000000.
(** layout.h:1647-1647 ACCESS_MASK *)
Definition GENERIC_READ : Z := 0x80000000.
(** layout.h:1744-1747 ACL_CONSTANTS *)
Definition ACL_REVISION : Z := 2.
(** layout.h:1745-1745 ACL_CONSTANTS *)
Definition ACL_REVISION_DS : Z := 4.
(** layout.h:1802-1818 SECURITY_DESCRIPTOR_CONTROL *)
Definition SE_DACL_PRESENT : Z := 0x4.
(** layout.h:1810-1810 SECURITY_DESCRIPTOR_CONTROL *)
Definition SE_SACL_PRESENT : Z := 0x10.
(** layout.h:1816-1816 SECURITY_DESCRIPTOR_CONTROL *)
Definition SE_DACL_PROTECTED : Z := 0x1000.
(** layout.h:1819-1819 SECURITY_DESCRIPTOR_CONTROL *)
Definition SE_SELF_RELATIVE : Z := 0x8000.

Definition ors : list Z -> Z := foldr Z.lor 0.
(** acls.h:71-79 FILE_READ. The rights of a file and of a directory ([isdir]). *)
Definition READ (isdir : bool) : Z := FILE_READ_DATA.
Definition WRITE (isdir : bool) : Z :=
  ors ([FILE_WRITE_DATA; FILE_APPEND_DATA] ++ (if isdir then [FILE_DELETE_CHILD] else []) ++ [READ_CONTROL; FILE_WRITE_ATTRIBUTES; FILE_WRITE_EA]).
Definition EXEC (isdir : bool) : Z := FILE_EXECUTE.
(** acls.h:84-89 FILE_GREAD. The same bits for a file and for a directory. *)
Definition GREAD : Z := ors [FILE_READ_DATA; GENERIC_READ].
Definition GWRITE : Z := ors [FILE_WRITE_DATA; FILE_APPEND_DATA; GENERIC_WRITE].
Definition GEXEC : Z := ors [FILE_EXECUTE; GENERIC_EXECUTE].
(** acls.h:93-96 OWNER_RIGHTS *)
Definition OWNER_RIGHTS : Z :=
  ors [DELETE; READ_CONTROL; WRITE_DAC; WRITE_OWNER; SYNCHRONIZE; FILE_READ_ATTRIBUTES; FILE_WRITE_ATTRIBUTES; FILE_READ_EA; FILE_WRITE_EA].
(** acls.h:100-101 WORLD_RIGHTS *)
Definition WORLD_RIGHTS : Z := ors [READ_CONTROL; FILE_READ_ATTRIBUTES; FILE_READ_EA; SYNCHRONIZE].
(** acls.h:105-106 FILE_INHERITANCE *)
Definition inheritance (isdir : bool) : Z := if isdir then Z.lor OBJECT_INHERIT_ACE CONTAINER_INHERIT_ACE else NO_PROPAGATE_INHERIT_ACE.
(** acls.h:114-115 ROOT_OWNER_UNMARK *)
Definition ROOT_UNMARKS : Z := Z.lor SYNCHRONIZE FILE_READ_EA.

(** stat.h:38-75 S_ISUID *)
Definition S_ISUID : Z := 0x800.
Definition S_ISGID : Z := 0x400.
Definition S_ISVTX : Z := 0x200.
Definition S_IRUSR : Z := 0x100.
Definition S_IWUSR : Z := 0x80.
Definition S_IXUSR : Z := 0x40.
Definition S_IRGRP : Z := 0x20.
Definition S_IWGRP : Z := 0x10.
Definition S_IXGRP : Z := 0x8.
Definition S_IROTH : Z := 0x4.
Definition S_IWOTH : Z := 0x2.
Definition S_IXOTH : Z := 0x1.

(** A condition [x & bits]. *)
Definition has (x bits : Z) : bool := negb (Z.land x bits =? 0).
(** [if (c) x |= bits;] *)
Definition or_if (c : bool) (bits x : Z) : Z := if c then Z.lor x bits else x.

(** ** Checks *)
(** acls.c:279-332 ntfs_attr_size *)
Definition ntfs_attr_size (attr : bytes) : outcome Z :=
  let attrsz := sizeof_SD in
  let! offgroup := sd_group attr in
  let! attrsz :=
    if attrsz <=? offgroup then
      let! size := ntfs_sid_size (at_ptr attr offgroup) in
      let endsid := u32 (offgroup + size) in Ret (if attrsz <? endsid then endsid else attrsz)
    else Ret attrsz in
  let! offowner := sd_owner attr in
  let! attrsz :=
    if attrsz <=? offowner then
      let! size := ntfs_sid_size (at_ptr attr offowner) in Ret (u32 (offowner + size))
    else Ret attrsz in
  let! offsacl := sd_sacl attr in
  let! attrsz :=
    if attrsz <=? offsacl then
      let! size := acl_size (at_ptr attr offsacl) in
      let endacl := u32 (offsacl + size) in Ret (if attrsz <? endacl then endacl else attrsz)
    else Ret attrsz in
  let! offdacl := sd_dacl attr in
  if attrsz <=? offdacl then
    let! size := acl_size (at_ptr attr offdacl) in
    let endacl := u32 (offdacl + size) in Ret (if attrsz <? endacl then endacl else attrsz)
  else Ret attrsz.

(** acls.c:573-588 valid_acl. The loop over the ACEs, [n] to go; [end_ofs] is the code's
    [end]. *)
Fixpoint valid_aces (n : nat) (pacl : bytes) (end_ofs offace : Z) : outcome bool :=
  match n with
  | O => Ret true
  | S n' =>
    if end_ofs <? offace + sizeof_ACE then Ret false else
    let pace := at_ptr pacl offace in
    let! acesz := ace_size pace in
    let! bad := Ret (end_ofs <? u32 (offace + acesz)) ||! o_not (ntfs_valid_sid (ace_sid pace)) ||!
                (let! size := ntfs_sid_size (ace_sid pace) in Ret (negb (size + 8 =? acesz))) in
    if bad then Ret false else valid_aces n' pacl end_ofs (u32 (offace + acesz))
  end.

(** acls.c:562-590 valid_acl *)
Definition valid_acl (pacl : bytes) (end_ofs : Z) : outcome bool :=
  let! acecnt := acl_ace_count pacl in
  valid_aces (Z.to_nat acecnt) pacl end_ofs sizeof_ACL.

(** acls.c:651-655 ntfs_valid_descr. The revision of an ACL that is present. *)
Definition acl_shown (sd : bytes) (off flag : Z) : outcome bool :=
  Ret (off =? 0) ||!
  ((let! c := sd_control sd in Ret (has c flag)) &&!
   ((let! r := acl_revision (at_ptr sd off) in Ret (r =? ACL_REVISION)) ||!
    (let! r := acl_revision (at_ptr sd off) in Ret (r =? ACL_REVISION_DS)))).

(** acls.c:601-676 ntfs_valid_descr *)
Definition ntfs_valid_descr (securattr : bytes) (attrsz : Z) : outcome bool :=
  let! offdacl := sd_dacl securattr in
  let! offsacl := sd_sacl securattr in
  let! offowner := sd_owner securattr in
  let! offgroup := sd_group securattr in
  let! head :=
    Ret (sizeof_SD <=? attrsz) &&!
    (let! r := sd_revision securattr in Ret (r =? 1)) &&!
    Ret (sizeof_SD <=? offowner) &&!
    Ret (u32 (offowner + 2) <? attrsz) &&!
    Ret (sizeof_SD <=? offgroup) &&!
    Ret (u32 (offgroup + 2) <? attrsz) &&!
    Ret ((offdacl =? 0) || ((sizeof_SD <=? offdacl) && (offdacl + sizeof_ACL <? attrsz))) &&!
    Ret ((offsacl =? 0) || ((sizeof_SD <=? offsacl) && (offsacl + sizeof_ACL <=? attrsz))) &&!
    Ret (negb (has offowner 3)) &&!
    Ret (negb (has offgroup 3)) &&!
    Ret (negb (has offdacl 3)) &&!
    Ret (negb (has offsacl 3)) &&!
    (let! size := ntfs_attr_size securattr in Ret (size <=? attrsz)) &&!
    ntfs_valid_sid (at_ptr securattr offowner) &&!
    ntfs_valid_sid (at_ptr securattr offgroup) &&!
    acl_shown securattr offdacl SE_DACL_PRESENT &&!
    acl_shown securattr offsacl SE_SACL_PRESENT in
  if negb head then Ret false else
  let! bad :=
    (Ret (negb (offdacl =? 0)) &&! o_not (valid_acl (at_ptr securattr offdacl) (u32 (attrsz - offdacl)))) ||!
    (Ret (negb (offsacl =? 0)) &&! o_not (valid_acl (at_ptr securattr offsacl) (u32 (attrsz - offsacl)))) in
  Ret (negb bad).

(** ** Permissions from a descriptor *)
(** acls.c:2813-2830 merge_permissions. The permissions of the owner, of the group and
    of the world are made in the same way, with their own bits. *)
Definition merge_class (grants x w r perm : Z) : Z :=
  if grants =? 0 then perm else or_if (has grants GREAD) r (or_if (has grants GWRITE) w (or_if (has grants GEXEC) x perm)).

(** acls.c:2804-2893 merge_permissions. The tests for directories and for files are the
    same bits. *)
Definition merge_permissions (isdir : bool) (owner group world special : Z) : Z :=
  let perm := merge_class owner S_IXUSR S_IWUSR S_IRUSR 0 in
  let perm := merge_class group S_IXGRP S_IWGRP S_IRGRP perm in
  let perm := merge_class world S_IXOTH S_IWOTH S_IROTH perm in
  if special =? 0 then perm
  else or_if (has special FILE_READ_DATA) S_ISVTX (or_if (has special FILE_WRITE_DATA) S_ISGID (or_if (has special FILE_APPEND_DATA) S_ISUID perm)).

(** acls.c:3071-3072 build_std_permissions. The masks collected from the ACEs. *)
Record grants := GRANTS { special : Z; allowown : Z; allowgrp : Z; allowall : Z; denyown : Z; denygrp : Z; denyall : Z }.
Definition no_grants : grants := GRANTS 0 0 0 0 0 0 0.
Definition allow_own (m : Z) (g : grants) : grants := GRANTS (special g) (Z.lor (allowown g) m) (allowgrp g) (allowall g) (denyown g) (denygrp g) (denyall g).
Definition allow_grp (m : Z) (g : grants) : grants := GRANTS (special g) (allowown g) (Z.lor (allowgrp g) m) (allowall g) (denyown g) (denygrp g) (denyall g).
Definition allow_all (m : Z) (g : grants) : grants := GRANTS (special g) (allowown g) (allowgrp g) (Z.lor (allowall g) m) (denyown g) (denygrp g) (denyall g).
Definition deny_own (m : Z) (g : grants) : grants := GRANTS (special g) (allowown g) (allowgrp g) (allowall g) (Z.lor (denyown g) m) (denygrp g) (denyall g).
Definition deny_grp (m : Z) (g : grants) : grants := GRANTS (special g) (allowown g) (allowgrp g) (allowall g) (denyown g) (Z.lor (denygrp g) m) (denyall g).
Definition deny_all (m : Z) (g : grants) : grants := GRANTS (special g) (allowown g) (allowgrp g) (allowall g) (denyown g) (denygrp g) (Z.lor (denyall g) m).
Definition set_own (m : Z) (g : grants) : grants := GRANTS (special g) m (allowgrp g) (allowall g) (denyown g) (denygrp g) (denyall g).
Definition set_grp (m : Z) (g : grants) : grants := GRANTS (special g) (allowown g) m (allowall g) (denyown g) (denygrp g) (denyall g).
Definition add_special (m : Z) (g : grants) : grants := GRANTS (Z.lor (special g) m) (allowown g) (allowgrp g) (allowall g) (denyown g) (denygrp g) (denyall g).

(** acls.c:3091-3094 build_std_permissions. Collect the mask of an ACE according to its
    type. *)
Definition collect (pace : bytes) (allow deny : Z -> grants -> grants) (g : grants) : outcome grants :=
  let! type := ace_type pace in
  let! mask := ace_mask pace in
  Ret (if type =? ACCESS_ALLOWED_ACE_TYPE then allow mask g else if type =? ACCESS_DENIED_ACE_TYPE then deny mask g else g).

(** acls.c:3112-3114 build_std_permissions. The ACE for special flags. *)
Definition collect_special (pace : bytes) (g : grants) : outcome grants :=
  let! null := ntfs_same_sid (ace_sid pace) nullsid &&! (let! t := ace_type pace in Ret (t =? ACCESS_ALLOWED_ACE_TYPE)) in
  if null then let! mask := ace_mask pace in Ret (add_special mask g) else Ret g.

(** acls.c:3104-3114 build_std_permissions. The ACEs that are neither the owner's nor the
    group's. *)
Definition collect_world (pace : bytes) (g : grants) : outcome grants :=
  let! world := is_world_sid (ace_sid pace) in
  if world then collect pace allow_all deny_all g else collect_special pace g.

Definition mask_has (pace : bytes) (bits : Z) : outcome bool := let! m := ace_mask pace in Ret (has m bits).
Definition flags_has (pace : bytes) (bits : Z) : outcome bool := let! f := ace_flags pace in Ret (has f bits).

(** acls.c:3074-3080 build_std_permissions. The number of ACEs and where the first one
    is; the offset is an [int]. *)
Definition dacl_aces (securattr : bytes) : outcome (nat * Z) :=
  let! off := sd_dacl securattr in
  let offdacl := s32 off in
  if offdacl =? 0 then Ret (O, 0) else
  let! acecnt := acl_ace_count (at_ptr securattr offdacl) in
  Ret (Z.to_nat acecnt, offdacl + sizeof_ACL).

(** acls.c:3082-3083 build_std_permissions. The loop over the ACEs; [step] is its body. *)
Fixpoint ace_loop {S} (step : bytes -> S -> outcome S) (n : nat) (securattr : bytes) (offace : Z) (st : S) : outcome S :=
  match n with
  | O => Ret st
  | S n' =>
    let pace := at_ptr securattr offace in
    let! st := step pace st in
    let! size := ace_size pace in
    ace_loop step n' securattr (offace + size) st
  end.

(** acls.c:3084-3115 build_std_permissions. The body of the loop; the first part of the
    state is [noown]. *)
Definition std_ace (usid gsid pace : bytes) (st : bool * grants) : outcome (bool * grants) :=
  let '(noown, g) := st in
  let! skip := flags_has pace INHERIT_ONLY_ACE in
  if skip then Ret st else
  let! own := ntfs_same_sid usid (ace_sid pace) ||! ntfs_same_sid ownersid (ace_sid pace) in
  if own then let! g := collect pace allow_own deny_own g in Ret (false, g) else
  let! grp := ntfs_same_sid gsid (ace_sid pace) &&! o_not (mask_has pace WRITE_OWNER) in
  if grp then let! g := collect pace allow_grp deny_grp g in Ret (noown, g)
  else let! g := collect_world pace g in Ret (noown, g).

(** acls.c:3135-3139 build_std_permissions. What is allowed and not denied. *)
Definition merge_grants (isdir : bool) (g : grants) : Z :=
  merge_permissions isdir
    (Z.land (allowown g) (Z.lnot (Z.lor (denyown g) (denyall g))))
    (Z.land (allowgrp g) (Z.lnot (Z.lor (denygrp g) (denyall g))))
    (Z.land (allowall g) (Z.lnot (denyall g)))
    (special g).

(** acls.c:3130-3131 build_std_permissions. The owner gets what the group or the world
    gets, the group what the world gets. *)
Definition share (g : grants) : grants :=
  let g := allow_own (Z.lor (allowgrp g) (allowall g)) g in allow_grp (allowall g) g.

(** acls.c:3059-3139 build_std_permissions *)
Definition build_std_permissions (securattr usid gsid : bytes) (isdir : bool) : outcome Z :=
  let! (acecnt, offace) := dacl_aces securattr in
  let! (noown, g) := ace_loop (std_ace usid gsid) acecnt securattr offace (true, no_grants) in
  let g := if noown then set_own (ors [FILE_READ_DATA; FILE_WRITE_DATA; FILE_EXECUTE]) g else g in
  Ret (merge_grants isdir (share g)).

(** acls.c:3176-3204 build_owngrp_permissions. The body of the loop, with [ownpresent] and
    [grppresent]. *)
Definition owngrp_ace (usid pace : bytes) (st : bool * bool * grants) : outcome (bool * bool * grants) :=
  let '(ownpresent, grppresent, g) := st in
  let! skip := flags_has pace INHERIT_ONLY_ACE in
  if skip then Ret st else
  let! own := (ntfs_same_sid usid (ace_sid pace) ||! ntfs_same_sid ownersid (ace_sid pace)) &&! mask_has pace WRITE_OWNER in
  let! type := ace_type pace in
  let! mask := ace_mask pace in
  if own then Ret (if type =? ACCESS_ALLOWED_ACE_TYPE then (true, grppresent, allow_own mask g) else st) else
  let! grp := ntfs_same_sid usid (ace_sid pace) &&! o_not (mask_has pace WRITE_OWNER) in
  if grp then Ret (if type =? ACCESS_ALLOWED_ACE_TYPE then (ownpresent, true, allow_grp mask g) else st)
  else let! g := collect_world pace g in Ret (ownpresent, grppresent, g).

(** acls.c:3147-3218 build_owngrp_permissions *)
Definition build_owngrp_permissions (securattr usid : bytes) (isdir : bool) : outcome Z :=
  let! (acecnt, offace) := dacl_aces securattr in
  let! (ownpresent, grppresent, g) := ace_loop (owngrp_ace usid) acecnt securattr offace (false, false, no_grants) in
  let g := if ownpresent then g else set_own (allowall g) g in
  let g := if grppresent then g else set_grp (allowall g) g in
  Ret (merge_grants isdir g).

(** acls.c:3368-3401 build_ownadmin_permissions. The body of the loop, with [firstapply]
    and [isforeign]. *)
Definition ownadmin_ace (usid gsid pace : bytes) (st : bool * Z * grants) : outcome (bool * Z * grants) :=
  let '(firstapply, isforeign, g) := st in
  let! apply := o_not (flags_has pace INHERIT_ONLY_ACE) &&!
                (let! m := ace_mask pace in Ret (negb (has (Z.lnot m) ROOT_UNMARKS))) in
  if apply then
    let! own := (ntfs_same_sid usid (ace_sid pace) ||! ntfs_same_sid ownersid (ace_sid pace)) &&!
                (mask_has pace WRITE_OWNER &&! Ret firstapply) in
    let! type := ace_type pace in
    if own then
      let! g := collect pace allow_own deny_own g in
      Ret (false, (if type =? ACCESS_ALLOWED_ACE_TYPE then Z.land isforeign (Z.lnot 1) else isforeign), g)
    else
    let! grp := ntfs_same_sid gsid (ace_sid pace) &&! o_not (mask_has pace WRITE_OWNER) in
    if grp then
      let! g := collect pace allow_grp deny_grp g in
      Ret (false, (if type =? ACCESS_ALLOWED_ACE_TYPE then Z.land isforeign (Z.lnot 2) else isforeign), g)
    else
    let! world := is_world_sid (ace_sid pace) in
    if world then let! g := collect pace allow_all deny_all g in Ret (false, isforeign, g)
    else Ret (false, isforeign, g)
  else
    let! skip := flags_has pace INHERIT_ONLY_ACE in
    if skip then Ret st else let! g := collect_special pace g in Ret (firstapply, isforeign, g).

(** acls.c:3337-3414 build_ownadmin_permissions *)
Definition build_ownadmin_permissions (securattr usid gsid : bytes) (isdir : bool) : outcome Z :=
  let! (acecnt, offace) := dacl_aces securattr in
  let! (_, isforeign, g) := ace_loop (ownadmin_ace usid gsid) acecnt securattr offace (true, 3, no_grants) in
  Ret (merge_grants isdir (if isforeign =? 0 then g else share g)).

(** acls.c:3991-3993 ntfs_build_permissions. Also acls.c:2330-2332. *)
Definition adminowns_of (usid gsid : bytes) : outcome bool := ntfs_same_sid usid adminsid ||! ntfs_same_sid gsid adminsid.

(** acls.c:3980-3998 ntfs_build_permissions *)
Definition ntfs_build_permissions (securattr usid gsid : bytes) (isdir : bool) : outcome Z :=
  let! adminowns := adminowns_of usid gsid in
  let! groupowns := Ret (negb adminowns) &&! ntfs_same_sid gsid usid in
  if adminowns then build_ownadmin_permissions securattr usid gsid isdir
  else if groupowns then build_owngrp_permissions securattr usid isdir
  else build_std_permissions securattr usid gsid isdir.

(** acls.c:3451-3459 ntfs_acl_owner. The loop, which looks at one ACE at least; [n] more
    may follow.  Where the SID is. *)
Fixpoint owner_loop (n : nat) (securattr : bytes) (offace : Z) : outcome (option Z) :=
  let pace := at_ptr securattr offace in
  let! found := mask_has pace WRITE_OWNER &&! (let! t := ace_type pace in Ret (t =? ACCESS_ALLOWED_ACE_TYPE)) &&! ntfs_is_user_sid (ace_sid pace) in
  let! size := ace_size pace in
  if found then Ret (Some (offace + 12)) else
  match n with O => Ret None | S n' => owner_loop n' securattr (offace + size) end.

(** acls.c:3431-3465 ntfs_acl_owner. The SID as its offset in the descriptor. *)
Definition ntfs_acl_owner (securattr : bytes) : outcome Z :=
  let! (acecnt, offace) := dacl_aces securattr in
  let! found := if offace =? 0 then Ret None else owner_loop (Nat.pred acecnt) securattr offace in
  match found with Some p => Ret p | None => sd_owner securattr end.

(** ** A descriptor from permissions *)
(** acls.c:2349-2366 buildacls. The rights that permission bits stand for: [x], [w] and
    [r] are the tests of the mode. *)
Definition rights (isdir x w r : bool) (g : Z) : Z := or_if r (READ isdir) (or_if w (WRITE isdir) (or_if x (EXEC isdir) g)).

Definition rights_of (isdir : bool) (mode x w r g : Z) : Z := rights isdir (has mode x) (has mode w) (has mode r) g.
(** acls.c:2349-2366 buildacls. What the owner is granted. *)
Definition owner_rights (isdir : bool) (mode : Z) : Z := rights_of isdir mode S_IXUSR S_IWUSR S_IRUSR OWNER_RIGHTS.
(** acls.c:2454-2470 buildacls. What the group is granted. *)
Definition group_rights (isdir : bool) (mode : Z) : Z := rights_of isdir mode S_IXGRP S_IWGRP S_IRGRP WORLD_RIGHTS.
(** acls.c:2527-2543 buildacls. What the world is granted. *)
Definition world_rights (isdir : bool) (mode : Z) : Z := rights_of isdir mode S_IXOTH S_IWOTH S_IROTH WORLD_RIGHTS.
(** acls.c:2560-2560 buildacls. What administrators and the system are granted. *)
Definition full_rights : Z := ors [OWNER_RIGHTS; READ false; WRITE false; EXEC false].
(** acls.c:2593-2599 buildacls. The special flags. *)
Definition special_rights (mode : Z) : Z :=
  or_if (has mode S_ISVTX) FILE_READ_DATA (or_if (has mode S_ISGID) FILE_WRITE_DATA (or_if (has mode S_ISUID) FILE_APPEND_DATA 0)).

(** acls.c:2412-2415 buildacls. Store an ACE, its flags apart. *)
Definition store_ace (secattr : bytes) (p type mask : Z) (sid : bytes) (sidsz : Z) : outcome bytes :=
  let! m := put 4 secattr p type in
  let! m := put 2 m (p + 6) (u16 (sidsz + 8)) in
  let! m := put 4 m (p + 8) mask in
  memcpy m (p + 12) sid 0 sidsz.
Definition store_flags (secattr : bytes) (p flags : Z) : outcome bytes := put 2 secattr (p + 4) flags.

(** acls.c:2445-2452 buildacls. An ACE at the position reached; the position and the
    count go forward. *)
Definition add_ace (st : bytes * Z * Z) (type flags mask : Z) (sid : bytes) (sidsz : Z) : outcome (bytes * Z * Z) :=
  let '(m, p, acecnt) := st in
  let! m := store_flags m p flags in
  let! m := store_ace m p type mask sid sidsz in
  Ret (m, p + (sidsz + 8), acecnt + 1).

(** acls.c:2407-2419 buildacls. An ACE that denies something, if there is something to
    deny; the flags are set in any case. *)
Definition add_denial (st : bytes * Z * Z) (flags denials : Z) (sid : bytes) (sidsz : Z) : outcome (bytes * Z * Z) :=
  let '(m, p, acecnt) := st in
  let! m := store_flags m p flags in
  if denials =? 0 then Ret (m, p, acecnt) else
  let! m := store_ace m p ACCESS_DENIED_ACE_TYPE denials sid sidsz in
  Ret (m, p + (sidsz + 8), acecnt + 1).

(** acls.c:2375-2409 buildacls. What the owner would get from the group or the world. *)
Definition owner_denials (isdir groupowns : bool) (mode grants : Z) : Z :=
  let denials :=
    if groupowns then
      rights isdir (has mode S_IXOTH && negb (has mode S_IXGRP)) (has mode S_IWOTH && negb (has mode S_IWGRP)) (has mode S_IROTH && negb (has mode S_IRGRP)) 0
    else rights isdir (has mode (Z.lor S_IXGRP S_IXOTH)) (has mode (Z.lor S_IWGRP S_IWOTH)) (has mode (Z.lor S_IRGRP S_IROTH)) 0 in
  Z.land denials (Z.lnot grants).

(** acls.c:2303-2608 buildacls. The ACL goes to [offs] in [secattr]; its size. *)
Definition buildacls (secattr : bytes) (offs mode : Z) (isdir : bool) (usid gsid : bytes) : outcome (bytes * Z) :=
  let! usidsz := ntfs_sid_size usid in
  let! gsidsz := ntfs_sid_size gsid in
  let! wsidsz := ntfs_sid_size worldsid in
  let! asidsz := ntfs_sid_size adminsid in
  let! ssidsz := ntfs_sid_size systemsid in
  let! adminowns := adminowns_of usid gsid in
  let! groupowns := Ret (negb adminowns) &&! ntfs_same_sid usid gsid in
  let! m := put 1 secattr offs ACL_REVISION in
  let! m := put 1 m (offs + 1) 0 in
  let! m := put 2 m (offs + 2) (u16 (sizeof_ACL + usidsz + 8)) in
  let! m := put 2 m (offs + 4) 1 in
  let! m := put 2 m (offs + 6) 0 in
  let st := (m, offs + sizeof_ACL, 0) in
  let gflags := inheritance isdir in
  let ogrants := owner_rights isdir mode in
  let! st := if adminowns then Ret st else add_denial st gflags (owner_denials isdir groupowns mode ogrants) usid usidsz in
  let! st :=
    if isdir then add_ace st ACCESS_DENIED_ACE_TYPE (Z.lor INHERIT_ONLY_ACE OBJECT_INHERIT_ACE) (EXEC false) worldsid wsidsz
    else Ret st in
  let! st := add_ace st ACCESS_ALLOWED_ACE_TYPE gflags ogrants usid usidsz in
  let! st :=
    if adminowns || groupowns || has (Z.lxor (Z.shiftr mode 3) mode) 7 then
      let ggrants := group_rights isdir mode in
      let! st :=
        if negb adminowns && negb groupowns then
          let denials := rights_of isdir mode S_IXOTH S_IWOTH S_IROTH 0 in
          add_denial st gflags (Z.land denials (Z.lnot (Z.lor ggrants OWNER_RIGHTS))) gsid gsidsz
        else Ret st in
      if adminowns || groupowns || has (Z.land (Z.shiftr mode 3) (Z.lnot mode)) 7 then
        add_ace st ACCESS_ALLOWED_ACE_TYPE gflags ggrants gsid gsidsz
      else Ret st
    else Ret st in
    let! st := add_ace st ACCESS_ALLOWED_ACE_TYPE gflags (world_rights isdir mode) worldsid wsidsz in
  let! st := add_ace st ACCESS_ALLOWED_ACE_TYPE gflags full_rights adminsid asidsz in
  let! st := add_ace st ACCESS_ALLOWED_ACE_TYPE gflags full_rights systemsid ssidsz in
  let! st :=
    if has mode (ors [S_ISVTX; S_ISGID; S_ISUID]) then
      let! nsidsz := ntfs_sid_size nullsid in
      add_ace st ACCESS_ALLOWED_ACE_TYPE NO_PROPAGATE_INHERIT_ACE (special_rights mode) nullsid nsidsz
    else Ret st in
  let '(m, p, acecnt) := st in
  let pos := p - offs in
  let! m := put 2 m (offs + 2) (u16 pos) in
  let! m := put 2 m (offs + 4) (u16 acecnt) in
  Ret (m, pos).

(** acls.c:2736-2746 ntfs_build_descr. The bytes allocated. *)
Definition newattr_size (mode : Z) (isdir : bool) (usidsz gsidsz wsidsz asidsz ssidsz nsidsz : Z) : Z :=
  sizeof_SD + usidsz + gsidsz + sizeof_ACL + 2 * (8 + usidsz) + 2 * (8 + gsidsz) + 8 + wsidsz + 8 + asidsz + 8 + ssidsz
  + (if isdir then 8 + wsidsz else 0) + (if has mode 0xe00 then 8 + nsidsz else 0).

(** acls.c:2718-2797 ntfs_build_descr. [fresh] is the allocated memory with the bytes
    it happens to have, if there is any. *)
Definition ntfs_build_descr (fresh : Z -> option bytes) (mode : Z) (isdir : bool) (usid gsid : bytes) : outcome bytes :=
  let! usidsz := ntfs_sid_size usid in
  let! gsidsz := ntfs_sid_size gsid in
  let! wsidsz := ntfs_sid_size worldsid in
  let! asidsz := ntfs_sid_size adminsid in
  let! ssidsz := ntfs_sid_size systemsid in
  let! nsidsz := ntfs_sid_size nullsid in
  let newattrsz := newattr_size mode isdir usidsz gsidsz wsidsz asidsz ssidsz nsidsz in
  match fresh newattrsz with
  | None => Fail ENOMEM
  | Some newattr =>
    let! m := put 1 newattr 0 1 in
    let! m := put 1 m 1 0 in
    let! m := put 2 m 2 (ors [SE_DACL_PRESENT; SE_DACL_PROTECTED; SE_SELF_RELATIVE]) in
    let! (m, aclsz) := buildacls m sizeof_SD mode isdir usid gsid in
    if newattrsz <? sizeof_SD + aclsz + usidsz + gsidsz then Fail EIO else
    let! m := memcpy m (sizeof_SD + aclsz) usid 0 usidsz in
    let! m := memcpy m (sizeof_SD + aclsz + usidsz) gsid 0 gsidsz in
    let! m := put 4 m 4 (sizeof_SD + aclsz) in
    let! m := put 4 m 8 (sizeof_SD + aclsz + usidsz) in
    let! m := put 4 m 12 0 in
    put 4 m 16 sizeof_SD
  end.
