(* ===== verification/AclBuild.v ===== *)
(** * The descriptor made for a mode (acls.c)

    [acl_of] says which ACEs a mode, an owner and a group stand for; [ntfs_build_descr]
    writes exactly these, in the memory it allocated for the worst case.  Since the SID
    of an ACE begins four bytes later than its size accounts for, the last
    sub-authority of each SID is where the next ACE goes: [stored] is what is left of
    an ACE. *)
From S2P Require Import Prelude Libc Fields Cond Sid SidProofs Acl.

(** ** ACEs as values *)
Record ace := ACE { a_type : Z; a_flags : Z; a_mask : Z; a_sid : bytes }.

(** The fields in front of the SID, and the bytes up to the next ACE. *)
Definition ace_head (a : ace) : bytes :=
  le_bytes 4 (a_type a) ++ le_bytes 2 (a_flags a) ++ le_bytes 2 (u16 (zlen (a_sid a) + 8)) ++ le_bytes 4 (a_mask a).
Definition stored (a : ace) : bytes := ace_head a ++ take (length (a_sid a) - 4) (a_sid a).
Definition stored_all (l : list ace) : bytes := concat (stored <$> l).

Definition allow (isdir : bool) (mask : Z) (sid : bytes) : ace := ACE ACCESS_ALLOWED_ACE_TYPE (inheritance isdir) mask sid.
Definition deny (isdir : bool) (mask : Z) (sid : bytes) : list ace :=
  if mask =? 0 then [] else [ACE ACCESS_DENIED_ACE_TYPE (inheritance isdir) mask sid].

(** The ACEs of the group: a denial of what the world gets and the group does not, and
    a grant when the group has more than the world. *)
Definition group_aces (isdir adminowns groupowns : bool) (mode : Z) (gsid : bytes) : list ace :=
  if adminowns || groupowns || has (Z.lxor (Z.shiftr mode 3) mode) 7 then
    (if negb adminowns && negb groupowns then
       deny isdir (Z.land (rights_of isdir mode S_IXOTH S_IWOTH S_IROTH 0) (Z.lnot (Z.lor (group_rights isdir mode) OWNER_RIGHTS))) gsid
     else []) ++
    (if adminowns || groupowns || has (Z.land (Z.shiftr mode 3) (Z.lnot mode)) 7 then [allow isdir (group_rights isdir mode) gsid] else [])
  else [].

Definition special_aces (mode : Z) : list ace :=
  if has mode (ors [S_ISVTX; S_ISGID; S_ISUID]) then [ACE ACCESS_ALLOWED_ACE_TYPE NO_PROPAGATE_INHERIT_ACE (special_rights mode) nullsid] else [].

(** The ACEs in front of the world's, and those behind it. *)
Definition front_aces (mode : Z) (isdir adminowns groupowns : bool) (usid gsid : bytes) : list ace :=
  (if adminowns then [] else deny isdir (owner_denials isdir groupowns mode (owner_rights isdir mode)) usid) ++
  (if isdir then [ACE ACCESS_DENIED_ACE_TYPE (Z.lor INHERIT_ONLY_ACE OBJECT_INHERIT_ACE) (EXEC false) worldsid] else []) ++
  [allow isdir (owner_rights isdir mode) usid] ++
  group_aces isdir adminowns groupowns mode gsid.
Definition back_aces (mode : Z) (isdir : bool) : list ace :=
  [allow isdir full_rights adminsid; allow isdir full_rights systemsid] ++ special_aces mode.

Definition acl_of (mode : Z) (isdir adminowns groupowns : bool) (usid gsid : bytes) : list ace :=
  front_aces mode isdir adminowns groupowns usid gsid ++ [allow isdir (world_rights isdir mode) worldsid] ++ back_aces mode isdir.

(** ** Sizes *)
Lemma zlen_ace_head a : zlen (ace_head a) = 12.
Proof. unfold ace_head. by rewrite !zlen_app, !zlen_le_bytes. Qed.

Lemma zlen_stored a : 4 <= zlen (a_sid a) -> zlen (stored a) = zlen (a_sid a) + 8.
Proof. intros H. unfold stored. rewrite zlen_app, zlen_ace_head. unfold zlen in *. rewrite length_take. lia. Qed.

Lemma stored_all_app l k : stored_all (l ++ k) = stored_all l ++ stored_all k.
Proof. unfold stored_all. by rewrite fmap_app, concat_app. Qed.

Lemma stored_all_snoc l a : stored_all (l ++ [a]) = stored_all l ++ stored a.
Proof. rewrite stored_all_app. unfold stored_all. cbn [fmap list_fmap concat]. by rewrite app_nil_r. Qed.

Lemma stored_all_cons a l : stored_all (a :: l) = stored a ++ stored_all l.
Proof. done. Qed.

(** ** Writing the ACEs *)
Lemma list_parts {A} (l : list A) n : 0 <= n <= zlen l -> exists x q, l = x ++ q /\ zlen x = n.
Proof. intros Hn. exists (take (Z.to_nat n) l), (drop (Z.to_nat n) l). rewrite take_drop. split; [done|]. unfold zlen in *. rewrite length_take. lia. Qed.

Lemma wrn_at {A} (p g q x : list A) i : i = zlen p -> zlen x = zlen g -> wrn (p ++ g ++ q) i x = Ret (p ++ x ++ q).
Proof. intros -> Hx. by apply wrn_part. Qed.

Lemma wrn_head {A} (g q x : list A) : zlen x = zlen g -> wrn (g ++ q) 0 x = Ret (x ++ q).
Proof. intros Hx. by apply (wrn_at [] g q x). Qed.

Lemma memcpy_at p g q s k i : i = zlen p -> zlen s = zlen g -> memcpy (p ++ g ++ q) i (s ++ k) 0 (zlen s) = Ret (p ++ s ++ q).
Proof.
  intros -> Hs. pose proof (zlen_nonneg p). pose proof (zlen_nonneg q). pose proof (zlen_nonneg k). pose proof (zlen_nonneg s).
  rewrite memcpy_spec by (rewrite ?zlen_app; lia). f_equal. rewrite <- (splice_app_here p g q s (zlen p)) by done. f_equal.
  by apply (sub_app_here [] s k).
Qed.

(** An ACE is written over the bytes at the position reached. *)
Lemma store_ace_ok p rest a k :
  zlen (a_sid a) + 12 <= zlen rest -> 4 <= zlen (a_sid a) ->
  exists rest', (let! m := store_flags (p ++ rest) (zlen p) (a_flags a) in store_ace m (zlen p) (a_type a) (a_mask a) (a_sid a ++ k) (zlen (a_sid a))) =
      Ret (p ++ stored a ++ rest') /\ zlen rest' = zlen rest - (zlen (a_sid a) + 8).
Proof.
  intros Hr H4. pose proof (zlen_nonneg (a_sid a)).
  destruct (list_parts rest 4) as (x0 & q0 & -> & H0); [lia|]. rewrite zlen_app in Hr. destruct (list_parts q0 2) as (x1 & q1 & -> & H1); [lia|].
  rewrite zlen_app in Hr. destruct (list_parts q1 2) as (x2 & q2 & -> & H2); [lia|]. rewrite zlen_app in Hr.
  destruct (list_parts q2 4) as (x3 & q3 & -> & H3); [lia|]. rewrite zlen_app in Hr. destruct (list_parts q3 (zlen (a_sid a))) as (x4 & q & -> & Hx4); [lia|].
  unfold store_flags, store_ace, put. rewrite (app_assoc p x0), wrn_at by (rewrite ?zlen_app, ?zlen_le_bytes; lia). cbn [obind].
  rewrite <- (app_assoc p x0), wrn_at by (rewrite ?zlen_le_bytes; lia). cbn [obind].
  set (t := le_bytes 4 (a_type a)). set (f := le_bytes 2 (a_flags a)). assert (zlen t = 4 /\ zlen f = 2) as [Ht Hf] by (unfold t, f; by rewrite !zlen_le_bytes).
  rewrite (app_assoc t), (app_assoc p (t ++ f)), wrn_at by (rewrite ?zlen_app, ?zlen_le_bytes; lia). cbn [obind].
  set (s := le_bytes 2 (u16 _)). assert (zlen s = 2) as Hs by (unfold s; by rewrite zlen_le_bytes).
  rewrite (app_assoc (p ++ t ++ f) s), wrn_at by (rewrite ?zlen_app, ?zlen_le_bytes; lia). cbn [obind].
  set (mk := le_bytes 4 (a_mask a)). assert (zlen mk = 4) as Hmk by (unfold mk; by rewrite zlen_le_bytes).
  rewrite (app_assoc ((p ++ t ++ f) ++ s) mk), memcpy_at by (rewrite ?zlen_app; lia).
  exists (drop (length (a_sid a) - 4) (a_sid a) ++ q). split.
  - f_equal. unfold stored, ace_head. fold t f s mk. rewrite <- !app_assoc. do 5 f_equal. by rewrite app_assoc, take_drop.
  - rewrite !zlen_app. unfold zlen in *. rewrite length_drop. lia.
Qed.

(** The state of the writing: [l] was written behind [p], at least [room] bytes are
    left. *)
Definition written (p : bytes) (l : list ace) (room : Z) (st : bytes * Z * Z) : Prop :=
  exists rest, st = (p ++ stored_all l ++ rest, zlen p + zlen (stored_all l), zlen l) /\ room <= zlen rest.

(** A step of the writing that appends [l] in at most [r] bytes.  Four bytes more are
    written over for a moment. *)
Definition appends (step : bytes * Z * Z -> outcome (bytes * Z * Z)) (l : list ace) (r : Z) : Prop :=
  forall p l0 room st, written p l0 room st -> r + 4 <= room -> exists st', step st = Ret st' /\ written p (l0 ++ l) (room - r) st'.

Lemma appends_ace a k : 8 <= zlen (a_sid a) ->
  appends (fun st => add_ace st (a_type a) (a_flags a) (a_mask a) (a_sid a ++ k) (zlen (a_sid a))) [a] (zlen (a_sid a) + 8).
Proof.
  intros H8 p l room st (rest & -> & Hroom) Hr. unfold add_ace. rewrite (app_assoc p), <- (zlen_app p).
  destruct (store_ace_ok (p ++ stored_all l) rest a k ltac:(lia) ltac:(lia)) as (rest' & E & Hr').
  apply obind_ret in E as (m1 & E1 & E2). rewrite E1. cbn [obind]. rewrite E2. cbn [obind].
  eexists. split; [done|]. exists rest'. split; [|lia]. rewrite stored_all_snoc, !zlen_app, zlen_stored, zlen_cons, zlen_nil by lia.
  rewrite <- !app_assoc, (Z.add_assoc (zlen p)). done.
Qed.

Lemma appends_const ty fl mask sid : 8 <= zlen sid -> appends (fun st => add_ace st ty fl mask sid (zlen sid)) [ACE ty fl mask sid] (zlen sid + 8).
Proof. intros H8. pose proof (appends_ace (ACE ty fl mask sid) [] H8) as H. cbn [a_type a_flags a_mask a_sid] in H. by rewrite app_nil_r in H. Qed.

Lemma appends_nothing r : 0 <= r -> appends (fun st => Ret st) [] r.
Proof. intros Hr p l room st (rest & -> & H) _. eexists. split; [done|]. rewrite app_nil_r. exists rest. split; [done|lia]. Qed.

Lemma appends_weaken step l r r' : appends step l r -> r <= r' -> appends step l r'.
Proof.
  intros H Hr p l0 room st Hw Hroom. destruct (H p l0 room st Hw) as (st' & E & rest & -> & Hz); [lia|]. eexists. split; [done|]. exists rest. split; [done|lia].
Qed.

Lemma appends_if (c : bool) step l r : appends step l r -> 0 <= r -> appends (fun st => if c then step st else Ret st) (if c then l else []) (if c then r else 0).
Proof. intros H Hr. destruct c; [done|by apply appends_nothing]. Qed.

Lemma appends_bind step step' l l' r r' : appends step l r -> appends step' l' r' -> 0 <= r -> 0 <= r' ->
  appends (fun st => let! st := step st in step' st) (l ++ l') (r + r').
Proof.
  intros H H' Hr Hr' p l0 room st Hw Hroom. destruct (H p l0 room st Hw) as (st1 & -> & Hw1); [lia|]. cbn [obind].
  destruct (H' p (l0 ++ l) (room - r) st1 Hw1) as (st2 & -> & Hw2); [lia|]. exists st2. split; [done|]. rewrite (assoc_L (++)).
  destruct Hw2 as (rest & -> & Hz). exists rest. split; [done|lia].
Qed.

Lemma appends_denial isdir mask sid k : 8 <= zlen sid ->
  appends (fun st => add_denial st (inheritance isdir) mask (sid ++ k) (zlen sid)) (deny isdir mask sid) (zlen sid + 8).
Proof.
  intros H8 p l room st Hw Hr. unfold deny. destruct (Z.eqb_spec mask 0) as [E|E].
  - destruct Hw as (rest & -> & Hroom). unfold add_denial, store_flags, put. rewrite app_nil_r.
    destruct (list_parts rest 4) as (x & q & -> & Hx); [lia|]. rewrite zlen_app in Hroom. destruct (list_parts q 2) as (y & q' & -> & Hy); [lia|].
    rewrite (app_assoc (stored_all l)), (app_assoc p), wrn_at by (rewrite ?zlen_app, ?zlen_le_bytes; lia). cbn [obind].
    rewrite (proj2 (Z.eqb_eq mask 0)) by done. eexists. split; [done|]. exists (x ++ le_bytes 2 (inheritance isdir) ++ q').
    rewrite <- !app_assoc. split; [done|]. rewrite !zlen_app, zlen_le_bytes in *. lia.
  - destruct (appends_ace (ACE ACCESS_DENIED_ACE_TYPE (inheritance isdir) mask sid) k H8 p l room st Hw Hr) as (st' & H & Hw').
    cbn [a_type a_flags a_mask a_sid] in *. exists st'. split; [|done]. rewrite <- H. destruct st as [[m q] n]. unfold add_denial, add_ace.
    by rewrite (proj2 (Z.eqb_neq mask 0)).
Qed.

(** ** The access control list *)
Lemma const_sids : is_sid worldsid /\ is_sid systemsid /\ is_sid nullsid /\ is_sid ownersid.
Proof. split_and!; (split; [repeat (constructor; [by unfold byte_ok|]); constructor|by exists 1]). Qed.

Lemma adminowns_ok u g ku kg : is_sid u -> is_sid g ->
  adminowns_of (u ++ ku) (g ++ kg) = Ret (bool_decide (u = adminsid) || bool_decide (g = adminsid)).
Proof.
  intros Hu Hg. unfold adminowns_of. pose proof (same_sid_ok u adminsid ku [] Hu admin_is_sid) as E1. pose proof (same_sid_ok g adminsid kg [] Hg admin_is_sid) as E2.
  rewrite !app_nil_r in *. rewrite E1, E2. unfold o_or. cbn [obind]. by destruct (bool_decide _).
Qed.

Definition admin_owns (u g : bytes) : bool := bool_decide (u = adminsid) || bool_decide (g = adminsid).
Definition group_owns (u g : bytes) : bool := negb (admin_owns u g) && bool_decide (u = g).

Lemma groupowns_ok u g ku kg : is_sid u -> is_sid g -> (Ret (negb (admin_owns u g)) &&! ntfs_same_sid (u ++ ku) (g ++ kg)) = Ret (group_owns u g).
Proof. intros Hu Hg. rewrite same_sid_ok by done. unfold o_and, group_owns. cbn [obind]. by destruct (negb _). Qed.

Definition header_with (size count : Z) : bytes := le_bytes 1 ACL_REVISION ++ le_bytes 1 0 ++ le_bytes 2 size ++ le_bytes 2 count ++ le_bytes 2 0.
Definition acl_bytes (l : list ace) : bytes := header_with (u16 (sizeof_ACL + zlen (stored_all l))) (u16 (zlen l)) ++ stored_all l.

Lemma zlen_header s n : zlen (header_with s n) = 8.
Proof. unfold header_with. by rewrite !zlen_app, !zlen_le_bytes. Qed.

(** The header before and after the ACEs are written. *)
Lemma header_start p h q s : zlen h = 8 ->
  (let! m := put 1 (p ++ h ++ q) (zlen p) ACL_REVISION in let! m := put 1 m (zlen p + 1) 0 in let! m := put 2 m (zlen p + 2) s in
   let! m := put 2 m (zlen p + 4) 1 in put 2 m (zlen p + 6) 0) = Ret (p ++ header_with s 1 ++ q).
Proof.
  intros Hh. destruct (list_parts h 1) as (x0 & q0 & -> & H0); [lia|]. rewrite zlen_app in Hh. destruct (list_parts q0 1) as (x1 & q1 & -> & H1); [lia|].
  rewrite zlen_app in Hh. destruct (list_parts q1 2) as (x2 & q2 & -> & H2); [lia|]. rewrite zlen_app in Hh.
  destruct (list_parts q2 2) as (x3 & x4 & -> & H3); [lia|]. rewrite zlen_app in Hh. unfold put, header_with.
  set (b0 := le_bytes 1 ACL_REVISION). set (b1 := le_bytes 1 0). set (b2 := le_bytes 2 s). set (b3 := le_bytes 2 1). set (b4 := le_bytes 2 0).
  assert (zlen b0 = 1 /\ zlen b1 = 1 /\ zlen b2 = 2 /\ zlen b3 = 2 /\ zlen b4 = 2) as (Z0 & Z1 & Z2 & Z3 & Z4) by (split_and!; apply zlen_le_bytes).
  rewrite <- !app_assoc, wrn_at by lia. cbn [obind]. rewrite (app_assoc p), wrn_at by (rewrite ?zlen_app; lia). cbn [obind].
  rewrite (app_assoc (p ++ b0)), wrn_at by (rewrite ?zlen_app; lia). cbn [obind].
  rewrite (app_assoc ((p ++ b0) ++ b1)), wrn_at by (rewrite ?zlen_app; lia). cbn [obind].
  rewrite (app_assoc (((p ++ b0) ++ b1) ++ b2)), wrn_at by (rewrite ?zlen_app; lia). by rewrite <- !app_assoc.
Qed.

Lemma header_end p s n s' n' q :
  (let! m := put 2 (p ++ header_with s n ++ q) (zlen p + 2) s' in put 2 m (zlen p + 4) n') = Ret (p ++ header_with s' n' ++ q).
Proof.
  unfold put, header_with. set (b0 := le_bytes 1 ACL_REVISION). set (b1 := le_bytes 1 0). set (b4 := le_bytes 2 0).
  assert (zlen b0 = 1 /\ zlen b1 = 1) as (Z0 & Z1) by (split_and!; apply zlen_le_bytes).
  rewrite <- !app_assoc, (app_assoc b0 b1), (app_assoc p), wrn_at by (rewrite ?zlen_app, ?zlen_le_bytes; lia). cbn [obind].
  rewrite (app_assoc (p ++ b0 ++ b1)), wrn_at by (rewrite ?zlen_app, ?zlen_le_bytes; lia). by rewrite <- !app_assoc.
Qed.

(** The room the ACEs of a mode take at most. *)
Definition acl_room (mode : Z) (isdir : bool) (u g : bytes) : Z :=
  2 * (zlen u + 8) + 2 * (zlen g + 8) + 64 + (if isdir then 20 else 0) + (if has mode (ors [S_ISVTX; S_ISGID; S_ISUID]) then 20 else 0).

Ltac by_cases := cbn [allow a_sid]; repeat match goal with |- context [if ?c then _ else _] => destruct c end; lia.

(** The next step of [buildacls] appends what the lemma [H] says. *)
Tactic Notation "append_step" uconstr(H) hyp(Hw) :=
  let st := fresh "st" in let E := fresh "E" in let Hw' := fresh "Hw" in
  destruct (H _ _ _ _ Hw) as (st & E & Hw'); [cbn [allow a_sid]; change (zlen worldsid) with 12; change (zlen adminsid) with 16; change (zlen systemsid) with 12; lia|];
  cbn [allow a_type a_flags a_mask a_sid] in E, Hw';
  change (zlen worldsid) with 12 in E, Hw'; change (zlen adminsid) with 16 in E, Hw'; change (zlen systemsid) with 12 in E, Hw'; rewrite E; cbn [obind]; clear E; clear Hw; rename Hw' into Hw.

Section build.
Context (mode : Z) (isdir : bool) (u g ku kg : bytes) (Hu : is_sid u) (Hg : is_sid g).
Local Notation ao := (admin_owns u g).
Local Notation go := (group_owns u g).

(** The group's ACEs. *)
Lemma appends_group :
  appends (fun st =>
    if ao || go || has (Z.lxor (Z.shiftr mode 3) mode) 7 then
      let! st :=
        if negb ao && negb go then
          add_denial st (inheritance isdir) (Z.land (rights_of isdir mode S_IXOTH S_IWOTH S_IROTH 0) (Z.lnot (Z.lor (group_rights isdir mode) OWNER_RIGHTS))) (g ++ kg) (zlen g)
        else Ret st in
      if ao || go || has (Z.land (Z.shiftr mode 3) (Z.lnot mode)) 7 then
        add_ace st ACCESS_ALLOWED_ACE_TYPE (inheritance isdir) (group_rights isdir mode) (g ++ kg) (zlen g)
      else Ret st
    else Ret st) (group_aces isdir ao go mode g) (2 * (zlen g + 8)).
Proof using Hg.
  pose proof (is_sid_size g Hg). unfold group_aces. eapply appends_weaken; [apply appends_if; [apply appends_bind|]|].
  - apply appends_if; [apply appends_denial|]; lia.
  - apply appends_if; [apply (appends_ace (allow isdir (group_rights isdir mode) g))|]; cbn [allow a_sid]; lia.
  - by_cases.
  - by_cases.
  - by_cases.
  - by_cases.
Qed.

Lemma appends_owner_denial :
  appends (fun st => if ao then Ret st else add_denial st (inheritance isdir) (owner_denials isdir go mode (owner_rights isdir mode)) (u ++ ku) (zlen u))
    (if ao then [] else deny isdir (owner_denials isdir go mode (owner_rights isdir mode)) u) (zlen u + 8).
Proof using Hu. pose proof (is_sid_size u Hu). destruct ao; [apply appends_nothing; lia|apply appends_denial; lia]. Qed.

(** The denial of execution in a directory that files inherit. *)
Lemma appends_dir :
  appends (fun st => if isdir then add_ace st ACCESS_DENIED_ACE_TYPE (Z.lor INHERIT_ONLY_ACE OBJECT_INHERIT_ACE) (EXEC false) worldsid 12 else Ret st)
    (if isdir then [ACE ACCESS_DENIED_ACE_TYPE (Z.lor INHERIT_ONLY_ACE OBJECT_INHERIT_ACE) (EXEC false) worldsid] else []) (if isdir then 20 else 0).
Proof using. apply (appends_if _ _ _ 20); [|done]. by apply (appends_const ACCESS_DENIED_ACE_TYPE (Z.lor INHERIT_ONLY_ACE OBJECT_INHERIT_ACE) (EXEC false) worldsid). Qed.

(** The ACE for special flags: the code takes the size of [nullsid] there. *)
Lemma appends_special :
  appends (fun st =>
    if has mode (ors [S_ISVTX; S_ISGID; S_ISUID]) then
      let! nsidsz := ntfs_sid_size nullsid in add_ace st ACCESS_ALLOWED_ACE_TYPE NO_PROPAGATE_INHERIT_ACE (special_rights mode) nullsid nsidsz
    else Ret st) (special_aces mode) (if has mode (ors [S_ISVTX; S_ISGID; S_ISUID]) then 20 else 0).
Proof using. apply (appends_if _ _ _ 20); [|done]. by apply (appends_const ACCESS_ALLOWED_ACE_TYPE NO_PROPAGATE_INHERIT_ACE (special_rights mode) nullsid). Qed.

Lemma buildacls_ok p rest : acl_room mode isdir u g + 12 <= zlen rest ->
  exists rest', buildacls (p ++ rest) (zlen p) mode isdir (u ++ ku) (g ++ kg) =
      Ret (p ++ acl_bytes (acl_of mode isdir ao go u g) ++ rest', sizeof_ACL + zlen (stored_all (acl_of mode isdir ao go u g))) /\
    zlen rest - 8 - acl_room mode isdir u g <= zlen rest'.
Proof using Hu Hg.
  intros Hr. pose proof (is_sid_size u Hu). pose proof (is_sid_size g Hg).
  assert (2 * (zlen u + 8) + 2 * (zlen g + 8) + 64 + (if isdir then 20 else 0) + (if has mode (ors [S_ISVTX; S_ISGID; S_ISUID]) then 20 else 0) = acl_room mode isdir u g) as Hroom by done.
  assert (0 <= (if isdir then 20 else 0)) as Hri by (by destruct isdir).
  assert (0 <= (if has mode (ors [S_ISVTX; S_ISGID; S_ISUID]) then 20 else 0)) as Hrs by (by destruct (has mode _)).
  destruct (list_parts rest 8) as (h & rest0 & -> & Hh); [lia|]. rewrite zlen_app in *.
  unfold buildacls. rewrite !sid_size_ok by done. change (ntfs_sid_size worldsid) with (Ret 12 : outcome Z). change (ntfs_sid_size adminsid) with (Ret 16 : outcome Z).
  change (ntfs_sid_size systemsid) with (Ret 12 : outcome Z). cbn [obind].
  rewrite adminowns_ok by done. cbn [obind]. fold (admin_owns u g). rewrite groupowns_ok by done. cbn [obind].
  pose proof (header_start p h rest0 (u16 (sizeof_ACL + zlen u + 8)) Hh) as E.
  apply obind_ret in E as (m1 & E1 & E). apply obind_ret in E as (m2 & E2 & E). apply obind_ret in E as (m3 & E3 & E). apply obind_ret in E as (m4 & E4 & E).
  rewrite E1. cbn [obind]. rewrite E2. cbn [obind]. rewrite E3. cbn [obind]. rewrite E4. cbn [obind]. rewrite E. cbn [obind]. clear m1 m2 m3 m4 E1 E2 E3 E4 E.
  set (p' := p ++ header_with (u16 (sizeof_ACL + zlen u + 8)) 1). assert (zlen p' = zlen p + 8) as Hp' by (unfold p'; by rewrite zlen_app, zlen_header).
  rewrite (app_assoc p). fold p'. assert (written p' [] (zlen rest0) (p' ++ rest0, zlen p + sizeof_ACL, 0)) as Hw.
  { exists rest0. split; [|lia]. rewrite Hp', <- Z.add_assoc. done. }
  append_step appends_owner_denial Hw.
  append_step appends_dir Hw.
  append_step (appends_ace (allow isdir (owner_rights isdir mode) u) ku ltac:(cbn [allow a_sid]; lia)) Hw.
  append_step appends_group Hw.
  append_step (appends_const ACCESS_ALLOWED_ACE_TYPE (inheritance isdir) (world_rights isdir mode) worldsid ltac:(done)) Hw.
  append_step (appends_const ACCESS_ALLOWED_ACE_TYPE (inheritance isdir) full_rights adminsid ltac:(done)) Hw.
  append_step (appends_const ACCESS_ALLOWED_ACE_TYPE (inheritance isdir) full_rights systemsid ltac:(done)) Hw.
  append_step appends_special Hw.
  match type of Hw with written _ ?l _ _ => replace l with (acl_of mode isdir ao go u g) in Hw end.
  2:{ unfold acl_of, front_aces, back_aces. by rewrite <- !app_assoc. }
  set (l := acl_of mode isdir ao go u g) in *. destruct Hw as (rest' & -> & Hrest'). cbn match.
  replace (zlen p' + zlen (stored_all l) - zlen p) with (sizeof_ACL + zlen (stored_all l)) by (unfold sizeof_ACL; lia).
  pose proof (header_end p (u16 (sizeof_ACL + zlen u + 8)) 1 (u16 (sizeof_ACL + zlen (stored_all l))) (u16 (zlen l)) (stored_all l ++ rest')) as E.
  unfold p'. rewrite <- !app_assoc. apply obind_ret in E as (m1 & E1 & E2). rewrite E1. cbn [obind]. rewrite E2. cbn [obind].
  exists rest'. split; [|lia]. unfold acl_bytes. by rewrite <- !app_assoc.
Qed.
End build.

(** The ACEs of a mode fit in the room for them. *)
Lemma stored_all_room mode isdir u g : is_sid u -> is_sid g ->
  zlen (stored_all (acl_of mode isdir (admin_owns u g) (group_owns u g) u g)) <= acl_room mode isdir u g.
Proof.
  intros Hu Hg. pose proof (is_sid_size u Hu). pose proof (is_sid_size g Hg).
  assert (forall c, zlen (stored_all [] ) <= c <-> 0 <= c) as Hnil by done.
  assert (forall m s, 8 <= zlen s -> zlen (stored_all (deny isdir m s)) <= zlen s + 8) as Hdeny.
  { intros m s Hs. unfold deny. destruct (m =? 0); [apply Hnil; lia|]. rewrite stored_all_cons, app_nil_r, zlen_stored by (cbn [a_sid]; lia). cbn [a_sid]. lia. }
  assert (forall a l, 8 <= zlen (a_sid a) -> zlen (stored_all (a :: l)) = zlen (a_sid a) + 8 + zlen (stored_all l)) as Hcons.
  { intros a l Ha. by rewrite stored_all_cons, zlen_app, zlen_stored by lia. }
  assert (zlen (stored_all (group_aces isdir (admin_owns u g) (group_owns u g) mode g)) <= 2 * (zlen g + 8)) as Hgrp.
  { unfold group_aces. destruct (admin_owns u g || group_owns u g || _); [|apply Hnil; lia]. rewrite stored_all_app, zlen_app.
    pose proof (Hdeny (Z.land (rights_of isdir mode S_IXOTH S_IWOTH S_IROTH 0) (Z.lnot (Z.lor (group_rights isdir mode) OWNER_RIGHTS))) g ltac:(lia)).
    destruct (negb _ && negb _), (_ || _); rewrite ?Hcons by (cbn [allow a_sid]; lia); cbn [allow a_sid]; change (zlen (stored_all [])) with 0; lia. }
  pose proof (Hdeny (owner_denials isdir (group_owns u g) mode (owner_rights isdir mode)) u ltac:(lia)) as Hown.
  unfold acl_of, front_aces, back_aces, special_aces, acl_room. rewrite !stored_all_app, !zlen_app, !Hcons by (cbn [allow a_sid]; done || lia).
  cbn [allow a_sid]. change (zlen worldsid) with 12. change (zlen adminsid) with 16. change (zlen systemsid) with 12.
  assert (zlen (stored_all (if isdir then [ACE ACCESS_DENIED_ACE_TYPE (Z.lor INHERIT_ONLY_ACE OBJECT_INHERIT_ACE) (EXEC false) worldsid] else [])) = if isdir then 20 else 0) as -> by (by destruct isdir).
  destruct (has mode _), (admin_owns u g); rewrite ?Hcons by done; cbn [a_sid]; change (zlen nullsid) with 12; change (zlen (stored_all [])) with 0 in *; lia.
Qed.

(** ** The descriptor *)
Definition sd_front : bytes := le_bytes 1 1 ++ le_bytes 1 0 ++ le_bytes 2 (ors [SE_DACL_PRESENT; SE_DACL_PROTECTED; SE_SELF_RELATIVE]).
Definition sd_header (owner group sacl dacl : Z) : bytes :=
  sd_front ++ le_bytes 4 owner ++ le_bytes 4 group ++ le_bytes 4 sacl ++ le_bytes 4 dacl.

(** The header, the ACL, the owner and the group. *)
Definition descr_of (mode : Z) (isdir : bool) (u g : bytes) : bytes :=
  let acl := acl_bytes (acl_of mode isdir (admin_owns u g) (group_owns u g) u g) in
  sd_header (sizeof_SD + zlen acl) (sizeof_SD + zlen acl + zlen u) 0 sizeof_SD ++ acl ++ u ++ g.

Lemma zlen_acl_bytes l : zlen (acl_bytes l) = sizeof_ACL + zlen (stored_all l).
Proof. unfold acl_bytes. by rewrite zlen_app, zlen_header. Qed.

Lemma sd_start h q : zlen h = 20 ->
  exists x, (let! m := put 1 (h ++ q) 0 1 in let! m := put 1 m 1 0 in put 2 m 2 (ors [SE_DACL_PRESENT; SE_DACL_PROTECTED; SE_SELF_RELATIVE])) =
      Ret (sd_front ++ x ++ q) /\ zlen x = 16.
Proof.
  intros Hh. destruct (list_parts h 1) as (x0 & q0 & -> & H0); [lia|]. rewrite zlen_app in Hh. destruct (list_parts q0 1) as (x1 & q1 & -> & H1); [lia|].
  rewrite zlen_app in Hh. destruct (list_parts q1 2) as (x2 & x & -> & H2); [lia|]. rewrite zlen_app in Hh. unfold put, sd_front.
  set (b0 := le_bytes 1 1). set (b1 := le_bytes 1 0). set (b2 := le_bytes 2 _).
  assert (zlen b0 = 1 /\ zlen b1 = 1 /\ zlen b2 = 2) as (Z0 & Z1 & Z2) by (split_and!; apply zlen_le_bytes).
  rewrite <- !app_assoc. rewrite wrn_head by lia. cbn [obind]. rewrite wrn_at by lia. cbn [obind].
  rewrite (app_assoc b0), wrn_at by (rewrite ?zlen_app; lia). exists x. rewrite <- !app_assoc. split; [done|lia].
Qed.

Lemma sd_end x q a owner group sacl dacl : zlen x = 16 -> zlen a = 4 ->
  (let! m := put 4 (a ++ x ++ q) 4 owner in let! m := put 4 m 8 group in let! m := put 4 m 12 sacl in put 4 m 16 dacl) =
    Ret (a ++ (le_bytes 4 owner ++ le_bytes 4 group ++ le_bytes 4 sacl ++ le_bytes 4 dacl) ++ q).
Proof.
  intros Hx Ha. destruct (list_parts x 4) as (x0 & q0 & -> & H0); [lia|]. rewrite zlen_app in Hx. destruct (list_parts q0 4) as (x1 & q1 & -> & H1); [lia|].
  rewrite zlen_app in Hx. destruct (list_parts q1 4) as (x2 & x3 & -> & H2); [lia|]. rewrite zlen_app in Hx. unfold put.
  set (b0 := le_bytes 4 owner). set (b1 := le_bytes 4 group). set (b2 := le_bytes 4 sacl). set (b3 := le_bytes 4 dacl).
  assert (zlen b0 = 4 /\ zlen b1 = 4 /\ zlen b2 = 4 /\ zlen b3 = 4) as (Z0 & Z1 & Z2 & Z3) by (split_and!; apply zlen_le_bytes).
  rewrite <- !app_assoc, wrn_at by lia. cbn [obind]. rewrite (app_assoc a), wrn_at by (rewrite ?zlen_app; lia). cbn [obind].
  rewrite (app_assoc (a ++ b0)), wrn_at by (rewrite ?zlen_app; lia). cbn [obind].
  rewrite (app_assoc ((a ++ b0) ++ b1)), wrn_at by (rewrite ?zlen_app; lia). by rewrite <- !app_assoc.
Qed.

Definition descr_room (mode : Z) (isdir : bool) (u g : bytes) : Z := newattr_size mode isdir (zlen u) (zlen g) 12 16 12 12.

Lemma descr_room_eq mode isdir u g : descr_room mode isdir u g = 28 + acl_room mode isdir u g + zlen u + zlen g.
Proof.
  unfold descr_room, newattr_size, acl_room, sizeof_SD, sizeof_ACL. change (ors [S_ISVTX; S_ISGID; S_ISUID]) with 0xe00.
  destruct isdir, (has mode 0xe00); lia.
Qed.

Lemma build_descr_ok fresh newattr mode isdir u g ku kg :
  is_sid u -> is_sid g -> fresh (descr_room mode isdir u g) = Some newattr -> zlen newattr = descr_room mode isdir u g ->
  exists rest, ntfs_build_descr fresh mode isdir (u ++ ku) (g ++ kg) = Ret (descr_of mode isdir u g ++ rest).
Proof.
  intros Hu Hg Hf Hz. pose proof (is_sid_size u Hu). pose proof (is_sid_size g Hg).
  pose proof (descr_room_eq mode isdir u g) as Heq. pose proof (stored_all_room mode isdir u g Hu Hg) as Hall. pose proof (zlen_nonneg (stored_all (acl_of mode isdir (admin_owns u g) (group_owns u g) u g))).
  unfold ntfs_build_descr. rewrite !sid_size_ok by done. cbn [obind].
  change (ntfs_sid_size worldsid) with (Ret 12 : outcome Z). change (ntfs_sid_size adminsid) with (Ret 16 : outcome Z).
  change (ntfs_sid_size systemsid) with (Ret 12 : outcome Z). change (ntfs_sid_size nullsid) with (Ret 12 : outcome Z). cbn [obind].
  fold (descr_room mode isdir u g). rewrite Hf. destruct (list_parts newattr 20) as (h & rest & -> & Hh); [lia|]. rewrite zlen_app in Hz.
  destruct (sd_start h rest Hh) as (x & E & Hx). apply obind_ret in E as (m1 & E1 & E). apply obind_ret in E as (m2 & E2 & E3).
  rewrite E1. cbn [obind]. rewrite E2. cbn [obind]. rewrite E3. cbn [obind]. clear E1 E2 E3 m1 m2. rewrite app_assoc.
  destruct (buildacls_ok mode isdir u g ku kg Hu Hg (sd_front ++ x) rest) as (rest' & E & Hr'); [lia|].
  replace (zlen (sd_front ++ x)) with sizeof_SD in E by (rewrite zlen_app; change (zlen sd_front) with 4; unfold sizeof_SD; lia).
  rewrite E. cbn [obind]. clear E. rewrite <- zlen_acl_bytes. set (acl := acl_bytes _). 
  assert (zlen acl <= 8 + acl_room mode isdir u g) as Hacl by (unfold acl; rewrite zlen_acl_bytes; unfold sizeof_ACL; lia).
  fold (descr_room mode isdir u g). destruct (Z.ltb_spec (descr_room mode isdir u g) (sizeof_SD + zlen acl + zlen u + zlen g)) as [Hlt|_].
  { exfalso. unfold sizeof_SD in Hlt. lia. }
  destruct (list_parts rest' (zlen u)) as (y & q & -> & Hy); [lia|]. rewrite zlen_app in Hr'. destruct (list_parts q (zlen g)) as (z & q' & -> & Hzz); [lia|].
  assert (zlen (sd_front ++ x) = sizeof_SD) as Hp by (rewrite zlen_app, Hx; done). rewrite (app_assoc _ acl), memcpy_at by (rewrite ?zlen_app in *; lia).
  cbn [obind]. rewrite (app_assoc _ u), memcpy_at by (rewrite ?zlen_app in *; lia). cbn [obind].
  pose proof (sd_end x (acl ++ u ++ g ++ q') sd_front (sizeof_SD + zlen acl) (sizeof_SD + zlen acl + zlen u) 0 sizeof_SD Hx ltac:(done)) as E.
  rewrite <- !app_assoc. rewrite E. exists q'. unfold descr_of, sd_header. fold acl. by rewrite <- !app_assoc.
Qed.

(** C27. [ntfs_build_descr] writes exactly the descriptor [descr_of] of the mode, the
    owner and the group: the header, the ACEs that the mode stands for in their order,
    and the two SIDs.  Whatever the mode is, the memory that it allocates is enough, so
    nothing is written outside of it and the check behind the writing never fails. *)
Theorem build_descr_spec fresh newattr mode isdir u g ku kg :
  is_sid u -> is_sid g -> fresh (descr_room mode isdir u g) = Some newattr -> zlen newattr = descr_room mode isdir u g ->
  exists rest, ntfs_build_descr fresh mode isdir (u ++ ku) (g ++ kg) = Ret (descr_of mode isdir u g ++ rest).
Proof. apply build_descr_ok. Qed.

(** A directory with mode 755. *)
Lemma build_descr_spec_witness :
  exists rest, ntfs_build_descr (fun n => Some (replicate (Z.to_nat n) 165)) 493 true (user_sid 1 2 3 1004 ++ [7]) (user_sid 1 2 3 1005 ++ []) =
    Ret (descr_of 493 true (user_sid 1 2 3 1004) (user_sid 1 2 3 1005) ++ rest).
Proof.
  apply (build_descr_spec _ (replicate (Z.to_nat (descr_room 493 true (user_sid 1 2 3 1004) (user_sid 1 2 3 1005))) 165)).
  - apply user_sid_is.
  - apply user_sid_is.
  - reflexivity.
  - reflexivity.
Defined.
