(* ===== verification/AclValid.v ===== *)
(** * The checks of a security descriptor (acls.c)

    The descriptors that [ntfs_build_descr] makes are accepted; on any bytes the checks
    stay inside of them; what was accepted can be read, if the four bytes behind it can
    ([Acl] says why the SID of an ACE ends four bytes behind its size). *)
From S2P Require Import Prelude Libc Fields Cond Sid SidProofs Acl AclBuild.

(** ** Pointers *)
Lemma zlen_at_ptr m p : 0 <= p <= zlen m -> zlen (at_ptr m p) = zlen m - p.
Proof. intros Hp. unfold at_ptr. destruct (Z.ltb_spec p 0); [lia|]. unfold zlen in *. rewrite length_drop. lia. Qed.

Lemma at_ptr_twice m p q : 0 <= p -> 0 <= q -> at_ptr (at_ptr m p) q = at_ptr m (p + q).
Proof.
  intros Hp Hq. unfold at_ptr. destruct (Z.ltb_spec p 0), (Z.ltb_spec q 0), (Z.ltb_spec (p + q) 0); try lia.
  rewrite drop_drop. f_equal. lia.
Qed.

Lemma byte_ok_at_ptr m p : Forall byte_ok m -> Forall byte_ok (at_ptr m p).
Proof. intros Hm. unfold at_ptr. destruct (p <? 0); [constructor|by apply Forall_drop]. Qed.

Lemma at_ptr_split m p n : 0 <= p -> 0 <= n -> p + n <= zlen m -> at_ptr m p = sub m p n ++ at_ptr m (p + n).
Proof.
  intros Hp Hn Hz. unfold at_ptr, sub. destruct (Z.ltb_spec p 0), (Z.ltb_spec (p + n) 0); try lia.
  replace (Z.to_nat (p + n)) with (Z.to_nat p + Z.to_nat n)%nat by lia. by rewrite <- drop_drop, take_drop.
Qed.

(** ** An ACE in memory *)
Lemma rd_le_head n v k : rd_le n (le_bytes n v ++ k) 0 = Ret (v mod 256 ^ Z.of_nat n).
Proof. by apply (rd_le_bytes n []). Qed.

Lemma ace_fields a k : 0 <= a_type a < 2 ^ 32 -> 0 <= a_flags a < 2 ^ 16 -> 0 <= a_mask a < 2 ^ 32 -> zlen (a_sid a) < 2 ^ 15 ->
  ace_type (stored a ++ k) = Ret (a_type a) /\ ace_flags (stored a ++ k) = Ret (a_flags a) /\
  ace_size (stored a ++ k) = Ret (zlen (a_sid a) + 8) /\ ace_mask (stored a ++ k) = Ret (a_mask a) /\
  ace_sid (stored a ++ k) = take (length (a_sid a) - 4) (a_sid a) ++ k.
Proof.
  intros Ht Hf Hm Hs. pose proof (zlen_nonneg (a_sid a)). unfold ace_type, ace_flags, ace_size, ace_mask, ace_sid, stored, ace_head.
  set (t := le_bytes 4 (a_type a)). set (f := le_bytes 2 (a_flags a)). set (mk := le_bytes 4 (a_mask a)). set (s := le_bytes 2 (u16 _)). set (sd := take _ _).
  assert (zlen t = 4 /\ zlen f = 2 /\ zlen s = 2 /\ zlen mk = 4) as (Zt & Zf & Zs & Zm) by (split_and!; apply zlen_le_bytes).
  rewrite <- !app_assoc. split_and!.
  - unfold t. rewrite rd_le_head. f_equal. by apply Z.mod_small.
  - unfold f. rewrite rd_le_bytes by lia. f_equal. by apply Z.mod_small.
  - rewrite (app_assoc t). unfold s. rewrite rd_le_bytes by (rewrite zlen_app; lia). f_equal. rewrite wrapu_small by (unfold in_u; lia). apply Z.mod_small. cbn; lia.
  - rewrite (app_assoc t), (app_assoc (t ++ f)). unfold mk. rewrite rd_le_bytes by (rewrite !zlen_app; lia). f_equal. by apply Z.mod_small.
  - rewrite (app_assoc t), (app_assoc (t ++ f)), (app_assoc ((t ++ f) ++ s)). apply at_ptr_app. rewrite !zlen_app. lia.
Qed.

(** A SID of which the last sub-authority may have been written over. *)
Lemma sid_start_ok s k : is_sid s -> 12 <= zlen s ->
  ntfs_sid_size (take (length s - 4) s ++ k) = Ret (zlen s) /\ ntfs_valid_sid (take (length s - 4) s ++ k) = ntfs_valid_sid s.
Proof.
  intros Hs Hz. destruct (Hs) as (Hb & c & Hc & Hzc).
  assert (forall i, 0 <= i < 8 -> rd (take (length s - 4) s ++ k) i = rd s i) as Hrd.
  { intros i Hi. rewrite rd_app_l by (unfold zlen in *; rewrite length_take; lia). unfold rd. destruct (i <? 0); [done|]. rewrite lookup_take_lt by (unfold zlen in *; lia). done. }
  unfold ntfs_sid_size, ntfs_valid_sid, sub_authority_count, revision. rewrite !Hrd, Hc by lia. cbn [obind]. split; [|done]. f_equal. lia.
Qed.

(** ** The descriptor of a mode is accepted *)
Definition valid_sid (s : bytes) : Prop := is_sid s /\ ntfs_valid_sid s = Ret true.

Lemma valid_sid_size s : valid_sid s -> 12 <= zlen s <= 40 /\ zlen s mod 4 = 0.
Proof.
  intros [(Hb & c & Hc & Hz) Hv]. unfold ntfs_valid_sid, sub_authority_count in Hv. apply o_and_true in Hv as [_ Hv]. apply o_and_true in Hv as [H1 H2].
  rewrite Hc in H1, H2. cbn [obind] in *. injection H1 as H1. injection H2 as H2. split; [lia|]. rewrite Hz. dlia.
Qed.

Lemma const_valid : valid_sid worldsid /\ valid_sid adminsid /\ valid_sid systemsid /\ valid_sid nullsid.
Proof. destruct const_sids as (? & ? & ? & _). pose proof admin_is_sid. split_and!; (split; [done|by vm_compute]). Qed.

Definition ace_ok (a : ace) : Prop := 0 <= a_type a < 2 ^ 32 /\ 0 <= a_flags a < 2 ^ 16 /\ 0 <= a_mask a < 2 ^ 32 /\ valid_sid (a_sid a).

Lemma valid_aces_ok l p q end_ofs : Forall ace_ok l -> zlen p + zlen (stored_all l) + 4 <= end_ofs -> end_ofs < 2 ^ 32 ->
  valid_aces (length l) (p ++ stored_all l ++ q) end_ofs (zlen p) = Ret true.
Proof.
  intros Hl. revert p. induction Hl as [|a l (Ht & Hf & Hm & Hs) Hl IH]; intros p He Hmax; [done|]. cbn [length valid_aces].
  pose proof (valid_sid_size _ Hs) as [Hz _]. pose proof (zlen_nonneg p). pose proof (zlen_nonneg (stored_all l)).
  rewrite stored_all_cons, zlen_app, zlen_stored in * by lia. destruct (Z.ltb_spec end_ofs (zlen p + sizeof_ACE)) as [Hlt|_]; [unfold sizeof_ACE in Hlt; lia|].
  rewrite at_ptr_app by done. rewrite <- app_assoc. destruct (ace_fields a (stored_all l ++ q)) as (_ & _ & Esz & _ & Esid); [done..|lia|].
  rewrite Esz, Esid. cbn [obind]. destruct (sid_start_ok (a_sid a) (stored_all l ++ q) (proj1 Hs)) as [E1 E2]; [lia|]. rewrite E1, E2, (proj2 Hs).
  unfold o_not, o_or. cbn [obind]. rewrite (wrapu_small 32) by (unfold in_u; lia). destruct (Z.ltb_spec end_ofs (zlen p + (zlen (a_sid a) + 8))); [lia|].
  cbn [obind negb]. rewrite Z.eqb_refl. cbn [obind negb]. rewrite app_assoc.
  replace (zlen p + (zlen (a_sid a) + 8)) with (zlen (p ++ stored a)) by (rewrite zlen_app, zlen_stored; lia).
  apply IH; [|done]. rewrite zlen_app, zlen_stored by lia. lia.
Qed.

(** The masks of the ACEs made for a mode have 32 bits. *)
Lemma or_if_range c b x n : 0 <= n -> 0 <= b < 2 ^ n -> 0 <= x < 2 ^ n -> 0 <= or_if c b x < 2 ^ n.
Proof.
  intros Hn Hb Hx. destruct c; cbn [or_if]; [|done]. assert (0 < 2 ^ n) by lia.
  assert (Z.lor x b / 2 ^ n = 0) as E.
  { rewrite <- Z.shiftr_div_pow2, Z.shiftr_lor, !Z.shiftr_div_pow2, !Z.div_small by lia. done. }
  apply Z.div_small_iff in E; [|lia]. pose proof (proj2 (Z.lor_nonneg x b) (conj (proj1 Hx) (proj1 Hb))). lia.
Qed.

Lemma rights_range isdir x w r g : 0 <= g < 2 ^ 32 -> 0 <= rights isdir x w r g < 2 ^ 32.
Proof. intros Hg. unfold rights. repeat apply or_if_range; try done; destruct isdir; done. Qed.

Lemma land_range x y n : 0 <= n -> 0 <= x < 2 ^ n -> 0 <= Z.land x y < 2 ^ n.
Proof.
  intros Hn Hx. rewrite <- (Z.mod_small x (2 ^ n)), <- Z.land_ones, <- Z.land_assoc, (Z.land_comm (Z.ones n)), Z.land_assoc, Z.land_ones by (done || lia).
  apply Z.mod_pos_bound. lia.
Qed.

Lemma acl_of_ok mode isdir ao go u g : valid_sid u -> valid_sid g -> Forall ace_ok (acl_of mode isdir ao go u g).
Proof.
  intros Hu Hg. destruct const_valid as (Hw & Ha & Hs & Hn).
  assert (forall m s, 0 <= m < 2 ^ 32 -> valid_sid s -> ace_ok (allow isdir m s)) as Hallow by (intros m s Hm Hv; unfold ace_ok; cbn; destruct isdir; cbn; (split_and!; done || lia)).
  assert (forall m s, 0 <= m < 2 ^ 32 -> valid_sid s -> Forall ace_ok (deny isdir m s)) as Hdeny.
  { intros m s Hm Hv. unfold deny. destruct (m =? 0); [constructor|]. constructor; [|constructor]. unfold ace_ok; cbn; destruct isdir; cbn; (split_and!; done || lia). }
  unfold acl_of, front_aces, back_aces, group_aces, special_aces. repeat apply Forall_app_2.
  - destruct ao; [constructor|]. apply Hdeny; [|done]. unfold owner_denials. apply land_range; [done|]. destruct go; by apply rights_range.
  - destruct isdir; [|constructor]. constructor; [|constructor]. by unfold ace_ok; cbn; split_and!.
  - constructor; [|constructor]. apply Hallow; [|done]. by apply rights_range.
  - destruct (_ || _); [|constructor]. apply Forall_app_2.
    + destruct (_ && _); [|constructor]. apply Hdeny; [|done]. apply land_range; [done|]. by apply rights_range.
    + destruct (_ || _); [|constructor]. constructor; [|constructor]. apply Hallow; [|done]. by apply rights_range.
  - constructor; [|constructor]. apply Hallow; [|done]. by apply rights_range.
  - repeat constructor; try apply Hallow; done.
  - destruct (has mode _); [|constructor]. constructor; [|constructor]. unfold ace_ok. cbn [a_type a_flags a_mask a_sid].
    split; [done|]. split; [done|]. split; [|done]. unfold special_rights. repeat apply or_if_range; done.
Qed.

(** The fields of the header. *)
Lemma header_fields owner group sacl dacl q :
  0 <= owner < 2 ^ 32 -> 0 <= group < 2 ^ 32 -> 0 <= sacl < 2 ^ 32 -> 0 <= dacl < 2 ^ 32 ->
  let sd := sd_header owner group sacl dacl ++ q in
  sd_revision sd = Ret 1 /\ sd_control sd = Ret 0x9004 /\ sd_owner sd = Ret owner /\ sd_group sd = Ret group /\ sd_sacl sd = Ret sacl /\ sd_dacl sd = Ret dacl.
Proof.
  intros Ho Hg Hs Hd. cbn zeta. unfold sd_owner, sd_group, sd_sacl, sd_dacl, sd_header.
  set (bo := le_bytes 4 owner). set (bg := le_bytes 4 group). set (bs := le_bytes 4 sacl). set (bd := le_bytes 4 dacl).
  assert (zlen bo = 4 /\ zlen bg = 4 /\ zlen bs = 4) as (Zo & Zg & Zs) by (split_and!; apply zlen_le_bytes). assert (zlen sd_front = 4) as Zf by done.
  rewrite <- !app_assoc. split; [done|]. split; [done|]. split_and!.
  - unfold bo. rewrite rd_le_bytes by done. f_equal. by apply Z.mod_small.
  - rewrite (app_assoc sd_front). unfold bg. rewrite rd_le_bytes by (rewrite zlen_app; lia). f_equal. by apply Z.mod_small.
  - rewrite (app_assoc sd_front), (app_assoc (sd_front ++ bo)). unfold bs. rewrite rd_le_bytes by (rewrite !zlen_app; lia). f_equal. by apply Z.mod_small.
  - rewrite (app_assoc sd_front), (app_assoc (sd_front ++ bo)), (app_assoc ((sd_front ++ bo) ++ bg)). unfold bd. rewrite rd_le_bytes by (rewrite !zlen_app; lia).
    f_equal. by apply Z.mod_small.
Qed.

Lemma zlen_sd_header owner group sacl dacl : zlen (sd_header owner group sacl dacl) = 20.
Proof. unfold sd_header. by rewrite !zlen_app, !zlen_le_bytes. Qed.

(** The fields of an ACL. *)
Lemma acl_fields l q : zlen (stored_all l) < 2 ^ 15 -> zlen l < 2 ^ 16 ->
  acl_revision (acl_bytes l ++ q) = Ret 2 /\ acl_ace_count (acl_bytes l ++ q) = Ret (zlen l) /\ acl_size (acl_bytes l ++ q) = Ret (8 + zlen (stored_all l)).
Proof.
  intros Hs Hl. pose proof (zlen_nonneg l). pose proof (zlen_nonneg (stored_all l)). unfold acl_ace_count, acl_size, acl_bytes, header_with, sizeof_ACL.
  set (b0 := le_bytes 1 ACL_REVISION). set (b1 := le_bytes 1 0). set (b2 := le_bytes 2 (u16 (8 + _))). set (b3 := le_bytes 2 (u16 (zlen l))).
  assert (zlen b0 = 1 /\ zlen b1 = 1 /\ zlen b2 = 2 /\ zlen b3 = 2) as (Z0 & Z1 & Z2 & Z3) by (split_and!; apply zlen_le_bytes).
  rewrite <- !app_assoc. split; [done|]. split.
  - rewrite (app_assoc b0), (app_assoc (b0 ++ b1)). unfold b3. rewrite rd_le_bytes by (rewrite !zlen_app; lia). f_equal. rewrite wrapu_small by (unfold in_u; lia). apply Z.mod_small. cbn; lia.
  - rewrite (app_assoc b0). unfold b2. rewrite rd_le_bytes by (rewrite !zlen_app; lia). f_equal. rewrite wrapu_small by (unfold in_u; lia). apply Z.mod_small. cbn; lia.
Qed.

Lemma stored_all_count l : Forall ace_ok l -> 20 * zlen l <= zlen (stored_all l) /\ zlen (stored_all l) mod 4 = 0.
Proof.
  intros Hl. induction Hl as [|a l (_ & _ & _ & Hs) Hl [IH1 IH2]]; [done|]. pose proof (valid_sid_size _ Hs) as [Hz Hm].
  rewrite stored_all_cons, zlen_app, zlen_stored, zlen_cons by lia. split; [lia|]. dlia.
Qed.

Lemma has3 x : has x 3 = negb (x mod 4 =? 0).
Proof. unfold has. change 3 with (Z.ones 2). by rewrite Z.land_ones by lia. Qed.

Lemma o_and_t b : (Ret true &&! b) = b.
Proof. done. Qed.

Section accepted.
Context (mode : Z) (isdir : bool) (u g : bytes) (Hu : valid_sid u) (Hg : valid_sid g).
Local Notation l := (acl_of mode isdir (admin_owns u g) (group_owns u g) u g).

Lemma acl_of_bounds : 20 * zlen l <= zlen (stored_all l) <= 296 /\ zlen (stored_all l) mod 4 = 0.
Proof using Hu Hg.
  destruct (stored_all_count l (acl_of_ok _ _ _ _ _ _ Hu Hg)) as [H1 H2]. pose proof (stored_all_room mode isdir u g (proj1 Hu) (proj1 Hg)).
  pose proof (valid_sid_size u Hu) as [? _]. pose proof (valid_sid_size g Hg) as [? _].
  assert (acl_room mode isdir u g <= 296) by (unfold acl_room; destruct isdir, (has mode _); lia). lia.
Qed.

(** The parts of the descriptor. *)
Lemma descr_parts q : exists h acl,
  descr_of mode isdir u g ++ q = h ++ acl ++ u ++ g ++ q /\ acl = acl_bytes l /\ zlen h = 20 /\ zlen acl = 8 + zlen (stored_all l) /\
  sd_revision (h ++ acl ++ u ++ g ++ q) = Ret 1 /\ sd_control (h ++ acl ++ u ++ g ++ q) = Ret 0x9004 /\
  sd_owner (h ++ acl ++ u ++ g ++ q) = Ret (20 + zlen acl) /\ sd_group (h ++ acl ++ u ++ g ++ q) = Ret (20 + zlen acl + zlen u) /\
  sd_sacl (h ++ acl ++ u ++ g ++ q) = Ret 0 /\ sd_dacl (h ++ acl ++ u ++ g ++ q) = Ret 20.
Proof using Hu Hg.
  destruct acl_of_bounds as [Hb _]. pose proof (valid_sid_size u Hu) as [? _]. pose proof (zlen_nonneg (stored_all l)). unfold descr_of.
  set (acl := acl_bytes l). assert (zlen acl = 8 + zlen (stored_all l)) as Hacl by (unfold acl; by rewrite zlen_acl_bytes).
  exists (sd_header (sizeof_SD + zlen acl) (sizeof_SD + zlen acl + zlen u) 0 sizeof_SD), acl. rewrite <- !app_assoc. split; [reflexivity|]. split; [done|]. split; [apply zlen_sd_header|]. split; [done|]. unfold sizeof_SD. apply header_fields; lia.
Qed.

Lemma descr_size q : ntfs_attr_size (descr_of mode isdir u g ++ q) = Ret (zlen (descr_of mode isdir u g)) /\
  zlen (descr_of mode isdir u g) = 28 + zlen (stored_all l) + zlen u + zlen g.
Proof using Hu Hg.
  assert (zlen (descr_of mode isdir u g) = 28 + zlen (stored_all l) + zlen u + zlen g) as Hz.
  { unfold descr_of. rewrite !zlen_app, zlen_sd_header, zlen_acl_bytes. unfold sizeof_ACL. lia. }
  split; [|done]. rewrite Hz. destruct acl_of_bounds as [Hb _]. pose proof (valid_sid_size u Hu) as [? _]. pose proof (valid_sid_size g Hg) as [? _]. pose proof (zlen_nonneg (stored_all l)).
  destruct (descr_parts q) as (h & acl & -> & _ & Hh & Hacl & _ & _ & Eo & Eg & Es & Ed). unfold ntfs_attr_size.
  rewrite Eg. cbn [obind]. unfold sizeof_SD. destruct (Z.leb_spec 20 (20 + zlen acl + zlen u)); [|lia].
  rewrite (app_assoc acl), (app_assoc h), at_ptr_app by (rewrite !zlen_app; lia). rewrite sid_size_ok by apply Hg. cbn [obind].
  rewrite (wrapu_small 32) by (unfold in_u; lia). destruct (Z.ltb_spec 20 (20 + zlen acl + zlen u + zlen g)); [|lia].
  rewrite <- !app_assoc, Eo. cbn [obind]. destruct (Z.leb_spec (20 + zlen acl + zlen u + zlen g) (20 + zlen acl)); [lia|]. cbn [obind].
  rewrite Es. cbn [obind]. destruct (Z.leb_spec (20 + zlen acl + zlen u + zlen g) 0); [lia|]. cbn [obind].
  rewrite Ed. cbn [obind]. destruct (Z.leb_spec (20 + zlen acl + zlen u + zlen g) 20); [lia|]. f_equal. lia.
Qed.

Lemma descr_valid q : ntfs_valid_descr (descr_of mode isdir u g ++ q) (zlen (descr_of mode isdir u g)) = Ret true.
Proof using Hu Hg.
  destruct (descr_size q) as [Esz Hz]. rewrite Hz in *. destruct acl_of_bounds as [Hb Hm4]. pose proof (valid_sid_size u Hu) as [? Hu4]. pose proof (valid_sid_size g Hg) as [? Hg4].
  pose proof (zlen_nonneg (stored_all l)). pose proof (zlen_nonneg l). destruct (descr_parts q) as (h & acl & E & Eacl & Hh & Hacl & Er & Ec & Eo & Eg & Es & Ed). rewrite E in *. clear E.
  unfold ntfs_valid_descr. rewrite Ed. cbn [obind]. rewrite Es. cbn [obind]. rewrite Eo. cbn [obind]. rewrite Eg. cbn [obind].
  unfold acl_shown. rewrite Er, Ec, Esz, !has3. cbn [obind]. unfold sizeof_SD, sizeof_ACL.
  assert (at_ptr (h ++ acl ++ u ++ g ++ q) 20 = acl ++ u ++ g ++ q) as Ep by (by apply at_ptr_app). rewrite Ep.
  assert (at_ptr (h ++ acl ++ u ++ g ++ q) (20 + zlen acl) = u ++ g ++ q) as -> by (rewrite (app_assoc h); apply at_ptr_app; rewrite zlen_app; lia).
  assert (at_ptr (h ++ acl ++ u ++ g ++ q) (20 + zlen acl + zlen u) = g ++ q) as -> by (rewrite (app_assoc acl), (app_assoc h); apply at_ptr_app; rewrite !zlen_app; lia).
  assert (forall s k, valid_sid s -> ntfs_valid_sid (s ++ k) = Ret true) as Hv.
  { intros s k [Hs <-]. pose proof (is_sid_size s Hs). unfold ntfs_valid_sid, revision, sub_authority_count. by rewrite !rd_app_l by lia. }
  rewrite !Hv by done. destruct (acl_fields l (u ++ g ++ q)) as (Erev & Ecnt & _); [lia|lia|]. rewrite <- Eacl in Erev, Ecnt. rewrite Erev. cbn [obind].
  rewrite !(wrapu_small 32) by (unfold in_u; lia).
  repeat match goal with
  | |- context [?a <=? ?b] => destruct (Z.leb_spec a b); [|lia]
  | |- context [?a <? ?b] => destruct (Z.ltb_spec a b); [|lia]
  end.
  replace ((20 + zlen acl) mod 4) with 0 by dlia. replace ((20 + zlen acl + zlen u) mod 4) with 0 by dlia.
  cbn -[valid_acl]. unfold valid_acl. rewrite Ecnt. cbn [obind].
  assert (valid_aces (Z.to_nat (zlen l)) (acl ++ u ++ g ++ q) (28 + zlen (stored_all l) + zlen u + zlen g - 20) sizeof_ACL = Ret true) as ->; [|done].
  rewrite Eacl. unfold acl_bytes, zlen at 1. rewrite Nat2Z.id, <- !app_assoc.
  rewrite <- (zlen_header (u16 (sizeof_ACL + zlen (stored_all l))) (u16 (zlen l)) : _ = sizeof_ACL).
  apply valid_aces_ok; [by apply acl_of_ok|rewrite zlen_header; lia|lia].
Qed.

End accepted.

(** ** The checks on any bytes *)
#[export] Hint Resolve byte_ok_at_ptr : total.


Lemma tot_valid_sid s : 2 <= zlen s -> tot (ntfs_valid_sid s).
Proof. intros Hs. unfold ntfs_valid_sid, revision, sub_authority_count. repeat (apply tot_and; [apply tot_bind; [apply tot_rd; lia|intros; apply tot_ret]|intros _]). apply tot_bind; [apply tot_rd; lia|intros; apply tot_ret]. Qed.

Lemma tot_sid_size s : 2 <= zlen s -> tot (ntfs_sid_size s).
Proof. intros Hs. unfold ntfs_sid_size, sub_authority_count. apply tot_bind; [apply tot_rd; lia|intros; apply tot_ret]. Qed.
#[export] Hint Resolve tot_valid_sid tot_sid_size : total.

Lemma sid_size_range s : Forall byte_ok s -> 2 <= zlen s -> exists v, ntfs_sid_size s = Ret v /\ 8 <= v <= 1028.
Proof.
  intros Hb Hs. unfold ntfs_sid_size, sub_authority_count. destruct (rd_some s 1) as [c Ec]; [lia|]. rewrite Ec. cbn [obind].
  eexists. split; [done|]. apply rd_lookup in Ec as [_ Ec]. pose proof (Forall_lookup_1 _ _ _ _ Hb Ec) as Hc. unfold byte_ok in Hc. lia.
Qed.

(** What [valid_acl] found: every ACE begins 24 bytes before the end, ends before it and
    has the size its SID accounts for. *)
Fixpoint aces_in (n : nat) (pacl : bytes) (end_ofs offace : Z) : Prop :=
  match n with
  | O => True
  | S n' =>
    offace + 24 <= end_ofs /\
    exists sz, ace_size (at_ptr pacl offace) = Ret sz /\ 12 <= sz /\ offace + sz <= end_ofs /\
      ntfs_valid_sid (ace_sid (at_ptr pacl offace)) = Ret true /\ ntfs_sid_size (ace_sid (at_ptr pacl offace)) = Ret (sz - 8) /\
      aces_in n' pacl end_ofs (offace + sz)
  end.

Lemma valid_aces_total n pacl end_ofs offace :
  Forall byte_ok pacl -> end_ofs <= zlen pacl -> end_ofs < 2 ^ 31 -> 0 <= offace ->
  exists b, valid_aces n pacl end_ofs offace = Ret b /\ (b = true -> aces_in n pacl end_ofs offace).
Proof.
  intros Hb He Hmax. revert offace. induction n as [|n IH]; intros offace Ho; cbn [valid_aces aces_in]; [by exists true|].
  unfold sizeof_ACE. destruct (Z.ltb_spec end_ofs (offace + 24)) as [|H24]; [by exists false|].
  set (pace := at_ptr pacl offace). assert (zlen pace = zlen pacl - offace) as Hz by (apply zlen_at_ptr; lia).
  assert (Forall byte_ok pace) as Hbp by (by apply byte_ok_at_ptr). assert (zlen (ace_sid pace) = zlen pace - 12) as Hzs by (apply zlen_at_ptr; lia).
  destruct (rd_le_range 2 pace 6) as (sz & Esz & Hsz); [done|lia|lia|]. unfold ace_size at 1. rewrite Esz. cbn [obind]. change (256 ^ Z.of_nat 2) with 65536 in Hsz.
  rewrite (wrapu_small 32) by (unfold in_u; lia).
  assert (tot (Ret (end_ofs <? offace + sz) ||! o_not (ntfs_valid_sid (ace_sid pace)) ||! (let! size := ntfs_sid_size (ace_sid pace) in Ret (negb (size + 8 =? sz))))) as [bad E].
  { apply tot_or; [apply tot_ret|intros _]. apply tot_or; [apply tot_not, tot_valid_sid; lia|intros _]. apply tot_bind; [apply tot_sid_size; lia|intros; apply tot_ret]. }
  rewrite E. cbn [obind]. destruct bad; [by exists false|]. apply o_or_false in E as [E1 E]. apply o_or_false in E as [E2 E3]. apply o_not_false in E2.
  injection E1 as E1. destruct (IH (offace + sz)) as (b & -> & Hin); [lia|]. exists b. split; [done|]. intros Hbt. split; [lia|]. exists sz.
  destruct (sid_size_range (ace_sid pace)) as (ss & Ess & Hss); [by apply byte_ok_at_ptr|lia|]. rewrite Ess in E3 |- *. cbn [obind] in E3. injection E3 as E3.
  split_and!; try done; [lia|lia|f_equal; lia|by apply Hin].
Qed.

(** The offsets that the first checks of [ntfs_valid_descr] let pass. *)
Definition offsets_ok (attrsz owner group sacl dacl : Z) : Prop :=
  20 <= owner /\ owner + 2 < attrsz /\ 20 <= group /\ group + 2 < attrsz /\
  (sacl = 0 \/ 20 <= sacl /\ sacl + 8 <= attrsz) /\ (dacl = 0 \/ 20 <= dacl /\ dacl + 8 < attrsz).

(** One of the steps of [ntfs_attr_size]: the size so far grows up to the end of a part. *)
Lemma size_step_total (sz off : Z) (o : outcome Z) (k : Z -> Z) :
  20 <= sz -> (sz <= off -> exists v, o = Ret v /\ 20 <= k v) -> exists sz', (if sz <=? off then let! v := o in Ret (k v) else Ret sz) = Ret sz' /\ 20 <= sz'.
Proof.
  intros Hs Ho. destruct (Z.leb_spec sz off); [|by exists sz]. destruct Ho as (v & -> & Hk); [done|]. by exists (k v).
Qed.

Lemma attr_size_total m owner group sacl dacl :
  Forall byte_ok m -> 20 <= zlen m < 2 ^ 31 -> sd_owner m = Ret owner -> sd_group m = Ret group -> sd_sacl m = Ret sacl -> sd_dacl m = Ret dacl ->
  offsets_ok (zlen m) owner group sacl dacl -> tot (ntfs_attr_size m).
Proof.
  intros Hb Hz Eo Eg Es Ed (H1 & H2 & H3 & H4 & H5 & H6). unfold ntfs_attr_size, sizeof_SD. rewrite Eg. cbn [obind].
  assert (forall sz off, 20 <= sz -> sz <= off -> off + 2 < zlen m -> exists v, ntfs_sid_size (at_ptr m off) = Ret v /\ 20 <= u32 (off + v)) as Hsid.
  { intros sz off Hs Hle Hoff. destruct (sid_size_range (at_ptr m off)) as (v & Ev & Hv); [by apply byte_ok_at_ptr|rewrite zlen_at_ptr; lia|].
    exists v. split; [done|]. rewrite wrapu_small by (unfold in_u; lia). lia. }
  assert (forall sz off, 20 <= sz -> sz <= off -> (off = 0 \/ 20 <= off /\ off + 8 <= zlen m) -> tot (acl_size (at_ptr m off))) as Hacl.
  { intros sz off Hs Hle Hoff. apply tot_rd_le; [by apply byte_ok_at_ptr|lia|]. rewrite zlen_at_ptr by lia. lia. }
  destruct (size_step_total 20 group (ntfs_sid_size (at_ptr m group)) (fun size => if 20 <? u32 (group + size) then u32 (group + size) else 20)) as (s1 & E1 & Hs1); [done| |].
  { intros Hle. destruct (Hsid 20 group) as (v & Ev & Hv); [done..|]. exists v. split; [done|]. by destruct (_ <? _). }
  rewrite E1. cbn [obind]. rewrite Eo. cbn [obind].
  destruct (size_step_total s1 owner (ntfs_sid_size (at_ptr m owner)) (fun size => u32 (owner + size))) as (s2 & E2 & Hs2); [done| |].
  { intros Hle. by apply (Hsid s1 owner). }
  rewrite E2. cbn [obind]. rewrite Es. cbn [obind].
  destruct (size_step_total s2 sacl (acl_size (at_ptr m sacl)) (fun size => if s2 <? u32 (sacl + size) then u32 (sacl + size) else s2)) as (s3 & E3 & Hs3); [done| |].
  { intros Hle. destruct (Hacl s2 sacl) as [v Ev]; [done..|]. exists v. split; [done|]. destruct (Z.ltb_spec s2 (u32 (sacl + v))); lia. }
  rewrite E3. cbn [obind]. rewrite Ed. cbn [obind]. destruct (Z.leb_spec s3 dacl); [|apply tot_ret].
  destruct (Hacl s3 dacl) as [v Ev]; [done|done|lia|]. rewrite Ev. apply tot_ret.
Qed.

Lemma acl_shown_total sd off flag : Forall byte_ok sd -> 20 <= zlen sd -> off = 0 \/ 20 <= off /\ off < zlen sd -> tot (acl_shown sd off flag).
Proof.
  intros Hb Hz Hoff. unfold acl_shown. apply tot_or; [apply tot_ret|]. intros E. injection E as E. assert (20 <= off /\ off < zlen sd) as Ho by lia.
  assert (tot (acl_revision (at_ptr sd off))) as Hr by (apply tot_rd; rewrite zlen_at_ptr; lia).
  apply tot_and; [apply tot_bind; [apply tot_rd_le; [done|lia|lia]|intros; apply tot_ret]|intros _].
  apply tot_or; [apply tot_bind; [done|intros; apply tot_ret]|intros _]. apply tot_bind; [done|intros; apply tot_ret].
Qed.

Lemma valid_acl_total m off : Forall byte_ok m -> zlen m < 2 ^ 31 -> 20 <= off -> off + 8 <= zlen m ->
  exists b, valid_acl (at_ptr m off) (u32 (zlen m - off)) = Ret b /\
    (b = true -> exists c, acl_ace_count (at_ptr m off) = Ret c /\ aces_in (Z.to_nat c) (at_ptr m off) (zlen m - off) 8).
Proof.
  intros Hb Hm Ho Hz. assert (zlen (at_ptr m off) = zlen m - off) as Hzp by (apply zlen_at_ptr; lia). assert (Forall byte_ok (at_ptr m off)) as Hbp by (by apply byte_ok_at_ptr).
  unfold valid_acl. destruct (rd_le_range 2 (at_ptr m off) 4) as (c & Ec & Hc); [done|lia|lia|]. unfold acl_ace_count. rewrite Ec. cbn [obind].
  rewrite wrapu_small by (unfold in_u; lia). destruct (valid_aces_total (Z.to_nat c) (at_ptr m off) (zlen m - off) sizeof_ACL) as (b & E & Hin); [done|lia|lia|done|].
  exists b. split; [done|]. intros Hbt. exists c. split; [done|by apply Hin].
Qed.

(** What an accepted descriptor promises to its readers. *)
Definition accepted (m : bytes) : Prop :=
  exists owner group sacl dacl, sd_owner m = Ret owner /\ sd_group m = Ret group /\ sd_sacl m = Ret sacl /\ sd_dacl m = Ret dacl /\
    offsets_ok (zlen m) owner group sacl dacl /\
    (dacl = 0 \/ exists c, acl_ace_count (at_ptr m dacl) = Ret c /\ aces_in (Z.to_nat c) (at_ptr m dacl) (zlen m - dacl) 8).

Lemma has3_small x : has x 3 = false -> 0 <= x < 2 ^ 32 -> u32 (x + 2) = x + 2.
Proof. rewrite has3. intros E Hx. apply wrapu_small. unfold in_u. dlia. Qed.

Lemma valid_descr_total m : Forall byte_ok m -> 20 <= zlen m < 2 ^ 31 -> exists b, ntfs_valid_descr m (zlen m) = Ret b /\ (b = true -> accepted m).
Proof.
  intros Hb Hz. unfold ntfs_valid_descr, sizeof_SD, sizeof_ACL.
  destruct (rd_le_range 4 m 16) as (dacl & Ed & Hd); [done|lia|lia|]. destruct (rd_le_range 4 m 12) as (sacl & Es & Hs); [done|lia|lia|].
  destruct (rd_le_range 4 m 4) as (owner & Eo & Ho); [done|lia|lia|]. destruct (rd_le_range 4 m 8) as (group & Eg & Hg); [done|lia|lia|].
  change (256 ^ Z.of_nat 4) with (2 ^ 32) in *. unfold sd_dacl at 1. rewrite Ed. cbn [obind]. unfold sd_sacl at 1. rewrite Es. cbn [obind]. unfold sd_owner at 1. rewrite Eo. cbn [obind].
  unfold sd_group at 1. rewrite Eg. cbn [obind].
  match goal with |- context [obind ?h _] => assert (checks h (offsets_ok (zlen m) owner group sacl dacl)) as (head & Eh & Hoff) end.
  { apply checks_pure. intros _. apply checks_and; [apply tot_bind; [apply tot_rd; lia|intros; apply tot_ret]|]. intros _.
    do 10 (apply checks_pure; intros ?H). rewrite !negb_true_iff in *.
    assert (offsets_ok (zlen m) owner group sacl dacl) as Hok.
    { pose proof (has3_small owner ltac:(done) Ho) as E1. pose proof (has3_small group ltac:(done) Hg) as E2. rewrite E1, E2 in *. unfold offsets_ok. lia. }
    pose proof Hok as (H1' & H2' & H3' & H4' & H5' & H6').
    apply checks_and; [apply tot_bind; [by apply (attr_size_total m owner group sacl dacl)|intros; apply tot_ret]|intros _].
    apply checks_and; [apply tot_valid_sid; rewrite zlen_at_ptr; lia|intros _]. apply checks_and; [apply tot_valid_sid; rewrite zlen_at_ptr; lia|intros _].
    apply checks_and; [apply acl_shown_total; (done || lia)|intros _]. apply checks_tot; [apply acl_shown_total; (done || lia)|done]. }
  rewrite Eh. cbn [obind]. destruct head; cbn [negb]; [|by exists false]. specialize (Hoff eq_refl). pose proof Hoff as (H1 & H2 & H3 & H4 & H5 & H6).
  assert (exists b, (Ret (negb (dacl =? 0)) &&! o_not (valid_acl (at_ptr m dacl) (u32 (zlen m - dacl)))) = Ret b /\
    (b = false -> dacl = 0 \/ exists c, acl_ace_count (at_ptr m dacl) = Ret c /\ aces_in (Z.to_nat c) (at_ptr m dacl) (zlen m - dacl) 8)) as (bd & Ebd & Hbd).
  { unfold o_and. cbn [obind]. destruct (Z.eqb_spec dacl 0) as [->|Hne]; cbn [negb]; [exists false; auto|].
    destruct (valid_acl_total m dacl) as (b & Eb & Hb'); [done|lia..|]. unfold o_not. rewrite Eb. cbn [obind]. exists (negb b). split; [done|]. rewrite negb_false_iff. auto. }
  assert (tot (Ret (negb (sacl =? 0)) &&! o_not (valid_acl (at_ptr m sacl) (u32 (zlen m - sacl))))) as [bs Ebs].
  { apply tot_and; [apply tot_ret|]. intros [= Hne]. apply tot_not. destruct (valid_acl_total m sacl) as (b & Eb & _); [done|lia..|]. by exists b. }
  rewrite Ebd, Ebs. unfold o_or. cbn [obind]. destruct bd; cbn [obind]; [by exists false|]. exists (negb bs). split; [done|]. intros _.
  exists owner, group, sacl, dacl. split_and!; try done. by apply Hbd.
Qed.

(** ** What the checks promise *)
(** C28. Whatever the mode, and for any valid owner and group, the descriptor that
    [ntfs_build_descr] makes has the size that [ntfs_attr_size] computes and passes
    [ntfs_valid_descr], read where it was made (with what is left of the memory behind
    it): the offsets are aligned and the sizes of the ACEs match their SIDs. *)
Theorem built_descr_accepted fresh newattr mode isdir u g ku kg :
  valid_sid u -> valid_sid g -> fresh (descr_room mode isdir u g) = Some newattr -> zlen newattr = descr_room mode isdir u g ->
  exists d size, ntfs_build_descr fresh mode isdir (u ++ ku) (g ++ kg) = Ret d /\
    ntfs_attr_size d = Ret size /\ size <= zlen d /\ ntfs_valid_descr d size = Ret true.
Proof.
  intros Hu Hg Hf Hz. destruct (build_descr_ok fresh newattr mode isdir u g ku kg (proj1 Hu) (proj1 Hg) Hf Hz) as (rest & E).
  exists (descr_of mode isdir u g ++ rest), (zlen (descr_of mode isdir u g)). split; [done|]. split; [by apply descr_size|].
  split; [rewrite zlen_app; pose proof (zlen_nonneg rest); lia|by apply descr_valid].
Qed.

Definition some_owner : bytes := user_sid 1 2 3 1004.
Definition some_group : bytes := user_sid 1 2 3 1005.
Lemma user_sid_valid a b c r : valid_sid (user_sid a b c r).
Proof. split; [apply user_sid_is|done]. Qed.

Definition some_memory (n : Z) : option bytes := Some (replicate (Z.to_nat n) 165).

Lemma built_descr_accepted_witness :
  exists d size, ntfs_build_descr some_memory 493 true (some_owner ++ [7]) some_group = Ret d /\
    ntfs_attr_size d = Ret size /\ size <= zlen d /\ ntfs_valid_descr d size = Ret true.
Proof.
  apply (built_descr_accepted some_memory (replicate (Z.to_nat (descr_room 493 true some_owner some_group)) 165) 493 true some_owner some_group [7] []).
  - apply user_sid_valid.
  - apply user_sid_valid.
  - reflexivity.
  - reflexivity.
Defined.

(** C29. [ntfs_valid_descr] on any bytes, of which there are at least the 20 of a header:
    it comes to an end, and no offset, size or count in the descriptor makes it look
    outside of the bytes.  What it accepts has its offsets inside, and the ACEs of the
    DACL, one behind the other, inside of the descriptor with valid SIDs of the size
    that the ACE says.  A size_t has 64 bits, as on X64: with the 32 bits of IA32 the sum
    [offdacl + sizeof(ACL)] could wrap around. *)
Theorem valid_descr_safe m : Forall byte_ok m -> 20 <= zlen m < 2 ^ 31 ->
  exists b, ntfs_valid_descr m (zlen m) = Ret b /\ (b = true -> accepted m).
Proof. apply valid_descr_total. Qed.

Definition some_descr : bytes := descr_of 493 true some_owner some_group.

Lemma valid_descr_safe_witness : exists b, ntfs_valid_descr some_descr (zlen some_descr) = Ret b /\ (b = true -> accepted some_descr).
Proof.
  apply (valid_descr_safe some_descr).
  - apply bytes_checked. vm_compute. reflexivity.
  - vm_compute. split; [discriminate|reflexivity].
Defined.

(** The fields of the header are read before the size is compared with theirs, which is
    meant to come first: fewer than 20 bytes are read past. *)
Example valid_descr_reads_short : ntfs_valid_descr [1; 0; 4; 144] 4 = Fault.
Proof. reflexivity. Qed.

(** [ntfs_attr_size] looks at the owner only when it begins behind the part that the
    group reaches to, so an owner that begins inside of the group and ends behind the
    descriptor is accepted, and reading it leaves the descriptor. *)
Definition outside_owner : bytes :=
  sd_header 28 20 0 0 ++ [1; 1; 0; 0; 0; 0; 0; 5; 1; 8; 0; 0; 0; 0].
Example owner_outside :
  ntfs_valid_descr outside_owner (zlen outside_owner) = Ret true /\ ntfs_sid_size (at_ptr outside_owner 28) = Ret 40 /\ zlen outside_owner = 34.
Proof. split; reflexivity || done. Qed.
