(* ===== verification/AclRead.v ===== *)
(** * Permissions from a descriptor (acls.c)

    A descriptor that was accepted is read to its end without leaving it, when four
    more bytes can be read behind it.  The permissions of the descriptor made for a
    mode: the SIDs of its ACEs have lost their last sub-authority, so the owner and the
    group are not found in it. *)
From S2P Require Import Prelude Libc Fields Cond Sid SidProofs Acl AclBuild AclValid.

(** ** One ACE *)
(** An ACE with its SID, and what is behind. *)
Record ace_at (pace : bytes) (type flags size mask : Z) (s : bytes) : Prop := {
  at_type : ace_type pace = Ret type;
  at_flags : ace_flags pace = Ret flags;
  at_size : ace_size pace = Ret size;
  at_mask : ace_mask pace = Ret mask;
  at_sid : exists k, ace_sid pace = s ++ k;
  at_is : is_sid s;
  at_auths : 12 <= zlen s;
}.

Lemma same_ace pace t f n m s u ku : ace_at pace t f n m s -> is_sid u -> ntfs_same_sid (u ++ ku) (ace_sid pace) = Ret (bool_decide (u = s)).
Proof. intros [_ _ _ _ [k ->] Hs _] Hu. by apply same_sid_ok. Qed.

Lemma same_ace_all pace t f n m s u : ace_at pace t f n m s -> is_sid u -> ntfs_same_sid u (ace_sid pace) = Ret (bool_decide (u = s)).
Proof. intros H Hu. rewrite <- (app_nil_r u) at 1. by eapply same_ace. Qed.

Lemma ace_same_const pace t f n m s u : ace_at pace t f n m s -> is_sid u -> ntfs_same_sid (ace_sid pace) u = Ret (bool_decide (s = u)).
Proof. intros [_ _ _ _ [k ->] Hs _] Hu. pose proof (same_sid_ok s u k [] Hs Hu) as E. by rewrite app_nil_r in E. Qed.

(** The value of the tests for the beginning of a SID. *)
Definition begins (s : bytes) (count auth sub0 : Z) : bool :=
  match sid_begins s count auth sub0 with Ret b => b | _ => false end.
Definition world (s : bytes) : bool := match is_world_sid s with Ret b => b | _ => false end.

Lemma sid_begins_ok s k c a v : is_sid s -> 12 <= zlen s -> sid_begins (s ++ k) c a v = Ret (begins s c a v).
Proof.
  intros Hs Hz. assert (sid_begins (s ++ k) c a v = sid_begins s c a v) as ->.
  { unfold sid_begins, sub_authority_count, high_part, low_part, sub_authority. change (8 + 4 * 0) with 8. by rewrite rd_app_l, !rd_le_app_l by lia. }
  assert (tot (sid_begins s c a v)) as [b Hb].
  { pose proof (proj1 Hs). unfold sid_begins, sub_authority_count, high_part, low_part, sub_authority.
    repeat (apply tot_and; [apply tot_bind; [first [apply tot_rd; lia|apply tot_rd_le; (done || lia)]|intros; apply tot_ret]|intros _]).
    apply tot_bind; [apply tot_rd_le; (done || lia)|intros; apply tot_ret]. }
  unfold begins. by rewrite Hb.
Qed.

Lemma is_world_ok s k : is_sid s -> 12 <= zlen s -> is_world_sid (s ++ k) = Ret (world s).
Proof.
  intros Hs Hz. assert (forall q, is_world_sid (s ++ q) =
    Ret (begins s 1 1 0) ||! (Ret (begins s 2 5 32) &&! (let! v := sub_authority (s ++ q) 1 in Ret (v =? 545))) ||! Ret (begins s 1 5 11)) as E.
  { intros q. unfold is_world_sid. by rewrite !sid_begins_ok. }
  assert (begins s 2 5 32 = true -> exists v, forall q, sub_authority (s ++ q) 1 = Ret v) as H16.
  { intros Hbg. pose proof (sid_begins_ok s [] 2 5 32 Hs Hz) as Eb. rewrite app_nil_r, Hbg in Eb. apply sid_begins_inv in Eb as [Ec _].
    destruct Hs as (Hb & c & Hc & Hzc). rewrite Hc in Ec. injection Ec as ->. destruct (rd_le_range 4 s 12) as (v & Ev & _); [done|lia|lia|].
    exists v. intros q. unfold sub_authority. rewrite rd_le_app_l by lia. done. }
  assert (is_world_sid (s ++ k) = is_world_sid (s ++ [])) as E2.
  { rewrite !E. destruct (begins s 2 5 32); [|done]. destruct H16 as [v Hv]; [done|]. by rewrite !Hv. }
  assert (tot (is_world_sid (s ++ []))) as [b Hb].
  { rewrite E. apply tot_or; [apply tot_ret|intros _]. apply tot_or; [|intros; apply tot_ret]. apply tot_and; [apply tot_ret|]. intros [= Hbg].
    destruct (H16 Hbg) as [v Hv]. rewrite Hv. apply tot_ret. }
  rewrite E2, Hb. unfold world. rewrite app_nil_r in Hb. by rewrite Hb.
Qed.

(** ** What the loops do with an ACE, as a function of its fields *)
Definition collected (t m : Z) (allow deny : Z -> grants -> grants) (g : grants) : grants :=
  if t =? ACCESS_ALLOWED_ACE_TYPE then allow m g else if t =? ACCESS_DENIED_ACE_TYPE then deny m g else g.
Definition special_of (t m : Z) (s : bytes) (g : grants) : grants :=
  if bool_decide (s = nullsid) && (t =? ACCESS_ALLOWED_ACE_TYPE) then add_special m g else g.
Definition world_of (t m : Z) (s : bytes) (g : grants) : grants :=
  if world s then collected t m allow_all deny_all g else special_of t m s g.

Section ace.
Context (pace : bytes) (t f n m : Z) (s : bytes) (H : ace_at pace t f n m s).

Lemma collect_ok allow deny g : collect pace allow deny g = Ret (collected t m allow deny g).
Proof using H. unfold collect. by rewrite (at_type _ _ _ _ _ _ H), (at_mask _ _ _ _ _ _ H). Qed.

Lemma collect_special_ok g : collect_special pace g = Ret (special_of t m s g).
Proof using H.
  unfold collect_special, special_of. rewrite (ace_same_const _ _ _ _ _ _ nullsid H), (at_type _ _ _ _ _ _ H), (at_mask _ _ _ _ _ _ H) by apply const_sids.
  unfold o_and. cbn [obind]. by destruct (bool_decide _), (t =? _).
Qed.

Lemma ace_world_ok : is_world_sid (ace_sid pace) = Ret (world s).
Proof using H. destruct (at_sid _ _ _ _ _ _ H) as [k ->]. apply is_world_ok; [apply H|apply H]. Qed.

Lemma collect_world_ok g : collect_world pace g = Ret (world_of t m s g).
Proof using H. unfold collect_world, world_of. rewrite ace_world_ok. cbn [obind]. destruct (world s); [apply collect_ok|apply collect_special_ok]. Qed.

Lemma mask_has_ok bits : mask_has pace bits = Ret (has m bits).
Proof using H. unfold mask_has. by rewrite (at_mask _ _ _ _ _ _ H). Qed.

Lemma flags_has_ok bits : flags_has pace bits = Ret (has f bits).
Proof using H. unfold flags_has. by rewrite (at_flags _ _ _ _ _ _ H). Qed.

Definition std_of (u g : bytes) (st : bool * grants) : bool * grants :=
  let '(noown, gr) := st in
  if has f INHERIT_ONLY_ACE then st
  else if bool_decide (u = s) || bool_decide (ownersid = s) then (false, collected t m allow_own deny_own gr)
  else if bool_decide (g = s) && negb (has m WRITE_OWNER) then (noown, collected t m allow_grp deny_grp gr)
  else (noown, world_of t m s gr).

Lemma std_ace_ok u g ku kg st : is_sid u -> is_sid g -> std_ace (u ++ ku) (g ++ kg) pace st = Ret (std_of u g st).
Proof using H.
  intros Hu Hg. destruct st as [noown gr]. unfold std_ace, std_of. rewrite flags_has_ok. cbn [obind]. destruct (has f _); [done|].
  rewrite (same_ace _ _ _ _ _ _ u ku H), (same_ace_all _ _ _ _ _ _ ownersid H), (same_ace _ _ _ _ _ _ g kg H), mask_has_ok, !collect_ok, collect_world_ok by (done || apply const_sids).
  unfold o_or, o_and, o_not. cbn [obind]. destruct (bool_decide (u = s)), (bool_decide (ownersid = s)), (bool_decide (g = s)), (has m WRITE_OWNER); done.
Qed.

Definition owngrp_of (u : bytes) (st : bool * bool * grants) : bool * bool * grants :=
  let '(op, gp, gr) := st in
  if has f INHERIT_ONLY_ACE then st
  else if (bool_decide (u = s) || bool_decide (ownersid = s)) && has m WRITE_OWNER then (if t =? ACCESS_ALLOWED_ACE_TYPE then (true, gp, allow_own m gr) else st)
  else if bool_decide (u = s) && negb (has m WRITE_OWNER) then (if t =? ACCESS_ALLOWED_ACE_TYPE then (op, true, allow_grp m gr) else st)
  else (op, gp, world_of t m s gr).

Lemma owngrp_ace_ok u ku st : is_sid u -> owngrp_ace (u ++ ku) pace st = Ret (owngrp_of u st).
Proof using H.
  intros Hu. destruct st as [[op gp] gr]. unfold owngrp_ace, owngrp_of. rewrite flags_has_ok. cbn [obind]. destruct (has f _); [done|].
  rewrite (same_ace _ _ _ _ _ _ u ku H), (same_ace_all _ _ _ _ _ _ ownersid H), mask_has_ok, (at_type _ _ _ _ _ _ H), (at_mask _ _ _ _ _ _ H), collect_world_ok by (done || apply const_sids).
  unfold o_or, o_and, o_not. cbn [obind]. destruct (bool_decide (u = s)), (bool_decide (ownersid = s)), (has m WRITE_OWNER), (t =? _); done.
Qed.

Lemma ownadmin_ace_tot u g ku kg st : is_sid u -> is_sid g -> tot (ownadmin_ace (u ++ ku) (g ++ kg) pace st).
Proof using H.
  intros Hu Hg. destruct st as [[fa foreign] gr]. unfold ownadmin_ace.
  rewrite flags_has_ok, (same_ace _ _ _ _ _ _ u ku H), (same_ace_all _ _ _ _ _ _ ownersid H), (same_ace _ _ _ _ _ _ g kg H), mask_has_ok, (at_type _ _ _ _ _ _ H), (at_mask _ _ _ _ _ _ H),
    !collect_ok, collect_special_ok, ace_world_ok by (done || apply const_sids).
  unfold o_or, o_and, o_not. cbn [obind].
  destruct (has f _), (has (Z.lnot m) _), (bool_decide (u = s)), (bool_decide (ownersid = s)), (bool_decide (g = s)), (has m WRITE_OWNER), fa, (world s); apply tot_ret.
Qed.
End ace.

(** ** Reading an accepted descriptor *)
Lemma merge_class_range gr x w r perm : 0 <= x < 2 ^ 12 -> 0 <= w < 2 ^ 12 -> 0 <= r < 2 ^ 12 -> 0 <= perm < 2 ^ 12 -> 0 <= merge_class gr x w r perm < 2 ^ 12.
Proof. intros. unfold merge_class. destruct (gr =? 0); [done|]. repeat apply or_if_range; done. Qed.

Lemma merge_permissions_range isdir o g w s : 0 <= merge_permissions isdir o g w s < 2 ^ 12.
Proof.
  unfold merge_permissions. assert (0 <= merge_class w S_IXOTH S_IWOTH S_IROTH (merge_class g S_IXGRP S_IWGRP S_IRGRP (merge_class o S_IXUSR S_IWUSR S_IRUSR 0)) < 2 ^ 12) by (by repeat apply merge_class_range).
  destruct (s =? 0); [done|]. by repeat apply or_if_range.
Qed.

(** The ACEs of an accepted ACL have their SIDs inside of the descriptor and the four
    bytes behind it. *)
Lemma ace_inside m slack p offace sz end_ofs :
  Forall byte_ok (m ++ slack) -> 4 <= zlen slack -> 0 <= p -> 0 <= offace -> p + end_ofs <= zlen m -> offace + 24 <= end_ofs -> offace + sz <= end_ofs -> 12 <= sz ->
  ace_size (at_ptr (at_ptr m p) offace) = Ret sz ->
  ntfs_valid_sid (ace_sid (at_ptr (at_ptr m p) offace)) = Ret true -> ntfs_sid_size (ace_sid (at_ptr (at_ptr m p) offace)) = Ret (sz - 8) ->
  exists t f mk s, ace_at (at_ptr (m ++ slack) (p + offace)) t f sz mk s /\ zlen s = sz - 8 /\ sz + 4 <= zlen (at_ptr (m ++ slack) (p + offace)).
Proof.
  intros Hb Hsl Hp Ho He H24 Hsz Hsz12. rewrite at_ptr_twice by done. remember (p + offace) as q eqn:Hq. unfold ace_sid. rewrite at_ptr_twice by lia. intros Esz Ev Es.
  pose proof (zlen_nonneg m). assert (zlen (at_ptr (m ++ slack) q) = zlen m + zlen slack - q) as Hz by (rewrite zlen_at_ptr, zlen_app; rewrite ?zlen_app; lia).
  assert (Forall byte_ok (at_ptr (m ++ slack) q)) as Hbq by (by apply byte_ok_at_ptr).
  destruct (rd_le_range 4 (at_ptr (m ++ slack) q) 0) as (t & Et & _); [done|lia|lia|]. destruct (rd_le_range 2 (at_ptr (m ++ slack) q) 4) as (f & Ef & _); [done|lia|lia|].
  destruct (rd_le_range 4 (at_ptr (m ++ slack) q) 8) as (mk & Em & _); [done|lia|lia|].
  assert (forall r i, 0 <= r -> 0 <= i -> r + i < zlen m -> rd (at_ptr (m ++ slack) r) i = rd (at_ptr m r) i) as Hrd.
  { intros r i Hr Hi Hlt. unfold at_ptr. destruct (Z.ltb_spec r 0); [lia|]. rewrite drop_app_le by (unfold zlen in *; lia). apply rd_app_l. unfold zlen in *. rewrite length_drop. lia. }
  assert (forall c, sub_authority_count (at_ptr m (q + 12)) = Ret c -> rd (m ++ slack) (q + 12 + 1) = Ret c) as Hcnt.
  { intros c Hc. rewrite <- Hc. unfold sub_authority_count. rewrite rd_app_l by lia. unfold at_ptr. destruct (Z.ltb_spec (q + 12) 0); [lia|].
    unfold rd. destruct (Z.ltb_spec (q + 12 + 1) 0), (Z.ltb_spec 1 0); try lia. rewrite lookup_drop. by replace (Z.to_nat (q + 12) + Z.to_nat 1)%nat with (Z.to_nat (q + 12 + 1)) by lia. }
  unfold ntfs_sid_size in Es. destruct (sub_authority_count (at_ptr m (q + 12))) as [c| |] eqn:Ec; cbn [obind] in Es; try done. injection Es as Es.
  assert (zlen (sub (m ++ slack) (q + 12) (sz - 8)) = sz - 8) as Hzs by (apply zlen_sub; rewrite ?zlen_app; lia).
  unfold ntfs_valid_sid in Ev. rewrite Ec in Ev. apply o_and_true in Ev as [_ Ev]. apply o_and_true in Ev as [Hc1 _]. cbn [obind] in Hc1. injection Hc1 as Hc1.
  exists t, f, mk, (sub (m ++ slack) (q + 12) (sz - 8)). split; [|lia]. constructor; try done.
  - rewrite <- Esz. unfold ace_size. apply rd_le_eq. intros k Hk. apply Hrd; lia.
  - exists (at_ptr (m ++ slack) (q + 12 + (sz - 8))). unfold ace_sid. rewrite at_ptr_twice by lia. apply at_ptr_split; rewrite ?zlen_app; lia.
  - split; [by apply Forall_take, Forall_drop|]. exists c. split; [|lia]. rewrite rd_sub by lia. destruct (Z.ltb_spec 1 (sz - 8)); [|lia]. by apply Hcnt.
  - lia.
Qed.

Lemma ace_loop_total {S} (step : bytes -> S -> outcome S) m slack p end_ofs n offace st :
  Forall byte_ok (m ++ slack) -> 4 <= zlen slack -> 0 <= p -> 0 <= offace -> p + end_ofs <= zlen m ->
  (forall pace t f sz mk s st, ace_at pace t f sz mk s -> tot (step pace st)) ->
  aces_in n (at_ptr m p) end_ofs offace -> tot (ace_loop step n (m ++ slack) (p + offace) st).
Proof.
  intros Hb Hsl Hp Ho He Hstep. revert offace st Ho. induction n as [|n IH]; intros offace st Ho Hin; cbn [ace_loop]; [apply tot_ret|].
  destruct Hin as (H24 & sz & Esz & Hsz12 & Hsz & Ev & Es & Hin). destruct (ace_inside m slack p offace sz end_ofs) as (t & f & mk & s & Ha & _); [done..|].
  apply tot_bind; [by eapply Hstep|]. intros st' _. rewrite (at_size _ _ _ _ _ _ Ha). cbn [obind]. rewrite <- Z.add_assoc. apply IH; [lia|done].
Qed.

(** The three loops over the ACEs, at once. *)
Lemma dacl_loop_total {S} (step : bytes -> S -> outcome S) m slack st :
  Forall byte_ok (m ++ slack) -> zlen m < 2 ^ 31 -> 4 <= zlen slack -> accepted m ->
  (forall pace t f sz mk s st, ace_at pace t f sz mk s -> tot (step pace st)) ->
  exists n off, dacl_aces (m ++ slack) = Ret (n, off) /\ tot (ace_loop step n (m ++ slack) off st).
Proof.
  intros Hb Hm Hsl (owner & group & sacl & dacl & _ & _ & _ & Ed & (_ & _ & _ & _ & _ & Hoff) & Hin) Hstep. unfold dacl_aces.
  assert (sd_dacl (m ++ slack) = Ret dacl) as ->.
  { rewrite <- Ed. assert (20 <= zlen m) as Hz.
    { unfold sd_dacl in Ed. cbn [rd_le] in Ed. apply obind_ret in Ed as (? & _ & Ed). apply obind_ret in Ed as (? & Ed & _).
      apply obind_ret in Ed as (? & _ & Ed). apply obind_ret in Ed as (? & Ed & _). apply obind_ret in Ed as (? & _ & Ed). apply obind_ret in Ed as (? & Ed & _).
      apply obind_ret in Ed as (? & Ed & _). apply rd_bound in Ed. lia. }
    apply rd_le_app_l; lia. }
  cbn [obind]. rewrite wraps_small by (unfold in_s; lia). destruct (Z.eqb_spec dacl 0) as [E|E]; [eexists _, _; split; [done|apply tot_ret]|].
  destruct Hin as [?|(c & Ec & Hin)]; [done|]. assert (acl_ace_count (at_ptr (m ++ slack) dacl) = Ret c) as ->.
  { rewrite <- Ec. apply rd_le_eq. intros k Hk. unfold at_ptr. destruct (Z.ltb_spec dacl 0); [lia|]. rewrite drop_app_le by (unfold zlen in *; lia). apply rd_app_l. unfold zlen in *. rewrite length_drop. lia. }
  cbn [obind]. eexists _, _. split; [done|]. eapply ace_loop_total; try done; lia.
Qed.

(** C30. A descriptor that [ntfs_valid_descr] accepted, whatever bytes it consists of, is
    turned into permissions for any owner and group: the loop over the ACEs comes to an
    end and reads nothing outside of the descriptor and the four bytes behind it, and
    the result has the twelve bits of a mode. *)
Theorem accepted_permissions m slack u g ku kg isdir :
  Forall byte_ok (m ++ slack) -> 20 <= zlen m < 2 ^ 31 -> 4 <= zlen slack -> is_sid u -> is_sid g ->
  ntfs_valid_descr m (zlen m) = Ret true ->
  exists perm, ntfs_build_permissions (m ++ slack) (u ++ ku) (g ++ kg) isdir = Ret perm /\ 0 <= perm < 2 ^ 12.
Proof.
  intros Hb Hm Hsl Hu Hg Hv. assert (accepted m) as Hacc.
  { destruct (valid_descr_total m) as (b & Eb & Hbt); [by apply Forall_app in Hb as [Hb _]|done|]. rewrite Hv in Eb. injection Eb as <-. by apply Hbt. }
  unfold ntfs_build_permissions. rewrite adminowns_ok by done. cbn [obind]. rewrite (same_sid_ok g u) by done. fold (admin_owns u g).
  unfold o_and. cbn [obind]. destruct (admin_owns u g) eqn:Ea; cbn [negb obind].
  - destruct (dacl_loop_total (ownadmin_ace (u ++ ku) (g ++ kg)) m slack (true, 3, no_grants)) as (n & off & En & [[[fa foreign] gr] El]); [done|lia|done|done|by intros; eapply ownadmin_ace_tot|].
    unfold build_ownadmin_permissions. rewrite En. cbn [obind]. rewrite El. cbn [obind]. eexists. split; [done|apply merge_permissions_range].
  - destruct (bool_decide (g = u)).
    + destruct (dacl_loop_total (owngrp_ace (u ++ ku)) m slack (false, false, no_grants)) as (n & off & En & [[[op gp] gr] El]); [done|lia|done|done|by intros; eexists; eapply owngrp_ace_ok|].
      unfold build_owngrp_permissions. rewrite En. cbn [obind]. rewrite El. cbn [obind]. eexists. split; [done|apply merge_permissions_range].
    + destruct (dacl_loop_total (std_ace (u ++ ku) (g ++ kg)) m slack (true, no_grants)) as (n & off & En & [[no gr] El]); [done|lia|done|done|by intros; eexists; eapply std_ace_ok|].
      unfold build_std_permissions. rewrite En. cbn [obind]. rewrite El. cbn [obind]. eexists. split; [done|apply merge_permissions_range].
Qed.

Lemma accepted_permissions_witness :
  exists perm, ntfs_build_permissions (some_descr ++ [9; 9; 9; 9]) (some_owner ++ []) (some_group ++ []) true = Ret perm /\ 0 <= perm < 2 ^ 12.
Proof.
  apply (accepted_permissions some_descr [9; 9; 9; 9] some_owner some_group [] [] true).
  - apply bytes_checked. vm_compute. reflexivity.
  - vm_compute. split; [discriminate|reflexivity].
  - vm_compute. discriminate.
  - apply user_sid_is.
  - apply user_sid_is.
  - vm_compute. reflexivity.
Defined.

(** The four bytes are needed: a descriptor whose last ACE is at its very end, with the
    SID at 12 that the check takes to be at 8, is accepted, and reading it leaves it. *)
Definition last_ace_short : bytes :=
  sd_header 28 28 0 20 ++ [2; 0; 32; 0; 1; 0; 0; 0] ++
  [1; 1; 0; 0; 0; 0; 24; 0; 255; 1; 31; 0; 1; 2; 0; 0; 0; 0; 0; 5; 32; 0; 0; 0].
Example last_ace_leaves :
  ntfs_valid_descr last_ace_short (zlen last_ace_short) = Ret true /\ ntfs_build_permissions last_ace_short (some_owner ++ []) (some_group ++ []) true = Fault.
Proof. split; vm_compute; reflexivity. Qed.

(** ** The descriptor of a mode, read back *)
(** A SID of which the last four bytes were written over. *)
Definition seen (s four : bytes) : bytes := take (length s - 4) s ++ four.

Lemma seen_is s four : is_sid s -> 12 <= zlen s -> zlen four = 4 -> Forall byte_ok four -> is_sid (seen s four) /\ zlen (seen s four) = zlen s.
Proof.
  intros (Hb & c & Hc & Hz) H12 H4 Hbf. assert (zlen (seen s four) = zlen s) as Hzs by (unfold seen, zlen in *; rewrite length_app, length_take; lia).
  split; [|done]. split; [apply Forall_app; split; [by apply Forall_take|done]|]. exists c. split; [|lia].
  unfold seen. rewrite rd_app_l by (unfold zlen in *; rewrite length_take; lia). rewrite <- Hc. unfold rd. destruct (1 <? 0); [done|].
  rewrite lookup_take_lt by (unfold zlen in *; lia). done.
Qed.

Lemma ace_stored a four k : ace_ok a -> zlen four = 4 -> Forall byte_ok four ->
  ace_at (stored a ++ four ++ k) (a_type a) (a_flags a) (zlen (a_sid a) + 8) (a_mask a) (seen (a_sid a) four).
Proof.
  intros (Ht & Hf & Hm & Hs) H4 Hb. pose proof (valid_sid_size _ Hs) as [Hz _]. destruct (ace_fields a (four ++ k)) as (E1 & E2 & E3 & E4 & E5); [done..|lia|].
  destruct (seen_is (a_sid a) four (proj1 Hs)) as [H1 H2]; [lia|done|done|]. constructor; try done; [|lia].
  exists k. rewrite E5. unfold seen. by rewrite <- app_assoc.
Qed.

Fixpoint walk {S} (step : bytes -> S -> outcome S) (l : list ace) (q : bytes) (st : S) : outcome S :=
  match l with [] => Ret st | a :: l' => let! st' := step (stored a ++ stored_all l' ++ q) st in walk step l' q st' end.

Lemma ace_loop_walk {S} (step : bytes -> S -> outcome S) l p q st : Forall ace_ok l ->
  ace_loop step (length l) (p ++ stored_all l ++ q) (zlen p) st = walk step l q st.
Proof.
  intros Hl. revert p st. induction Hl as [|a l Ha Hl IH]; intros p st; [done|]. cbn [length ace_loop walk]. rewrite at_ptr_app, stored_all_cons, <- app_assoc by done.
  destruct (step _ st) as [st'| |]; cbn [obind]; [|done..]. destruct (Ha) as (Ht & Hf & Hm & Hs). pose proof (valid_sid_size _ Hs) as [Hz _].
  destruct (ace_fields a (stored_all l ++ q)) as (_ & _ & E & _ & _); [done..|lia|]. rewrite E. cbn [obind]. rewrite app_assoc.
  replace (zlen p + (zlen (a_sid a) + 8)) with (zlen (p ++ stored a)) by (rewrite zlen_app, zlen_stored; lia). apply IH.
Qed.

(** The four bytes behind an ACE: the type of the next one, or the start of the owner. *)
Definition behind (l : list ace) (q : bytes) : bytes := match l with [] => take 4 q | b :: _ => le_bytes 4 (a_type b) end.

Lemma behind_split l q : 4 <= zlen q -> exists k, stored_all l ++ q = behind l q ++ k.
Proof.
  intros Hq. destruct l as [|b l]; cbn [behind].
  - exists (drop 4 q). by rewrite take_drop.
  - rewrite stored_all_cons. unfold stored, ace_head. rewrite <- !app_assoc. by eexists.
Qed.

(** An ACE that says nothing about [u], [g] or the world. *)
Definition neutral (u g : bytes) (f : Z) (s : bytes) : Prop :=
  has f INHERIT_ONLY_ACE = true \/ (u <> s /\ ownersid <> s /\ g <> s /\ world s = false /\ s <> nullsid).

Lemma std_of_neutral t f m s u g st : neutral u g f s -> std_of t f m s u g st = st.
Proof.
  intros H. destruct st as [no gr]. unfold std_of. destruct (has f INHERIT_ONLY_ACE) eqn:E; [done|]. destruct H as [H|(H1 & H2 & H3 & H4 & H5)]; [congruence|].
  unfold world_of, special_of. by rewrite H4, !bool_decide_false by congruence.
Qed.

Lemma owngrp_of_neutral t f m s u g st : neutral u g f s -> owngrp_of t f m s u st = st.
Proof.
  intros H. destruct st as [[op gp] gr]. unfold owngrp_of. destruct (has f INHERIT_ONLY_ACE) eqn:E; [done|]. destruct H as [H|(H1 & H2 & H3 & H4 & H5)]; [congruence|].
  unfold world_of, special_of. by rewrite H4, !bool_decide_false by congruence.
Qed.

(** The ACEs of the walk that are neutral do not change what was collected. *)
Fixpoint neutral_all (u g : bytes) (l : list ace) (rest : list ace) (q : bytes) : Prop :=
  match l with [] => True | a :: l' => neutral u g (a_flags a) (seen (a_sid a) (behind (l' ++ rest) q)) /\ neutral_all u g l' rest q end.

(** A loop whose body is a function of the fields of the ACE. *)
Section walk.
Context {S : Type} (step : bytes -> S -> outcome S) (eff : Z -> Z -> Z -> bytes -> S -> S) (u g : bytes).
Context (Hstep : forall pace t f n m s st, ace_at pace t f n m s -> step pace st = Ret (eff t f m s st)).
Context (Hneutral : forall t f m s st, neutral u g f s -> eff t f m s st = st).

Lemma walk_of l q st : Forall ace_ok l -> 4 <= zlen q -> Forall byte_ok (take 4 q) ->
  walk step l q st =
    match l with [] => Ret st | a :: l' => walk step l' q (eff (a_type a) (a_flags a) (a_mask a) (seen (a_sid a) (behind l' q)) st) end.
Proof using Hstep.
  intros Hl Hq Hb. destruct l as [|a l']; [done|]. apply Forall_cons in Hl as [Ha _]. cbn [walk]. destruct (behind_split l' q Hq) as [k Ek]. rewrite Ek.
  erewrite Hstep; [done|]. apply ace_stored; [done|..].
  - destruct l'; cbn [behind]; [unfold zlen in *; rewrite length_take; lia|apply zlen_le_bytes].
  - destruct l'; cbn [behind]; [done|apply byte_ok_le_bytes].
Qed.

Lemma walk_neutral l rest q st : Forall ace_ok (l ++ rest) -> 4 <= zlen q -> Forall byte_ok (take 4 q) -> neutral_all u g l rest q ->
  walk step (l ++ rest) q st = walk step rest q st.
Proof using Hstep Hneutral.
  intros Hl Hq Hb. revert st. induction l as [|a l IH]; intros st Hn; [done|]. destruct Hn as [Hn1 Hn2]. cbn [app] in *. apply Forall_cons in Hl as [Ha Hl'].
  rewrite walk_of by (done || by constructor). rewrite Hneutral by done. by apply IH.
Qed.
End walk.

Section users.
Context (a b c r a' b' c' r' : Z) (Hr : u32_ok r) (Hr' : u32_ok r').
Local Notation u := (user_sid a b c r).
Local Notation g := (user_sid a' b' c' r').

Lemma seen_user x y z v t : seen (user_sid x y z v) (le_bytes 4 t) = user_sid x y z t.
Proof. reflexivity. Qed.

Lemma user_last_inj x y z v x' y' z' v' : u32_ok v -> u32_ok v' -> user_sid x y z v = user_sid x' y' z' v' -> v = v'.
Proof.
  intros Hv Hv' E. pose proof (user_last x y z v [] Hv) as E1. pose proof (user_last x' y' z' v' [] Hv') as E2. rewrite E in E1. rewrite E1 in E2. by injection E2.
Qed.

Lemma user_other x y z v s : zlen s <> 28 -> user_sid x y z v <> s.
Proof. intros Hs <-. by rewrite zlen_user_sid in Hs. Qed.

Lemma world_user x y z v : world (user_sid x y z v) = false.
Proof. reflexivity. Qed.

(** The ACEs of the owner and of the group are not recognised any more. *)
Lemma front_neutral l rest q : Forall (fun e => a_sid e = u \/ a_sid e = g \/ has (a_flags e) INHERIT_ONLY_ACE = true) l ->
  Forall (fun e => a_type e = 0 \/ a_type e = 1) (l ++ rest) -> rest <> [] -> ~ (r = 0 \/ r = 1) -> ~ (r' = 0 \/ r' = 1) -> neutral_all u g l rest q.
Proof using Hr Hr'.
  intros Hl Ht Hne H1 H2. induction Hl as [|e l He Hl IH]; [done|]. cbn [neutral_all app] in *. apply Forall_cons in Ht as [_ Ht]. split; [|by apply IH].
  assert (exists t, behind (l ++ rest) q = le_bytes 4 t /\ (t = 0 \/ t = 1)) as (t & -> & Htt).
  { destruct l as [|e' l]; cbn [app behind] in *; [destruct rest as [|e' rest]; [done|]|]; apply Forall_cons in Ht as [Ht _]; eauto. }
  assert (u32_ok t) as Ht32 by (unfold u32_ok; lia).
  assert (forall x y z v, neutral u g (a_flags e) (seen (user_sid x y z v) (le_bytes 4 t))) as Hn.
  { intros x y z v. right. rewrite seen_user. split_and!.
    - intros E. apply user_last_inj in E; [|done..]. subst. done.
    - by apply not_eq_sym, user_other.
    - intros E. apply user_last_inj in E; [|done..]. subst. done.
    - apply world_user.
    - by apply user_other. }
  destruct He as [-> |[-> |He]]; [apply Hn|apply Hn|by left].
Qed.

(** The ACEs behind the world's: administrators, system and the special flags. *)
Lemma back_neutral mode isdir q : neutral_all u g (back_aces mode isdir) [] (u ++ q).
Proof using.
  assert (forall f s, zlen s <> 28 -> ownersid <> s -> world s = false -> s <> nullsid -> neutral u g f s) as Hn.
  { intros f s H1 H2 H3 H4. right. split_and!; try done; by apply user_other. }
  unfold back_aces, special_aces. destruct (has mode _); cbn [app neutral_all]; split_and!; try done; apply Hn; try done; by vm_compute.
Qed.

Lemma types_ok mode isdir ao go : Forall (fun e => a_type e = 0 \/ a_type e = 1) (acl_of mode isdir ao go u g).
Proof using.
  assert (forall m s, Forall (fun e => a_type e = 0 \/ a_type e = 1) (deny isdir m s)) as Hd by (intros m s; unfold deny; destruct (m =? 0); repeat constructor; tauto).
  unfold acl_of, front_aces, back_aces, group_aces, special_aces. repeat apply Forall_app_2.
  - destruct ao; [constructor|apply Hd].
  - destruct isdir; [|constructor]. constructor; [by right|constructor].
  - repeat constructor.
  - destruct (_ || _); [|constructor]. apply Forall_app_2; [destruct (_ && _); [apply Hd|constructor]|destruct (_ || _); repeat constructor].
  - repeat constructor.
  - repeat constructor.
  - destruct (has mode _); repeat constructor.
Qed.

Lemma front_kinds mode isdir ao go :
  Forall (fun e => a_sid e = u \/ a_sid e = g \/ has (a_flags e) INHERIT_ONLY_ACE = true) (front_aces mode isdir ao go u g).
Proof using.
  assert (forall m s, s = u \/ s = g -> Forall (fun e => a_sid e = u \/ a_sid e = g \/ has (a_flags e) INHERIT_ONLY_ACE = true) (deny isdir m s)) as Hd.
  { intros m s Hs. unfold deny. destruct (m =? 0); [constructor|]. constructor; [cbn [a_sid]; tauto|constructor]. }
  unfold front_aces, group_aces. repeat apply Forall_app_2.
  - destruct ao; [constructor|]. apply Hd. by left.
  - destruct isdir; [|constructor]. constructor; [by right; right|constructor].
  - constructor; [by left|constructor].
  - destruct (_ || _); [|constructor]. apply Forall_app_2.
    + destruct (_ && _); [|constructor]. apply Hd. by right.
    + destruct (_ || _); [|constructor]. constructor; [by right; left|constructor].
Qed.
End users.

(** The rights of the world depend on the last three bits of the mode. *)
Lemma world_rights_cases (P : Z -> Z -> Prop) isdir mode :
  Forall (fun o => P (world_rights isdir o) o) [0; 1; 2; 3; 4; 5; 6; 7] -> P (world_rights isdir mode) (Z.land mode 7).
Proof.
  intros H. set (o := Z.land mode 7). assert (0 <= o < 8) as Ho by (unfold o; change 7 with (Z.ones 3); rewrite Z.land_ones by lia; apply Z.mod_pos_bound; lia).
  assert (forall k, Z.land 7 k = k -> has mode k = has o k) as Hk by (intros k Hk; unfold has, o; by rewrite <- Z.land_assoc, Hk).
  assert (world_rights isdir mode = world_rights isdir o) as -> by (unfold world_rights, rights_of; by rewrite !Hk).
  clearbody o. rewrite Forall_forall in H. apply H, list_elem_of_In. cbn. lia.
Qed.

(** What the permissions are made from: nothing about the owner, and the world's
    rights. *)
Lemma merged_mode isdir mode :
  merge_grants isdir (share (set_own (ors [FILE_READ_DATA; FILE_WRITE_DATA; FILE_EXECUTE]) (allow_all (world_rights isdir mode) no_grants))) =
    Z.lor 0x1c0 (9 * Z.land mode 7).
Proof.
  apply (world_rights_cases (fun w o => merge_grants isdir (share (set_own (ors [FILE_READ_DATA; FILE_WRITE_DATA; FILE_EXECUTE]) (allow_all w no_grants))) = Z.lor 0x1c0 (9 * o))).
  destruct isdir; repeat constructor.
Qed.

(** When the group is the owner, all three have the world's rights. *)
Lemma merged_group isdir mode :
  let gr := allow_all (world_rights isdir mode) no_grants in let gr := set_own (allowall gr) gr in
  merge_grants isdir (set_grp (allowall gr) gr) = 73 * Z.land mode 7.
Proof.
  apply (world_rights_cases (fun w o => let gr := allow_all w no_grants in let gr := set_own (allowall gr) gr in merge_grants isdir (set_grp (allowall gr) gr) = 73 * o)).
  destruct isdir; repeat constructor.
Qed.

(** Of the ACEs of a mode only the one of the world does something. *)
Lemma walk_mode {S} (step : bytes -> S -> outcome S) eff mode isdir go a b c r a' b' c' r' k st :
  let u := user_sid a b c r in let g := user_sid a' b' c' r' in
  u32_ok r -> u32_ok r' -> ~ (r = 0 \/ r = 1) -> ~ (r' = 0 \/ r' = 1) ->
  (forall pace t f n m s st, ace_at pace t f n m s -> step pace st = Ret (eff t f m s st)) ->
  (forall t f m s st, neutral u g f s -> eff t f m s st = st) ->
  walk step (acl_of mode isdir false go u g) (u ++ g ++ k) st = Ret (eff ACCESS_ALLOWED_ACE_TYPE (inheritance isdir) (world_rights isdir mode) worldsid st).
Proof.
  intros u g Hr Hr' H1 H2 Hstep Hneu. pose proof (acl_of_ok mode isdir false go u g (user_sid_valid _ _ _ _) (user_sid_valid _ _ _ _)) as Hok. unfold acl_of in *.
  assert (4 <= zlen (u ++ g ++ k)) as Hq by (rewrite zlen_app; unfold u; rewrite zlen_user_sid; pose proof (zlen_nonneg (g ++ k)); lia).
  assert (Forall byte_ok (take 4 (u ++ g ++ k))) as Hqb by (cbn; repeat (constructor; [unfold byte_ok; lia|]); constructor).
  rewrite (walk_neutral step eff u g); [|done..|apply front_neutral; try done; [apply front_kinds|apply (types_ok a b c r a' b' c' r')]].
  apply Forall_app in Hok as [_ Hok]. cbn [app] in *. rewrite (walk_of step eff) by done. apply Forall_cons in Hok as [_ Hok]. cbn [a_type a_flags a_mask a_sid allow].
  change (seen worldsid (behind (back_aces mode isdir) (u ++ g ++ k))) with worldsid.
  rewrite <- (app_nil_r (back_aces mode isdir)) in Hok |- *. rewrite (walk_neutral step eff u g); [done..|apply back_neutral].
Qed.

(** The loop over the ACEs of the descriptor for a mode. *)
Lemma loop_mode {S} (step : bytes -> S -> outcome S) eff mode isdir a b c r a' b' c' r' rest st :
  let u := user_sid a b c r in let g := user_sid a' b' c' r' in let d := descr_of mode isdir u g ++ rest in
  u32_ok r -> u32_ok r' -> ~ (r = 0 \/ r = 1) -> ~ (r' = 0 \/ r' = 1) ->
  (forall pace t f n m s st, ace_at pace t f n m s -> step pace st = Ret (eff t f m s st)) ->
  (forall t f m s st, neutral u g f s -> eff t f m s st = st) ->
  exists n off, dacl_aces d = Ret (n, off) /\
    ace_loop step n d off st = Ret (eff ACCESS_ALLOWED_ACE_TYPE (inheritance isdir) (world_rights isdir mode) worldsid st).
Proof.
  intros u g d Hr Hr' H1 H2 Hstep Hneu. assert (valid_sid u) as Hu by apply user_sid_valid. assert (valid_sid g) as Hg by apply user_sid_valid.
  destruct (acl_of_bounds mode isdir u g Hu Hg) as [Hbd _]. destruct (descr_parts mode isdir u g Hu Hg rest) as (h & acl & Ed & Eacl & Hh & _ & _ & _ & _ & _ & _ & Edacl).
  unfold d. rewrite Ed. assert (admin_owns u g = false) as Ha by reflexivity. rewrite Ha in *. unfold dacl_aces.
  rewrite Edacl. cbn [obind]. change (s32 20) with 20. change (20 =? 0) with false. cbn match. rewrite at_ptr_app by done. set (l := acl_of mode isdir _ _ u g) in *. pose proof (zlen_nonneg l).
  destruct (acl_fields l (u ++ g ++ rest)) as (_ & Ecnt & _); [lia|lia|]. rewrite <- Eacl in Ecnt. rewrite Ecnt. cbn [obind]. do 2 eexists. split; [done|].
  pose proof (acl_of_ok mode isdir false (group_owns u g) u g Hu Hg) as Hok. change (acl_of mode isdir false (group_owns u g) u g) with l in Hok.
  unfold zlen at 1. rewrite Nat2Z.id, Eacl. unfold acl_bytes. rewrite <- app_assoc, app_assoc.
  replace (20 + sizeof_ACL) with (zlen (h ++ header_with (u16 (sizeof_ACL + zlen (stored_all l))) (u16 (zlen l)))) by (rewrite zlen_app, zlen_header, Hh; done).
  rewrite ace_loop_walk by done. by apply walk_mode.
Qed.

(** C31. The mode that a new file's descriptor is made for is not the one it is read back
    with, when the owner and the group are users in the sense of Windows whose last
    sub-authority is neither 0 nor 1.  The SIDs of the ACEs are written over by the ACEs
    behind them, so that the ACEs of the owner and of the group are not recognised, and only
    the rights of the others count.  If the owner and the group differ, the owner is taken
    to have all rights and the group those of the others, whatever the mode; if they are
    the same, all three have the rights of the others. *)
Theorem mode_read_back fresh newattr mode isdir a b c r a' b' c' r' ku kg :
  let u := user_sid a b c r in let g := user_sid a' b' c' r' in
  u32_ok r -> u32_ok r' -> ~ (r = 0 \/ r = 1) -> ~ (r' = 0 \/ r' = 1) ->
  fresh (descr_room mode isdir u g) = Some newattr -> zlen newattr = descr_room mode isdir u g ->
  exists d, ntfs_build_descr fresh mode isdir (u ++ ku) (g ++ kg) = Ret d /\
    ntfs_build_permissions d (u ++ ku) (g ++ kg) isdir = Ret (if decide (u = g) then 73 * Z.land mode 7 else Z.lor 0x1c0 (9 * Z.land mode 7)).
Proof.
  intros u g Hr Hr' H1 H2 Hf Hz. assert (is_sid u) as Hu by apply user_sid_is. assert (is_sid g) as Hg by apply user_sid_is.
  destruct (build_descr_ok fresh newattr mode isdir u g ku kg Hu Hg Hf Hz) as (rest & E). exists (descr_of mode isdir u g ++ rest). split; [done|].
  unfold ntfs_build_permissions. rewrite adminowns_ok by done. cbn [obind]. fold (admin_owns u g). assert (admin_owns u g = false) as -> by reflexivity.
  rewrite same_sid_ok by done. unfold o_and. cbn [negb obind]. destruct (decide (u = g)) as [Eug|Hne].
  - rewrite bool_decide_true by done. unfold build_owngrp_permissions.
    destruct (loop_mode (owngrp_ace (u ++ ku)) (fun t f m s st => owngrp_of t f m s u st) mode isdir a b c r a' b' c' r' rest (false, false, no_grants)) as (n & off & Ed & El); try done.
    + intros. by eapply owngrp_ace_ok.
    + intros. by eapply owngrp_of_neutral.
    + fold u g in Ed, El. rewrite Ed. cbn [obind]. rewrite El. unfold owngrp_of. assert (has (inheritance isdir) INHERIT_ONLY_ACE = false) as -> by (by destruct isdir).
      rewrite !bool_decide_false by (done || by apply user_other). cbn [orb andb obind]. f_equal. apply merged_group.
  - rewrite bool_decide_false by done. unfold build_std_permissions.
    destruct (loop_mode (std_ace (u ++ ku) (g ++ kg)) (fun t f m s st => std_of t f m s u g st) mode isdir a b c r a' b' c' r' rest (true, no_grants)) as (n & off & Ed & El); try done.
    + intros. by eapply std_ace_ok.
    + intros. by apply std_of_neutral.
    + fold u g in Ed, El. rewrite Ed. cbn [obind]. rewrite El. unfold std_of. assert (has (inheritance isdir) INHERIT_ONLY_ACE = false) as -> by (by destruct isdir).
      rewrite !bool_decide_false by (done || by apply user_other). cbn [orb andb obind]. f_equal. apply merged_mode.
Qed.

Lemma mode_read_back_witness :
  exists d, ntfs_build_descr some_memory 0 false (some_owner ++ []) (some_group ++ []) = Ret d /\
    ntfs_build_permissions d (some_owner ++ []) (some_group ++ []) false =
      Ret (if decide (some_owner = some_group) then 73 * Z.land 0 7 else Z.lor 0x1c0 (9 * Z.land 0 7)).
Proof.
  apply (mode_read_back some_memory (replicate (Z.to_nat (descr_room 0 false some_owner some_group)) 165) 0 false 1 2 3 1004 1 2 3 1005 [] []).
  - done.
  - done.
  - lia.
  - lia.
  - reflexivity.
  - reflexivity.
Defined.

(** The same user as the owner and the group: of the mode 0755 the owner may not write. *)
Example same_owner_group :
  (let! d := ntfs_build_descr some_memory 0x1ed false some_owner some_owner in ntfs_build_permissions d some_owner some_owner false) = Ret 0x16d.
Proof. vm_compute. reflexivity. Qed.

(** The owner that Windows is to see is one of the SIDs that were written over: it ends
    in 0, and [ntfs_acl_owner] gives nobody that the descriptor was made for. *)
Example owner_read_back :
  let d := descr_of 0 false some_owner some_group in ntfs_acl_owner d = Ret 40 /\ sub d 40 28 = user_sid 1 2 3 0.
Proof. split; vm_compute; reflexivity. Qed.
