(* ===== verification/AclInherit.v ===== *)
(** * The inheritance of ACLs (acls.c, security.c)

    The ACL of a new file or directory is made from the inheritable ACEs of its parent.
    [ntfs_inherit_acl] does not know how many bytes it may write: the theorem says how
    many are enough, and an example that what its caller, [build_inherited_id] of
    security.c, allocates may not be. *)
From S2P Require Import Prelude Libc Fields Cond Sid SidProofs Acl AclBuild AclValid AclRead.

(** layout.h:1625-1625 ACCESS_MASK *)
Definition GENERIC_ALL : Z := 0x10000000.
(** layout.h:1478-1478 ACE_FLAGS *)
Definition INHERITED_ACE : Z := 0x10.

(** acls.c:732-749 ntfs_inherit_acl. The rights that stand for GENERIC_ALL. *)
Definition reencode_all (fordir : bool) (mask : Z) : Z :=
  if has mask GENERIC_ALL then
    Z.lor (Z.ldiff mask GENERIC_ALL)
      (if fordir then ors [OWNER_RIGHTS; READ true; WRITE true; EXEC true] else ors [OWNER_RIGHTS; READ false; WRITE false; EXEC false; 0x40])
  else mask.
(** acls.c:751-766 ntfs_inherit_acl. The rights that stand for GENERIC_READ. *)
Definition reencode_read (fordir : bool) (mask : Z) : Z :=
  if has mask GENERIC_READ then
    Z.ldiff (Z.lor mask (ors [OWNER_RIGHTS; READ fordir; EXEC fordir]))
      (ors [GENERIC_READ; GENERIC_EXECUTE; WRITE_DAC; WRITE_OWNER; DELETE; FILE_WRITE_EA; FILE_WRITE_ATTRIBUTES])
  else mask.
(** acls.c:768-779 ntfs_inherit_acl. The rights that stand for GENERIC_WRITE. *)
Definition reencode_write (fordir : bool) (mask : Z) : Z :=
  if has mask GENERIC_WRITE then
    Z.ldiff (Z.lor mask (ors [OWNER_RIGHTS; WRITE fordir])) (ors [GENERIC_WRITE; WRITE_DAC; WRITE_OWNER; FILE_DELETE_CHILD])
  else mask.

(** acls.c:731-779 ntfs_inherit_acl *)
Definition reencode (fordir : bool) (mask : Z) : Z := reencode_write fordir (reencode_read fordir (reencode_all fordir mask)).

(** The mask and the flags of the ACE at [p]. *)
Definition on_mask (f : Z -> Z) (m : bytes) (p : Z) : outcome bytes := let! v := ace_mask (at_ptr m p) in put 4 m (p + 8) (f v).
Definition on_flags (f : Z -> Z) (m : bytes) (p : Z) : outcome bytes := let! v := ace_flags (at_ptr m p) in put 2 m (p + 4) (f v).

(** acls.c:781-783 ntfs_inherit_acl. Remove the inheritance flags. *)
Definition uninheritable (flags : Z) : Z := Z.ldiff flags (ors [OBJECT_INHERIT_ACE; CONTAINER_INHERIT_ACE; INHERIT_ONLY_ACE]).
(** acls.c:802-803 ntfs_inherit_acl *)
Definition mark (inherited : bool) (m : bytes) (p : Z) : outcome bytes := if inherited then on_flags (fun f => Z.lor f INHERITED_ACE) m p else Ret m.

(** acls.c:689-702 ntfs_inherit_acl. The new ACL, where the next ACE goes, the number of
    ACEs and [pauthace]. *)
Record inheriting := INH { i_acl : bytes; i_dst : Z; i_cnt : Z; i_auth : option Z }.

Section inherit.
Context (usid gsid : bytes) (usidsz gsidsz : Z) (fordir inherited : bool).

(** acls.c:728-806 ntfs_inherit_acl. The ACE for access. *)
Definition inherit_access (pace : bytes) (acesz : Z) (st : inheriting) : outcome inheriting :=
  let p := i_dst st in
  let! m := memcpy (i_acl st) p pace 0 acesz in
  let! m := on_mask (reencode fordir) m p in
  let! m := on_flags uninheritable m p in
  let! auth := Ret (negb fordir) &&! (let! t := ace_type pace in Ret (t =? ACCESS_ALLOWED_ACE_TYPE)) &&! ntfs_same_sid (ace_sid pace) authsid in
  match auth, i_auth st with
  | true, Some q =>
    let! flags := ace_flags (at_ptr m p) in
    let! m := on_flags (fun f => Z.lor f flags) m q in
    let! mask := ace_mask (at_ptr m p) in
    let! m := on_mask (fun v => Z.lor v mask) m q in
    Ret (INH m p (i_cnt st) (Some q))
  | _, _ =>
    let! m := mark inherited m p in
    Ret (INH m (p + acesz) (i_cnt st + 1) (if auth then Some p else i_auth st))
  end.

(** acls.c:823-834 ntfs_inherit_acl. Put a SID in the place of the creator's, if [p] has
    that of the creator; [dst] and [newcnt] go forward. *)
Definition replace_creator (creator sid : bytes) (sidsz p : Z) (st : inheriting) : outcome inheriting :=
  let! same := ntfs_same_sid (ace_sid (at_ptr (i_acl st) p)) creator in
  if negb same then Ret st else
  let! m := memcpy (i_acl st) (p + 12) sid 0 sidsz in
  let! m := put 2 m (p + 6) (u16 (sidsz + 8)) in
  let! m := on_flags uninheritable m p in
  let! m := mark inherited m p in
  Ret (INH m (i_dst st + (sidsz + 8)) (i_cnt st + 1) (i_auth st)).

(** acls.c:815-846 ntfs_inherit_acl. The ACE for the creator. *)
Definition inherit_creator (pace : bytes) (acesz : Z) (st : inheriting) : outcome inheriting :=
  let p := i_dst st in
  let! m := memcpy (i_acl st) p pace 0 acesz in
  let! st := replace_creator ownersid usid usidsz p (INH m p (i_cnt st) (i_auth st)) in
  replace_creator groupsid gsid gsidsz p st.

(** acls.c:853-859 ntfs_inherit_acl. The ACE for further inheritance. *)
Definition inherit_further (pace : bytes) (acesz : Z) (st : inheriting) : outcome inheriting :=
  let p := i_dst st in
  let! m := memcpy (i_acl st) p pace 0 acesz in
  let! m := mark inherited m p in
  Ret (INH m (p + acesz) (i_cnt st + 1) (i_auth st)).

(** acls.c:717-860 ntfs_inherit_acl. The body of the loop. *)
Definition inherit_ace (pace : bytes) (st : inheriting) : outcome inheriting :=
  let selection := if fordir then CONTAINER_INHERIT_ACE else OBJECT_INHERIT_ACE in
  let! acesz := ace_size pace in
  let! access := flags_has pace selection &&! Ret (negb (fordir && inherited)) &&!
                 o_not (ntfs_same_sid (ace_sid pace) ownersid) &&! o_not (ntfs_same_sid (ace_sid pace) groupsid) in
  let! st := if access then inherit_access pace acesz st else Ret st in
  let! creator := Ret fordir ||! Ret (negb inherited) ||! flags_has pace (Z.lor CONTAINER_INHERIT_ACE OBJECT_INHERIT_ACE) in
  let! st := if creator then inherit_creator pace acesz st else Ret st in
  let! further := Ret fordir &&! flags_has pace (Z.lor CONTAINER_INHERIT_ACE OBJECT_INHERIT_ACE) in
  if further then inherit_further pace acesz st else Ret st.

End inherit.

(** acls.c:685-871 ntfs_inherit_acl. The new ACL and its size, 0 when nothing is
    inherited. *)
Definition ntfs_inherit_acl (oldacl newacl usid gsid : bytes) (fordir inherited : bool) : outcome (bytes * Z) :=
  let! usidsz := ntfs_sid_size usid in
  let! gsidsz := ntfs_sid_size gsid in
  let! m := put 1 newacl 0 ACL_REVISION in
  let! m := put 1 m 1 0 in
  let! m := put 2 m 6 0 in
  let! oldcnt := acl_ace_count oldacl in
  let! st := ace_loop (inherit_ace usid gsid usidsz gsidsz fordir inherited) (Z.to_nat oldcnt) oldacl sizeof_ACL (INH m sizeof_ACL 0 None) in
  if sizeof_ACL <? i_dst st then
    let! m := put 2 (i_acl st) 4 (u16 (i_cnt st)) in
    let! m := put 2 m 2 (u16 (i_dst st)) in
    Ret (m, i_dst st)
  else Ret (i_acl st, 0).

(** ** The descriptor of a new file or directory *)
(** layout.h:1814-1814 SECURITY_DESCRIPTOR_CONTROL *)
Definition SE_DACL_AUTO_INHERITED : Z := 0x0400.
(** layout.h:1815-1815 SECURITY_DESCRIPTOR_CONTROL *)
Definition SE_SACL_AUTO_INHERITED : Z := 0x0800.

(** security.c:3800-3818 build_inherited_id. The owner and the group; there is no user
    mapping when [users] is empty. *)
Definition inherited_sids (users groups : list mapping_item) (uid gid : Z) (parentattr : bytes) : outcome (bytes * bytes) :=
  match users with
  | _ :: _ =>
    let! usid := ntfs_find_usid users uid in
    let! gsid := ntfs_find_gsid groups gid in
    Ret (default adminsid usid, default adminsid gsid)
  | [] =>
    let! offowner := sd_owner parentattr in
    let! offgroup := sd_group parentattr in
    Ret (at_ptr parentattr (s32 offowner), at_ptr parentattr (s32 offgroup))
  end.

(** security.c:3829-3831 build_inherited_id. The bytes allocated. *)
Definition inherited_size (fordir : bool) (parentattrsz usidsz gsidsz : Z) : Z :=
  let newattrsz := parentattrsz + 3 * usidsz + 3 * gsidsz in
  if fordir then newattrsz * 2 else newattrsz.

(** security.c:3845-3858 build_inherited_id. Inherit the ACL whose offset is at [field];
    also security.c:3862-3874. *)
Definition inherit_part (parentattr usid gsid : bytes) (fordir : bool) (field auto present : Z) (newattr : bytes) (pos : Z) : outcome (bytes * Z) :=
  let! m := put 4 newattr field 0 in
  let! off := rd_le 4 parentattr field in
  if off =? 0 then Ret (m, pos) else
  let! control := sd_control parentattr in
  let! (acl, aclsz) := ntfs_inherit_acl (at_ptr parentattr (s32 off)) (at_ptr m pos) usid gsid fordir (has control auto) in
  let m := take (Z.to_nat pos) m ++ acl in
  if aclsz =? 0 then Ret (m, pos) else
  let! m := put 4 m field pos in
  let! control := sd_control m in
  let! m := put 2 m 2 (Z.lor control present) in
  Ret (m, pos + aclsz).

(** security.c:3879-3881 build_inherited_id. Copy a SID and go behind it; also
    security.c:3885-3887. *)
Definition put_sid (sid : bytes) (sidsz field : Z) (newattr : bytes) (pos : Z) : outcome (bytes * Z) :=
  let! m := memcpy newattr pos sid 0 sidsz in
  let! m := put 4 m field pos in
  Ret (m, pos + sidsz).

(** security.c:3775-3893 build_inherited_id. The descriptor that [setsecurityattr] gets,
    [None] without memory; [fresh] is the allocated memory. *)
Definition build_inherited (fresh : Z -> option bytes) (users groups : list mapping_item) (uid gid : Z) (parentattr : bytes) (fordir : bool) : outcome (option bytes) :=
  let! parentattrsz := ntfs_attr_size parentattr in
  let! (usid, gsid) := inherited_sids users groups uid gid parentattr in
  let! usidsz := ntfs_sid_size usid in
  let! gsidsz := ntfs_sid_size gsid in
  match fresh (inherited_size fordir parentattrsz usidsz gsidsz) with
  | None => Ret None
  | Some m =>
    let! m := put 1 m 0 1 in
    let! m := put 1 m 1 0 in
    let! control := sd_control parentattr in
    let! m := put 2 m 2 (Z.lor (Z.land control (Z.lor SE_DACL_AUTO_INHERITED SE_SACL_AUTO_INHERITED)) SE_SELF_RELATIVE) in
    let! (m, pos) := inherit_part parentattr usid gsid fordir 16 SE_DACL_AUTO_INHERITED SE_DACL_PRESENT m sizeof_SD in
    let! (m, pos) := inherit_part parentattr usid gsid fordir 12 SE_SACL_AUTO_INHERITED SE_SACL_PRESENT m pos in
    let! (m, pos) := put_sid usid usidsz 4 m pos in
    let! (m, pos) := put_sid gsid gsidsz 8 m pos in
    Ret (Some (take (Z.to_nat pos) m))
  end.

(** ** The memory that is written *)
(** A change of the new ACL inside of it and before [e]. *)
Definition kept (e : Z) (m : bytes) (o : outcome bytes) : Prop :=
  exists m', o = Ret m' /\ zlen m' = zlen m /\ Forall byte_ok m' /\ forall i, e <= i -> rd m' i = rd m i.

Lemma kept_ret e m : Forall byte_ok m -> kept e m (Ret m).
Proof. by exists m. Qed.

Lemma kept_put e n m i v : Forall byte_ok m -> 0 <= i -> i + Z.of_nat n <= e -> e <= zlen m -> kept e m (put n m i v).
Proof.
  intros Hb Hi He Hn. pose proof (zlen_le_bytes n v) as Hz. unfold put. rewrite wrn_ok by lia. eexists. split; [done|]. split; [by rewrite zlen_splice by lia|].
  split; [apply byte_ok_splice; [done|apply byte_ok_le_bytes]|]. intros j Hj. apply rd_splice_other; lia.
Qed.

Lemma kept_bind e m o f : kept e m o -> (forall m', zlen m' = zlen m -> Forall byte_ok m' -> kept e m' (f m')) -> kept e m (let! m' := o in f m').
Proof.
  intros (m1 & -> & Hz & Hb & Hr) Hf. cbn [obind]. destruct (Hf m1 Hz Hb) as (m2 & E & Hz2 & Hb2 & Hr2). exists m2. split; [done|]. split; [congruence|]. split; [done|].
  intros i Hi. by rewrite Hr2, Hr.
Qed.

Lemma rd_le_at_ptr n m p i : 0 <= p -> 0 <= i -> rd_le n (at_ptr m p) i = rd_le n m (p + i).
Proof.
  intros Hp Hi. apply rd_le_eq. intros k Hk. unfold at_ptr, rd. destruct (Z.ltb_spec p 0); [lia|]. destruct (Z.ltb_spec (i + k) 0), (Z.ltb_spec (p + i + k) 0); try lia.
  rewrite lookup_drop. by replace (Z.to_nat p + Z.to_nat (i + k))%nat with (Z.to_nat (p + i + k)) by lia.
Qed.

Lemma tot_field n m p i : Forall byte_ok m -> 0 <= p -> 0 <= i -> p + i + Z.of_nat n <= zlen m -> exists v, rd_le n (at_ptr m p) i = Ret v.
Proof. intros Hb Hp Hi Hm. rewrite rd_le_at_ptr by lia. destruct (rd_le_range n m (p + i)) as (v & -> & _); [done|lia|lia|]. by exists v. Qed.

Lemma kept_on_mask f m p : Forall byte_ok m -> 0 <= p -> p + 12 <= zlen m -> kept (p + 12) m (on_mask f m p).
Proof. intros Hb Hp Hm. unfold on_mask, ace_mask. destruct (tot_field 4 m p 8) as [v ->]; [done|lia..|]. cbn [obind]. apply kept_put; [done|lia..]. Qed.

Lemma kept_on_flags f m p : Forall byte_ok m -> 0 <= p -> p + 12 <= zlen m -> kept (p + 12) m (on_flags f m p).
Proof. intros Hb Hp Hm. unfold on_flags, ace_flags. destruct (tot_field 2 m p 4) as [v ->]; [done|lia..|]. cbn [obind]. apply kept_put; [done|lia..]. Qed.

Lemma kept_mark inh m p : Forall byte_ok m -> 0 <= p -> p + 12 <= zlen m -> kept (p + 12) m (mark inh m p).
Proof. intros Hb Hp Hm. destruct inh; [by apply kept_on_flags|by apply kept_ret]. Qed.

(** An ACE, or a SID, is copied to [i]. *)
Lemma copied m i src n : Forall byte_ok m -> Forall byte_ok src -> 0 <= i -> 0 <= n <= zlen src -> i + n <= zlen m ->
  exists m', memcpy m i src 0 n = Ret m' /\ zlen m' = zlen m /\ Forall byte_ok m' /\ forall j, i <= j < i + n -> rd m' j = rd src (j - i).
Proof.
  intros Hb Hs Hi Hn Hm. rewrite memcpy_spec by lia. assert (zlen (sub src 0 n) = n) as Hz by (apply zlen_sub; lia). eexists. split; [done|].
  split; [by rewrite zlen_splice by lia|]. split; [apply byte_ok_splice; [done|by apply Forall_take, Forall_drop]|].
  intros j Hj. rewrite rd_splice by lia. rewrite Hz. destruct (Z.leb_spec i j), (Z.ltb_spec j (i + n)); try lia. cbn [andb].
  rewrite rd_sub by lia. destruct (Z.ltb_spec (j - i) n); [|lia]. done.
Qed.

(** The bytes at [q] are a SID when they are as many as its count says. *)
Lemma sid_at m q c : Forall byte_ok m -> 0 <= q -> rd m (q + 1) = Ret c -> q + 8 + 4 * c <= zlen m -> exists s k, at_ptr m q = s ++ k /\ is_sid s.
Proof.
  intros Hb Hq Hc Hz. assert (0 <= c) by (apply rd_lookup in Hc as [_ Hc]; exact (proj1 (Forall_lookup_1 _ _ _ _ Hb Hc))). exists (sub m q (8 + 4 * c)), (at_ptr m (q + (8 + 4 * c))). split; [apply at_ptr_split; lia|].
  split; [by apply Forall_take, Forall_drop|]. exists c. rewrite rd_sub, zlen_sub by lia. destruct (Z.ltb_spec 1 (8 + 4 * c)); [|lia]. split; [done|lia].
Qed.

Lemma more_sids : is_sid authsid /\ is_sid groupsid.
Proof. split; (split; [repeat (constructor; [by unfold byte_ok|]); constructor|by exists 1]). Qed.

(** ** One ACE *)
(** The state of the loop: the new ACL has [n] bytes, and what was written of it ends at
    [i_dst]. *)
Record inh_ok (n : Z) (st : inheriting) : Prop := {
  io_bytes : Forall byte_ok (i_acl st);
  io_len : zlen (i_acl st) = n;
  io_dst : 0 <= i_dst st;
  io_auth : forall q, i_auth st = Some q -> 0 <= q /\ q + 12 <= i_dst st;
}.

(** At most [d] bytes are written. *)
Definition goes (n d : Z) (st : inheriting) (o : outcome inheriting) : Prop :=
  exists st', o = Ret st' /\ inh_ok n st' /\ i_dst st <= i_dst st' <= i_dst st + d.

Lemma goes_ret n d st : inh_ok n st -> 0 <= d -> goes n d st (Ret st).
Proof. intros H Hd. exists st. split; [done|]. split; [done|lia]. Qed.

Lemma goes_bind n d1 d2 st o f : goes n d1 st o -> (forall st', inh_ok n st' -> i_dst st <= i_dst st' <= i_dst st + d1 -> goes n d2 st' (f st')) -> goes n (d1 + d2) st (let! st' := o in f st').
Proof.
  intros (s1 & -> & H1 & Hd1) Hf. cbn [obind]. destruct (Hf s1 H1 Hd1) as (s2 & E & H2 & Hd2). exists s2. split; [done|]. split; [done|lia].
Qed.

(** An operation on the new ACL, and a state made of its result. *)
Lemma goes_kept n d e st m o f : kept e m o -> zlen m = n -> (forall m', zlen m' = n -> Forall byte_ok m' -> (forall i, e <= i -> rd m' i = rd m i) -> goes n d st (f m')) -> goes n d st (let! m' := o in f m').
Proof. intros (m1 & -> & Hz & Hb & Hr) Hm Hf. cbn [obind]. apply Hf; [congruence|done|done]. Qed.

Section one.
Context (pace : bytes) (t f sz mk : Z) (s : bytes) (H : ace_at pace t f sz mk s).
Context (Hsz : zlen s = sz - 8) (Hpz : sz + 4 <= zlen pace) (Hpb : Forall byte_ok pace) (inherited : bool).

Lemma goes_copy n d st k :
  inh_ok n st -> i_dst st + sz <= n ->
  (forall m, zlen m = n -> Forall byte_ok m -> (forall j, 0 <= j < sz -> rd m (i_dst st + j) = rd pace j) -> goes n d st (k m)) ->
  goes n d st (let! m := memcpy (i_acl st) (i_dst st) pace 0 sz in k m).
Proof using H Hsz Hpz Hpb.
  intros [Hb Hn Hd _] Hm Hk. pose proof (at_auths _ _ _ _ _ _ H). destruct (copied (i_acl st) (i_dst st) pace sz) as (m & -> & Hz & Hbm & Hr); [done|done|lia..|]. cbn [obind].
  apply Hk; [congruence|done|]. intros j Hj. rewrite Hr by lia. f_equal. lia.
Qed.

Lemma inherit_further_ok n st : inh_ok n st -> i_dst st + sz <= n -> goes n sz st (inherit_further inherited pace sz st).
Proof using H Hsz Hpz Hpb.
  intros Hst Hm. pose proof (at_auths _ _ _ _ _ _ H). unfold inherit_further. apply goes_copy; [done..|]. intros m Hz Hb _.
  eapply goes_kept; [apply (kept_mark inherited); [done|apply Hst|lia]|done|]. intros m' Hz' Hb' _. eexists. split; [done|].
  destruct Hst as [_ _ Hd Ha]. split; [|cbn; lia]. constructor; cbn; try done; [lia|]. intros q Hq. specialize (Ha q Hq). lia.
Qed.

Lemma goes_on n d e st m p g k : zlen m = n -> Forall byte_ok m -> e = p + 12 -> kept (p + 12) m (g m p) ->
  (forall m', zlen m' = n -> Forall byte_ok m' -> (forall i, e <= i -> rd m' i = rd m i) -> goes n d st (k m')) -> goes n d st (let! m' := g m p in k m').
Proof using. intros Hz Hb -> Hk Hf. by eapply goes_kept. Qed.

Lemma inherit_access_ok fordir n st : inh_ok n st -> i_dst st + sz <= n -> goes n sz st (inherit_access fordir inherited pace sz st).
Proof using H Hsz Hpz Hpb.
  intros Hst Hm. pose proof (at_auths _ _ _ _ _ _ H). pose proof Hst as [_ _ Hd Ha]. unfold inherit_access. apply goes_copy; [done..|]. intros m Hz Hb _.
  eapply goes_kept; [apply kept_on_mask; [done|lia..]|done|]. intros m' Hz' Hb' _. clear m Hz Hb. rename m' into m, Hz' into Hz, Hb' into Hb.
  eapply goes_kept; [apply kept_on_flags; [done|lia..]|done|]. intros m' Hz' Hb' _. clear m Hz Hb. rename m' into m, Hz' into Hz, Hb' into Hb.
  rewrite (at_type _ _ _ _ _ _ H), (ace_same_const _ _ _ _ _ _ authsid H) by apply more_sids. unfold o_and. cbn [obind].
  assert (forall auth : bool, goes n sz st (let! m' := mark inherited m (i_dst st) in Ret (INH m' (i_dst st + sz) (i_cnt st + 1) (if auth then Some (i_dst st) else i_auth st)))) as Hnew.
  { intros auth. eapply goes_kept; [apply kept_mark; [done|lia..]|done|]. intros m' Hz' Hb' _. eexists. split; [done|]. split; [|cbn; lia].
    constructor; cbn; try done; [lia|]. intros q. destruct auth; [intros [= <-]; lia|]. intros Hq. specialize (Ha q Hq). lia. }
  assert (forall b : bool, goes n sz st (match b, i_auth st with
    | true, Some q => let! flags := ace_flags (at_ptr m (i_dst st)) in let! m0 := on_flags (fun f => Z.lor f flags) m q in let! mask := ace_mask (at_ptr m0 (i_dst st)) in
        let! m1 := on_mask (fun v => Z.lor v mask) m0 q in Ret (INH m1 (i_dst st) (i_cnt st) (Some q))
    | _, _ => let! m0 := mark inherited m (i_dst st) in Ret (INH m0 (i_dst st + sz) (i_cnt st + 1) (if b then Some (i_dst st) else i_auth st)) end)) as Hboth.
  { intros [|]; [|apply (Hnew false)]. destruct (i_auth st) as [q|] eqn:Eq; [|apply (Hnew true)]. specialize (Ha q eq_refl).
    unfold ace_flags, ace_mask. destruct (tot_field 2 m (i_dst st) 4) as [v ->]; [done|lia..|]. cbn [obind].
    eapply goes_kept; [apply kept_on_flags; [done|lia..]|done|]. intros m0 Hz0 Hb0 _. destruct (tot_field 4 m0 (i_dst st) 8) as [v0 ->]; [done|lia..|]. cbn [obind].
    eapply goes_kept; [apply kept_on_mask; [done|lia..]|done|]. intros m1 Hz1 Hb1 _. eexists. split; [done|]. split; [|cbn; lia].
    constructor; cbn; try done. intros q' [= <-]. lia. }
  destruct (negb fordir), (t =? ACCESS_ALLOWED_ACE_TYPE), (bool_decide (s = authsid)); cbn [obind]; first [apply (Hboth true)|apply (Hboth false)].
Qed.

Lemma replace_creator_ok n m0 st creator u ku p c :
  is_sid creator -> is_sid u -> Forall byte_ok ku -> inh_ok n st -> m0 = i_acl st -> 0 <= p -> rd m0 (p + 13) = Ret c -> p + 20 + 4 * c <= n ->
  p + 12 + zlen u <= n -> p <= i_dst st ->
  exists st' c', replace_creator inherited creator (u ++ ku) (zlen u) p st = Ret st' /\ inh_ok n st' /\
    i_dst st <= i_dst st' <= i_dst st + (zlen u + 8) /\ rd (i_acl st') (p + 13) = Ret c' /\ p + 20 + 4 * c' <= n.
Proof using.
  intros Hcr Hu Hku Hst -> Hp Hc Hcn Hun Hpd. pose proof Hst as [Hb Hn Hd Ha]. unfold replace_creator, ace_sid. rewrite at_ptr_twice by lia.
  destruct (sid_at (i_acl st) (p + 12) c) as (s1 & k1 & E & Hs1); [done|lia|by rewrite <- Z.add_assoc|lia|]. rewrite E.
  pose proof (same_sid_ok s1 creator k1 [] Hs1 Hcr) as Es. rewrite app_nil_r in Es. rewrite Es. cbn [obind]. pose proof (zlen_nonneg u).
  destruct (bool_decide _); cbn [negb]; [|exists st, c; split_and!; (done || lia)].
  destruct (copied (i_acl st) (p + 12) (u ++ ku) (zlen u)) as (m & -> & Hz & Hbm & Hr); [done|by apply Forall_app; destruct Hu|lia|rewrite zlen_app; pose proof (zlen_nonneg ku); lia|lia|]. cbn [obind].
  destruct Hu as (Hub & cu & Hcu & Hzu).
  destruct (kept_put (p + 12) 2 m (p + 6) (u16 (zlen u + 8))) as (m1 & -> & Hz1 & Hb1 & Hr1); [done|lia..|]. cbn [obind].
  destruct (kept_on_flags uninheritable m1 p) as (m2 & -> & Hz2 & Hb2 & Hr2); [done|lia..|]. cbn [obind].
  destruct (kept_mark inherited m2 p) as (m3 & -> & Hz3 & Hb3 & Hr3); [done|lia..|]. cbn [obind].
  assert (8 <= zlen u) as H8.
  { apply rd_lookup in Hcu as [_ Hcu]. pose proof (proj1 (Forall_lookup_1 _ _ _ _ Hub Hcu)). lia. }
  eexists _, cu. split; [done|]. split.
  - constructor; cbn; try done; [lia|lia|]. intros q Hq. specialize (Ha q Hq). lia.
  - cbn. split; [lia|]. split; [|lia]. rewrite Hr3, Hr2, Hr1, Hr by lia. rewrite <- Hcu. replace (p + 13 - (p + 12)) with 1 by lia. apply rd_app_l. lia.
Qed.
End one.

Section sids.
Context (u g ku kg : bytes) (fordir inherited : bool).
Context (Hu : is_sid u) (Hg : is_sid g) (Hku : Forall byte_ok ku) (Hkg : Forall byte_ok kg).

(** What an ACE may add, besides twice its size. *)
Definition growth : Z := zlen u + zlen g + 16.

Lemma inherit_creator_ok pace t f sz mk s n st :
  ace_at pace t f sz mk s -> zlen s = sz - 8 -> sz + 4 <= zlen pace -> Forall byte_ok pace -> inh_ok n st -> i_dst st + sz + growth <= n ->
  goes n growth st (inherit_creator (u ++ ku) (g ++ kg) (zlen u) (zlen g) inherited pace sz st).
Proof using Hu Hg Hku Hkg.
  intros H Hsz Hpz Hpb Hst Hm. pose proof (at_auths _ _ _ _ _ _ H). pose proof Hst as [_ _ Hd Ha]. destruct (at_sid _ _ _ _ _ _ H) as [k Hk].
  pose proof (zlen_nonneg u). pose proof (zlen_nonneg g). unfold growth in *. unfold inherit_creator.
  eapply goes_copy; [done..|lia|]. intros m Hz Hb Hr. destruct (at_is _ _ _ _ _ _ H) as (_ & c & Hc & Hzc).
  assert (rd m (i_dst st + 13) = Ret c) as Hcm.
  { rewrite Hr by lia. rewrite <- Hc, <- (rd_app_l s k), <- Hk by lia. unfold ace_sid, at_ptr. cbn [Z.ltb]. unfold rd. cbn. by rewrite lookup_drop. }
  destruct (replace_creator_ok inherited n m (INH m (i_dst st) (i_cnt st) (i_auth st)) ownersid u ku (i_dst st) c) as (st1 & c1 & -> & Hst1 & Hd1 & Hc1 & Hn1); try done; try (cbn; lia); [apply const_sids|].
  cbn [obind i_dst] in *.
  destruct (replace_creator_ok inherited n (i_acl st1) st1 groupsid g kg (i_dst st) c1) as (st2 & c2 & -> & Hst2 & Hd2 & _); try done; try lia; [apply more_sids|].
  exists st2. split; [done|]. split; [done|]. lia.
Qed.

Lemma inherit_ace_ok pace t f sz mk s n st :
  ace_at pace t f sz mk s -> zlen s = sz - 8 -> sz + 4 <= zlen pace -> Forall byte_ok pace -> inh_ok n st -> i_dst st + (2 * sz + growth) <= n ->
  goes n (2 * sz + growth) st (inherit_ace (u ++ ku) (g ++ kg) (zlen u) (zlen g) fordir inherited pace st).
Proof using Hu Hg Hku Hkg.
  intros H Hsz Hpz Hpb Hst Hm. pose proof (at_auths _ _ _ _ _ _ H). assert (0 <= growth) by (unfold growth, zlen; lia).
  unfold inherit_ace. rewrite (at_size _ _ _ _ _ _ H), !(flags_has_ok _ _ _ _ _ _ H), (ace_same_const _ _ _ _ _ _ ownersid H), (ace_same_const _ _ _ _ _ _ groupsid H) by (apply const_sids || apply more_sids).
  unfold o_and, o_or, o_not. cbn [obind].
  assert (forall a b c, tot a -> tot b -> tot c -> goes n (2 * sz + growth) st
    (let! access := a in let! st := if access : bool then inherit_access fordir inherited pace sz st else Ret st in
     let! creator := b in let! st := if creator : bool then inherit_creator (u ++ ku) (g ++ kg) (zlen u) (zlen g) inherited pace sz st else Ret st in
     let! further := c in if further : bool then inherit_further inherited pace sz st else Ret st)) as Hall.
  { intros a b c [va ->] [vb ->] [vc ->]. cbn [obind]. replace (2 * sz + growth) with (sz + (growth + sz)) by lia.
    apply goes_bind; [destruct va; [eapply inherit_access_ok; try done; lia|apply goes_ret; [done|lia]]|]. intros st1 Hst1 Hd1.
    apply goes_bind; [destruct vb; [eapply inherit_creator_ok; try done; lia|by apply goes_ret]|]. intros st2 Hst2 Hd2.
    destruct vc; [eapply inherit_further_ok; try done; lia|apply goes_ret; [done|lia]]. }
  apply Hall; destruct fordir, inherited; cbn; repeat (apply tot_if || apply tot_ret); by eexists.
Qed.
End sids.

Section all.
Context (u g ku kg : bytes) (fordir inherited : bool).
Context (Hu : is_sid u) (Hg : is_sid g) (Hku : Forall byte_ok ku) (Hkg : Forall byte_ok kg).

Lemma inherit_loop m slack n offace N st :
  Forall byte_ok (m ++ slack) -> 4 <= zlen slack -> 0 <= offace <= zlen m -> aces_in n m (zlen m) offace -> inh_ok N st ->
  i_dst st + (2 * (zlen m - offace) + Z.of_nat n * growth u g) <= N ->
  goes N (2 * (zlen m - offace) + Z.of_nat n * growth u g) st
    (ace_loop (inherit_ace (u ++ ku) (g ++ kg) (zlen u) (zlen g) fordir inherited) n (m ++ slack) offace st).
Proof using Hu Hg Hku Hkg.
  intros Hb Hsl Ho. revert offace st Ho. induction n as [|n IH]; intros offace st Ho Hin Hst HN; cbn [ace_loop]; [apply goes_ret; [done|lia]|].
  destruct Hin as (H24 & sz & Esz & Hsz12 & Hsz & Ev & Es & Hin).
  destruct (ace_inside m slack 0 offace sz (zlen m)) as (t & f & mk & s & Ha & Hzs & Hzp); [done|done|done|lia|lia|done|done|done|done..|]. change (0 + offace) with offace in *.
  replace (2 * (zlen m - offace) + Z.of_nat (S n) * growth u g) with ((2 * sz + growth u g) + (2 * (zlen m - (offace + sz)) + Z.of_nat n * growth u g)) in * by lia.
  assert (0 <= growth u g) by (unfold growth, zlen; lia).
  apply goes_bind; [eapply inherit_ace_ok; try done; [by apply byte_ok_at_ptr|nia]|]. intros st1 Hst1 Hd1. rewrite (at_size _ _ _ _ _ _ Ha). cbn [obind].
  apply IH; [lia|done|done|lia].
Qed.
End all.

(** C34. For an ACL that the checks accepted, [ntfs_inherit_acl] writes nothing outside of
    the new ACL, whichever it inherits, when it has room for twice the ACEs of the old one and,
    for each of them, for an ACE of the owner and one of the group; the size it returns
    is at most that. *)
Theorem inherit_acl_fits m slack c u g ku kg newacl fordir inherited :
  Forall byte_ok (m ++ slack) -> 8 <= zlen m < 2 ^ 31 -> 4 <= zlen slack -> acl_ace_count m = Ret c -> valid_aces (Z.to_nat c) m (zlen m) sizeof_ACL = Ret true ->
  is_sid u -> is_sid g -> Forall byte_ok ku -> Forall byte_ok kg -> Forall byte_ok newacl ->
  8 + 2 * (zlen m - 8) + c * (zlen u + zlen g + 16) <= zlen newacl ->
  exists m' dst, ntfs_inherit_acl (m ++ slack) newacl (u ++ ku) (g ++ kg) fordir inherited = Ret (m', dst) /\
    zlen m' = zlen newacl /\ 0 <= dst <= 8 + 2 * (zlen m - 8) + c * (zlen u + zlen g + 16).
Proof.
  intros Hb Hm Hsl Hc Hv Hu Hg Hku Hkg Hnb Hfit. destruct (valid_aces_total (Z.to_nat c) m (zlen m) 8) as (b & Eb & Hin); [by apply Forall_app in Hb as [Hb _]|lia|lia|lia|].
  change sizeof_ACL with 8 in Hv. rewrite Hv in Eb. injection Eb as <-. specialize (Hin eq_refl).
  assert (0 <= c) as Hc0.
  { unfold acl_ace_count in Hc. destruct (rd_le_range 2 m 4) as (v & Ev & Hv1); [by apply Forall_app in Hb as [Hb _]|lia|lia|]. rewrite Hc in Ev. injection Ev as ->. lia. }
  assert (8 <= zlen newacl) as H8 by (pose proof (zlen_nonneg u); pose proof (zlen_nonneg g); nia).
  unfold ntfs_inherit_acl. rewrite !sid_size_ok by done. cbn [obind].
  destruct (kept_put 8 1 newacl 0 ACL_REVISION) as (m1 & -> & Hz1 & Hb1 & _); [done|lia..|]. cbn [obind].
  destruct (kept_put 8 1 m1 1 0) as (m2 & -> & Hz2 & Hb2 & _); [done|lia..|]. cbn [obind].
  destruct (kept_put 8 2 m2 6 0) as (m3 & -> & Hz3 & Hb3 & _); [done|lia..|]. cbn [obind].
  assert (acl_ace_count (m ++ slack) = Ret c) as -> by (rewrite <- Hc; apply rd_le_app_l; lia). cbn [obind].
  destruct (inherit_loop u g ku kg fordir inherited Hu Hg Hku Hkg m slack (Z.to_nat c) 8 (zlen m3) (INH m3 8 0 None)) as (st & E & [Hbs Hzs Hds Has] & Hd); try done; [lia| |].
  { cbn [i_dst]. unfold growth. rewrite Z2Nat.id by done. lia. }
  cbn [i_dst] in Hd. unfold growth in Hd. rewrite Z2Nat.id in Hd by done. change sizeof_ACL with 8. rewrite E. cbn [obind].
  destruct (Z.ltb_spec 8 (i_dst st)); [|eexists _, _; split; [done|]; lia].
  destruct (kept_put 8 2 (i_acl st) 4 (u16 (i_cnt st))) as (m4 & -> & Hz4 & Hb4 & _); [done|lia..|]. cbn [obind].
  destruct (kept_put 8 2 m4 2 (u16 (i_dst st))) as (m5 & -> & Hz5 & Hb5 & _); [done|lia..|]. cbn [obind].
  eexists _, _. split; [done|]. split; [congruence|lia].
Qed.

(** An ACL of [n] ACEs of the creator, and the descriptor of a directory with it. *)
Definition creators (n : nat) : bytes :=
  [2; 0] ++ le_bytes 2 (12 + 20 * Z.of_nat n) ++ le_bytes 2 (Z.of_nat n) ++ [0; 0] ++ stored_all (repeat (ACE 0 11 GENERIC_ALL ownersid) n) ++ [0; 0; 0; 0].
Definition creators_descr (n : nat) : bytes :=
  let e := 32 + 20 * Z.of_nat n in sd_header e (e + 16) 0 20 ++ creators n ++ adminsid ++ adminsid.

Lemma inherit_acl_fits_witness :
  exists m' dst, ntfs_inherit_acl (creators 3 ++ [0; 0; 0; 0]) (repeat 170 400) (some_owner ++ []) (some_group ++ []) true true = Ret (m', dst) /\
    zlen m' = zlen (repeat 170 400) /\ 0 <= dst <= 8 + 2 * (zlen (creators 3) - 8) + 3 * (zlen some_owner + zlen some_group + 16).
Proof.
  apply (inherit_acl_fits (creators 3) [0; 0; 0; 0] 3 some_owner some_group [] [] (repeat 170 400) true true); try by apply bytes_checked.
  - vm_compute. split; [discriminate|reflexivity].
  - vm_compute. discriminate.
  - vm_compute. reflexivity.
  - vm_compute. reflexivity.
  - apply user_sid_is.
  - apply user_sid_is.
  - vm_compute. discriminate.
Defined.

(** What [build_inherited_id] allocates is enough for eight ACEs of the creator, and not
    for fourteen: the descriptor of the directory is accepted, and the new one is written
    behind the memory allocated for it. *)
Definition one_user : list mapping_item := [MAPPING 1000 some_owner].
Definition memory (n : Z) : option bytes := Some (repeat 0 (Z.to_nat n)).
Example creators_overflow :
  ntfs_valid_descr (creators_descr 14) (zlen (creators_descr 14)) = Ret true /\
  (exists d, build_inherited memory one_user one_user 1000 1000 (creators_descr 8) false = Ret (Some d)) /\
  build_inherited memory one_user one_user 1000 1000 (creators_descr 14) false = Fault.
Proof. split_and!; [vm_compute; reflexivity|eexists; vm_compute; reflexivity|vm_compute; reflexivity]. Qed.

(** The SID of an ACE ends four bytes behind the ACE, so that its end is not copied with
    it: whether it is found to be that of the creator depends on what the memory had. *)
Example creators_uninitialised :
  (exists m, ntfs_inherit_acl (creators 1) (repeat 0 100) some_owner some_group false false = Ret (m, 44)) /\
  (exists m, ntfs_inherit_acl (creators 1) (repeat 170 100) some_owner some_group false false = Ret (m, 0)).
Proof. split; eexists; vm_compute; reflexivity. Qed.
