(* ===== verification/Logfile.v ===== *)
(** * The journal (logfile.c)

    The checks of the two restart pages of $LogFile, which say whether the volume was
    shut down cleanly.  A page is the list of its bytes; the attribute is what
    [ntfs_attr_pread] gives for a position and a count.  [errno] is a value that the
    functions pass on, since the code returns it in places where nothing has set it. *)
From S2P Require Import Prelude Libc Mst Fields Cond.

(** ** Layout *)
(** layout.h:115-115 NTFS_RECORD_TYPES *)
Definition magic_RSTR : Z := 0x52545352.
(** layout.h:116-116 NTFS_RECORD_TYPES *)
Definition magic_RCRD : Z := 0x44524352.
(** layout.h:119-119 NTFS_RECORD_TYPES *)
Definition magic_CHKD : Z := 0x444b4843.
(** layout.h:130-132 NTFS_RECORD_TYPES *)
Definition magic_empty : Z := 0xffffffff.

(** logfile.h:65-98 RESTART_PAGE_HEADER *)
Definition sizeof_RPH : Z := 30.
(** logfile.h:68-68 RESTART_PAGE_HEADER *)
Definition rp_magic (rp : bytes) : outcome Z := rd_le 4 rp 0.
(** logfile.h:69-69 RESTART_PAGE_HEADER *)
Definition rp_usa_ofs (rp : bytes) : outcome Z := rd_le 2 rp 4.
(** logfile.h:73-73 RESTART_PAGE_HEADER *)
Definition rp_usa_count (rp : bytes) : outcome Z := rd_le 2 rp 6.
(** logfile.h:75-75 RESTART_PAGE_HEADER *)
Definition rp_chkdsk_lsn (rp : bytes) : outcome Z := let! v := rd_le 8 rp 8 in Ret (s64 v).
(** logfile.h:78-78 RESTART_PAGE_HEADER *)
Definition rp_system_page_size (rp : bytes) : outcome Z := rd_le 4 rp 16.
(** logfile.h:84-84 RESTART_PAGE_HEADER *)
Definition rp_log_page_size (rp : bytes) : outcome Z := rd_le 4 rp 20.
(** logfile.h:89-89 RESTART_PAGE_HEADER *)
Definition rp_restart_area_offset (rp : bytes) : outcome Z := rd_le 2 rp 24.
(** logfile.h:93-93 RESTART_PAGE_HEADER *)
Definition rp_minor_ver (rp : bytes) : outcome Z := rd_le 2 rp 26.
(** logfile.h:95-95 RESTART_PAGE_HEADER *)
Definition rp_major_ver (rp : bytes) : outcome Z := rd_le 2 rp 28.

(** logfile.h:130-130 RESTART_AREA. The area is at [ra] in the page. *)
Definition ra_current_lsn (rp : bytes) (ra : Z) : outcome Z := let! v := rd_le 8 rp ra in Ret (s64 v).
(** logfile.h:136-136 RESTART_AREA *)
Definition ra_log_clients (rp : bytes) (ra : Z) : outcome Z := rd_le 2 rp (ra + 8).
(** logfile.h:139-139 RESTART_AREA *)
Definition ra_client_free_list (rp : bytes) (ra : Z) : outcome Z := rd_le 2 rp (ra + 10).
(** logfile.h:155-155 RESTART_AREA *)
Definition ra_client_in_use_list (rp : bytes) (ra : Z) : outcome Z := rd_le 2 rp (ra + 12).
(** logfile.h:172-172 RESTART_AREA *)
Definition ra_flags (rp : bytes) (ra : Z) : outcome Z := rd_le 2 rp (ra + 14).
(** logfile.h:188-188 RESTART_AREA *)
Definition ra_seq_number_bits (rp : bytes) (ra : Z) : outcome Z := rd_le 4 rp (ra + 16).
(** logfile.h:194-194 RESTART_AREA *)
Definition ra_restart_area_length (rp : bytes) (ra : Z) : outcome Z := rd_le 2 rp (ra + 20).
(** logfile.h:202-202 RESTART_AREA *)
Definition ra_client_array_offset (rp : bytes) (ra : Z) : outcome Z := rd_le 2 rp (ra + 22).
(** logfile.h:224-224 RESTART_AREA *)
Definition ra_file_size (rp : bytes) (ra : Z) : outcome Z := rd_le 8 rp (ra + 24).
(** logfile.h:240-240 RESTART_AREA *)
Definition ra_log_record_header_length (rp : bytes) (ra : Z) : outcome Z := rd_le 2 rp (ra + 36).
(** logfile.h:248-248 RESTART_AREA *)
Definition ra_log_page_data_offset (rp : bytes) (ra : Z) : outcome Z := rd_le 2 rp (ra + 38).

(** logfile.h:270-303 LOG_CLIENT_RECORD. The record is at [cr] in the page. *)
Definition sizeof_LCR : Z := 160.
(** logfile.h:280-280 LOG_CLIENT_RECORD *)
Definition cr_prev_client (rp : bytes) (cr : Z) : outcome Z := rd_le 2 rp (cr + 16).
(** logfile.h:285-285 LOG_CLIENT_RECORD *)
Definition cr_next_client (rp : bytes) (cr : Z) : outcome Z := rd_le 2 rp (cr + 18).

(** logfile.h:107-107 LOGFILE_NO_CLIENT_CPU *)
Definition LOGFILE_NO_CLIENT : Z := 0xffff.
(** logfile.h:55-55 MaxLogFileSize *)
Definition MaxLogFileSize : Z := 0x100000000.
(** logfile.h:56-56 DefaultLogPageSize *)
Definition DefaultLogPageSize : Z := 4096.
(** logfile.h:57-57 MinLogRecordPages *)
Definition MinLogRecordPages : Z := 48.
(** logfile.h:114-114 RESTART_VOLUME_IS_CLEAN *)
Definition RESTART_VOLUME_IS_CLEAN : Z := 2.

(** [((x + 7) & ~7)] *)
Definition round8 (x : Z) : Z := Z.land (x + 7) (Z.lnot 7).
(** [x & (x - 1)] is not zero. *)
Definition not_pow2 (x : Z) : bool := negb (Z.land x (x - 1) =? 0).

(** ** The checks of a restart page *)
(** logfile.c:93-96 ntfs_check_restart_page_header. Neither version 1.1 nor 2.0. *)
Definition version_unknown (rp : bytes) : outcome bool :=
  ((let! v := rp_major_ver rp in Ret (negb (v =? 1))) ||! (let! v := rp_minor_ver rp in Ret (negb (v =? 1)))) &&!
  ((let! v := rp_major_ver rp in Ret (negb (v =? 2))) ||! (let! v := rp_minor_ver rp in Ret (negb (v =? 0)))).

Definition is_magic (rp : bytes) (magic : Z) : outcome bool := let! m := rp_magic rp in Ret (m =? magic).

(** logfile.c:104-138 ntfs_check_restart_page_header. The checks of the update sequence
    array: [None] when they fail, otherwise where the restart area may begin. *)
Definition usa_bound (rp : bytes) (logfile_system_page_size : Z) : outcome (option Z) :=
  let! no_usa := is_magic rp magic_CHKD &&! (let! c := rp_usa_count rp in Ret (c =? 0)) in
  if no_usa then Ret (Some sizeof_RPH) else
  let usa_count := u16 (1 + Z.shiftr logfile_system_page_size NTFS_BLOCK_SIZE_BITS) in
  let! c := rp_usa_count rp in
  if negb (usa_count =? c) then Ret None else
  let! usa_ofs := rp_usa_ofs rp in
  let usa_end := u16 (usa_ofs + usa_count * 2) in
  if (usa_ofs <? sizeof_RPH) || (NTFS_BLOCK_SIZE - 2 <? usa_end) then Ret None else Ret (Some usa_end).

(** logfile.c:57-154 ntfs_check_restart_page_header *)
Definition ntfs_check_restart_page_header (rp : bytes) (pos : Z) : outcome bool :=
  let! logfile_system_page_size := rp_system_page_size rp in
  let! logfile_log_page_size := rp_log_page_size rp in
  if (logfile_system_page_size <? NTFS_BLOCK_SIZE) || (logfile_log_page_size <? NTFS_BLOCK_SIZE)
     || not_pow2 logfile_system_page_size || not_pow2 logfile_log_page_size then Ret false else
  if negb (pos =? 0) && negb (pos =? logfile_system_page_size) then Ret false else
  let! bad := version_unknown rp in
  if bad then Ret false else
  let! first := usa_bound rp logfile_system_page_size in
  match first with
  | None => Ret false
  | Some first =>
    let! ra_ofs := rp_restart_area_offset rp in
    if negb (Z.land ra_ofs 7 =? 0) || (ra_ofs <? first) || (logfile_system_page_size <? ra_ofs) then Ret false else
    let! bad := o_not (is_magic rp magic_CHKD) &&! (let! lsn := rp_chkdsk_lsn rp in Ret (negb (lsn =? 0))) in
    Ret (negb bad)
  end.

(** logfile.c:243-246 ntfs_check_restart_area. The number of bits of the file size;
    [fuel] is the number of bits of its type. *)
Fixpoint file_size_bits (fuel : nat) (file_size fs_bits : Z) : outcome Z :=
  if file_size =? 0 then Ret fs_bits else
  match fuel with O => Fault | S fuel' => file_size_bits fuel' (Z.shiftr file_size 1) (u8 (fs_bits + 1)) end.

(** logfile.c:225-236 ntfs_check_restart_area. A list of clients begins with no client
    of the array. *)
Definition list_overflows (log_clients : Z) (first : Z) : bool := negb (first =? LOGFILE_NO_CLIENT) && (log_clients <=? first).

(** logfile.c:169-268 ntfs_check_restart_area *)
Definition ntfs_check_restart_area (rp : bytes) : outcome bool :=
  let! ra := rp_restart_area_offset rp in
  if NTFS_BLOCK_SIZE - 2 <? ra + 24 then Ret false else
  let! ca_ofs := ra_client_array_offset rp ra in
  if negb (round8 ca_ofs =? ca_ofs) || (NTFS_BLOCK_SIZE - 2 <? ra + ca_ofs) then Ret false else
  let! log_clients := ra_log_clients rp ra in
  let ra_len := u16 (ca_ofs + log_clients * sizeof_LCR) in
  let! size := rp_system_page_size rp in
  let! length := ra_restart_area_length rp ra in
  if (size <? ra + ra_len) || (size <? ra + length) || (length <? ra_len) then Ret false else
  let! free := ra_client_free_list rp ra in
  let! in_use := ra_client_in_use_list rp ra in
  if list_overflows log_clients free || list_overflows log_clients in_use then Ret false else
  let! file_size := ra_file_size rp ra in
  let! fs_bits := file_size_bits 64 file_size 0 in
  let! seq := ra_seq_number_bits rp ra in
  if negb (seq =? u32 (67 - fs_bits)) then Ret false else
  let! header := ra_log_record_header_length rp ra in
  if negb (round8 header =? header) then Ret false else
  let! data := ra_log_page_data_offset rp ra in
  Ret (round8 data =? data).

(** logfile.c:307-320 ntfs_check_log_client_array. One list, from [idx]; [None] stands
    for [goto err_out], otherwise what is left of [nr_clients]. *)
Fixpoint client_list (nr_clients : nat) (rp : bytes) (log_clients ca idx : Z) (idx_is_first : bool) : outcome (option nat) :=
  if idx =? LOGFILE_NO_CLIENT then Ret (Some nr_clients) else
  match nr_clients with
  | O => Ret None
  | S nr_clients' =>
    if log_clients <=? idx then Ret None else
    let cr := ca + idx * sizeof_LCR in
    let! bad := Ret idx_is_first &&! (let! prev := cr_prev_client rp cr in Ret (negb (prev =? LOGFILE_NO_CLIENT))) in
    if bad then Ret None else
    let! next := cr_next_client rp cr in
    client_list nr_clients' rp log_clients ca next false
  end.

(** logfile.c:284-331 ntfs_check_log_client_array *)
Definition ntfs_check_log_client_array (rp : bytes) : outcome bool :=
  let! ra := rp_restart_area_offset rp in
  let! ca_ofs := ra_client_array_offset rp ra in
  let ca := ra + ca_ofs in
  let! log_clients := ra_log_clients rp ra in
  let! free := ra_client_free_list rp ra in
  let! rest := client_list (Z.to_nat log_clients) rp log_clients ca free true in
  match rest with
  | None => Ret false
  | Some nr_clients =>
    let! in_use := ra_client_in_use_list rp ra in
    let! rest := client_list nr_clients rp log_clients ca in_use true in
    Ret (match rest with None => false | Some _ => true end)
  end.

(** ** Loading a restart page *)
(** The bytes of a page as the 16-bit words of [Mst], and back. *)
Fixpoint words_of (b : bytes) : words := match b with lo :: hi :: b' => (lo + 256 * hi) :: words_of b' | _ => [] end.
Definition bytes_of (w : words) : bytes := concat (le_bytes 2 <$> w).

(** The attribute of the journal: [ntfs_attr_pread] gives the bytes read, [None] for
    -1, and [errno] afterwards. *)
Record log_attr := LOGATTR { data_size : Z; attr_pread : status -> Z -> Z -> option bytes * status }.

(** A page that was loaded, and its LSN. *)
Abbreviation loaded := (bytes * Z)%type.

Section journal.
Context (log_na : log_attr) (alloc : Z -> bool).

(** logfile.c:391-404 ntfs_check_and_load_restart_page. The whole page, from the
    block in [rp] or from the file. *)
Definition load_page (errno : status) (rp : bytes) (pos size : Z) : outcome (option bytes * status) :=
  if size <=? NTFS_BLOCK_SIZE then let! trp := rdn rp 0 size in Ret (Some trp, errno) else
  let '(br, errno) := attr_pread log_na errno pos size in
  Ret (match br with Some br => if zlen br =? size then Some br else None | None => None end, errno).

(** logfile.c:409-424 ntfs_check_and_load_restart_page. The fixup of the page, and
    whether its failure is an error; [ra] is that of [rp]. *)
Definition unprotect (errno : status) (rp trp : bytes) (ra size : Z) : outcome (bool * bytes * status) :=
  let! protected := o_not (is_magic trp magic_CHKD) ||! (let! c := rp_usa_count trp in Ret (negb (c =? 0))) in
  if negb protected then Ret (true, trp, errno) else
  let! (st, w) := ntfs_mst_post_read_fixup (words_of trp) size in
  match st with
  | None => Ret (true, bytes_of w, errno)
  | Some e =>
    let! length := ra_restart_area_length rp ra in
    Ret (negb (NTFS_BLOCK_SIZE - 2 <? ra + length), bytes_of w, Some e)
  end.

(** logfile.c:360-452 ntfs_check_and_load_restart_page. The value returned ([None] for
    0), the page with its LSN when they are set, and [errno]. *)
Definition ntfs_check_and_load_restart_page (errno : status) (rp : bytes) (pos : Z) : outcome (status * option loaded * status) :=
  let! ok := ntfs_check_restart_page_header rp pos in
  if negb ok then Ret (Some EINVAL, None, errno) else
  let! ok := ntfs_check_restart_area rp in
  if negb ok then Ret (Some EINVAL, None, errno) else
  let! ra := rp_restart_area_offset rp in
  let! size := rp_system_page_size rp in
  if negb (alloc size) then Ret (errno, None, errno) else
  let! (trp, errno) := load_page errno rp pos size in
  match trp with
  | None => Ret (Some (if decide (errno = Some ENOMEM) then ENOMEM else EIO), None, errno)
  | Some trp =>
    let! (ok, trp, errno) := unprotect errno rp trp ra size in
    if negb ok then Ret (Some EINVAL, None, errno) else
    let! active := is_magic rp magic_RSTR &&! (let! l := ra_client_in_use_list rp ra in Ret (negb (l =? LOGFILE_NO_CLIENT))) in
    let! bad := Ret active &&! o_not (ntfs_check_log_client_array trp) in
    if bad then Ret (Some EINVAL, None, errno) else
    let! rstr := is_magic rp magic_RSTR in
    let! lsn := if rstr then ra_current_lsn rp ra else rp_chkdsk_lsn rp in
    Ret (None, Some (trp, lsn), errno)
  end.

(** ** The search for the restart pages *)
(** logfile.c:473-480 ntfs_check_logfile. The variables of the loop. *)
Record search := SEARCH { logfile_is_empty : bool; rstr1 : option loaded; rstr2 : option loaded; s_errno : status }.

(** How a round ends: [continue] or the end of the body, [break], [goto err_out]. *)
Inductive round := Next (s : search) | Leave (s : search) | Abandon (s : search).

(** logfile.c:521-521 ntfs_check_logfile. [pos <<= 1], after [pos] was set to half a
    block when it is 0. *)
Definition next_pos (pos : Z) : Z := Z.shiftl (if pos =? 0 then Z.shiftr NTFS_BLOCK_SIZE 1 else pos) 1.

(** logfile.c:522-588 ntfs_check_logfile. The body of the loop. *)
Definition search_round (pos : Z) (s : search) : outcome round :=
  let '(br, errno) := attr_pread log_na (s_errno s) pos NTFS_BLOCK_SIZE in
  match br with
  | None => Ret (Abandon (SEARCH (logfile_is_empty s) (rstr1 s) (rstr2 s) errno))
  | Some kaddr =>
    let s := SEARCH (logfile_is_empty s) (rstr1 s) (rstr2 s) errno in
    if negb (zlen kaddr =? NTFS_BLOCK_SIZE) then Ret (Abandon s) else
    let! empty := is_magic kaddr magic_empty in
    if empty && negb (logfile_is_empty s) then Ret (Leave s) else
    let s := if empty then s else SEARCH false (rstr1 s) (rstr2 s) (s_errno s) in
    let! rcrd := is_magic kaddr magic_RCRD in
    if rcrd then Ret (Leave s) else
    let! other := o_not (is_magic kaddr magic_RSTR) &&! o_not (is_magic kaddr magic_CHKD) in
    if other then Ret (Next s) else
    let! (err, page, errno) := ntfs_check_and_load_restart_page (s_errno s) kaddr pos in
    let s := match rstr1 s with
             | None => SEARCH (logfile_is_empty s) page (rstr2 s) errno
             | Some _ => SEARCH (logfile_is_empty s) (rstr1 s) (match page with Some _ => page | None => rstr2 s end) errno
             end in
    match err with
    | None => Ret (if pos =? 0 then Next s else Leave s)
    | Some EINVAL => Ret (Next s)
    | Some _ => Ret (Abandon s)
    end
  end.

(** logfile.c:521-589 ntfs_check_logfile. The loop; [false] stands for [goto err_out]. *)
Fixpoint search_loop (fuel : nat) (size pos : Z) (s : search) : outcome (bool * search) :=
  if size <=? pos then Ret (true, s) else
  match fuel with
  | O => Fault
  | S fuel' =>
    let! r := search_round pos s in
    match r with
    | Next s => search_loop fuel' size (next_pos pos) s
    | Leave s => Ret (true, s)
    | Abandon s => Ret (false, s)
    end
  end.

(** The positions are 0 and the powers of two from 512 below 2^32. *)
Definition search_fuel : nat := 24.

(** logfile.c:471-637 ntfs_check_logfile. [volume_empty] is NVolLogFileEmpty; the
    result, the page ([*rp]) and the flag of the volume afterwards. *)
Definition ntfs_check_logfile (volume_empty : bool) (errno : status) : outcome (bool * option bytes * bool) :=
  if volume_empty then Ret (true, None, true) else
  let size := if MaxLogFileSize <? data_size log_na then MaxLogFileSize else data_size log_na in
  let log_page_size := DefaultLogPageSize in
  let log_page_bits := ffs log_page_size - 1 in
  let size := Z.land size (Z.lnot (log_page_size - 1)) in
  if (size <? log_page_size * 2) || (Z.shiftr (size - log_page_size * 2) log_page_bits <? MinLogRecordPages) then Ret (false, None, false) else
  if negb (alloc NTFS_BLOCK_SIZE) then Ret (false, None, false) else
  let! (ok, s) := search_loop search_fuel size 0 (SEARCH true None None errno) in
  if negb ok then Ret (false, None, false) else
  if logfile_is_empty s then Ret (true, None, true) else
  match rstr1 s with
  | None => Ret (false, None, false)
  | Some (rstr1_ph, rstr1_lsn) =>
    let rstr1_ph := match rstr2 s with Some (rstr2_ph, rstr2_lsn) => if rstr1_lsn <? rstr2_lsn then rstr2_ph else rstr1_ph | None => rstr1_ph end in
    Ret (true, Some rstr1_ph, false)
  end.
End journal.

(** ** Is the volume clean *)
(** logfile.c:659-695 ntfs_is_logfile_clean *)
Definition ntfs_is_logfile_clean (volume_empty : bool) (rp : option bytes) : outcome bool :=
  if volume_empty then Ret true else
  match rp with
  | None => Ret false
  | Some rp =>
    let! other := o_not (is_magic rp magic_RSTR) &&! o_not (is_magic rp magic_CHKD) in
    if other then Ret false else
    let! ra := rp_restart_area_offset rp in
    let! unclean := (let! l := ra_client_in_use_list rp ra in Ret (negb (l =? LOGFILE_NO_CLIENT))) &&!
                    (let! f := ra_flags rp ra in Ret (Z.land f RESTART_VOLUME_IS_CLEAN =? 0)) in
    Ret (negb unclean)
  end.

(** logfile.c:743-745 ntfs_empty_logfile. All of the body but the [return] is a comment:
    the journal stays as it is. *)
Definition ntfs_empty_logfile (contents : bytes) : outcome bytes := Ret contents.

(** volume.c:645-696 ntfs_volume_check_logfile. [opened] is the inode of $LogFile, if it
    can be opened, with its attribute, if that can be opened; [closed] is the error of
    [ntfs_inode_close]. The result is [None] for 0, or [errno]. *)
Definition ntfs_volume_check_logfile (opened : option (option log_attr)) (alloc : Z -> bool) (volume_empty : bool) (errno closed : status) : outcome (status * bool) :=
  match opened with
  | None => Ret (Some EIO, volume_empty)
  | Some na =>
    let! (err, volume_empty) :=
      match na with
      | None => Ret (Some EIO, volume_empty)
      | Some na =>
        let! (ok, rp, volume_empty) := ntfs_check_logfile na alloc volume_empty errno in
        let! clean := Ret ok &&! ntfs_is_logfile_clean volume_empty rp in
        let err := if clean then None else Some EOPNOTSUPP in
        let! v2 := match rp with
                   | None => Ret false
                   | Some rp => (let! v := rp_major_ver rp in Ret (v =? 2)) &&! (let! v := rp_minor_ver rp in Ret (v =? 0))
                   end in
        Ret (if v2 then Some EPERM else err, volume_empty)
      end in
    Ret (match err, closed with None, Some e => Some e | _, _ => err end, volume_empty)
  end.
