(* ===== verification/LogfileProofs.v ===== *)
(** * The checks of the journal are safe (logfile.c)

    Every check comes to an end on any bytes, with three exceptions that a page can
    provoke, which [restart_room] excludes and the examples at the end show. *)
From S2P Require Import Prelude Libc Mst Fields Cond Logfile.

(** [totals]: a chain of checks comes to an end when its reads do. *)
Ltac totals :=
  repeat first
  [ apply tot_ret
  | apply tot_rd_le; [done|lia|lia]
  | match goal with |- tot (if ?c then _ else _) => destruct c eqn:? end
  | apply tot_and; [|intros _] | apply tot_or; [|intros _] | apply tot_not
  | apply tot_bind; [|intros ? ?] ].

(** ** The header of a restart page *)
Lemma header_total rp pos : Forall byte_ok rp -> 30 <= zlen rp -> tot (ntfs_check_restart_page_header rp pos).
Proof.
  intros Hb Hz. unfold ntfs_check_restart_page_header, version_unknown, is_magic, rp_magic, rp_major_ver, rp_minor_ver, rp_system_page_size, rp_log_page_size, rp_restart_area_offset, rp_chkdsk_lsn.
  totals. match goal with |- tot (match ?o with Some _ => _ | None => _ end) => destruct o end; totals.
Qed.

Lemma pow2_of x : 0 < x -> not_pow2 x = false -> x = 2 ^ Z.log2 x.
Proof.
  intros Hx H. unfold not_pow2 in H. destruct (Z.eqb_spec (Z.land x (x - 1)) 0) as [E|]; [|done].
  destruct (Z.log2_spec x Hx) as [H1 H2]. destruct (Z.eq_dec x (2 ^ Z.log2 x)) as [|Hne]; [done|exfalso].
  pose proof (Z.log2_nonneg x). assert (0 < 2 ^ Z.log2 x) by lia. assert (Z.log2 (x - 1) = Z.log2 x) as El by (apply Z.log2_unique; lia).
  pose proof (Z.bit_log2 x Hx) as B1. pose proof (Z.bit_log2 (x - 1) ltac:(lia)) as B2. rewrite El in B2.
  assert (Z.testbit (Z.land x (x - 1)) (Z.log2 x) = true) as B by (by rewrite Z.land_spec, B1, B2). by rewrite E, Z.bits_0 in B.
Qed.

(** A page size that is accepted. *)
Definition page_size (size : Z) : Prop := 512 <= size < 2 ^ 32 /\ size mod 512 = 0.

Lemma page_size_of size : 512 <= size < 2 ^ 32 -> not_pow2 size = false -> page_size size.
Proof.
  intros Hs Hp. split; [done|]. apply pow2_of in Hp; [|lia]. assert (9 <= Z.log2 size) by (apply (Z.log2_le_pow2 size 9); lia).
  rewrite Hp. replace (Z.log2 size) with (Z.log2 size - 9 + 9) by lia. rewrite Z.pow_add_r by lia. apply Z.mod_mul. done.
Qed.

(** A restart page, as its magic says: of the journal, or of chkdsk. *)
Definition restart_magic (rp : bytes) : Prop := is_magic rp magic_RSTR = Ret true \/ is_magic rp magic_CHKD = Ret true.

(** What an accepted header says. The page sizes are powers of two; the update sequence
    array is between the header and the end of the first block, except that a page of chkdsk
    may do without it; the restart area is behind it; only chkdsk has an LSN of its own. *)
Record header_ok (rp : bytes) (pos size ra : Z) : Prop := {
  ho_size : rp_system_page_size rp = Ret size;
  ho_page : page_size size;
  ho_pow2 : not_pow2 size = false;
  ho_log : exists log_size, rp_log_page_size rp = Ret log_size /\ 512 <= log_size /\ not_pow2 log_size = false;
  ho_pos : pos = 0 \/ pos = size;
  ho_ra : rp_restart_area_offset rp = Ret ra;
  ho_version : version_unknown rp = Ret false;
  ho_align : Z.land ra 7 = 0;
  ho_in : 0 <= ra <= size;
  ho_first : (forall ofs count, rp_usa_ofs rp = Ret ofs -> rp_usa_count rp = Ret count -> ofs + count * 2 < 65536) -> 30 <= ra;
  ho_usa : is_magic rp magic_CHKD = Ret true /\ rp_usa_count rp = Ret 0 /\ 30 <= ra \/
    exists ofs, rp_usa_ofs rp = Ret ofs /\ 30 <= ofs < 65536 /\ rp_usa_count rp = Ret (u16 (1 + size / 512)) /\ u16 (ofs + u16 (1 + size / 512) * 2) <= Z.min 510 ra;
  ho_lsn : is_magic rp magic_CHKD = Ret true \/ rp_chkdsk_lsn rp = Ret 0;
}.

Lemma header_true rp pos : Forall byte_ok rp -> 30 <= zlen rp -> ntfs_check_restart_page_header rp pos = Ret true -> exists size ra, header_ok rp pos size ra.
Proof.
  intros Hb Hz H. unfold ntfs_check_restart_page_header in H.
  destruct (rd_le_range 4 rp 16) as (size & Es & Hs); [done|lia|lia|]. unfold rp_system_page_size in H. rewrite Es in H. cbn [obind] in H.
  destruct (rd_le_range 2 rp 24) as (ra & Er & Hr); [done|lia|lia|]. apply obind_ret in H as (lps & El & H). unfold NTFS_BLOCK_SIZE in H. guard H E1. guard H E2.
  apply obind_ret in H as (bad & Ev & H). guard H E3. apply obind_ret in H as (first & Hu & H). destruct first as [first|]; [|done].
  unfold rp_restart_area_offset in H. rewrite Er in H. cbn [obind] in H. guard H E4. apply obind_ret in H as (nl & Enl & H). destruct nl; [done|]. clear H.
  change (256 ^ Z.of_nat 4) with (2 ^ 32) in Hs. assert (page_size size) as Hp by (apply page_size_of; [lia|]; by destruct (not_pow2 size); [rewrite !orb_true_r in E1; cbn in E1|]).
  assert (not_pow2 size = false /\ not_pow2 lps = false) as [Hp1 Hp2] by (destruct (not_pow2 size), (not_pow2 lps); rewrite ?orb_true_r in E1; done).
  exists size, ra. constructor; try done; [exists lps; split; [done|]; split; [lia|done]|lia| |lia| | |].
  - destruct (Z.eqb_spec (Z.land ra 7) 0); [done|]. done.
  - intros Hroom. unfold usa_bound in Hu. apply obind_ret in Hu as (no & En & Hu). destruct no; [injection Hu as <-; unfold sizeof_RPH in E4; lia|].
    apply obind_ret in Hu as (c & Ec & Hu). guard Hu E5. apply obind_ret in Hu as (ofs & Eo & Hu). guard Hu E6. injection Hu as <-.
    destruct (rd_le_range 2 rp 6) as (c' & Ec' & Hc'); [done|lia|lia|]. unfold rp_usa_count in Ec. rewrite Ec' in Ec. injection Ec as ->.
    specialize (Hroom _ _ Eo Ec'). assert (u16 (1 + Z.shiftr size NTFS_BLOCK_SIZE_BITS) = c) as Eu by lia. rewrite Eu in *. unfold sizeof_RPH in *.
    rewrite (wrapu_small 16) in E4 by (unfold in_u; lia). lia.
  - unfold usa_bound in Hu. apply obind_ret in Hu as (no & En & Hu). destruct no.
    + apply o_and_true in En as [-> En]. apply obind_ret in En as (c & Ec & En). left. injection Hu as <-. unfold sizeof_RPH in E4. split; [done|]. split; [|lia]. rewrite Ec. f_equal. injection En. lia.
    + apply obind_ret in Hu as (c & Ec & Hu). guard Hu E5. destruct (rd_le_range 2 rp 4) as (ofs & Eo & Ho); [done|lia|lia|]. unfold rp_usa_ofs in Hu. rewrite Eo in Hu.
      cbn [obind] in Hu. guard Hu E6. injection Hu as <-. right. exists ofs. unfold NTFS_BLOCK_SIZE_BITS, sizeof_RPH, NTFS_BLOCK_SIZE in *. rewrite Z.shiftr_div_pow2 in * by lia. change (2 ^ 9) with 512 in *.
      split_and!; try done; [lia|lia| |lia]. rewrite Ec. f_equal. lia.
  - unfold o_and, o_not in Enl. destruct (is_magic rp magic_CHKD) as [[]| |]; cbn [obind negb] in Enl; [by left| |done..]. right.
    apply obind_ret in Enl as (lsn & -> & Enl). injection Enl as Enl. f_equal. lia.
Qed.

(** ** The restart area *)
Lemma file_size_bits_total n x b : 0 <= x < 2 ^ Z.of_nat n -> tot (file_size_bits n x b).
Proof.
  revert x b. induction n as [|n IH]; intros x b Hx; cbn [file_size_bits]; (destruct (Z.eqb_spec x 0); [apply tot_ret|]); [change (2 ^ Z.of_nat 0) with 1 in Hx; lia|].
  apply IH. rewrite Nat2Z.inj_succ, Z.pow_succ_r in Hx by lia. rewrite Z.shiftr_div_pow2 by lia. change (2 ^ 1) with 2. dlia.
Qed.

(** The room that the fields of a page must leave for what is read by them: the update
    sequence array does not wrap around in 16 bits, the restart area is inside of the
    first block, and the size of the client array does not wrap around. *)
Definition restart_room (rp : bytes) : bool :=
  let room :=
    let! ra := rp_restart_area_offset rp in
    let! ofs := rp_usa_ofs rp in
    let! count := rp_usa_count rp in
    let! ca_ofs := ra_client_array_offset rp ra in
    let! clients := ra_log_clients rp ra in
    Ret ((ofs + count * 2 <? 65536) && (ra + 40 <=? 512) && (ca_ofs + clients * sizeof_LCR <? 65536)) in
  match room with Ret b => b | _ => true end.

(** A page that passes the first check without that room. *)
Definition risky (rp : bytes) (pos : Z) : bool :=
  match ntfs_check_restart_page_header rp pos with Ret b => b && negb (restart_room rp) | _ => false end.

Lemma rd_le_bounds n b i v : Forall byte_ok b -> rd_le n b i = Ret v -> 0 <= v < 256 ^ Z.of_nat n.
Proof.
  intros Hb. revert i v. induction n as [|n IH]; intros i v; cbn [rd_le]; [intros [= <-]; done|]. intros H. apply obind_ret in H as (x & Ex & H). apply obind_ret in H as (y & Ey & H).
  injection H as <-. assert (byte_ok x) as Hx by (apply rd_lookup in Ex as [_ Ex]; exact (Forall_lookup_1 _ _ _ _ Hb Ex)). specialize (IH _ _ Ey). rewrite Nat2Z.inj_succ, Z.pow_succ_r by lia. unfold byte_ok in Hx. lia.
Qed.

(** The bits that a file size has. *)
Definition size_bits (fs bits : Z) : Prop := 0 <= bits /\ fs < 2 ^ bits /\ (bits <> 0 -> 2 ^ (bits - 1) <= fs).

Lemma file_size_bits_spec n x b bits : 0 <= x < 2 ^ Z.of_nat n -> 0 <= b -> b + Z.of_nat n < 256 -> file_size_bits n x b = Ret bits ->
  size_bits x (bits - b).
Proof.
  revert x b. induction n as [|n IH]; intros x b Hx Hb Hn; cbn [file_size_bits]; (destruct (Z.eqb_spec x 0) as [->|]; [intros [= <-]; rewrite Z.sub_diag; split; [lia|]; split; [done|]; intros ?; lia|]); [change (2 ^ Z.of_nat 0) with 1 in Hx; lia|].
  rewrite Nat2Z.inj_succ, Z.pow_succ_r in Hx by lia. rewrite Z.shiftr_div_pow2 by lia. change (2 ^ 1) with 2. rewrite wrapu_small by (unfold in_u; lia). intros E.
  destruct (IH (x / 2) (b + 1) ltac:(dlia) ltac:(lia) ltac:(lia) E) as (H1 & H2 & H3). replace (bits - b) with (bits - (b + 1) + 1) by lia. set (k := bits - (b + 1)) in *. clearbody k.
  unfold size_bits. rewrite Z.pow_add_r, Z.add_simpl_r by lia. split; [lia|]. split; [dlia|]. intros _. destruct (Z.eq_dec k 0) as [->|Hk]; [change (2 ^ 0) with 1; dlia|].
  replace (2 ^ k) with (2 * 2 ^ (k - 1)) by (rewrite <- Z.pow_succ_r by lia; f_equal; lia). specialize (H3 Hk). dlia.
Qed.

(** What an accepted restart area says. Its fields and the client array begin in the
    first block and the array is inside of the area, the area inside of the page; the lists
    begin with clients of the array; the bits of a sequence number go with the size of the
    file; the lengths are multiples of 8. *)
Record area_ok (rp : bytes) (ra ca_ofs clients : Z) : Prop := {
  ao_start : ra + 24 <= 510;
  ao_ca : ra_client_array_offset rp ra = Ret ca_ofs;
  ao_ca_in : 0 <= ca_ofs /\ ra + ca_ofs <= 510;
  ao_clients : ra_log_clients rp ra = Ret clients;
  ao_clients_range : 0 <= clients < 65536;
  ao_fits : forall size, rp_system_page_size rp = Ret size -> ra + u16 (ca_ofs + clients * sizeof_LCR) <= size;
  ao_align : round8 ca_ofs = ca_ofs;
  ao_length : exists length, ra_restart_area_length rp ra = Ret length /\ u16 (ca_ofs + clients * sizeof_LCR) <= length /\
    forall size, rp_system_page_size rp = Ret size -> ra + length <= size;
  ao_lists : exists free used, ra_client_free_list rp ra = Ret free /\ ra_client_in_use_list rp ra = Ret used /\
    (free = LOGFILE_NO_CLIENT \/ free < clients) /\ (used = LOGFILE_NO_CLIENT \/ used < clients);
  ao_seq : exists fs bits seq, ra_file_size rp ra = Ret fs /\ size_bits fs bits /\ ra_seq_number_bits rp ra = Ret seq /\ seq = 67 - bits;
  ao_lengths : exists header data, ra_log_record_header_length rp ra = Ret header /\ round8 header = header /\
    ra_log_page_data_offset rp ra = Ret data /\ round8 data = data;
}.

Lemma area_true rp ra : Forall byte_ok rp -> 512 <= zlen rp -> rp_restart_area_offset rp = Ret ra -> 0 <= ra ->
  ntfs_check_restart_area rp = Ret true -> exists ca_ofs clients, area_ok rp ra ca_ofs clients.
Proof.
  intros Hb Hz Hra H0 H. unfold ntfs_check_restart_area, NTFS_BLOCK_SIZE in H. rewrite Hra in H. cbn [obind] in H. guard H E1.
  destruct (rd_le_range 2 rp (ra + 22)) as (ca & Eca & Hca); [done|lia|lia|]. unfold ra_client_array_offset in H. rewrite Eca in H. cbn [obind] in H. guard H E2.
  destruct (rd_le_range 2 rp (ra + 8)) as (c & Ec & Hc); [done|lia|lia|]. unfold ra_log_clients in H. rewrite Ec in H. cbn [obind] in H.
  apply obind_ret in H as (size & Es & H). apply obind_ret in H as (len & El & H). guard H E3.
  apply obind_ret in H as (free & Ef & H). apply obind_ret in H as (used & Eu & H). guard H E4. apply obind_ret in H as (fs & Efs & H). apply obind_ret in H as (bits & Ebits & H).
  apply obind_ret in H as (seq & Eseq & H). guard H E5. apply obind_ret in H as (header & Eh & H). guard H E6. apply obind_ret in H as (data & Ed & H). injection H as Hd.
  exists ca, c. constructor; try done; [lia|lia|..].
  - intros size' Es'. rewrite Es in Es'. injection Es' as <-. lia.
  - lia.
  - exists len. split; [done|]. split; [lia|]. intros size' Es'. rewrite Es in Es'. injection Es' as <-. lia.
  - exists free, used. unfold list_overflows in E4. split_and!; try done; lia.
  - pose proof (rd_le_bounds 8 rp (ra + 24) fs Hb Efs) as Hfs.
    change (256 ^ Z.of_nat 8) with (2 ^ Z.of_nat 64) in Hfs. pose proof (file_size_bits_spec 64 fs 0 bits ltac:(lia) ltac:(lia) ltac:(lia) Ebits) as Hbits. rewrite Z.sub_0_r in Hbits.
    exists fs, bits, seq. split; [done|]. split; [done|]. split; [done|].
    assert (bits <= 64). { destruct Hbits as (H1 & _ & H3). destruct (Z.le_gt_cases bits 64) as [|Hgt]; [done|]. specialize (H3 ltac:(lia)). assert (2 ^ 64 <= 2 ^ (bits - 1)) by (apply Z.pow_le_mono_r; lia). change (2 ^ Z.of_nat 64) with (2 ^ 64) in *. lia. }
    rewrite wrapu_small in E5 by (unfold in_u; destruct Hbits; lia). lia.
  - exists header, data. split_and!; try done; lia.
Qed.

(** The room that an accepted area has. *)
Lemma room_of rp pos size ra : Forall byte_ok rp -> 512 <= zlen rp -> header_ok rp pos size ra -> ra + 24 <= 510 -> restart_room rp = true ->
  (forall ofs count, rp_usa_ofs rp = Ret ofs -> rp_usa_count rp = Ret count -> ofs + count * 2 < 65536) /\ ra + 40 <= 512 /\
  (forall ca_ofs clients, ra_client_array_offset rp ra = Ret ca_ofs -> ra_log_clients rp ra = Ret clients -> ca_ofs + clients * sizeof_LCR < 65536).
Proof.
  intros Hb Hz H Hra Hr. pose proof (ho_in _ _ _ _ H). unfold restart_room in Hr. rewrite (ho_ra _ _ _ _ H) in Hr. cbn [obind] in Hr.
  destruct (rd_le_range 2 rp 4) as (ofs & Eo & _); [done|lia|lia|]. destruct (rd_le_range 2 rp 6) as (cnt & Ec & _); [done|lia|lia|].
  destruct (rd_le_range 2 rp (ra + 22)) as (ca & Eca & _); [done|lia|lia|]. destruct (rd_le_range 2 rp (ra + 8)) as (cl & Ecl & _); [done|lia|lia|].
  unfold rp_usa_ofs, rp_usa_count, ra_client_array_offset, ra_log_clients in *. rewrite Eo, Ec, Eca, Ecl in *. cbn [obind] in Hr.
  split_and!; [intros ? ? [= <-] [= <-]; lia|lia|intros ? ? [= <-] [= <-]; lia].
Qed.

Lemma area_total rp pos size ra : Forall byte_ok rp -> 512 <= zlen rp -> header_ok rp pos size ra -> restart_room rp = true -> tot (ntfs_check_restart_area rp).
Proof.
  intros Hb Hz H Hr. pose proof (ho_in _ _ _ _ H). unfold ntfs_check_restart_area, NTFS_BLOCK_SIZE. rewrite (ho_ra _ _ _ _ H). cbn [obind].
  destruct (Z.ltb_spec (512 - 2) (ra + 24)); [apply tot_ret|]. destruct (room_of rp pos size ra) as (_ & Hroom & _); [done|done|done|lia|done|].
  unfold ra_client_array_offset, ra_log_clients, ra_restart_area_length, ra_client_free_list, ra_client_in_use_list, ra_seq_number_bits, ra_log_record_header_length, ra_log_page_data_offset.
  rewrite (ho_size _ _ _ _ H). destruct (rd_le_range 8 rp (ra + 24)) as (fs & Ef & Hf); [done|lia|lia|]. unfold ra_file_size. rewrite Ef. cbn [obind].
  destruct (file_size_bits_total 64 fs 0) as [bits Ebits]; [change (256 ^ Z.of_nat 8) with (2 ^ 64) in Hf; lia|]. rewrite Ebits. totals.
Qed.

(** ** The lists of clients

    The reference: following the links from [idx] leads to the end through the clients
    in the list. *)
Section clients.
Context (rp : bytes) (n ca : Z).
Local Notation client idx := (ca + idx * sizeof_LCR).

Inductive clients : Z -> list Z -> Prop :=
| clients_end : clients LOGFILE_NO_CLIENT []
| clients_next idx next l : idx <> LOGFILE_NO_CLIENT -> idx < n -> cr_next_client rp (client idx) = Ret next -> clients next l -> clients idx (idx :: l).

(** The first client of a list has no previous one. *)
Definition first_ok (l : list Z) : Prop :=
  match l with [] => True | idx :: _ => cr_prev_client rp (client idx) = Ret LOGFILE_NO_CLIENT end.

Lemma clients_det idx l l' : clients idx l -> clients idx l' -> l = l'.
Proof.
  intros H. revert l'. induction H as [|idx next l Hne Hn Enx H IH]; intros l' H'; inversion H' as [|? next' k ? ? Enx' Hk]; subst; try done.
  rewrite Enx in Enx'. injection Enx' as <-. f_equal. by apply IH.
Qed.

Lemma clients_in idx l i : clients idx l -> i ∈ l -> exists k, clients i k /\ (length k <= length l)%nat.
Proof.
  intros H Hi. induction H as [|idx next l Hne Hn Enx H IH]; [by apply elem_of_nil in Hi|]. apply elem_of_cons in Hi as [->|Hi].
  - exists (idx :: l). split; [by econstructor|done].
  - destruct (IH Hi) as (k & Hk & Hl). exists k. split; [done|cbn; lia].
Qed.

(** A list has no loop. *)
Lemma clients_nodup idx l : clients idx l -> NoDup l.
Proof.
  intros H. induction H as [|idx next l Hne Hn Enx H IH]; constructor; [|done]. intros Hi.
  destruct (clients_in next l idx H Hi) as (k & Hk & Hl). assert (k = idx :: l) as -> by (eapply clients_det; [done|by econstructor]). cbn in Hl. lia.
Qed.

Context (Hb : Forall byte_ok rp) (Hca : 0 <= ca) (Hin : ca + n * sizeof_LCR <= zlen rp).

Lemma client_list_ok nr idx first : 0 <= idx ->
  exists r, client_list nr rp n ca idx first = Ret r /\
    forall left, r = Some left <-> exists l, clients idx l /\ (first = true -> first_ok l) /\ nr = (length l + left)%nat.
Proof using Hb Hca Hin.
  revert idx first. induction nr as [|nr IH]; intros idx first Hi; cbn [client_list]; unfold sizeof_LCR in *.
  all: destruct (Z.eqb_spec idx LOGFILE_NO_CLIENT) as [->|Hne].
  - eexists. split; [done|]. intros left. split; [intros [= <-]; exists []; repeat constructor|]. intros (l & Hl & _ & E). destruct l; [|done]. cbn in E. by subst.
  - eexists. split; [done|]. intros left. split; [done|]. intros (l & Hl & _ & E). inversion Hl; subst; done.
  - eexists. split; [done|]. intros left. split; [intros [= <-]; exists []; repeat constructor|]. intros (l & Hl & _ & E). inversion Hl; subst; [|done]. cbn in E. by subst.
  - destruct (Z.leb_spec n idx) as [Hn|Hn].
    { eexists. split; [done|]. intros left. split; [done|]. intros (l & Hl & _ & E). inversion Hl; subst; [done|lia]. }
    destruct (rd_le_range 2 rp (ca + idx * 160 + 16)) as (prev & Ep & _); [done|nia|nia|]. destruct (rd_le_range 2 rp (ca + idx * 160 + 18)) as (next & En & Hnx); [done|nia|nia|].
    unfold cr_prev_client at 1, cr_next_client at 1. rewrite Ep, En. unfold o_and. cbn [obind].
    assert (forall l, clients idx l -> exists l', l = idx :: l' /\ clients next l') as Hinv.
    { intros l Hl. inversion Hl as [|? next' l' ? ? Enx Hl']; subst; [done|]. unfold cr_next_client, sizeof_LCR in Enx. rewrite En in Enx. injection Enx as <-. by exists l'. }
    destruct (IH next false) as (r & Er & Hr); [lia|]. destruct first; cbn [obind].
    + destruct (Z.eqb_spec prev LOGFILE_NO_CLIENT) as [->|Hp]; cbn [negb].
      * exists r. split; [done|]. intros left. rewrite Hr. split; intros (l & Hl & Hf & E).
        { exists (idx :: l). split; [by econstructor|]. split; [by intros _; unfold first_ok, cr_prev_client, sizeof_LCR|cbn; lia]. }
        { apply Hinv in Hl as (l' & -> & Hl'). exists l'. split; [done|]. split; [done|]. cbn in E. lia. }
      * eexists. split; [done|]. intros left. split; [done|]. intros (l & Hl & Hf & E). apply Hinv in Hl as (l' & -> & _). specialize (Hf eq_refl).
        unfold first_ok, cr_prev_client, sizeof_LCR in Hf. rewrite Ep in Hf. by injection Hf.
    + exists r. split; [done|]. intros left. rewrite Hr. split; intros (l & Hl & Hf & E).
      { exists (idx :: l). split; [by econstructor|]. split; [done|cbn; lia]. }
      { apply Hinv in Hl as (l' & -> & Hl'). exists l'. split; [done|]. split; [done|]. cbn in E. lia. }
Qed.
End clients.

(** The clients of a page. *)
Definition page_clients (rp : bytes) (ra ca_ofs n free in_use : Z) : Prop :=
  rp_restart_area_offset rp = Ret ra /\ ra_client_array_offset rp ra = Ret ca_ofs /\ ra_log_clients rp ra = Ret n /\
  ra_client_free_list rp ra = Ret free /\ ra_client_in_use_list rp ra = Ret in_use.

Lemma check_clients_ok rp ra ca_ofs n free in_use :
  Forall byte_ok rp -> page_clients rp ra ca_ofs n free in_use -> ra + ca_ofs + n * sizeof_LCR <= zlen rp ->
  0 <= ra -> 0 <= ca_ofs -> 0 <= n -> 0 <= free -> 0 <= in_use ->
  exists b, ntfs_check_log_client_array rp = Ret b /\
    (b = true <-> exists lf lu, clients rp n (ra + ca_ofs) free lf /\ clients rp n (ra + ca_ofs) in_use lu /\
       first_ok rp (ra + ca_ofs) lf /\ first_ok rp (ra + ca_ofs) lu /\ zlen lf + zlen lu <= n).
Proof.
  intros Hb (Er & Eca & En & Ef & Eu) Hin H0 Hc0 Hn0 Hf0 Hu0. unfold ntfs_check_log_client_array. rewrite Er. cbn [obind]. rewrite Eca. cbn [obind]. rewrite En, Ef, Eu. cbn [obind].
  destruct (client_list_ok rp n (ra + ca_ofs) Hb ltac:(lia) Hin (Z.to_nat n) free true Hf0) as (r1 & E1 & H1). rewrite E1. cbn [obind].
  destruct r1 as [left|].
  - destruct (proj1 (H1 left) eq_refl) as (lf & Hlf & Hff & El). specialize (Hff eq_refl).
    destruct (client_list_ok rp n (ra + ca_ofs) Hb ltac:(lia) Hin left in_use true Hu0) as (r2 & E2 & H2). rewrite E2. cbn [obind]. eexists. split; [done|].
    destruct r2 as [left2|].
    + destruct (proj1 (H2 left2) eq_refl) as (lu & Hlu & Hfu & El2). specialize (Hfu eq_refl). split; [intros _|done]. exists lf, lu. split_and!; try done. unfold zlen. lia.
    + split; [done|]. intros (lf' & lu & Hlf' & Hlu & Hff' & Hfu & Hlen). pose proof (clients_det _ _ _ _ _ _ Hlf Hlf') as <-. unfold zlen in Hlen.
      assert (None = Some (left - length lu)%nat); [|done]. apply H2. exists lu. split_and!; try done. lia.
  - eexists. split; [done|]. split; [done|]. intros (lf & lu & Hlf & Hlu & Hff & Hfu & Hlen). unfold zlen in Hlen.
    assert (None = Some (Z.to_nat n - length lf)%nat); [|done]. apply H1. exists lf. split_and!; try done. lia.
Qed.

(** ** Bytes and words *)
Lemma even_list (P : bytes -> Prop) : P [] -> (forall lo hi b', P b' -> P (lo :: hi :: b')) -> forall b, zlen b mod 2 = 0 -> P b.
Proof.
  intros H0 H2 b. remember (length b) as n eqn:Hn. revert b Hn. induction n as [n IH] using lt_wf_ind. intros b Hn He. destruct b as [|lo [|hi b']].
  - done.
  - done.
  - apply H2. apply (IH (length b')); [cbn in Hn; lia|done|]. rewrite !zlen_cons in He. dlia.
Qed.

Lemma zlen_words_of b : zlen b mod 2 = 0 -> zlen (words_of b) = zlen b / 2.
Proof. revert b. apply even_list; [done|]. intros lo hi b' IH. cbn [words_of]. rewrite !zlen_cons, IH. dlia. Qed.

Definition word_ok (w : Z) : Prop := 0 <= w < 65536.

Lemma words_of_ok b : Forall byte_ok b -> Forall word_ok (words_of b).
Proof.
  remember (length b) as n eqn:Hn. revert b Hn. induction n as [n IH] using lt_wf_ind. intros b Hn H. destruct b as [|lo [|hi b']]; cbn [words_of]; try constructor.
  - apply Forall_cons in H as [Hlo H]. apply Forall_cons in H as [Hhi H]. unfold byte_ok, word_ok in *. lia.
  - apply Forall_cons in H as [_ H]. apply Forall_cons in H as [_ H]. apply (IH (length b')); [cbn in Hn; lia|done|done].
Qed.

Lemma zlen_bytes_of w : zlen (bytes_of w) = 2 * zlen w.
Proof. unfold bytes_of. induction w as [|x w IH]; [done|]. cbn [fmap list_fmap concat]. rewrite zlen_app, zlen_le_bytes, IH, zlen_cons. lia. Qed.

Lemma bytes_of_ok w : Forall byte_ok (bytes_of w).
Proof. unfold bytes_of. induction w as [|x w IH]; cbn [fmap list_fmap concat]; [constructor|]. apply Forall_app. split; [apply byte_ok_le_bytes|done]. Qed.

Lemma rd_le2_cons lo hi b' j : 0 < j -> rd_le 2 (lo :: hi :: b') (2 * j) = rd_le 2 b' (2 * (j - 1)).
Proof.
  intros Hj. apply rd_le_eq. intros k Hk. rewrite !rd_cons_pos by lia. f_equal. lia.
Qed.

Lemma rd_words_of b j : zlen b mod 2 = 0 -> 0 <= j -> rd (words_of b) j = rd_le 2 b (2 * j).
Proof.
  intros He. revert j. revert b He. apply (even_list (fun b => forall j, 0 <= j -> rd (words_of b) j = rd_le 2 b (2 * j))).
  - intros j Hj. cbn [words_of rd_le]. rewrite (rd_fault (@nil Z) j), (rd_fault (@nil Z) (2 * j)) by (unfold zlen; cbn [length]; lia). done.
  - intros lo hi b' IH j Hj. cbn [words_of]. destruct (Z.eq_dec j 0) as [->|Hne].
    + rewrite rd_cons_0. change (2 * 0) with 0. cbn [rd_le]. rewrite rd_cons_0. cbn [obind]. rewrite rd_cons_pos by lia. change (0 + 1 - 1) with 0. rewrite rd_cons_0. cbn [obind]. f_equal. lia.
    + rewrite rd_cons_pos, rd_le2_cons by lia. apply IH. lia.
Qed.

Lemma rd_bytes_of w j : Forall word_ok w -> 0 <= j < zlen w -> rd_le 2 (bytes_of w) (2 * j) = rd w j.
Proof.
  intros Hw. revert j. induction Hw as [|x w Hx Hw IH]; intros j Hj; [unfold zlen in Hj; cbn in Hj; lia|]. rewrite zlen_cons in Hj. unfold bytes_of in *. cbn [fmap list_fmap concat].
  destruct (Z.eq_dec j 0) as [->|Hne].
  - rewrite rd_cons_0. change (2 * 0) with 0. pose proof (rd_le_bytes 2 [] x (concat (le_bytes 2 <$> w)) 0 eq_refl) as E. cbn [app] in E.
    change (le_bytes 2 x ++ concat (le_bytes 2 <$> w)) with (le_bytes 2 x ++ concat (le_bytes 2 <$> w)) in E. rewrite E. f_equal. apply Z.mod_small. exact Hx.
  - rewrite rd_cons_pos by lia. change (le_bytes 2 x ++ concat (le_bytes 2 <$> w)) with (x mod 256 :: (x / 256) mod 256 :: concat (le_bytes 2 <$> w)).
    rewrite rd_le2_cons by lia. apply IH. lia.
Qed.

(** ** The fixup keeps the fields

    Words that are neither the magic nor the last one of a sector. *)
Definition kept (w w' : words) : Prop :=
  zlen w' = zlen w /\ Forall word_ok w' /\ forall j, 2 <= j -> j mod 256 <> 255 -> rd w' j = rd w j.

Lemma fixup_refl w : Forall word_ok w -> kept w w.
Proof. intros Hw. by unfold kept. Qed.

Lemma fixup_wr w w' j x : kept w w' -> 0 <= j < zlen w -> j < 2 \/ j mod 256 = 255 -> word_ok x -> exists w'', wr w' j x = Ret w'' /\ kept w w''.
Proof.
  intros (Hz & Hw & Hk) Hj Hc Hx. rewrite wr_ok by lia. eexists. split; [done|]. unfold kept. split_and!; [by rewrite zlen_insert|by apply Forall_insert|].
  intros i Hi Hm. rewrite rd_insert by lia. destruct (Z.eqb_spec j i) as [<-|]; [lia|]. by apply Hk.
Qed.

Lemma usn_matches_total n w usn d : 0 <= d -> d + 256 * (Z.of_nat n - 1) < zlen w -> tot (usn_matches n w usn d).
Proof.
  revert d. induction n as [|n IH]; intros d Hd Hz; cbn [usn_matches]; [apply tot_ret|]. destruct (rd_some w d) as [x E]; [lia|]. rewrite E. cbn [obind].
  destruct (negb _); [apply tot_ret|]. change (NTFS_BLOCK_SIZE / 2) with 256. apply IH; lia.
Qed.

Lemma restore_loop_kept n w w' p d : kept w w' -> 0 <= p -> p + Z.of_nat n < zlen w -> 0 <= d -> d mod 256 = 255 -> d + 256 * (Z.of_nat n - 1) < zlen w ->
  exists w'', restore_loop n w' p d = Ret w'' /\ kept w w''.
Proof.
  revert w' p d. induction n as [|n IH]; intros w' p d Hk Hp Hpn Hd Hm Hdn; cbn [restore_loop]; [by exists w'|].
  destruct (rd_some w' (p + 1)) as [x E]; [destruct Hk as (-> & _); lia|]. rewrite E. cbn [obind].
  assert (word_ok x) as Hx by (apply rd_lookup in E as [_ E]; exact (Forall_lookup_1 _ _ _ _ (proj1 (proj2 Hk)) E)).
  destruct (fixup_wr w w' d x) as (w1 & E1 & Hk1); [done|lia|by right|done|]. rewrite E1. cbn [obind]. unfold NTFS_BLOCK_SIZE. change (512 / 2) with 256.
  apply IH; try done; try lia. replace (d + 256) with (d + 1 * 256) by lia. by rewrite Z.mod_add.
Qed.

(** The fixup of a page; it is kept from reading behind the page by the check of the
    header, unless its arithmetic wraps around. *)
Lemma fixup_kept w size ofs count : Forall word_ok w -> 2 * zlen w = size -> page_size size -> rd_usa_ofs w = Ret ofs -> rd_usa_count w = Ret count ->
  0 <= ofs < 65536 -> 0 <= count < 65536 -> (count = size / 512 + 1 -> ofs + count * 2 <= size) ->
  exists st w', ntfs_mst_post_read_fixup w size = Ret (st, w') /\ kept w w'.
Proof.
  intros Hw Hz [Hs1 Hs2] Eo Ec Ho Hc Hfit. unfold ntfs_mst_post_read_fixup, ntfs_mst_post_read_fixup_warn. rewrite Eo, Ec. cbn [obind].
  destruct (usa_invalid _ _ _) eqn:Ei; [do 2 eexists; split; [done|by apply fixup_refl]|].
  unfold usa_invalid, NTFS_BLOCK_SIZE, NTFS_BLOCK_SIZE_BITS in Ei. rewrite Z.shiftr_div_pow2 in Ei by lia. change (2 ^ 9) with 512 in Ei.
  assert (u16 (count - 1) = size / 512) as En by lia. rewrite En.
  assert (1 <= size / 512 /\ size = 512 * (size / 512)) as [Hn1 Hn2] by dlia.
  assert (0 <= ofs / 2 /\ ofs / 2 + size / 512 < zlen w) as [Hp1 Hp2].
  { unfold wrapu in En. destruct (Z.eq_dec count 0) as [->|]; [change ((0 - 1) mod 2 ^ 16) with 65535 in En; split; dlia|].
    rewrite Z.mod_small in En by lia. specialize (Hfit ltac:(lia)). split; dlia. }
  destruct (rd_some w (ofs / 2)) as [usn Eu]; [lia|]. rewrite Eu. cbn [obind]. unfold NTFS_BLOCK_SIZE. change (512 / 2 - 1) with 255.
  destruct (usn_matches_total (Z.to_nat (size / 512)) w usn 255) as [ok Eok]; [lia|lia|]. rewrite Eok. cbn [obind]. destruct ok.
  - destruct (restore_loop_kept (Z.to_nat (size / 512)) w w (ofs / 2) 255) as (w' & E & Hk); [by apply fixup_refl|lia|lia|lia|done|lia|]. rewrite E. cbn [obind]. eauto.
  - unfold wr_magic. destruct (fixup_wr w w 0 (magic_BAAD mod 65536)) as (w1 & E1 & Hk1); [by apply fixup_refl|lia|lia|done|]. rewrite E1. cbn [obind].
    destruct (fixup_wr w w1 1 (magic_BAAD / 65536 mod 65536)) as (w2 & E2 & Hk2); [done|lia|lia|done|]. rewrite E2. cbn [obind]. eauto.
Qed.

Lemma kept_field trp w' j : Forall byte_ok trp -> zlen trp mod 2 = 0 -> kept (words_of trp) w' -> 2 <= j < 255 -> 2 * j < zlen trp ->
  rd_le 2 (bytes_of w') (2 * j) = rd_le 2 trp (2 * j).
Proof.
  intros Hb He (Hz & Hw & Hk) Hj Hl. rewrite zlen_words_of in Hz by done. rewrite rd_bytes_of by (done || dlia). rewrite Hk by (try rewrite Z.mod_small; lia).
  by rewrite rd_words_of by (done || lia).
Qed.

(** A page [p] that the first block [rp] at [pos] stands for: the checks hold, and the
    fields in the block are those of the page. *)
Record good (rp : bytes) (pos : Z) (p : bytes) (size ra ca_ofs clients : Z) : Prop := {
  g_bytes : Forall byte_ok rp /\ zlen rp = 512;
  g_header : header_ok rp pos size ra;
  g_area : area_ok rp ra ca_ofs clients;
  g_first : 30 <= ra;
  g_wrap : ca_ofs + clients * sizeof_LCR < 65536;
  g_page : Forall byte_ok p /\ zlen p = size;
  g_same : forall j, 2 <= j < 255 -> rd_le 2 p (2 * j) = rd_le 2 rp (2 * j);
}.

Lemma unprotect_ok errno rp trp pos size ra : Forall byte_ok rp -> zlen rp = 512 -> header_ok rp pos size ra -> ra + 24 <= 510 ->
  (forall ofs count, rp_usa_ofs rp = Ret ofs -> rp_usa_count rp = Ret count -> ofs + count * 2 < 65536) ->
  zlen trp = size -> Forall byte_ok trp -> (forall n i, 0 <= i -> i + Z.of_nat n <= 512 -> rd_le n trp i = rd_le n rp i) ->
  exists ok page e, unprotect errno rp trp ra size = Ret (ok, page, e) /\ zlen page = size /\ Forall byte_ok page /\
    (forall j, 2 <= j < 255 -> rd_le 2 page (2 * j) = rd_le 2 rp (2 * j)).
Proof.
  intros Hb Hz Hh Hra Hroom Hzt Hbt Hsame. destruct (ho_page _ _ _ _ Hh) as [Hs1 Hs2]. pose proof (ho_in _ _ _ _ Hh).
  assert (zlen trp mod 2 = 0) as He by (rewrite Hzt; dlia). unfold unprotect.
  assert (tot (o_not (is_magic trp magic_CHKD) ||! (let! c := rp_usa_count trp in Ret (negb (c =? 0))))) as [prot Eprot] by (unfold is_magic, rp_magic, rp_usa_count; totals).
  rewrite Eprot. cbn [obind]. destruct prot; cbn [negb].
  - destruct (rd_le_range 2 rp 4) as (ofs & Eo & Ho); [done|lia|lia|]. destruct (rd_le_range 2 rp 6) as (cnt & Ec & Hc); [done|lia|lia|].
    specialize (Hroom _ _ Eo Ec). destruct (fixup_kept (words_of trp) size ofs cnt) as (st & w' & E & Hk); try done.
    + by apply words_of_ok.
    + rewrite zlen_words_of by done. dlia.
    + unfold rd_usa_ofs. rewrite rd_words_of by (done || lia). by rewrite Hsame by lia.
    + unfold rd_usa_count. rewrite rd_words_of by (done || lia). by rewrite Hsame by lia.
    + intros Ecnt. destruct (ho_usa _ _ _ _ Hh) as [(Em & Ez & _)|(ofs' & Eo' & Hofs & Ecnt' & Hend)].
      { unfold rp_usa_count in Ez. rewrite Ec in Ez. injection Ez as ->. dlia. }
      unfold rp_usa_ofs, rp_usa_count in *. rewrite Eo in Eo'. injection Eo' as <-. assert (u16 (1 + size / 512) = cnt) as Eu by congruence. rewrite Eu in Hend.
      rewrite wrapu_small in Hend by (unfold in_u; lia). lia.
    + assert (zlen (bytes_of w') = size) as Hzw by (destruct Hk as (Hzk & _); rewrite zlen_bytes_of, Hzk, zlen_words_of by done; dlia).
      assert (forall j, 2 <= j < 255 -> rd_le 2 (bytes_of w') (2 * j) = rd_le 2 rp (2 * j)) as Hj.
      { intros j Hj. rewrite kept_field with (trp := trp) by (done || lia). apply Hsame; lia. }
      rewrite E. cbn [obind]. destruct st as [e|].
      * destruct (rd_le_range 2 rp (ra + 20)) as (len & El & _); [done|lia|lia|]. unfold ra_restart_area_length. rewrite El. cbn [obind]. do 3 eexists. split; [done|]. split_and!; try done. apply bytes_of_ok.
      * do 3 eexists. split; [done|]. split_and!; try done. apply bytes_of_ok.
  - do 3 eexists. split; [done|]. split_and!; try done. intros j Hj. apply Hsame; lia.
Qed.

(** The fields of the page that was loaded are those of its first block. *)
Section good.
Context (rp : bytes) (pos : Z) (p : bytes) (size ra ca_ofs cl : Z) (H : good rp pos p size ra ca_ofs cl).

Lemma good_area k : 0 <= k < 12 -> rd_le 2 p (ra + 2 * k) = rd_le 2 rp (ra + 2 * k).
Proof using H.
  intros Hk. pose proof (g_first _ _ _ _ _ _ _ H). pose proof (ao_start _ _ _ _ (g_area _ _ _ _ _ _ _ H)).
  assert (ra = 2 * (ra / 2)) as E.
  { pose proof (ho_align _ _ _ _ (g_header _ _ _ _ _ _ _ H)) as Hal. change 7 with (Z.ones 3) in Hal. rewrite Z.land_ones in Hal by lia. change (2 ^ 3) with 8 in Hal. dlia. }
  replace (ra + 2 * k) with (2 * (ra / 2 + k)) by lia. apply (g_same _ _ _ _ _ _ _ H). lia.
Qed.

Lemma good_ra : rp_restart_area_offset p = Ret ra.
Proof using H. rewrite <- (ho_ra _ _ _ _ (g_header _ _ _ _ _ _ _ H)). apply (g_same _ _ _ _ _ _ _ H 12). lia. Qed.

Lemma good_bounds : 512 <= zlen p /\ 30 <= ra /\ ra + 24 <= 510.
Proof using H.
  pose proof (proj2 (g_page _ _ _ _ _ _ _ H)). pose proof (proj1 (ho_page _ _ _ _ (g_header _ _ _ _ _ _ _ H))). pose proof (g_first _ _ _ _ _ _ _ H).
  pose proof (ao_start _ _ _ _ (g_area _ _ _ _ _ _ _ H)). lia.
Qed.

(** The clients of the page are inside of it. *)
Lemma good_clients : exists free in_use, page_clients p ra ca_ofs cl free in_use /\ ra + ca_ofs + cl * sizeof_LCR <= zlen p /\
  0 <= ra /\ 0 <= ca_ofs /\ 0 <= cl /\ 0 <= free /\ 0 <= in_use.
Proof using H.
  pose proof good_bounds as (Hb1 & Hb2 & Hb3). destruct (g_page _ _ _ _ _ _ _ H) as [Hb Hz]. pose proof (g_area _ _ _ _ _ _ _ H) as Ha. pose proof (g_wrap _ _ _ _ _ _ _ H).
  destruct (rd_le_range 2 p (ra + 10)) as (free & Ef & Hf); [done|lia|lia|]. destruct (rd_le_range 2 p (ra + 12)) as (used & Eu & Hu); [done|lia|lia|].
  pose proof (ao_fits _ _ _ _ Ha _ (ho_size _ _ _ _ (g_header _ _ _ _ _ _ _ H))) as Hfit. pose proof (ao_clients_range _ _ _ _ Ha). pose proof (ao_ca_in _ _ _ _ Ha).
  rewrite wrapu_small in Hfit by (unfold in_u, sizeof_LCR in *; lia). exists free, used. split; [|unfold sizeof_LCR in *; lia].
  split; [apply good_ra|]. split; [rewrite <- (ao_ca _ _ _ _ Ha); apply (good_area 11); lia|]. split; [rewrite <- (ao_clients _ _ _ _ Ha); apply (good_area 4); lia|done].
Qed.

Lemma good_check : tot (ntfs_check_log_client_array p).
Proof using H.
  destruct good_clients as (free & used & Hp & Hin & H1 & H2 & H3 & H4 & H5). destruct (check_clients_ok p ra ca_ofs cl free used (proj1 (g_page _ _ _ _ _ _ _ H)) Hp Hin H1 H2 H3 H4 H5) as (b & E & _).
  by exists b.
Qed.

Lemma good_clean flag : tot (ntfs_is_logfile_clean flag (Some p)).
Proof using H.
  pose proof good_bounds as (Hb1 & Hb2 & Hb3). destruct (g_page _ _ _ _ _ _ _ H) as [Hb _]. unfold ntfs_is_logfile_clean, is_magic, rp_magic. rewrite good_ra. cbn [obind].
  unfold ra_client_in_use_list, ra_flags. totals.
Qed.
End good.

(** The lists of clients of a page [p] that a client has open, by its first block [rp]. *)
Definition lists_ok (rp p : bytes) (ra ca_ofs cl : Z) : Prop :=
  is_magic rp magic_RSTR = Ret true -> forall used, ra_client_in_use_list rp ra = Ret used -> used <> LOGFILE_NO_CLIENT ->
  exists free lf lu, ra_client_free_list rp ra = Ret free /\ clients p cl (ra + ca_ofs) free lf /\ clients p cl (ra + ca_ofs) used lu /\
    first_ok p (ra + ca_ofs) lf /\ first_ok p (ra + ca_ofs) lu /\ zlen lf + zlen lu <= cl.

(** The restart page [p] that is loaded from [pos] of the journal: its first block has the
    magic and passes the checks, the fixup made [p] of the bytes in the journal, and the
    lists of clients were followed. *)
Record accepted (file : bytes) (pos : Z) (p : bytes) (size ra ca_ofs cl : Z) : Prop := {
  ac_magic : restart_magic (sub file pos 512);
  ac_good : good (sub file pos 512) pos p size ra ca_ofs cl;
  ac_fixup : exists errno errno', unprotect errno (sub file pos 512) (sub file pos size) ra size = Ret (true, p, errno');
  ac_lists : lists_ok (sub file pos 512) p ra ca_ofs cl;
}.

Lemma good_lists rp pos p size ra ca_ofs cl : good rp pos p size ra ca_ofs cl -> ntfs_check_log_client_array p = Ret true -> lists_ok rp p ra ca_ofs cl.
Proof.
  intros H Hc _ used Eu _. destruct (good_clients _ _ _ _ _ _ _ H) as (free & used' & Hp & Hin & H1 & H2 & H3 & H4 & H5).
  destruct (check_clients_ok p ra ca_ofs cl free used' (proj1 (g_page _ _ _ _ _ _ _ H)) Hp Hin H1 H2 H3 H4 H5) as (b & E & Hb). rewrite Hc in E. injection E as <-.
  destruct (proj1 Hb eq_refl) as (lf & lu & Hl). destruct Hp as (_ & _ & _ & Ef & Eu').
  pose proof (good_area _ _ _ _ _ _ _ H 5 ltac:(lia)) as E5. pose proof (good_area _ _ _ _ _ _ _ H 6 ltac:(lia)) as E6. change (2 * 5) with 10 in E5. change (2 * 6) with 12 in E6.
  unfold ra_client_free_list, ra_client_in_use_list in *. assert (used' = used) as -> by congruence. exists free, lf, lu. split; [congruence|done].
Qed.

(** Where the search looks. *)
Definition probes : list Z := 0 :: ((fun k => 2 ^ k) <$> seqZ 9 23).

Lemma probe_pow k : 9 <= k < 32 -> 2 ^ k ∈ probes.
Proof. intros Hk. apply elem_of_cons. right. apply list_elem_of_fmap. exists k. split; [done|]. apply elem_of_seqZ. lia. Qed.

Lemma next_pos_pow k : 9 <= k -> next_pos (2 ^ k) = 2 ^ (k + 1).
Proof.
  intros Hk. unfold next_pos. assert (0 < 2 ^ k) by lia. destruct (Z.eqb_spec (2 ^ k) 0); [lia|]. rewrite Z.shiftl_mul_pow2, Z.pow_add_r by lia. done.
Qed.

Lemma search_loop_S log_na alloc fuel size pos s : pos < size -> search_loop log_na alloc (S fuel) size pos s =
  let! r := search_round log_na alloc pos s in
  match r with
  | Next s => search_loop log_na alloc fuel size (next_pos pos) s
  | Leave s => Ret (true, s)
  | Abandon s => Ret (false, s)
  end.
Proof. intros H. cbn [search_loop]. by destruct (Z.leb_spec size pos); [lia|]. Qed.

(** ** The journal *)
Section journal.
Context (log_na : log_attr) (alloc : Z -> bool) (file : bytes) (Hfile : Forall byte_ok file).
(** What is read is a part of the file, from the position on; a read may fail, and it
    may be short. *)
Context (reads : forall errno pos count br errno', 0 <= pos -> attr_pread log_na errno pos count = (Some br, errno') -> br = sub file pos (zlen br)).

Lemma sub_byte_ok pos n : Forall byte_ok (sub file pos n).
Proof using Hfile. by apply Forall_take, Forall_drop. Qed.

Lemma load_page_ok errno rp pos size : 0 <= pos -> rp = sub file pos 512 -> zlen rp = 512 -> page_size size ->
  exists trp e, load_page log_na errno rp pos size = Ret (trp, e) /\
    (forall t, trp = Some t -> t = sub file pos size /\ zlen t = size /\ Forall byte_ok t /\ forall n i, 0 <= i -> i + Z.of_nat n <= 512 -> rd_le n t i = rd_le n rp i) /\
    ((forall errno, exists br errno', attr_pread log_na errno pos size = (Some br, errno') /\ zlen br = size) -> trp <> None).
Proof using Hfile reads.
  intros Hp Erp Hz [Hs1 Hs2]. unfold load_page, NTFS_BLOCK_SIZE. destruct (Z.leb_spec size 512).
  - rewrite rdn_ok by lia. cbn [obind]. do 2 eexists. split; [done|]. split; [|done]. intros t [= <-]. assert (size = 512) as -> by lia. assert (sub rp 0 512 = rp) as -> by (rewrite <- Hz; apply sub_all). split_and!; try done. subst. apply sub_byte_ok.
  - destruct (attr_pread log_na errno pos size) as [br e] eqn:E. do 2 eexists. split; [done|].
    destruct br as [br|]; [|split; [done|]; intros Hw; destruct (Hw errno) as (br & e' & Ew & _); congruence].
    destruct (Z.eqb_spec (zlen br) size) as [Hzb|]; [|split; [done|]; intros Hw; destruct (Hw errno) as (br' & e' & Ew & Hl); congruence].
    split; [|done]. intros t [= <-]. pose proof (reads _ _ _ _ _ Hp E) as Hbr. split; [by rewrite <- Hzb|]. split; [done|]. split; [rewrite Hbr; apply sub_byte_ok|].
    intros n i Hi Hn. rewrite Hbr, Hzb, Erp. apply rd_le_eq. intros k Hk. rewrite !rd_sub by lia. destruct (Z.ltb_spec (i + k) size), (Z.ltb_spec (i + k) 512); try lia; done.
Qed.

(** There is memory for a page, and it can be read as a whole. *)
Definition whole (pos size : Z) : Prop :=
  alloc size = true /\ forall errno, exists br errno', attr_pread log_na errno pos size = (Some br, errno') /\ zlen br = size.

Lemma load_total errno pos : 0 <= pos -> zlen (sub file pos 512) = 512 -> risky (sub file pos 512) pos = false ->
  exists err page e, ntfs_check_and_load_restart_page log_na alloc errno (sub file pos 512) pos = Ret (err, page, e) /\
    (forall p lsn, page = Some (p, lsn) -> err = None /\ (restart_magic (sub file pos 512) -> exists size ra ca_ofs cl, accepted file pos p size ra ca_ofs cl)) /\
    (forall size, rp_system_page_size (sub file pos 512) = Ret size -> (ntfs_check_restart_page_header (sub file pos 512) pos = Ret true -> whole pos size) ->
      err = None \/ err = Some EINVAL).
Proof using Hfile reads.
  set (rp := sub file pos 512). intros Hp Hz Hrisk. assert (Forall byte_ok rp) as Hb by apply sub_byte_ok. unfold ntfs_check_and_load_restart_page.
  destruct (header_total rp pos) as [ok Eok]; [done|lia|]. unfold risky in Hrisk. rewrite Eok in *. cbn [obind]. destruct ok; cbn [negb andb] in *; [|do 3 eexists; split; [done|split; [done|by right]]].
  assert (restart_room rp = true) as Hroom by (by destruct (restart_room rp)). destruct (header_true rp pos) as (size & ra & Hh); [done|lia|done|].
  destruct (area_total rp pos size ra) as [ok Ea]; [done|lia|done|done|]. rewrite Ea. cbn [obind]. destruct ok; cbn [negb]; [|do 3 eexists; split; [done|split; [done|by right]]].
  destruct (area_true rp ra) as (ca & cl & Ha); [done|lia|apply Hh|apply Hh|done|]. pose proof (ao_start _ _ _ _ Ha). pose proof (ho_in _ _ _ _ Hh).
  destruct (room_of rp pos size ra) as (Hr1 & Hr2 & Hr3); [done|lia|done|lia|done|]. rewrite (ho_ra _ _ _ _ Hh), (ho_size _ _ _ _ Hh). cbn [obind].
  destruct (alloc size) eqn:Eal; cbn [negb]; [|do 3 eexists; split; [done|split; [done|intros ? [= <-] Hwh; destruct (Hwh eq_refl) as [Hal _]; congruence]]]. destruct (load_page_ok errno rp pos size) as (trp & e & E & Ht & Hno); [done|done|done|apply Hh|].
  rewrite E. cbn [obind]. destruct trp as [trp|]; [|do 3 eexists; split; [done|split; [done|intros ? [= <-] Hwh; destruct (Hwh eq_refl) as [_ Hw]; by destruct (Hno Hw)]]]. destruct (Ht trp eq_refl) as (Etrp & Hzt & Hbt & Hsame).
  destruct (unprotect_ok e rp trp pos size ra) as (ok & page & e' & Eu & Hzp & Hbp & Hsp); try done. rewrite Eu. cbn [obind]. destruct ok; cbn [negb]; [|do 3 eexists; split; [done|split; [done|by right]]].
  assert (good rp pos page size ra ca cl) as Hg by (constructor; try done; [by apply (ho_first _ _ _ _ Hh)|by apply Hr3; apply Ha]).
  destruct (good_check _ _ _ _ _ _ _ Hg) as [b Earr].
  destruct (rd_le_range 4 rp 0) as (mg & Em & _); [done|lia|lia|]. destruct (rd_le_range 2 rp (ra + 12)) as (used & Euse & _); [done|lia|lia|].
  destruct (rd_le_range 8 rp ra) as (l1 & El1 & _); [done|lia|lia|]. destruct (rd_le_range 8 rp 8) as (l2 & El2 & _); [done|lia|lia|].
  assert (lists_ok rp page ra ca cl \/ is_magic rp magic_RSTR = Ret true /\ negb (used =? LOGFILE_NO_CLIENT) = true /\ b = false) as Hlists.
  { destruct b; [left; by eapply good_lists|]. unfold lists_ok, is_magic, rp_magic, ra_client_in_use_list. rewrite Em, Euse. cbn [obind].
    destruct (mg =? magic_RSTR); [|by left]. destruct (Z.eqb_spec used LOGFILE_NO_CLIENT) as [->|]; [left; by intros _ ? [= <-] ?|by right]. }
  assert (lists_ok rp page ra ca cl -> restart_magic rp -> exists size ra ca_ofs cl, accepted file pos page size ra ca_ofs cl) as Hacc.
  { intros Hl Hm. exists size, ra, ca, cl. constructor; try done. exists e, e'. rewrite <- Etrp. exact Eu. }
  clearbody rp. unfold is_magic, rp_magic, ra_client_in_use_list, ra_current_lsn, rp_chkdsk_lsn in *. rewrite Em, Euse, El1, El2, Earr in *. unfold o_and, o_not. cbn [obind] in *.
  destruct (mg =? magic_RSTR); cbn [obind]; [destruct (negb (used =? LOGFILE_NO_CLIENT)); cbn [obind]; [destruct b; cbn [negb obind]|]|];
    (do 3 eexists; split; [done|]; split; [|by auto]); intros p lsn Hpl; try done; injection Hpl as <- <-; (split; [done|]); apply Hacc; by destruct Hlists as [|(? & ? & ?)].
Qed.

Definition found (page : option loaded) : Prop :=
  forall p lsn, page = Some (p, lsn) -> exists pos size ra ca_ofs cl, pos ∈ probes /\ accepted file pos p size ra ca_ofs cl.
(** What the search knows: its pages are in the file, and the journal is taken for empty
    only as long as the first block is. *)
Definition search_inv (pos : Z) (s : search) : Prop :=
  found (rstr1 s) /\ found (rstr2 s) /\ (logfile_is_empty s = true -> pos = 0 \/ is_magic (sub file 0 512) magic_empty = Ret true).

Lemma search_round_ok pos s : pos ∈ probes -> 0 <= pos -> risky (sub file pos 512) pos = false -> search_inv pos s ->
  exists r, search_round log_na alloc pos s = Ret r /\
    match r with Next s' | Leave s' => search_inv (next_pos pos) s' | Abandon _ => True end.
Proof using Hfile reads.
  intros Hpr Hp Hrisk (H1 & H2 & He). unfold search_round, NTFS_BLOCK_SIZE. destruct (attr_pread log_na (s_errno s) pos 512) as [br e] eqn:E.
  destruct br as [kaddr|]; [|by eexists]. destruct (Z.eqb_spec (zlen kaddr) 512) as [Hz|]; cbn [negb]; [|by eexists].
  pose proof (reads _ _ _ _ _ Hp E) as Ek. rewrite Hz in Ek. subst kaddr. set (rp := sub file pos 512) in *.
  destruct (rd_le_range 4 rp 0) as (mg & Em & _); [apply sub_byte_ok|lia|lia|]. unfold is_magic, rp_magic. rewrite Em. cbn [obind logfile_is_empty rstr1 rstr2 s_errno].
  destruct (mg =? magic_empty) eqn:Eempty; cbn [andb].
  - assert (logfile_is_empty s = true -> is_magic (sub file 0 512) magic_empty = Ret true) as He'.
    { intros Hs. destruct (He Hs) as [Hp0|]; [|done]. unfold rp in Em. rewrite Hp0 in Em. unfold is_magic, rp_magic. rewrite Em. cbn [obind]. by rewrite Eempty. }
    destruct (logfile_is_empty s) eqn:Es; cbn [negb]; [|eexists; split; [done|]; split_and!; done].
    assert (mg =? magic_RCRD = false /\ mg =? magic_RSTR = false /\ mg =? magic_CHKD = false) as (-> & -> & ->) by (apply Z.eqb_eq in Eempty as ->; done).
    unfold o_not, o_and. cbn [obind negb]. eexists. split; [done|]. split_and!; try done. intros _. right. by apply He'.
  - destruct (mg =? magic_RCRD); [eexists; split; [done|]; split_and!; done|].
    destruct (mg =? magic_RSTR) eqn:Er, (mg =? magic_CHKD) eqn:Ec; unfold o_not, o_and; cbn [obind negb rstr1 rstr2 s_errno logfile_is_empty].
    4: eexists; split; [done|]; split_and!; done.
    all: destruct (load_total e pos) as (err & page & e' & El & Hpage & _); [done|done|done|]; fold rp in El; rewrite El; cbn [obind].
  all: assert (restart_magic rp) as Hmagic by (unfold restart_magic, is_magic, rp_magic; rewrite Em; cbn [obind]; rewrite Er, Ec; by auto).
  all: assert (found page) as Hf by (intros p lsn Epl; destruct (Hpage p lsn Epl) as [_ Hacc]; destruct (Hacc Hmagic) as (size & ra & ca & cl & Hg); by exists pos, size, ra, ca, cl).
    all: assert (search_inv (next_pos pos) (match rstr1 s with None => SEARCH false page (rstr2 s) e' | Some _ => SEARCH false (rstr1 s) (match page with Some _ => page | None => rstr2 s end) e' end)) as Hinv
      by (destruct (rstr1 s); [destruct page|]; split_and!; done).
    all: destruct err as [[]|]; [..|destruct (pos =? 0)]; by eexists.
Qed.
Context (calm : forallb (fun pos => if zlen file <=? pos then true else negb (risky (sub file pos 512) pos)) probes = true).

Lemma probe_calm pos : pos ∈ probes -> risky (sub file pos 512) pos = false.
Proof using calm.
  intros H. rewrite forallb_forall in calm. specialize (calm pos (proj1 (list_elem_of_In _ _) H)).
  destruct (Z.leb_spec (zlen file) pos); [|by destruct (risky _ _)]. unfold sub. by rewrite drop_ge by (unfold zlen in *; lia).
Qed.

Lemma search_loop_ok fuel size k s : 9 <= k -> 32 <= k + Z.of_nat fuel -> size <= 2 ^ 32 -> search_inv (2 ^ k) s ->
  exists ok s', search_loop log_na alloc fuel size (2 ^ k) s = Ret (ok, s') /\ (ok = true -> exists pos, 0 < pos /\ search_inv pos s').
Proof using Hfile reads calm.
  revert k s. induction fuel as [|fuel IH]; intros k s Hk Hf Hs Hi; cbn [search_loop].
  - destruct (Z.leb_spec size (2 ^ k)) as [|Hlt]; [do 2 eexists; split; [done|]; intros _; exists (2 ^ k); split; [lia|done]|].
    assert (2 ^ 32 <= 2 ^ k) by (apply Z.pow_le_mono_r; lia). lia.
  - destruct (Z.leb_spec size (2 ^ k)) as [|Hlt]; [do 2 eexists; split; [done|]; intros _; exists (2 ^ k); split; [lia|done]|].
    assert (k < 32) as Hk32 by (destruct (Z.lt_ge_cases k 32); [done|]; assert (2 ^ 32 <= 2 ^ k) by (apply Z.pow_le_mono_r; lia); lia).
    pose proof (probe_pow k ltac:(lia)) as Hpr. destruct (search_round_ok (2 ^ k) s Hpr ltac:(lia) (probe_calm _ Hpr) Hi) as (r & E & Hr). rewrite E. cbn [obind].
    rewrite next_pos_pow in * by done. assert (0 < 2 ^ (k + 1)) by lia. destruct r as [s'|s'|s'].
    + apply IH; [lia|lia|done|done].
    + do 2 eexists. split; [done|]. intros _. by exists (2 ^ (k + 1)).
    + by do 2 eexists.
Qed.

(** What [ntfs_check_logfile] promises. *)
Definition checked (page : option bytes) (flag : bool) : Prop :=
  (flag = true -> page = None /\ is_magic (sub file 0 512) magic_empty = Ret true) /\
  (forall p, page = Some p -> exists pos size ra ca_ofs cl, pos ∈ probes /\ accepted file pos p size ra ca_ofs cl).

Lemma check_logfile_ok errno : exists ok page flag, ntfs_check_logfile log_na alloc false errno = Ret (ok, page, flag) /\ checked page flag /\ (ok = false -> page = None).
Proof using Hfile reads calm.
  unfold ntfs_check_logfile. set (size := Z.land _ _).
  assert (forall P : Prop, checked None false /\ (P -> @None bytes = None)) as Hnone by (intros P; split; [split; done|done]).
  destruct (_ || _) eqn:Esize; [do 3 eexists; split; [done|apply Hnone]|]. destruct (alloc NTFS_BLOCK_SIZE); cbn [negb]; [|do 3 eexists; split; [done|apply Hnone]].
  assert (size <= 2 ^ 32) as Hsize.
  { unfold size. change (DefaultLogPageSize - 1) with (Z.ones 12). rewrite <- Z.ldiff_land, Z.ldiff_ones_r, Z.shiftl_mul_pow2, Z.shiftr_div_pow2 by lia.
    unfold MaxLogFileSize. destruct (Z.ltb_spec 0x100000000 (data_size log_na)); dlia. }
  assert (0 < size) as Hpos by (unfold DefaultLogPageSize in Esize; lia). clearbody size. set (s0 := SEARCH true None None errno). assert (search_inv 0 s0) as H0 by (split_and!; [done|done|by left]).
  assert (exists ok s', search_loop log_na alloc search_fuel size 0 s0 = Ret (ok, s') /\ (ok = true -> exists pos, 0 < pos /\ search_inv pos s')) as (ok & s & E & Hok).
  { change search_fuel with (S 23). rewrite search_loop_S by done. assert (0 ∈ probes) as Hpr by (apply elem_of_cons; by left). destruct (search_round_ok 0 s0 Hpr ltac:(lia) (probe_calm _ Hpr) H0) as (r & E & Hr). rewrite E. cbn [obind].
    change (next_pos 0) with (2 ^ 9) in *. destruct r as [s'|s'|s'].
    - destruct (search_loop_ok 23 size 9 s') as (ok & s'' & E' & Hok); [lia|lia|done|done|]. rewrite E'. by do 2 eexists.
    - do 2 eexists. split; [done|]. intros _. by exists (2 ^ 9).
    - by do 2 eexists. }
  rewrite E. cbn [obind]. destruct ok; cbn [negb]; [|do 3 eexists; split; [done|apply Hnone]]. destruct (Hok eq_refl) as (pos & Hp & H1 & H2 & He).
  destruct (logfile_is_empty s); [do 3 eexists; split; [done|]; split; [split; [|done]; intros _; split; [done|]; by destruct (He eq_refl) as [->|]|done]|].
  destruct (rstr1 s) as [[p1 l1]|]; [|do 3 eexists; split; [done|apply Hnone]]. do 3 eexists. split; [done|]. split; [|done]. split; [done|]. intros p [= <-].
  destruct (rstr2 s) as [[p2 l2]|]; [|by apply (H1 p1 l1)]. destruct (l1 <? l2); [by apply (H2 p2 l2)|by apply (H1 p1 l1)].
Qed.

(** *** The search when every read succeeds *)
Context (memory : forall size, alloc size = true).
Context (exact : forall errno pos count, 0 <= pos -> 0 <= count -> pos + count <= zlen file -> attr_pread log_na errno pos count = (Some (sub file pos count), errno)).

(** A restart page that the header puts at a position behind the first one is as long as
    that position. *)
Definition pages_fit : Prop :=
  forall pos, pos ∈ probes -> 0 < pos -> pos + 512 <= zlen file -> ntfs_check_restart_page_header (sub file pos 512) pos = Ret true -> 2 * pos <= zlen file.
Context (fit : pages_fit).

(** The first page was found; the second one is in the file and was not found yet. *)
Definition first_found (p : bytes) (lsn : Z) (s : search) : Prop :=
  logfile_is_empty s = false /\ rstr1 s = Some (p, lsn) /\
  forall page, rstr2 s = Some page -> exists pos e e', pos ∈ probes /\ 0 < pos /\
    ntfs_check_and_load_restart_page log_na alloc e (sub file pos 512) pos = Ret (None, Some page, e').

Lemma load_fits errno pos : pos ∈ probes -> 0 < pos -> pos + 512 <= zlen file ->
  exists err page e, ntfs_check_and_load_restart_page log_na alloc errno (sub file pos 512) pos = Ret (err, page, e) /\
    (err = None \/ err = Some EINVAL /\ page = None).
Proof using Hfile reads calm memory exact fit.
  intros Hpr Hp Hin. set (rp := sub file pos 512). assert (zlen rp = 512) as Hz by (apply zlen_sub; lia). assert (Forall byte_ok rp) as Hb by apply sub_byte_ok.
  destruct (load_total errno pos ltac:(lia) Hz (probe_calm _ Hpr)) as (err & page & e & E & Hpage & Herr). exists err, page, e. split; [done|].
  destruct (rd_le_range 4 rp 16) as (sz & Esz & Hsz); [done|lia|lia|]. destruct (Herr sz Esz) as [->| ->]; [|by left|].
  - intros Hh. split; [apply memory|]. destruct (header_true rp pos) as (size & ra & Hok); [done|lia|done|].
    assert (sz = pos) as ->.
    { pose proof (ho_size _ _ _ _ Hok) as Es. unfold rp_system_page_size in Es. rewrite Esz in Es. injection Es as <-. destruct (ho_pos _ _ _ _ Hok); lia. }
    intros e'. exists (sub file pos pos), e'. pose proof (fit pos Hpr Hp Hin Hh). split; [apply exact; lia|apply zlen_sub; lia].
  - right. split; [done|]. destruct page as [[p lsn]|]; [|done]. by destruct (Hpage p lsn eq_refl).
Qed.

Lemma round_after_first pos s p lsn : pos ∈ probes -> 0 < pos -> pos + 512 <= zlen file -> first_found p lsn s ->
  exists s', first_found p lsn s' /\ (search_round log_na alloc pos s = Ret (Next s') \/ search_round log_na alloc pos s = Ret (Leave s')).
Proof using Hfile reads calm memory exact fit.
  intros Hpr Hp Hin (He & H1 & H2). unfold search_round, NTFS_BLOCK_SIZE. rewrite exact by lia. assert (zlen (sub file pos 512) = 512) as Hz by (apply zlen_sub; lia). rewrite Hz.
  cbn [Z.eqb Pos.eqb negb logfile_is_empty rstr1 rstr2 s_errno]. destruct (load_fits (s_errno s) pos Hpr Hp Hin) as (err & page & e & E & Herr).
  set (rp := sub file pos 512) in *. destruct (rd_le_range 4 rp 0) as (mg & Em & _); [apply sub_byte_ok|lia|lia|].
  unfold is_magic, rp_magic. rewrite Em, He, H1. cbn [obind]. assert (first_found p lsn (SEARCH false (Some (p, lsn)) (rstr2 s) (s_errno s))) as Hs by done.
  destruct (mg =? magic_empty); cbn [andb negb]; [eexists; split; [|by right]; done|]. cbn [rstr1 rstr2 s_errno logfile_is_empty].
  destruct (mg =? magic_RCRD); [eexists; split; [|by right]; done|]. unfold o_not, o_and. cbn [obind].
  assert (first_found p lsn (SEARCH false (Some (p, lsn)) (match page with Some _ => page | None => rstr2 s end) e)) as Hn.
  { split; [done|]. split; [done|]. intros pg. cbn [rstr2]. destruct page as [pg'|]; [|apply H2]. intros [= <-].
    destruct Herr as [->|[_ ?]]; [|done]. by exists pos, (s_errno s), e. }
  destruct (if negb (mg =? magic_RSTR) then _ else _) as [other| |] eqn:Eo; [|by destruct (negb (mg =? magic_RSTR))..]. cbn [obind].
  destruct other; [eexists; split; [|by left]; done|]. cbn [rstr1 rstr2 s_errno logfile_is_empty]. rewrite E. cbn [obind].
  destruct Herr as [->|[-> ->]]; [destruct (pos =? 0); (eexists; split; [|by eauto]; done)|eexists; split; [|by left]; done].
Qed.

Lemma loop_after_first fuel size k s p lsn : 9 <= k -> 32 <= k + Z.of_nat fuel -> size <= 2 ^ 32 -> size mod 512 = 0 -> size <= zlen file -> first_found p lsn s ->
  exists s', search_loop log_na alloc fuel size (2 ^ k) s = Ret (true, s') /\ first_found p lsn s'.
Proof using Hfile reads calm memory exact fit.
  revert k s. induction fuel as [|fuel IH]; intros k s Hk Hf Hs Hm Hin Hfirst.
  - cbn [search_loop]. destruct (Z.leb_spec size (2 ^ k)) as [|Hlt]; [by eexists|]. assert (2 ^ 32 <= 2 ^ k) by (apply Z.pow_le_mono_r; lia). lia.
  - destruct (Z.leb_spec size (2 ^ k)) as [Hle|Hlt].
    { cbn [search_loop]. destruct (Z.leb_spec size (2 ^ k)); [by eexists|lia]. }
    assert (k < 32) as Hk32 by (destruct (Z.lt_ge_cases k 32); [done|]; assert (2 ^ 32 <= 2 ^ k) by (apply Z.pow_le_mono_r; lia); lia).
    assert (2 ^ k = 512 * 2 ^ (k - 9)) as Ek by (change 512 with (2 ^ 9); rewrite <- Z.pow_add_r by lia; f_equal; lia). assert (0 < 2 ^ (k - 9)) by lia.
    rewrite search_loop_S by done. destruct (round_after_first (2 ^ k) s p lsn) as (s' & Hs' & [E|E]); [apply probe_pow; lia|lia|dlia|done|..].
    + rewrite E. cbn [obind]. rewrite next_pos_pow by done. apply IH; (done || lia).
    + rewrite E. cbn [obind]. by eexists.
Qed.

Lemma first_page_ok errno p lsn e :
  204800 <= data_size log_na <= zlen file -> is_magic (sub file 0 512) magic_RSTR = Ret true \/ is_magic (sub file 0 512) magic_CHKD = Ret true ->
  ntfs_check_and_load_restart_page log_na alloc errno (sub file 0 512) 0 = Ret (None, Some (p, lsn), e) ->
  exists p' lsn', ntfs_check_logfile log_na alloc false errno = Ret (true, Some p', false) /\ lsn <= lsn' /\
    (p' = p /\ lsn' = lsn \/ lsn < lsn' /\ exists pos e e', pos ∈ probes /\ 0 < pos /\
       ntfs_check_and_load_restart_page log_na alloc e (sub file pos 512) pos = Ret (None, Some (p', lsn'), e')).
Proof using Hfile reads calm memory exact fit.
  intros [Hd1 Hd2] Hmagic Hload. unfold ntfs_check_logfile. set (size := Z.land _ _).
  assert (204800 <= size <= zlen file /\ size <= 2 ^ 32 /\ size mod 512 = 0) as (Hs1 & Hs2 & Hs3).
  { unfold size. change (DefaultLogPageSize - 1) with (Z.ones 12). rewrite <- Z.ldiff_land, Z.ldiff_ones_r, Z.shiftl_mul_pow2, Z.shiftr_div_pow2 by lia.
    unfold MaxLogFileSize. change (2 ^ 12) with 4096. change (2 ^ 32) with 4294967296. destruct (Z.ltb_spec 0x100000000 (data_size log_na)); split_and!; dlia. }
  clearbody size. change (ffs DefaultLogPageSize - 1) with 12. unfold DefaultLogPageSize, MinLogRecordPages. rewrite Z.shiftr_div_pow2 by lia. change (2 ^ 12) with 4096.
  destruct (Z.ltb_spec size (4096 * 2)); [lia|]. destruct (Z.ltb_spec ((size - 4096 * 2) / 4096) 48) as [Hlt|_]; [dlia|]. cbn [orb]. rewrite memory. cbn [negb].
  set (s1 := SEARCH false (Some (p, lsn)) None e).
  assert (search_round log_na alloc 0 (SEARCH true None None errno) = Ret (Next s1)) as E1.
  { unfold search_round, NTFS_BLOCK_SIZE. cbn [s_errno]. rewrite exact by lia. assert (zlen (sub file 0 512) = 512) as Hz by (apply zlen_sub; lia). rewrite Hz.
    cbn [Z.eqb Pos.eqb negb logfile_is_empty rstr1 rstr2 s_errno]. destruct (rd_le_range 4 (sub file 0 512) 0) as (mg & Em & _); [apply sub_byte_ok|lia|lia|].
    unfold is_magic, rp_magic in *. rewrite Em in *. cbn [obind] in *. assert (mg = magic_RSTR \/ mg = magic_CHKD) as Hmg by (destruct Hmagic as [[= Hx]|[= Hx]]; lia).
    unfold o_not, o_and. destruct Hmg as [->| ->]; cbn [Z.eqb Pos.eqb magic_empty magic_RSTR magic_CHKD magic_RCRD negb andb obind]; cbn [s_errno rstr1 rstr2 logfile_is_empty]; by rewrite Hload. }
  change search_fuel with (S 23). rewrite search_loop_S by lia. rewrite E1. cbn [obind]. change (next_pos 0) with (2 ^ 9).
  destruct (loop_after_first 23 size 9 s1 p lsn) as (s' & E & He & Hr1 & Hr2); try done; [lia|]. rewrite E. cbn [obind negb]. rewrite He, Hr1.
  destruct (rstr2 s') as [[p2 l2]|]; [|exists p, lsn; split; [done|split; [lia|by left]]]. destruct (Z.ltb_spec lsn l2) as [Hl|Hl].
  - exists p2, l2. split; [done|split; [lia|right; split; [done|by apply Hr2]]].
  - exists p, lsn. split; [done|split; [lia|by left]].
Qed.
End journal.
