(* ===== verification/LogfileMount.v ===== *)
(** * Whether a volume was shut down cleanly (logfile.c, volume.c)

    What [ntfs_volume_check_logfile] says of a journal with any contents, and examples:
    a journal that is accepted, and the pages that lead the checks out of bounds. *)
From S2P Require Import Prelude Libc Mst Fields Cond Logfile LogfileProofs.

(** The attribute gives the bytes of the file; a read may fail or be short. *)
Definition reads_from (na : log_attr) (file : bytes) : Prop :=
  forall errno pos count br errno', 0 <= pos -> attr_pread na errno pos count = (Some br, errno') -> br = sub file pos (zlen br).
(** No page makes the checks read by fields that leave them no room. *)
Definition calm (file : bytes) : bool := forallb (fun pos => if zlen file <=? pos then true else negb (risky (sub file pos 512) pos)) probes.

(** ** The volume *)
Lemma good_version rp pos p size ra ca_ofs cl : good rp pos p size ra ca_ofs cl ->
  exists major minor, rp_major_ver p = Ret major /\ rp_minor_ver p = Ret minor /\ rp_major_ver rp = Ret major /\ rp_minor_ver rp = Ret minor /\
    (major = 1 /\ minor = 1 \/ major = 2 /\ minor = 0).
Proof.
  intros H. destruct (g_bytes _ _ _ _ _ _ _ H) as [Hb Hz]. pose proof (ho_version _ _ _ _ (g_header _ _ _ _ _ _ _ H)) as Hv.
  destruct (rd_le_range 2 rp 28) as (major & Emaj & _); [done|lia|lia|]. destruct (rd_le_range 2 rp 26) as (minor & Emin & _); [done|lia|lia|].
  unfold version_unknown, rp_major_ver, rp_minor_ver in *. exists major, minor.
  pose proof (g_same _ _ _ _ _ _ _ H 14 ltac:(lia)) as E14. pose proof (g_same _ _ _ _ _ _ _ H 13 ltac:(lia)) as E13. change (2 * 14) with 28 in E14. change (2 * 13) with 26 in E13.
  rewrite E14, E13, Emaj, Emin in *. split_and!; try done. unfold o_and, o_or in Hv. cbn [obind] in Hv.
  destruct (Z.eqb_spec major 1), (Z.eqb_spec minor 1), (Z.eqb_spec major 2), (Z.eqb_spec minor 0); cbn in Hv; try done; lia.
Qed.

(** The fields that decide, in the page and in its first block. *)
Lemma good_state rp pos p size ra ca_ofs cl : good rp pos p size ra ca_ofs cl ->
  exists used flags, ra_client_in_use_list p ra = Ret used /\ ra_flags p ra = Ret flags /\ ra_client_in_use_list rp ra = Ret used /\ ra_flags rp ra = Ret flags.
Proof.
  intros H. pose proof (good_bounds _ _ _ _ _ _ _ H) as (H1 & H2 & H3). destruct (g_page _ _ _ _ _ _ _ H) as [Hb Hz].
  destruct (rd_le_range 2 p (ra + 12)) as (used & Eu & _); [done|lia|lia|]. destruct (rd_le_range 2 p (ra + 14)) as (flags & Ef & _); [done|lia|lia|].
  pose proof (good_area _ _ _ _ _ _ _ H 6 ltac:(lia)) as E6. pose proof (good_area _ _ _ _ _ _ _ H 7 ltac:(lia)) as E7.
  change (2 * 6) with 12 in E6. change (2 * 7) with 14 in E7. exists used, flags. unfold ra_client_in_use_list, ra_flags. split_and!; try done; congruence.
Qed.

(** A journal that lets the volume be mounted: the first block is blank, or there is a
    restart page that passed every check, of version 1.1 and not torn, that says that no
    client has the journal open, or that the volume is clean. *)
Definition clean_journal (file : bytes) : Prop :=
  is_magic (sub file 0 512) magic_empty = Ret true \/
  exists pos p size ra ca_ofs cl used flags,
    pos ∈ probes /\ accepted file pos p size ra ca_ofs cl /\ restart_magic p /\ rp_major_ver p = Ret 1 /\ rp_minor_ver p = Ret 1 /\
    ra_client_in_use_list p ra = Ret used /\ ra_flags p ra = Ret flags /\ (used = LOGFILE_NO_CLIENT \/ Z.land flags RESTART_VOLUME_IS_CLEAN <> 0).

Lemma restart_magic_of p : o_not (is_magic p magic_RSTR) &&! o_not (is_magic p magic_CHKD) = Ret false -> restart_magic p.
Proof. unfold restart_magic, is_magic, o_not, o_and. destruct (rp_magic p) as [m| |]; cbn [obind]; [|done..]. destruct (m =? magic_RSTR), (m =? magic_CHKD); cbn; auto. Qed.

Lemma volume_check_ok na alloc file volume_empty errno closed : Forall byte_ok file -> reads_from na file -> calm file = true ->
  exists err flag, ntfs_volume_check_logfile (Some (Some na)) alloc volume_empty errno closed = Ret (err, flag) /\
    (err = None -> volume_empty = true \/ clean_journal file).
Proof.
  intros Hb Hr Hc. unfold ntfs_volume_check_logfile. destruct volume_empty.
  { cbn. do 2 eexists. split; [done|]. by left. }
  destruct (check_logfile_ok na alloc file Hb Hr Hc errno) as (ok & page & flag & E & [Hf Hp] & Hok). rewrite E. cbn [obind].
  destruct page as [p|].
  - destruct (Hp p eq_refl) as (pos & size & ra & ca & cl & Hpos & Hacc). pose proof (ac_good _ _ _ _ _ _ _ Hacc) as Hg. destruct ok; [|by specialize (Hok eq_refl)]. destruct flag; [by destruct (Hf eq_refl)|].
    destruct (good_clean _ _ _ _ _ _ _ Hg false) as [cln Ecl]. destruct (good_version _ _ _ _ _ _ _ Hg) as (major & minor & Ema & Emi & Ema' & Emi' & Hv). rewrite Ecl, Ema, Emi.
    unfold o_and. cbn [obind]. destruct (good_state _ _ _ _ _ _ _ Hg) as (used & flags & Eu & Ef & Eu' & Ef').
    destruct Hv as [[-> ->]|[-> ->]]; cbn [Z.eqb Pos.eqb obind]; (do 2 eexists; split; [done|]); [|by destruct closed]. destruct cln; [|by destruct closed]. intros _. right. right.
    unfold ntfs_is_logfile_clean in Ecl. apply obind_ret in Ecl as (other & Em & Ecl). guard Ecl Eo. subst other. apply restart_magic_of in Em.
    exists pos, p, size, ra, ca, cl, used, flags. split_and!; try done. rewrite (good_ra _ _ _ _ _ _ _ Hg) in Ecl. cbn [obind] in Ecl. rewrite Eu, Ef in Ecl.
    unfold o_and in Ecl. cbn [obind] in Ecl. destruct (Z.eqb_spec used LOGFILE_NO_CLIENT); [by left|]. cbn [negb obind] in Ecl. injection Ecl as Ecl. right. lia.
  - destruct ok; cbn [obind].
    + destruct flag; unfold o_and; cbn; (do 2 eexists; split; [done|]); [|by destruct closed]. intros _. right. left. by apply Hf.
    + unfold o_and. cbn [obind]. do 2 eexists. split; [done|]. by destruct closed.
Qed.

(** C23. The check of the journal at mount, on a journal with any bytes and an attribute
    whose reads may fail or be short: it comes to an end, and neither the sizes and
    offsets nor the lists of clients in the restart pages make it read outside of a
    page, except by the three wrap-arounds and the place of the restart area that
    [risky] excludes. *)
Theorem journal_check_safe na alloc file volume_empty errno closed : Forall byte_ok file -> reads_from na file -> calm file = true ->
  exists err flag, ntfs_volume_check_logfile (Some (Some na)) alloc volume_empty errno closed = Ret (err, flag).
Proof. intros Hb Hr Hc. destruct (volume_check_ok na alloc file volume_empty errno closed Hb Hr Hc) as (err & flag & E & _). eauto. Qed.

(** C24. When the check lets a volume be mounted, its journal was empty before, or its
    first block is blank, or there is a restart page, at the start or at its own size, of
    version 1.1, that passed all checks ([accepted]) and that says that no client has the
    journal open or that the volume is clean.  Its header and its restart area say what
    [header_ok] and [area_ok] list, the lists of clients of a page that is in use have no
    loop and no client too many ([lists_ok]), and the fixup did not find it torn.  The
    bytes of the journal are any, but for those that [risky] excludes as in C23; reads may
    fail or be short. *)
Theorem mounted_is_clean na alloc file volume_empty errno closed flag : Forall byte_ok file -> reads_from na file -> calm file = true ->
  ntfs_volume_check_logfile (Some (Some na)) alloc volume_empty errno closed = Ret (None, flag) -> volume_empty = true \/ clean_journal file.
Proof. intros Hb Hr Hc H. destruct (volume_check_ok na alloc file volume_empty errno closed Hb Hr Hc) as (err & flag' & E & Hn). rewrite H in E. injection E as <- <-. by apply Hn. Qed.

(** C25. A journal of 204800 bytes (50 pages of 4 KiB) or more whose first restart page is consistent is not refused
    for what comes behind that page, as long as every later page that passes the check of
    its header is inside of the file ([pages_fit]; [long_page_refused] shows that it has
    to be): the search ends with the first page, or with a later one that is consistent
    and has a larger LSN.  Reads inside of the file give its bytes, there
    is memory, and no page is one that [risky] excludes, as in C23. *)
Theorem restart_page_found na alloc file errno p lsn e : Forall byte_ok file -> reads_from na file -> calm file = true -> (forall size, alloc size = true) ->
  (forall errno pos count, 0 <= pos -> 0 <= count -> pos + count <= zlen file -> attr_pread na errno pos count = (Some (sub file pos count), errno)) ->
  pages_fit file -> 204800 <= data_size na <= zlen file ->
  is_magic (sub file 0 512) magic_RSTR = Ret true \/ is_magic (sub file 0 512) magic_CHKD = Ret true ->
  ntfs_check_and_load_restart_page na alloc errno (sub file 0 512) 0 = Ret (None, Some (p, lsn), e) ->
  exists p' lsn', ntfs_check_logfile na alloc false errno = Ret (true, Some p', false) /\ lsn <= lsn' /\
    (p' = p /\ lsn' = lsn \/ lsn < lsn' /\ exists pos e e', pos ∈ probes /\ 0 < pos /\
       ntfs_check_and_load_restart_page na alloc e (sub file pos 512) pos = Ret (None, Some (p', lsn'), e')).
Proof. intros. by apply first_page_ok with e. Qed.

(** C26. The check of the client array decides what the lists of clients are to be: from
    the first free and the first used client, the links lead to the end through clients of
    the array, the first of each list has no previous one, and together the lists have no
    more clients than the array.  In particular neither list has a loop. *)
Theorem log_clients_spec rp ra ca_ofs n free in_use :
  Forall byte_ok rp -> page_clients rp ra ca_ofs n free in_use -> ra + ca_ofs + n * sizeof_LCR <= zlen rp ->
  0 <= ra -> 0 <= ca_ofs -> 0 <= n -> 0 <= free -> 0 <= in_use ->
  exists b, ntfs_check_log_client_array rp = Ret b /\
    (b = true <-> exists lf lu, clients rp n (ra + ca_ofs) free lf /\ clients rp n (ra + ca_ofs) in_use lu /\
       first_ok rp (ra + ca_ofs) lf /\ first_ok rp (ra + ca_ofs) lu /\ NoDup lf /\ NoDup lu /\ zlen lf + zlen lu <= n).
Proof.
  intros Hb Hp Hin H1 H2 H3 H4 H5. destruct (check_clients_ok rp ra ca_ofs n free in_use) as (b & E & Hbb); [done..|]. exists b. split; [done|]. rewrite Hbb.
  split; intros (lf & lu & Hf & Hu & H); exists lf, lu; [pose proof (clients_nodup _ _ _ _ _ Hf); pose proof (clients_nodup _ _ _ _ _ Hu)|]; naive_solver.
Qed.

(** ** A journal *)
Definition pad (n : Z) (l : bytes) : bytes := l ++ replicate (Z.to_nat (n - zlen l)) 0.

(** A restart page of version 1.1 with one client, which is in use. *)
Definition some_header (usa_ofs usa_count size ra : Z) : bytes :=
  le_bytes 4 magic_RSTR ++ le_bytes 2 usa_ofs ++ le_bytes 2 usa_count ++ le_bytes 8 0 ++ le_bytes 4 size ++ le_bytes 4 4096 ++ le_bytes 2 ra ++ le_bytes 2 1 ++ le_bytes 2 1.
Definition some_area (clients in_use flags ca_ofs length : Z) : bytes :=
  le_bytes 8 77 ++ le_bytes 2 clients ++ le_bytes 2 LOGFILE_NO_CLIENT ++ le_bytes 2 in_use ++ le_bytes 2 flags ++ le_bytes 4 49 ++ le_bytes 2 length ++ le_bytes 2 ca_ofs ++
  le_bytes 8 204800 ++ le_bytes 4 0 ++ le_bytes 2 48 ++ le_bytes 2 64 ++ le_bytes 4 0 ++ le_bytes 4 0.
Definition some_client : bytes := replicate 16 0 ++ le_bytes 2 LOGFILE_NO_CLIENT ++ le_bytes 2 LOGFILE_NO_CLIENT.

(** The update sequence array is behind the header, the area at 40, the client at 88. *)
Definition some_page : bytes :=
  pad 510 (pad 40 (some_header 30 2 512 40 ++ le_bytes 2 7 ++ le_bytes 2 9) ++ some_area 1 0 2 48 208 ++ some_client) ++ le_bytes 2 7.
Definition blank (n : Z) : bytes := replicate (Z.to_nat n) 255.
Definition some_journal : bytes := some_page ++ blank (204800 - 512).

(** An attribute with these bytes. *)
Definition attr_of (file : bytes) : log_attr :=
  LOGATTR (zlen file) (fun errno pos count => (Some (sub file pos (Z.max 0 (Z.min count (zlen file - pos)))), errno)).
Definition memory (size : Z) : bool := true.

Lemma attr_of_reads file : reads_from (attr_of file) file.
Proof.
  intros errno pos count br errno' Hp E. injection E as <- <-. destruct (Z.le_gt_cases pos (zlen file)); [by rewrite zlen_sub by lia|].
  replace (Z.max 0 (Z.min count (zlen file - pos))) with 0 by lia. by rewrite !sub_0.
Qed.

Lemma attr_of_exact file errno pos count : 0 <= pos -> 0 <= count -> pos + count <= zlen file -> attr_pread (attr_of file) errno pos count = (Some (sub file pos count), errno).
Proof. intros. cbn. by replace (Z.max 0 (Z.min count (zlen file - pos))) with count by lia. Qed.

Lemma some_journal_ok : Forall byte_ok some_journal /\ calm some_journal = true.
Proof. split; [apply bytes_checked|]; vm_compute; reflexivity. Qed.

Lemma journal_check_safe_witness : exists err flag, ntfs_volume_check_logfile (Some (Some (attr_of some_journal))) memory false None None = Ret (err, flag).
Proof. apply (journal_check_safe (attr_of some_journal) memory some_journal); [apply some_journal_ok|apply attr_of_reads|apply some_journal_ok]. Defined.

Lemma mounted_is_clean_witness : false = true \/ clean_journal some_journal.
Proof.
  apply (mounted_is_clean (attr_of some_journal) memory some_journal false None None false); [apply some_journal_ok|apply attr_of_reads|apply some_journal_ok|].
  vm_compute. reflexivity.
Defined.

(** The condition on later pages, as a check. *)
Definition fits (file : bytes) (pos : Z) : bool :=
  if zlen file <? pos + 512 then true else
  match ntfs_check_restart_page_header (sub file pos 512) pos with Ret true => (pos <=? 0) || (2 * pos <=? zlen file) | _ => true end.

Lemma pages_fit_checked file : forallb (fits file) probes = true -> pages_fit file.
Proof.
  rewrite forallb_forall. intros H pos Hpos Hp Hin Hh. specialize (H pos (proj1 (list_elem_of_In _ _) Hpos)). unfold fits in H. rewrite Hh in H.
  destruct (Z.ltb_spec (zlen file) (pos + 512)); lia.
Qed.

(** What is loaded of the page: the fixup puts the saved word in place. *)
Definition some_loaded : bytes := take 510 some_page ++ le_bytes 2 9.

Lemma restart_page_found_witness :
  exists p' lsn', ntfs_check_logfile (attr_of some_journal) memory false None = Ret (true, Some p', false) /\ 77 <= lsn' /\
    (p' = some_loaded /\ lsn' = 77 \/ 77 < lsn' /\ exists pos e e', pos ∈ probes /\ 0 < pos /\
       ntfs_check_and_load_restart_page (attr_of some_journal) memory e (sub some_journal pos 512) pos = Ret (None, Some (p', lsn'), e')).
Proof.
  apply (restart_page_found (attr_of some_journal) memory some_journal None some_loaded 77 None).
  - apply some_journal_ok.
  - apply attr_of_reads.
  - apply some_journal_ok.
  - done.
  - apply attr_of_exact.
  - apply pages_fit_checked. vm_compute. reflexivity.
  - vm_compute. split; discriminate.
  - left. vm_compute. reflexivity.
  - vm_compute. reflexivity.
Defined.

Lemma log_clients_spec_witness : exists b, ntfs_check_log_client_array some_page = Ret b /\
  (b = true <-> exists lf lu, clients some_page 1 (40 + 48) 65535 lf /\ clients some_page 1 (40 + 48) 0 lu /\
     first_ok some_page (40 + 48) lf /\ first_ok some_page (40 + 48) lu /\ NoDup lf /\ NoDup lu /\ zlen lf + zlen lu <= 1).
Proof.
  apply (log_clients_spec some_page 40 48 1 65535 0).
  - apply bytes_checked. vm_compute. reflexivity.
  - split_and!; vm_compute; reflexivity.
  - vm_compute. discriminate.
  - lia.
  - lia.
  - lia.
  - lia.
  - lia.
Defined.

(** The example is accepted only with the flag that says clean. *)
Example some_journal_mounted : ntfs_volume_check_logfile (Some (Some (attr_of some_journal))) memory false None None = Ret (None, false).
Proof. vm_compute. reflexivity. Qed.
Example unclean_refused :
  let page := pad 510 (pad 40 (some_header 30 2 512 40 ++ le_bytes 2 7 ++ le_bytes 2 9) ++ some_area 1 0 0 48 208 ++ some_client) ++ le_bytes 2 7 in
  ntfs_volume_check_logfile (Some (Some (attr_of (page ++ blank (204800 - 512))))) memory false None None = Ret (Some EOPNOTSUPP, false).
Proof. vm_compute. reflexivity. Qed.

(** A page that passes the check of its header but is longer than the rest of the journal
    fails with EIO when it is loaded, and the whole journal is refused, although its first
    page is consistent. *)
Example long_page_refused :
  let page := pad 512 (pad 40 (le_bytes 4 magic_CHKD ++ drop 4 (some_header 30 0 131072 40)) ++ some_area 1 0xffff 2 48 208 ++ some_client) in
  let file := some_page ++ replicate (Z.to_nat (131072 - 512)) 0 ++ page ++ replicate (Z.to_nat (204800 - 131072 - 512)) 0 in
  calm file = true /\ zlen file = 204800 /\
  ntfs_check_and_load_restart_page (attr_of file) memory None (sub file 0 512) 0 = Ret (None, Some (some_loaded, 77), None) /\
  ntfs_check_and_load_restart_page (attr_of file) memory None page 131072 = Ret (Some EIO, None, None) /\
  ntfs_check_logfile (attr_of file) memory false None = Ret (false, None, false).
Proof. vm_compute. split_and!; reflexivity. Qed.

(** ** What [risky] excludes *)
(** The client array may begin inside of the restart area, so an area that begins at 480
    passes, and its last fields are read behind the block of 512 bytes. *)
Example area_behind_block :
  let block := take 512 (pad 480 (some_header 30 3 1024 480) ++ some_area 0 0xffff 0 0 48) in
  zlen block = 512 /\ ntfs_check_restart_page_header block 0 = Ret true /\ ntfs_check_restart_area block = Fault.
Proof. vm_compute. split_and!; reflexivity. Qed.

(** The size of the client array is computed in 16 bits: 4096 clients pass for none, and
    the last of them is read 640 KiB behind the page. *)
Example clients_behind_page :
  let page := pad 512 (pad 40 (some_header 30 2 512 40) ++ some_area 4096 4095 0 48 48 ++ some_client) in
  ntfs_check_restart_page_header page 0 = Ret true /\ ntfs_check_restart_area page = Ret true /\ ntfs_check_log_client_array page = Fault.
Proof. vm_compute. split_and!; reflexivity. Qed.

(** The end of the update sequence array is computed in 16 bits: in a page of 64 KiB the
    array may be at its end, and the fixup reads the two bytes behind it. *)
Example usa_behind_page :
  let page := pad 65536 (some_header 65280 129 65536 40) in
  ntfs_check_restart_page_header (sub page 0 512) 0 = Ret true /\ unprotect None (sub page 0 512) page 40 65536 = Fault.
Proof. vm_compute. split; reflexivity. Qed.

(** A page that is torn behind its first sector is accepted when its contents are in
    front of the tear, but the fixup marked it as bad, and then it is not taken for a
    restart page any more. *)
Example torn_page_refused :
  let page := pad 510 (pad 40 (some_header 30 3 1024 40 ++ le_bytes 2 7 ++ le_bytes 4 0) ++ some_area 1 0 2 48 208 ++ some_client) ++ le_bytes 2 7 ++ replicate 512 0 in
  exists p lsn, ntfs_check_and_load_restart_page (attr_of page) memory None (sub page 0 512) 0 = Ret (None, Some (p, lsn), Some EIO) /\
    ntfs_is_logfile_clean false (Some p) = Ret false.
Proof. eexists _, _. split; vm_compute; reflexivity. Qed.

(** When there is no memory for the page, [errno] is returned, which nothing has set: with
    [errno] 0 that is success, without a page. *)
Example no_memory_no_error : ntfs_check_and_load_restart_page (attr_of some_journal) (fun _ => false) None some_page 0 = Ret (None, None, None).
Proof. vm_compute. reflexivity. Qed.
